(* ===== verification/_CoqProject ===== *)
-Q . S2P
Prelude.v
StateMonad.v
Multimap.v
Utils.v
Float.v
OrdSet.v
SeqManager.v
RtpRetransmissionBuffer.v
NackGenerator.v
RateCalculator.v
RtcpPacket.v
RtcpReports.v
RtcpSdes.v
RtcpFeedback.v
RtcpTransport.v
RtcpXr.v
Rtcp.v
RtpPacket.v
RtpPacketSpec.v
RtpExtensions.v
RtpClone.v
RtpListener.v
KeyFrameRequestManager.v
StunPacket.v
StunPacketSpec.v
IceServer.v
IceServerSpec.v
Codecs.v
CodecsSpec.v
Payload.v
RtpParameters.v
RtpStream.v
RtpStreamRecv.v
RtpStreamSend.v
RtpStreamSpec.v
RetransmissionSpec.v
Consumer.v
ConsumerSpec.v
Producer.v
ProducerSpec.v
StreamReads.v
SimulcastConsumer.v
SimulcastSpec.v
SimulcastHistory.v
SvcConsumer.v
SvcSpec.v
SimpleConsumer.v
PipeConsumer.v
AnyConsumer.v
Allocation.v
Transport.v
TransportSpec.v
Probation.v
CongestionControl.v
CongestionSpec.v
CongestionClient.v
CongestionClientSpec.v
AudioLevelObserver.v
ActiveSpeakerObserver.v
ActiveSpeakerSpec.v
DataChannel.v
ChannelMessageRegistrator.v
MidExtension.v
Ownership.v
Router.v
TransportEvents.v
WorkerRequests.v
RouterObservers.v
RouterInvariant.v
RouterClosing.v
RouterOpening.v
RouterTeardown.v
RouterEvents.v
TransportHandlers.v
RouterTimers.v
RouterSpec.v
