(* ===== verification/Prelude.v ===== *)
(** * The mediasoup worker: a verification library

    The worker ([src/worker]) is the C++ process of mediasoup that forwards RTP media
    between WebRTC endpoints.  Its own logic, as opposed to the libraries it drives
    (libuv, OpenSSL, libsrtp, usrsctp, libwebrtc), is the handling of RTP, RTCP and STUN
    packets, the state of every stream, and the objects that connect the streams: routers,
    transports, producers, consumers, observers.  This library models that logic as Rocq
    functions, file by file, and proves what makes it correct.

    ** How the parts of the worker interact

    A transport hands every datagram to [StunPacket::Parse] and the [IceServer], to
    [RTCP::Packet::Parse] or to [RtpPacket::Parse].  The [RtpListener] of the transport finds
    the producer of an RTP packet; the producer finds or creates its [RtpStreamRecv], which
    updates the counters ([RateCalculator]) and the loss detection ([NackGenerator]), and
    mangles the packet ([RtpPacket::SetExtensions]).  The router sends the packet to the
    consumers of the producer and to its observers.  A consumer (simple, simulcast, SVC or
    pipe) chooses the layers to forward ([Codecs]), renumbers the packet ([SeqManager]) and
    keeps it for retransmission ([RtpStreamSend], [RtpRetransmissionBuffer],
    [RtpPacket::RtxEncode]).  Towards the sender, the worker answers with RTCP: receiver
    reports, NACK, PLI/FIR ([KeyFrameRequestManager]), REMB and transport-wide feedback
    ([TransportCongestionControlServer]), collected in [RTCP::CompoundPacket].  Requests of the
    control process reach the objects through the registry of their ids
    ([ChannelMessageRegistrator]).

    ** Files

    Foundations:
    - [Prelude]: machine integers as [Z] with explicit wrap-around ([uwrap], [u8] ... [u64],
      [i16]), the [res] monad whose faults are the ways the C++ code can go wrong (access
      outside of a buffer, null dereference, failed [MS_ASSERT], conversion out of range,
      division by zero, wrong cast, exhausted fuel of the model), lists with integer lengths, tactics and hints.
    - [StateMonad]: state passing over a world, with faults and postconditions.
    - [Multimap], [OrdSet]: the ordered containers of the source.
    - [Float]: conversions of [double] and correctly rounded quotients.
    - [Utils]: [include/Utils.hpp], [src/Utils/Crypto.cpp]: byte access, bit counts, CRC32,
      random strings, NTP times.

    Parts of a stream ([RTC/]):
    - [SeqManager]: renumbering of a stream with dropped packets.
    - [RtpRetransmissionBuffer]: the sent packets, by sequence number, as a sparse window.
    - [NackGenerator]: which packets to request again, and when.
    - [RateCalculator]: [RateCalculator] and [TrendCalculator].
    - [KeyFrameRequestManager]: which key frame requests are sent, and when.
    - [RtpStream], [RtpStreamRecv], [RtpStreamSend]: the streams; [RtpStreamSpec] and
      [RetransmissionSpec] say what they promise.

    Packets:
    - [RtcpPacket]: the common RTCP header.  [RtcpReports]: sender and receiver reports.
      [RtcpSdes]: SDES and BYE.  [RtcpFeedback]: the feedback messages of RFC 4585 and 5104
      and REMB.  [RtcpTransport]: transport-wide congestion control feedback.  [RtcpXr]:
      extended reports.  [Rtcp]: [Packet::Parse] over a whole datagram and
      [CompoundPacket].
    - [RtpPacket]: parsing, header extension, RTX, copies, over a memory with offsets.
      [RtpPacketSpec], [RtpExtensions], [RtpClone], [MidExtension]: what these operations do,
      on the parts of a packet.
    - [StunPacket], [StunPacketSpec]: STUN messages and their authentication.
    - [Codecs], [CodecsSpec]: the payload descriptors; [Payload]: the context of each consumer.
    - [RtpParameters]: [RtpDictionaries/RtpParameters.cpp] and the data it validates.

    Objects:
    - [RtpListener]: [RtpListener] and [SctpListener], the tables that route packets.
    - [IceServer], [IceServerSpec]: the ICE server of a transport.
    - [Producer], [ProducerSpec]: producers.
    - [Consumer], [ConsumerSpec]: the base class; [SimulcastConsumer], [SvcConsumer],
      [SimpleConsumer], [PipeConsumer]: the four kinds, with [SimulcastSpec],
      [SimulcastHistory], [SvcSpec]; [StreamReads]: what they read of the producer's streams.
    - [AnyConsumer]: the virtual methods of a consumer.  [Allocation]: the interface
      [Allocating] between a transport and its consumers, with an instance for each kind.
      [Transport], [TransportSpec]: sharing the outgoing bitrate out, proved against it.
    - [Probation]: the packets that probe the bandwidth.  [CongestionControl], [CongestionSpec]:
      [TransportCongestionControlServer], the feedback on what is received.  [CongestionClient],
      [CongestionClientSpec]: [TransportCongestionControlClient] and the sending of packets in
      [Transport.cpp]; libwebrtc is a trace of the calls it gets.
    - [AudioLevelObserver], [ActiveSpeakerObserver], [ActiveSpeakerSpec]: the observers.
    - [DataChannel]: data producers and data consumers.
    - [ChannelMessageRegistrator]: the registry of the handlers of requests.

    The router and everything it connects:
    - [Ownership]: tables of objects, their owners and routes, over maps only.
    - [Router]: [Router.cpp], and the part of [Transport.cpp] that creates and closes objects,
      with the objects in heaps.  [TransportEvents]: what a transport receives.
      [WorkerRequests]: the delivery of requests and notifications.
    - [RouterObservers], [RouterInvariant]: the invariant.  [RouterClosing], [RouterOpening],
      [RouterTeardown], [RouterEvents], [TransportHandlers]: every operation keeps it.
      [RouterTimers]: the events of a history, and the timers that are left running.
      [RouterSpec]: every history of operations keeps the invariant.

    ** How the code is modelled

    A class is a record of its members and each method a function on it; a method that
    changes the object returns the new one.  Data keeps its width: an unsigned [w]-bit
    value is a [Z] and every C++ operation that can wrap is followed by [uwrap w].  Buffers
    are lists of bytes and pointers are offsets into them, so an access outside of a buffer
    is a [Fault].  Objects that are shared or deleted while others point to them (tuples of
    the ICE server, key frame requests, packets kept for retransmission, all objects of a
    router) live in heaps, and following the pointer of a deleted one is a [Fault].  Loops that
    are not structural take a fuel argument; the fuel given by the operation is the number of
    bytes or of items the loop can consume, and the theorems that an operation returns [Ok]
    prove that it is enough, since an exhausted fuel is a fault.  Time, random numbers and the
    listeners of a class are arguments and results; functions of libraries ([std::pow],
    [std::log], HMAC-SHA1, the order in which a hash map is walked) are parameters.

    ** What is proved

    - Robustness: no datagram makes the RTP, RTCP or STUN parsers, or those of the VP8, VP9 and
      H264 payload descriptors, read outside of it or abort (that of H264-SVC can read one byte
      past a NAL unit header, [h264_svc_overread]), and [RtpPacket::Parse] accepts exactly the
      well-formed packets; no reader of a header extension leaves the packet.
    - Invariants over all histories: of the objects of a router (no request, packet or
      connection state makes a handler follow a dangling pointer, and no timer does but that of
      an observer whose creation was refused, [refused_observer_timer]; what is closed is gone
      from every table), of producers, simulcast consumers, the ICE server, the retransmission buffer,
      the NACK generator and both sides of the congestion control, each within the bounds its
      theorem states.
    - Round trips: the RTCP packets are read back as they were written, alone and in a compound
      packet, within the conditions each theorem states (an SDES chunk that is followed by another
      one ends with padding, a DLRR block has at most one sub-block; the theorems
      [sdes_unterminated_chunk], [dlrr_second_info_lost], [rpsi_create_overflows],
      [vbcm_create_copies_two_bytes] and [totalLost_not_twos_complement] show what happens
      outside of them); STUN messages, whose nomination is not written; RTX encoding and decoding; extensions that are set are
      found; a payload descriptor that is rewritten for a consumer is restored for the next.
    - Functional behaviour: the packet of a producer reaches exactly its consumers; the sequence
      numbers a consumer sees are consecutive; a gap is requested exactly and a NACK is answered
      with the packets it asks for; the rate is the sum over the window; transport-wide feedback
      reports the arrival times it was built from, and the feedback packets of a server, one
      after the other, report every packet after the first that arrived in order; probation packets have the
      sizes and the consecutive numbers that are asked for; the expected and lost packets of a
      report; the layers a consumer targets; the speakers the observers name; [CRC32] is the
      polynomial remainder.
    - Refinement: key frame requests, ICE as its listener sees it, the rate window, the
      extended sequence numbers and the RTP packet refine abstract specifications.
    - Termination and liveness: the rounds in which a transport shares its bitrate out end; a
      key frame request is repeated; a key frame brings a VP9 consumer to its target spatial layer.
    - Behaviours that the code or its comments do not intend, each proved on a concrete run
      or in general: they are marked as findings in the manifest.

    ** What is not modelled

    The code that only drives a library: sockets, timers and ports (libuv), DTLS, SRTP and SCTP
    (OpenSSL, libsrtp, usrsctp), the bandwidth estimation of libwebrtc, and so the classes
    of transports ([WebRtcTransport], [PlainTransport], [PipeTransport], [DirectTransport]) and
    [WebRtcServer], which wire sockets to the parts above, and the statistics of [Transport].
    [SenderBandwidthEstimator], which is not compiled unless a macro is defined.  The set-up of the process, its settings and the JSON
    of its channels; logging, [Dump] and [FillJson] methods, which only read. *)

From Stdlib Require Export ZArith Lia Sorted.
From stdpp Require Export base tactics list list_numbers numbers option sets.

#[global] Open Scope Z_scope.

(** ** Machine integers

    An unsigned integer of the worker is a [Z]; the wrap-around of the C++ type
    is written where the source computes at that width. *)

Definition uwrap (w z : Z) : Z := z mod 2 ^ w.

Abbreviation u8 := (uwrap 8).
Abbreviation u16 := (uwrap 16).
Abbreviation u32 := (uwrap 32).
Abbreviation u64 := (uwrap 64).

(** The range of a [w]-bit unsigned integer. *)
Definition fits (w z : Z) : Prop := 0 <= z < 2 ^ w.

#[global] Instance fits_dec w z : Decision (fits w z).
Proof. unfold fits. apply _. Defined.

(** Constant powers of two and remainders, for [lia]. *)
Ltac pow2_consts :=
  change (2 ^ 1) with 2 in *; change (2 ^ 2) with 4 in *; change (2 ^ 3) with 8 in *;
  change (2 ^ 4) with 16 in *; change (2 ^ 5) with 32 in *;
  change (2 ^ 6) with 64 in *; change (2 ^ 7) with 128 in *;
  change (2 ^ 8) with 256 in *; change (2 ^ 9) with 512 in *;
  change (2 ^ 14) with 16384 in *; change (2 ^ 15) with 32768 in *;
  change (2 ^ 16) with 65536 in *; change (2 ^ 24) with 16777216 in *;
  change (2 ^ 31) with 2147483648 in *; change (2 ^ 32) with 4294967296 in *;
  change (2 ^ 64) with 18446744073709551616 in *.

Ltac ulia :=
  unfold uwrap, fits in *; pow2_consts; Z.div_mod_to_equations; lia.

Lemma uwrap_fits w z : 0 <= w -> fits w (uwrap w z).
Proof. intros. unfold uwrap, fits. apply Z.mod_pos_bound. lia. Qed.

Lemma uwrap_id w z : fits w z -> uwrap w z = z.
Proof. unfold uwrap, fits. apply Z.mod_small. Qed.

(** Conversion to [int16_t]. *)
Definition i16 (z : Z) : Z := if u16 z <? 2 ^ 15 then u16 z else u16 z - 2 ^ 16.

Lemma i16_small z : - 2 ^ 15 <= z < 2 ^ 15 -> i16 z = z.
Proof.
  intros. unfold i16, uwrap. pow2_consts.
  destruct (Z.ltb_spec (z mod 65536) 32768); Z.div_mod_to_equations; lia.
Qed.

(** Conversion to [int64_t]. *)
Definition i64 (z : Z) : Z := if u64 z <? 2 ^ 63 then u64 z else u64 z - 2 ^ 64.

(** ** Faults

    The code can go wrong in ways that are not error values: a read or write
    outside a buffer, a null pointer dereference, a failed [MS_ASSERT] (which
    aborts the worker), an exhausted model fuel, a conversion from floating point to an
    integer type that cannot hold the value (undefined behaviour in C++), a variable that is
    read before it is set, a [static_cast] to a class the object does not have.  [res] makes
    them explicit, so that their absence is a theorem. *)

Inductive fault : Set :=
| OutOfBounds
| NullDeref
| AssertFailed
| OutOfFuel
| BadConversion
| Uninitialized
| BadCast
| DivideByZero.

Inductive res (A : Type) : Type :=
| Ok (a : A)
| Fault (f : fault).
Arguments Ok {A} a.
Arguments Fault {A} f.

#[global] Instance res_ret : MRet res := fun A a => Ok a.
#[global] Instance res_bind : MBind res := fun A B f r =>
  match r with Ok a => f a | Fault e => Fault e end.
#[global] Instance res_fmap : FMap res := fun A B f r =>
  match r with Ok a => Ok (f a) | Fault e => Fault e end.

#[global] Instance fault_eq_dec : EqDecision fault.
Proof. solve_decision. Defined.
#[global] Instance res_eq_dec {A} `{EqDecision A} : EqDecision (res A).
Proof. solve_decision. Defined.

(** [MS_ASSERT(cond)]. *)
Definition ms_assert (cond : bool) : res unit :=
  if cond then Ok tt else Fault AssertFailed.

(** Dereference of a pointer that may be null. *)
Definition deref {A} (p : option A) : res A :=
  match p with Some a => Ok a | None => Fault NullDeref end.

(** A computation that returns, without any fault. *)
Definition safe {A} (r : res A) : Prop := exists a, r = Ok a.

Lemma safe_ok {A} (a : A) : safe (Ok a).
Proof. by exists a. Qed.

Lemma safe_bind {A B} (r : res A) (f : A -> res B) a :
  r = Ok a -> safe (f a) -> safe (r ≫= f).
Proof. intros -> H. exact H. Qed.

Lemma res_bind_ok {A B} (r : res A) (f : A -> res B) b :
  r ≫= f = Ok b -> exists a, r = Ok a /\ f a = Ok b.
Proof. destruct r; simpl; [eauto|discriminate]. Qed.

(** Inversion of a chain of successful [res] computations. *)
Ltac res_inv :=
  repeat match goal with
  | H : (_ ≫= _) = Ok _ |- _ =>
      apply res_bind_ok in H; destruct H as (? & ? & ?)
  | H : Ok _ = Ok _ |- _ => injection H as H; subst
  | H : Fault _ = Ok _ |- _ => discriminate H
  | H : mret _ = Ok _ |- _ => injection H as H; subst
  end.

(** ** Hint databases of the development *)

Create HintDb mediasoup.
#[export] Hint Resolve safe_ok uwrap_fits : mediasoup.

(** ** Booleans that come from C++ comparisons *)

Lemma bool_true_iff (b : bool) (P : Prop) : (b = true <-> P) -> ~ P -> b = false.
Proof. destruct b; tauto. Qed.

(** Destruct the integer comparisons of the goal or of the hypotheses. *)
Ltac case_cmp :=
  repeat match goal with
  | |- context [?a <? ?b] => destruct (Z.ltb_spec a b)
  | |- context [?a <=? ?b] => destruct (Z.leb_spec a b)
  | |- context [?a =? ?b] => destruct (Z.eqb_spec a b)
  | H : context [?a <? ?b] |- _ => destruct (Z.ltb_spec a b)
  | H : context [?a <=? ?b] |- _ => destruct (Z.leb_spec a b)
  | H : context [?a =? ?b] |- _ => destruct (Z.eqb_spec a b)
  end.

(** ** List facts shared by the components *)

Definition zlen {A} (l : list A) : Z := Z.of_nat (length l).

Lemma zlen_nonneg {A} (l : list A) : 0 <= zlen l.
Proof. unfold zlen. lia. Qed.

Lemma zlen_app {A} (l k : list A) : zlen (l ++ k) = zlen l + zlen k.
Proof. unfold zlen. rewrite length_app. lia. Qed.

Lemma zlen_cons {A} (x : A) l : zlen (x :: l) = zlen l + 1.
Proof. unfold zlen. simpl. lia. Qed.

Lemma zlen_nil {A} : zlen (@nil A) = 0.
Proof. reflexivity. Qed.

Lemma zlen_drop {A} n (l : list A) : zlen (drop n l) = Z.max 0 (zlen l - Z.of_nat n).
Proof. unfold zlen. rewrite length_drop. lia. Qed.

Lemma zlen_replicate {A} n (x : A) : 0 <= n -> zlen (replicate (Z.to_nat n) x) = n.
Proof. intros. unfold zlen. rewrite length_replicate. lia. Qed.

Lemma zlen_0_nil {A} (l : list A) : zlen l = 0 -> l = [].
Proof. destruct l; [done|rewrite zlen_cons; pose proof (zlen_nonneg l); lia]. Qed.

(** ** Bit facts *)

Lemma testbit_above a k i : 0 <= a < 2 ^ k -> 0 <= k <= i -> Z.testbit a i = false.
Proof.
  intros Ha Hk. rewrite <- (Z.mod_small a (2 ^ k)) by done.
  apply Z.mod_pow2_bits_high. lia.
Qed.

(** Disjoint bit fields: or-ing is adding. *)
Lemma lor_shiftl_add a b k :
  0 <= k -> 0 <= a < 2 ^ k -> Z.lor a (Z.shiftl b k) = a + b * 2 ^ k.
Proof.
  intros Hk Ha.
  assert (Hl : Z.land a (Z.shiftl b k) = 0).
  { apply Z.bits_inj'. intros i Hi. rewrite Z.land_spec, Z.bits_0.
    destruct (Z.lt_ge_cases i k).
    - rewrite Z.shiftl_spec_low by done. apply andb_false_r.
    - rewrite (testbit_above a k) by lia. done. }
  rewrite <- Z.lxor_lor, <- Z.add_nocarry_lxor by done.
  by rewrite Z.shiftl_mul_pow2.
Qed.

Lemma land_ones_mod a k : 0 <= k -> Z.land a (2 ^ k - 1) = a mod 2 ^ k.
Proof. intros. rewrite <- Z.land_ones by done. f_equal. rewrite Z.ones_equiv. lia. Qed.

(** ** Locally sorted lists *)

Lemma Sorted_app_iff {A} (R : A -> A -> Prop) (l k : list A) :
  Sorted R (l ++ k) <->
  Sorted R l /\ Sorted R k /\
  (forall a b, list.last l = Some a -> head k = Some b -> R a b).
Proof.
  induction l as [|x l IH]; simpl.
  - split; [intros H; split_and!; [constructor|done|done]|tauto].
  - split.
    + intros H. apply Sorted_inv in H as [Hs Hh]. apply IH in Hs as (H1 & H2 & H3).
      split_and!; [constructor; [done|]|done|].
      * destruct l; [constructor|]. simpl in Hh. inversion Hh; subst. by constructor.
      * intros a b Ha Hb. destruct l as [|y l]; [|by apply H3].
        simplify_eq/=. destruct k; simplify_eq/=. by inversion Hh.
    + intros (H1 & H2 & H3). apply Sorted_inv in H1 as [Hs Hh].
      constructor.
      * apply IH. split_and!; [done..|]. intros a b Ha Hb. apply H3; [|done].
        by destruct l.
      * destruct l as [|y l]; simpl.
        -- destruct k; [constructor|]. constructor. by apply H3.
        -- inversion Hh; subst. by constructor.
Qed.

Lemma last_drop_ne {A} (l : list A) n : drop n l <> [] -> list.last (drop n l) = list.last l.
Proof.
  intros H. rewrite <- (take_drop n l) at 2. rewrite last_app.
  destruct (list.last (drop n l)) eqn:E; [done|]. by apply last_None in E.
Qed.

(** The value of a call that returned. *)
Definition is_ok {A} (r : res A) : bool := match r with Ok _ => true | Fault _ => false end.
Definition from_ok {A} (r : res A) : is_ok r = true -> A :=
  match r with Ok a => fun _ => a | Fault _ => fun H => match Bool.diff_false_true H with end end.

Lemma from_ok_eq {A} (r : res A) H : r = Ok (from_ok r H).
Proof. by destruct r. Qed.
