(* ===== verification/StateMonad.v ===== *)
(** * State passing with faults

    The monad of the components that drive others (producers, transports, observers): state
    passing over a world [W] with the faults of [res], its operations, and postconditions:
    [post m Q E w] says that [m], run in [w], returns with [Q] or faults with [E]. *)

From stdpp Require Import base.
From S2P Require Import Prelude.

Definition St (W A : Type) : Type := W -> res (A * W).

#[global] Instance St_ret W : MRet (St W) := fun A a w => Ok (a, w).
#[global] Instance St_bind W : MBind (St W) := fun A B f m w =>
  match m w with Ok (a, w') => f a w' | Fault e => Fault e end.

Definition asks {W A} (f : W -> A) : St W A := fun w => Ok (f w, w).
Definition change {W} (f : W -> W) : St W unit := fun w => Ok (tt, f w).
Definition from_res {W A} (r : res A) : St W A := fun w => a ← r; Ok (a, w).
Definition only {W} (b : bool) (m : St W unit) : St W unit := if b then m else mret tt.

(** The loop [for (x : l) f(x)]. *)
Fixpoint for_each {W A} (f : A -> St W unit) (l : list A) : St W unit :=
  match l with
  | [] => mret tt
  | x :: l' => _ ← f x; for_each f l'
  end.

Definition post {W A} (m : St W A) (Q : A -> W -> Prop) (E : fault -> Prop) (w : W) : Prop :=
  match m w with Ok (a, w') => Q a w' | Fault e => E e end.

Section Post.

Context {W : Type}.
Implicit Types (w : W) (E : fault -> Prop).

Lemma post_ret {A} (a : A) (Q : A -> W -> Prop) E w : Q a w -> post (mret a) Q E w.
Proof. done. Qed.

Lemma post_bind {A B} (m : St W A) (f : A -> St W B) (Q : B -> W -> Prop) E w :
  post m (fun a => post (f a) Q E) E w -> post (m ≫= f) Q E w.
Proof. unfold post, mbind, St_bind. by destruct (m w) as [[a w']|]. Qed.

Lemma run_bind {A B} (m : St W A) (f : A -> St W B) w a w' : m w = Ok (a, w') -> (m ≫= f) w = f a w'.
Proof. unfold mbind, St_bind. by intros ->. Qed.

Lemma post_unbind {A B} (m : St W A) (f : A -> St W B) (Q : B -> W -> Prop) E w :
  post (m ≫= f) Q E w -> post m (fun a => post (f a) Q E) E w.
Proof. unfold post, mbind, St_bind. by destruct (m w) as [[a w']|]. Qed.

Lemma post_mono {A} (m : St W A) (Q Q' : A -> W -> Prop) E w :
  post m Q E w -> (forall a w', Q a w' -> Q' a w') -> post m Q' E w.
Proof. unfold post. destruct (m w) as [[a w']|]; auto. Qed.

Lemma post_never {A} (m : St W A) (Q : A -> W -> Prop) E w : post m Q (fun _ => False) w -> post m Q E w.
Proof. unfold post. by destruct (m w) as [[a w']|]. Qed.

Lemma post_both {A} (m : St W A) (Q Q' : A -> W -> Prop) E E' w :
  post m Q E w -> post m Q' E' w -> post m (fun a w' => Q a w' /\ Q' a w') E w.
Proof. unfold post. destruct (m w) as [[a w']|]; auto. Qed.

Lemma post_asks {A} (f : W -> A) (Q : A -> W -> Prop) E w : Q (f w) w -> post (asks f) Q E w.
Proof. done. Qed.

Lemma post_change f (Q : unit -> W -> Prop) E w : Q tt (f w) -> post (change f) Q E w.
Proof. done. Qed.

Lemma post_from_res {A} (r : res A) (Q : A -> W -> Prop) E w :
  match r with Ok a => Q a w | Fault e => E e end -> post (from_res r) Q E w.
Proof. unfold post, from_res. by destruct r. Qed.

Lemma post_only b m (Q : unit -> W -> Prop) E w :
  (b = true -> post m Q E w) -> (b = false -> Q tt w) -> post (only b m) Q E w.
Proof. destruct b; unfold only; eauto using post_ret. Qed.

(** A loop whose body keeps [I]. *)
Lemma post_for_each {A} (f : A -> St W unit) (I : W -> Prop) E l :
  (forall x w, x ∈ l -> I w -> post (f x) (fun _ => I) E w) -> forall w, I w -> post (for_each f l) (fun _ => I) E w.
Proof.
  induction l as [|x l IH]; intros Hf w Hw; cbn [for_each]; [by apply post_ret|].
  apply post_bind. eapply post_mono; [apply Hf; [by left|done]|]. intros [] w1 H1. apply IH; [|exact H1]. intros y w2 Hy. apply Hf. by right.
Qed.

End Post.

(** ** Invariants

    [always I m]: [m] keeps [I] when it returns; [steady I E m]: and it faults with [E] only. *)

Definition steady {W A} (I : W -> Prop) (E : fault -> Prop) (m : St W A) : Prop := forall w, I w -> post m (fun _ => I) E w.
Abbreviation always I := (steady I (fun _ => True)).

Section Steady.

Context {W : Type} (I : W -> Prop) (E : fault -> Prop).

Lemma steady_ret {A} (a : A) : steady I E (mret a).
Proof. intros w Hw. exact Hw. Qed.

Lemma steady_bind {A B} (m : St W A) (f : A -> St W B) : steady I E m -> (forall a, steady I E (f a)) -> steady I E (m ≫= f).
Proof. intros Hm Hf w Hw. apply post_bind. eapply post_mono; [exact (Hm w Hw)|]. intros a w' H. exact (Hf a w' H). Qed.

Lemma steady_asks {A} (f : W -> A) : steady I E (asks f).
Proof. intros w Hw. exact Hw. Qed.

Lemma steady_change f : (forall w, I w -> I (f w)) -> steady I E (change f).
Proof. intros H w Hw. exact (H w Hw). Qed.

Lemma steady_only b m : (b = true -> steady I E m) -> steady I E (only b m).
Proof. destruct b; [auto|]. intros _. apply steady_ret. Qed.

Lemma steady_for_each {A} (f : A -> St W unit) l : (forall x, steady I E (f x)) -> steady I E (for_each f l).
Proof. intros H w Hw. apply post_for_each; [|done]. intros x w' _. apply H. Qed.

Lemma always_from_res {A} (r : res A) : always I (from_res r).
Proof. intros w Hw. apply post_from_res. by destruct r. Qed.

End Steady.

Create HintDb steady.
#[export] Hint Resolve steady_ret steady_asks steady_only steady_for_each always_from_res : steady.

Ltac steady :=
  repeat first
    [ progress intros
    | solve [eauto with steady]
    | apply steady_bind
    | match goal with
      | |- steady _ _ (let '(_, _) := ?x in _) => destruct x
      | |- steady _ _ (if ?b then _ else _) => destruct b
      | |- steady _ _ (match ?x with _ => _ end) => destruct x
      end
    | apply steady_only
    | apply steady_for_each ].
