(* ===== verification/Multimap.v ===== *)
(** * Multimaps

    [absl::btree_multimap] and [std::multimap] with integer keys, as the transports and the
    observers fill them and then walk them: the list of the entries in the order of the keys,
    and of the insertions where the keys are the same. *)

From stdpp Require Import base list sorting.
From S2P Require Import Prelude.

Abbreviation multimap V := (list (Z * V)).

Fixpoint emplace {V} (k : Z) (v : V) (m : multimap V) : multimap V :=
  match m with
  | [] => [(k, v)]
  | (k', v') :: m' => if k' <=? k then (k', v') :: emplace k v m' else (k, v) :: m
  end.

Section Multimap.

Context {V : Type}.
Implicit Types (m : multimap V).

Lemma emplace_perm k (v : V) m : emplace k v m ≡ₚ (k, v) :: m.
Proof.
  induction m as [|[k' v'] m IH]; cbn [emplace]; [done|]. destruct (k' <=? k); [|done]. rewrite IH. constructor.
Qed.

(** In the order of the keys. *)
Definition by_key m : Prop := StronglySorted (fun x y => x.1 <= y.1) m.

Lemma emplace_by_key k (v : V) m : by_key m -> by_key (emplace k v m).
Proof.
  unfold by_key. induction 1 as [|[k' v'] m Hs IH Hall]; cbn [emplace]; [repeat constructor|].
  destruct (Z.leb_spec k' k) as [Hk|Hk].
  - constructor; [exact IH|]. rewrite emplace_perm. by constructor.
  - constructor; [by constructor|]. constructor; [cbn; lia|]. eapply Forall_impl; [exact Hall|]. cbn. lia.
Qed.

(** Walked backwards, and cut: what is left out has a smaller key. *)
Lemma reverse_by_key m : by_key m -> StronglySorted (fun x y => y.1 <= x.1) (reverse m).
Proof.
  induction 1 as [|x m Hs IH Hall]; [constructor|]. rewrite reverse_cons. apply StronglySorted_app_2; [|exact IH|repeat constructor].
  intros y z Hy Hz. apply list_elem_of_singleton in Hz as ->. rewrite elem_of_reverse in Hy.
  rewrite Forall_forall in Hall. exact (Hall y Hy).
Qed.

Lemma sorted_take_drop {A} (R : A -> A -> Prop) n l x y : StronglySorted R l -> x ∈ take n l -> y ∈ drop n l -> R x y.
Proof.
  intros Hs Hx Hy. rewrite <- (take_drop n l) in Hs. by eapply StronglySorted_app_1_elem_of.
Qed.

End Multimap.
