(* ===== verification/Utils.v ===== *)
(** * Utils: byte access, bit counting, time and CRC helpers

    Models [worker/include/Utils.hpp] (classes [Byte], [Bits], [Crypto], [Time])
    and the CRC table of [worker/src/Utils/Crypto.cpp].  A buffer is a list of
    bytes held as integers; every access is bounds checked, an access outside
    the buffer being [Fault OutOfBounds]. *)

From Stdlib Require Import SpecFloat.
From S2P Require Import Prelude.

(** ** Buffers *)

Definition bytes_ok (l : list Z) : Prop := Forall (fits 8) l.

(** [data[i]] as a read. *)
Definition read (data : list Z) (i : Z) : res Z :=
  if 0 <=? i then
    match data !! Z.to_nat i with Some b => Ok b | None => Fault OutOfBounds end
  else Fault OutOfBounds.

(** [data[i] = v]. *)
Definition store (data : list Z) (i v : Z) : res (list Z) :=
  if (0 <=? i) && (i <? zlen data) then Ok (<[Z.to_nat i := v]> data)
  else Fault OutOfBounds.

Module Byte.

Definition Get1Byte (data : list Z) (i : Z) : res Z := read data i.

Definition Get2Bytes (data : list Z) (i : Z) : res Z :=
  b1 ← read data (i + 1);
  b0 ← read data i;
  mret (Z.lor b1 (Z.shiftl b0 8)).

Definition Get3Bytes (data : list Z) (i : Z) : res Z :=
  b2 ← read data (i + 2);
  b1 ← read data (i + 1);
  b0 ← read data i;
  mret (Z.lor (Z.lor b2 (Z.shiftl b1 8)) (Z.shiftl b0 16)).

Definition Get4Bytes (data : list Z) (i : Z) : res Z :=
  b3 ← read data (i + 3);
  b2 ← read data (i + 2);
  b1 ← read data (i + 1);
  b0 ← read data i;
  mret (Z.lor (Z.lor (Z.lor b3 (Z.shiftl b2 8)) (Z.shiftl b1 16)) (Z.shiftl b0 24)).

Definition Get8Bytes (data : list Z) (i : Z) : res Z :=
  hi ← Get4Bytes data i;
  lo ← Get4Bytes data (i + 4);
  mret (Z.lor (Z.shiftl hi 32) lo).

Definition Set1Byte (data : list Z) (i value : Z) : res (list Z) :=
  store data i (u8 value).

Definition Set2Bytes (data : list Z) (i value : Z) : res (list Z) :=
  d ← store data (i + 1) (u8 value);
  store d i (u8 (Z.shiftr value 8)).

Definition Set3Bytes (data : list Z) (i value : Z) : res (list Z) :=
  d ← store data (i + 2) (u8 value);
  d ← store d (i + 1) (u8 (Z.shiftr value 8));
  store d i (u8 (Z.shiftr value 16)).

Definition Set4Bytes (data : list Z) (i value : Z) : res (list Z) :=
  d ← store data (i + 3) (u8 value);
  d ← store d (i + 2) (u8 (Z.shiftr value 8));
  d ← store d (i + 1) (u8 (Z.shiftr value 16));
  store d i (u8 (Z.shiftr value 24)).

Definition Set8Bytes (data : list Z) (i value : Z) : res (list Z) :=
  d ← store data (i + 7) (u8 value);
  d ← store d (i + 6) (u8 (Z.shiftr value 8));
  d ← store d (i + 5) (u8 (Z.shiftr value 16));
  d ← store d (i + 4) (u8 (Z.shiftr value 24));
  d ← store d (i + 3) (u8 (Z.shiftr value 32));
  d ← store d (i + 2) (u8 (Z.shiftr value 40));
  d ← store d (i + 1) (u8 (Z.shiftr value 48));
  store d i (u8 (Z.shiftr value 56)).

(** [PadTo4Bytes(uint16_t)]: the sum is computed as [int] and returned as
    [uint16_t]. *)
Definition PadTo4Bytes16 (size : Z) : Z :=
  if negb (Z.land size 3 =? 0) then u16 (Z.land size 65532 + 4) else size.

Definition PadTo4Bytes32 (size : Z) : Z :=
  if negb (Z.land size 3 =? 0) then u32 (Z.land size 4294967292 + 4) else size.

(** The big-endian bytes the setters write. *)
Definition be2 (v : Z) : list Z := [u8 (Z.shiftr v 8); u8 v].
Definition be3 (v : Z) : list Z := [u8 (Z.shiftr v 16); u8 (Z.shiftr v 8); u8 v].
Definition be4 (v : Z) : list Z :=
  [u8 (Z.shiftr v 24); u8 (Z.shiftr v 16); u8 (Z.shiftr v 8); u8 v].
Definition be8 (v : Z) : list Z := be4 (Z.shiftr v 32) ++ be4 v.

End Byte.

Module Bits.

(** [__builtin_popcount] on a 16-bit mask (promoted to [unsigned int]). *)
Fixpoint popcount (n : nat) (mask : Z) : Z :=
  match n with
  | O => 0
  | S n' => (if Z.odd mask then 1 else 0) + popcount n' (Z.shiftr mask 1)
  end.

Definition CountSetBits (mask : Z) : Z := popcount 32 mask.

End Bits.

Module Crypto.

(** The table of [Crypto.cpp], entry by entry. *)
Definition crc32Table : list Z :=
  [
   0x00000000; 0x77073096; 0xee0e612c; 0x990951ba; 0x076dc419; 0x706af48f; 0xe963a535; 0x9e6495a3;
   0x0edb8832; 0x79dcb8a4; 0xe0d5e91e; 0x97d2d988; 0x09b64c2b; 0x7eb17cbd; 0xe7b82d07; 0x90bf1d91;
   0x1db71064; 0x6ab020f2; 0xf3b97148; 0x84be41de; 0x1adad47d; 0x6ddde4eb; 0xf4d4b551; 0x83d385c7;
   0x136c9856; 0x646ba8c0; 0xfd62f97a; 0x8a65c9ec; 0x14015c4f; 0x63066cd9; 0xfa0f3d63; 0x8d080df5;
   0x3b6e20c8; 0x4c69105e; 0xd56041e4; 0xa2677172; 0x3c03e4d1; 0x4b04d447; 0xd20d85fd; 0xa50ab56b;
   0x35b5a8fa; 0x42b2986c; 0xdbbbc9d6; 0xacbcf940; 0x32d86ce3; 0x45df5c75; 0xdcd60dcf; 0xabd13d59;
   0x26d930ac; 0x51de003a; 0xc8d75180; 0xbfd06116; 0x21b4f4b5; 0x56b3c423; 0xcfba9599; 0xb8bda50f;
   0x2802b89e; 0x5f058808; 0xc60cd9b2; 0xb10be924; 0x2f6f7c87; 0x58684c11; 0xc1611dab; 0xb6662d3d;
   0x76dc4190; 0x01db7106; 0x98d220bc; 0xefd5102a; 0x71b18589; 0x06b6b51f; 0x9fbfe4a5; 0xe8b8d433;
   0x7807c9a2; 0x0f00f934; 0x9609a88e; 0xe10e9818; 0x7f6a0dbb; 0x086d3d2d; 0x91646c97; 0xe6635c01;
   0x6b6b51f4; 0x1c6c6162; 0x856530d8; 0xf262004e; 0x6c0695ed; 0x1b01a57b; 0x8208f4c1; 0xf50fc457;
   0x65b0d9c6; 0x12b7e950; 0x8bbeb8ea; 0xfcb9887c; 0x62dd1ddf; 0x15da2d49; 0x8cd37cf3; 0xfbd44c65;
   0x4db26158; 0x3ab551ce; 0xa3bc0074; 0xd4bb30e2; 0x4adfa541; 0x3dd895d7; 0xa4d1c46d; 0xd3d6f4fb;
   0x4369e96a; 0x346ed9fc; 0xad678846; 0xda60b8d0; 0x44042d73; 0x33031de5; 0xaa0a4c5f; 0xdd0d7cc9;
   0x5005713c; 0x270241aa; 0xbe0b1010; 0xc90c2086; 0x5768b525; 0x206f85b3; 0xb966d409; 0xce61e49f;
   0x5edef90e; 0x29d9c998; 0xb0d09822; 0xc7d7a8b4; 0x59b33d17; 0x2eb40d81; 0xb7bd5c3b; 0xc0ba6cad;
   0xedb88320; 0x9abfb3b6; 0x03b6e20c; 0x74b1d29a; 0xead54739; 0x9dd277af; 0x04db2615; 0x73dc1683;
   0xe3630b12; 0x94643b84; 0x0d6d6a3e; 0x7a6a5aa8; 0xe40ecf0b; 0x9309ff9d; 0x0a00ae27; 0x7d079eb1;
   0xf00f9344; 0x8708a3d2; 0x1e01f268; 0x6906c2fe; 0xf762575d; 0x806567cb; 0x196c3671; 0x6e6b06e7;
   0xfed41b76; 0x89d32be0; 0x10da7a5a; 0x67dd4acc; 0xf9b9df6f; 0x8ebeeff9; 0x17b7be43; 0x60b08ed5;
   0xd6d6a3e8; 0xa1d1937e; 0x38d8c2c4; 0x4fdff252; 0xd1bb67f1; 0xa6bc5767; 0x3fb506dd; 0x48b2364b;
   0xd80d2bda; 0xaf0a1b4c; 0x36034af6; 0x41047a60; 0xdf60efc3; 0xa867df55; 0x316e8eef; 0x4669be79;
   0xcb61b38c; 0xbc66831a; 0x256fd2a0; 0x5268e236; 0xcc0c7795; 0xbb0b4703; 0x220216b9; 0x5505262f;
   0xc5ba3bbe; 0xb2bd0b28; 0x2bb45a92; 0x5cb36a04; 0xc2d7ffa7; 0xb5d0cf31; 0x2cd99e8b; 0x5bdeae1d;
   0x9b64c2b0; 0xec63f226; 0x756aa39c; 0x026d930a; 0x9c0906a9; 0xeb0e363f; 0x72076785; 0x05005713;
   0x95bf4a82; 0xe2b87a14; 0x7bb12bae; 0x0cb61b38; 0x92d28e9b; 0xe5d5be0d; 0x7cdcefb7; 0x0bdbdf21;
   0x86d3d2d4; 0xf1d4e242; 0x68ddb3f8; 0x1fda836e; 0x81be16cd; 0xf6b9265b; 0x6fb077e1; 0x18b74777;
   0x88085ae6; 0xff0f6a70; 0x66063bca; 0x11010b5c; 0x8f659eff; 0xf862ae69; 0x616bffd3; 0x166ccf45;
   0xa00ae278; 0xd70dd2ee; 0x4e048354; 0x3903b3c2; 0xa7672661; 0xd06016f7; 0x4969474d; 0x3e6e77db;
   0xaed16a4a; 0xd9d65adc; 0x40df0b66; 0x37d83bf0; 0xa9bcae53; 0xdebb9ec5; 0x47b2cf7f; 0x30b5ffe9;
   0xbdbdf21c; 0xcabac28a; 0x53b39330; 0x24b4a3a6; 0xbad03605; 0xcdd70693; 0x54de5729; 0x23d967bf;
   0xb3667a2e; 0xc4614ab8; 0x5d681b02; 0x2a6f2b94; 0xb40bbe37; 0xc30c8ea1; 0x5a05df1b; 0x2d02ef8d].

(** One iteration of the [while] loop of [GetCRC32]. *)
Definition crc_step (crc b : Z) : Z :=
  Z.lxor (nth (Z.to_nat (Z.land (Z.lxor crc b) 255)) crc32Table 0) (Z.shiftr crc 8).

Definition GetCRC32 (data : list Z) : Z :=
  Z.lxor (fold_left crc_step data 0xFFFFFFFF) 0xFFFFFFFF.

(** [GetRandomUInt(min, max)]: the new seed and the number drawn. *)
Definition GetRandomUInt (seed min max : Z) : Z * Z :=
  let seed := u32 (214013 * seed + 2531011) in
  let max := if max =? 4294967295 then max - 1 else max in
  let min := if max <? min then max else min in
  (seed, Z.land (Z.shiftr seed 4) 0x7FFF7FFF mod (max - min + 1) + min).

(** The alphabet of [GetRandomString]. *)
Definition chars : list Z :=
  [48; 49; 50; 51; 52; 53; 54; 55; 56; 57;
   97; 98; 99; 100; 101; 102; 103; 104; 105; 106; 107; 108; 109;
   110; 111; 112; 113; 114; 115; 116; 117; 118; 119; 120; 121; 122].

Fixpoint random_chars (n : nat) (seed : Z) : res (Z * list Z) :=
  match n with
  | O => Ok (seed, [])
  | S n' =>
      let '(seed, k) := GetRandomUInt seed 0 (zlen chars - 1) in
      c ← read chars k;
      '(seed, rest) ← random_chars n' seed;
      mret (seed, c :: rest)
  end.

Definition GetRandomString (seed len : Z) : res (Z * list Z) :=
  let len := if 64 <? len then 64 else len in
  random_chars (Z.to_nat len) seed.

End Crypto.

Module Time.

Record Ntp := { seconds : Z; fractions : Z }.

(** The [double] computation [(x / 1000) * 2^32] of [TimeMs2Ntp], in IEEE
    binary64, truncated to an integer by the cast. *)
Definition b64_of_Z (z : Z) : spec_float := binary_normalize 53 1024 z 0 false.

Definition sf_trunc (x : spec_float) : Z :=
  match x with
  | S754_finite s m e =>
      let v := if 0 <=? e then Z.pos m * 2 ^ e else Z.pos m / 2 ^ (- e) in
      if s then - v else v
  | _ => 0
  end.

Definition ntp_fractions (x : Z) : Z :=
  sf_trunc (SFmul 53 1024 (SFdiv 53 1024 (b64_of_Z x) (b64_of_Z 1000))
                  (b64_of_Z (2 ^ 32))).

Definition TimeMs2Ntp (ms : Z) : Ntp :=
  {| seconds := u32 (ms / 1000); fractions := u32 (ntp_fractions (ms mod 1000)) |}.

(** [fractions * 1000] is below 2^42, so its conversion to [double] and its
    division by 2^32 are exact; [std::round] rounds half away from zero. *)
Definition Ntp2TimeMs (ntp : Ntp) : Z :=
  u64 (seconds ntp * 1000 + (fractions ntp * 1000 * 2 + 2 ^ 32) / 2 ^ 33).

Definition IsNewerTimestamp (timestamp prevTimestamp : Z) : bool :=
  if u32 (timestamp - prevTimestamp) =? 0x80000000 then prevTimestamp <? timestamp
  else negb (timestamp =? prevTimestamp) &&
       (u32 (timestamp - prevTimestamp) <? 0x80000000).

Definition LatestTimestamp (timestamp1 timestamp2 : Z) : Z :=
  if IsNewerTimestamp timestamp1 timestamp2 then timestamp1 else timestamp2.

Definition TimeMsToAbsSendTime (ms : Z) : Z :=
  Z.land (u32 (u64 (u64 (Z.shiftl ms 18) + 500) / 1000)) 0x00FFFFFF.

End Time.

(** ** Lemmas on buffers *)

Lemma read_app_r l1 l2 i :
  0 <= i -> read (l1 ++ l2) (zlen l1 + i) = read l2 i.
Proof.
  intros Hi. unfold read, zlen.
  destruct (Z.leb_spec 0 (Z.of_nat (length l1) + i)); [|lia].
  destruct (Z.leb_spec 0 i); [|lia].
  rewrite lookup_app_r by lia.
  by replace (Z.to_nat (Z.of_nat (length l1) + i) - length l1)%nat with (Z.to_nat i) by lia.
Qed.

Lemma read_app_l l1 l2 i : i < zlen l1 -> read (l1 ++ l2) i = read l1 i.
Proof.
  intros Hi. unfold read, zlen in *. destruct (Z.leb_spec 0 i); [|done].
  by rewrite lookup_app_l by lia.
Qed.

Lemma read_cons_0 x l : read (x :: l) 0 = Ok x.
Proof. done. Qed.

Lemma read_cons_S x l i : 0 < i -> read (x :: l) i = read l (i - 1).
Proof.
  intros Hi. unfold read. case_cmp; try lia.
  replace (Z.to_nat i) with (S (Z.to_nat (i - 1))) by lia. done.
Qed.

Lemma read_in_range l i : 0 <= i < zlen l -> exists b, read l i = Ok b /\ b ∈ l.
Proof.
  intros Hi. unfold read, zlen in *. destruct (Z.leb_spec 0 i); [|lia].
  destruct (lookup_lt_is_Some_2 l (Z.to_nat i)) as [b Hb]; [lia|].
  rewrite Hb. eauto using list_elem_of_lookup_2.
Qed.

Lemma read_ok_iff l i : safe (read l i) <-> 0 <= i < zlen l.
Proof.
  split.
  - intros [b Hb]. unfold read in Hb. destruct (Z.leb_spec 0 i); [|done].
    destruct (l !! Z.to_nat i) eqn:E; [|done]. apply lookup_lt_Some in E.
    unfold zlen. lia.
  - intros Hi. destruct (read_in_range l i Hi) as (b & -> & _). apply safe_ok.
Qed.

Lemma read_bytes_ok l i b : bytes_ok l -> read l i = Ok b -> fits 8 b.
Proof.
  intros Hl Hr. unfold read in Hr. destruct (0 <=? i); [|done].
  destruct (l !! Z.to_nat i) eqn:E; [|done]. injection Hr as <-.
  by apply (Forall_lookup_1 _ _ _ _ Hl E).
Qed.

Lemma read_drop l n i : 0 <= i -> read (drop n l) i = read l (Z.of_nat n + i).
Proof.
  intros Hi. unfold read. case_cmp; try lia.
  rewrite lookup_drop.
  by replace (Z.to_nat (Z.of_nat n + i)) with (n + Z.to_nat i)%nat by lia.
Qed.

Lemma read_store l i v l' j :
  store l i v = Ok l' -> read l' j = if j =? i then Ok v else read l j.
Proof.
  unfold store, read, zlen. intros H.
  destruct (Z.leb_spec 0 i), (Z.ltb_spec i (Z.of_nat (length l))); simplify_eq/=.
  destruct (Z.leb_spec 0 j); case_cmp; subst; try lia; try done.
  - rewrite list_lookup_insert_eq by lia. done.
  - rewrite list_lookup_insert_ne by lia. done.
Qed.

Lemma store_len l i v l' : store l i v = Ok l' -> zlen l' = zlen l.
Proof.
  unfold store, zlen. intros H.
  destruct (_ && _); simplify_eq/=. by rewrite length_insert.
Qed.

Lemma store_ok l i v : 0 <= i < zlen l -> safe (store l i v).
Proof.
  intros Hi. unfold store.
  destruct (Z.leb_spec 0 i), (Z.ltb_spec i (zlen l)); simpl; try lia. apply safe_ok.
Qed.

Lemma store_bytes_ok l i v l' :
  bytes_ok l -> fits 8 v -> store l i v = Ok l' -> bytes_ok l'.
Proof.
  unfold store. intros Hl Hv H. destruct (_ && _); simplify_eq/=.
  by apply Forall_insert.
Qed.

#[export] Hint Resolve read_bytes_ok store_bytes_ok : mediasoup.

(** ** Big-endian values *)

(** Peel one store of a chain in the goal, remembering its effect. *)
Ltac step_store :=
  match goal with
  | |- context [store ?l ?i ?v] =>
      let d := fresh "d" in let E := fresh "E" in
      destruct (store_ok l i v) as [d E];
      [repeat match goal with H : store _ _ _ = Ok _ |- _ =>
         apply store_len in H end; lia
      |rewrite E; cbn [mbind res_bind]]
  end.

(** Read a chain of stores back. *)
Ltac read_stores :=
  repeat match goal with
  | E : store _ _ _ = Ok ?d |- context [read ?d ?j] => rewrite (read_store _ _ _ _ j E)
  end.

Lemma u8_fits v : fits 8 (u8 v).
Proof. apply uwrap_fits. lia. Qed.
#[export] Hint Resolve u8_fits : mediasoup.

Lemma shiftr_u8 v k : 0 <= k -> u8 (Z.shiftr v k) = (v / 2 ^ k) mod 256.
Proof. intros. unfold uwrap. by rewrite Z.shiftr_div_pow2. Qed.

Lemma be2_join b0 b1 :
  fits 8 b1 -> Z.lor b1 (Z.shiftl b0 8) = b0 * 256 + b1.
Proof. intros H. rewrite lor_shiftl_add by (done || lia). lia. Qed.

Lemma be3_join b0 b1 b2 :
  fits 8 b1 -> fits 8 b2 ->
  Z.lor (Z.lor b2 (Z.shiftl b1 8)) (Z.shiftl b0 16) = b0 * 65536 + b1 * 256 + b2.
Proof.
  intros H1 H2. rewrite be2_join by done.
  rewrite lor_shiftl_add by (unfold fits in *; lia). lia.
Qed.

Lemma be4_join b0 b1 b2 b3 :
  fits 8 b1 -> fits 8 b2 -> fits 8 b3 ->
  Z.lor (Z.lor (Z.lor b3 (Z.shiftl b2 8)) (Z.shiftl b1 16)) (Z.shiftl b0 24) =
  b0 * 16777216 + b1 * 65536 + b2 * 256 + b3.
Proof.
  intros H1 H2 H3. rewrite be3_join by done.
  rewrite lor_shiftl_add by (unfold fits in *; lia). lia.
Qed.

(** Accesses inside the buffer succeed. *)
Ltac read_ok :=
  match goal with |- context [read ?l ?i] =>
    let b := fresh "b" in
    destruct (read_in_range l i) as (b & -> & _); [lia|cbn [mbind res_bind]]
  end.

Section Values.
Import Byte.

Lemma Get2Bytes_val l i b0 b1 :
  read l i = Ok b0 -> read l (i + 1) = Ok b1 -> fits 8 b1 ->
  Get2Bytes l i = Ok (b0 * 256 + b1).
Proof. intros E0 E1 H1. unfold Get2Bytes. rewrite E0, E1. cbn. by rewrite be2_join. Qed.

Lemma Get3Bytes_val l i b0 b1 b2 :
  read l i = Ok b0 -> read l (i + 1) = Ok b1 -> read l (i + 2) = Ok b2 ->
  fits 8 b1 -> fits 8 b2 ->
  Get3Bytes l i = Ok (b0 * 65536 + b1 * 256 + b2).
Proof.
  intros E0 E1 E2 H1 H2. unfold Get3Bytes. rewrite E0, E1, E2. cbn. by rewrite be3_join.
Qed.

Lemma Get4Bytes_val l i b0 b1 b2 b3 :
  read l i = Ok b0 -> read l (i + 1) = Ok b1 -> read l (i + 2) = Ok b2 ->
  read l (i + 3) = Ok b3 -> fits 8 b1 -> fits 8 b2 -> fits 8 b3 ->
  Get4Bytes l i = Ok (b0 * 16777216 + b1 * 65536 + b2 * 256 + b3).
Proof.
  intros E0 E1 E2 E3 H1 H2 H3. unfold Get4Bytes. rewrite E0, E1, E2, E3. cbn.
  by rewrite be4_join.
Qed.

(** The bytes of a value put together again. *)
Lemma be2_value v : (v / 256) mod 256 * 256 + v mod 256 = v mod 65536.
Proof. Z.div_mod_to_equations. lia. Qed.

Lemma be3_value v :
  (v / 65536) mod 256 * 65536 + (v / 256) mod 256 * 256 + v mod 256 = v mod 16777216.
Proof. Z.div_mod_to_equations. lia. Qed.

Lemma be4_value v :
  (v / 16777216) mod 256 * 16777216 + (v / 65536) mod 256 * 65536 +
  (v / 256) mod 256 * 256 + v mod 256 = v mod 4294967296.
Proof. Z.div_mod_to_equations. lia. Qed.

Lemma Get1Byte_safe l i : 0 <= i < zlen l -> exists v, Get1Byte l i = Ok v.
Proof. intros H. unfold Get1Byte. read_ok. eauto. Qed.

Lemma Get2Bytes_safe l i : 0 <= i -> i + 2 <= zlen l -> exists v, Get2Bytes l i = Ok v.
Proof. intros Hi H. unfold Get2Bytes. repeat read_ok. eauto. Qed.

Lemma Get2Bytes_fits l i v : bytes_ok l -> Get2Bytes l i = Ok v -> fits 16 v.
Proof.
  intros Hl H. unfold Get2Bytes in H. res_inv. pose proof (read_bytes_ok _ _ _ Hl H) as H1.
  pose proof (read_bytes_ok _ _ _ Hl H0) as H2. rewrite lor_shiftl_add by ulia. ulia.
Qed.

Lemma Get3Bytes_safe l i : 0 <= i -> i + 3 <= zlen l -> exists v, Get3Bytes l i = Ok v.
Proof. intros Hi H. unfold Get3Bytes. repeat read_ok. eauto. Qed.

Lemma Get4Bytes_safe l i : 0 <= i -> i + 4 <= zlen l -> exists v, Get4Bytes l i = Ok v.
Proof. intros Hi H. unfold Get4Bytes. repeat read_ok. eauto. Qed.

Lemma Get8Bytes_safe l i : 0 <= i -> i + 8 <= zlen l -> exists v, Get8Bytes l i = Ok v.
Proof.
  intros Hi H. unfold Get8Bytes.
  destruct (Get4Bytes_safe l i) as [a ->]; [lia..|].
  destruct (Get4Bytes_safe l (i + 4)) as [b ->]; [lia..|]. cbn. eauto.
Qed.

(** An access past a prefix is an access to the rest. *)
Lemma Get2Bytes_app l1 l2 i n :
  n = zlen l1 + i -> 0 <= i -> Get2Bytes (l1 ++ l2) n = Get2Bytes l2 i.
Proof.
  intros -> Hi. unfold Get2Bytes. rewrite <- !Z.add_assoc.
  by rewrite !read_app_r by lia.
Qed.

Lemma Get3Bytes_app l1 l2 i n :
  n = zlen l1 + i -> 0 <= i -> Get3Bytes (l1 ++ l2) n = Get3Bytes l2 i.
Proof.
  intros -> Hi. unfold Get3Bytes. rewrite <- !Z.add_assoc.
  by rewrite !read_app_r by lia.
Qed.

Lemma Get4Bytes_app l1 l2 i n :
  n = zlen l1 + i -> 0 <= i -> Get4Bytes (l1 ++ l2) n = Get4Bytes l2 i.
Proof.
  intros -> Hi. unfold Get4Bytes. rewrite <- !Z.add_assoc.
  by rewrite !read_app_r by lia.
Qed.

(** What a buffer holds where the big-endian bytes of [v] were put. *)
Lemma Get2Bytes_be2 l i v :
  read l i = Ok (u8 (Z.shiftr v 8)) -> read l (i + 1) = Ok (u8 v) ->
  Get2Bytes l i = Ok (u16 v).
Proof.
  intros E0 E1. rewrite (Get2Bytes_val _ _ _ _ E0 E1) by auto with mediasoup.
  rewrite shiftr_u8 by lia. f_equal. apply be2_value.
Qed.

Lemma Get3Bytes_be3 l i v :
  read l i = Ok (u8 (Z.shiftr v 16)) -> read l (i + 1) = Ok (u8 (Z.shiftr v 8)) ->
  read l (i + 2) = Ok (u8 v) -> Get3Bytes l i = Ok (uwrap 24 v).
Proof.
  intros E0 E1 E2. rewrite (Get3Bytes_val _ _ _ _ _ E0 E1 E2) by auto with mediasoup.
  rewrite !shiftr_u8 by lia. f_equal. apply be3_value.
Qed.

Lemma Get4Bytes_be4 l i v :
  read l i = Ok (u8 (Z.shiftr v 24)) -> read l (i + 1) = Ok (u8 (Z.shiftr v 16)) ->
  read l (i + 2) = Ok (u8 (Z.shiftr v 8)) -> read l (i + 3) = Ok (u8 v) ->
  Get4Bytes l i = Ok (u32 v).
Proof.
  intros E0 E1 E2 E3.
  rewrite (Get4Bytes_val _ _ _ _ _ _ E0 E1 E2 E3) by auto with mediasoup.
  rewrite !shiftr_u8 by lia. f_equal. apply be4_value.
Qed.

(** The same, at the front of a buffer. *)
Lemma Get2Bytes_front v l : Get2Bytes (be2 v ++ l) 0 = Ok (u16 v).
Proof. by apply Get2Bytes_be2. Qed.

Lemma Get3Bytes_front v l : Get3Bytes (be3 v ++ l) 0 = Ok (uwrap 24 v).
Proof. by apply Get3Bytes_be3. Qed.

Lemma Get4Bytes_front v l : Get4Bytes (be4 v ++ l) 0 = Ok (u32 v).
Proof. by apply Get4Bytes_be4. Qed.

Lemma be4_bytes_ok v : bytes_ok (be4 v).
Proof. repeat constructor; apply u8_fits. Qed.

Lemma be2_bytes_ok v : bytes_ok (be2 v).
Proof. repeat constructor; apply u8_fits. Qed.


(** Two buffers that agree outside [i, i+n). *)
Definition same_outside (l l' : list Z) (i n : Z) : Prop :=
  zlen l' = zlen l /\ forall j, ~ (i <= j < i + n) -> read l' j = read l j.

Ltac solve_outside :=
  split;
  [repeat match goal with H : store _ _ _ = Ok _ |- _ => apply store_len in H end; lia
  |intros j Hj; read_stores; case_cmp; try lia; done].

Ltac solve_reads := read_stores; case_cmp; try lia; done.

Lemma Set2Bytes_spec l i v :
  0 <= i -> i + 2 <= zlen l ->
  exists l', Set2Bytes l i v = Ok l' /\ Get2Bytes l' i = Ok (u16 v) /\ same_outside l l' i 2.
Proof.
  intros Hi Hl. unfold Set2Bytes. repeat step_store.
  eexists. split; [done|]. split; [|solve_outside].
  apply Get2Bytes_be2; solve_reads.
Qed.

Lemma Set3Bytes_spec l i v :
  0 <= i -> i + 3 <= zlen l ->
  exists l', Set3Bytes l i v = Ok l' /\ Get3Bytes l' i = Ok (uwrap 24 v) /\
             same_outside l l' i 3.
Proof.
  intros Hi Hl. unfold Set3Bytes. repeat step_store.
  eexists. split; [done|]. split; [|solve_outside].
  apply Get3Bytes_be3; solve_reads.
Qed.

Lemma Set4Bytes_spec l i v :
  0 <= i -> i + 4 <= zlen l ->
  exists l', Set4Bytes l i v = Ok l' /\ Get4Bytes l' i = Ok (u32 v) /\ same_outside l l' i 4.
Proof.
  intros Hi Hl. unfold Set4Bytes. repeat step_store.
  eexists. split; [done|]. split; [|solve_outside].
  apply Get4Bytes_be4; solve_reads.
Qed.

Lemma Set8Bytes_spec l i v :
  0 <= i -> i + 8 <= zlen l ->
  exists l', Set8Bytes l i v = Ok l' /\ Get8Bytes l' i = Ok (u64 v) /\ same_outside l l' i 8.
Proof.
  intros Hi Hl. unfold Set8Bytes. repeat step_store.
  eexists. split; [done|]. split; [|solve_outside].
  unfold Get8Bytes.
  rewrite (Get4Bytes_be4 _ i (Z.shiftr v 32)); [|rewrite ?Z.shiftr_shiftr by lia; solve_reads..].
  cbn [mbind res_bind].
  rewrite (Get4Bytes_be4 _ (i + 4) v);
    [|rewrite <- ?Z.add_assoc; cbn [Z.add Pos.add Pos.succ]; solve_reads..].
  cbn. rewrite Z.lor_comm, lor_shiftl_add by ulia.
  f_equal. rewrite Z.shiftr_div_pow2 by lia. ulia.
Qed.

End Values.

(** The next multiple of four. *)
Definition padded (n : Z) : Z := n + (- n) mod 4.

Lemma PadTo4Bytes16_padded n : 0 <= n <= 65532 -> Byte.PadTo4Bytes16 (u16 n) = padded n.
Proof.
  intros Hn. rewrite uwrap_id by ulia. unfold Byte.PadTo4Bytes16, padded.
  change 3 with (2 ^ 2 - 1). rewrite land_ones_mod by lia. change (2 ^ 2) with 4.
  destruct (Z.eqb_spec (n mod 4) 0) as [H|H]; cbn [negb]; [ulia|].
  assert (Z.land n 65532 = n - n mod 4) as ->; [|ulia].
  change 65532 with (Z.land 65535 (Z.lnot 3)). rewrite Z.land_assoc.
  change 65535 with (2 ^ 16 - 1). rewrite land_ones_mod, Z.mod_small by (change (2 ^ 16) with 65536; lia).
  rewrite <- Z.ldiff_land. change 3 with (Z.ones 2). rewrite Z.ldiff_ones_r by lia.
  rewrite Z.shiftr_div_pow2, Z.shiftl_mul_pow2 by lia. change (2 ^ 2) with 4. Z.div_mod_to_equations. lia.
Qed.


(** ** CRC-32: the table-driven routine against the bitwise definition *)

Module CrcSpec.
Import Crypto.

(** The reflected polynomial of IEEE 802.3 (and of STUN's FINGERPRINT). *)
Definition poly : Z := 0xEDB88320.

Definition crc_bit (c : Z) : Z :=
  Z.lxor (Z.shiftr c 1) (if Z.odd c then poly else 0).

Definition crc_byte (crc b : Z) : Z := Nat.iter 8 crc_bit (Z.lxor crc b).

Definition crc32 (data : list Z) : Z :=
  Z.lxor (fold_left crc_byte data 0xFFFFFFFF) 0xFFFFFFFF.

Lemma odd_lxor_shiftl a b k : 0 < k -> Z.odd (Z.lxor a (Z.shiftl b k)) = Z.odd a.
Proof.
  intros Hk. rewrite <- !Z.bit0_odd, Z.lxor_spec, Z.shiftl_spec_low by done.
  apply xorb_false_r.
Qed.

Lemma crc_bit_shift a b k :
  0 < k -> crc_bit (Z.lxor a (Z.shiftl b k)) = Z.lxor (crc_bit a) (Z.shiftl b (k - 1)).
Proof.
  intros Hk. unfold crc_bit. rewrite odd_lxor_shiftl, Z.shiftr_lxor by done.
  rewrite (Z.shiftr_shiftl_l b k 1) by lia.
  rewrite !Z.lxor_assoc. f_equal. apply Z.lxor_comm.
Qed.

Lemma crc_bit_iter n : forall a b k, k = Z.of_nat n ->
  Nat.iter n crc_bit (Z.lxor a (Z.shiftl b k)) = Z.lxor (Nat.iter n crc_bit a) b.
Proof.
  induction n as [|n IH]; intros a b k ->.
  - simpl. by rewrite Z.shiftl_0_r.
  - rewrite !Nat.iter_succ_r, crc_bit_shift by lia. apply IH. lia.
Qed.

Lemma split_low8 x : x = Z.lxor (Z.land x 255) (Z.shiftl (Z.shiftr x 8) 8).
Proof.
  apply Z.bits_inj'. intros i Hi.
  rewrite Z.lxor_spec, Z.land_spec. change 255 with (Z.ones 8).
  destruct (Z.lt_ge_cases i 8).
  - rewrite Z.ones_spec_low, Z.shiftl_spec_low by lia. by destruct (Z.testbit x i).
  - rewrite Z.ones_spec_high, Z.shiftl_spec, Z.shiftr_spec by lia.
    rewrite andb_false_r, xorb_false_l. f_equal. lia.
Qed.

Lemma crc32Table_entry i :
  0 <= i < 256 -> nth (Z.to_nat i) crc32Table 0 = Nat.iter 8 crc_bit i.
Proof.
  intros Hi.
  assert (H : forallb (fun k => nth k crc32Table 0 =? Nat.iter 8 crc_bit (Z.of_nat k))
                (seq 0 256) = true) by (vm_compute; reflexivity).
  rewrite forallb_forall in H. specialize (H (Z.to_nat i)).
  rewrite Z.eqb_eq, Z2Nat.id in H by lia. apply H, in_seq. lia.
Qed.

Lemma shiftr_byte b : fits 8 b -> Z.shiftr b 8 = 0.
Proof. intros Hb. rewrite Z.shiftr_div_pow2 by lia. apply Z.div_small. exact Hb. Qed.

Lemma crc_byte_split crc b :
  crc_byte crc b =
  Z.lxor (Nat.iter 8 crc_bit (Z.land (Z.lxor crc b) 255)) (Z.shiftr (Z.lxor crc b) 8).
Proof.
  pose proof (crc_bit_iter 8 (Z.land (Z.lxor crc b) 255) (Z.shiftr (Z.lxor crc b) 8)
                8 eq_refl) as H.
  rewrite <- split_low8 in H. exact H.
Qed.

Lemma land_255_range x : 0 <= Z.land x 255 < 256.
Proof. rewrite (land_ones_mod _ 8) by lia. ulia. Qed.

Lemma crc_step_byte crc b : fits 8 b -> crc_step crc b = crc_byte crc b.
Proof.
  intros Hb. rewrite crc_byte_split. unfold crc_step.
  rewrite crc32Table_entry by apply land_255_range. f_equal.
  rewrite Z.shiftr_lxor, (shiftr_byte b) by done. by rewrite Z.lxor_0_r.
Qed.

Lemma fold_left_ext_in {A B} (f g : A -> B -> A) l :
  Forall (fun b => forall a, f a b = g a b) l ->
  forall a, fold_left f l a = fold_left g l a.
Proof.
  induction 1 as [|b l Hb _ IH]; intros a; [done|]. simpl. rewrite Hb. apply IH.
Qed.

Lemma crc_fold data c :
  bytes_ok data -> fold_left crc_step data c = fold_left crc_byte data c.
Proof.
  intros Hd. apply fold_left_ext_in. eapply List.Forall_impl; [|exact Hd].
  intros b Hb a. by apply crc_step_byte.
Qed.

End CrcSpec.

(** C40: the table-driven [Crypto::GetCRC32] computes the standard bitwise CRC-32
    on every byte string. *)
Theorem GetCRC32_bitwise data :
  bytes_ok data -> Crypto.GetCRC32 data = CrcSpec.crc32 data.
Proof.
  intros Hd. unfold Crypto.GetCRC32, CrcSpec.crc32. by rewrite CrcSpec.crc_fold.
Qed.

Lemma GetCRC32_bitwise_witness :
  Crypto.GetCRC32 [49; 50; 51; 52; 53; 54; 55; 56; 57] = 0xCBF43926 /\
  Crypto.GetCRC32 [49; 50] = CrcSpec.crc32 [49; 50].
Proof.
  split; [vm_compute; reflexivity|apply GetCRC32_bitwise].
  repeat constructor; vm_compute; congruence.
Defined.

(** ** Time and random numbers *)

Lemma ntp_fractions_exact x :
  0 <= x < 1000 -> Time.ntp_fractions x = x * 2 ^ 32 / 1000.
Proof.
  intros Hx.
  assert (H : forallb (fun k => Time.ntp_fractions (Z.of_nat k) =?
                                Z.of_nat k * 2 ^ 32 / 1000) (seq 0 1000) = true)
    by (vm_compute; reflexivity).
  rewrite forallb_forall in H. specialize (H (Z.to_nat x)).
  rewrite Z.eqb_eq, Z2Nat.id in H by lia. apply H, in_seq. lia.
Qed.

(** converting a time in milliseconds to NTP format and back gives the same
    time, for every time whose seconds fit the 32-bit NTP field; the
    floating-point fraction loses nothing. *)
Theorem ntp_roundtrip ms :
  0 <= ms < 2 ^ 32 * 1000 -> Time.Ntp2TimeMs (Time.TimeMs2Ntp ms) = ms.
Proof.
  intros Hms. unfold Time.Ntp2TimeMs, Time.TimeMs2Ntp. cbn [Time.seconds Time.fractions].
  assert (Hx : 0 <= ms mod 1000 < 1000) by (apply Z.mod_pos_bound; lia).
  rewrite ntp_fractions_exact by done.
  pose proof (Z.div_mod ms 1000 ltac:(lia)) as Hdm.
  assert (Hs : 0 <= ms / 1000 < 2 ^ 32) by (Z.div_mod_to_equations; lia).
  set (q := ms / 1000) in *. set (r := ms mod 1000) in *. clearbody q r.
  rewrite (uwrap_id 32 q) by done.
  assert (Hf : 0 <= r * 2 ^ 32 / 1000 < 2 ^ 32) by (pow2_consts; Z.div_mod_to_equations; lia).
  rewrite (uwrap_id 32 (r * 2 ^ 32 / 1000)) by done.
  change (2 ^ 33) with 8589934592. ulia.
Qed.

Lemma ntp_roundtrip_witness :
  Time.Ntp2TimeMs (Time.TimeMs2Ntp 1691234567891) = 1691234567891.
Proof. apply ntp_roundtrip. lia. Defined.

Lemma GetRandomUInt_bounds seed mn mx seed' r :
  fits 32 mn -> fits 32 mx -> mn <= mx -> mx <> 4294967295 ->
  Crypto.GetRandomUInt seed mn mx = (seed', r) -> mn <= r <= mx.
Proof.
  unfold Crypto.GetRandomUInt. intros Hmn Hmx Hle Hne H. simplify_eq.
  destruct (Z.eqb_spec mx 4294967295); [done|].
  destruct (Z.ltb_spec mx mn); [lia|].
  set (z := Z.land _ _). clearbody z.
  pose proof (Z.mod_pos_bound z (mx - mn + 1) ltac:(lia)). lia.
Qed.

Lemma random_chars_ok n : forall seed,
  exists seed' s, Crypto.random_chars n seed = Ok (seed', s) /\ length s = n /\
                  Forall (fun c => c ∈ Crypto.chars) s.
Proof.
  induction n as [|n IH]; intros seed; cbn [Crypto.random_chars]; [eauto|].
  destruct (Crypto.GetRandomUInt seed 0 (zlen Crypto.chars - 1)) as [sd k] eqn:E.
  assert (Hk : 0 <= k <= zlen Crypto.chars - 1).
  { change (zlen Crypto.chars - 1) with 35 in *.
    eapply GetRandomUInt_bounds; [..|exact E]; unfold fits; lia. }
  destruct (read_in_range Crypto.chars k) as (c & Hc & Hin); [lia|].
  rewrite Hc. cbn [mbind res_bind].
  destruct (IH sd) as (sd' & s & -> & Hl & Hs). cbn.
  do 2 eexists. split_and!; [done|simpl; by rewrite Hl|by constructor].
Qed.

(** [Crypto::GetRandomString] never reads outside its alphabet or writes
    outside its 64-byte buffer: it returns [min(len, 64)] characters, each one of
    the 36 of the alphabet, whatever the seed. *)
Theorem GetRandomString_safe seed len :
  0 <= len ->
  exists seed' s, Crypto.GetRandomString seed len = Ok (seed', s) /\
    zlen s = Z.min len 64 /\ Forall (fun c => c ∈ Crypto.chars) s.
Proof.
  intros Hlen. unfold Crypto.GetRandomString.
  destruct (random_chars_ok (Z.to_nat (if 64 <? len then 64 else len)) seed)
    as (seed' & s & H1 & H2 & H3).
  exists seed', s. split_and!; [done| |done]. unfold zlen. rewrite H2. case_cmp; lia.
Qed.

Lemma GetRandomString_safe_witness :
  exists seed' s, Crypto.GetRandomString 77 100 = Ok (seed', s) /\
    zlen s = Z.min 100 64 /\ Forall (fun c => c ∈ Crypto.chars) s.
Proof. apply GetRandomString_safe. lia. Defined.

(** [IsNewerTimestamp] orders any two distinct timestamps exactly one way, also
    at distance 2^31. *)
Lemma IsNewerTimestamp_total a b :
  fits 32 a -> fits 32 b -> a <> b ->
  Time.IsNewerTimestamp a b = negb (Time.IsNewerTimestamp b a).
Proof.
  intros Ha Hb Hab. unfold Time.IsNewerTimestamp, uwrap, fits in *. pow2_consts.
  case_cmp; simpl; try done; Z.div_mod_to_equations; lia.
Qed.
