(* ===== verification/Float.v ===== *)
(** * Floating point: conversions, and correctly rounded division

    The worker computes ratios in [double] and rounds them with [std::round].  The arithmetic
    is that of [SpecFloat]; here are the conversions back to integers, and the proof that the
    rounded quotient of two integers is the integer nearest to the exact quotient. *)

From Stdlib Require Import SpecFloat.
From S2P Require Import Prelude Utils.

(** [std::round]: half away from zero. *)
Definition sf_round (x : spec_float) : Z :=
  match x with
  | S754_finite s m e =>
      let v := if 0 <=? e then Z.pos m * 2 ^ e else (Z.pos m + 2 ^ (- e - 1)) / 2 ^ (- e) in
      if s then - v else v
  | _ => 0
  end.

(** The conversion to an unsigned integer of [w] bits of a value that was rounded or cut to
    the integer [v]; undefined out of range. *)
Definition float_to_uint (w : Z) (x : spec_float) (v : Z) : res Z :=
  match x with
  | S754_zero _ => Ok 0
  | S754_finite _ _ _ => if (0 <=? v) && (v <? 2 ^ w) then Ok v else Fault BadConversion
  | _ => Fault BadConversion
  end.

(** [static_cast<uintw_t>(x)] and [static_cast<uintw_t>(std::round(x))]. *)
Definition uint_of_float (w : Z) (x : spec_float) : res Z := float_to_uint w x (Time.sf_trunc x).
Definition uint_of_round (w : Z) (x : spec_float) : res Z := float_to_uint w x (sf_round x).

(** ** Digits *)

Lemma digits2_pos_bounds m : 2 ^ (Z.pos (digits2_pos m) - 1) <= Z.pos m < 2 ^ Z.pos (digits2_pos m).
Proof.
  induction m as [m IH|m IH|]; cbn [digits2_pos]; [..|by vm_compute].
  all: rewrite Pos2Z.inj_succ; replace (Z.succ (Z.pos (digits2_pos m)) - 1) with (Z.pos (digits2_pos m)) by lia;
    rewrite Z.pow_succ_r by lia; replace (Z.pos (digits2_pos m)) with (Z.succ (Z.pos (digits2_pos m) - 1)) at 1 by lia;
    rewrite Z.pow_succ_r by lia; lia.
Qed.

Lemma digits2_unique m d : 1 <= d -> 2 ^ (d - 1) <= Z.pos m < 2 ^ d -> Z.pos (digits2_pos m) = d.
Proof.
  intros Hd Hm. pose proof (digits2_pos_bounds m) as Hb.
  destruct (Z.lt_trichotomy (Z.pos (digits2_pos m)) d) as [H|[H|H]]; [|done|].
  - assert (2 ^ Z.pos (digits2_pos m) <= 2 ^ (d - 1)) by (apply Z.pow_le_mono_r; lia). lia.
  - assert (2 ^ d <= 2 ^ (Z.pos (digits2_pos m) - 1)) by (apply Z.pow_le_mono_r; lia). lia.
Qed.

Lemma iter_xO m k : Z.pos (Pos.iter xO m k) = Z.pos m * 2 ^ Z.pos k.
Proof.
  induction k as [|k IH] using Pos.peano_ind; [cbn; lia|].
  rewrite Pos.iter_succ, Pos2Z.inj_succ, Z.pow_succ_r by lia. lia.
Qed.

(** ** Integers as doubles *)

(** Nothing to round: the mantissa has 53 digits. *)
Lemma round_aux_exact s m e :
  Z.pos (digits2_pos m) = 53 -> -1074 <= e <= 971 -> binary_round_aux 53 1024 s (Z.pos m) e loc_Exact = S754_finite s m e.
Proof.
  intros Hd He. unfold binary_round_aux, shr_fexp, fexp, emin. cbn [Zdigits2]. rewrite Hd.
  replace (Z.max (53 + e - 53) (3 - 1024 - 53) - e) with 0 by lia. cbn [shr shr_record_of_loc shr_m loc_of_shr_record round_nearest_even].
  cbn [Zdigits2]. rewrite Hd. replace (Z.max (53 + e - 53) (3 - 1024 - 53) - e) with 0 by lia. cbn [shr shr_record_of_loc shr_m].
  destruct (Z.leb_spec e (1024 - 53)); [done|lia].
Qed.

Lemma b64_of_pos m : Z.pos m < 2 ^ 53 ->
  exists m' e, Time.b64_of_Z (Z.pos m) = S754_finite false m' e /\ 2 ^ 52 <= Z.pos m' < 2 ^ 53 /\
    -52 <= e <= 0 /\ Z.pos m' = Z.pos m * 2 ^ (- e).
Proof.
  intros Hm. pose proof (digits2_pos_bounds m) as Hd. set (d := Z.pos (digits2_pos m)) in *.
  assert (1 <= d) by (unfold d; lia).
  assert (Hd53 : d <= 53).
  { destruct (Z.le_gt_cases d 53); [done|]. assert (2 ^ 53 <= 2 ^ (d - 1)) by (apply Z.pow_le_mono_r; lia). lia. }
  unfold Time.b64_of_Z, binary_normalize, binary_round, shl_align, fexp, emin. fold d.
  replace (Z.max (d + 0 - 53) (3 - 1024 - 53) - 0) with (d - 53) by lia.
  replace (Z.max (d + 0 - 53) (3 - 1024 - 53)) with (d - 53) by lia.
  destruct (d - 53) as [|k|k] eqn:Ek; [|lia|].
  - exists m, 0. rewrite round_aux_exact by (fold d; lia).
    replace d with 53 in Hd by lia. split_and!; [done|change (2 ^ 52) with (2 ^ (53 - 1)); lia..].
  - exists (Pos.iter xO m k), (Z.neg k). pose proof (iter_xO m k) as Hi.
    assert (Hb : 2 ^ (53 - 1) <= Z.pos (Pos.iter xO m k) < 2 ^ 53).
    { rewrite Hi. replace 53 with (d + Z.pos k) at 2 by lia. replace (53 - 1) with ((d - 1) + Z.pos k) by lia.
      rewrite !Z.pow_add_r by lia. assert (0 < 2 ^ Z.pos k) by (apply Z.pow_pos_nonneg; lia). nia. }
    rewrite round_aux_exact; [split_and!; [done|change (2 ^ 52) with (2 ^ (53 - 1)); lia|lia..|exact Hi]|by apply digits2_unique|lia].
Qed.

(** ** Division *)

(** The outcome of rounding the quotient [q], with remainder [r] over [d], to 53 digits: an
    integer multiple of [2 ^ n] nearest to the exact quotient. *)
Record nearest (num d n v : Z) : Prop := {
  nearest_step : v mod 2 ^ n = 0;
  nearest_close : 2 * Z.abs (v * d - num) <= 2 ^ n * d;
}.

Lemma shr_fexp_pos m e l n :
  Z.max (Zdigits2 m + e - 53) (-1074) - e = n -> shr_fexp 53 1024 m e l = shr (shr_record_of_loc m l) e n.
Proof. intros H. unfold shr_fexp, fexp, emin. by replace (3 - 1024 - 53) with (-1074) by lia; rewrite H. Qed.

(** The last normalisation keeps the value. *)
Lemma round_aux_value s q e l n m1 :
  shr_fexp 53 1024 q e l = (m1, e + n) -> 0 <= n ->
  let m := round_nearest_even (shr_m m1) (loc_of_shr_record m1) in
  2 ^ 52 <= m <= 2 ^ 53 -> -1074 <= e + n <= 970 ->
  exists m' k, binary_round_aux 53 1024 s q e l = S754_finite s m' (e + n + k) /\ 0 <= k <= 1 /\ Z.pos m' * 2 ^ k = m.
Proof.
  intros Hs Hn m Hm He. unfold binary_round_aux. rewrite Hs. fold m.
  destruct (Z.eq_dec m (2 ^ 53)) as [E|E].
  - rewrite E. unfold shr_fexp, fexp, emin. cbn [Zdigits2]. change (Zdigits2 (2 ^ 53)) with 54.
    replace (Z.max (54 + (e + n) - 53) (3 - 1024 - 53) - (e + n)) with 1 by lia.
    exists (2 ^ 52)%positive, 1. change (2 ^ 53) with (Z.pos (2 ^ 53)).
    change (shr (shr_record_of_loc (Z.pos (2 ^ 53)) loc_Exact) (e + n) 1) with ({| shr_m := 2 ^ 52; shr_r := false; shr_s := false |}, e + n + 1).
    cbn [shr_m]. change (2 ^ 52) with (Z.pos (2 ^ 52)). cbv iota.
    destruct (Z.leb_spec (e + n + 1) (1024 - 53)); [|lia]. done.
  - destruct m as [|p|p]; [lia| |lia]. exists p, 0. rewrite Z.add_0_r.
    assert (Hp : Z.pos (digits2_pos p) = 53) by (apply digits2_unique; lia).
    rewrite (shr_fexp_pos _ _ _ 0) by (cbn [Zdigits2]; rewrite Hp; lia). cbn [shr shr_record_of_loc shr_m].
    destruct (Z.leb_spec (e + n) (1024 - 53)); [|lia]. split_and!; [done|lia..].
Qed.

(** Where the remainder [r] lies within a step of [d]. *)
Lemma new_location_spec d r : 0 <= r < d ->
  match new_location d r with
  | loc_Exact => r = 0
  | loc_Inexact Lt => 0 < r /\ 2 * r < d
  | loc_Inexact Eq => 0 < r /\ 2 * r = d
  | loc_Inexact Gt => 0 < r /\ d < 2 * r
  end.
Proof.
  intros Hr. unfold new_location, new_location_even, new_location_odd. destruct (Z.even d) eqn:Ev.
  - destruct (Z.eqb_spec r 0); [done|]. destruct (Z.compare_spec (2 * r) d); lia.
  - destruct (Z.eqb_spec r 0); [done|].
    assert (2 * r <> d) by (intros <-; rewrite Z.even_mul in Ev; done).
    destruct (Z.compare_spec (2 * r + 1) d); lia.
Qed.

(** Rounding within a step keeps to the nearest. *)
Lemma round_step0 q r d : 0 <= r < d ->
  let m := round_nearest_even q (new_location d r) in nearest (q * d + r) d 0 m /\ q <= m <= q + 1.
Proof.
  intros Hr m. pose proof (new_location_spec d r Hr) as Hl. unfold m, round_nearest_even.
  destruct (new_location d r) as [|[]]; [..|]; try destruct (Z.even q); (split; [split; [apply Z.mod_1_r|change (2 ^ 0) with 1; lia]|lia]).
Qed.

Lemma round_step1 q r d : 0 <= r < d -> 0 < q ->
  let m1 := shr_1 (shr_record_of_loc q (new_location d r)) in
  let m := round_nearest_even (shr_m m1) (loc_of_shr_record m1) in
  nearest (q * d + r) d 1 (m * 2) /\ q / 2 <= m <= q / 2 + 1.
Proof.
  intros Hr Hq m1 m. pose proof (new_location_spec d r Hr) as Hl.
  assert (Hmod : forall x, (x * 2) mod 2 ^ 1 = 0) by (intros x; change (2 ^ 1) with 2; apply Z.mod_mul; lia).
  destruct q as [|[p|p|]|]; [lia| | | |lia].
  - replace (Z.pos p~1 / 2) with (Z.pos p) by (Z.div_mod_to_equations; lia).
    subst m m1. destruct (new_location d r) as [|[]]; cbn [shr_record_of_loc shr_1 orb shr_m loc_of_shr_record round_nearest_even]; try destruct (Z.even _); (split; [split; [apply Hmod|change (2 ^ 1) with 2; lia]|lia]).
  - replace (Z.pos p~0 / 2) with (Z.pos p) by (Z.div_mod_to_equations; lia).
    subst m m1. destruct (new_location d r) as [|[]]; cbn [shr_record_of_loc shr_1 orb shr_m loc_of_shr_record round_nearest_even]; try destruct (Z.even _); (split; [split; [apply Hmod|change (2 ^ 1) with 2; lia]|lia]).
  - change (1 / 2) with 0. subst m m1. destruct (new_location d r) as [|[]]; cbn; (split; [split; [done|change (2 ^ 1) with 2; lia]|lia]).
Qed.

Lemma div_nearest m1 e1 m2 e2 :
  2 ^ 52 <= Z.pos m1 < 2 ^ 53 -> 2 ^ 52 <= Z.pos m2 < 2 ^ 53 -> -52 <= e1 <= 0 -> -52 <= e2 <= 0 ->
  let e0 := e1 - e2 - 53 in
  exists m e n, SFdiv 53 1024 (S754_finite false m1 e1) (S754_finite false m2 e2) = S754_finite false m e /\
    0 <= n <= 1 /\ e0 <= e <= e0 + 2 /\ nearest (Z.pos m1 * 2 ^ 53) (Z.pos m2) n (Z.pos m * 2 ^ (e - e0)).
Proof.
  intros H1 H2 He1 He2 e0. unfold SFdiv, SFdiv_core_binary. cbn [Zdigits2].
  rewrite (digits2_unique m1 53), (digits2_unique m2 53) by lia.
  assert (Hmin : Z.min (fexp 53 1024 (53 + e1 - (53 + e2))) (e1 - e2) = e0) by (unfold fexp, emin; lia).
  rewrite Hmin. replace (e1 - e2 - e0) with 53 by lia. cbv beta iota zeta. rewrite Z.shiftl_mul_pow2 by lia.
  change IntDef.Z.div_eucl with Z.div_eucl.
  pose proof (Z.div_eucl_eq (Z.pos m1 * 2 ^ 53) (Z.pos m2) ltac:(lia)) as Hq.
  pose proof (Z.mod_pos_bound (Z.pos m1 * 2 ^ 53) (Z.pos m2) ltac:(lia)) as Hr. unfold Z.modulo in Hr.
  destruct (Z.div_eucl (Z.pos m1 * 2 ^ 53) (Z.pos m2)) as [q r]. rewrite Hq.
  replace (Z.pos m2 * q + r) with (q * Z.pos m2 + r) by lia.
  assert (Hqb : 2 ^ 52 <= q < 2 ^ 54) by (pow2_consts; change (2 ^ 52) with 4503599627370496 in *;
    change (2 ^ 53) with 9007199254740992 in *; change (2 ^ 54) with 18014398509481984; nia).
  destruct (Z.lt_ge_cases q (2 ^ 53)) as [Hlt|Hge]; destruct q as [|q|q]; try lia; cbv beta iota; change (xorb false false) with false.
  - assert (Hd : Z.pos (digits2_pos q) = 53) by (apply digits2_unique; lia).
    destruct (round_step0 (Z.pos q) r (Z.pos m2) Hr) as [Hn Hm].
    destruct (round_aux_value false (Z.pos q) e0 (new_location (Z.pos m2) r) 0 (shr_record_of_loc (Z.pos q) (new_location (Z.pos m2) r)))
      as (m' & k & -> & Hk & Hv); [rewrite (shr_fexp_pos _ _ _ 0) by (cbn [Zdigits2]; lia); by rewrite Z.add_0_r|lia| |lia|].
    { destruct (new_location _ _) as [|[]]; cbn [shr_record_of_loc shr_m loc_of_shr_record] in *; lia. }
    exists m', (e0 + 0 + k), 0. split_and!; [done|lia..|]. replace (e0 + 0 + k - e0) with k by lia. rewrite Hv.
    destruct (new_location _ _) as [|[]]; exact Hn.
  - assert (Hd : Z.pos (digits2_pos q) = 54) by (apply digits2_unique; lia).
    destruct (round_step1 (Z.pos q) r (Z.pos m2) Hr) as [Hn Hm]; [lia|].
    destruct (round_aux_value false (Z.pos q) e0 (new_location (Z.pos m2) r) 1 (shr_1 (shr_record_of_loc (Z.pos q) (new_location (Z.pos m2) r))))
      as (m' & k & -> & Hk & Hv); [by rewrite (shr_fexp_pos _ _ _ 1) by (cbn [Zdigits2]; lia)|lia| |lia|].
    { split; [etransitivity; [|apply Hm]|etransitivity; [apply Hm|]]; change (2 ^ 54) with (2 ^ 53 * 2) in Hqb; change (2 ^ 53) with (2 ^ 52 * 2) in *;
        Z.div_mod_to_equations; lia. }
    exists m', (e0 + 1 + k), 1. split_and!; [done|lia..|]. replace (e0 + 1 + k - e0) with (k + 1) by lia.
    rewrite Z.pow_add_r, Z.mul_assoc, Hv by lia. exact Hn.
Qed.

(** A nearest multiple does not cross a multiple of the step. *)
Lemma nearest_ge num d n v t : 0 < d -> 0 <= n <= 1 -> nearest num d n v -> t mod 2 ^ n = 0 -> t * d <= num -> t <= v.
Proof.
  intros Hd Hn [H1 H2] Ht Hle. destruct (Z.le_gt_cases t v) as [|H]; [done|].
  assert (n = 0 \/ n = 1) as [->| ->] by lia; pow2_consts; change (2 ^ 0) with 1 in *.
  - assert (2 * (t * d - v * d) <= d) by lia. nia.
  - assert (v + 2 <= t) by (Z.div_mod_to_equations; lia). nia.
Qed.

Lemma nearest_lt num d n v t : 0 < d -> 0 <= n <= 1 -> nearest num d n v -> num + d < t * d -> v < t.
Proof.
  intros Hd Hn [_ H2] Hlt. destruct (Z.lt_ge_cases v t) as [|H]; [done|].
  assert (2 ^ n <= 2) by (assert (n = 0 \/ n = 1) as [->| ->] by lia; done). nia.
Qed.

(** The rounded quotient of two integers, in double precision, is the integer nearest to the
    exact quotient, the larger one when there are two. *)
Lemma round_div a b : 0 < a -> 0 < b < 2 ^ 32 -> a <= 2 ^ 16 * b ->
  exists x, SFdiv 53 1024 (Time.b64_of_Z a) (Time.b64_of_Z b) = x /\
    (exists m e, x = S754_finite false m e) /\ sf_round x = (2 * a + b) / (2 * b).
Proof.
  intros Ha Hb Hab. destruct a as [|a|a]; [lia| |lia]. destruct b as [|b|b]; [lia| |lia].
  destruct (b64_of_pos a) as (m1 & e1 & -> & Hm1 & He1 & Ea); [change (2 ^ 53) with (2 ^ 21 * 2 ^ 32); pow2_consts; nia|].
  destruct (b64_of_pos b) as (m2 & e2 & -> & Hm2 & He2 & Eb); [change (2 ^ 53) with (2 ^ 21 * 2 ^ 32); pow2_consts; lia|].
  destruct (div_nearest m1 e1 m2 e2 Hm1 Hm2 He1 He2) as (m & e & n & -> & Hn & He & Hnear).
  eexists. split; [done|]. split; [by eexists _, _|].
  set (e0 := e1 - e2 - 53) in *. set (k := (2 * Z.pos a + Z.pos b) / (2 * Z.pos b)).
  assert (He0 : e0 <= -36).
  { assert (- e2 <= - e1 + 17 \/ - e1 + 17 < - e2) as [|Hc] by lia; [lia|exfalso].
    assert (Hp : 2 ^ (- e1 + 18) <= 2 ^ (- e2)) by (apply Z.pow_le_mono_r; lia). rewrite Z.pow_add_r in Hp by lia.
    assert (0 < 2 ^ (- e1)) by (apply Z.pow_pos_nonneg; lia). set (A := 2 ^ (- e1)) in *. set (B := 2 ^ (- e2)) in *.
    change (2 ^ 18) with (2 ^ 16 * 4) in Hp. set (C := 2 ^ 16) in *. assert (0 < C) by done.
    assert (Z.pos a * A * 4 <= Z.pos b * B); [|change (2 ^ 53) with (2 ^ 52 * 2) in *; lia].
    transitivity (C * Z.pos b * A * 4); [|nia]. apply Z.mul_le_mono_nonneg_r; [lia|]. nia. }
  cbn [sf_round]. destruct (Z.leb_spec 0 e); [lia|].
  set (V := Z.pos m * 2 ^ (e - e0)) in *.
  (* The quotients of the mantissas, in terms of the integers. *)
  set (P := 2 ^ (- e0 - e2)). assert (HP : 0 < P) by (apply Z.pow_pos_nonneg; lia).
  assert (Enum : Z.pos m1 * 2 ^ 53 = Z.pos a * P).
  { rewrite Ea. unfold P. replace (- e0 - e2) with (- e1 + 53) by lia. rewrite Z.pow_add_r by lia. ring. }
  assert (Et : forall j, j * 2 ^ (- e0 - 1) * Z.pos m2 * 2 = j * Z.pos b * P).
  { intros j. rewrite Eb. unfold P. replace (- e0 - e2) with ((- e0 - 1) + 1 + (- e2)) by lia. rewrite !Z.pow_add_r by lia. change (2 ^ 1) with 2. ring. }
  assert (Hdiv : k * (2 * Z.pos b) <= 2 * Z.pos a + Z.pos b < (k + 1) * (2 * Z.pos b)) by (unfold k; Z.div_mod_to_equations; nia).
  assert (Hlo : (2 * k - 1) * 2 ^ (- e0 - 1) <= V).
  { apply (nearest_ge (Z.pos m1 * 2 ^ 53) (Z.pos m2) n); [lia|done|done| |].
    - replace (- e0 - 1) with ((- e0 - 1 - n) + n) by lia. rewrite Z.pow_add_r, Z.mul_assoc by lia. apply Z.mod_mul.
      apply Z.pow_nonzero; lia.
    - rewrite Enum. specialize (Et (2 * k - 1)). nia. }
  assert (Hhi : V < (2 * k + 1) * 2 ^ (- e0 - 1)).
  { apply (nearest_lt (Z.pos m1 * 2 ^ 53) (Z.pos m2) n); [lia|done|done|]. rewrite Enum. specialize (Et (2 * k + 1)).
    assert (Z.pos m2 * 2 < P).
    { rewrite Eb. unfold P. replace (- e0 - e2) with ((- e0 - 33) + 1 + 32 + (- e2)) by lia. rewrite !Z.pow_add_r by lia.
      assert (1 <= 2 ^ (- e0 - 33)) by (assert (0 < 2 ^ (- e0 - 33)) by (apply Z.pow_pos_nonneg; lia); lia).
      assert (0 < 2 ^ (- e2)) by (apply Z.pow_pos_nonneg; lia). change (2 ^ 1) with 2. nia. }
    nia. }
  symmetry. apply Z.div_unique with (r := (Z.pos m + 2 ^ (- e - 1)) - 2 ^ (- e) * k); [left|ring].
  (* Scale by the step between the exponents. *)
  set (S := 2 ^ (e - e0)) in *. assert (HS : 0 < S) by (apply Z.pow_pos_nonneg; lia).
  assert (E1 : 2 ^ (- e0 - 1) = 2 ^ (- e - 1) * S).
  { unfold S. rewrite <- Z.pow_add_r by lia. f_equal. lia. }
  assert (E2 : 2 ^ (- e) = 2 * 2 ^ (- e - 1)).
  { replace (- e) with (Z.succ (- e - 1)) at 1 by lia. apply Z.pow_succ_r. lia. }
  rewrite E1 in Hlo, Hhi. rewrite E2. unfold V in *. assert (0 < 2 ^ (- e - 1)) by (apply Z.pow_pos_nonneg; lia).
  set (T := 2 ^ (- e - 1)) in *. nia.
Qed.

(** ** Square root

    The square root of an integer, in double precision and cut, is the integer square root. *)
Lemma sqrt_core m e : 2 ^ 52 <= Z.pos m < 2 ^ 53 -> -52 <= e <= 0 ->
  let e' := e / 2 - 26 in
  exists q l, SFsqrt_core_binary 53 1024 (Z.pos m) e = (q, e', l) /\ q = Z.sqrt (Z.pos m * 2 ^ (e - 2 * e')) /\ 2 ^ 52 <= q < 2 ^ 53.
Proof.
  intros Hm He e'. unfold SFsqrt_core_binary. cbn [Zdigits2]. rewrite (digits2_unique m 53) by lia.
  assert (Z.min (fexp 53 1024 (Z.div2 (53 + e + 1))) (Z.div2 e) = e') as ->.
  { unfold e', fexp, emin. rewrite !Z.div2_div. replace (53 + e + 1) with (27 * 2 + e) by lia. rewrite Z.div_add_l by lia.
    Z.div_mod_to_equations. lia. }
  set (s := e - 2 * e'). assert (52 <= s <= 53) as Hs by (unfold s, e'; Z.div_mod_to_equations; lia).
  assert (match s with Z.pos _ => Z.shiftl (Z.pos m) s | 0 => Z.pos m | Z.neg _ => 0 end = Z.pos m * 2 ^ s) as ->.
  { destruct s; [lia| |lia]. by rewrite Z.shiftl_mul_pow2 by lia. }
  change IntDef.Z.sqrtrem with Z.sqrtrem. pose proof (Z.sqrtrem_sqrt (Z.pos m * 2 ^ s)) as Hq.
  destruct (Z.sqrtrem (Z.pos m * 2 ^ s)) as [q r]. cbn in Hq. subst q.
  eexists _, _. split; [done|]. split; [done|].
  assert (2 ^ 52 * 2 ^ 52 <= Z.pos m * 2 ^ s < 2 ^ 53 * 2 ^ 53) as Hb.
  { assert (2 ^ 52 <= 2 ^ s <= 2 ^ 53) by (split; apply Z.pow_le_mono_r; lia).
    change (2 ^ 52) with 4503599627370496 in *; change (2 ^ 53) with 9007199254740992 in *. nia. }
  split; [|by apply Z.sqrt_lt_square; lia].
  rewrite <- (Z.sqrt_square (2 ^ 52)) by lia. apply Z.sqrt_le_mono. lia.
Qed.

Lemma sqrt_trunc p : 0 < p < 2 ^ 32 ->
  exists m e, SFsqrt 53 1024 (Time.b64_of_Z p) = S754_finite false m e /\ Time.sf_trunc (S754_finite false m e) = Z.sqrt p.
Proof.
  intros Hp. destruct p as [|p|p]; [lia| |lia].
  destruct (b64_of_pos p) as (m1 & e1 & -> & Hm1 & He1 & Ep); [change (2 ^ 53) with (2 ^ 21 * 2 ^ 32); lia|].
  cbn [SFsqrt]. destruct (sqrt_core m1 e1 Hm1 He1) as (q & l & -> & Hq & Hb). set (e' := e1 / 2 - 26) in *.
  assert (-52 <= e' <= -26) as He' by (unfold e'; Z.div_mod_to_equations; lia).
  destruct q as [|q|q]; try lia. assert (Hd : Z.pos (digits2_pos q) = 53) by (apply digits2_unique; lia).
  set (mm := round_nearest_even (shr_m (shr_record_of_loc (Z.pos q) l)) (loc_of_shr_record (shr_record_of_loc (Z.pos q) l))).
  assert (Z.pos q <= mm <= Z.pos q + 1) as Hmm.
  { unfold mm, round_nearest_even. destruct l as [|[]]; cbn [shr_record_of_loc shr_m loc_of_shr_record]; try destruct (Z.even _); lia. }
  destruct (round_aux_value false (Z.pos q) e' l 0 (shr_record_of_loc (Z.pos q) l)) as (m & k & -> & Hk & Hv);
    [rewrite (shr_fexp_pos _ _ _ 0) by (cbn [Zdigits2]; lia); by rewrite Z.add_0_r|lia|fold mm; lia|lia|]. fold mm in Hv.
  exists m, (e' + 0 + k). split; [done|]. cbn [Time.sf_trunc]. destruct (Z.leb_spec 0 (e' + 0 + k)); [lia|].
  set (T := 2 ^ (- e')). assert (2 ^ 26 <= T) as HT by (apply Z.pow_le_mono_r; lia).
  assert (Z.pos m / 2 ^ (- (e' + 0 + k)) = mm / T) as ->.
  { rewrite <- Hv. unfold T. replace (- e') with (- (e' + 0 + k) + k) by lia. rewrite Z.pow_add_r by lia.
    rewrite Z.div_mul_cancel_r; [done|apply Z.pow_nonzero; lia..]. }
  assert (Z.pos m1 * 2 ^ (e1 - 2 * e') = Z.pos p * (T * T)) as Em.
  { rewrite Ep. unfold T. rewrite <- Z.pow_add_r, <- Z.mul_assoc, <- Z.pow_add_r by (unfold e' in *; Z.div_mod_to_equations; lia). f_equal. f_equal. lia. }
  rewrite Em in Hq. pose proof (Z.sqrt_spec (Z.pos p * (T * T)) ltac:(lia)) as Hs. rewrite <- Hq in Hs.
  pose proof (Z.sqrt_spec (Z.pos p) ltac:(lia)) as Hk0. set (k0 := Z.sqrt (Z.pos p)) in *.
  assert (0 <= k0 < 2 ^ 16) as Hk16 by (split; [apply Z.sqrt_nonneg|apply Z.sqrt_lt_square; [lia..|]; change (2 ^ 16 * 2 ^ 16) with (2 ^ 32); lia]).
  change (2 ^ 26) with 67108864 in HT. change (2 ^ 16) with 65536 in Hk16.
  cbv zeta in Hs, Hk0. assert (0 < T * T) as HTT by lia.
  assert (k0 * T <= Z.pos q).
  { rewrite Hq. apply Z.sqrt_le_square; [apply Z.mul_nonneg_nonneg; lia..|]. replace (k0 * T * (k0 * T)) with (k0 * k0 * (T * T)) by ring.
    apply Z.mul_le_mono_nonneg_r; lia. }
  assert (Z.pos q + 1 < (k0 + 1) * T).
  { destruct (Z.lt_ge_cases (Z.pos q + 1) ((k0 + 1) * T)) as [|Hc]; [done|exfalso].
    assert (Z.pos p * (T * T) <= ((k0 + 1) * (k0 + 1) - 1) * (T * T)) by (apply Z.mul_le_mono_nonneg_r; lia).
    assert (((k0 + 1) * T - 1) * ((k0 + 1) * T - 1) <= Z.pos q * Z.pos q) by (apply Z.square_le_mono_nonneg; lia).
    assert (2 * (k0 + 1) * T < T * T) by (apply Z.mul_lt_mono_pos_r; lia). lia. }
  symmetry. apply Z.div_unique with (r := mm - T * k0); [left; nia|ring].
Qed.
