(* ===== verification/OrdSet.v ===== *)
(** * Ordered containers keyed by a comparator

    [std::set], [absl::btree_set] and [absl::btree_map] as the worker uses them,
    with a comparator that is not a strict weak ordering on the whole key type
    (the cyclic order of sequence numbers).  A container is its sequence of
    elements in iteration order; iterators are positions.

    The C++ containers require the comparator to be a strict weak ordering on the
    keys in play.  [WindowOrder] states that requirement as an interface: on a
    window of keys the comparator is the order of a rank.  All the laws below are
    proved against it, and the clients discharge it for the windows they keep. *)

From S2P Require Import Prelude.

(** On the keys of [dom], [lt] compares ranks, and a rank determines its key. *)
Class WindowOrder {K} (lt : K -> K -> bool) (dom : K -> Prop) (rank : K -> Z) : Prop := {
  window_lt : forall a b, dom a -> dom b -> (lt a b = true <-> rank a < rank b);
  window_inj : forall a b, dom a -> dom b -> rank a = rank b -> a = b;
}.

Section Container.
Context {K E : Type} (lt : K -> K -> bool) (key : E -> K).

(** Position of the first element whose key is not lower than [x]. *)
Fixpoint lower_bound (x : K) (l : list E) : nat :=
  match l with
  | [] => 0
  | e :: l' => if lt (key e) x then S (lower_bound x l') else 0
  end.

(** Position of the first element whose key is higher than [x]. *)
Fixpoint upper_bound (x : K) (l : list E) : nat :=
  match l with
  | [] => 0
  | e :: l' => if lt x (key e) then 0 else S (upper_bound x l')
  end.

(** [find(x)]: the position of the element with key [x], [None] for [end()]. *)
Definition find (x : K) (l : list E) : option nat :=
  let i := lower_bound x l in
  match l !! i with
  | Some e => if lt x (key e) then None else Some i
  | None => None
  end.

(** [insert(e)]: no effect when the key is already there. *)
Definition insert (e : E) (l : list E) : list E :=
  let i := lower_bound (key e) l in
  match find (key e) l with
  | Some _ => l
  | None => take i l ++ e :: drop i l
  end.

(** [erase(it)] and [erase(first, last)]. *)
Definition erase (i : nat) (l : list E) : list E := take i l ++ drop (S i) l.
Definition erase_range (i j : nat) (l : list E) : list E := take i l ++ drop j l.

End Container.

Section Laws.
Context {K E : Type} {lt : K -> K -> bool} {key : E -> K}.
Context {dom : K -> Prop} {rank : K -> Z} `{!WindowOrder lt dom rank}.

(** The keys of the container lie in the window, in increasing rank. *)
Definition wf (l : list E) : Prop :=
  Forall (fun e => dom (key e)) l /\
  StronglySorted (fun a b => rank (key a) < rank (key b)) l.

Lemma wf_nil : wf [].
Proof. split; constructor. Qed.

Lemma wf_cons e l :
  wf (e :: l) <->
  dom (key e) /\ Forall (fun b => rank (key e) < rank (key b)) l /\ wf l.
Proof.
  unfold wf. rewrite list.Forall_cons. split.
  - intros [[? ?] Hs]. inversion Hs; subst. tauto.
  - intros (? & ? & ? & ?). split_and!; try done. by constructor.
Qed.

Lemma wf_app l k :
  wf (l ++ k) <->
  wf l /\ wf k /\
  Forall (fun a => Forall (fun b => rank (key a) < rank (key b)) k) l.
Proof.
  induction l as [|e l IH]; simpl.
  - split; [intros; split_and!; [apply wf_nil|done|constructor]|tauto].
  - rewrite !wf_cons, IH, list.Forall_cons, Forall_app. tauto.
Qed.

Lemma wf_take n l : wf l -> wf (take n l).
Proof. intros H. rewrite <- (take_drop n l) in H. apply wf_app in H. tauto. Qed.

Lemma wf_drop n l : wf l -> wf (drop n l).
Proof. intros H. rewrite <- (take_drop n l) in H. apply wf_app in H. tauto. Qed.

Lemma wf_erase_range i j l : (i <= j)%nat -> wf l -> wf (erase_range i j l).
Proof.
  intros Hij H. unfold erase_range. rewrite <- (take_drop i l) in H.
  apply wf_app in H as (H1 & H2 & H3). apply wf_app. split_and!; [done| |].
  - replace j with (i + (j - i))%nat by lia. rewrite <- drop_drop. by apply wf_drop.
  - replace j with (i + (j - i))%nat by lia. rewrite <- drop_drop.
    eapply List.Forall_impl; [|exact H3]. intros a Ha. by apply Forall_drop.
Qed.

Lemma wf_erase i l : wf l -> wf (erase i l).
Proof. apply wf_erase_range. lia. Qed.

Lemma wf_key_inj l i j e e' :
  wf l -> l !! i = Some e -> l !! j = Some e' -> key e = key e' -> i = j.
Proof.
  revert i j. induction l as [|a l IH]; intros i j Hwf Hi Hj Hk; [done|].
  apply wf_cons in Hwf as (_ & Hlt & Hwf).
  assert (Hx : forall n b, l !! n = Some b -> rank (key a) < rank (key b)).
  { intros n b Hb. by apply (Forall_lookup_1 _ _ _ _ Hlt Hb). }
  destruct i as [|i], j as [|j]; simplify_eq/=; [done| | |].
  - specialize (Hx _ _ Hj). rewrite Hk in Hx. lia.
  - specialize (Hx _ _ Hi). rewrite Hk in Hx. lia.
  - f_equal. by apply IH.
Qed.

(** [lower_bound] splits a well-formed container at the rank of its argument. *)
Lemma lower_bound_split x l :
  wf l -> dom x ->
  Forall (fun e => rank (key e) < rank x) (take (lower_bound lt key x l) l) /\
  Forall (fun e => rank x <= rank (key e)) (drop (lower_bound lt key x l) l).
Proof.
  intros Hwf Hx. induction l as [|e l IH]; simpl; [done|].
  apply wf_cons in Hwf as (He & Hlt & Hwf). specialize (IH Hwf).
  destruct (lt (key e) x) eqn:Eq.
  - apply window_lt in Eq; [|done..]. destruct IH. split; [by constructor|done].
  - assert (~ rank (key e) < rank x) as Hn.
    { intros H. apply window_lt in H; [congruence|done..]. }
    split; [constructor|]. constructor; [lia|].
    eapply List.Forall_impl; [|exact Hlt]. simpl. lia.
Qed.

Lemma upper_bound_split x l :
  wf l -> dom x ->
  Forall (fun e => rank (key e) <= rank x) (take (upper_bound lt key x l) l) /\
  Forall (fun e => rank x < rank (key e)) (drop (upper_bound lt key x l) l).
Proof.
  intros Hwf Hx. induction l as [|e l IH]; simpl; [done|].
  apply wf_cons in Hwf as (He & Hlt & Hwf). specialize (IH Hwf).
  destruct (lt x (key e)) eqn:Eq.
  - apply window_lt in Eq; [|done..]. split; [constructor|]. constructor; [done|].
    eapply List.Forall_impl; [|exact Hlt]. simpl. lia.
  - assert (~ rank x < rank (key e)) as Hn.
    { intros H. apply window_lt in H; [congruence|done..]. }
    destruct IH. split; [constructor; [lia|done]|done].
Qed.

Lemma lower_bound_le x l : (lower_bound lt key x l <= length l)%nat.
Proof. induction l; simpl; [done|]. case_match; lia. Qed.

Lemma upper_bound_le x l : (upper_bound lt key x l <= length l)%nat.
Proof. induction l; simpl; [done|]. case_match; lia. Qed.

(** When every key is lower than [x], both bounds are [end()]. *)
Lemma lower_bound_end x l :
  wf l -> dom x -> Forall (fun e => rank (key e) < rank x) l ->
  lower_bound lt key x l = length l.
Proof.
  intros Hwf Hx Hall. destruct (lower_bound_split x l Hwf Hx) as [_ Hd].
  destruct (drop (lower_bound lt key x l) l) as [|e k] eqn:Eq.
  - apply (f_equal length) in Eq. rewrite length_drop in Eq. simpl in Eq.
    pose proof (lower_bound_le x l). lia.
  - inversion Hd; subst. assert (e ∈ l) as Hin.
    { apply list_elem_of_lookup. exists (lower_bound lt key x l).
      rewrite <- (Nat.add_0_r (lower_bound _ _ _ _)), <- lookup_drop, Eq. done. }
    rewrite list.Forall_forall in Hall. specialize (Hall e Hin). simpl in Hall. lia.
Qed.

Lemma upper_bound_end x l :
  wf l -> dom x -> Forall (fun e => rank (key e) <= rank x) l ->
  upper_bound lt key x l = length l.
Proof.
  intros Hwf Hx Hall. induction l as [|e l IH]; simpl; [done|].
  apply wf_cons in Hwf as (He & _ & Hwf). apply list.Forall_cons in Hall as [Hex Hall].
  destruct (lt x (key e)) eqn:Eq.
  - apply window_lt in Eq; [lia|done..].
  - f_equal. by apply IH.
Qed.

(** [find] finds exactly the elements that are there. *)
Lemma find_Some x l i :
  wf l -> dom x -> find lt key x l = Some i -> exists e, l !! i = Some e /\ key e = x.
Proof.
  intros Hwf Hx. unfold find.
  destruct (l !! lower_bound lt key x l) as [e|] eqn:Eq; [|done].
  destruct (lt x (key e)) eqn:Elt; [done|]. intros H. injection H as <-.
  exists e. split; [done|].
  assert (He : dom (key e)) by (by apply (Forall_lookup_1 _ _ _ _ (proj1 Hwf) Eq)).
  assert (Hn : ~ rank x < rank (key e)).
  { intros H. apply window_lt in H; [congruence|done..]. }
  destruct (lower_bound_split x l Hwf Hx) as [_ Hd].
  rewrite <- (Nat.add_0_r (lower_bound _ _ _ _)), <- lookup_drop in Eq.
  apply (Forall_lookup_1 _ _ _ _ Hd) in Eq. simpl in Eq.
  apply window_inj; [done..|lia].
Qed.

Lemma find_None x l :
  wf l -> dom x -> find lt key x l = None -> Forall (fun e => key e <> x) l.
Proof.
  intros Hwf Hx Hf. destruct (lower_bound_split x l Hwf Hx) as [Ht Hd].
  rewrite <- (take_drop (lower_bound lt key x l) l). apply Forall_app. split.
  { eapply List.Forall_impl; [|exact Ht]. intros e He Heq. simpl in He. rewrite Heq in He. lia. }
  unfold find in Hf. rewrite <- (Nat.add_0_r (lower_bound _ _ _ _)), <- lookup_drop in Hf.
  apply (wf_drop (lower_bound lt key x l)) in Hwf.
  destruct (drop (lower_bound lt key x l) l) as [|e k]; [constructor|]. simpl in Hf.
  destruct (lt x (key e)) eqn:Eq; [|done].
  apply wf_cons in Hwf as (He & Hlt & _). apply window_lt in Eq; [|done..].
  constructor; [intros Heq; rewrite Heq in Eq; lia|].
  eapply List.Forall_impl; [|exact Hlt]. intros b Hb Heq. simpl in Hb. rewrite Heq in Hb. lia.
Qed.

Lemma find_is_Some x l :
  wf l -> dom x -> (is_Some (find lt key x l) <-> exists e, e ∈ l /\ key e = x).
Proof.
  intros Hwf Hx. split.
  - intros [i Hi]. destruct (find_Some x l i Hwf Hx Hi) as (e & He & Hk).
    exists e. split; [by eapply list_elem_of_lookup_2|done].
  - intros (e & He & Hk). destruct (find lt key x l) eqn:Eq; [eauto|].
    apply find_None in Eq; [|done..]. rewrite list.Forall_forall in Eq.
    by destruct (Eq e He).
Qed.

(** [insert] keeps the container well formed and adds exactly the new key. *)
Lemma insert_wf e l : wf l -> dom (key e) -> wf (insert lt key e l).
Proof.
  intros Hwf He. unfold insert. destruct (find lt key (key e) l) eqn:Ef; [done|].
  destruct (lower_bound_split (key e) l Hwf He) as [Ht Hd].
  pose proof (find_None _ _ Hwf He Ef) as Hne.
  assert (Hd' : Forall (fun b => rank (key e) < rank (key b))
                  (drop (lower_bound lt key (key e) l) l)).
  { pose proof (Forall_drop _ (lower_bound lt key (key e) l) _ Hne) as Hne'.
    pose proof (Forall_drop _ (lower_bound lt key (key e) l) _ (proj1 Hwf)) as Hdom.
    rewrite list.Forall_forall in Hd, Hne', Hdom |- *. intros b Hb.
    specialize (Hd b Hb). specialize (Hne' b Hb). specialize (Hdom b Hb). simpl in *.
    destruct (Z.eq_dec (rank (key b)) (rank (key e))) as [Heq|]; [|lia].
    exfalso. apply Hne'. by apply window_inj. }
  apply wf_app. split_and!; [by apply wf_take| |].
  - apply wf_cons. split_and!; [done|done|by apply wf_drop].
  - rewrite list.Forall_forall in Ht |- *. intros a Ha. specialize (Ht a Ha). simpl in Ht.
    constructor; [done|]. eapply List.Forall_impl; [|exact Hd']. simpl. lia.
Qed.

Lemma elem_of_insert e l a :
  find lt key (key e) l = None -> (a ∈ insert lt key e l <-> a = e \/ a ∈ l).
Proof.
  intros Hf. unfold insert. rewrite Hf, elem_of_app, elem_of_cons.
  pose proof (elem_of_app (take (lower_bound lt key (key e) l) l)
                (drop (lower_bound lt key (key e) l) l) a) as H.
  rewrite take_drop in H. tauto.
Qed.

Lemma length_insert_new e l :
  find lt key (key e) l = None -> length (insert lt key e l) = S (length l).
Proof.
  intros Hf. unfold insert. rewrite Hf, length_app. simpl.
  rewrite length_take, length_drop. pose proof (lower_bound_le (key e) l). lia.
Qed.

(** An element higher than all the others goes last. *)
Lemma insert_last e l :
  wf l -> dom (key e) -> Forall (fun b => rank (key b) < rank (key e)) l ->
  insert lt key e l = l ++ [e].
Proof.
  intros Hwf He Hall.
  pose proof (lower_bound_end _ _ Hwf He Hall) as Hlb.
  unfold insert, find. rewrite Hlb, lookup_ge_None_2 by done.
  by rewrite firstn_all, drop_all.
Qed.

End Laws.

(** A container seen through another window whose ranks differ by a constant. *)
Lemma wf_rebase {K E} (key : E -> K) (dom dom' : K -> Prop) (rank rank' : K -> Z) c l :
  Forall (fun e => dom' (key e) /\ rank' (key e) = rank (key e) - c) l ->
  @wf K E key dom rank l -> @wf K E key dom' rank' l.
Proof.
  intros Hl [_ Hs]. split; [eapply List.Forall_impl; [|exact Hl]; simpl; tauto|].
  induction Hs as [|e l Hs IH Hlt]; [constructor|].
  apply list.Forall_cons in Hl as [[_ He] Hl]. constructor; [by apply IH|].
  rewrite list.Forall_forall in Hl, Hlt |- *. intros b Hb.
  specialize (Hlt b Hb). destruct (Hl b Hb). lia.
Qed.

Arguments wf {K E key dom rank} l : assert.
