(* ===== verification/SeqManager.v ===== *)
(** * SeqManager: cyclic sequence numbers and the re-numbering of a stream

    Models [worker/include/RTC/SeqManager.hpp] and [worker/src/RTC/SeqManager.cpp].
    The template parameters (type [T], bits [N]) appear as the number of bits [n]
    of the sequence space: the worker instantiates 8, 3, 16, 15 and 32 bits.
    The [dropped] set is the ordered container of [OrdSet] with the cyclic
    comparator. *)

From S2P Require Import Prelude OrdSet.

Definition MaxValue (n : Z) : Z := 2 ^ n - 1.

(** [SeqLowerThan::operator()] and [SeqHigherThan::operator()]. *)
Definition IsSeqLowerThan (n lhs rhs : Z) : bool :=
  ((lhs <? rhs) && (rhs - lhs <=? MaxValue n / 2)) ||
  ((rhs <? lhs) && (MaxValue n / 2 <? lhs - rhs)).

Definition IsSeqHigherThan (n lhs rhs : Z) : bool :=
  ((rhs <? lhs) && (lhs - rhs <=? MaxValue n / 2)) ||
  ((lhs <? rhs) && (MaxValue n / 2 <? rhs - lhs)).

(** ** The cyclic order *)

(** Distance forward from [a] to [x] in the sequence space. *)
Definition offset (n a x : Z) : Z := (x - a) mod 2 ^ n.

(** The half of the sequence space that starts at [a]. *)
Definition in_window (n a x : Z) : Prop := fits n x /\ offset n a x < 2 ^ (n - 1).

Lemma pow2_half n : 1 <= n -> 2 ^ n = 2 * 2 ^ (n - 1) /\ 0 < 2 ^ (n - 1).
Proof.
  intros Hn. split; [|apply Z.pow_pos_nonneg; lia].
  rewrite <- Z.pow_succ_r by lia. f_equal. lia.
Qed.

Lemma MaxValue_half n : 1 <= n -> MaxValue n / 2 = 2 ^ (n - 1) - 1.
Proof.
  intros Hn. unfold MaxValue. destruct (pow2_half n Hn) as [-> ?].
  symmetry. apply (Z.div_unique _ _ _ 1); lia.
Qed.

Lemma land_MaxValue n a : 0 <= n -> Z.land a (MaxValue n) = a mod 2 ^ n.
Proof. apply land_ones_mod. Qed.

(** The forward distance between two points, from their raw difference. *)
Lemma offset_cases n a x :
  1 <= n -> fits n a -> fits n x ->
  offset n a x = if a <=? x then x - a else x - a + 2 ^ n.
Proof.
  intros Hn Ha Hx. unfold offset, fits in *. case_cmp.
  - apply Z.mod_small. lia.
  - symmetry. apply (Z.mod_unique _ _ (-1)); lia.
Qed.

Section Cyclic.
Context (n : Z) (Hn : 1 <= n).

(** What [IsSeqLowerThan] decides: [b] is ahead of [a] by less than half of the
    sequence space, or exactly half of it away with the smaller raw value. *)
Lemma IsSeqLowerThan_spec a b :
  fits n a -> fits n b ->
  (IsSeqLowerThan n a b = true <->
   0 < offset n a b < 2 ^ (n - 1) \/ (offset n a b = 2 ^ (n - 1) /\ b < a)).
Proof.
  intros Ha Hb. rewrite offset_cases by done. unfold IsSeqLowerThan.
  rewrite MaxValue_half by done. destruct (pow2_half n Hn). unfold fits in *.
  case_cmp; simpl; intuition (try lia; try congruence).
Qed.

Lemma IsSeqHigherThan_flip a b : IsSeqHigherThan n a b = IsSeqLowerThan n b a.
Proof. reflexivity. Qed.

Lemma IsSeqLowerThan_irrefl a : IsSeqLowerThan n a a = false.
Proof. unfold IsSeqLowerThan. rewrite Z.ltb_irrefl. reflexivity. Qed.

(** Any two distinct sequence numbers are ordered exactly one way. *)
Lemma IsSeqLowerThan_total a b :
  fits n a -> fits n b -> a <> b ->
  IsSeqLowerThan n a b = negb (IsSeqLowerThan n b a).
Proof.
  intros Ha Hb Hab. unfold IsSeqLowerThan. rewrite MaxValue_half by done.
  destruct (pow2_half n Hn). unfold fits in *. case_cmp; simpl; lia || done.
Qed.

Lemma offset_range a x : 0 <= offset n a x < 2 ^ n.
Proof. apply Z.mod_pos_bound. apply Z.pow_pos_nonneg; lia. Qed.

(** Within a half-space window the comparator is the order of offsets. *)
Lemma offset_diff a x y :
  in_window n a x -> in_window n a y ->
  offset n x y = (offset n a y - offset n a x) mod 2 ^ n.
Proof.
  intros Hx Hy. unfold offset. rewrite <- Zminus_mod. f_equal. lia.
Qed.

#[local] Instance seq_window a :
  WindowOrder (IsSeqLowerThan n) (in_window n a) (offset n a).
Proof.
  split.
  - intros x y Hx Hy. rewrite IsSeqLowerThan_spec by apply Hx || apply Hy.
    rewrite (offset_diff a) by done. destruct Hx as [Fx Hx], Hy as [Fy Hy].
    pose proof (offset_range a x). pose proof (offset_range a y).
    destruct (pow2_half n Hn) as [Hp ?].
    set (ox := offset n a x) in *. set (oy := offset n a y) in *. clearbody ox oy.
    destruct (Z.lt_ge_cases ox oy).
    + rewrite Z.mod_small by lia. intuition lia.
    + destruct (Z.eq_dec ox oy) as [->|].
      * rewrite Z.sub_diag, Z.mod_0_l by lia. intuition lia.
      * rewrite <- (Z.mod_unique (oy - ox) (2 ^ n) (-1) (oy - ox + 2 ^ n)) by lia.
        intuition lia.
  - intros x y [Fx Hx] [Fy Hy] Heq. unfold offset in Heq. unfold fits in *.
    assert (H0 : (x - y) mod 2 ^ n = 0).
    { replace (x - y) with ((x - a) - (y - a)) by lia.
      rewrite Zminus_mod, Heq, Z.sub_diag. apply Z.mod_0_l. lia. }
    apply Z.mod_divide in H0 as [q Hq]; [|lia].
    assert (q = 0) by nia. lia.
Qed.

Lemma in_window_succ a k :
  0 <= k < 2 ^ (n - 1) -> in_window n a ((a + k) mod 2 ^ n) /\
  offset n a ((a + k) mod 2 ^ n) = k.
Proof.
  intros Hk. destruct (pow2_half n Hn).
  assert (Hoff : offset n a ((a + k) mod 2 ^ n) = k).
  { unfold offset. rewrite Zminus_mod_idemp_l.
    replace (a + k - a) with k by lia. apply Z.mod_small. lia. }
  split; [|done]. split; [|lia]. unfold fits. apply Z.mod_pos_bound. lia.
Qed.

End Cyclic.

#[export] Hint Resolve seq_window : typeclass_instances.

(** ** The sequence manager *)

Module Manager.

Record SeqManager := {
  started : bool;
  base : Z;
  maxOutput : Z;
  maxInput : Z;
  dropped : list Z;
}.

Definition init : SeqManager :=
  {| started := false; base := 0; maxOutput := 0; maxInput := 0; dropped := [] |}.

Definition Sync (n : Z) (s : SeqManager) (input : Z) : SeqManager :=
  {| started := started s;
     base := Z.land (maxOutput s - input) (MaxValue n);
     maxOutput := maxOutput s;
     maxInput := input;
     dropped := [] |}.

Definition Drop (n : Z) (s : SeqManager) (input : Z) : SeqManager :=
  if IsSeqHigherThan n input (maxInput s) then
    {| started := started s; base := base s; maxOutput := maxOutput s;
       maxInput := maxInput s;
       dropped := OrdSet.insert (IsSeqLowerThan n) id input (dropped s) |}
  else s.

Definition ClearDropped (n : Z) (s : SeqManager) : SeqManager :=
  match dropped s with
  | [] => s
  | _ =>
      let threshold := Z.land (maxInput s + MaxValue n / 3) (MaxValue n) in
      let previousDroppedSize := zlen (dropped s) in
      let it1 := OrdSet.upper_bound (IsSeqLowerThan n) id (maxInput s) (dropped s) in
      let it2 := OrdSet.lower_bound (IsSeqLowerThan n) id threshold (dropped s) in
      if Nat.eqb it1 (length (dropped s)) then s
      else
        let dropped' :=
          if Nat.eqb it1 it2 then OrdSet.erase it1 (dropped s)
          else if Nat.ltb it2 it1 then OrdSet.erase it1 (dropped s)
          else OrdSet.erase_range it1 it2 (dropped s) in
        {| started := started s;
           base := Z.land (base s - (previousDroppedSize - zlen dropped')) (MaxValue n);
           maxOutput := maxOutput s; maxInput := maxInput s; dropped := dropped' |}
  end.

(** The condition under which a dropped value is counted by [Input]. *)
Definition counted (n input value : Z) : bool :=
  IsSeqLowerThan n value input ||
  (((input <? value) && (MaxValue n / 3 <? value - input)) ||
   ((value <? input) && (MaxValue n / 3 <? input - value))).

Definition Input (n : Z) (s : SeqManager) (input : Z) : option Z * SeqManager :=
  if negb (Nat.eqb (length (dropped s)) 0) &&
     bool_decide (is_Some (OrdSet.find (IsSeqLowerThan n) id input (dropped s)))
  then (None, s)
  else
    let base' :=
      match dropped s with
      | [] => base s
      | _ => Z.land (base s - zlen (List.filter (counted n input) (dropped s))) (MaxValue n)
      end in
    let output := Z.land (input + base') (MaxValue n) in
    let s' :=
      if negb (started s) then
        {| started := true; base := base s; maxOutput := output; maxInput := input;
           dropped := dropped s |}
      else
        {| started := true; base := base s;
           maxOutput := if IsSeqHigherThan n output (maxOutput s) then output else maxOutput s;
           maxInput := if IsSeqHigherThan n input (maxInput s) then input else maxInput s;
           dropped := dropped s |} in
    (Some output, ClearDropped n s').

Definition GetMaxInput (s : SeqManager) : Z := maxInput s.
Definition GetMaxOutput (s : SeqManager) : Z := maxOutput s.


(** A packet stream seen by the manager: consecutive sequence numbers from [seq],
    each one forwarded ([true]) or dropped ([false]); the outputs, in order. *)
Fixpoint feed (n : Z) (s : SeqManager) (seq : Z) (keep : list bool)
    : list (option Z) * SeqManager :=
  match keep with
  | [] => ([], s)
  | true :: keep' =>
      let '(o, s1) := Input n s seq in
      let '(os, s2) := feed n s1 ((seq + 1) mod 2 ^ n) keep' in
      (o :: os, s2)
  | false :: keep' => feed n (Drop n s seq) ((seq + 1) mod 2 ^ n) keep'
  end.

(** The numbers that follow [o], one per forwarded packet. *)
Fixpoint consecutive (n o : Z) (keep : list bool) : list (option Z) :=
  match keep with
  | [] => []
  | true :: keep' =>
      Some ((o + 1) mod 2 ^ n) :: consecutive n ((o + 1) mod 2 ^ n) keep'
  | false :: keep' => consecutive n o keep'
  end.

Section Stream.
Context (n : Z) (Hn : 2 <= n).

(** The manager after [k] packets of a stream that was synchronised at [i] with
    [o] as its highest output: [length (dropped s)] of them were dropped. *)
Record stream_inv (i o k : Z) (s : SeqManager) : Prop := {
  inv_wf : OrdSet.wf (key := id) (dom := in_window n i) (rank := offset n i) (dropped s);
  inv_old : Forall (fun d => offset n i d <= k) (dropped s);
  inv_count : zlen (dropped s) <= k;
  inv_maxInput : in_window n i (maxInput s);
  inv_maxInput_old : offset n i (maxInput s) <= k;
  inv_base : base s = (o - i) mod 2 ^ n;
  inv_maxOutput : maxOutput s = (o + (k - zlen (dropped s))) mod 2 ^ n;
}.

#[local] Instance window_order i : WindowOrder (IsSeqLowerThan n) (in_window n i) (offset n i).
Proof. apply seq_window. lia. Qed.

Lemma Sync_inv s i :
  fits n i -> fits n (maxOutput s) -> stream_inv i (maxOutput s) 0 (Sync n s i).
Proof.
  intros Hi Ho. destruct (pow2_half n ltac:(lia)).
  assert (offset n i i = 0) as Hoff.
  { unfold offset. rewrite Z.sub_diag. apply Z.mod_0_l. lia. }
  split; cbn; try (unfold zlen; simpl; lia).
  - apply wf_nil.
  - constructor.
  - split; [done|]. lia.
  - by rewrite land_MaxValue by lia.
  - rewrite Z.add_0_r. symmetry. by apply Z.mod_small.
Qed.

(** The next packet of the stream is ahead of everything seen. *)
Lemma next_higher i o k s :
  stream_inv i o k s -> 0 <= k -> k + 1 < 2 ^ (n - 1) ->
  IsSeqHigherThan n ((i + (k + 1)) mod 2 ^ n) (maxInput s) = true.
Proof.
  intros Hs Hk Hk1. rewrite IsSeqHigherThan_flip.
  destruct (in_window_succ n ltac:(lia) i (k + 1) ltac:(lia)) as [Hw Ho].
  apply (window_lt (lt := IsSeqLowerThan n) (rank := offset n i)); [apply Hs|done|].
  pose proof (inv_maxInput_old _ _ _ _ Hs). lia.
Qed.

Lemma dropped_lower i o k s :
  stream_inv i o k s -> 0 <= k -> k + 1 < 2 ^ (n - 1) ->
  Forall (fun d => offset n i d < offset n i ((i + (k + 1)) mod 2 ^ n)) (dropped s).
Proof.
  intros Hs Hk Hk1.
  destruct (in_window_succ n ltac:(lia) i (k + 1) ltac:(lia)) as [_ ->].
  eapply List.Forall_impl; [|apply (inv_old _ _ _ _ Hs)]. simpl. lia.
Qed.

Lemma Drop_inv i o k s :
  stream_inv i o k s -> 0 <= k -> k + 1 < 2 ^ (n - 1) ->
  stream_inv i o (k + 1) (Drop n s ((i + (k + 1)) mod 2 ^ n)).
Proof.
  intros Hs Hk Hk1. unfold Drop. rewrite (next_higher i o k) by done.
  pose proof (dropped_lower _ _ _ _ Hs Hk Hk1) as Hlow.
  destruct (in_window_succ n ltac:(lia) i (k + 1) ltac:(lia)) as [Hw Ho].
  pose proof (insert_wf (lt := IsSeqLowerThan n) (key := id) _ _ (inv_wf _ _ _ _ Hs) Hw) as Hwf.
  rewrite (insert_last (lt := IsSeqLowerThan n) (key := id) _ _ (inv_wf _ _ _ _ Hs) Hw Hlow)
    in Hwf |- *.
  destruct Hs. split; cbn -[zlen]; try done.
  - apply Forall_app. split; [|constructor; [|constructor]; lia].
    eapply List.Forall_impl; [|exact inv_old0]. simpl. lia.
  - rewrite zlen_app, zlen_cons, zlen_nil. lia.
  - lia.
  - rewrite zlen_app, zlen_cons, zlen_nil, inv_maxOutput0. f_equal. lia.
Qed.

Lemma counted_all i o k s :
  stream_inv i o k s -> 0 <= k -> k + 1 < 2 ^ (n - 1) ->
  List.filter (counted n ((i + (k + 1)) mod 2 ^ n)) (dropped s) = dropped s.
Proof.
  intros Hs Hk Hk1. pose proof (dropped_lower _ _ _ _ Hs Hk Hk1) as Hlow.
  destruct (in_window_succ n ltac:(lia) i (k + 1) ltac:(lia)) as [Hw _].
  pose proof (proj1 (inv_wf _ _ _ _ Hs)) as Hdom.
  induction (dropped s) as [|d l IH]; [done|].
  apply list.Forall_cons in Hlow as [Hd Hlow]. apply list.Forall_cons in Hdom as [Hdd Hdom].
  simpl. replace (counted n ((i + (k + 1)) mod 2 ^ n) d) with true.
  - f_equal. by apply IH.
  - symmetry. unfold counted. apply orb_true_iff. left.
    by apply (window_lt (lt := IsSeqLowerThan n) (rank := offset n i)).
Qed.

(** Nothing is cleared while everything dropped is behind the highest input. *)
Lemma ClearDropped_id i s :
  OrdSet.wf (key := id) (dom := in_window n i) (rank := offset n i) (dropped s) ->
  in_window n i (maxInput s) ->
  Forall (fun d => offset n i d <= offset n i (maxInput s)) (dropped s) ->
  ClearDropped n s = s.
Proof.
  intros Hwf Hm Hall. unfold ClearDropped.
  destruct (dropped s) as [|d l] eqn:E; [done|]. rewrite <- E in *.
  rewrite (upper_bound_end (lt := IsSeqLowerThan n) (key := id) _ _ Hwf Hm Hall).
  by rewrite Nat.eqb_refl.
Qed.

Lemma find_next i o k s :
  stream_inv i o k s -> 0 <= k -> k + 1 < 2 ^ (n - 1) ->
  OrdSet.find (IsSeqLowerThan n) id ((i + (k + 1)) mod 2 ^ n) (dropped s) = None.
Proof.
  intros Hs Hk Hk1. pose proof (dropped_lower _ _ _ _ Hs Hk Hk1) as Hlow.
  destruct (in_window_succ n ltac:(lia) i (k + 1) ltac:(lia)) as [Hw _].
  destruct (OrdSet.find _ _ _ _) eqn:E; [|done]. exfalso.
  destruct (proj1 (find_is_Some (lt := IsSeqLowerThan n) (key := id) _ _
              (inv_wf _ _ _ _ Hs) Hw)) as (d & Hd & Hk').
  { by eexists. }
  rewrite list.Forall_forall in Hlow. specialize (Hlow d Hd). cbn in Hk', Hlow. subst d. lia.
Qed.

Lemma Input_output i o k s :
  stream_inv i o k s -> 0 <= k -> k + 1 < 2 ^ (n - 1) ->
  fst (Input n s ((i + (k + 1)) mod 2 ^ n)) =
  Some ((o + (k - zlen (dropped s)) + 1) mod 2 ^ n).
Proof.
  intros Hs Hk Hk1. unfold Input. rewrite (find_next i o k) by done.
  rewrite bool_decide_eq_false_2 by (by intros [? [=]]). rewrite andb_false_r. cbn [fst].
  rewrite (counted_all i o k) by done. f_equal.
  rewrite land_MaxValue by lia. rewrite Zplus_mod_idemp_l.
  destruct (dropped s) as [|d l] eqn:E.
  - rewrite (inv_base _ _ _ _ Hs), zlen_nil, Zplus_mod_idemp_r. f_equal. lia.
  - rewrite <- E, land_MaxValue, (inv_base _ _ _ _ Hs) by lia.
    rewrite Zminus_mod_idemp_l, Zplus_mod_idemp_r. f_equal. lia.
Qed.

(** One above in the sequence space is higher. *)
Lemma succ_higher x : IsSeqHigherThan n ((x + 1) mod 2 ^ n) (x mod 2 ^ n) = true.
Proof.
  destruct (pow2_half n ltac:(lia)). destruct (pow2_half (n - 1) ltac:(lia)).
  rewrite IsSeqHigherThan_flip.
  apply IsSeqLowerThan_spec; [lia|apply Z.mod_pos_bound; lia..|]. left.
  unfold offset. rewrite <- Zminus_mod. replace (x + 1 - x) with 1 by lia.
  rewrite Z.mod_small by lia. lia.
Qed.

Lemma Input_inv i o k s :
  stream_inv i o k s -> 0 <= k -> k + 1 < 2 ^ (n - 1) ->
  stream_inv i o (k + 1) (snd (Input n s ((i + (k + 1)) mod 2 ^ n))) /\
  dropped (snd (Input n s ((i + (k + 1)) mod 2 ^ n))) = dropped s.
Proof.
  intros Hs Hk Hk1. pose proof (Input_output i o k s Hs Hk Hk1) as Hout.
  pose proof (next_higher i o k s Hs Hk Hk1) as Hhigh.
  destruct (in_window_succ n ltac:(lia) i (k + 1) ltac:(lia)) as [Hw Ho].
  unfold Input in *. rewrite (find_next i o k) in * by done.
  rewrite bool_decide_eq_false_2 in * by (by intros [? [=]]). rewrite andb_false_r in *.
  cbn [fst snd] in *. injection Hout as Hout. rewrite !Hout.
  set (x := (i + (k + 1)) mod 2 ^ n) in *.
  assert (Hall : Forall (fun d => offset n i d <= offset n i x) (dropped s)).
  { eapply List.Forall_impl; [|apply (inv_old _ _ _ _ Hs)]. simpl. lia. }
  assert (Hold : Forall (fun d => offset n i d <= k + 1) (dropped s)).
  { eapply List.Forall_impl; [|apply (inv_old _ _ _ _ Hs)]. simpl. lia. }
  destruct (started s); cbn [negb].
  - rewrite Hhigh, (inv_maxOutput _ _ _ _ Hs), succ_higher.
    rewrite (ClearDropped_id i); [|apply Hs|done|done].
    split; [|done]. destruct Hs. split; cbn -[zlen]; try done; try lia. f_equal. lia.
  - rewrite (ClearDropped_id i); [|apply Hs|done|done].
    split; [|done]. destruct Hs. split; cbn -[zlen]; try done; try lia. f_equal. lia.
Qed.

Lemma feed_consecutive i o keep : forall k s,
  stream_inv i o k s -> 0 <= k -> k + zlen keep < 2 ^ (n - 1) ->
  fst (feed n s ((i + (k + 1)) mod 2 ^ n) keep) = consecutive n (maxOutput s) keep.
Proof.
  induction keep as [|b keep IH]; intros k s Hs Hk Hlen; [done|].
  rewrite zlen_cons in Hlen. pose proof (zlen_nonneg keep).
  assert (Hnext : ((i + (k + 1)) mod 2 ^ n + 1) mod 2 ^ n = (i + (k + 1 + 1)) mod 2 ^ n).
  { rewrite Zplus_mod_idemp_l. f_equal. lia. }
  destruct b; cbn [feed consecutive].
  - pose proof (Input_output i o k s Hs Hk ltac:(lia)) as Hout.
    destruct (Input_inv i o k s Hs Hk ltac:(lia)) as [Hinv Hdr].
    destruct (Input n s _) as [out s1] eqn:E. cbn [fst snd] in *. subst out.
    rewrite Hnext. specialize (IH (k + 1) s1 Hinv ltac:(lia) ltac:(lia)).
    destruct (feed n s1 _ keep) as [os s2]. cbn [fst] in *. subst os.
    rewrite (inv_maxOutput _ _ _ _ Hs), (inv_maxOutput _ _ _ _ Hinv), Zplus_mod_idemp_l, Hdr.
    f_equal. f_equal. f_equal. lia.
  - pose proof (Drop_inv i o k s Hs Hk ltac:(lia)) as Hinv. rewrite Hnext.
    rewrite (IH (k + 1) _ Hinv ltac:(lia) ltac:(lia)). f_equal.
    unfold Drop. by destruct (IsSeqHigherThan _ _ _).
Qed.

End Stream.

(** C10: re-numbering leaves no gap.  After [Sync(i)], a stream of consecutive
    packets of which some are dropped and the others forwarded comes out with
    consecutive sequence numbers that continue the highest output so far; it holds
    for every pattern of drops over less than half of the sequence space and
    across wrap-arounds of both numberings. *)
Theorem stream_consecutive n s i keep :
  2 <= n -> fits n i -> fits n (maxOutput s) -> zlen keep < 2 ^ (n - 1) ->
  fst (feed n (Sync n s i) ((i + 1) mod 2 ^ n) keep) = consecutive n (maxOutput s) keep.
Proof.
  intros Hn Hi Ho Hlen.
  exact (feed_consecutive n Hn i (maxOutput s) keep 0 _ (Sync_inv n Hn s i Hi Ho)
           ltac:(lia) ltac:(lia)).
Qed.

Lemma stream_consecutive_witness :
  fst (feed 16 (Sync 16 init 65533) 65534 [true; false; false; true; true; false; true]) =
  [Some 1; Some 2; Some 3; Some 4].
Proof.
  rewrite (stream_consecutive 16 init 65533); [reflexivity|..];
    unfold fits, zlen; simpl; lia.
Defined.

(** [Input] counts a dropped value ahead of the wrap-around as if it belonged to
    the previous cycle: when packet 0 is dropped before the late packet 65535
    arrives, packets 65534 and 65535 come out with the same sequence number. *)
Theorem wrap_reordering_duplicates :
  let s1 := snd (Input 16 init 65534) in
  let s2 := Drop 16 s1 0 in
  fst (Input 16 init 65534) = Some 65534 /\ fst (Input 16 s2 65535) = Some 65534.
Proof. split; reflexivity. Qed.

End Manager.
