(* ===== verification/RtpRetransmissionBuffer.v ===== *)
(** * RtpRetransmissionBuffer: packets kept for retransmission

    Models [worker/src/RTC/RtpRetransmissionBuffer.cpp] and its header.  The
    [std::deque<Item*>] is a list of optional items: [None] is a blank slot
    ([nullptr]).  A packet is what the buffer reads of it: its identity, SSRC,
    sequence number and timestamp; [sharedPacket] is the content of the caller's
    [std::shared_ptr], filled by the first [FillItem]. *)

From S2P Require Import Prelude SeqManager.

Module RetransmissionBuffer.

Record Packet := {
  pkt_id : Z;
  pkt_ssrc : Z;
  pkt_seq : Z;
  pkt_ts : Z;
}.

Record Item := {
  item_packet : option Packet;
  item_ssrc : Z;
  sequenceNumber : Z;
  timestamp : Z;
  resentAtMs : Z;
  sentTimes : Z;
}.

Record Buffer := {
  buffer : list (option Item);
  maxItems : Z;
  maxRetransmissionDelayMs : Z;
  clockRate : Z;
}.

Definition with_buffer (b : Buffer) (l : list (option Item)) : Buffer :=
  {| buffer := l; maxItems := maxItems b;
     maxRetransmissionDelayMs := maxRetransmissionDelayMs b; clockRate := clockRate b |}.

(** The constructor asserts that [maxItems] is positive. *)
Definition create (maxItems maxRetransmissionDelayMs clockRate : Z) : res Buffer :=
  _ ← ms_assert (0 <? maxItems);
  mret {| buffer := []; maxItems := maxItems;
          maxRetransmissionDelayMs := maxRetransmissionDelayMs; clockRate := clockRate |}.

Definition GetOldest (l : list (option Item)) : option Item :=
  match l with [] => None | x :: _ => x end.

Definition GetNewest (l : list (option Item)) : option Item :=
  match list.last l with None => None | Some x => x end.

Definition Get (b : Buffer) (seq : Z) : res (option Item) :=
  match GetOldest (buffer b) with
  | None => Ok None
  | Some oldestItem =>
      if IsSeqLowerThan 16 seq (sequenceNumber oldestItem) then Ok None
      else
        let idx := u16 (seq - sequenceNumber oldestItem) in
        if u16 (zlen (buffer b) - 1) <? idx then Ok None
        else match buffer b !! Z.to_nat idx with
             | Some it => Ok it
             | None => Fault OutOfBounds
             end
  end.

Definition Clear (b : Buffer) : Buffer := with_buffer b [].

(** The [while] loop that pops blank slots from the front. *)
Fixpoint drop_blank (l : list (option Item)) : list (option Item) :=
  match l with None :: l' => drop_blank l' | _ => l end.

(** [RemoveOldest()]: dereferences the front item before popping it. *)
Definition RemoveOldest (l : list (option Item)) : res (list (option Item)) :=
  match l with
  | [] => Ok []
  | x :: l' => _ ← deref x; mret (drop_blank l')
  end.

(** The loop of [RemoveOldest(numItems)]. *)
Fixpoint remove_loop (fuel : nat) (intended : Z) (l : list (option Item))
    : res (list (option Item)) :=
  if intended <? zlen l then
    match fuel with
    | O => Fault OutOfFuel
    | S fuel' => l' ← RemoveOldest l; remove_loop fuel' intended l'
    end
  else Ok l.

Definition RemoveOldestN (numItems : Z) (l : list (option Item)) : res (list (option Item)) :=
  _ ← ms_assert (numItems <=? zlen l);
  remove_loop (length l) (zlen l - numItems) l.

(** [diffTs] is the difference of two [uint32_t], widened afterwards; the division is not guarded. *)
Definition IsTooOldTimestamp (b : Buffer) (ts newestTimestamp : Z) : res bool :=
  if IsSeqHigherThan 32 ts newestTimestamp then mret false
  else
    let diffTs := u32 (newestTimestamp - ts) in
    if clockRate b =? 0 then Fault DivideByZero
    else mret (maxRetransmissionDelayMs b <? u32 (diffTs * 1000 / clockRate b)).

(** The loop of [ClearTooOldByTimestamp], on the list and the result flag. *)
Fixpoint clear_loop (fuel : nat) (b : Buffer) (newestTimestamp : Z) (removed : bool)
    (l : list (option Item)) : res (bool * list (option Item)) :=
  match GetOldest l with
  | Some oldestItem =>
      old ← IsTooOldTimestamp b (timestamp oldestItem) newestTimestamp;
      if old : bool then
        match fuel with
        | O => Fault OutOfFuel
        | S fuel' =>
            l' ← RemoveOldest l; clear_loop fuel' b newestTimestamp true l'
        end
      else Ok (removed, l)
  | None => Ok (removed, l)
  end.

Definition ClearTooOldByTimestamp (b : Buffer) (newestTimestamp : Z)
    : res (bool * list (option Item)) :=
  clear_loop (length (buffer b)) b newestTimestamp false (buffer b).

(** [FillItem] on a fresh item: clones the packet the first time it is stored. *)
Definition FillItem (p : Packet) (sharedPacket : option Packet) : Item * option Packet :=
  let sharedPacket := match sharedPacket with None => Some p | Some q => Some q end in
  ({| item_packet := sharedPacket; item_ssrc := pkt_ssrc p; sequenceNumber := pkt_seq p;
      timestamp := pkt_ts p; resentAtMs := 0; sentTimes := 0 |}, sharedPacket).

(** The assertion at the end of [Insert], reached by the paths that store. *)
Definition assert_size (b : Buffer) (shared : option Packet) : res (Buffer * option Packet) :=
  _ ← ms_assert (zlen (buffer b) <=? maxItems b);
  mret (b, shared).

(** Removal of the oldest items when the blank slots and the packet would exceed
    the maximum size; the remaining slots and how many blank ones to push. *)
Definition make_space (b : Buffer) (numBlankSlots : Z) : res (list (option Item) * Z) :=
  let size := zlen (buffer b) in
  if maxItems b <? size + numBlankSlots + 1 then
    let numItemsToRemove := u16 (size + numBlankSlots + 1 - maxItems b) in
    if size - 1 <? numItemsToRemove then Ok ([], 0)
    else l ← RemoveOldestN numItemsToRemove (buffer b); mret (l, numBlankSlots)
  else Ok (buffer b, numBlankSlots).

(** The packet becomes the newest one of the buffer. *)
Definition Insert_in_order (b : Buffer) (newestItem : Item) (p : Packet)
    (sharedPacket : option Packet) : res (Buffer * option Packet) :=
  if IsSeqLowerThan 32 (pkt_ts p) (timestamp newestItem) then Ok (b, sharedPacket)
  else
    let numBlankSlots := u16 (pkt_seq p - sequenceNumber newestItem - 1) in
    '(l, numBlankSlots) ← make_space b numBlankSlots;
    let '(item, shared) := FillItem p sharedPacket in
    assert_size
      (with_buffer b (l ++ replicate (Z.to_nat numBlankSlots) None ++ [Some item])) shared.

(** The packet becomes the oldest one of the buffer. *)
Definition Insert_older (b : Buffer) (oldestItem newestItem : Item) (p : Packet)
    (sharedPacket : option Packet) : res (Buffer * option Packet) :=
  old ← IsTooOldTimestamp b (pkt_ts p) (timestamp newestItem);
  if old : bool then Ok (b, sharedPacket)
  else if IsSeqHigherThan 32 (pkt_ts p) (timestamp oldestItem) then Ok (b, sharedPacket)
  else
    let numBlankSlots := u16 (sequenceNumber oldestItem - pkt_seq p - 1) in
    if maxItems b <? zlen (buffer b) + numBlankSlots + 1 then Ok (b, sharedPacket)
    else
      let '(item, shared) := FillItem p sharedPacket in
      assert_size
        (with_buffer b (Some item :: replicate (Z.to_nat numBlankSlots) None ++ buffer b))
        shared.

(** The loop over the older slots, from [idx - 1] down to 0. *)
Fixpoint check_older (ts : Z) (l : list (option Item)) (idx : nat) : res bool :=
  match idx with
  | O => Ok true
  | S idx2 =>
      match l !! idx2 with
      | None => Fault OutOfBounds
      | Some None => check_older ts l idx2
      | Some (Some olderItem) => Ok (timestamp olderItem <=? ts)
      end
  end.

(** The loop over the newer slots, from [idx + 1] to the end. *)
Fixpoint check_newer (ts : Z) (l : list (option Item)) : bool :=
  match l with
  | [] => true
  | None :: l' => check_newer ts l'
  | Some newerItem :: _ => ts <=? timestamp newerItem
  end.

(** The packet has a slot between the oldest and the newest one. *)
Definition Insert_between (b : Buffer) (oldestItem : Item) (p : Packet)
    (sharedPacket : option Packet) : res (Buffer * option Packet) :=
  item ← Get b (pkt_seq p);
  match item with
  | Some _ => Ok (b, sharedPacket)
  | None =>
      let idx := Z.to_nat (u16 (pkt_seq p - sequenceNumber oldestItem)) in
      ok ← check_older (pkt_ts p) (buffer b) idx;
      if negb ok then Ok (b, sharedPacket)
      else if negb (check_newer (pkt_ts p) (drop (S idx) (buffer b))) then Ok (b, sharedPacket)
      else
        let '(it, shared) := FillItem p sharedPacket in
        if Nat.ltb idx (length (buffer b)) then
          assert_size (with_buffer b (<[idx := Some it]> (buffer b))) shared
        else Fault OutOfBounds
  end.

(** The insertion into an empty buffer. *)
Definition Insert_first (b : Buffer) (p : Packet) (sharedPacket : option Packet)
    : Buffer * option Packet :=
  let '(item, shared) := FillItem p sharedPacket in
  (with_buffer b (buffer b ++ [Some item]), shared).

Definition Insert (b : Buffer) (p : Packet) (sharedPacket : option Packet)
    : res (Buffer * option Packet) :=
  match buffer b with
  | [] => Ok (Insert_first b p sharedPacket)
  | _ =>
      newestItem ← deref (GetNewest (buffer b));
      if IsSeqLowerThan 16 (pkt_seq p) (sequenceNumber newestItem) &&
         IsSeqHigherThan 32 (pkt_ts p) (timestamp newestItem)
      then Ok (Insert_first (Clear b) p sharedPacket)
      else
        let newestTimestamp :=
          if IsSeqHigherThan 32 (pkt_ts p) (timestamp newestItem) then pkt_ts p
          else timestamp newestItem in
        '(removed, l) ← ClearTooOldByTimestamp b newestTimestamp;
        let b := with_buffer b l in
        match l with
        | [] => Ok (Insert_first b p sharedPacket)
        | _ =>
            oldestItem ← deref (GetOldest l);
            newestItem ← deref (GetNewest l);
            if IsSeqHigherThan 16 (pkt_seq p) (sequenceNumber newestItem) then
              Insert_in_order b newestItem p sharedPacket
            else if IsSeqLowerThan 16 (pkt_seq p) (sequenceNumber oldestItem) then
              Insert_older b oldestItem newestItem p sharedPacket
            else Insert_between b oldestItem p sharedPacket
        end
  end.

(** ** Well-formed buffers *)

(** The stored items, oldest first. *)
Definition items (l : list (option Item)) : list Item := omap id l.

Definition item_ok (it : Item) : Prop := fits 16 (sequenceNumber it) /\ fits 32 (timestamp it).

(** The timestamp of [b] is not behind that of [a]. *)
Definition ts_le (a b : Item) : Prop := IsSeqLowerThan 32 (timestamp b) (timestamp a) = false.

(** Slots addressed by sequence number from [s0], no blank slot at either end,
    timestamps that never go back. *)
Record slots (s0 : Z) (l : list (option Item)) : Prop := {
  slots_idx : forall i it, l !! i = Some (Some it) ->
                sequenceNumber it = (s0 + Z.of_nat i) mod 2 ^ 16;
  slots_items : Forall item_ok (items l);
  slots_ts : Sorted ts_le (items l);
  slots_front : l <> [] -> is_Some (GetOldest l);
  slots_back : l <> [] -> is_Some (GetNewest l);
}.

Record wf (b : Buffer) : Prop := {
  wf_max : 0 < maxItems b <= 2 ^ 15;
  wf_size : zlen (buffer b) <= maxItems b;
  wf_slots : exists s0, slots s0 (buffer b);
}.

Definition packet_ok (p : Packet) : Prop := fits 16 (pkt_seq p) /\ fits 32 (pkt_ts p).

Lemma items_app l k : items (l ++ k) = items l ++ items k.
Proof. apply omap_app. Qed.

Lemma items_blank n : items (replicate n None) = [].
Proof. induction n; [done|]. simpl. done. Qed.

Lemma elem_of_items it l : it ∈ items l <-> Some it ∈ l.
Proof.
  unfold items. rewrite list_elem_of_omap. split.
  - intros (x & Hx & Heq). cbn in Heq. by subst x.
  - intros H. by exists (Some it).
Qed.

Lemma GetNewest_Some l it : GetNewest l = Some it <-> list.last l = Some (Some it).
Proof. unfold GetNewest. destruct (list.last l) as [[?|]|]; naive_solver. Qed.

Lemma GetOldest_Some l it : GetOldest l = Some it <-> l !! 0%nat = Some (Some it).
Proof. destruct l as [|[?|] l]; naive_solver. Qed.

Lemma last_items l it : GetNewest l = Some it -> list.last (items l) = Some it.
Proof.
  rewrite GetNewest_Some, last_Some. intros [k ->]. rewrite items_app. apply last_snoc.
Qed.

Lemma head_items l it : GetOldest l = Some it -> head (items l) = Some it.
Proof. destruct l as [|[?|] l]; naive_solver. Qed.

Lemma newest_in l it : GetNewest l = Some it -> it ∈ items l.
Proof.
  intros H. apply last_items, last_Some in H as [k ->].
  apply elem_of_app. right. by apply list_elem_of_singleton.
Qed.

Lemma oldest_in l it : GetOldest l = Some it -> it ∈ items l.
Proof.
  intros H. apply elem_of_items. apply GetOldest_Some in H.
  by eapply list_elem_of_lookup_2.
Qed.

Lemma slots_nil s0 : slots s0 [].
Proof. split; try done; constructor. Qed.

(** Dropping a prefix keeps the slots if a stored item comes first. *)
Lemma slots_drop s0 l k :
  slots s0 l -> (drop k l <> [] -> is_Some (GetOldest (drop k l))) ->
  slots (s0 + Z.of_nat k) (drop k l).
Proof.
  intros Hs Hf. assert (Hit : items l = items (take k l) ++ items (drop k l)).
  { by rewrite <- items_app, take_drop. }
  split.
  - intros i it Hi. rewrite lookup_drop in Hi. rewrite (slots_idx _ _ Hs _ _ Hi).
    f_equal. lia.
  - pose proof (slots_items _ _ Hs) as H. rewrite Hit in H. by apply Forall_app in H as [_ ?].
  - pose proof (slots_ts _ _ Hs) as H. rewrite Hit in H. by apply Sorted_app_iff in H as (_ & ? & _).
  - done.
  - intros Hne. destruct (slots_back _ _ Hs) as [it Hb].
    { intros ->. by rewrite drop_nil in Hne. }
    exists it. rewrite GetNewest_Some, last_drop_ne in * by done. done.
Qed.

Lemma drop_blank_drop l :
  exists k, drop_blank l = drop k l /\
    (drop_blank l <> [] -> is_Some (GetOldest (drop_blank l))) /\
    (is_Some (GetNewest l) -> drop_blank l <> []).
Proof.
  induction l as [|[x|] l IH]; simpl.
  - exists 0%nat. split_and!; [done..|]. by intros [? ?].
  - exists 0%nat. split_and!; [done|by eexists|done].
  - destruct IH as (k & IH1 & IH2 & IH3). exists (S k). split_and!; [done..|].
    intros [it Hit]. apply IH3. exists it. rewrite GetNewest_Some in *.
    by destruct l.
Qed.

(** [RemoveOldest] never dereferences null and leaves the newest item in place. *)
Lemma RemoveOldest_ok s0 l :
  slots s0 l -> l <> [] ->
  exists k, RemoveOldest l = Ok (drop (S k) l) /\
    slots (s0 + Z.of_nat (S k)) (drop (S k) l) /\
    ((1 < length l)%nat -> drop (S k) l <> []).
Proof.
  intros Hs Hne. destruct (slots_front _ _ Hs Hne) as [x Hx].
  destruct (slots_back _ _ Hs Hne) as [y Hy].
  destruct l as [|[x'|] l]; [done| |done].
  destruct (drop_blank_drop l) as (k & Hk & Hf & Hb). exists k. simpl.
  rewrite Hk in *. split; [done|]. split.
  - apply (slots_drop s0 (Some x' :: l) (S k)); done.
  - intros Hlen. apply Hb. exists y. rewrite GetNewest_Some in *. by destruct l; [simpl in Hlen; lia|].
Qed.

(** A suffix of the slots [l], itself well formed. *)
Definition suffix_slots (s0 : Z) (l l' : list (option Item)) : Prop :=
  exists k, l' = drop k l /\ slots (s0 + Z.of_nat k) l'.

Lemma suffix_refl s0 l : slots s0 l -> suffix_slots s0 l l.
Proof. intros H. exists 0%nat. rewrite drop_0. split; [done|]. by rewrite Z.add_0_r. Qed.

Lemma suffix_trans s0 l k l' :
  suffix_slots (s0 + Z.of_nat k) (drop k l) l' -> suffix_slots s0 l l'.
Proof.
  intros (j & -> & Hj). exists (k + j)%nat. rewrite drop_drop in *. split; [done|].
  by replace (s0 + Z.of_nat (k + j)) with (s0 + Z.of_nat k + Z.of_nat j) by lia.
Qed.

(** The removal loop terminates within its fuel, reaches the intended size and
    keeps the newest item. *)
Lemma rtx_remove_loop_ok fuel : forall s0 intended l,
  slots s0 l -> l <> [] -> (length l <= fuel)%nat -> 1 <= intended ->
  exists l', remove_loop fuel intended l = Ok l' /\ suffix_slots s0 l l' /\ l' <> [] /\
             zlen l' <= Z.max intended 0.
Proof.
  induction fuel as [|fuel IH]; intros s0 intended l Hs Hne Hlen Hi.
  { destruct l; [done|simpl in Hlen; lia]. }
  cbn [remove_loop]. destruct (Z.ltb_spec intended (zlen l)) as [Hlt|Hge].
  - destruct (RemoveOldest_ok s0 l Hs Hne) as (k & -> & Hs' & Hne'). cbn [mbind res_bind].
    assert ((1 < length l)%nat) as Hl1 by (unfold zlen in Hlt; lia).
    destruct (IH _ intended _ Hs' (Hne' Hl1)) as (l' & -> & Hsuf & Hnl & Hz).
    { rewrite length_drop. lia. }
    { done. }
    exists l'. split_and!; [done|by eapply suffix_trans|done|done].
  - exists l. split_and!; [done|by apply suffix_refl|done|lia].
Qed.

Lemma IsTooOldTimestamp_ok b ts newest : clockRate b <> 0 -> exists old, IsTooOldTimestamp b ts newest = Ok old.
Proof. intros H. unfold IsTooOldTimestamp. apply Z.eqb_neq in H. rewrite H. destruct (IsSeqHigherThan 32 ts newest); by eexists. Qed.

Lemma clear_loop_ok fuel : forall s0 b ts r l,
  clockRate b <> 0 -> slots s0 l -> (length l <= fuel)%nat ->
  exists r' l', clear_loop fuel b ts r l = Ok (r', l') /\ suffix_slots s0 l l'.
Proof.
  induction fuel as [|fuel IH]; intros s0 b ts r l Hc Hs Hlen; cbn [clear_loop].
  { destruct l; [|simpl in Hlen; lia]. simpl. eauto using suffix_refl. }
  destruct (GetOldest l) as [o|] eqn:Eo; [|eauto using suffix_refl].
  destruct (IsTooOldTimestamp_ok b (timestamp o) ts Hc) as [[] ->]; cbn [mbind res_bind]; [|eauto using suffix_refl].
  destruct (RemoveOldest_ok s0 l Hs) as (k & -> & Hs' & _).
  { by intros ->. }
  cbn [mbind res_bind]. destruct (IH _ b ts true _ Hc Hs') as (r' & l' & -> & Hsuf).
  { rewrite length_drop. destruct l; [done|simpl in *; lia]. }
  exists r', l'. split; [done|by eapply suffix_trans].
Qed.

Lemma slots_oldest s0 l o :
  slots s0 l -> GetOldest l = Some o -> sequenceNumber o = s0 mod 2 ^ 16.
Proof.
  intros Hs Ho. apply GetOldest_Some in Ho. rewrite (slots_idx _ _ Hs _ _ Ho).
  f_equal. lia.
Qed.

Lemma slots_newest s0 l w :
  slots s0 l -> GetNewest l = Some w -> sequenceNumber w = (s0 + zlen l - 1) mod 2 ^ 16.
Proof.
  intros Hs Hw. apply GetNewest_Some in Hw. rewrite last_lookup in Hw.
  rewrite (slots_idx _ _ Hs _ _ Hw). f_equal. unfold zlen.
  destruct l; [done|simpl; lia].
Qed.

Lemma slots_item_ok s0 l it : slots s0 l -> it ∈ items l -> item_ok it.
Proof. intros Hs Hin. pose proof (slots_items _ _ Hs) as H. rewrite list.Forall_forall in H. auto. Qed.

(** The slot of a sequence number, relative to the oldest one. *)
Lemma slot_of_seq s0 o seq :
  sequenceNumber o = s0 mod 2 ^ 16 -> u16 (seq - sequenceNumber o) = (seq - s0) mod 2 ^ 16.
Proof. intros ->. unfold uwrap. by rewrite Zminus_mod_idemp_r. Qed.

(** [Get] on well-formed slots is a lookup by sequence number. *)
Lemma Get_lookup b s0 o seq :
  slots s0 (buffer b) -> zlen (buffer b) <= 2 ^ 15 -> GetOldest (buffer b) = Some o ->
  fits 16 seq ->
  Get b seq = Ok (match buffer b !! Z.to_nat ((seq - s0) mod 2 ^ 16) with
                  | Some x => x | None => None end).
Proof.
  intros Hs Hsz Ho Hseq. unfold Get. rewrite Ho.
  pose proof (slots_oldest _ _ _ Hs Ho) as Hso.
  rewrite (slot_of_seq s0) by done.
  assert (Hne : 0 < zlen (buffer b)).
  { destruct (buffer b); [done|]. rewrite zlen_cons. pose proof (zlen_nonneg l). lia. }
  set (idx := (seq - s0) mod 2 ^ 16) in *.
  assert (Hidx : 0 <= idx < 2 ^ 16) by (apply Z.mod_pos_bound; lia).
  rewrite (uwrap_id 16 (zlen (buffer b) - 1)) by (unfold fits; pow2_consts; lia).
  assert (Hout : zlen (buffer b) <= idx -> buffer b !! Z.to_nat idx = None).
  { intros. apply lookup_ge_None_2. unfold zlen in *. lia. }
  destruct (IsSeqLowerThan 16 seq (sequenceNumber o)) eqn:El.
  - rewrite Hout; [done|]. apply IsSeqLowerThan_spec in El; [|lia|done|].
    + assert (Hoff : offset 16 seq (sequenceNumber o) = (- idx) mod 2 ^ 16).
      { unfold offset. rewrite Hso, Zminus_mod_idemp_l, <- Z.sub_0_l.
        unfold idx. rewrite Zminus_mod_idemp_r. f_equal. lia. }
      rewrite Hoff in El. change (2 ^ (16 - 1)) with 32768 in El. clearbody idx.
      pow2_consts. Z.div_mod_to_equations. lia.
    + by apply (slots_item_ok _ _ _ Hs), oldest_in.
  - destruct (Z.ltb_spec (zlen (buffer b) - 1) idx); [by rewrite Hout by lia|].
    destruct (lookup_lt_is_Some_2 (buffer b) (Z.to_nat idx)) as [x Hx];
      [unfold zlen in *; lia|]. by rewrite Hx.
Qed.

(** ** Insertion *)

Lemma slots_single it : item_ok it -> slots (sequenceNumber it) [Some it].
Proof.
  intros Hok. split.
  - intros [|i] x Hx; simplify_eq/=. rewrite Z.add_0_r. symmetry. apply Z.mod_small, Hok.
  - constructor; [done|constructor].
  - constructor; constructor.
  - by eexists.
  - eexists. by apply GetNewest_Some.
Qed.

Lemma lookup_blank_snoc n (x : Item) i it :
  (replicate n None ++ [Some x]) !! i = Some (Some it) -> i = n /\ it = x.
Proof.
  intros H. apply lookup_app_Some in H as [H|[Hle H]].
  - by apply lookup_replicate in H as [[=] _].
  - rewrite length_replicate in *. apply list_lookup_singleton_Some in H as [H1 H2].
    injection H2 as <-. split; [lia|done].
Qed.

(** Appending an item [nb] blank slots after the newest one. *)
Lemma slots_append s0 l w it nb :
  slots s0 l -> GetNewest l = Some w -> item_ok it -> ts_le w it ->
  sequenceNumber it = (sequenceNumber w + Z.of_nat nb + 1) mod 2 ^ 16 ->
  slots s0 (l ++ replicate nb None ++ [Some it]).
Proof.
  intros Hs Hw Hok Hts Hseq. pose proof (slots_newest _ _ _ Hs Hw) as Hwseq.
  assert (Hl : items (l ++ replicate nb None ++ [Some it]) = items l ++ [it]).
  { by rewrite !items_app, items_blank. }
  assert (Hne : l <> []) by (by intros ->). split.
  - intros i x Hx. apply lookup_app_Some in Hx as [Hx|[Hle Hx]].
    + by apply (slots_idx _ _ Hs).
    + apply lookup_blank_snoc in Hx as [Hi ->]. rewrite Hseq, Hwseq.
      rewrite <- Z.add_assoc, Zplus_mod_idemp_l. f_equal. unfold zlen. lia.
  - rewrite Hl. apply Forall_app. split; [apply Hs|]. constructor; [done|constructor].
  - rewrite Hl. apply Sorted_app_iff. split_and!; [apply Hs|constructor; constructor|].
    intros a c Ha Hc. rewrite (last_items _ _ Hw) in Ha. by simplify_eq/=.
  - intros _. destruct (slots_front _ _ Hs Hne) as [o Ho]. exists o.
    by destruct l.
  - intros _. exists it. apply GetNewest_Some. by rewrite app_assoc, last_snoc.
Qed.

(** Putting an item [nb] blank slots before the oldest one. *)
Lemma slots_prepend s0 l o it nb :
  slots s0 l -> GetOldest l = Some o -> item_ok it -> ts_le it o ->
  sequenceNumber o = (sequenceNumber it + Z.of_nat nb + 1) mod 2 ^ 16 ->
  slots (sequenceNumber it) (Some it :: replicate nb None ++ l).
Proof.
  intros Hs Ho Hok Hts Hseq. pose proof (slots_oldest _ _ _ Hs Ho) as Hoseq.
  assert (Hl : items (Some it :: replicate nb None ++ l) = it :: items l).
  { change (it :: items (replicate nb None ++ l) = it :: items l).
    by rewrite items_app, items_blank. }
  assert (Hne : l <> []) by (by intros ->). split.
  - intros [|i] x Hx; simplify_eq/=.
    { rewrite Z.add_0_r. symmetry. apply Z.mod_small, Hok. }
    apply lookup_app_Some in Hx as [Hx|[Hle Hx]].
    { by apply lookup_replicate in Hx as [[=] _]. }
    rewrite length_replicate in *. rewrite (slots_idx _ _ Hs _ _ Hx).
    rewrite <- (Zplus_mod_idemp_l s0), <- Hoseq, Hseq, Zplus_mod_idemp_l. f_equal. lia.
  - rewrite Hl. constructor; [done|apply Hs].
  - rewrite Hl. constructor; [apply Hs|]. pose proof (head_items _ _ Ho) as Hh.
    destruct (items l); simplify_eq/=. by constructor.
  - eauto.
  - intros _. destruct (slots_back _ _ Hs Hne) as [y Hy]. exists y.
    apply GetNewest_Some in Hy. apply GetNewest_Some.
    change (Some it :: replicate nb None ++ l) with ([Some it] ++ replicate nb None ++ l).
    rewrite !last_app, Hy. done.
Qed.

(** Filling a blank slot between two items. *)
Lemma slots_fill s0 l idx it :
  slots s0 l -> l !! idx = Some None -> item_ok it ->
  sequenceNumber it = (s0 + Z.of_nat idx) mod 2 ^ 16 ->
  (forall a, list.last (items (take idx l)) = Some a -> ts_le a it) ->
  (forall a, head (items (drop (S idx) l)) = Some a -> ts_le it a) ->
  slots s0 (<[idx := Some it]> l).
Proof.
  intros Hs Hidx Hok Hseq Hold Hnew.
  assert (Hlt : (idx < length l)%nat) by (by eapply lookup_lt_Some).
  assert (Hl' : items (<[idx := Some it]> l) =
                items (take idx l) ++ it :: items (drop (S idx) l)).
  { rewrite insert_take_drop by done. rewrite items_app. done. }
  assert (Hl : items l = items (take idx l) ++ items (drop (S idx) l)).
  { rewrite <- (take_drop_middle l idx None) at 1 by done. rewrite items_app. done. }
  pose proof (slots_items _ _ Hs) as Hi. pose proof (slots_ts _ _ Hs) as Ht.
  rewrite Hl in Hi, Ht. apply Forall_app in Hi as [Hi1 Hi2].
  apply Sorted_app_iff in Ht as (Ht1 & Ht2 & _).
  assert (Hne : l <> []) by (by intros ->).
  split.
  - intros i x Hx. destruct (decide (i = idx)) as [->|Hi].
    + rewrite list_lookup_insert_eq in Hx by done. by simplify_eq.
    + rewrite list_lookup_insert_ne in Hx by done. by apply (slots_idx _ _ Hs).
  - rewrite Hl'. apply Forall_app. split; [done|]. by constructor.
  - rewrite Hl'. apply Sorted_app_iff. split_and!; [done| |].
    + constructor; [done|]. destruct (items (drop (S idx) l)); [constructor|].
      constructor. by apply Hnew.
    + intros a c Ha Hc. simplify_eq/=. by apply Hold.
  - intros _. destruct (slots_front _ _ Hs Hne) as [o Ho]. apply GetOldest_Some in Ho.
    exists o. apply GetOldest_Some. rewrite list_lookup_insert_ne; [done|congruence].
  - intros _. destruct (slots_back _ _ Hs Hne) as [y Hy]. apply GetNewest_Some in Hy.
    exists y. apply GetNewest_Some. rewrite last_lookup in Hy |- *.
    rewrite length_insert, list_lookup_insert_ne; [done|congruence].
Qed.

(** The two validation loops look at the nearest stored item on each side. *)
Lemma check_older_spec ts l : forall idx, (idx <= length l)%nat ->
  check_older ts l idx =
  Ok (match list.last (items (take idx l)) with
      | Some a => timestamp a <=? ts | None => true end).
Proof.
  induction idx as [|idx IH]; intros Hle; [done|]. cbn [check_older].
  destruct (lookup_lt_is_Some_2 l idx) as [x Hx]; [lia|]. rewrite Hx.
  rewrite (take_S_r _ _ _ Hx), items_app. destruct x as [it|].
  - change (items [Some it]) with [it]. by rewrite last_snoc.
  - change (items [None]) with (@nil Item). rewrite app_nil_r. apply IH. lia.
Qed.

Lemma check_newer_spec ts l :
  check_newer ts l =
  match head (items l) with Some a => ts <=? timestamp a | None => true end.
Proof. induction l as [|[x|] l IH]; [done|done|]. exact IH. Qed.

(** Raw comparisons against two neighbours whose timestamps do not go back agree
    with the cyclic order. *)
Lemma ts_between a x c :
  fits 32 (timestamp a) -> fits 32 (timestamp c) -> ts_le a c ->
  timestamp a <= timestamp x <= timestamp c -> ts_le a x /\ ts_le x c.
Proof.
  unfold ts_le, IsSeqLowerThan, MaxValue, fits. pow2_consts.
  change ((4294967296 - 1) / 2) with 2147483647. intros Ha Hc Hac Hx.
  split; case_cmp; simpl in *; try done; lia.
Qed.

Lemma FillItem_item p sh :
  packet_ok p -> item_ok (fst (FillItem p sh)) /\
  sequenceNumber (fst (FillItem p sh)) = pkt_seq p /\
  timestamp (fst (FillItem p sh)) = pkt_ts p.
Proof. intros [? ?]. done. Qed.

(** What a successful insertion gives: a well-formed buffer of the same
    configuration, holding nothing but earlier items and the new one. *)
Definition inserted (b : Buffer) (p : Packet) (sh : option Packet) (b' : Buffer) : Prop :=
  wf b' /\ maxItems b' = maxItems b /\ clockRate b' = clockRate b /\
  maxRetransmissionDelayMs b' = maxRetransmissionDelayMs b /\
  forall it, it ∈ items (buffer b') -> it ∈ items (buffer b) \/ it = fst (FillItem p sh).

Lemma inserted_same b p sh : wf b -> inserted b p sh b.
Proof. intros H. split_and!; auto. Qed.

(** The final assertion holds and the stored buffer is well formed. *)
Lemma assert_size_ok b p sh s0 l shared :
  0 < maxItems b <= 2 ^ 15 -> zlen l <= maxItems b -> slots s0 l ->
  (forall it, it ∈ items l -> it ∈ items (buffer b) \/ it = fst (FillItem p sh)) ->
  exists b', assert_size (with_buffer b l) shared = Ok (b', shared) /\
             buffer b' = l /\ inserted b p sh b'.
Proof.
  intros Hmax Hsz Hs Hin. unfold assert_size, ms_assert. cbn [buffer with_buffer maxItems].
  destruct (Z.leb_spec (zlen l) (maxItems b)); [|lia].
  eexists. split; [done|]. split; [done|].
  split_and!; try done. split; cbn; [done|done|by exists s0].
Qed.

Lemma Insert_first_ok b p sh :
  0 < maxItems b <= 2 ^ 15 -> packet_ok p ->
  inserted b p sh (fst (Insert_first (Clear b) p sh)).
Proof.
  intros Hmax Hp. destruct (FillItem_item p sh Hp) as (Hok & _ & _).
  unfold Insert_first. destruct (FillItem p sh) as [it shared] eqn:E. cbn in *.
  split_and!; try done.
  - split; cbn -[zlen]; [done|rewrite zlen_cons, zlen_nil; lia|].
    exists (sequenceNumber it). by apply slots_single.
  - intros x Hx. apply elem_of_items in Hx. simpl in Hx.
    apply list_elem_of_singleton in Hx. right. rewrite E. simpl. congruence.
Qed.

Lemma items_drop_incl k l it : it ∈ items (drop k l) -> it ∈ items l.
Proof.
  intros H. rewrite <- (take_drop k l), items_app. apply elem_of_app. by right.
Qed.

Lemma suffix_items s0 l l' it : suffix_slots s0 l l' -> it ∈ items l' -> it ∈ items l.
Proof. intros (k & -> & _). apply items_drop_incl. Qed.

Lemma suffix_newest s0 l l' w :
  suffix_slots s0 l l' -> l' <> [] -> GetNewest l = Some w -> GetNewest l' = Some w.
Proof. intros (k & -> & _) Hne Hw. rewrite GetNewest_Some in *. by rewrite last_drop_ne. Qed.

Lemma elem_of_append it l nb x :
  it ∈ items (l ++ replicate nb None ++ [Some x]) -> it ∈ items l \/ it = x.
Proof.
  rewrite !items_app, items_blank, elem_of_app. intros [H|H]; [by left|right].
  by apply list_elem_of_singleton in H.
Qed.

(** Room for the blank slots and the packet: the oldest items go, the newest stays. *)
Lemma make_space_ok b s0 w nb :
  wf b -> slots s0 (buffer b) -> GetNewest (buffer b) = Some w -> 0 <= nb < 2 ^ 15 ->
  exists l n, make_space b nb = Ok (l, n) /\
    (l = [] /\ n = 0 \/
     suffix_slots s0 (buffer b) l /\ l <> [] /\ n = nb /\ zlen l + nb + 1 <= maxItems b).
Proof.
  intros Hwf Hs Hw Hnb. pose proof (wf_max _ Hwf). pose proof (wf_size _ Hwf).
  unfold make_space.
  assert (Hne : buffer b <> []) by (intros E; by rewrite E in Hw).
  destruct (Z.ltb_spec (maxItems b) (zlen (buffer b) + nb + 1)) as [Hbig|Hsmall].
  - cbn zeta. rewrite (uwrap_id 16) by (unfold fits; pow2_consts; lia).
    destruct (Z.ltb_spec (zlen (buffer b) - 1) (zlen (buffer b) + nb + 1 - maxItems b)).
    { exists [], 0. auto. }
    unfold RemoveOldestN, ms_assert.
    destruct (Z.leb_spec (zlen (buffer b) + nb + 1 - maxItems b) (zlen (buffer b))); [|lia].
    cbn [mbind res_bind].
    destruct (rtx_remove_loop_ok (length (buffer b)) s0
      (zlen (buffer b) - (zlen (buffer b) + nb + 1 - maxItems b)) (buffer b))
      as (l & -> & Hsuf & Hnl & Hz); [done|done|done|lia|].
    exists l, nb. split; [done|]. right. split_and!; [done|done|done|lia].
  - exists (buffer b), nb. split; [done|]. right.
    split_and!; [by apply suffix_refl|done|done|lia].
Qed.

Lemma Insert_in_order_ok b s0 w p sh :
  wf b -> slots s0 (buffer b) -> GetNewest (buffer b) = Some w -> packet_ok p ->
  IsSeqHigherThan 16 (pkt_seq p) (sequenceNumber w) = true ->
  exists b' sh', Insert_in_order b w p sh = Ok (b', sh') /\ inserted b p sh b' /\
    (IsSeqLowerThan 32 (pkt_ts p) (timestamp w) = false ->
     GetNewest (buffer b') = Some (fst (FillItem p sh))).
Proof.
  intros Hwf Hs Hw Hp Hhigh. unfold Insert_in_order.
  destruct (IsSeqLowerThan 32 (pkt_ts p) (timestamp w)) eqn:Ets.
  { exists b, sh. split_and!; [done|by apply inserted_same|done]. }
  destruct (FillItem_item p sh Hp) as (Hok & Hfseq & Hfts).
  assert (Hwok : item_ok w).
  { by apply (slots_item_ok _ _ _ Hs), newest_in. }
  set (nb := u16 (pkt_seq p - sequenceNumber w - 1)).
  assert (Hnb : 0 <= nb < 2 ^ 15 /\ pkt_seq p = (sequenceNumber w + nb + 1) mod 2 ^ 16).
  { rewrite IsSeqHigherThan_flip in Hhigh.
    apply IsSeqLowerThan_spec in Hhigh; [|lia|apply Hwok|apply Hp].
    change (2 ^ (16 - 1)) with 32768 in Hhigh. destruct Hp as [Hp _], Hwok as [Hwq _].
    unfold nb, offset, uwrap, fits in *. pow2_consts. Z.div_mod_to_equations. lia. }
  clearbody nb. destruct Hnb as [Hnb Hseq].
  destruct (make_space_ok b s0 w nb Hwf Hs Hw Hnb) as (l & n & -> & Hcase). cbn [mbind res_bind].
  destruct (FillItem p sh) as [it shared] eqn:E. cbn [fst] in *.
  assert (Hfin : forall s1 l', slots s1 (l' ++ [Some it]) -> zlen (l' ++ [Some it]) <= maxItems b ->
     (forall x, x ∈ items (l' ++ [Some it]) -> x ∈ items (buffer b) \/ x = it) ->
     exists b' sh', assert_size (with_buffer b (l' ++ [Some it])) shared = Ok (b', sh') /\
       inserted b p sh b' /\ (false = false -> GetNewest (buffer b') = Some it)).
  { intros s1 l' Hs1 Hz Hin.
    destruct (assert_size_ok b p sh s1 (l' ++ [Some it]) shared) as (b' & -> & Hb & Hins);
      [apply Hwf|done|done|by rewrite E|].
    exists b', shared. split_and!; [done|done|]. intros _. rewrite Hb.
    apply GetNewest_Some, last_snoc. }
  rewrite app_assoc. destruct Hcase as [[-> ->]|(Hsuf & Hne & -> & Hz)].
  - apply (Hfin (sequenceNumber it) []); [by apply slots_single| |].
    + change (zlen ([] ++ [Some it])) with 1. pose proof (wf_max _ Hwf). lia.
    + intros x Hx. right. by apply list_elem_of_singleton in Hx.
  - pose proof Hsuf as (k & Hk & Hsl).
    apply (Hfin (s0 + Z.of_nat k)); rewrite <- app_assoc.
    + eapply slots_append; [done|by eapply suffix_newest|done| |].
      * unfold ts_le. by rewrite Hfts.
      * by rewrite Hfseq, Z2Nat.id by lia.
    + rewrite !zlen_app, zlen_cons, zlen_nil. unfold zlen at 2.
      rewrite length_replicate. lia.
    + intros x Hx. apply elem_of_append in Hx as [Hx|Hx]; [left|by right].
      by eapply suffix_items.
Qed.

Lemma Insert_older_ok b s0 o w p sh :
  clockRate b <> 0 -> wf b -> slots s0 (buffer b) -> GetOldest (buffer b) = Some o -> packet_ok p ->
  IsSeqLowerThan 16 (pkt_seq p) (sequenceNumber o) = true ->
  exists b' sh', Insert_older b o w p sh = Ok (b', sh') /\ inserted b p sh b'.
Proof.
  intros Hc Hwf Hs Ho Hp Hlow. unfold Insert_older.
  destruct (IsTooOldTimestamp_ok b (pkt_ts p) (timestamp w) Hc) as [[] ->]; cbn [mbind res_bind]; [eauto using inserted_same|].
  destruct (IsSeqHigherThan 32 (pkt_ts p) (timestamp o)) eqn:Ets; [eauto using inserted_same|].
  destruct (FillItem_item p sh Hp) as (Hok & Hfseq & Hfts).
  assert (Hook : item_ok o) by (by apply (slots_item_ok _ _ _ Hs), oldest_in).
  set (nb := u16 (sequenceNumber o - pkt_seq p - 1)).
  assert (Hnb : 0 <= nb /\ sequenceNumber o = (pkt_seq p + nb + 1) mod 2 ^ 16).
  { destruct Hp as [Hp _], Hook as [Hoq _].
    unfold nb, uwrap, fits in *. pow2_consts. Z.div_mod_to_equations. lia. }
  clearbody nb. destruct Hnb as [Hnb Hseq].
  destruct (Z.ltb_spec (maxItems b) (zlen (buffer b) + nb + 1)); [eauto using inserted_same|].
  destruct (FillItem p sh) as [it shared] eqn:E. cbn [fst] in *.
  destruct (assert_size_ok b p sh (sequenceNumber it)
    (Some it :: replicate (Z.to_nat nb) None ++ buffer b) shared) as (b' & -> & _ & Hins).
  - apply Hwf.
  - rewrite zlen_cons, zlen_app. unfold zlen at 1. rewrite length_replicate. lia.
  - eapply slots_prepend; [done|done|done| |].
    + unfold ts_le. rewrite Hfts, <- IsSeqHigherThan_flip. done.
    + by rewrite Hfseq, Z2Nat.id by lia.
  - intros x Hx. apply elem_of_items, elem_of_cons in Hx as [Hx|Hx].
    + right. rewrite E. simpl. congruence.
    + left. apply elem_of_items. apply elem_of_app in Hx as [Hx|Hx]; [|done].
      by apply elem_of_replicate in Hx as [[=] _].
  - eauto.
Qed.

(** A packet that is neither ahead of the newest nor behind the oldest one has a
    slot in the buffer. *)
Lemma slot_in_range s0 l o w seq :
  slots s0 l -> zlen l <= 2 ^ 15 -> GetOldest l = Some o -> GetNewest l = Some w ->
  fits 16 seq ->
  IsSeqHigherThan 16 seq (sequenceNumber w) = false ->
  IsSeqLowerThan 16 seq (sequenceNumber o) = false ->
  (seq - s0) mod 2 ^ 16 < zlen l.
Proof.
  intros Hs Hz Ho Hw Hseq Hnh Hnl.
  pose proof (slots_oldest _ _ _ Hs Ho) as Hos. pose proof (slots_newest _ _ _ Hs Hw) as Hws.
  assert (Hne : 0 < zlen l).
  { destruct l; [done|]. rewrite zlen_cons. pose proof (zlen_nonneg l). lia. }
  apply Z.nle_gt. intros Hge. rewrite IsSeqHigherThan_flip in Hnh.
  unfold IsSeqLowerThan, MaxValue, fits in *. pow2_consts.
  change ((65536 - 1) / 2) with 32767 in *. rewrite Hos in Hnl. rewrite Hws in Hnh.
  clear Hos Hws Hs Ho Hw. Z.div_mod_to_equations.
  case_cmp; simpl in *; try discriminate; lia.
Qed.

(** A blank slot lies between two stored items. *)
Lemma blank_neighbours s0 l idx :
  slots s0 l -> l !! idx = Some None ->
  exists a c, list.last (items (take idx l)) = Some a /\
    head (items (drop (S idx) l)) = Some c /\ ts_le a c /\ item_ok a /\ item_ok c.
Proof.
  intros Hs Hidx. assert (Hne : l <> []) by (by intros ->).
  assert (Hsplit : items l = items (take idx l) ++ items (drop (S idx) l)).
  { rewrite <- (take_drop_middle l idx None) at 1 by done. by rewrite items_app. }
  destruct (slots_front _ _ Hs Hne) as [o Ho]. apply GetOldest_Some in Ho.
  destruct (slots_back _ _ Hs Hne) as [w Hw]. apply GetNewest_Some in Hw.
  rewrite last_lookup in Hw.
  assert (Hin1 : o ∈ items (take idx l)).
  { apply elem_of_items, list_elem_of_lookup. exists 0%nat. rewrite lookup_take_lt; [done|].
    destruct idx; [congruence|lia]. }
  assert (Hin2 : w ∈ items (drop (S idx) l)).
  { apply elem_of_items, list_elem_of_lookup. exists (pred (length l) - S idx)%nat.
    rewrite lookup_drop. pose proof (lookup_lt_Some _ _ _ Hidx).
    assert (idx <> pred (length l)) by congruence.
    replace (S idx + (pred (length l) - S idx))%nat with (pred (length l)) by lia. done. }
  destruct (list.last (items (take idx l))) as [a|] eqn:Ea.
  2: { apply last_None in Ea. rewrite Ea in Hin1. by apply not_elem_of_nil in Hin1. }
  destruct (items (drop (S idx) l)) as [|c k] eqn:Ec; [by apply not_elem_of_nil in Hin2|].
  exists a, c. pose proof (slots_ts _ _ Hs) as Ht. rewrite Hsplit in Ht.
  apply Sorted_app_iff in Ht as (_ & _ & Hac).
  split_and!; [done|done|by apply Hac| |]; apply (slots_item_ok _ _ _ Hs); rewrite Hsplit.
  - apply last_Some in Ea as [pre ->]. rewrite !elem_of_app. left. right.
    by apply list_elem_of_singleton.
  - apply elem_of_app. right. by left.
Qed.

Lemma Insert_between_ok b s0 o w p sh :
  wf b -> slots s0 (buffer b) -> GetOldest (buffer b) = Some o ->
  GetNewest (buffer b) = Some w -> packet_ok p ->
  IsSeqHigherThan 16 (pkt_seq p) (sequenceNumber w) = false ->
  IsSeqLowerThan 16 (pkt_seq p) (sequenceNumber o) = false ->
  exists b' sh', Insert_between b o p sh = Ok (b', sh') /\ inserted b p sh b'.
Proof.
  intros Hwf Hs Ho Hw Hp Hnh Hnl. pose proof (wf_max _ Hwf). pose proof (wf_size _ Hwf).
  unfold Insert_between. rewrite (Get_lookup b s0 o) by (done || lia || apply Hp).
  rewrite (slot_of_seq s0) by (by eapply slots_oldest).
  pose proof (slot_in_range s0 (buffer b) o w (pkt_seq p) Hs ltac:(lia) Ho Hw
                (proj1 Hp) Hnh Hnl) as Hlt.
  assert (Hge : 0 <= (pkt_seq p - s0) mod 2 ^ 16) by (apply Z.mod_pos_bound; lia).
  assert (Hmod : pkt_seq p = (s0 + (pkt_seq p - s0) mod 2 ^ 16) mod 2 ^ 16).
  { rewrite Zplus_mod_idemp_r. replace (s0 + (pkt_seq p - s0)) with (pkt_seq p) by lia.
    symmetry. apply Z.mod_small, Hp. }
  set (iz := (pkt_seq p - s0) mod 2 ^ 16) in *. clearbody iz.
  set (idx := Z.to_nat iz) in *.
  assert (Hidx : (idx < length (buffer b))%nat) by (unfold zlen, idx in *; lia).
  cbn [mbind res_bind].
  destruct (buffer b !! idx) as [[y|]|] eqn:Ei;
    [eauto using inserted_same| |apply lookup_ge_None in Ei; lia].
  rewrite check_older_spec by lia. cbn [mbind res_bind].
  destruct (FillItem_item p sh Hp) as (Hok & Hfseq & Hfts).
  destruct (match list.last _ with Some _ => _ | None => _ end) eqn:Eold;
    [|eauto using inserted_same]. cbn [negb].
  rewrite check_newer_spec.
  destruct (match head _ with Some _ => _ | None => _ end) eqn:Enew;
    [|eauto using inserted_same]. cbn [negb].
  destruct (FillItem p sh) as [it shared] eqn:E. cbn [fst] in *.
  destruct (Nat.ltb_spec idx (length (buffer b))); [|lia].
  destruct (assert_size_ok b p sh s0 (<[idx := Some it]> (buffer b)) shared)
    as (b' & -> & _ & Hins); [apply Hwf|unfold zlen in *; rewrite length_insert; lia| |
    |eauto].
  - destruct (blank_neighbours _ _ _ Hs Ei) as (a & c & Ha & Hc & Hac & Haok & Hcok).
    rewrite Ha in Eold. rewrite Hc in Enew. apply Z.leb_le in Eold, Enew.
    destruct (ts_between a it c) as [Hai Hic]; [apply Haok|apply Hcok|done|lia|].
    apply slots_fill; [done|done|done| |congruence..].
    rewrite Hfseq. unfold idx. by rewrite Z2Nat.id by lia.
  - intros x Hx. apply elem_of_items, list_elem_of_lookup in Hx as [j Hj].
    destruct (decide (j = idx)) as [->|Hj'].
    + rewrite list_lookup_insert_eq in Hj by done. right. rewrite E. simpl. congruence.
    + rewrite list_lookup_insert_ne in Hj by done. left. apply elem_of_items.
      by eapply list_elem_of_lookup_2.
Qed.

(** ** Properties *)

(** A packet ahead of the newest item, with a timestamp that does not go back. *)
Definition in_order (b : Buffer) (p : Packet) : Prop :=
  exists w, GetNewest (buffer b) = Some w /\
    IsSeqHigherThan 16 (pkt_seq p) (sequenceNumber w) = true /\
    IsSeqLowerThan 32 (pkt_ts p) (timestamp w) = false.

Definition insertion_result (b : Buffer) (p : Packet) (sh : option Packet)
    (r : res (Buffer * option Packet)) : Prop :=
  exists b' sh', r = Ok (b', sh') /\ inserted b p sh b' /\
    (in_order b p -> fst (FillItem p sh) ∈ items (buffer b')).

Lemma Insert_first_result b l p sh :
  0 < maxItems b <= 2 ^ 15 -> packet_ok p ->
  insertion_result b p sh (Ok (Insert_first (with_buffer (with_buffer b l) []) p sh)).
Proof.
  intros Hmax Hp. pose proof (Insert_first_ok b p sh Hmax Hp) as Hf.
  unfold Insert_first, Clear in *. destruct (FillItem p sh) as [it s'] eqn:E.
  do 2 eexists. split; [done|]. split; [done|]. intros _. rewrite E.
  by apply list_elem_of_singleton.
Qed.

(** The three ways to store into a buffer that is not empty. *)
Lemma Insert_stored_result b s0 o w p sh :
  clockRate b <> 0 -> wf b -> slots s0 (buffer b) -> GetOldest (buffer b) = Some o ->
  GetNewest (buffer b) = Some w -> packet_ok p ->
  insertion_result b p sh
    (if IsSeqHigherThan 16 (pkt_seq p) (sequenceNumber w) then Insert_in_order b w p sh
     else if IsSeqLowerThan 16 (pkt_seq p) (sequenceNumber o) then Insert_older b o w p sh
     else Insert_between b o p sh).
Proof.
  intros Hc Hwf Hs Ho Hw Hp. unfold insertion_result, in_order. rewrite Hw.
  destruct (IsSeqHigherThan 16 (pkt_seq p) (sequenceNumber w)) eqn:Eh.
  - destruct (Insert_in_order_ok b s0 w p sh Hwf Hs Hw Hp Eh) as (b' & sh' & -> & Hi & Hn).
    exists b', sh'. split_and!; [done..|]. intros (? & [= <-] & _ & Hts).
    by apply newest_in, Hn.
  - assert (Hno : forall P : Prop, (exists w0, Some w = Some w0 /\
      IsSeqHigherThan 16 (pkt_seq p) (sequenceNumber w0) = true /\
      IsSeqLowerThan 32 (pkt_ts p) (timestamp w0) = false) -> P).
    { intros P (? & [= <-] & Hh & _). congruence. }
    destruct (IsSeqLowerThan 16 (pkt_seq p) (sequenceNumber o)) eqn:Elo.
    + destruct (Insert_older_ok b s0 o w p sh Hc Hwf Hs Ho Hp Elo) as (b' & sh' & -> & Hi).
      exists b', sh'. split_and!; [done|done|apply Hno].
    + destruct (Insert_between_ok b s0 o w p sh Hwf Hs Ho Hw Hp Eh Elo)
        as (b' & sh' & -> & Hi). exists b', sh'. split_and!; [done|done|apply Hno].
Qed.

(** The whole of [Insert]. *)
Lemma Insert_spec b p sh :
  clockRate b <> 0 -> wf b -> packet_ok p -> insertion_result b p sh (Insert b p sh).
Proof.
  intros Hc Hwf Hp. pose proof (wf_max _ Hwf) as Hmax. pose proof (wf_size _ Hwf) as Hsz.
  destruct (wf_slots _ Hwf) as [s0 Hs]. unfold Insert.
  destruct (buffer b) as [|x0 l0] eqn:Eb.
  { pose proof (Insert_first_result b [] p sh Hmax Hp) as Hf.
    unfold Insert_first in *. rewrite Eb. exact Hf. }
  rewrite <- Eb in *. assert (Hne : buffer b <> []) by (by rewrite Eb). clear x0 l0 Eb.
  destruct (slots_back _ _ Hs Hne) as [w Hw]. rewrite Hw. cbn [deref mbind res_bind].
  destruct (IsSeqLowerThan 16 _ _ && _); [by apply (Insert_first_result b (buffer b))|].
  set (newestTs := if IsSeqHigherThan 32 _ _ then _ else _). clearbody newestTs.
  unfold ClearTooOldByTimestamp.
  destruct (clear_loop_ok (length (buffer b)) s0 b newestTs false (buffer b) Hc Hs ltac:(lia))
    as (r & l & -> & Hsuf). cbn [mbind res_bind].
  destruct l as [|x1 l1] eqn:El; [by apply (Insert_first_result b [])|].
  rewrite <- El in *. assert (Hnl : l <> []) by (by rewrite El). clear x1 l1 El.
  pose proof Hsuf as (k & Hk & Hsl).
  assert (Hwf' : wf (with_buffer b l)).
  { split; cbn; [done| |by eexists]. rewrite Hk, zlen_drop.
    pose proof (zlen_nonneg (buffer b)). lia. }
  destruct (slots_front _ _ Hsl Hnl) as [o Ho].
  pose proof (suffix_newest _ _ _ _ Hsuf Hnl Hw) as Hw'. rewrite Ho, Hw'.
  cbn [deref mbind res_bind].
  destruct (Insert_stored_result (with_buffer b l) _ o w p sh Hc Hwf' Hsl Ho Hw' Hp)
    as (b' & sh' & Heq & Hi & Hn). exists b', sh'. split; [exact Heq|]. split.
  - destruct Hi as (H1 & H2 & H3 & H4 & H5). split_and!; try done.
    intros it Hit. destruct (H5 it Hit) as [H|H]; [left|by right]. by eapply suffix_items.
  - intros (w0 & Hw0 & Hio). apply Hn. exists w0. cbn. split; [congruence|done].
Qed.

(** A history of insertions, each with its own shared packet. *)
Fixpoint insert_all (b : Buffer) (ps : list Packet) : res Buffer :=
  match ps with
  | [] => Ok b
  | p :: ps' => '(b', _) ← Insert b p None; insert_all b' ps'
  end.

Lemma insert_all_ok ps : forall b,
  clockRate b <> 0 -> wf b -> Forall packet_ok ps -> exists b', insert_all b ps = Ok b' /\ wf b'.
Proof.
  induction ps as [|p ps IH]; intros b Hc Hwf Hps; [eauto|].
  apply list.Forall_cons in Hps as [Hp Hps]. cbn [insert_all].
  destruct (Insert_spec b p None Hc Hwf Hp) as (b' & sh' & -> & (Hwf' & _ & Hc' & _) & _).
  cbn [mbind res_bind]. apply IH; [by rewrite Hc'|done|done].
Qed.

(** C7: from a new buffer of at most 2^15 slots for a clock rate other than 0, no sequence of packets, in any order
    and with any timestamps, makes [Insert] dereference a null item, address a slot
    out of range, loop or fail an assertion; the buffer stays well formed: within
    its maximum size, with a stored item at both ends, every item in the slot of
    its sequence number and timestamps that never go back. *)
Theorem insert_history_safe maxItems delay clock ps :
  0 < maxItems <= 2 ^ 15 -> clock <> 0 -> Forall packet_ok ps ->
  exists b b', create maxItems delay clock = Ok b /\ insert_all b ps = Ok b' /\ wf b'.
Proof.
  intros Hm Hc Hps. unfold create, ms_assert.
  destruct (Z.ltb_spec 0 maxItems); [|lia]. eexists.
  destruct (insert_all_ok ps {| buffer := []; maxItems := maxItems;
    maxRetransmissionDelayMs := delay; clockRate := clock |}) as (b' & Hb & Hwf).
  - done.
  - split; cbn; [done|rewrite zlen_nil; lia|exists 0; apply slots_nil].
  - done.
  - exists b'. split_and!; done.
Qed.

Lemma insert_history_safe_witness :
  exists b b', create 4 2000 90000 = Ok b /\
    insert_all b [{| pkt_id := 1; pkt_ssrc := 7; pkt_seq := 65535; pkt_ts := 100 |};
                  {| pkt_id := 2; pkt_ssrc := 7; pkt_seq := 2; pkt_ts := 300 |};
                  {| pkt_id := 3; pkt_ssrc := 7; pkt_seq := 0; pkt_ts := 200 |}] = Ok b' /\
    wf b'.
Proof.
  apply insert_history_safe; [lia|lia|]. repeat constructor; vm_compute; congruence.
Defined.



(** [Get] finds what is stored. *)
Lemma Get_stored b seq it :
  wf b -> fits 16 seq -> it ∈ items (buffer b) -> sequenceNumber it = seq ->
  Get b seq = Ok (Some it).
Proof.
  intros Hwf Hseq Hin Hit. destruct (wf_slots _ Hwf) as [s0 Hs].
  pose proof (wf_max _ Hwf). pose proof (wf_size _ Hwf).
  apply elem_of_items, list_elem_of_lookup in Hin as [i Hi].
  destruct (slots_front _ _ Hs) as [o Ho]; [intros E; by rewrite E in Hi|].
  rewrite (Get_lookup b s0 o) by (done || lia).
  pose proof (slots_idx _ _ Hs _ _ Hi) as Hidx. pose proof (lookup_lt_Some _ _ _ Hi) as Hlt.
  assert (Hz : (seq - s0) mod 2 ^ 16 = Z.of_nat i).
  { rewrite <- Hit, Hidx, Zminus_mod_idemp_l.
    replace (s0 + Z.of_nat i - s0) with (Z.of_nat i) by lia.
    apply Z.mod_small. unfold zlen in *. lia. }
  by rewrite Hz, Nat2Z.id, Hi.
Qed.

Lemma Get_spec b seq :
  wf b -> fits 16 seq ->
  exists r, Get b seq = Ok r /\
    forall it, r = Some it <-> it ∈ items (buffer b) /\ sequenceNumber it = seq.
Proof.
  intros Hwf Hseq. destruct (wf_slots _ Hwf) as [s0 Hs].
  pose proof (wf_max _ Hwf). pose proof (wf_size _ Hwf).
  destruct (GetOldest (buffer b)) as [o|] eqn:Eo.
  2: { unfold Get. rewrite Eo. exists None. split; [done|]. intros it. split; [done|].
       intros [Hin _]. destruct (slots_front _ _ Hs) as [? ?]; [|congruence].
       intros Heq. rewrite Heq in Hin. by apply not_elem_of_nil in Hin. }
  rewrite (Get_lookup b s0 o) by (done || lia). eexists. split; [done|].
  assert (Hmod : forall z, 0 <= z mod 2 ^ 16 < 2 ^ 16) by (intros; apply Z.mod_pos_bound; lia).
  intros it. rewrite elem_of_items. split.
  - destruct (buffer b !! _) as [[y|]|] eqn:E; intros [= ->]. split.
    + by eapply list_elem_of_lookup_2.
    + rewrite (slots_idx _ _ Hs _ _ E), Z2Nat.id by apply Hmod.
      rewrite Zplus_mod_idemp_r. replace (s0 + (seq - s0)) with seq by lia.
      apply Z.mod_small, Hseq.
  - intros [Hin Hit]. rewrite <- elem_of_items in Hin.
    pose proof (Get_stored b seq it Hwf Hseq Hin Hit) as Hg.
    rewrite (Get_lookup b s0 o) in Hg by (done || lia). by injection Hg.
Qed.

(** [Get(seq)] on a well-formed buffer returns exactly the stored item with that
    sequence number, and null when there is none; it never addresses a slot out of
    range. *)
Theorem Get_correct b seq :
  wf b -> fits 16 seq ->
  exists r, Get b seq = Ok r /\
    forall it, r = Some it <-> it ∈ items (buffer b) /\ sequenceNumber it = seq.
Proof. apply Get_spec. Qed.

Definition sample_item (seq ts : Z) : Item :=
  {| item_packet := None; item_ssrc := 7; sequenceNumber := seq; timestamp := ts;
     resentAtMs := 0; sentTimes := 0 |}.

Definition sample_buffer (l : list (option Item)) : Buffer :=
  {| buffer := l; maxItems := 8; maxRetransmissionDelayMs := 2000; clockRate := 90000 |}.

Lemma sample_wf :
  wf (sample_buffer [Some (sample_item 65535 4294967276); None; Some (sample_item 1 10)]).
Proof.
  split; [vm_compute; intuition congruence|vm_compute; congruence|]. exists 65535. split.
  - intros [|[|[|i]]] it Hi; simplify_eq/=; reflexivity.
  - repeat constructor; vm_compute; congruence.
  - repeat constructor.
  - by eexists.
  - by eexists.
Qed.

Lemma Get_correct_witness :
  exists r, Get (sample_buffer [Some (sample_item 65535 4294967276); None;
                                Some (sample_item 1 10)]) 1 = Ok r /\
    forall it, r = Some it <->
      it ∈ [sample_item 65535 4294967276; sample_item 1 10] /\ sequenceNumber it = 1.
Proof. apply (Get_correct _ 1 sample_wf). vm_compute; split; congruence. Defined.

(** a packet ahead of the newest stored one whose timestamp does not go back is
    stored, and [Get] finds it under its sequence number. *)
Theorem Insert_in_order_then_Get b w p sh :
  clockRate b <> 0 -> wf b -> packet_ok p -> GetNewest (buffer b) = Some w ->
  IsSeqHigherThan 16 (pkt_seq p) (sequenceNumber w) = true ->
  IsSeqLowerThan 32 (pkt_ts p) (timestamp w) = false ->
  exists b' sh', Insert b p sh = Ok (b', sh') /\
    Get b' (pkt_seq p) = Ok (Some (fst (FillItem p sh))).
Proof.
  intros Hc Hwf Hp Hw Hh Hts.
  destruct (Insert_spec b p sh Hc Hwf Hp) as (b' & sh' & Hins & Hi & Hnew).
  exists b', sh'. split; [done|]. apply Get_stored; [apply Hi|apply Hp| |done].
  apply Hnew. by exists w.
Qed.

Lemma Insert_in_order_then_Get_witness :
  exists b' sh',
    Insert (sample_buffer [Some (sample_item 65535 4294967276); None; Some (sample_item 1 10)])
      {| pkt_id := 9; pkt_ssrc := 7; pkt_seq := 4; pkt_ts := 30 |} None = Ok (b', sh') /\
    Get b' 4 = Ok (Some (fst (FillItem
      {| pkt_id := 9; pkt_ssrc := 7; pkt_seq := 4; pkt_ts := 30 |} None))).
Proof.
  apply (Insert_in_order_then_Get _ (sample_item 1 10)); try reflexivity.
  - done.
  - apply sample_wf.
  - split; vm_compute; split; congruence.
Defined.

(** around a wrap-around of the timestamp a late packet that belongs between its
    neighbours (its timestamp is not behind the older one nor ahead of the newer
    one in the cyclic order) is discarded, because this path compares raw values. *)
Theorem Insert_between_timestamp_wrap :
  let older := sample_item 65535 4294967276 in
  let newer := sample_item 1 10 in
  let p := {| pkt_id := 9; pkt_ssrc := 7; pkt_seq := 0; pkt_ts := 4294967290 |} in
  let b := sample_buffer [Some older; None; Some newer] in
  ts_le older (fst (FillItem p None)) /\ ts_le (fst (FillItem p None)) newer /\
  Insert b p None = Ok (b, None).
Proof. repeat split; reflexivity. Qed.

End RetransmissionBuffer.
