(* ===== verification/NackGenerator.v ===== *)
(** * NackGenerator: which lost packets to ask for again

    Models [worker/src/RTC/NackGenerator.cpp] and its header.  The three ordered
    containers are those of [OrdSet] with the 16-bit cyclic comparator; the
    one-shot [Timer] is its active flag; calls to the listener are the
    notifications a handler returns.  The clock is read once per handler. *)

From S2P Require Import Prelude OrdSet SeqManager.

Module NackGenerator.

Definition MaxPacketAge : Z := 10000.
Definition MaxNackPackets : Z := 1000.
Definition DefaultRtt : Z := 100.
Definition MaxNackRetries : Z := 10.

Record NackInfo := {
  createdAtMs : Z;
  seq : Z;
  sendAtSeq : Z;
  sentAtMs : Z;
  retries : Z;
}.

Inductive NackFilter := SEQ | TIME.

(** Calls to [NackGenerator::Listener]. *)
Inductive notification :=
| NackRequired (seqNumbers : list Z)
| KeyFrameRequired.

Record State := {
  sendNackDelayMs : Z;
  nackList : list (Z * NackInfo);
  keyFrameList : list Z;
  recoveredList : list Z;
  started : bool;
  lastSeq : Z;
  rtt : Z;
  timerActive : bool;
}.

Definition init (delay : Z) : State :=
  {| sendNackDelayMs := delay; nackList := []; keyFrameList := []; recoveredList := [];
     started := false; lastSeq := 0; rtt := DefaultRtt; timerActive := false |}.

Abbreviation seq_lt := (IsSeqLowerThan 16).

Definition set_nackList (s : State) (l : list (Z * NackInfo)) : State :=
  {| sendNackDelayMs := sendNackDelayMs s; nackList := l; keyFrameList := keyFrameList s;
     recoveredList := recoveredList s; started := started s; lastSeq := lastSeq s;
     rtt := rtt s; timerActive := timerActive s |}.

Definition set_keyFrameList (s : State) (l : list Z) : State :=
  {| sendNackDelayMs := sendNackDelayMs s; nackList := nackList s; keyFrameList := l;
     recoveredList := recoveredList s; started := started s; lastSeq := lastSeq s;
     rtt := rtt s; timerActive := timerActive s |}.

Definition set_recoveredList (s : State) (l : list Z) : State :=
  {| sendNackDelayMs := sendNackDelayMs s; nackList := nackList s;
     keyFrameList := keyFrameList s; recoveredList := l; started := started s;
     lastSeq := lastSeq s; rtt := rtt s; timerActive := timerActive s |}.

Definition set_lastSeq (s : State) (v : Z) : State :=
  {| sendNackDelayMs := sendNackDelayMs s; nackList := nackList s;
     keyFrameList := keyFrameList s; recoveredList := recoveredList s;
     started := true; lastSeq := v; rtt := rtt s; timerActive := timerActive s |}.

Definition set_timer (s : State) (v : bool) : State :=
  {| sendNackDelayMs := sendNackDelayMs s; nackList := nackList s;
     keyFrameList := keyFrameList s; recoveredList := recoveredList s;
     started := started s; lastSeq := lastSeq s; rtt := rtt s; timerActive := v |}.

(** [list.erase(list.begin(), list.lower_bound(seq - MaxPacketAge))]: the
    subtraction is done on [size_t] and narrowed to the 16-bit key. *)
Definition remove_old {E} (key : E -> Z) (sq : Z) (l : list E) : list E :=
  drop (lower_bound seq_lt key (u16 (sq - MaxPacketAge)) l) l.

(** [RemoveNackItemsUntilKeyFrame]: whether items were removed, and both lists. *)
Fixpoint RemoveNackItemsUntilKeyFrame (keyFrames : list Z) (nacks : list (Z * NackInfo))
    : bool * list Z * list (Z * NackInfo) :=
  match keyFrames with
  | [] => (false, [], nacks)
  | k :: keyFrames' =>
      let it := lower_bound seq_lt fst k nacks in
      if negb (Nat.eqb it 0) then (true, keyFrames, drop it nacks)
      else RemoveNackItemsUntilKeyFrame keyFrames' nacks
  end.

Definition too_large (nacks : list (Z * NackInfo)) (numNewNacks : Z) : bool :=
  MaxNackPackets <? u16 (zlen nacks) + numNewNacks.

(** [while (RemoveNackItemsUntilKeyFrame() && too large)]. *)
Fixpoint shrink_loop (fuel : nat) (numNewNacks : Z) (keyFrames : list Z)
    (nacks : list (Z * NackInfo)) : res (list Z * list (Z * NackInfo)) :=
  let '(removed, keyFrames', nacks') := RemoveNackItemsUntilKeyFrame keyFrames nacks in
  if removed && too_large nacks' numNewNacks then
    match fuel with
    | O => Fault OutOfFuel
    | S fuel' => shrink_loop fuel' numNewNacks keyFrames' nacks'
    end
  else Ok (keyFrames', nacks').

(** The [for] loop that adds the missing sequence numbers. *)
Fixpoint add_loop (fuel : nat) (nowMs : Z) (recovered : list Z) (sq seqEnd : Z)
    (nacks : list (Z * NackInfo)) : res (list (Z * NackInfo)) :=
  if sq =? seqEnd then Ok nacks
  else
    match fuel with
    | O => Fault OutOfFuel
    | S fuel' =>
        _ ← ms_assert (bool_decide (find seq_lt fst sq nacks = None));
        let nacks' :=
          if bool_decide (is_Some (find seq_lt id sq recovered)) then nacks
          else OrdSet.insert seq_lt fst
                 (sq, {| createdAtMs := nowMs; seq := sq; sendAtSeq := sq;
                         sentAtMs := 0; retries := 0 |}) nacks in
        add_loop fuel' nowMs recovered (u16 (sq + 1)) seqEnd nacks'
    end.

Definition AddPacketsToNackList (s : State) (nowMs seqStart seqEnd : Z)
    : res (State * list notification) :=
  let s := set_nackList s (remove_old fst seqEnd (nackList s)) in
  let numNewNacks := u16 (seqEnd - seqStart) in
  '(full, s) ←
    (if too_large (nackList s) numNewNacks then
       '(kf, nl) ← shrink_loop (length (nackList s)) numNewNacks (keyFrameList s) (nackList s);
       let s := set_nackList (set_keyFrameList s kf) nl in
       mret (too_large (nackList s) numNewNacks, s)
     else mret (false, s));
  if (full : bool) then mret (set_nackList s [], [KeyFrameRequired])
  else
    nl ← add_loop (Z.to_nat numNewNacks) nowMs (recoveredList s) seqStart seqEnd (nackList s);
    mret (set_nackList s nl, []).

(** Whether an entry is asked for now. *)
Definition nack_due (s : State) (nowMs : Z) (filter : NackFilter) (info : NackInfo) : bool :=
  if (0 <? sendNackDelayMs s) && (u64 (nowMs - createdAtMs info) <? sendNackDelayMs s)
  then false
  else
    match filter with
    | SEQ => (sentAtMs info =? 0) &&
             ((sendAtSeq info =? lastSeq s) ||
              IsSeqHigherThan 16 (lastSeq s) (sendAtSeq info))
    | TIME => (sentAtMs info =? 0) || (rtt s <=? u64 (nowMs - sentAtMs info))
    end.

(** The loop of [GetNackBatch]: the batch and the list that remains. *)
Fixpoint nack_batch (s : State) (nowMs : Z) (filter : NackFilter) (l : list (Z * NackInfo))
    : list Z * list (Z * NackInfo) :=
  match l with
  | [] => ([], [])
  | (k, info) :: l' =>
      let '(batch, rest) := nack_batch s nowMs filter l' in
      if nack_due s nowMs filter info then
        let info' := {| createdAtMs := createdAtMs info; seq := seq info;
                        sendAtSeq := sendAtSeq info; sentAtMs := nowMs;
                        retries := u8 (retries info + 1) |} in
        (seq info :: batch,
         if MaxNackRetries <=? retries info' then rest else (k, info') :: rest)
      else (batch, (k, info) :: rest)
  end.

Definition GetNackBatch (s : State) (nowMs : Z) (filter : NackFilter) : list Z * State :=
  let '(batch, nl) := nack_batch s nowMs filter (nackList s) in
  (batch, set_nackList s nl).

Definition MayRunTimer (s : State) : State :=
  match nackList s with [] => s | _ => set_timer s true end.

Definition notify_nacks (batch : list Z) : list notification :=
  match batch with [] => [] | _ => [NackRequired batch] end.

(** The packet is older than the last one seen. *)
Definition ReceivePacket_old (s : State) (sq : Z) : bool * State :=
  match find seq_lt fst sq (nackList s) with
  | Some i =>
      match nackList s !! i with
      | Some (_, info) =>
          (negb (retries info =? 0), set_nackList s (erase i (nackList s)))
      | None => (false, s)
      end
  | None => (false, s)
  end.

(** The packet is newer than the last one seen. *)
Definition ReceivePacket_new (s : State) (nowMs sq : Z) (isKeyFrame isRecovered : bool)
    : res (bool * State * list notification) :=
  let s := if isKeyFrame
           then set_keyFrameList s (OrdSet.insert seq_lt id sq (keyFrameList s)) else s in
  let s := set_keyFrameList s (remove_old id sq (keyFrameList s)) in
  if isRecovered then
    let s := set_recoveredList s (OrdSet.insert seq_lt id sq (recoveredList s)) in
    let s := set_recoveredList s (remove_old id sq (recoveredList s)) in
    mret (false, s, [])
  else
    '(s, n1) ← AddPacketsToNackList s nowMs (u16 (lastSeq s + 1)) sq;
    let s := set_lastSeq s sq in
    let '(nackBatch, s) := GetNackBatch s nowMs SEQ in
    let s := if timerActive s then s else MayRunTimer s in
    mret (false, s, n1 ++ notify_nacks nackBatch).

Definition ReceivePacket (s : State) (nowMs sq : Z) (isKeyFrame isRecovered : bool)
    : res (bool * State * list notification) :=
  if negb (started s) then
    let s := set_lastSeq s sq in
    mret (false,
          (if isKeyFrame
           then set_keyFrameList s (OrdSet.insert seq_lt id sq (keyFrameList s)) else s), [])
  else if sq =? lastSeq s then mret (false, s, [])
  else if IsSeqLowerThan 16 sq (lastSeq s) then
    let '(found, s) := ReceivePacket_old s sq in mret (found, s, [])
  else ReceivePacket_new s nowMs sq isKeyFrame isRecovered.

(** The one-shot timer has fired, so it is no longer active. *)
Definition OnTimer (s : State) (nowMs : Z) : State * list notification :=
  let s := set_timer s false in
  let '(nackBatch, s) := GetNackBatch s nowMs TIME in
  (MayRunTimer s, notify_nacks nackBatch).

Definition UpdateRtt (s : State) (r : Z) : State :=
  {| sendNackDelayMs := sendNackDelayMs s; nackList := nackList s;
     keyFrameList := keyFrameList s; recoveredList := recoveredList s;
     started := started s; lastSeq := lastSeq s; rtt := r; timerActive := timerActive s |}.

Definition Reset (s : State) : State :=
  {| sendNackDelayMs := sendNackDelayMs s; nackList := []; keyFrameList := [];
     recoveredList := []; started := false; lastSeq := 0; rtt := rtt s;
     timerActive := timerActive s |}.

Definition GetNackListLength (s : State) : Z := zlen (nackList s).

(** ** Invariant *)

(** The start of the window of sequence numbers that may be asked for. *)
Definition oldest_allowed (last : Z) : Z := u16 (last - MaxPacketAge).

(** A NACK list for the last packet [last]: in sequence order, every entry one of
    the [MaxPacketAge] sequence numbers before [last], at most [MaxNackPackets] of
    them, none with its retries exhausted. *)
Record nacks_ok (last : Z) (l : list (Z * NackInfo)) : Prop := {
  nacks_wf : OrdSet.wf (key := fst) (dom := in_window 16 (oldest_allowed last))
               (rank := offset 16 (oldest_allowed last)) l;
  nacks_recent : Forall (fun e => offset 16 (oldest_allowed last) (fst e) < MaxPacketAge) l;
  nacks_size : zlen l <= MaxNackPackets;
  nacks_entries : Forall (fun e => seq (snd e) = fst e /\
                                   0 <= retries (snd e) < MaxNackRetries) l;
}.

Record inv (s : State) : Prop := {
  inv_last : fits 16 (lastSeq s);
  inv_nacks : nacks_ok (lastSeq s) (nackList s);
  inv_started : started s = false -> nackList s = [];
  inv_timer : nackList s <> [] -> timerActive s = true;
}.

Lemma nacks_ok_nil last : nacks_ok last [].
Proof. split; [apply wf_nil|constructor|by vm_compute|constructor]. Qed.

Lemma nacks_ok_drop last l k : nacks_ok last l -> nacks_ok last (drop k l).
Proof.
  intros [H1 H2 H3 H4]. split; [by apply wf_drop|by apply Forall_drop| |by apply Forall_drop].
  rewrite zlen_drop. pose proof (zlen_nonneg l). lia.
Qed.

#[local] Instance nack_window a :
  WindowOrder (IsSeqLowerThan 16) (in_window 16 a) (offset 16 a).
Proof. apply seq_window. lia. Qed.

(** Sequence numbers at a known offset from [oldest_allowed]. *)
Lemma offset_ahead last x j :
  0 <= j < 2 ^ 16 -> x = (last + j) mod 2 ^ 16 ->
  offset 16 (oldest_allowed last) x = (MaxPacketAge + j) mod 2 ^ 16.
Proof.
  intros Hj ->. unfold offset, oldest_allowed, uwrap.
  rewrite Zminus_mod_idemp_l, Zminus_mod_idemp_r. f_equal. lia.
Qed.

Lemma in_window_intro a x k :
  fits 16 x -> offset 16 a x = k -> k < 2 ^ 15 -> in_window 16 a x.
Proof. intros Hx <- Hk. split; [done|exact Hk]. Qed.

(** Advancing the last sequence number by at most 1001 and removing what is too
    old keeps the list in order in its new window. *)
Lemma remove_old_ok last sq l j :
  nacks_ok last l -> fits 16 sq -> sq = (last + j) mod 2 ^ 16 -> 1 <= j <= 1001 ->
  nacks_ok sq (remove_old fst sq l) /\
  Forall (fun e => offset 16 (oldest_allowed sq) (fst e) < MaxPacketAge - j)
    (remove_old fst sq l).
Proof.
  intros Hl Hsq Hj Hjr. unfold remove_old.
  change (u16 (sq - MaxPacketAge)) with (oldest_allowed sq).
  assert (Hoff : offset 16 (oldest_allowed last) (oldest_allowed sq) = j).
  { unfold offset, oldest_allowed, uwrap. rewrite Hj.
    rewrite !Zminus_mod_idemp_r, !Zminus_mod_idemp_l.
    replace ((last + j) mod 2 ^ 16 - MaxPacketAge - (last - MaxPacketAge))
      with ((last + j) mod 2 ^ 16 - last) by lia.
    rewrite Zminus_mod_idemp_l. replace (last + j - last) with j by lia.
    apply Z.mod_small. lia. }
  assert (Hdom : in_window 16 (oldest_allowed last) (oldest_allowed sq)).
  { eapply in_window_intro; [apply uwrap_fits; lia|exact Hoff|lia]. }
  destruct (lower_bound_split (lt := seq_lt) (oldest_allowed sq) l (nacks_wf _ _ Hl) Hdom)
    as [_ Hge]. rewrite Hoff in Hge.
  set (k := lower_bound seq_lt fst (oldest_allowed sq) l) in *. clearbody k.
  pose proof (nacks_ok_drop _ _ k Hl) as Hd.
  assert (Hre : Forall (fun e => offset 16 (oldest_allowed sq) (fst e) =
                                 offset 16 (oldest_allowed last) (fst e) - j) (drop k l)).
  { pose proof (nacks_recent _ _ Hd) as Hrec. rewrite list.Forall_forall in Hge, Hrec |- *.
    intros e He. specialize (Hge e He). specialize (Hrec e He). simpl in *.
    unfold offset in *. replace (fst e - oldest_allowed sq)
      with (fst e - oldest_allowed last - (oldest_allowed sq - oldest_allowed last)) by lia.
    rewrite Zminus_mod, Hoff. apply Z.mod_small. unfold MaxPacketAge in *. lia. }
  assert (Hrec' : Forall (fun e => offset 16 (oldest_allowed sq) (fst e) < MaxPacketAge - j)
                    (drop k l)).
  { pose proof (nacks_recent _ _ Hd) as Hrec. rewrite list.Forall_forall in Hre, Hrec |- *.
    intros e He. rewrite (Hre e He). specialize (Hrec e He). simpl in Hrec. lia. }
  split; [|done]. split; [|eapply List.Forall_impl; [|exact Hrec']; simpl; lia|apply Hd|apply Hd].
  eapply (wf_rebase fst _ _ _ _ j); [|apply Hd].
  pose proof (proj1 (nacks_wf _ _ Hd)) as Hdm. rewrite list.Forall_forall in Hre, Hrec', Hdm |- *.
  intros e He. split; [|by apply Hre]. specialize (Hdm e He). split; [apply Hdm|].
  specialize (Hrec' e He). simpl in Hrec'. unfold MaxPacketAge in *.
  change (2 ^ (16 - 1)) with 32768. lia.
Qed.

(** Removing up to a key frame only removes a prefix. *)
Lemma RemoveNackItems_drop keyFrames nacks :
  exists removed kf k,
    RemoveNackItemsUntilKeyFrame keyFrames nacks = (removed, kf, drop k nacks) /\
    (removed = true -> (length (drop k nacks) < length nacks)%nat).
Proof.
  induction keyFrames as [|f keyFrames IH]; cbn [RemoveNackItemsUntilKeyFrame].
  - exists false, [], 0%nat. split; [by rewrite drop_0|done].
  - destruct (Nat.eqb_spec (lower_bound seq_lt fst f nacks) 0) as [E|E]; cbn [negb].
    + exact IH.
    + do 3 eexists. split; [done|]. intros _. rewrite length_drop.
      pose proof (lower_bound_le (lt := seq_lt) (key := fst) f nacks). lia.
Qed.

(** The loop that makes room terminates, and only removes a prefix. *)
Lemma shrink_loop_ok fuel : forall numNew kf nacks,
  (length nacks <= fuel)%nat ->
  exists kf' k, shrink_loop fuel numNew kf nacks = Ok (kf', drop k nacks).
Proof.
  induction fuel as [|fuel IH]; intros numNew kf nacks Hlen; cbn [shrink_loop];
    destruct (RemoveNackItems_drop kf nacks) as (removed & kf' & k & -> & Hrem);
    destruct removed; cbn [andb]; eauto.
  - specialize (Hrem eq_refl). lia.
  - destruct (too_large (drop k nacks) numNew); [|eauto].
    specialize (Hrem eq_refl).
    destruct (IH numNew kf' (drop k nacks)) as (kf2 & k2 & ->); [lia|].
    exists kf2, (k + k2)%nat. by rewrite drop_drop.
Qed.

Lemma nacks_zlen_u16 last l : nacks_ok last l -> u16 (zlen l) = zlen l.
Proof.
  intros H. pose proof (nacks_size _ _ H). pose proof (zlen_nonneg l).
  apply uwrap_id. unfold fits, MaxNackPackets in *. pow2_consts. lia.
Qed.

(** The entry [add_loop] creates. *)
Definition new_nack (nowMs sq : Z) : Z * NackInfo :=
  (sq, {| createdAtMs := nowMs; seq := sq; sendAtSeq := sq; sentAtMs := 0; retries := 0 |}).

(** One new entry, ahead of all the others. *)
Lemma nacks_ok_snoc last l nowMs sq r :
  nacks_ok last l -> fits 16 sq -> offset 16 (oldest_allowed last) sq = r -> r < MaxPacketAge ->
  Forall (fun e => offset 16 (oldest_allowed last) (fst e) < r) l -> zlen l < MaxNackPackets ->
  find seq_lt fst sq l = None /\
  OrdSet.insert seq_lt fst (new_nack nowMs sq) l = l ++ [new_nack nowMs sq] /\
  nacks_ok last (l ++ [new_nack nowMs sq]).
Proof.
  intros Hl Hsq Hoff Hr Hlow Hsz.
  assert (Hdom : in_window 16 (oldest_allowed last) (fst (new_nack nowMs sq))).
  { eapply in_window_intro; [done|exact Hoff|]. unfold MaxPacketAge in *. lia. }
  assert (Hlow' : Forall (fun e => offset 16 (oldest_allowed last) (fst e) <
      offset 16 (oldest_allowed last) (fst (new_nack nowMs sq))) l) by (simpl; by rewrite Hoff).
  assert (Hins : OrdSet.insert seq_lt fst (new_nack nowMs sq) l = l ++ [new_nack nowMs sq])
    by (by apply insert_last; [apply Hl| |]).
  split_and!; [|done|].
  - destruct (find seq_lt fst sq l) as [i|] eqn:E; [|done]. exfalso.
    destruct (find_Some (lt := seq_lt) sq l i (nacks_wf _ _ Hl) Hdom E) as (e & He & Hk).
    pose proof (Forall_lookup_1 _ _ _ _ Hlow He) as Hx. simpl in Hx. rewrite Hk in Hx. lia.
  - split.
    + rewrite <- Hins. apply insert_wf; [apply Hl|done].
    + apply Forall_app. split; [apply Hl|]. constructor; [simpl; lia|constructor].
    + rewrite zlen_app, zlen_cons, zlen_nil. lia.
    + apply Forall_app. split; [apply Hl|]. constructor; [|constructor].
      simpl. unfold MaxNackRetries. split; [done|lia].
Qed.

(** The [n] sequence numbers before [last]. *)
Definition missing (last : Z) (n : nat) : list Z :=
  (fun i => u16 (last - Z.of_nat n + Z.of_nat i)) <$> List.seq 0 n.

Lemma missing_S last n : missing last (S n) = u16 (last - Z.of_nat (S n)) :: missing last n.
Proof.
  unfold missing. simpl. f_equal; [f_equal; lia|].
  rewrite <- fmap_S_seq, <- list_fmap_compose. apply list_fmap_ext. intros i x _.
  simpl. f_equal. lia.
Qed.

(** The loop adds, of the [rem] sequence numbers before [seqEnd], those that were
    not recovered; the assertion in it holds. *)
Lemma add_loop_ok nowMs recovered seqEnd : forall (rem : nat) l,
  nacks_ok seqEnd l -> fits 16 seqEnd -> Z.of_nat rem <= MaxNackPackets ->
  Forall (fun e => offset 16 (oldest_allowed seqEnd) (fst e) < MaxPacketAge - Z.of_nat rem) l ->
  zlen l + Z.of_nat rem <= MaxNackPackets ->
  exists l', add_loop rem nowMs recovered (u16 (seqEnd - Z.of_nat rem)) seqEnd l = Ok l' /\
             nacks_ok seqEnd l' /\
             l' = l ++ (new_nack nowMs <$>
                          filter (fun q => find seq_lt id q recovered = None) (missing seqEnd rem)).
Proof.
  induction rem as [|rem IH]; intros l Hl Hse Hrem Hlow Hsz.
  - rewrite Z.sub_0_r. rewrite uwrap_id by done. simpl. rewrite Z.eqb_refl.
    exists l. split_and!; [done..|]. by rewrite app_nil_r.
  - set (sq := u16 (seqEnd - Z.of_nat (S rem))).
    assert (Hsq : fits 16 sq) by (apply uwrap_fits; lia).
    assert (Hoff : offset 16 (oldest_allowed seqEnd) sq = MaxPacketAge - Z.of_nat (S rem)).
    { unfold sq, offset, oldest_allowed, uwrap. rewrite Zminus_mod_idemp_l, Zminus_mod_idemp_r.
      replace (seqEnd - Z.of_nat (S rem) - (seqEnd - MaxPacketAge))
        with (MaxPacketAge - Z.of_nat (S rem)) by lia.
      apply Z.mod_small. unfold MaxPacketAge, MaxNackPackets in *. lia. }
    assert (Hnext : u16 (sq + 1) = u16 (seqEnd - Z.of_nat rem)).
    { unfold sq, uwrap. rewrite Zplus_mod_idemp_l. f_equal. lia. }
    assert (Hne : sq <> seqEnd).
    { unfold sq, uwrap, fits, MaxNackPackets in *. pow2_consts.
      Z.div_mod_to_equations. lia. }
    destruct (nacks_ok_snoc seqEnd l nowMs sq _ Hl Hsq Hoff) as (Hf & Hins & Hok);
      [unfold MaxNackPackets, MaxPacketAge in *; lia|done|lia|].
    cbn [add_loop]. destruct (Z.eqb_spec sq seqEnd); [done|].
    rewrite (bool_decide_eq_true_2 (find seq_lt fst sq l = None)) by exact Hf. cbn [ms_assert mbind res_bind]. rewrite Hnext.
    rewrite missing_S. fold sq.
    destruct (bool_decide_reflect (is_Some (find seq_lt id sq recovered))) as [Hr|Hr].
    + rewrite filter_cons_False by (intros Hn; rewrite Hn in Hr; by apply is_Some_None in Hr).
      apply IH; [done|done|lia| |lia].
      eapply List.Forall_impl; [|exact Hlow]. simpl. lia.
    + rewrite filter_cons_True by (by apply eq_None_not_Some).
      fold (new_nack nowMs sq). rewrite Hins, fmap_cons.
      destruct (IH (l ++ [new_nack nowMs sq])) as (l' & Hl' & Hok' & Heq); [done|done|lia| | |].
      * apply Forall_app. split; [eapply List.Forall_impl; [|exact Hlow]; simpl; lia|].
        constructor; [|constructor]. simpl. lia.
      * rewrite zlen_app, zlen_cons, zlen_nil. lia.
      * exists l'. split_and!; [done..|]. by rewrite Heq, <- app_assoc.
Qed.

(** The same, for what remains of the list when a packet [j] ahead of the last one
    comes in. *)
Lemma add_loop_after s nowMs sq j k :
  inv s -> fits 16 sq -> sq = (lastSeq s + j) mod 2 ^ 16 -> 1 <= j ->
  too_large (drop k (remove_old fst sq (nackList s))) (j - 1) = false ->
  exists l', add_loop (Z.to_nat (j - 1)) nowMs (recoveredList s)
               (u16 (sq - Z.of_nat (Z.to_nat (j - 1)))) sq
               (drop k (remove_old fst sq (nackList s))) = Ok l' /\ nacks_ok sq l' /\
    l' = drop k (remove_old fst sq (nackList s)) ++ (new_nack nowMs <$>
      filter (fun q => find seq_lt id q (recoveredList s) = None)
        (missing sq (Z.to_nat (j - 1)))).
Proof.
  intros Hinv Hsq Hj Hj1 Hsmall. set (l := remove_old fst sq (nackList s)) in *.
  unfold too_large in Hsmall. apply Z.ltb_ge in Hsmall.
  pose proof (uwrap_fits 16 (zlen (drop k l)) ltac:(lia)) as Hu. unfold fits in Hu.
  destruct (remove_old_ok _ sq _ j (inv_nacks _ Hinv) Hsq Hj) as [Hok Hlow];
    [unfold MaxNackPackets in *; lia|]. fold l in Hok, Hlow.
  pose proof (nacks_ok_drop _ _ k Hok) as Hokd.
  rewrite (nacks_zlen_u16 _ _ Hokd) in Hsmall.
  pose proof (zlen_nonneg (drop k l)).
  apply add_loop_ok; [done|done|lia| |lia].
  rewrite Z2Nat.id by lia. apply Forall_drop.
  eapply List.Forall_impl; [|exact Hlow]. simpl. lia.
Qed.

(** A packet [j] ahead of the last one: the list stays well formed, whatever it
    had to give up. *)
Lemma AddPackets_ok s nowMs sq j :
  inv s -> fits 16 sq -> sq = (lastSeq s + j) mod 2 ^ 16 -> 1 <= j <= 2 ^ 15 ->
  exists kf nl n,
    AddPacketsToNackList s nowMs (u16 (lastSeq s + 1)) sq =
      Ok (set_nackList (set_keyFrameList s kf) nl, n) /\
    nacks_ok sq nl /\ (n = [] \/ n = [KeyFrameRequired]) /\
    (nackList s = [] -> j <= 1001 ->
     n = [] /\ kf = keyFrameList s /\
     nl = new_nack nowMs <$> filter (fun q => find seq_lt id q (recoveredList s) = None)
                               (missing sq (Z.to_nat (j - 1)))).
Proof.
  intros Hinv Hsq Hj Hjr. unfold AddPacketsToNackList.
  assert (Hnew : u16 (sq - u16 (lastSeq s + 1)) = j - 1).
  { unfold uwrap. rewrite Hj, Zminus_mod_idemp_r, Zminus_mod_idemp_l.
    replace (lastSeq s + j - (lastSeq s + 1)) with (j - 1) by lia.
    apply Z.mod_small. pow2_consts. lia. }
  assert (Hstart : u16 (lastSeq s + 1) = u16 (sq - Z.of_nat (Z.to_nat (j - 1)))).
  { rewrite Z2Nat.id by lia. unfold uwrap. rewrite Hj, Zminus_mod_idemp_l. f_equal. lia. }
  cbn zeta. rewrite Hnew. cbn [nackList set_nackList keyFrameList recoveredList].
  assert (Hnil : nackList s = [] -> remove_old fst sq (nackList s) = []) by (by intros ->).
  set (l := remove_old fst sq (nackList s)) in *.
  destruct (shrink_loop_ok (length l) (j - 1) (keyFrameList s) l ltac:(lia)) as (kf & k & Hsh).
  assert (Hadd := fun k' => add_loop_after s nowMs sq j k' Hinv Hsq Hj ltac:(lia)).
  rewrite <- Hstart in Hadd. fold l in Hadd.
  destruct (too_large l (j - 1)) eqn:Hbig.
  - rewrite Hsh. cbn [mbind res_bind mret res_ret nackList set_nackList].
    assert (Hcontra : nackList s = [] -> j <= 1001 -> False).
    { intros Hn Hj'. rewrite (Hnil Hn) in Hbig. unfold too_large, MaxNackPackets in Hbig.
      apply Z.ltb_lt in Hbig. change (u16 (zlen [])) with 0 in Hbig. lia. }
    destruct (too_large (drop k l) (j - 1)) eqn:Hbig2.
    + exists kf, [], [KeyFrameRequired].
      split_and!; [done|apply nacks_ok_nil|by right|by intros; exfalso; apply Hcontra].
    + destruct (Hadd k Hbig2) as (l' & Hl' & Hok' & _).
      exists kf, l', []. split_and!; [|done|by left|by intros; exfalso; apply Hcontra].
      cbn [recoveredList set_keyFrameList set_nackList]. by rewrite Hl'.
  - cbn [mbind res_bind mret res_ret].
    specialize (Hadd 0%nat). rewrite drop_0 in Hadd.
    destruct (Hadd Hbig) as (l' & Hl' & Hok' & Heq).
    exists (keyFrameList s), l', []. split_and!; [|done|by left|].
    + cbn [nackList recoveredList set_keyFrameList set_nackList]. by rewrite Hl'.
    + intros Hn _. split_and!; [done..|]. by rewrite Heq, (Hnil Hn).
Qed.

(** [GetNackBatch] asks only for listed sequence numbers and keeps, of the list,
    entries of the same keys in the same order. *)
Lemma nack_batch_keys s nowMs filter (P : Z -> Prop) : forall l batch rest,
  nack_batch s nowMs filter l = (batch, rest) ->
  Forall (fun e => P (fst e)) l -> Forall (fun e => P (fst e)) rest.
Proof.
  induction l as [|[k info] l IH]; intros batch rest Hb Hl; simpl in Hb; simplify_eq; [done|].
  destruct (nack_batch s nowMs filter l) as [b r] eqn:Er.
  apply list.Forall_cons in Hl as [Hk Hl]. specialize (IH _ _ eq_refl Hl).
  repeat case_match; simplify_eq; try done; by constructor.
Qed.

Lemma nack_batch_requested s nowMs filter : forall l batch rest,
  nack_batch s nowMs filter l = (batch, rest) ->
  Forall (fun e => seq (snd e) = fst e) l -> Forall (fun q => q ∈ l.*1) batch.
Proof.
  induction l as [|[k info] l IH]; intros batch rest Hb Hl; simpl in Hb; simplify_eq; [done|].
  destruct (nack_batch s nowMs filter l) as [b r] eqn:Er.
  apply list.Forall_cons in Hl as [Hk Hl]. specialize (IH _ _ eq_refl Hl). simpl in Hk.
  assert (Hw : Forall (fun q => q ∈ ((k, info) :: l).*1) b).
  { eapply List.Forall_impl; [|exact IH]. simpl. intros q Hq. by right. }
  repeat case_match; simplify_eq; try done; (constructor; [left|done]).
Qed.

Lemma nack_batch_ok s nowMs filter last : forall l batch rest,
  nack_batch s nowMs filter l = (batch, rest) ->
  nacks_ok last l -> nacks_ok last rest /\ zlen rest <= zlen l.
Proof.
  induction l as [|[k info] l IH]; intros batch rest Hb Hl; simpl in Hb;
    [by simplify_eq|].
  destruct (nack_batch s nowMs filter l) as [b r] eqn:Er.
  destruct Hl as [Hwf Hrec Hsz Hent].
  apply wf_cons in Hwf as (Hd & Hlt & Hwf). apply list.Forall_cons in Hrec as [Hr Hrec].
  apply list.Forall_cons in Hent as [[He1 He2] Hent]. rewrite zlen_cons in Hsz |- *.
  destruct (IH _ _ eq_refl) as [[Hwf' Hrec' Hsz' Hent'] Hlen]; [split; try done; lia|].
  assert (Hcons : forall info', seq info' = k -> 0 <= retries info' < MaxNackRetries ->
            nacks_ok last ((k, info') :: r)).
  { intros info' H1 H2. split.
    - apply wf_cons. split_and!; [done| |done].
      exact (nack_batch_keys _ _ _ (fun x => offset 16 (oldest_allowed last) k <
               offset 16 (oldest_allowed last) x) _ _ _ Er Hlt).
    - by constructor.
    - rewrite zlen_cons. lia.
    - by constructor. }
  simpl in He1, He2. unfold MaxNackRetries in *.
  repeat case_match; simplify_eq; rewrite ?zlen_cons; (split; [|lia]); try by split.
  - apply Hcons; simpl; [done|]. apply Z.leb_gt in H0. unfold uwrap in *.
    rewrite Z.mod_small in * by (pow2_consts; lia). lia.
  - by apply Hcons.
Qed.

Lemma GetNackBatch_eq s nowMs filter :
  GetNackBatch s nowMs filter =
    ((nack_batch s nowMs filter (nackList s)).1,
     set_nackList s (nack_batch s nowMs filter (nackList s)).2).
Proof. unfold GetNackBatch. by destruct (nack_batch _ _ _ _). Qed.

(** The sequence numbers a handler asks for. *)
Definition requested (ns : list notification) : list Z :=
  ns ≫= (fun n => match n with NackRequired l => l | KeyFrameRequired => [] end).

(** One of the [MaxPacketAge] sequence numbers before [last]. *)
Definition recent (last q : Z) : Prop :=
  fits 16 q /\ 1 <= offset 16 q last <= MaxPacketAge.

Lemma offset_recent last q :
  fits 16 last -> in_window 16 (oldest_allowed last) q ->
  offset 16 (oldest_allowed last) q < MaxPacketAge -> recent last q.
Proof.
  intros Hl [Hq _] Ho. split; [done|]. unfold offset, oldest_allowed, MaxPacketAge in *. ulia.
Qed.

Lemma batch_recent s nowMs filter last l :
  nacks_ok last l -> fits 16 last ->
  Forall (recent last) (nack_batch s nowMs filter l).1.
Proof.
  intros Hl Hlast. destruct (nack_batch s nowMs filter l) as [b r] eqn:Er. simpl.
  eapply nack_batch_requested in Er;
    [|eapply List.Forall_impl; [|apply (nacks_entries _ _ Hl)]; simpl; tauto].
  eapply List.Forall_impl; [|exact Er]. simpl. intros q Hq.
  apply list_elem_of_fmap in Hq as (e & -> & He).
  pose proof (proj1 (nacks_wf _ _ Hl)) as Hw. pose proof (nacks_recent _ _ Hl) as Hr.
  rewrite list.Forall_forall in Hw, Hr. apply offset_recent; auto.
Qed.

Lemma requested_notify b : requested (notify_nacks b) = b.
Proof. destruct b; simpl; [done|]. by rewrite app_nil_r. Qed.

(** A packet that is neither the last one nor older is ahead of it. *)
Lemma newer_ahead last sq :
  fits 16 last -> fits 16 sq -> sq <> last -> IsSeqLowerThan 16 sq last = false ->
  sq = (last + offset 16 last sq) mod 2 ^ 16 /\ 1 <= offset 16 last sq <= 2 ^ 15.
Proof.
  intros Hl Hs Hne Hlow. rewrite IsSeqLowerThan_total in Hlow by (done || lia).
  apply negb_false_iff in Hlow. apply IsSeqLowerThan_spec in Hlow; [|lia|done..].
  split; [|pow2_consts; change (2 ^ (16 - 1)) with 32768 in *; lia].
  unfold offset, fits in *. rewrite Zplus_mod_idemp_r.
  replace (last + (sq - last)) with sq by lia. by rewrite Z.mod_small.
Qed.

Lemma ReceivePacket_old_inv s sq : inv s -> inv (ReceivePacket_old s sq).2.
Proof.
  intros H. unfold ReceivePacket_old. destruct (find seq_lt fst sq (nackList s)) as [i|]; [|done].
  destruct (nackList s !! i) as [[k info]|]; [|done]. simpl.
  destruct H as [H1 [Hwf Hrec Hsz Hent] H3 H4]. split; simpl; [done| | |].
  - split.
    + by apply wf_erase.
    + apply Forall_app. split; [by apply Forall_take|by apply Forall_drop].
    + unfold erase. rewrite zlen_app, zlen_drop. unfold zlen in *. rewrite length_take. lia.
    + apply Forall_app. split; [by apply Forall_take|by apply Forall_drop].
  - intros Hs. rewrite (H3 Hs). unfold erase. by rewrite take_nil.
  - intros Hne. apply H4. intros Hn. rewrite Hn in Hne. unfold erase in Hne.
    by rewrite take_nil in Hne.
Qed.

Lemma ReceivePacket_new_ok s nowMs sq isKeyFrame isRecovered :
  inv s -> started s = true -> fits 16 sq -> sq <> lastSeq s ->
  IsSeqLowerThan 16 sq (lastSeq s) = false ->
  exists found s' ns,
    ReceivePacket_new s nowMs sq isKeyFrame isRecovered = Ok (found, s', ns) /\ inv s' /\
    Forall (recent (lastSeq s')) (requested ns).
Proof.
  intros Hinv Hst Hsq Hne Hlow. unfold ReceivePacket_new.
  set (s1 := set_keyFrameList _ _).
  assert (Hinv1 : inv s1) by (destruct isKeyFrame; destruct Hinv; by split).
  assert (Hlast : lastSeq s1 = lastSeq s) by (by destruct isKeyFrame).
  assert (Hst1 : started s1 = true) by (by destruct isKeyFrame).
  clearbody s1. destruct isRecovered.
  { do 3 eexists. split; [done|]. split; [|constructor]. destruct Hinv1. by split. }
  destruct (newer_ahead (lastSeq s1) sq) as [Hj Hjr]; [apply Hinv1|done|congruence..|].
  destruct (AddPackets_ok s1 nowMs sq _ Hinv1 Hsq Hj Hjr) as (kf & nl & n & -> & Hok & Hn & _).
  cbn [mbind res_bind]. rewrite GetNackBatch_eq.
  set (s2 := set_lastSeq _ _). do 3 eexists. split; [done|].
  destruct (nack_batch s2 nowMs SEQ (nackList s2)) as [b r] eqn:Er.
  pose proof (batch_recent s2 nowMs SEQ sq _ Hok Hsq) as Hb.
  change nl with (nackList s2) in Hb. rewrite Er in Hb. cbn [fst snd] in *.
  apply (nack_batch_ok _ _ _ sq) in Er as [Hr _]; [|done].
  split.
  - unfold MayRunTimer. cbn [timerActive set_nackList nackList].
    destruct (timerActive s2) eqn:Et; [|destruct r as [|e r]]; by split.
  - assert (Hlast' : lastSeq (if timerActive (set_nackList s2 r) then set_nackList s2 r
              else MayRunTimer (set_nackList s2 r)) = sq).
    { unfold MayRunTimer. by repeat case_match. }
    rewrite Hlast'. unfold requested. rewrite bind_app. apply Forall_app.
    fold (requested n) (requested (notify_nacks b)). rewrite requested_notify.
    split; [|done]. destruct Hn as [->| ->]; constructor.
Qed.

Lemma ReceivePacket_ok s nowMs sq isKeyFrame isRecovered :
  inv s -> fits 16 sq ->
  exists found s' ns,
    ReceivePacket s nowMs sq isKeyFrame isRecovered = Ok (found, s', ns) /\ inv s' /\
    Forall (recent (lastSeq s')) (requested ns).
Proof.
  intros Hinv Hsq. unfold ReceivePacket. destruct (started s) eqn:Hst; cbn [negb].
  - destruct (Z.eqb_spec sq (lastSeq s)); [by eauto 6 using Forall_nil_2|].
    destruct (IsSeqLowerThan 16 sq (lastSeq s)) eqn:Elow.
    + pose proof (ReceivePacket_old_inv s sq Hinv) as H.
      destruct (ReceivePacket_old s sq) as [found s']. eauto 6 using Forall_nil_2.
    + by apply ReceivePacket_new_ok.
  - do 3 eexists. split; [done|]. split; [|constructor].
    pose proof (inv_started _ Hinv Hst) as Hnil.
    destruct isKeyFrame; (split; simpl; [done| |done|by rewrite Hnil]);
      rewrite Hnil; apply nacks_ok_nil.
Qed.

Lemma OnTimer_ok s nowMs :
  inv s -> inv (OnTimer s nowMs).1 /\
  Forall (recent (lastSeq (OnTimer s nowMs).1)) (requested (OnTimer s nowMs).2).
Proof.
  intros Hinv. unfold OnTimer. rewrite GetNackBatch_eq.
  set (s1 := set_timer s false). cbn [fst snd].
  pose proof (batch_recent s1 nowMs TIME (lastSeq s) (nackList s)
                (inv_nacks _ Hinv) (inv_last _ Hinv)) as Hb.
  change (nackList s) with (nackList s1) in Hb.
  destruct (nack_batch s1 nowMs TIME (nackList s1)) as [b r] eqn:Er.
  rewrite requested_notify. cbn [fst snd] in *.
  pose proof Er as Er'. apply (nack_batch_ok _ _ _ (lastSeq s)) in Er' as [Hr Hlen]; [|apply Hinv].
  split; [|by destruct r]. unfold MayRunTimer. cbn [nackList set_nackList].
  destruct r as [|e r]; (split; simpl; [apply Hinv|done| |done]); [done|].
  intros Hs. pose proof (inv_started _ Hinv Hs) as Hnil. cbn in Hlen.
  rewrite Hnil, zlen_cons, zlen_nil in Hlen. pose proof (zlen_nonneg r). lia.
Qed.

(** ** Batches are in order *)

(** The sequence numbers of a request: not too many, within a window, in order. *)
Definition orderly (n : notification) : Prop :=
  match n with
  | NackRequired l =>
      zlen l <= MaxNackPackets /\
      exists o, Forall (fun q => fits 16 q /\ offset 16 o q < MaxPacketAge) l /\
        StronglySorted (fun a b => offset 16 o a < offset 16 o b) l
  | KeyFrameRequired => True
  end.

Lemma batch_sorted s nowMs filter last : forall l,
  nacks_ok last l ->
  let b := (nack_batch s nowMs filter l).1 in
  StronglySorted (fun x y => offset 16 (oldest_allowed last) x < offset 16 (oldest_allowed last) y) b /\ zlen b <= zlen l.
Proof.
  cbv zeta. induction l as [|[k info] l IH]; intros Hl; [by split; [constructor|]|].
  destruct Hl as [Hwf Hrec Hsz Hent]. apply wf_cons in Hwf as (Hd & Hlt & Hwf).
  apply list.Forall_cons in Hrec as [_ Hrec]. apply list.Forall_cons in Hent as [[Hk _] Hent].
  rewrite zlen_cons in Hsz. destruct IH as [IH1 IH2]; [split; try done; lia|].
  cbn [nack_batch]. destruct (nack_batch s nowMs filter l) as [b r] eqn:Er. cbn [fst] in *. rewrite zlen_cons.
  destruct (nack_due s nowMs filter info); cbn [fst]; [|split; [done|lia]]. rewrite zlen_cons. split; [|lia].
  constructor; [done|]. cbn in Hk. rewrite Hk.
  assert (Forall (fun q => q ∈ l.*1) b) as Hb.
  { eapply nack_batch_requested; [exact Er|]. eapply List.Forall_impl; [|exact Hent]. simpl. tauto. }
  eapply List.Forall_impl; [|exact Hb]. intros q Hq. apply list_elem_of_fmap in Hq as (e & -> & He).
  rewrite list.Forall_forall in Hlt. by apply Hlt.
Qed.

Lemma batch_orderly s nowMs filter last l :
  nacks_ok last l -> Forall orderly (notify_nacks (nack_batch s nowMs filter l).1).
Proof.
  intros Hl. destruct (batch_sorted s nowMs filter last l Hl) as [Hs Hz].
  destruct (nack_batch s nowMs filter l) as [b r] eqn:Er. cbn [fst] in *.
  destruct b as [|q b'] eqn:Eb; [constructor|]. rewrite <- Eb in *. replace (notify_nacks b) with [NackRequired b] by (by rewrite Eb).
  constructor; [|constructor]. split; [pose proof (nacks_size _ _ Hl); lia|]. exists (oldest_allowed last). split; [|done].
  eapply nack_batch_requested in Er; [|eapply List.Forall_impl; [|apply (nacks_entries _ _ Hl)]; simpl; tauto].
  eapply List.Forall_impl; [|exact Er]. simpl. intros x Hx. apply list_elem_of_fmap in Hx as (e & -> & He).
  pose proof (proj1 (nacks_wf _ _ Hl)) as Hw. pose proof (nacks_recent _ _ Hl) as Hr.
  rewrite list.Forall_forall in Hw, Hr. split; [by apply (Hw e)|by apply (Hr e)].
Qed.

Lemma OnTimer_orderly s nowMs : inv s -> Forall orderly (OnTimer s nowMs).2.
Proof. intros Hinv. unfold OnTimer. rewrite GetNackBatch_eq. apply (batch_orderly _ _ _ (lastSeq s)), Hinv. Qed.

Lemma ReceivePacket_orderly s nowMs sq isKeyFrame isRecovered found s' ns :
  inv s -> fits 16 sq -> ReceivePacket s nowMs sq isKeyFrame isRecovered = Ok (found, s', ns) -> Forall orderly ns.
Proof.
  intros Hinv Hsq. unfold ReceivePacket. destruct (started s) eqn:Hst; cbn [negb]; [|by intros [= _ _ <-]].
  destruct (Z.eqb_spec sq (lastSeq s)); [by intros [= _ _ <-]|].
  destruct (IsSeqLowerThan 16 sq (lastSeq s)) eqn:Elow.
  { destruct (ReceivePacket_old s sq). by intros [= _ _ <-]. }
  unfold ReceivePacket_new. set (s1 := set_keyFrameList _ _).
  assert (Hinv1 : inv s1) by (destruct isKeyFrame; destruct Hinv; by split).
  assert (Hlast : lastSeq s1 = lastSeq s) by (by destruct isKeyFrame).
  clearbody s1. destruct isRecovered; [by intros [= _ _ <-]|].
  destruct (newer_ahead (lastSeq s1) sq) as [Hj Hjr]; [apply Hinv1|done|congruence..|].
  destruct (AddPackets_ok s1 nowMs sq _ Hinv1 Hsq Hj Hjr) as (kf & nl & n1 & -> & Hok & Hn & _).
  cbn [mbind res_bind]. rewrite GetNackBatch_eq. intros [= _ _ <-]. apply Forall_app. split.
  - destruct Hn as [->| ->]; repeat constructor.
  - by apply (batch_orderly _ _ _ sq).
Qed.

(** ** Histories *)

(** What can happen to a generator.  The timer only fires when it is active. *)
Inductive event :=
| EvReceive (nowMs sq : Z) (isKeyFrame isRecovered : bool)
| EvTimer (nowMs : Z)
| EvUpdateRtt (r : Z)
| EvReset.

Definition event_ok (e : event) : Prop :=
  match e with EvReceive _ sq _ _ => fits 16 sq | _ => True end.

Definition handle (s : State) (e : event) : res (State * list notification) :=
  match e with
  | EvReceive nowMs sq kf rec =>
      '(_, s', ns) ← ReceivePacket s nowMs sq kf rec; mret (s', ns)
  | EvTimer nowMs => mret (if timerActive s then OnTimer s nowMs else (s, []))
  | EvUpdateRtt r => mret (UpdateRtt s r, [])
  | EvReset => mret (Reset s, [])
  end.

(** A history, with the state after each event and what it asked for. *)
Fixpoint run (s : State) (es : list event) : res (State * list (State * list notification)) :=
  match es with
  | [] => mret (s, [])
  | e :: es' =>
      '(s1, ns) ← handle s e;
      '(s2, rest) ← run s1 es';
      mret (s2, (s1, ns) :: rest)
  end.

Lemma inv_init delay : inv (init delay).
Proof. split; simpl; [done|apply nacks_ok_nil|done|done]. Qed.

Lemma handle_ok s e :
  inv s -> event_ok e ->
  exists s' ns, handle s e = Ok (s', ns) /\ inv s' /\ Forall (recent (lastSeq s')) (requested ns).
Proof.
  intros Hinv He. destruct e as [nowMs sq kf rec|nowMs|r|]; cbn [handle].
  - destruct (ReceivePacket_ok s nowMs sq kf rec Hinv He) as (f & s' & ns & -> & H). eauto.
  - destruct (timerActive s); [|eauto 6 using Forall_nil_2].
    pose proof (OnTimer_ok s nowMs Hinv) as H. destruct (OnTimer s nowMs). eauto.
  - do 2 eexists. split; [done|]. split; [|constructor]. destruct Hinv. by split.
  - do 2 eexists. split; [done|]. split; [|constructor].
    split; simpl; [done|apply nacks_ok_nil|done|done].
Qed.

(** What holds after each event of a history. *)
Definition step_ok (x : State * list notification) : Prop :=
  GetNackListLength x.1 <= MaxNackPackets /\
  (GetNackListLength x.1 <> 0 -> timerActive x.1 = true) /\
  Forall (fun e => 0 <= retries e.2 < MaxNackRetries) (nackList x.1) /\
  Forall (recent (lastSeq x.1)) (requested x.2).

Lemma inv_step_ok s ns : inv s -> Forall (recent (lastSeq s)) (requested ns) -> step_ok (s, ns).
Proof.
  intros Hinv Hreq. split_and!; simpl; [apply (inv_nacks _ Hinv)| | |done].
  - intros Hn. apply (inv_timer _ Hinv). intros Heq. apply Hn. unfold GetNackListLength.
    by rewrite Heq.
  - eapply List.Forall_impl; [|apply (nacks_entries _ _ (inv_nacks _ Hinv))]. simpl. tauto.
Qed.

Lemma run_ok es : forall s, inv s -> Forall event_ok es ->
  exists s' trace, run s es = Ok (s', trace) /\ Forall step_ok trace.
Proof.
  induction es as [|e es IH]; intros s Hinv Hes; cbn [run]; [eauto using Forall_nil_2|].
  apply list.Forall_cons in Hes as [He Hes].
  destruct (handle_ok s e Hinv He) as (s1 & ns & -> & Hinv1 & Hreq). cbn [mbind res_bind].
  destruct (IH s1 Hinv1 Hes) as (s2 & trace & -> & Ht). cbn [mbind res_bind].
  do 2 eexists. split; [done|]. constructor; [by apply inv_step_ok|done].
Qed.

(** C8: For every history of received packets, timer expirations, RTT updates and
    resets, no handler fails (in particular the assertion that a missing packet is
    not yet in the NACK list never fails and the shrinking loop terminates), and
    after each event: the NACK list holds at most 1000 packets, the timer runs
    whenever the list is not empty, no entry has used up its retries, and every
    sequence number asked for is one of the 10000 before the last one received. *)
Theorem history_safe delay es :
  Forall event_ok es ->
  exists s trace, run (init delay) es = Ok (s, trace) /\ Forall step_ok trace.
Proof. intros Hes. apply run_ok; [apply inv_init|done]. Qed.

Lemma history_safe_witness :
  let es := [EvReceive 5 65534 true false; EvReceive 9 3 false false; EvTimer 50;
             EvReceive 60 0 false true; EvReceive 70 2000 false false; EvReset] in
  Forall event_ok es /\
  exists s trace, run (init 0) es = Ok (s, trace) /\ Forall step_ok trace.
Proof.
  assert (H : Forall event_ok [EvReceive 5 65534 true false; EvReceive 9 3 false false; EvTimer 50;
             EvReceive 60 0 false true; EvReceive 70 2000 false false; EvReset])
    by (repeat constructor; vm_compute; discriminate).
  split; [exact H|]. exact (history_safe 0 _ H).
Defined.

(** ** A gap is asked for at once *)

(** An entry after its first request. *)
Definition nacked_once (nowMs q : Z) : Z * NackInfo :=
  (q, {| createdAtMs := nowMs; seq := q; sendAtSeq := q; sentAtMs := nowMs; retries := 1 |}).

Lemma nack_batch_fresh s nowMs qs :
  sendNackDelayMs s = 0 -> Forall (fun q => IsSeqHigherThan 16 (lastSeq s) q = true) qs ->
  nack_batch s nowMs SEQ (new_nack nowMs <$> qs) = (qs, nacked_once nowMs <$> qs).
Proof.
  intros Hd. induction 1 as [|q qs Hq _ IH]; [done|]. rewrite fmap_cons. unfold new_nack at 1.
  cbn [nack_batch]. rewrite IH. unfold nack_due. rewrite Hd. cbn -[IsSeqHigherThan].
  by rewrite Hq, orb_true_r.
Qed.

Lemma missing_lower sq (n : nat) :
  fits 16 sq -> Z.of_nat n <= MaxNackPackets ->
  Forall (fun q => IsSeqHigherThan 16 sq q = true) (missing sq n).
Proof.
  intros Hsq Hn. apply list.Forall_forall. intros q Hq.
  apply list_elem_of_fmap in Hq as (i & -> & Hi). apply elem_of_seq in Hi.
  rewrite IsSeqHigherThan_flip. apply IsSeqLowerThan_spec; [lia|apply uwrap_fits; lia|done|].
  left. unfold offset, uwrap. rewrite Zminus_mod_idemp_r.
  replace (sq - (sq - Z.of_nat n + Z.of_nat i)) with (Z.of_nat n - Z.of_nat i) by lia.
  unfold MaxNackPackets in *. change (2 ^ (16 - 1)) with 32768.
  rewrite Z.mod_small by (pow2_consts; lia). lia.
Qed.

(** When nothing is pending and no sending delay is configured, a packet that
    arrives after a gap of up to 1000 sequence numbers (also across the 16-bit
    wrap) makes the generator ask at once for exactly the sequence numbers of the
    gap that were not recovered, in order, and keep them pending with one retry. *)
Theorem gap_requested s nowMs sq (g : nat) isKeyFrame :
  inv s -> started s = true -> nackList s = [] -> sendNackDelayMs s = 0 ->
  fits 16 sq -> sq = u16 (lastSeq s + Z.of_nat g + 1) -> Z.of_nat g <= MaxNackPackets ->
  let lost := filter (fun q => find seq_lt id q (recoveredList s) = None) (missing sq g) in
  exists s', ReceivePacket s nowMs sq isKeyFrame false = Ok (false, s', notify_nacks lost) /\
             nackList s' = nacked_once nowMs <$> lost /\ lastSeq s' = sq.
Proof.
  intros Hinv Hst Hnil Hd Hsq Heq Hg lost. unfold ReceivePacket. rewrite Hst. cbn [negb].
  pose proof (inv_last _ Hinv) as Hlast. unfold MaxNackPackets in Hg.
  assert (Hj : offset 16 (lastSeq s) sq = Z.of_nat g + 1).
  { unfold offset. rewrite Heq. unfold uwrap. rewrite Zminus_mod_idemp_l.
    replace (lastSeq s + Z.of_nat g + 1 - lastSeq s) with (Z.of_nat g + 1) by lia.
    apply Z.mod_small. pow2_consts. lia. }
  assert (Hhigh : IsSeqLowerThan 16 (lastSeq s) sq = true).
  { apply IsSeqLowerThan_spec; [lia|done..|]. rewrite Hj. left.
    change (2 ^ (16 - 1)) with 32768. lia. }
  assert (Hne : sq <> lastSeq s)
    by (intros ->; by rewrite IsSeqLowerThan_irrefl in Hhigh).
  destruct (Z.eqb_spec sq (lastSeq s)); [done|].
  rewrite IsSeqLowerThan_total, Hhigh by (done || lia). cbn [negb]. unfold ReceivePacket_new.
  set (s1 := set_keyFrameList _ _).
  assert (Hs1 : inv s1 /\ lastSeq s1 = lastSeq s /\ nackList s1 = [] /\
                sendNackDelayMs s1 = 0 /\ recoveredList s1 = recoveredList s).
  { destruct isKeyFrame; (split; [|done]); destruct Hinv; by split. }
  destruct Hs1 as (Hinv1 & Hl1 & Hn1 & Hd1 & Hr1). clearbody s1.
  destruct (AddPackets_ok s1 nowMs sq (Z.of_nat g + 1)) as (kf & nl & n' & -> & _ & _ & Hfresh);
    [done|done| |pow2_consts; lia|].
  { rewrite Hl1, Heq. unfold uwrap. f_equal. lia. }
  destruct Hfresh as (-> & -> & ->); [done|lia|].
  replace (Z.to_nat (Z.of_nat g + 1 - 1)) with g by lia. rewrite Hr1. fold lost.
  cbn [mbind res_bind]. rewrite GetNackBatch_eq. cbn [nackList set_lastSeq set_nackList].
  rewrite nack_batch_fresh; [|done|].
  - eexists. split; [done|]. unfold MayRunTimer. by repeat case_match.
  - pose proof (missing_lower sq g Hsq Hg) as Hm. rewrite list.Forall_forall in Hm |- *.
    intros q Hq. apply list_elem_of_filter in Hq as [_ Hq]. by apply Hm.
Qed.

Lemma gap_requested_witness :
  let s := {| sendNackDelayMs := 0; nackList := []; keyFrameList := []; recoveredList := [65535];
              started := true; lastSeq := 65533; rtt := 100; timerActive := false |} in
  exists s', ReceivePacket s 7 1 false false = Ok (false, s', [NackRequired [65534; 0]]) /\
             nackList s' = [nacked_once 7 65534; nacked_once 7 0] /\ lastSeq s' = 1.
Proof.
  intros s. assert (Hlost : filter (fun q => find seq_lt id q (recoveredList s) = None)
                    (missing 1 3) = [65534; 0]) by reflexivity.
  pose proof (gap_requested s 7 1 3 false) as H. cbv zeta in H. rewrite Hlost in H.
  apply H; [|reflexivity|reflexivity|reflexivity|by vm_compute|reflexivity|by vm_compute].
  split; simpl; [by vm_compute|apply nacks_ok_nil|done|done].
Defined.

End NackGenerator.
