(* ===== verification/RateCalculator.v ===== *)
(** * RateCalculator: bytes over a sliding time window

    Models [worker/src/RTC/RateCalculator.cpp] and its header, and
    [worker/src/RTC/TrendCalculator.cpp] in a module of its own.  The window is
    a ring of items, each the bytes of one slice of time; [float] and [double]
    arithmetic is the IEEE 754 arithmetic of [SpecFloat] at 24 and 53 bits.

    The refinement below relates the ring to the samples it was given. *)

From Stdlib Require Import SpecFloat.
From S2P Require Import Prelude Utils.

Definition f32_of_Z (z : Z) : spec_float := binary_normalize 24 128 z 0 false.
Definition f32_half : spec_float := S754_finite false 8388608 (-24).

(** [static_cast<uint32_t>] of a floating point value. *)
Definition u32_of_float (x : spec_float) : res Z :=
  match x with
  | S754_zero _ => Ok 0
  | S754_finite _ _ _ =>
      let t := Time.sf_trunc x in
      if (0 <=? t) && (t <? 2 ^ 32) then Ok t else Fault BadConversion
  | _ => Fault BadConversion
  end.

Module RateCalculator.

Record BufferItem := { count : Z; time : Z }.

Record State := {
  windowSizeMs : Z;
  scale : spec_float;
  windowItems : Z;
  itemSizeMs : Z;
  buffer : list BufferItem;
  newestItemStartTime : Z;
  newestItemIndex : Z;
  oldestItemStartTime : Z;
  oldestItemIndex : Z;
  totalCount : Z;
  bytes : Z;
  lastRate : Z;
  lastTime : Z;
}.

Definition blank : BufferItem := {| count := 0; time := 0 |}.

Definition create (windowSize : Z) (sc : spec_float) (items : Z) : State :=
  {| windowSizeMs := windowSize; scale := sc; windowItems := items;
     itemSizeMs := Z.max (windowSize / items) 1;
     buffer := replicate (Z.to_nat items) blank;
     newestItemStartTime := 0; newestItemIndex := -1; oldestItemStartTime := 0;
     oldestItemIndex := -1; totalCount := 0; bytes := 0; lastRate := 0; lastTime := 0 |}.

(** [Reset]; the byte counter goes on. *)
Definition Reset (s : State) : State :=
  {| windowSizeMs := windowSizeMs s; scale := scale s; windowItems := windowItems s;
     itemSizeMs := itemSizeMs s; buffer := replicate (length (buffer s)) blank;
     newestItemStartTime := 0; newestItemIndex := -1; oldestItemStartTime := 0;
     oldestItemIndex := -1; totalCount := 0; bytes := bytes s; lastRate := 0;
     lastTime := 0 |}.

(** [buffer[i]], read and written. *)
Definition item_at (buf : list BufferItem) (i : Z) : res BufferItem :=
  if i <? 0 then Fault OutOfBounds
  else match buf !! Z.to_nat i with Some it => Ok it | None => Fault OutOfBounds end.

Definition set_item (buf : list BufferItem) (i : Z) (it : BufferItem) : res (list BufferItem) :=
  _ ← item_at buf i; mret (<[Z.to_nat i := it]> buf).

(** Index of the next item of the ring. *)
Definition next_index (items i : Z) : Z := if items <=? i + 1 then 0 else i + 1.

(** One turn of the loop of [RemoveOldData]. *)
Definition remove_oldest (s : State) : res State :=
  oldestItem ← item_at (buffer s) (oldestItemIndex s);
  buf ← set_item (buffer s) (oldestItemIndex s) blank;
  let i := next_index (windowItems s) (oldestItemIndex s) in
  newOldestItem ← item_at buf i;
  mret
    {| windowSizeMs := windowSizeMs s; scale := scale s; windowItems := windowItems s;
       itemSizeMs := itemSizeMs s; buffer := buf;
       newestItemStartTime := newestItemStartTime s; newestItemIndex := newestItemIndex s;
       oldestItemStartTime := time newOldestItem; oldestItemIndex := i;
       totalCount := u64 (totalCount s - count oldestItem); bytes := bytes s;
       lastRate := lastRate s; lastTime := lastTime s |}.

Fixpoint remove_loop (fuel : nat) (newOldestTime : Z) (s : State) : res State :=
  if oldestItemStartTime s <=? newOldestTime then
    match fuel with
    | O => Fault OutOfFuel
    | S fuel' => s' ← remove_oldest s; remove_loop fuel' newOldestTime s'
    end
  else Ok s.

Definition RemoveOldData (s : State) (nowMs : Z) : res State :=
  if (newestItemIndex s <? 0) || (oldestItemIndex s <? 0) then Ok s
  else
    let newOldestTime := u64 (nowMs - windowSizeMs s) in
    if newOldestTime <? oldestItemStartTime s then Ok s
    else if newestItemStartTime s <=? newOldestTime then Ok (Reset s)
    else remove_loop (length (buffer s)) newOldestTime s.

(** The part of [Update] that stores the data in an item: a new one when the
    newest one is full, else the newest one. *)
Definition store (s : State) (size nowMs : Z) : res State :=
  if (newestItemIndex s <? 0) || (itemSizeMs s <=? u64 (nowMs - newestItemStartTime s)) then
    let i := next_index (windowItems s) (newestItemIndex s) in
    _ ← ms_assert (negb (i =? oldestItemIndex s) || (oldestItemIndex s =? -1));
    buf ← set_item (buffer s) i {| count := size; time := nowMs |};
    mret
      {| windowSizeMs := windowSizeMs s; scale := scale s; windowItems := windowItems s;
         itemSizeMs := itemSizeMs s; buffer := buf; newestItemStartTime := nowMs;
         newestItemIndex := i; oldestItemStartTime := oldestItemStartTime s;
         oldestItemIndex := oldestItemIndex s; totalCount := totalCount s;
         bytes := bytes s; lastRate := lastRate s; lastTime := lastTime s |}
  else
    it ← item_at (buffer s) (newestItemIndex s);
    buf ← set_item (buffer s) (newestItemIndex s)
            {| count := u64 (count it + size); time := time it |};
    mret
      {| windowSizeMs := windowSizeMs s; scale := scale s; windowItems := windowItems s;
         itemSizeMs := itemSizeMs s; buffer := buf;
         newestItemStartTime := newestItemStartTime s; newestItemIndex := newestItemIndex s;
         oldestItemStartTime := oldestItemStartTime s; oldestItemIndex := oldestItemIndex s;
         totalCount := totalCount s; bytes := bytes s; lastRate := lastRate s;
         lastTime := lastTime s |}.

(** The end of [Update]: the oldest item, when not set, the total and the cache. *)
Definition account (s : State) (size nowMs : Z) : State :=
  let unset := oldestItemIndex s <? 0 in
  {| windowSizeMs := windowSizeMs s; scale := scale s; windowItems := windowItems s;
     itemSizeMs := itemSizeMs s; buffer := buffer s;
     newestItemStartTime := newestItemStartTime s; newestItemIndex := newestItemIndex s;
     oldestItemStartTime := if unset then nowMs else oldestItemStartTime s;
     oldestItemIndex := if unset then newestItemIndex s else oldestItemIndex s;
     totalCount := u64 (totalCount s + size); bytes := bytes s; lastRate := 0;
     lastTime := 0 |}.

Definition add_bytes (s : State) (size : Z) : State :=
  {| windowSizeMs := windowSizeMs s; scale := scale s; windowItems := windowItems s;
     itemSizeMs := itemSizeMs s; buffer := buffer s;
     newestItemStartTime := newestItemStartTime s; newestItemIndex := newestItemIndex s;
     oldestItemStartTime := oldestItemStartTime s; oldestItemIndex := oldestItemIndex s;
     totalCount := totalCount s; bytes := u64 (bytes s + size); lastRate := lastRate s;
     lastTime := lastTime s |}.

Definition Update (s : State) (size nowMs : Z) : res State :=
  if nowMs <? oldestItemStartTime s then Ok s
  else
    s ← RemoveOldData (add_bytes s size) nowMs;
    s ← store s size nowMs;
    mret (account s size nowMs).

(** [trunc(totalCount * (scale / windowSizeMs) + 0.5f)]. *)
Definition rate_of (s : State) : res Z :=
  let sc := SFdiv 24 128 (scale s) (f32_of_Z (windowSizeMs s)) in
  u32_of_float (SFadd 24 128 (SFmul 24 128 (f32_of_Z (totalCount s)) sc) f32_half).

Definition GetRate (s : State) (nowMs : Z) : res (Z * State) :=
  if nowMs =? lastTime s then Ok (lastRate s, s)
  else
    s ← RemoveOldData s nowMs;
    r ← rate_of s;
    mret (r,
      {| windowSizeMs := windowSizeMs s; scale := scale s; windowItems := windowItems s;
         itemSizeMs := itemSizeMs s; buffer := buffer s;
         newestItemStartTime := newestItemStartTime s; newestItemIndex := newestItemIndex s;
         oldestItemStartTime := oldestItemStartTime s; oldestItemIndex := oldestItemIndex s;
         totalCount := totalCount s; bytes := bytes s; lastRate := r; lastTime := nowMs |}).

Definition GetBytes (s : State) : Z := bytes s.

(** ** Specification: the samples of the window *)

(** A sample is the time and the size of an update; a slice is the start time of
    an item with the samples it accounts for. *)
Definition sample : Type := Z * Z.
Definition slice : Type := Z * list sample.

Definition sum_sizes (l : list sample) : Z := foldr (fun u a => u.2 + a) 0 l.
Definition samples (gs : list slice) : list sample := gs ≫= snd.

Definition item_of (g : slice) : BufferItem := {| count := u64 (sum_sizes g.2); time := g.1 |}.

(** Drop the slices that started at or before [t]. *)
Fixpoint prune (t : Z) (gs : list slice) : list slice :=
  match gs with
  | [] => []
  | g :: gs' => if g.1 <=? t then prune t gs' else gs
  end.

(** Add a sample to the last slice, or in a slice of its own. *)
Fixpoint add_sample (slice_len : Z) (u : sample) (gs : list slice) : list slice :=
  match gs with
  | [] => [(u.1, [u])]
  | [g] => if slice_len <=? u.1 - g.1 then [g; (u.1, [u])] else [(g.1, g.2 ++ [u])]
  | g :: gs' => g :: add_sample slice_len u gs'
  end.

Lemma sum_sizes_app l k : sum_sizes (l ++ k) = sum_sizes l + sum_sizes k.
Proof. induction l; simpl; lia. Qed.

Lemma samples_app gs hs : samples (gs ++ hs) = samples gs ++ samples hs.
Proof. apply bind_app. Qed.

Lemma add_sample_snoc w u gs g :
  add_sample w u (gs ++ [g]) =
  if w <=? u.1 - g.1 then gs ++ [g; (u.1, [u])] else gs ++ [(g.1, g.2 ++ [u])].
Proof.
  induction gs as [|h gs IH]; [done|]. simpl.
  destruct (gs ++ [g]) as [|x xs] eqn:Eq; [by destruct gs|]. rewrite IH. by case_match.
Qed.

Lemma samples_add w u gs : samples (add_sample w u gs) = samples gs ++ [u].
Proof.
  destruct gs as [|g gs _] using rev_ind; [done|]. rewrite add_sample_snoc.
  case_match; rewrite !samples_app; simpl; rewrite ?app_nil_r, <- ?app_assoc; done.
Qed.

(** The slices as the calculator builds them: each starts at least [w] after the
    one before it and holds samples of the [w] milliseconds from its start. *)
Definition spaced (w : Z) (gs : list slice) : Prop :=
  StronglySorted (fun a b : slice => a.1 + w <= b.1) gs.

Definition slice_ok (w now : Z) (g : slice) : Prop :=
  0 < g.1 <= now /\ Forall (fun u => g.1 <= u.1 < g.1 + w) g.2.

Lemma prune_suffix t gs : exists out, gs = out ++ prune t gs /\ Forall (fun g => g.1 <= t) out.
Proof.
  induction gs as [|g gs (out & Heq & Hout)]; simpl; [by exists []|].
  case_cmp; [|by exists []]. exists (g :: out). split; [simpl; by f_equal|by constructor].
Qed.

Lemma prune_recent w t gs :
  0 <= w -> spaced w gs -> Forall (fun g => t < g.1) (prune t gs).
Proof.
  intros Hw. induction 1 as [|g gs _ IH Hg]; simpl; [constructor|].
  case_cmp; [done|]. constructor; [done|]. eapply List.Forall_impl; [|exact Hg]. simpl. lia.
Qed.

Lemma spaced_app w gs hs : spaced w (gs ++ hs) -> spaced w gs /\ spaced w hs.
Proof.
  induction gs as [|g gs IH]; simpl; [intros; split; [constructor|done]|].
  intros H. inversion H as [|? ? Hs Hg]; subst. destruct (IH Hs) as [? ?].
  apply Forall_app in Hg as [? ?]. split; [by constructor|done].
Qed.

Lemma spaced_snoc w gs u :
  spaced w gs -> Forall (fun g : slice => g.1 + w <= u.1) gs -> spaced w (gs ++ [u]).
Proof.
  induction 1 as [|g gs Hs IH Hg]; simpl; intros Hu; [repeat constructor|].
  apply list.Forall_cons in Hu as [Hu1 Hu]. constructor; [by apply IH|].
  apply Forall_app. split; [done|by repeat constructor].
Qed.

(** [n] slices span at least [n - 1] slice lengths. *)
Lemma spaced_span w gs g t :
  0 <= w -> spaced w (gs ++ [g]) -> Forall (fun h => t < h.1) (gs ++ [g]) ->
  t + 1 + zlen gs * w <= g.1.
Proof.
  intros Hw. revert t. induction gs as [|h gs IH]; intros t Hs Ht; cbn [app] in *.
  - apply list.Forall_cons in Ht as [Ht _]. change (zlen []) with 0. lia.
  - inversion Hs as [|? ? Hs' Hh]; subst. apply list.Forall_cons in Ht as [Ht _].
    specialize (IH (h.1 + w - 1) Hs'). rewrite zlen_cons.
    assert (h.1 + w - 1 + 1 + zlen gs * w <= g.1); [|lia].
    apply IH. eapply List.Forall_impl; [|exact Hh]. simpl. lia.
Qed.

(** Every slice of the list is at least one slice length before a new one. *)
Lemma spaced_last w gs g x :
  0 <= w -> spaced w (gs ++ [g]) -> g.1 + w <= x ->
  Forall (fun h : slice => h.1 + w <= x) (gs ++ [g]).
Proof.
  intros Hw Hs Hx. induction gs as [|h gs IH]; simpl in *; [by repeat constructor|].
  inversion Hs as [|? ? Hs' Hh]; subst. constructor; [|by apply IH].
  apply Forall_app in Hh as [_ Hh]. apply list.Forall_cons in Hh as [Hh _]. simpl in Hh. lia.
Qed.

Lemma prune_idem t gs : Forall (fun g => t < g.1) gs -> prune t gs = gs.
Proof. destruct 1; simpl; [done|]. case_cmp; [lia|done]. Qed.

Lemma prune_all t gs : Forall (fun g => g.1 <= t) gs -> prune t gs = [].
Proof. induction 1; simpl; [done|]. case_cmp; [done|lia]. Qed.

(** ** The ring represents the slices *)

Definition cell (s : State) (i : nat) : Z := (oldestItemIndex s + Z.of_nat i) mod windowItems s.

Record ring (s : State) (gs : list slice) : Prop := {
  ring_len : zlen (buffer s) = windowItems s;
  ring_pos : 0 < windowItems s;
  ring_fit : zlen gs <= windowItems s;
  ring_items : forall i g, gs !! i = Some g ->
                 buffer s !! Z.to_nat (cell s i) = Some (item_of g);
  ring_total : totalCount s = u64 (sum_sizes (samples gs));
  ring_oldest : match gs with
                | [] => oldestItemIndex s = -1 /\ newestItemIndex s = -1 /\
                        oldestItemStartTime s = 0
                | g :: _ => 0 <= oldestItemIndex s < windowItems s /\
                            oldestItemStartTime s = g.1
                end;
  ring_newest : forall g, list.last gs = Some g ->
                  newestItemIndex s = cell s (pred (length gs)) /\ newestItemStartTime s = g.1;
}.

(** What pruning leaves alone. *)
Record same_conf (s s' : State) : Prop := {
  conf_size : windowSizeMs s' = windowSizeMs s;
  conf_scale : scale s' = scale s;
  conf_items : windowItems s' = windowItems s;
  conf_item_size : itemSizeMs s' = itemSizeMs s;
  conf_bytes : bytes s' = bytes s;
}.

#[local] Instance same_conf_preorder : PreOrder same_conf.
Proof. split; [by split|]. intros x y z [] []. split; congruence. Qed.

Lemma cell_range s i : 0 < windowItems s -> 0 <= cell s i < windowItems s.
Proof. apply Z.mod_pos_bound. Qed.

Lemma cell_inj s i j :
  0 < windowItems s -> Z.of_nat i < windowItems s -> Z.of_nat j < windowItems s ->
  cell s i = cell s j -> i = j.
Proof.
  unfold cell. intros Hn Hi Hj Heq.
  assert (H0 : (Z.of_nat i - Z.of_nat j) mod windowItems s = 0).
  { replace (Z.of_nat i - Z.of_nat j) with
      ((oldestItemIndex s + Z.of_nat i) - (oldestItemIndex s + Z.of_nat j)) by lia.
    rewrite Zminus_mod, Heq, Z.sub_diag. apply Z.mod_0_l. lia. }
  apply Z.mod_divide in H0 as [q Hq]; [|lia]. assert (q = 0) by nia. lia.
Qed.

Lemma cell_0 s : 0 <= oldestItemIndex s < windowItems s -> cell s 0 = oldestItemIndex s.
Proof. intros H. unfold cell. rewrite Z.add_0_r. by apply Z.mod_small. Qed.

Lemma next_index_mod n i : 0 <= i < n -> next_index n i = (i + 1) mod n.
Proof.
  intros H. unfold next_index. case_cmp.
  - replace (i + 1) with n by lia. symmetry. apply Z.mod_same. lia.
  - symmetry. apply Z.mod_small. lia.
Qed.

Lemma next_cell s i : 0 < windowItems s -> next_index (windowItems s) (cell s i) = cell s (S i).
Proof.
  intros H. rewrite next_index_mod by (by apply cell_range). unfold cell.
  rewrite Zplus_mod_idemp_l. f_equal. lia.
Qed.

Lemma item_at_ok buf i it : 0 <= i -> buf !! Z.to_nat i = Some it -> item_at buf i = Ok it.
Proof. intros Hi H. unfold item_at. rewrite H. by case_cmp; [lia|]. Qed.

Lemma set_item_ok buf i it : 0 <= i < zlen buf -> set_item buf i it = Ok (<[Z.to_nat i := it]> buf).
Proof.
  intros Hi. unfold set_item. destruct (lookup_lt_is_Some_2 buf (Z.to_nat i)) as [x Hx].
  { unfold zlen in Hi. lia. }
  by rewrite (item_at_ok _ _ x) by (done || lia).
Qed.

Lemma remove_oldest_ok s g h gs :
  ring s (g :: h :: gs) ->
  exists s', remove_oldest s = Ok s' /\ ring s' (h :: gs) /\ same_conf s s'.
Proof.
  intros [Hlen Hpos Hfit Hit Htot [Ho Hot] Hnew]. rewrite zlen_cons, zlen_cons in Hfit.
  pose proof (zlen_nonneg gs). unfold remove_oldest.
  pose proof (cell_0 s Ho) as H0. pose proof (Hit 0%nat g eq_refl) as Hg.
  pose proof (Hit 1%nat h eq_refl) as Hh. rewrite H0 in Hg.
  assert (Hn : next_index (windowItems s) (oldestItemIndex s) = cell s 1).
  { rewrite <- H0 at 1. by apply next_cell. }
  rewrite (item_at_ok _ _ _ (proj1 Ho) Hg). cbn [mbind res_bind].
  rewrite set_item_ok by lia. cbn [mbind res_bind]. rewrite Hn.
  pose proof (cell_range s 1 Hpos).
  assert (Hkeep : forall i g', (h :: gs) !! i = Some g' ->
    <[Z.to_nat (oldestItemIndex s):=blank]> (buffer s) !! Z.to_nat (cell s (S i)) =
      Some (item_of g')).
  { intros i g' Hi. rewrite list_lookup_insert_ne; [by apply Hit|].
    intros Heq. apply Z2Nat.inj in Heq; [|lia|by apply cell_range].
    rewrite <- H0 in Heq. apply lookup_lt_Some in Hi. simpl in Hi. unfold zlen in *.
    apply cell_inj in Heq; lia. }
  rewrite (item_at_ok _ _ (item_of h)) by (by apply (Hkeep 0%nat) || lia).
  cbn [mbind res_bind mret res_ret]. eexists. split; [done|]. split; [|by split].
  assert (Hcell : forall i, (cell s 1 + Z.of_nat i) mod windowItems s = cell s (S i)).
  { intros i. unfold cell. rewrite Zplus_mod_idemp_l. f_equal. lia. }
  split; simpl.
  - unfold zlen in *. by rewrite length_insert.
  - done.
  - rewrite zlen_cons. lia.
  - intros i g' Hi. unfold cell at 1; simpl. rewrite Hcell. by apply Hkeep.
  - rewrite Htot. simpl. rewrite sum_sizes_app. unfold uwrap.
    rewrite <- Zminus_mod. f_equal. lia.
  - split; [done|]. done.
  - intros g' Hl. destruct (Hnew g' Hl) as [-> ->]. split; [|done].
    unfold cell at 2; simpl. by rewrite Hcell.
Qed.

Lemma rate_remove_loop_ok t : forall gs fuel s g,
  ring s gs -> list.last gs = Some g -> t < g.1 -> (length gs <= fuel)%nat ->
  exists s', remove_loop fuel t s = Ok s' /\ ring s' (prune t gs) /\ same_conf s s'.
Proof.
  induction gs as [|h gs IH]; intros fuel s g Hr Hl Hg Hf; [done|].
  pose proof (ring_oldest _ _ Hr) as [Ho Hot].
  destruct fuel as [|fuel]; [simpl in Hf; lia|]. cbn [remove_loop prune]. rewrite Hot.
  destruct (Z.leb_spec h.1 t); [|by exists s; split_and!; [done..|reflexivity]].
  destruct gs as [|h' gs]; [simpl in Hl; simplify_eq; lia|].
  destruct (remove_oldest_ok s h h' gs Hr) as (s1 & -> & Hr1 & Hc1). cbn [mbind res_bind].
  destruct (IH fuel s1 g Hr1) as (s2 & -> & Hr2 & Hc2); [done|done|simpl in *; lia|].
  exists s2. split_and!; [done|done|by transitivity s1].
Qed.

Lemma Reset_ok s gs : ring s gs -> ring (Reset s) [] /\ same_conf s (Reset s).
Proof.
  intros []. split; [|by split]. split; simpl; try done.
  - unfold zlen in *. by rewrite length_replicate.
  - rewrite zlen_nil. lia.
Qed.

(** [RemoveOldData] keeps the slices that started after [nowMs - windowSizeMs]. *)
Lemma RemoveOldData_ok s gs w nowMs :
  ring s gs -> 0 <= w -> spaced w gs ->
  0 <= windowSizeMs s <= nowMs -> fits 64 nowMs ->
  exists s', RemoveOldData s nowMs = Ok s' /\
             ring s' (prune (nowMs - windowSizeMs s) gs) /\ same_conf s s'.
Proof.
  intros Hr Hw Hsp Hnow Hfit. unfold RemoveOldData.
  assert (Ht : u64 (nowMs - windowSizeMs s) = nowMs - windowSizeMs s)
    by (apply uwrap_id; unfold fits in *; lia).
  cbn zeta. rewrite Ht. set (t := nowMs - windowSizeMs s).
  destruct gs as [|g gs0] eqn:Egs.
  { destruct (ring_oldest _ _ Hr) as (H1 & H2 & _). rewrite H2. exists s.
    split_and!; [done|done|reflexivity]. }
  rewrite <- Egs in *. destruct (list.last gs) as [l|] eqn:El;
    [|apply last_None in El; congruence].
  assert (Ho : 0 <= oldestItemIndex s < windowItems s /\ oldestItemStartTime s = g.1)
    by (pose proof (ring_oldest _ _ Hr) as Ho; by rewrite Egs in Ho).
  destruct Ho as [Ho Hot].
  destruct (ring_newest _ _ Hr l El) as [Hni Hnt].
  pose proof (cell_range s (pred (length gs)) (ring_pos _ _ Hr)).
  rewrite (proj2 (Z.ltb_ge (newestItemIndex s) 0)) by lia.
  rewrite (proj2 (Z.ltb_ge (oldestItemIndex s) 0)) by lia. cbn [orb]. rewrite Hot, Hnt.
  destruct (Z.ltb_spec t g.1).
  { exists s. split_and!; [done| |reflexivity]. rewrite Egs. cbn [prune].
    destruct (Z.leb_spec g.1 t); [lia|]. by rewrite <- Egs. }
  destruct (Z.leb_spec l.1 t).
  - eexists. split; [done|]. rewrite prune_all; [by eapply Reset_ok|].
    apply last_Some in El as (gs' & Hgs'). rewrite Hgs' in Hsp |- *.
    eapply List.Forall_impl; [|apply (spaced_last w gs' l (l.1 + w)); [done|done|lia]].
    simpl. lia.
  - eapply rate_remove_loop_ok; [done|done|done|].
    pose proof (ring_fit _ _ Hr). rewrite <- (ring_len _ _ Hr) in *. unfold zlen in *. lia.
Qed.

(** The first sample of an empty ring. *)
Lemma store_first s size nowMs :
  ring s [] -> fits 64 size ->
  exists s1, store s size nowMs = Ok s1 /\
    ring (account s1 size nowMs) [(nowMs, [(nowMs, size)])] /\
    same_conf s (account s1 size nowMs).
Proof.
  intros [Hlen Hpos _ _ Htot (Ho & Hn & Hot) _] Hsz. unfold store. rewrite Hn, Ho. cbn [orb Z.ltb].
  assert (Hni : next_index (windowItems s) (-1) = 0).
  { unfold next_index. by case_cmp. }
  rewrite Hni. cbn -[set_item]. rewrite set_item_ok by lia. cbn [mbind res_bind].
  eexists. split; [done|]. split; [|by split]. unfold account; cbn. split; cbn.
  - unfold zlen in *. by rewrite length_insert.
  - done.
  - change (zlen [(nowMs, [(nowMs, size)])]) with 1. lia.
  - intros [|i] g Hg; simplify_eq/=. unfold cell. cbn. rewrite Z.mod_0_l by lia.
    rewrite list_lookup_insert_eq by (unfold zlen in *; lia). f_equal. unfold item_of; cbn.
    by rewrite Z.add_0_r, (uwrap_id 64 size).
  - rewrite Htot. cbn. by rewrite Z.add_0_r.
  - lia.
  - intros g Hg. simplify_eq. split; [|done]. unfold cell. cbn. by rewrite Z.mod_0_l by lia.
Qed.

(** A sample in an item of its own. *)
Lemma store_new s gs g size nowMs :
  ring s (gs ++ [g]) -> fits 64 size -> fits 64 nowMs -> 0 <= g.1 ->
  itemSizeMs s <= nowMs - g.1 -> 0 <= itemSizeMs s -> zlen (gs ++ [g]) < windowItems s ->
  exists s1, store s size nowMs = Ok s1 /\
    ring (account s1 size nowMs) ((gs ++ [g]) ++ [(nowMs, [(nowMs, size)])]) /\
    same_conf s (account s1 size nowMs).
Proof.
  intros [Hlen Hpos Hfit Hit Htot Hold Hnew] Hsz Hnow Hg0 Hw Hw0 Hcap.
  destruct (Hnew g) as [Hni Hnt]; [by rewrite last_snoc|].
  assert (Ho : 0 <= oldestItemIndex s < windowItems s /\
               oldestItemStartTime s = default 0 (fst <$> head (gs ++ [g]))).
  { by destruct gs. }
  destruct Ho as [Ho Hot]. clear Hold.
  replace (pred (length (gs ++ [g]))) with (length gs) in Hni
    by (rewrite length_app; simpl; lia).
  pose proof (cell_range s (length gs) Hpos) as Hcr. unfold store. rewrite Hnt.
  rewrite (proj2 (Z.ltb_ge _ 0)), uwrap_id by (unfold fits in *; lia).
  rewrite (proj2 (Z.leb_le _ _) Hw). cbn [orb]. rewrite Hni, next_cell by done.
  set (c := cell s (S (length gs))).
  pose proof (cell_range s (S (length gs)) Hpos) as Hcr'. fold c in Hcr'.
  rewrite zlen_app, zlen_cons, zlen_nil in Hcap.
  assert (Hc : forall i, (i < S (length gs))%nat -> cell s i <> c).
  { intros i Hi Heq. apply cell_inj in Heq; unfold zlen in *; lia. }
  rewrite (proj2 (Z.eqb_neq c (oldestItemIndex s)))
    by (rewrite <- (cell_0 s Ho); apply not_eq_sym, Hc; lia).
  cbn [negb orb ms_assert mbind res_bind]. rewrite set_item_ok by lia.
  cbn [mbind res_bind]. eexists. split; [done|]. split; [|by split].
  unfold account; cbn. rewrite (proj2 (Z.ltb_ge (oldestItemIndex s) 0)) by lia. split; cbn.
  - unfold zlen in *. by rewrite length_insert.
  - done.
  - rewrite !zlen_app, !zlen_cons. change (zlen []) with 0. lia.
  - intros i x Hi. unfold cell; cbn.
    fold (cell s i). apply lookup_app_Some in Hi as [Hi|[Hi1 Hi2]].
    + pose proof (lookup_lt_Some _ _ _ Hi) as Hlt. rewrite length_app in Hlt; simpl in Hlt.
      rewrite list_lookup_insert_ne; [by apply Hit|]. intros Heq.
      apply Z2Nat.inj in Heq; [|lia|by apply cell_range]. symmetry in Heq.
      revert Heq. apply Hc. lia.
    + rewrite length_app in Hi1, Hi2; simpl in Hi1, Hi2.
      assert (i = S (length gs)) as ->.
      { apply lookup_lt_Some in Hi2. simpl in Hi2. lia. }
      replace (S (length gs) - (length gs + 1))%nat with 0%nat in Hi2 by lia. simplify_eq/=.
      fold c. rewrite list_lookup_insert_eq by (unfold zlen in *; lia).
      unfold item_of; cbn. by rewrite Z.add_0_r, (uwrap_id 64 size).
  - rewrite Htot, (samples_app (gs ++ [g])), (sum_sizes_app (samples (gs ++ [g]))). cbn.
    unfold uwrap. rewrite Zplus_mod_idemp_l. f_equal. lia.
  - destruct gs; by split.
  - intros x Hx. rewrite last_snoc in Hx. simplify_eq/=.
    split; [|done]. unfold c, cell; cbn. do 2 f_equal. rewrite !length_app. simpl. lia.
Qed.

(** A sample in the newest item. *)
Lemma store_same s gs g size nowMs :
  ring s (gs ++ [g]) -> fits 64 nowMs -> 0 <= g.1 <= nowMs ->
  nowMs - g.1 < itemSizeMs s ->
  exists s1, store s size nowMs = Ok s1 /\
    ring (account s1 size nowMs) (gs ++ [(g.1, g.2 ++ [(nowMs, size)])]) /\
    same_conf s (account s1 size nowMs).
Proof.
  intros [Hlen Hpos Hfit Hit Htot Hold Hnew] Hnow Hg0 Hw.
  destruct (Hnew g) as [Hni Hnt]; [by rewrite last_snoc|].
  assert (Ho : 0 <= oldestItemIndex s < windowItems s /\
               oldestItemStartTime s = default 0 (fst <$> head (gs ++ [g]))) by (by destruct gs).
  destruct Ho as [Ho Hot]. clear Hold. rewrite zlen_app, zlen_cons, zlen_nil in Hfit.
  replace (pred (length (gs ++ [g]))) with (length gs) in Hni by (rewrite length_app; simpl; lia).
  pose proof (cell_range s (length gs) Hpos) as Hcr. unfold store. rewrite Hnt.
  rewrite (proj2 (Z.ltb_ge _ 0)), uwrap_id by (unfold fits in *; lia).
  rewrite (proj2 (Z.leb_gt _ _) Hw). cbn [orb]. rewrite Hni.
  rewrite (item_at_ok _ _ (item_of g)) by (apply Hcr || by apply Hit, list_lookup_middle).
  cbn [mbind res_bind]. rewrite set_item_ok by lia. cbn [mbind res_bind].
  eexists. split; [done|]. split; [|by split].
  unfold account; cbn. rewrite (proj2 (Z.ltb_ge (oldestItemIndex s) 0)) by lia. split; cbn.
  - unfold zlen in *. by rewrite length_insert.
  - done.
  - rewrite zlen_app, zlen_cons. change (zlen []) with 0. lia.
  - intros i x Hi. unfold cell; cbn. fold (cell s i) (cell s (length gs)).
    apply lookup_app_Some in Hi as [Hi|[Hi1 Hi2]].
    + pose proof (lookup_lt_Some _ _ _ Hi) as Hlt.
      rewrite list_lookup_insert_ne; [by apply Hit, lookup_app_l_Some|]. intros Heq.
      apply Z2Nat.inj in Heq; [|lia|by apply cell_range].
      apply cell_inj in Heq; unfold zlen in *; lia.
    + assert (i = length gs) as -> by (apply lookup_lt_Some in Hi2; simpl in Hi2; lia).
      rewrite Nat.sub_diag in Hi2. simplify_eq/=.
      rewrite list_lookup_insert_eq by (unfold zlen in *; lia).
      unfold item_of; cbn. rewrite sum_sizes_app. cbn. do 2 f_equal. unfold uwrap.
      rewrite Zplus_mod_idemp_l. f_equal. lia.
  - rewrite Htot, !samples_app, !sum_sizes_app. cbn. rewrite !app_nil_r, sum_sizes_app. cbn.
    unfold uwrap. rewrite Zplus_mod_idemp_l. f_equal. fold (sum_sizes g.2). lia.
  - destruct gs; by split.
  - intros x Hx. rewrite last_snoc in Hx. simplify_eq/=. split; [|done].
    unfold cell; cbn. do 2 f_equal. rewrite length_app. simpl. lia.
Qed.

(** The slices fit: when the newest one is full there is room for one more. *)
Lemma slices_fit w W now gs g :
  0 < w -> spaced w (gs ++ [g]) -> Forall (fun h => now - W < h.1) (gs ++ [g]) ->
  w <= now - g.1 -> zlen (gs ++ [g]) * w < W.
Proof.
  intros Hw Hs Ht Hg. pose proof (spaced_span w gs g (now - W) ltac:(lia) Hs Ht).
  rewrite zlen_app, zlen_cons, zlen_nil. lia.
Qed.

(** A configuration the ring can serve: the items cover the window. *)
Definition covers (s : State) : Prop :=
  0 < itemSizeMs s /\ 0 < windowSizeMs s <= windowItems s * itemSizeMs s.

(** The state after a history [H] of samples whose last time was at most [now]:
    the ring represents the last samples, the ones dropped are old. *)
Record tracks (s : State) (now : Z) (H : list sample) (gs : list slice) : Prop := {
  tr_ring : ring s gs;
  tr_covers : covers s;
  tr_spaced : spaced (itemSizeMs s) gs;
  tr_slices : Forall (slice_ok (itemSizeMs s) now) gs;
  tr_bytes : bytes s = u64 (sum_sizes H);
  tr_history : exists dropped, H = dropped ++ samples gs /\
    Forall (fun u => u.1 < now - windowSizeMs s + itemSizeMs s) dropped;
  tr_cache : lastTime s = 0 \/
    rate_of s = Ok (lastRate s) /\ Forall (fun g => lastTime s - windowSizeMs s < g.1) gs;
}.

Lemma same_conf_covers s s' : same_conf s s' -> covers s -> covers s'.
Proof. intros [H1 H2 H3 H4 H5]. unfold covers. by rewrite H1, H3, H4. Qed.

(** Pruning at a later time keeps track of the history. *)
Lemma prune_history w W now now' (H : list sample) gs :
  0 < w -> now <= now' -> spaced w gs -> Forall (slice_ok w now) gs ->
  (exists dropped, H = dropped ++ samples gs /\
     Forall (fun u : sample => u.1 < now - W + w) dropped) ->
  exists dropped, H = dropped ++ samples (prune (now' - W) gs) /\
     Forall (fun u : sample => u.1 < now' - W + w) dropped.
Proof.
  intros Hw Hnow Hs Hok (dropped & Heq & Hd).
  destruct (prune_suffix (now' - W) gs) as (out & Hgs & Hout).
  exists (dropped ++ samples out). split.
  - rewrite Heq, Hgs at 1. by rewrite samples_app, app_assoc.
  - apply Forall_app. split; [eapply List.Forall_impl; [|exact Hd]; simpl; lia|].
    rewrite Hgs in Hok. apply Forall_app in Hok as [Hok _].
    apply list.Forall_forall. intros u Hu. apply list_elem_of_bind in Hu as (g & Hu & Hg).
    rewrite list.Forall_forall in Hout, Hok. specialize (Hout g Hg). simpl in Hout.
    destruct (Hok g Hg) as [_ Hsm]. rewrite list.Forall_forall in Hsm.
    specialize (Hsm u Hu). simpl in Hsm. lia.
Qed.

Lemma prune_keeps (P : slice -> Prop) t gs : Forall P gs -> Forall P (prune t gs).
Proof.
  intros H. destruct (prune_suffix t gs) as (out & Hgs & _).
  rewrite Hgs in H. by apply Forall_app in H as [_ H].
Qed.

Lemma prune_spaced w t gs : spaced w gs -> spaced w (prune t gs).
Proof.
  intros H. destruct (prune_suffix t gs) as (out & Hgs & _).
  rewrite Hgs in H. by apply spaced_app in H as [_ H].
Qed.

Lemma add_sample_spaced w u gs :
  0 < w -> spaced w gs -> spaced w (add_sample w u gs).
Proof.
  intros Hw Hs. destruct gs as [|g gs _] using rev_ind; [repeat constructor|].
  rewrite add_sample_snoc. case_cmp.
  - rewrite (app_assoc gs [g] [_] : gs ++ [g; _] = _). apply spaced_snoc; [done|].
    simpl. apply spaced_last; [lia|done|lia].
  - apply spaced_app in Hs as Hs'. destruct Hs' as [Hs' _]. apply spaced_snoc; [done|].
    clear Hs'. induction gs as [|h gs IH]; [constructor|].
    inversion Hs as [|? ? Hs' Hh]; subst. constructor; [|by apply IH].
    apply Forall_app in Hh as [_ Hh]. by apply list.Forall_cons in Hh as [Hh _].
Qed.

Lemma add_sample_ok w now now' size gs :
  0 < w -> 0 < now' -> now <= now' -> Forall (slice_ok w now) gs ->
  Forall (slice_ok w now') (add_sample w (now', size) gs).
Proof.
  intros Hw Hpos Hnow Hok.
  assert (Hok' : Forall (slice_ok w now') gs).
  { eapply List.Forall_impl; [|exact Hok]. intros g [H1 H2]. split; [lia|done]. }
  assert (Hnew : slice_ok w now' (now', [(now', size)])).
  { split; [simpl; lia|]. repeat constructor; simpl; lia. }
  destruct gs as [|g gs _] using rev_ind; [constructor; [exact Hnew|constructor]|].
  rewrite add_sample_snoc. apply Forall_app in Hok' as [H1 H2].
  apply list.Forall_cons in H2 as [[H2 H3] _]. simpl in *. case_cmp; apply Forall_app.
  - split; [done|]. constructor; [by split|]. constructor; [exact Hnew|constructor].
  - split; [done|]. constructor; [|constructor]. split; [simpl; lia|]. simpl.
    apply Forall_app. split; [done|]. constructor; [simpl; lia|constructor].
Qed.

Lemma add_sample_recent w t u gs :
  t < u.1 -> Forall (fun g => t < g.1) gs -> Forall (fun g => t < g.1) (add_sample w u gs).
Proof.
  intros Hu Hgs. destruct gs as [|g gs _] using rev_ind; [by repeat constructor|].
  rewrite add_sample_snoc. apply Forall_app in Hgs as [H1 H2].
  apply list.Forall_cons in H2 as [H2 _]. case_cmp; apply Forall_app; split; by repeat constructor.
Qed.

(** [store] and [account] on slices that were pruned at [nowMs]. *)
Lemma rate_store_ok s gs size now nowMs :
  ring s gs -> covers s -> spaced (itemSizeMs s) gs -> Forall (slice_ok (itemSizeMs s) now) gs ->
  Forall (fun g => nowMs - windowSizeMs s < g.1) gs ->
  now <= nowMs -> fits 64 nowMs -> fits 64 size ->
  exists s1, store s size nowMs = Ok s1 /\
    ring (account s1 size nowMs) (add_sample (itemSizeMs s) (nowMs, size) gs) /\
    same_conf s (account s1 size nowMs).
Proof.
  intros Hr [Hw Hcov] Hsp Hok Hrec Hnow Hfit Hsz.
  destruct gs as [|g gs _] using rev_ind; [by apply store_first|]. rewrite add_sample_snoc.
  apply Forall_app in Hok as [_ Hg]. apply list.Forall_cons in Hg as [[Hg _] _].
  simpl. case_cmp.
  - pose proof (slices_fit _ _ _ _ _ Hw Hsp Hrec ltac:(done)) as Hcap.
    destruct (store_new s gs g size nowMs) as (s1 & H1 & H2 & H3);
      [done|done|done|lia|lia|lia|nia|].
    rewrite <- app_assoc in H2. eauto.
  - apply store_same; [done|done|lia|lia].
Qed.

(** [Update] refines pruning and adding the sample. *)
Lemma Update_tracks s now H gs size nowMs :
  tracks s now H gs -> now <= nowMs -> windowSizeMs s <= nowMs -> fits 64 nowMs -> fits 64 size ->
  let gs' := add_sample (itemSizeMs s) (nowMs, size) (prune (nowMs - windowSizeMs s) gs) in
  exists s', Update s size nowMs = Ok s' /\ tracks s' nowMs (H ++ [(nowMs, size)]) gs' /\
    same_conf (add_bytes s size) s' /\ Forall (fun g => nowMs - windowSizeMs s < g.1) gs'.
Proof.
  intros [Hr Hcov Hsp Hok Hb Hh _] Hnow HW Hfit Hsz gs'. unfold Update.
  destruct Hcov as [Hw Hcov]. 
  assert (Hold : oldestItemStartTime s <= nowMs).
  { pose proof (ring_oldest _ _ Hr) as Ho. destruct gs as [|g gs0]; [lia|].
    apply list.Forall_cons in Hok as [[Hg _] _]. lia. }
  rewrite (proj2 (Z.ltb_ge _ _) Hold).
  assert (Hr0 : ring (add_bytes s size) gs) by (destruct Hr; by split).
  destruct (RemoveOldData_ok _ gs (itemSizeMs s) nowMs Hr0) as (s1 & -> & Hr1 & Hc1);
    [lia|done|simpl; lia|done|]. cbn [mbind res_bind]. cbn [windowSizeMs add_bytes] in Hr1.
  pose proof (conf_size _ _ Hc1) as Hcs. pose proof (conf_item_size _ _ Hc1) as Hci.
  pose proof (conf_bytes _ _ Hc1) as Hcb. simpl in Hcs, Hci, Hcb.
  set (ps := prune (nowMs - windowSizeMs s) gs) in *.
  assert (Hrec : Forall (fun g => nowMs - windowSizeMs s < g.1) ps)
    by (eapply prune_recent; [|exact Hsp]; lia).
  assert (Hcov1 : covers s1) by (eapply same_conf_covers; [exact Hc1|done]).
  destruct (rate_store_ok s1 ps size now nowMs) as (s2 & -> & Hr2 & Hc2); try done;
    [rewrite Hci; by apply prune_spaced|rewrite Hci; by apply prune_keeps|by rewrite Hcs|].
  cbn [mbind res_bind]. eexists. split; [done|].
  pose proof (conf_size _ _ Hc2) as Hcs2. pose proof (conf_item_size _ _ Hc2) as Hci2.
  pose proof (conf_bytes _ _ Hc2) as Hcb2. rewrite Hci in Hr2, Hci2. rewrite Hcs in Hcs2.
  split; [split|].
  - exact Hr2.
  - by eapply same_conf_covers.
  - rewrite Hci2. apply add_sample_spaced; [done|by apply prune_spaced].
  - rewrite Hci2. apply (add_sample_ok _ now); [done|lia|done|by apply prune_keeps].
  - rewrite Hcb2, Hcb, Hb, sum_sizes_app. unfold uwrap. rewrite Zplus_mod_idemp_l.
    f_equal. simpl. lia.
  - rewrite Hcs2, Hci2.
    destruct (prune_history _ (windowSizeMs s) _ nowMs _ _ Hw Hnow Hsp Hok Hh) as (d & Hd1 & Hd2).
    exists d. split; [|done]. unfold gs'. by rewrite samples_add, Hd1, app_assoc.
  - by left.
  - split; [by transitivity s1|]. apply add_sample_recent; [simpl; lia|done].
Qed.

Lemma rate_of_fault s f : rate_of s = Fault f -> f = BadConversion.
Proof. unfold rate_of, u32_of_float. intros H. repeat case_match; congruence. Qed.

Lemma rate_of_conf s s' :
  same_conf s s' -> totalCount s' = totalCount s -> rate_of s' = rate_of s.
Proof. intros [H1 H2 _ _ _] Ht. unfold rate_of. by rewrite H1, H2, Ht. Qed.

(** [GetRate] prunes; the rate, cached or not, is that of the samples that remain. *)
Lemma GetRate_tracks s now H gs nowMs :
  tracks s now H gs -> now <= nowMs -> windowSizeMs s <= nowMs -> fits 64 nowMs ->
  let gs' := prune (nowMs - windowSizeMs s) gs in
  GetRate s nowMs = Fault BadConversion \/
  exists r s', GetRate s nowMs = Ok (r, s') /\ tracks s' nowMs H gs' /\ same_conf s s' /\
    rate_of s' = Ok r /\ Forall (fun g => nowMs - windowSizeMs s < g.1) gs'.
Proof.
  intros Htr Hnow HW Hfit gs'. pose proof Htr as [Hr [Hw Hcov] Hsp Hok Hb Hh Hc].
  assert (Hok' : Forall (slice_ok (itemSizeMs s) nowMs) gs').
  { apply prune_keeps. eapply List.Forall_impl; [|exact Hok].
    intros g [H1 H2]. split; [lia|done]. }
  pose proof (prune_history _ (windowSizeMs s) _ nowMs _ _ Hw Hnow Hsp Hok Hh) as Hh'.
  assert (Hrec : Forall (fun g => nowMs - windowSizeMs s < g.1) gs')
    by (eapply prune_recent; [|exact Hsp]; lia).
  unfold GetRate. destruct (Z.eqb_spec nowMs (lastTime s)) as [Heq|_].
  - right. destruct Hc as [Hc|[Hc1 Hc2]]; [lia|]. exists (lastRate s), s.
    rewrite <- Heq in Hc2.
    assert (Hgs : gs' = gs) by (by apply prune_idem). rewrite Hgs in *.
    split_and!; [done| |reflexivity|done|done].
    fold gs' in Hh'. rewrite Hgs in Hh'. split; try done. right. by rewrite <- Heq.
  - destruct (RemoveOldData_ok _ gs (itemSizeMs s) nowMs Hr) as (s1 & -> & Hr1 & Hc1);
      [lia|done|lia|done|]. cbn [mbind res_bind].
    destruct (rate_of s1) as [r|f] eqn:Er; cbn [mbind res_bind];
      [|left; by rewrite (rate_of_fault _ _ Er)].
    right. exists r. eexists. split; [done|]. fold gs' in Hr1.
    assert (Hcov1 : covers s1) by (eapply same_conf_covers; [exact Hc1|done]).
    assert (Hcs := conf_size _ _ Hc1). assert (Hci := conf_item_size _ _ Hc1).
    assert (Hcb := conf_bytes _ _ Hc1).
    split_and!; [|destruct Hc1; by split|by rewrite <- Er|done].
    split.
    + destruct Hr1; by split.
    + exact Hcov1.
    + simpl. rewrite Hci. by apply prune_spaced.
    + simpl. by rewrite Hci.
    + simpl. by rewrite Hcb.
    + simpl. by rewrite Hcs, Hci.
    + right. split; [exact Er|simpl; by rewrite Hcs].
Qed.

(** ** Histories *)

Inductive op :=
| OpUpdate (size nowMs : Z)
| OpGetRate (nowMs : Z).

Definition op_time (o : op) : Z := match o with OpUpdate _ t | OpGetRate t => t end.

(** Times never decrease ("it is considered that the time source increases
    monotonically") and start at [now] or later. *)
Fixpoint ops_ok (now : Z) (ops : list op) : Prop :=
  match ops with
  | [] => True
  | o :: ops' =>
      now <= op_time o /\ fits 64 (op_time o) /\
      match o with OpUpdate size _ => fits 64 size | _ => True end /\ ops_ok (op_time o) ops'
  end.

Definition history (ops : list op) : list sample :=
  ops ≫= (fun o => match o with OpUpdate size t => [(t, size)] | OpGetRate _ => [] end).

(** The time of the last operation, [now] when there is none. *)
Definition end_time (now : Z) (ops : list op) : Z := default now (op_time <$> list.last ops).

Definition exec_op (s : State) (o : op) : res State :=
  match o with
  | OpUpdate size t => Update s size t
  | OpGetRate t => '(_, s') ← GetRate s t; mret s'
  end.

Fixpoint exec (s : State) (ops : list op) : res State :=
  match ops with
  | [] => mret s
  | o :: ops' => s' ← exec_op s o; exec s' ops'
  end.

(** The total of the window, against the samples [H] given so far. *)
Definition window_total (s : State) (now : Z) (H : list sample) : Prop :=
  exists dropped kept, H = dropped ++ kept /\
    totalCount s = u64 (sum_sizes kept) /\
    Forall (fun u => now - windowSizeMs s < u.1) kept /\
    Forall (fun u => u.1 < now - windowSizeMs s + itemSizeMs s) dropped.

Lemma tracks_window s now H gs :
  tracks s now H gs -> Forall (fun g => now - windowSizeMs s < g.1) gs -> window_total s now H.
Proof.
  intros [Hr _ _ Hok _ (d & Hd & Hold) _] Hrec. exists d, (samples gs).
  split_and!; [done|apply Hr| |done]. apply list.Forall_forall. intros u Hu.
  apply list_elem_of_bind in Hu as (g & Hu & Hg). rewrite list.Forall_forall in Hrec, Hok.
  specialize (Hrec g Hg). destruct (Hok g Hg) as [_ Hs]. rewrite list.Forall_forall in Hs.
  specialize (Hs u Hu). simpl in *. lia.
Qed.

Lemma exec_tracks ops : forall s now H gs,
  tracks s now H gs -> Forall (fun g => now - windowSizeMs s < g.1) gs ->
  windowSizeMs s <= now -> ops_ok now ops ->
  match exec s ops with
  | Ok s' => exists gs', tracks s' (end_time now ops) (H ++ history ops) gs' /\
      windowSizeMs s' = windowSizeMs s /\ scale s' = scale s /\ itemSizeMs s' = itemSizeMs s /\
      Forall (fun g => end_time now ops - windowSizeMs s' < g.1) gs'
  | Fault f => f = BadConversion /\ exists t, OpGetRate t ∈ ops
  end.
Proof.
  induction ops as [|o ops IH]; intros s now H gs Htr Hrec HW Hops; cbn [exec].
  { exists gs. rewrite app_nil_r. done. }
  destruct Hops as (Hnow & Hfit & Hsz & Hops).
  assert (Hend : end_time now (o :: ops) = end_time (op_time o) ops).
  { unfold end_time. rewrite last_cons. by destruct (list.last ops). }
  assert (Hgo : forall s1 H1 gs1, exec_op s o = Ok s1 -> tracks s1 (op_time o) H1 gs1 ->
    windowSizeMs s1 = windowSizeMs s -> scale s1 = scale s -> itemSizeMs s1 = itemSizeMs s ->
    Forall (fun g => op_time o - windowSizeMs s < g.1) gs1 ->
    H1 ++ history ops = H ++ history (o :: ops) ->
    match s' ← exec_op s o; exec s' ops with
    | Ok s' => exists gs', tracks s' (end_time now (o :: ops)) (H ++ history (o :: ops)) gs' /\
        windowSizeMs s' = windowSizeMs s /\ scale s' = scale s /\ itemSizeMs s' = itemSizeMs s /\
        Forall (fun g => end_time now (o :: ops) - windowSizeMs s' < g.1) gs'
    | Fault f => f = BadConversion /\ exists t, OpGetRate t ∈ o :: ops
    end).
  { intros s1 H1 gs1 -> Htr1 Hc1 Hc2 Hc3 Hrec1 HH. cbn [mbind res_bind]. rewrite Hend, <- HH.
    specialize (IH s1 (op_time o) H1 gs1 Htr1). rewrite Hc1, Hc2, Hc3 in IH.
    specialize (IH Hrec1 ltac:(lia) Hops).
    destruct (exec s1 ops); [done|]. destruct IH as (-> & t & Ht).
    split; [done|]. exists t. by right. }
  destruct o as [size t|t]; cbn [exec_op op_time] in *.
  - destruct (Update_tracks s now H gs size t Htr) as (s1 & E1 & Htr1 & Hc1 & Hrec1);
      [done|lia|done|done|].
    destruct Hc1 as [C1 C2 C3 C4 C5]. eapply Hgo; try done. by rewrite <- app_assoc.
  - destruct (GetRate_tracks s now H gs t Htr) as [->|(r & s1 & E1 & Htr1 & Hc1 & _ & Hrec1)];
      [done|lia|done| |].
    + cbn [mbind res_bind]. split; [done|]. exists t. by left.
    + destruct Hc1 as [C1 C2 C3 C4 C5]. eapply Hgo; try done. by rewrite E1.
Qed.

Lemma create_tracks W sc n now :
  0 < n -> 0 < W <= n * Z.max (W / n) 1 -> W <= now ->
  tracks (create W sc n) now [] [].
Proof.
  intros Hn HW Hnow. split; try done.
  - split; simpl; try done.
    + unfold zlen. rewrite length_replicate. lia.
    + rewrite zlen_nil. lia.
  - unfold covers. simpl. lia.
  - constructor.
  - by exists [].
  - by left.
Qed.

(** C9: For every history of updates with sizes of 64 bits and of rate queries, at times of
    64 bits that never decrease and are not below the size of the window (below it the code forgets samples,
    [early_clock_forgets]), over a window that its items cover ([W <= n * max (W / n) 1],
    without which the assertion can fail, [uncovered_window_aborts]), no operation fails
    (the assertion that the newest item does not overlap the oldest one holds, no item is
    read out of range and the pruning loop terminates) except that a query whose rate
    does not fit in 32 bits has an undefined conversion; and after the history the total
    is, modulo 2^64, the bytes of a suffix of the samples that leaves out only samples older
    than the window less one item, and counts only samples of the window, and [GetBytes] is
    the bytes of all samples modulo 2^64. *)
Theorem window_refines W sc n ops :
  0 < n -> 0 < W <= n * Z.max (W / n) 1 -> ops_ok W ops ->
  match exec (create W sc n) ops with
  | Ok s => window_total s (end_time W ops) (history ops) /\
            GetBytes s = u64 (sum_sizes (history ops))
  | Fault f => f = BadConversion /\ exists t, OpGetRate t ∈ ops
  end.
Proof.
  intros Hn HW Hops.
  pose proof (exec_tracks ops _ _ _ _ (create_tracks W sc n W Hn HW ltac:(lia))
                ltac:(constructor) ltac:(simpl; lia) Hops) as H.
  destruct (exec _ ops) as [s|f]; [|done]. destruct H as (gs & Htr & _ & _ & _ & Hrec).
  split; [by eapply tracks_window|apply Htr].
Qed.

Lemma window_refines_witness :
  let ops := [OpUpdate 5 5000; OpUpdate 2 5999; OpUpdate 1 6001; OpGetRate 6001] in
  exists s, exec (create 1000 (f32_of_Z 8000) 100) ops = Ok s /\
    window_total s 6001 [(5000, 5); (5999, 2); (6001, 1)] /\ GetBytes s = 8.
Proof.
  intros ops.
  assert (H := window_refines 1000 (f32_of_Z 8000) 100 ops ltac:(lia) ltac:(vm_compute; by split)).
  destruct (exec (create 1000 (f32_of_Z 8000) 100) ops) as [s|f] eqn:E;
    [|vm_compute in E; discriminate E].
  exists s. split; [done|]. apply H. vm_compute. repeat split; congruence.
Defined.

Lemma ops_ok_snoc t ops : forall now,
  ops_ok now (ops ++ [OpGetRate t]) ->
  ops_ok now ops /\ now <= t /\ end_time now ops <= t /\ fits 64 t.
Proof.
  induction ops as [|o ops IH]; intros now H; simpl in H; [by destruct H as (H1 & H2 & _)|].
  destruct H as (H1 & H2 & H3 & H4). destruct (IH _ H4) as (I1 & I2 & I3 & I4).
  split_and!; [done|lia| |done]. unfold end_time in *. rewrite last_cons.
  by destruct (list.last ops).
Qed.

(** The value [GetRate] computes for a total. *)
Definition rate_formula (W : Z) (sc : spec_float) (total : Z) : res Z :=
  u32_of_float (SFadd 24 128 (SFmul 24 128 (f32_of_Z total)
                                (SFdiv 24 128 sc (f32_of_Z W))) f32_half).

(** After any such history, the rate a query returns, whether computed or taken
    from the cache of the last query, is that of the samples of the window at the
    time of the query. *)
Theorem GetRate_window W sc n ops nowMs s r s' :
  0 < n -> 0 < W <= n * Z.max (W / n) 1 -> ops_ok W (ops ++ [OpGetRate nowMs]) ->
  exec (create W sc n) ops = Ok s -> GetRate s nowMs = Ok (r, s') ->
  exists dropped kept, history ops = dropped ++ kept /\
    rate_formula W sc (u64 (sum_sizes kept)) = Ok r /\
    Forall (fun u => nowMs - W < u.1) kept /\
    Forall (fun u => u.1 < nowMs - W + Z.max (W / n) 1) dropped.
Proof.
  intros Hn HW Hops Hex Hrate.
  destruct (ops_ok_snoc _ _ _ Hops) as (Hops1 & Hge & Hend & Hfit).
  pose proof (exec_tracks ops _ _ _ _ (create_tracks W sc n W Hn HW ltac:(lia))
                ltac:(constructor) ltac:(simpl; lia) Hops1) as H. rewrite Hex in H.
  destruct H as (gs & Htr & Hc1 & Hc2 & Hc3 & _). simpl in Hc1, Hc2, Hc3.
  destruct (GetRate_tracks s _ _ gs nowMs Htr) as [Hf|(r1 & s1 & E1 & Htr1 & Hc & Hr & Hrec)];
    [done|lia|done|congruence|].
  rewrite Hrate in E1. injection E1 as <- <-. destruct Hc as [C1 C2 C3 C4 C5].
  destruct (tracks_window s' nowMs _ _ Htr1) as (d & k & Hd & Ht & Hk & Hdr);
    [by rewrite C1|].
  rewrite C1, Hc1 in Hk, Hdr. rewrite C4, Hc3 in Hdr. exists d, k.
  split_and!; [done| |done|done]. unfold rate_of in Hr. by rewrite C1, C2, Hc1, Hc2, Ht in Hr.
Qed.

Lemma GetRate_window_witness :
  let ops := [OpUpdate 5 5000; OpUpdate 2 5999; OpUpdate 1 6001] in
  exists s s', exec (create 1000 (f32_of_Z 8000) 100) ops = Ok s /\
    GetRate s 6001 = Ok (24, s') /\
    exists dropped kept, [(5000, 5); (5999, 2); (6001, 1)] = dropped ++ kept /\
      rate_formula 1000 (f32_of_Z 8000) (u64 (sum_sizes kept)) = Ok 24 /\
      Forall (fun u => 6001 - 1000 < u.1) kept /\
      Forall (fun u => u.1 < 6001 - 1000 + Z.max (1000 / 100) 1) dropped.
Proof.
  intros ops. destruct (exec (create 1000 (f32_of_Z 8000) 100) ops) as [s|f] eqn:E;
    [|vm_compute in E; discriminate E].
  destruct (GetRate s 6001) as [[r s']|f] eqn:E'; [|vm_compute in E; injection E as <-;
    vm_compute in E'; discriminate E'].
  assert (r = 24) as ->.
  { vm_compute in E; injection E as <-. vm_compute in E'. by injection E' as <-. }
  exists s, s'. split; [done|]. split; [done|].
  apply (GetRate_window 1000 (f32_of_Z 8000) 100 ops 6001 s 24 s');
    [lia|vm_compute; by split|vm_compute; repeat split; congruence|exact E|exact E'].
Defined.

(** ** Findings *)

(** Two samples 10 ms apart, taken when the clock is still below the window
    size: [nowMs - windowSizeMs] wraps below zero, the whole window counts as
    elapsed, and the second update forgets the first one. *)
Theorem early_clock_forgets :
  (s ← exec (create 1000 (f32_of_Z 8000) 100) [OpUpdate 5 500; OpUpdate 2 510];
   mret (totalCount s)) = Ok 2 /\
  (s ← exec (create 1000 (f32_of_Z 8000) 100) [OpUpdate 5 5500; OpUpdate 2 5510];
   mret (totalCount s)) = Ok 7.
Proof. split; vm_compute; reflexivity. Qed.

(** With a number of items that does not divide the window, the items do not
    cover it, and a steady stream makes the assertion of [Update] fail: 7 items of
    1 ms for a window of 10 ms. *)
Theorem uncovered_window_aborts :
  exec (create 10 (f32_of_Z 8000) 7)
    ((fun i => OpUpdate 1 (100 + Z.of_nat i)) <$> List.seq 0 8) = Fault AssertFailed.
Proof. vm_compute. reflexivity. Qed.

End RateCalculator.

Module RtpDataCounter.

Record State := { rate : RateCalculator.State; packets : Z }.

Definition create (windowSizeMs : Z) : State :=
  {| rate := RateCalculator.create windowSizeMs (f32_of_Z 8000) 100; packets := 0 |}.

(** [Update], with the size of the packet and the clock of the loop. *)
Definition Update (s : State) (packetSize nowMs : Z) : res State :=
  r ← RateCalculator.Update (rate s) packetSize nowMs;
  mret {| rate := r; packets := u64 (packets s + 1) |}.

Definition GetBitrate (s : State) (nowMs : Z) : res (Z * State) :=
  '(v, r) ← RateCalculator.GetRate (rate s) nowMs;
  mret (v, {| rate := r; packets := packets s |}).

Definition GetPacketCount (s : State) : Z := packets s.
Definition GetBytes (s : State) : Z := RateCalculator.GetBytes (rate s).

(** The packets of a stream, as sizes and arrival times. *)
Fixpoint receive (s : State) (ps : list (Z * Z)) : res State :=
  match ps with
  | [] => mret s
  | (size, t) :: ps' => s' ← Update s size t; receive s' ps'
  end.

Fixpoint arrivals_ok (now : Z) (ps : list (Z * Z)) : Prop :=
  match ps with
  | [] => True
  | (size, t) :: ps' => now <= t /\ fits 64 t /\ fits 64 size /\ arrivals_ok t ps'
  end.

Lemma receive_ok ps : forall s now H gs,
  RateCalculator.tracks (rate s) now H gs -> RateCalculator.windowSizeMs (rate s) <= now ->
  fits 64 (packets s) -> arrivals_ok now ps ->
  exists s', receive s ps = Ok s' /\
    GetBytes s' = u64 (RateCalculator.sum_sizes H + foldr (fun p a => p.1 + a) 0 ps) /\
    GetPacketCount s' = u64 (packets s + zlen ps).
Proof.
  induction ps as [|[size t] ps IH]; intros s now H gs Htr HW Hpk Hps.
  { exists s. split_and!; [done| |].
    - simpl. rewrite Z.add_0_r. apply Htr.
    - change (zlen []) with 0. by rewrite Z.add_0_r, uwrap_id. }
  destruct Hps as (Hnow & Hfit & Hsz & Hps). cbn [receive]. unfold Update.
  destruct (RateCalculator.Update_tracks _ now H gs size t Htr) as (r & -> & Htr1 & Hc & _);
    [done|lia|done|done|]. cbn [mbind res_bind mret res_ret].
  pose proof (RateCalculator.conf_size _ _ Hc) as Hcs. simpl in Hcs.
  set (s1 := {| rate := r; packets := u64 (packets s + 1) |}).
  destruct (IH s1 t _ _ Htr1) as (s2 & H1 & H2 & H3);
    [simpl; lia|apply uwrap_fits; lia|done|].
  exists s2. split_and!; [done| |].
  - rewrite H2, RateCalculator.sum_sizes_app. simpl. f_equal. lia.
  - rewrite H3. cbn [packets s1]. rewrite !zlen_cons. unfold uwrap.
    rewrite Zplus_mod_idemp_l. f_equal. lia.
Qed.

(** The counter of a stream never fails, and counts every packet and every
    byte it was given (modulo the width of [size_t]). *)
Theorem counts_everything ps :
  arrivals_ok 2500 ps ->
  exists s, receive (create 2500) ps = Ok s /\
    GetBytes s = u64 (foldr (fun p a => p.1 + a) 0 ps) /\
    GetPacketCount s = u64 (zlen ps).
Proof.
  apply (receive_ok ps (create 2500) 2500 [] []);
    [apply RateCalculator.create_tracks; [lia|vm_compute; by split|lia]|simpl; lia|by vm_compute].
Qed.

Lemma counts_everything_witness :
  exists s, receive (create 2500) [(1200, 3000); (40, 3000); (900, 9000)] = Ok s /\
    GetBytes s = 2140 /\ GetPacketCount s = 3.
Proof.
  apply (counts_everything [(1200, 3000); (40, 3000); (900, 9000)]).
  vm_compute. repeat split; congruence.
Defined.

End RtpDataCounter.

Module TrendCalculator.

Record State := {
  decreaseFactor : spec_float;
  value : Z;
  highestValue : Z;
  highestValueUpdatedAtMs : Z;
}.

Definition create (factor : spec_float) : State :=
  {| decreaseFactor := factor; value := 0; highestValue := 0; highestValueUpdatedAtMs := 0 |}.

Definition ForceUpdate (s : State) (v nowMs : Z) : State :=
  {| decreaseFactor := decreaseFactor s; value := v; highestValue := v;
     highestValueUpdatedAtMs := nowMs |}.

(** [float] to [double]. *)
Definition f64_of_f32 (x : spec_float) : spec_float :=
  match x with
  | S754_finite sg m e => binary_normalize 53 1024 (if sg then Zneg m else Zpos m) e sg
  | _ => x
  end.

Definition subtraction (s : State) (elapsedMs : Z) : res Z :=
  u32_of_float
    (SFmul 53 1024 (f64_of_f32 (SFmul 24 128 (f32_of_Z (highestValue s)) (decreaseFactor s)))
                   (SFdiv 53 1024 (Time.b64_of_Z elapsedMs) (Time.b64_of_Z 1000))).

Definition Update (s : State) (v nowMs : Z) : res State :=
  if value s =? 0 then Ok (ForceUpdate s v nowMs)
  else if value s <=? v then Ok (ForceUpdate s v nowMs)
  else
    sub ← subtraction s (u64 (nowMs - highestValueUpdatedAtMs s));
    mret {| decreaseFactor := decreaseFactor s;
            value := Z.max v (if sub <? highestValue s then highestValue s - sub else v);
            highestValue := highestValue s;
            highestValueUpdatedAtMs := highestValueUpdatedAtMs s |}.

Definition GetValue (s : State) : Z := value s.

Fixpoint updates (s : State) (vs : list (Z * Z)) : res State :=
  match vs with
  | [] => mret s
  | (v, t) :: vs' => s' ← Update s v t; updates s' vs'
  end.

Lemma u32_of_float_fits x v : u32_of_float x = Ok v -> fits 32 v.
Proof.
  unfold u32_of_float. destruct x; intros H; simplify_eq/=; [by vm_compute|].
  case_match; [|done]. injection H as <-. apply andb_true_iff in H0 as [H1 H2].
  unfold fits. lia.
Qed.

Lemma updates_bounds vs : forall s s' m,
  updates s vs = Ok s' -> 0 <= value s <= highestValue s -> highestValue s <= m ->
  Forall (fun x : Z * Z => 0 <= x.1 <= m) vs ->
  0 <= value s' <= m /\ (forall v t, list.last vs = Some (v, t) -> v <= value s').
Proof.
  induction vs as [|[v t] vs IH]; intros s s' m H Hs Hm Hvs; cbn [updates] in H.
  { injection H as <-. split; [lia|done]. }
  apply list.Forall_cons in Hvs as [Hv Hvs]. simpl in Hv.
  apply res_bind_ok in H as (s1 & Hu & Hrest).
  assert (Hs1 : 0 <= value s1 <= highestValue s1 /\ highestValue s1 <= m /\ v <= value s1).
  { unfold Update in Hu.
    destruct (value s =? 0); [injection Hu as <-; simpl; lia|].
    destruct (Z.leb_spec (value s) v); [injection Hu as <-; simpl; lia|].
    apply res_bind_ok in Hu as (sub & Hsub & Hu). injection Hu as <-. simpl.
    apply u32_of_float_fits in Hsub. unfold fits in Hsub. case_cmp; lia. }
  destruct Hs1 as (Ha & Hb & Hc). destruct (IH s1 s' m Hrest Ha Hb Hvs) as [Hd He].
  split; [done|]. intros v' t' Hl. destruct vs as [|p vs]; [|by apply (He v' t')].
  simpl in Hl. injection Hl as <- <-. by injection Hrest as <-.
Qed.

(** However the values came in, the trend is never lower than the last value
    and never higher than the highest one. *)
Theorem trend_bounds factor vs s m :
  updates (create factor) vs = Ok s -> Forall (fun x : Z * Z => 0 <= x.1 <= m) vs -> 0 <= m ->
  0 <= GetValue s <= m /\ (forall v t, list.last vs = Some (v, t) -> v <= GetValue s).
Proof. intros H Hvs Hm. by apply (updates_bounds vs (create factor) s m H); simpl. Qed.

Lemma trend_bounds_witness :
  exists s, updates (create (S754_finite false 13421773 (-28)))
              [(1000, 5000); (400, 7000)] = Ok s /\ GetValue s = 900 /\ 400 <= GetValue s <= 1000.
Proof.
  destruct (updates (create (S754_finite false 13421773 (-28))) [(1000, 5000); (400, 7000)])
    as [s|f] eqn:E; [|vm_compute in E; discriminate E].
  destruct (trend_bounds (S754_finite false 13421773 (-28)) _ s 1000 E) as [H1 H2];
    [repeat constructor; simpl; lia|lia|].
  exists s. split_and!; [done| |by apply (H2 400 7000)|lia].
  vm_compute in E. by injection E as <-.
Defined.

End TrendCalculator.
