(* ===== verification/RtcpPacket.v ===== *)
(** * RTCP: the common header

    Models [RTC::RTCP::Packet] of [worker/include/RTC/RTCP/Packet.hpp] and the
    header part of [worker/src/RTC/RTCP/Packet.cpp].  A parser gets the bytes
    [data, data + len) it is allowed to read as a list, so that a read outside
    of the packet is a fault even where the datagram goes on; a serializer
    yields the bytes it writes. *)

From S2P Require Import Prelude Utils.

(** [(data + offset, len - offset)], where both are computed without a check. *)
Definition sub (data : list Z) (offset : Z) : res (list Z) :=
  if (0 <=? offset) && (offset <=? zlen data) then Ok (drop (Z.to_nat offset) data)
  else Fault OutOfBounds.

(** The [n] bytes at [offset], as [memcpy] or a string constructor reads them. *)
Definition bytes_at (data : list Z) (offset n : Z) : res (list Z) :=
  if (0 <=? offset) && (0 <=? n) && (offset + n <=? zlen data)
  then Ok (take (Z.to_nat n) (drop (Z.to_nat offset) data))
  else Fault OutOfBounds.

Module Packet.

Inductive Type_ := SR | RR | SDES | BYE | APP | RTPFB | PSFB | XR.

Definition type_code (t : Type_) : Z :=
  match t with
  | SR => 200 | RR => 201 | SDES => 202 | BYE => 203
  | APP => 204 | RTPFB => 205 | PSFB => 206 | XR => 207
  end.

(** The type named by a packet type byte, [None] for the [default] of a switch. *)
Definition type_of_code (c : Z) : option Type_ :=
  list_find (fun t => type_code t = c) [SR; RR; SDES; BYE; APP; RTPFB; PSFB; XR] ≫= fun p => Some p.2.

Definition CommonHeaderSize : Z := 4.

(** Fields of [CommonHeader]: [version:2 padding:1 count:5 packetType:8 length:16]. *)
Definition hdr_count (data : list Z) : res Z := b ← read data 0; mret (b mod 32).
Definition hdr_version (data : list Z) : res Z := b ← read data 0; mret (b / 64).
Definition hdr_packetType (data : list Z) : res Z := read data 1.
Definition hdr_length (data : list Z) : res Z := Byte.Get2Bytes data 2.

Definition IsRtcp (data : list Z) : res bool :=
  if negb (CommonHeaderSize <=? zlen data) then mret false
  else
    b0 ← read data 0;
    if negb ((127 <? b0) && (b0 <? 192)) then mret false
    else
      version ← hdr_version data;
      if negb (version =? 2) then mret false
      else
        pt ← hdr_packetType data;
        mret ((192 <=? pt) && (pt <=? 223)).

(** [Packet::Serialize]: the header for a packet of [size] bytes. *)
Definition Serialize (t : Type_) (count size : Z) : list Z :=
  (2 * 64 + 0 * 32 + u8 count mod 32) :: type_code t :: Byte.be2 (size / 4 - 1).

(** [header->count = c] and [header->length = htons(l)] on the header at [h]. *)
Definition set_count (out : list Z) (h c : Z) : res (list Z) :=
  b ← read out h;
  store out h (b / 32 * 32 + c mod 32).

Definition set_length (out : list Z) (h l : Z) : res (list Z) :=
  Byte.Set2Bytes out (h + 2) l.

End Packet.

(** ** Lemmas *)

Lemma sub_ok data offset :
  0 <= offset <= zlen data -> sub data offset = Ok (drop (Z.to_nat offset) data).
Proof. intros H. unfold sub. by case_cmp; try lia. Qed.

Lemma sub_app l1 l2 n : n = zlen l1 -> sub (l1 ++ l2) n = Ok l2.
Proof.
  intros ->. rewrite sub_ok.
  - unfold zlen. by rewrite Nat2Z.id, drop_app_length.
  - rewrite zlen_app. pose proof (zlen_nonneg l1). pose proof (zlen_nonneg l2). lia.
Qed.

Lemma sub_inv data offset d :
  sub data offset = Ok d -> 0 <= offset <= zlen data /\ d = drop (Z.to_nat offset) data /\
                            zlen d = zlen data - offset.
Proof.
  unfold sub. intros H. destruct (Z.leb_spec 0 offset), (Z.leb_spec offset (zlen data));
    simpl in H; try discriminate.
  injection H as <-. split_and!; [lia|lia|done|]. rewrite zlen_drop. lia.
Qed.

Lemma bytes_at_ok data offset n :
  0 <= offset -> 0 <= n -> offset + n <= zlen data ->
  bytes_at data offset n = Ok (take (Z.to_nat n) (drop (Z.to_nat offset) data)).
Proof. intros. unfold bytes_at. by case_cmp; try lia. Qed.

Lemma bytes_at_app l1 l2 l3 o n :
  o = zlen l1 -> n = zlen l2 -> bytes_at (l1 ++ l2 ++ l3) o n = Ok l2.
Proof.
  intros -> ->. rewrite bytes_at_ok; try apply zlen_nonneg.
  - unfold zlen. by rewrite !Nat2Z.id, drop_app_length, take_app_length.
  - rewrite !zlen_app. pose proof (zlen_nonneg l3). lia.
Qed.

Lemma zlen_take {A} n (l : list A) : zlen (take n l) = Z.min (Z.of_nat n) (zlen l).
Proof. unfold zlen. rewrite length_take. lia. Qed.

Lemma zlen_be2 v : zlen (Byte.be2 v) = 2.
Proof. done. Qed.
Lemma zlen_be3 v : zlen (Byte.be3 v) = 3.
Proof. done. Qed.
Lemma zlen_be4 v : zlen (Byte.be4 v) = 4.
Proof. done. Qed.

Lemma zlen_Serialize t c n : zlen (Packet.Serialize t c n) = 4.
Proof. done. Qed.

(** Rewrites the lengths of concatenated byte strings. *)
Create Rewrite HintDb zlen.
#[export] Hint Rewrite @zlen_app @zlen_cons @zlen_nil zlen_be2 zlen_be3 zlen_be4
  zlen_Serialize : zlen.

Ltac zlens := autorewrite with zlen in *.

Lemma hdr_count_Serialize t c n l :
  0 <= c < 32 -> Packet.hdr_count (Packet.Serialize t c n ++ l) = Ok c.
Proof.
  intros Hc. unfold Packet.hdr_count.
  change (read (Packet.Serialize t c n ++ l) 0) with (Ok (2 * 64 + 0 * 32 + u8 c mod 32) : res Z).
  cbn [mbind res_bind mret res_ret]. f_equal.
  rewrite uwrap_id by (unfold fits; pow2_consts; lia). Z.div_mod_to_equations. lia.
Qed.

Lemma hdr_type_Serialize t c n l :
  Packet.hdr_packetType (Packet.Serialize t c n ++ l) = Ok (Packet.type_code t).
Proof. done. Qed.

Lemma hdr_length_Serialize t c n l :
  Packet.hdr_length (Packet.Serialize t c n ++ l) = Ok (u16 (n / 4 - 1)).
Proof. by apply Get2Bytes_be2. Qed.

Lemma IsRtcp_Serialize t c n l :
  0 <= c < 32 -> Packet.IsRtcp (Packet.Serialize t c n ++ l) = Ok true.
Proof.
  intros Hc. unfold Packet.IsRtcp. rewrite zlen_app, zlen_Serialize.
  pose proof (zlen_nonneg l). unfold Packet.CommonHeaderSize. case_cmp; [|lia].
  cbn [negb]. set (b0 := 2 * 64 + 0 * 32 + u8 c mod 32).
  assert (Hb : 128 <= b0 < 160).
  { unfold b0. Z.div_mod_to_equations. lia. }
  change (read (Packet.Serialize t c n ++ l) 0) with (Ok b0 : res Z). cbn [mbind res_bind].
  unfold Packet.hdr_version. change (read (Packet.Serialize t c n ++ l) 0) with (Ok b0 : res Z).
  cbn [mbind res_bind mret res_ret]. clearbody b0.
  destruct (Z.ltb_spec 127 b0), (Z.ltb_spec b0 192); try lia. cbn [andb negb].
  replace (b0 / 64) with 2 by (Z.div_mod_to_equations; lia). cbn [Z.eqb negb].
  by destruct t.
Qed.

(** Whatever the bytes, [IsRtcp] reads none outside of them. *)
Lemma IsRtcp_safe data : exists b, Packet.IsRtcp data = Ok b /\ (b = true -> 4 <= zlen data).
Proof.
  unfold Packet.IsRtcp, Packet.hdr_version, Packet.hdr_packetType, Packet.CommonHeaderSize.
  destruct (Z.leb_spec 4 (zlen data)) as [Hl|Hl]; cbn [negb]; [|by exists false].
  repeat read_ok. cbn [mret res_ret mbind res_bind].
  repeat match goal with |- context [negb ?c] => destruct c; cbn [negb] end; eauto.
Qed.

Lemma type_of_code_code t : Packet.type_of_code (Packet.type_code t) = Some t.
Proof. by destruct t. Qed.

(** ** Rewriting a header in place *)

Lemma store_app l1 l2 n i v :
  n = zlen l1 + i -> 0 <= i -> store (l1 ++ l2) n v = (fun l => l1 ++ l) <$> store l2 i v.
Proof.
  intros -> Hi. unfold store. rewrite zlen_app. pose proof (zlen_nonneg l1).
  case_cmp; try lia; cbn [andb fmap res_fmap]; try done. f_equal.
  replace (Z.to_nat (zlen l1 + i)) with (length l1 + Z.to_nat i)%nat by (unfold zlen; lia).
  by rewrite insert_app_r.
Qed.

Lemma set_count_app l1 l2 c :
  Packet.set_count (l1 ++ l2) (zlen l1) c = (fun l => l1 ++ l) <$> Packet.set_count l2 0 c.
Proof.
  unfold Packet.set_count. rewrite <- (Z.add_0_r (zlen l1)), read_app_r by lia.
  destruct (read l2 0); [|done]. cbn [mbind res_bind]. by apply store_app.
Qed.

Lemma set_length_app l1 l2 v :
  Packet.set_length (l1 ++ l2) (zlen l1) v = (fun l => l1 ++ l) <$> Packet.set_length l2 0 v.
Proof.
  unfold Packet.set_length, Byte.Set2Bytes.
  rewrite (store_app l1 l2 (zlen l1 + 2 + 1) 3) by lia.
  change (0 + 2 + 1) with 3. destruct (store l2 3 (u8 v)); [|done].
  cbn [fmap res_fmap mbind res_bind]. by apply store_app; lia.
Qed.

Lemma set_count_front b rest c :
  Packet.set_count (b :: rest) 0 c = Ok ((b / 32 * 32 + c mod 32) :: rest).
Proof.
  unfold Packet.set_count, store. cbn [read Z.leb lookup list_lookup Z.to_nat mbind res_bind].
  rewrite (proj2 (Z.ltb_lt _ _)); [done|]. rewrite zlen_cons. pose proof (zlen_nonneg rest). lia.
Qed.

Lemma set_length_front b0 b1 b2 b3 rest v :
  Packet.set_length (b0 :: b1 :: b2 :: b3 :: rest) 0 v = Ok (b0 :: b1 :: Byte.be2 v ++ rest).
Proof.
  unfold Packet.set_length, Byte.Set2Bytes, store. pose proof (zlen_nonneg rest).
  change (0 + 2 + 1) with 3. change (0 + 2) with 2. cbn [Z.leb andb].
  rewrite (proj2 (Z.ltb_lt 3 _)) by (rewrite !zlen_cons; lia). cbn [mbind res_bind].
  change (0 <=? 3) with true. change (0 <=? 2) with true. cbn [andb mbind res_bind].
  rewrite (proj2 (Z.ltb_lt 2 _)); [done|]. unfold zlen in *. rewrite length_insert. simpl. lia.
Qed.

(** Rewriting the count and the length of a header that was serialized. *)
Lemma set_header t c n c' n' front tail :
  0 <= c' < 32 ->
  (out ← Packet.set_count (front ++ Packet.Serialize t c n ++ tail) (zlen front) c';
   Packet.set_length out (zlen front) (n' / 4 - 1)) =
  Ok (front ++ Packet.Serialize t c' n' ++ tail).
Proof.
  intros Hc. rewrite set_count_app. unfold Packet.Serialize at 1. cbn [app].
  rewrite set_count_front. cbn [fmap res_fmap mbind res_bind].
  rewrite set_length_app. unfold Byte.be2 at 1. cbn [app].
  rewrite set_length_front. cbn [fmap res_fmap]. unfold Packet.Serialize. cbn [app].
  do 3 f_equal. rewrite (uwrap_id 8 c') by (unfold fits; pow2_consts; lia).
  Z.div_mod_to_equations. lia.
Qed.

(** ** Grouping

    A packet with more than 31 elements is serialized as several packets. *)

Section Groups.
Context {A : Type}.
Implicit Types cur rs : list A.

(** The elements in groups of 31, in order; [cur] is the group being filled. *)
Fixpoint group cur rs : list (list A) :=
  match rs with
  | [] => [cur]
  | r :: rs' => if zlen cur =? 31 then cur :: group [r] rs' else group (cur ++ [r]) rs'
  end.

Definition groups rs : list (list A) :=
  match rs with [] => [] | r :: rs' => group [r] rs' end.

Lemma group_concat rs : forall cur, concat (group cur rs) = cur ++ rs.
Proof.
  induction rs as [|r rs IH]; intros cur; simpl; [done|].
  case_cmp; simpl; rewrite IH; [done|by rewrite <- app_assoc].
Qed.

Lemma groups_concat rs : concat (groups rs) = rs.
Proof. destruct rs; [done|]. apply (group_concat rs [a]). Qed.

Lemma group_bounds rs : forall cur,
  1 <= zlen cur <= 31 -> Forall (fun g => 1 <= zlen g <= 31) (group cur rs).
Proof.
  induction rs as [|r rs IH]; intros cur Hc; cbn [group]; [by constructor|]. case_cmp.
  - constructor; [done|]. apply IH. rewrite zlen_cons, zlen_nil. lia.
  - apply IH. rewrite zlen_app, zlen_cons, zlen_nil. lia.
Qed.

Lemma groups_bounds rs : Forall (fun g => 1 <= zlen g <= 31) (groups rs).
Proof. destruct rs; [constructor|]. apply group_bounds. rewrite zlen_cons, zlen_nil. lia. Qed.

Lemma zlen_group rs : forall cur, 1 <= zlen cur <= 31 ->
  zlen (group cur rs) = (zlen cur + zlen rs + 30) / 31.
Proof.
  induction rs as [|r rs IH]; intros cur Hc; cbn [group].
  { change (zlen [cur]) with 1. change (zlen []) with 0. Z.div_mod_to_equations. lia. }
  pose proof (zlen_nonneg rs). destruct (Z.eqb_spec (zlen cur) 31) as [E|E].
  - rewrite zlen_cons, IH by (change (zlen [r]) with 1; lia).
    change (zlen [r]) with 1. rewrite (zlen_cons r rs), E. Z.div_mod_to_equations. lia.
  - assert (Hl : zlen (cur ++ [r]) = zlen cur + 1) by (by rewrite zlen_app).
    rewrite IH by lia. rewrite Hl, zlen_cons. f_equal. lia.
Qed.

Lemma zlen_groups rs : zlen (groups rs) = (zlen rs + 30) / 31.
Proof.
  destruct rs as [|r rs]; [done|]. cbn [groups]. rewrite zlen_group by (change (zlen [r]) with 1; lia).
  change (zlen [r]) with 1. rewrite zlen_cons. f_equal. lia.
Qed.

Lemma groups_Forall (P : A -> Prop) rs : Forall P rs -> Forall (Forall P) (groups rs).
Proof.
  intros H. rewrite <- (groups_concat rs) in H. apply list.Forall_forall. intros g Hg.
  apply list.Forall_forall. intros r Hr. rewrite list.Forall_forall in H. apply H.
  apply list_elem_of_In, in_concat. exists g. by rewrite <- !list_elem_of_In.
Qed.

(** A single group, when the elements fit. *)
Lemma groups_single rs : 1 <= zlen rs <= 31 -> groups rs = [rs].
Proof.
  assert (H : forall rs cur, zlen cur + zlen rs <= 31 -> group cur rs = [cur ++ rs]).
  { clear. induction rs as [|r rs IH]; intros cur Hc; cbn [group]; [by rewrite app_nil_r|].
    rewrite zlen_cons in Hc. pose proof (zlen_nonneg rs). case_cmp; [lia|].
    rewrite IH; [by rewrite <- app_assoc|]. rewrite zlen_app. change (zlen [r]) with 1. lia. }
  intros Hr. destruct rs as [|r rs]; [rewrite zlen_nil in Hr; lia|]. cbn [groups].
  rewrite H; [done|]. rewrite zlen_cons in Hr. change (zlen [r]) with 1. lia.
Qed.

End Groups.
