(* ===== verification/RtcpReports.v ===== *)
(** * RTCP sender and receiver reports

    Models [worker/src/RTC/RTCP/ReceiverReport.cpp], [SenderReport.cpp] and their
    headers.  A report, which the code keeps as a pointer to its 24 bytes, is the
    list of these bytes; its getters and setters access them. *)

From S2P Require Import Prelude Utils RtcpPacket.

(** Conversion to [int32_t]. *)
Definition i32 (z : Z) : Z := if u32 z <? 2 ^ 31 then u32 z else u32 z - 2 ^ 32.

Module ReceiverReport.

Definition HeaderSize : Z := 24.

Definition Parse (data : list Z) : option (list Z) :=
  if zlen data <? HeaderSize then None else Some (take (Z.to_nat HeaderSize) data).

Definition Serialize (header : list Z) : list Z := header.
Definition GetSize (header : list Z) : Z := HeaderSize.

Definition GetSsrc (header : list Z) : res Z := Byte.Get4Bytes header 0.
Definition SetSsrc (header : list Z) (v : Z) := Byte.Set4Bytes header 0 v.
Definition GetFractionLost (header : list Z) : res Z := Byte.Get1Byte header 4.
Definition SetFractionLost (header : list Z) (v : Z) := Byte.Set1Byte header 4 v.

Definition GetTotalLost (header : list Z) : res Z :=
  value ← Byte.Get3Bytes header 5;
  if Z.land (Z.shiftr value 23) 1 =? 0 then mret (i32 value)
  else
    let value := if negb (value =? 0x800000)
                 then Z.land value (Z.lnot (Z.shiftl 1 23)) else value in
    mret (i32 (u32 (- value))).

Definition SetTotalLost (header : list Z) (totalLost : Z) : res (list Z) :=
  let clamp :=
    if 0 <=? totalLost then if 0x7FFFFF <? totalLost then 0x7FFFFF else totalLost
    else if 0x800000 <? - totalLost then 0x800000 else - totalLost in
  let value := if 0 <=? totalLost then Z.land clamp 0x7FFFFF else Z.lor clamp 0x800000 in
  Byte.Set3Bytes header 5 value.

Definition GetLastSeq (header : list Z) : res Z := Byte.Get4Bytes header 8.
Definition SetLastSeq (header : list Z) (v : Z) := Byte.Set4Bytes header 8 v.
Definition GetJitter (header : list Z) : res Z := Byte.Get4Bytes header 12.
Definition SetJitter (header : list Z) (v : Z) := Byte.Set4Bytes header 12 v.
Definition GetLastSenderReport (header : list Z) : res Z := Byte.Get4Bytes header 16.
Definition SetLastSenderReport (header : list Z) (v : Z) := Byte.Set4Bytes header 16 v.
Definition GetDelaySinceLastSenderReport (header : list Z) : res Z := Byte.Get4Bytes header 20.
Definition SetDelaySinceLastSenderReport (header : list Z) (v : Z) :=
  Byte.Set4Bytes header 20 v.

(** Clamping to the range of a 24-bit signed number. *)
Definition clamp24 (z : Z) : Z := Z.max (- 0x800000) (Z.min 0x7FFFFF z).

Lemma land_high_bit v : 0 <= v < 2 ^ 24 -> Z.land (Z.shiftr v 23) 1 = v / 2 ^ 23.
Proof.
  intros Hv. rewrite (land_ones_mod _ 1), Z.shiftr_div_pow2 by lia.
  apply Z.mod_small. Z.div_mod_to_equations. lia.
Qed.

(** Clearing bit 23 of a 24-bit number that has it. *)
Lemma clear_high_bit v :
  2 ^ 23 <= v < 2 ^ 24 -> Z.land v (Z.lnot (Z.shiftl 1 23)) = v - 2 ^ 23.
Proof.
  intros Hv. assert (Heq : v = Z.lor (v - 2 ^ 23) (Z.shiftl 1 23)).
  { rewrite lor_shiftl_add by lia. lia. }
  apply Z.bits_inj'. intros i Hi. rewrite Z.land_spec, Z.lnot_spec by done.
  rewrite Heq at 1. rewrite Z.lor_spec.
  destruct (Z.testbit (Z.shiftl 1 23) i) eqn:Et; cbn [negb].
  - rewrite andb_false_r. symmetry. destruct (Z.lt_ge_cases i 23).
    + rewrite Z.shiftl_spec_low in Et by done. done.
    + apply (testbit_above _ 23); lia.
  - by rewrite orb_false_r, andb_true_r.
Qed.

Lemma set_high_bit v : 0 <= v < 2 ^ 23 -> Z.lor v 0x800000 = v + 0x800000.
Proof. intros Hv. change 0x800000 with (Z.shiftl 1 23). rewrite lor_shiftl_add by lia. done. Qed.

Lemma i32_neg v : 0 < v <= 2 ^ 31 -> i32 (u32 (- v)) = - v.
Proof. intros Hv. unfold i32. case_cmp; ulia. Qed.

(** What [GetTotalLost] decodes: the sign and the magnitude of the loss. *)
Lemma GetTotalLost_decode header v :
  Byte.Get3Bytes header 5 = Ok v -> 0 <= v < 2 ^ 24 ->
  GetTotalLost header =
    Ok (if v <? 0x800000 then v else if v =? 0x800000 then - 0x800000 else 0x800000 - v).
Proof.
  intros E Hv. unfold GetTotalLost. rewrite E. cbn [mbind res_bind].
  rewrite land_high_bit by done. change (2 ^ 23) with 0x800000. change (2 ^ 24) with 0x1000000 in Hv.
  destruct (Z.ltb_spec v 0x800000).
  - rewrite Z.div_small by lia. cbn [Z.eqb]. unfold i32. rewrite uwrap_id by ulia.
    rewrite (proj2 (Z.ltb_lt _ _)); [done|]. pow2_consts. lia.
  - replace (v / 0x800000) with 1 by (Z.div_mod_to_equations; lia). cbn [Z.eqb].
    destruct (Z.eqb_spec v 0x800000) as [->|Hne]; cbn [negb]; [done|].
    change 0x800000 with (2 ^ 23). rewrite clear_high_bit by lia.
    rewrite i32_neg by lia. cbn [mret res_ret]. f_equal. lia.
Qed.

(** A total of lost packets that was set is read back, clamped to 24 bits. *)
Theorem totalLost_roundtrip header totalLost :
  zlen header = HeaderSize -> - 2 ^ 31 < totalLost < 2 ^ 31 ->
  exists header', SetTotalLost header totalLost = Ok header' /\
    GetTotalLost header' = Ok (clamp24 totalLost) /\ same_outside header header' 5 3.
Proof.
  intros Hlen Hr. unfold SetTotalLost, HeaderSize in *.
  match goal with |- context [Byte.Set3Bytes _ _ ?x] => set (v := x) end.
  assert (Hv : 0 <= v < 2 ^ 24 /\
    (if v <? 0x800000 then v else if v =? 0x800000 then - 0x800000 else 0x800000 - v) =
    clamp24 totalLost).
  { unfold v, clamp24. change (2 ^ 24) with 0x1000000. destruct (Z.leb_spec 0 totalLost).
    - rewrite (land_ones_mod _ 23) by lia. change (2 ^ 23) with 0x800000.
      destruct (Z.ltb_spec 0x7FFFFF totalLost);
        rewrite Z.mod_small by lia; (split; [lia|]); case_cmp; lia.
    - destruct (Z.ltb_spec 0x800000 (- totalLost)).
      + split; [done|]. rewrite Z.lor_diag. cbn. lia.
      + destruct (Z.eq_dec (- totalLost) 0x800000) as [Heq|].
        * rewrite Heq, Z.lor_diag. split; [done|]. cbn. lia.
        * rewrite set_high_bit by (change (2 ^ 23) with 0x800000; lia).
          split; [lia|]. case_cmp; lia. }
  destruct Hv as [Hv Hdec]. destruct (Set3Bytes_spec header 5 v) as (h' & -> & Hget & Hout); [lia..|].
  exists h'. split_and!; [done| |done]. rewrite uwrap_id in Hget by done.
  rewrite (GetTotalLost_decode _ _ Hget Hv). by rewrite Hdec.
Qed.

Lemma totalLost_roundtrip_witness :
  exists header', SetTotalLost (replicate 24 0) (-9000000) = Ok header' /\
    GetTotalLost header' = Ok (-8388608) /\ same_outside (replicate 24 0) header' 5 3.
Proof. apply (totalLost_roundtrip (replicate 24 0) (-9000000)); [reflexivity|lia]. Defined.

(** The loss is encoded as a sign bit and a magnitude, not in the two's
    complement of RFC 3550: a report of a peer that says -1 (bytes FF FF FF) is read
    as a loss of -8388607, and a loss of -1 is sent as 80 00 01. *)
Theorem totalLost_not_twos_complement :
  GetTotalLost (replicate 5 0 ++ [255; 255; 255] ++ replicate 16 0) = Ok (-8388607) /\
  SetTotalLost (replicate 24 0) (-1) = Ok (replicate 5 0 ++ [128; 0; 1] ++ replicate 16 0).
Proof. split; vm_compute; reflexivity. Qed.

End ReceiverReport.

Module ReceiverReportPacket.

Definition MaxReportsPerPacket : Z := 31.

Record t := { ssrc : Z; reports : list (list Z) }.

(** The loop [while ((count-- != 0u) && (len > offset))]. *)
Fixpoint parse_reports (count : nat) (data : list Z) (offset : Z) : res (list (list Z)) :=
  match count with
  | O => mret []
  | S count' =>
      if zlen data <=? offset then mret []
      else
        d ← sub data offset;
        match ReceiverReport.Parse d with
        | Some report =>
            rest ← parse_reports count' data (offset + ReceiverReport.GetSize report);
            mret (report :: rest)
        | None => mret []
        end
  end.

Definition Parse (data : list Z) (offset : Z) : res (option t) :=
  if zlen data <? Packet.CommonHeaderSize + 4 then mret None
  else
    ssrc ← Byte.Get4Bytes data Packet.CommonHeaderSize;
    let offset := if offset =? 0 then Packet.CommonHeaderSize + 4 else offset in
    count ← Packet.hdr_count data;
    reports ← parse_reports (Z.to_nat count) data offset;
    mret (Some {| ssrc := ssrc; reports := reports |}).

Definition GetCount (p : t) : Z := zlen (reports p).

Definition GetSize (p : t) : Z :=
  (Packet.CommonHeaderSize + 4) * (GetCount p / MaxReportsPerPacket + 1) +
  ReceiverReport.HeaderSize * GetCount p.

(** One turn of the loop of [Serialize]; [header] is the offset of the current
    common header. *)
Definition serialize_report (p : t) (i header : Z) (out : list Z) (report : list Z)
    : res (Z * list Z) :=
  let '(header, out) :=
    if i mod MaxReportsPerPacket =? 0
    then (zlen out, out ++ Packet.Serialize Packet.RR (GetCount p) (GetSize p) ++
                    Byte.be4 (ssrc p))
    else (header, out) in
  let out := out ++ ReceiverReport.Serialize report in
  out ← Packet.set_count out header (u8 (i mod MaxReportsPerPacket + 1));
  let length := Packet.CommonHeaderSize + 4 +
                ReceiverReport.HeaderSize * (i mod MaxReportsPerPacket + 1) in
  out ← Packet.set_length out header (length / 4 - 1);
  mret (header, out).

Fixpoint serialize_loop (p : t) (i header : Z) (out : list Z) (rs : list (list Z))
    : res (list Z) :=
  match rs with
  | [] => mret out
  | r :: rs' =>
      '(header, out) ← serialize_report p i header out r;
      serialize_loop p (i + 1) header out rs'
  end.

Definition Serialize (p : t) : res (list Z) := serialize_loop p 0 0 [] (reports p).

(** ** What is serialized *)

(** The bytes of one RTCP packet with some reports. *)
Definition chunk_bytes (s : Z) (rs : list (list Z)) : list Z :=
  Packet.Serialize Packet.RR (zlen rs) (8 + 24 * zlen rs) ++ Byte.be4 s ++ concat rs.

(** One turn adds the report to the packet being written. *)
Lemma serialize_report_ok p i k h front r cur c n :
  i mod 31 = k -> 0 <= k -> zlen cur = k -> (k <> 0 -> h = zlen front) ->
  serialize_report p i h
    (if k =? 0 then front
     else front ++ Packet.Serialize Packet.RR c n ++ Byte.be4 (ssrc p) ++ concat cur) r =
  Ok (zlen front, front ++ chunk_bytes (ssrc p) (cur ++ [r])).
Proof.
  intros Hi Hk Hcur Hh. unfold serialize_report, MaxReportsPerPacket, ReceiverReport.Serialize.
  rewrite Hi. assert (k < 31) by (rewrite <- Hi; apply Z.mod_pos_bound; lia).
  unfold Packet.CommonHeaderSize, ReceiverReport.HeaderSize.
  assert (Hgo : forall c0 n0 tail, (out ← Packet.set_count
      (front ++ Packet.Serialize Packet.RR c0 n0 ++ tail) (zlen front) (u8 (k + 1));
      out ← Packet.set_length out (zlen front) ((4 + 4 + 24 * (k + 1)) / 4 - 1);
      mret (zlen front, out)) =
    Ok (zlen front, front ++ Packet.Serialize Packet.RR (k + 1) (8 + 24 * (k + 1)) ++ tail)).
  { intros c0 n0 tail. rewrite uwrap_id by (unfold fits; pow2_consts; lia).
    pose proof (set_header Packet.RR c0 n0 (k + 1) (8 + 24 * (k + 1)) front tail ltac:(lia)) as H'.
    destruct (Packet.set_count _ _ _); [|done]. cbn [mbind res_bind] in *.
    replace (4 + 4 + 24 * (k + 1)) with (8 + 24 * (k + 1)) by lia. by rewrite H'. }
  assert (Hl : zlen (cur ++ [r]) = k + 1) by (rewrite zlen_app, Hcur; done).
  unfold chunk_bytes. rewrite Hl, concat_app. cbn [concat]. rewrite app_nil_r.
  destruct (Z.eqb_spec k 0) as [->|Hne].
  - apply zlen_0_nil in Hcur. subst cur. rewrite <- !app_assoc. by rewrite Hgo.
  - rewrite <- !app_assoc. rewrite (Hh Hne). by rewrite Hgo.
Qed.

Lemma rr_serialize_loop_ok p rs : forall i front cur,
  1 <= zlen cur <= 31 -> i mod 31 = zlen cur mod 31 ->
  serialize_loop p i (zlen front) (front ++ chunk_bytes (ssrc p) cur) rs =
  Ok (front ++ concat (chunk_bytes (ssrc p) <$> group cur rs)).
Proof.
  induction rs as [|r rs IH]; intros i front cur Hcur Hi; cbn [serialize_loop group].
  { simpl. by rewrite app_nil_r. }
  unfold MaxReportsPerPacket. destruct (Z.eqb_spec (zlen cur) 31) as [H31|Hn].
  - rewrite H31 in Hi. change (31 mod 31) with 0 in Hi.
    pose proof (serialize_report_ok p i 0 (zlen front) (front ++ chunk_bytes (ssrc p) cur) r []
                  0 0 Hi) as H. cbn [Z.eqb] in H. rewrite H by done. cbn [mbind res_bind].
    rewrite IH; [|change (zlen ([] ++ [r])) with 1; lia|
                 change (zlen ([] ++ [r])) with 1; by rewrite <- Zplus_mod_idemp_l, Hi].
    cbn [app]. rewrite fmap_cons. cbn [concat]. by rewrite <- app_assoc.
  - rewrite (Z.mod_small (zlen cur)) in Hi by lia.
    pose proof (serialize_report_ok p i (zlen cur) (zlen front) front r cur
                  (zlen cur) (8 + 24 * zlen cur) Hi) as H.
    destruct (Z.eqb_spec (zlen cur) 0); [lia|]. unfold chunk_bytes at 1.
    rewrite H by (done || lia). cbn [mbind res_bind].
    assert (Hl : zlen (cur ++ [r]) = zlen cur + 1) by (by rewrite zlen_app).
    rewrite IH; [done|lia|]. rewrite Hl, <- Zplus_mod_idemp_l, Hi. done.
Qed.

(** [Serialize] writes one RTCP packet for each group of up to 31 reports. *)
Lemma rr_Serialize_groups p :
  Serialize p = Ok (concat (chunk_bytes (ssrc p) <$> groups (reports p))).
Proof.
  unfold Serialize. destruct (reports p) as [|r rs]; [done|]. cbn [serialize_loop groups].
  pose proof (serialize_report_ok p 0 0 0 [] r [] 0 0 eq_refl) as H. cbn [Z.eqb] in H.
  rewrite H by done. cbn [mbind res_bind app].
  by apply (rr_serialize_loop_ok p rs (0 + 1) [] [r]).
Qed.

(** ** Parsing *)

Definition report_ok (r : list Z) : Prop := zlen r = 24.

Lemma parse_reports_safe count : forall data offset,
  0 <= offset -> exists rs, parse_reports count data offset = Ok rs /\ Forall report_ok rs.
Proof.
  induction count as [|count IH]; intros data offset Ho; cbn [parse_reports];
    [eauto using Forall_nil_2|].
  destruct (Z.leb_spec (zlen data) offset); [eauto using Forall_nil_2|].
  rewrite sub_ok by lia. cbn [mbind res_bind]. unfold ReceiverReport.Parse.
  destruct (Z.ltb_spec (zlen (drop (Z.to_nat offset) data)) ReceiverReport.HeaderSize);
    [eauto using Forall_nil_2|].
  unfold ReceiverReport.GetSize, ReceiverReport.HeaderSize in *.
  destruct (IH data (offset + 24)) as (rs & -> & Hrs); [lia|]. cbn [mbind res_bind].
  eexists. split; [done|]. constructor; [|done]. unfold report_ok. rewrite zlen_take. lia.
Qed.

Lemma rr_Parse_safe data offset :
  0 <= offset -> exists p, Parse data offset = Ok p.
Proof.
  intros Ho. unfold Parse, Packet.CommonHeaderSize.
  destruct (Z.ltb_spec (zlen data) (4 + 4)); [eauto|].
  destruct (Get4Bytes_safe data 4) as [s ->]; [lia..|]. cbn [mbind res_bind].
  unfold Packet.hdr_count. read_ok. cbn [mret res_ret mbind res_bind]. cbv zeta.
  destruct (parse_reports_safe (Z.to_nat (b mod 32)) data (if offset =? 0 then 4 + 4 else offset))
    as (rs & -> & _); [case_match; lia|]. cbn. eauto.
Qed.

Lemma parse_reports_concat rs : forall front,
  Forall report_ok rs ->
  parse_reports (length rs) (front ++ concat rs) (zlen front) = Ok rs.
Proof.
  induction rs as [|r rs IH]; intros front Hrs; [done|].
  apply list.Forall_cons in Hrs as [Hr Hrs]. unfold report_ok in Hr.
  cbn [length parse_reports concat]. pose proof (zlen_nonneg (concat rs)).
  rewrite (proj2 (Z.leb_gt _ _)) by (rewrite !zlen_app; lia).
  rewrite sub_app by done. cbn [mbind res_bind]. unfold ReceiverReport.Parse.
  unfold ReceiverReport.GetSize, ReceiverReport.HeaderSize.
  rewrite (proj2 (Z.ltb_ge _ _)) by (rewrite zlen_app; lia).
  assert (Ht : take (Z.to_nat 24) (r ++ concat rs) = r).
  { replace (Z.to_nat 24) with (length r) by (unfold zlen in Hr; lia). apply take_app_length. }
  rewrite Ht. specialize (IH (front ++ r) Hrs). rewrite <- app_assoc in IH.
  replace (zlen front + 24) with (zlen (front ++ r)) by (rewrite zlen_app; lia).
  by rewrite IH.
Qed.

(** A packet written with up to 31 reports is read back. *)
Lemma rr_Parse_chunk s rs :
  fits 32 s -> Forall report_ok rs -> zlen rs <= 31 ->
  Parse (chunk_bytes s rs) 0 = Ok (Some {| ssrc := s; reports := rs |}).
Proof.
  intros Hs Hrs Hn. pose proof (zlen_nonneg rs). unfold Parse, chunk_bytes, Packet.CommonHeaderSize.
  rewrite (proj2 (Z.ltb_ge _ _)).
  2:{ rewrite !zlen_app, zlen_Serialize, zlen_be4. pose proof (zlen_nonneg (concat rs)). lia. }
  rewrite (Get4Bytes_app _ _ 0) by done. rewrite Get4Bytes_front, uwrap_id by done.
  cbn [mbind res_bind]. rewrite hdr_count_Serialize by lia. cbn [mbind res_bind Z.eqb].
  replace (Z.to_nat (zlen rs)) with (length rs) by (unfold zlen; lia).
  rewrite app_assoc. rewrite (parse_reports_concat rs (Packet.Serialize _ _ _ ++ Byte.be4 s)) by done.
  done.
Qed.

Lemma concat_reports_len rs : Forall report_ok rs -> zlen (concat rs) = 24 * zlen rs.
Proof.
  induction 1 as [|r rs Hr _ IH]; [done|]. cbn [concat]. rewrite zlen_app, zlen_cons, IH.
  unfold report_ok in Hr. lia.
Qed.

Lemma rr_zlen_chunk s rs : Forall report_ok rs -> zlen (chunk_bytes s rs) = 8 + 24 * zlen rs.
Proof.
  intros H. unfold chunk_bytes. rewrite !zlen_app, zlen_Serialize, zlen_be4.
  rewrite concat_reports_len by done. lia.
Qed.

Lemma zlen_chunks s gs :
  Forall (Forall report_ok) gs ->
  zlen (concat (chunk_bytes s <$> gs)) = 8 * zlen gs + 24 * zlen (concat gs).
Proof.
  induction 1 as [|g gs Hg _ IH]; [done|]. rewrite fmap_cons. cbn [concat].
  rewrite !zlen_app, zlen_cons, IH, rr_zlen_chunk by done. lia.
Qed.

(** [Serialize] always succeeds; the bytes are those of one RTCP packet for each
    31 reports, all reports in order; and [GetSize] is their number, except that a
    number of reports that is a multiple of 31 (0 included) makes it count 8 bytes
    of one packet more, which is not written. *)
Theorem rr_serialize_spec p :
  Forall report_ok (reports p) ->
  exists out, Serialize p = Ok out /\
    out = concat (chunk_bytes (ssrc p) <$> groups (reports p)) /\
    concat (groups (reports p)) = reports p /\
    Forall (fun g => 1 <= zlen g <= 31) (groups (reports p)) /\
    GetSize p = zlen out + (if GetCount p mod 31 =? 0 then 8 else 0).
Proof.
  intros Hok. eexists. split; [apply rr_Serialize_groups|].
  split_and!; [done|apply groups_concat|apply groups_bounds|].
  rewrite zlen_chunks, zlen_groups, groups_concat by (by apply groups_Forall).
  unfold GetSize, GetCount, Packet.CommonHeaderSize, MaxReportsPerPacket, ReceiverReport.HeaderSize.
  pose proof (zlen_nonneg (reports p)). case_cmp; Z.div_mod_to_equations; lia.
Qed.

Lemma rr_serialize_spec_witness :
  let p := {| ssrc := 7; reports := replicate 40 (replicate 24 1) |} in
  exists out, Serialize p = Ok out /\
    out = concat (chunk_bytes 7 <$> groups (reports p)) /\
    concat (groups (reports p)) = reports p /\
    Forall (fun g => 1 <= zlen g <= 31) (groups (reports p)) /\
    GetSize p = zlen out + (if GetCount p mod 31 =? 0 then 8 else 0).
Proof.
  intros p. apply (rr_serialize_spec p). vm_compute. repeat constructor.
Defined.

End ReceiverReportPacket.

Module SenderReport.

Definition HeaderSize : Z := 24.

Definition Parse (data : list Z) : option (list Z) :=
  if zlen data <? HeaderSize then None else Some (take (Z.to_nat HeaderSize) data).

Definition Serialize (header : list Z) : list Z := header.
Definition GetSize (header : list Z) : Z := HeaderSize.

Definition GetSsrc (header : list Z) : res Z := Byte.Get4Bytes header 0.
Definition SetSsrc (header : list Z) (v : Z) := Byte.Set4Bytes header 0 v.
Definition GetNtpSec (header : list Z) : res Z := Byte.Get4Bytes header 4.
Definition SetNtpSec (header : list Z) (v : Z) := Byte.Set4Bytes header 4 v.
Definition GetNtpFrac (header : list Z) : res Z := Byte.Get4Bytes header 8.
Definition SetNtpFrac (header : list Z) (v : Z) := Byte.Set4Bytes header 8 v.
Definition GetRtpTs (header : list Z) : res Z := Byte.Get4Bytes header 12.
Definition SetRtpTs (header : list Z) (v : Z) := Byte.Set4Bytes header 12 v.
Definition GetPacketCount (header : list Z) : res Z := Byte.Get4Bytes header 16.
Definition SetPacketCount (header : list Z) (v : Z) := Byte.Set4Bytes header 16 v.
Definition GetOctetCount (header : list Z) : res Z := Byte.Get4Bytes header 20.
Definition SetOctetCount (header : list Z) (v : Z) := Byte.Set4Bytes header 20 v.

End SenderReport.

Module SenderReportPacket.

Record t := { reports : list (list Z) }.

Definition Parse (data : list Z) : res (option t) :=
  d ← sub data Packet.CommonHeaderSize;
  mret (Some {| reports := match SenderReport.Parse d with Some r => [r] | None => [] end |}).

Definition GetCount (p : t) : Z := zlen (reports p).

Definition GetSize (p : t) : Z :=
  foldr (fun r size => Packet.CommonHeaderSize + SenderReport.GetSize r + size) 0 (reports p).

Fixpoint serialize_loop (p : t) (out : list Z) (rs : list (list Z)) : res (list Z) :=
  match rs with
  | [] => mret out
  | r :: rs' =>
      let header := zlen out in
      let out := out ++ Packet.Serialize Packet.SR (GetCount p) (GetSize p) ++
                 SenderReport.Serialize r in
      out ← Packet.set_count out header 0;
      let length := Packet.CommonHeaderSize + SenderReport.HeaderSize in
      out ← Packet.set_length out header (length / 4 - 1);
      serialize_loop p out rs'
  end.

Definition Serialize (p : t) : res (list Z) := serialize_loop p [] (reports p).

(** The bytes of one sender report packet. *)
Definition report_bytes (r : list Z) : list Z := Packet.Serialize Packet.SR 0 28 ++ r.

Lemma sr_serialize_loop_ok p rs : forall out,
  serialize_loop p out rs = Ok (out ++ concat (report_bytes <$> rs)).
Proof.
  induction rs as [|r rs IH]; intros out; cbn [serialize_loop]; [by rewrite app_nil_r|].
  pose proof (set_header Packet.SR (GetCount p) (GetSize p) 0 28 out r ltac:(lia)) as H.
  unfold SenderReport.Serialize, Packet.CommonHeaderSize, SenderReport.HeaderSize.
  destruct (Packet.set_count _ _ _); [|done]. cbn [mbind res_bind] in H |- *.
  change ((4 + 24) / 4 - 1) with (28 / 4 - 1). rewrite H. cbn [mbind res_bind].
  rewrite IH, fmap_cons. cbn [concat]. unfold report_bytes. by rewrite <- !app_assoc.
Qed.

Lemma sr_Serialize_ok p : Serialize p = Ok (concat (report_bytes <$> reports p)).
Proof. apply (sr_serialize_loop_ok p (reports p) []). Qed.

Lemma sr_Parse_safe data : 4 <= zlen data -> exists p, Parse data = Ok (Some p).
Proof.
  intros H. unfold Parse. rewrite sub_ok by (unfold Packet.CommonHeaderSize; lia). cbn. eauto.
Qed.

Lemma Parse_report r : zlen r = 24 -> Parse (report_bytes r) = Ok (Some {| reports := [r] |}).
Proof.
  intros Hr. unfold Parse, report_bytes. rewrite sub_app by done. cbn [mbind res_bind].
  unfold SenderReport.Parse, SenderReport.HeaderSize. rewrite Hr. cbn [Z.ltb Z.compare].
  rewrite firstn_all2 by (unfold zlen in Hr; lia). done.
Qed.

End SenderReportPacket.
