(* ===== verification/RtcpSdes.v ===== *)
(** * RTCP source description and goodbye packets

    Models [worker/src/RTC/RTCP/Sdes.cpp], [Bye.cpp] and their headers.  An SDES
    item, which the code keeps as a pointer to its header, is the list of its
    bytes: type, length, value. *)

From S2P Require Import Prelude Utils RtcpPacket.

(** [(n + 3) & ~3] and [(-n) & 3]. *)
Definition align4 (n : Z) : Z := Z.land (n + 3) (Z.lnot 3).
Definition padding4 (n : Z) : Z := Z.land (- n) 3.

Lemma padding4_mod n : padding4 n = (- n) mod 4.
Proof. apply (land_ones_mod _ 2). lia. Qed.

Lemma align4_padding n : align4 n = n + padding4 n.
Proof.
  rewrite padding4_mod. unfold align4. change 3 with (Z.ones 2) at 2.
  rewrite <- Z.ldiff_land, Z.ldiff_ones_r, Z.shiftl_mul_pow2, Z.shiftr_div_pow2 by lia.
  change (2 ^ 2) with 4. Z.div_mod_to_equations. lia.
Qed.

Lemma padding4_range n : 0 <= padding4 n < 4.
Proof. rewrite padding4_mod. apply Z.mod_pos_bound. lia. Qed.

Definition zeros (n : Z) : list Z := replicate (Z.to_nat n) 0.

Lemma zlen_zeros n : 0 <= n -> zlen (zeros n) = n.
Proof. intros. unfold zeros, zlen. rewrite length_replicate. lia. Qed.

Module SdesItem.

Definition HeaderSize : Z := 2.
Definition END : Z := 0.

Definition Parse (data : list Z) : res (option (list Z)) :=
  if zlen data <? HeaderSize then mret None
  else
    length ← read data 1;
    if zlen data <? 1 * 2 + length then mret None
    else
      type ← read data 0;
      if type =? END then mret None
      else
        item ← bytes_at data 0 (2 + length);
        mret (Some item).

(** [SdesItem(type, len, value)]. *)
Definition create (type : Z) (value : list Z) : list Z :=
  type :: u8 (zlen value) :: take (Z.to_nat (u8 (zlen value))) value.

Definition GetSize (item : list Z) : res Z := length ← read item 1; mret (2 + length).

Definition Serialize (item : list Z) : res (list Z) :=
  head ← bytes_at item 0 2;
  length ← read item 1;
  value ← bytes_at item 2 length;
  mret (head ++ value).

(** An item that is more than its end mark and has the length it says. *)
Definition ok (item : list Z) : Prop :=
  exists t n value, item = t :: n :: value /\ t <> END /\ n = zlen value.

Lemma item_GetSize_ok item : ok item -> GetSize item = Ok (zlen item).
Proof.
  intros (t & n & value & -> & _ & ->). unfold GetSize.
  change (read (t :: zlen value :: value) 1) with (Ok (zlen value) : res Z).
  cbn [mbind res_bind mret res_ret]. rewrite !zlen_cons. f_equal. lia.
Qed.

Lemma item_Serialize_ok item : ok item -> Serialize item = Ok item.
Proof.
  intros (t & n & value & -> & _ & ->). unfold Serialize.
  rewrite (bytes_at_app [] [t; zlen value] value 0 2 eq_refl eq_refl :
             bytes_at (t :: zlen value :: value) 0 2 = _). cbn [mbind res_bind].
  change (read (t :: zlen value :: value) 1) with (Ok (zlen value) : res Z). cbn [mbind res_bind].
  pose proof (bytes_at_app [t; zlen value] value [] 2 _ eq_refl eq_refl) as H.
  rewrite app_nil_r in H. cbn [app] in H. by rewrite H.
Qed.

Lemma item_Parse_safe data :
  bytes_ok data ->
  exists r, Parse data = Ok r /\ forall item, r = Some item -> ok item /\ zlen item <= zlen data.
Proof.
  intros Hd. unfold Parse, HeaderSize, END.
  destruct (Z.ltb_spec (zlen data) 2); [by eexists|].
  destruct (read_in_range data 1) as (n & En & _); [lia|]. rewrite En. cbn [mbind res_bind].
  pose proof (read_bytes_ok _ _ _ Hd En) as Hn. unfold fits in Hn.
  destruct (Z.ltb_spec (zlen data) (1 * 2 + n)); [by eexists|].
  destruct (read_in_range data 0) as (t & Et & _); [lia|]. rewrite Et. cbn [mbind res_bind].
  destruct (Z.eqb_spec t 0); [by eexists|]. rewrite bytes_at_ok by lia. cbn [mbind res_bind].
  eexists. split; [done|]. intros item Heq. injection Heq as <-.
  destruct data as [|t' [|n' value]]; [done|rewrite zlen_cons, zlen_nil in *; lia|].
  change (Ok n' = Ok n :> res Z) in En. change (Ok t' = Ok t :> res Z) in Et. simplify_eq. rewrite drop_0, zlen_take, !zlen_cons in *.
  split; [|lia]. replace (Z.to_nat (2 + n)) with (S (S (Z.to_nat n))) by lia.
  exists t, n, (take (Z.to_nat n) value). split_and!; [done|unfold END; done|]. rewrite zlen_take. lia.
Qed.

(** An item is parsed from the front of any bytes. *)
Lemma Parse_item item rest :
  ok item -> Parse (item ++ rest) = Ok (Some item).
Proof.
  intros Hok. pose proof Hok as (t & n & value & Heq & Ht & Hn).
  pose proof (zlen_nonneg value). pose proof (zlen_nonneg rest).
  assert (Hl : zlen item = 2 + n) by (rewrite Heq, !zlen_cons; lia).
  unfold Parse, HeaderSize. rewrite (proj2 (Z.ltb_ge _ 2)) by (rewrite zlen_app; lia).
  rewrite !read_app_l by lia. rewrite Heq at 1. cbn [read lookup list_lookup].
  change (read (t :: n :: value) 1) with (Ok n : res Z). cbn [mbind res_bind].
  rewrite (proj2 (Z.ltb_ge _ (1 * 2 + n))) by (rewrite zlen_app; lia).
  rewrite Heq at 1. change (read (t :: n :: value) 0) with (Ok t : res Z). cbn [mbind res_bind].
  rewrite (proj2 (Z.eqb_neq t END)) by done.
  rewrite (bytes_at_app [] item rest) by (done || lia). done.
Qed.

(** A zero type byte, or too few bytes, end the items. *)
Lemma Parse_end data : (forall b, read data 0 = Ok b -> b = 0) -> bytes_ok data ->
  Parse data = Ok None.
Proof.
  intros H0 Hd. unfold Parse, HeaderSize, END.
  destruct (Z.ltb_spec (zlen data) 2); [done|].
  destruct (read_in_range data 1) as (n & -> & _); [lia|]. cbn [mbind res_bind].
  destruct (Z.ltb_spec (zlen data) (1 * 2 + n)); [done|].
  destruct (read_in_range data 0) as (t & Et & _); [lia|]. rewrite Et. cbn [mbind res_bind].
  by rewrite (H0 t Et).
Qed.

End SdesItem.

Module SdesChunk.

Record t := { ssrc : Z; items : list (list Z) }.

(** The loop [while (len > offset)]. *)
Fixpoint parse_items (fuel : nat) (data : list Z) (offset : Z) : res (list (list Z)) :=
  if zlen data <=? offset then mret []
  else
    match fuel with
    | O => Fault OutOfFuel
    | S fuel' =>
        d ← sub data offset;
        r ← SdesItem.Parse d;
        match r with
        | None => mret []
        | Some item =>
            size ← SdesItem.GetSize item;
            rest ← parse_items fuel' data (offset + size);
            mret (item :: rest)
        end
    end.

Definition Parse (data : list Z) : res (option t) :=
  if zlen data <? 4 then mret None
  else
    ssrc ← Byte.Get4Bytes data 0;
    items ← parse_items (length data) data 4;
    mret (Some {| ssrc := ssrc; items := items |}).

Fixpoint items_size (l : list (list Z)) : res Z :=
  match l with
  | [] => mret 0
  | item :: l' => n ← SdesItem.GetSize item; m ← items_size l'; mret (n + m)
  end.

Definition GetSize (c : t) : res Z := n ← items_size (items c); mret (align4 (4 + n)).

Fixpoint serialize_items (l : list (list Z)) : res (list Z) :=
  match l with
  | [] => mret []
  | item :: l' => b ← SdesItem.Serialize item; rest ← serialize_items l'; mret (b ++ rest)
  end.

Definition Serialize (c : t) : res (list Z) :=
  body ← serialize_items (items c);
  let out := Byte.be4 (ssrc c) ++ body in
  mret (out ++ zeros (padding4 (zlen out))).

(** ** Round trip *)

Definition ok (c : t) : Prop := fits 32 (ssrc c) /\ Forall SdesItem.ok (items c).

(** The bytes of a chunk before its padding, and its padding. *)
Definition body_size (c : t) : Z := 4 + zlen (concat (items c)).
Definition chunk_bytes (c : t) : list Z :=
  Byte.be4 (ssrc c) ++ concat (items c) ++ zeros (padding4 (body_size c)).

Lemma serialize_items_ok l : Forall SdesItem.ok l -> serialize_items l = Ok (concat l).
Proof.
  induction 1 as [|item l Hi _ IH]; [done|]. cbn [serialize_items].
  rewrite (SdesItem.item_Serialize_ok _ Hi). cbn [mbind res_bind]. by rewrite IH.
Qed.

Lemma items_size_ok l : Forall SdesItem.ok l -> items_size l = Ok (zlen (concat l)).
Proof.
  induction 1 as [|item l Hi _ IH]; [done|]. cbn [items_size].
  rewrite (SdesItem.item_GetSize_ok _ Hi). cbn [mbind res_bind]. rewrite IH. cbn.
  by rewrite zlen_app.
Qed.

Lemma sdes_chunk_Serialize_ok c : ok c -> Serialize c = Ok (chunk_bytes c).
Proof.
  intros [_ Hi]. unfold Serialize. rewrite serialize_items_ok by done. cbn [mbind res_bind].
  unfold chunk_bytes, body_size. by rewrite zlen_app, zlen_be4, <- app_assoc.
Qed.

Lemma body_size_nonneg c : 4 <= body_size c.
Proof. unfold body_size. pose proof (zlen_nonneg (concat (items c))). lia. Qed.

Lemma sdes_chunk_zlen_chunk c : zlen (chunk_bytes c) = align4 (body_size c).
Proof.
  unfold chunk_bytes. pose proof (padding4_range (body_size c)).
  rewrite !zlen_app, zlen_be4, zlen_zeros by lia. rewrite align4_padding.
  unfold body_size. lia.
Qed.

Lemma sdes_chunk_GetSize_ok c : ok c -> GetSize c = Ok (zlen (chunk_bytes c)).
Proof.
  intros [_ Hi]. unfold GetSize. rewrite items_size_ok by done. cbn [mbind res_bind mret res_ret]. by rewrite sdes_chunk_zlen_chunk.
Qed.

(** Parsing items never fails, and finds items within the bytes. *)
Lemma parse_items_safe fuel : forall data offset,
  bytes_ok data -> 0 <= offset -> zlen data - offset <= Z.of_nat fuel ->
  exists l, parse_items fuel data offset = Ok l /\ Forall SdesItem.ok l.
Proof.
  induction fuel as [|fuel IH]; intros data offset Hd Ho Hf; cbn [parse_items];
    (destruct (Z.leb_spec (zlen data) offset); [eauto using Forall_nil_2|]); [lia|].
  rewrite sub_ok by lia. cbn [mbind res_bind].
  destruct (SdesItem.item_Parse_safe (drop (Z.to_nat offset) data)) as (r & -> & Hr);
    [by apply Forall_drop|]. cbn [mbind res_bind].
  destruct r as [item|]; [|eauto using Forall_nil_2].
  destruct (Hr item eq_refl) as [Hi _]. rewrite (SdesItem.item_GetSize_ok _ Hi). cbn [mbind res_bind].
  pose proof Hi as (t' & n & v & Heq & _ & _). assert (2 <= zlen item).
  { rewrite Heq, !zlen_cons. pose proof (zlen_nonneg v). lia. }
  destruct (IH data (offset + zlen item)) as (l & -> & Hl); [done|lia|lia|]. cbn.
  eexists. split; [done|]. by constructor.
Qed.

(** Items followed by an end mark, or by nothing, are read back. *)
Lemma parse_items_concat l : forall fuel front rest,
  Forall SdesItem.ok l -> bytes_ok rest -> (forall b, read rest 0 = Ok b -> b = 0) ->
  (length (front ++ concat l ++ rest) - length front <= fuel)%nat ->
  parse_items fuel (front ++ concat l ++ rest) (zlen front) = Ok l.
Proof.
  induction l as [|item l IH]; intros fuel front rest Hl Hb Hr Hf.
  - destruct fuel as [|fuel]; cbn [parse_items concat app] in *.
    + rewrite (proj2 (Z.leb_le _ _)); [done|]. rewrite length_app in Hf.
      rewrite zlen_app. unfold zlen. lia.
    + case_cmp; [done|]. rewrite sub_app by done. cbn [mbind res_bind].
      by rewrite SdesItem.Parse_end.
  - apply list.Forall_cons in Hl as [Hi Hl]. pose proof Hi as (t' & n & v & Heq & _ & _).
    assert (Hlen : (2 <= length item)%nat) by (rewrite Heq; simpl; lia).
    cbn [concat] in *. rewrite <- app_assoc in *. rewrite !length_app in Hf.
    destruct fuel as [|fuel]; [lia|]. cbn [parse_items].
    rewrite (proj2 (Z.leb_gt _ _)) by (rewrite !zlen_app; unfold zlen; lia).
    rewrite sub_app by done. cbn [mbind res_bind]. rewrite SdesItem.Parse_item by done.
    cbn [mbind res_bind]. rewrite (SdesItem.item_GetSize_ok _ Hi). cbn [mbind res_bind].
    specialize (IH fuel (front ++ item) rest Hl Hb Hr).
    rewrite <- app_assoc, zlen_app in IH. rewrite IH; [done|].
    rewrite !length_app. lia.
Qed.

(** A chunk is read back from the front of [rest] when its padding marks its end,
    or when nothing follows. *)
Lemma sdes_chunk_Parse_chunk c rest :
  ok c -> bytes_ok rest -> (padding4 (body_size c) = 0 -> rest = []) ->
  Parse (chunk_bytes c ++ rest) = Ok (Some c).
Proof.
  intros [Hs Hi] Hb Hrest. unfold Parse, chunk_bytes. rewrite <- !app_assoc.
  set (tail := zeros (padding4 (body_size c)) ++ rest).
  rewrite (proj2 (Z.ltb_ge _ _)).
  2:{ rewrite zlen_app, zlen_be4. pose proof (zlen_nonneg (concat (items c) ++ tail)). lia. }
  rewrite Get4Bytes_front, uwrap_id by done. cbn [mbind res_bind].
  change 4 with (zlen (Byte.be4 (ssrc c))) at 1.
  pose proof (padding4_range (body_size c)) as Hp.
  rewrite parse_items_concat; [by destruct c|done| | |rewrite !length_app; lia].
  - apply Forall_app. split; [|done]. apply Forall_replicate. by vm_compute.
  - intros b Hr. unfold tail in Hr. destruct (Z.eq_dec (padding4 (body_size c)) 0) as [E|E].
    + rewrite (Hrest E), E in Hr. discriminate Hr.
    + unfold zeros in Hr.
      replace (Z.to_nat (padding4 (body_size c))) with
        (S (pred (Z.to_nat (padding4 (body_size c))))) in Hr by lia.
      cbn in Hr. by injection Hr.
Qed.

Lemma sdes_chunk_Parse_safe data :
  bytes_ok data ->
  exists r, Parse data = Ok r /\ forall c, r = Some c -> Forall SdesItem.ok (items c).
Proof.
  intros Hd. unfold Parse. destruct (Z.ltb_spec (zlen data) 4); [by eexists|].
  destruct (Get4Bytes_safe data 0) as [s ->]; [lia..|]. cbn [mbind res_bind].
  destruct (parse_items_safe (length data) data 4) as (l & -> & Hl); [done|lia|unfold zlen; lia|].
  cbn. eexists. split; [done|]. by intros c [= <-].
Qed.

End SdesChunk.

Module SdesPacket.

Definition MaxChunksPerPacket : Z := 31.

Record t := { chunks : list SdesChunk.t }.

(** The loop [while ((count-- != 0u) && (len > offset))]. *)
Fixpoint parse_chunks (count : nat) (data : list Z) (offset : Z) : res (list SdesChunk.t) :=
  match count with
  | O => mret []
  | S count' =>
      if zlen data <=? offset then mret []
      else
        d ← sub data offset;
        r ← SdesChunk.Parse d;
        match r with
        | Some chunk =>
            size ← SdesChunk.GetSize chunk;
            rest ← parse_chunks count' data (offset + size);
            mret (chunk :: rest)
        | None => mret []
        end
  end.

Definition Parse (data : list Z) : res (option t) :=
  count ← Packet.hdr_count data;
  chunks ← parse_chunks (Z.to_nat count) data Packet.CommonHeaderSize;
  mret (Some {| chunks := chunks |}).

Definition GetCount (p : t) : Z := zlen (chunks p).

Fixpoint chunks_size (l : list SdesChunk.t) : res Z :=
  match l with
  | [] => mret 0
  | c :: l' => n ← SdesChunk.GetSize c; m ← chunks_size l'; mret (n + m)
  end.

Definition GetSize (p : t) : res Z :=
  n ← chunks_size (chunks p);
  mret (Packet.CommonHeaderSize * (GetCount p / MaxChunksPerPacket + 1) + n).

(** One turn of the loop of [Serialize]. *)
Definition serialize_chunk (p : t) (i header length : Z) (out : list Z) (chunk : SdesChunk.t)
    : res (Z * Z * list Z) :=
  '(header, length, out) ←
    (if i mod MaxChunksPerPacket =? 0 then
       size ← GetSize p;
       mret (zlen out, Packet.CommonHeaderSize,
             out ++ Packet.Serialize Packet.SDES (GetCount p) size)
     else mret (header, length, out));
  bytes ← SdesChunk.Serialize chunk;
  let out := out ++ bytes in
  let length := length + zlen bytes in
  out ← Packet.set_count out header (u8 (i mod MaxChunksPerPacket + 1));
  out ← Packet.set_length out header (length / 4 - 1);
  mret (header, length, out).

Fixpoint serialize_loop (p : t) (i header length : Z) (out : list Z) (cs : list SdesChunk.t)
    : res (list Z) :=
  match cs with
  | [] => mret out
  | c :: cs' =>
      '(header, length, out) ← serialize_chunk p i header length out c;
      serialize_loop p (i + 1) header length out cs'
  end.

Definition Serialize (p : t) : res (list Z) := serialize_loop p 0 0 0 [] (chunks p).

(** ** What is serialized *)

Definition chunks_bytes (cs : list SdesChunk.t) : list Z := concat (SdesChunk.chunk_bytes <$> cs).

Definition packet_bytes (cs : list SdesChunk.t) : list Z :=
  Packet.Serialize Packet.SDES (zlen cs) (4 + zlen (chunks_bytes cs)) ++ chunks_bytes cs.

Lemma chunks_size_ok l : Forall SdesChunk.ok l -> chunks_size l = Ok (zlen (chunks_bytes l)).
Proof.
  induction 1 as [|c l Hc _ IH]; [done|]. cbn [chunks_size].
  rewrite (SdesChunk.sdes_chunk_GetSize_ok _ Hc). cbn [mbind res_bind]. rewrite IH.
  cbn [mbind res_bind mret res_ret]. unfold chunks_bytes. rewrite fmap_cons. cbn [concat].
  by rewrite zlen_app.
Qed.

Lemma chunks_bytes_snoc cs c :
  chunks_bytes (cs ++ [c]) = chunks_bytes cs ++ SdesChunk.chunk_bytes c.
Proof. unfold chunks_bytes. rewrite fmap_app, concat_app. cbn. by rewrite app_nil_r. Qed.

(** One turn adds the chunk to the packet being written. *)
Lemma serialize_chunk_ok p i k h len front c cur c0 n0 :
  Forall SdesChunk.ok (chunks p) -> SdesChunk.ok c ->
  i mod 31 = k -> 0 <= k -> zlen cur = k ->
  (k <> 0 -> h = zlen front /\ len = 4 + zlen (chunks_bytes cur)) ->
  serialize_chunk p i h len
    (if k =? 0 then front
     else front ++ Packet.Serialize Packet.SDES c0 n0 ++ chunks_bytes cur) c =
  Ok (zlen front, 4 + zlen (chunks_bytes (cur ++ [c])), front ++ packet_bytes (cur ++ [c])).
Proof.
  intros Hp Hc Hi Hk Hcur Hh. unfold serialize_chunk, MaxChunksPerPacket. rewrite Hi.
  assert (k < 31) by (rewrite <- Hi; apply Z.mod_pos_bound; lia).
  assert (Hl : zlen (cur ++ [c]) = k + 1) by (rewrite zlen_app, Hcur; done).
  assert (Hgo : forall c1 n1 tail n2, (out ← Packet.set_count
      (front ++ Packet.Serialize Packet.SDES c1 n1 ++ tail) (zlen front) (u8 (k + 1));
      out ← Packet.set_length out (zlen front) (n2 / 4 - 1); mret (zlen front, n2, out)) =
    Ok (zlen front, n2, front ++ Packet.Serialize Packet.SDES (k + 1) n2 ++ tail)).
  { intros c1 n1 tail n2. rewrite uwrap_id by (unfold fits; pow2_consts; lia).
    pose proof (set_header Packet.SDES c1 n1 (k + 1) n2 front tail ltac:(lia)) as H'.
    destruct (Packet.set_count _ _ _); [|done]. cbn [mbind res_bind] in *. by rewrite H'. }
  unfold packet_bytes. rewrite Hl, chunks_bytes_snoc, zlen_app.
  destruct (Z.eqb_spec k 0) as [->|Hne].
  - apply zlen_0_nil in Hcur. subst cur. unfold GetSize. rewrite chunks_size_ok by done.
    cbn [mbind res_bind mret res_ret]. rewrite SdesChunk.sdes_chunk_Serialize_ok by done.
    cbn [mbind res_bind]. rewrite <- !app_assoc. unfold Packet.CommonHeaderSize.
    rewrite Hgo. by rewrite Z.add_0_l.
  - destruct (Hh Hne) as [-> ->]. cbn [mbind res_bind mret res_ret].
    rewrite SdesChunk.sdes_chunk_Serialize_ok by done. cbn [mbind res_bind]. rewrite <- !app_assoc, <- Z.add_assoc.
    by rewrite Hgo.
Qed.

Lemma sdes_serialize_loop_ok p cs : Forall SdesChunk.ok (chunks p) -> Forall SdesChunk.ok cs ->
  forall i front cur,
  1 <= zlen cur <= 31 -> i mod 31 = zlen cur mod 31 ->
  serialize_loop p i (zlen front) (4 + zlen (chunks_bytes cur)) (front ++ packet_bytes cur) cs =
  Ok (front ++ concat (packet_bytes <$> group cur cs)).
Proof.
  intros Hp Hcs. induction Hcs as [|c cs Hc _ IH]; intros i front cur Hcur Hi;
    cbn [serialize_loop group].
  { simpl. by rewrite app_nil_r. }
  destruct (Z.eqb_spec (zlen cur) 31) as [H31|Hn].
  - rewrite H31 in Hi. change (31 mod 31) with 0 in Hi.
    pose proof (serialize_chunk_ok p i 0 (zlen front) (4 + zlen (chunks_bytes cur))
      (front ++ packet_bytes cur) c [] 0 0 Hp Hc Hi) as H. cbn [Z.eqb] in H.
    rewrite H by done. cbn [mbind res_bind].
    rewrite IH; [|change (zlen ([] ++ [c])) with 1; lia|
                 change (zlen ([] ++ [c])) with 1; by rewrite <- Zplus_mod_idemp_l, Hi].
    cbn [app]. rewrite fmap_cons. cbn [concat]. by rewrite <- app_assoc.
  - rewrite (Z.mod_small (zlen cur)) in Hi by lia.
    pose proof (serialize_chunk_ok p i (zlen cur) (zlen front) (4 + zlen (chunks_bytes cur))
      front c cur (zlen cur) (4 + zlen (chunks_bytes cur)) Hp Hc Hi) as H.
    destruct (Z.eqb_spec (zlen cur) 0); [lia|]. unfold packet_bytes at 1.
    rewrite H by (done || lia). cbn [mbind res_bind].
    assert (Hl : zlen (cur ++ [c]) = zlen cur + 1) by (by rewrite zlen_app).
    rewrite IH; [done|lia|]. rewrite Hl, <- Zplus_mod_idemp_l, Hi. done.
Qed.

(** [Serialize] writes one RTCP packet for each group of up to 31 chunks. *)
Lemma sdes_Serialize_groups p :
  Forall SdesChunk.ok (chunks p) -> Serialize p = Ok (concat (packet_bytes <$> groups (chunks p))).
Proof.
  intros Hp. unfold Serialize. pose proof Hp as Hp'.
  destruct (chunks p) as [|c cs] eqn:E; [done|]. cbn [serialize_loop groups].
  apply list.Forall_cons in Hp' as [Hc Hcs]. rewrite <- E in Hp.
  pose proof (serialize_chunk_ok p 0 0 0 0 [] c [] 0 0 Hp Hc eq_refl) as H. cbn [Z.eqb] in H.
  rewrite H by done. cbn [mbind res_bind app].
  by apply (sdes_serialize_loop_ok p cs Hp Hcs (0 + 1) [] [c]).
Qed.

(** ** Parsing *)

Lemma chunks_size_pos c n : Forall SdesItem.ok (SdesChunk.items c) ->
  SdesChunk.GetSize c = Ok n -> 4 <= n.
Proof.
  intros Hi H. unfold SdesChunk.GetSize in H. rewrite SdesChunk.items_size_ok in H by done.
  injection H as <-. rewrite align4_padding. pose proof (zlen_nonneg (concat (SdesChunk.items c))).
  pose proof (padding4_range (4 + zlen (concat (SdesChunk.items c)))). lia.
Qed.

Lemma sdes_parse_chunks_safe count : forall data offset,
  bytes_ok data -> 0 <= offset -> exists l, parse_chunks count data offset = Ok l.
Proof.
  induction count as [|count IH]; intros data offset Hd Ho; cbn [parse_chunks]; [eauto|].
  destruct (Z.leb_spec (zlen data) offset); [eauto|]. rewrite sub_ok by lia. cbn [mbind res_bind].
  destruct (SdesChunk.sdes_chunk_Parse_safe (drop (Z.to_nat offset) data)) as (r & -> & Hr);
    [by apply Forall_drop|]. cbn [mbind res_bind]. destruct r as [c|]; [|eauto].
  specialize (Hr c eq_refl). destruct (SdesChunk.GetSize c) as [n|f] eqn:En.
  - pose proof (chunks_size_pos c n Hr En). cbn [mbind res_bind].
    destruct (IH data (offset + n) Hd ltac:(lia)) as [l ->]. cbn. eauto.
  - unfold SdesChunk.GetSize in En. by rewrite SdesChunk.items_size_ok in En.
Qed.

Lemma sdes_Parse_safe data : bytes_ok data -> 1 <= zlen data -> exists p, Parse data = Ok (Some p).
Proof.
  intros Hd Hl. unfold Parse, Packet.hdr_count. read_ok. cbn [mret res_ret mbind res_bind].
  destruct (sdes_parse_chunks_safe (Z.to_nat (b mod 32)) data Packet.CommonHeaderSize Hd) as [l ->];
    [done|]. cbn. eauto.
Qed.

(** Chunks whose end is marked by padding, except for the last one. *)
Fixpoint delimited (cs : list SdesChunk.t) : Prop :=
  match cs with
  | [] | [_] => True
  | c :: cs' => padding4 (SdesChunk.body_size c) <> 0 /\ delimited cs'
  end.

Definition chunk_bytes_ok (c : SdesChunk.t) : Prop :=
  Forall bytes_ok (SdesChunk.items c).

Lemma chunks_bytes_ok cs : Forall chunk_bytes_ok cs -> bytes_ok (chunks_bytes cs).
Proof.
  unfold chunks_bytes. induction 1 as [|c cs Hc _ IH]; [constructor|].
  rewrite fmap_cons. cbn [concat]. apply Forall_app. split; [|done].
  unfold SdesChunk.chunk_bytes. apply Forall_app. split; [apply be4_bytes_ok|].
  apply Forall_app. split; [|apply Forall_replicate; by vm_compute].
  unfold chunk_bytes_ok in Hc. induction Hc; [constructor|]. by apply Forall_app.
Qed.

Lemma parse_chunks_concat cs : forall front,
  Forall SdesChunk.ok cs -> Forall chunk_bytes_ok cs -> delimited cs ->
  parse_chunks (length cs) (front ++ chunks_bytes cs) (zlen front) = Ok cs.
Proof.
  induction cs as [|c cs IH]; intros front Hcs Hb Hd; [done|].
  apply list.Forall_cons in Hcs as [Hc Hcs]. apply list.Forall_cons in Hb as [Hb1 Hb].
  unfold chunks_bytes. rewrite fmap_cons. cbn [length parse_chunks concat].
  fold (chunks_bytes cs). pose proof (SdesChunk.body_size_nonneg c).
  pose proof (padding4_range (SdesChunk.body_size c)).
  pose proof (zlen_nonneg (chunks_bytes cs)).
  rewrite (proj2 (Z.leb_gt _ _)).
  2:{ rewrite !zlen_app, SdesChunk.sdes_chunk_zlen_chunk, align4_padding. lia. }
  rewrite sub_app by done. cbn [mbind res_bind].
  rewrite SdesChunk.sdes_chunk_Parse_chunk; [|done|by apply chunks_bytes_ok|].
  - cbn [mbind res_bind]. rewrite (SdesChunk.sdes_chunk_GetSize_ok _ Hc). cbn [mbind res_bind].
    specialize (IH (front ++ SdesChunk.chunk_bytes c) Hcs Hb). rewrite <- app_assoc, zlen_app in IH.
    rewrite IH; [done|]. destruct cs; [done|]. apply Hd.
  - intros E. destruct cs as [|c' cs]; [done|]. by destruct Hd.
Qed.

(** A packet of up to 31 delimited chunks is read back. *)
Lemma Parse_packet cs :
  Forall SdesChunk.ok cs -> Forall chunk_bytes_ok cs -> delimited cs -> zlen cs <= 31 ->
  Parse (packet_bytes cs) = Ok (Some {| chunks := cs |}).
Proof.
  intros Hcs Hb Hd Hn. unfold Parse, packet_bytes. pose proof (zlen_nonneg cs).
  rewrite hdr_count_Serialize by lia. cbn [mbind res_bind].
  replace (Z.to_nat (zlen cs)) with (length cs) by (unfold zlen; lia).
  change Packet.CommonHeaderSize with
    (zlen (Packet.Serialize Packet.SDES (zlen cs) (4 + zlen (chunks_bytes cs)))).
  by rewrite parse_chunks_concat.
Qed.

(** An SDES packet of 1 to 31 chunks, all but the last of which end with
    padding, is serialized and parsed back to the same chunks. *)
Theorem sdes_roundtrip p :
  Forall SdesChunk.ok (chunks p) -> Forall chunk_bytes_ok (chunks p) ->
  delimited (chunks p) -> 1 <= zlen (chunks p) <= 31 ->
  exists out, Serialize p = Ok out /\ Parse out = Ok (Some p).
Proof.
  intros Hok Hb Hd Hn. eexists. split; [by apply sdes_Serialize_groups|].
  rewrite groups_single by done. cbn [fmap list_fmap concat]. rewrite app_nil_r.
  rewrite Parse_packet by (done || lia). by destruct p.
Qed.

Definition cname (s : Z) (value : list Z) : SdesChunk.t :=
  {| SdesChunk.ssrc := s; SdesChunk.items := [SdesItem.create 1 value] |}.

Lemma sdes_roundtrip_witness :
  exists out, Serialize {| chunks := [cname 5 [97; 98; 99]; cname 6 [97; 98]] |} = Ok out /\
    Parse out = Ok (Some {| chunks := [cname 5 [97; 98; 99]; cname 6 [97; 98]] |}).
Proof.
  apply sdes_roundtrip; cbn [chunks].
  - repeat constructor; try (by vm_compute); unfold SdesItem.ok; vm_compute;
      (do 3 eexists; split; [reflexivity|split; [discriminate|reflexivity]]).
  - repeat constructor; by vm_compute.
  - split; [by vm_compute|exact I].
  - by vm_compute.
Defined.

(** A chunk whose items end on a 32-bit boundary is written without the null
    octet that ends the items (RFC 3550, 6.5): when another chunk follows, parsing
    takes the SSRC of that chunk for an item, and the packet does not come back. *)
Theorem sdes_unterminated_chunk :
  (out ← Serialize {| chunks := [cname 5 [97; 98]; cname 0x01020304 [99; 100; 101]] |}; Parse out) =
  Ok (Some {| chunks := [{| SdesChunk.ssrc := 5;
                            SdesChunk.items := [[1; 2; 97; 98]; [1; 2; 3; 4]; [1; 3; 99; 100; 101]] |}] |}).
Proof. vm_compute. reflexivity. Qed.

End SdesPacket.

Module ByePacket.

Record t := { ssrcs : list Z; reason : list Z }.

(** The loop over the SSRCs: [None] when one does not fit; else the SSRCs and the
    offset after them. *)
Fixpoint parse_ssrcs (count : nat) (data : list Z) (offset : Z) : res (option (list Z * Z)) :=
  match count with
  | O => mret (Some ([], offset))
  | S count' =>
      if zlen data <=? offset then mret (Some ([], offset))
      else if zlen data - offset <? 4 then mret None
      else
        ssrc ← Byte.Get4Bytes data offset;
        r ← parse_ssrcs count' data (offset + 4);
        mret (match r with Some (l, o) => Some (ssrc :: l, o) | None => None end)
  end.

Definition Parse (data : list Z) : res (option t) :=
  count ← Packet.hdr_count data;
  r ← parse_ssrcs (Z.to_nat count) data Packet.CommonHeaderSize;
  match r with
  | None => mret None
  | Some (ssrcs, offset) =>
      if zlen data <=? offset then mret (Some {| ssrcs := ssrcs; reason := [] |})
      else
        length ← Byte.Get1Byte data offset;
        let offset := offset + 1 in
        if length <=? zlen data - offset then
          reason ← bytes_at data offset length;
          mret (Some {| ssrcs := ssrcs; reason := reason |})
        else mret (Some {| ssrcs := ssrcs; reason := [] |})
  end.

Definition GetCount (p : t) : Z := zlen (ssrcs p).

Definition GetSize (p : t) : Z :=
  align4 (Packet.CommonHeaderSize + zlen (ssrcs p) * 4 +
          match reason p with [] => 0 | _ => 1 + zlen (reason p) end).

Definition Serialize (p : t) : list Z :=
  let out := Packet.Serialize Packet.BYE (GetCount p) (GetSize p) ++
             concat (Byte.be4 <$> ssrcs p) ++
             match reason p with [] => [] | _ => u8 (zlen (reason p)) :: reason p end in
  out ++ zeros (padding4 (zlen out)).

Lemma parse_ssrcs_safe count : forall data offset,
  0 <= offset -> exists r, parse_ssrcs count data offset = Ok r /\
    forall l o, r = Some (l, o) -> 0 <= o.
Proof.
  induction count as [|count IH]; intros data offset Ho; cbn [parse_ssrcs].
  { eexists. split; [done|]. intros l o [= <- <-]. done. }
  destruct (Z.leb_spec (zlen data) offset).
  { eexists. split; [done|]. intros l o [= <- <-]. done. }
  destruct (Z.ltb_spec (zlen data - offset) 4); [by eexists|].
  destruct (Get4Bytes_safe data offset) as [s ->]; [lia..|]. cbn [mbind res_bind].
  destruct (IH data (offset + 4)) as (r & -> & Hr); [lia|]. cbn [mbind res_bind].
  eexists. split; [done|]. intros l o Heq. destruct r as [[l' o']|]; simplify_eq. by eapply Hr.
Qed.

Lemma bye_Parse_safe data : bytes_ok data -> 1 <= zlen data -> exists p, Parse data = Ok p.
Proof.
  intros Hd Hl. unfold Parse, Packet.hdr_count. read_ok. cbn [mret res_ret mbind res_bind].
  destruct (parse_ssrcs_safe (Z.to_nat (b mod 32)) data Packet.CommonHeaderSize)
    as (r & -> & Hr); [done|]. cbn [mbind res_bind]. destruct r as [[l o]|]; [|eauto].
  specialize (Hr l o eq_refl). destruct (Z.leb_spec (zlen data) o); [eauto|].
  destruct (Get1Byte_safe data o) as [n En]; [lia|]. rewrite En. cbn [mbind res_bind].
  pose proof (read_bytes_ok _ _ _ Hd En) as Hn. unfold fits in Hn.
  destruct (Z.leb_spec n (zlen data - (o + 1))); [|eauto].
  rewrite bytes_at_ok by lia. cbn. eauto.
Qed.

Lemma parse_ssrcs_concat l : forall front rest,
  Forall (fits 32) l ->
  parse_ssrcs (length l) (front ++ concat (Byte.be4 <$> l) ++ rest) (zlen front) =
  Ok (Some (l, zlen front + 4 * zlen l)).
Proof.
  induction l as [|s l IH]; intros front rest Hl.
  { cbn. by rewrite Z.add_0_r. }
  apply list.Forall_cons in Hl as [Hs Hl]. rewrite fmap_cons. cbn [length parse_ssrcs concat].
  rewrite <- app_assoc. pose proof (zlen_nonneg (concat (Byte.be4 <$> l))).
  pose proof (zlen_nonneg rest). pose proof (zlen_nonneg front).
  rewrite (proj2 (Z.leb_gt _ _)) by (rewrite !zlen_app, zlen_be4; lia).
  rewrite (proj2 (Z.ltb_ge _ _)) by (rewrite !zlen_app, zlen_be4; lia).
  rewrite (Get4Bytes_app front _ 0) by lia. rewrite Get4Bytes_front, uwrap_id by done.
  cbn [mbind res_bind]. specialize (IH (front ++ Byte.be4 s) rest Hl).
  rewrite <- app_assoc, zlen_app, zlen_be4 in IH. rewrite IH. cbn [mbind res_bind mret res_ret].
  rewrite zlen_cons. do 3 f_equal. lia.
Qed.

Definition ok (p : t) : Prop :=
  Forall (fits 32) (ssrcs p) /\ zlen (ssrcs p) <= 31 /\ zlen (reason p) <= 255.

Lemma zlen_ssrcs l : zlen (concat (Byte.be4 <$> l)) = zlen l * 4.
Proof.
  induction l as [|s l IH]; [done|]. rewrite fmap_cons. cbn [concat].
  rewrite zlen_app, zlen_be4, zlen_cons, IH. lia.
Qed.

(** The reason field, with its length. *)
Definition reason_bytes (p : t) : list Z :=
  match reason p with [] => [] | _ => u8 (zlen (reason p)) :: reason p end.

Lemma Serialize_size p : zlen (Serialize p) = GetSize p.
Proof.
  unfold Serialize. fold (reason_bytes p).
  match goal with |- context [zeros (padding4 (zlen ?o))] => set (out := o) end.
  pose proof (padding4_range (zlen out)). rewrite zlen_app, zlen_zeros by lia.
  unfold GetSize. rewrite align4_padding.
  assert (Ho : zlen out = Packet.CommonHeaderSize + zlen (ssrcs p) * 4 +
    match reason p with [] => 0 | _ => 1 + zlen (reason p) end); [|by rewrite Ho].
  unfold out, Packet.CommonHeaderSize, reason_bytes. rewrite !zlen_app, zlen_ssrcs, zlen_Serialize.
  destruct (reason p) as [|b r]; [change (zlen []) with 0|rewrite (zlen_cons (u8 _))]; lia.
Qed.

(** The part of [Parse] after the SSRCs, on a reason and its padding. *)
Lemma Parse_reason front b r tail (l : list Z) :
  zlen (b :: r) <= 255 ->
  let data := front ++ (u8 (zlen (b :: r)) :: b :: r) ++ tail in
  (if zlen data <=? zlen front then mret (Some {| ssrcs := l; reason := [] |})
   else
     length ← Byte.Get1Byte data (zlen front);
     if length <=? zlen data - (zlen front + 1) then
       reason ← bytes_at data (zlen front + 1) length;
       mret (Some {| ssrcs := l; reason := reason |})
     else mret (Some {| ssrcs := l; reason := [] |})) =
  Ok (Some {| ssrcs := l; reason := b :: r |}).
Proof.
  intros Hr data. unfold data. pose proof (zlen_nonneg tail). pose proof (zlen_nonneg (b :: r)).
  rewrite uwrap_id by (unfold fits; pow2_consts; lia).
  set (n := zlen (b :: r)) in *. assert (Hn : n = zlen (b :: r)) by done. clearbody n.
  rewrite (proj2 (Z.leb_gt _ _)) by (rewrite !zlen_app, zlen_cons; lia).
  unfold Byte.Get1Byte. rewrite <- (Z.add_0_r (zlen front)) at 1. rewrite read_app_r by lia.
  cbn [app]. rewrite read_cons_0. cbn [mbind res_bind].
  change (n :: b :: r ++ tail) with ([n] ++ (b :: r) ++ tail).
  rewrite (proj2 (Z.leb_le _ _)) by (rewrite !zlen_app; change (zlen [n]) with 1; lia).
  pose proof (bytes_at_app (front ++ [n]) (b :: r) tail (zlen front + 1) n) as Hb.
  rewrite <- app_assoc in Hb. rewrite Hb; [done|by rewrite zlen_app|done].
Qed.

(** A goodbye packet is written in [GetSize] bytes, and parsed back to the same
    SSRCs and reason. *)
Theorem bye_roundtrip p :
  ok p -> zlen (Serialize p) = GetSize p /\ Parse (Serialize p) = Ok (Some p).
Proof.
  intros (Hs & Hn & Hr). split; [apply Serialize_size|].
  pose proof (zlen_nonneg (ssrcs p)). unfold Serialize. fold (reason_bytes p).
  set (hdr := Packet.Serialize _ _ _). set (out := hdr ++ _ ++ reason_bytes p).
  assert (Hcnt : forall rest, Packet.hdr_count (hdr ++ rest) = Ok (zlen (ssrcs p)))
    by (intros; apply hdr_count_Serialize; unfold GetCount; lia).
  set (front := hdr ++ concat (Byte.be4 <$> ssrcs p)).
  assert (Hf : zlen hdr + 4 * zlen (ssrcs p) = zlen front)
    by (unfold front; rewrite zlen_app, zlen_ssrcs; lia).
  assert (Hp : reason p = [] -> zeros (padding4 (zlen out)) = []).
  { intros Er. replace (padding4 (zlen out)) with 0; [done|].
    rewrite padding4_mod. unfold out, reason_bytes. rewrite Er, app_nil_r. fold front.
    rewrite <- Hf. change (zlen hdr) with 4. Z.div_mod_to_equations. lia. }
  set (tail := zeros (padding4 (zlen out))) in *. clearbody tail.
  assert (E : out ++ tail = hdr ++ concat (Byte.be4 <$> ssrcs p) ++ reason_bytes p ++ tail)
    by (unfold out; by rewrite <- !app_assoc).
  unfold Parse. rewrite E, Hcnt. cbn [mbind res_bind].
  replace (Z.to_nat (zlen (ssrcs p))) with (length (ssrcs p)) by (unfold zlen; lia).
  change Packet.CommonHeaderSize with (zlen hdr). rewrite parse_ssrcs_concat by done.
  cbn [mbind res_bind]. rewrite (app_assoc hdr). fold front. rewrite Hf.
  unfold reason_bytes. destruct (reason p) as [|b r] eqn:Er.
  - rewrite Hp by done. rewrite !app_nil_r.
    rewrite (proj2 (Z.leb_le _ _)) by lia. by destruct p; simpl in *; subst.
  - rewrite Parse_reason by done. by destruct p; simpl in *; subst.
Qed.

Lemma bye_roundtrip_witness :
  zlen (Serialize {| ssrcs := [624; 625]; reason := [72; 97; 115; 116; 97] |}) = 20 /\
  Parse (Serialize {| ssrcs := [624; 625]; reason := [72; 97; 115; 116; 97] |}) =
    Ok (Some {| ssrcs := [624; 625]; reason := [72; 97; 115; 116; 97] |}).
Proof.
  apply (bye_roundtrip {| ssrcs := [624; 625]; reason := [72; 97; 115; 116; 97] |}).
  split; [repeat constructor; by vm_compute|by vm_compute].
Defined.

End ByePacket.
