(* ===== verification/RtcpFeedback.v ===== *)
(** * RTCP feedback messages

    Models [worker/include/RTC/RTCP/FeedbackItem.hpp], [Feedback.hpp],
    [FeedbackRtp.cpp] and [FeedbackPs.cpp] (the packets made of items) and the item
    classes [FeedbackRtpNack], [FeedbackRtpTllei], [FeedbackRtpEcn],
    [FeedbackRtpTmmb], [FeedbackPsFir], [FeedbackPsLei], [FeedbackPsTst],
    [FeedbackPsSli], [FeedbackPsRpsi], [FeedbackPsVbcm], and the packets
    [FeedbackPsPli], [FeedbackRtpSrReq], [FeedbackPsAfb], [FeedbackPsRemb].

    The template parameter [Item] of the packet classes is the type class
    [FeedbackItem]; the round trip of a packet is proved once, for every item that
    satisfies the laws of [FeedbackItemLaws]. *)

From S2P Require Import Prelude Utils RtcpPacket RtcpSdes.

(** What [FeedbackRtpItemsPacket<Item>] needs of [Item]. *)
Class FeedbackItem (I : Type) := {
  HeaderSize : Z;
  make : list Z -> res I;          (** [new Item(header)], on the bytes from the header on *)
  IsCorrect : I -> bool;
  GetSize : I -> res Z;
  Serialize : I -> res (list Z);
}.

(** [FeedbackItem::Parse<Item>(data, len)]. *)
Definition Item_Parse {I} `{FeedbackItem I} (data : list Z) : res (option I) :=
  if zlen data <? HeaderSize then mret None
  else item ← make data; mret (Some item).

Module FeedbackPacket.

Definition HeaderSize : Z := 8.

(** The header of a feedback packet, its message type and its items. *)
Record t (I : Type) := {
  messageType : Z;
  senderSsrc : Z;
  mediaSsrc : Z;
  items : list I;
}.
Arguments messageType {I}. Arguments senderSsrc {I}. Arguments mediaSsrc {I}. Arguments items {I}.

(** [FeedbackPacket(commonHeader)]: the message type and the two SSRCs. *)
Definition read_header (data : list Z) : res (Z * Z * Z) :=
  mt ← Packet.hdr_count data;
  s ← Byte.Get4Bytes data Packet.CommonHeaderSize;
  m ← Byte.Get4Bytes data (Packet.CommonHeaderSize + 4);
  mret (mt, s, m).

(** [FeedbackPacket::Serialize]. *)
Definition serialize_header (rtcpType : Packet.Type_) (mt s m size : Z) : list Z :=
  Packet.Serialize rtcpType mt size ++ Byte.be4 s ++ Byte.be4 m.

Section Items.
Context {I : Type} `{FeedbackItem I}.

(** The loop of [FeedbackRtpItemsPacket::Parse] ([checked = false]) and of
    [FeedbackPsItemsPacket::Parse] ([checked = true]). *)
Fixpoint parse_items (checked : bool) (fuel : nat) (data : list Z) (offset : Z) : res (list I) :=
  if zlen data <=? offset then mret []
  else
    match fuel with
    | O => Fault OutOfFuel
    | S fuel' =>
        d ← sub data offset;
        r ← Item_Parse d;
        match r with
        | Some item =>
            if checked && negb (IsCorrect item) then mret []
            else
              size ← GetSize item;
              rest ← parse_items checked fuel' data (offset + size);
              mret (item :: rest)
        | None => mret []
        end
    end.

Definition Parse (checked : bool) (data : list Z) : res (option (t I)) :=
  if zlen data <? Packet.CommonHeaderSize + HeaderSize then mret None
  else
    '(mt, s, m) ← read_header data;
    items ← parse_items checked (length data) data (Packet.CommonHeaderSize + HeaderSize);
    mret (Some {| messageType := mt; senderSsrc := s; mediaSsrc := m; items := items |}).

Fixpoint items_size (l : list I) : res Z :=
  match l with
  | [] => mret 0
  | item :: l' => n ← GetSize item; m ← items_size l'; mret (n + m)
  end.

Definition GetSize (p : t I) : res Z :=
  n ← items_size (items p); mret (Packet.CommonHeaderSize + HeaderSize + n).

Fixpoint serialize_items (l : list I) : res (list Z) :=
  match l with
  | [] => mret []
  | item :: l' => b ← Serialize item; rest ← serialize_items l'; mret (b ++ rest)
  end.

Definition Serialize (rtcpType : Packet.Type_) (p : t I) : res (list Z) :=
  size ← GetSize p;
  body ← serialize_items (items p);
  mret (serialize_header rtcpType (messageType p) (senderSsrc p) (mediaSsrc p) size ++ body).

End Items.
End FeedbackPacket.

(** ** Laws of items *)

(** Parsing an item never fails, and an item takes some bytes. *)
Class FeedbackItemSafe (I : Type) `{FeedbackItem I} := {
  item_header_pos : 0 < HeaderSize;
  item_make_safe : forall data, bytes_ok data -> HeaderSize <= zlen data ->
    exists i n, make data = Ok i /\ GetSize i = Ok n /\ 0 < n;
}.

(** The items that are written and read back. *)
Class FeedbackItemLaws (I : Type) `{FeedbackItem I} := {
  item_ok : I -> Prop;
  item_bytes : I -> list Z;
  item_header : forall i, item_ok i -> 0 < HeaderSize <= zlen (item_bytes i);
  item_make : forall i rest, item_ok i -> make (item_bytes i ++ rest) = Ok i;
  item_correct : forall i, item_ok i -> IsCorrect i = true;
  item_size : forall i, item_ok i -> GetSize i = Ok (zlen (item_bytes i));
  item_serialize : forall i, item_ok i -> Serialize i = Ok (item_bytes i);
}.

Lemma read_header_safe data : 12 <= zlen data -> exists x, FeedbackPacket.read_header data = Ok x.
Proof.
  intros Hl. unfold FeedbackPacket.read_header, Packet.hdr_count, Packet.CommonHeaderSize.
  destruct (Get4Bytes_safe data 4) as [s Es]; [lia..|].
  destruct (Get4Bytes_safe data (4 + 4)) as [m Em]; [lia..|].
  read_ok. cbn [mret res_ret mbind res_bind]. rewrite Es. cbn [mbind res_bind]. rewrite Em. eauto.
Qed.

Lemma read_header_serialized t mt s m n body :
  0 <= mt < 32 -> fits 32 s -> fits 32 m ->
  FeedbackPacket.read_header (FeedbackPacket.serialize_header t mt s m n ++ body) = Ok (mt, s, m).
Proof.
  intros Hmt Hs Hm. unfold FeedbackPacket.read_header, FeedbackPacket.serialize_header.
  rewrite <- !app_assoc, hdr_count_Serialize by done. cbn [mbind res_bind].
  rewrite (Get4Bytes_app (Packet.Serialize t mt n) _ 0 Packet.CommonHeaderSize) by done. rewrite Get4Bytes_front, uwrap_id by done.
  cbn [mbind res_bind].
  rewrite (app_assoc (Packet.Serialize t mt n) (Byte.be4 s)).
  rewrite (Get4Bytes_app (Packet.Serialize t mt n ++ Byte.be4 s) _ 0) by done.
  by rewrite Get4Bytes_front, uwrap_id.
Qed.

Lemma zlen_serialize_header t mt s m n :
  zlen (FeedbackPacket.serialize_header t mt s m n) = 12.
Proof. done. Qed.

Section Safe.
Context {I : Type} `{FeedbackItemSafe I}.

Lemma feedback_items_safe checked fuel : forall data offset,
  bytes_ok data -> 0 <= offset -> zlen data - offset <= Z.of_nat fuel ->
  exists l, FeedbackPacket.parse_items (I := I) checked fuel data offset = Ok l.
Proof.
  induction fuel as [|fuel IH]; intros data offset Hd Ho Hf; cbn [FeedbackPacket.parse_items];
    (destruct (Z.leb_spec (zlen data) offset); [eauto|]); [lia|].
  rewrite sub_ok by lia. cbn [mbind res_bind]. unfold Item_Parse.
  case_cmp; [eauto|]. set (d := drop (Z.to_nat offset) data) in *.
  destruct (item_make_safe (I := I) d) as (i & n & -> & Hn & Hp); [by apply Forall_drop|done|].
  cbn [mbind res_bind mret res_ret]. destruct (checked && negb (IsCorrect i)); [eauto|].
  rewrite Hn. cbn [mbind res_bind].
  destruct (IH data (offset + n)) as (l & ->); [done|lia|lia|]. cbn. eauto.
Qed.

(** Parsing a feedback packet of items reads nothing outside of the packet. *)
Lemma feedback_Parse_safe checked data :
  bytes_ok data -> exists p, FeedbackPacket.Parse (I := I) checked data = Ok p.
Proof.
  intros Hd. unfold FeedbackPacket.Parse. change (Packet.CommonHeaderSize + FeedbackPacket.HeaderSize) with 12.
  destruct (Z.ltb_spec (zlen data) 12); [eauto|].
  destruct (read_header_safe data) as [[[mt s] m] ->]; [done|]. cbn [mbind res_bind].
  destruct (feedback_items_safe checked (length data) data 12 Hd) as [l ->];
    [lia|unfold zlen; lia|]. cbn. eauto.
Qed.
End Safe.

Section RoundTrip.
Context {I : Type} `{FeedbackItemLaws I}.

Definition items_bytes (l : list I) : list Z := concat (item_bytes <$> l).

Lemma feedback_items_size l :
  Forall item_ok l -> FeedbackPacket.items_size l = Ok (zlen (items_bytes l)).
Proof.
  induction 1 as [|i l Hi _ IH]; [done|]. cbn [FeedbackPacket.items_size].
  rewrite (item_size i Hi). cbn [mbind res_bind]. rewrite IH. cbn [mbind res_bind mret res_ret].
  unfold items_bytes. rewrite fmap_cons. cbn [concat]. by rewrite zlen_app.
Qed.

Lemma feedback_serialize_items l :
  Forall item_ok l -> FeedbackPacket.serialize_items l = Ok (items_bytes l).
Proof.
  induction 1 as [|i l Hi _ IH]; [done|]. cbn [FeedbackPacket.serialize_items].
  rewrite (item_serialize i Hi). cbn [mbind res_bind]. by rewrite IH.
Qed.

Lemma feedback_parse_items checked l : forall fuel front,
  Forall item_ok l -> (length (items_bytes l) <= fuel)%nat ->
  FeedbackPacket.parse_items checked fuel (front ++ items_bytes l) (zlen front) = Ok l.
Proof.
  induction l as [|i l IH]; intros fuel front Hl Hf.
  - destruct fuel; cbn [FeedbackPacket.parse_items items_bytes fmap list_fmap concat];
      rewrite app_nil_r; by rewrite Z.leb_refl.
  - apply list.Forall_cons in Hl as [Hi Hl].
    unfold items_bytes in *. rewrite fmap_cons in *. cbn [concat] in *.
    pose proof (item_header i Hi) as Hh. rewrite length_app in Hf.
    assert (Hpos : (1 <= length (item_bytes i))%nat) by (unfold zlen in Hh; lia).
    destruct fuel as [|fuel]; [lia|]. cbn [FeedbackPacket.parse_items].
    pose proof (zlen_nonneg (concat (item_bytes <$> l))).
    rewrite (proj2 (Z.leb_gt _ _)) by (rewrite !zlen_app; lia).
    rewrite sub_app by done. cbn [mbind res_bind]. unfold Item_Parse.
    rewrite (proj2 (Z.ltb_ge _ _)) by (rewrite zlen_app; lia).
    rewrite item_make by done. cbn [mbind res_bind mret res_ret].
    rewrite (item_correct i Hi), andb_false_r, (item_size i Hi). cbn [mbind res_bind].
    specialize (IH fuel (front ++ item_bytes i) Hl). rewrite <- app_assoc, zlen_app in IH.
    rewrite IH by lia. done.
Qed.

Definition packet_ok (p : FeedbackPacket.t I) : Prop :=
  0 <= FeedbackPacket.messageType p < 32 /\ fits 32 (FeedbackPacket.senderSsrc p) /\
  fits 32 (FeedbackPacket.mediaSsrc p) /\ Forall item_ok (FeedbackPacket.items p).

(** A feedback packet made of items that satisfy the item laws (NACK, TMMBR and
    TMMBN, FIR, SLI, PSLEI, TSTR and TSTN, TLLEI, ECN) is written in [GetSize] bytes
    and parsed back to the same packet, whichever of the two parsers is used. *)
Theorem feedback_roundtrip checked rtcpType p :
  packet_ok p ->
  exists out, FeedbackPacket.Serialize rtcpType p = Ok out /\
    FeedbackPacket.GetSize p = Ok (zlen out) /\
    FeedbackPacket.Parse checked out = Ok (Some p).
Proof.
  intros (Hmt & Hs & Hm & Hi). unfold FeedbackPacket.Serialize, FeedbackPacket.GetSize.
  rewrite feedback_items_size, feedback_serialize_items by done. cbn [mbind res_bind].
  eexists. split; [done|]. split.
  { cbn [mret res_ret]. f_equal. rewrite zlen_app, zlen_serialize_header.
    unfold Packet.CommonHeaderSize, FeedbackPacket.HeaderSize. lia. }
  unfold FeedbackPacket.Parse. set (hdr := FeedbackPacket.serialize_header _ _ _ _ _).
  change (Packet.CommonHeaderSize + FeedbackPacket.HeaderSize) with (zlen hdr).
  pose proof (zlen_nonneg (items_bytes (FeedbackPacket.items p))).
  rewrite (proj2 (Z.ltb_ge _ _)) by (rewrite zlen_app; lia).
  assert (Hh : forall body, FeedbackPacket.read_header (hdr ++ body) =
    Ok (FeedbackPacket.messageType p, FeedbackPacket.senderSsrc p, FeedbackPacket.mediaSsrc p))
    by (intros; by apply read_header_serialized).
  rewrite Hh. cbn [mbind res_bind].
  rewrite feedback_parse_items; [by destruct p|done|]. rewrite length_app. lia.
Qed.

End RoundTrip.

(** ** Items that are kept as the bytes of their header *)

(** [FeedbackRtpNackItem], [FeedbackRtpTlleiItem], [FeedbackRtpEcnItem],
    [FeedbackPsFirItem], [FeedbackPsLeiItem], [FeedbackPsTstrItem] and
    [FeedbackPsTstnItem] point to a header of a fixed size and copy it. *)
Record raw_item (size : Z) := Raw { raw : list Z }.
Arguments raw {size}.

#[export] Instance raw_FeedbackItem size : FeedbackItem (raw_item size) := {|
  HeaderSize := size;
  make := fun data => b ← bytes_at data 0 size; mret (Raw size b);
  IsCorrect := fun _ => true;
  GetSize := fun _ => mret size;
  Serialize := fun i => mret (raw i);
|}.

Definition FeedbackRtpNackItem := raw_item 4.
Definition FeedbackRtpTlleiItem := raw_item 4.
Definition FeedbackRtpEcnItem := raw_item 20.
Definition FeedbackPsFirItem := raw_item 8.
Definition FeedbackPsLeiItem := raw_item 4.
Definition FeedbackPsTstItem := raw_item 8.

Section RawItems.
Context (size : Z) (Hsize : 0 < size).

Lemma raw_safe : FeedbackItemSafe (raw_item size).
Proof.
  split; [done|]. intros data _ Hl. cbn [make HeaderSize raw_FeedbackItem] in *.
  rewrite bytes_at_ok by lia. cbn. eauto.
Qed.

Lemma raw_laws : FeedbackItemLaws (raw_item size).
Proof.
  refine {| item_ok := fun i : raw_item size => zlen (raw i) = size;
            item_bytes := fun i : raw_item size => raw i |}; cbn.
  - intros i Hi. lia.
  - intros [r] rest Hi. by rewrite (bytes_at_app [] r rest) by done.
  - done.
  - by intros i ->.
  - done.
Defined.
End RawItems.

#[export] Instance raw4_safe : FeedbackItemSafe (raw_item 4) := raw_safe 4 eq_refl.
#[export] Instance raw8_safe : FeedbackItemSafe (raw_item 8) := raw_safe 8 eq_refl.
#[export] Instance raw20_safe : FeedbackItemSafe (raw_item 20) := raw_safe 20 eq_refl.
#[export] Instance raw4_laws : FeedbackItemLaws (raw_item 4) := raw_laws 4 eq_refl.
#[export] Instance raw8_laws : FeedbackItemLaws (raw_item 8) := raw_laws 8 eq_refl.
#[export] Instance raw20_laws : FeedbackItemLaws (raw_item 20) := raw_laws 20 eq_refl.

Module FeedbackRtpNack.

Definition create (packetId lostPacketBitmask : Z) : FeedbackRtpNackItem :=
  Raw 4 (Byte.be2 packetId ++ Byte.be2 lostPacketBitmask).
Definition GetPacketId (i : FeedbackRtpNackItem) : res Z := Byte.Get2Bytes (raw i) 0.
Definition GetLostPacketBitmask (i : FeedbackRtpNackItem) : res Z := Byte.Get2Bytes (raw i) 2.

(** The mask is counted as it lies in memory, in network byte order. *)
Definition CountRequestedPackets (i : FeedbackRtpNackItem) : res Z :=
  lo ← read (raw i) 2;
  hi ← read (raw i) 3;
  mret (Bits.CountSetBits (lo + 256 * hi) + 1).

End FeedbackRtpNack.

Module FeedbackRtpTllei.
Definition create (packetId lostPacketBitmask : Z) : FeedbackRtpTlleiItem :=
  Raw 4 (Byte.be2 packetId ++ Byte.be2 lostPacketBitmask).
Definition GetPacketId (i : FeedbackRtpTlleiItem) : res Z := Byte.Get2Bytes (raw i) 0.
Definition GetLostPacketBitmask (i : FeedbackRtpTlleiItem) : res Z := Byte.Get2Bytes (raw i) 2.
End FeedbackRtpTllei.

Module FeedbackRtpEcn.
Definition GetSequenceNumber (i : FeedbackRtpEcnItem) : res Z := Byte.Get4Bytes (raw i) 0.
Definition GetEct0Counter (i : FeedbackRtpEcnItem) : res Z := Byte.Get4Bytes (raw i) 4.
Definition GetEct1Counter (i : FeedbackRtpEcnItem) : res Z := Byte.Get4Bytes (raw i) 8.
Definition GetEcnCeCounter (i : FeedbackRtpEcnItem) : res Z := Byte.Get2Bytes (raw i) 12.
Definition GetNotEctCounter (i : FeedbackRtpEcnItem) : res Z := Byte.Get2Bytes (raw i) 14.
Definition GetLostPackets (i : FeedbackRtpEcnItem) : res Z := Byte.Get2Bytes (raw i) 16.
Definition GetDuplicatedPackets (i : FeedbackRtpEcnItem) : res Z := Byte.Get2Bytes (raw i) 18.
End FeedbackRtpEcn.

Module FeedbackPsFir.
Definition create (ssrc sequenceNumber : Z) : FeedbackPsFirItem :=
  Raw 8 (Byte.be4 ssrc ++ [u8 sequenceNumber; 0; 0; 0]).
Definition GetSsrc (i : FeedbackPsFirItem) : res Z := Byte.Get4Bytes (raw i) 0.
Definition GetSequenceNumber (i : FeedbackPsFirItem) : res Z := Byte.Get1Byte (raw i) 4.
End FeedbackPsFir.

Module FeedbackPsLei.
Definition create (ssrc : Z) : FeedbackPsLeiItem := Raw 4 (Byte.be4 ssrc).
Definition GetSsrc (i : FeedbackPsLeiItem) : res Z := Byte.Get4Bytes (raw i) 0.
End FeedbackPsLei.

Module FeedbackPsTst.
(** [index] is a field of 5 bits. *)
Definition create (ssrc sequenceNumber index : Z) : FeedbackPsTstItem :=
  Raw 8 (Byte.be4 ssrc ++ [u8 sequenceNumber; 0; 0; index mod 32]).
Definition GetSsrc (i : FeedbackPsTstItem) : res Z := Byte.Get4Bytes (raw i) 0.
Definition GetSequenceNumber (i : FeedbackPsTstItem) : res Z := Byte.Get1Byte (raw i) 4.
Definition GetIndex (i : FeedbackPsTstItem) : res Z := b ← read (raw i) 7; mret (b mod 32).
End FeedbackPsTst.

(** ** Bitrates as exponent and mantissa *)

(** [while (mantissa > max) { mantissa >>= 1; ++exponent; }]. *)
Fixpoint normalize (fuel : nat) (max mantissa exponent : Z) : res (Z * Z) :=
  if max <? mantissa then
    match fuel with
    | O => Fault OutOfFuel
    | S fuel' => normalize fuel' max (Z.shiftr mantissa 1) (exponent + 1)
    end
  else Ok (mantissa, exponent).

(** [bitrate = mantissa << exponent] on 64 bits, and whether nothing was lost. *)
Definition denormalize (mantissa exponent : Z) : Z * bool :=
  let bitrate := u64 (Z.shiftl mantissa exponent) in
  (bitrate, Z.shiftr bitrate exponent =? mantissa).

(** The loop ends, with the smallest exponent that makes the mantissa fit [b] bits. *)
Lemma normalize_spec b fuel : 0 < b -> forall m e,
  0 <= m < 2 ^ (b + Z.of_nat fuel) ->
  exists k, normalize fuel (2 ^ b - 1) m e = Ok (Z.shiftr m k, e + k) /\
    0 <= k <= Z.of_nat fuel /\ 0 <= Z.shiftr m k < 2 ^ b /\
    (k <> 0 -> 2 ^ b <= Z.shiftr m (k - 1)).
Proof.
  intros Hb. induction fuel as [|fuel IH]; intros m e Hm; cbn [normalize];
    destruct (Z.ltb_spec (2 ^ b - 1) m).
  - rewrite Z.add_0_r in Hm. lia.
  - exists 0. rewrite Z.shiftr_0_r, Z.add_0_r. split_and!; try lia; done.
  - destruct (IH (Z.shiftr m 1) (e + 1)) as (k & Heq & Hk & Hr & Hmin).
    { rewrite Z.shiftr_div_pow2 by lia. change (2 ^ 1) with 2.
      replace (b + Z.of_nat (S fuel)) with (Z.succ (b + Z.of_nat fuel)) in Hm by lia.
      rewrite Z.pow_succ_r in Hm by lia. Z.div_mod_to_equations. lia. }
    exists (k + 1). rewrite Heq, Z.shiftr_shiftr in * by lia.
    rewrite (Z.add_comm 1 k) in *.
    split_and!; [by rewrite <- (Z.add_assoc e), (Z.add_comm 1 k)|lia|lia|lia|lia|].
    intros _. replace (k + 1 - 1) with k by lia. destruct (Z.eq_dec k 0) as [->|Hk0].
    + rewrite Z.shiftr_0_r. lia.
    + specialize (Hmin Hk0). rewrite Z.shiftr_shiftr in Hmin by lia.
      by replace (1 + (k - 1)) with k in Hmin by lia.
  - exists 0. rewrite Z.shiftr_0_r, Z.add_0_r. split_and!; try lia; done.
Qed.

(** The bitrate [bitrate] rounded down to [b] significant bits. *)
Lemma denormalize_shiftr bitrate k :
  fits 64 bitrate -> 0 <= k ->
  denormalize (Z.shiftr bitrate k) k = (bitrate / 2 ^ k * 2 ^ k, true).
Proof.
  intros Hb Hk. unfold denormalize. rewrite Z.shiftl_mul_pow2, Z.shiftr_div_pow2 by done.
  assert (0 < 2 ^ k) by (apply Z.pow_pos_nonneg; lia).
  assert (Hle : 0 <= bitrate / 2 ^ k * 2 ^ k <= bitrate).
  { unfold fits in Hb. pose proof (Z.mul_div_le bitrate (2 ^ k) ltac:(lia)).
    pose proof (Z.div_pos bitrate (2 ^ k) ltac:(lia) ltac:(lia)). nia. }
  rewrite uwrap_id by (unfold fits in *; lia). f_equal.
  apply Z.eqb_eq. rewrite Z.shiftr_div_pow2 by done. rewrite Z.div_mul by lia. done.
Qed.

(** On 64-bit bitrates 64 turns are enough, and rounding down to [b] significant
    bits loses at most 1 part in 2^(b-1). *)
Lemma normalize_64 b bitrate :
  1 <= b -> fits 64 bitrate ->
  exists k, normalize 64 (2 ^ b - 1) bitrate 0 = Ok (Z.shiftr bitrate k, k) /\
    0 <= k < 64 /\ 0 <= Z.shiftr bitrate k < 2 ^ b /\
    bitrate / 2 ^ k * 2 ^ k <= bitrate /\
    (bitrate - bitrate / 2 ^ k * 2 ^ k) * 2 ^ (b - 1) <= bitrate.
Proof.
  intros Hb Hbr.
  destruct (normalize_spec b 64 ltac:(lia) bitrate 0) as (k & Hn & Hk & Hr & Hmin).
  { unfold fits in Hbr. assert (2 ^ 64 < 2 ^ (b + Z.of_nat 64)); [|lia].
    apply Z.pow_lt_mono_r; lia. }
  rewrite Z.add_0_l in Hn. unfold fits in Hbr.
  assert (0 < 2 ^ k) by (apply Z.pow_pos_nonneg; lia).
  assert (0 < 2 ^ (b - 1)) by (apply Z.pow_pos_nonneg; lia).
  assert (Hpb : 2 ^ b = 2 * 2 ^ (b - 1)) by (rewrite <- Z.pow_succ_r by lia; f_equal; lia).
  pose proof (Z.div_mod bitrate (2 ^ k) ltac:(lia)).
  pose proof (Z.mod_pos_bound bitrate (2 ^ k) ltac:(lia)).
  exists k. destruct (Z.eq_dec k 0) as [->|Hk0].
  { rewrite Z.pow_0_r, Z.div_1_r, Z.mul_1_r in *. split_and!; [done|lia..]. }
  specialize (Hmin Hk0). rewrite Z.shiftr_div_pow2 in Hmin by lia.
  assert (Hp : 2 ^ k = 2 * 2 ^ (k - 1)) by (rewrite <- Z.pow_succ_r by lia; f_equal; lia).
  assert (Hge : 2 ^ b * 2 ^ (k - 1) <= bitrate).
  { pose proof (Z.mul_div_le bitrate (2 ^ (k - 1)) ltac:(lia)). nia. }
  assert (Hk64 : k < 64).
  { destruct (Z.lt_ge_cases k 64); [done|].
    assert (2 ^ 63 <= 2 ^ (k - 1)) by (apply Z.pow_le_mono_r; lia).
    change (2 ^ 64) with (2 * 2 ^ 63) in Hbr. nia. }
  split_and!; [done|lia|lia|lia|lia|lia|nia].
Qed.

Module FeedbackRtpTmmb.

Record t := { ssrc : Z; bitrate : Z; overhead : Z; isCorrect : bool }.

Definition HeaderSize : Z := 8.

(** [FeedbackRtpTmmbItem(data)]. *)
Definition make (data : list Z) : res t :=
  ssrc ← Byte.Get4Bytes data 0;
  compact ← Byte.Get4Bytes data 4;
  let exponent := u8 (Z.shiftr compact 26) in
  let mantissa := Z.land (Z.shiftr compact 9) 0x1ffff in
  let overhead := Z.land compact 0x1ff in
  let '(bitrate, ok) := denormalize mantissa exponent in
  mret {| ssrc := ssrc; bitrate := bitrate; overhead := overhead; isCorrect := ok |}.

Definition Serialize (i : t) : res (list Z) :=
  '(mantissa, exponent) ← normalize 64 0x1ffff (bitrate i) 0;
  let compact := u32 (Z.lor (Z.lor (Z.shiftl exponent 26) (Z.shiftl mantissa 9)) (overhead i)) in
  mret (Byte.be4 (ssrc i) ++ Byte.be4 compact).

#[global] Instance Tmmb_item : FeedbackItem t := {|
  RtcpFeedback.HeaderSize := HeaderSize;
  RtcpFeedback.make := make;
  RtcpFeedback.IsCorrect := isCorrect;
  RtcpFeedback.GetSize := fun _ => mret HeaderSize;
  RtcpFeedback.Serialize := Serialize;
|}.

End FeedbackRtpTmmb.

(** ** Properties of the TMMBR and TMMBN items *)

(** A word of an exponent of 6 bits, a mantissa of 17 and an overhead of 9. *)
Lemma tmmb_compact e m o :
  0 <= e < 64 -> 0 <= m < 2 ^ 17 -> 0 <= o < 2 ^ 9 ->
  Z.lor (Z.lor (Z.shiftl e 26) (Z.shiftl m 9)) o = e * 2 ^ 26 + m * 2 ^ 9 + o.
Proof.
  intros He Hm Ho.
  assert (H1 : Z.lor (Z.shiftl m 9) (Z.shiftl e 26) = m * 2 ^ 9 + e * 2 ^ 26).
  { rewrite (lor_shiftl_add (Z.shiftl m 9) e 26); [by rewrite Z.shiftl_mul_pow2|lia|].
    rewrite Z.shiftl_mul_pow2 by lia. lia. }
  rewrite (Z.lor_comm (Z.shiftl e 26)), H1, Z.lor_comm.
  replace (m * 2 ^ 9 + e * 2 ^ 26) with (Z.shiftl (m + e * 2 ^ 17) 9)
    by (rewrite Z.shiftl_mul_pow2 by lia; lia).
  rewrite lor_shiftl_add by lia. lia.
Qed.

Lemma tmmb_fields e m o c :
  0 <= e < 64 -> 0 <= m < 2 ^ 17 -> 0 <= o < 2 ^ 9 -> c = e * 2 ^ 26 + m * 2 ^ 9 + o ->
  fits 32 c /\ u8 (Z.shiftr c 26) = e /\ Z.land (Z.shiftr c 9) 0x1ffff = m /\ Z.land c 0x1ff = o.
Proof.
  intros He Hm Ho ->. rewrite (land_ones_mod _ 17), (land_ones_mod _ 9) by lia.
  rewrite !Z.shiftr_div_pow2 by lia. unfold uwrap, fits.
  change (2 ^ 26) with 67108864 in *. change (2 ^ 17) with 131072 in *. pow2_consts.
  split_and!; Z.div_mod_to_equations; lia.
Qed.

(** The items that the format can represent. *)
Definition tmmb_ok (i : FeedbackRtpTmmb.t) : Prop :=
  fits 32 (FeedbackRtpTmmb.ssrc i) /\ fits 64 (FeedbackRtpTmmb.bitrate i) /\
  0 <= FeedbackRtpTmmb.overhead i < 2 ^ 9 /\ FeedbackRtpTmmb.isCorrect i = true /\
  exists k, normalize 64 0x1ffff (FeedbackRtpTmmb.bitrate i) 0 =
            Ok (Z.shiftr (FeedbackRtpTmmb.bitrate i) k, k) /\
            FeedbackRtpTmmb.bitrate i / 2 ^ k * 2 ^ k = FeedbackRtpTmmb.bitrate i.

Definition tmmb_bytes (i : FeedbackRtpTmmb.t) : list Z :=
  match FeedbackRtpTmmb.Serialize i with Ok b => b | Fault _ => [] end.

(** What is written of any 64-bit bitrate. *)
Lemma tmmb_Serialize s b o c k :
  0 <= o < 2 ^ 9 -> 0 <= k < 64 -> 0 <= Z.shiftr b k < 2 ^ 17 ->
  normalize 64 0x1ffff b 0 = Ok (Z.shiftr b k, k) ->
  FeedbackRtpTmmb.Serialize {| FeedbackRtpTmmb.ssrc := s; FeedbackRtpTmmb.bitrate := b;
    FeedbackRtpTmmb.overhead := o; FeedbackRtpTmmb.isCorrect := c |} =
  Ok (Byte.be4 s ++ Byte.be4 (k * 2 ^ 26 + Z.shiftr b k * 2 ^ 9 + o)).
Proof.
  intros Ho Hk Hr Hn.
  unfold FeedbackRtpTmmb.Serialize. cbn [FeedbackRtpTmmb.bitrate FeedbackRtpTmmb.ssrc
    FeedbackRtpTmmb.overhead]. rewrite Hn. cbn [mbind res_bind mret res_ret].
  rewrite tmmb_compact by lia. rewrite uwrap_id; [done|].
  by eapply (tmmb_fields k (Z.shiftr b k) o); [lia|lia|lia|].
Qed.

Lemma tmmb_make s k m o rest :
  fits 32 s -> 0 <= k < 64 -> 0 <= m < 2 ^ 17 -> 0 <= o < 2 ^ 9 ->
  FeedbackRtpTmmb.make ((Byte.be4 s ++ Byte.be4 (k * 2 ^ 26 + m * 2 ^ 9 + o)) ++ rest) =
  let '(b, c) := denormalize m k in
  Ok {| FeedbackRtpTmmb.ssrc := s; FeedbackRtpTmmb.bitrate := b;
        FeedbackRtpTmmb.overhead := o; FeedbackRtpTmmb.isCorrect := c |}.
Proof.
  intros Hs Hk Hm Ho. unfold FeedbackRtpTmmb.make. rewrite <- app_assoc, Get4Bytes_front.
  rewrite (uwrap_id 32 s) by done. cbn [mbind res_bind].
  rewrite (Get4Bytes_app (Byte.be4 s) _ 0 4) by done. rewrite Get4Bytes_front.
  destruct (tmmb_fields k m o _ Hk Hm Ho eq_refl) as (Hf & H1 & H2 & H3).
  rewrite (uwrap_id 32) by done. cbn [mbind res_bind]. by rewrite H1, H2, H3.
Qed.

Lemma tmmb_ok_bytes i :
  tmmb_ok i ->
  FeedbackRtpTmmb.Serialize i = Ok (tmmb_bytes i) /\ zlen (tmmb_bytes i) = 8 /\
  forall rest, FeedbackRtpTmmb.make (tmmb_bytes i ++ rest) = Ok i.
Proof.
  destruct i as [s b o c]. intros (Hs & Hb & Ho & Hc & k' & Hn' & Hex).
  cbn [FeedbackRtpTmmb.ssrc FeedbackRtpTmmb.bitrate FeedbackRtpTmmb.overhead
       FeedbackRtpTmmb.isCorrect] in *. subst c.
  destruct (normalize_64 17 b ltac:(lia) Hb) as (k & Hn & Hk & Hm & _).
  pose proof (tmmb_Serialize s b o true k Ho Hk Hm Hn) as Hser.
  unfold tmmb_bytes. rewrite Hser. split_and!; [done|done|]. intros rest.
  change 0x1ffff with (2 ^ 17 - 1) in Hn'. rewrite Hn in Hn'. injection Hn' as _ <-.
  rewrite tmmb_make by done.
  by rewrite denormalize_shiftr, Hex by (done || lia).
Qed.

#[export] Instance tmmb_laws : FeedbackItemLaws FeedbackRtpTmmb.t.
Proof.
  refine {| item_ok := tmmb_ok; item_bytes := tmmb_bytes |}.
  - intros i (_ & -> & _)%tmmb_ok_bytes. done.
  - intros i rest (_ & _ & H)%tmmb_ok_bytes. apply H.
  - intros i (_ & _ & _ & H & _). apply H.
  - intros i (_ & -> & _)%tmmb_ok_bytes. done.
  - intros i (H & _ & _)%tmmb_ok_bytes. apply H.
Defined.

#[export] Instance tmmb_safe : FeedbackItemSafe FeedbackRtpTmmb.t.
Proof.
  split; [done|]. intros data Hd Hl. cbn in Hl |- *. unfold FeedbackRtpTmmb.make, FeedbackRtpTmmb.HeaderSize in *.
  destruct (Get4Bytes_safe data 0) as [s ->]; [lia..|]. cbn [mbind res_bind].
  destruct (Get4Bytes_safe data 4) as [c ->]; [lia..|]. cbn [mbind res_bind].
  destruct (denormalize _ _). do 2 eexists. by split.
Defined.

(** Any 64-bit bitrate put in a TMMBR or TMMBN item is read back rounded down to
    17 significant bits: not above the bitrate, and within 1 part in 2^16 of it. *)
Theorem tmmb_bitrate_rounding s b o :
  fits 32 s -> fits 64 b -> 0 <= o < 2 ^ 9 ->
  exists bytes b',
    FeedbackRtpTmmb.Serialize {| FeedbackRtpTmmb.ssrc := s; FeedbackRtpTmmb.bitrate := b;
      FeedbackRtpTmmb.overhead := o; FeedbackRtpTmmb.isCorrect := true |} = Ok bytes /\
    FeedbackRtpTmmb.make bytes = Ok {| FeedbackRtpTmmb.ssrc := s; FeedbackRtpTmmb.bitrate := b';
      FeedbackRtpTmmb.overhead := o; FeedbackRtpTmmb.isCorrect := true |} /\
    b' <= b /\ (b - b') * 2 ^ 16 <= b.
Proof.
  intros Hs Hb Ho. destruct (normalize_64 17 b ltac:(lia) Hb) as (k & Hn & Hk & Hm & Hle & Herr).
  do 2 eexists. split; [exact (tmmb_Serialize s b o true k Ho Hk Hm Hn)|]. split; [|split; [exact Hle|exact Herr]].
  rewrite <- (app_nil_r (Byte.be4 s ++ _)), tmmb_make, denormalize_shiftr by (done || lia). done.
Qed.

Lemma tmmb_bitrate_rounding_witness :
  exists bytes b',
    FeedbackRtpTmmb.Serialize {| FeedbackRtpTmmb.ssrc := 7; FeedbackRtpTmmb.bitrate := 1234567;
      FeedbackRtpTmmb.overhead := 40; FeedbackRtpTmmb.isCorrect := true |} = Ok bytes /\
    FeedbackRtpTmmb.make bytes = Ok {| FeedbackRtpTmmb.ssrc := 7; FeedbackRtpTmmb.bitrate := b';
      FeedbackRtpTmmb.overhead := 40; FeedbackRtpTmmb.isCorrect := true |} /\
    b' <= 1234567 /\ (1234567 - b') * 2 ^ 16 <= 1234567.
Proof. apply tmmb_bitrate_rounding; [by vm_compute|by vm_compute|lia]. Defined.

Lemma feedback_roundtrip_witness :
  let p := {| FeedbackPacket.messageType := 1; FeedbackPacket.senderSsrc := 0;
              FeedbackPacket.mediaSsrc := 4026531841;
              FeedbackPacket.items := [FeedbackRtpNack.create 100 3; FeedbackRtpNack.create 700 0] |} in
  exists out, FeedbackPacket.Serialize Packet.RTPFB p = Ok out /\
    FeedbackPacket.GetSize p = Ok (zlen out) /\ FeedbackPacket.Parse false out = Ok (Some p).
Proof.
  apply (feedback_roundtrip false Packet.RTPFB). split_and!; try by vm_compute.
  repeat constructor.
Defined.

(** ** Properties of the NACK items *)

Lemma popcount_app n m : forall a b,
  0 <= a < 2 ^ Z.of_nat n -> 0 <= b ->
  Bits.popcount (n + m) (a + 2 ^ Z.of_nat n * b) = Bits.popcount n a + Bits.popcount m b.
Proof.
  induction n as [|n IH]; intros a b Ha Hb.
  - change (Z.of_nat 0) with 0 in *. rewrite Z.pow_0_r in *. cbn [Nat.add Bits.popcount].
    replace (a + 1 * b) with b by lia. lia.
  - cbn [Nat.add Bits.popcount].
    rewrite Nat2Z.inj_succ, Z.pow_succ_r in * by lia.
    assert (Ho : Z.odd (a + 2 * 2 ^ Z.of_nat n * b) = Z.odd a).
    { rewrite Z.odd_add, <- Z.mul_assoc, Z.odd_mul. cbn. by rewrite xorb_false_r. }
    assert (Hs : Z.shiftr (a + 2 * 2 ^ Z.of_nat n * b) 1 = Z.shiftr a 1 + 2 ^ Z.of_nat n * b).
    { rewrite !Z.shiftr_div_pow2 by lia. change (2 ^ 1) with 2.
      rewrite <- Z.mul_assoc, (Z.mul_comm 2), Z.div_add by lia. done. }
    rewrite Ho, Hs, IH; [lia| |done].
    rewrite Z.shiftr_div_pow2 by lia. change (2 ^ 1) with 2. Z.div_mod_to_equations. lia.
Qed.

Lemma popcount_bytes a b : fits 8 a -> fits 8 b ->
  Bits.CountSetBits (a + 256 * b) = Bits.popcount 8 a + Bits.popcount 8 b.
Proof.
  intros Ha Hb. unfold Bits.CountSetBits, fits in *.
  change 32%nat with (8 + (8 + 16))%nat. change 256 with (2 ^ Z.of_nat 8).
  rewrite popcount_app by (change (Z.of_nat 8) with 8; lia).
  replace b with (b + 2 ^ Z.of_nat 8 * 0) at 1 by lia.
  rewrite popcount_app by (change (Z.of_nat 8) with 8; lia).
  change (Bits.popcount 16 0) with 0. lia.
Qed.

(** A NACK item gives back the packet and the mask it was made with, and counts
    one requested packet more than the mask has bits, whatever the byte order. *)
Theorem nack_item_fields packetId mask :
  fits 16 packetId -> fits 16 mask ->
  let i := FeedbackRtpNack.create packetId mask in
  FeedbackRtpNack.GetPacketId i = Ok packetId /\
  FeedbackRtpNack.GetLostPacketBitmask i = Ok mask /\
  FeedbackRtpNack.CountRequestedPackets i = Ok (Bits.CountSetBits mask + 1).
Proof.
  intros Hp Hm i. split_and!.
  - unfold FeedbackRtpNack.GetPacketId, i. cbn [raw FeedbackRtpNack.create].
    by rewrite Get2Bytes_front, uwrap_id.
  - unfold FeedbackRtpNack.GetLostPacketBitmask, i. cbn [raw FeedbackRtpNack.create].
    rewrite (Get2Bytes_app (Byte.be2 packetId) _ 0 2) by done.
    by rewrite <- (app_nil_r (Byte.be2 mask)), Get2Bytes_front, uwrap_id.
  - unfold FeedbackRtpNack.CountRequestedPackets, i.
    change (Ok (Bits.CountSetBits (u8 (Z.shiftr mask 8) + 256 * u8 mask) + 1) =
            Ok (Bits.CountSetBits mask + 1)). do 2 f_equal.
    rewrite popcount_bytes by apply u8_fits.
    replace mask with (u8 mask + 256 * u8 (Z.shiftr mask 8)) at 3.
    + rewrite popcount_bytes by apply u8_fits. lia.
    + rewrite shiftr_u8 by lia. unfold uwrap, fits in *. change (2 ^ 16) with 65536 in Hm.
      change (2 ^ 8) with 256. Z.div_mod_to_equations. lia.
Qed.

Lemma nack_item_fields_witness :
  let i := FeedbackRtpNack.create 4660 258 in
  FeedbackRtpNack.GetPacketId i = Ok 4660 /\
  FeedbackRtpNack.GetLostPacketBitmask i = Ok 258 /\
  FeedbackRtpNack.CountRequestedPackets i = Ok 3.
Proof. apply (nack_item_fields 4660 258); by vm_compute. Defined.

(** ** SLI, RPSI and VBCM items *)

Module FeedbackPsSli.

Record t := { first : Z; number : Z; pictureId : Z }.

Definition make (data : list Z) : res t :=
  compact ← Byte.Get4Bytes data 0;
  mret {| first := u16 (Z.shiftr compact 19);
          number := u16 (Z.land (Z.shiftr compact 6) 0x1fff);
          pictureId := u8 (Z.land compact 0x3f) |}.

Definition Serialize (i : t) : res (list Z) :=
  let compact := u32 (Z.lor (Z.lor (Z.shiftl (first i) 19) (Z.shiftl (number i) 6)) (pictureId i)) in
  mret (Byte.be4 compact).

#[global] Instance Sli_item : FeedbackItem t := {|
  RtcpFeedback.HeaderSize := 4;
  RtcpFeedback.make := make;
  RtcpFeedback.IsCorrect := fun _ => true;
  RtcpFeedback.GetSize := fun _ => mret 4;
  RtcpFeedback.Serialize := Serialize;
|}.

Definition ok (i : t) : Prop :=
  0 <= first i < 2 ^ 13 /\ 0 <= number i < 2 ^ 13 /\ 0 <= pictureId i < 2 ^ 6.

Definition word (i : t) : Z := first i * 2 ^ 19 + number i * 2 ^ 6 + pictureId i.

Lemma sli_Serialize_ok i : ok i -> Serialize i = Ok (Byte.be4 (word i)) /\ fits 32 (word i).
Proof.
  intros (Hf & Hn & Hp). unfold Serialize, word.
  assert (H1 : Z.lor (Z.shiftl (number i) 6) (Z.shiftl (first i) 19) =
               number i * 2 ^ 6 + first i * 2 ^ 19).
  { rewrite (lor_shiftl_add (Z.shiftl (number i) 6) (first i) 19);
      [by rewrite Z.shiftl_mul_pow2|lia|]. rewrite Z.shiftl_mul_pow2 by lia. lia. }
  rewrite (Z.lor_comm (Z.shiftl (first i) 19)), H1, Z.lor_comm.
  replace (number i * 2 ^ 6 + first i * 2 ^ 19) with
    (Z.shiftl (number i + first i * 2 ^ 13) 6) by (rewrite Z.shiftl_mul_pow2 by lia; lia).
  rewrite lor_shiftl_add by lia.
  assert (Hw : fits 32 (first i * 2 ^ 19 + number i * 2 ^ 6 + pictureId i)) by (unfold fits; lia).
  split; [|done]. cbn [mret res_ret]. do 2 f_equal.
  replace (pictureId i + (number i + first i * 2 ^ 13) * 2 ^ 6) with
    (first i * 2 ^ 19 + number i * 2 ^ 6 + pictureId i) by lia. by rewrite uwrap_id.
Qed.

Lemma sli_make_ok i rest : ok i -> make (Byte.be4 (word i) ++ rest) = Ok i.
Proof.
  intros Hi. destruct (sli_Serialize_ok i Hi) as [_ Hw]. destruct Hi as (Hf & Hn & Hp).
  unfold make. rewrite Get4Bytes_front, (uwrap_id 32) by done. cbn [mbind res_bind].
  destruct i as [f n p]. cbn [first number pictureId] in *. unfold word.
  cbn [first number pictureId mret res_ret]. do 2 f_equal; unfold uwrap;
    rewrite ?(land_ones_mod _ 13), ?(land_ones_mod _ 6), ?Z.shiftr_div_pow2 by lia;
    change (2 ^ 13) with 8192 in *; change (2 ^ 19) with 524288; pow2_consts;
    Z.div_mod_to_equations; lia.
Qed.

End FeedbackPsSli.

#[export] Instance sli_laws : FeedbackItemLaws FeedbackPsSli.t.
Proof.
  refine {| item_ok := FeedbackPsSli.ok; item_bytes := fun i => Byte.be4 (FeedbackPsSli.word i) |}.
  - done.
  - intros i rest Hi. by apply FeedbackPsSli.sli_make_ok.
  - done.
  - done.
  - intros i Hi. by apply FeedbackPsSli.sli_Serialize_ok.
Defined.

#[export] Instance sli_safe : FeedbackItemSafe FeedbackPsSli.t.
Proof.
  split; [done|]. intros data Hd Hl. cbn in Hl |- *. unfold FeedbackPsSli.make.
  destruct (Get4Bytes_safe data 0) as [c ->]; [lia..|]. do 2 eexists. by split.
Defined.

Module FeedbackPsRpsi.

Definition maxBitStringSize : Z := 6.
Definition HeaderSize : Z := 8.

Record t := { header : list Z; length : Z; isCorrect : bool }.

(** [FeedbackPsRpsiItem(header)]; the subtraction is on [size_t]. *)
Definition make (data : list Z) : res t :=
  header ← bytes_at data 0 HeaderSize;
  paddingBits ← read data 0;
  let paddingBytes := paddingBits / 8 in
  mret {| header := header; length := u64 (maxBitStringSize - paddingBytes);
          isCorrect := (paddingBits mod 8 =? 0) && (paddingBytes <=? maxBitStringSize) |}.

(** [raw[HeaderSize + i - 1] = 0] for the padding. *)
Fixpoint fill_padding (n : nat) (i : Z) (r : list Z) : res (list Z) :=
  match n with
  | O => mret r
  | S n' => r ← store r (HeaderSize + i - 1) 0; fill_padding n' (i + 1) r
  end.

(** The constructor of a local item; [fresh] is the memory [new] returns. *)
Definition create (fresh : list Z) (payloadType : Z) (bitString : list Z) : res t :=
  _ ← ms_assert (payloadType <=? 0x7f);
  _ ← ms_assert (zlen bitString <=? maxBitStringSize);
  let padding := padding4 (zlen bitString) in
  r ← store fresh 0 (u8 (padding * 8));
  b1 ← read r 1;
  r ← store r 1 (b1 mod 128);
  let r := take 2 r ++ bitString ++ drop (2 + List.length bitString) r in
  r ← fill_padding (Z.to_nat padding) 0 r;
  mret {| header := r; length := 0; isCorrect := true |}.

Definition GetPayloadType (i : t) : res Z := b ← read (header i) 1; mret (b mod 128).
Definition GetLength (i : t) : Z := length i.

#[global] Instance Rpsi_item : FeedbackItem t := {|
  RtcpFeedback.HeaderSize := HeaderSize;
  RtcpFeedback.make := make;
  RtcpFeedback.IsCorrect := isCorrect;
  RtcpFeedback.GetSize := fun _ => mret HeaderSize;
  RtcpFeedback.Serialize := fun i => mret (header i);
|}.

(** An RPSI item that is taken has a bit string that lies in its header: its
    length is at most 6 bytes, so the subtraction of the padding did not wrap. *)
Theorem rpsi_length_bounded data i :
  bytes_ok data -> make data = Ok i -> isCorrect i = true -> 0 <= GetLength i <= maxBitStringSize.
Proof.
  intros Hd Hm Hc. unfold make in Hm. apply res_bind_ok in Hm as (h & _ & Hm).
  apply res_bind_ok in Hm as (pb & Hpb & Hm). injection Hm as <-. cbn [isCorrect] in Hc.
  apply andb_true_iff in Hc as [_ Hc]. apply Z.leb_le in Hc.
  pose proof (read_bytes_ok _ _ _ Hd Hpb) as Hf. unfold GetLength, maxBitStringSize, fits in *.
  cbn [length]. rewrite uwrap_id; [|unfold fits]; pow2_consts; Z.div_mod_to_equations; lia.
Qed.

Lemma rpsi_length_bounded_witness :
  exists i, make [16; 5; 1; 2; 3; 4; 0; 0] = Ok i /\ 0 <= GetLength i <= maxBitStringSize.
Proof.
  eexists. split; [reflexivity|].
  eapply (rpsi_length_bounded [16; 5; 1; 2; 3; 4; 0; 0]);
    [repeat constructor; by vm_compute|reflexivity|reflexivity].
Defined.

(** Making an RPSI item out of a bit string of 2 bytes writes after the end of
    its 8 bytes of memory: the padding is filled from the last byte upwards. *)
Theorem rpsi_create_overflows :
  create (replicate 8 0) 1 [1; 2] = Fault OutOfBounds.
Proof. vm_compute. reflexivity. Qed.

End FeedbackPsRpsi.

#[export] Instance rpsi_safe : FeedbackItemSafe FeedbackPsRpsi.t.
Proof.
  split; [done|]. intros data Hd Hl. cbn [make HeaderSize FeedbackPsRpsi.Rpsi_item] in *.
  unfold FeedbackPsRpsi.make, FeedbackPsRpsi.HeaderSize in *.
  rewrite bytes_at_ok by lia. cbn [mbind res_bind]. read_ok. do 2 eexists. by split.
Defined.

Module FeedbackPsVbcm.

Definition HeaderSize : Z := 8.

(** The item points to its header; the value goes on after it. *)
Record t := { header : list Z }.

Definition make (data : list Z) : res t := mret {| header := data |}.

Definition GetSsrc (i : t) : res Z := Byte.Get4Bytes (header i) 0.
Definition GetSequenceNumber (i : t) : res Z := Byte.Get1Byte (header i) 4.
Definition GetPayloadType (i : t) : res Z := b ← read (header i) 5; mret (b mod 128).
Definition GetLength (i : t) : res Z := Byte.Get2Bytes (header i) 6.

Definition GetSize (i : t) : res Z := n ← GetLength i; mret (align4 (HeaderSize + n)).

Definition Serialize (i : t) : res (list Z) :=
  h ← bytes_at (header i) 0 8;
  n ← GetLength i;
  v ← bytes_at (header i) 8 n;
  mret (h ++ v ++ zeros (padding4 (8 + n))).

(** The constructor of a local item: [fresh] is the memory [new] returns, and
    [sizeof(length)] bytes of the value are copied. *)
Definition create (fresh : list Z) (ssrc sequenceNumber payloadType length : Z) (value : list Z)
    : res t :=
  let h := Byte.be4 ssrc ++ [u8 sequenceNumber; payloadType mod 128] ++ Byte.be2 length in
  let mem := take (Z.to_nat (8 + length)) fresh in
  v ← bytes_at value 0 2;
  if zlen mem <? 8 + 2 then Fault OutOfBounds
  else mret {| header := h ++ v ++ drop 10 mem |}.

#[global] Instance Vbcm_item : FeedbackItem t := {|
  RtcpFeedback.HeaderSize := HeaderSize;
  RtcpFeedback.make := make;
  RtcpFeedback.IsCorrect := fun _ => true;
  RtcpFeedback.GetSize := GetSize;
  RtcpFeedback.Serialize := Serialize;
|}.

(** The constructor of a VBCM item copies [sizeof(length)], 2 bytes, of the
    value: a value of 4 bytes comes out with its last two bytes uninitialized (here
    170), and a value of 1 byte is written past the end of its memory. *)
Theorem vbcm_create_copies_two_bytes :
  (i ← create (replicate 12 170) 1 2 3 4 [1; 2; 3; 4]; Serialize i) =
    Ok ([0; 0; 0; 1; 2; 3; 0; 4] ++ [1; 2; 170; 170]) /\
  create (replicate 9 170) 1 2 3 1 [1; 0] = Fault OutOfBounds.
Proof. split; vm_compute; reflexivity. Qed.

(** A VBCM item is taken whatever length its header announces; writing it again
    reads that many bytes, past the end of the packet it came in. *)
Theorem vbcm_length_unchecked :
  make [0; 0; 0; 1; 2; 3; 0; 200] = Ok {| header := [0; 0; 0; 1; 2; 3; 0; 200] |} /\
  Serialize {| header := [0; 0; 0; 1; 2; 3; 0; 200] |} = Fault OutOfBounds.
Proof. split; vm_compute; reflexivity. Qed.

End FeedbackPsVbcm.

#[export] Instance vbcm_safe : FeedbackItemSafe FeedbackPsVbcm.t.
Proof.
  split; [done|]. intros data Hd Hl. cbn [make HeaderSize FeedbackPsVbcm.Vbcm_item] in *.
  unfold FeedbackPsVbcm.HeaderSize in *. eexists. 
  destruct (Get2Bytes_safe data 6) as [n En]; [lia..|].
  exists (align4 (8 + n)). split; [done|].
  cbn [RtcpFeedback.GetSize FeedbackPsVbcm.Vbcm_item]. unfold FeedbackPsVbcm.GetSize,
    FeedbackPsVbcm.GetLength. cbn [FeedbackPsVbcm.header]. rewrite En. split; [done|].
  assert (0 <= n).
  { unfold Byte.Get2Bytes in En. apply res_bind_ok in En as (b1 & E1 & En).
    apply res_bind_ok in En as (b0 & E0 & En). injection En as <-.
    pose proof (read_bytes_ok _ _ _ Hd E1). pose proof (read_bytes_ok _ _ _ Hd E0).
    unfold fits in *. apply Z.lor_nonneg. rewrite Z.shiftl_nonneg. lia. }
  rewrite align4_padding. pose proof (padding4_range (8 + n)). lia.
Defined.

(** ** Packets without items *)

(** [FeedbackPsPliPacket] and [FeedbackRtpSrReqPacket]: a feedback header alone. *)
Module FeedbackHeaderPacket.

Record t := { messageType : Z; senderSsrc : Z; mediaSsrc : Z }.

Definition Parse (data : list Z) : res (option t) :=
  if zlen data <? Packet.CommonHeaderSize + FeedbackPacket.HeaderSize then mret None
  else
    '(mt, s, m) ← FeedbackPacket.read_header data;
    mret (Some {| messageType := mt; senderSsrc := s; mediaSsrc := m |}).

Definition GetSize (p : t) : Z := Packet.CommonHeaderSize + FeedbackPacket.HeaderSize.

Definition Serialize (rtcpType : Packet.Type_) (p : t) : list Z :=
  FeedbackPacket.serialize_header rtcpType (messageType p) (senderSsrc p) (mediaSsrc p) (GetSize p).

Lemma header_packet_Parse_safe data : exists p, Parse data = Ok p.
Proof.
  unfold Parse. change (Packet.CommonHeaderSize + FeedbackPacket.HeaderSize) with 12.
  destruct (Z.ltb_spec (zlen data) 12); [eauto|].
  destruct (read_header_safe data) as [[[mt s] m] ->]; [done|]. cbn. eauto.
Qed.

Lemma Parse_Serialize rtcpType p :
  0 <= messageType p < 32 -> fits 32 (senderSsrc p) -> fits 32 (mediaSsrc p) ->
  Parse (Serialize rtcpType p) = Ok (Some p).
Proof.
  intros Ht Hs Hm. unfold Parse, Serialize. rewrite zlen_serialize_header. cbn [Z.ltb Z.compare].
  rewrite <- (app_nil_r (FeedbackPacket.serialize_header _ _ _ _ _)).
  rewrite read_header_serialized by done. by destruct p.
Qed.

End FeedbackHeaderPacket.

Module FeedbackPsRemb.

Definition UniqueIdentifier : Z := 0x52454D42.

Record t := { senderSsrc : Z; mediaSsrc : Z; bitrate : Z; ssrcs : list Z }.

Fixpoint read_ssrcs (n : nat) (data : list Z) (index : Z) : res (list Z) :=
  match n with
  | O => mret []
  | S n' =>
      s ← Byte.Get4Bytes data index;
      rest ← read_ssrcs n' data (index + 4);
      mret (s :: rest)
  end.

(** [FeedbackPsRembPacket(commonHeader, availableLen)]: [None] when not correct. *)
Definition make (packet : list Z) (availableLen : Z) : res (option t) :=
  length ← Packet.hdr_length packet;
  let len := (length + 1) * 4 in
  if availableLen <? len then mret None
  else
    '(_, s, m) ← FeedbackPacket.read_header packet;
    data ← sub packet (Packet.CommonHeaderSize + FeedbackPacket.HeaderSize);
    numSsrcs ← read data 4;
    if negb (len =? Packet.CommonHeaderSize + FeedbackPacket.HeaderSize + 8 + numSsrcs * 4)
    then mret None
    else
      identifier ← Byte.Get4Bytes data 0;
      if negb (identifier =? UniqueIdentifier) then mret None
      else
        b5 ← read data 5;
        low ← Byte.Get2Bytes data 6;
        let exponent := Z.shiftr b5 2 in
        let mantissa := Z.lor (Z.shiftl (Z.land b5 3) 16) low in
        let '(bitrate, ok) := denormalize mantissa exponent in
        if negb ok then mret None
        else
          ssrcs ← read_ssrcs (Z.to_nat numSsrcs) data 8;
          mret (Some {| senderSsrc := s; mediaSsrc := m; bitrate := bitrate; ssrcs := ssrcs |}).

Definition Parse (data : list Z) : res (option t) :=
  if zlen data <? Packet.CommonHeaderSize + FeedbackPacket.HeaderSize + 8 then mret None
  else make data (zlen data).

Definition GetSize (p : t) : Z :=
  Packet.CommonHeaderSize + FeedbackPacket.HeaderSize + 8 + 4 * zlen (ssrcs p).

Definition Serialize (p : t) : res (list Z) :=
  '(mantissa, exponent) ← normalize 64 0x3FFFF (bitrate p) 0;
  mret (FeedbackPacket.serialize_header Packet.PSFB 15 (senderSsrc p) (mediaSsrc p) (GetSize p) ++
        Byte.be4 UniqueIdentifier ++
        [u8 (zlen (ssrcs p)); u8 (Z.lor (Z.shiftl exponent 2) (Z.shiftr mantissa 16))] ++
        Byte.be2 (Z.land mantissa 0xFFFF) ++
        concat (Byte.be4 <$> ssrcs p)).

(** ** Safety *)

Lemma read_ssrcs_safe n : forall data index,
  0 <= index -> index + 4 * Z.of_nat n <= zlen data -> exists l, read_ssrcs n data index = Ok l.
Proof.
  induction n as [|n IH]; intros data index Hi Hl; cbn [read_ssrcs]; [eauto|].
  destruct (Get4Bytes_safe data index) as [s ->]; [lia..|]. cbn [mbind res_bind].
  destruct (IH data (index + 4)) as [l ->]; [lia..|]. cbn. eauto.
Qed.

Lemma remb_Parse_safe data : bytes_ok data -> exists p, Parse data = Ok p.
Proof.
  intros Hd. unfold Parse, make. change (Packet.CommonHeaderSize + FeedbackPacket.HeaderSize) with 12.
  destruct (Z.ltb_spec (zlen data) (12 + 8)); [eauto|]. unfold Packet.hdr_length.
  destruct (Get2Bytes_safe data 2) as [len ->]; [lia..|]. cbn [mbind res_bind].
  destruct (Z.ltb_spec (zlen data) ((len + 1) * 4)); [eauto|].
  destruct (read_header_safe data) as [[[mt s] m] ->]; [lia|]. cbn [mbind res_bind].
  rewrite sub_ok by lia. cbn [mbind res_bind]. set (d := drop (Z.to_nat 12) data).
  assert (Hl : zlen d = zlen data - 12) by (unfold d; rewrite zlen_drop; lia).
  destruct (read_in_range d 4) as (n & En & _); [lia|]. rewrite En. cbn [mbind res_bind].
  assert (Hn : fits 8 n) by (eapply read_bytes_ok; [apply Forall_drop; exact Hd|exact En]).
  unfold fits in Hn. destruct (Z.eqb_spec ((len + 1) * 4) (12 + 8 + n * 4)); cbn [negb]; [|eauto].
  destruct (Get4Bytes_safe d 0) as [idf ->]; [lia..|]. cbn [mbind res_bind].
  destruct (negb (idf =? UniqueIdentifier)); [eauto|]. read_ok.
  destruct (Get2Bytes_safe d 6) as [lo ->]; [lia..|]. cbn [mbind res_bind].
  destruct (denormalize _ _) as [br ok]. destruct (negb ok); [eauto|].
  destruct (read_ssrcs_safe (Z.to_nat n) d 8) as [l ->]; [lia..|]. cbn. eauto.
Qed.

(** ** Round trip *)

Lemma read_ssrcs_concat l : forall front,
  Forall (fits 32) l ->
  read_ssrcs (length l) (front ++ concat (Byte.be4 <$> l)) (zlen front) = Ok l.
Proof.
  induction l as [|s l IH]; intros front Hl; [done|]. apply list.Forall_cons in Hl as [Hs Hl].
  rewrite fmap_cons. cbn [length read_ssrcs concat].
  rewrite (Get4Bytes_app front _ 0) by lia. rewrite Get4Bytes_front, uwrap_id by done.
  cbn [mbind res_bind]. specialize (IH (front ++ Byte.be4 s) Hl).
  rewrite <- app_assoc, zlen_app, zlen_be4 in IH. by rewrite IH.
Qed.

(** A byte of an exponent of 6 bits and the 2 high bits of a mantissa of 18. *)
Lemma remb_fields k m :
  0 <= k < 64 -> 0 <= m < 2 ^ 18 ->
  let b5 := u8 (Z.lor (Z.shiftl k 2) (Z.shiftr m 16)) in
  Z.shiftr b5 2 = k /\ Z.lor (Z.shiftl (Z.land b5 3) 16) (u16 (Z.land m 0xFFFF)) = m.
Proof.
  intros Hk Hm b5. change (2 ^ 18) with 262144 in Hm.
  assert (Hhi : 0 <= Z.shiftr m 16 < 2 ^ 2).
  { rewrite Z.shiftr_div_pow2 by lia. pow2_consts. Z.div_mod_to_equations. lia. }
  assert (Hb5 : b5 = m / 65536 + k * 4).
  { unfold b5. rewrite Z.lor_comm, lor_shiftl_add, Z.shiftr_div_pow2 in * by lia.
    pow2_consts. rewrite uwrap_id; [done|]. unfold fits. pow2_consts. lia. }
  rewrite Hb5. rewrite Z.shiftr_div_pow2 in Hhi by lia. pow2_consts. split.
  - rewrite Z.shiftr_div_pow2 by lia. pow2_consts. Z.div_mod_to_equations. lia.
  - rewrite (land_ones_mod _ 2), (land_ones_mod _ 16) by lia. rewrite Z.lor_comm.
    rewrite uwrap_id by (unfold fits; pow2_consts; apply Z.mod_pos_bound; lia).
    rewrite lor_shiftl_add by (pow2_consts; try apply Z.mod_pos_bound; lia).
    pow2_consts. Z.div_mod_to_equations. lia.
Qed.

(** The part of the packet after the feedback header. *)
Definition body (n b5 low : Z) (l : list Z) : list Z :=
  Byte.be4 UniqueIdentifier ++ [n; b5] ++ Byte.be2 low ++ concat (Byte.be4 <$> l).

Lemma zlen_body n b5 low l : zlen (body n b5 low l) = 8 + 4 * zlen l.
Proof.
  unfold body. rewrite !zlen_app, zlen_be4, zlen_be2, ByePacket.zlen_ssrcs.
  change (zlen [n; b5]) with 2. lia.
Qed.

Lemma body_fields n b5 low l :
  Forall (fits 32) l ->
  let d := body n b5 low l in
  Byte.Get4Bytes d 0 = Ok UniqueIdentifier /\ read d 4 = Ok n /\ read d 5 = Ok b5 /\
  Byte.Get2Bytes d 6 = Ok (u16 low) /\ read_ssrcs (length l) d 8 = Ok l.
Proof.
  intros Hl d. split_and!; [done|done|done| |].
  - unfold d, body. change 6 with (zlen (Byte.be4 UniqueIdentifier) + 2).
    rewrite (Get2Bytes_app _ _ 2) by done. rewrite (Get2Bytes_app [n; b5] _ 0 2) by done.
    apply Get2Bytes_front.
  - unfold d, body. change 8 with (zlen (Byte.be4 UniqueIdentifier ++ [n; b5] ++ Byte.be2 low)).
    rewrite !app_assoc. rewrite <- (app_assoc (Byte.be4 _)). by apply read_ssrcs_concat.
Qed.

(** Reading what was written, for a mantissa and an exponent. *)
Lemma remb_make_ok s m size k mant l :
  fits 32 s -> fits 32 m -> 0 <= k < 64 -> 0 <= mant < 2 ^ 18 -> Forall (fits 32) l ->
  zlen l <= 255 -> size = 20 + 4 * zlen l ->
  let b5 := u8 (Z.lor (Z.shiftl k 2) (Z.shiftr mant 16)) in
  let d := FeedbackPacket.serialize_header Packet.PSFB 15 s m size ++
           body (zlen l) b5 (Z.land mant 0xFFFF) l in
  make d size =
    let '(b, ok) := denormalize mant k in
    Ok (if ok then Some {| senderSsrc := s; mediaSsrc := m; bitrate := b; ssrcs := l |} else None).
Proof.
  intros Hs Hm Hk Hman Hl Hn Hsz b5 d. unfold make.
  destruct (remb_fields k mant Hk Hman) as [Hexp Hmant]. fold b5 in Hexp, Hmant.
  destruct (body_fields (zlen l) b5 (Z.land mant 0xFFFF) l Hl) as (F1 & F2 & F3 & F4 & F5).
  pose proof (zlen_nonneg l).
  assert (Hlen : Packet.hdr_length d = Ok (size / 4 - 1)).
  { unfold d, FeedbackPacket.serialize_header. rewrite <- app_assoc, hdr_length_Serialize.
    rewrite uwrap_id; [done|]. unfold fits. pow2_consts. Z.div_mod_to_equations. lia. }
  rewrite Hlen. cbn [mbind res_bind].
  replace ((size / 4 - 1 + 1) * 4) with size by (Z.div_mod_to_equations; lia).
  assert (Hrh : FeedbackPacket.read_header d = Ok (15, s, m))
    by (apply read_header_serialized; done || lia).
  rewrite Z.ltb_irrefl, Hrh. cbn [mbind res_bind]. unfold d. rewrite sub_app by done. cbn [mbind res_bind].
  rewrite F2. cbn [mbind res_bind].
  change (Packet.CommonHeaderSize + FeedbackPacket.HeaderSize) with 12.
  rewrite (proj2 (Z.eqb_eq size _)) by lia. cbn [negb]. rewrite F1. cbn [mbind res_bind].
  rewrite Z.eqb_refl. cbn [negb]. rewrite F3. cbn [mbind res_bind]. rewrite F4.
  cbn [mbind res_bind]. rewrite Hexp, Hmant. destruct (denormalize mant k) as [b ok].
  destruct ok; cbn [negb]; [|done].
  replace (Z.to_nat (zlen l)) with (length l) by (unfold zlen; lia). by rewrite F5.
Qed.

(** A REMB packet of up to 255 SSRCs is written in [GetSize] bytes, and parsed
    back to the same SSRCs and the bitrate rounded down to 18 significant bits: not
    above it, and within 1 part in 2^17 of it. *)
Theorem remb_roundtrip p :
  fits 32 (senderSsrc p) -> fits 32 (mediaSsrc p) -> fits 64 (bitrate p) ->
  Forall (fits 32) (ssrcs p) -> zlen (ssrcs p) <= 255 ->
  exists out b', Serialize p = Ok out /\ zlen out = GetSize p /\
    Parse out = Ok (Some {| senderSsrc := senderSsrc p; mediaSsrc := mediaSsrc p;
                            bitrate := b'; ssrcs := ssrcs p |}) /\
    b' <= bitrate p /\ (bitrate p - b') * 2 ^ 17 <= bitrate p.
Proof.
  intros Hs Hm Hb Hss Hlen. pose proof (zlen_nonneg (ssrcs p)).
  destruct (normalize_64 18 (bitrate p) ltac:(lia) Hb) as (k & Hn & Hk & Hr & Hle & Herr).
  unfold Serialize. change 0x3FFFF with (2 ^ 18 - 1). rewrite Hn. cbn [mbind res_bind].
  rewrite (uwrap_id 8 (zlen (ssrcs p))) by (unfold fits; pow2_consts; lia).
  fold (body (zlen (ssrcs p)) (u8 (Z.lor (Z.shiftl k 2) (Z.shiftr (Z.shiftr (bitrate p) k) 16)))
          (Z.land (Z.shiftr (bitrate p) k) 0xFFFF) (ssrcs p)).
  eexists _, (bitrate p / 2 ^ k * 2 ^ k). split; [done|].
  assert (Hsz : GetSize p = 20 + 4 * zlen (ssrcs p)) by done.
  match goal with |- zlen ?o = _ /\ _ => assert (Hol : zlen o = GetSize p) end.
  { rewrite zlen_app, zlen_body, zlen_serialize_header. lia. }
  split_and!; [done| |done|done]. unfold Parse. rewrite Hol.
  rewrite (proj2 (Z.ltb_ge _ _)).
  2:{ change (Packet.CommonHeaderSize + FeedbackPacket.HeaderSize + 8) with 20. lia. }
  rewrite remb_make_ok by (done || lia). by rewrite denormalize_shiftr by (done || lia).
Qed.

Lemma remb_roundtrip_witness :
  exists out b', Serialize {| senderSsrc := 0; mediaSsrc := 0; bitrate := 1000001; ssrcs := [2; 3] |}
      = Ok out /\ zlen out = 28 /\
    Parse out = Ok (Some {| senderSsrc := 0; mediaSsrc := 0; bitrate := b'; ssrcs := [2; 3] |}) /\
    b' <= 1000001 /\ (1000001 - b') * 2 ^ 17 <= 1000001.
Proof.
  apply (remb_roundtrip {| senderSsrc := 0; mediaSsrc := 0; bitrate := 1000001; ssrcs := [2; 3] |});
    [by vm_compute|by vm_compute|by vm_compute|repeat constructor; by vm_compute|by vm_compute].
Defined.

End FeedbackPsRemb.
