(* ===== verification/RtcpTransport.v ===== *)
(** * Transport-wide congestion control feedback

    Models [worker/src/RTC/RTCP/FeedbackRtpTransport.cpp] and its header: the packet
    that tells a sender which of its packets arrived and when.  It is built packet by
    packet ([AddPacket]), which compresses the statuses into chunks; a received one
    is parsed ([Parse]) and read as a list of results ([GetPacketResults]). *)

From S2P Require Import Prelude Utils SeqManager RtcpPacket RtcpSdes RtcpFeedback.

Module FeedbackRtpTransport.

Definition fixedHeaderSize : Z := 8.
Definition maxMissingPackets : Z := 8191.
Definition maxPacketStatusCount : Z := 65535.
Definition maxPacketDelta : Z := 0x7FFF.

Inductive Status := NotReceived | SmallDelta | LargeDelta | Reserved | None_.

#[global] Instance Status_eq_dec : EqDecision Status.
Proof. solve_decision. Defined.

Definition status_code (s : Status) : Z :=
  match s with NotReceived => 0 | SmallDelta => 1 | LargeDelta => 2 | Reserved => 3 | None_ => 4 end.

Definition status_of_code (c : Z) : Status :=
  if c =? 0 then NotReceived else if c =? 1 then SmallDelta
  else if c =? 2 then LargeDelta else if c =? 3 then Reserved else None_.

Definition received (s : Status) : bool :=
  match s with SmallDelta | LargeDelta => true | _ => false end.

(** ** Chunks *)

Inductive Chunk :=
| RunLengthChunk (status : Status) (count : Z)
| OneBitVectorChunk (statuses : list Status)
| TwoBitVectorChunk (statuses : list Status).

(** The vector constructors from two bytes: [n] symbols of [w] bits, as many as
    [count]. *)
Fixpoint vector_statuses (w : Z) (n : nat) (buffer count : Z) : list Status :=
  match n with
  | O => []
  | S n' =>
      if 0 <? count then
        status_of_code (Z.land (Z.shiftr buffer (w * Z.of_nat n')) (2 ^ w - 1))
          :: vector_statuses w n' buffer (count - 1)
      else []
  end.

Definition Chunk_Parse (data : list Z) (count : Z) : res (option Chunk) :=
  if zlen data <? 2 then mret None
  else
    bytes ← Byte.Get2Bytes data 0;
    if Z.land (Z.shiftr bytes 15) 1 =? 0 then
      let status := status_of_code (Z.land (Z.shiftr bytes 13) 3) in
      let chunk := RunLengthChunk status (Z.land bytes 0x1FFF) in
      match status with
      | NotReceived | SmallDelta | LargeDelta => mret (Some chunk)
      | _ => mret None
      end
    else
      b0 ← read data 0;
      if Z.land b0 0x40 =? 0 then
        _ ← ms_assert (negb (Z.land bytes 0x8000 =? 0));
        mret (Some (OneBitVectorChunk (vector_statuses 1 14 bytes count)))
      else
        _ ← ms_assert (negb (Z.land bytes 0xC000 =? 0));
        mret (Some (TwoBitVectorChunk (vector_statuses 2 7 bytes count))).

(** [AddDeltas]: the deltas read and the bytes they take, [None] when they do not fit. *)
Fixpoint read_small (n : nat) (data : list Z) (offset : Z) : res (list Z * Z) :=
  match n with
  | O => mret ([], offset)
  | S n' =>
      d ← Byte.Get1Byte data offset;
      '(ds, o) ← read_small n' data (offset + 1);
      mret (i16 d :: ds, o)
  end.

Fixpoint read_large (n : nat) (data : list Z) (offset : Z) : res (list Z * Z) :=
  match n with
  | O => mret ([], offset)
  | S n' =>
      d ← Byte.Get2Bytes data offset;
      '(ds, o) ← read_large n' data (offset + 2);
      mret (i16 d :: ds, o)
  end.

Fixpoint read_vector (one_bit : bool) (l : list Status) (data : list Z) (len offset : Z)
    : res (option (list Z * Z)) :=
  match l with
  | [] => mret (Some ([], offset))
  | NotReceived :: l' => read_vector one_bit l' data len offset
  | SmallDelta :: l' =>
      if len <? 1 then mret None
      else
        d ← Byte.Get1Byte data offset;
        r ← read_vector one_bit l' data (len - 1) (offset + 1);
        mret (match r with Some (ds, o) => Some (i16 d :: ds, o) | None => None end)
  | LargeDelta :: l' =>
      if one_bit then mret None
      else if len <? 2 then mret None
      else
        d ← Byte.Get2Bytes data offset;
        r ← read_vector one_bit l' data (len - 2) (offset + 2);
        mret (match r with Some (ds, o) => Some (i16 d :: ds, o) | None => None end)
  | _ :: l' => if one_bit then mret None else read_vector one_bit l' data len offset
  end.

Definition AddDeltas (c : Chunk) (data : list Z) : res (option (list Z * Z)) :=
  match c with
  | RunLengthChunk NotReceived _ => mret (Some ([], 0))
  | RunLengthChunk SmallDelta count =>
      if zlen data <? count * 1 then mret None
      else r ← read_small (Z.to_nat count) data 0; mret (Some r)
  | RunLengthChunk LargeDelta count =>
      if zlen data <? count * 2 then mret None
      else r ← read_large (Z.to_nat count) data 0; mret (Some r)
  | RunLengthChunk _ _ => mret (Some ([], 0))
  | OneBitVectorChunk l => read_vector true l data (zlen data) 0
  | TwoBitVectorChunk l => read_vector false l data (zlen data) 0
  end.

(** The statuses a chunk stands for. *)
Definition chunk_statuses (c : Chunk) : list Status :=
  match c with
  | RunLengthChunk s n => replicate (Z.to_nat n) s
  | OneBitVectorChunk l | TwoBitVectorChunk l => l
  end.

Definition GetCount (c : Chunk) : Z :=
  match c with
  | RunLengthChunk _ n => n
  | OneBitVectorChunk l | TwoBitVectorChunk l => u16 (zlen l)
  end.

Definition count_received (l : list Status) : Z := zlen (filter (fun s => received s = true) l).

Definition GetReceivedStatusCount (c : Chunk) : Z :=
  match c with
  | RunLengthChunk s n => if received s then n else 0
  | OneBitVectorChunk l | TwoBitVectorChunk l => u16 (count_received l)
  end.

(** [bytes |= status << i] for each status, with [i] going down by [w]. *)
Fixpoint vector_bits (w i : Z) (bytes : Z) (l : list Status) : Z :=
  match l with
  | [] => bytes
  | s :: l' => vector_bits w (u8 (i - w)) (u16 (Z.lor bytes (Z.shiftl (status_code s) i))) l'
  end.

Definition Chunk_Serialize (c : Chunk) : res (list Z) :=
  match c with
  | RunLengthChunk s n =>
      mret (Byte.be2 (u16 (Z.lor (Z.shiftl (status_code s) 13) (Z.land n 0x1FFF))))
  | OneBitVectorChunk l =>
      _ ← ms_assert (zlen l <=? 14);
      mret (Byte.be2 (vector_bits 1 13 0x8000 l))
  | TwoBitVectorChunk l =>
      _ ← ms_assert (zlen l <=? 7);
      mret (Byte.be2 (vector_bits 2 12 (Z.lor 0x8000 (Z.shiftl 1 14)) l))
  end.

(** ** The packet *)

Record Context_ := {
  allSameStatus : bool;
  currentStatus : Status;
  statuses : list Status;
}.

Record t := {
  senderSsrc : Z;
  mediaSsrc : Z;
  baseSequenceNumber : Z;
  referenceTime : Z;
  latestSequenceNumber : Z;
  latestTimestamp : Z;
  packetStatusCount : Z;
  feedbackPacketCount : Z;
  chunks : list Chunk;
  deltas : list Z;
  context : Context_;
  deltasAndChunksSize : Z;
  size : Z;
}.

Definition create (sender media : Z) : t :=
  {| senderSsrc := sender; mediaSsrc := media; baseSequenceNumber := 0; referenceTime := 0;
     latestSequenceNumber := 0; latestTimestamp := 0; packetStatusCount := 0;
     feedbackPacketCount := 0; chunks := []; deltas := [];
     context := {| allSameStatus := true; currentStatus := None_; statuses := [] |};
     deltasAndChunksSize := 0; size := 0 |}.

Definition set_context (p : t) (c : Context_) : t :=
  {| senderSsrc := senderSsrc p; mediaSsrc := mediaSsrc p;
     baseSequenceNumber := baseSequenceNumber p; referenceTime := referenceTime p;
     latestSequenceNumber := latestSequenceNumber p; latestTimestamp := latestTimestamp p;
     packetStatusCount := packetStatusCount p; feedbackPacketCount := feedbackPacketCount p;
     chunks := chunks p; deltas := deltas p; context := c;
     deltasAndChunksSize := deltasAndChunksSize p; size := size p |}.

(** [CreateRunLengthChunk], [CreateOneBitVectorChunk], [CreateTwoBitVectorChunk]:
    [n] is the number of statuses as a [uint16_t]. *)
Definition create_chunk (p : t) (c : Chunk) (n : Z) : t :=
  {| senderSsrc := senderSsrc p; mediaSsrc := mediaSsrc p;
     baseSequenceNumber := baseSequenceNumber p; referenceTime := referenceTime p;
     latestSequenceNumber := latestSequenceNumber p; latestTimestamp := latestTimestamp p;
     packetStatusCount := u16 (packetStatusCount p + n);
     feedbackPacketCount := feedbackPacketCount p;
     chunks := chunks p ++ [c]; deltas := deltas p; context := context p;
     deltasAndChunksSize := deltasAndChunksSize p + 2; size := size p |}.

Definition CreateRunLengthChunk (p : t) (s : Status) (count : Z) : t :=
  create_chunk p (RunLengthChunk s (u16 count)) (u16 count).
Definition CreateOneBitVectorChunk (p : t) (l : list Status) : t :=
  create_chunk p (OneBitVectorChunk l) (u16 (zlen l)).
Definition CreateTwoBitVectorChunk (p : t) (l : list Status) : t :=
  create_chunk p (TwoBitVectorChunk l) (u16 (zlen l)).

(** [AddPendingChunks], which is also [Finish]. *)
Definition AddPendingChunks (p : t) : res t :=
  let c := context p in
  match statuses c with
  | [] => mret p
  | _ =>
      p ← (if allSameStatus c
           then mret (CreateRunLengthChunk p (currentStatus c) (zlen (statuses c)))
           else
             _ ← ms_assert (zlen (statuses c) <? 7);
             mret (CreateTwoBitVectorChunk p (statuses c)));
      mret (set_context p {| allSameStatus := allSameStatus c;
                             currentStatus := currentStatus c; statuses := [] |})
  end.

(** The first half of [FillChunk]: the packets that are missing before this one. *)
Definition fill_missing (p : t) (missingPackets : Z) : t :=
  let c := context p in
  let '(p, c) :=
    if (7 <=? zlen (statuses c)) && allSameStatus c
    then (CreateRunLengthChunk p (currentStatus c) (zlen (statuses c)),
          {| allSameStatus := allSameStatus c; currentStatus := None_; statuses := [] |})
    else (p, c) in
  let representedPackets := Z.min missingPackets (Z.max 0 (7 - zlen (statuses c))) in
  let c := {| allSameStatus := allSameStatus c; currentStatus := NotReceived;
              statuses := statuses c ++ replicate (Z.to_nat representedPackets) NotReceived |} in
  let '(p, c) :=
    if zlen (statuses c) =? 7
    then (CreateTwoBitVectorChunk p (statuses c),
          {| allSameStatus := allSameStatus c; currentStatus := None_; statuses := [] |})
    else (p, c) in
  let missingPackets := missingPackets - representedPackets in
  let '(p, c) :=
    if negb (missingPackets =? 0)
    then (CreateRunLengthChunk p NotReceived missingPackets,
          {| allSameStatus := allSameStatus c; currentStatus := None_; statuses := [] |})
    else (p, c) in
  set_context p c.

Definition delta_status (delta : Z) : Status :=
  if (0 <=? delta) && (delta <=? 255) then SmallDelta else LargeDelta.

Definition add_delta (p : t) (delta : Z) : t :=
  {| senderSsrc := senderSsrc p; mediaSsrc := mediaSsrc p;
     baseSequenceNumber := baseSequenceNumber p; referenceTime := referenceTime p;
     latestSequenceNumber := latestSequenceNumber p; latestTimestamp := latestTimestamp p;
     packetStatusCount := packetStatusCount p; feedbackPacketCount := feedbackPacketCount p;
     chunks := chunks p; deltas := deltas p ++ [delta]; context := context p;
     deltasAndChunksSize := deltasAndChunksSize p +
       (if decide (delta_status delta = SmallDelta) then 1 else 2);
     size := size p |}.

(** The second half of [FillChunk]: the packet that was received. *)
Definition fill_received (p : t) (delta : Z) : t :=
  let status := delta_status delta in
  let c := context p in
  let '(p, l) :=
    if (7 <=? zlen (statuses c)) && allSameStatus c &&
       negb (bool_decide (status = currentStatus c))
    then (CreateRunLengthChunk p (currentStatus c) (zlen (statuses c)), [])
    else (p, statuses c) in
  let l := l ++ [status] in
  let p := add_delta p delta in
  let allSame := bool_decide (currentStatus c = None_) ||
                 (allSameStatus c && bool_decide (currentStatus c = status)) in
  if (zlen l =? 7) && negb allSame
  then set_context (CreateTwoBitVectorChunk p l)
         {| allSameStatus := allSame; currentStatus := None_; statuses := [] |}
  else set_context p {| allSameStatus := allSame; currentStatus := status; statuses := l |}.

Definition FillChunk (p : t) (previousSequenceNumber sequenceNumber delta : Z) : t :=
  let missingPackets := u16 (sequenceNumber - (previousSequenceNumber + 1)) in
  let p := if 0 <? missingPackets then fill_missing p missingPackets else p in
  fill_received p delta.

Definition IsFull (p : t) : bool := maxPacketStatusCount - 7 <=? packetStatusCount p.
Definition IsSerializable (p : t) : bool := 0 <? zlen (deltas p).

Inductive AddPacketResult := SUCCESS | MAX_SIZE_EXCEEDED | FATAL.

Definition set_base (p : t) (sequenceNumber timestamp : Z) : t :=
  {| senderSsrc := senderSsrc p; mediaSsrc := mediaSsrc p;
     baseSequenceNumber := u16 (sequenceNumber + 1);
     referenceTime := Z.land timestamp 0x1FFFFFC0 / 64;
     latestSequenceNumber := sequenceNumber; latestTimestamp := u64 (Z.shiftr timestamp 6 * 64);
     packetStatusCount := packetStatusCount p; feedbackPacketCount := feedbackPacketCount p;
     chunks := chunks p; deltas := deltas p; context := context p;
     deltasAndChunksSize := deltasAndChunksSize p; size := size p |}.

Definition set_latest (p : t) (sequenceNumber timestamp : Z) : t :=
  {| senderSsrc := senderSsrc p; mediaSsrc := mediaSsrc p;
     baseSequenceNumber := baseSequenceNumber p; referenceTime := referenceTime p;
     latestSequenceNumber := sequenceNumber; latestTimestamp := timestamp;
     packetStatusCount := packetStatusCount p; feedbackPacketCount := feedbackPacketCount p;
     chunks := chunks p; deltas := deltas p; context := context p;
     deltasAndChunksSize := deltasAndChunksSize p; size := size p |}.

(** [size + ((-size) & 3)] for a fixed header, the chunks and deltas, and [extra]. *)
Definition padded_size (p : t) (extra : Z) : Z :=
  let n := Packet.CommonHeaderSize + FeedbackPacket.HeaderSize + fixedHeaderSize +
           deltasAndChunksSize p + extra in
  n + padding4 n.

Definition AddPacket (p : t) (sequenceNumber timestamp maxRtcpPacketLen : Z)
    : res (AddPacketResult * t) :=
  _ ← ms_assert (negb (IsFull p));
  if latestTimestamp p =? 0 then mret (SUCCESS, set_base p sequenceNumber timestamp)
  else if negb (IsSeqHigherThan 16 sequenceNumber (latestSequenceNumber p)) then mret (SUCCESS, p)
  else if maxMissingPackets <? sequenceNumber - (latestSequenceNumber p + 1) then mret (FATAL, p)
  else
    let delta64 := i64 (u64 ((timestamp - latestTimestamp p) * 4)) in
    if (maxPacketDelta <? delta64) || (delta64 <? -1 * maxPacketDelta) then mret (FATAL, p)
    else if maxRtcpPacketLen <? padded_size p (2 + 2) then mret (MAX_SIZE_EXCEEDED, p)
    else
      mret (SUCCESS,
        set_latest (FillChunk p (latestSequenceNumber p) sequenceNumber (i16 delta64))
          sequenceNumber timestamp).

Definition Finish (p : t) : res t := AddPendingChunks p.

Definition GetSize (p : t) : Z := if negb (size p =? 0) then size p else padded_size p 0.

(** ** Results *)

Record PacketResult := {
  sequenceNumber : Z;
  delta : Z;
  is_received : bool;
  receivedAtMs : Z;
}.

(** [FillResults] of a chunk: one result for each status, numbered on from
    [currentSequenceNumber]. *)
Fixpoint fill_results (l : list Status) (currentSequenceNumber : Z)
    : list PacketResult * Z :=
  match l with
  | [] => ([], currentSequenceNumber)
  | s :: l' =>
      let n := u16 (currentSequenceNumber + 1) in
      let '(rs, n') := fill_results l' n in
      ({| sequenceNumber := n; delta := 0; is_received := received s; receivedAtMs := 0 |} :: rs, n')
  end.

Fixpoint fill_chunks (cs : list Chunk) (currentSequenceNumber : Z) : list PacketResult :=
  match cs with
  | [] => []
  | c :: cs' =>
      let '(rs, n) := fill_results (chunk_statuses c) currentSequenceNumber in
      rs ++ fill_chunks cs' n
  end.

(** The loop that gives each received result its delta ([deltas.at(deltaIdx)]) and
    its time. *)
Fixpoint fill_times (rs : list PacketResult) (ds : list Z) (currentReceivedAtMs : Z)
    : res (list PacketResult) :=
  match rs with
  | [] => mret []
  | r :: rs' =>
      if is_received r then
        match ds with
        | [] => Fault OutOfBounds
        | d :: ds' =>
            let now := currentReceivedAtMs + Z.quot d 4 in
            rest ← fill_times rs' ds' now;
            mret ({| sequenceNumber := sequenceNumber r; delta := d;
                     is_received := true; receivedAtMs := now |} :: rest)
        end
      else
        rest ← fill_times rs' ds currentReceivedAtMs;
        mret (r :: rest)
  end.

Definition GetPacketResults (p : t) : res (list PacketResult) :=
  fill_times (fill_chunks (chunks p) (u16 (baseSequenceNumber p - 1))) (deltas p)
             (u32 (referenceTime p * 64)).

Fixpoint lost_packets (cs : list Chunk) (lost : Z) : Z :=
  match cs with
  | [] => lost
  | c :: cs' => lost_packets cs' (u16 (lost + (GetCount c - GetReceivedStatusCount c)))
  end.

Definition GetPacketFractionLost (p : t) : Z :=
  let expected := packetStatusCount p in
  if expected =? 0 then 0
  else
    let lost := lost_packets (chunks p) 0 in
    if lost =? expected then 255 else u8 (Z.shiftl lost 8 / expected).

(** ** Serialization and parsing *)

Fixpoint serialize_chunks (cs : list Chunk) : res (list Z) :=
  match cs with
  | [] => mret []
  | c :: cs' => b ← Chunk_Serialize c; rest ← serialize_chunks cs'; mret (b ++ rest)
  end.

Definition delta_bytes (d : Z) : list Z :=
  if (0 <=? d) && (d <=? 255) then [u8 d] else Byte.be2 (u16 d).

Definition Serialize (p : t) : res (t * list Z) :=
  p ← AddPendingChunks p;
  cs ← serialize_chunks (chunks p);
  let out :=
    FeedbackPacket.serialize_header Packet.RTPFB 15 (senderSsrc p) (mediaSsrc p) (GetSize p) ++
    Byte.be2 (baseSequenceNumber p) ++ Byte.be2 (packetStatusCount p) ++
    Byte.be3 (referenceTime p) ++ [u8 (feedbackPacketCount p)] ++ cs ++
    concat (delta_bytes <$> deltas p) in
  mret (p, out ++ zeros (padding4 (zlen out))).

(** The loop over the chunks: the chunks, the offset after them, the statuses and
    the received statuses they count, [None] when a chunk is invalid. *)
Fixpoint parse_chunks (fuel : nat) (content : list Z) (statusCount offset count rcount : Z)
    : res (option (list Chunk * Z * Z * Z)) :=
  if (count <? statusCount) && (offset <? zlen content) then
    match fuel with
    | O => Fault OutOfFuel
    | S fuel' =>
        if zlen content - offset <? 2 then mret None
        else
          d ← sub content offset;
          r ← Chunk_Parse d (u16 (statusCount - count));
          match r with
          | None => mret None
          | Some c =>
              r ← parse_chunks fuel' content statusCount (offset + 2) (u16 (count + GetCount c))
                    (u16 (rcount + GetReceivedStatusCount c));
              mret (match r with
                    | Some (cs, o, n, m) => Some (c :: cs, o, n, m)
                    | None => None
                    end)
          end
    end
  else mret (Some ([], offset, count, rcount)).

(** The loop over the chunks that reads the deltas. *)
Fixpoint parse_deltas (cs : list Chunk) (content : list Z) (offset : Z) : res (option (list Z * Z)) :=
  match cs with
  | [] => mret (Some ([], offset))
  | c :: cs' =>
      if zlen content <=? offset then mret (Some ([], offset))
      else
        d ← sub content offset;
        r ← AddDeltas c d;
        match r with
        | None => mret None
        | Some (ds, o) =>
            r ← parse_deltas cs' content (offset + o);
            mret (match r with Some (ds', o') => Some (ds ++ ds', o') | None => None end)
        end
  end.

(** [FeedbackRtpTransportPacket(commonHeader, availableLen)]: [None] when the packet
    is not correct. *)
Definition make (packet : list Z) (availableLen : Z) : res (option t) :=
  length ← Packet.hdr_length packet;
  let len := (length + 1) * 4 in
  if availableLen <? len then mret None
  else
    '(_, s, m) ← FeedbackPacket.read_header packet;
    data ← sub packet (Packet.CommonHeaderSize + FeedbackPacket.HeaderSize);
    base ← Byte.Get2Bytes data 0;
    statusCount ← Byte.Get2Bytes data 2;
    reftime ← Byte.Get3Bytes data 4;
    fbcount ← Byte.Get1Byte data 7;
    let contentLen := u64 (len - Packet.CommonHeaderSize - FeedbackPacket.HeaderSize -
                           fixedHeaderSize) in
    content ← bytes_at data fixedHeaderSize contentLen;
    r ← parse_chunks (List.length content) content statusCount 0 0 0;
    match r with
    | None => mret None
    | Some (cs, offset, count, rcount) =>
        if negb (count =? statusCount) then mret None
        else
          r ← parse_deltas cs content offset;
          match r with
          | None => mret None
          | Some (ds, o) =>
              if negb (zlen ds =? rcount) then mret None
              else
                mret (Some
                  {| senderSsrc := s; mediaSsrc := m; baseSequenceNumber := base;
                     referenceTime := reftime; latestSequenceNumber := 0; latestTimestamp := 0;
                     packetStatusCount := statusCount; feedbackPacketCount := fbcount;
                     chunks := cs; deltas := ds;
                     context := {| allSameStatus := true; currentStatus := None_; statuses := [] |};
                     deltasAndChunksSize := o; size := len |})
          end
    end.

Definition Parse (data : list Z) : res (option t) :=
  if zlen data <? Packet.CommonHeaderSize + FeedbackPacket.HeaderSize + fixedHeaderSize
  then mret None
  else make data (zlen data).

(** Time of the reference in ms, and the difference to an earlier one. *)
Definition TimeWrapPeriod : Z := 64 * 2 ^ 24.
Definition GetReferenceTimestamp (p : t) : Z := TimeWrapPeriod + referenceTime p * 64.
Definition GetBaseDelta (p : t) (previousTimestampMs : Z) : Z :=
  let delta := GetReferenceTimestamp p - previousTimestampMs in
  if Z.abs (delta - TimeWrapPeriod) <? Z.abs delta then delta - TimeWrapPeriod
  else if Z.abs (delta + TimeWrapPeriod) <? Z.abs delta then delta + TimeWrapPeriod
  else delta.

(** ** What building a packet keeps *)

(** The statuses represented so far: in the chunks, then in the context. *)
Definition chunked (p : t) : list Status := chunks p ≫= chunk_statuses.
Definition all_statuses (p : t) : list Status := chunked p ++ statuses (context p).

(** A context whose statuses can be turned into chunks. *)
Record context_ok (c : Context_) : Prop := {
  ctx_same : allSameStatus c = true -> Forall (fun s => s = currentStatus c) (statuses c);
  ctx_mixed : allSameStatus c = false -> zlen (statuses c) < 7;
  ctx_none : currentStatus c = None_ -> statuses c = [];
}.

Lemma zlen_0_nil_le {A} (l : list A) : zlen l <= 0 -> l = [].
Proof. intros. apply zlen_0_nil. pose proof (zlen_nonneg l). lia. Qed.

(** Statuses that stand for a packet. *)
Definition status_ok (s : Status) : Prop := s <> Reserved /\ s <> None_.

Section Building.

(** A bound on the length of a run. *)
Context (B : Z) (HB : B < 2 ^ 16).

(** Chunks of a packet under construction: runs, and vectors of 7 statuses. *)
Definition chunk_full (c : Chunk) : Prop :=
  match c with
  | RunLengthChunk s n => status_ok s /\ 1 <= n <= B
  | OneBitVectorChunk _ => False
  | TwoBitVectorChunk l => zlen l = 7 /\ Forall status_ok l
  end.

Record building (p : t) (sts : list Status) (ds : list Z) : Prop := {
  b_statuses : all_statuses p = sts;
  b_deltas : deltas p = ds;
  b_context : context_ok (context p);
  b_chunks : Forall chunk_full (chunks p);
  b_ok : Forall status_ok (statuses (context p));
  b_count : packetStatusCount p = u16 (zlen (chunked p));
  b_size : deltasAndChunksSize p = 2 * zlen (chunks p) + zlen (concat (delta_bytes <$> ds));
  b_unsized : size p = 0;
  b_bound : zlen (statuses (context p)) <= 6 + zlen ds;
  b_many : 6 + zlen ds <= B;
}.

(** What building leaves alone. *)
Record same_head (p p' : t) : Prop := {
  head_base : baseSequenceNumber p' = baseSequenceNumber p;
  head_reftime : referenceTime p' = referenceTime p;
  head_seq : latestSequenceNumber p' = latestSequenceNumber p;
  head_time : latestTimestamp p' = latestTimestamp p;
  head_ssrcs : senderSsrc p' = senderSsrc p /\ mediaSsrc p' = mediaSsrc p;
  head_fb : feedbackPacketCount p' = feedbackPacketCount p;
}.

#[local] Instance same_head_preorder : PreOrder same_head.
Proof. split; [by split|]. intros x y z [] []. split; try congruence. intuition congruence. Qed.

(** Chunks made out of the statuses of the context. *)
Record flushed (p p' : t) (l : list Status) : Prop := {
  fl_chunked : chunked p' = chunked p ++ l;
  fl_deltas : deltas p' = deltas p;
  fl_chunks : Forall chunk_full (chunks p) -> Forall chunk_full (chunks p');
  fl_count : packetStatusCount p = u16 (zlen (chunked p)) ->
             packetStatusCount p' = u16 (zlen (chunked p'));
  fl_size : deltasAndChunksSize p' - 2 * zlen (chunks p') =
            deltasAndChunksSize p - 2 * zlen (chunks p);
  fl_unsized : size p' = size p;
  fl_head : same_head p p';
}.

Lemma flushed_refl p : flushed p p [].
Proof. split; try done. by rewrite app_nil_r. Qed.

Lemma flushed_trans p q r l m : flushed p q l -> flushed q r m -> flushed p r (l ++ m).
Proof.
  intros [A1 A2 A3 A4 A5 A6 A7] [B1 B2 B3 B4 B5 B6 B7]. split.
  - by rewrite B1, A1, app_assoc.
  - congruence.
  - auto.
  - auto.
  - lia.
  - congruence.
  - by transitivity q.
Qed.

Lemma create_chunk_flushed p c n l :
  chunk_statuses c = l -> n = u16 (zlen l) -> (Forall chunk_full (chunks p) -> chunk_full c) ->
  flushed p (create_chunk p c n) l.
Proof.
  intros Hl Hn Hc. split; try done; cbn.
  - unfold chunked. cbn. rewrite bind_app. cbn. by rewrite app_nil_r, Hl.
  - intros H. apply Forall_app. split; [done|]. constructor; [by apply Hc|constructor].
  - intros Hp. unfold chunked in *. cbn. rewrite bind_app. cbn. rewrite app_nil_r, Hl, zlen_app.
    rewrite Hp, Hn. unfold uwrap. by rewrite <- Zplus_mod.
  - rewrite zlen_app, zlen_cons. change (zlen []) with 0. lia.
Qed.

Lemma run_flushed p s l :
  Forall (fun x => x = s) l -> status_ok s -> 1 <= zlen l <= B ->
  flushed p (CreateRunLengthChunk p s (zlen l)) l.
Proof.
  intros Hl Hs Hn. unfold CreateRunLengthChunk. rewrite (uwrap_id 16 (zlen l)) by (unfold fits; lia).
  apply create_chunk_flushed; [|by rewrite uwrap_id by (unfold fits; lia)|done].
  cbn. unfold zlen. rewrite Nat2Z.id. clear -Hl. induction Hl as [|x l -> _ IH]; [done|].
  cbn. by rewrite IH.
Qed.

Lemma vector_flushed p l :
  zlen l = 7 -> Forall status_ok l -> flushed p (CreateTwoBitVectorChunk p l) l.
Proof. intros Hl Hs. by apply create_chunk_flushed. Qed.

Lemma set_context_flushed p c l q : flushed p q l -> flushed p (set_context q c) l.
Proof. intros [? ? ? ? ? ? []]. by split. Qed.

Lemma Forall_replicate_eq {A} n (x : A) : Forall (fun y => y = x) (replicate n x).
Proof. induction n; by constructor. Qed.

(** The missing packets, once the context has room for a vector. *)
Lemma fill_vector_ok p q c l1 n :
  flushed p q l1 -> Forall status_ok (statuses c) -> zlen (statuses c) < 7 -> 1 <= n <= B ->
  let k := Z.min n (Z.max 0 (7 - zlen (statuses c))) in
  let l := statuses c ++ replicate (Z.to_nat k) NotReceived in
  exists l2 q' c',
    (let '(q, c) :=
       if zlen l =? 7
       then (CreateTwoBitVectorChunk q l,
             {| allSameStatus := allSameStatus c; currentStatus := None_; statuses := [] |})
       else (q, {| allSameStatus := allSameStatus c; currentStatus := NotReceived; statuses := l |}) in
     if negb (n - k =? 0)
     then (CreateRunLengthChunk q NotReceived (n - k),
           {| allSameStatus := allSameStatus c; currentStatus := None_; statuses := [] |})
     else (q, c)) = (q', c') /\
    flushed p q' (l1 ++ l2) /\
    l2 ++ statuses c' = statuses c ++ replicate (Z.to_nat n) NotReceived /\
    Forall status_ok (statuses c') /\ zlen (statuses c') < 7 /\
    (currentStatus c' = None_ /\ statuses c' = [] \/ currentStatus c' = NotReceived).
Proof.
  intros Hq Hok Hlen Hn k l. pose proof (zlen_nonneg (statuses c)) as H0.
  assert (Hll : zlen l = zlen (statuses c) + k)
    by (unfold l; rewrite zlen_app, zlen_replicate; lia).
  assert (Hl : Forall status_ok l).
  { apply Forall_app. split; [done|]. apply Forall_replicate. by split. }
  destruct (Z.eqb_spec (zlen l) 7) as [E7|E7].
  - pose proof (flushed_trans _ _ _ _ _ Hq (vector_flushed q l E7 Hl)) as Hf.
    destruct (Z.eqb_spec (n - k) 0) as [Er|Er]; cbn [negb].
    + exists l. do 2 eexists. split_and!; [done|done| |constructor|done|by left]. cbn.
      unfold l. rewrite app_nil_r. do 2 f_equal. lia.
    + assert (Hrep : zlen (replicate (Z.to_nat (n - k)) NotReceived) = n - k)
        by (apply zlen_replicate; lia).
      pose proof (run_flushed (CreateTwoBitVectorChunk q l) NotReceived
        (replicate (Z.to_nat (n - k)) NotReceived) (Forall_replicate_eq _ _)
        ltac:(by split) ltac:(lia)) as Hr. rewrite Hrep in Hr.
      pose proof (flushed_trans _ _ _ _ _ Hf Hr) as Hf2. rewrite <- app_assoc in Hf2.
      eexists. do 2 eexists. split_and!; [done|exact Hf2| |constructor|done|by left]. cbn.
      unfold l. rewrite app_nil_r, <- app_assoc, <- replicate_add. do 2 f_equal. lia.
  - rewrite (proj2 (Z.eqb_eq (n - k) 0)) by lia. cbn [negb].
    exists []. do 2 eexists. split_and!; [done|by rewrite app_nil_r| |done|cbn; lia|by right].
    cbn. unfold l. do 2 f_equal. lia.
Qed.

(** [fill_missing] represents all the missing packets. *)
Lemma fill_missing_ok p n :
  context_ok (context p) -> Forall status_ok (statuses (context p)) ->
  zlen (statuses (context p)) <= B -> 1 <= n <= B ->
  exists l, flushed p (fill_missing p n) l /\
    let c := context (fill_missing p n) in
    l ++ statuses c = statuses (context p) ++ replicate (Z.to_nat n) NotReceived /\
    Forall status_ok (statuses c) /\ zlen (statuses c) < 7 /\
    (currentStatus c = None_ /\ statuses c = [] \/ currentStatus c = NotReceived).
Proof.
  intros [Hsame Hmix Hnone] Hok Hbig Hn. unfold fill_missing.
  set (c := context p) in *.
  destruct ((7 <=? zlen (statuses c)) && allSameStatus c) eqn:E.
  - apply andb_true_iff in E as [E1 E2]. apply Z.leb_le in E1.
    assert (Hcur : status_ok (currentStatus c)).
    { specialize (Hsame E2). destruct (statuses c) as [|x l]; [by rewrite zlen_nil in E1|].
      apply list.Forall_cons in Hsame as [-> _]. by apply list.Forall_cons in Hok as [? _]. }
    pose proof (run_flushed p (currentStatus c) (statuses c) (Hsame E2) Hcur ltac:(lia)) as Hf.
    destruct (fill_vector_ok p _ {| allSameStatus := allSameStatus c; currentStatus := None_;
      statuses := [] |} _ n Hf) as (l2 & q' & c' & Heq & Hfl & Hl & Hok' & H7 & Hcase);
      [constructor|done|done|].
    cbn [statuses allSameStatus] in *. cbv zeta in Heq |- *.
    destruct (if zlen _ =? 7 then _ else _) as [q1 c1] eqn:Eq1.
    destruct (if negb _ then _ else _) as [q2 c2] eqn:Eq2. simplify_eq.
    exists (statuses c ++ l2). split; [by apply set_context_flushed|]. cbn [context set_context].
    split_and!; [|done|done|done]. rewrite <- app_assoc. f_equal. exact Hl.
  - assert (H7 : zlen (statuses c) < 7).
    { destruct (Z.leb_spec 7 (zlen (statuses c))); [|done].
      apply Hmix. by destruct (allSameStatus c). }
    destruct (fill_vector_ok p p c [] n (flushed_refl p)) as (l2 & q' & c' & Heq & Hfl & Hl & Hok' & Hs7 & Hcase);
      [done|done|done|].
    cbn [statuses allSameStatus] in *. cbv zeta in Heq |- *.
    destruct (if zlen _ =? 7 then _ else _) as [q1 c1] eqn:Eq1.
    destruct (if negb _ then _ else _) as [q2 c2] eqn:Eq2. simplify_eq.
    exists l2. split; [by apply set_context_flushed|]. by cbn [context set_context].
Qed.

(** A context that a received packet may be added to: a good one, or one that ends
    with missing packets. *)
Definition ready (c : Context_) : Prop :=
  context_ok c \/
  zlen (statuses c) < 7 /\
  (currentStatus c = None_ /\ statuses c = [] \/ currentStatus c = NotReceived).

Lemma delta_status_ok d : status_ok (delta_status d) /\ delta_status d <> NotReceived.
Proof. unfold delta_status, status_ok. by destruct (_ && _). Qed.

(** The context after a received packet is a good one. *)
Lemma received_context_ok c d :
  ready c ->
  let st := delta_status d in
  let flush := (7 <=? zlen (statuses c)) && allSameStatus c &&
               negb (bool_decide (st = currentStatus c)) in
  let l := (if flush then [] else statuses c) ++ [st] in
  let allSame := bool_decide (currentStatus c = None_) ||
                 (allSameStatus c && bool_decide (currentStatus c = st)) in
  (allSame = true -> Forall (fun s => s = st) l) /\ (allSame = false -> zlen l <= 7).
Proof.
  intros Hr st flush l allSame. destruct (delta_status_ok d) as [[Hst1 Hst2] Hst3].
  fold st in Hst1, Hst2, Hst3. split; intros Hsame.
  - unfold allSame in Hsame. apply orb_true_iff in Hsame. unfold l. apply Forall_app.
    split; [|by constructor]. destruct flush; [constructor|].
    destruct Hsame as [Hn|Hs].
    + apply bool_decide_eq_true in Hn. destruct Hr as [[_ _ Hnone]|[_ [[_ Hl]|Hl]]];
        [by rewrite (Hnone Hn)|by rewrite Hl|congruence].
    + apply andb_true_iff in Hs as [Ha Hs]. apply bool_decide_eq_true in Hs.
      destruct Hr as [[Hall _ _]|[_ [[Hn _]|Hn]]]; [|congruence..]. rewrite <- Hs. by apply Hall.
  - unfold l. rewrite zlen_app. change (zlen [st]) with 1. unfold flush.
    destruct (Z.leb_spec 7 (zlen (statuses c))); cbn [andb]; [|lia].
    destruct Hr as [[Hall Hmix _]|[H7 _]]; [|lia].
    destruct (allSameStatus c) eqn:Ea; [|specialize (Hmix eq_refl); lia]. cbn [andb].
    unfold allSame in Hsame. rewrite ?Ea in Hsame. apply orb_false_iff in Hsame as [_ Hs].
    cbn [andb] in Hs. apply bool_decide_eq_false in Hs.
    rewrite (bool_decide_eq_false_2 (st = currentStatus c)) by congruence. cbn [negb].
    rewrite zlen_nil. lia.
Qed.

Lemma add_delta_size d : (if decide (delta_status d = SmallDelta) then 1 else 2) = zlen (delta_bytes d).
Proof. unfold delta_status, delta_bytes. by destruct (_ && _). Qed.

(** A run that another status ends is flushed first. *)
Lemma receive_flush p st :
  let c := context p in
  let b := (7 <=? zlen (statuses c)) && allSameStatus c && negb (bool_decide (st = currentStatus c)) in
  ready c -> Forall status_ok (statuses c) -> zlen (statuses c) < B ->
  exists q l1,
    (if b then (CreateRunLengthChunk p (currentStatus c) (zlen (statuses c)), []) else (p, statuses c)) =
      (q, if b then [] else statuses c) /\
    flushed p q l1 /\ l1 ++ (if b then [] else statuses c) = statuses c.
Proof.
  intros c b Hr Hok Hn. destruct b eqn:E; [|exists p, []; by split_and!; [|apply flushed_refl|]].
  apply andb_true_iff in E as [E _]. apply andb_true_iff in E as [E1 E2]. apply Z.leb_le in E1.
  assert (Hc : context_ok c) by (destruct Hr as [?|[? _]]; [done|lia]).
  pose proof (ctx_same _ Hc E2) as Hs.
  assert (Hcur : status_ok (currentStatus c)).
  { destruct (statuses c) as [|x l]; [by rewrite zlen_nil in E1|].
    apply list.Forall_cons in Hs as [-> _]. by apply list.Forall_cons in Hok as [? _]. }
  do 2 eexists. split_and!; [done|by apply run_flushed; [|done|lia]|by rewrite app_nil_r].
Qed.

(** Seven statuses are written as a vector chunk. *)
Lemma receive_vector q d l sts ds allSame :
  zlen l = 7 -> Forall status_ok l -> Forall chunk_full (chunks q) ->
  packetStatusCount q = u16 (zlen (chunked q)) -> chunked q ++ l = sts -> deltas q ++ [d] = ds -> size q = 0 ->
  deltasAndChunksSize (add_delta q d) = 2 * zlen (chunks q) + zlen (concat (delta_bytes <$> ds)) ->
  6 + zlen ds <= B ->
  let r := set_context (CreateTwoBitVectorChunk (add_delta q d) l)
             {| allSameStatus := allSame; currentStatus := None_; statuses := [] |} in
  building r sts ds /\ same_head q r.
Proof.
  intros Hl Hok Hch Hcnt Hst Hds Hus Hsz Hmany.
  destruct (vector_flushed (add_delta q d) l Hl Hok) as [G1 G2 G3 G4 G5 G6 G7].
  split; [split|].
  - unfold all_statuses. change (chunked (set_context ?x ?y)) with (chunked x).
    cbn [context set_context statuses]. rewrite app_nil_r, G1. exact Hst.
  - change (deltas (CreateTwoBitVectorChunk (add_delta q d) l) = ds). by rewrite G2.
  - split; cbn; [constructor|done|done].
  - apply G3. cbn. auto.
  - constructor.
  - apply G4. cbn. auto.
  - change (deltasAndChunksSize (CreateTwoBitVectorChunk (add_delta q d) l) =
      2 * zlen (chunks (CreateTwoBitVectorChunk (add_delta q d) l)) + zlen (concat (delta_bytes <$> ds))).
    rewrite Hsz in G5. cbn [chunks add_delta] in G5. lia.
  - cbn. congruence.
  - cbn [context set_context statuses]. rewrite zlen_nil. pose proof (zlen_nonneg ds). lia.
  - done.
  - destruct G7. split; cbn in *; intuition congruence.
Qed.

Lemma fill_received_ok p d sts ds :
  all_statuses p = sts -> deltas p = ds -> ready (context p) ->
  Forall chunk_full (chunks p) -> Forall status_ok (statuses (context p)) ->
  packetStatusCount p = u16 (zlen (chunked p)) ->
  deltasAndChunksSize p = 2 * zlen (chunks p) + zlen (concat (delta_bytes <$> ds)) -> size p = 0 ->
  zlen (statuses (context p)) <= 6 + zlen ds -> 6 + zlen ds < B ->
  building (fill_received p d) (sts ++ [delta_status d]) (ds ++ [d]) /\
  same_head p (fill_received p d).
Proof.
  intros Hst Hds Hr Hch Hok Hcnt Hsz Hus Hbig Hmany. unfold fill_received.
  pose proof (receive_flush p (delta_status d) Hr Hok ltac:(lia)) as Hflush. cbn zeta in Hflush.
  destruct (received_context_ok (context p) d Hr) as [Hall Hmix].
  set (c := context p) in *. set (st := delta_status d) in *.
  assert (Hstok : status_ok st) by apply delta_status_ok.
  set (allSame := bool_decide (currentStatus c = None_) || _) in *.
  destruct Hflush as (q & l1 & -> & [F1 F2 F3 F4 F5 F6 F7] & Hl1).
  set (l0 := if (7 <=? zlen (statuses c)) && allSameStatus c &&
     negb (bool_decide (st = currentStatus c)) then [] else statuses c) in *.
  assert (Hl0 : Forall status_ok (l0 ++ [st])).
  { apply Forall_app. split; [|by constructor]. rewrite <- Hl1 in Hok.
    by apply Forall_app in Hok as [_ ?]. }
  assert (Hq : chunked (add_delta q d) = chunked q) by done.
  assert (Hmany' : 6 + zlen (ds ++ [d]) <= B)
    by (rewrite zlen_app; change (zlen [d]) with 1; lia).
  assert (Hl0n : zlen (l0 ++ [st]) <= 6 + zlen (ds ++ [d])).
  { pose proof (f_equal zlen Hl1) as Hz. rewrite zlen_app in Hz.
    rewrite !zlen_app. change (zlen [st]) with 1. change (zlen [d]) with 1.
    pose proof (zlen_nonneg l1). lia. }
  assert (Hall_st : chunked q ++ (l0 ++ [st]) = sts ++ [st]).
  { rewrite F1, <- Hst. unfold all_statuses. fold c. rewrite <- Hl1 at 1.
    by rewrite !app_assoc. }
  assert (Hsz' : deltasAndChunksSize (add_delta q d) =
    2 * zlen (chunks q) + zlen (concat (delta_bytes <$> ds ++ [d]))).
  { cbn. rewrite add_delta_size. fold st. rewrite fmap_app, concat_app, zlen_app. cbn.
    rewrite app_nil_r. lia. }
  destruct ((zlen (l0 ++ [st]) =? 7) && negb allSame) eqn:E.
  - apply andb_true_iff in E as [E _]. apply Z.eqb_eq in E.
    destruct (receive_vector q d (l0 ++ [st]) (sts ++ [st]) (ds ++ [d]) allSame) as [Hb Hh];
      auto; [by rewrite F2, Hds|by rewrite F6|]. split; [exact Hb|]. by etransitivity.
  - split.
    + split; cbn [context set_context statuses]; auto.
      * cbn. by rewrite F2, Hds.
      * split; cbn; [done| |].
        -- intros Hs. rewrite Hs in E. cbn in E. rewrite andb_true_r in E. apply Z.eqb_neq in E.
           specialize (Hmix Hs). lia.
        -- intros Hn. by destruct Hstok.
      * cbn. cbn in F6. congruence.
    + destruct F7. by split.
Qed.

Lemma FillChunk_ok p prev seq d sts ds :
  building p sts ds -> 6 + zlen ds < B -> u16 (seq - (prev + 1)) <= B ->
  building (FillChunk p prev seq d)
    (sts ++ replicate (Z.to_nat (u16 (seq - (prev + 1)))) NotReceived ++ [delta_status d])
    (ds ++ [d]) /\
  same_head p (FillChunk p prev seq d).
Proof.
  intros [Hst Hds Hctx Hch Hok Hcnt Hsz Hus Hb _] Hmany Hgap. unfold FillChunk.
  set (n := u16 (seq - (prev + 1))).
  assert (Hn : 0 <= n < 2 ^ 16) by apply (uwrap_fits 16 _ ltac:(lia)).
  destruct (Z.ltb_spec 0 n) as [Hpos|Hpos].
  - destruct (fill_missing_ok p n Hctx Hok ltac:(lia) ltac:(lia))
      as (l & [F1 F2 F3 F4 F5 F6 F7] & Hl & Hok' & H7 & Hc).
    destruct (fill_received_ok (fill_missing p n) d
      (sts ++ replicate (Z.to_nat n) NotReceived) ds) as [Hb' Hh]; try done.
    + unfold all_statuses. rewrite F1, <- app_assoc, Hl, <- Hst. unfold all_statuses.
      by rewrite <- app_assoc.
    + congruence.
    + by right.
    + auto.
    + auto.
    + lia.
    + congruence.
    + pose proof (zlen_nonneg ds). lia.
    + rewrite <- app_assoc in Hb'. split; [done|]. by etransitivity.
  - replace n with 0 by lia. apply fill_received_ok; try done. by left.
Qed.

Lemma zlen_delta_bytes ds : zlen ds <= zlen (concat (delta_bytes <$> ds)).
Proof.
  induction ds as [|d ds IH]; [done|]. cbn [fmap list_fmap concat]. rewrite zlen_cons, zlen_app.
  assert (1 <= zlen (delta_bytes d)) by (unfold delta_bytes; by destruct (_ && _)). lia.
Qed.

Lemma padding4_nonneg n : 0 <= padding4 n.
Proof. rewrite padding4_mod. apply Z.mod_pos_bound. lia. Qed.

(** Times for which the differences in units of 250 us do not overflow. *)
Definition time_ok (ts : Z) : Prop := 0 <= ts < 2 ^ 61.

Lemma i64_small z : - 2 ^ 63 <= z < 2 ^ 63 -> i64 (u64 z) = z.
Proof.
  intros. unfold i64, uwrap. change (2 ^ 63) with 9223372036854775808 in *.
  change (2 ^ 64) with 18446744073709551616 in *. rewrite Zmod_mod.
  destruct (Z.ltb_spec (z mod 18446744073709551616) 9223372036854775808);
    Z.div_mod_to_equations; lia.
Qed.

(** What an accepted packet adds to the feedback. *)
Record accepted (p p' : t) (sts : list Status) (ds : list Z) (seq ts : Z) : Prop := {
  acc_building : building p'
    (sts ++ replicate (Z.to_nat (u16 (seq - (latestSequenceNumber p + 1)))) NotReceived ++
       [delta_status ((ts - latestTimestamp p) * 4)])
    (ds ++ [(ts - latestTimestamp p) * 4]);
  acc_delta : - maxPacketDelta <= (ts - latestTimestamp p) * 4 <= maxPacketDelta;
  acc_seq : latestSequenceNumber p' = seq;
  acc_time : latestTimestamp p' = ts;
  acc_base : baseSequenceNumber p' = baseSequenceNumber p /\ referenceTime p' = referenceTime p;
  acc_ssrcs : senderSsrc p' = senderSsrc p /\ mediaSsrc p' = mediaSsrc p /\
    feedbackPacketCount p' = feedbackPacketCount p;
}.

Lemma AddPacket_ok p seq ts maxLen p' sts ds :
  building p sts ds -> latestTimestamp p <> 0 -> time_ok (latestTimestamp p) -> time_ok ts ->
  maxLen <= B -> u16 (seq - (latestSequenceNumber p + 1)) <= B -> AddPacket p seq ts maxLen = Ok (SUCCESS, p') ->
  if IsSeqHigherThan 16 seq (latestSequenceNumber p) then accepted p p' sts ds seq ts else p' = p.
Proof.
  intros Hb Hl0 Hlt Hts Hmax Hgap. unfold AddPacket. rewrite (proj2 (Z.eqb_neq _ _) Hl0).
  destruct (IsFull p); [done|]. cbn [negb ms_assert mbind res_bind mret res_ret].
  destruct (IsSeqHigherThan 16 seq (latestSequenceNumber p)); cbn [negb]; [|by intros [= ->]].
  destruct (maxMissingPackets <? _); [done|].
  rewrite i64_small by (unfold time_ok in *; change (2 ^ 61) with 2305843009213693952 in *;
    change (2 ^ 63) with 9223372036854775808; lia).
  set (d := (ts - latestTimestamp p) * 4).
  destruct (Z.ltb_spec maxPacketDelta d) as [?|Hd1]; [done|].
  destruct (Z.ltb_spec d (-1 * maxPacketDelta)) as [?|Hd2]; cbn [orb]; [done|].
  destruct (Z.ltb_spec maxLen (padded_size p (2 + 2))) as [?|Hfit]; [done|].
  intros [= <-]. rewrite i16_small by (unfold maxPacketDelta in *; lia).
  assert (Hds : 6 + zlen ds < B).
  { unfold padded_size in Hfit. rewrite (b_size _ _ _ Hb) in Hfit.
    change Packet.CommonHeaderSize with 4 in Hfit. change FeedbackPacket.HeaderSize with 8 in Hfit.
    change fixedHeaderSize with 8 in Hfit.
    pose proof (zlen_delta_bytes ds). pose proof (zlen_nonneg (chunks p)).
    match type of Hfit with _ + padding4 ?n <= _ => pose proof (padding4_nonneg n) end. lia. }
  destruct (FillChunk_ok p (latestSequenceNumber p) seq d sts ds Hb Hds Hgap) as [[] []].
  split; [by split|unfold maxPacketDelta in *; lia|done|done|..]; cbn; intuition congruence.
Qed.

(** A finished packet: everything is in chunks, and only the last one may be a vector
    of fewer than 7 statuses. *)
Record finished (p : t) (sts : list Status) (ds : list Z) : Prop := {
  f_context : statuses (context p) = [];
  f_statuses : chunked p = sts;
  f_deltas : deltas p = ds;
  f_chunks : exists cs l, chunks p = cs ++ l /\ Forall chunk_full cs /\
    (l = [] \/ exists v, l = [TwoBitVectorChunk v] /\ 1 <= zlen v < 7 /\ Forall status_ok v);
  f_count : packetStatusCount p = u16 (zlen sts);
  f_size : deltasAndChunksSize p = 2 * zlen (chunks p) + zlen (concat (delta_bytes <$> ds));
  f_unsized : size p = 0;
  f_many : 6 + zlen ds <= B;
}.

Lemma Finish_ok p sts ds :
  building p sts ds ->
  exists p', Finish p = Ok p' /\ finished p' sts ds /\ same_head p p'.
Proof.
  intros [Hst Hds Hctx Hch Hok Hcnt Hsz Hus Hb Hn]. unfold Finish, AddPendingChunks.
  unfold all_statuses in Hst.
  destruct (statuses (context p)) as [|s0 l0] eqn:El.
  { exists p. rewrite app_nil_r in Hst. subst sts. split_and!; [done| |done]. split; try done.
    exists (chunks p), []. rewrite app_nil_r. auto. }
  rewrite <- El in *. assert (Hne : 1 <= zlen (statuses (context p)))
    by (rewrite El, zlen_cons; pose proof (zlen_nonneg l0); lia).
  destruct (allSameStatus (context p)) eqn:Ea.
  - pose proof (ctx_same _ Hctx Ea) as Hs.
    assert (Hcur : status_ok (currentStatus (context p))).
    { rewrite El in Hs, Hok. apply list.Forall_cons in Hs as [<- _].
      by apply list.Forall_cons in Hok as [? _]. }
    destruct (run_flushed p _ _ Hs Hcur ltac:(lia)) as [G1 G2 G3 G4 G5 G6 G7].
    set (q := CreateRunLengthChunk p _ _) in *. cbn [mbind res_bind mret res_ret].
    eexists. split_and!; [done| |by destruct G7; split]. split; try done.
    + by rewrite <- Hst, <- G1.
    + exists (chunks q), []. rewrite app_nil_r. split_and!; [done|by apply G3|by left].
    + change (packetStatusCount q = u16 (zlen sts)). rewrite G4 by done. by rewrite <- Hst, <- G1.
    + change (deltasAndChunksSize q = 2 * zlen (chunks q) + zlen (concat (delta_bytes <$> ds))). lia.
  - pose proof (ctx_mixed _ Hctx Ea) as H7. rewrite (proj2 (Z.ltb_lt _ _) H7).
    cbn [ms_assert mbind res_bind mret res_ret]. eexists. split_and!; [done| |by split].
    split; try done.
    + rewrite <- Hst. unfold chunked. cbn. rewrite bind_app. cbn. by rewrite app_nil_r.
    + exists (chunks p), [TwoBitVectorChunk (statuses (context p))].
      split_and!; [done|done|]. right. eexists. split_and!; [done|lia|lia|done].
    + cbn. rewrite Hcnt, <- Hst, zlen_app. unfold uwrap.
      by rewrite <- Zplus_mod.
    + cbn. rewrite zlen_app. change (zlen [TwoBitVectorChunk (statuses (context p))]) with 1. lia.
Qed.

End Building.

(** ** What the feedback says about the packets

    [add_all] adds a sequence of packets that are all accepted or ignored. *)
Fixpoint add_all (p : t) (l : list (Z * Z)) (maxLen : Z) : res (option t) :=
  match l with
  | [] => mret (Some p)
  | (seq, ts) :: l' =>
      '(r, p') ← AddPacket p seq ts maxLen;
      match r with SUCCESS => add_all p' l' maxLen | _ => mret None end
  end.

(** The results for the packets [l], after [prev] which came at [last]: those that
    are not newer are ignored; a gap is a series of packets that were not received;
    a received packet has its distance to the previous one in units of 250 us, and
    its time of arrival. *)
Definition missing_result (seq : Z) : PacketResult :=
  {| sequenceNumber := seq; delta := 0; is_received := false; receivedAtMs := 0 |}.

Definition gap (prev seq : Z) : Z := u16 (seq - (prev + 1)).

Fixpoint expected (epoch prev last : Z) (l : list (Z * Z)) : list PacketResult :=
  match l with
  | [] => []
  | (seq, ts) :: l' =>
      if IsSeqHigherThan 16 seq prev then
        ((fun i => missing_result (u16 (prev + i))) <$> seqZ 1 (gap prev seq)) ++
        {| sequenceNumber := seq; delta := (ts - last) * 4; is_received := true;
           receivedAtMs := ts - epoch |} :: expected epoch seq ts l'
      else expected epoch prev last l'
  end.

(** The same, as the statuses and the deltas of the packet. *)
Fixpoint statuses_of (prev last : Z) (l : list (Z * Z)) : list Status :=
  match l with
  | [] => []
  | (seq, ts) :: l' =>
      if IsSeqHigherThan 16 seq prev then
        replicate (Z.to_nat (gap prev seq)) NotReceived ++
        delta_status ((ts - last) * 4) :: statuses_of seq ts l'
      else statuses_of prev last l'
  end.

Fixpoint deltas_of (prev last : Z) (l : list (Z * Z)) : list Z :=
  match l with
  | [] => []
  | (seq, ts) :: l' =>
      if IsSeqHigherThan 16 seq prev then (ts - last) * 4 :: deltas_of seq ts l'
      else deltas_of prev last l'
  end.

(** No gap is longer than [B]. *)
Fixpoint gaps_within (B prev : Z) (l : list (Z * Z)) : bool :=
  match l with
  | [] => true
  | (seq, _) :: l' =>
      if IsSeqHigherThan 16 seq prev then (gap prev seq <=? B) && gaps_within B seq l'
      else gaps_within B prev l'
  end.

Lemma gaps_within_max l : forall prev, gaps_within 65535 prev l = true.
Proof.
  induction l as [|[seq ts] l IH]; intros prev; cbn; [done|]. destruct (IsSeqHigherThan 16 seq prev);
    [|done]. rewrite IH, andb_true_r. apply Z.leb_le. unfold gap. ulia.
Qed.

Definition packet_ok (x : Z * Z) : Prop := fits 16 x.1 /\ time_ok x.2 /\ x.2 <> 0.

#[global] Instance packet_ok_dec x : Decision (packet_ok x).
Proof. unfold packet_ok, time_ok. apply _. Defined.

Lemma AddPacket_ignored p seq ts maxLen r q :
  latestTimestamp p <> 0 -> IsSeqHigherThan 16 seq (latestSequenceNumber p) = false ->
  AddPacket p seq ts maxLen = Ok (r, q) -> r = SUCCESS /\ q = p.
Proof.
  intros Hl0 Hs. unfold AddPacket. rewrite Hs, (proj2 (Z.eqb_neq _ _) Hl0).
  destruct (IsFull p); [done|]. cbn. by intros [= <- <-].
Qed.

Lemma add_all_ok B (HB : B < 2 ^ 16) l : forall p sts ds maxLen p',
  building B p sts ds -> gaps_within B (latestSequenceNumber p) l = true -> latestTimestamp p <> 0 -> time_ok (latestTimestamp p) ->
  Forall packet_ok l -> maxLen <= B -> add_all p l maxLen = Ok (Some p') ->
  building B p' (sts ++ statuses_of (latestSequenceNumber p) (latestTimestamp p) l)
              (ds ++ deltas_of (latestSequenceNumber p) (latestTimestamp p) l) /\
  baseSequenceNumber p' = baseSequenceNumber p /\ referenceTime p' = referenceTime p /\
  senderSsrc p' = senderSsrc p /\ mediaSsrc p' = mediaSsrc p /\
  feedbackPacketCount p' = feedbackPacketCount p /\
  Forall (fun d => - maxPacketDelta <= d <= maxPacketDelta)
    (deltas_of (latestSequenceNumber p) (latestTimestamp p) l).
Proof.
  induction l as [|[seq ts] l IH]; intros p sts ds maxLen p' Hb Hg Hl0 Hlt Hl Hmax; cbn [add_all].
  { intros [= <-]. cbn. by rewrite !app_nil_r. }
  apply list.Forall_cons in Hl as [(Hs & Ht & Ht0) Hl]. cbn in Hs, Ht, Ht0. intros H.
  apply res_bind_ok in H as ([r q] & Hadd & H). destruct r; [|done..].
  pose proof (fun Hgap => AddPacket_ok B HB p seq ts maxLen q sts ds Hb Hl0 Hlt Ht Hmax Hgap Hadd)
    as Hacc.
  cbn [statuses_of deltas_of gaps_within] in *.
  destruct (IsSeqHigherThan 16 seq (latestSequenceNumber p)) eqn:Ehi.
  2: { destruct (AddPacket_ignored _ _ _ _ _ _ Hl0 Ehi Hadd) as [_ ->]. eapply IH; eauto. }
  apply andb_true_iff in Hg as [Hg1 Hg2]. apply Z.leb_le in Hg1. specialize (Hacc Hg1).
  destruct Hacc as [A1 A2 A3 A4 A5 A6].
  destruct (IH q _ _ maxLen p' A1) as (B1 & B2); rewrite ?A3, ?A4; try done.
  rewrite A3, A4, <- !app_assoc in B1. rewrite A3, A4 in B2. cbn [app] in B1.
  split; [exact B1|]. rewrite list.Forall_cons. intuition congruence.
Qed.

(** *** Reading the results *)

Lemma fill_results_app l m n :
  fill_results (l ++ m) n =
  let '(r1, n1) := fill_results l n in let '(r2, n2) := fill_results m n1 in (r1 ++ r2, n2).
Proof.
  revert n. induction l as [|s l IH]; intros n; cbn [app fill_results].
  - by destruct (fill_results m n).
  - rewrite IH. destruct (fill_results l _) as [r1 n1]. by destruct (fill_results m n1).
Qed.

Lemma fill_chunks_eq cs n : fill_chunks cs n = (fill_results (cs ≫= chunk_statuses) n).1.
Proof.
  revert n. induction cs as [|c cs IH]; intros n; [done|]. cbn [fill_chunks mbind list_bind].
  rewrite fill_results_app. destruct (fill_results (chunk_statuses c) n) as [r1 n1]. rewrite IH.
  change (list_bind Chunk Status chunk_statuses cs) with (cs ≫= chunk_statuses).
  by destruct (fill_results (cs ≫= chunk_statuses) n1).
Qed.

Lemma fill_times_app rs1 rs2 ds now :
  Forall (fun r => is_received r = false) rs1 ->
  fill_times (rs1 ++ rs2) ds now = (rest ← fill_times rs2 ds now; mret (rs1 ++ rest)).
Proof.
  induction 1 as [|r rs1 Hr _ IH]; cbn [app fill_times].
  - by destruct (fill_times rs2 ds now).
  - rewrite Hr, IH. by destruct (fill_times rs2 ds now).
Qed.

Lemma fill_results_missing n : 0 <= n -> forall prev,
  fill_results (replicate (Z.to_nat n) NotReceived) prev =
  ((fun i => missing_result (u16 (prev + i))) <$> seqZ 1 n,
   if n =? 0 then prev else u16 (prev + n)).
Proof.
  intros Hn. revert n Hn. apply (natlike_ind (fun n => forall prev, _ = _)); [done|].
  intros n Hn IH prev. rewrite Z2Nat.inj_succ by done. cbn [replicate fill_results received].
  rewrite IH, (seqZ_cons 1 (Z.succ n)) by lia. rewrite Z.pred_succ. cbn [fmap list_fmap].
  rewrite (proj2 (Z.eqb_neq (Z.succ n) 0)) by lia. f_equal; [f_equal|].
  - change (Z.succ 1) with (1 + 1). rewrite <- (fmap_add_seqZ 1 1 n), <- list_fmap_compose.
    apply list_fmap_ext. intros _ i _. cbn. f_equal. ulia.
  - destruct (Z.eqb_spec n 0) as [->|]; [done|]. ulia.
Qed.

Lemma results_of_statuses epoch l : forall prev last,
  Forall packet_ok l -> fits 16 prev ->
  fill_times (fill_results (statuses_of prev last l) prev).1 (deltas_of prev last l)
    (last - epoch) = Ok (expected epoch prev last l).
Proof.
  induction l as [|[seq ts] l IH]; intros prev last Hl Hp; [done|].
  apply list.Forall_cons in Hl as [(Hs & _ & _) Hl]. cbn in Hs.
  cbn [statuses_of deltas_of expected]. destruct (IsSeqHigherThan 16 seq prev); [|by apply IH].
  assert (Hg : fits 16 (gap prev seq)) by (apply uwrap_fits; lia).
  rewrite fill_results_app, fill_results_missing by (unfold fits in Hg; lia).
  set (n1 := if gap prev seq =? 0 then prev else _).
  assert (Hn1 : u16 (n1 + 1) = seq).
  { unfold n1, gap in *. destruct (Z.eqb_spec (u16 (seq - (prev + 1))) 0); ulia. }
  cbn [fill_results]. rewrite Hn1.
  specialize (IH seq ts Hl Hs). destruct (fill_results (statuses_of seq ts l) seq) as [r2 n2].
  cbn [fst] in *. rewrite fill_times_app.
  2: { apply Forall_fmap, list.Forall_forall. done. }
  cbn [fill_times is_received received].
  assert (Hst : received (delta_status ((ts - last) * 4)) = true)
    by (unfold delta_status; by destruct (_ && _)).
  rewrite Hst, Z.quot_mul by lia. replace (last - epoch + (ts - last)) with (ts - epoch) by lia.
  rewrite IH. done.
Qed.


(** The packet with its base set and nothing added. *)
Lemma set_base_building B s m seq ts : 6 <= B -> building B (set_base (create s m) seq ts) [] [].
Proof. intros HB. by split. Qed.

Lemma land_reftime ts : Z.land ts 0x1FFFFFC0 = ts mod 2 ^ 29 / 64 * 64.
Proof.
  change 64 with (2 ^ 6). rewrite <- Z.shiftr_div_pow2, <- Z.shiftl_mul_pow2 by lia.
  apply Z.bits_inj'. intros i Hi. rewrite Z.land_spec, Z.shiftl_spec by done.
  change 0x1FFFFFC0 with (Z.shiftl (Z.ones 23) 6). rewrite Z.shiftl_spec by done.
  destruct (Z.lt_ge_cases i 6) as [Hlo|Hhi].
  - rewrite !(Z.testbit_neg_r _ (i - 6)) by lia. apply andb_false_r.
  - rewrite Z.shiftr_spec by lia. replace (i - 6 + 6) with i by lia.
    destruct (Z.lt_ge_cases i 29).
    + rewrite Z.mod_pow2_bits_low, Z.ones_spec_low by lia. apply andb_true_r.
    + rewrite Z.mod_pow2_bits_high, Z.ones_spec_high by lia. apply andb_false_r.
Qed.

(** A packet built from the first packet [(seq0, t0)] and then [l], finished. *)
Lemma add_all_finished B s m seq0 t0 l maxLen p :
  6 <= B < 2 ^ 16 -> packet_ok (seq0, t0) -> 64 <= t0 -> Forall packet_ok l -> maxLen <= B ->
  gaps_within B seq0 l = true ->
  add_all (create s m) ((seq0, t0) :: l) maxLen = Ok (Some p) ->
  exists p', Finish p = Ok p' /\
    finished B p' (statuses_of seq0 (t0 / 64 * 64) l) (deltas_of seq0 (t0 / 64 * 64) l) /\
    baseSequenceNumber p' = u16 (seq0 + 1) /\ referenceTime p' = t0 mod 2 ^ 29 / 64 /\
    senderSsrc p' = s /\ mediaSsrc p' = m /\ feedbackPacketCount p' = 0 /\
    Forall (fun d => - maxPacketDelta <= d <= maxPacketDelta) (deltas_of seq0 (t0 / 64 * 64) l).
Proof.
  intros HB (Hs & Ht & _) Ht0 Hl Hmax Hg H. cbn in Hs, Ht.
  cbn [add_all AddPacket IsFull create packetStatusCount latestTimestamp] in H.
  change (AddPacket (create s m) seq0 t0 maxLen) with
    (Ok (SUCCESS, set_base (create s m) seq0 t0) : res (AddPacketResult * t)) in H.
  cbn [mbind res_bind mret res_ret] in H.
  assert (Hlast : latestTimestamp (set_base (create s m) seq0 t0) = t0 / 64 * 64).
  { cbn. rewrite Z.shiftr_div_pow2 by lia. change (2 ^ 6) with 64. apply uwrap_id.
    unfold fits, time_ok in *. change (2 ^ 61) with 2305843009213693952 in *. pow2_consts.
    Z.div_mod_to_equations. lia. }
  destruct (add_all_ok B ltac:(lia) l _ [] [] maxLen p
    (set_base_building B s m seq0 t0 ltac:(lia)) Hg) as (Hb & H1 & H2 & H3 & H4 & H5 & H6);
    [rewrite Hlast; Z.div_mod_to_equations; lia| |done|done|done|].
  { rewrite Hlast. unfold time_ok in *. Z.div_mod_to_equations. lia. }
  rewrite Hlast in Hb, H6. destruct (Finish_ok B ltac:(lia) _ _ _ Hb) as (p' & Hf & Hfin & []).
  cbn [baseSequenceNumber senderSsrc mediaSsrc feedbackPacketCount set_base create] in H1, H3, H4, H5.
  exists p'. split_and!; [done|exact Hfin|congruence| |intuition congruence..|exact H6].
  rewrite head_reftime0, H2. cbn [referenceTime set_base]. rewrite land_reftime.
  by rewrite Z.div_mul by lia.
Qed.

(** The results, from the base and the reference time of the packet. *)
Lemma results_from_base seq0 t0 l :
  fits 16 seq0 -> Forall packet_ok l ->
  fill_times (fill_results (statuses_of seq0 (t0 / 64 * 64) l) (u16 (u16 (seq0 + 1) - 1))).1
    (deltas_of seq0 (t0 / 64 * 64) l) (u32 (t0 mod 2 ^ 29 / 64 * 64)) =
  Ok (expected (t0 / 2 ^ 29 * 2 ^ 29) seq0 (t0 / 64 * 64) l).
Proof.
  intros Hs Hl. replace (u16 (u16 (seq0 + 1) - 1)) with seq0 by ulia.
  replace (u32 (t0 mod 2 ^ 29 / 64 * 64)) with (t0 / 64 * 64 - t0 / 2 ^ 29 * 2 ^ 29).
  - by apply results_of_statuses.
  - unfold uwrap. change (2 ^ 29) with 536870912. pow2_consts. Z.div_mod_to_equations. lia.
Qed.

(** Transport-wide feedback built with [AddPacket] and closed with [Finish] reports
    exactly what was received: for every sequence of packets that are all accepted,
    [GetPacketResults] lists, in order and with consecutive sequence numbers, a missing
    packet for each number in a gap and, for each received packet newer than the
    previous ones, the time to the previous one in units of 250 us and its time of
    arrival (up to the period of 2^29 ms of the reference time). *)
Theorem feedback_results s m seq0 t0 l maxLen p :
  packet_ok (seq0, t0) -> 64 <= t0 -> Forall packet_ok l -> maxLen < 2 ^ 16 ->
  add_all (create s m) ((seq0, t0) :: l) maxLen = Ok (Some p) ->
  exists p', Finish p = Ok p' /\
    GetPacketResults p' = Ok (expected (t0 / 2 ^ 29 * 2 ^ 29) seq0 (t0 / 64 * 64) l).
Proof.
  intros Hp Ht0 Hl Hmax H.
  destruct (add_all_finished 65535 s m seq0 t0 l maxLen p) as (p' & Hf & Hfin & Hb & Hr & _);
    [lia|done|done|done|lia|apply gaps_within_max|done|].
  exists p'. split; [done|]. unfold GetPacketResults.
  destruct Hp as (Hs & _). cbn in Hs.
  rewrite fill_chunks_eq, Hb, Hr, (f_deltas _ _ _ _ Hfin).
  change (chunks p' ≫= chunk_statuses) with (chunked p'). rewrite (f_statuses _ _ _ _ Hfin).
  by apply results_from_base.
Qed.

Lemma feedback_results_witness :
  exists p p',
    add_all (create 1 2) [(65530, 1000000100); (65531, 1000000110); (65529, 1000000112);
                          (3, 1000000150); (4, 1000000149)] 1500 = Ok (Some p) /\
    Finish p = Ok p' /\
    GetPacketResults p' =
      Ok (expected 536870912 65530 1000000064 [(65531, 1000000110); (65529, 1000000112);
                          (3, 1000000150); (4, 1000000149)]).
Proof.
  destruct (add_all (create 1 2) [(65530, 1000000100); (65531, 1000000110); (65529, 1000000112);
                          (3, 1000000150); (4, 1000000149)] 1500) as [[p|]|] eqn:E;
    [|vm_compute in E; discriminate E..].
  destruct (feedback_results 1 2 65530 1000000100 [(65531, 1000000110); (65529, 1000000112);
                          (3, 1000000150); (4, 1000000149)] 1500 p) as (p' & H1 & H2);
    [by apply (bool_decide_unpack _)|lia|by apply (bool_decide_unpack _)|lia|exact E|].
  exists p, p'. split; [reflexivity|]. split; [exact H1|exact H2].
Defined.

(** ** Serialization and parsing are inverse *)

Lemma status_code_code s : status_of_code (status_code s) = s.
Proof. by destruct s. Qed.

Lemma status_code_bound s : status_ok s -> 0 <= status_code s < 3.
Proof. intros [? ?]. by destruct s. Qed.

(** The symbols of a two-bit vector. *)
Lemma vector_bits_spec n : forall acc l,
  0 <= acc -> acc + 4 ^ Z.of_nat n <= 2 ^ 16 -> acc mod 4 ^ Z.of_nat n = 0 -> (n <= 7)%nat ->
  zlen l <= Z.of_nat n -> Forall status_ok l ->
  exists x, vector_bits 2 (u8 (2 * Z.of_nat n - 2)) acc l = acc + x /\
    0 <= x < 4 ^ Z.of_nat n /\ vector_statuses 2 n (acc + x) (zlen l) = l.
Proof.
  induction n as [|n IH]; intros acc l H0 Hacc Hmod Hn Hl Hs.
  - apply zlen_0_nil_le in Hl. subst l. exists 0. split_and!; [cbn; lia|done|done|done].
  - destruct l as [|st l].
    { exists 0. split_and!; [cbn; lia|done|apply Z.pow_pos_nonneg; lia|done]. }
    apply list.Forall_cons in Hs as [Hst Hs]. pose proof (status_code_bound _ Hst) as Hc.
    rewrite zlen_cons in *. pose proof (zlen_nonneg l) as Hl0.
    set (P := 4 ^ Z.of_nat n) in *.
    assert (HP : 4 ^ Z.of_nat (S n) = 4 * P)
      by (unfold P; rewrite Nat2Z.inj_succ, Z.pow_succ_r; lia).
    assert (HP0 : 0 < P) by (apply Z.pow_pos_nonneg; lia).
    assert (HP2 : P = 2 ^ (2 * Z.of_nat n)) by (unfold P; rewrite Z.pow_mul_r; done || lia).
    rewrite HP in *. cbn [vector_bits].
    replace (u8 (2 * Z.of_nat (S n) - 2)) with (2 * Z.of_nat n) by ulia.
    assert (Hor : u16 (Z.lor acc (Z.shiftl (status_code st) (2 * Z.of_nat n))) =
                  acc + status_code st * P).
    { apply Z.mod_divide in Hmod as [a ->]; [|lia].
      replace (a * (4 * P)) with (Z.shiftl (4 * a) (2 * Z.of_nat n))
        by (rewrite Z.shiftl_mul_pow2, <- HP2 by lia; ring).
      rewrite <- Z.shiftl_lor, Z.lor_comm.
      replace (4 * a) with (Z.shiftl a 2) by (rewrite Z.shiftl_mul_pow2 by lia; lia).
      rewrite lor_shiftl_add by (pow2_consts; lia).
      rewrite !Z.shiftl_mul_pow2, <- HP2 by lia. rewrite uwrap_id; [ring|].
      unfold fits. pow2_consts. nia. }
    rewrite Hor.
    destruct (IH (acc + status_code st * P) l) as (x & Hx & Hx0 & Hst'); [nia|nia| |lia|lia|done|].
    { apply Z.mod_divide in Hmod as [a ->]; [|lia]. apply Z.mod_divide; [lia|].
      exists (4 * a + status_code st). ring. }
    exists (status_code st * P + x). split_and!.
    + rewrite Hx. ring.
    + nia.
    + nia.
    + cbn [vector_statuses]. rewrite (proj2 (Z.ltb_lt 0 (zlen l + 1))) by lia.
      replace (zlen l + 1 - 1) with (zlen l) by lia.
      rewrite Z.add_assoc, Hst'. f_equal.
      rewrite <- (status_code_code st) at 2. f_equal.
      rewrite Z.shiftr_div_pow2, <- HP2, land_ones_mod by lia.
      apply Z.mod_divide in Hmod as [a ->]; [|lia].
      replace (a * (4 * P) + status_code st * P + x) with (x + (status_code st + 4 * a) * P) by ring.
      rewrite Z.div_add, (Z.div_small x P) by lia. change (2 ^ 2) with 4.
      rewrite Z.add_0_l, (Z.mul_comm 4 a), Z.mod_add by lia. apply Z.mod_small. lia.
Qed.

(** A chunk that is written and read back when [count] statuses remain. *)
Definition chunk_wire (c : Chunk) (count : Z) : Prop :=
  match c with
  | RunLengthChunk s n => status_ok s /\ 1 <= n <= 8191
  | OneBitVectorChunk _ => False
  | TwoBitVectorChunk l =>
      Forall status_ok l /\ (zlen l = 7 /\ 7 <= count \/ 1 <= zlen l < 7 /\ count = zlen l)
  end.

Lemma vector_statuses_more w n buffer c :
  Z.of_nat n <= c -> vector_statuses w n buffer c = vector_statuses w n buffer (Z.of_nat n).
Proof.
  revert c. induction n as [|n IH]; intros c Hc; [done|]. cbn [vector_statuses].
  rewrite (proj2 (Z.ltb_lt 0 c)), (proj2 (Z.ltb_lt 0 (Z.of_nat (S n)))) by lia. f_equal.
  rewrite IH by lia. f_equal. lia.
Qed.

Lemma land_mask a m k : 0 <= k -> m = 2 ^ k - 1 -> Z.land a m = a mod 2 ^ k.
Proof. intros ? ->. by apply land_ones_mod. Qed.

Lemma land_nonzero a m k :
  0 <= k -> Z.testbit m k = true -> a / 2 ^ k mod 2 = 1 -> (Z.land a m =? 0) = false.
Proof.
  intros Hk Hm Ha. apply Z.eqb_neq. intros H. apply (f_equal (fun z => Z.testbit z k)) in H.
  rewrite Z.land_spec, Hm, Z.bits_0, andb_true_r in H.
  rewrite Z.testbit_odd, Z.shiftr_div_pow2, Zmod_odd in * by done. by rewrite H in Ha.
Qed.

Lemma Chunk_roundtrip c count rest :
  chunk_wire c count ->
  exists b, Chunk_Serialize c = Ok b /\ zlen b = 2 /\ Chunk_Parse (b ++ rest) count = Ok (Some c).
Proof.
  assert (Hlen : forall v, (zlen (Byte.be2 v ++ rest) <? 2) = false).
  { intros v. apply Z.ltb_ge. rewrite zlen_app, zlen_be2. pose proof (zlen_nonneg rest). lia. }
  destruct c as [st n|l|l]; cbn [chunk_wire]; [intros (Hs & Hn)|done|intros (Hs & Hl)];
    cbn [Chunk_Serialize].
  - pose proof (status_code_bound _ Hs) as Hc.
    assert (Hv : u16 (Z.lor (Z.shiftl (status_code st) 13) (Z.land n 0x1FFF)) =
                 n + status_code st * 8192).
    { rewrite (land_mask n 0x1FFF 13), Z.mod_small, Z.lor_comm, lor_shiftl_add by (pow2_consts; lia).
      apply uwrap_id. unfold fits. pow2_consts. lia. }
    rewrite Hv. eexists. split; [done|]. split; [done|]. unfold Chunk_Parse. rewrite Hlen.
    rewrite Get2Bytes_front, uwrap_id by (unfold fits; pow2_consts; lia). cbn [mbind res_bind].
    rewrite (land_mask _ 1 1), (land_mask _ 3 2), (land_mask _ 0x1FFF 13) by lia.
    rewrite !Z.shiftr_div_pow2 by lia. change (2 ^ 13) with 8192. pow2_consts.
    rewrite (Z.div_small _ 32768) by lia. rewrite Z.div_add, (Z.div_small n) by lia.
    rewrite (Z.mod_small (0 + _) 4), Z.mod_add by lia. cbn [Z.eqb Z.modulo].
    rewrite Z.add_0_l, status_code_code. rewrite (Z.mod_small n) by lia.
    destruct Hs. by destruct st.
  - assert (H7 : zlen l <= 7) by lia. rewrite (proj2 (Z.leb_le _ _) H7).
    cbn [ms_assert mbind res_bind mret res_ret].
    destruct (vector_bits_spec 7 0xC000 l) as (x & Hx & Hx0 & Hst); [done..|].
    change (u8 (2 * Z.of_nat 7 - 2)) with 12 in Hx. change (Z.lor 0x8000 (Z.shiftl 1 14)) with 0xC000.
    rewrite Hx. change (4 ^ Z.of_nat 7) with 16384 in Hx0.
    eexists. split; [done|]. split; [done|]. unfold Chunk_Parse. rewrite Hlen.
    rewrite Get2Bytes_front, uwrap_id by (unfold fits; pow2_consts; lia). cbn [mbind res_bind].
    rewrite (land_mask _ 1 1), Z.shiftr_div_pow2 by lia.
    replace ((49152 + x) / 2 ^ 15) with 1 by (pow2_consts; Z.div_mod_to_equations; lia).
    cbn [Z.modulo Z.eqb].
    change (read (Byte.be2 (49152 + x) ++ rest) 0) with (Ok (u8 (Z.shiftr (49152 + x) 8)) : res Z).
    cbn [mbind res_bind].
    rewrite (land_nonzero _ 0x40 6); [|done|done|].
    2: { rewrite Z.shiftr_div_pow2 by lia. ulia. }
    rewrite (land_nonzero _ 0xC000 15); [|done|done|].
    2: { pow2_consts. Z.div_mod_to_equations. lia. }
    cbn [negb ms_assert mbind res_bind mret res_ret]. do 3 f_equal.
    destruct Hl as [[E Hc]|[E ->]]; [|done].
    rewrite vector_statuses_more by (cbn; lia). change (Z.of_nat 7) with 7. by rewrite <- E.
Qed.

(** Chunks that stand for [count] statuses in all. *)
Fixpoint chunks_wire (cs : list Chunk) (count : Z) : Prop :=
  match cs with
  | [] => count = 0
  | c :: cs' =>
      chunk_wire c count /\ zlen (chunk_statuses c) <= count /\
      chunks_wire cs' (count - zlen (chunk_statuses c))
  end.

Lemma chunk_wire_pos c n : chunk_wire c n -> 1 <= zlen (chunk_statuses c).
Proof.
  destruct c; cbn [chunk_wire chunk_statuses]; [|done|lia]. intros (_ & ?).
  rewrite zlen_replicate; lia.
Qed.

Lemma count_received_bound l : 0 <= count_received l <= zlen l.
Proof.
  unfold count_received, zlen. pose proof (length_filter (fun s => received s = true) l). lia.
Qed.

Lemma chunk_counts c n :
  chunk_wire c n -> n < 2 ^ 16 ->
  GetCount c = zlen (chunk_statuses c) /\
  GetReceivedStatusCount c = count_received (chunk_statuses c).
Proof.
  destruct c as [s k|l|l]; cbn [chunk_wire GetCount GetReceivedStatusCount chunk_statuses]; [|done|].
  - intros (_ & Hk) _. rewrite zlen_replicate by lia. split; [done|]. unfold count_received.
    destruct (received s) eqn:E.
    + replace (filter _ _) with (replicate (Z.to_nat k) s); [by rewrite zlen_replicate by lia|].
      generalize (Z.to_nat k) as j. induction j as [|j IH]; [done|]. cbn.
      rewrite decide_True by done. by f_equal.
    + replace (filter _ _) with (@nil Status); [done|].
      generalize (Z.to_nat k) as j. induction j as [|j IH]; [done|]. cbn.
      by rewrite decide_False by congruence.
  - intros (_ & Hl) Hn. pose proof (count_received_bound l).
    rewrite !uwrap_id by (unfold fits; lia). done.
Qed.

Lemma count_received_app l m : count_received (l ++ m) = count_received l + count_received m.
Proof. unfold count_received. by rewrite list.filter_app, zlen_app. Qed.

Lemma parse_chunks_ok cs : forall fuel front tail total sofar r,
  chunks_wire cs (total - sofar) -> 0 <= sofar <= total -> total < 2 ^ 16 -> 0 <= r <= sofar ->
  (length cs <= fuel)%nat ->
  exists b, serialize_chunks cs = Ok b /\ zlen b = 2 * zlen cs /\
    parse_chunks fuel (front ++ b ++ tail) total (zlen front) sofar r =
      Ok (Some (cs, zlen front + zlen b, total, r + count_received (cs ≫= chunk_statuses))).
Proof.
  induction cs as [|c cs IH]; intros fuel front tail total sofar r Hw Hs Ht Hr Hf;
    cbn [chunks_wire serialize_chunks] in *.
  - exists []. split_and!; [done..|].
    destruct fuel; cbn [parse_chunks]; rewrite (proj2 (Z.ltb_ge sofar total)) by lia;
      cbn [andb mret res_ret]; change (zlen []) with 0; change (count_received _) with 0;
      repeat f_equal; lia.
  - destruct Hw as (Hc & Hle & Hw). cbn [length] in Hf. destruct fuel as [|fuel]; [lia|].
    destruct (chunk_counts c _ Hc ltac:(lia)) as [Hcnt Hrcv].
    pose proof (chunk_wire_pos _ _ Hc). pose proof (count_received_bound (chunk_statuses c)).
    destruct (Chunk_roundtrip c (total - sofar) [] Hc) as (b & Hb & Hb2 & _).
    destruct (IH fuel (front ++ b) tail total (sofar + GetCount c) (r + GetReceivedStatusCount c))
      as (bs & Hbs & Hbs2 & Hp); [rewrite Hcnt; by replace (total - _) with
        (total - sofar - zlen (chunk_statuses c)) by lia|lia|lia|lia|lia|].
    exists (b ++ bs). rewrite Hb, Hbs. rewrite zlen_app, (zlen_cons c). split_and!; [done|lia|].
    cbn [parse_chunks]. rewrite !zlen_app.
    pose proof (zlen_nonneg front). pose proof (zlen_nonneg bs). pose proof (zlen_nonneg tail).
    rewrite (proj2 (Z.ltb_lt sofar total)), (proj2 (Z.ltb_lt (zlen front) _)) by lia. cbn [andb].
    rewrite (proj2 (Z.ltb_ge _ 2)) by lia.
    rewrite sub_app by done. cbn [mbind res_bind]. rewrite (uwrap_id 16 (total - sofar)) by (unfold fits; lia).
    destruct (Chunk_roundtrip c (total - sofar) (bs ++ tail) Hc) as (b' & Hb' & _ & Hpc).
    rewrite Hb in Hb'. injection Hb' as <-. rewrite <- app_assoc, Hpc. cbn [mbind res_bind].
    rewrite (uwrap_id 16 (sofar + _)), (uwrap_id 16 (r + _)) by (unfold fits; lia).
    rewrite <- !app_assoc, zlen_app, Hb2 in Hp. rewrite Hp. cbn [mbind res_bind mret res_ret list_bind].
    rewrite Hrcv, count_received_app, Hb2. by rewrite !Z.add_assoc.
Qed.

(** The deltas of the received packets of a list of statuses. *)
Fixpoint deltas_match (l : list Status) (ds : list Z) : Prop :=
  match l with
  | [] => ds = []
  | s :: l' =>
      if received s then
        exists d ds', ds = d :: ds' /\ delta_status d = s /\ - 2 ^ 15 <= d < 2 ^ 15 /\
          deltas_match l' ds'
      else s = NotReceived /\ deltas_match l' ds
  end.

Lemma deltas_match_app l m ds :
  deltas_match (l ++ m) ds <->
  exists d1 d2, ds = d1 ++ d2 /\ deltas_match l d1 /\ deltas_match m d2.
Proof.
  revert ds. induction l as [|s l IH]; intros ds; cbn [app deltas_match].
  - split; [intros H; exists [], ds; auto|]. by intros (d1 & d2 & -> & -> & H).
  - destruct (received s).
    + split.
      * intros (d & ds' & -> & Hd & Hr & H). apply IH in H as (d1 & d2 & -> & H1 & H2).
        exists (d :: d1), d2. split_and!; [done| |done]. eauto 10.
      * intros (d1 & d2 & -> & (d & ds' & -> & Hd & Hr & H) & H2). exists d, (ds' ++ d2).
        split_and!; [done|done|lia|lia|]. apply IH. eauto.
    + split.
      * intros (Hs & H). apply IH in H as (d1 & d2 & -> & H1 & H2). eauto 10.
      * intros (d1 & d2 & -> & (Hs & H1) & H2). split; [done|]. apply IH. eauto.
Qed.

Lemma zlen_deltas_match l ds : deltas_match l ds -> zlen ds = count_received l.
Proof.
  revert ds. induction l as [|s l IH]; intros ds; cbn [deltas_match]; [by intros ->|].
  unfold count_received. rewrite filter_cons. destruct (received s) eqn:E.
  - intros (d & ds' & -> & _ & _ & H). rewrite decide_True, !zlen_cons by done.
    by rewrite (IH _ H).
  - intros (_ & H). rewrite decide_False by congruence. by apply IH.
Qed.

(** Reading the bytes of one delta. *)
Lemma read_delta_small front d rest :
  delta_status d = SmallDelta -> delta_bytes d = [d] /\
  Byte.Get1Byte (front ++ delta_bytes d ++ rest) (zlen front) = Ok d /\ i16 d = d.
Proof.
  unfold delta_status, delta_bytes. destruct ((0 <=? d) && (d <=? 255)) eqn:E; [|done]. intros _.
  apply andb_true_iff in E as [H1%Z.leb_le H2%Z.leb_le].
  rewrite (uwrap_id 8 d) by (unfold fits; pow2_consts; lia). split; [done|]. split.
  - unfold Byte.Get1Byte. rewrite <- (Z.add_0_r (zlen front)), read_app_r by lia. done.
  - apply i16_small. pow2_consts. lia.
Qed.

Lemma read_delta_large front d rest :
  delta_status d = LargeDelta -> - 2 ^ 15 <= d < 2 ^ 15 -> zlen (delta_bytes d) = 2 /\
  exists v, Byte.Get2Bytes (front ++ delta_bytes d ++ rest) (zlen front) = Ok v /\ i16 v = d.
Proof.
  unfold delta_status, delta_bytes. destruct ((0 <=? d) && (d <=? 255)) eqn:E; [done|]. intros _ Hd.
  split; [done|]. exists (u16 d). split.
  - rewrite (Get2Bytes_app front _ 0) by lia. rewrite Get2Bytes_front. f_equal. ulia.
  - rewrite <- (i16_small d Hd) at 2. unfold i16. replace (u16 (u16 d)) with (u16 d) by ulia. done.
Qed.

Lemma read_vector_ok l : forall front ds rest len,
  deltas_match l ds -> Forall status_ok l -> zlen (concat (delta_bytes <$> ds)) <= len ->
  read_vector false l (front ++ concat (delta_bytes <$> ds) ++ rest) len (zlen front) =
    Ok (Some (ds, zlen front + zlen (concat (delta_bytes <$> ds)))).
Proof.
  induction l as [|s l IH]; intros front ds rest len Hm Hs Hl; cbn [deltas_match read_vector] in *.
  - subst ds. cbn [fmap list_fmap concat]. by rewrite zlen_nil, Z.add_0_r.
  - apply list.Forall_cons in Hs as [Hst Hs]. destruct (received s) eqn:E.
    + destruct Hm as (d & ds' & -> & Hd & Hr & Hm). cbn [fmap list_fmap concat] in *.
      rewrite zlen_app in *. rewrite <- !app_assoc.
      pose proof (zlen_nonneg (concat (delta_bytes <$> ds'))).
      destruct s; try done.
      * destruct (read_delta_small front d (concat (delta_bytes <$> ds') ++ rest) Hd)
          as (Hb & Hg & Hi). rewrite Hb in *. change (zlen [d]) with 1 in *.
        rewrite (proj2 (Z.ltb_ge len 1)) by lia. rewrite Hg. cbn [mbind res_bind].
        specialize (IH (front ++ [d]) ds' rest (len - 1) Hm Hs ltac:(lia)).
        rewrite <- app_assoc, zlen_app in IH. change (zlen [d]) with 1 in IH. rewrite IH.
        cbn [mbind res_bind mret res_ret]. by rewrite Hi, Z.add_assoc.
      * destruct (read_delta_large front d (concat (delta_bytes <$> ds') ++ rest) Hd Hr)
          as (Hb & v & Hg & Hi). rewrite Hb in *.
        rewrite (proj2 (Z.ltb_ge len 2)) by lia. rewrite Hg. cbn [mbind res_bind].
        specialize (IH (front ++ delta_bytes d) ds' rest (len - 2) Hm Hs ltac:(lia)).
        rewrite <- app_assoc, zlen_app, Hb in IH. rewrite IH.
        cbn [mbind res_bind mret res_ret]. by rewrite Hi, Z.add_assoc.
    + destruct Hm as (-> & Hm). by apply IH.
Qed.

Lemma read_small_ok n : forall front ds rest,
  deltas_match (replicate n SmallDelta) ds ->
  zlen (concat (delta_bytes <$> ds)) = Z.of_nat n /\
  read_small n (front ++ concat (delta_bytes <$> ds) ++ rest) (zlen front) =
    Ok (ds, zlen front + zlen (concat (delta_bytes <$> ds))).
Proof.
  induction n as [|n IH]; intros front ds rest Hm; cbn [replicate deltas_match received read_small] in *.
  - subst ds. cbn [fmap list_fmap concat]. rewrite zlen_nil, Z.add_0_r. done.
  - destruct Hm as (d & ds' & -> & Hd & Hr & Hm). cbn [fmap list_fmap concat] in *.
    destruct (read_delta_small front d (concat (delta_bytes <$> ds') ++ rest) Hd) as (Hb & Hg & Hi).
    destruct (IH (front ++ delta_bytes d) ds' rest Hm) as [Hlen Hrd].
    rewrite <- !app_assoc in *. rewrite Hg. cbn [mbind res_bind]. rewrite zlen_app in *.
    rewrite Hb in *. change (zlen [d]) with 1 in *. split; [lia|]. rewrite Hrd.
    cbn [mbind res_bind mret res_ret]. by rewrite Hi, Z.add_assoc.
Qed.

Lemma read_large_ok n : forall front ds rest,
  deltas_match (replicate n LargeDelta) ds ->
  zlen (concat (delta_bytes <$> ds)) = 2 * Z.of_nat n /\
  read_large n (front ++ concat (delta_bytes <$> ds) ++ rest) (zlen front) =
    Ok (ds, zlen front + zlen (concat (delta_bytes <$> ds))).
Proof.
  induction n as [|n IH]; intros front ds rest Hm; cbn [replicate deltas_match received read_large] in *.
  - subst ds. cbn [fmap list_fmap concat]. rewrite zlen_nil, Z.add_0_r. done.
  - destruct Hm as (d & ds' & -> & Hd & Hr & Hm). cbn [fmap list_fmap concat] in *.
    destruct (read_delta_large front d (concat (delta_bytes <$> ds') ++ rest) Hd Hr)
      as (Hb & v & Hg & Hi).
    destruct (IH (front ++ delta_bytes d) ds' rest Hm) as [Hlen Hrd].
    rewrite <- !app_assoc in *. rewrite Hg. cbn [mbind res_bind]. rewrite zlen_app, Hb in *.
    split; [lia|]. rewrite Hrd. cbn [mbind res_bind mret res_ret]. by rewrite Hi, Z.add_assoc.
Qed.

Lemma AddDeltas_ok c n ds rest :
  chunk_wire c n -> deltas_match (chunk_statuses c) ds ->
  AddDeltas c (concat (delta_bytes <$> ds) ++ rest) =
    Ok (Some (ds, zlen (concat (delta_bytes <$> ds)))).
Proof.
  pose proof (zlen_nonneg rest).
  destruct c as [s k|l|l]; cbn [chunk_wire chunk_statuses AddDeltas]; [|done|].
  - intros (Hs & Hk) Hm. destruct s; try by destruct Hs.
    + assert (ds = []) as ->; [|done]. revert Hm. generalize (Z.to_nat k) as j.
      induction j as [|j IH]; cbn [replicate deltas_match received]; [done|]. tauto.
    + destruct (read_small_ok _ [] ds rest Hm) as [Hlen Hrd]. rewrite zlen_app.
      rewrite (proj2 (Z.ltb_ge _ _)) by lia. cbn [app] in Hrd. change (zlen []) with 0 in Hrd.
      by rewrite Hrd.
    + destruct (read_large_ok _ [] ds rest Hm) as [Hlen Hrd]. rewrite zlen_app.
      rewrite (proj2 (Z.ltb_ge _ _)) by lia. cbn [app] in Hrd. change (zlen []) with 0 in Hrd.
      by rewrite Hrd.
  - intros (Hs & _) Hm. apply (read_vector_ok l [] ds rest); [done|done|]. rewrite zlen_app. lia.
Qed.

Lemma parse_deltas_ok cs : forall front ds rest n,
  chunks_wire cs n -> deltas_match (cs ≫= chunk_statuses) ds ->
  parse_deltas cs (front ++ concat (delta_bytes <$> ds) ++ rest) (zlen front) =
    Ok (Some (ds, zlen front + zlen (concat (delta_bytes <$> ds)))).
Proof.
  induction cs as [|c cs IH]; intros front ds rest n Hw Hm; cbn [chunks_wire parse_deltas] in *.
  - cbn in Hm. subst ds. cbn [fmap list_fmap concat]. by rewrite zlen_nil, Z.add_0_r.
  - destruct Hw as (Hc & _ & Hw). cbn [mbind list_bind] in Hm. apply deltas_match_app in Hm
      as (d1 & d2 & -> & H1 & H2).
    rewrite fmap_app, concat_app, <- app_assoc, !zlen_app.
    pose proof (zlen_delta_bytes d1) as Hn1. pose proof (zlen_delta_bytes d2) as Hn2.
    pose proof (zlen_nonneg d1). pose proof (zlen_nonneg d2). pose proof (zlen_nonneg rest).
    destruct (Z.leb_spec (zlen front + (zlen (concat (delta_bytes <$> d1)) +
      (zlen (concat (delta_bytes <$> d2)) + zlen rest))) (zlen front)) as [Hend|Hend].
    + assert (d1 = []) as -> by (apply zlen_0_nil_le; lia).
      assert (d2 = []) as -> by (apply zlen_0_nil_le; lia). cbn [app mret res_ret fmap list_fmap concat].
      change (zlen (@nil Z) + zlen (@nil Z)) with 0. by rewrite Z.add_0_r.
    + rewrite sub_app by done. cbn [mbind res_bind]. rewrite (AddDeltas_ok c n d1) by done.
      cbn [mbind res_bind]. specialize (IH (front ++ concat (delta_bytes <$> d1)) d2 rest _ Hw H2).
      rewrite <- app_assoc, zlen_app in IH. rewrite IH. cbn [mbind res_bind mret res_ret].
      by rewrite Z.add_assoc.
Qed.

Lemma deltas_match_of l : forall prev last,
  Forall (fun d => - maxPacketDelta <= d <= maxPacketDelta) (deltas_of prev last l) ->
  deltas_match (statuses_of prev last l) (deltas_of prev last l).
Proof.
  induction l as [|[seq ts] l IH]; intros prev last; cbn [deltas_of statuses_of]; [done|].
  destruct (IsSeqHigherThan 16 seq prev); [|apply IH]. intros Hd.
  apply list.Forall_cons in Hd as [Hd Hl].
  apply deltas_match_app. exists [], ((ts - last) * 4 :: deltas_of seq ts l). split_and!; [done|..].
  - generalize (Z.to_nat (gap prev seq)) as j. induction j as [|j IHj]; [done|]. by split.
  - cbn [deltas_match]. set (d := (ts - last) * 4) in *.
    replace (received (delta_status d)) with true by (unfold delta_status; by destruct (_ && _)).
    exists d, (deltas_of seq ts l). unfold maxPacketDelta in Hd. pow2_consts.
    split_and!; [done|done|lia|lia|by apply IH].
Qed.

Lemma chunks_wire_app cs l n :
  Forall (chunk_full 8191) cs -> zlen (cs ≫= chunk_statuses) <= n ->
  chunks_wire l (n - zlen (cs ≫= chunk_statuses)) -> chunks_wire (cs ++ l) n.
Proof.
  intros Hcs. revert n. induction Hcs as [|c cs Hc _ IH]; intros n Hn Hl.
  - cbn in Hl. by rewrite Z.sub_0_r in Hl.
  - cbn [app chunks_wire]. cbn [mbind list_bind] in Hn, Hl.
    change (list_bind Chunk Status chunk_statuses cs) with (cs ≫= chunk_statuses) in Hn, Hl.
    rewrite zlen_app in Hn, Hl. pose proof (zlen_nonneg (cs ≫= chunk_statuses)).
    split_and!; [|lia|].
    + destruct c; cbn [chunk_full chunk_wire chunk_statuses] in *; [done|done|].
      split; [tauto|]. left. lia.
    + apply IH; [lia|]. by rewrite <- Z.sub_add_distr.
Qed.

Lemma finished_wire p sts ds : finished 8191 p sts ds -> chunks_wire (chunks p) (zlen sts).
Proof.
  intros [_ <- _ (cs & l & E & Hcs & Hl) _ _ _ _]. unfold chunked. rewrite E, bind_app, zlen_app.
  apply chunks_wire_app; [done|pose proof (zlen_nonneg (l ≫= chunk_statuses)); lia|].
  rewrite Z.add_simpl_l. destruct Hl as [->|(v & -> & Hv & Hok)]; [done|].
  cbn [mbind list_bind chunk_statuses]. rewrite app_nil_r. cbn [chunks_wire chunk_wire chunk_statuses].
  split_and!; [done|right; lia|lia|lia].
Qed.

Lemma zlen_chunks_wire cs n : chunks_wire cs n -> zlen cs <= n.
Proof.
  revert n. induction cs as [|c cs IH]; intros n; cbn [chunks_wire]; [by intros ->|].
  intros (Hc & _ & Hw). apply chunk_wire_pos in Hc. apply IH in Hw. rewrite zlen_cons. lia.
Qed.

Lemma zlen_delta_bytes_le ds : zlen (concat (delta_bytes <$> ds)) <= 2 * zlen ds.
Proof.
  induction ds as [|d ds IH]; [done|]. cbn [fmap list_fmap concat]. rewrite zlen_cons, zlen_app.
  assert (zlen (delta_bytes d) <= 2) by (unfold delta_bytes; by destruct (_ && _)). lia.
Qed.

(** The fields that are written. *)
Record fields_ok (p : t) : Prop := {
  ok_ssrcs : fits 32 (senderSsrc p) /\ fits 32 (mediaSsrc p);
  ok_base : fits 16 (baseSequenceNumber p);
  ok_reftime : fits 24 (referenceTime p);
  ok_fb : fits 8 (feedbackPacketCount p);
}.

(** What a packet and the one parsed from its bytes have in common. *)
Record same_feedback (p q : t) : Prop := {
  same_ssrcs : senderSsrc q = senderSsrc p /\ mediaSsrc q = mediaSsrc p;
  same_base : baseSequenceNumber q = baseSequenceNumber p;
  same_reftime : referenceTime q = referenceTime p;
  same_count : packetStatusCount q = packetStatusCount p;
  same_fb : feedbackPacketCount q = feedbackPacketCount p;
  same_chunks : chunks q = chunks p;
  same_deltas : deltas q = deltas p;
  same_size : GetSize q = GetSize p;
}.

Lemma same_feedback_results p q : same_feedback p q -> GetPacketResults q = GetPacketResults p.
Proof. intros []. unfold GetPacketResults. congruence. Qed.

(** The four fields after the feedback header. *)
Lemma make_fields front b c r f rest :
  fits 16 b -> fits 16 c -> fits 24 r -> fits 8 f ->
  let data := Byte.be2 b ++ Byte.be2 c ++ Byte.be3 r ++ [u8 f] ++ rest in
  Byte.Get2Bytes data 0 = Ok b /\ Byte.Get2Bytes data 2 = Ok c /\ Byte.Get3Bytes data 4 = Ok r /\
  Byte.Get1Byte data 7 = Ok f /\ sub (front ++ data) (zlen front) = Ok data /\
  bytes_at data fixedHeaderSize (zlen rest) = Ok rest.
Proof.
  intros Hb Hc Hr Hf data. unfold data. split_and!.
  - by rewrite Get2Bytes_front, uwrap_id.
  - rewrite (Get2Bytes_app (Byte.be2 b) _ 0) by done. by rewrite Get2Bytes_front, uwrap_id.
  - rewrite (app_assoc (Byte.be2 b)), (Get3Bytes_app (Byte.be2 b ++ Byte.be2 c) _ 0) by done.
    by rewrite Get3Bytes_front, uwrap_id.
  - rewrite <- (uwrap_id 8 f Hf) at 2. done.
  - by rewrite sub_app.
  - rewrite <- (app_nil_r rest) at 1. rewrite !app_assoc, <- (app_assoc _ rest []).
    by apply bytes_at_app.
Qed.

Lemma finished_Serialize p sts ds :
  finished 8191 p sts ds -> zlen sts < 2 ^ 16 -> zlen ds <= 2 ^ 15 ->
  exists b,
    let content := b ++ concat (delta_bytes <$> ds) ++ zeros (padding4 (zlen b + zlen (concat (delta_bytes <$> ds)))) in
    serialize_chunks (chunks p) = Ok b /\
    GetSize p = 20 + zlen content /\ GetSize p mod 4 = 0 /\ GetSize p / 4 <= 2 ^ 16 /\
    Serialize p = Ok (p,
      FeedbackPacket.serialize_header Packet.RTPFB 15 (senderSsrc p) (mediaSsrc p) (GetSize p) ++
      Byte.be2 (baseSequenceNumber p) ++ Byte.be2 (packetStatusCount p) ++
      Byte.be3 (referenceTime p) ++ [u8 (feedbackPacketCount p)] ++ content).
Proof.
  intros Hf Hn Hds. pose proof (finished_wire _ _ _ Hf) as Hw.
  destruct (parse_chunks_ok (chunks p) (length (chunks p)) [] [] (zlen sts) 0 0) as (b & Hb & Hlen & _);
    [by rewrite Z.sub_0_r|split; [lia|apply zlen_nonneg]|lia|lia|lia|].
  exists b. intros content. destruct Hf as [Hc _ Hd _ _ Hs Hu _].
  pose proof (zlen_chunks_wire _ _ Hw). pose proof (zlen_delta_bytes_le ds).
  pose proof (zlen_nonneg b) as Hb0. pose proof (zlen_nonneg (concat (delta_bytes <$> ds))) as Hd0.
  set (w := zlen b + zlen (concat (delta_bytes <$> ds))) in *.
  assert (Hsize : GetSize p = 20 + w + padding4 (20 + w)).
  { unfold GetSize, padded_size. rewrite Hu. cbn [Z.eqb negb]. rewrite Hs.
    change Packet.CommonHeaderSize with 4. change FeedbackPacket.HeaderSize with 8.
    change fixedHeaderSize with 8.
    by replace (4 + 8 + 8 + (2 * zlen (chunks p) + zlen (concat (delta_bytes <$> ds))) + 0) with (20 + w) by lia. }
  assert (Hpad : padding4 (20 + w) = padding4 w).
  { rewrite !padding4_mod. replace (- (20 + w)) with (- w + (-5) * 4) by lia. by rewrite Z.mod_add. }
  assert (Hcontent : zlen content = w + padding4 w).
  { unfold content. rewrite !zlen_app, zlen_zeros by apply padding4_nonneg. lia. }
  split_and!; [done|lia| | |].
  - rewrite Hsize, padding4_mod. Z.div_mod_to_equations. lia.
  - rewrite Hsize, padding4_mod. pow2_consts. Z.div_mod_to_equations. lia.
  - unfold Serialize, AddPendingChunks. rewrite Hc. cbn [mbind res_bind mret res_ret].
    rewrite Hb. cbn [mbind res_bind mret res_ret]. rewrite Hd. do 2 f_equal.
    rewrite <- !app_assoc. unfold content. do 7 f_equal. f_equal. rewrite <- Hpad. f_equal.
    rewrite !zlen_app, zlen_serialize_header, !zlen_be2, zlen_be3.
    change (zlen [u8 (feedbackPacketCount p)]) with 1. lia.
Qed.

(** The chunks and the deltas are read back from the bytes they are written in. *)
Lemma finished_content p sts ds b tail :
  finished 8191 p sts ds -> deltas_match sts ds -> zlen sts < 2 ^ 16 -> serialize_chunks (chunks p) = Ok b ->
  let content := b ++ concat (delta_bytes <$> ds) ++ tail in
  parse_chunks (length content) content (zlen sts) 0 0 0 =
    Ok (Some (chunks p, zlen b, zlen sts, count_received sts)) /\
  parse_deltas (chunks p) content (zlen b) =
    Ok (Some (ds, zlen b + zlen (concat (delta_bytes <$> ds)))).
Proof.
  intros Hf Hm Hn Hb content. pose proof (finished_wire _ _ _ Hf) as Hw.
  assert (zlen b = 2 * zlen (chunks p)) as Hz.
  { destruct (parse_chunks_ok (chunks p) (length (chunks p)) [] [] (zlen sts) 0 0)
      as (b' & Hb' & Hblen & _); [by rewrite Z.sub_0_r|split; [lia|apply zlen_nonneg]|lia..|].
    congruence. }
  split.
  - destruct (parse_chunks_ok (chunks p) (length content) [] (concat (delta_bytes <$> ds) ++ tail) (zlen sts) 0 0)
      as (b' & Hb' & _ & Hpc); [by rewrite Z.sub_0_r|split; [lia|apply zlen_nonneg]|lia|lia| |].
    { apply Nat2Z.inj_le. change (zlen (chunks p) <= zlen content). unfold content. rewrite zlen_app.
      match goal with |- _ <= _ + zlen ?x => pose proof (zlen_nonneg x) end.
      pose proof (zlen_nonneg (chunks p)). lia. }
    rewrite Hb in Hb'. injection Hb' as <-. cbn [app] in Hpc. change (zlen []) with 0 in Hpc.
    fold content in Hpc. rewrite Hpc, !Z.add_0_l.
    change (chunks p ≫= chunk_statuses) with (chunked p). by rewrite (f_statuses _ _ _ _ Hf).
  - unfold content. apply (parse_deltas_ok _ _ _ _ (zlen sts)); [done|].
    change (chunks p ≫= chunk_statuses) with (chunked p). by rewrite (f_statuses _ _ _ _ Hf).
Qed.

(** A finished packet is written in [GetSize] bytes and parsed back. *)
Lemma finished_roundtrip p sts ds :
  finished 8191 p sts ds -> deltas_match sts ds -> zlen sts < 2 ^ 16 -> zlen ds <= 2 ^ 15 ->
  fields_ok p ->
  exists out q, Serialize p = Ok (p, out) /\ zlen out = GetSize p /\ Parse out = Ok (Some q) /\
    same_feedback p q.
Proof.
  intros Hf Hm Hn Hds [[Hs1 Hs2] Hbase Href Hfb].
  destruct (finished_Serialize p sts ds Hf Hn Hds) as (b & Hb & Hsize & Hmod & Hdiv & Hser).
  set (content := b ++ _) in *. set (hdr := FeedbackPacket.serialize_header _ _ _ _ _) in *.
  assert (Hcnt : packetStatusCount p = zlen sts).
  { rewrite (f_count _ _ _ _ Hf). apply uwrap_id. split; [apply zlen_nonneg|lia]. }
  eexists. eexists. split; [exact Hser|].
  assert (Hcfit : fits 16 (packetStatusCount p)) by (rewrite Hcnt; split; [apply zlen_nonneg|done]).
  destruct (make_fields hdr _ _ _ _ content Hbase Hcfit Href Hfb) as (F1 & F2 & F3 & F4 & F5 & F6).
  set (data := Byte.be2 _ ++ _) in *.
  assert (Hlen : zlen (hdr ++ data) = GetSize p).
  { unfold data. rewrite !zlen_app, !zlen_be2, zlen_be3, Hsize.
    change (zlen hdr) with 12. change (zlen [u8 (feedbackPacketCount p)]) with 1. lia. }
  split; [exact Hlen|]. pose proof (zlen_nonneg content) as Hc0.
  unfold Parse, make. rewrite Hlen, (proj2 (Z.ltb_ge _ _))
    by (change (Packet.CommonHeaderSize + FeedbackPacket.HeaderSize + fixedHeaderSize) with 20; lia).
  assert (Hl : Packet.hdr_length (hdr ++ data) = Ok (GetSize p / 4 - 1)).
  { unfold hdr, FeedbackPacket.serialize_header. rewrite <- app_assoc, hdr_length_Serialize.
    f_equal. apply uwrap_id. unfold fits. Z.div_mod_to_equations. lia. }
  rewrite Hl. cbn [mbind res_bind].
  replace ((GetSize p / 4 - 1 + 1) * 4) with (GetSize p) by (Z.div_mod_to_equations; lia).
  rewrite (proj2 (Z.ltb_ge (GetSize p) (GetSize p))) by lia.
  assert (Hrh : FeedbackPacket.read_header (hdr ++ data) = Ok (15, senderSsrc p, mediaSsrc p))
    by (apply read_header_serialized; done || lia).
  rewrite Hrh. cbn [mbind res_bind].
  change (Packet.CommonHeaderSize + FeedbackPacket.HeaderSize) with (zlen hdr).
  rewrite F5. cbn [mbind res_bind]. rewrite F1, F2. cbn [mbind res_bind]. rewrite F3, F4.
  cbn [mbind res_bind].
  replace (u64 (GetSize p - Packet.CommonHeaderSize - FeedbackPacket.HeaderSize - fixedHeaderSize))
    with (zlen content).
  2: { change Packet.CommonHeaderSize with 4. change FeedbackPacket.HeaderSize with 8.
       change fixedHeaderSize with 8. rewrite Hsize. symmetry.
       replace (20 + zlen content - 4 - 8 - 8) with (zlen content) by lia. apply uwrap_id.
       unfold fits. pow2_consts. Z.div_mod_to_equations. lia. }
  rewrite F6. cbn [mbind res_bind]. rewrite Hcnt.
  destruct (finished_content p sts ds b (zeros (padding4 (zlen b + zlen (concat (delta_bytes <$> ds)))))
    Hf Hm Hn Hb) as [Hpc Hpd].
  fold content in Hpc, Hpd. rewrite Hpc. cbn [mbind res_bind]. rewrite Z.eqb_refl. cbn [negb]. rewrite Hpd.
  cbn [mbind res_bind]. rewrite (zlen_deltas_match _ _ Hm), Z.eqb_refl. cbn [negb].
  split; [done|]. split; try done; cbn [deltas packetStatusCount].
  - by rewrite (f_deltas _ _ _ _ Hf).
  - unfold GetSize at 1. cbn [size]. destruct (Z.eqb_spec (GetSize p) 0); [lia|done].
Qed.

(** C6: Transport-wide feedback survives the wire: a packet built from accepted packets
    with gaps of at most 8191 and fewer than 65536 statuses is written by [Serialize] in
    [GetSize] bytes, and [Parse] of these bytes gives a packet with the same chunks,
    deltas and fields, whose [GetPacketResults] are the arrivals that were reported. *)
Theorem feedback_wire_roundtrip s m seq0 t0 l maxLen p :
  fits 32 s -> fits 32 m -> packet_ok (seq0, t0) -> 64 <= t0 -> Forall packet_ok l ->
  maxLen <= 8191 -> gaps_within 8191 seq0 l = true ->
  zlen (statuses_of seq0 (t0 / 64 * 64) l) < 2 ^ 16 ->
  add_all (create s m) ((seq0, t0) :: l) maxLen = Ok (Some p) ->
  exists p' out q, Finish p = Ok p' /\ Serialize p' = Ok (p', out) /\ zlen out = GetSize p' /\
    Parse out = Ok (Some q) /\ same_feedback p' q /\
    GetPacketResults q = Ok (expected (t0 / 2 ^ 29 * 2 ^ 29) seq0 (t0 / 64 * 64) l).
Proof.
  intros Hs Hm Hp Ht0 Hl Hmax Hg Hn H.
  destruct (add_all_finished 8191 s m seq0 t0 l maxLen p)
    as (p' & Hf & Hfin & Hb & Hr & Es & Em & Ef & Hd); [lia|done..|].
  destruct (finished_roundtrip p' _ _ Hfin) as (out & q & H1 & H2 & H3 & H4).
  - by apply deltas_match_of.
  - done.
  - pose proof (f_many _ _ _ _ Hfin). lia.
  - split; rewrite ?Es, ?Em, ?Hb, ?Hr, ?Ef; [done|apply uwrap_fits; lia| |done].
    unfold fits. change (2 ^ 29) with 536870912. pow2_consts. Z.div_mod_to_equations. lia.
  - exists p', out, q. split_and!; [done..|].
    rewrite (same_feedback_results p' q H4). unfold GetPacketResults.
    destruct Hp as (Hs0 & _). cbn in Hs0.
    rewrite fill_chunks_eq, Hb, Hr, (f_deltas _ _ _ _ Hfin).
    change (chunks p' ≫= chunk_statuses) with (chunked p'). rewrite (f_statuses _ _ _ _ Hfin).
    by apply results_from_base.
Qed.

Lemma feedback_wire_roundtrip_witness :
  exists p p' out q,
    add_all (create 1 2) [(65530, 1000000100); (65531, 1000000110); (65529, 1000000112);
                          (40, 1000000250); (41, 1000000249)] 1500 = Ok (Some p) /\
    Finish p = Ok p' /\ Serialize p' = Ok (p', out) /\ zlen out = GetSize p' /\
    Parse out = Ok (Some q) /\ same_feedback p' q /\
    GetPacketResults q =
      Ok (expected 536870912 65530 1000000064 [(65531, 1000000110); (65529, 1000000112);
                          (40, 1000000250); (41, 1000000249)]).
Proof.
  destruct (add_all (create 1 2) [(65530, 1000000100); (65531, 1000000110); (65529, 1000000112);
                          (40, 1000000250); (41, 1000000249)] 1500) as [[p|]|] eqn:E;
    [|vm_compute in E; discriminate E..].
  destruct (feedback_wire_roundtrip 1 2 65530 1000000100 [(65531, 1000000110); (65529, 1000000112);
                          (40, 1000000250); (41, 1000000249)] 1500 p) as (p' & out & q & H);
    [by apply (bool_decide_unpack _)|by apply (bool_decide_unpack _)|
     by apply (bool_decide_unpack _)|lia|by apply (bool_decide_unpack _)|lia|
     reflexivity|vm_compute; reflexivity|exact E|].
  exists p, p', out, q. split; [reflexivity|exact H].
Defined.

(** ** Parsing reads nothing outside of the packet *)

Lemma bit_set v k m :
  0 <= k -> (Z.land (Z.shiftr v k) 1 =? 0) = false -> Z.testbit m k = true ->
  negb (Z.land v m =? 0) = true.
Proof.
  intros Hk H Hm. rewrite (land_nonzero v m k); [done|done|done|].
  rewrite (land_mask _ 1 1), Z.shiftr_div_pow2 in H by lia. apply Z.eqb_neq in H.
  change (2 ^ 1) with 2 in H. pose proof (Z.mod_pos_bound (v / 2 ^ k) 2 ltac:(lia)). lia.
Qed.

(** A parsed run counts a number of statuses. *)
Definition chunk_parsed (c : Chunk) : Prop :=
  match c with RunLengthChunk _ n => 0 <= n | _ => True end.

Lemma Chunk_Parse_safe data count :
  exists r, Chunk_Parse data count = Ok r /\ (forall c, r = Some c -> chunk_parsed c).
Proof.
  unfold Chunk_Parse. destruct (Z.ltb_spec (zlen data) 2); [by eexists|].
  destruct (Get2Bytes_safe data 0) as [v ->]; [lia..|]. cbn [mbind res_bind].
  destruct (Z.land (Z.shiftr v 15) 1 =? 0) eqn:E15.
  - assert (0 <= Z.land v 0x1FFF) by (apply Z.land_nonneg; lia).
    destruct (status_of_code _); eexists; (split; [done|]); intros c; by intros [= <-] || intros [=].
  - destruct (read_in_range data 0) as (b0 & -> & _); [lia|]. cbn [mbind res_bind].
    destruct (Z.land b0 0x40 =? 0); (rewrite (bit_set v 15) by done); eexists;
      (split; [done|]); by intros c [= <-].
Qed.

Lemma tcc_parse_chunks_safe fuel : forall content total offset count rcount,
  0 <= offset <= zlen content -> zlen content - offset <= Z.of_nat fuel ->
  exists r, parse_chunks fuel content total offset count rcount = Ok r /\
    (forall cs o n m, r = Some (cs, o, n, m) -> Forall chunk_parsed cs /\ 0 <= o <= zlen content).
Proof.
  induction fuel as [|fuel IH]; intros content total offset count rcount Ho Hf; cbn [parse_chunks];
    (destruct ((count <? total) && (offset <? zlen content)) eqn:E;
     [|eexists; split; [done|]; intros cs o n m [= <- <- <- <-]; by split; [constructor|]]).
  - apply andb_true_iff in E as [_ E%Z.ltb_lt]. lia.
  - destruct (Z.ltb_spec (zlen content - offset) 2); [by eexists|].
    rewrite sub_ok by lia. cbn [mbind res_bind].
    destruct (Chunk_Parse_safe (drop (Z.to_nat offset) content) (u16 (total - count)))
      as ([c|] & -> & Hc); [|by eexists]. cbn [mbind res_bind].
    destruct (IH content total (offset + 2) (u16 (count + GetCount c))
      (u16 (rcount + GetReceivedStatusCount c))) as (r & -> & Hr); [lia|lia|].
    cbn [mbind res_bind mret res_ret]. eexists. split; [done|].
    destruct r as [[[[cs' o'] n'] m']|]; [|done]. intros cs o n m [= <- <- <- <-].
    destruct (Hr _ _ _ _ eq_refl). split; [|done]. constructor; [by apply Hc|done].
Qed.

Lemma read_small_safe n : forall data offset,
  0 <= offset -> offset + Z.of_nat n <= zlen data ->
  exists ds, read_small n data offset = Ok (ds, offset + Z.of_nat n).
Proof.
  induction n as [|n IH]; intros data offset Ho Hn; cbn [read_small].
  { eexists. cbn. by rewrite Z.add_0_r. }
  destruct (Get1Byte_safe data offset) as [v ->]; [lia|]. cbn [mbind res_bind].
  destruct (IH data (offset + 1)) as (ds & ->); [lia|lia|]. eexists. cbn [mbind res_bind mret res_ret].
  do 2 f_equal. lia.
Qed.

Lemma read_large_safe n : forall data offset,
  0 <= offset -> offset + 2 * Z.of_nat n <= zlen data ->
  exists ds, read_large n data offset = Ok (ds, offset + 2 * Z.of_nat n).
Proof.
  induction n as [|n IH]; intros data offset Ho Hn; cbn [read_large].
  { eexists. cbn. by rewrite Z.add_0_r. }
  destruct (Get2Bytes_safe data offset) as [v ->]; [lia..|]. cbn [mbind res_bind].
  destruct (IH data (offset + 2)) as (ds & ->); [lia|lia|]. eexists. cbn [mbind res_bind mret res_ret].
  do 2 f_equal. lia.
Qed.

Lemma read_vector_safe one_bit l : forall data len offset,
  0 <= offset -> offset + len <= zlen data -> 0 <= len ->
  exists r, read_vector one_bit l data len offset = Ok r /\
    (forall ds o, r = Some (ds, o) -> 0 <= o <= zlen data).
Proof.
  induction l as [|s l IH]; intros data len offset Ho Hl H0; cbn [read_vector].
  { eexists. split; [done|]. intros ds o [= <- <-]. lia. }
  destruct s.
  - by apply IH.
  - destruct (Z.ltb_spec len 1); [by eexists|].
    destruct (Get1Byte_safe data offset) as [v ->]; [lia|]. cbn [mbind res_bind].
    destruct (IH data (len - 1) (offset + 1)) as (r & -> & Hr); [lia..|]. eexists. split; [done|].
    destruct r as [[ds' o']|]; [|done]. intros ds o [= <- <-]. by eapply Hr.
  - destruct one_bit; [by eexists|]. destruct (Z.ltb_spec len 2); [by eexists|].
    destruct (Get2Bytes_safe data offset) as [v ->]; [lia..|]. cbn [mbind res_bind].
    destruct (IH data (len - 2) (offset + 2)) as (r & -> & Hr); [lia..|]. eexists. split; [done|].
    destruct r as [[ds' o']|]; [|done]. intros ds o [= <- <-]. by eapply Hr.
  - destruct one_bit; [by eexists|by apply IH].
  - destruct one_bit; [by eexists|by apply IH].
Qed.

Lemma AddDeltas_safe c data :
  chunk_parsed c ->
  exists r, AddDeltas c data = Ok r /\ (forall ds o, r = Some (ds, o) -> 0 <= o <= zlen data).
Proof.
  intros Hc. pose proof (zlen_nonneg data). destruct c as [s n|l|l]; cbn [AddDeltas chunk_parsed] in *.
  - destruct s; try (eexists; split; [done|]; intros ds o [= <- <-]; lia).
    + destruct (Z.ltb_spec (zlen data) (n * 1)); [by eexists|].
      destruct (read_small_safe (Z.to_nat n) data 0) as (ds & ->); [lia..|].
      eexists. split; [done|]. intros ds' o [= <- <-]. lia.
    + destruct (Z.ltb_spec (zlen data) (n * 2)); [by eexists|].
      destruct (read_large_safe (Z.to_nat n) data 0) as (ds & ->); [lia..|].
      eexists. split; [done|]. intros ds' o [= <- <-]. lia.
  - apply read_vector_safe; lia.
  - apply read_vector_safe; lia.
Qed.

Lemma parse_deltas_safe cs : forall content offset,
  Forall chunk_parsed cs -> 0 <= offset -> exists r, parse_deltas cs content offset = Ok r.
Proof.
  induction cs as [|c cs IH]; intros content offset Hcs Ho; cbn [parse_deltas]; [eauto|].
  apply list.Forall_cons in Hcs as [Hc Hcs].
  destruct (Z.leb_spec (zlen content) offset); [eauto|]. rewrite sub_ok by lia. cbn [mbind res_bind].
  destruct (AddDeltas_safe c (drop (Z.to_nat offset) content) Hc) as ([[ds o]|] & -> & Hr); [|eauto].
  cbn [mbind res_bind]. destruct (Hr _ _ eq_refl).
  destruct (IH content (offset + o)) as (r & ->); [done|lia|]. cbn. eauto.
Qed.

(** Parsing a packet whose announced length is the length of its bytes. *)
Lemma tcc_Parse_safe data n :
  Packet.hdr_length data = Ok n -> (n + 1) * 4 = zlen data -> exists r, Parse data = Ok r.
Proof.
  intros Hn Hl. unfold Parse.
  change (Packet.CommonHeaderSize + FeedbackPacket.HeaderSize + fixedHeaderSize) with 20.
  destruct (Z.ltb_spec (zlen data) 20); [eauto|]. unfold make. rewrite Hn. cbn [mbind res_bind].
  rewrite Hl, Z.ltb_irrefl.
  destruct (read_header_safe data) as [[[mt s] m] ->]; [lia|]. cbn [mbind res_bind].
  change (Packet.CommonHeaderSize + FeedbackPacket.HeaderSize) with 12.
  rewrite sub_ok by lia. cbn [mbind res_bind]. set (d := drop (Z.to_nat 12) data).
  assert (Hd : zlen d = zlen data - 12) by (unfold d; rewrite zlen_drop; lia).
  destruct (Get2Bytes_safe d 0) as [base ->]; [lia..|]. cbn [mbind res_bind].
  destruct (Get2Bytes_safe d 2) as [cnt ->]; [lia..|]. cbn [mbind res_bind].
  destruct (Get3Bytes_safe d 4) as [ref ->]; [lia..|]. cbn [mbind res_bind].
  destruct (Get1Byte_safe d 7) as [fb ->]; [lia|]. cbn [mbind res_bind].
  set (k := u64 _).
  assert (Hk : 0 <= k <= zlen data - 20).
  { unfold k, uwrap. change Packet.CommonHeaderSize with 4. change FeedbackPacket.HeaderSize with 8.
    change fixedHeaderSize with 8. replace (zlen data - 4 - 8 - 8) with (zlen data - 20) by lia.
    split; [apply Z.mod_pos_bound; lia|apply Z.mod_le; lia]. }
  rewrite bytes_at_ok by (change fixedHeaderSize with 8; lia). cbn [mbind res_bind].
  set (content := take _ _).
  destruct (tcc_parse_chunks_safe (length content) content cnt 0 0 0)
    as ([[[[cs o] cn] rc]|] & -> & Hr); [split; [lia|apply zlen_nonneg]|unfold zlen; lia| |eauto].
  cbn [mbind res_bind]. destruct (negb (cn =? cnt)); [eauto|]. destruct (Hr _ _ _ _ eq_refl).
  destruct (parse_deltas_safe cs content o) as ([[ds o']|] & ->); [done|lia| |eauto].
  cbn [mbind res_bind]. destruct (negb (zlen ds =? rc)); eauto.
Qed.

(** ** Where the code falls short *)

(** 18 chunks: 65536 received packets, then 65535 missing ones, and no delta. *)
Definition counters_wrap_packet : list Z :=
  FeedbackPacket.serialize_header Packet.RTPFB 15 1 2 56 ++
  Byte.be2 1 ++ Byte.be2 65535 ++ Byte.be3 0 ++ [0] ++
  concat (replicate 8 (Byte.be2 (0x2000 + 8191))) ++ Byte.be2 (0x2000 + 8) ++
  concat (replicate 8 (Byte.be2 8191)) ++ Byte.be2 7.

Lemma fill_times_no_deltas s n cs k now :
  received s = true -> 1 <= n ->
  fill_times (fill_chunks (RunLengthChunk s n :: cs) k) [] now = Fault OutOfBounds.
Proof.
  intros Hs Hn. cbn [fill_chunks chunk_statuses].
  replace (Z.to_nat n) with (S (Z.to_nat (n - 1))) by lia. cbn [replicate fill_results].
  destruct (fill_results _ _) as [rs m]. cbn [app fill_times is_received]. by rewrite Hs.
Qed.

(** A remote peer can stop the worker: this packet of 56 bytes announces 65535
    statuses with chunks that count 131071 (the counters of the parser are 16 bits
    wide) and carries no delta at all; it is accepted, and [GetPacketResults], which the
    congestion controller calls on it, reads the first delta of an empty vector. *)
Theorem counters_wrap_crash :
  exists p, Parse counters_wrap_packet = Ok (Some p) /\ deltas p = [] /\
    GetPacketResults p = Fault OutOfBounds.
Proof.
  eexists. split; [vm_compute; reflexivity|]. split; [done|]. unfold GetPacketResults.
  cbn [chunks deltas]. by apply fill_times_no_deltas.
Qed.

(** The test on the number of missing packets is not made modulo 2^16: when the
    sequence numbers wrap within the gap, a gap of 25535 packets is accepted (without a
    wrap it is fatal), its run length is cut to 13 bits, and the feedback that is sent
    cannot be parsed. *)
Theorem wrapped_gap_unparsable :
  (exists p p' out,
     add_all (create 1 2) [(60000, 10000000); (20000, 10000010)] 1500 = Ok (Some p) /\
     Finish p = Ok p' /\ Serialize p' = Ok (p', out) /\ Parse out = Ok None) /\
  add_all (create 1 2) [(10000, 10000000); (35536, 10000010)] 1500 = Ok None.
Proof.
  split; [|vm_compute; reflexivity].
  do 3 eexists. split; [vm_compute; reflexivity|]. split; [vm_compute; reflexivity|].
  split; [vm_compute; reflexivity|]. vm_compute. reflexivity.
Qed.

(** The size check of [AddPacket] reserves 4 bytes for a packet, which may need three
    chunks, its delta and a pending chunk: with a limit of 32 bytes, packets are all
    accepted and the finished feedback takes 40 bytes. *)
Theorem size_limit_exceeded :
  exists p p',
    add_all (create 1 2)
      [(100, 10000064); (101, 10000065); (102, 10000066); (103, 10000067); (104, 10000068);
       (105, 10000069); (106, 10000070); (107, 10000071); (108, 10000072); (150, 10000084)] 32 =
      Ok (Some p) /\
    Finish p = Ok p' /\ GetSize p' = 40.
Proof.
  do 2 eexists. split; [vm_compute; reflexivity|]. split; [vm_compute; reflexivity|].
  vm_compute. reflexivity.
Qed.

End FeedbackRtpTransport.
