(* ===== verification/RtcpXr.v ===== *)
(** * Extended reports

    Models [worker/src/RTC/RTCP/XR.cpp], [XrDelaySinceLastRr.cpp],
    [XrReceiverReferenceTime.cpp] and their headers: the extended report packet with
    its receiver reference time and delay since last RR blocks. *)

From S2P Require Import Prelude Utils RtcpPacket.

Module ReceiverReferenceTime.

Definition BodySize : Z := 8.

(** A block is its body, [{ ntpSec; ntpFrac }]. *)
Record t := { body : list Z }.

Definition Parse (data : list Z) : res (option t) :=
  if zlen data <? 4 + BodySize then mret None
  else b ← bytes_at data 4 BodySize; mret (Some {| body := b |}).

Definition GetNtpSec (r : t) : res Z := Byte.Get4Bytes (body r) 0.
Definition SetNtpSec (r : t) (v : Z) : res t :=
  b ← Byte.Set4Bytes (body r) 0 v; mret {| body := b |}.
Definition GetNtpFrac (r : t) : res Z := Byte.Get4Bytes (body r) 4.
Definition SetNtpFrac (r : t) (v : Z) : res t :=
  b ← Byte.Set4Bytes (body r) 4 v; mret {| body := b |}.

Definition GetSize (r : t) : Z := 4 + BodySize.
Definition Serialize (r : t) : list Z := [4; 0] ++ Byte.be2 2 ++ body r.

End ReceiverReferenceTime.

Module DelaySinceLastRr.

Definition BodySize : Z := 12.

(** [SsrcInfo::Parse]: a sub-block is its body, [{ ssrc; lrr; dlrr }]. *)
Definition SsrcInfo_Parse (data : list Z) : option (list Z) :=
  if zlen data <? BodySize then None else Some (take (Z.to_nat BodySize) data).

Definition GetSsrc (info : list Z) : res Z := Byte.Get4Bytes info 0.
Definition SetSsrc (info : list Z) (v : Z) : res (list Z) := Byte.Set4Bytes info 0 v.
Definition GetLastReceiverReport (info : list Z) : res Z := Byte.Get4Bytes info 4.
Definition SetLastReceiverReport (info : list Z) (v : Z) : res (list Z) :=
  Byte.Set4Bytes info 4 v.
Definition GetDelaySinceLastReceiverReport (info : list Z) : res Z := Byte.Get4Bytes info 8.
Definition SetDelaySinceLastReceiverReport (info : list Z) (v : Z) : res (list Z) :=
  Byte.Set4Bytes info 8 v.

Record t := { ssrcInfos : list (list Z) }.

(** The loop over the sub-blocks, which advances the offset twice for each. *)
Fixpoint parse_infos (fuel : nat) (data : list Z) (offset reportLength : Z) : res (list (list Z)) :=
  if (offset <? zlen data) && (BodySize <=? reportLength) then
    match fuel with
    | O => Fault OutOfFuel
    | S fuel' =>
        d ← sub data offset;
        match SsrcInfo_Parse d with
        | Some info =>
            let offset := offset + BodySize in
            let offset := offset + BodySize in
            rest ← parse_infos fuel' data offset (u16 (reportLength - BodySize));
            mret (info :: rest)
        | None => mret []
        end
    end
  else mret [].

Definition Parse (data : list Z) : res t :=
  length ← Byte.Get2Bytes data 2;
  infos ← parse_infos (List.length data) data 4 (u16 (length * 4));
  mret {| ssrcInfos := infos |}.

Definition GetSize (r : t) : Z := 4 + BodySize * zlen (ssrcInfos r).

Definition Serialize (r : t) : list Z :=
  [5; 0] ++ Byte.be2 (u16 (BodySize * zlen (ssrcInfos r) / 4)) ++ concat (ssrcInfos r).

End DelaySinceLastRr.

Module ExtendedReportBlock.

Inductive t :=
| RRT (r : ReceiverReferenceTime.t)
| DLRR (r : DelaySinceLastRr.t).

Definition Parse (data : list Z) : res (option t) :=
  if zlen data <? Packet.CommonHeaderSize then mret None
  else
    blockType ← read data 0;
    if blockType =? 4 then
      r ← ReceiverReferenceTime.Parse data; mret (RRT <$> r)
    else if blockType =? 5 then
      r ← DelaySinceLastRr.Parse data; mret (Some (DLRR r))
    else mret None.

Definition GetSize (b : t) : Z :=
  match b with RRT r => ReceiverReferenceTime.GetSize r | DLRR r => DelaySinceLastRr.GetSize r end.

Definition Serialize (b : t) : list Z :=
  match b with
  | RRT r => ReceiverReferenceTime.Serialize r
  | DLRR r => DelaySinceLastRr.Serialize r
  end.

End ExtendedReportBlock.

Module ExtendedReportPacket.

Record t := { ssrc : Z; reports : list ExtendedReportBlock.t }.

Fixpoint parse_blocks (fuel : nat) (data : list Z) (offset : Z) : res (list ExtendedReportBlock.t) :=
  if offset <? zlen data then
    match fuel with
    | O => Fault OutOfFuel
    | S fuel' =>
        d ← sub data offset;
        r ← ExtendedReportBlock.Parse d;
        match r with
        | Some report =>
            rest ← parse_blocks fuel' data (offset + ExtendedReportBlock.GetSize report);
            mret (report :: rest)
        | None => mret []
        end
    end
  else mret [].

Definition Parse (data : list Z) : res (option t) :=
  if zlen data <? Packet.CommonHeaderSize + 4 then mret None
  else
    ssrc ← Byte.Get4Bytes data Packet.CommonHeaderSize;
    reports ← parse_blocks (List.length data) data (Packet.CommonHeaderSize + 4);
    mret (Some {| ssrc := ssrc; reports := reports |}).

Definition GetCount (p : t) : Z := 0.

Definition GetSize (p : t) : Z :=
  foldl (fun size r => size + ExtendedReportBlock.GetSize r) (Packet.CommonHeaderSize + 4) (reports p).

Definition Serialize (p : t) : list Z :=
  Packet.Serialize Packet.XR (GetCount p) (GetSize p) ++ Byte.be4 (ssrc p) ++
  concat (ExtendedReportBlock.Serialize <$> reports p).

End ExtendedReportPacket.

(** ** Safety *)

Module Xr.

Lemma parse_infos_safe fuel : forall data offset n,
  0 <= offset -> zlen data - offset <= Z.of_nat fuel ->
  exists l, DelaySinceLastRr.parse_infos fuel data offset n = Ok l.
Proof.
  induction fuel as [|fuel IH]; intros data offset n Ho Hf; cbn [DelaySinceLastRr.parse_infos];
    (destruct ((offset <? zlen data) && _) eqn:E; [|eauto]);
    apply andb_true_iff in E as [E%Z.ltb_lt _]; [lia|].
  rewrite sub_ok by lia. cbn [mbind res_bind].
  destruct (DelaySinceLastRr.SsrcInfo_Parse _); [|eauto].
  change DelaySinceLastRr.BodySize with 12.
  destruct (IH data (offset + 12 + 12) (u16 (n - 12))) as [l' ->]; [lia|lia|]. cbn. eauto.
Qed.

Lemma Block_Parse_safe data :
  exists r, ExtendedReportBlock.Parse data = Ok r.
Proof.
  unfold ExtendedReportBlock.Parse. change Packet.CommonHeaderSize with 4.
  destruct (Z.ltb_spec (zlen data) 4); [eauto|].
  destruct (read_in_range data 0) as (b & -> & _); [lia|]. cbn [mbind res_bind].
  destruct (b =? 4).
  - unfold ReceiverReferenceTime.Parse. change (4 + ReceiverReferenceTime.BodySize) with 12.
    destruct (Z.ltb_spec (zlen data) 12); [by eexists|].
    rewrite bytes_at_ok by (change ReceiverReferenceTime.BodySize with 8; lia). by eexists.
  - destruct (b =? 5); [|eauto]. unfold DelaySinceLastRr.Parse.
    destruct (Get2Bytes_safe data 2) as [n ->]; [lia..|]. cbn [mbind res_bind].
    destruct (parse_infos_safe (length data) data 4 (u16 (n * 4))) as [l ->];
      [lia|unfold zlen; lia|]. by eexists.
Qed.

Lemma block_size_pos b : 4 <= ExtendedReportBlock.GetSize b.
Proof.
  destruct b as [r|r]; [done|]. cbn. unfold DelaySinceLastRr.GetSize.
  pose proof (zlen_nonneg (DelaySinceLastRr.ssrcInfos r)).
  change DelaySinceLastRr.BodySize with 12. lia.
Qed.

Lemma parse_blocks_safe fuel : forall data offset,
  0 <= offset -> zlen data - offset <= Z.of_nat fuel ->
  exists l, ExtendedReportPacket.parse_blocks fuel data offset = Ok l.
Proof.
  induction fuel as [|fuel IH]; intros data offset Ho Hf; cbn [ExtendedReportPacket.parse_blocks];
    (destruct (Z.ltb_spec offset (zlen data)); [|eauto]); [lia|].
  rewrite sub_ok by lia. cbn [mbind res_bind].
  destruct (Block_Parse_safe (drop (Z.to_nat offset) data)) as [[b|] ->]; [|eauto].
  cbn [mbind res_bind]. pose proof (block_size_pos b).
  destruct (IH data (offset + ExtendedReportBlock.GetSize b)) as [l ->]; [lia|lia|]. cbn. eauto.
Qed.

Lemma xr_Parse_safe data : exists r, ExtendedReportPacket.Parse data = Ok r.
Proof.
  unfold ExtendedReportPacket.Parse. change (Packet.CommonHeaderSize + 4) with 8.
  destruct (Z.ltb_spec (zlen data) 8); [eauto|]. change Packet.CommonHeaderSize with 4.
  destruct (Get4Bytes_safe data 4) as [s ->]; [lia..|]. cbn [mbind res_bind].
  destruct (parse_blocks_safe (length data) data 8) as [l ->]; [lia|unfold zlen; lia|]. by eexists.
Qed.

(** ** Round trip *)

(** Blocks that are read back: a DLRR block has at most one sub-block, as those the
    worker sends. *)
Definition block_ok (b : ExtendedReportBlock.t) : Prop :=
  match b with
  | ExtendedReportBlock.RRT r => zlen (ReceiverReferenceTime.body r) = 8
  | ExtendedReportBlock.DLRR r =>
      zlen (DelaySinceLastRr.ssrcInfos r) <= 1 /\
      Forall (fun i => zlen i = 12) (DelaySinceLastRr.ssrcInfos r)
  end.

#[global] Instance block_ok_dec b : Decision (block_ok b).
Proof. destruct b; apply _. Defined.

Lemma zlen_block b : block_ok b -> zlen (ExtendedReportBlock.Serialize b) = ExtendedReportBlock.GetSize b.
Proof.
  destruct b as [[body]|[infos]]; cbn [block_ok ReceiverReferenceTime.body DelaySinceLastRr.ssrcInfos
    ExtendedReportBlock.Serialize ExtendedReportBlock.GetSize].
  - intros Hb. unfold ReceiverReferenceTime.Serialize. cbn [ReceiverReferenceTime.body].
    rewrite !zlen_app, Hb. done.
  - intros (Hn & Hi). unfold DelaySinceLastRr.Serialize, DelaySinceLastRr.GetSize.
    cbn [DelaySinceLastRr.ssrcInfos]. rewrite !zlen_app, zlen_be2.
    change (zlen [5; 0]) with 2. change DelaySinceLastRr.BodySize with 12. clear Hn.
    induction Hi as [|i infos Hi _ IH]; [done|]. cbn [concat]. rewrite zlen_app, zlen_cons. lia.
Qed.

Lemma Block_Parse_ok b rest :
  block_ok b -> ExtendedReportBlock.Parse (ExtendedReportBlock.Serialize b ++ rest) = Ok (Some b).
Proof.
  intros Hb. unfold ExtendedReportBlock.Parse. rewrite zlen_app, zlen_block by done.
  pose proof (block_size_pos b). pose proof (zlen_nonneg rest).
  rewrite (proj2 (Z.ltb_ge _ _)) by (change Packet.CommonHeaderSize with 4; lia).
  destruct b as [[body]|[infos]]; cbn [block_ok ReceiverReferenceTime.body DelaySinceLastRr.ssrcInfos
    ExtendedReportBlock.Serialize] in *.
  - unfold ReceiverReferenceTime.Serialize. cbn [ReceiverReferenceTime.body].
    change (read (([4; 0] ++ Byte.be2 2 ++ body) ++ rest) 0) with (Ok 4 : res Z).
    cbn [mbind res_bind Z.eqb Pos.eqb]. unfold ReceiverReferenceTime.Parse.
    rewrite !zlen_app, zlen_be2, Hb. change (zlen [4; 0]) with 2.
    change (4 + ReceiverReferenceTime.BodySize) with 12. rewrite (proj2 (Z.ltb_ge _ _)) by lia.
    rewrite app_assoc, <- app_assoc. by rewrite bytes_at_app.
  - unfold DelaySinceLastRr.Serialize. cbn [DelaySinceLastRr.ssrcInfos]. destruct Hb as (Hn & Hi).
    set (k := u16 (DelaySinceLastRr.BodySize * zlen infos / 4)).
    change (read (([5; 0] ++ Byte.be2 k ++ concat infos) ++ rest) 0) with (Ok 5 : res Z).
    cbn [mbind res_bind Z.eqb Pos.eqb]. unfold DelaySinceLastRr.Parse.
    rewrite <- !app_assoc, (Get2Bytes_app [5; 0] _ 0) by done. rewrite Get2Bytes_front.
    cbn [mbind res_bind].
    assert (Hk : u16 (u16 k * 4) = 12 * zlen infos).
    { unfold k. change DelaySinceLastRr.BodySize with 12. pose proof (zlen_nonneg infos). ulia. }
    rewrite Hk. destruct infos as [|i infos].
    + change (12 * zlen []) with 0. destruct (length _); cbn [DelaySinceLastRr.parse_infos];
        by destruct (4 <? _).
    + rewrite zlen_cons in Hn. assert (infos = []) as -> by
        (apply zlen_0_nil; pose proof (zlen_nonneg infos); lia).
      apply list.Forall_cons in Hi as [Hi _]. cbn [concat]. rewrite app_nil_r.
      change (12 * zlen [i]) with 12.
      assert (Hl : exists j, length ([5; 0] ++ Byte.be2 k ++ i ++ rest) = S j) by by eexists.
      destruct Hl as [j ->]. cbn [DelaySinceLastRr.parse_infos].
      rewrite (proj2 (Z.ltb_lt 4 _)) by (rewrite !zlen_app, Hi, zlen_be2; change (zlen [5; 0]) with 2; lia).
      change (DelaySinceLastRr.BodySize <=? 12) with true. cbn [andb].
      rewrite (app_assoc [5; 0]), sub_app by done. cbn [mbind res_bind].
      unfold DelaySinceLastRr.SsrcInfo_Parse. change DelaySinceLastRr.BodySize with 12.
      rewrite zlen_app, Hi, (proj2 (Z.ltb_ge _ 12)) by lia. change (u16 (12 - 12)) with 0.
      assert (Hend : forall o, DelaySinceLastRr.parse_infos j (([5; 0] ++ Byte.be2 k) ++ i ++ rest) o 0 = Ok []).
      { intros o. destruct j; cbn [DelaySinceLastRr.parse_infos];
          change (DelaySinceLastRr.BodySize <=? 0) with false; by rewrite andb_false_r. }
      rewrite Hend. cbn [mbind res_bind mret res_ret]. do 5 f_equal.
      replace (Z.to_nat 12) with (length i) by (unfold zlen in Hi; lia). apply take_app_length.
Qed.

Lemma parse_blocks_ok bs : forall fuel front,
  Forall block_ok bs -> (length (concat (ExtendedReportBlock.Serialize <$> bs)) <= fuel)%nat ->
  ExtendedReportPacket.parse_blocks fuel
    (front ++ concat (ExtendedReportBlock.Serialize <$> bs)) (zlen front) = Ok bs.
Proof.
  induction bs as [|b bs IH]; intros fuel front Hbs Hf.
  - cbn [fmap list_fmap concat]. rewrite app_nil_r.
    destruct fuel; cbn [ExtendedReportPacket.parse_blocks]; by rewrite Z.ltb_irrefl.
  - apply list.Forall_cons in Hbs as [Hb Hbs]. rewrite fmap_cons in *. cbn [concat] in *.
    pose proof (zlen_block b Hb) as Hlen. pose proof (block_size_pos b) as Hpos.
    rewrite length_app in Hf. destruct fuel as [|fuel]; [unfold zlen in Hlen; lia|].
    cbn [ExtendedReportPacket.parse_blocks].
    pose proof (zlen_nonneg (concat (ExtendedReportBlock.Serialize <$> bs))).
    rewrite (proj2 (Z.ltb_lt _ _)) by (rewrite !zlen_app; lia).
    rewrite sub_app by done. cbn [mbind res_bind]. rewrite Block_Parse_ok by done.
    cbn [mbind res_bind]. rewrite <- Hlen.
    specialize (IH fuel (front ++ ExtendedReportBlock.Serialize b) Hbs).
    rewrite <- app_assoc, zlen_app in IH. rewrite IH by (unfold zlen in Hlen; lia). done.
Qed.

Lemma zlen_blocks bs n : Forall block_ok bs ->
  foldl (fun size r => size + ExtendedReportBlock.GetSize r) n bs =
  n + zlen (concat (ExtendedReportBlock.Serialize <$> bs)).
Proof.
  intros Hbs. revert n. induction Hbs as [|b bs Hb _ IH]; intros n; cbn [foldl].
  - by rewrite Z.add_0_r.
  - rewrite IH, fmap_cons. cbn [concat]. rewrite zlen_app, zlen_block by done. lia.
Qed.

Definition packet_ok (p : ExtendedReportPacket.t) : Prop :=
  fits 32 (ExtendedReportPacket.ssrc p) /\ Forall block_ok (ExtendedReportPacket.reports p).

#[global] Instance packet_ok_dec p : Decision (packet_ok p).
Proof. unfold packet_ok. apply _. Defined.

Lemma zlen_Serialize_xr p : packet_ok p ->
  zlen (ExtendedReportPacket.Serialize p) = ExtendedReportPacket.GetSize p.
Proof.
  intros (Hs & Hbs). unfold ExtendedReportPacket.Serialize, ExtendedReportPacket.GetSize.
  rewrite zlen_blocks by done. rewrite !zlen_app, zlen_Serialize, zlen_be4.
  change Packet.CommonHeaderSize with 4. lia.
Qed.

Lemma Parse_Serialize_xr p :
  packet_ok p -> ExtendedReportPacket.Parse (ExtendedReportPacket.Serialize p) = Ok (Some p).
Proof.
  intros Hp. unfold ExtendedReportPacket.Parse. rewrite zlen_Serialize_xr by done.
  destruct Hp as (Hs & Hbs).
  unfold ExtendedReportPacket.GetSize. rewrite zlen_blocks by done.
  change (Packet.CommonHeaderSize + 4) with 8.
  pose proof (zlen_nonneg (concat (ExtendedReportBlock.Serialize <$> ExtendedReportPacket.reports p))).
  rewrite (proj2 (Z.ltb_ge _ 8)) by lia. unfold ExtendedReportPacket.Serialize.
  set (hdr := Packet.Serialize _ _ _).
  rewrite (Get4Bytes_app hdr _ 0 Packet.CommonHeaderSize) by done.
  rewrite Get4Bytes_front, uwrap_id by done. cbn [mbind res_bind].
  rewrite app_assoc. change 8 with (zlen (hdr ++ Byte.be4 (ExtendedReportPacket.ssrc p))).
  rewrite parse_blocks_ok; [|done|rewrite length_app; lia]. by destruct p.
Qed.

(** An extended report packet whose DLRR blocks have at most one sub-block is
    written in [GetSize] bytes and parsed back to the same packet. *)
Theorem xr_roundtrip p :
  packet_ok p ->
  zlen (ExtendedReportPacket.Serialize p) = ExtendedReportPacket.GetSize p /\
  ExtendedReportPacket.Parse (ExtendedReportPacket.Serialize p) = Ok (Some p).
Proof. intros Hp. split; [by apply zlen_Serialize_xr|by apply Parse_Serialize_xr]. Qed.

Lemma xr_roundtrip_witness :
  let p := {| ExtendedReportPacket.ssrc := 0xabcdef01;
              ExtendedReportPacket.reports :=
                [ExtendedReportBlock.RRT {| ReceiverReferenceTime.body := seqZ 1 8 |};
                 ExtendedReportBlock.DLRR {| DelaySinceLastRr.ssrcInfos := [seqZ 1 12] |}] |} in
  zlen (ExtendedReportPacket.Serialize p) = ExtendedReportPacket.GetSize p /\
  ExtendedReportPacket.Parse (ExtendedReportPacket.Serialize p) = Ok (Some p).
Proof. apply xr_roundtrip. by apply (bool_decide_unpack _). Defined.

(** A DLRR block with two sub-blocks. *)
Lemma Block_Parse_two i1 i2 :
  zlen i1 = 12 -> zlen i2 = 12 ->
  ExtendedReportBlock.Parse (ExtendedReportBlock.Serialize
    (ExtendedReportBlock.DLRR {| DelaySinceLastRr.ssrcInfos := [i1; i2] |})) =
  Ok (Some (ExtendedReportBlock.DLRR {| DelaySinceLastRr.ssrcInfos := [i1] |})).
Proof.
  intros H1 H2. cbn [ExtendedReportBlock.Serialize]. unfold DelaySinceLastRr.Serialize.
  cbn [DelaySinceLastRr.ssrcInfos concat]. rewrite app_nil_r.
  change (u16 (DelaySinceLastRr.BodySize * zlen [i1; i2] / 4)) with 6.
  set (hdr := [5; 0] ++ Byte.be2 6). rewrite app_assoc. fold hdr.
  assert (Hlen : zlen (hdr ++ i1 ++ i2) = 28) by (rewrite !zlen_app, H1, H2; done).
  unfold ExtendedReportBlock.Parse. rewrite Hlen. cbn [Z.ltb Z.compare Packet.CommonHeaderSize].
  change (read (hdr ++ i1 ++ i2) 0) with (Ok 5 : res Z). cbn [mbind res_bind Z.eqb Pos.eqb].
  unfold DelaySinceLastRr.Parse. change (Byte.Get2Bytes (hdr ++ i1 ++ i2) 2) with (Ok 6 : res Z).
  cbn [mbind res_bind]. change (u16 (6 * 4)) with 24.
  assert (Hfuel : exists j, length (hdr ++ i1 ++ i2) = S j) by by eexists.
  destruct Hfuel as [j ->]. cbn [DelaySinceLastRr.parse_infos]. rewrite Hlen.
  cbn [Z.ltb Z.leb Z.compare Pos.compare Pos.compare_cont andb DelaySinceLastRr.BodySize].
  rewrite sub_app by done. cbn [mbind res_bind]. unfold DelaySinceLastRr.SsrcInfo_Parse.
  change DelaySinceLastRr.BodySize with 12. rewrite zlen_app, H1, H2. cbn [Z.ltb Z.compare].
  change (12 + 12 <? 12) with false. cbn iota.
  assert (Hend : DelaySinceLastRr.parse_infos j (hdr ++ i1 ++ i2) (4 + 12 + 12) (u16 (24 - 12)) = Ok []).
  { destruct j; cbn [DelaySinceLastRr.parse_infos]; by rewrite Hlen. }
  rewrite Hend. cbn [mbind res_bind mret res_ret]. do 5 f_equal.
  replace (Z.to_nat 12) with (length i1) by (unfold zlen in H1; lia). apply take_app_length.
Qed.

(** The loop over the sub-blocks of a DLRR block advances the offset twice for each
    of them: with two sub-blocks the second one is never read, and the bytes it holds
    are then read as if they were the next block of the packet. *)
Theorem dlrr_second_info_lost i1 i2 s :
  zlen i1 = 12 -> zlen i2 = 12 -> fits 32 s ->
  exists bs,
    ExtendedReportPacket.Parse (ExtendedReportPacket.Serialize
      {| ExtendedReportPacket.ssrc := s;
         ExtendedReportPacket.reports :=
           [ExtendedReportBlock.DLRR {| DelaySinceLastRr.ssrcInfos := [i1; i2] |}] |}) =
    Ok (Some {| ExtendedReportPacket.ssrc := s;
                ExtendedReportPacket.reports :=
                  ExtendedReportBlock.DLRR {| DelaySinceLastRr.ssrcInfos := [i1] |} :: bs |}).
Proof.
  intros H1 H2 Hs. unfold ExtendedReportPacket.Serialize.
  cbn [ExtendedReportPacket.ssrc ExtendedReportPacket.reports fmap list_fmap concat].
  rewrite app_nil_r. set (hdr := Packet.Serialize _ _ _).
  set (b := ExtendedReportBlock.Serialize _).
  assert (Hb : zlen b = 28).
  { unfold b. cbn [ExtendedReportBlock.Serialize]. unfold DelaySinceLastRr.Serialize.
    cbn [DelaySinceLastRr.ssrcInfos concat]. rewrite !zlen_app, H1, H2. done. }
  unfold ExtendedReportPacket.Parse. rewrite !zlen_app, Hb. change (zlen hdr) with 4.
  rewrite zlen_be4. cbn [Z.add Z.ltb Z.compare Pos.add Packet.CommonHeaderSize].
  change (4 + (4 + 28) <? 8) with false. cbn iota.
  rewrite (Get4Bytes_app hdr _ 0 4) by done. rewrite Get4Bytes_front, uwrap_id by done.
  cbn [mbind res_bind]. rewrite app_assoc. set (front := hdr ++ Byte.be4 s).
  assert (Hfl : zlen (front ++ b) = 36) by (rewrite zlen_app, Hb; done).
  assert (Hfuel : exists j, length (front ++ b) = S j) by by eexists.
  destruct Hfuel as [j Ej]. rewrite Ej. cbn [ExtendedReportPacket.parse_blocks].
  rewrite Hfl. change (8 <? 36) with true. cbn iota. rewrite sub_app by done. cbn [mbind res_bind].
  pose proof (Block_Parse_two i1 i2 H1 H2) as Htwo. fold b in Htwo. rewrite Htwo.
  cbn [mbind res_bind].
  match goal with |- context [ExtendedReportPacket.parse_blocks j ?d ?o] =>
    destruct (parse_blocks_safe j d o) as [bs ->] end; [done| |].
  { change (zlen (front ++ b) - 24 <= Z.of_nat j). unfold zlen in *. lia. }
  by exists bs.
Qed.

Lemma dlrr_second_info_lost_witness :
  exists bs,
    ExtendedReportPacket.Parse (ExtendedReportPacket.Serialize
      {| ExtendedReportPacket.ssrc := 7;
         ExtendedReportPacket.reports :=
           [ExtendedReportBlock.DLRR {| DelaySinceLastRr.ssrcInfos := [seqZ 1 12; seqZ 13 12] |}] |}) =
    Ok (Some {| ExtendedReportPacket.ssrc := 7;
                ExtendedReportPacket.reports :=
                  ExtendedReportBlock.DLRR {| DelaySinceLastRr.ssrcInfos := [seqZ 1 12] |} :: bs |}).
Proof. apply dlrr_second_info_lost; [reflexivity|reflexivity|by apply (bool_decide_unpack _)]. Defined.

End Xr.
