(* ===== verification/Rtcp.v ===== *)
(** * Datagrams of RTCP packets

    Models the parsers that choose a packet class: [FeedbackPacket<FeedbackPs>::Parse] and
    [FeedbackPacket<FeedbackRtp>::Parse] of [worker/src/RTC/RTCP/Feedback.cpp],
    [FeedbackPsAfb.cpp], and [Packet::Parse] of [Packet.cpp], which splits a datagram; and
    the compound packets that the worker sends, [CompoundPacket.cpp]. *)

From S2P Require Import Prelude Utils RtcpPacket RtcpReports RtcpSdes RtcpFeedback RtcpTransport RtcpXr.

(** ** Application feedback *)

Module FeedbackPsAfb.

Record t := { senderSsrc : Z; mediaSsrc : Z; content : list Z }.

(** [FeedbackPsAfbPacket(commonHeader)]: the size comes from the header. *)
Definition make (data : list Z) : res t :=
  '(_, s, m) ← FeedbackPacket.read_header data;
  length ← Packet.hdr_length data;
  let offset := Packet.CommonHeaderSize + FeedbackPacket.HeaderSize in
  let size := u64 ((length + 1) * 4 - offset) in
  c ← bytes_at data offset size;
  mret {| senderSsrc := s; mediaSsrc := m; content := c |}.

Definition GetSize (p : t) : Z := Packet.CommonHeaderSize + FeedbackPacket.HeaderSize + zlen (content p).

Definition Serialize (p : t) : list Z :=
  FeedbackPacket.serialize_header Packet.PSFB 15 (senderSsrc p) (mediaSsrc p) (GetSize p) ++ content p.

End FeedbackPsAfb.

(** ** Packets *)

Inductive packet :=
| SenderReportPacket (p : SenderReportPacket.t)
| ReceiverReportPacket (p : ReceiverReportPacket.t)
| SdesPacket (p : SdesPacket.t)
| ByePacket (p : ByePacket.t)
| FeedbackRtpNackPacket (p : FeedbackPacket.t (raw_item 4))
| FeedbackRtpTmmbPacket (p : FeedbackPacket.t FeedbackRtpTmmb.t)
| FeedbackRtpSrReqPacket (p : FeedbackHeaderPacket.t)
| FeedbackRtpTlleiPacket (p : FeedbackPacket.t (raw_item 4))
| FeedbackRtpEcnPacket (p : FeedbackPacket.t (raw_item 20))
| FeedbackRtpTransportPacket (p : FeedbackRtpTransport.t)
| FeedbackPsPliPacket (p : FeedbackHeaderPacket.t)
| FeedbackPsSliPacket (p : FeedbackPacket.t FeedbackPsSli.t)
| FeedbackPsRpsiPacket (p : FeedbackPacket.t FeedbackPsRpsi.t)
| FeedbackPsFirPacket (p : FeedbackPacket.t (raw_item 8))
| FeedbackPsTstPacket (p : FeedbackPacket.t (raw_item 8))
| FeedbackPsVbcmPacket (p : FeedbackPacket.t FeedbackPsVbcm.t)
| FeedbackPsLeiPacket (p : FeedbackPacket.t (raw_item 4))
| FeedbackPsAfbPacket (p : FeedbackPsAfb.t)
| FeedbackPsRembPacket (p : FeedbackPsRemb.t)
| ExtendedReportPacket (p : ExtendedReportPacket.t).

(** The pointer to a derived class, as a pointer to [Packet]. *)
Definition as_packet {A} (wrap : A -> packet) (r : res (option A)) : res (option packet) :=
  match r with Ok x => Ok (option_map wrap x) | Fault f => Fault f end.

(** A packet with nothing chained to it. *)
Definition single (r : res (option packet)) : res (option (list packet)) :=
  match r with Ok x => Ok (option_map (fun p => [p]) x) | Fault f => Fault f end.

(** [FeedbackPsAfbPacket::Parse], which may make a REMB packet. *)
Definition FeedbackPsAfb_Parse (data : list Z) : res (option packet) :=
  if zlen data <? Packet.CommonHeaderSize + FeedbackPacket.HeaderSize then mret None
  else
    let offset := Packet.CommonHeaderSize + FeedbackPacket.HeaderSize in
    remb ← (if offset + 4 <=? zlen data
            then id ← Byte.Get4Bytes data offset; mret (id =? FeedbackPsRemb.UniqueIdentifier)
            else mret false);
    if (remb : bool) then as_packet FeedbackPsRembPacket (FeedbackPsRemb.Parse data)
    else p ← FeedbackPsAfb.make data; mret (Some (FeedbackPsAfbPacket p)).

Definition FeedbackPs_Parse (data : list Z) : res (option packet) :=
  if zlen data <? Packet.CommonHeaderSize + FeedbackPacket.HeaderSize then mret None
  else
    count ← Packet.hdr_count data;
    if count =? 1 then as_packet FeedbackPsPliPacket (FeedbackHeaderPacket.Parse data)
    else if count =? 2 then as_packet FeedbackPsSliPacket (FeedbackPacket.Parse true data)
    else if count =? 3 then as_packet FeedbackPsRpsiPacket (FeedbackPacket.Parse true data)
    else if count =? 4 then as_packet FeedbackPsFirPacket (FeedbackPacket.Parse true data)
    else if count =? 5 then as_packet FeedbackPsTstPacket (FeedbackPacket.Parse true data)
    else if count =? 6 then as_packet FeedbackPsTstPacket (FeedbackPacket.Parse true data)
    else if count =? 7 then as_packet FeedbackPsVbcmPacket (FeedbackPacket.Parse true data)
    else if count =? 8 then as_packet FeedbackPsLeiPacket (FeedbackPacket.Parse true data)
    else if count =? 15 then FeedbackPsAfb_Parse data
    else mret None.

Definition FeedbackRtp_Parse (data : list Z) : res (option packet) :=
  if zlen data <? Packet.CommonHeaderSize + FeedbackPacket.HeaderSize then mret None
  else
    count ← Packet.hdr_count data;
    if count =? 1 then as_packet FeedbackRtpNackPacket (FeedbackPacket.Parse false data)
    else if count =? 3 then as_packet FeedbackRtpTmmbPacket (FeedbackPacket.Parse false data)
    else if count =? 4 then as_packet FeedbackRtpTmmbPacket (FeedbackPacket.Parse false data)
    else if count =? 5 then as_packet FeedbackRtpSrReqPacket (FeedbackHeaderPacket.Parse data)
    else if count =? 7 then as_packet FeedbackRtpTlleiPacket (FeedbackPacket.Parse false data)
    else if count =? 8 then as_packet FeedbackRtpEcnPacket (FeedbackPacket.Parse false data)
    else if count =? 15 then as_packet FeedbackRtpTransportPacket (FeedbackRtpTransport.Parse data)
    else mret None.

(** The switch of [Packet::Parse] on a packet of [packetLen] bytes: the packet and the
    one chained to it, [None] for a null [current]. *)
Definition parse_packet (data : list Z) : res (option (list packet)) :=
  pt ← Packet.hdr_packetType data;
  match Packet.type_of_code pt with
  | Some Packet.SR =>
      sr ← SenderReportPacket.Parse data;
      match sr with
      | None => mret None
      | Some sr =>
          count ← Packet.hdr_count data;
          if 0 <? count then
            rr ← ReceiverReportPacket.Parse data (SenderReportPacket.GetSize sr);
            match rr with
            | None => mret (Some [SenderReportPacket sr])
            | Some rr => mret (Some [SenderReportPacket sr; ReceiverReportPacket rr])
            end
          else mret (Some [SenderReportPacket sr])
      end
  | Some Packet.RR =>
      single (as_packet ReceiverReportPacket (ReceiverReportPacket.Parse data 0))
  | Some Packet.SDES =>
      single (as_packet SdesPacket (SdesPacket.Parse data))
  | Some Packet.BYE =>
      single (as_packet ByePacket (ByePacket.Parse data))
  | Some Packet.APP => mret None
  | Some Packet.RTPFB => single (FeedbackRtp_Parse data)
  | Some Packet.PSFB => single (FeedbackPs_Parse data)
  | Some Packet.XR =>
      single (as_packet ExtendedReportPacket (ExtendedReportPacket.Parse data))
  | None => mret None
  end.

(** [Packet::Parse]: the chain of packets that starts at [first]. *)
Fixpoint parse_loop (fuel : nat) (data : list Z) : res (list packet) :=
  if 0 <? zlen data then
    match fuel with
    | O => Fault OutOfFuel
    | S fuel' =>
        isRtcp ← Packet.IsRtcp data;
        if negb isRtcp then mret []
        else
          length ← Packet.hdr_length data;
          let packetLen := (length + 1) * 4 in
          if zlen data <? packetLen then mret []
          else
            d ← bytes_at data 0 packetLen;
            r ← parse_packet d;
            match r with
            | None => mret []
            | Some current =>
                rest ← sub data packetLen;
                ps ← parse_loop fuel' rest;
                mret (current ++ ps)
            end
    end
  else mret [].

Definition Parse (data : list Z) : res (list packet) := parse_loop (length data) data.

(** ** Safety *)

Lemma as_packet_safe {A} (wrap : A -> packet) r :
  (exists x, r = Ok x) -> exists y, as_packet wrap r = Ok y.
Proof. intros [x ->]. by eexists. Qed.

Lemma hdr_count_safe data : 1 <= zlen data -> exists c, Packet.hdr_count data = Ok c.
Proof.
  intros H. unfold Packet.hdr_count. destruct (read_in_range data 0) as (b & -> & _); [lia|].
  by eexists.
Qed.

Lemma FeedbackPsAfb_Parse_safe data n :
  bytes_ok data -> Packet.hdr_length data = Ok n -> (n + 1) * 4 = zlen data ->
  exists r, FeedbackPsAfb_Parse data = Ok r.
Proof.
  intros Hd Hn Hl. unfold FeedbackPsAfb_Parse.
  change (Packet.CommonHeaderSize + FeedbackPacket.HeaderSize) with 12.
  destruct (Z.ltb_spec (zlen data) 12); [eauto|].
  assert (Hafb : exists p, FeedbackPsAfb.make data = Ok p).
  { unfold FeedbackPsAfb.make. destruct (read_header_safe data) as [[[mt s] m] ->]; [done|].
    cbn [mbind res_bind]. rewrite Hn. cbn [mbind res_bind]. rewrite Hl.
    change (Packet.CommonHeaderSize + FeedbackPacket.HeaderSize) with 12.
    assert (0 <= u64 (zlen data - 12) <= zlen data - 12)
      by (unfold uwrap; split; [apply Z.mod_pos_bound; lia|apply Z.mod_le; lia]).
    rewrite bytes_at_ok by lia. by eexists. }
  destruct (Z.leb_spec (12 + 4) (zlen data)).
  - destruct (Get4Bytes_safe data 12) as [id ->]; [lia..|]. cbn [mbind res_bind mret res_ret].
    destruct (id =? _).
    + apply as_packet_safe. by apply FeedbackPsRemb.remb_Parse_safe.
    + destruct Hafb as [p ->]. by eexists.
  - destruct Hafb as [p ->]. by eexists.
Qed.

Lemma FeedbackPs_Parse_safe data n :
  bytes_ok data -> Packet.hdr_length data = Ok n -> (n + 1) * 4 = zlen data ->
  exists r, FeedbackPs_Parse data = Ok r.
Proof.
  intros Hd Hn Hl. unfold FeedbackPs_Parse.
  change (Packet.CommonHeaderSize + FeedbackPacket.HeaderSize) with 12.
  destruct (Z.ltb_spec (zlen data) 12); [eauto|].
  destruct (hdr_count_safe data) as [c ->]; [lia|]. cbn [mbind res_bind].
  repeat (case_match; [try (apply as_packet_safe;
    first [by apply feedback_Parse_safe | by apply FeedbackHeaderPacket.header_packet_Parse_safe])|]);
    [by eapply FeedbackPsAfb_Parse_safe|by eexists].
Qed.

Lemma FeedbackRtp_Parse_safe data n :
  bytes_ok data -> Packet.hdr_length data = Ok n -> (n + 1) * 4 = zlen data ->
  exists r, FeedbackRtp_Parse data = Ok r.
Proof.
  intros Hd Hn Hl. unfold FeedbackRtp_Parse.
  change (Packet.CommonHeaderSize + FeedbackPacket.HeaderSize) with 12.
  destruct (Z.ltb_spec (zlen data) 12); [eauto|].
  destruct (hdr_count_safe data) as [c ->]; [lia|]. cbn [mbind res_bind].
  repeat (case_match; [try (apply as_packet_safe;
    first [by apply feedback_Parse_safe | by apply FeedbackHeaderPacket.header_packet_Parse_safe])|]);
    [|by eexists].
  apply as_packet_safe. by eapply FeedbackRtpTransport.tcc_Parse_safe.
Qed.

Lemma sr_size_nonneg p : 0 <= SenderReportPacket.GetSize p.
Proof.
  unfold SenderReportPacket.GetSize. induction (SenderReportPacket.reports p); cbn [foldr]; [done|].
  unfold Packet.CommonHeaderSize, SenderReport.GetSize, SenderReport.HeaderSize in *. lia.
Qed.

Lemma parse_packet_safe data n :
  bytes_ok data -> 4 <= zlen data -> Packet.hdr_length data = Ok n -> (n + 1) * 4 = zlen data ->
  exists r, parse_packet data = Ok r.
Proof.
  intros Hd H4 Hn Hl. unfold parse_packet, Packet.hdr_packetType.
  assert (Hwrap : forall x, (exists y, x = Ok y) -> exists r, single x = Ok r)
    by (intros x [y ->]; by eexists).
  destruct (read_in_range data 1) as (pt & -> & _); [lia|]. cbn [mbind res_bind].
  destruct (Packet.type_of_code pt) as [[]|]; try by eexists.
  - destruct (SenderReportPacket.sr_Parse_safe data H4) as [sr ->]. cbn [mbind res_bind].
    destruct (hdr_count_safe data) as [c ->]; [lia|]. cbn [mbind res_bind].
    destruct (0 <? c); [|by eexists].
    destruct (ReceiverReportPacket.rr_Parse_safe data (SenderReportPacket.GetSize sr)) as [[rr|] ->];
      [apply sr_size_nonneg|by eexists..].
  - apply Hwrap, as_packet_safe, ReceiverReportPacket.rr_Parse_safe. lia.
  - apply Hwrap, as_packet_safe. destruct (SdesPacket.sdes_Parse_safe data Hd) as [p ->]; [lia|]. eauto.
  - apply Hwrap, as_packet_safe. apply ByePacket.bye_Parse_safe; [done|lia].
  - by eapply Hwrap, FeedbackRtp_Parse_safe.
  - by eapply Hwrap, FeedbackPs_Parse_safe.
  - apply Hwrap, as_packet_safe, Xr.xr_Parse_safe.
Qed.

Lemma read_take l n i : 0 <= i < n -> n <= zlen l -> read (take (Z.to_nat n) l) i = read l i.
Proof.
  intros Hi Hn. unfold read. rewrite (proj2 (Z.leb_le 0 i)) by lia.
  by rewrite lookup_take_lt by lia.
Qed.

Lemma hdr_length_nonneg data n : bytes_ok data -> Packet.hdr_length data = Ok n -> 0 <= n.
Proof.
  intros Hd Hn. unfold Packet.hdr_length, Byte.Get2Bytes in Hn.
  apply res_bind_ok in Hn as (b1 & E1 & Hn). apply res_bind_ok in Hn as (b0 & E0 & Hn).
  injection Hn as <-. pose proof (read_bytes_ok _ _ _ Hd E1). pose proof (read_bytes_ok _ _ _ Hd E0).
  unfold fits in *. apply Z.lor_nonneg. rewrite Z.shiftl_nonneg. lia.
Qed.

Lemma parse_loop_safe fuel : forall data,
  bytes_ok data -> (length data <= fuel)%nat -> exists ps, parse_loop fuel data = Ok ps.
Proof.
  induction fuel as [|fuel IH]; intros data Hd Hf; cbn [parse_loop];
    (destruct (Z.ltb_spec 0 (zlen data)); [|eauto]); [unfold zlen in *; lia|].
  destruct (IsRtcp_safe data) as (b & -> & Hb). cbn [mbind res_bind].
  destruct b; cbn [negb]; [|eauto]. specialize (Hb eq_refl).
  destruct (Get2Bytes_safe data 2) as [n Hn]; [lia..|].
  change (Byte.Get2Bytes data 2) with (Packet.hdr_length data) in Hn.
  rewrite Hn. cbn [mbind res_bind]. pose proof (hdr_length_nonneg _ _ Hd Hn).
  destruct (Z.ltb_spec (zlen data) ((n + 1) * 4)); [eauto|].
  rewrite bytes_at_ok by lia. cbn [mbind res_bind]. rewrite drop_0.
  destruct (parse_packet_safe (take (Z.to_nat ((n + 1) * 4)) data) n) as [[r|] ->].
  - by apply Forall_take.
  - rewrite zlen_take. lia.
  - rewrite <- Hn. unfold Packet.hdr_length, Byte.Get2Bytes. by rewrite !read_take by lia.
  - rewrite zlen_take. lia.
  - cbn [mbind res_bind]. rewrite sub_ok by lia. cbn [mbind res_bind].
    destruct (IH (drop (Z.to_nat ((n + 1) * 4)) data)) as [ps ->];
      [by apply Forall_drop|rewrite length_drop; lia|]. by eexists.
  - by eexists.
Qed.

(** C2: [Packet::Parse] is safe on every datagram: whatever the bytes it terminates, and
    no parser it calls (reports, SDES, BYE, every feedback message, transport-wide
    feedback, REMB and XR) reads a byte outside of the packet it was given or fails an
    assertion. *)
Theorem rtcp_parse_safe data : bytes_ok data -> exists ps, Parse data = Ok ps.
Proof. intros Hd. by apply parse_loop_safe. Qed.

Lemma rtcp_parse_safe_witness :
  exists ps, Parse (Packet.Serialize Packet.RTPFB 15 12 ++ [1; 2; 3; 4; 5; 6; 7; 8; 255; 0; 3]) = Ok ps.
Proof. apply rtcp_parse_safe. by apply (bool_decide_unpack _). Defined.

(** ** Datagrams written by the worker *)

(** Bytes that are one RTCP packet, parsed as [ps]. *)
Record wire (b : list Z) (ps : list packet) : Prop := {
  wire_rtcp : forall rest, Packet.IsRtcp (b ++ rest) = Ok true;
  wire_length : forall rest, exists n, Packet.hdr_length (b ++ rest) = Ok n /\ (n + 1) * 4 = zlen b;
  wire_pos : 4 <= zlen b;
  wire_parse : parse_packet b = Ok (Some ps);
}.

Lemma parse_loop_wire b ps rest fuel :
  wire b ps -> (length (b ++ rest) <= fuel)%nat ->
  (forall fuel', (length rest <= fuel')%nat -> exists qs, parse_loop fuel' rest = Ok qs) ->
  exists fuel', (length rest <= fuel')%nat /\
    parse_loop fuel (b ++ rest) = (qs ← parse_loop fuel' rest; mret (ps ++ qs)).
Proof.
  intros [Hr Hl Hp Hps] Hf Hrest. rewrite length_app in Hf.
  destruct fuel as [|fuel]; [unfold zlen in Hp; lia|]. exists fuel.
  split; [unfold zlen in Hp; lia|]. cbn [parse_loop]. pose proof (zlen_nonneg rest).
  rewrite (proj2 (Z.ltb_lt 0 _)) by (rewrite zlen_app; lia).
  rewrite Hr. cbn [mbind res_bind negb]. destruct (Hl rest) as (n & -> & En). cbn [mbind res_bind].
  rewrite En, (proj2 (Z.ltb_ge _ _)) by (rewrite zlen_app; lia).
  rewrite (bytes_at_app [] b rest) by done. cbn [mbind res_bind]. rewrite Hps.
  cbn [mbind res_bind]. by rewrite sub_app.
Qed.

Lemma Parse_wires (l : list (list Z * list packet)) :
  Forall (fun x => wire x.1 x.2) l -> forall fuel,
  (length (concat (fst <$> l)) <= fuel)%nat ->
  parse_loop fuel (concat (fst <$> l)) = Ok (concat (snd <$> l)).
Proof.
  induction 1 as [|[b ps] l Hb _ IH]; intros fuel Hf; [by destruct fuel|].
  rewrite !fmap_cons in *. cbn [concat fst snd] in *.
  destruct (parse_loop_wire b ps (concat (fst <$> l)) fuel Hb Hf) as (fuel' & Hf' & ->).
  { intros. eexists. by apply IH. }
  by rewrite IH.
Qed.

Lemma wire_intro t c n body ps :
  0 <= c < 32 -> n = 4 + zlen body -> n mod 4 = 0 -> n / 4 <= 2 ^ 16 ->
  parse_packet (Packet.Serialize t c n ++ body) = Ok (Some ps) ->
  wire (Packet.Serialize t c n ++ body) ps.
Proof.
  intros Hc Hn Hm Hd Hp. pose proof (zlen_nonneg body). split; [| | |done].
  - intros rest. rewrite <- app_assoc. by apply IsRtcp_Serialize.
  - intros rest. rewrite <- app_assoc, hdr_length_Serialize. eexists. split; [done|].
    rewrite zlen_app, zlen_Serialize, uwrap_id by (unfold fits; Z.div_mod_to_equations; lia).
    Z.div_mod_to_equations. lia.
  - rewrite zlen_app, zlen_Serialize. lia.
Qed.

(** ** Compound packets *)

Module CompoundPacket.

Definition MaxSize : Z := 1500 - 40 - 20 - 148.

(** Reports are held by pointer: a pointer and the object it points to. *)
Abbreviation ptr A := (Z * A)%type.

Record t := {
  senderReportPacket : list (ptr (list Z));
  receiverReportSsrc : Z;
  receiverReportPacket : list (ptr (list Z));
  sdesPacket : list (ptr SdesChunk.t);
  xrSsrc : Z;
  xrPacket : list (ptr ExtendedReportBlock.t);
}.

Definition srs (c : t) : SenderReportPacket.t :=
  {| SenderReportPacket.reports := snd <$> senderReportPacket c |}.
Definition rrs (c : t) : ReceiverReportPacket.t :=
  {| ReceiverReportPacket.ssrc := receiverReportSsrc c;
     ReceiverReportPacket.reports := snd <$> receiverReportPacket c |}.
Definition sdes (c : t) : SdesPacket.t := {| SdesPacket.chunks := snd <$> sdesPacket c |}.
Definition xr (c : t) : ExtendedReportPacket.t :=
  {| ExtendedReportPacket.ssrc := xrSsrc c; ExtendedReportPacket.reports := snd <$> xrPacket c |}.

Definition GetSize (c : t) : res Z :=
  let size := 0 in
  let size := if 0 <? SenderReportPacket.GetCount (srs c)
              then size + SenderReportPacket.GetSize (srs c) else size in
  let size := if 0 <? ReceiverReportPacket.GetCount (rrs c)
              then size + ReceiverReportPacket.GetSize (rrs c) else size in
  size ← (if 0 <? zlen (sdesPacket c)
          then n ← SdesPacket.GetSize (sdes c); mret (size + n) else mret size);
  mret (if 0 <? zlen (xrPacket c) then size + ExtendedReportPacket.GetSize (xr c) else size).

Definition Serialize (c : t) : res (list Z) :=
  _ ← ms_assert ((0 <? SenderReportPacket.GetCount (srs c)) ||
                 (0 <? ReceiverReportPacket.GetCount (rrs c)));
  b1 ← (if 0 <? SenderReportPacket.GetCount (srs c)
        then SenderReportPacket.Serialize (srs c) else mret []);
  b2 ← (if 0 <? ReceiverReportPacket.GetCount (rrs c)
        then ReceiverReportPacket.Serialize (rrs c) else mret []);
  b3 ← (if 0 <? zlen (sdesPacket c) then SdesPacket.Serialize (sdes c) else mret []);
  let b4 := if 0 <? zlen (xrPacket c) then ExtendedReportPacket.Serialize (xr c) else [] in
  mret (b1 ++ b2 ++ b3 ++ b4).

(** [AddReport] and [AddChunk] push at the back; [RemoveReport] and [RemoveChunk] erase
    the first element with that pointer. *)
Fixpoint remove_ptr {A} (l : list (ptr A)) (p : Z) : list (ptr A) :=
  match l with
  | [] => []
  | x :: l' => if x.1 =? p then l' else x :: remove_ptr l' p
  end.

Definition remove_ptrs {A} (l new : list (ptr A)) : list (ptr A) :=
  foldl (fun l x => remove_ptr l x.1) l new.

Definition push (c : t) (s r : list (ptr (list Z))) (d : list (ptr SdesChunk.t))
    (x : list (ptr ExtendedReportBlock.t)) : t :=
  {| senderReportPacket := senderReportPacket c ++ s;
     receiverReportSsrc := receiverReportSsrc c;
     receiverReportPacket := receiverReportPacket c ++ r;
     sdesPacket := sdesPacket c ++ d; xrSsrc := xrSsrc c; xrPacket := xrPacket c ++ x |}.

Definition remove (c : t) (s r : list (ptr (list Z))) (d : list (ptr SdesChunk.t))
    (x : list (ptr ExtendedReportBlock.t)) : t :=
  {| senderReportPacket := remove_ptrs (senderReportPacket c) s;
     receiverReportSsrc := receiverReportSsrc c;
     receiverReportPacket := remove_ptrs (receiverReportPacket c) r;
     sdesPacket := remove_ptrs (sdesPacket c) d; xrSsrc := xrSsrc c;
     xrPacket := remove_ptrs (xrPacket c) x |}.

Definition add_items (c : t) s r d x : res (bool * t) :=
  let c := push c s r d x in
  size ← GetSize c;
  if size <=? MaxSize then mret (true, c) else mret (false, remove c s r d x).

Definition as_dlrr (x : ptr DelaySinceLastRr.t) : ptr ExtendedReportBlock.t :=
  (x.1, ExtendedReportBlock.DLRR x.2).
Definition as_rrt (x : ptr ReceiverReferenceTime.t) : ptr ExtendedReportBlock.t :=
  (x.1, ExtendedReportBlock.RRT x.2).

(** The three overloads of [Add]: of a consumer, of a pipe consumer, of a producer. *)
Definition Add_consumer (c : t) (senderReport : option (ptr (list Z)))
    (sdesChunk : option (ptr SdesChunk.t)) (dlrr : option (ptr DelaySinceLastRr.t)) : res (bool * t) :=
  add_items c (option_list senderReport) [] (option_list sdesChunk) (as_dlrr <$> option_list dlrr).

Definition Add_pipe (c : t) (senderReports : list (ptr (list Z)))
    (sdesChunks : list (ptr SdesChunk.t)) (dlrrs : list (ptr DelaySinceLastRr.t)) : res (bool * t) :=
  add_items c senderReports [] sdesChunks (as_dlrr <$> dlrrs).

Definition Add_producer (c : t) (receiverReports : list (ptr (list Z)))
    (rrt : option (ptr ReceiverReferenceTime.t)) : res (bool * t) :=
  add_items c [] receiverReports [] (as_rrt <$> option_list rrt).

(** *** Adding is all or nothing *)

(** Objects that the packet does not hold yet. *)
Definition fresh {A} (l new : list (ptr A)) : Prop := NoDup (l ++ new).*1.

Lemma remove_ptr_app {A} (l new : list (ptr A)) x :
  x.1 ∉ l.*1 -> remove_ptr (l ++ x :: new) x.1 = l ++ new.
Proof.
  induction l as [|y l IH]; cbn [app remove_ptr]; [by rewrite Z.eqb_refl|].
  rewrite fmap_cons, not_elem_of_cons. intros [Hx Hl].
  destruct (Z.eqb_spec y.1 x.1); [congruence|]. by rewrite IH.
Qed.

Lemma remove_ptrs_app {A} (l new : list (ptr A)) : fresh l new -> remove_ptrs (l ++ new) new = l.
Proof.
  unfold fresh, remove_ptrs. rewrite fmap_app. revert l. induction new as [|x new IH]; intros l Hf.
  - cbn. by rewrite app_nil_r.
  - cbn [foldl]. rewrite fmap_cons in Hf. apply NoDup_app in Hf as (Hl & Hd & Hn).
    apply NoDup_cons in Hn as [Hx Hn]. rewrite remove_ptr_app.
    + apply IH. apply NoDup_app. split_and!; [done| |done].
      intros p Hp Hin. apply (Hd p Hp). by apply elem_of_cons; right.
    + intros Hin. apply (Hd _ Hin). by apply elem_of_cons; left.
Qed.

Lemma add_items_spec c s r d x b c' :
  fresh (senderReportPacket c) s -> fresh (receiverReportPacket c) r ->
  fresh (sdesPacket c) d -> fresh (xrPacket c) x ->
  add_items c s r d x = Ok (b, c') ->
  if b then c' = push c s r d x /\ exists n, GetSize c' = Ok n /\ n <= MaxSize else c' = c.
Proof.
  intros Hs Hr Hd Hx H. unfold add_items in H. apply res_bind_ok in H as (n & En & H).
  destruct (Z.leb_spec n MaxSize); injection H as <- <-; [eauto|].
  unfold remove, push. cbn. rewrite !remove_ptrs_app by done. by destruct c.
Qed.

(** Adding to a compound packet is all or nothing: when [Add] (any of the overloads)
    returns true the objects are at the back of their packets and the size is at most
    [MaxSize]; when it returns false the compound packet is what it was before. *)
Theorem compound_add_atomic c s r d x b c' :
  fresh (senderReportPacket c) s -> fresh (receiverReportPacket c) r ->
  fresh (sdesPacket c) d -> fresh (xrPacket c) (as_dlrr <$> x) ->
  (Add_pipe c s d x = Ok (b, c') ->
   if b then c' = push c s [] d (as_dlrr <$> x) /\ exists n, GetSize c' = Ok n /\ n <= MaxSize
   else c' = c) /\
  (forall y, fresh (xrPacket c) (as_rrt <$> option_list y) -> Add_producer c r y = Ok (b, c') ->
   if b then c' = push c [] r [] (as_rrt <$> option_list y) /\
     exists n, GetSize c' = Ok n /\ n <= MaxSize
   else c' = c).
Proof.
  intros Hs Hr Hd Hx.
  assert (Hnil : forall A (l m : list (ptr A)), fresh l m -> fresh l []).
  { unfold fresh. intros A l m. rewrite app_nil_r, fmap_app. by intros (? & _)%NoDup_app. }
  split.
  - apply add_items_spec; eauto.
  - intros y Hy. apply add_items_spec; eauto.
Qed.

Definition empty : t :=
  {| senderReportPacket := []; receiverReportSsrc := 1; receiverReportPacket := [];
     sdesPacket := []; xrSsrc := 1; xrPacket := [] |}.

Lemma compound_add_atomic_witness :
  exists c, Add_producer empty [(1, replicate 24 0); (2, replicate 24 1)] None = Ok (true, c) /\
    c = push empty [] [(1, replicate 24 0); (2, replicate 24 1)] [] [] /\
    exists n, GetSize c = Ok n /\ n <= MaxSize.
Proof.
  eexists. split; [reflexivity|].
  eapply (fun H => proj2 (compound_add_atomic empty [] [(1, replicate 24 0); (2, replicate 24 1)] []
    [] true _ (NoDup_nil_2) H NoDup_nil_2 NoDup_nil_2) None NoDup_nil_2).
  - unfold fresh. cbn. by apply (bool_decide_unpack _).
  - reflexivity.
Defined.

(** *** The packets of a compound packet *)

(** The RTCP packets written, with the packets parsed from them. *)
Definition sr_wires (c : t) : list (list Z * list packet) :=
  (fun r => (SenderReportPacket.report_bytes r,
             [SenderReportPacket {| SenderReportPacket.reports := [r] |}])) <$> (snd <$> senderReportPacket c).

Definition rr_wires (c : t) : list (list Z * list packet) :=
  (fun g => (ReceiverReportPacket.chunk_bytes (receiverReportSsrc c) g,
             [ReceiverReportPacket {| ReceiverReportPacket.ssrc := receiverReportSsrc c;
                                      ReceiverReportPacket.reports := g |}])) <$>
  groups (snd <$> receiverReportPacket c).

Definition sdes_wires (c : t) : list (list Z * list packet) :=
  (fun g => (SdesPacket.packet_bytes g, [SdesPacket {| SdesPacket.chunks := g |}])) <$>
  groups (snd <$> sdesPacket c).

Definition xr_wires (c : t) : list (list Z * list packet) :=
  if 0 <? zlen (xrPacket c)
  then [(ExtendedReportPacket.Serialize (xr c), [ExtendedReportPacket (xr c)])] else [].

Definition wires (c : t) := sr_wires c ++ rr_wires c ++ sdes_wires c ++ xr_wires c.

(** The compound packets that are read back as they were. *)
Record ok (c : t) : Prop := {
  ok_some : 0 < zlen (senderReportPacket c) \/ 0 < zlen (receiverReportPacket c);
  ok_srs : Forall (fun r => zlen r = 24) (snd <$> senderReportPacket c);
  ok_ssrc : fits 32 (receiverReportSsrc c);
  ok_rrs : Forall ReceiverReportPacket.report_ok (snd <$> receiverReportPacket c);
  ok_chunks : Forall SdesChunk.ok (snd <$> sdesPacket c) /\
    Forall SdesPacket.chunk_bytes_ok (snd <$> sdesPacket c);
  ok_groups : Forall (fun g => SdesPacket.delimited g /\ zlen (SdesPacket.chunks_bytes g) < 2 ^ 16)
    (groups (snd <$> sdesPacket c));
  ok_xr : Xr.packet_ok (xr c);
  ok_xr_size : ExtendedReportPacket.GetSize (xr c) < 2 ^ 16;
}.

Lemma sr_wire r : zlen r = 24 ->
  wire (SenderReportPacket.report_bytes r) [SenderReportPacket {| SenderReportPacket.reports := [r] |}].
Proof.
  intros Hr. apply wire_intro; [done|lia|done|done|].
  unfold parse_packet. rewrite hdr_type_Serialize. cbn [mbind res_bind].
  rewrite type_of_code_code.
  change (Packet.Serialize Packet.SR 0 28 ++ r) with (SenderReportPacket.report_bytes r).
  rewrite SenderReportPacket.Parse_report by done. cbn [mbind res_bind].
  unfold SenderReportPacket.report_bytes. by rewrite hdr_count_Serialize.
Qed.

Lemma rr_wire s g : fits 32 s -> Forall ReceiverReportPacket.report_ok g -> zlen g <= 31 ->
  wire (ReceiverReportPacket.chunk_bytes s g)
    [ReceiverReportPacket {| ReceiverReportPacket.ssrc := s; ReceiverReportPacket.reports := g |}].
Proof.
  intros Hs Hg Hn. pose proof (zlen_nonneg g).
  pose proof (ReceiverReportPacket.rr_zlen_chunk s g Hg) as Hl.
  pose proof (ReceiverReportPacket.rr_Parse_chunk s g Hs Hg Hn) as Hp.
  unfold ReceiverReportPacket.chunk_bytes in *. rewrite zlen_app, zlen_Serialize in Hl.
  apply wire_intro; [lia|lia|Z.div_mod_to_equations; lia|pow2_consts; Z.div_mod_to_equations; lia|].
  unfold parse_packet. rewrite hdr_type_Serialize. cbn [mbind res_bind].
  rewrite type_of_code_code. by rewrite Hp.
Qed.

Lemma chunks_bytes_aligned g : zlen (SdesPacket.chunks_bytes g) mod 4 = 0.
Proof.
  unfold SdesPacket.chunks_bytes. induction g as [|c g IH]; [done|].
  rewrite fmap_cons. cbn [concat]. rewrite zlen_app, SdesChunk.sdes_chunk_zlen_chunk.
  rewrite align4_padding, padding4_mod. Z.div_mod_to_equations. lia.
Qed.

Lemma sdes_wire g : Forall SdesChunk.ok g -> Forall SdesPacket.chunk_bytes_ok g ->
  SdesPacket.delimited g -> zlen g <= 31 -> zlen (SdesPacket.chunks_bytes g) < 2 ^ 16 ->
  wire (SdesPacket.packet_bytes g) [SdesPacket {| SdesPacket.chunks := g |}].
Proof.
  intros H1 H2 H3 H4 H5. pose proof (zlen_nonneg g). pose proof (chunks_bytes_aligned g).
  pose proof (zlen_nonneg (SdesPacket.chunks_bytes g)).
  pose proof (SdesPacket.Parse_packet g H1 H2 H3 H4) as Hp. unfold SdesPacket.packet_bytes in *.
  apply wire_intro; [lia|lia|Z.div_mod_to_equations; lia|pow2_consts; Z.div_mod_to_equations; lia|].
  unfold parse_packet. rewrite hdr_type_Serialize. cbn [mbind res_bind].
  rewrite type_of_code_code. by rewrite Hp.
Qed.

Lemma blocks_aligned bs : Forall Xr.block_ok bs ->
  zlen (concat (ExtendedReportBlock.Serialize <$> bs)) mod 4 = 0.
Proof.
  induction 1 as [|b bs Hb _ IH]; [done|]. rewrite fmap_cons. cbn [concat].
  rewrite zlen_app, Xr.zlen_block by done.
  assert (ExtendedReportBlock.GetSize b mod 4 = 0).
  { destruct b as [r|r]; [done|]. cbn. unfold DelaySinceLastRr.GetSize.
    change DelaySinceLastRr.BodySize with 12. Z.div_mod_to_equations. lia. }
  Z.div_mod_to_equations. lia.
Qed.

Lemma xr_wire p : Xr.packet_ok p -> ExtendedReportPacket.GetSize p < 2 ^ 16 ->
  wire (ExtendedReportPacket.Serialize p) [ExtendedReportPacket p].
Proof.
  intros Hp Hn. pose proof (Xr.zlen_Serialize_xr p Hp) as Hl.
  pose proof (Xr.Parse_Serialize_xr p Hp) as Hr. pose proof (blocks_aligned _ (proj2 Hp)) as Ha.
  pose proof (zlen_nonneg (concat (ExtendedReportBlock.Serialize <$> ExtendedReportPacket.reports p))).
  unfold ExtendedReportPacket.Serialize in *. rewrite !zlen_app, zlen_Serialize, zlen_be4 in Hl.
  apply wire_intro; [done|rewrite zlen_app, zlen_be4; lia|Z.div_mod_to_equations; lia|
    pow2_consts; Z.div_mod_to_equations; lia|].
  unfold parse_packet. rewrite hdr_type_Serialize. cbn [mbind res_bind].
  rewrite type_of_code_code. by rewrite Hr.
Qed.

Lemma wires_ok c : ok c -> Forall (fun x => wire x.1 x.2) (wires c).
Proof.
  intros [_ Hs Hss Hr [Hc Hcb] Hg Hx Hxs]. unfold wires. rewrite !Forall_app. split_and!.
  - apply Forall_fmap. eapply List.Forall_impl; [|exact Hs]. intros r. apply sr_wire.
  - apply Forall_fmap. pose proof (groups_bounds (snd <$> receiverReportPacket c)) as Hb.
    apply groups_Forall in Hr. pose proof (conj Hb Hr) as Hbr. rewrite <- Forall_and in Hbr.
    eapply List.Forall_impl; [|exact Hbr]. intros g [? ?]. apply rr_wire; [done|done|lia].
  - apply Forall_fmap. pose proof (groups_bounds (snd <$> sdesPacket c)) as Hb.
    apply groups_Forall in Hc, Hcb.
    pose proof (conj Hb (conj Hg (conj Hc Hcb))) as Hall. rewrite <- !Forall_and in Hall.
    eapply List.Forall_impl; [|exact Hall]. intros g (? & [? ?] & ? & ?).
    apply sdes_wire; done || lia.
  - unfold xr_wires. destruct (0 <? _); [|constructor]. constructor; [by apply xr_wire|constructor].
Qed.

Lemma zlen_fmap {A B} (f : A -> B) l : zlen (f <$> l) = zlen l.
Proof. unfold zlen. by rewrite length_fmap. Qed.

Lemma Serialize_wires c : ok c -> Serialize c = Ok (concat (fst <$> wires c)).
Proof.
  intros [Hsome Hs Hss Hr [Hc Hcb] Hg Hx Hxs]. unfold Serialize.
  unfold SenderReportPacket.GetCount, ReceiverReportPacket.GetCount.
  cbn [srs rrs SenderReportPacket.reports ReceiverReportPacket.reports]. rewrite !zlen_fmap.
  assert (Ha : ms_assert ((0 <? zlen (senderReportPacket c)) || (0 <? zlen (receiverReportPacket c)))
               = Ok tt).
  { unfold ms_assert. by destruct Hsome as [H%Z.ltb_lt|H%Z.ltb_lt]; rewrite H, ?orb_true_r. }
  rewrite Ha. cbn [mbind res_bind].
  unfold wires. rewrite !fmap_app, !concat_app.
  assert (H1 : (if 0 <? zlen (senderReportPacket c) then SenderReportPacket.Serialize (srs c)
                else mret []) = Ok (concat (fst <$> sr_wires c))).
  { rewrite SenderReportPacket.sr_Serialize_ok. unfold sr_wires. rewrite <- list_fmap_compose.
    destruct (Z.ltb_spec 0 (zlen (senderReportPacket c))) as [|Hz]; [done|].
    assert (senderReportPacket c = []) as -> by
      (apply zlen_0_nil; pose proof (zlen_nonneg (senderReportPacket c)); lia). done. }
  assert (H2 : (if 0 <? zlen (receiverReportPacket c) then ReceiverReportPacket.Serialize (rrs c)
                else mret []) = Ok (concat (fst <$> rr_wires c))).
  { rewrite ReceiverReportPacket.rr_Serialize_groups. unfold rr_wires. rewrite <- list_fmap_compose.
    destruct (Z.ltb_spec 0 (zlen (receiverReportPacket c))) as [|Hz]; [done|].
    assert (receiverReportPacket c = []) as -> by
      (apply zlen_0_nil; pose proof (zlen_nonneg (receiverReportPacket c)); lia). done. }
  assert (H3 : (if 0 <? zlen (sdesPacket c) then SdesPacket.Serialize (sdes c)
                else mret []) = Ok (concat (fst <$> sdes_wires c))).
  { rewrite SdesPacket.sdes_Serialize_groups by done. unfold sdes_wires. rewrite <- list_fmap_compose.
    destruct (Z.ltb_spec 0 (zlen (sdesPacket c))) as [|Hz]; [done|].
    assert (sdesPacket c = []) as -> by
      (apply zlen_0_nil; pose proof (zlen_nonneg (sdesPacket c)); lia). done. }
  rewrite H1. cbn [mbind res_bind]. rewrite H2. cbn [mbind res_bind]. rewrite H3.
  cbn [mbind res_bind mret res_ret]. unfold xr_wires.
  destruct (0 <? zlen (xrPacket c)); cbn [fmap list_fmap concat fst]; by rewrite ?app_nil_r.
Qed.

(** C39: A compound packet within the following bounds is parsed back as it was written:
    [Serialize] succeeds, and [Packet::Parse] of the datagram gives the sender reports (one
    packet each), the receiver reports and the SDES chunks (in packets of up to 31), and the
    extended report, in this order and with the same contents.  The bounds: there is a sender
    or a receiver report, as [Serialize] asserts; reports have their 24 bytes; an SDES item has
    the length it says; in a packet of SDES chunks every chunk but the last is followed by
    padding (one whose items end on a 32-bit boundary is not read back,
    [sdes_unterminated_chunk]); a DLRR block has at most one sub-block (the second is not read
    back, [dlrr_second_info_lost]); and the chunks of an SDES packet, and the extended report, have
    less than 65536 bytes. *)
Theorem compound_roundtrip c :
  ok c ->
  exists out, Serialize c = Ok out /\ Parse out = Ok (concat (snd <$> wires c)) /\
    concat (snd <$> wires c) =
      ((fun r => SenderReportPacket {| SenderReportPacket.reports := [r] |}) <$>
         (snd <$> senderReportPacket c)) ++
      ((fun g => ReceiverReportPacket {| ReceiverReportPacket.ssrc := receiverReportSsrc c;
                                         ReceiverReportPacket.reports := g |}) <$>
         groups (snd <$> receiverReportPacket c)) ++
      ((fun g => SdesPacket {| SdesPacket.chunks := g |}) <$> groups (snd <$> sdesPacket c)) ++
      (if 0 <? zlen (xrPacket c) then [ExtendedReportPacket (xr c)] else []).
Proof.
  intros Hc. eexists. split; [by apply Serialize_wires|]. split.
  - apply Parse_wires; [by apply wires_ok|done].
  - assert (Hcat : forall A (f : A -> list Z) (g : A -> packet) l,
      concat (snd <$> ((fun x => (f x, [g x])) <$> l)) = g <$> l).
    { intros A f g l. induction l as [|a l IH]; [done|]. rewrite !fmap_cons. cbn [concat snd app].
      by rewrite IH. }
    unfold wires. rewrite !fmap_app, !concat_app. unfold sr_wires, rr_wires, sdes_wires, xr_wires.
    rewrite !Hcat. by destruct (0 <? zlen (xrPacket c)).
Qed.

Definition example : t :=
  {| senderReportPacket := [(1, replicate 24 1); (2, replicate 24 2)]; receiverReportSsrc := 9;
     receiverReportPacket := (fun i => (i, replicate 24 3)) <$> seqZ 10 40;
     sdesPacket := [(3, SdesPacket.cname 5 [97; 98; 99])]; xrSsrc := 8;
     xrPacket := [(4, ExtendedReportBlock.DLRR {| DelaySinceLastRr.ssrcInfos := [replicate 12 7] |})] |}.

Lemma compound_roundtrip_witness :
  exists out, Serialize example = Ok out /\ Parse out = Ok (concat (snd <$> wires example)) /\
    concat (snd <$> wires example) =
      ((fun r => SenderReportPacket {| SenderReportPacket.reports := [r] |}) <$>
         (snd <$> senderReportPacket example)) ++
      ((fun g => ReceiverReportPacket {| ReceiverReportPacket.ssrc := receiverReportSsrc example;
                                         ReceiverReportPacket.reports := g |}) <$>
         groups (snd <$> receiverReportPacket example)) ++
      ((fun g => SdesPacket {| SdesPacket.chunks := g |}) <$> groups (snd <$> sdesPacket example)) ++
      (if 0 <? zlen (xrPacket example) then [ExtendedReportPacket (xr example)] else []).
Proof.
  apply compound_roundtrip. split.
  - left. by vm_compute.
  - by apply (bool_decide_unpack _).
  - by apply (bool_decide_unpack _).
  - unfold ReceiverReportPacket.report_ok. by apply (bool_decide_unpack _).
  - split; [|repeat constructor; by vm_compute].
    repeat constructor; try (by vm_compute); unfold SdesItem.ok; vm_compute;
      (do 3 eexists; split; [reflexivity|split; [discriminate|reflexivity]]).
  - repeat constructor.
  - by apply (bool_decide_unpack _).
  - by vm_compute.
Defined.

End CompoundPacket.
