(* ===== verification/RtpPacket.v ===== *)
(** * RTP packets

    Models [worker/src/RTC/RtpPacket.cpp] and its header.  A packet is a view of the
    memory it was parsed from: the model keeps that memory as a list of bytes and the
    pointers of the class as offsets into it, so that a read or a write outside of the
    memory is a fault.  The memory may be larger than the packet, as the receive
    buffers of the worker are.  Codec payload descriptors are not part of it. *)

From stdpp Require Import gmap.
From S2P Require Import Prelude Utils RtcpPacket.

Module RtpPacket.

Definition HeaderSize : Z := 12.
Definition MtuSize : Z := 1500.
Definition MidMaxLength : Z := 8.

(** ** Memory *)

(** [memcpy] and [memmove] to [offset] of bytes that were read before. *)
Definition write (mem : list Z) (offset : Z) (bs : list Z) : res (list Z) :=
  if (0 <=? offset) && (offset + zlen bs <=? zlen mem)
  then Ok (take (Z.to_nat offset) mem ++ bs ++ drop (Z.to_nat (offset + zlen bs)) mem)
  else Fault OutOfBounds.

Definition memmove (mem : list Z) (dst src n : Z) : res (list Z) :=
  bs ← bytes_at mem src n; write mem dst bs.

(** ** The packet *)

Record Ids := {
  midExtensionId : Z;
  ridExtensionId : Z;
  rridExtensionId : Z;
  absSendTimeExtensionId : Z;
  transportWideCc01ExtensionId : Z;
  frameMarking07ExtensionId : Z;
  frameMarkingExtensionId : Z;
  ssrcAudioLevelExtensionId : Z;
  videoOrientationExtensionId : Z;
}.

Definition no_ids : Ids := Build_Ids 0 0 0 0 0 0 0 0 0.

Record t := {
  mem : list Z;
  csrcList : option Z;
  headerExtension : option Z;
  oneByteExtensions : list (option Z);
  mapTwoBytesExtensions : gmap Z Z;
  ids : Ids;
  payload : Z;
  payloadLength : Z;
  payloadPadding : Z;
  size : Z;
}.

Definition set_mem (p : t) (m : list Z) : t :=
  {| mem := m; csrcList := csrcList p; headerExtension := headerExtension p;
     oneByteExtensions := oneByteExtensions p; mapTwoBytesExtensions := mapTwoBytesExtensions p;
     ids := ids p; payload := payload p; payloadLength := payloadLength p;
     payloadPadding := payloadPadding p; size := size p |}.

Definition set_ids (p : t) (i : Ids) : t :=
  {| mem := mem p; csrcList := csrcList p; headerExtension := headerExtension p;
     oneByteExtensions := oneByteExtensions p; mapTwoBytesExtensions := mapTwoBytesExtensions p;
     ids := i; payload := payload p; payloadLength := payloadLength p;
     payloadPadding := payloadPadding p; size := size p |}.

Definition set_extensions (p : t) (one : list (option Z)) (two : gmap Z Z) : t :=
  {| mem := mem p; csrcList := csrcList p; headerExtension := headerExtension p;
     oneByteExtensions := one; mapTwoBytesExtensions := two;
     ids := ids p; payload := payload p; payloadLength := payloadLength p;
     payloadPadding := payloadPadding p; size := size p |}.

Definition set_payload (p : t) (ext : option Z) (offset length padding sz : Z) : t :=
  {| mem := mem p; csrcList := csrcList p; headerExtension := ext;
     oneByteExtensions := oneByteExtensions p; mapTwoBytesExtensions := mapTwoBytesExtensions p;
     ids := ids p; payload := offset; payloadLength := length;
     payloadPadding := padding; size := sz |}.

(** *** Header fields: [version:2 padding:1 extension:1 csrcCount:4 marker:1 payloadType:7] *)

Definition hdr_version (data : list Z) : res Z := b ← read data 0; mret (b / 64).
Definition hdr_padding (data : list Z) : res Z := b ← read data 0; mret (b / 32 mod 2).
Definition hdr_extension (data : list Z) : res Z := b ← read data 0; mret (b / 16 mod 2).
Definition hdr_csrcCount (data : list Z) : res Z := b ← read data 0; mret (b mod 16).

Definition IsRtp (data : list Z) : res bool :=
  if negb (HeaderSize <=? zlen data) then mret false
  else
    b0 ← read data 0;
    if negb ((127 <? b0) && (b0 <? 192)) then mret false
    else version ← hdr_version data; mret (version =? 2).

Definition GetData (p : t) : list Z := take (Z.to_nat (size p)) (mem p).
Definition GetSize (p : t) : Z := size p.

Definition GetPayloadType (p : t) : res Z := b ← read (mem p) 1; mret (b mod 128).
Definition SetPayloadType (p : t) (payloadType : Z) : res t :=
  b ← read (mem p) 1;
  m ← store (mem p) 1 (b / 128 * 128 + payloadType mod 128);
  mret (set_mem p m).

Definition HasMarker (p : t) : res bool := b ← read (mem p) 1; mret (negb (b / 128 =? 0)).
Definition SetMarker (p : t) (marker : bool) : res t :=
  b ← read (mem p) 1;
  m ← store (mem p) 1 ((if marker then 128 else 0) + b mod 128);
  mret (set_mem p m).

Definition SetPayloadPaddingFlag (p : t) (flag : bool) : res t :=
  b ← read (mem p) 0;
  m ← store (mem p) 0 (b / 64 * 64 + (if flag then 32 else 0) + b mod 32);
  mret (set_mem p m).

(** [this->header->extension = 1u]. *)
Definition SetExtensionFlag (p : t) : res t :=
  b ← read (mem p) 0;
  m ← store (mem p) 0 (b / 32 * 32 + 16 + b mod 16);
  mret (set_mem p m).

Definition GetSequenceNumber (p : t) : res Z := Byte.Get2Bytes (mem p) 2.
Definition SetSequenceNumber (p : t) (seq : Z) : res t :=
  m ← Byte.Set2Bytes (mem p) 2 seq; mret (set_mem p m).
Definition GetTimestamp (p : t) : res Z := Byte.Get4Bytes (mem p) 4.
Definition SetTimestamp (p : t) (ts : Z) : res t :=
  m ← Byte.Set4Bytes (mem p) 4 ts; mret (set_mem p m).
Definition GetSsrc (p : t) : res Z := Byte.Get4Bytes (mem p) 8.
Definition SetSsrc (p : t) (ssrc : Z) : res t :=
  m ← Byte.Set4Bytes (mem p) 8 ssrc; mret (set_mem p m).

(** *** Header extension *)

Definition HasHeaderExtension (p : t) : bool :=
  match headerExtension p with Some _ => true | None => false end.

Definition GetHeaderExtensionId (p : t) : res Z :=
  match headerExtension p with None => mret 0 | Some e => Byte.Get2Bytes (mem p) e end.

Definition GetHeaderExtensionLength (p : t) : res Z :=
  match headerExtension p with
  | None => mret 0
  | Some e => n ← Byte.Get2Bytes (mem p) (e + 2); mret (n * 4)
  end.

Definition GetHeaderExtensionValue (p : t) : option Z := e ← headerExtension p; Some (e + 4).

Definition HasOneByteExtensions (p : t) : res bool :=
  id ← GetHeaderExtensionId p; mret (id =? 0xBEDE).

Definition HasTwoBytesExtensions (p : t) : res bool :=
  id ← GetHeaderExtensionId p; mret (Z.land id 0xFFF0 =? 0x1000).

(** [while ((ptr < extensionEnd) && ( *ptr == 0)) ++ptr]. *)
Fixpoint skip_padding (fuel : nat) (m : list Z) (ptr fin : Z) : res Z :=
  if ptr <? fin then
    match fuel with
    | O => Fault OutOfFuel
    | S fuel' =>
        b ← read m ptr;
        if b =? 0 then skip_padding fuel' m (ptr + 1) fin else mret ptr
    end
  else mret ptr.

(** The loop over One-Byte elements. *)
Fixpoint parse_one_byte (fuel : nat) (m : list Z) (ptr fin : Z) (acc : list (option Z))
    : res (list (option Z)) :=
  if ptr <? fin then
    match fuel with
    | O => Fault OutOfFuel
    | S fuel' =>
        b ← read m ptr;
        let id := b / 16 in
        let len := b mod 16 + 1 in
        if id =? 15 then mret acc
        else if negb (id =? 0) then
          if fin <? ptr + 1 + len then mret acc
          else
            let acc := <[Z.to_nat (id - 1) := Some ptr]> acc in
            ptr ← skip_padding fuel' m (ptr + (1 + len)) fin;
            parse_one_byte fuel' m ptr fin acc
        else
          ptr ← skip_padding fuel' m (ptr + 1) fin;
          parse_one_byte fuel' m ptr fin acc
    end
  else mret acc.

(** The loop over Two-Bytes elements. *)
Fixpoint parse_two_bytes (fuel : nat) (m : list Z) (ptr fin : Z) (acc : gmap Z Z) : res (gmap Z Z) :=
  if ptr + 1 <? fin then
    match fuel with
    | O => Fault OutOfFuel
    | S fuel' =>
        id ← read m ptr;
        len ← read m (ptr + 1);
        if negb (id =? 0) then
          if fin <? ptr + 2 + len then mret acc
          else
            let acc := <[id := ptr]> acc in
            ptr ← skip_padding fuel' m (ptr + (2 + len)) fin;
            parse_two_bytes fuel' m ptr fin acc
        else
          ptr ← skip_padding fuel' m (ptr + 1) fin;
          parse_two_bytes fuel' m ptr fin acc
    end
  else mret acc.

Definition ParseExtensions (p : t) : res t :=
  one ← HasOneByteExtensions p;
  if (one : bool) then
    e ← deref (headerExtension p);
    len ← GetHeaderExtensionLength p;
    l ← parse_one_byte (Z.to_nat len) (mem p) (e + 4) (e + 4 + len) (replicate 14 None);
    mret (set_extensions p l (mapTwoBytesExtensions p))
  else
    two ← HasTwoBytesExtensions p;
    if (two : bool) then
      e ← deref (headerExtension p);
      len ← GetHeaderExtensionLength p;
      mp ← parse_two_bytes (Z.to_nat len) (mem p) (e + 4) (e + 4 + len) ∅;
      mret (set_extensions p (oneByteExtensions p) mp)
    else mret p.

(** The constructor.  The array of One-Byte slots has no initial value in the class unless
    the packet has One-Byte extensions; it is not read otherwise, and is empty here. *)
Definition make (m : list Z) (ext : option Z) (offset length padding sz : Z) : res t :=
  csrcCount ← hdr_csrcCount m;
  ParseExtensions
    {| mem := m; csrcList := if csrcCount =? 0 then None else Some HeaderSize;
       headerExtension := ext; oneByteExtensions := replicate 14 None;
       mapTwoBytesExtensions := ∅; ids := no_ids; payload := offset; payloadLength := length;
       payloadPadding := padding; size := sz |}.

(** The padding of [Parse]: [None] when the packet is discarded. *)
Definition parse_padding (data : list Z) (len payloadLength : Z) : res (option (Z * Z)) :=
  padding ← hdr_padding data;
  if negb (padding =? 0) then
    if payloadLength =? 0 then mret None
    else
      n ← read data (len - 1);
      if n =? 0 then mret None
      else if payloadLength <? n then mret None
      else mret (Some (payloadLength - n, n))
  else mret (Some (payloadLength, 0)).

(** The header extension of [Parse] at [ptr]: the pointer and the bytes it takes, [None]
    when the packet is discarded. *)
Definition parse_header_extension (data : list Z) (len ptr : Z) : res (option (option Z * Z)) :=
  extension ← hdr_extension data;
  if extension =? 1 then
    if len <? ptr + 4 then mret None
    else
      n ← Byte.Get2Bytes data (ptr + 2);
      if len <? ptr + 4 + n * 4 then mret None
      else mret (Some (Some ptr, 4 + n * 4))
  else mret (Some (None, 0)).

(** The payload of [Parse] at [ptr], and the new packet. *)
Definition parse_payload (data : list Z) (len csrcListSize : Z) (headerExtension : option Z)
    (extSize : Z) : res (option t) :=
  let ptr := HeaderSize + csrcListSize + extSize in
  let payloadLength := len - ptr in
  _ ← ms_assert (ptr <=? len);
  pad ← parse_padding data len payloadLength;
  match pad with
  | None => mret None
  | Some (payloadLength, payloadPadding) =>
      _ ← ms_assert (len =? HeaderSize + csrcListSize + extSize + payloadLength + payloadPadding);
      p ← make data headerExtension ptr payloadLength payloadPadding len;
      mret (Some p)
  end.

(** [Parse(data, len)], where the memory at [data] may be longer than [len]. *)
Definition Parse (data : list Z) (len : Z) : res (option t) :=
  isRtp ← IsRtp (take (Z.to_nat len) data);
  if negb isRtp then mret None
  else
    csrcCount ← hdr_csrcCount data;
    let csrcListSize := csrcCount * 4 in
    if negb (csrcCount =? 0) && (len <? HeaderSize + csrcListSize) then mret None
    else
      ext ← parse_header_extension data len (HeaderSize + csrcListSize);
      match ext with
      | None => mret None
      | Some (headerExtension, extSize) => parse_payload data len csrcListSize headerExtension extSize
      end.

(** *** Extension elements *)

(** [this->oneByteExtensions[id - 1]]. *)
Definition one_byte_slot (p : t) (id : Z) : res (option Z) :=
  match oneByteExtensions p !! Z.to_nat (id - 1) with
  | Some e => Ok e
  | None => Fault OutOfBounds
  end.

Definition HasExtension (p : t) (id : Z) : res bool :=
  if id =? 0 then mret false
  else
    one ← HasOneByteExtensions p;
    if (one : bool) then
      if 14 <? id then mret false
      else
        e ← one_byte_slot p id;
        mret (match e with Some _ => true | None => false end)
    else
      two ← HasTwoBytesExtensions p;
      if (two : bool) then
        match mapTwoBytesExtensions p !! id with
        | None => mret false
        | Some e => len ← read (mem p) (e + 1); mret (negb (len =? 0))
        end
      else mret false.

(** The offset and the length of the value; [len] is also set when the result is null. *)
Definition GetExtension (p : t) (id : Z) : res (option Z * Z) :=
  if id =? 0 then mret (None, 0)
  else
    one ← HasOneByteExtensions p;
    if (one : bool) then
      if 14 <? id then mret (None, 0)
      else
        e ← one_byte_slot p id;
        match e with
        | None => mret (None, 0)
        | Some e => b ← read (mem p) e; mret (Some (e + 1), b mod 16 + 1)
        end
    else
      two ← HasTwoBytesExtensions p;
      if (two : bool) then
        match mapTwoBytesExtensions p !! id with
        | None => mret (None, 0)
        | Some e =>
            len ← read (mem p) (e + 1);
            if len =? 0 then mret (None, len) else mret (Some (e + 2), len)
        end
      else mret (None, 0).

(** The value of an extension whose length satisfies [ok]. *)
Definition extension_value (p : t) (id : Z) (ok : Z -> bool) : res (option (list Z)) :=
  '(e, len) ← GetExtension p id;
  match e with
  | Some e => if ok len then v ← bytes_at (mem p) e len; mret (Some v) else mret None
  | None => mret None
  end.

Definition ReadMid (p : t) : res (option (list Z)) :=
  extension_value p (midExtensionId (ids p)) (fun len => negb (len =? 0)).

Definition ReadRid (p : t) : res (option (list Z)) :=
  r ← extension_value p (ridExtensionId (ids p)) (fun len => 0 <? len);
  match r with
  | Some v => mret (Some v)
  | None => extension_value p (rridExtensionId (ids p)) (fun len => 0 <? len)
  end.

Definition ReadAbsSendTime (p : t) : res (option Z) :=
  '(e, len) ← GetExtension p (absSendTimeExtensionId (ids p));
  match e with
  | Some e => if len =? 3 then v ← Byte.Get3Bytes (mem p) e; mret (Some v) else mret None
  | None => mret None
  end.

Definition UpdateAbsSendTime (p : t) (ms : Z) : res (bool * t) :=
  '(e, len) ← GetExtension p (absSendTimeExtensionId (ids p));
  match e with
  | Some e =>
      if len =? 3 then
        m ← Byte.Set3Bytes (mem p) e (Time.TimeMsToAbsSendTime ms); mret (true, set_mem p m)
      else mret (false, p)
  | None => mret (false, p)
  end.

Definition ReadTransportWideCc01 (p : t) : res (option Z) :=
  '(e, len) ← GetExtension p (transportWideCc01ExtensionId (ids p));
  match e with
  | Some e => if len =? 2 then v ← Byte.Get2Bytes (mem p) e; mret (Some v) else mret None
  | None => mret None
  end.

Definition UpdateTransportWideCc01 (p : t) (wideSeqNumber : Z) : res (bool * t) :=
  '(e, len) ← GetExtension p (transportWideCc01ExtensionId (ids p));
  match e with
  | Some e =>
      if len =? 2 then m ← Byte.Set2Bytes (mem p) e wideSeqNumber; mret (true, set_mem p m)
      else mret (false, p)
  | None => mret (false, p)
  end.

(** The volume and whether there is voice. *)
Definition ReadSsrcAudioLevel (p : t) : res (option (Z * bool)) :=
  '(e, len) ← GetExtension p (ssrcAudioLevelExtensionId (ids p));
  match e with
  | Some e =>
      if len =? 1 then
        v ← Byte.Get1Byte (mem p) e; mret (Some (Z.land v 127, negb (Z.land v 128 =? 0)))
      else mret None
  | None => mret None
  end.

(** Camera, flip and rotation. *)
Definition ReadVideoOrientation (p : t) : res (option (bool * bool * Z)) :=
  '(e, len) ← GetExtension p (videoOrientationExtensionId (ids p));
  match e with
  | Some e =>
      if len =? 1 then
        cvo ← Byte.Get1Byte (mem p) e;
        let rotation := Z.land cvo 3 in
        mret (Some (negb (Z.shiftr (Z.land cvo 8) 3 =? 0), negb (Z.shiftr (Z.land cvo 4) 2 =? 0),
                    if rotation =? 3 then 270 else if rotation =? 2 then 180
                    else if rotation =? 1 then 90 else 0))
      else mret None
  | None => mret None
  end.

(** The offset and the length of the frame marking. *)
Definition ReadFrameMarking (p : t) : res (option (Z * Z)) :=
  '(e, len) ← GetExtension p (frameMarkingExtensionId (ids p));
  '(e, len) ← (match e with
               | Some e => mret (Some e, len)
               | None => GetExtension p (frameMarking07ExtensionId (ids p))
               end);
  match e with
  | Some e => if 3 <? len then mret None else mret (Some (e, len))
  | None => mret None
  end.

(** ** Rewriting the packet *)

(** A [GenericExtension]: its length is that of the value. *)
Record GenericExtension := { ext_id : Z; ext_value : list Z }.

Definition valid_one_byte (x : GenericExtension) : bool :=
  negb ((ext_id x =? 0) || (14 <? ext_id x) || (zlen (ext_value x) =? 0) || (16 <? zlen (ext_value x))).

Definition valid_two_bytes (x : GenericExtension) : bool := negb (ext_id x =? 0).

Fixpoint total_size (type : Z) (l : list GenericExtension) : Z :=
  match l with
  | [] => 0
  | x :: l' =>
      (if type =? 1 then if valid_one_byte x then 1 + zlen (ext_value x) else 0
       else if type =? 2 then if valid_two_bytes x then 2 + zlen (ext_value x) else 0
       else 0) + total_size type l'
  end.

(** The loop that writes the elements from [ptr]. *)
Fixpoint write_elements (type : Z) (l : list GenericExtension) (p : t) (ptr : Z) : res (t * Z) :=
  match l with
  | [] => mret (p, ptr)
  | x :: l' =>
      let len := zlen (ext_value x) in
      if type =? 1 then
        if valid_one_byte x then
          m ← store (mem p) ptr (u8 (Z.lor (Z.shiftl (ext_id x) 4) (Z.land (len - 1) 0x0F)));
          m ← write m (ptr + 1) (ext_value x);
          let p := set_extensions (set_mem p m)
                     (<[Z.to_nat (ext_id x - 1) := Some ptr]> (oneByteExtensions p))
                     (mapTwoBytesExtensions p) in
          write_elements type l' p (ptr + 1 + len)
        else write_elements type l' p ptr
      else if type =? 2 then
        if valid_two_bytes x then
          m ← store (mem p) ptr (ext_id x);
          m ← store m (ptr + 1) len;
          m ← write m (ptr + 2) (ext_value x);
          let p := set_extensions (set_mem p m) (oneByteExtensions p)
                     (<[ext_id x := ptr]> (mapTwoBytesExtensions p)) in
          write_elements type l' p (ptr + 2 + len)
        else write_elements type l' p ptr
      else write_elements type l' p ptr
  end.

Definition ext_type_id (type : Z) : Z := if type =? 1 then 0xBEDE else 0x1000.

(** [headerExtension->id = htons(...)], [headerExtension->length = htons(...)]. *)
Definition set_ext_id (p : t) (e v : Z) : res t := m ← Byte.Set2Bytes (mem p) e v; mret (set_mem p m).
Definition set_ext_length (p : t) (e v : Z) : res t :=
  m ← Byte.Set2Bytes (mem p) (e + 2) v; mret (set_mem p m).

(** Shift the payload and its padding. *)
Definition shift_payload (p : t) (ext : option Z) (shift : Z) : res t :=
  m ← memmove (mem p) (payload p + shift) (payload p) (payloadLength p + payloadPadding p);
  mret (set_payload (set_mem p m) ext (payload p + shift) (payloadLength p) (payloadPadding p)
          (size p + shift)).

(** The id of a header extension of another type. *)
Definition fix_ext_id (p : t) (type : Z) : res t :=
  one ← HasOneByteExtensions p;
  two ← HasTwoBytesExtensions p;
  if (type =? 1) && one then mret p
  else if (type =? 2) && two then mret p
  else match headerExtension p with
       | Some e => set_ext_id p e (ext_type_id type)
       | None => mret p
       end.

(** The header extension resized to [total] bytes. *)
Definition resize_ext (p : t) (type total : Z) : res t :=
  match headerExtension p with
  | Some e =>
      len ← GetHeaderExtensionLength p;
      let shift := i16 (total - len) in
      if negb (shift =? 0) then
        p ← shift_payload p (Some e) shift;
        set_ext_length p e (u16 (total / 4))
      else mret p
  | None =>
      let shift := i16 (4 + i16 total) in
      p ← SetExtensionFlag p;
      let e := payload p in
      p ← shift_payload p (Some e) shift;
      p ← set_ext_id p e (ext_type_id type);
      set_ext_length p e (u16 (total / 4))
  end.

Definition SetExtensions (p : t) (type : Z) (extensions : list GenericExtension) : res t :=
  _ ← ms_assert ((type =? 1) || (type =? 2));
  let p := set_extensions (set_ids p no_ids) (replicate 14 None) ∅ in
  p ← fix_ext_id p type;
  let total := total_size type extensions in
  let padded := Byte.PadTo4Bytes16 (u16 total) in
  let padding := u64 (padded - total) in
  p ← resize_ext p type padded;
  e ← deref (headerExtension p);
  '(p, ptr) ← write_elements type extensions p (e + 4);
  m ← write (mem p) ptr (replicate (Z.to_nat padding) 0);
  let p := set_mem p m in
  _ ← ms_assert (ptr + padding =? payload p);
  mret p.

Definition SetExtensionLength (p : t) (id len : Z) : res (bool * t) :=
  if len =? 0 then mret (false, p)
  else if id =? 0 then mret (false, p)
  else
    one ← HasOneByteExtensions p;
    if (one : bool) then
      e ← one_byte_slot p id;
      match e with
      | None => mret (false, p)
      | Some e =>
          b ← read (mem p) e;
          let currentLen := b mod 16 + 1 in
          m ← (if len <? currentLen
               then write (mem p) (e + 1 + len) (replicate (Z.to_nat (currentLen - len)) 0)
               else mret (mem p));
          m ← store m e (b / 16 * 16 + (len - 1) mod 16);
          mret (true, set_mem p m)
      end
    else
      two ← HasTwoBytesExtensions p;
      if (two : bool) then
        match mapTwoBytesExtensions p !! id with
        | None => mret (false, p)
        | Some e =>
            currentLen ← read (mem p) (e + 1);
            m ← (if len <? currentLen
                 then write (mem p) (e + 2 + len) (replicate (Z.to_nat (currentLen - len)) 0)
                 else mret (mem p));
            m ← store m (e + 1) len;
            mret (true, set_mem p m)
        end
      else mret (false, p).

Definition UpdateMid (p : t) (mid : list Z) : res t :=
  '(e, _) ← GetExtension p (midExtensionId (ids p));
  match e with
  | None => mret p
  | Some e =>
      let midLen := zlen mid in
      if MidMaxLength <? midLen then mret p
      else
        m ← write (mem p) e mid;
        '(_, p) ← SetExtensionLength (set_mem p m) (midExtensionId (ids p)) midLen;
        mret p
  end.

Definition SetPayloadLength (p : t) (length : Z) : res t :=
  let length := Byte.PadTo4Bytes16 (u16 length) in
  let sz := size p - payloadLength p - payloadPadding p + length in
  SetPayloadPaddingFlag (set_payload p (headerExtension p) (payload p) length 0 sz) false.

(** [Clone]: [junk] is what the new buffer holds before it is written. *)
Definition Clone (p : t) (junk : list Z) : res t :=
  hdr ← bytes_at (mem p) 0 HeaderSize;
  m ← write junk 0 hdr;
  let ptr := HeaderSize in
  '(m, ptr) ← (match csrcList p with
               | Some c =>
                   csrcCount ← hdr_csrcCount (mem p);
                   bs ← bytes_at (mem p) c (csrcCount * 4);
                   m ← write m ptr bs; mret (m, ptr + csrcCount * 4)
               | None => mret (m, ptr)
               end);
  '(m, ext, ptr) ← (match headerExtension p with
                    | Some e =>
                        len ← GetHeaderExtensionLength p;
                        bs ← bytes_at (mem p) e (4 + len);
                        m ← write m ptr bs; mret (m, Some ptr, ptr + (4 + len))
                    | None => mret (m, None, ptr)
                    end);
  let newPayload := ptr in
  '(m, ptr) ← (if negb (payloadLength p =? 0) then
                 bs ← bytes_at (mem p) (payload p) (payloadLength p);
                 m ← write m ptr bs; mret (m, ptr + payloadLength p)
               else mret (m, ptr));
  '(m, ptr) ← (if negb (payloadPadding p =? 0) then
                 m ← store m (ptr + payloadPadding p - 1) (payloadPadding p);
                 mret (m, ptr + payloadPadding p)
               else mret (m, ptr));
  _ ← ms_assert (ptr =? size p);
  q ← make m ext newPayload (payloadLength p) (payloadPadding p) (size p);
  mret (set_ids q (ids p)).

(** The padding is removed. *)
Definition remove_padding (p : t) : res t :=
  if negb (payloadPadding p =? 0) then
    p' ← SetPayloadPaddingFlag p false;
    mret (set_payload p' (headerExtension p) (payload p) (payloadLength p) 0
            (size p - payloadPadding p))
  else mret p.

(** The original sequence number put in front of the payload. *)
Definition rtx_insert_seq (p : t) (seq : Z) : res t :=
  m ← memmove (mem p) (payload p + 2) (payload p) (payloadLength p);
  let p := set_mem p m in
  orig ← GetSequenceNumber p;
  m ← Byte.Set2Bytes (mem p) (payload p) orig;
  p ← SetSequenceNumber (set_mem p m) seq;
  remove_padding (set_payload p (headerExtension p) (payload p) (payloadLength p + 2)
                    (payloadPadding p) (size p + 2)).

Definition RtxEncode (p : t) (payloadType ssrc seq : Z) : res t :=
  p ← SetPayloadType p payloadType;
  p ← SetSsrc p ssrc;
  rtx_insert_seq p seq.

(** The payload moved back to its original place. *)
Definition rtx_remove_seq (p : t) : res t :=
  m ← memmove (mem p) (payload p) (payload p + 2) (payloadLength p - 2);
  let p := set_mem p m in
  remove_padding (set_payload p (headerExtension p) (payload p) (payloadLength p - 2)
                    (payloadPadding p) (size p - 2)).

Definition RtxDecode (p : t) (payloadType ssrc : Z) : res (bool * t) :=
  if payloadLength p <? 2 then mret (false, p)
  else
    p ← SetPayloadType p payloadType;
    orig ← Byte.Get2Bytes (mem p) (payload p);
    p ← SetSequenceNumber p orig;
    p ← SetSsrc p ssrc;
    p ← rtx_remove_seq p;
    mret (true, p).

Definition ShiftPayload (p : t) (payloadOffset shift : Z) (expand : bool) : res t :=
  if shift =? 0 then mret p
  else
    _ ← ms_assert (payloadOffset <? payloadLength p);
    _ ← ms_assert (expand || (shift <=? payloadLength p - payloadOffset));
    let ptr := payload p + payloadOffset in
    if expand then
      m ← memmove (mem p) (ptr + shift) ptr (payloadLength p + payloadPadding p - payloadOffset);
      mret (set_payload (set_mem p m) (headerExtension p) (payload p) (payloadLength p + shift)
              (payloadPadding p) (size p + shift))
    else
      m ← memmove (mem p) ptr (ptr + shift)
            (payloadLength p + payloadPadding p - payloadOffset - shift);
      mret (set_payload (set_mem p m) (headerExtension p) (payload p) (payloadLength p - shift)
              (payloadPadding p) (size p - shift)).

End RtpPacket.
