(* ===== verification/RtpPacketSpec.v ===== *)
(** * RTP packets: what the operations do

    An RTP packet as its fields and its parts ([view]), the bytes it is written in
    ([encode]), and the relation [repr] between the packet object of [RtpPacket] (memory
    and offsets) and these parts.  [Parse] accepts exactly the encodings, without reading
    outside of the memory; the operations that rewrite a packet in place are refined by
    operations on its parts. *)

From stdpp Require Import gmap.
From S2P Require Import Prelude Utils RtcpPacket RtcpSdes RtpPacket.

Import RtpPacket.

(** ** Parts of a packet *)

Record view := {
  v_marker : bool;
  v_pt : Z;
  v_seq : Z;
  v_ts : Z;
  v_ssrc : Z;
  v_csrcs : list Z;
  v_ext : option (Z * list Z);
  v_body : list Z;
  v_pad : list Z;
}.

Definition b2z (b : bool) (n : Z) : Z := if b then n else 0.

Definition byte0 (v : view) : Z :=
  128 + b2z (negb (zlen (v_pad v) =? 0)) 32 +
  b2z (match v_ext v with Some _ => true | None => false end) 16 + zlen (v_csrcs v) / 4.

Definition byte1 (v : view) : Z := b2z (v_marker v) 128 + v_pt v.

Definition ext_bytes (e : option (Z * list Z)) : list Z :=
  match e with
  | None => []
  | Some (id, value) => Byte.be2 id ++ Byte.be2 (zlen value / 4) ++ value
  end.

(** The fixed header, all but its first two bytes. *)
Definition fixed (v : view) : list Z := Byte.be2 (v_seq v) ++ Byte.be4 (v_ts v) ++ Byte.be4 (v_ssrc v).

Definition header_bytes (v : view) : list Z := byte0 v :: byte1 v :: fixed v.

Definition encode (v : view) : list Z :=
  header_bytes v ++ v_csrcs v ++ ext_bytes (v_ext v) ++ v_body v ++ v_pad v.

Record view_ok (v : view) : Prop := {
  ok_pt : 0 <= v_pt v < 128;
  ok_seq : fits 16 (v_seq v);
  ok_ts : fits 32 (v_ts v);
  ok_v_ssrc : fits 32 (v_ssrc v);
  ok_csrcs : zlen (v_csrcs v) mod 4 = 0 /\ zlen (v_csrcs v) <= 60;
  ok_ext : forall id value, v_ext v = Some (id, value) ->
    fits 16 id /\ bytes_ok value /\ zlen value mod 4 = 0 /\ zlen value / 4 < 2 ^ 16;
  ok_pad : zlen (v_pad v) < 256 /\
    (v_pad v <> [] -> list.last (v_pad v) = Some (zlen (v_pad v)));
}.

(** ** The packet object *)

(** Offsets of the header extension, of its value and of the payload. *)
Definition ext_offset (v : view) : option Z :=
  match v_ext v with Some _ => Some (12 + zlen (v_csrcs v)) | None => None end.
Definition value_start (v : view) : Z := 12 + zlen (v_csrcs v) + 4.
Definition payload_offset (v : view) : Z := 12 + zlen (v_csrcs v) + zlen (ext_bytes (v_ext v)).

(** The object of the packet [v] in a memory that goes on with [rest]. *)
Definition obj (v : view) (rest : list Z) (one : list (option Z)) (two : gmap Z Z) (i : Ids) : t :=
  {| mem := encode v ++ rest;
     csrcList := if zlen (v_csrcs v) =? 0 then None else Some HeaderSize;
     headerExtension := ext_offset v;
     oneByteExtensions := one;
     mapTwoBytesExtensions := two;
     ids := i;
     payload := payload_offset v;
     payloadLength := zlen (v_body v);
     payloadPadding := zlen (v_pad v);
     size := zlen (encode v) |}.

(** Slots that point to elements of the value at [start]. *)
Definition one_slots (start : Z) (value : list Z) (acc : list (option Z)) : Prop :=
  forall i e, acc !! i = Some (Some e) ->
    exists b, read value (e - start) = Ok b /\ 0 <= e - start /\
      e - start + 1 + (b mod 16 + 1) <= zlen value.

Definition two_slots (start : Z) (value : list Z) (acc : gmap Z Z) : Prop :=
  forall i e, acc !! i = Some e ->
    exists b, read value (e - start + 1) = Ok b /\ 0 <= e - start /\
      e - start + 2 + b <= zlen value.

(** The elements the object points to lie in the header extension. *)
Definition elements_ok (v : view) (one : list (option Z)) (two : gmap Z Z) : Prop :=
  length one = 14%nat /\
  forall id value, v_ext v = Some (id, value) ->
    (id = 0xBEDE -> one_slots (value_start v) value one) /\
    (Z.land id 0xFFF0 = 0x1000 -> two_slots (value_start v) value two).

(** *** Bytes *)

Lemma be2_of_bytes a b : fits 8 a -> fits 8 b -> Byte.be2 (a * 256 + b) = [a; b].
Proof.
  intros Ha Hb. unfold Byte.be2. rewrite Z.shiftr_div_pow2 by lia. repeat f_equal; ulia.
Qed.

Lemma be4_of_bytes a b c d : fits 8 a -> fits 8 b -> fits 8 c -> fits 8 d ->
  Byte.be4 (a * 16777216 + b * 65536 + c * 256 + d) = [a; b; c; d].
Proof.
  intros Ha Hb Hc Hd. unfold Byte.be4. rewrite !Z.shiftr_div_pow2 by lia.
  repeat f_equal; ulia.
Qed.

Lemma zlen_header v : zlen (header_bytes v) = 12.
Proof. done. Qed.

Lemma zlen_encode v :
  zlen (encode v) = 12 + zlen (v_csrcs v) + zlen (ext_bytes (v_ext v)) + zlen (v_body v) + zlen (v_pad v).
Proof. unfold encode. rewrite !zlen_app, zlen_header. lia. Qed.

Lemma zlen_ext_bytes id value : zlen (ext_bytes (Some (id, value))) = 4 + zlen value.
Proof. cbn [ext_bytes]. rewrite !zlen_app, !zlen_be2. lia. Qed.

(** The bits of the first byte. *)
Lemma byte0_bits v : view_ok v ->
  byte0 v / 64 = 2 /\ 127 < byte0 v < 192 /\
  byte0 v / 32 mod 2 = b2z (negb (zlen (v_pad v) =? 0)) 1 /\
  byte0 v / 16 mod 2 = b2z (match v_ext v with Some _ => true | None => false end) 1 /\
  byte0 v mod 16 * 4 = zlen (v_csrcs v) /\ byte0 v / 64 * 64 + byte0 v mod 32 + 32 * 0 =
    byte0 v - b2z (negb (zlen (v_pad v) =? 0)) 32.
Proof.
  intros [_ _ _ _ [Hc1 Hc2] _ _]. pose proof (zlen_nonneg (v_csrcs v)).
  unfold byte0, b2z. assert (exists q, zlen (v_csrcs v) = 4 * q /\ 0 <= q <= 15) as (q & -> & Hq).
  { exists (zlen (v_csrcs v) / 4). Z.div_mod_to_equations. lia. }
  rewrite (Z.mul_comm 4 q), Z.div_mul by lia.
  destruct (negb _), (v_ext v); repeat split; Z.div_mod_to_equations; lia.
Qed.

(** *** Extension elements *)

(** Skipping padding bytes stays in the extension. *)
Lemma skip_padding_safe fuel : forall A value C o,
  0 <= o -> zlen value - o <= Z.of_nat fuel ->
  exists o', skip_padding fuel (A ++ value ++ C) (zlen A + o) (zlen A + zlen value) =
    Ok (zlen A + o') /\ o <= o' /\ (o <= zlen value -> o' <= zlen value).
Proof.
  induction fuel as [|fuel IH]; intros A value C o Ho Hf; cbn [skip_padding];
    (destruct (Z.ltb_spec (zlen A + o) (zlen A + zlen value)); [|by exists o; split_and!]); [lia|].
  rewrite read_app_r by done. rewrite read_app_l by lia.
  destruct (read_in_range value o) as (b & -> & _); [lia|]. cbn [mbind res_bind].
  destruct (b =? 0); [|exists o; split_and!; [done|lia|lia]].
  destruct (IH A value C (o + 1)) as (o' & E & H1 & H2); [lia|lia|].
  rewrite Z.add_assoc in E. exists o'. split_and!; [exact E|lia|lia].
Qed.

Lemma parse_one_byte_safe fuel : forall A value C o acc,
  bytes_ok value -> 0 <= o -> zlen value - o <= Z.of_nat fuel ->
  one_slots (zlen A) value acc /\ length acc = 14%nat ->
  exists acc', parse_one_byte fuel (A ++ value ++ C) (zlen A + o) (zlen A + zlen value) acc = Ok acc' /\
    one_slots (zlen A) value acc' /\ length acc' = 14%nat.
Proof.
  induction fuel as [|fuel IH]; intros A value C o acc Hb Ho Hf Hacc; cbn [parse_one_byte];
    (destruct (Z.ltb_spec (zlen A + o) (zlen A + zlen value)); [|by exists acc]); [lia|].
  rewrite read_app_r by done. rewrite read_app_l by lia.
  destruct (read_in_range value o) as (b & Hrd & _); [lia|]. rewrite Hrd. cbn [mbind res_bind].
  pose proof (read_bytes_ok _ _ _ Hb Hrd) as Hbb. unfold fits in Hbb. change (2 ^ 8) with 256 in Hbb.
  pose proof (Z.mod_pos_bound b 16 ltac:(lia)) as Hb16.
  destruct (Z.eqb_spec (b / 16) 15); [by exists acc|].
  destruct (Z.eqb_spec (b / 16) 0) as [Hz|Hz]; cbn [negb].
  - destruct (skip_padding_safe fuel A value C (o + 1)) as (o' & E & H1 & _); [lia|lia|].
    rewrite Z.add_assoc in E. rewrite E. cbn [mbind res_bind]. apply IH; [done|lia|lia|done].
  - destruct (Z.ltb_spec (zlen A + zlen value) (zlen A + o + 1 + (b mod 16 + 1))) as [|Hfit];
      [by exists acc|].
    destruct (skip_padding_safe fuel A value C (o + (1 + (b mod 16 + 1)))) as (o' & E & H1 & _);
      [lia|lia|].
    rewrite Z.add_assoc in E. rewrite E. cbn [mbind res_bind]. apply IH; [done|lia|lia|].
    destruct Hacc as [Hsl Hlen]. split; [|by rewrite length_insert].
    intros i e Hie. apply list_lookup_insert_Some in Hie as [(_ & [= <-] & _)|(_ & Hie)]; [|eauto].
    exists b. rewrite Z.add_simpl_l. split_and!; [done|lia|lia].
Qed.

Lemma parse_two_bytes_safe fuel : forall A value C o acc,
  bytes_ok value -> 0 <= o -> zlen value - o <= Z.of_nat fuel -> two_slots (zlen A) value acc ->
  exists acc', parse_two_bytes fuel (A ++ value ++ C) (zlen A + o) (zlen A + zlen value) acc = Ok acc' /\
    two_slots (zlen A) value acc'.
Proof.
  induction fuel as [|fuel IH]; intros A value C o acc Hb Ho Hf Hacc; cbn [parse_two_bytes];
    (destruct (Z.ltb_spec (zlen A + o + 1) (zlen A + zlen value)); [|by exists acc]); [lia|].
  rewrite <- (Z.add_assoc (zlen A) o 1), !read_app_r by lia. rewrite !read_app_l by lia.
  destruct (read_in_range value o) as (id & Hid & _); [lia|]. rewrite Hid. cbn [mbind res_bind].
  destruct (read_in_range value (o + 1)) as (len & Hlen & _); [lia|]. rewrite Hlen. cbn [mbind res_bind].
  pose proof (read_bytes_ok _ _ _ Hb Hlen) as Hll. unfold fits in Hll. change (2 ^ 8) with 256 in Hll.
  destruct (Z.eqb_spec id 0) as [Hz|Hz]; cbn [negb].
  - destruct (skip_padding_safe fuel A value C (o + 1)) as (o' & E & H1 & _); [lia|lia|].
    rewrite E. cbn [mbind res_bind]. apply IH; [done|lia|lia|done].
  - destruct (Z.ltb_spec (zlen A + zlen value) (zlen A + o + 2 + len)) as [|Hfit]; [by exists acc|].
    destruct (skip_padding_safe fuel A value C (o + (2 + len))) as (o' & E & H1 & _); [lia|lia|].
    rewrite Z.add_assoc in E. rewrite E. cbn [mbind res_bind]. apply IH; [done|lia|lia|].
    intros i e Hie. apply lookup_insert_Some in Hie as [(_ & <-)|(_ & Hie)]; [|eauto].
    exists len. rewrite Z.add_simpl_l. split_and!; [done|lia|lia].
Qed.

(** *** The constructor *)

Lemma encode_parts v rest :
  encode v ++ rest = header_bytes v ++ v_csrcs v ++ ext_bytes (v_ext v) ++ v_body v ++ v_pad v ++ rest.
Proof. unfold encode. by rewrite <- !app_assoc. Qed.

Lemma read_byte0 v rest : read (encode v ++ rest) 0 = Ok (byte0 v).
Proof. done. Qed.

(** The memory around the value of the header extension. *)
Lemma encode_value v rest id value : v_ext v = Some (id, value) ->
  encode v ++ rest =
    (header_bytes v ++ v_csrcs v ++ Byte.be2 id ++ Byte.be2 (zlen value / 4)) ++
    value ++ v_body v ++ v_pad v ++ rest /\
  zlen (header_bytes v ++ v_csrcs v ++ Byte.be2 id ++ Byte.be2 (zlen value / 4)) = value_start v.
Proof.
  intros E. rewrite encode_parts, E. cbn [ext_bytes]. split; [by rewrite <- !app_assoc|].
  rewrite !zlen_app, !zlen_be2, zlen_header. unfold value_start. lia.
Qed.

Lemma Get2Bytes_ext v rest id value : v_ext v = Some (id, value) ->
  Byte.Get2Bytes (encode v ++ rest) (12 + zlen (v_csrcs v)) = Ok (u16 id) /\
  Byte.Get2Bytes (encode v ++ rest) (12 + zlen (v_csrcs v) + 2) = Ok (u16 (zlen value / 4)).
Proof.
  intros E. destruct (encode_value v rest id value E) as [-> _].
  pose proof (zlen_nonneg (v_csrcs v)).
  split; rewrite <- !app_assoc.
  - rewrite (Get2Bytes_app _ _ (zlen (v_csrcs v)) _) by (rewrite ?zlen_header; lia).
    rewrite (Get2Bytes_app _ _ 0 _) by lia. apply Get2Bytes_front.
  - rewrite (Get2Bytes_app _ _ (zlen (v_csrcs v) + 2) _) by (rewrite ?zlen_header; lia).
    rewrite (Get2Bytes_app _ _ 2 _) by lia.
    rewrite (Get2Bytes_app _ _ 0 _) by (rewrite ?zlen_be2; lia). apply Get2Bytes_front.
Qed.

Lemma obj_ext_id v rest one two i : view_ok v ->
  GetHeaderExtensionId (obj v rest one two i) = Ok (match v_ext v with Some (id, _) => id | None => 0 end).
Proof.
  intros Hv. unfold GetHeaderExtensionId, obj, ext_offset. cbn [headerExtension mem].
  destruct (v_ext v) as [[id value]|] eqn:E; [|done].
  destruct (Get2Bytes_ext v rest id value E) as [-> _].
  destruct (ok_ext _ Hv _ _ E) as (? & _). by rewrite uwrap_id.
Qed.

Lemma obj_ext_length v rest one two i : view_ok v ->
  GetHeaderExtensionLength (obj v rest one two i) =
    Ok (match v_ext v with Some (_, value) => zlen value | None => 0 end).
Proof.
  intros Hv. unfold GetHeaderExtensionLength, obj, ext_offset. cbn [headerExtension mem].
  destruct (v_ext v) as [[id value]|] eqn:E; [|done].
  destruct (Get2Bytes_ext v rest id value E) as [_ ->]. cbn [mbind res_bind mret res_ret].
  destruct (ok_ext _ Hv _ _ E) as (_ & _ & H1 & H2). pose proof (zlen_nonneg value). f_equal. ulia.
Qed.

Lemma obj_one_byte v rest one two i : view_ok v ->
  HasOneByteExtensions (obj v rest one two i) =
    Ok (match v_ext v with Some (id, _) => id =? 0xBEDE | None => false end).
Proof.
  intros Hv. unfold HasOneByteExtensions. rewrite (obj_ext_id v rest one two i Hv).
  by destruct (v_ext v) as [[]|].
Qed.

Lemma obj_two_bytes v rest one two i : view_ok v ->
  HasTwoBytesExtensions (obj v rest one two i) =
    Ok (match v_ext v with Some (id, _) => Z.land id 0xFFF0 =? 0x1000 | None => false end).
Proof.
  intros Hv. unfold HasTwoBytesExtensions. rewrite (obj_ext_id v rest one two i Hv).
  by destruct (v_ext v) as [[]|].
Qed.

Lemma one_slots_none start value : one_slots start value (replicate 14 None).
Proof. intros i e H. apply lookup_replicate in H as [[=] _]. Qed.

Lemma two_slots_none start value : two_slots start value ∅.
Proof. intros i e H. by rewrite lookup_empty in H. Qed.

Lemma elements_none v : elements_ok v (replicate 14 None) ∅.
Proof. split; [done|]. split; intros _; [apply one_slots_none|apply two_slots_none]. Qed.

Lemma ParseExtensions_obj v rest : view_ok v ->
  exists one two, ParseExtensions (obj v rest (replicate 14 None) ∅ no_ids) = Ok (obj v rest one two no_ids) /\
    elements_ok v one two.
Proof.
  intros Hv. unfold ParseExtensions. rewrite obj_one_byte, obj_two_bytes, obj_ext_length by done.
  cbn [mbind res_bind].
  destruct (v_ext v) as [[id value]|] eqn:E; [|eexists _, _; split; [done|apply elements_none]].
  destruct (ok_ext _ Hv _ _ E) as (_ & Hb & _).
  destruct (encode_value v rest id value E) as [Em Hz].
  assert (headerExtension (obj v rest (replicate 14 None) ∅ no_ids) = Some (12 + zlen (v_csrcs v))) as ->
    by (cbn [headerExtension obj]; unfold ext_offset; by rewrite E).
  cbn [deref mbind res_bind].
  change (mem (obj v rest (replicate 14 None) ∅ no_ids)) with (encode v ++ rest). rewrite Em.
  change (12 + zlen (v_csrcs v) + 4) with (value_start v). pose proof (zlen_nonneg value).
  destruct (Z.eqb_spec id 0xBEDE) as [->|Hn].
  - destruct (parse_one_byte_safe (Z.to_nat (zlen value))
      (header_bytes v ++ v_csrcs v ++ Byte.be2 0xBEDE ++ Byte.be2 (zlen value / 4))
      value (v_body v ++ v_pad v ++ rest) 0 (replicate 14 None)) as (acc & Ea & Hs & Hl);
      [done|lia|lia|split; [apply one_slots_none|done]|].
    rewrite Hz, Z.add_0_r in Ea. rewrite Ea. exists acc, ∅. split; [done|]. split; [done|].
    intros id' value' E'. rewrite E in E'. injection E' as <- <-. rewrite Hz in Hs. split; [done|]. intros _. apply two_slots_none.
  - destruct (Z.eqb_spec (Z.land id 0xFFF0) 0x1000); [|eexists _, _; split; [done|apply elements_none]].
    destruct (parse_two_bytes_safe (Z.to_nat (zlen value))
      (header_bytes v ++ v_csrcs v ++ Byte.be2 id ++ Byte.be2 (zlen value / 4))
      value (v_body v ++ v_pad v ++ rest) 0 ∅) as (acc & Ea & Hs);
      [done|lia|lia|apply two_slots_none|].
    rewrite Hz, Z.add_0_r in Ea. rewrite Ea. exists (replicate 14 None), acc. split; [done|]. split; [done|].
    intros id' value' E'. rewrite E in E'. injection E' as <- <-. rewrite Hz in Hs. split; [|done]. intros _. apply one_slots_none.
Qed.

(** *** Parsing *)

Lemma make_obj v rest : view_ok v ->
  exists one two,
    make (encode v ++ rest) (ext_offset v) (payload_offset v) (zlen (v_body v)) (zlen (v_pad v))
      (zlen (encode v)) = Ok (obj v rest one two no_ids) /\ elements_ok v one two.
Proof.
  intros Hv. destruct (ParseExtensions_obj v rest Hv) as (one & two & E & Hel).
  exists one, two. split; [|done]. rewrite <- E.
  unfold make, hdr_csrcCount. rewrite read_byte0. cbn [mbind res_bind mret res_ret].
  destruct (byte0_bits v Hv) as (_ & _ & _ & _ & Hc & _).
  unfold obj. by replace (byte0 v mod 16 =? 0) with (zlen (v_csrcs v) =? 0) by (case_cmp; lia).
Qed.

Lemma read_last_pad v rest : view_ok v -> v_pad v <> [] ->
  read (encode v ++ rest) (zlen (encode v) - 1) = Ok (zlen (v_pad v)).
Proof.
  intros Hv Hp. destruct (ok_pad _ Hv) as [_ Hl]. specialize (Hl Hp).
  apply last_Some in Hl as [l' El]. unfold encode.
  set (h := header_bytes v ++ v_csrcs v ++ ext_bytes (v_ext v) ++ v_body v).
  replace (header_bytes v ++ v_csrcs v ++ ext_bytes (v_ext v) ++ v_body v ++ v_pad v)
    with ((h ++ l') ++ [zlen (v_pad v)])
    by (unfold h; rewrite El at 2; by rewrite <- !app_assoc).
  rewrite zlen_app, <- app_assoc.
  replace (zlen (h ++ l') + zlen [zlen (v_pad v)] - 1) with (zlen (h ++ l') + 0) by (unfold zlen; simpl; lia).
  by rewrite read_app_r by lia.
Qed.

Lemma parse_padding_encode v rest : view_ok v ->
  parse_padding (encode v ++ rest) (zlen (encode v)) (zlen (v_body v) + zlen (v_pad v)) =
    Ok (Some (zlen (v_body v), zlen (v_pad v))).
Proof.
  intros Hv. unfold parse_padding, hdr_padding. rewrite read_byte0. cbn [mbind res_bind mret res_ret].
  destruct (byte0_bits v Hv) as (_ & _ & -> & _).
  pose proof (zlen_nonneg (v_pad v)). pose proof (zlen_nonneg (v_body v)).
  destruct (Z.eqb_spec (zlen (v_pad v)) 0) as [Hz|Hz]; cbn [b2z negb Z.eqb].
  - by rewrite Hz, Z.add_0_r.
  - rewrite read_last_pad by (done || intros E; by rewrite E in Hz). cbn [mbind res_bind].
    case_cmp; try lia. do 2 f_equal. f_equal. lia.
Qed.

Lemma IsRtp_encode v : view_ok v -> IsRtp (encode v) = Ok true.
Proof.
  intros Hv. unfold IsRtp, hdr_version. rewrite zlen_encode. destruct (byte0_bits v Hv) as (H1 & H2 & _).
  pose proof (zlen_nonneg (v_csrcs v)). pose proof (zlen_nonneg (ext_bytes (v_ext v))).
  pose proof (zlen_nonneg (v_pad v)). pose proof (zlen_nonneg (v_body v)).
  destruct (Z.leb_spec HeaderSize (12 + zlen (v_csrcs v) + zlen (ext_bytes (v_ext v)) + zlen (v_body v) + zlen (v_pad v)));
    [|unfold HeaderSize in *; lia].
  change (read (encode v) 0) with (Ok (byte0 v) : res Z). cbn [negb mbind res_bind mret res_ret].
  rewrite H1. case_cmp; try lia. done.
Qed.

Lemma take_encode v rest : take (Z.to_nat (zlen (encode v))) (encode v ++ rest) = encode v.
Proof. unfold zlen. by rewrite Nat2Z.id, take_app_length. Qed.

Lemma parse_header_extension_encode v rest : view_ok v ->
  parse_header_extension (encode v ++ rest) (zlen (encode v)) (12 + zlen (v_csrcs v)) =
    Ok (Some (ext_offset v, zlen (ext_bytes (v_ext v)))).
Proof.
  intros Hv. unfold parse_header_extension, hdr_extension. rewrite read_byte0.
  cbn [mbind res_bind mret res_ret].
  destruct (byte0_bits v Hv) as (_ & _ & _ & -> & _). unfold ext_offset.
  pose proof (zlen_nonneg (v_pad v)). pose proof (zlen_nonneg (v_body v)).
  pose proof (zlen_encode v) as Hz.
  destruct (v_ext v) as [[id value]|] eqn:E; cbn [b2z Z.eqb Pos.eqb]; [|done].
  rewrite zlen_ext_bytes in *. pose proof (zlen_nonneg value).
  destruct (Z.ltb_spec (zlen (encode v)) (12 + zlen (v_csrcs v) + 4)); [lia|].
  destruct (Get2Bytes_ext v rest id value E) as [_ ->]. cbn [mbind res_bind].
  destruct (ok_ext _ Hv _ _ E) as (_ & _ & Hm & Hd).
  replace (u16 (zlen value / 4) * 4) with (zlen value) by ulia.
  by destruct (Z.ltb_spec (zlen (encode v)) (12 + zlen (v_csrcs v) + 4 + zlen value)); [lia|].
Qed.

Lemma parse_payload_encode v rest : view_ok v ->
  exists one two,
    parse_payload (encode v ++ rest) (zlen (encode v)) (zlen (v_csrcs v)) (ext_offset v)
      (zlen (ext_bytes (v_ext v))) = Ok (Some (obj v rest one two no_ids)) /\ elements_ok v one two.
Proof.
  intros Hv. destruct (make_obj v rest Hv) as (one & two & Em & Hel). exists one, two. split; [|done].
  unfold parse_payload, HeaderSize. pose proof (zlen_encode v) as Hz.
  pose proof (zlen_nonneg (v_pad v)). pose proof (zlen_nonneg (v_body v)). cbv zeta.
  replace (zlen (encode v) - (12 + zlen (v_csrcs v) + zlen (ext_bytes (v_ext v))))
    with (zlen (v_body v) + zlen (v_pad v)) by lia.
  rewrite (parse_padding_encode v rest Hv). unfold ms_assert. cbn [mbind res_bind].
  case_cmp; try lia. cbn [mbind res_bind]. fold (payload_offset v). by rewrite Em.
Qed.

(** An encoding is accepted. *)
Lemma Parse_encode v rest : view_ok v ->
  exists one two, Parse (encode v ++ rest) (zlen (encode v)) = Ok (Some (obj v rest one two no_ids)) /\
    elements_ok v one two.
Proof.
  intros Hv. destruct (parse_payload_encode v rest Hv) as (one & two & Em & Hel).
  exists one, two. split; [|done].
  unfold Parse. rewrite take_encode, IsRtp_encode by done. cbn [mbind res_bind negb].
  unfold hdr_csrcCount, HeaderSize. rewrite read_byte0. cbn [mbind res_bind mret res_ret].
  destruct (byte0_bits v Hv) as (_ & _ & _ & _ & -> & _).
  pose proof (zlen_nonneg (ext_bytes (v_ext v))). pose proof (zlen_nonneg (v_pad v)).
  pose proof (zlen_nonneg (v_body v)). pose proof (zlen_encode v) as Hz.
  destruct (Z.ltb_spec (zlen (encode v)) (12 + zlen (v_csrcs v))); [lia|]. rewrite andb_false_r.
  by rewrite (parse_header_extension_encode v rest Hv).
Qed.

Lemma split_at {A} (l : list A) n : 0 <= n <= zlen l -> exists a b, l = a ++ b /\ zlen a = n.
Proof.
  intros H. exists (take (Z.to_nat n) l), (drop (Z.to_nat n) l).
  split; [by rewrite take_drop|]. unfold zlen in *. rewrite length_take. lia.
Qed.

Lemma bytes_ok_app l k : bytes_ok (l ++ k) <-> bytes_ok l /\ bytes_ok k.
Proof. apply Forall_app. Qed.

(** The bytes of a list that is given by its elements. *)
Ltac bytes_inv :=
  repeat match goal with
  | H : bytes_ok (_ :: _) |- _ => apply list.Forall_cons in H as [? H]
  | H : Forall (fits 8) (_ :: _) |- _ => apply list.Forall_cons in H as [? H]
  end.

(** Four bytes. *)
Lemma four_bytes (l : list Z) : zlen l = 4 -> exists a b c d, l = [a; b; c; d].
Proof.
  unfold zlen. destruct l as [|a [|b [|c [|d [|e l]]]]]; simpl; intros H; try lia. by exists a, b, c, d.
Qed.

(** A body of [n] bytes and its padding, as [parse_padding] sees them. *)
Lemma parse_padding_sound data hd D rest :
  data = hd ++ D ++ rest -> hd <> [] -> bytes_ok data ->
  parse_padding data (zlen hd + zlen D) (zlen D) = Ok None \/
  exists body pad b0, D = body ++ pad /\ read data 0 = Ok b0 /\
    b0 / 32 mod 2 = b2z (negb (zlen pad =? 0)) 1 /\ zlen pad < 256 /\
    (pad <> [] -> list.last pad = Some (zlen pad)).
Proof.
  intros -> Hne Hb. assert (Hz : 0 < zlen hd).
  { destruct hd; [done|]. rewrite zlen_cons. pose proof (zlen_nonneg hd). lia. }
  pose proof (zlen_nonneg D) as HD.
  destruct (read_in_range (hd ++ D ++ rest) 0) as (b0 & E0 & _).
  { rewrite !zlen_app. pose proof (zlen_nonneg rest). lia. }
  unfold parse_padding, hdr_padding. rewrite E0. cbn [mbind res_bind mret res_ret].
  destruct (Z.eqb_spec (b0 / 32 mod 2) 0) as [Hp|Hp]; cbn [negb].
  { right. exists D, [], b0. rewrite app_nil_r. split_and!; done. }
  destruct (Z.eqb_spec (zlen D) 0) as [|HD0]; [by left|].
  assert (D <> []) as HDn by (intros ->; done).
  apply last_is_Some in HDn as [n Hn]. apply last_Some in Hn as [D' ->].
  replace (zlen hd + zlen (D' ++ [n]) - 1) with (zlen (hd ++ D') + 0) by (unfold zlen; rewrite !length_app; simpl; lia).
  rewrite <- app_assoc, (app_assoc hd), read_app_r by lia. cbn [app]. rewrite read_cons_0.
  cbn [mbind res_bind].
  destruct (Z.eqb_spec n 0); [by left|].
  destruct (Z.ltb_spec (zlen (D' ++ [n])) n) as [|Hle]; [by left|]. right.
  assert (fits 8 n) as Hn.
  { apply bytes_ok_app in Hb as [_ Hb]. rewrite <- app_assoc in Hb. apply bytes_ok_app in Hb as [_ Hb].
    apply bytes_ok_app in Hb as [Hb _]. by inversion Hb. }
  unfold fits in Hn. change (2 ^ 8) with 256 in Hn.
  destruct (split_at (D' ++ [n]) (zlen (D' ++ [n]) - n)) as (body & pad & E & Hbz); [lia|].
  assert (Hpz : zlen pad = n) by (apply (f_equal zlen) in E; rewrite (zlen_app body) in E; lia).
  exists body, pad, b0. rewrite Hpz. split_and!; [done| |  |lia|].
  - by rewrite <- E0, <- !app_assoc.
  - destruct (Z.eqb_spec n 0); [done|]. cbn [negb b2z]. Z.div_mod_to_equations. lia.
  - intros Hpn. apply (f_equal list.last) in E. rewrite last_snoc, last_app in E.
    destruct (list.last pad) eqn:El; [done|]. by apply last_None in El.
Qed.

(** The packet whose bytes are given. *)
Lemma assemble b0 b1 b2 b3 b4 b5 b6 b7 b8 b9 b10 b11 csrcs ext body pad :
  bytes_ok [b0; b1; b2; b3; b4; b5; b6; b7; b8; b9; b10; b11] ->
  b0 / 64 = 2 -> b0 mod 16 * 4 = zlen csrcs ->
  b0 / 16 mod 2 = b2z (match ext with Some _ => true | None => false end) 1 ->
  (forall id value, ext = Some (id, value) ->
    fits 16 id /\ bytes_ok value /\ zlen value mod 4 = 0 /\ zlen value / 4 < 2 ^ 16) ->
  b0 / 32 mod 2 = b2z (negb (zlen pad =? 0)) 1 -> zlen pad < 256 ->
  (pad <> [] -> list.last pad = Some (zlen pad)) ->
  exists v, view_ok v /\
    encode v = [b0; b1; b2; b3; b4; b5; b6; b7; b8; b9; b10; b11] ++ csrcs ++ ext_bytes ext ++ body ++ pad.
Proof.
  intros Hb Hv Hc He Hext Hp Hp1 Hp2.
  bytes_inv.
  exists {| v_marker := b1 / 128 =? 1; v_pt := b1 mod 128; v_seq := b2 * 256 + b3;
            v_ts := b4 * 16777216 + b5 * 65536 + b6 * 256 + b7;
            v_ssrc := b8 * 16777216 + b9 * 65536 + b10 * 256 + b11;
            v_csrcs := csrcs; v_ext := ext; v_body := body; v_pad := pad |}.
  split.
  - unfold fits in *; pow2_consts.
    split; cbn [v_pt v_seq v_ts v_ssrc v_csrcs v_ext v_pad]; unfold fits; pow2_consts;
      [Z.div_mod_to_equations; lia|lia|lia|lia|Z.div_mod_to_equations; lia|done|done].
  - unfold encode, header_bytes, fixed.
    cbn [v_marker v_pt v_seq v_ts v_ssrc v_csrcs v_ext v_body v_pad].
    rewrite be2_of_bytes, !be4_of_bytes by done. cbn [app]. f_equal; [|f_equal].
    + unfold byte0. cbn [v_pad v_ext v_csrcs]. rewrite <- Hc, Z.div_mul by lia.
      revert He Hp. destruct (negb _), ext; cbn [b2z]; intros; ulia.
    + unfold byte1, b2z. cbn [v_marker v_pt]. destruct (Z.eqb_spec (b1 / 128) 1); ulia.
Qed.

Lemma twelve_bytes (l : list Z) : zlen l = 12 ->
  exists b0 b1 b2 b3 b4 b5 b6 b7 b8 b9 b10 b11, l = [b0; b1; b2; b3; b4; b5; b6; b7; b8; b9; b10; b11].
Proof.
  unfold zlen. intros H.
  do 12 (destruct l as [|? l]; [simpl in H; lia|]).
  destruct l; [|simpl in H; lia]. repeat eexists.
Qed.

Lemma split_bytes l n : bytes_ok l -> 0 <= n <= zlen l ->
  exists a b, l = a ++ b /\ zlen a = n /\ bytes_ok a /\ bytes_ok b.
Proof.
  intros Hb Hn. destruct (split_at l n Hn) as (a & b & -> & Ha). apply bytes_ok_app in Hb as [? ?]. eauto 6.
Qed.

(** The end of a packet whose header extension is [ext]. *)
Lemma parse_payload_sound b0 b1 b2 b3 b4 b5 b6 b7 b8 b9 b10 b11 csrcs ext D rest off :
  let h := [b0; b1; b2; b3; b4; b5; b6; b7; b8; b9; b10; b11] in
  let data := h ++ csrcs ++ ext_bytes ext ++ D ++ rest in
  let len := 12 + zlen csrcs + zlen (ext_bytes ext) + zlen D in
  bytes_ok data -> b0 / 64 = 2 -> b0 mod 16 * 4 = zlen csrcs ->
  b0 / 16 mod 2 = b2z (match ext with Some _ => true | None => false end) 1 ->
  (forall id value, ext = Some (id, value) ->
    fits 16 id /\ bytes_ok value /\ zlen value mod 4 = 0 /\ zlen value / 4 < 2 ^ 16) ->
  parse_payload data len (zlen csrcs) off (zlen (ext_bytes ext)) = Ok None \/
  exists v, view_ok v /\ data = encode v ++ rest /\ zlen (encode v) = len.
Proof.
  intros h data len Hb Hv Hc He Hext. unfold parse_payload, HeaderSize, ms_assert.
  pose proof (zlen_nonneg D). cbv zeta.
  destruct (Z.leb_spec (12 + zlen csrcs + zlen (ext_bytes ext)) len); [|unfold len in *; lia].
  cbn [mbind res_bind].
  destruct (parse_padding_sound data (h ++ csrcs ++ ext_bytes ext) D rest)
    as [En|(body & pad & b0' & ED & Eb & Hp1 & Hp2 & Hp3)].
  { unfold data. by rewrite <- !app_assoc. } { done. } { done. }
  - left. rewrite !zlen_app in En. change (zlen h) with 12 in En. rewrite Z.add_assoc in En.
    replace (len - (12 + zlen csrcs + zlen (ext_bytes ext))) with (zlen D) by (unfold len; lia).
    fold len in En. by rewrite En.
  - right. change (read data 0) with (Ok b0 : res Z) in Eb. injection Eb as <-.
    destruct (assemble b0 b1 b2 b3 b4 b5 b6 b7 b8 b9 b10 b11 csrcs ext body pad)
      as (v & Hok & Ev); [by apply bytes_ok_app in Hb as [? _]|done..|].
    exists v. rewrite Ev. split; [done|]. split; [unfold data; rewrite ED; by rewrite <- !app_assoc|].
    unfold len. rewrite ED, !zlen_app. change (zlen [b0; b1; b2; b3; b4; b5; b6; b7; b8; b9; b10; b11]) with 12. lia.
Qed.

(** The header extension, at the front of [D1]. *)
Lemma parse_header_extension_sound h csrcs D1 rest len b0 :
  let data := h ++ csrcs ++ D1 ++ rest in
  bytes_ok D1 -> zlen h = 12 -> len = 12 + zlen csrcs + zlen D1 -> read data 0 = Ok b0 ->
  parse_header_extension data len (12 + zlen csrcs) = Ok None \/
  exists ext off D, D1 = ext_bytes ext ++ D /\
    parse_header_extension data len (12 + zlen csrcs) = Ok (Some (off, zlen (ext_bytes ext))) /\
    b0 / 16 mod 2 = b2z (match ext with Some _ => true | None => false end) 1 /\
    (forall id value, ext = Some (id, value) ->
      fits 16 id /\ bytes_ok value /\ zlen value mod 4 = 0 /\ zlen value / 4 < 2 ^ 16).
Proof.
  intros data Hb Hh Hl E0. unfold parse_header_extension, hdr_extension. rewrite E0.
  cbn [mbind res_bind mret res_ret].
  destruct (Z.eqb_spec (b0 / 16 mod 2) 1) as [Hx|Hx].
  2: { right. exists None, None, D1. split_and!; [done..| |done]. cbn [b2z]. Z.div_mod_to_equations. lia. }
  destruct (Z.ltb_spec len (12 + zlen csrcs + 4)); [by left|].
  destruct (split_bytes D1 4) as (eh & D2 & E1 & Heh & Hbeh & HbD2); [done|lia|].
  destruct (four_bytes eh Heh) as (i0 & i1 & l0 & l1 & ->).
  bytes_inv.
  assert (Byte.Get2Bytes data (12 + zlen csrcs + 2) = Ok (l0 * 256 + l1)) as ->.
  { unfold data. rewrite E1. pose proof (zlen_nonneg csrcs).
    rewrite (Get2Bytes_app h _ (zlen csrcs + 2)), (Get2Bytes_app csrcs _ 2) by lia.
    by apply Get2Bytes_val. }
  cbn [mbind res_bind].
  destruct (Z.ltb_spec len (12 + zlen csrcs + 4 + (l0 * 256 + l1) * 4)); [by left|].
  assert (zlen D1 = 4 + zlen D2) by (rewrite E1, zlen_app, Heh; lia).
  destruct (split_bytes D2 ((l0 * 256 + l1) * 4)) as (value & D3 & E2 & Hval & Hbv & HbD3);
    [done|unfold fits in *; pow2_consts; lia|].
  right. exists (Some (i0 * 256 + i1, value)), (Some (12 + zlen csrcs)), D3.
  rewrite zlen_ext_bytes, Hval. split_and!; [|done|done|].
  - cbn [ext_bytes]. by rewrite Hval, Z.div_mul, !be2_of_bytes, E1, E2 by (done || lia).
  - intros id val [= <- <-]. rewrite Hval, Z.div_mul by lia.
    split_and!; [ulia..|done|apply Z.mod_mul; lia|ulia].
Qed.

(** What is not discarded is an encoding. *)
Lemma Parse_sound data len : bytes_ok data -> 0 <= len <= zlen data ->
  Parse data len = Ok None \/
  exists v rest, view_ok v /\ data = encode v ++ rest /\ zlen (encode v) = len.
Proof.
  intros Hb Hlen. destruct (split_bytes data len Hb Hlen) as (pkt & rest & -> & Hz & Hb1 & _).
  unfold Parse. rewrite <- Hz at 1. unfold zlen at 1. rewrite Nat2Z.id, take_app_length.
  unfold IsRtp, HeaderSize. destruct (Z.leb_spec 12 (zlen pkt)) as [Hl|]; cbn [negb]; [|by left].
  destruct (split_bytes pkt 12 Hb1) as (h & D & -> & Hh & Hbh & HbD); [lia|].
  destruct (twelve_bytes h Hh) as (b0 & b1 & b2 & b3 & b4 & b5 & b6 & b7 & b8 & b9 & b10 & b11 & Eh).
  assert (forall l, read (h ++ l) 0 = Ok b0) as Rd by (intros; by rewrite Eh).
  unfold hdr_version, hdr_csrcCount. rewrite !Rd.
  rewrite <- app_assoc in *. rewrite !Rd. cbn [mbind res_bind mret res_ret].
  destruct (Z.ltb_spec 127 b0), (Z.ltb_spec b0 192); cbn [andb negb]; try by left.
  destruct (Z.eqb_spec (b0 / 64) 2) as [Hv2|]; cbn [negb mbind res_bind mret res_ret]; [|by left].
  pose proof (Z.mod_pos_bound b0 16 ltac:(lia)) as Hcc. rewrite zlen_app in Hz.
  pose proof (zlen_nonneg D).
  assert (len < 12 + b0 mod 16 * 4 \/ 12 + b0 mod 16 * 4 <= len) as [Hs|Hs] by lia.
  { destruct (Z.eqb_spec (b0 mod 16) 0); [lia|]. destruct (Z.ltb_spec len (12 + b0 mod 16 * 4)); [by left|lia]. }
  destruct (Z.ltb_spec len (12 + b0 mod 16 * 4)); [lia|]. rewrite andb_false_r. cbv zeta.
  destruct (split_bytes D (b0 mod 16 * 4)) as (csrcs & D1 & -> & Hcs & _ & HbD1); [done|lia|].
  rewrite zlen_app in Hz. rewrite <- app_assoc in *. rewrite <- Hcs.
  destruct (parse_header_extension_sound h csrcs D1 rest len b0)
    as [->|(ext & off & D & -> & -> & Hx & Hext)]; [done|done|lia|apply Rd|by left|].
  cbn [mbind res_bind]. rewrite zlen_app in Hz. rewrite <- app_assoc in *. subst h.
  replace len with (12 + zlen csrcs + zlen (ext_bytes ext) + zlen D) by lia.
  destruct (parse_payload_sound b0 b1 b2 b3 b4 b5 b6 b7 b8 b9 b10 b11 csrcs ext D rest off)
    as [->|(v & ?)]; eauto.
Qed.

Lemma parse_cases data len :
  bytes_ok data -> 0 <= len <= zlen data ->
  (Parse data len = Ok None /\ ~ exists v, view_ok v /\ take (Z.to_nat len) data = encode v) \/
  (exists v one two, view_ok v /\ take (Z.to_nat len) data = encode v /\
    Parse data len = Ok (Some (obj v (drop (Z.to_nat len) data) one two no_ids)) /\
    elements_ok v one two).
Proof.
  intros Hb Hl.
  assert (forall v, view_ok v -> take (Z.to_nat len) data = encode v ->
    exists one two, Parse data len = Ok (Some (obj v (drop (Z.to_nat len) data) one two no_ids)) /\
      elements_ok v one two) as Hc.
  { intros v Hv Et. assert (zlen (encode v) = len) as Ez by (rewrite <- Et, zlen_take; lia).
    assert (data = encode v ++ drop (Z.to_nat len) data) as Ed by (rewrite <- Et; symmetry; apply take_drop).
    revert Ed. generalize (drop (Z.to_nat len) data). intros rest ->. rewrite <- Ez.
    by apply Parse_encode. }
  destruct (Parse_sound data len Hb Hl) as [En|(v & rest & Hv & Ed & Ez)].
  - left. split; [done|]. intros (v & Hv & Et). destruct (Hc v Hv Et) as (one & two & Es & _). congruence.
  - right. assert (take (Z.to_nat len) data = encode v) as Et by (rewrite Ed, <- Ez; apply take_encode).
    destruct (Hc v Hv Et) as (one & two & Es & Hel). by exists v, one, two.
Qed.

(** C3: [Parse] never reads outside of the memory it is given and fails no assertion,
    whatever the bytes of the datagram; it accepts exactly the datagrams that are the
    encoding of a packet (a version, a contributing source list, an optional header
    extension, a payload and a padding whose last byte counts it), the packet it makes has
    its pointers and lengths at these parts, and the extension elements it records all lie
    in the header extension. *)
Theorem rtp_parse_exact data len :
  bytes_ok data -> 0 <= len <= zlen data ->
  (Parse data len = Ok None /\ ~ exists v, view_ok v /\ take (Z.to_nat len) data = encode v) \/
  (exists v one two, view_ok v /\ take (Z.to_nat len) data = encode v /\
    Parse data len = Ok (Some (obj v (drop (Z.to_nat len) data) one two no_ids)) /\
    elements_ok v one two).
Proof. apply parse_cases. Qed.

(** A packet with a contributing source, One-Byte elements, a payload and padding. *)
Definition sample : list Z :=
  [0xB1; 0xE0; 1; 2; 0; 0; 0; 3; 0; 0; 0; 4; 9; 9; 9; 9;
   0xBE; 0xDE; 0; 2; 0x10; 7; 0x21; 5; 6; 0; 0; 0; 42; 43; 44; 45; 0; 0; 0; 4].

Lemma rtp_parse_exact_witness :
  (Parse sample 36 = Ok None /\ ~ exists v, view_ok v /\ take (Z.to_nat 36) sample = encode v) \/
  (exists v one two, view_ok v /\ take (Z.to_nat 36) sample = encode v /\
    Parse sample 36 = Ok (Some (obj v (drop (Z.to_nat 36) sample) one two no_ids)) /\
    elements_ok v one two).
Proof. apply rtp_parse_exact; [by apply (bool_decide_unpack _)|by vm_compute]. Defined.

(** ** Reading extension elements *)

(** A byte of the value of the header extension. *)
Lemma read_value v rest id value o b : v_ext v = Some (id, value) -> 0 <= o -> o < zlen value ->
  read value o = Ok b -> read (encode v ++ rest) (value_start v + o) = Ok b.
Proof.
  intros E Ho Hl Hr. destruct (encode_value v rest id value E) as [-> <-].
  rewrite read_app_r by done. by rewrite read_app_l.
Qed.

(** Where [GetExtension] finds a value. *)
Definition found (v : view) (e len : Z) : Prop :=
  exists id value, v_ext v = Some (id, value) /\
    0 < len < 256 /\ value_start v <= e /\ e + len <= value_start v + zlen value.

Lemma GetExtension_obj v rest one two i id :
  view_ok v -> elements_ok v one two ->
  exists r, GetExtension (obj v rest one two i) id = Ok r /\
    (forall e, r.1 = Some e -> found v e r.2).
Proof.
  intros Hv [Hlen Hel]. unfold GetExtension.
  destruct (Z.eqb_spec id 0) as [|Hid0]; [by eexists|].
  rewrite obj_one_byte, obj_two_bytes by done. cbn [mbind res_bind].
  destruct (v_ext v) as [[eid value]|] eqn:E; [|by eexists].
  destruct (Hel _ _ eq_refl) as [H1 H2]. destruct (ok_ext _ Hv _ _ E) as (_ & Hb & _).
  destruct (Z.eqb_spec eid 0xBEDE) as [->|].
  - destruct (Z.ltb_spec 14 id); [by eexists|]. unfold one_byte_slot. cbn [oneByteExtensions obj].
    destruct (lookup_lt_is_Some_2 one (Z.to_nat (id - 1))) as [[e|] Es]; [lia| |].
    2: { rewrite Es. by eexists. }
    rewrite Es. cbn [mbind res_bind]. destruct (H1 eq_refl _ _ Es) as (b & Hr & He0 & He1).
    pose proof (Z.mod_pos_bound b 16 ltac:(lia)).
    assert (read (encode v ++ rest) (value_start v + (e - value_start v)) = Ok b) as Hrd
      by (eapply read_value; [done|lia|lia|done]).
    replace (value_start v + (e - value_start v)) with e in Hrd by lia.
    cbn [mem obj]. rewrite Hrd. cbn [mbind res_bind mret res_ret]. eexists. split; [done|].
    intros e' [= <-]. exists 0xBEDE, value. cbn [snd]. split_and!; [done|lia..].
  - destruct (Z.eqb_spec (Z.land eid 0xFFF0) 0x1000) as [Ht|]; [|by eexists].
    cbn [mapTwoBytesExtensions obj]. destruct (two !! id) as [e|] eqn:Es; [|by eexists].
    destruct (H2 Ht _ _ Es) as (b & Hr & He0 & He1).
    pose proof (read_bytes_ok _ _ _ Hb Hr) as Hbb. unfold fits in Hbb. change (2 ^ 8) with 256 in Hbb.
    assert (read (encode v ++ rest) (value_start v + (e - value_start v + 1)) = Ok b) as Hrd
      by (eapply read_value; [done|lia|lia|done]).
    replace (value_start v + (e - value_start v + 1)) with (e + 1) in Hrd by lia.
    cbn [mem obj]. rewrite Hrd. cbn [mbind res_bind mret res_ret].
    destruct (Z.eqb_spec b 0); eexists; (split; [done|]); [done|].
    intros e' [= <-]. exists eid, value. cbn [snd]. split_and!; [done|lia..].
Qed.

Lemma found_bytes v rest e len : found v e len ->
  exists bs, bytes_at (encode v ++ rest) e len = Ok bs /\ zlen bs = len /\ 0 <= e /\
    e + len <= zlen (encode v ++ rest).
Proof.
  intros (id & value & E & Hl & H1 & H2). destruct (encode_value v rest id value E) as [Em Hz].
  assert (value_start v + zlen value <= zlen (encode v ++ rest)).
  { rewrite Em, zlen_app, Hz, zlen_app. pose proof (zlen_nonneg (v_body v ++ v_pad v ++ rest)). lia. }
  assert (0 <= value_start v) by (unfold value_start; pose proof (zlen_nonneg (v_csrcs v)); lia).
  eexists. split; [apply bytes_at_ok; lia|].
  split; [|lia]. rewrite zlen_take, zlen_drop. lia.
Qed.

(** A reader: [GetExtension], then an access to the value that is found. *)
Ltac reader_at Hv Hel id :=
  match goal with
  | |- context [GetExtension (obj ?v ?rest ?one ?two ?i) id] =>
      let e := fresh "e" in let len := fresh "len" in let Hf := fresh "Hf" in
      let bs := fresh "bs" in let Ev := fresh "Ev" in let Hbs := fresh "Hbs" in
      destruct (GetExtension_obj v rest one two i id Hv Hel) as ([[e|] len] & -> & Hf);
      cbn [mbind res_bind fst snd];
      [specialize (Hf e eq_refl);
       destruct (found_bytes v rest e len Hf) as (bs & Ev & Hbs); cbn [mem obj snd] in *
      |try done]
  end.
Ltac reader Hv Hel :=
  match goal with |- context [GetExtension _ ?id] => reader_at Hv Hel id end.

Lemma extension_value_obj v rest one two i id ok :
  view_ok v -> elements_ok v one two ->
  exists r, extension_value (obj v rest one two i) id ok = Ok r /\
    (forall bs, r = Some bs -> 0 < zlen bs < 256 /\ ok (zlen bs) = true).
Proof.
  intros Hv Hel. unfold extension_value. reader Hv Hel; [|by exists None].
  destruct (ok len) eqn:Eo; [|by exists None]. rewrite Ev. exists (Some bs). split; [done|].
  intros bs' [= <-]. destruct Hf as (? & ? & _ & ? & _). destruct Hbs as (-> & _). done.
Qed.

Section Readers.

Context (v : view) (rest : list Z) (one : list (option Z)) (two : gmap Z Z) (i : Ids).
Context (Hv : view_ok v) (Hel : elements_ok v one two).

Lemma ReadMid_obj : exists r, ReadMid (obj v rest one two i) = Ok r /\
  forall bs, r = Some bs -> 0 < zlen bs < 256.
Proof.
  destruct (extension_value_obj v rest one two i (midExtensionId i) (fun len => negb (len =? 0))
    Hv Hel) as (r & E & Hr).
  exists r. split; [exact E|]. intros bs Ebs. by apply Hr.
Qed.

Lemma ReadRid_obj : exists r, ReadRid (obj v rest one two i) = Ok r /\
  forall bs, r = Some bs -> 0 < zlen bs < 256.
Proof.
  unfold ReadRid.
  destruct (extension_value_obj v rest one two i (ridExtensionId i) (fun len => 0 <? len)
    Hv Hel) as (r & E & Hr).
  destruct (extension_value_obj v rest one two i (rridExtensionId i) (fun len => 0 <? len)
    Hv Hel) as (r' & E' & Hr').
  cbn [ids obj]. rewrite E. cbn [mbind res_bind]. destruct r as [x|].
  - eexists. split; [done|]. intros bs [= <-]. by apply Hr.
  - exists r'. split; [exact E'|]. intros bs Ebs. by apply Hr'.
Qed.

Lemma ReadAbsSendTime_obj : safe (ReadAbsSendTime (obj v rest one two i)).
Proof.
  unfold ReadAbsSendTime. cbn [ids obj]. reader Hv Hel; [|apply safe_ok].
  destruct (Z.eqb_spec len 3); [|apply safe_ok].
  destruct (Get3Bytes_safe (encode v ++ rest) e) as [x ->]; [lia..|]. apply safe_ok.
Qed.

Lemma ReadTransportWideCc01_obj : safe (ReadTransportWideCc01 (obj v rest one two i)).
Proof.
  unfold ReadTransportWideCc01. cbn [ids obj]. reader Hv Hel; [|apply safe_ok].
  destruct (Z.eqb_spec len 2); [|apply safe_ok].
  destruct (Get2Bytes_safe (encode v ++ rest) e) as [x ->]; [lia..|]. apply safe_ok.
Qed.

Lemma ReadSsrcAudioLevel_obj : exists r, ReadSsrcAudioLevel (obj v rest one two i) = Ok r /\
  forall x, r = Some x -> 0 <= x.1 < 128.
Proof.
  unfold ReadSsrcAudioLevel. cbn [ids obj]. reader Hv Hel; [|by exists None].
  destruct (Z.eqb_spec len 1); [|by exists None].
  destruct (Get1Byte_safe (encode v ++ rest) e) as [x ->]; [lia..|].
  eexists. split; [done|]. intros y [= <-]. cbn [fst]. change 127 with (2 ^ 7 - 1).
  rewrite land_ones_mod by lia. apply Z.mod_pos_bound. lia.
Qed.

Lemma ReadVideoOrientation_obj : exists r, ReadVideoOrientation (obj v rest one two i) = Ok r /\
  forall x, r = Some x -> x.2 ∈ [0; 90; 180; 270].
Proof.
  unfold ReadVideoOrientation. cbn [ids obj]. reader Hv Hel; [|by exists None].
  destruct (Z.eqb_spec len 1); [|by exists None].
  destruct (Get1Byte_safe (encode v ++ rest) e) as [x ->]; [lia..|].
  eexists. split; [done|]. intros y [= <-]. cbn [snd]. repeat case_match; by apply (bool_decide_unpack _).
Qed.

Lemma ReadFrameMarking_obj : exists r, ReadFrameMarking (obj v rest one two i) = Ok r /\
  forall e n, r = Some (e, n) -> 1 <= n <= 3 /\ safe (bytes_at (encode v ++ rest) e n).
Proof.
  unfold ReadFrameMarking. cbn [ids obj].
  assert (forall e n, found v e n -> ~ 3 < n ->
    1 <= n <= 3 /\ safe (bytes_at (encode v ++ rest) e n)) as Hdone.
  { intros e n Hf Hn. destruct (found_bytes v rest e n Hf) as (bs & -> & _).
    destruct Hf as (? & ? & _ & ? & _). split; [lia|apply safe_ok]. }
  reader_at Hv Hel (frameMarkingExtensionId i); [|reader_at Hv Hel (frameMarking07ExtensionId i); [|by exists None]];
    cbn [mret res_ret mbind res_bind];
    match goal with |- context [3 <? ?n] => destruct (Z.ltb_spec 3 n) end;
    try (by exists None); eexists; (split; [done|]);
    intros ? ? [= <- <-]; apply Hdone; (done || lia).
Qed.

End Readers.

(** on a packet that [Parse] accepted, whatever extension ids are set, every reader of
    an extension element returns: none of them reads outside of the memory, the MID and the
    RID have between 1 and 255 bytes, the frame marking at most 3, and the audio level and
    the rotation are in range. *)
Theorem extension_reads_safe data len p i :
  bytes_ok data -> 0 <= len <= zlen data -> Parse data len = Ok (Some p) ->
  let q := set_ids p i in
  (exists r, ReadMid q = Ok r /\ forall bs, r = Some bs -> 0 < zlen bs < 256) /\
  (exists r, ReadRid q = Ok r /\ forall bs, r = Some bs -> 0 < zlen bs < 256) /\
  safe (ReadAbsSendTime q) /\ safe (ReadTransportWideCc01 q) /\
  (exists r, ReadSsrcAudioLevel q = Ok r /\ forall x, r = Some x -> 0 <= x.1 < 128) /\
  (exists r, ReadVideoOrientation q = Ok r /\ forall x, r = Some x -> x.2 ∈ [0; 90; 180; 270]) /\
  (exists r, ReadFrameMarking q = Ok r /\ forall e n, r = Some (e, n) -> 1 <= n <= 3 /\
    safe (bytes_at (mem q) e n)).
Proof.
  intros Hb Hl HP q.
  destruct (parse_cases data len Hb Hl) as [[E _]|(v & one & two & Hv & _ & E & Hel)];
    rewrite HP in E; [done|]. injection E as ->.
  set (rest := drop (Z.to_nat len) data) in q. change q with (obj v rest one two i). clearbody rest.
  split_and!; [by apply ReadMid_obj|by apply ReadRid_obj|by apply ReadAbsSendTime_obj|
    by apply ReadTransportWideCc01_obj|by apply ReadSsrcAudioLevel_obj|
    by apply ReadVideoOrientation_obj|by apply ReadFrameMarking_obj].
Qed.

Definition sample_packet : t :=
  match Parse sample 36 with Ok (Some p) => p | _ => set_ids (obj (Build_view false 0 0 0 0 [] None [] []) [] [] ∅ no_ids) no_ids end.
Definition sample_ids : Ids := Build_Ids 2 0 0 0 0 0 0 1 0.

Lemma extension_reads_safe_witness :
  ReadMid (set_ids sample_packet sample_ids) = Ok (Some [5; 6]) /\
  (exists r, ReadSsrcAudioLevel (set_ids sample_packet sample_ids) = Ok r /\ forall x, r = Some x -> 0 <= x.1 < 128).
Proof.
  split; [by vm_compute|]. apply (extension_reads_safe sample 36 sample_packet sample_ids).
  - by apply (bool_decide_unpack _).
  - by vm_compute.
  - by vm_compute.
Defined.

(** ** Header fields rewritten in place *)

Definition with_header (v : view) (pt seq ssrc : Z) : view :=
  {| v_marker := v_marker v; v_pt := pt; v_seq := seq; v_ts := v_ts v; v_ssrc := ssrc;
     v_csrcs := v_csrcs v; v_ext := v_ext v; v_body := v_body v; v_pad := v_pad v |}.

Definition with_body (v : view) (body pad : list Z) : view :=
  {| v_marker := v_marker v; v_pt := v_pt v; v_seq := v_seq v; v_ts := v_ts v; v_ssrc := v_ssrc v;
     v_csrcs := v_csrcs v; v_ext := v_ext v; v_body := body; v_pad := pad |}.

(** A memory that starts with a fixed header. *)
Definition hdr (b0 b1 seq ts ssrc : Z) (l : list Z) : list Z :=
  b0 :: b1 :: Byte.be2 seq ++ Byte.be4 ts ++ Byte.be4 ssrc ++ l.

Lemma zlen_hdr b0 b1 seq ts ssrc l : zlen (hdr b0 b1 seq ts ssrc l) = 12 + zlen l.
Proof. unfold hdr. zlens. lia. Qed.

Lemma encode_hdr v rest :
  encode v ++ rest = hdr (byte0 v) (byte1 v) (v_seq v) (v_ts v) (v_ssrc v)
    (v_csrcs v ++ ext_bytes (v_ext v) ++ v_body v ++ v_pad v ++ rest).
Proof. rewrite encode_parts. unfold header_bytes, fixed, hdr. cbn [app]. by rewrite <- !app_assoc. Qed.

Lemma store_front x l y : store (x :: l) 0 y = Ok (y :: l).
Proof. unfold store. rewrite zlen_cons. pose proof (zlen_nonneg l). by case_cmp; try lia. Qed.

Lemma Set2Bytes_over A x y B v : Byte.Set2Bytes (A ++ x :: y :: B) (zlen A) v = Ok (A ++ Byte.be2 v ++ B).
Proof.
  unfold Byte.Set2Bytes. rewrite (store_app A _ _ 1) by lia.
  change (x :: y :: B) with ([x] ++ y :: B). rewrite (store_app [x] _ _ 0), store_front by done.
  cbn [fmap res_fmap mbind res_bind app]. rewrite (store_app A _ _ 0), store_front by lia. done.
Qed.

Lemma Set4Bytes_over A a b c d B v :
  Byte.Set4Bytes (A ++ a :: b :: c :: d :: B) (zlen A) v = Ok (A ++ Byte.be4 v ++ B).
Proof.
  unfold Byte.Set4Bytes. rewrite (store_app A _ _ 3) by lia.
  change (a :: b :: c :: d :: B) with ([a; b; c] ++ d :: B).
  rewrite (store_app [a; b; c] _ _ 0), store_front by done. cbn [fmap res_fmap mbind res_bind app].
  rewrite (store_app A _ _ 2) by lia.
  change (a :: b :: c :: ?l) with ([a; b] ++ c :: l).
  rewrite (store_app [a; b] _ _ 0), store_front by done. cbn [fmap res_fmap mbind res_bind app].
  rewrite (store_app A _ _ 1) by lia.
  change (a :: b :: ?l) with ([a] ++ b :: l).
  rewrite (store_app [a] _ _ 0), store_front by done. cbn [fmap res_fmap mbind res_bind app].
  rewrite (store_app A _ _ 0), store_front by lia. done.
Qed.

Lemma hdr_set_seq b0 b1 seq ts ssrc l x :
  Byte.Set2Bytes (hdr b0 b1 seq ts ssrc l) 2 x = Ok (hdr b0 b1 x ts ssrc l).
Proof. apply (Set2Bytes_over [b0; b1]). Qed.

Lemma hdr_set_ssrc b0 b1 seq ts ssrc l x :
  Byte.Set4Bytes (hdr b0 b1 seq ts ssrc l) 8 x = Ok (hdr b0 b1 seq ts x l).
Proof. apply (Set4Bytes_over (b0 :: b1 :: Byte.be2 seq ++ Byte.be4 ts)). Qed.

Lemma hdr_set_b1 b0 b1 seq ts ssrc l x :
  store (hdr b0 b1 seq ts ssrc l) 1 x = Ok (hdr b0 x seq ts ssrc l).
Proof.
  etransitivity; [apply (store_app [b0] (b1 :: _) 1 0); done|]. by rewrite store_front.
Qed.

Lemma hdr_set_b0 b0 b1 seq ts ssrc l x :
  store (hdr b0 b1 seq ts ssrc l) 0 x = Ok (hdr x b1 seq ts ssrc l).
Proof. apply store_front. Qed.

Lemma hdr_get_seq b0 b1 seq ts ssrc l : Byte.Get2Bytes (hdr b0 b1 seq ts ssrc l) 2 = Ok (u16 seq).
Proof. by apply Get2Bytes_be2. Qed.

Lemma write_over A W B bs o :
  o = zlen A -> zlen W = zlen bs -> write (A ++ W ++ B) o bs = Ok (A ++ bs ++ B).
Proof.
  intros -> HW. unfold write. rewrite !zlen_app, <- HW.
  pose proof (zlen_nonneg A). pose proof (zlen_nonneg B). case_cmp; try lia. cbn [andb].
  replace (Z.to_nat (zlen A)) with (length A) by (unfold zlen; lia).
  replace (Z.to_nat (zlen A + zlen W)) with (length (A ++ W)) by (rewrite length_app; unfold zlen; lia).
  by rewrite take_app_length, (app_assoc A W B), drop_app_length.
Qed.

Lemma byte1_pt v pt : view_ok v ->
  byte1 v / 128 * 128 + pt mod 128 = byte1 (with_header v (pt mod 128) (v_seq v) (v_ssrc v)).
Proof.
  intros Hv. pose proof (ok_pt _ Hv). unfold byte1, b2z. cbn [v_marker v_pt with_header].
  destruct (v_marker v); Z.div_mod_to_equations; lia.
Qed.

Lemma SetPayloadType_obj v rest one two i pt : view_ok v ->
  SetPayloadType (obj v rest one two i) pt =
    Ok (obj (with_header v (pt mod 128) (v_seq v) (v_ssrc v)) rest one two i).
Proof.
  intros Hv. unfold SetPayloadType. cbn [mem obj]. rewrite encode_hdr.
  change (read (hdr (byte0 v) (byte1 v) (v_seq v) (v_ts v) (v_ssrc v)
    (v_csrcs v ++ ext_bytes (v_ext v) ++ v_body v ++ v_pad v ++ rest)) 1) with (Ok (byte1 v) : res Z).
  cbn [mbind res_bind]. rewrite hdr_set_b1, byte1_pt by done. cbn [mbind res_bind mret res_ret].
  unfold set_mem, obj. rewrite (encode_hdr (with_header v _ _ _)). rewrite !zlen_encode. done.
Qed.

Lemma SetSsrc_obj v rest one two i ssrc :
  SetSsrc (obj v rest one two i) ssrc = Ok (obj (with_header v (v_pt v) (v_seq v) ssrc) rest one two i).
Proof.
  unfold SetSsrc. cbn [mem obj]. rewrite encode_hdr, hdr_set_ssrc. cbn [mbind res_bind mret res_ret].
  unfold set_mem, obj. rewrite (encode_hdr (with_header v _ _ _)). rewrite !zlen_encode. done.
Qed.

Lemma SetSequenceNumber_obj v rest one two i seq :
  SetSequenceNumber (obj v rest one two i) seq = Ok (obj (with_header v (v_pt v) seq (v_ssrc v)) rest one two i).
Proof.
  unfold SetSequenceNumber. cbn [mem obj]. rewrite encode_hdr, hdr_set_seq. cbn [mbind res_bind mret res_ret].
  unfold set_mem, obj. rewrite (encode_hdr (with_header v _ _ _)). rewrite !zlen_encode. done.
Qed.

Definition with_ts (v : view) (ts : Z) : view :=
  {| v_marker := v_marker v; v_pt := v_pt v; v_seq := v_seq v; v_ts := ts; v_ssrc := v_ssrc v; v_csrcs := v_csrcs v;
     v_ext := v_ext v; v_body := v_body v; v_pad := v_pad v |}.

Lemma hdr_set_ts b0 b1 seq ts ssrc l x :
  Byte.Set4Bytes (hdr b0 b1 seq ts ssrc l) 4 x = Ok (hdr b0 b1 seq x ssrc l).
Proof. exact (Set4Bytes_over [b0; b1; _; _] _ _ _ _ _ x). Qed.

Lemma SetTimestamp_obj v rest one two i ts :
  SetTimestamp (obj v rest one two i) ts = Ok (obj (with_ts v ts) rest one two i).
Proof.
  unfold SetTimestamp. cbn [mem obj]. rewrite encode_hdr, hdr_set_ts. cbn [mbind res_bind mret res_ret].
  unfold set_mem, obj. rewrite (encode_hdr (with_ts v _)). rewrite !zlen_encode. done.
Qed.

(** ** RTX *)

(** The packet with the original sequence number in front of its payload. *)
Definition rtx_view (v : view) (pt ssrc seq : Z) : view :=
  with_body (with_header v (pt mod 128) seq ssrc) (Byte.be2 (v_seq v) ++ v_body v) [].

(** The first byte without the padding bit. *)
Lemma byte0_no_padding v body : view_ok v ->
  byte0 v / 64 * 64 + 0 + byte0 v mod 32 = byte0 (with_body v body []) /\
  (zlen (v_pad v) = 0 -> byte0 (with_body v body []) = byte0 v).
Proof.
  intros Hv. destruct (byte0_bits v Hv) as (_ & _ & _ & _ & _ & H). split.
  - replace (byte0 v / 64 * 64 + 0 + byte0 v mod 32) with (byte0 v / 64 * 64 + byte0 v mod 32 + 32 * 0) by lia.
    rewrite H. unfold byte0. cbn [v_pad v_ext v_csrcs with_body]. cbn [negb Z.eqb b2z]. change (zlen (@nil Z)) with 0.
    cbn [Z.eqb negb b2z]. lia.
  - intros Hz. unfold byte0. cbn [v_pad v_ext v_csrcs with_body]. by rewrite Hz.
Qed.

(** Removing the padding of a packet whose body is at its place in memory. *)
Lemma remove_padding_obj v rest one two i body m' sz :
  view_ok v ->
  sz = 12 + zlen (v_csrcs v) + zlen (ext_bytes (v_ext v)) + zlen body + zlen (v_pad v) ->
  remove_padding
    {| mem := hdr (byte0 v) (byte1 v) (v_seq v) (v_ts v) (v_ssrc v)
                (v_csrcs v ++ ext_bytes (v_ext v) ++ body ++ m');
       csrcList := csrcList (obj v rest one two i); headerExtension := ext_offset v;
       oneByteExtensions := one; mapTwoBytesExtensions := two; ids := i;
       payload := payload_offset v; payloadLength := zlen body; payloadPadding := zlen (v_pad v);
       size := sz |} =
  Ok (obj (with_body v body []) m' one two i).
Proof.
  intros Hv Hsz. destruct (byte0_no_padding v body Hv) as [H1 H2].
  unfold remove_padding. cbn [payloadPadding size].
  assert (zlen (encode (with_body v body [])) = sz - zlen (v_pad v)) as He
    by (rewrite zlen_encode; cbn [v_csrcs v_ext v_body v_pad with_body]; change (zlen (@nil Z)) with 0; lia).
  unfold obj. rewrite (encode_hdr (with_body v body [])), He.
  cbn [v_csrcs v_ext v_body v_pad v_seq v_ts v_ssrc with_body]. change (zlen (@nil Z)) with 0.
  destruct (Z.eqb_spec (zlen (v_pad v)) 0) as [Hz|Hz]; cbn [negb].
  - rewrite H2, Hz by done. cbn [mret res_ret]. f_equal. f_equal; try reflexivity; lia.
  - unfold SetPayloadPaddingFlag. cbn [mem].
    change (read (hdr ?b ?c ?d ?e ?f ?g) 0) with (Ok b : res Z). cbn [mbind res_bind].
    rewrite hdr_set_b0, H1. cbn [mbind res_bind mret res_ret].
    reflexivity.
Qed.

(** The two bytes after the payload are overwritten. *)
Lemma shift_two H body X :
  2 <= zlen X ->
  exists w, memmove (H ++ body ++ X) (zlen H + 2) (zlen H) (zlen body) = Ok (H ++ w ++ body ++ drop 2 X) /\
    zlen w = 2.
Proof.
  intros HX. unfold memmove. rewrite bytes_at_app by done. cbn [mbind res_bind].
  destruct (split_at X 2) as (xy & R & -> & Hxy); [pose proof (zlen_nonneg X); lia|].
  destruct (split_at (body ++ xy) 2) as (w & W & Ew & Hw).
  { rewrite zlen_app. pose proof (zlen_nonneg body). lia. }
  exists w. split; [|done].
  replace (drop 2 (xy ++ R)) with R
    by (rewrite drop_app_le by (unfold zlen in Hxy; lia); rewrite drop_ge by (unfold zlen in Hxy; lia); done).
  rewrite (app_assoc body), Ew, <- !app_assoc, (app_assoc H).
  rewrite (write_over (H ++ w) W R body); [by rewrite <- !app_assoc|rewrite zlen_app; lia|].
  apply (f_equal zlen) in Ew. rewrite !zlen_app in Ew. lia.
Qed.

Lemma with_header_ok v pt seq ssrc :
  view_ok v -> fits 16 seq -> fits 32 ssrc -> view_ok (with_header v (pt mod 128) seq ssrc).
Proof. intros [] ? ?. split; cbn; [apply Z.mod_pos_bound; lia|done..]. Qed.

(** A memory whose header is that of [v]. *)
Lemma head_hdr v X :
  (header_bytes v ++ v_csrcs v ++ ext_bytes (v_ext v)) ++ X =
  hdr (byte0 v) (byte1 v) (v_seq v) (v_ts v) (v_ssrc v) (v_csrcs v ++ ext_bytes (v_ext v) ++ X).
Proof. unfold header_bytes, fixed, hdr. cbn [app]. by rewrite <- !app_assoc. Qed.

Lemma encode_head v rest :
  encode v ++ rest = (header_bytes v ++ v_csrcs v ++ ext_bytes (v_ext v)) ++ v_body v ++ v_pad v ++ rest.
Proof. rewrite encode_parts. by rewrite <- !app_assoc. Qed.

Lemma zlen_head v : zlen (header_bytes v ++ v_csrcs v ++ ext_bytes (v_ext v)) = payload_offset v.
Proof. rewrite !zlen_app, zlen_header. unfold payload_offset. lia. Qed.

Lemma two_bytes (l : list Z) : zlen l = 2 -> exists x y, l = [x; y].
Proof. unfold zlen. destruct l as [|x [|y [|]]]; simpl; intros; try lia. eauto. Qed.

Lemma with_seq_ok v seq : view_ok v -> fits 16 seq -> view_ok (with_header v (v_pt v) seq (v_ssrc v)).
Proof. intros [] ?. by split. Qed.

Lemma rtx_insert_seq_obj v rest one two i seq :
  view_ok v -> fits 16 seq -> 2 <= zlen (v_pad v ++ rest) ->
  rtx_insert_seq (obj v rest one two i) seq =
    Ok (obj (with_body (with_header v (v_pt v) seq (v_ssrc v)) (Byte.be2 (v_seq v) ++ v_body v) [])
          (drop 2 (v_pad v ++ rest)) one two i).
Proof.
  intros Hv Hseq HX.
  destruct (shift_two (header_bytes v ++ v_csrcs v ++ ext_bytes (v_ext v)) (v_body v) (v_pad v ++ rest) HX)
    as (w & Em & Hw).
  rewrite zlen_head, <- encode_head in Em. destruct (two_bytes w Hw) as (x & y & ->).
  unfold rtx_insert_seq. cbn [mem payload payloadLength obj]. rewrite Em. cbn [mbind res_bind].
  unfold GetSequenceNumber, SetSequenceNumber. cbn [mem set_mem payload].
  rewrite head_hdr, hdr_get_seq, <- head_hdr, uwrap_id by apply (ok_seq _ Hv). cbn [mbind res_bind app payload obj].
  rewrite <- (zlen_head v), Set2Bytes_over. cbn [mbind res_bind mem set_mem].
  rewrite (head_hdr v (Byte.be2 _ ++ _)), hdr_set_seq. cbn [mbind res_bind mret res_ret mem set_mem payload payloadLength size payloadPadding headerExtension].
  unfold set_payload, set_mem.
  cbn [mem csrcList headerExtension oneByteExtensions mapTwoBytesExtensions ids payload payloadLength payloadPadding size obj].
  rewrite (app_assoc (Byte.be2 (v_seq v))).
  replace (zlen (v_body v) + 2) with (zlen (Byte.be2 (v_seq v) ++ v_body v)) by (rewrite zlen_app, zlen_be2; lia).
  apply (remove_padding_obj (with_header v (v_pt v) seq (v_ssrc v)) rest); [by apply with_seq_ok|].
  rewrite zlen_encode, zlen_app, zlen_be2. cbn [v_csrcs v_ext v_pad with_header]. lia.
Qed.

Lemma RtxEncode_obj v rest one two i pt ssrc seq :
  view_ok v -> fits 32 ssrc -> fits 16 seq -> 2 <= zlen (v_pad v ++ rest) ->
  RtxEncode (obj v rest one two i) pt ssrc seq =
    Ok (obj (rtx_view v pt ssrc seq) (drop 2 (v_pad v ++ rest)) one two i).
Proof.
  intros Hv Hssrc Hseq HX. unfold RtxEncode. rewrite SetPayloadType_obj by done. cbn [mbind res_bind].
  rewrite SetSsrc_obj. cbn [mbind res_bind].
  rewrite rtx_insert_seq_obj; [done|apply (with_header_ok v pt (v_seq v) ssrc Hv (ok_seq _ Hv) Hssrc)|done|done].
Qed.

(** The payload moved over the sequence number: its last two bytes are left behind. *)
Lemma shift_back H a b body X :
  exists w, memmove (H ++ a :: b :: body ++ X) (zlen H) (zlen H + 2) (zlen body) = Ok (H ++ body ++ w ++ X) /\
    zlen w = 2.
Proof.
  unfold memmove.
  replace (H ++ a :: b :: body ++ X) with ((H ++ [a; b]) ++ body ++ X) by (by rewrite <- app_assoc).
  rewrite bytes_at_app; [|rewrite zlen_app; done|done]. cbn [mbind res_bind].
  destruct (split_at ([a; b] ++ body) (zlen body)) as (W & w & Ew & HW).
  { rewrite zlen_app. change (zlen [a; b]) with 2. pose proof (zlen_nonneg body). lia. }
  exists w. apply (f_equal zlen) in Ew as Hz. rewrite !zlen_app in Hz. change (zlen [a; b]) with 2 in Hz.
  split; [|lia].
  replace ((H ++ [a; b]) ++ body ++ X) with (H ++ W ++ w ++ X)
    by (rewrite <- app_assoc, (app_assoc [a; b]), Ew; by rewrite <- !app_assoc).
  by rewrite (write_over H W (w ++ X) body).
Qed.

Lemma rtx_remove_seq_obj v rest one two i a b body :
  view_ok v -> v_body v = a :: b :: body ->
  exists w, rtx_remove_seq (obj v rest one two i) =
    Ok (obj (with_body v body []) (w ++ v_pad v ++ rest) one two i) /\ zlen w = 2.
Proof.
  intros Hv Eb.
  destruct (shift_back (header_bytes v ++ v_csrcs v ++ ext_bytes (v_ext v)) a b body (v_pad v ++ rest))
    as (w & Em & Hw). exists w. split; [|done].
  unfold rtx_remove_seq. cbn [mem payload payloadLength obj].
  rewrite encode_head, <- (zlen_head v). rewrite Eb at 1. rewrite <- !app_comm_cons.
  replace (zlen (v_body v) - 2) with (zlen body) by (rewrite Eb, !zlen_cons; lia). rewrite Em.
  cbn [mbind res_bind]. unfold set_payload, set_mem.
  cbn [mem csrcList headerExtension oneByteExtensions mapTwoBytesExtensions ids payload payloadLength payloadPadding size obj].
  rewrite head_hdr.
  replace (zlen (v_body v) - 2) with (zlen body) by (rewrite Eb, !zlen_cons; lia).
  apply (remove_padding_obj v rest); [done|]. rewrite zlen_encode, Eb, !zlen_cons. lia.
Qed.

Lemma RtxDecode_obj v rest one two i pt ssrc orig body :
  view_ok v -> fits 32 ssrc -> fits 16 orig -> v_body v = Byte.be2 orig ++ body ->
  exists rest', RtxDecode (obj v rest one two i) pt ssrc =
    Ok (true, obj (with_body (with_header v (pt mod 128) orig ssrc) body []) rest' one two i) /\ 2 <= zlen rest'.
Proof.
  intros Hv Hssrc Horig Eb. unfold RtxDecode. cbn [payloadLength obj].
  destruct (Z.ltb_spec (zlen (v_body v)) 2) as [Hl|_].
  { rewrite Eb, zlen_app, zlen_be2 in Hl. pose proof (zlen_nonneg body). lia. }
  pose proof (with_header_ok v pt orig ssrc Hv Horig Hssrc) as Hv'.
  rewrite SetPayloadType_obj by done. cbn [mbind res_bind mem payload obj].
  rewrite encode_head, <- (zlen_head (with_header v (pt mod 128) (v_seq v) (v_ssrc v))).
  rewrite (Get2Bytes_app _ _ 0) by lia. cbn [v_body with_header]. rewrite Eb, <- app_assoc, Get2Bytes_front.
  rewrite uwrap_id by done. cbn [mbind res_bind].
  rewrite SetSequenceNumber_obj. cbn [mbind res_bind]. rewrite SetSsrc_obj. cbn [mbind res_bind].
  change (with_header _ _ _ ssrc) with (with_header v (pt mod 128) orig ssrc).
  destruct (rtx_remove_seq_obj (with_header v (pt mod 128) orig ssrc) rest one two i
    (u8 (Z.shiftr orig 8)) (u8 orig) body Hv' Eb) as (w & E & Hw).
  rewrite E. eexists. split; [reflexivity|]. rewrite zlen_app, Hw. pose proof (zlen_nonneg (v_pad v ++ rest)).
  cbn [v_pad with_header]. lia.
Qed.

(** C11: a packet sent as RTX and received back is the packet again.  [RtxEncode] on a
    packet that [Parse] accepted, in a buffer with two bytes to spare after its payload,
    yields the packet with the RTX payload type, SSRC and sequence number, the original
    sequence number in front of the payload, and no padding; [Parse] accepts its bytes; and
    [RtxDecode] with the original payload type and SSRC gives the original bytes, less the
    padding. *)
Theorem rtx_roundtrip data len p pt ssrc seq :
  bytes_ok data -> 0 <= len <= zlen data -> Parse data len = Ok (Some p) ->
  fits 32 ssrc -> fits 16 seq -> payload p + payloadLength p + 2 <= zlen data ->
  exists v q r,
    take (Z.to_nat len) data = encode v /\
    RtxEncode p pt ssrc seq = Ok q /\ GetData q = encode (rtx_view v pt ssrc seq) /\
    (exists p', Parse (GetData q) (size q) = Ok (Some p')) /\
    RtxDecode q (v_pt v) (v_ssrc v) = Ok (true, r) /\ GetData r = encode (with_body v (v_body v) []).
Proof.
  intros Hb Hl HP Hssrc Hseq Hroom.
  destruct (parse_cases data len Hb Hl) as [[E _]|(v & one & two & Hv & Et & E & Hel)];
    rewrite HP in E; [done|]. injection E as ->. clear HP.
  assert (2 <= zlen (v_pad v ++ drop (Z.to_nat len) data)) as HX.
  { rewrite <- (take_drop (Z.to_nat len) data), zlen_app, Et, zlen_encode in Hroom.
    cbn [payload payloadLength obj] in Hroom. unfold payload_offset in Hroom. rewrite zlen_app. lia. }
  revert HX. generalize (drop (Z.to_nat len) data). intros rest HX.
  pose proof (RtxEncode_obj v rest one two no_ids pt ssrc seq Hv Hssrc Hseq HX) as Ee.
  assert (view_ok (rtx_view v pt ssrc seq)) as Hv'.
  { destruct (with_header_ok v pt seq ssrc Hv Hseq Hssrc). by split. }
  destruct (RtxDecode_obj (rtx_view v pt ssrc seq) (drop 2 (v_pad v ++ rest)) one two no_ids (v_pt v)
    (v_ssrc v) (v_seq v) (v_body v)) as (rest' & Ed & _); [done|apply (ok_v_ssrc _ Hv)|apply (ok_seq _ Hv)|done|].
  exists v. eexists _, _. split; [done|]. split; [exact Ee|].
  assert (GetData (obj (rtx_view v pt ssrc seq) (drop 2 (v_pad v ++ rest)) one two no_ids) =
    encode (rtx_view v pt ssrc seq)) as Eg by apply take_encode.
  split; [exact Eg|]. split.
  { rewrite Eg. destruct (Parse_encode (rtx_view v pt ssrc seq) [] Hv') as (? & ? & E' & _).
    rewrite app_nil_r in E'. eauto. }
  split; [exact Ed|]. etransitivity; [apply take_encode|].
  f_equal. unfold with_body, rtx_view, with_header. cbn. f_equal. apply Z.mod_small, (ok_pt _ Hv).
Qed.

Lemma rtx_roundtrip_witness :
  exists v q r,
    take (Z.to_nat 36) sample = encode v /\
    RtxEncode sample_packet 97 0xABCD 7 = Ok q /\ GetData q = encode (rtx_view v 97 0xABCD 7) /\
    (exists p', Parse (GetData q) (size q) = Ok (Some p')) /\
    RtxDecode q (v_pt v) (v_ssrc v) = Ok (true, r) /\ GetData r = encode (with_body v (v_body v) []).
Proof.
  apply (rtx_roundtrip sample 36 sample_packet 97 0xABCD 7).
  - by apply (bool_decide_unpack _).
  - by vm_compute.
  - by vm_compute.
  - by apply (bool_decide_unpack _).
  - by apply (bool_decide_unpack _).
  - by vm_compute.
Defined.
