(* ===== verification/RtpExtensions.v ===== *)
(** * Rewriting the header extension of an RTP packet

    [RtpPacket::SetExtensions] refined by an operation on the parts of a packet: the header
    extension is replaced by the given elements, padded to a multiple of four bytes, and
    everything else stays.  The elements can be read back with [GetExtension]. *)

From stdpp Require Import gmap.
From S2P Require Import Prelude Utils RtcpPacket RtpPacket RtpPacketSpec.

Import RtpPacket.

(** ** The bytes of the elements *)

Definition valid (type : Z) (x : GenericExtension) : bool :=
  if type =? 1 then valid_one_byte x else valid_two_bytes x.

Definition element (type : Z) (x : GenericExtension) : list Z :=
  if valid type x then
    (if type =? 1 then [ext_id x * 16 + (zlen (ext_value x) - 1)] else [ext_id x; zlen (ext_value x)]) ++
    ext_value x
  else [].

Definition elements (type : Z) (l : list GenericExtension) : list Z := concat (element type <$> l).

(** An extension as the worker makes them: [id] and [len] are [uint8_t]. *)
Definition generic_ok (x : GenericExtension) : Prop :=
  fits 8 (ext_id x) /\ bytes_ok (ext_value x) /\ zlen (ext_value x) < 256.

#[global] Instance generic_ok_dec x : Decision (generic_ok x).
Proof. unfold generic_ok. apply _. Defined.

Definition with_ext (v : view) (e : option (Z * list Z)) : view :=
  {| v_marker := v_marker v; v_pt := v_pt v; v_seq := v_seq v; v_ts := v_ts v; v_ssrc := v_ssrc v;
     v_csrcs := v_csrcs v; v_ext := e; v_body := v_body v; v_pad := v_pad v |}.

(** The id of the header extension after [SetExtensions]: kept when it has the type. *)
Definition new_ext_id (v : view) (type : Z) : Z :=
  match v_ext v with
  | Some (id, _) =>
      if (if type =? 1 then id =? 0xBEDE else Z.land id 0xFFF0 =? 0x1000) then id else ext_type_id type
  | None => ext_type_id type
  end.

Definition is_type (type : Z) : Prop := type = 1 \/ type = 2.

Lemma valid_one_byte_iff x : valid_one_byte x = true <->
  ext_id x <> 0 /\ ext_id x <= 14 /\ zlen (ext_value x) <> 0 /\ zlen (ext_value x) <= 16.
Proof. unfold valid_one_byte. rewrite negb_true_iff, !orb_false_iff. rewrite !Z.eqb_neq, !Z.ltb_ge. tauto. Qed.

Lemma zlen_element type x : is_type type -> zlen (element type x) =
  if valid type x then type + zlen (ext_value x) else 0.
Proof.
  intros [-> | ->]; unfold element; (destruct (valid _ x); [|done]); cbn [Z.eqb Pos.eqb]; zlens; lia.
Qed.

Lemma elements_cons type x l : elements type (x :: l) = element type x ++ elements type l.
Proof. done. Qed.

Lemma total_size_elements type l : is_type type -> total_size type l = zlen (elements type l).
Proof.
  intros Ht. induction l as [|x l IH]; [done|]. rewrite elements_cons, zlen_app, zlen_element by done.
  cbn [total_size]. rewrite IH. f_equal. unfold valid. by destruct Ht as [-> | ->].
Qed.

Lemma element_bytes_ok type x : is_type type -> generic_ok x -> bytes_ok (element type x).
Proof.
  intros Ht (Hid & Hb & Hl). unfold element. destruct (valid type x) eqn:Ev; [|constructor].
  pose proof (zlen_nonneg (ext_value x)). apply bytes_ok_app. split; [|done].
  destruct Ht as [-> | ->]; cbn [Z.eqb Pos.eqb]; repeat constructor; unfold fits in *; pow2_consts; try lia;
    unfold valid in Ev; cbn [Z.eqb Pos.eqb] in Ev; apply valid_one_byte_iff in Ev; lia.
Qed.

Lemma elements_bytes_ok type l : is_type type -> Forall generic_ok l -> bytes_ok (elements type l).
Proof.
  intros Ht. induction 1; [constructor|]. rewrite elements_cons. apply bytes_ok_app.
  eauto using element_bytes_ok.
Qed.

(** The header byte of a One-Byte element. *)
Lemma one_byte_header x : valid_one_byte x = true -> 0 <= ext_id x ->
  u8 (Z.lor (Z.shiftl (ext_id x) 4) (Z.land (zlen (ext_value x) - 1) 0x0F)) =
  ext_id x * 16 + (zlen (ext_value x) - 1).
Proof.
  intros Hv Hid. apply valid_one_byte_iff in Hv. pose proof (zlen_nonneg (ext_value x)).
  change 0x0F with (2 ^ 4 - 1). rewrite land_ones_mod, Z.lor_comm, lor_shiftl_add by (try apply Z.mod_pos_bound; lia).
  rewrite Z.mod_small by (change (2 ^ 4) with 16; lia). rewrite uwrap_id; [lia|]. ulia.
Qed.

(** ** The slots that are set *)

Fixpoint slots_one (type : Z) (l : list GenericExtension) (ptr : Z) (acc : list (option Z)) : list (option Z) :=
  match l with
  | [] => acc
  | x :: l' =>
      slots_one type l' (ptr + zlen (element type x))
        (if (type =? 1) && valid type x then <[Z.to_nat (ext_id x - 1) := Some ptr]> acc else acc)
  end.

Fixpoint slots_two (type : Z) (l : list GenericExtension) (ptr : Z) (acc : gmap Z Z) : gmap Z Z :=
  match l with
  | [] => acc
  | x :: l' =>
      slots_two type l' (ptr + zlen (element type x))
        (if (type =? 2) && valid type x then <[ext_id x := ptr]> acc else acc)
  end.

Lemma drop_zlen {A} (l : list A) n : 0 <= n <= zlen l ->
  exists a b, l = a ++ b /\ zlen a = n /\ drop (Z.to_nat n) l = b.
Proof.
  intros H. destruct (split_at l n H) as (a & b & -> & Ha). exists a, b. split_and!; [done..|].
  rewrite <- Ha. unfold zlen. by rewrite Nat2Z.id, drop_app_length.
Qed.

Lemma store_over A x B v o : o = zlen A -> store (A ++ x :: B) o v = Ok (A ++ v :: B).
Proof. intros ->. rewrite (store_app A _ _ 0), store_front by lia. done. Qed.

(** Writing one element over as many bytes. *)
Lemma write_element type x l p A J C :
  is_type type -> generic_ok x -> mem p = A ++ J ++ C -> zlen J = zlen (element type x) ->
  write_elements type (x :: l) p (zlen A) =
  write_elements type l
    (set_extensions (set_mem p ((A ++ element type x) ++ C))
      (slots_one type [x] (zlen A) (oneByteExtensions p))
      (slots_two type [x] (zlen A) (mapTwoBytesExtensions p)))
    (zlen (A ++ element type x)).
Proof.
  intros Ht (Hid & _ & _) Hm HJ. unfold fits in Hid. rewrite zlen_element in HJ by done.
  rewrite zlen_app, zlen_element by done. cbn [write_elements slots_one slots_two]. unfold element, valid in *.
  destruct Ht as [-> | ->]; cbn [Z.eqb Pos.eqb andb] in *.
  - destruct (valid_one_byte x) eqn:Ev.
    2: { apply zlen_0_nil in HJ as ->. rewrite app_nil_r, Z.add_0_r. cbn [app] in Hm. rewrite <- Hm. by destruct p. }
    destruct J as [|j J]; [pose proof (zlen_nonneg (ext_value x)); change (zlen (@nil Z)) with 0 in HJ; lia|].
    rewrite zlen_cons in HJ. rewrite Hm. cbn [app]. rewrite store_over by done. cbn [mbind res_bind].
    rewrite one_byte_header by (done || lia).
    change (A ++ ?b :: J ++ C) with (A ++ [b] ++ J ++ C). rewrite app_assoc.
    rewrite write_over by (rewrite ?zlen_app; zlens; lia). cbn [mbind res_bind].
    rewrite <- Z.add_assoc, <- !app_assoc. done.
  - destruct (valid_two_bytes x) eqn:Ev.
    2: { apply zlen_0_nil in HJ as ->. rewrite app_nil_r, Z.add_0_r. cbn [app] in Hm. rewrite <- Hm. by destruct p. }
    destruct J as [|j [|j' J]]; rewrite ?zlen_cons in HJ; change (zlen (@nil Z)) with 0 in HJ;
      [pose proof (zlen_nonneg (ext_value x)); lia..|].
    rewrite Hm. cbn [app]. rewrite store_over by done. cbn [mbind res_bind].
    change (A ++ ?b :: j' :: J ++ C) with (A ++ [b] ++ j' :: J ++ C). rewrite app_assoc.
    rewrite store_over by (rewrite ?zlen_app; zlens; lia). cbn [mbind res_bind].
    change ((A ++ [?b]) ++ ?c :: J ++ C) with ((A ++ [b]) ++ [c] ++ J ++ C). rewrite app_assoc.
    rewrite write_over by (rewrite ?zlen_app; zlens; lia). cbn [mbind res_bind].
    rewrite <- Z.add_assoc, <- !app_assoc. done.
Qed.

(** Writing the elements over a free space. *)
Lemma write_elements_spec type : is_type type -> forall l p A J C,
  Forall generic_ok l -> mem p = A ++ J ++ C -> zlen (elements type l) <= zlen J ->
  write_elements type l p (zlen A) =
    Ok (set_extensions
          (set_mem p (A ++ elements type l ++ drop (Z.to_nat (zlen (elements type l))) J ++ C))
          (slots_one type l (zlen A) (oneByteExtensions p))
          (slots_two type l (zlen A) (mapTwoBytesExtensions p)),
        zlen A + zlen (elements type l)).
Proof.
  intros Ht. induction l as [|x l IH]; intros p A J C Hl Hm Hz.
  { change (elements type []) with (@nil Z). change (zlen (@nil Z)) with 0.
    rewrite Z.add_0_r. change (Z.to_nat 0) with 0%nat. rewrite drop_0. cbn [app]. rewrite <- Hm. by destruct p. }
  rewrite elements_cons, zlen_app in Hz. apply list.Forall_cons in Hl as [Hx Hl].
  pose proof (zlen_nonneg (elements type l)). pose proof (zlen_nonneg (element type x)).
  destruct (drop_zlen J (zlen (element type x))) as (J1 & J2 & -> & HJ1 & _); [lia|].
  rewrite zlen_app in Hz. rewrite <- app_assoc in Hm.
  rewrite (write_element type x l p A J1 (J2 ++ C)) by done.
  rewrite (IH _ _ J2 C); [|done|done|lia].
  rewrite elements_cons. unfold set_extensions, set_mem.
  cbn [mem csrcList headerExtension oneByteExtensions mapTwoBytesExtensions ids payload payloadLength payloadPadding size
       slots_one slots_two].
  rewrite !zlen_app, <- !app_assoc.
  replace (drop (Z.to_nat (zlen (element type x) + zlen (elements type l))) (J1 ++ J2))
    with (drop (Z.to_nat (zlen (elements type l))) J2).
  2: { rewrite <- HJ1, Z2Nat.inj_add, <- drop_drop by (apply zlen_nonneg || lia).
       f_equal. unfold zlen. by rewrite Nat2Z.id, drop_app_length. }
  by rewrite Z.add_assoc.
Qed.

(** ** Resizing the header extension *)

(** A block moved to [n] bytes after [A]. *)
Lemma memmove_to A V B R n dst src :
  dst = zlen A + n -> src = zlen A + zlen V -> 0 <= n -> n + zlen B <= zlen V + zlen B + zlen R ->
  exists V' R', memmove (A ++ V ++ B ++ R) dst src (zlen B) = Ok (A ++ V' ++ B ++ R') /\ zlen V' = n.
Proof.
  intros -> -> Hn Hroom. unfold memmove.
  rewrite (app_assoc A), bytes_at_app by (done || by rewrite zlen_app).
  cbn [mbind res_bind]. rewrite <- app_assoc. pose proof (zlen_nonneg B).
  destruct (split_at (V ++ B ++ R) n) as (V' & X & E & HV); [rewrite !zlen_app; lia|].
  apply (f_equal zlen) in E as Hz. rewrite !zlen_app in Hz.
  destruct (split_at X (zlen B)) as (W & R' & -> & HW); [lia|].
  exists V', R'. split; [|done]. rewrite E, (app_assoc A).
  rewrite write_over by (done || by rewrite zlen_app; lia). by rewrite <- app_assoc.
Qed.

Section Resize.

Context (v : view) (rest : list Z) (one : list (option Z)) (two : gmap Z Z) (i : Ids).
Context (Hv : view_ok v).

Lemma byte0_with_ext e : match v_ext v with Some _ => true | None => false end =
  match e with Some _ => true | None => false end -> byte0 (with_ext v e) = byte0 v.
Proof. intros H. unfold byte0. cbn [v_pad v_ext v_csrcs with_ext]. by rewrite H. Qed.

(** The memory of the packet with another header extension. *)
Lemma encode_with_ext e X : byte0 (with_ext v e) = byte0 v ->
  encode (with_ext v e) ++ X = (header_bytes v ++ v_csrcs v) ++ ext_bytes e ++ v_body v ++ v_pad v ++ X.
Proof.
  intros H. rewrite encode_parts. unfold header_bytes. rewrite H. cbn [v_csrcs v_ext v_body v_pad with_ext].
  by rewrite <- !app_assoc.
Qed.

Lemma zlen_front : zlen (header_bytes v ++ v_csrcs v) = 12 + zlen (v_csrcs v).
Proof. by rewrite zlen_app, zlen_header. Qed.

Lemma fix_ext_id_obj type : is_type type ->
  fix_ext_id (obj v rest one two i) type =
    Ok (obj (with_ext v (match v_ext v with
                         | Some (_, value) => Some (new_ext_id v type, value)
                         | None => None end)) rest one two i).
Proof.
  intros Ht. unfold fix_ext_id. rewrite obj_one_byte, obj_two_bytes by done. cbn [mbind res_bind].
  cbn [headerExtension obj]. unfold new_ext_id, ext_offset.
  assert (obj (with_ext v (v_ext v)) rest one two i = obj v rest one two i) as Hsame by (by destruct v).
  destruct (v_ext v) as [[id value]|] eqn:E.
  2: { rewrite andb_false_r. cbn [andb]. rewrite Hsame.
       by destruct Ht as [-> | ->]. }
  assert (forall x, set_ext_id (obj v rest one two i) (12 + zlen (v_csrcs v)) x =
    Ok (obj (with_ext v (Some (x, value))) rest one two i)) as Hset.
  { intros x. unfold set_ext_id. cbn [mem obj]. rewrite encode_head, E. cbn [ext_bytes].
    rewrite (app_assoc (header_bytes v)), <- !app_assoc, (app_assoc (header_bytes v)), <- zlen_front.
    unfold Byte.be2 at 1. cbn [app]. rewrite Set2Bytes_over. cbn [mbind res_bind mret res_ret].
    unfold obj, set_mem. rewrite encode_with_ext by (apply byte0_with_ext; by rewrite E).
    cbn [csrcList headerExtension oneByteExtensions mapTwoBytesExtensions ids payload payloadLength payloadPadding size].
    do 2 f_equal.
    all: unfold ext_offset, payload_offset; rewrite ?zlen_encode; cbn [v_csrcs v_ext v_body v_pad with_ext];
      rewrite ?E, ?zlen_ext_bytes; done. }
  destruct Ht as [-> | ->]; cbn [Z.eqb Pos.eqb andb].
  - destruct (id =? 0xBEDE); [by rewrite Hsame|apply Hset].
  - destruct (Z.land id 0xFFF0 =? 0x1000); [by rewrite Hsame|apply Hset].
Qed.

(** The packet object with a header extension of which the length is [n] and the value is
    whatever the memory holds. *)
Lemma resize_some type id value n :
  v_ext v = Some (id, value) -> n mod 4 = 0 -> 0 <= n < 2 ^ 15 -> zlen value < 2 ^ 15 ->
  n <= zlen value + zlen rest ->
  exists J rest', zlen J = n /\
    resize_ext (obj v rest one two i) type n = Ok (obj (with_ext v (Some (id, J))) rest' one two i).
Proof.
  intros E Hn4 Hn Hval Hroom. unfold resize_ext. rewrite obj_ext_length by done. cbn [headerExtension obj].
  unfold ext_offset. rewrite E. cbn [mbind res_bind].
  pose proof (zlen_nonneg value). rewrite i16_small by lia.
  destruct (Z.eqb_spec (n - zlen value) 0) as [Hz|Hz]; cbn [negb].
  { exists value, rest. split; [lia|]. rewrite <- E. by destruct v. }
  destruct (memmove_to ((header_bytes v ++ v_csrcs v) ++ Byte.be2 id ++ Byte.be2 (zlen value / 4)) value
    (v_body v ++ v_pad v) rest n (payload_offset v + (n - zlen value)) (payload_offset v))
    as (J & rest' & Em & HJ); [..|lia| |].
  { unfold payload_offset. rewrite E, zlen_ext_bytes, zlen_app, zlen_front. zlens. lia. }
  { unfold payload_offset. rewrite E, zlen_ext_bytes, zlen_app, zlen_front. zlens. lia. }
  { pose proof (zlen_nonneg (v_body v ++ v_pad v)). lia. }
  exists J, rest'. split; [done|]. unfold shift_payload. cbn [mem payload payloadLength payloadPadding obj].
  rewrite zlen_app, <- !app_assoc in Em. rewrite encode_head, E. cbn [ext_bytes].
  rewrite <- !app_assoc, Em. cbn [mbind res_bind mret res_ret].
  unfold set_ext_length. cbn [mem set_mem set_payload].
  assert (Byte.Set2Bytes
    (header_bytes v ++ v_csrcs v ++ Byte.be2 id ++ Byte.be2 (zlen value / 4) ++ J ++ v_body v ++ v_pad v ++ rest')
    (12 + zlen (v_csrcs v) + 2) (u16 (n / 4)) =
    Ok (encode (with_ext v (Some (id, J))) ++ rest')) as ->.
  { rewrite encode_with_ext by (apply byte0_with_ext; by rewrite E). cbn [ext_bytes].
    rewrite HJ, uwrap_id by ulia.
    replace (12 + zlen (v_csrcs v) + 2) with (zlen ((header_bytes v ++ v_csrcs v) ++ Byte.be2 id))
      by (rewrite zlen_app, zlen_front; zlens; lia).
    pose proof (Set2Bytes_over ((header_bytes v ++ v_csrcs v) ++ Byte.be2 id)
      (u8 (Z.shiftr (zlen value / 4) 8)) (u8 (zlen value / 4)) (J ++ v_body v ++ v_pad v ++ rest') (n / 4)) as Hs.
    rewrite <- !app_assoc in *. exact Hs. }
  cbn [mbind res_bind mret res_ret]. unfold obj, set_mem, set_payload.
  cbn [csrcList headerExtension oneByteExtensions mapTwoBytesExtensions ids payload payloadLength payloadPadding size].
  do 2 f_equal; unfold ext_offset, payload_offset; rewrite ?zlen_encode; cbn [v_csrcs v_ext v_body v_pad with_ext];
    rewrite ?E, ?zlen_ext_bytes; (done || lia).
Qed.

(** The header extension bit. *)
Lemma byte0_set_ext e : v_ext v = None ->
  byte0 v / 32 * 32 + 16 + byte0 v mod 16 = byte0 (with_ext v (Some e)).
Proof.
  intros E. destruct (byte0_bits v Hv) as (H1 & H2 & H3 & H4 & H5 & _). revert H4. unfold byte0 at 4.
  cbn [v_pad v_ext v_csrcs with_ext]. rewrite E. cbn [b2z]. rewrite <- H5, Z.div_mul by lia.
  revert H3. unfold b2z. destruct (negb _); intros; Z.div_mod_to_equations; lia.
Qed.

(** A new header extension of [n] bytes in front of the payload. *)
Lemma resize_none type n :
  v_ext v = None -> n mod 4 = 0 -> 0 <= n -> 4 + n < 2 ^ 15 -> 4 + n <= zlen rest ->
  exists J rest', zlen J = n /\
    resize_ext (obj v rest one two i) type n =
      Ok (obj (with_ext v (Some (ext_type_id type, J))) rest' one two i).
Proof.
  intros E Hn4 Hn Hval Hroom. unfold resize_ext. cbn [headerExtension obj].
  unfold ext_offset. rewrite E, (i16_small n), i16_small by lia.
  set (H := hdr (byte0 (with_ext v (Some (ext_type_id type, [])))) (byte1 v) (v_seq v) (v_ts v) (v_ssrc v) (v_csrcs v)).
  assert (HH : zlen H = payload_offset v).
  { unfold H, payload_offset. rewrite E, zlen_hdr. change (zlen (ext_bytes None)) with 0. lia. }
  destruct (memmove_to H [] (v_body v ++ v_pad v) rest (4 + n) (payload_offset v + (4 + n)) (payload_offset v))
    as (J & rest' & Em & HJ); [lia|change (zlen (@nil Z)) with 0; lia|lia| |].
  { change (zlen (@nil Z)) with 0. lia. }
  destruct (split_at J 4) as (j & J' & -> & Hj); [lia|].
  destruct (four_bytes j Hj) as (j0 & j1 & j2 & j3 & ->). rewrite zlen_app, Hj in HJ.
  exists J', rest'. split; [lia|].
  unfold SetExtensionFlag. cbn [mem obj]. rewrite encode_hdr.
  change (read (hdr ?b ?c ?d ?e ?f ?g) 0) with (Ok b : res Z). cbn [mbind res_bind].
  rewrite hdr_set_b0, (byte0_set_ext (ext_type_id type, [])), E by done. cbn [mbind res_bind mret res_ret ext_bytes app].
  unfold shift_payload. cbn [mem payload payloadLength payloadPadding set_mem obj].
  replace (hdr _ _ _ _ _ (v_csrcs v ++ _)) with (H ++ [] ++ (v_body v ++ v_pad v) ++ rest)
    by (unfold H, hdr; cbn [app]; by rewrite <- !app_assoc).
  rewrite <- zlen_app, Em. cbn [mbind res_bind mret res_ret].
  unfold set_ext_id, set_ext_length. cbn [mem set_mem set_payload].
  rewrite <- HH at 1. cbn [app]. rewrite Set2Bytes_over. cbn [mbind res_bind mret res_ret mem set_mem].
  assert (Byte.Set2Bytes (H ++ Byte.be2 (ext_type_id type) ++ j2 :: j3 :: J' ++ (v_body v ++ v_pad v) ++ rest')
    (payload_offset v + 2) (u16 (n / 4)) =
    Ok (encode (with_ext v (Some (ext_type_id type, J'))) ++ rest')) as ->.
  { rewrite (app_assoc H), <- HH.
    replace (zlen H + 2) with (zlen (H ++ Byte.be2 (ext_type_id type))) by (rewrite zlen_app; zlens; lia).
    rewrite Set2Bytes_over, uwrap_id by ulia. rewrite encode_hdr. cbn [v_csrcs v_ext v_body v_pad with_ext ext_bytes].
    replace (zlen J') with n by lia. unfold H, hdr. cbn [app]. by rewrite <- !app_assoc. }
  cbn [mbind res_bind mret res_ret]. unfold obj, set_mem, set_payload.
  cbn [csrcList headerExtension oneByteExtensions mapTwoBytesExtensions ids payload payloadLength payloadPadding size].
  do 2 f_equal; unfold ext_offset, payload_offset; rewrite ?zlen_encode; cbn [v_csrcs v_ext v_body v_pad with_ext];
    rewrite ?E, ?zlen_ext_bytes; change (zlen (ext_bytes None)) with 0; (done || lia || (f_equal; lia)).
Qed.

End Resize.

(** ** The header extension replaced *)

(** The value of the new header extension: the elements and up to three zeros. *)
Definition new_value (type : Z) (l : list GenericExtension) : list Z :=
  elements type l ++ replicate (Z.to_nat ((- zlen (elements type l)) mod 4)) 0.

Definition set_view (v : view) (type : Z) (l : list GenericExtension) : view :=
  with_ext v (Some (new_ext_id v type, new_value type l)).

Lemma zlen_new_value type l : zlen (new_value type l) = padded (zlen (elements type l)).
Proof.
  unfold new_value, padded. rewrite zlen_app, zlen_replicate; [done|]. apply Z.mod_pos_bound. lia.
Qed.

Lemma new_ext_id_ok v type : view_ok v -> is_type type ->
  fits 16 (new_ext_id v type) /\
  (if type =? 1 then new_ext_id v type = 0xBEDE else Z.land (new_ext_id v type) 0xFFF0 = 0x1000).
Proof.
  intros Hv Ht. unfold new_ext_id. destruct (v_ext v) as [[id value]|] eqn:E.
  - destruct (ok_ext _ Hv _ _ E) as (Hid & _).
    destruct Ht as [-> | ->]; cbn [Z.eqb Pos.eqb]; case_cmp; split; (done || (unfold ext_type_id; ulia)).
  - destruct Ht as [-> | ->]; cbn [Z.eqb Pos.eqb]; split; (done || (unfold ext_type_id; ulia)).
Qed.

Lemma set_view_ok v type l : view_ok v -> is_type type -> Forall generic_ok l ->
  padded (zlen (elements type l)) < 2 ^ 15 -> view_ok (set_view v type l).
Proof.
  intros Hv Ht Hl Hn. destruct (new_ext_id_ok v type Hv Ht) as [Hid _]. destruct Hv. split; try done.
  intros id value [= <- <-]. rewrite zlen_new_value. split_and!; [done| | |].
  - unfold new_value. apply bytes_ok_app. split; [by apply elements_bytes_ok|].
    apply Forall_replicate. by apply (bool_decide_unpack _).
  - unfold padded. Z.div_mod_to_equations. lia.
  - pow2_consts. Z.div_mod_to_equations. lia.
Qed.

(** What the worker needs to rewrite the extension in place. *)
Record room (v : view) (rest : list Z) (type : Z) (l : list GenericExtension) : Prop := {
  room_small : 4 + padded (zlen (elements type l)) < 2 ^ 15;
  room_old : forall id value, v_ext v = Some (id, value) -> zlen value < 2 ^ 15;
  room_mem : zlen (encode (set_view v type l)) <= zlen (encode v ++ rest);
}.

(** The header extension resized, whether there was one or not. *)
Lemma resize_obj v rest one two i type l :
  view_ok v -> is_type type -> room v rest type l ->
  exists J rest', zlen J = padded (zlen (elements type l)) /\
    fix_ext_id (obj v rest one two i) type ≫=
      (fun p => resize_ext p type (padded (zlen (elements type l)))) =
    Ok (obj (with_ext v (Some (new_ext_id v type, J))) rest' one two i).
Proof.
  intros Hv Ht [Hs Ho Hm]. rewrite fix_ext_id_obj by done. cbn [mbind res_bind].
  destruct (new_ext_id_ok v type Hv Ht) as [Hid _].
  pose proof (zlen_nonneg (elements type l)).
  assert (padded (zlen (elements type l)) mod 4 = 0 /\ 0 <= padded (zlen (elements type l))) as [H4 H0].
  { unfold padded. Z.div_mod_to_equations. lia. }
  rewrite zlen_app, !zlen_encode in Hm. cbn [v_csrcs v_ext v_body v_pad set_view with_ext] in Hm.
  rewrite zlen_ext_bytes, zlen_new_value in Hm.
  destruct (v_ext v) as [[id value]|] eqn:E.
  - rewrite zlen_ext_bytes in Hm. specialize (Ho _ _ eq_refl).
    destruct (resize_some (with_ext v (Some (new_ext_id v type, value))) rest one two i) with
      (type := type) (id := new_ext_id v type) (value := value) (n := padded (zlen (elements type l)))
      as (J & rest' & HJ & Er); [|done|lia|lia|lia|lia|].
    { destruct (ok_ext _ Hv _ _ E) as (_ & Hrest). destruct Hv. split; try done.
      by intros ? ? [= <- <-]. }
    by exists J, rest'.
  - change (zlen (ext_bytes None)) with 0 in Hm.
    assert (with_ext v None = v) as -> by (rewrite <- E; by destruct v).
    assert (new_ext_id v type = ext_type_id type) as -> by (unfold new_ext_id; by rewrite E).
    apply resize_none; (done || lia).
Qed.

Lemma SetExtensions_obj v rest one two i type l :
  view_ok v -> is_type type -> Forall generic_ok l -> room v rest type l ->
  exists rest', SetExtensions (obj v rest one two i) type l =
    Ok (obj (set_view v type l) rest' (slots_one type l (value_start v) (replicate 14 None))
          (slots_two type l (value_start v) ∅) no_ids).
Proof.
  intros Hv Ht Hl Hr. pose proof (room_small _ _ _ _ Hr) as Hs.
  destruct (resize_obj v rest (replicate 14 None) ∅ no_ids type l Hv Ht Hr) as (J & rest' & HJ & Er).
  exists rest'. unfold SetExtensions, ms_assert at 1.
  assert ((type =? 1) || (type =? 2) = true) as -> by (by destruct Ht as [-> | ->]).
  cbn [mbind res_bind].
  change (set_extensions (set_ids (obj v rest one two i) no_ids) (replicate 14 None) ∅)
    with (obj v rest (replicate 14 None) ∅ no_ids).
  pose proof (zlen_nonneg (elements type l)).
  assert (0 <= (- zlen (elements type l)) mod 4 < 4) as Hm4 by (apply Z.mod_pos_bound; lia).
  assert (padded (zlen (elements type l)) = zlen (elements type l) + (- zlen (elements type l)) mod 4) as Hp by done.
  rewrite total_size_elements, PadTo4Bytes16_padded by (done || lia).
  apply res_bind_ok in Er as (p1 & E1 & E2). rewrite E1. cbn [mbind res_bind]. rewrite E2. cbn [mbind res_bind].
  set (v1 := with_ext v (Some (new_ext_id v type, J))).
  assert (headerExtension (obj v1 rest' (replicate 14 None) ∅ no_ids) = Some (12 + zlen (v_csrcs v))) as -> by done.
  cbn [deref mbind res_bind].
  destruct (encode_value v1 rest' (new_ext_id v type) J eq_refl) as [Em Hz].
  change (value_start v1) with (value_start v) in Hz.
  change (12 + zlen (v_csrcs v) + 4) with (value_start v). rewrite <- Hz.
  rewrite (write_elements_spec type Ht l _ _ J (v_body v ++ v_pad v ++ rest')); [|done|exact Em|lia].
  cbn [mbind res_bind mem set_extensions set_mem].
  replace (u64 (padded (zlen (elements type l)) - zlen (elements type l)))
    with ((- zlen (elements type l)) mod 4) by (rewrite Hp, uwrap_id by ulia; lia).
  rewrite (app_assoc _ (elements type l)).
  rewrite write_over.
  2: { symmetry. apply zlen_app. }
  2: { rewrite zlen_drop, HJ. rewrite zlen_replicate by lia. lia. }
  cbn [mbind res_bind]. unfold ms_assert. cbn [payload set_mem set_extensions obj]. rewrite Hz.
  destruct (Z.eqb_spec (value_start v + zlen (elements type l) + (- zlen (elements type l)) mod 4) (payload_offset v1)) as [_|Hne].
  2: { exfalso. apply Hne. unfold payload_offset, value_start. cbn [v_csrcs v_ext v1 with_ext].
       rewrite zlen_ext_bytes, HJ. lia. }
  cbn [mbind res_bind mret res_ret]. unfold obj, set_extensions, set_mem.
  cbn [csrcList headerExtension oneByteExtensions mapTwoBytesExtensions ids payload payloadLength payloadPadding size].
  assert (zlen (ext_bytes (v_ext v1)) = zlen (ext_bytes (v_ext (set_view v type l)))) as Hze.
  { cbn [v_ext v1 set_view with_ext]. by rewrite !zlen_ext_bytes, zlen_new_value, HJ. }
  do 2 f_equal; unfold payload_offset; rewrite ?zlen_encode, ?Hze; try done.
  destruct (encode_value (set_view v type l) rest' (new_ext_id v type) (new_value type l) eq_refl) as [-> _].
  rewrite zlen_new_value, HJ. unfold new_value. by rewrite <- !app_assoc.
Qed.

(** ** The elements that can be read back *)

Lemma elements_app type l1 l2 : elements type (l1 ++ l2) = elements type l1 ++ elements type l2.
Proof. unfold elements. by rewrite fmap_app, concat_app. Qed.

Lemma slots_one_app type l1 l2 ptr acc :
  slots_one type (l1 ++ l2) ptr acc =
  slots_one type l2 (ptr + zlen (elements type l1)) (slots_one type l1 ptr acc).
Proof.
  revert ptr acc. induction l1 as [|x l1 IH]; intros; cbn [app slots_one].
  { change (elements type []) with (@nil Z). change (zlen (@nil Z)) with 0. by rewrite Z.add_0_r. }
  by rewrite IH, elements_cons, zlen_app, Z.add_assoc.
Qed.

Lemma slots_two_app type l1 l2 ptr acc :
  slots_two type (l1 ++ l2) ptr acc =
  slots_two type l2 (ptr + zlen (elements type l1)) (slots_two type l1 ptr acc).
Proof.
  revert ptr acc. induction l1 as [|x l1 IH]; intros; cbn [app slots_two].
  { change (elements type []) with (@nil Z). change (zlen (@nil Z)) with 0. by rewrite Z.add_0_r. }
  by rewrite IH, elements_cons, zlen_app, Z.add_assoc.
Qed.

Lemma length_slots_one type l ptr acc : length (slots_one type l ptr acc) = length acc.
Proof.
  revert ptr acc. induction l as [|x l IH]; intros; cbn [slots_one]; [done|]. rewrite IH.
  destruct (_ && _); [by rewrite length_insert|done].
Qed.

(** Where a slot comes from. *)
Lemma slots_one_inv type l : forall ptr acc k e, slots_one type l ptr acc !! k = Some (Some e) ->
  acc !! k = Some (Some e) \/
  exists l1 x l2, l = l1 ++ x :: l2 /\ type = 1 /\ valid type x = true /\ e = ptr + zlen (elements type l1).
Proof.
  induction l as [|y l IH]; intros ptr acc k e H; cbn [slots_one] in H; [by left|].
  apply IH in H as [H|(l1 & x & l2 & -> & -> & Hx & ->)].
  - destruct (Z.eqb_spec type 1) as [->|]; [|by left]. destruct (valid 1 y) eqn:Ey; [|by left].
    cbn [andb] in H. apply list_lookup_insert_Some in H as [(_ & [= <-] & _)|(_ & H)]; [|by left].
    right. exists [], y, l. split_and!; [done..|]. change (elements 1 []) with (@nil Z). symmetry. apply Z.add_0_r.
  - right. exists (y :: l1), x, l2. rewrite elements_cons, zlen_app. split_and!; [done..|lia].
Qed.

Lemma slots_two_inv type l : forall ptr acc k e, slots_two type l ptr acc !! k = Some e ->
  acc !! k = Some e \/
  exists l1 x l2, l = l1 ++ x :: l2 /\ type = 2 /\ valid type x = true /\ e = ptr + zlen (elements type l1).
Proof.
  induction l as [|y l IH]; intros ptr acc k e H; cbn [slots_two] in H; [by left|].
  apply IH in H as [H|(l1 & x & l2 & -> & -> & Hx & ->)].
  - destruct (Z.eqb_spec type 2) as [->|]; [|by left]. destruct (valid 2 y) eqn:Ey; [|by left].
    cbn [andb] in H. apply lookup_insert_Some in H as [(_ & <-)|(_ & H)]; [|by left].
    right. exists [], y, l. split_and!; [done..|]. change (elements 2 []) with (@nil Z). symmetry. apply Z.add_0_r.
  - right. exists (y :: l1), x, l2. rewrite elements_cons, zlen_app. split_and!; [done..|lia].
Qed.

(** The value around an element. *)
Lemma new_value_element type l1 x l2 : exists C,
  new_value type (l1 ++ x :: l2) = elements type l1 ++ element type x ++ C.
Proof.
  unfold new_value. rewrite elements_app, elements_cons, <- !app_assoc. eauto.
Qed.

Lemma one_byte_mod x : valid_one_byte x = true ->
  (ext_id x * 16 + (zlen (ext_value x) - 1)) mod 16 + 1 = zlen (ext_value x).
Proof. intros Hx. apply valid_one_byte_iff in Hx. pose proof (zlen_nonneg (ext_value x)). Z.div_mod_to_equations. lia. Qed.

Lemma set_elements_ok v type l : view_ok v -> is_type type ->
  elements_ok (set_view v type l) (slots_one type l (value_start v) (replicate 14 None))
    (slots_two type l (value_start v) ∅).
Proof.
  intros Hv Ht. split; [by rewrite length_slots_one|].
  intros id value [= <- <-]. change (value_start (set_view v type l)) with (value_start v). split; intros _.
  - intros k e H. apply slots_one_inv in H as [H|(l1 & x & l2 & -> & -> & Hx & ->)].
    { apply lookup_replicate in H as [[=] _]. }
    destruct (new_value_element 1 l1 x l2) as [C ->]. rewrite Z.add_simpl_l.
    unfold element. rewrite Hx. cbn [Z.eqb Pos.eqb]. rewrite <- app_assoc.
    exists (ext_id x * 16 + (zlen (ext_value x) - 1)). split_and!; [|apply zlen_nonneg|].
    + rewrite <- (Z.add_0_r (zlen (elements 1 l1))), read_app_r by lia. done.
    + rewrite one_byte_mod by done. rewrite !zlen_app. change (zlen [_]) with 1.
      pose proof (zlen_nonneg C). lia.
  - intros k e H. apply slots_two_inv in H as [H|(l1 & x & l2 & -> & -> & Hx & ->)].
    { by rewrite lookup_empty in H. }
    destruct (new_value_element 2 l1 x l2) as [C ->]. rewrite Z.add_simpl_l.
    unfold element. rewrite Hx. cbn [Z.eqb Pos.eqb]. rewrite <- app_assoc.
    exists (zlen (ext_value x)). split_and!; [|apply zlen_nonneg|].
    + rewrite read_app_r by lia. done.
    + rewrite !zlen_app. change (zlen [_; _]) with 2. pose proof (zlen_nonneg C). lia.
Qed.

(** The slot of the only element with its id. *)
Lemma slots_one_other type l : forall ptr acc k,
  Forall (fun y => valid type y = true -> Z.to_nat (ext_id y - 1) <> k) l ->
  slots_one type l ptr acc !! k = acc !! k.
Proof.
  induction l as [|y l IH]; intros ptr acc k Hl; cbn [slots_one]; [done|].
  apply list.Forall_cons in Hl as [Hy Hl]. rewrite IH by done.
  destruct (type =? 1), (valid type y); cbn [andb]; try done. apply list_lookup_insert_ne. auto.
Qed.

Lemma slots_two_other type l : forall ptr acc k, Forall (fun y => ext_id y <> k) l ->
  slots_two type l ptr acc !! k = acc !! k.
Proof.
  induction l as [|y l IH]; intros ptr acc k Hl; cbn [slots_two]; [done|].
  apply list.Forall_cons in Hl as [Hy Hl]. rewrite IH by done.
  destruct (_ && _); [|done]. by apply lookup_insert_ne.
Qed.

Lemma slot_of_element type l1 x l2 ptr :
  is_type type -> Forall generic_ok (l1 ++ x :: l2) -> NoDup (ext_id <$> l1 ++ x :: l2) -> valid type x = true ->
  (type = 1 -> slots_one type (l1 ++ x :: l2) ptr (replicate 14 None) !! Z.to_nat (ext_id x - 1) =
    Some (Some (ptr + zlen (elements type l1)))) /\
  (type = 2 -> slots_two type (l1 ++ x :: l2) ptr ∅ !! ext_id x = Some (ptr + zlen (elements type l1))).
Proof.
  intros Ht Hok Hnd Hx. rewrite fmap_app in Hnd. apply NoDup_app in Hnd as (_ & _ & Hnd).
  cbn [fmap list_fmap] in Hnd. apply NoDup_cons in Hnd as [Hnd _].
  assert (Forall (fun y => ext_id y <> ext_id x) l2) as Hne.
  { apply Forall_forall. intros y Hy Heq. apply Hnd. rewrite <- Heq. by apply list_elem_of_fmap_2. }
  apply Forall_app in Hok as [_ Hok]. apply list.Forall_cons in Hok as [(Hidx & _) Hok].
  split; intros ->.
  - rewrite slots_one_app. cbn [slots_one]. rewrite Hx. cbn [Z.eqb Pos.eqb andb].
    unfold valid in Hx. cbn [Z.eqb Pos.eqb] in Hx. apply valid_one_byte_iff in Hx. unfold fits in Hidx.
    rewrite slots_one_other.
    + apply list_lookup_insert_eq. rewrite length_slots_one, length_replicate. lia.
    + apply Forall_forall. intros y Hy Hvy. rewrite Forall_forall in Hne, Hok.
      destruct (Hok y Hy) as (Hidy & _). unfold fits in Hidy. specialize (Hne y Hy).
      unfold valid in Hvy. cbn [Z.eqb Pos.eqb] in Hvy. apply valid_one_byte_iff in Hvy. lia.
  - rewrite slots_two_app. cbn [slots_two]. rewrite Hx. cbn [Z.eqb Pos.eqb andb].
    rewrite slots_two_other by done. by rewrite lookup_insert_eq.
Qed.

(** An element of the new header extension is found, with its value. *)
Lemma read_back v rest type l1 x l2 :
  let l := l1 ++ x :: l2 in
  view_ok v -> is_type type -> Forall generic_ok l -> NoDup (ext_id <$> l) ->
  padded (zlen (elements type l)) < 2 ^ 15 -> valid type x = true -> ext_value x <> [] ->
  extension_value
    (obj (set_view v type l) rest (slots_one type l (value_start v) (replicate 14 None))
      (slots_two type l (value_start v) ∅) no_ids) (ext_id x) (fun _ => true) = Ok (Some (ext_value x)).
Proof.
  intros l Hv Ht Hok Hnd Hn Hx Hne. pose proof (set_view_ok v type l Hv Ht Hok Hn) as Hv'.
  destruct (new_ext_id_ok v type Hv Ht) as [_ Hid].
  destruct (slot_of_element type l1 x l2 (value_start v) Ht Hok Hnd Hx) as [H1 H2]. fold l in H1, H2.
  destruct (encode_value (set_view v type l) rest (new_ext_id v type) (new_value type l) eq_refl) as [Em Hz].
  change (value_start (set_view v type l)) with (value_start v) in Hz.
  destruct (new_value_element type l1 x l2) as [C EC]. fold l in EC.
  set (A := header_bytes _ ++ _) in Em, Hz. rewrite EC in Em. clearbody A. rewrite <- !app_assoc, (app_assoc A) in Em.
  assert (HA : zlen (A ++ elements type l1) = value_start v + zlen (elements type l1)) by (rewrite zlen_app; lia).
  unfold extension_value, GetExtension. rewrite obj_one_byte, obj_two_bytes by done. cbn [v_ext set_view with_ext].
  apply Forall_app in Hok as [_ Hok]. apply list.Forall_cons in Hok as [(Hidx & _ & Hlx) _]. unfold fits in Hidx.
  assert (zlen (ext_value x) <> 0) as Hnz by (intros E0; by apply zlen_0_nil in E0).
  unfold element in Em. rewrite Hx in Em. unfold valid in Hx.
  destruct Ht as [-> | ->]; cbn [Z.eqb Pos.eqb] in *.
  - rewrite Hid. pose proof Hx as Hx'. apply valid_one_byte_iff in Hx'.
    destruct (Z.eqb_spec (ext_id x) 0); [lia|]. cbn [Z.eqb Pos.eqb mbind res_bind].
    destruct (Z.ltb_spec 14 (ext_id x)); [lia|]. unfold one_byte_slot. cbn [oneByteExtensions obj mem].
    rewrite H1 by done. cbn [mbind res_bind]. rewrite Em, <- HA.
    rewrite <- (Z.add_0_r (zlen (A ++ elements 1 l1))), read_app_r, Z.add_0_r by lia.
    cbn [app]. rewrite read_cons_0. cbn [mbind res_bind mret res_ret]. rewrite one_byte_mod by done.
    replace ((A ++ elements 1 l1) ++ _) with
      (((A ++ elements 1 l1) ++ [ext_id x * 16 + (zlen (ext_value x) - 1)]) ++ ext_value x ++ C ++ v_body v ++ v_pad v ++ rest)
      by (rewrite <- !app_assoc; done).
    rewrite bytes_at_app; [done|by rewrite (zlen_app (A ++ _))|done].
  - assert ((new_ext_id v 2 =? 0xBEDE) = false) as ->.
    { apply Z.eqb_neq. intros E. by rewrite E in Hid. }
    rewrite Hid. unfold valid_two_bytes in Hx. apply negb_true_iff in Hx. rewrite Hx.
    cbn [Z.eqb Pos.eqb mbind res_bind mapTwoBytesExtensions obj mem]. rewrite H2 by done. rewrite Em, <- HA.
    rewrite read_app_r by lia. change (read (([ext_id x; ?n] ++ ?k) ++ ?m) 1) with (Ok n : res Z).
    cbn [mbind res_bind]. destruct (Z.eqb_spec (zlen (ext_value x)) 0); [done|]. cbn [mbind res_bind mret res_ret].
    replace ((A ++ elements 2 l1) ++ _) with
      (((A ++ elements 2 l1) ++ [ext_id x; zlen (ext_value x)]) ++ ext_value x ++ C ++ v_body v ++ v_pad v ++ rest)
      by (rewrite <- !app_assoc; done).
    rewrite bytes_at_app; [done|by rewrite (zlen_app (A ++ _))|done].
Qed.

(** C4: [SetExtensions] replaces the header extension of a packet that [Parse] accepted and
    nothing else.  When the memory has room for the new packet, it fails no assertion and
    writes nowhere else; the bytes of the packet become the encoding of the same packet
    with a header extension that holds the given elements, padded with zeros; [Parse]
    accepts them; and, when the ids are distinct, [GetExtension] finds each non-empty
    element with its value. *)
Theorem set_extensions_spec data len p type l :
  bytes_ok data -> 0 <= len <= zlen data -> Parse data len = Ok (Some p) -> len < 2 ^ 15 ->
  is_type type -> Forall generic_ok l ->
  4 + padded (zlen (elements type l)) < 2 ^ 15 ->
  len + 4 + padded (zlen (elements type l)) <= zlen data ->
  exists v q,
    take (Z.to_nat len) data = encode v /\
    SetExtensions p type l = Ok q /\
    GetData q = encode (set_view v type l) /\
    (exists p', Parse (GetData q) (size q) = Ok (Some p')) /\
    (NoDup (ext_id <$> l) -> forall x, x ∈ l -> valid type x = true -> ext_value x <> [] ->
       extension_value q (ext_id x) (fun _ => true) = Ok (Some (ext_value x))).
Proof.
  intros Hb Hl HP Hlen Ht Hok Hs Hroom.
  destruct (parse_cases data len Hb Hl) as [[E _]|(v & one & two & Hv & Et & E & Hel)];
    rewrite HP in E; [done|]. injection E as ->. clear HP.
  assert (zlen (encode v) = len) as Ez by (rewrite <- Et, zlen_take; lia).
  assert (room v (drop (Z.to_nat len) data) type l) as Hr.
  { pose proof (zlen_encode v) as Hze. pose proof (zlen_nonneg (v_csrcs v)). pose proof (zlen_nonneg (v_body v)).
    pose proof (zlen_nonneg (v_pad v)). pose proof (zlen_nonneg (ext_bytes (v_ext v))). split; [done| |].
    - intros id value E. rewrite E, zlen_ext_bytes in Hze. lia.
    - rewrite <- Et, take_drop, zlen_encode. cbn [v_csrcs v_ext v_body v_pad set_view with_ext].
      rewrite zlen_ext_bytes, zlen_new_value. lia. }
  destruct (SetExtensions_obj v (drop (Z.to_nat len) data) one two no_ids type l Hv Ht Hok Hr) as (rest' & Es).
  pose proof (set_view_ok v type l Hv Ht Hok ltac:(lia)) as Hv'.
  exists v. eexists. split; [done|]. split; [exact Es|].
  assert (GetData (obj (set_view v type l) rest' (slots_one type l (value_start v) (replicate 14 None))
    (slots_two type l (value_start v) ∅) no_ids) = encode (set_view v type l)) as Eg by apply take_encode.
  split; [exact Eg|]. split.
  { rewrite Eg. destruct (Parse_encode (set_view v type l) [] Hv') as (? & ? & E' & _).
    rewrite app_nil_r in E'. eauto. }
  intros Hnd x Hx. apply list_elem_of_split in Hx as (l1 & l2 & ->). intros. apply read_back; (done || lia).
Qed.

Lemma set_extensions_spec_witness :
  let data := sample ++ replicate 40 0 in
  let l := [{| ext_id := 3; ext_value := [1; 2; 3] |}; {| ext_id := 4; ext_value := [5] |};
            {| ext_id := 15; ext_value := [9] |}] in
  let p := match Parse data 36 with Ok (Some p) => p | _ => sample_packet end in
  exists v q,
    take (Z.to_nat 36) data = encode v /\
    SetExtensions p 1 l = Ok q /\
    GetData q = encode (set_view v 1 l) /\
    (exists p', Parse (GetData q) (size q) = Ok (Some p')) /\
    (NoDup (ext_id <$> l) -> forall x, x ∈ l -> valid 1 x = true -> ext_value x <> [] ->
       extension_value q (ext_id x) (fun _ => true) = Ok (Some (ext_value x))).
Proof.
  intros data l p. apply (set_extensions_spec data 36 p 1 l).
  - by apply (bool_decide_unpack _).
  - by vm_compute.
  - by vm_compute.
  - by vm_compute.
  - by left.
  - by apply (bool_decide_unpack _).
  - by vm_compute.
  - by vm_compute.
Defined.
