(* ===== verification/RtpClone.v ===== *)
(** * Copies of an RTP packet

    [RtpPacket::Clone] as the retransmission buffer uses it: the copy is the packet, except
    for its padding, of which only the last byte is written. *)

From stdpp Require Import gmap.
From S2P Require Import Prelude Utils RtcpPacket RtpPacket RtpPacketSpec.

Import RtpPacket.

(** The buffer that [Clone] allocates. *)
Definition clone_buffer_size : Z := MtuSize + 100.

(** The padding of the copy: what the new buffer holds, and the count. *)
Definition clone_pad (v : view) (junk : list Z) : list Z :=
  if zlen (v_pad v) =? 0 then []
  else take (Z.to_nat (zlen (v_pad v) - 1))
         (drop (Z.to_nat (payload_offset v + zlen (v_body v))) junk) ++ [zlen (v_pad v)].

Section Clone.

Context (v : view) (rest : list Z) (one : list (option Z)) (two : gmap Z Z) (i : Ids).
Context (Hv : view_ok v).

(** The parts of the new buffer. *)
Lemma junk_parts (junk : list Z) : zlen (encode v) <= zlen junk ->
  exists j0 j1 j2 j3 j4 j5, junk = j0 ++ j1 ++ j2 ++ j3 ++ j4 ++ j5 /\
    zlen j0 = 12 /\ zlen j1 = zlen (v_csrcs v) /\ zlen j2 = zlen (ext_bytes (v_ext v)) /\
    zlen j3 = zlen (v_body v) /\ zlen j4 = zlen (v_pad v).
Proof.
  rewrite zlen_encode. intros Hl.
  pose proof (zlen_nonneg (v_csrcs v)). pose proof (zlen_nonneg (ext_bytes (v_ext v))).
  pose proof (zlen_nonneg (v_body v)). pose proof (zlen_nonneg (v_pad v)).
  destruct (split_at junk 12) as (j0 & k0 & -> & Hj0); [lia|]. rewrite zlen_app in Hl.
  destruct (split_at k0 (zlen (v_csrcs v))) as (j1 & k1 & -> & Hj1); [lia|]. rewrite zlen_app in Hl.
  destruct (split_at k1 (zlen (ext_bytes (v_ext v)))) as (j2 & k2 & -> & Hj2); [lia|]. rewrite zlen_app in Hl.
  destruct (split_at k2 (zlen (v_body v))) as (j3 & k3 & -> & Hj3); [lia|]. rewrite zlen_app in Hl.
  destruct (split_at k3 (zlen (v_pad v))) as (j4 & j5 & -> & Hj4); [lia|].
  by exists j0, j1, j2, j3, j4, j5.
Qed.

(** The steps of [Clone], on memories [m] made of the parts copied so far. *)
Lemma clone_csrcs j1 m X : zlen j1 = zlen (v_csrcs v) -> m = header_bytes v ++ j1 ++ X ->
  match csrcList (obj v rest one two i) with
  | Some c =>
      csrcCount ← hdr_csrcCount (encode v ++ rest);
      bs ← bytes_at (encode v ++ rest) c (csrcCount * 4);
      m ← write m HeaderSize bs; mret (m, HeaderSize + csrcCount * 4)
  | None => mret (m, HeaderSize)
  end = (Ok ((header_bytes v ++ v_csrcs v) ++ X, 12 + zlen (v_csrcs v)) : res (list Z * Z)).
Proof.
  intros Hj ->. cbn [csrcList obj]. destruct (byte0_bits v Hv) as (_ & _ & _ & _ & Hc & _).
  destruct (Z.eqb_spec (zlen (v_csrcs v)) 0) as [Hz|Hz].
  - rewrite Hz. apply zlen_0_nil in Hz as Hn. rewrite Hn. rewrite Hz in Hj. apply zlen_0_nil in Hj as ->.
    by rewrite app_nil_r.
  - unfold hdr_csrcCount. rewrite read_byte0. cbn [mbind res_bind mret res_ret]. rewrite Hc, encode_parts.
    rewrite bytes_at_app by done. cbn [mbind res_bind]. rewrite write_over by done.
    by rewrite <- app_assoc.
Qed.

Lemma clone_ext j2 m X : zlen j2 = zlen (ext_bytes (v_ext v)) ->
  m = (header_bytes v ++ v_csrcs v) ++ j2 ++ X ->
  match headerExtension (obj v rest one two i) with
  | Some e =>
      len ← GetHeaderExtensionLength (obj v rest one two i);
      bs ← bytes_at (encode v ++ rest) e (4 + len);
      m ← write m (12 + zlen (v_csrcs v)) bs;
      mret (m, Some (12 + zlen (v_csrcs v)), 12 + zlen (v_csrcs v) + (4 + len))
  | None => mret (m, None, 12 + zlen (v_csrcs v))
  end = (Ok ((header_bytes v ++ v_csrcs v ++ ext_bytes (v_ext v)) ++ X, ext_offset v, payload_offset v)
         : res (list Z * option Z * Z)).
Proof.
  intros Hj ->. cbn [headerExtension obj]. unfold ext_offset, payload_offset.
  destruct (v_ext v) as [[id value]|] eqn:E.
  - rewrite obj_ext_length, E by done. cbn [mbind res_bind]. rewrite zlen_ext_bytes in *.
    rewrite encode_parts, E, (app_assoc (header_bytes v)).
    rewrite bytes_at_app by (by rewrite ?zlen_ext_bytes, ?zlen_app, ?zlen_header).
    cbn [mbind res_bind]. rewrite write_over by (by rewrite ?zlen_ext_bytes, ?zlen_app, ?zlen_header).
    cbn [mbind res_bind]. by rewrite <- !app_assoc.
  - cbn [ext_bytes] in *. change (zlen (@nil Z)) with 0 in *. apply zlen_0_nil in Hj as ->.
    by rewrite Z.add_0_r, app_nil_r.
Qed.

Lemma clone_body j3 m X : zlen j3 = zlen (v_body v) ->
  m = (header_bytes v ++ v_csrcs v ++ ext_bytes (v_ext v)) ++ j3 ++ X ->
  (if negb (zlen (v_body v) =? 0) then
     bs ← bytes_at (encode v ++ rest) (payload_offset v) (zlen (v_body v));
     m ← write m (payload_offset v) bs; mret (m, payload_offset v + zlen (v_body v))
   else mret (m, payload_offset v)) =
  (Ok ((header_bytes v ++ v_csrcs v ++ ext_bytes (v_ext v)) ++ v_body v ++ X,
       payload_offset v + zlen (v_body v)) : res (list Z * Z)).
Proof.
  intros Hj ->. destruct (Z.eqb_spec (zlen (v_body v)) 0) as [Hz|Hz]; cbn [negb].
  - rewrite Hz, Z.add_0_r. apply zlen_0_nil in Hz as Hn. rewrite Hn. rewrite Hz in Hj. by apply zlen_0_nil in Hj as ->.
  - rewrite encode_head, bytes_at_app by (done || by rewrite zlen_head). cbn [mbind res_bind].
    by rewrite write_over by (done || by rewrite zlen_head).
Qed.

Lemma clone_padding j4 m A X : zlen j4 = zlen (v_pad v) -> m = A ++ j4 ++ X ->
  (if negb (zlen (v_pad v) =? 0) then
     m ← store m (zlen A + zlen (v_pad v) - 1) (zlen (v_pad v));
     mret (m, zlen A + zlen (v_pad v))
   else mret (m, zlen A)) =
  (Ok (A ++ (if zlen (v_pad v) =? 0 then [] else take (Z.to_nat (zlen (v_pad v) - 1)) j4 ++ [zlen (v_pad v)]) ++ X,
       zlen A + zlen (v_pad v)) : res (list Z * Z)).
Proof.
  intros Hj ->. destruct (Z.eqb_spec (zlen (v_pad v)) 0) as [Hz|Hz]; cbn [negb].
  - rewrite Hz in Hj |- *. apply zlen_0_nil in Hj as ->. by rewrite Z.add_0_r.
  - pose proof (zlen_nonneg (v_pad v)).
    destruct (split_at j4 (zlen (v_pad v) - 1)) as (k & y & -> & Hk); [lia|].
    rewrite zlen_app in Hj. destruct y as [|y [|]]; rewrite ?zlen_cons in Hj;
      [change (zlen (@nil Z)) with 0 in Hj; lia| |pose proof (zlen_nonneg l); lia].
    replace (take (Z.to_nat (zlen (v_pad v) - 1)) (k ++ [y])) with k
      by (rewrite <- Hk; unfold zlen; by rewrite Nat2Z.id, take_app_length).
    rewrite <- app_assoc, (app_assoc A). cbn [app].
    rewrite store_app with (i := 0) by (rewrite ?zlen_app; lia). rewrite store_front.
    cbn [mbind res_bind fmap res_fmap mret res_ret]. by rewrite <- !app_assoc.
Qed.

End Clone.

Lemma clone_view_ok v pad : view_ok v -> zlen pad = zlen (v_pad v) ->
  (pad <> [] -> list.last pad = Some (zlen pad)) -> view_ok (with_body v (v_body v) pad).
Proof. intros [?????? [Hp _]] Hz Hl. split; cbn; [done..|]. split; [lia|exact Hl]. Qed.

Lemma clone_encode v pad rest : zlen pad = zlen (v_pad v) ->
  (header_bytes v ++ v_csrcs v ++ ext_bytes (v_ext v)) ++ v_body v ++ pad ++ rest =
  encode (with_body v (v_body v) pad) ++ rest.
Proof.
  intros Hz. rewrite encode_head. do 2 f_equal. unfold header_bytes, byte0. cbn [v_pad v_ext v_csrcs with_body].
  by rewrite Hz.
Qed.

Lemma zlen_clone_pad v junk : zlen (encode v) <= zlen junk -> zlen (clone_pad v junk) = zlen (v_pad v) /\
  (clone_pad v junk <> [] -> list.last (clone_pad v junk) = Some (zlen (clone_pad v junk))).
Proof.
  rewrite zlen_encode. intros Hl. unfold clone_pad, payload_offset.
  pose proof (zlen_nonneg (v_csrcs v)). pose proof (zlen_nonneg (ext_bytes (v_ext v))).
  pose proof (zlen_nonneg (v_body v)). pose proof (zlen_nonneg (v_pad v)).
  destruct (Z.eqb_spec (zlen (v_pad v)) 0) as [Hz|Hz]; [by rewrite Hz|].
  assert (zlen (take (Z.to_nat (zlen (v_pad v) - 1))
    (drop (Z.to_nat (12 + zlen (v_csrcs v) + zlen (ext_bytes (v_ext v)) + zlen (v_body v))) junk) ++ [zlen (v_pad v)])
    = zlen (v_pad v)) as Hp.
  { rewrite zlen_app, zlen_take, zlen_drop. change (zlen [_]) with 1. lia. }
  split; [done|]. intros _. by rewrite last_snoc, Hp.
Qed.

Lemma Clone_obj v rest one two i junk :
  view_ok v -> zlen (encode v) <= zlen junk ->
  exists one' two' rest',
    Clone (obj v rest one two i) junk =
      Ok (obj (with_body v (v_body v) (clone_pad v junk)) rest' one' two' i) /\
    elements_ok (with_body v (v_body v) (clone_pad v junk)) one' two' /\
    zlen rest' = zlen junk - zlen (encode v).
Proof.
  intros Hv Hl. destruct (zlen_clone_pad v junk Hl) as [Hpz Hpl].
  destruct (make_obj (with_body v (v_body v) (clone_pad v junk)) (drop (Z.to_nat (zlen (encode v))) junk)) as
    (one' & two' & Em & Hel); [by apply clone_view_ok|].
  exists one', two', (drop (Z.to_nat (zlen (encode v))) junk). split; [|split; [done|]].
  2: { rewrite zlen_drop. pose proof (zlen_nonneg (encode v)). lia. }
  destruct (junk_parts v junk Hl) as (j0 & j1 & j2 & j3 & j4 & j5 & Ej & H0 & H1 & H2 & H3 & H4).
  assert (drop (Z.to_nat (zlen (encode v))) junk = j5) as Ed.
  { rewrite Ej, !app_assoc. replace (Z.to_nat (zlen (encode v))) with (length ((((j0 ++ j1) ++ j2) ++ j3) ++ j4)).
    - apply drop_app_length.
    - rewrite zlen_encode, <- H1, <- H2, <- H3, <- H4. unfold zlen in *. rewrite !length_app. lia. }
  assert (clone_pad v junk = if zlen (v_pad v) =? 0 then [] else
    take (Z.to_nat (zlen (v_pad v) - 1)) j4 ++ [zlen (v_pad v)]) as Ep.
  { unfold clone_pad. destruct (Z.eqb_spec (zlen (v_pad v)) 0); [done|]. f_equal.
    rewrite Ej, (app_assoc j0), (app_assoc (j0 ++ j1)), (app_assoc ((j0 ++ j1) ++ j2)).
    replace (Z.to_nat (payload_offset v + zlen (v_body v))) with (length (((j0 ++ j1) ++ j2) ++ j3)).
    - rewrite drop_app_length, take_app_le; [done|]. unfold zlen in *. lia.
    - unfold payload_offset. rewrite <- H1, <- H2, <- H3. unfold zlen in *. rewrite !length_app. lia. }
  unfold Clone. cbn [mem payload payloadLength payloadPadding size obj].
  assert (bytes_at (encode v ++ rest) 0 HeaderSize = Ok (header_bytes v)) as ->
    by (rewrite encode_parts; by apply (bytes_at_app [])).
  cbn [mbind res_bind].
  assert (write junk 0 (header_bytes v) = Ok (header_bytes v ++ j1 ++ j2 ++ j3 ++ j4 ++ j5)) as ->
    by (rewrite Ej; by apply (write_over [] j0)).
  cbn [mbind res_bind].
  rewrite (clone_csrcs v rest one two i Hv j1 _ _ H1 eq_refl). cbn [mbind res_bind].
  rewrite (clone_ext v rest one two i Hv j2 _ _ H2 eq_refl). cbn [mbind res_bind].
  rewrite (clone_body v rest j3 _ _ H3 eq_refl). cbn [mbind res_bind].
  rewrite (app_assoc _ (v_body v)).
  replace (payload_offset v + zlen (v_body v))
    with (zlen ((header_bytes v ++ v_csrcs v ++ ext_bytes (v_ext v)) ++ v_body v)) by (rewrite zlen_app, zlen_head; done).
  rewrite (clone_padding v j4 _ _ j5 H4 eq_refl), <- Ep. cbn [mbind res_bind].
  unfold ms_assert. rewrite zlen_app, zlen_head.
  destruct (Z.eqb_spec (payload_offset v + zlen (v_body v) + zlen (v_pad v)) (zlen (encode v))) as [_|Hne].
  2: { exfalso. apply Hne. rewrite zlen_encode. unfold payload_offset. lia. }
  cbn [mbind res_bind]. rewrite <- app_assoc, clone_encode by done. rewrite Ed in Em |- *.
  replace (zlen (encode (with_body v (v_body v) (clone_pad v junk)))) with (zlen (encode v)) in Em
    by (rewrite !zlen_encode; cbn [v_csrcs v_ext v_body v_pad with_body]; lia).
  change (ext_offset (with_body v (v_body v) (clone_pad v junk))) with (ext_offset v) in Em.
  change (payload_offset (with_body v (v_body v) (clone_pad v junk))) with (payload_offset v) in Em.
  cbn [v_body v_pad with_body] in Em. rewrite Hpz in Em. rewrite Em. done.
Qed.

(** the copy a packet of at most 1600 bytes, as [Clone] makes it for the retransmission
    buffer, is the packet: no read or write leaves the two buffers, and the bytes are those
    of the packet except for the padding, of which all but the last byte are what the newly
    allocated memory held.  A copy has two bytes to spare for [RtxEncode] when the packet has
    at most [MtuSize] bytes, which is what the retransmission buffer accepts. *)
Theorem clone_spec data len p junk :
  bytes_ok data -> 0 <= len <= zlen data -> Parse data len = Ok (Some p) ->
  zlen junk = clone_buffer_size -> len <= clone_buffer_size ->
  exists v q,
    take (Z.to_nat len) data = encode v /\ Clone p junk = Ok q /\
    GetData q = encode (with_body v (v_body v) (clone_pad v junk)) /\
    (v_pad v = [] -> GetData q = take (Z.to_nat len) data) /\
    zlen (mem q) = clone_buffer_size /\
    (forall pt ssrc seq, len <= MtuSize -> fits 32 ssrc -> fits 16 seq -> safe (RtxEncode q pt ssrc seq)).
Proof.
  intros Hb Hl HP Hj Hlen.
  destruct (parse_cases data len Hb Hl) as [[E _]|(v & one & two & Hv & Et & E & Hel)];
    rewrite HP in E; [done|]. injection E as ->. clear HP.
  assert (zlen (encode v) = len) as Ez by (rewrite <- Et, zlen_take; lia).
  destruct (Clone_obj v (drop (Z.to_nat len) data) one two no_ids junk Hv) as (one' & two' & rest' & Ec & Hel' & Hz);
    [lia|].
  destruct (zlen_clone_pad v junk) as [Hpz Hpl]; [lia|].
  exists v. eexists. split; [done|]. split; [exact Ec|].
  assert (forall w r o t' j, GetData (obj w r o t' j) = encode w) as Eg by (intros; apply take_encode).
  split; [apply Eg|]. split; [|split].
  - intros Hp. rewrite Eg, Et. f_equal. rewrite Hp in Hpz. apply zlen_0_nil in Hpz as ->.
    rewrite <- Hp. by destruct v.
  - cbn [mem obj]. rewrite zlen_app, Hz, Hj, !zlen_encode. cbn [v_csrcs v_ext v_body v_pad with_body]. lia.
  - intros pt ssrc seq Hm Hs Hq. eexists. apply RtxEncode_obj; [by apply clone_view_ok|done|done|].
    rewrite zlen_app, Hz, Hj. unfold clone_buffer_size.
    pose proof (zlen_nonneg (v_pad (with_body v (v_body v) (clone_pad v junk)))). lia.
Qed.

Lemma clone_spec_witness :
  exists v q,
    take (Z.to_nat 36) sample = encode v /\ Clone sample_packet (replicate 1600 170) = Ok q /\
    GetData q = encode (with_body v (v_body v) (clone_pad v (replicate 1600 170))) /\
    (v_pad v = [] -> GetData q = take (Z.to_nat 36) sample) /\
    zlen (mem q) = clone_buffer_size /\
    (forall pt ssrc seq, 36 <= MtuSize -> fits 32 ssrc -> fits 16 seq -> safe (RtxEncode q pt ssrc seq)).
Proof.
  apply (clone_spec sample 36 sample_packet (replicate 1600 170)).
  - by apply (bool_decide_unpack _).
  - by vm_compute.
  - by vm_compute.
  - by vm_compute.
  - by vm_compute.
Defined.
