(* ===== verification/RtpListener.v ===== *)
(** * Routing of packets to producers

    Models [worker/src/RTC/RtpListener.cpp] and [worker/src/RTC/SctpListener.cpp]: the
    tables of a transport that give the producer of a received packet.  A producer is its
    address; the tables are maps, as the source only looks keys up, sets them and erases all
    entries of a producer. *)

From stdpp Require Import gmap.
From S2P Require Import Prelude Utils RtcpPacket RtpPacket RtpPacketSpec.

(** A [std::string] of the parameters or of a packet, as its bytes. *)
Abbreviation str := (list Z).

(** Address of a [Producer] or of a [DataProducer]. *)
Abbreviation address := positive.

(** A [std::runtime_error] thrown by the operation, or its value. *)
Inductive thrown (A : Type) : Type :=
| Return (a : A)
| Throw (a : A).
Arguments Return {A} a.
Arguments Throw {A} a.

(** The entries that do not point to [p]: what the erasing loop leaves. *)
Definition erase_value {K} `{Countable K} (p : address) (m : gmap K address) : gmap K address :=
  filter (fun kv => kv.2 <> p) m.

Module RtpListener.

Record RtpEncodingParameters := { ssrc : Z; rtx_ssrc : Z; rid : str }.
Record RtpParameters := { encodings : list RtpEncodingParameters; mid : str }.

Record t := {
  ssrcTable : gmap Z address;
  midTable : gmap str address;
  ridTable : gmap str address;
}.

Definition empty : t := {| ssrcTable := ∅; midTable := ∅; ridTable := ∅ |}.

Definition set_ssrcTable (l : t) (m : gmap Z address) : t :=
  {| ssrcTable := m; midTable := midTable l; ridTable := ridTable l |}.
Definition set_midTable (l : t) (m : gmap str address) : t :=
  {| ssrcTable := ssrcTable l; midTable := m; ridTable := ridTable l |}.
Definition set_ridTable (l : t) (m : gmap str address) : t :=
  {| ssrcTable := ssrcTable l; midTable := midTable l; ridTable := m |}.

Definition RemoveProducer (l : t) (producer : address) : t :=
  {| ssrcTable := erase_value producer (ssrcTable l);
     midTable := erase_value producer (midTable l);
     ridTable := erase_value producer (ridTable l) |}.

(** One check of the loop over the encodings: a zero is not announced. *)
Definition add_ssrc (producer : address) (s : Z) (l : t) : thrown t :=
  if s =? 0 then Return l
  else match ssrcTable l !! s with
       | None => Return (set_ssrcTable l (<[s := producer]> (ssrcTable l)))
       | Some _ => Throw (RemoveProducer l producer)
       end.

Fixpoint add_ssrcs (producer : address) (es : list RtpEncodingParameters) (l : t) : thrown t :=
  match es with
  | [] => Return l
  | e :: es' =>
      match add_ssrc producer (ssrc e) l with
      | Throw l => Throw l
      | Return l =>
          match add_ssrc producer (rtx_ssrc e) l with
          | Throw l => Throw l
          | Return l => add_ssrcs producer es' l
          end
      end
  end.

Definition add_mid (producer : address) (m : str) (l : t) : thrown t :=
  match m with
  | [] => Return l
  | _ =>
      match midTable l !! m with
      | None => Return (set_midTable l (<[m := producer]> (midTable l)))
      | Some _ => Throw (RemoveProducer l producer)
      end
  end.

Fixpoint add_rids (producer : address) (m : str) (es : list RtpEncodingParameters) (l : t) : thrown t :=
  match es with
  | [] => Return l
  | e :: es' =>
      match rid e with
      | [] => add_rids producer m es' l
      | r =>
          match ridTable l !! r with
          | None => add_rids producer m es' (set_ridTable l (<[r := producer]> (ridTable l)))
          | Some _ =>
              match m with
              | [] => Throw (RemoveProducer l producer)
              | _ => add_rids producer m es' l
              end
          end
      end
  end.

Definition AddProducer (l : t) (producer : address) (rtpParameters : RtpParameters) : thrown t :=
  match add_ssrcs producer (encodings rtpParameters) l with
  | Throw l => Throw l
  | Return l =>
      match add_mid producer (mid rtpParameters) l with
      | Throw l => Throw l
      | Return l => add_rids producer (mid rtpParameters) (encodings rtpParameters) l
      end
  end.

(** [GetProducer(ssrc)]. *)
Definition GetProducer_ssrc (l : t) (s : Z) : option address := ssrcTable l !! s.

(** [GetProducer(packet)]: the packet reads its MID and its RID only when needed. *)
Definition GetProducer (l : t) (packet : RtpPacket.t) : res (option address * t) :=
  s ← RtpPacket.GetSsrc packet;
  match ssrcTable l !! s with
  | Some producer => mret (Some producer, l)
  | None =>
      m ← RtpPacket.ReadMid packet;
      match m ≫= (midTable l !!.) with
      | Some producer => mret (Some producer, set_ssrcTable l (<[s := producer]> (ssrcTable l)))
      | None =>
          r ← RtpPacket.ReadRid packet;
          match r ≫= (ridTable l !!.) with
          | Some producer => mret (Some producer, set_ssrcTable l (<[s := producer]> (ssrcTable l)))
          | None => mret (None, l)
          end
      end
  end.

End RtpListener.

Module SctpListener.

Definition t := gmap Z address.

Definition AddDataProducer (l : t) (dataProducer : address) (streamId : Z) : thrown t :=
  match l !! streamId with
  | None => Return (<[streamId := dataProducer]> l)
  | Some _ => Throw l
  end.

Definition RemoveDataProducer (l : t) (dataProducer : address) : t := erase_value dataProducer l.

Definition GetDataProducer (l : t) (streamId : Z) : option address := l !! streamId.

End SctpListener.

(** ** Lemmas on the tables *)

Section Erase.
Context {K : Type} `{Countable K}.
Implicit Types (m : gmap K address) (p : address).

(** No entry of [m] points to [p]. *)
Definition unused p m : Prop := map_Forall (fun _ q => q <> p) m.

Lemma erase_unused p m : unused p m -> erase_value p m = m.
Proof. intros Hm. apply map_filter_id. intros k q Hq. exact (Hm k q Hq). Qed.

Lemma erase_insert p k m : m !! k = None -> erase_value p (<[k := p]> m) = erase_value p m.
Proof.
  intros Hk. unfold erase_value. rewrite map_filter_insert_False by naive_solver.
  by rewrite delete_id.
Qed.

Lemma unused_erase p m : unused p (erase_value p m).
Proof. intros k q Hq. by apply map_lookup_filter_Some in Hq as [_ ?]. Qed.

Lemma lookup_erase_Some p k q m : erase_value p m !! k = Some q <-> m !! k = Some q /\ q <> p.
Proof. unfold erase_value. by rewrite map_lookup_filter_Some. Qed.

Lemma insert_mono k p m : m !! k = None -> m ⊆ <[k := p]> m.
Proof. intros. by apply insert_subseteq. Qed.

End Erase.

Section RtpListenerFacts.
Import RtpListener.
Implicit Types (l : t) (p : address).

(** The routes of [l] are kept by [l']. *)
Record extends l l' : Prop := {
  ext_ssrc : ssrcTable l ⊆ ssrcTable l';
  ext_mid : midTable l ⊆ midTable l';
  ext_rid : ridTable l ⊆ ridTable l';
}.

#[local] Instance extends_preorder : PreOrder extends.
Proof. split; [by split|]. intros x y z [] []. split; by etransitivity. Qed.

(** Without the entries of [p] both listeners are the same. *)
Definition same_but p l l' : Prop := RemoveProducer l p = RemoveProducer l' p.

#[local] Instance same_but_equiv p : Equivalence (same_but p).
Proof. unfold same_but. split; repeat intro; congruence. Qed.

(** What each step of [AddProducer] does: [ok] is what it promises when it returns. *)
Definition step_spec p l (r : thrown t) (ok : t -> Prop) : Prop :=
  match r with
  | Return l' => extends l l' /\ same_but p l l' /\ ok l'
  | Throw l' => l' = RemoveProducer l p
  end.

Lemma step_spec_bind p l r ok (f : t -> thrown t) ok' :
  step_spec p l r ok ->
  (forall l', extends l l' -> ok l' -> step_spec p l' (f l') ok') ->
  step_spec p l (match r with Throw l' => Throw l' | Return l' => f l' end) ok'.
Proof.
  intros Hr Hf. destruct r as [l'|l']; [|done]. destruct Hr as (He & Hs & Ho).
  specialize (Hf l' He Ho). destruct (f l') as [l''|l'']; cbn in *.
  - destruct Hf as (He' & Hs' & Ho'). split_and!; [by etransitivity|by etransitivity|done].
  - by rewrite Hf, Hs.
Qed.

Lemma step_spec_mono p l r (ok ok' : t -> Prop) :
  (forall l', ok l' -> ok' l') -> step_spec p l r ok -> step_spec p l r ok'.
Proof. destruct r; cbn; [|done]. intros Hi (? & ? & ?). auto. Qed.

Lemma step_spec_ret p l (ok : t -> Prop) : ok l -> step_spec p l (Return l) ok.
Proof. intros. cbn. by split_and!. Qed.

Lemma add_ssrc_spec p s l :
  step_spec p l (add_ssrc p s l) (fun l' =>
    (s <> 0 -> ssrcTable l' !! s = Some p) /\ ridTable l' = ridTable l).
Proof.
  unfold add_ssrc. destruct (Z.eqb_spec s 0); [by apply step_spec_ret|].
  destruct (ssrcTable l !! s) eqn:E; [done|]. split_and!.
  - split; cbn; [by apply insert_mono|done|done].
  - unfold same_but, RemoveProducer. cbn. by rewrite erase_insert.
  - intros _. cbn. apply lookup_insert_eq.
  - done.
Qed.

Lemma ext_ssrc_lookup l l' s p : extends l l' -> ssrcTable l !! s = Some p -> ssrcTable l' !! s = Some p.
Proof. intros [H _ _] E. by eapply lookup_weaken. Qed.

(** The SSRC of an encoding are routed to [p]. *)
Definition ssrcs_routed p l (e : RtpEncodingParameters) : Prop :=
  (ssrc e <> 0 -> ssrcTable l !! ssrc e = Some p) /\
  (rtx_ssrc e <> 0 -> ssrcTable l !! rtx_ssrc e = Some p).

Lemma ssrcs_routed_extends p l l' e : extends l l' -> ssrcs_routed p l e -> ssrcs_routed p l' e.
Proof. intros He [H1 H2]. split; intros; eapply ext_ssrc_lookup; eauto. Qed.

Lemma add_ssrcs_spec p es : forall l,
  step_spec p l (add_ssrcs p es l) (fun l' =>
    Forall (ssrcs_routed p l') es /\ ridTable l' = ridTable l).
Proof.
  induction es as [|e es IH]; intros l; cbn [add_ssrcs]; [by apply step_spec_ret|].
  eapply step_spec_bind; [apply add_ssrc_spec|]. intros l1 _ [H1 R1].
  eapply step_spec_bind; [apply add_ssrc_spec|]. intros l2 He2 [H2 R2].
  specialize (IH l2). destruct (add_ssrcs p es l2) as [l3|l3]; [|exact IH].
  destruct IH as (He3 & Hs3 & Ho3 & R3). split_and!; [done..| |congruence]. constructor; [|done].
  apply (ssrcs_routed_extends _ l2 _ _ He3). split; [|done].
  intros Hn. eapply ext_ssrc_lookup; eauto.
Qed.

Lemma add_mid_spec p m l :
  step_spec p l (add_mid p m l) (fun l' =>
    (m <> [] -> midTable l' !! m = Some p) /\ ridTable l' = ridTable l).
Proof.
  unfold add_mid. destruct m as [|b m]; [apply step_spec_ret; split; [congruence|done]|].
  destruct (midTable l !! (b :: m)) eqn:E; [done|]. split_and!.
  - split; cbn; [done|by apply insert_mono|done].
  - unfold same_but, RemoveProducer. cbn. by rewrite erase_insert.
  - intros _. cbn. apply lookup_insert_eq.
  - done.
Qed.

(** A RID is routed, to [p] unless another producer had it. *)
Definition rid_routed p l l' (e : RtpEncodingParameters) : Prop :=
  rid e <> [] -> exists q, ridTable l' !! rid e = Some q /\ (ridTable l !! rid e = None -> q = p).

Lemma add_rids_spec p m es : forall l,
  step_spec p l (add_rids p m es l) (fun l' => Forall (rid_routed p l l') es).
Proof.
  induction es as [|e es IH]; intros l; cbn [add_rids]; [by apply step_spec_ret|].
  destruct (rid e) as [|b r] eqn:Er.
  - eapply step_spec_mono; [|apply IH]. cbn beta. intros l' H. constructor; [|done]. intros Hn. congruence.
  - destruct (ridTable l !! (b :: r)) as [q|] eqn:E.
    + destruct m as [|c m]; [done|]. specialize (IH l).
      destruct (add_rids p (c :: m) es l) as [l'|l']; [|exact IH].
      destruct IH as (He & Hs & Ho). split_and!; [done..|]. constructor; [|done].
      intros _. rewrite Er. exists q. split; [|congruence]. eapply lookup_weaken; [done|apply He].
    + set (l1 := set_ridTable l (<[b :: r := p]> (ridTable l))).
      assert (extends l l1) as He1 by (split; cbn; [done|done|by apply insert_mono]).
      assert (same_but p l l1) as Hs1 by (unfold same_but, RemoveProducer; cbn; by rewrite erase_insert).
      specialize (IH l1). destruct (add_rids p m es l1) as [l'|l']; cbn [step_spec] in *.
      2: { by rewrite IH. }
      destruct IH as (He & Hs & Ho). split_and!; [by etransitivity|by etransitivity|]. constructor.
      * intros _. rewrite Er. exists p. split; [|done].
        eapply lookup_weaken; [|apply He]. cbn. apply lookup_insert_eq.
      * eapply List.Forall_impl; [|exact Ho]. intros e' H Hn. destruct (H Hn) as (q & Hq & Hq').
        exists q. split; [done|]. intros Hnone. destruct (decide (rid e' = b :: r)) as [Heq|Hne].
        -- rewrite Heq in Hq. assert (ridTable l' !! (b :: r) = Some p) as Hp.
           { eapply lookup_weaken; [|apply He]. cbn. apply lookup_insert_eq. }
           congruence.
        -- apply Hq'. cbn. by rewrite lookup_insert_ne.
Qed.

Definition not_routed p l : Prop := unused p (ssrcTable l) /\ unused p (midTable l) /\ unused p (ridTable l).

Lemma RemoveProducer_unused p l : not_routed p l -> RemoveProducer l p = l.
Proof. intros (? & ? & ?). unfold RemoveProducer. destruct l; cbn in *. by rewrite !erase_unused. Qed.

Lemma AddProducer_spec p ps l :
  step_spec p l (AddProducer l p ps) (fun l' =>
    Forall (ssrcs_routed p l') (encodings ps) /\ (mid ps <> [] -> midTable l' !! mid ps = Some p) /\
    Forall (rid_routed p l l') (encodings ps)).
Proof.
  unfold AddProducer.
  pose proof (add_ssrcs_spec p (encodings ps) l) as H1.
  destruct (add_ssrcs p (encodings ps) l) as [l1|l1]; [|exact H1]. destruct H1 as (He1 & Hs1 & Ho1 & R1).
  pose proof (add_mid_spec p (mid ps) l1) as H2.
  destruct (add_mid p (mid ps) l1) as [l2|l2]; cbn [step_spec] in *; [|by rewrite H2].
  destruct H2 as (He2 & Hs2 & Ho2 & R2).
  pose proof (add_rids_spec p (mid ps) (encodings ps) l2) as H3.
  destruct (add_rids p (mid ps) (encodings ps) l2) as [l3|l3]; cbn [step_spec] in *; [|by rewrite H3, Hs1, Hs2].
  destruct H3 as (He3 & Hs3 & Ho3). split_and!.
  - etransitivity; [exact He1|]. by etransitivity.
  - etransitivity; [exact Hs1|]. by etransitivity.
  - eapply List.Forall_impl; [|exact Ho1]. intros e. apply ssrcs_routed_extends. by etransitivity.
  - intros Hm. eapply lookup_weaken; [by apply Ho2|apply He3].
  - eapply List.Forall_impl; [|exact Ho3]. unfold rid_routed. by rewrite R2, R1.
Qed.

(** [AddProducer] is all or nothing.  For a producer that has no entry yet: when it
    throws, the tables are what they were; when it returns, every SSRC and RTX SSRC the
    producer announces and its MID are routed to it, every RID it announces is routed (to it
    unless another producer had that RID), no other route has changed, and removing the
    producer gives back the tables of before. *)
Theorem add_producer_atomic l p ps :
  not_routed p l ->
  match AddProducer l p ps with
  | Throw l' => l' = l
  | Return l' =>
      extends l l' /\ RemoveProducer l' p = l /\
      Forall (ssrcs_routed p l') (encodings ps) /\
      (mid ps <> [] -> midTable l' !! mid ps = Some p) /\
      Forall (rid_routed p l l') (encodings ps)
  end.
Proof.
  intros Hn. pose proof (AddProducer_spec p ps l) as H.
  destruct (AddProducer l p ps) as [l'|l']; cbn [step_spec] in H.
  - destruct H as (He & Hs & Ho). split; [done|]. split; [|done].
    rewrite <- Hs. by apply RemoveProducer_unused.
  - by rewrite H, RemoveProducer_unused.
Qed.

(** ** Histories *)

Inductive event :=
| Add (p : address) (ps : RtpParameters)
| Remove (p : address)
| Packet (packet : RtpPacket.t).

(** The listener of a transport and the producers that exist.  A producer whose addition
    throws is deleted by the transport. *)
Definition step (s : t * gset address) (e : event) : res (t * gset address) :=
  let '(l, live) := s in
  match e with
  | Add p ps =>
      match AddProducer l p ps with
      | Return l' => mret (l', {[p]} ∪ live)
      | Throw l' => mret (l', live ∖ {[p]})
      end
  | Remove p => mret (RemoveProducer l p, live ∖ {[p]})
  | Packet packet => '(_, l') ← GetProducer l packet; mret (l', live)
  end.

Fixpoint run (s : t * gset address) (es : list event) : res (t * gset address) :=
  match es with
  | [] => mret s
  | e :: es' => s ← step s e; run s es'
  end.

(** Every entry points to a producer that exists. *)
Definition all_live l (live : gset address) : Prop :=
  map_Forall (fun _ q => q ∈ live) (ssrcTable l) /\
  map_Forall (fun _ q => q ∈ live) (midTable l) /\
  map_Forall (fun _ q => q ∈ live) (ridTable l).

Lemma all_live_mono l live live' : live ⊆ live' -> all_live l live -> all_live l live'.
Proof. intros Hs (H1 & H2 & H3). split_and!; eapply map_Forall_impl; eauto. Qed.

Lemma all_live_remove l p live : all_live l live -> all_live (RemoveProducer l p) (live ∖ {[p]}).
Proof.
  intros (H1 & H2 & H3). split_and!; intros k q Hq; cbn in Hq; apply lookup_erase_Some in Hq as [Hq Hn];
    apply elem_of_difference; (split; [|by rewrite elem_of_singleton]); eauto.
Qed.

(** An addition only adds entries of the producer. *)
Lemma all_live_add l l' p live : same_but p l l' -> all_live l live -> all_live l' ({[p]} ∪ live).
Proof.
  intros Hs Hl. apply (all_live_remove _ p) in Hl. rewrite Hs in Hl. destruct Hl as (H1 & H2 & H3).
  split_and!; intros k q Hq; (destruct (decide (q = p)) as [->|Hn]; [set_solver|]); apply elem_of_union_r.
  - assert (q ∈ live ∖ {[p]}) as [? _]%elem_of_difference by (apply (H1 k); cbn; by apply lookup_erase_Some). done.
  - assert (q ∈ live ∖ {[p]}) as [? _]%elem_of_difference by (apply (H2 k); cbn; by apply lookup_erase_Some). done.
  - assert (q ∈ live ∖ {[p]}) as [? _]%elem_of_difference by (apply (H3 k); cbn; by apply lookup_erase_Some). done.
Qed.

(** The producer found for a packet has an entry, and the SSRC of the packet is learnt. *)
Lemma GetProducer_found l packet q l' :
  GetProducer l packet = Ok (Some q, l') ->
  (exists s, RtpPacket.GetSsrc packet = Ok s /\ GetProducer_ssrc l' s = Some q /\
     ssrcTable l' = <[s := q]> (ssrcTable l)) /\
  midTable l' = midTable l /\ ridTable l' = ridTable l /\
  forall live, all_live l live -> q ∈ live.
Proof.
  unfold GetProducer. intros H. apply res_bind_ok in H as (s & Es & H).
  destruct (ssrcTable l !! s) as [q'|] eqn:E.
  { injection H as -> <-. split_and!; [|done|done|intros live (Hl & _); eauto].
    exists s. split_and!; [done|done|]. by rewrite insert_id. }
  apply res_bind_ok in H as (m & _ & H). destruct (m ≫= _) as [q'|] eqn:Em.
  { injection H as -> <-. split_and!; [|done|done|].
    - exists s. split_and!; [done|apply lookup_insert_eq|done].
    - intros live (_ & Hl & _). destruct m; [|done]. cbn in Em. eauto. }
  apply res_bind_ok in H as (r & _ & H). destruct (r ≫= _) as [q'|] eqn:Er; [|done].
  injection H as -> <-. split_and!; [|done|done|].
  - exists s. split_and!; [done|apply lookup_insert_eq|done].
  - intros live (_ & _ & Hl). destruct r; [|done]. cbn in Er. eauto.
Qed.

Lemma GetProducer_live l packet r l' live :
  GetProducer l packet = Ok (r, l') -> all_live l live -> all_live l' live.
Proof.
  intros H Hl. destruct r as [q|].
  - destruct (GetProducer_found _ _ _ _ H) as ((s & _ & _ & Es) & Em & Er & Hq).
    destruct Hl as (H1 & H2 & H3). split_and!; [|by rewrite Em|by rewrite Er].
    rewrite Es. apply map_Forall_insert_2; [|done]. apply Hq. by split_and!.
  - unfold GetProducer in H. apply res_bind_ok in H as (s & _ & H).
    destruct (ssrcTable l !! s); [done|]. apply res_bind_ok in H as (m & _ & H).
    destruct (m ≫= _); [done|]. apply res_bind_ok in H as (r & _ & H).
    destruct (r ≫= _); [done|]. by injection H as <-.
Qed.

Lemma step_all_live l live e s' :
  all_live l live -> step (l, live) e = Ok s' -> all_live s'.1 s'.2.
Proof.
  intros Hl H. destruct e as [p ps|p|packet]; cbn [step] in H.
  - pose proof (AddProducer_spec p ps l) as Hs. destruct (AddProducer l p ps) as [l'|l']; injection H as <-.
    + eapply all_live_add; [apply Hs|done].
    + cbn in Hs. subst l'. by apply all_live_remove.
  - injection H as <-. by apply all_live_remove.
  - apply res_bind_ok in H as ([r l'] & H & [= <-]). by eapply GetProducer_live.
Qed.

Lemma run_all_live es : forall s s', all_live s.1 s.2 -> run s es = Ok s' -> all_live s'.1 s'.2.
Proof.
  induction es as [|e es IH]; intros s s' Hs H; cbn [run] in H; [by injection H as <-|].
  apply res_bind_ok in H as (s1 & H1 & H2). destruct s as [l live].
  eapply IH; [|exact H2]. by eapply step_all_live.
Qed.

(** the tables never point to a producer that is gone.  After any history of additions
    (which may throw), removals and packets, the producer that [GetProducer] finds for a
    packet is one that exists, and the SSRC of the packet is routed to that producer from
    then on, whether it was found by SSRC, MID or RID. *)
Theorem no_dangling_producer es l live packet q l' :
  run (empty, ∅) es = Ok (l, live) -> GetProducer l packet = Ok (Some q, l') ->
  q ∈ live /\ exists s, RtpPacket.GetSsrc packet = Ok s /\ GetProducer_ssrc l' s = Some q.
Proof.
  intros Hr Hg. assert (all_live l live) as Hl.
  { apply (run_all_live es (empty, ∅) (l, live)); [|done]. by split_and!. }
  destruct (GetProducer_found _ _ _ _ Hg) as ((s & Es & Eq & _) & _ & _ & Hq). eauto.
Qed.

End RtpListenerFacts.

Definition sample_params : RtpListener.RtpParameters :=
  {| RtpListener.encodings := [{| RtpListener.ssrc := 11; RtpListener.rtx_ssrc := 12; RtpListener.rid := [65] |}];
     RtpListener.mid := [5; 6] |}.

Lemma add_producer_atomic_witness :
  match RtpListener.AddProducer RtpListener.empty 1 sample_params with
  | Throw l' => l' = RtpListener.empty
  | Return l' =>
      extends RtpListener.empty l' /\ RtpListener.RemoveProducer l' 1 = RtpListener.empty /\
      Forall (ssrcs_routed 1 l') (RtpListener.encodings sample_params) /\
      (RtpListener.mid sample_params <> [] -> RtpListener.midTable l' !! RtpListener.mid sample_params = Some 1%positive) /\
      Forall (rid_routed 1 RtpListener.empty l') (RtpListener.encodings sample_params)
  end.
Proof. apply (add_producer_atomic RtpListener.empty 1 sample_params). by split_and!. Defined.

(** The sample packet has the SSRC 4 and the MID of the parameters. *)
Lemma no_dangling_producer_witness :
  exists l live q l',
    run (RtpListener.empty, ∅) [Add 1 sample_params] = Ok (l, live) /\
    RtpListener.GetProducer l (RtpPacket.set_ids sample_packet sample_ids) = Ok (Some q, l') /\
    (q ∈ live /\ exists s, RtpPacket.GetSsrc (RtpPacket.set_ids sample_packet sample_ids) = Ok s /\
       RtpListener.GetProducer_ssrc l' s = Some q).
Proof.
  eexists _, _, _, _. split; [reflexivity|]. split; [vm_compute; reflexivity|].
  eapply (no_dangling_producer [Add 1 sample_params]); [reflexivity|vm_compute; reflexivity].
Defined.
