(* ===== verification/KeyFrameRequestManager.v ===== *)
(** * Key frame requests

    Models [worker/src/RTC/KeyFrameRequestManager.cpp]: which key frame requests a producer
    sends, with the objects the manager allocates ([PendingKeyFrameInfo] and
    [KeyFrameRequestDelayer]) in a heap, so that a use of a deleted object is a fault, and
    the timer of each object as the time at which it fires.  A timer of [handles/Timer.cpp]
    fires once, at its time or later, unless it was stopped. *)

From stdpp Require Import gmap.
From S2P Require Import Prelude.

Module KeyFrameRequestManager.

Definition KeyFrameRetransmissionWaitTime : Z := 1000.

(** ** Objects *)

(** [timer] is the time at which the timer fires, if it is active. *)
Inductive object :=
| PendingKeyFrameInfo (ssrc : Z) (timer : option Z) (retryOnTimeout : bool)
| KeyFrameRequestDelayer (ssrc : Z) (timer : option Z) (keyFrameRequested : bool).

Definition GetSsrc (o : object) : Z :=
  match o with PendingKeyFrameInfo ssrc _ _ | KeyFrameRequestDelayer ssrc _ _ => ssrc end.

Definition timer (o : object) : option Z :=
  match o with PendingKeyFrameInfo _ tm _ | KeyFrameRequestDelayer _ tm _ => tm end.

Abbreviation heap := (gmap positive object).

Record State := {
  keyFrameRequestDelay : Z;
  mapSsrcPendingKeyFrameInfo : gmap Z positive;
  mapSsrcKeyFrameRequestDelayer : gmap Z positive;
  objects : heap;
}.

Definition init (delay : Z) : State :=
  {| keyFrameRequestDelay := delay; mapSsrcPendingKeyFrameInfo := ∅;
     mapSsrcKeyFrameRequestDelayer := ∅; objects := ∅ |}.

Definition set_pending (s : State) (m : gmap Z positive) (h : heap) : State :=
  {| keyFrameRequestDelay := keyFrameRequestDelay s; mapSsrcPendingKeyFrameInfo := m;
     mapSsrcKeyFrameRequestDelayer := mapSsrcKeyFrameRequestDelayer s; objects := h |}.
Definition set_delayers (s : State) (m : gmap Z positive) (h : heap) : State :=
  {| keyFrameRequestDelay := keyFrameRequestDelay s;
     mapSsrcPendingKeyFrameInfo := mapSsrcPendingKeyFrameInfo s;
     mapSsrcKeyFrameRequestDelayer := m; objects := h |}.

(** *** [new], [delete] and member accesses *)

Definition alloc (h : heap) (o : object) : positive * heap :=
  let a := fresh (dom h) in (a, <[a := o]> h).

Definition delete_object (h : heap) (a : positive) : res heap :=
  match h !! a with Some _ => Ok (delete a h) | None => Fault NullDeref end.

Definition get (h : heap) (a : positive) : res object := deref (h !! a).

Definition SetRetryOnTimeout (h : heap) (a : positive) (notify : bool) : res heap :=
  o ← get h a;
  match o with
  | PendingKeyFrameInfo ssrc tm _ => mret (<[a := PendingKeyFrameInfo ssrc tm notify]> h)
  | KeyFrameRequestDelayer _ _ _ => Fault NullDeref
  end.

Definition GetRetryOnTimeout (h : heap) (a : positive) : res bool :=
  o ← get h a;
  match o with
  | PendingKeyFrameInfo _ _ retry => mret retry
  | KeyFrameRequestDelayer _ _ _ => Fault NullDeref
  end.

Definition Restart (h : heap) (a : positive) (now : Z) : res heap :=
  o ← get h a;
  match o with
  | PendingKeyFrameInfo ssrc _ retry =>
      mret (<[a := PendingKeyFrameInfo ssrc (Some (now + KeyFrameRetransmissionWaitTime)) retry]> h)
  | KeyFrameRequestDelayer _ _ _ => Fault NullDeref
  end.

Definition SetKeyFrameRequested (h : heap) (a : positive) (flag : bool) : res heap :=
  o ← get h a;
  match o with
  | KeyFrameRequestDelayer ssrc tm _ => mret (<[a := KeyFrameRequestDelayer ssrc tm flag]> h)
  | PendingKeyFrameInfo _ _ _ => Fault NullDeref
  end.

Definition GetKeyFrameRequested (h : heap) (a : positive) : res bool :=
  o ← get h a;
  match o with
  | KeyFrameRequestDelayer _ _ requested => mret requested
  | PendingKeyFrameInfo _ _ _ => Fault NullDeref
  end.

(** ** The manager *)

(** A new [PendingKeyFrameInfo] in the map. *)
Definition new_pending (s : State) (now ssrc : Z) : State :=
  let '(a, h) := alloc (objects s)
    (PendingKeyFrameInfo ssrc (Some (now + KeyFrameRetransmissionWaitTime)) true) in
  set_pending s (<[ssrc := a]> (mapSsrcPendingKeyFrameInfo s)) h.

Definition new_delayer (s : State) (now ssrc : Z) : State :=
  let '(a, h) := alloc (objects s)
    (KeyFrameRequestDelayer ssrc (Some (now + keyFrameRequestDelay s)) false) in
  set_delayers s (<[ssrc := a]> (mapSsrcKeyFrameRequestDelayer s)) h.

(** The result of an operation: the new state and the SSRC for which the listener is
    called ([OnKeyFrameNeeded]). *)
Definition KeyFrameNeeded_pending (s : State) (now ssrc : Z) : res (State * list Z) :=
  match mapSsrcPendingKeyFrameInfo s !! ssrc with
  | Some a =>
      h ← SetRetryOnTimeout (objects s) a true;
      mret (set_pending s (mapSsrcPendingKeyFrameInfo s) h, [])
  | None => mret (new_pending s now ssrc, [ssrc])
  end.

Definition KeyFrameNeeded (s : State) (now ssrc : Z) : res (State * list Z) :=
  if 0 <? keyFrameRequestDelay s then
    match mapSsrcKeyFrameRequestDelayer s !! ssrc with
    | Some a =>
        h ← SetKeyFrameRequested (objects s) a true;
        mret (set_delayers s (mapSsrcKeyFrameRequestDelayer s) h, [])
    | None => KeyFrameNeeded_pending (new_delayer s now ssrc) now ssrc
    end
  else KeyFrameNeeded_pending s now ssrc.

Definition ForceKeyFrameNeeded (s : State) (now ssrc : Z) : res (State * list Z) :=
  s ← (if 0 <? keyFrameRequestDelay s then
         h ← (match mapSsrcKeyFrameRequestDelayer s !! ssrc with
              | Some a => delete_object (objects s) a
              | None => mret (objects s)
              end);
         mret (new_delayer (set_delayers s (mapSsrcKeyFrameRequestDelayer s) h) now ssrc)
       else mret s);
  match mapSsrcPendingKeyFrameInfo s !! ssrc with
  | Some a =>
      h ← SetRetryOnTimeout (objects s) a true;
      h ← Restart h a now;
      mret (set_pending s (mapSsrcPendingKeyFrameInfo s) h, [ssrc])
  | None => mret (new_pending s now ssrc, [ssrc])
  end.

Definition KeyFrameReceived (s : State) (ssrc : Z) : res State :=
  match mapSsrcPendingKeyFrameInfo s !! ssrc with
  | None => mret s
  | Some a =>
      h ← delete_object (objects s) a;
      mret (set_pending s (delete ssrc (mapSsrcPendingKeyFrameInfo s)) h)
  end.

(** The object at [a] calls [OnKeyFrameRequestTimeout(this)]. *)
Definition OnKeyFrameRequestTimeout (s : State) (now : Z) (a : positive) : res (State * list Z) :=
  o ← get (objects s) a;
  let ssrc := GetSsrc o in
  _ ← ms_assert (match mapSsrcPendingKeyFrameInfo s !! ssrc with Some _ => true | None => false end);
  retry ← GetRetryOnTimeout (objects s) a;
  if negb retry then
    h ← delete_object (objects s) a;
    mret (set_pending s (delete ssrc (mapSsrcPendingKeyFrameInfo s)) h, [])
  else
    h ← SetRetryOnTimeout (objects s) a false;
    h ← Restart h a now;
    mret (set_pending s (mapSsrcPendingKeyFrameInfo s) h, [ssrc]).

Definition OnKeyFrameDelayTimeout (s : State) (now : Z) (a : positive) : res (State * list Z) :=
  o ← get (objects s) a;
  let ssrc := GetSsrc o in
  _ ← ms_assert (match mapSsrcKeyFrameRequestDelayer s !! ssrc with Some _ => true | None => false end);
  keyFrameRequested ← GetKeyFrameRequested (objects s) a;
  h ← delete_object (objects s) a;
  let s := set_delayers s (delete ssrc (mapSsrcKeyFrameRequestDelayer s)) h in
  if (keyFrameRequested : bool) then KeyFrameNeeded s now ssrc else mret (s, []).

(** The timer of the object at [a] fires: it is no longer active, and [OnTimer] calls the
    manager. *)
Definition OnTimer (s : State) (now : Z) (a : positive) : res (State * list Z) :=
  o ← get (objects s) a;
  match o with
  | PendingKeyFrameInfo ssrc _ retry =>
      OnKeyFrameRequestTimeout
        (set_pending s (mapSsrcPendingKeyFrameInfo s) (<[a := PendingKeyFrameInfo ssrc None retry]> (objects s))) now a
  | KeyFrameRequestDelayer ssrc _ requested =>
      OnKeyFrameDelayTimeout
        (set_delayers s (mapSsrcKeyFrameRequestDelayer s) (<[a := KeyFrameRequestDelayer ssrc None requested]> (objects s))) now a
  end.

(** The destructor: every object of both maps is deleted. *)
Fixpoint delete_objects (h : heap) (l : list positive) : res heap :=
  match l with
  | [] => mret h
  | a :: l' => h ← delete_object h a; delete_objects h l'
  end.

Definition destroy (s : State) : res heap :=
  h ← delete_objects (objects s) ((map_to_list (mapSsrcPendingKeyFrameInfo s)).*2);
  delete_objects h ((map_to_list (mapSsrcKeyFrameRequestDelayer s)).*2).

(** ** Specification

    What the manager promises, without objects: for each SSRC a pending request (the time at
    which it times out, and whether it is then repeated) and a delayer (the time at which it
    ends, and whether a request was made meanwhile). *)

Record spec := {
  delay : Z;
  pending : gmap Z (Z * bool);
  delayed : gmap Z (Z * bool);
}.

Definition set_spec_pending (A : spec) (m : gmap Z (Z * bool)) : spec :=
  {| delay := delay A; pending := m; delayed := delayed A |}.
Definition set_spec_delayed (A : spec) (m : gmap Z (Z * bool)) : spec :=
  {| delay := delay A; pending := pending A; delayed := m |}.

Definition spec_request (A : spec) (now ssrc : Z) : spec * list Z :=
  match pending A !! ssrc with
  | Some (tm, _) => (set_spec_pending A (<[ssrc := (tm, true)]> (pending A)), [])
  | None => (set_spec_pending A (<[ssrc := (now + 1000, true)]> (pending A)), [ssrc])
  end.

Definition spec_needed (A : spec) (now ssrc : Z) : spec * list Z :=
  if 0 <? delay A then
    match delayed A !! ssrc with
    | Some (tm, _) => (set_spec_delayed A (<[ssrc := (tm, true)]> (delayed A)), [])
    | None => spec_request (set_spec_delayed A (<[ssrc := (now + delay A, false)]> (delayed A))) now ssrc
    end
  else spec_request A now ssrc.

Definition spec_forced (A : spec) (now ssrc : Z) : spec * list Z :=
  let A := if 0 <? delay A
           then set_spec_delayed A (<[ssrc := (now + delay A, false)]> (delayed A)) else A in
  (set_spec_pending A (<[ssrc := (now + 1000, true)]> (pending A)), [ssrc]).

Definition spec_received (A : spec) (ssrc : Z) : spec :=
  set_spec_pending A (delete ssrc (pending A)).

Definition spec_timeout (A : spec) (now ssrc : Z) : spec * list Z :=
  match pending A !! ssrc with
  | Some (_, true) => (set_spec_pending A (<[ssrc := (now + 1000, false)]> (pending A)), [ssrc])
  | _ => (set_spec_pending A (delete ssrc (pending A)), [])
  end.

Definition spec_delay_over (A : spec) (now ssrc : Z) : spec * list Z :=
  let A' := set_spec_delayed A (delete ssrc (delayed A)) in
  match delayed A !! ssrc with
  | Some (_, true) => spec_needed A' now ssrc
  | _ => (A', [])
  end.

(** *** The state seen as the specification *)

Definition pending_value (o : object) : option (Z * bool) :=
  match o with PendingKeyFrameInfo _ (Some tm) retry => Some (tm, retry) | _ => None end.
Definition delayed_value (o : object) : option (Z * bool) :=
  match o with KeyFrameRequestDelayer _ (Some tm) requested => Some (tm, requested) | _ => None end.

Definition values {V} (f : object -> option V) (h : heap) (m : gmap Z positive) : gmap Z V :=
  omap (fun a => h !! a ≫= f) m.

Definition abs (s : State) : spec :=
  {| delay := keyFrameRequestDelay s;
     pending := values pending_value (objects s) (mapSsrcPendingKeyFrameInfo s);
     delayed := values delayed_value (objects s) (mapSsrcKeyFrameRequestDelayer s) |}.

(** The maps and the heap hold the same objects, and the timer of every object is active. *)
Record wf (s : State) : Prop := {
  wf_pending : forall ssrc a, mapSsrcPendingKeyFrameInfo s !! ssrc = Some a <->
    exists tm retry, objects s !! a = Some (PendingKeyFrameInfo ssrc (Some tm) retry);
  wf_delayer : forall ssrc a, mapSsrcKeyFrameRequestDelayer s !! ssrc = Some a <->
    exists tm requested, objects s !! a = Some (KeyFrameRequestDelayer ssrc (Some tm) requested);
  wf_active : forall a o, objects s !! a = Some o -> timer o <> None;
}.

Section Values.
Context {V : Type} (f : object -> option V).
Implicit Types (h : heap) (m : gmap Z positive).

(** An object that is not in the map does not matter. *)
Lemma values_outside h h' m :
  (forall k a, m !! k = Some a -> h' !! a = h !! a) -> values f h' m = values f h m.
Proof.
  intros H. apply map_eq. intros k. unfold values. rewrite !lookup_omap.
  destruct (m !! k) as [a|] eqn:E; [|done]. cbn [mbind option_bind]. by rewrite (H k a E).
Qed.

(** The object of [k] set to one of value [v]. *)
Lemma values_set h m k a o v :
  (forall k' a', m !! k' = Some a' -> k' <> k -> a' <> a) -> f o = Some v ->
  values f (<[a := o]> h) (<[k := a]> m) = <[k := v]> (values f h m).
Proof.
  intros Hne Ho. apply map_eq. intros k'. unfold values. rewrite lookup_omap.
  destruct (decide (k' = k)) as [->|Hk].
  - rewrite !lookup_insert_eq. cbn. by rewrite lookup_insert_eq.
  - rewrite !lookup_insert_ne, lookup_omap by done. destruct (m !! k') as [a'|] eqn:E; [|done]. cbn [mbind option_bind].
    rewrite lookup_insert_ne; [done|]. intros ->. by apply (Hne k' a').
Qed.

Lemma values_delete h m k a :
  (forall k' a', m !! k' = Some a' -> k' <> k -> a' <> a) ->
  values f (delete a h) (delete k m) = delete k (values f h m).
Proof.
  intros Hne. apply map_eq. intros k'. unfold values. rewrite lookup_omap.
  destruct (decide (k' = k)) as [->|Hk].
  - by rewrite !lookup_delete_eq.
  - rewrite !lookup_delete_ne, lookup_omap by done. destruct (m !! k') as [a'|] eqn:E; [|done]. cbn [mbind option_bind].
    rewrite lookup_delete_ne; [done|]. intros ->. by apply (Hne k' a').
Qed.

End Values.

Section Updates.
Context (s : State) (Hwf : wf s).

Lemma pending_object ssrc a : mapSsrcPendingKeyFrameInfo s !! ssrc = Some a ->
  exists tm retry, objects s !! a = Some (PendingKeyFrameInfo ssrc (Some tm) retry) /\
    pending (abs s) !! ssrc = Some (tm, retry).
Proof.
  intros E. destruct (proj1 (wf_pending _ Hwf ssrc a) E) as (tm & retry & Ho). exists tm, retry.
  split; [done|]. cbn. unfold values. rewrite lookup_omap, E. cbn. by rewrite Ho.
Qed.

Lemma pending_none ssrc : mapSsrcPendingKeyFrameInfo s !! ssrc = None -> pending (abs s) !! ssrc = None.
Proof. intros E. cbn. unfold values. by rewrite lookup_omap, E. Qed.

Lemma delayer_object ssrc a : mapSsrcKeyFrameRequestDelayer s !! ssrc = Some a ->
  exists tm requested, objects s !! a = Some (KeyFrameRequestDelayer ssrc (Some tm) requested) /\
    delayed (abs s) !! ssrc = Some (tm, requested).
Proof.
  intros E. destruct (proj1 (wf_delayer _ Hwf ssrc a) E) as (tm & r & Ho). exists tm, r.
  split; [done|]. cbn. unfold values. rewrite lookup_omap, E. cbn. by rewrite Ho.
Qed.

Lemma delayer_none ssrc : mapSsrcKeyFrameRequestDelayer s !! ssrc = None -> delayed (abs s) !! ssrc = None.
Proof. intros E. cbn. unfold values. by rewrite lookup_omap, E. Qed.

(** Another SSRC has another object. *)
Lemma pending_other k k' a a' : mapSsrcPendingKeyFrameInfo s !! k = Some a ->
  mapSsrcPendingKeyFrameInfo s !! k' = Some a' -> k' <> k -> a' <> a.
Proof.
  intros E E' Hk ->. destruct (pending_object _ _ E) as (? & ? & Ho & _).
  destruct (pending_object _ _ E') as (? & ? & Ho' & _). congruence.
Qed.

Lemma delayer_other k k' a a' : mapSsrcKeyFrameRequestDelayer s !! k = Some a ->
  mapSsrcKeyFrameRequestDelayer s !! k' = Some a' -> k' <> k -> a' <> a.
Proof.
  intros E E' Hk ->. destruct (delayer_object _ _ E) as (? & ? & Ho & _).
  destruct (delayer_object _ _ E') as (? & ? & Ho' & _). congruence.
Qed.

Lemma kinds_differ k k' a a' : mapSsrcPendingKeyFrameInfo s !! k = Some a ->
  mapSsrcKeyFrameRequestDelayer s !! k' = Some a' -> a' <> a.
Proof.
  intros E E' ->. destruct (pending_object _ _ E) as (? & ? & Ho & _).
  destruct (delayer_object _ _ E') as (? & ? & Ho' & _). congruence.
Qed.

(** An object is set at the address of a request, or at a new one for an SSRC without. *)
Definition free_for_pending ssrc a : Prop :=
  mapSsrcPendingKeyFrameInfo s !! ssrc = Some a \/
  (mapSsrcPendingKeyFrameInfo s !! ssrc = None /\ objects s !! a = None).
Definition free_for_delayer ssrc a : Prop :=
  mapSsrcKeyFrameRequestDelayer s !! ssrc = Some a \/
  (mapSsrcKeyFrameRequestDelayer s !! ssrc = None /\ objects s !! a = None).

Lemma set_pending_ok ssrc a tm retry : free_for_pending ssrc a ->
  let s' := set_pending s (<[ssrc := a]> (mapSsrcPendingKeyFrameInfo s))
              (<[a := PendingKeyFrameInfo ssrc (Some tm) retry]> (objects s)) in
  wf s' /\ abs s' = set_spec_pending (abs s) (<[ssrc := (tm, retry)]> (pending (abs s))).
Proof.
  intros Hfree s'.
  assert (forall k' a', mapSsrcPendingKeyFrameInfo s !! k' = Some a' -> k' <> ssrc -> a' <> a) as Hne.
  { destruct Hfree as [E|[_ Hn]]; [by eauto using pending_other|]. intros k' a' E' _ ->.
    destruct (pending_object _ _ E') as (? & ? & Ho & _). congruence. }
  assert (forall k' a', mapSsrcKeyFrameRequestDelayer s !! k' = Some a' -> a' <> a) as Hne'.
  { destruct Hfree as [E|[_ Hn]]; [by eauto using kinds_differ|]. intros k' a' E' ->.
    destruct (delayer_object _ _ E') as (? & ? & Ho & _). congruence. }
  split.
  - split; cbn.
    + intros k b. destruct (decide (b = a)) as [->|Hb].
      * rewrite lookup_insert_eq. destruct (decide (k = ssrc)) as [->|Hk].
        -- rewrite lookup_insert_eq. split; eauto.
        -- rewrite lookup_insert_ne by done. split; [|intros (? & ? & ?); congruence]. intros E. by destruct (Hne k a E Hk).
      * rewrite (lookup_insert_ne _ a b) by done. destruct (decide (k = ssrc)) as [->|Hk].
        -- rewrite lookup_insert_eq. split; [congruence|]. intros Hex.
           apply (wf_pending _ Hwf) in Hex. destruct Hfree as [E|[E _]]; congruence.
        -- rewrite lookup_insert_ne by done. apply (wf_pending _ Hwf).
    + intros k b. rewrite (wf_delayer _ Hwf k b). destruct (decide (b = a)) as [->|Hb].
      * rewrite lookup_insert_eq. split; [|intros (? & ? & ?); congruence].
        intros Hex. apply (wf_delayer _ Hwf) in Hex. by destruct (Hne' k a Hex).
      * by rewrite lookup_insert_ne.
    + intros b o Hb. apply lookup_insert_Some in Hb as [[_ <-]|[_ Hb]]; [done|].
      by apply (wf_active _ Hwf) in Hb.
  - unfold abs, set_spec_pending. cbn. f_equal.
    + by apply values_set.
    + apply values_outside. intros k b E. rewrite lookup_insert_ne; [done|]. intros ->. by destruct (Hne' k b E).
Qed.

Lemma set_delayer_ok ssrc a tm requested : free_for_delayer ssrc a ->
  let s' := set_delayers s (<[ssrc := a]> (mapSsrcKeyFrameRequestDelayer s))
              (<[a := KeyFrameRequestDelayer ssrc (Some tm) requested]> (objects s)) in
  wf s' /\ abs s' = set_spec_delayed (abs s) (<[ssrc := (tm, requested)]> (delayed (abs s))).
Proof.
  intros Hfree s'.
  assert (forall k' a', mapSsrcKeyFrameRequestDelayer s !! k' = Some a' -> k' <> ssrc -> a' <> a) as Hne.
  { destruct Hfree as [E|[_ Hn]]; [by eauto using delayer_other|]. intros k' a' E' _ ->.
    destruct (delayer_object _ _ E') as (? & ? & Ho & _). congruence. }
  assert (forall k' a', mapSsrcPendingKeyFrameInfo s !! k' = Some a' -> a' <> a) as Hne'.
  { destruct Hfree as [E|[_ Hn]]; intros k' a' E' ->; [by eapply kinds_differ|].
    destruct (pending_object _ _ E') as (? & ? & Ho & _). congruence. }
  split.
  - split; cbn.
    + intros k b. rewrite (wf_pending _ Hwf k b). destruct (decide (b = a)) as [->|Hb].
      * rewrite lookup_insert_eq. split; [|intros (? & ? & ?); congruence].
        intros Hex. apply (wf_pending _ Hwf) in Hex. by destruct (Hne' k a Hex).
      * by rewrite lookup_insert_ne.
    + intros k b. destruct (decide (b = a)) as [->|Hb].
      * rewrite lookup_insert_eq. destruct (decide (k = ssrc)) as [->|Hk].
        -- rewrite lookup_insert_eq. split; eauto.
        -- rewrite lookup_insert_ne by done. split; [|intros (? & ? & ?); congruence]. intros E. by destruct (Hne k a E Hk).
      * rewrite (lookup_insert_ne _ a b) by done. destruct (decide (k = ssrc)) as [->|Hk].
        -- rewrite lookup_insert_eq. split; [congruence|]. intros Hex.
           apply (wf_delayer _ Hwf) in Hex. destruct Hfree as [E|[E _]]; congruence.
        -- rewrite lookup_insert_ne by done. apply (wf_delayer _ Hwf).
    + intros b o Hb. apply lookup_insert_Some in Hb as [[_ <-]|[_ Hb]]; [done|].
      by apply (wf_active _ Hwf) in Hb.
  - unfold abs, set_spec_delayed. cbn. f_equal.
    + apply values_outside. intros k b E. rewrite lookup_insert_ne; [done|]. intros ->. by destruct (Hne' k b E).
    + by apply values_set.
Qed.

Lemma delete_pending_ok ssrc a : mapSsrcPendingKeyFrameInfo s !! ssrc = Some a ->
  let s' := set_pending s (delete ssrc (mapSsrcPendingKeyFrameInfo s)) (delete a (objects s)) in
  wf s' /\ abs s' = spec_received (abs s) ssrc.
Proof.
  intros E s'. pose proof (fun k a' => pending_other ssrc k a a' E) as Hne.
  pose proof (fun k a' => kinds_differ ssrc k a a' E) as Hne'.
  split.
  - split; cbn.
    + intros k b. destruct (decide (b = a)) as [->|Hb].
      * rewrite lookup_delete_eq. split; [|intros (? & ? & ?); congruence]. intros Hk. apply lookup_delete_Some in Hk as [Hk Hk'].
        by destruct (Hne k a Hk').
      * rewrite (lookup_delete_ne _ a b), lookup_delete_Some by done. rewrite <- (wf_pending _ Hwf k b).
        split; [tauto|]. intros Hk. split; [|done]. intros ->. congruence.
    + intros k b. rewrite (wf_delayer _ Hwf k b). destruct (decide (b = a)) as [->|Hb].
      * rewrite lookup_delete_eq. split; [|intros (? & ? & ?); congruence].
        intros Hex. apply (wf_delayer _ Hwf) in Hex. by destruct (Hne' k a Hex).
      * by rewrite lookup_delete_ne.
    + intros b o Hb. apply lookup_delete_Some in Hb as [_ Hb]. by apply (wf_active _ Hwf) in Hb.
  - unfold abs, spec_received, set_spec_pending. cbn. f_equal; [by apply values_delete|].
    apply values_outside. intros k b Eb. rewrite lookup_delete_ne; [done|]. intros ->. by destruct (Hne' k b Eb).
Qed.

Lemma delete_delayer_ok ssrc a : mapSsrcKeyFrameRequestDelayer s !! ssrc = Some a ->
  let s' := set_delayers s (delete ssrc (mapSsrcKeyFrameRequestDelayer s)) (delete a (objects s)) in
  wf s' /\ abs s' = set_spec_delayed (abs s) (delete ssrc (delayed (abs s))).
Proof.
  intros E s'. pose proof (fun k a' => delayer_other ssrc k a a' E) as Hne.
  assert (forall k a', mapSsrcPendingKeyFrameInfo s !! k = Some a' -> a' <> a) as Hne'.
  { intros k a' E' ->. by eapply kinds_differ. }
  split.
  - split; cbn.
    + intros k b. rewrite (wf_pending _ Hwf k b). destruct (decide (b = a)) as [->|Hb].
      * rewrite lookup_delete_eq. split; [|intros (? & ? & ?); congruence].
        intros Hex. apply (wf_pending _ Hwf) in Hex. by destruct (Hne' k a Hex).
      * by rewrite lookup_delete_ne.
    + intros k b. destruct (decide (b = a)) as [->|Hb].
      * rewrite lookup_delete_eq. split; [|intros (? & ? & ?); congruence]. intros Hk. apply lookup_delete_Some in Hk as [Hk Hk'].
        by destruct (Hne k a Hk').
      * rewrite (lookup_delete_ne _ a b), lookup_delete_Some by done. rewrite <- (wf_delayer _ Hwf k b).
        split; [tauto|]. intros Hk. split; [|done]. intros ->. congruence.
    + intros b o Hb. apply lookup_delete_Some in Hb as [_ Hb]. by apply (wf_active _ Hwf) in Hb.
  - unfold abs, set_spec_delayed. cbn. f_equal; [|by apply values_delete].
    apply values_outside. intros k b Eb. rewrite lookup_delete_ne; [done|]. intros ->. by destruct (Hne' k b Eb).
Qed.

End Updates.

(** ** The operations implement the specification *)

(** [r] is the outcome the specification gives, and the state stays well formed. *)
Definition refines (r : res (State * list Z)) (o : spec * list Z) : Prop :=
  exists s', r = Ok (s', o.2) /\ wf s' /\ abs s' = o.1.

Lemma fresh_unused (h : heap) : h !! (fresh (dom h)) = None.
Proof. apply not_elem_of_dom, is_fresh. Qed.

Lemma new_pending_ok s now ssrc : wf s -> mapSsrcPendingKeyFrameInfo s !! ssrc = None ->
  wf (new_pending s now ssrc) /\
  abs (new_pending s now ssrc) = set_spec_pending (abs s) (<[ssrc := (now + 1000, true)]> (pending (abs s))).
Proof.
  intros Hwf E. unfold new_pending, alloc. apply set_pending_ok; [done|].
  right. split; [done|apply fresh_unused].
Qed.

Lemma new_delayer_ok s now ssrc : wf s -> mapSsrcKeyFrameRequestDelayer s !! ssrc = None ->
  wf (new_delayer s now ssrc) /\
  abs (new_delayer s now ssrc) =
    set_spec_delayed (abs s) (<[ssrc := (now + delay (abs s), false)]> (delayed (abs s))).
Proof.
  intros Hwf E. unfold new_delayer, alloc. apply set_delayer_ok; [done|].
  right. split; [done|apply fresh_unused].
Qed.

(** A request that is there is changed in place. *)
Lemma update_pending_ok s ssrc a tm retry : wf s -> mapSsrcPendingKeyFrameInfo s !! ssrc = Some a ->
  let s' := set_pending s (mapSsrcPendingKeyFrameInfo s)
              (<[a := PendingKeyFrameInfo ssrc (Some tm) retry]> (objects s)) in
  wf s' /\ abs s' = set_spec_pending (abs s) (<[ssrc := (tm, retry)]> (pending (abs s))).
Proof.
  intros Hwf E. pose proof (set_pending_ok s Hwf ssrc a tm retry (or_introl E)) as H.
  by rewrite insert_id in H.
Qed.

Lemma KeyFrameNeeded_pending_refines s now ssrc : wf s ->
  refines (KeyFrameNeeded_pending s now ssrc) (spec_request (abs s) now ssrc).
Proof.
  intros Hwf. unfold KeyFrameNeeded_pending, spec_request.
  destruct (mapSsrcPendingKeyFrameInfo s !! ssrc) as [a|] eqn:E.
  - destruct (pending_object _ Hwf _ _ E) as (tm & retry & Ho & ->).
    unfold SetRetryOnTimeout, get. rewrite Ho. cbn [deref mbind res_bind mret res_ret].
    eexists. split; [done|]. by apply update_pending_ok.
  - rewrite (pending_none _ _ E). eexists. split; [done|]. by apply new_pending_ok.
Qed.

Lemma KeyFrameNeeded_refines s now ssrc : wf s ->
  refines (KeyFrameNeeded s now ssrc) (spec_needed (abs s) now ssrc).
Proof.
  intros Hwf. unfold KeyFrameNeeded, spec_needed. cbn [delay abs].
  destruct (0 <? keyFrameRequestDelay s); [|by apply KeyFrameNeeded_pending_refines].
  destruct (mapSsrcKeyFrameRequestDelayer s !! ssrc) as [a|] eqn:E.
  - destruct (delayer_object _ Hwf _ _ E) as (tm & r & Ho & Hd). fold (abs s). rewrite Hd.
    unfold SetKeyFrameRequested, get. rewrite Ho. cbn [deref mbind res_bind mret res_ret].
    eexists. split; [done|]. pose proof (set_delayer_ok s Hwf ssrc a tm true (or_introl E)) as H.
    by rewrite insert_id in H.
  - fold (abs s). rewrite (delayer_none _ _ E). destruct (new_delayer_ok s now ssrc Hwf E) as [Hwf' Ha].
    change (keyFrameRequestDelay s) with (delay (abs s)). rewrite <- Ha. by apply KeyFrameNeeded_pending_refines.
Qed.

Lemma ForceKeyFrameNeeded_refines s now ssrc : wf s ->
  refines (ForceKeyFrameNeeded s now ssrc) (spec_forced (abs s) now ssrc).
Proof.
  intros Hwf. unfold ForceKeyFrameNeeded, spec_forced.
  set (A := if 0 <? delay (abs s) then _ else _).
  assert (exists s1, (if 0 <? keyFrameRequestDelay s then
         h ← (match mapSsrcKeyFrameRequestDelayer s !! ssrc with
              | Some a => delete_object (objects s) a
              | None => mret (objects s)
              end);
         mret (new_delayer (set_delayers s (mapSsrcKeyFrameRequestDelayer s) h) now ssrc)
       else mret s) = Ok s1 /\ wf s1 /\ abs s1 = A) as (s1 & -> & Hwf1 & <-).
  { unfold A. cbn [delay abs]. destruct (0 <? keyFrameRequestDelay s); [|by exists s].
    destruct (mapSsrcKeyFrameRequestDelayer s !! ssrc) as [a|] eqn:E.
    - destruct (delayer_object _ Hwf _ _ E) as (tm & r & Ho & _). unfold delete_object. rewrite Ho.
      cbn [mbind res_bind mret res_ret]. eexists. split; [done|].
      destruct (delete_delayer_ok s Hwf ssrc a E) as [Hd Ea].
      destruct (new_delayer_ok _ now ssrc Hd) as [Hn En]; [cbn; apply lookup_delete_eq|].
      assert (new_delayer (set_delayers s (mapSsrcKeyFrameRequestDelayer s) (delete a (objects s))) now ssrc =
        new_delayer (set_delayers s (delete ssrc (mapSsrcKeyFrameRequestDelayer s)) (delete a (objects s))) now ssrc) as ->.
      { unfold new_delayer, alloc, set_delayers. cbn. by rewrite insert_delete_eq. }
      split; [done|]. rewrite En, Ea. cbn. by rewrite insert_delete_eq.
    - cbn [mbind res_bind mret res_ret]. eexists. split; [done|].
      assert (set_delayers s (mapSsrcKeyFrameRequestDelayer s) (objects s) = s) as -> by (by destruct s).
      by apply new_delayer_ok. }
  cbn [mbind res_bind]. destruct (mapSsrcPendingKeyFrameInfo s1 !! ssrc) as [a|] eqn:E.
  - destruct (pending_object _ Hwf1 _ _ E) as (tm & retry & Ho & _).
    unfold SetRetryOnTimeout, Restart, get. rewrite Ho. cbn [deref mbind res_bind mret res_ret].
    rewrite lookup_insert_eq. cbn [deref mbind res_bind mret res_ret]. rewrite insert_insert_eq.
    eexists. split; [done|]. by apply update_pending_ok.
  - eexists. split; [done|]. by apply new_pending_ok.
Qed.

Lemma KeyFrameReceived_refines s ssrc : wf s ->
  exists s', KeyFrameReceived s ssrc = Ok s' /\ wf s' /\ abs s' = spec_received (abs s) ssrc.
Proof.
  intros Hwf. unfold KeyFrameReceived. destruct (mapSsrcPendingKeyFrameInfo s !! ssrc) as [a|] eqn:E.
  - destruct (pending_object _ Hwf _ _ E) as (tm & retry & Ho & _). unfold delete_object. rewrite Ho.
    cbn [mbind res_bind mret res_ret]. eexists. split; [done|]. by apply delete_pending_ok.
  - exists s. split_and!; [done..|]. unfold spec_received, set_spec_pending.
    rewrite delete_id by (by apply pending_none). by destruct (abs s).
Qed.

(** The timer of a request. *)
Lemma OnTimer_pending_refines s now ssrc a : wf s -> mapSsrcPendingKeyFrameInfo s !! ssrc = Some a ->
  refines (OnTimer s now a) (spec_timeout (abs s) now ssrc).
Proof.
  intros Hwf E. destruct (pending_object _ Hwf _ _ E) as (tm & retry & Ho & Hp).
  unfold OnTimer, get, spec_timeout. rewrite Ho, Hp. cbn [deref mbind res_bind].
  unfold OnKeyFrameRequestTimeout, GetRetryOnTimeout, SetRetryOnTimeout, Restart, delete_object, get.
  cbn [objects set_pending mapSsrcPendingKeyFrameInfo]. rewrite lookup_insert_eq.
  cbn [deref mbind res_bind GetSsrc]. rewrite E. cbn [ms_assert mbind res_bind mret res_ret].
  destruct retry; cbn [negb].
  - rewrite lookup_insert_eq. cbn [deref mbind res_bind mret res_ret]. rewrite !insert_insert_eq.
    eexists. split; [done|]. apply (update_pending_ok s ssrc a (now + 1000) false Hwf E).
  - cbn [mbind res_bind mret res_ret]. rewrite delete_insert_eq. eexists. split; [done|].
    apply (delete_pending_ok s Hwf ssrc a E).
Qed.

(** The timer of a delayer. *)
Lemma OnTimer_delayer_refines s now ssrc a : wf s -> mapSsrcKeyFrameRequestDelayer s !! ssrc = Some a ->
  refines (OnTimer s now a) (spec_delay_over (abs s) now ssrc).
Proof.
  intros Hwf E. destruct (delayer_object _ Hwf _ _ E) as (tm & requested & Ho & Hd).
  unfold OnTimer, get, spec_delay_over. rewrite Ho, Hd. cbn [deref mbind res_bind].
  unfold OnKeyFrameDelayTimeout, GetKeyFrameRequested, delete_object, get.
  cbn [objects set_delayers mapSsrcKeyFrameRequestDelayer]. rewrite lookup_insert_eq.
  cbn [deref mbind res_bind GetSsrc]. rewrite E. cbn [ms_assert mbind res_bind mret res_ret].
  rewrite delete_insert_eq. destruct (delete_delayer_ok s Hwf ssrc a E) as [Hwf' Ha].
  destruct requested.
  - rewrite <- Ha. by apply KeyFrameNeeded_refines.
  - eexists. by split.
Qed.

(** ** Histories *)

Inductive event :=
| Needed (ssrc : Z)
| Forced (ssrc : Z)
| Received (ssrc : Z)
| Fires (a : positive).

#[global] Instance event_eq_dec : EqDecision event.
Proof. solve_decision. Defined.

(** A timer fires only if its object exists and its time has come. *)
Definition due (s : State) (now : Z) (a : positive) : bool :=
  match objects s !! a ≫= timer with Some tm => tm <=? now | None => false end.

Definition step (s : State) (now : Z) (e : event) : res (State * list Z) :=
  match e with
  | Needed ssrc => KeyFrameNeeded s now ssrc
  | Forced ssrc => ForceKeyFrameNeeded s now ssrc
  | Received ssrc => s' ← KeyFrameReceived s ssrc; mret (s', [])
  | Fires a => if due s now a then OnTimer s now a else mret (s, [])
  end.

(** The state after a history, and the requests that were made, with their times. *)
Fixpoint run (s : State) (h : list (Z * event)) : res (State * list (Z * Z)) :=
  match h with
  | [] => mret (s, [])
  | (now, e) :: h' =>
      '(s1, out) ← step s now e;
      '(s2, log) ← run s1 h';
      mret (s2, ((fun ssrc => (now, ssrc)) <$> out) ++ log)
  end.

(** The steps of the specification. *)
Inductive spec_step (A : spec) (now : Z) : event -> spec -> list Z -> Prop :=
| spec_step_needed ssrc : spec_step A now (Needed ssrc) (spec_needed A now ssrc).1 (spec_needed A now ssrc).2
| spec_step_forced ssrc : spec_step A now (Forced ssrc) (spec_forced A now ssrc).1 (spec_forced A now ssrc).2
| spec_step_received ssrc : spec_step A now (Received ssrc) (spec_received A ssrc) []
| spec_step_timeout a ssrc tm retry : pending A !! ssrc = Some (tm, retry) -> tm <= now ->
    spec_step A now (Fires a) (spec_timeout A now ssrc).1 (spec_timeout A now ssrc).2
| spec_step_delay a ssrc tm requested : delayed A !! ssrc = Some (tm, requested) -> tm <= now ->
    spec_step A now (Fires a) (spec_delay_over A now ssrc).1 (spec_delay_over A now ssrc).2
| spec_step_none a : spec_step A now (Fires a) A [].

Inductive spec_run : spec -> list (Z * event) -> spec -> list (Z * Z) -> Prop :=
| spec_run_nil A : spec_run A [] A []
| spec_run_cons A now e A1 out h A2 log :
    spec_step A now e A1 out -> spec_run A1 h A2 log ->
    spec_run A ((now, e) :: h) A2 (((fun ssrc => (now, ssrc)) <$> out) ++ log).

Lemma wf_init d : wf (init d).
Proof.
  split; cbn.
  - intros. rewrite !lookup_empty. split; [done|by intros (? & ? & ?)].
  - intros. rewrite !lookup_empty. split; [done|by intros (? & ? & ?)].
  - intros a o. by rewrite lookup_empty.
Qed.

Lemma step_refines s now e : wf s ->
  exists s' out, step s now e = Ok (s', out) /\ wf s' /\ spec_step (abs s) now e (abs s') out.
Proof.
  intros Hwf. destruct e as [ssrc|ssrc|ssrc|a]; cbn [step].
  - destruct (KeyFrameNeeded_refines s now ssrc Hwf) as (s' & -> & Hw & Ha).
    eexists _, _. split_and!; [done..|]. rewrite Ha. by econstructor.
  - destruct (ForceKeyFrameNeeded_refines s now ssrc Hwf) as (s' & -> & Hw & Ha).
    eexists _, _. split_and!; [done..|]. rewrite Ha. by econstructor.
  - destruct (KeyFrameReceived_refines s ssrc Hwf) as (s' & -> & Hw & Ha).
    eexists _, _. split_and!; [done..|]. rewrite Ha. by econstructor.
  - unfold due. destruct (objects s !! a) as [o|] eqn:Ho; cbn; [|eauto using spec_step].
    destruct o as [ssrc [tm|] r|ssrc [tm|] r]; cbn; try (by eauto using spec_step);
      (destruct (Z.leb_spec tm now); [|eauto using spec_step]).
    + assert (mapSsrcPendingKeyFrameInfo s !! ssrc = Some a) as E by (apply (wf_pending _ Hwf); eauto).
      destruct (OnTimer_pending_refines s now ssrc a Hwf E) as (s' & -> & Hw & Ha).
      destruct (pending_object _ Hwf _ _ E) as (tm' & r' & Ho' & Hp). simplify_eq.
      eexists _, _. split_and!; [done..|]. rewrite Ha. by eapply spec_step_timeout.
    + assert (mapSsrcKeyFrameRequestDelayer s !! ssrc = Some a) as E by (apply (wf_delayer _ Hwf); eauto).
      destruct (OnTimer_delayer_refines s now ssrc a Hwf E) as (s' & -> & Hw & Ha).
      destruct (delayer_object _ Hwf _ _ E) as (tm' & r' & Ho' & Hp). simplify_eq.
      eexists _, _. split_and!; [done..|]. rewrite Ha. by eapply spec_step_delay.
Qed.

Lemma run_refines h : forall s, wf s ->
  exists s' log, run s h = Ok (s', log) /\ wf s' /\ spec_run (abs s) h (abs s') log.
Proof.
  induction h as [|[now e] h IH]; intros s Hwf; cbn [run]; [eauto using spec_run|].
  destruct (step_refines s now e Hwf) as (s1 & out & -> & Hw1 & Hs1). cbn [mbind res_bind].
  destruct (IH s1 Hw1) as (s2 & log & -> & Hw2 & Hs2). cbn. eauto 7 using spec_run.
Qed.

(** *** The destructor *)

Lemma delete_objects_ok l : forall h, NoDup l -> (forall a, a ∈ l -> is_Some (h !! a)) ->
  exists h', delete_objects h l = Ok h' /\ forall a, h' !! a = if bool_decide (a ∈ l) then None else h !! a.
Proof.
  induction l as [|a l IH]; intros h Hnd Hin; cbn [delete_objects].
  { exists h. split; [done|]. intros a. rewrite bool_decide_false; [done|apply not_elem_of_nil]. }
  apply NoDup_cons in Hnd as [Ha Hnd]. destruct (Hin a) as [o Ho]; [by left|].
  unfold delete_object. rewrite Ho. cbn [mbind res_bind].
  destruct (IH (delete a h) Hnd) as (h' & -> & Hh').
  { intros b Hb. rewrite lookup_delete_ne by (intros ->; done). apply Hin. by right. }
  exists h'. split; [done|]. intros b. rewrite Hh'. destruct (decide (b = a)) as [->|Hne].
  - rewrite lookup_delete_eq. rewrite (bool_decide_true (a ∈ a :: l)) by (by left). by case_bool_decide.
  - rewrite lookup_delete_ne by done.
    rewrite (bool_decide_ext (b ∈ l) (b ∈ a :: l)); [done|]. rewrite elem_of_cons. tauto.
Qed.

Lemma map_values_NoDup (m : gmap Z positive) :
  (forall k k' a, m !! k = Some a -> m !! k' = Some a -> k = k') -> NoDup ((map_to_list m).*2).
Proof.
  intros Hinj. apply NoDup_fmap_2_strong; [|apply NoDup_map_to_list].
  intros [k a] [k' a'] H H' Heq. cbn in Heq. subst a'.
  apply elem_of_map_to_list in H, H'. by rewrite (Hinj k k' a H H').
Qed.

Lemma elem_of_map_values (m : gmap Z positive) a : a ∈ (map_to_list m).*2 <-> exists k, m !! k = Some a.
Proof.
  rewrite list_elem_of_fmap. split.
  - intros ([k b] & -> & H). apply elem_of_map_to_list in H. eauto.
  - intros [k H]. exists (k, a). split; [done|]. by apply elem_of_map_to_list.
Qed.

Lemma destroy_ok s : wf s -> destroy s = Ok ∅.
Proof.
  intros Hwf. unfold destroy.
  destruct (delete_objects_ok ((map_to_list (mapSsrcPendingKeyFrameInfo s)).*2) (objects s)) as (h1 & -> & H1).
  { apply map_values_NoDup. intros k k' a E E'. destruct (decide (k' = k)); [done|].
    by destruct (pending_other s Hwf k k' a a E E'). }
  { intros a Ha. apply elem_of_map_values in Ha as [k E].
    destruct (pending_object _ Hwf _ _ E) as (? & ? & -> & _). eauto. }
  cbn [mbind res_bind].
  destruct (delete_objects_ok ((map_to_list (mapSsrcKeyFrameRequestDelayer s)).*2) h1) as (h2 & -> & H2).
  { apply map_values_NoDup. intros k k' a E E'. destruct (decide (k' = k)); [done|].
    by destruct (delayer_other s Hwf k k' a a E E'). }
  { intros a Ha. apply elem_of_map_values in Ha as [k E]. rewrite H1, bool_decide_false.
    - destruct (delayer_object _ Hwf _ _ E) as (? & ? & -> & _). eauto.
    - intros Hp. apply elem_of_map_values in Hp as [k' E']. by apply (kinds_differ s Hwf k' k a a). }
  f_equal. apply map_eq. intros a. rewrite H2, H1, lookup_empty.
  case_bool_decide as Hd; [done|]. case_bool_decide as Hp; [done|].
  destruct (objects s !! a) as [o|] eqn:Ho; [|done]. exfalso.
  pose proof (wf_active _ Hwf _ _ Ho) as Ht. destruct o as [k [tm|] r|k [tm|] r]; try done.
  - apply Hp, elem_of_map_values. exists k. apply (wf_pending _ Hwf). eauto.
  - apply Hd, elem_of_map_values. exists k. apply (wf_delayer _ Hwf). eauto.
Qed.

(** C30: for every history of requests, received key frames and timers, the manager never
    uses a deleted object, deletes one twice or fails an assertion, and does what the
    specification says: per SSRC, a request is made unless one is pending or delayed, is
    repeated once when no key frame came within a second, and is then forgotten.  After the
    history, the destructor frees every object. *)
Theorem key_frame_requests_refine d h :
  exists s log, run (init d) h = Ok (s, log) /\
    spec_run {| delay := d; pending := ∅; delayed := ∅ |} h (abs s) log /\ destroy s = Ok ∅.
Proof.
  destruct (run_refines h (init d) (wf_init d)) as (s & log & Hr & Hw & Hs).
  exists s, log. split_and!; [done|exact Hs|by apply destroy_ok].
Qed.

(** ** Liveness *)

(** No event is handled more than [late] milliseconds after the time of an active timer. *)
Definition on_time (late : Z) (s : State) (now : Z) : Prop :=
  forall a o tm, objects s !! a = Some o -> timer o = Some tm -> now <= tm + late.

Fixpoint timely (late : Z) (s : State) (h : list (Z * event)) : Prop :=
  match h with
  | [] => True
  | (now, e) :: h' =>
      on_time late s now /\
      match step s now e with Ok (s1, _) => timely late s1 h' | Fault _ => True end
  end.

(** A request for [ssrc] that will be repeated at [limit] or before. *)
Definition waiting (A : spec) (ssrc limit : Z) : Prop :=
  exists tm, pending A !! ssrc = Some (tm, true) /\ tm <= limit.

Lemma waiting_request A ssrc limit x now :
  waiting A ssrc limit -> waiting (spec_request A now x).1 ssrc limit.
Proof.
  intros (tm & E & Hl). unfold spec_request. destruct (decide (x = ssrc)) as [->|Hne].
  - rewrite E. exists tm. cbn. by rewrite lookup_insert_eq.
  - exists tm. destruct (pending A !! x) as [[]|]; cbn; by rewrite lookup_insert_ne.
Qed.

Lemma waiting_needed A ssrc limit x now :
  waiting A ssrc limit -> waiting (spec_needed A now x).1 ssrc limit.
Proof.
  intros Hw. unfold spec_needed. destruct (0 <? delay A); [|by apply waiting_request].
  destruct (delayed A !! x) as [[]|]; [exact Hw|]. by apply waiting_request.
Qed.

(** A step keeps the request waiting, repeats it, or is the key frame. *)
Lemma waiting_step A now e A' out ssrc limit :
  spec_step A now e A' out -> waiting A ssrc limit -> e <> Received ssrc ->
  waiting A' ssrc limit \/ ssrc ∈ out.
Proof.
  intros Hs Hw He. destruct Hs as [x|x|x|a x tm retry Ep Ht|a x tm requested Ed Ht|a].
  - left. by apply waiting_needed.
  - destruct (decide (x = ssrc)) as [->|Hne]; [right; by left|]. left.
    destruct Hw as (tm & E & Hl). exists tm. split; [|done]. unfold spec_forced.
    destruct (0 <? delay A); cbn; by rewrite lookup_insert_ne.
  - left. destruct Hw as (tm & E & Hl). exists tm. split; [|done]. cbn.
    rewrite lookup_delete_ne; [done|congruence].
  - destruct Hw as (tm' & E & Hl). destruct (decide (x = ssrc)) as [->|Hne].
    + right. unfold spec_timeout. rewrite E. by left.
    + left. exists tm'. split; [|done]. unfold spec_timeout. rewrite Ep.
      destruct retry; cbn; by rewrite ?lookup_insert_ne, ?lookup_delete_ne.
  - left. unfold spec_delay_over. rewrite Ed. destruct requested; [by apply waiting_needed|exact Hw].
  - by left.
Qed.

Lemma waiting_repeated late h : forall s s' log ssrc limit,
  wf s -> waiting (abs s) ssrc limit -> run s h = Ok (s', log) -> timely late s h ->
  Forall (fun x => x.2 <> Received ssrc) h -> Exists (fun x => limit + late < x.1) h ->
  exists t, (t, ssrc) ∈ log /\ t <= limit + late.
Proof.
  induction h as [|[now e] h IH]; intros s s' log ssrc limit Hwf Hw Hr Ht Hno Hlate;
    [by apply Exists_nil in Hlate|].
  cbn [run] in Hr. destruct (step_refines s now e Hwf) as (s1 & out & E1 & Hwf1 & Hs).
  rewrite E1 in Hr. cbn [mbind res_bind] in Hr.
  apply res_bind_ok in Hr as ([s2 log'] & Hr & [= <- <-]).
  cbn [timely] in Ht. rewrite E1 in Ht. destruct Ht as [Hot Ht].
  assert (now <= limit + late) as Hnow.
  { destruct Hw as (tm & Ep & Hl). cbn in Ep. unfold values in Ep. rewrite lookup_omap in Ep.
    destruct (mapSsrcPendingKeyFrameInfo s !! ssrc) as [a|] eqn:E; [|done].
    destruct (pending_object _ Hwf _ _ E) as (tm' & r & Ho & _). cbn in Ep. rewrite Ho in Ep.
    cbn in Ep. injection Ep as -> ->. specialize (Hot _ _ _ Ho eq_refl). lia. }
  apply list.Forall_cons in Hno as [He Hno].
  destruct (waiting_step _ _ _ _ _ ssrc limit Hs Hw He) as [Hw'|Hout].
  - apply Exists_cons in Hlate as [Hlate|Hlate]; [cbn in Hlate; lia|].
    destruct (IH s1 s2 log' ssrc limit) as (t & Hin & Hl); [done..|].
    exists t. split; [|done]. apply elem_of_app. by right.
  - exists now. split; [|done]. apply elem_of_app. left. by apply (list_elem_of_fmap_2 (fun x => (now, x))).
Qed.

(** A request that was just made is waiting. *)
Lemma requested_waiting A now e A' ssrc : (e = Needed ssrc \/ e = Forced ssrc) ->
  spec_step A now e A' [ssrc] -> waiting A' ssrc (now + 1000).
Proof.
  assert (forall B, (spec_request B now ssrc).2 = [ssrc] ->
    waiting (spec_request B now ssrc).1 ssrc (now + 1000)) as Hreq.
  { intros B. unfold spec_request. destruct (pending B !! ssrc) as [[]|]; [done|]. intros _.
    exists (now + 1000). cbn. rewrite lookup_insert_eq. split; [done|lia]. }
  intros [-> | ->] Hs.
  - assert ((spec_needed A now ssrc).2 = [ssrc] /\ A' = (spec_needed A now ssrc).1) as [Eout ->] by (by inversion Hs).
    revert Eout. unfold spec_needed.
    destruct (0 <? delay A); [|apply Hreq]. destruct (delayed A !! ssrc) as [[]|]; [done|apply Hreq].
  - assert (A' = (spec_forced A now ssrc).1) as -> by (by inversion Hs). exists (now + 1000). unfold spec_forced.
    destruct (0 <? delay A); cbn; rewrite lookup_insert_eq; (split; [done|lia]).
Qed.

(** C31: a key frame that is requested arrives or is requested again.  After any history, when
    [KeyFrameNeeded] or [ForceKeyFrameNeeded] makes a request at time [t], and timers are
    handled at most [late] milliseconds after their time, then either the key frame is
    received or the request is repeated before [t + 1000 + late]. *)
Theorem key_frame_requested_again d h0 s log0 t e s1 ssrc late h s2 log :
  run (init d) h0 = Ok (s, log0) -> (e = Needed ssrc \/ e = Forced ssrc) ->
  step s t e = Ok (s1, [ssrc]) -> run s1 h = Ok (s2, log) ->
  timely late s1 h -> Exists (fun x => t + 1000 + late < x.1) h ->
  (exists now, (now, Received ssrc) ∈ h) \/ exists t', (t', ssrc) ∈ log /\ t' <= t + 1000 + late.
Proof.
  intros Hr0 He Hs Hr Ht Hl.
  destruct (run_refines h0 (init d) (wf_init d)) as (s' & log0' & Hr0' & Hwf & _).
  rewrite Hr0 in Hr0'. injection Hr0' as <- <-.
  destruct (step_refines s t e Hwf) as (s1' & out & E & Hwf1 & Hspec).
  rewrite Hs in E. injection E as <- <-.
  destruct (decide (Exists (fun x => x.2 = Received ssrc) h)) as [Hyes|Hno].
  { left. apply Exists_exists in Hyes as ([now e'] & Hin & Heq). cbn in Heq. subst e'. eauto. }
  right. apply (waiting_repeated late h s1 s2 log ssrc (t + 1000)); [done| |done|done| |done].
  - by eapply requested_waiting.
  - apply Forall_forall. intros [now e'] Hin Heq. apply Hno, Exists_exists. eauto.
Qed.

Lemma key_frame_requested_again_witness :
  exists s1 s2 log, step (init 0) 5 (Needed 7) = Ok (s1, [7]) /\
    run s1 [(1005, Fires 1); (2000, Needed 8)] = Ok (s2, log) /\
    ((exists now, (now, Received 7) ∈ [(1005, Fires 1); (2000, Needed 8)]) \/
     exists t', (t', 7) ∈ log /\ t' <= 5 + 1000 + 0).
Proof.
  eexists _, _, _. split; [vm_compute; reflexivity|]. split; [vm_compute; reflexivity|].
  eapply (key_frame_requested_again 0 [] (init 0) [] 5 (Needed 7) _ 7 0 [(1005, Fires 1); (2000, Needed 8)]).
  - reflexivity.
  - by left.
  - vm_compute. reflexivity.
  - vm_compute. reflexivity.
  - split; [|split; [|done]].
    + intros a o tm Ha Ht. vm_compute in Ha. destruct a; vm_compute in Ha; simplify_eq. vm_compute in Ht. simplify_eq. lia.
    + intros a o tm Ha Ht. vm_compute in Ha. destruct a; vm_compute in Ha; simplify_eq. vm_compute in Ht. simplify_eq. lia.
  - right. left. cbn. lia.
Defined.

End KeyFrameRequestManager.
