(* ===== verification/StunPacket.v ===== *)
(** * STUN packets

    Models [worker/src/RTC/StunPacket.cpp] and its header: parsing of STUN messages, their
    authentication, and the messages the ICE server writes.  The HMAC-SHA1 of OpenSSL is a
    parameter.  A packet keeps the bytes it was parsed from; the pointer to its
    MESSAGE-INTEGRITY is an offset into them. *)

From S2P Require Import Prelude Utils RtcpPacket RtpPacket.

Module StunPacket.

Import RtpPacket (write).

Definition magicCookie : list Z := [0x21; 0x12; 0xA4; 0x42].

Inductive Class := REQUEST | INDICATION | SUCCESS_RESPONSE | ERROR_RESPONSE.

#[global] Instance Class_eq_dec : EqDecision Class.
Proof. solve_decision. Defined.

Definition class_code (c : Class) : Z :=
  match c with REQUEST => 0 | INDICATION => 1 | SUCCESS_RESPONSE => 2 | ERROR_RESPONSE => 3 end.

(** [static_cast<Class>] of the two class bits. *)
Definition class_of (z : Z) : Class :=
  if z =? 0 then REQUEST else if z =? 1 then INDICATION else if z =? 2 then SUCCESS_RESPONSE else ERROR_RESPONSE.

Definition BINDING : Z := 1.

Definition USERNAME : Z := 0x0006.
Definition MESSAGE_INTEGRITY : Z := 0x0008.
Definition ERROR_CODE : Z := 0x0009.
Definition XOR_MAPPED_ADDRESS : Z := 0x0020.
Definition PRIORITY : Z := 0x0024.
Definition USE_CANDIDATE : Z := 0x0025.
Definition FINGERPRINT : Z := 0x8028.
Definition ICE_CONTROLLED : Z := 0x8029.
Definition ICE_CONTROLLING : Z := 0x802A.
Definition NOMINATION : Z := 0xC001.

Inductive Authentication := OK | UNAUTHORIZED | BAD_REQUEST.

(** A [sockaddr]: port and address in network byte order. *)
Inductive sockaddr :=
| AF_INET (sin_port sin_addr : list Z)
| AF_INET6 (sin6_port sin6_addr : list Z)
| AF_OTHER.

(** What the attributes of a message set. *)
Record attributes := {
  username : list Z;
  priority : Z;
  iceControlling : Z;
  iceControlled : Z;
  hasNomination : bool;
  nomination : Z;
  hasUseCandidate : bool;
  messageIntegrity : option Z;
  hasFingerprint : bool;
  errorCode : Z;
}.

Definition no_attributes : attributes :=
  {| username := []; priority := 0; iceControlling := 0; iceControlled := 0; hasNomination := false;
     nomination := 0; hasUseCandidate := false; messageIntegrity := None; hasFingerprint := false;
     errorCode := 0 |}.

Record t := {
  klass : Class;
  method : Z;
  transactionId : list Z;
  data : list Z;
  size : Z;
  attrs : attributes;
  xorMappedAddress : option sockaddr;
  password : list Z;
}.

(** The constructor. *)
Definition make (c : Class) (m : Z) (tid bytes : list Z) (sz : Z) : t :=
  {| klass := c; method := m; transactionId := tid; data := bytes; size := sz;
     attrs := no_attributes; xorMappedAddress := None; password := [] |}.

Definition set_attrs (p : t) (a : attributes) : t :=
  {| klass := klass p; method := method p; transactionId := transactionId p; data := data p;
     size := size p; attrs := a; xorMappedAddress := xorMappedAddress p; password := password p |}.

Definition SetUsername (a : attributes) (v : list Z) : attributes :=
  {| username := v; priority := priority a; iceControlling := iceControlling a;
     iceControlled := iceControlled a; hasNomination := hasNomination a; nomination := nomination a;
     hasUseCandidate := hasUseCandidate a; messageIntegrity := messageIntegrity a;
     hasFingerprint := hasFingerprint a; errorCode := errorCode a |}.
Definition SetPriority (a : attributes) (v : Z) : attributes :=
  {| username := username a; priority := v; iceControlling := iceControlling a;
     iceControlled := iceControlled a; hasNomination := hasNomination a; nomination := nomination a;
     hasUseCandidate := hasUseCandidate a; messageIntegrity := messageIntegrity a;
     hasFingerprint := hasFingerprint a; errorCode := errorCode a |}.
Definition SetIceControlling (a : attributes) (v : Z) : attributes :=
  {| username := username a; priority := priority a; iceControlling := v;
     iceControlled := iceControlled a; hasNomination := hasNomination a; nomination := nomination a;
     hasUseCandidate := hasUseCandidate a; messageIntegrity := messageIntegrity a;
     hasFingerprint := hasFingerprint a; errorCode := errorCode a |}.
Definition SetIceControlled (a : attributes) (v : Z) : attributes :=
  {| username := username a; priority := priority a; iceControlling := iceControlling a;
     iceControlled := v; hasNomination := hasNomination a; nomination := nomination a;
     hasUseCandidate := hasUseCandidate a; messageIntegrity := messageIntegrity a;
     hasFingerprint := hasFingerprint a; errorCode := errorCode a |}.
Definition SetUseCandidate (a : attributes) : attributes :=
  {| username := username a; priority := priority a; iceControlling := iceControlling a;
     iceControlled := iceControlled a; hasNomination := hasNomination a; nomination := nomination a;
     hasUseCandidate := true; messageIntegrity := messageIntegrity a;
     hasFingerprint := hasFingerprint a; errorCode := errorCode a |}.
(** [SetHasNomination] and [SetNomination]. *)
Definition SetNomination (a : attributes) (v : Z) : attributes :=
  {| username := username a; priority := priority a; iceControlling := iceControlling a;
     iceControlled := iceControlled a; hasNomination := true; nomination := v;
     hasUseCandidate := hasUseCandidate a; messageIntegrity := messageIntegrity a;
     hasFingerprint := hasFingerprint a; errorCode := errorCode a |}.
Definition SetMessageIntegrity (a : attributes) (v : option Z) : attributes :=
  {| username := username a; priority := priority a; iceControlling := iceControlling a;
     iceControlled := iceControlled a; hasNomination := hasNomination a; nomination := nomination a;
     hasUseCandidate := hasUseCandidate a; messageIntegrity := v;
     hasFingerprint := hasFingerprint a; errorCode := errorCode a |}.
Definition SetFingerprint (a : attributes) : attributes :=
  {| username := username a; priority := priority a; iceControlling := iceControlling a;
     iceControlled := iceControlled a; hasNomination := hasNomination a; nomination := nomination a;
     hasUseCandidate := hasUseCandidate a; messageIntegrity := messageIntegrity a;
     hasFingerprint := true; errorCode := errorCode a |}.
Definition SetErrorCode (a : attributes) (v : Z) : attributes :=
  {| username := username a; priority := priority a; iceControlling := iceControlling a;
     iceControlled := iceControlled a; hasNomination := hasNomination a; nomination := nomination a;
     hasUseCandidate := hasUseCandidate a; messageIntegrity := messageIntegrity a;
     hasFingerprint := hasFingerprint a; errorCode := v |}.

(** ** Parsing *)

Definition IsStun (d : list Z) : res bool :=
  if negb (20 <=? zlen d) then mret false
  else
    b0 ← read d 0;
    if negb (b0 <? 3) then mret false
    else
      b4 ← read d 4; b5 ← read d 5; b6 ← read d 6; b7 ← read d 7;
      mret ((b4 =? 0x21) && (b5 =? 0x12) && (b6 =? 0xA4) && (b7 =? 0x42)).

(** The state of the loop: the attributes set so far, whether MESSAGE-INTEGRITY was seen,
    and the position and the value of FINGERPRINT. *)
Record scan := { found : attributes; hasMI : bool; fp : option (Z * Z) }.

Definition set_found (st : scan) (a : attributes) : scan := {| found := a; hasMI := hasMI st; fp := fp st |}.

(** The [switch] on the attribute type; [None] when the packet is discarded. *)
Definition handle_attribute (d : list Z) (st : scan) (attrType attrLength pos : Z) : res (option scan) :=
  let v := pos + 4 in
  if attrType =? USERNAME then
    u ← bytes_at d v attrLength; mret (Some (set_found st (SetUsername (found st) u)))
  else if attrType =? PRIORITY then
    if negb (attrLength =? 4) then mret None
    else x ← Byte.Get4Bytes d v; mret (Some (set_found st (SetPriority (found st) x)))
  else if attrType =? ICE_CONTROLLING then
    if negb (attrLength =? 8) then mret None
    else x ← Byte.Get8Bytes d v; mret (Some (set_found st (SetIceControlling (found st) x)))
  else if attrType =? ICE_CONTROLLED then
    if negb (attrLength =? 8) then mret None
    else x ← Byte.Get8Bytes d v; mret (Some (set_found st (SetIceControlled (found st) x)))
  else if attrType =? USE_CANDIDATE then
    if negb (attrLength =? 0) then mret None
    else mret (Some (set_found st (SetUseCandidate (found st))))
  else if attrType =? NOMINATION then
    if negb (attrLength =? 4) then mret None
    else x ← Byte.Get4Bytes d v; mret (Some (set_found st (SetNomination (found st) x)))
  else if attrType =? MESSAGE_INTEGRITY then
    if negb (attrLength =? 20) then mret None
    else mret (Some {| found := SetMessageIntegrity (found st) (Some v); hasMI := true; fp := fp st |})
  else if attrType =? FINGERPRINT then
    if negb (attrLength =? 4) then mret None
    else x ← Byte.Get4Bytes d v;
         mret (Some {| found := SetFingerprint (found st); hasMI := hasMI st; fp := Some (pos, x) |})
  else if attrType =? ERROR_CODE then
    if attrLength <? 4 then mret None
    else
      errorClass ← Byte.Get1Byte d (v + 2);
      errorNumber ← Byte.Get1Byte d (v + 3);
      mret (Some (set_found st (SetErrorCode (found st) (u16 (errorClass * 100 + errorNumber)))))
  else mret (Some st).

(** The loop over the attributes, and the check that they end with the packet. *)
Fixpoint parse_attributes (fuel : nat) (d : list Z) (st : scan) (pos : Z) : res (option scan) :=
  if pos + 4 <=? zlen d then
    match fuel with
    | O => Fault OutOfFuel
    | S fuel' =>
        attrType ← Byte.Get2Bytes d pos;
        attrLength ← Byte.Get2Bytes d (pos + 2);
        if zlen d <? pos + 4 + attrLength then mret None
        else if (match fp st with Some _ => true | None => false end) then mret None
        else if hasMI st && negb (attrType =? FINGERPRINT) then mret None
        else
          r ← handle_attribute d st attrType attrLength pos;
          match r with
          | None => mret None
          | Some st => parse_attributes fuel' d st (Byte.PadTo4Bytes16 (u16 (pos + 4 + attrLength)))
          end
    end
  else if negb (pos =? zlen d) then mret None
  else mret (Some st).

Definition method_of (msgType : Z) : Z :=
  Z.lor (Z.lor (Z.land msgType 0x000F) (Z.shiftr (Z.land msgType 0x00E0) 1)) (Z.shiftr (Z.land msgType 0x3E00) 2).

Definition Parse (d : list Z) : res (option t) :=
  isStun ← IsStun d;
  if negb isStun then mret None
  else
    msgType ← Byte.Get2Bytes d 0;
    msgLength ← Byte.Get2Bytes d 2;
    if negb (msgLength =? zlen d - 20) || negb (Z.land msgLength 3 =? 0) then mret None
    else
      b0 ← read d 0;
      b1 ← read d 1;
      let msgClass := Z.lor (Z.shiftl (Z.land b0 1) 1) (Z.shiftr (Z.land b1 0x10) 4) in
      tid ← bytes_at d 8 12;
      let packet := make (class_of msgClass) (method_of msgType) tid d (zlen d) in
      r ← parse_attributes (length d) d {| found := no_attributes; hasMI := false; fp := None |} 20;
      match r with
      | None => mret None
      | Some st =>
          match fp st with
          | Some (fingerprintAttrPos, fingerprint) =>
              hashed ← bytes_at d 0 fingerprintAttrPos;
              if negb (fingerprint =? Z.lxor (Crypto.GetCRC32 hashed) 0x5354554E) then mret None
              else mret (Some (set_attrs packet (found st)))
          | None => mret (Some (set_attrs packet (found st)))
          end
      end.

(** ** Authentication and responses *)

Section Hmac.

(** [Crypto::GetHmacSha1(key, data, len)], computed by OpenSSL. *)
Context (GetHmacSha1 : list Z -> list Z -> list Z).

Definition set_data (p : t) (d : list Z) : t :=
  {| klass := klass p; method := method p; transactionId := transactionId p; data := d;
     size := size p; attrs := attrs p; xorMappedAddress := xorMappedAddress p; password := password p |}.

(** The USERNAME begins with the local username and a colon. *)
Definition username_matches (u localUsername : list Z) : bool :=
  negb (zlen u <=? zlen localUsername) &&
  bool_decide (u !! length localUsername = Some 58) &&
  bool_decide (take (length localUsername) u = localUsername).

(** [CheckAuthentication]: the result, and the packet with its bytes restored. *)
Definition CheckAuthentication (p : t) (localUsername localPassword : list Z) : res (Authentication * t) :=
  match klass p with
  | SUCCESS_RESPONSE | ERROR_RESPONSE => mret (BAD_REQUEST, p)
  | REQUEST | INDICATION =>
      match messageIntegrity (attrs p) with
      | None => mret (BAD_REQUEST, p)
      | Some mi =>
          if bool_decide (username (attrs p) = []) then mret (BAD_REQUEST, p)
          else if negb (username_matches (username (attrs p)) localUsername) then mret (UNAUTHORIZED, p)
          else
            d ← (if hasFingerprint (attrs p) then Byte.Set2Bytes (data p) 2 (u16 (size p - 20 - 8))
                 else mret (data p));
            hashed ← bytes_at d 0 (mi - 4);
            received ← bytes_at d mi 20;
            let result := if bool_decide (received = GetHmacSha1 localPassword hashed) then OK else UNAUTHORIZED in
            d ← (if hasFingerprint (attrs p) then Byte.Set2Bytes d 2 (u16 (size p - 20)) else mret d);
            mret (result, set_data p d)
      end
  end.

Definition CreateSuccessResponse (p : t) : res t :=
  _ ← ms_assert (bool_decide (klass p = REQUEST));
  mret (make SUCCESS_RESPONSE (method p) (transactionId p) [] 0).

Definition CreateErrorResponse (p : t) (code : Z) : res t :=
  _ ← ms_assert (bool_decide (klass p = REQUEST));
  let response := make ERROR_RESPONSE (method p) (transactionId p) [] 0 in
  mret (set_attrs response (SetErrorCode (attrs response) code)).

Definition Authenticate (p : t) (pwd : list Z) : t :=
  if bool_decide (klass p = ERROR_RESPONSE) then p
  else {| klass := klass p; method := method p; transactionId := transactionId p; data := data p;
          size := size p; attrs := attrs p; xorMappedAddress := xorMappedAddress p; password := pwd |}.

Definition SetXorMappedAddress (p : t) (a : sockaddr) : t :=
  {| klass := klass p; method := method p; transactionId := transactionId p; data := data p;
     size := size p; attrs := attrs p; xorMappedAddress := Some a; password := password p |}.

(** ** Serialization *)

(** The bytes at a position of the buffer, and the position after them. *)
Definition put_header (buf : list Z) (pos attrType attrLength : Z) : res (list Z) :=
  b ← Byte.Set2Bytes buf pos attrType; Byte.Set2Bytes b (pos + 2) attrLength.

Definition add_username (a : attributes) (x : list Z * Z) : res (list Z * Z) :=
  let '(buf, pos) := x in
  let usernamePaddedLen :=
    if bool_decide (username a = []) then 0 else Byte.PadTo4Bytes16 (u16 (zlen (username a))) in
  if negb (usernamePaddedLen =? 0) then
    b ← put_header buf pos USERNAME (u16 (zlen (username a)));
    b ← write b (pos + 4) (username a);
    mret (b, pos + (4 + usernamePaddedLen))
  else mret (buf, pos).

Definition add_priority (a : attributes) (x : list Z * Z) : res (list Z * Z) :=
  let '(buf, pos) := x in
  if negb (priority a =? 0) then
    b ← put_header buf pos PRIORITY 4;
    b ← Byte.Set4Bytes b (pos + 4) (priority a);
    mret (b, pos + 8)
  else mret (buf, pos).

Definition add_iceControlling (a : attributes) (x : list Z * Z) : res (list Z * Z) :=
  let '(buf, pos) := x in
  if negb (iceControlling a =? 0) then
    b ← put_header buf pos ICE_CONTROLLING 8;
    b ← Byte.Set8Bytes b (pos + 4) (iceControlling a);
    mret (b, pos + 12)
  else mret (buf, pos).

Definition add_iceControlled (a : attributes) (x : list Z * Z) : res (list Z * Z) :=
  let '(buf, pos) := x in
  if negb (iceControlled a =? 0) then
    b ← put_header buf pos ICE_CONTROLLED 8;
    b ← Byte.Set8Bytes b (pos + 4) (iceControlled a);
    mret (b, pos + 12)
  else mret (buf, pos).

Definition add_useCandidate (a : attributes) (x : list Z * Z) : res (list Z * Z) :=
  let '(buf, pos) := x in
  if hasUseCandidate a then b ← put_header buf pos USE_CANDIDATE 0; mret (b, pos + 4)
  else mret (buf, pos).

(** The XOR of an address with the magic cookie and the transaction id. *)
Fixpoint xor_bytes (l k : list Z) : list Z :=
  match l, k with
  | x :: l', y :: k' => Z.lxor x y :: xor_bytes l' k'
  | _, _ => l
  end.

(** The value of XOR-MAPPED-ADDRESS, for the two families that have one. *)
Definition xor_address (tid : list Z) (a : sockaddr) : option (list Z) :=
  match a with
  | AF_INET port addr => Some ([0; 1] ++ xor_bytes port (take 2 magicCookie) ++ xor_bytes addr magicCookie)
  | AF_INET6 port addr =>
      Some ([0; 2] ++ xor_bytes port (take 2 magicCookie) ++ xor_bytes addr (magicCookie ++ tid))
  | AF_OTHER => None
  end.

(** The value to add, when the packet is a success response to a binding request. *)
Definition address_value (p : t) : option (list Z) :=
  match xorMappedAddress p with
  | Some a => if (method p =? BINDING) && bool_decide (klass p = SUCCESS_RESPONSE)
              then xor_address (transactionId p) a else None
  | None => None
  end.

Definition add_address (p : t) (x : list Z * Z) : res (list Z * Z) :=
  let '(buf, pos) := x in
  match address_value p with
  | Some v =>
      b ← put_header buf pos XOR_MAPPED_ADDRESS (zlen v);
      b ← write b (pos + 4) v;
      mret (b, pos + (4 + zlen v))
  | None => mret (buf, pos)
  end.

Definition adds_error (p : t) : bool :=
  negb (errorCode (attrs p) =? 0) && bool_decide (klass p = ERROR_RESPONSE).

Definition add_error (p : t) (x : list Z * Z) : res (list Z * Z) :=
  let '(buf, pos) := x in
  if adds_error p then
    b ← put_header buf pos ERROR_CODE 4;
    let codeClass := u8 (errorCode (attrs p) / 100) in
    let codeNumber := u8 (u8 (errorCode (attrs p)) - codeClass * 100) in
    b ← Byte.Set2Bytes b (pos + 4) 0;
    b ← Byte.Set1Byte b (pos + 6) codeClass;
    b ← Byte.Set1Byte b (pos + 7) codeNumber;
    mret (b, pos + 8)
  else mret (buf, pos).

Definition adds_integrity (p : t) : bool :=
  negb (bool_decide (klass p = ERROR_RESPONSE)) && negb (bool_decide (password p = [])).

(** MESSAGE-INTEGRITY: computed with the length of the packet without FINGERPRINT. *)
Definition add_integrity (p : t) (sz : Z) (x : list Z * Z) : res (list Z * Z * option Z) :=
  let '(buf, pos) := x in
  if adds_integrity p then
    b ← Byte.Set2Bytes buf 2 (u16 (sz - 20 - 8));
    hashed ← bytes_at b 0 pos;
    b ← put_header b pos MESSAGE_INTEGRITY 20;
    b ← write b (pos + 4) (GetHmacSha1 (password p) hashed);
    b ← Byte.Set2Bytes b 2 (u16 (sz - 20));
    mret (b, pos + 24, Some (pos + 4))
  else mret (buf, pos, None).

Definition add_fingerprint (x : list Z * Z) : res (list Z * Z) :=
  let '(buf, pos) := x in
  hashed ← bytes_at buf 0 pos;
  b ← put_header buf pos FINGERPRINT 4;
  b ← Byte.Set4Bytes b (pos + 4) (Z.lxor (Crypto.GetCRC32 hashed) 0x5354554E);
  mret (b, pos + 8).

(** The size computed first. *)
Definition serialized_size (p : t) : Z :=
  let a := attrs p in
  20 +
  (if bool_decide (username a = []) then 0 else 4 + Byte.PadTo4Bytes16 (u16 (zlen (username a)))) +
  (if negb (priority a =? 0) then 8 else 0) +
  (if negb (iceControlling a =? 0) then 12 else 0) +
  (if negb (iceControlled a =? 0) then 12 else 0) +
  (if hasUseCandidate a then 4 else 0) +
  (match address_value p with Some v => 4 + zlen v | None => 0 end) +
  (if adds_error p then 8 else 0) +
  (if adds_integrity p then 24 else 0) + 8.

Definition type_field (m : Z) (c : Class) : Z :=
  u16 (Z.lor (Z.lor (Z.lor (Z.lor (Z.shiftl (Z.land m 0x0F80) 2) (Z.shiftl (Z.land m 0x0070) 1))
                       (Z.land m 0x000F))
                (Z.shiftl (Z.land (class_code c) 2) 7))
         (Z.shiftl (Z.land (class_code c) 1) 4)).

(** [Serialize(buffer)]: the packet, whose bytes are now those of the buffer. *)
Definition Serialize (p : t) (buffer : list Z) : res t :=
  let sz := serialized_size p in
  b ← Byte.Set2Bytes buffer 0 (type_field (method p) (klass p));
  b ← Byte.Set2Bytes b 2 (u16 sz - 20);
  b ← write b 4 magicCookie;
  b ← write b 8 (transactionId p);
  let a := attrs p in
  x ← add_username a (b, 20);
  x ← add_priority a x;
  x ← add_iceControlling a x;
  x ← add_iceControlled a x;
  x ← add_useCandidate a x;
  x ← add_address p x;
  x ← add_error p x;
  '(b, pos, mi) ← add_integrity p sz x;
  '(b, pos) ← add_fingerprint (b, pos);
  _ ← ms_assert (pos =? sz);
  mret {| klass := klass p; method := method p; transactionId := transactionId p; data := b; size := sz;
          attrs := SetFingerprint (SetMessageIntegrity a mi);
          xorMappedAddress := xorMappedAddress p; password := password p |}.

End Hmac.

End StunPacket.
