(* ===== verification/StunPacketSpec.v ===== *)
(** * STUN packets: what parsing, writing and authentication do

    [Parse] returns on every datagram; a packet written by [Serialize] is parsed back with
    its class, method, transaction id and the attributes that are written and authenticates
    with the same credentials; [CheckAuthentication] accepts exactly the packets whose username and
    message integrity match, and leaves the bytes as they were. *)

From S2P Require Import Prelude Utils RtcpPacket RtpPacket RtpPacketSpec StunPacket.

Import RtpPacket (write).
Import StunPacket.

(** ** Lists of bytes and the setters *)

Lemma Set1Byte_seg A W B o v :
  o = zlen A -> zlen W = 1 -> Byte.Set1Byte (A ++ W ++ B) o v = Ok (A ++ [u8 v] ++ B).
Proof.
  intros -> HW. destruct W as [|x [|y W]]; [discriminate| |rewrite !zlen_cons in HW; pose proof (zlen_nonneg W); lia].
  unfold Byte.Set1Byte. rewrite (store_app A _ _ 0) by lia. cbn [app]. by rewrite store_front.
Qed.

Lemma Set2Bytes_seg A W B o v :
  o = zlen A -> zlen W = 2 -> Byte.Set2Bytes (A ++ W ++ B) o v = Ok (A ++ Byte.be2 v ++ B).
Proof. intros -> HW. destruct (two_bytes W HW) as (x & y & ->). apply Set2Bytes_over. Qed.

Lemma Set4Bytes_seg A W B o v :
  o = zlen A -> zlen W = 4 -> Byte.Set4Bytes (A ++ W ++ B) o v = Ok (A ++ Byte.be4 v ++ B).
Proof. intros -> HW. destruct (four_bytes W HW) as (x & y & z & w & ->). apply Set4Bytes_over. Qed.

Lemma Get4Bytes_at A B v o : o = zlen A -> Byte.Get4Bytes (A ++ Byte.be4 v ++ B) o = Ok (u32 v).
Proof. intros ->. rewrite (Get4Bytes_app A _ 0) by lia. apply Get4Bytes_front. Qed.

Lemma Get2Bytes_at A B v o : o = zlen A -> Byte.Get2Bytes (A ++ Byte.be2 v ++ B) o = Ok (u16 v).
Proof. intros ->. rewrite (Get2Bytes_app A _ 0) by lia. apply Get2Bytes_front. Qed.

Lemma shiftr32_join v : fits 64 v -> Z.lor (Z.shiftl (u32 (Z.shiftr v 32)) 32) (u32 v) = v.
Proof.
  intros H. rewrite Z.lor_comm, lor_shiftl_add by ulia. rewrite Z.shiftr_div_pow2 by lia. ulia.
Qed.

Lemma Set8Bytes_two l i v :
  Byte.Set8Bytes l i v = (d ← Byte.Set4Bytes l (i + 4) v; Byte.Set4Bytes d i (Z.shiftr v 32)).
Proof.
  unfold Byte.Set8Bytes, Byte.Set4Bytes. rewrite <- !Z.add_assoc, !Z.shiftr_shiftr by lia.
  change (4 + 3) with 7. change (4 + 2) with 6. change (4 + 1) with 5.
  change (32 + 8) with 40. change (32 + 16) with 48. change (32 + 24) with 56.
  repeat (match goal with |- context [store ?l ?i ?v ≫= _] => destruct (store l i v) as [?|?]; [|done] end;
          cbn [mbind res_bind]). done.
Qed.

Lemma Set8Bytes_seg A W B o v :
  o = zlen A -> zlen W = 8 -> Byte.Set8Bytes (A ++ W ++ B) o v = Ok (A ++ Byte.be8 v ++ B).
Proof.
  intros -> HW. destruct (split_at W 4) as (W1 & W2 & -> & HW1); [lia|]. rewrite zlen_app in HW.
  rewrite Set8Bytes_two. replace (A ++ (W1 ++ W2) ++ B) with ((A ++ W1) ++ W2 ++ B) by by rewrite <- !app_assoc.
  rewrite (Set4Bytes_seg (A ++ W1)) by (rewrite ?zlen_app; lia). cbn [mbind res_bind].
  rewrite <- app_assoc, Set4Bytes_seg by lia. unfold Byte.be8. by rewrite <- app_assoc.
Qed.

Lemma Get8Bytes_at A B v o : o = zlen A -> fits 64 v -> Byte.Get8Bytes (A ++ Byte.be8 v ++ B) o = Ok v.
Proof.
  intros -> Hv. unfold Byte.Get8Bytes, Byte.be8. rewrite <- app_assoc.
  rewrite (Get4Bytes_at A _ _ (zlen A)) by done.
  cbn [mbind res_bind]. rewrite (app_assoc A), (Get4Bytes_at (A ++ _)) by by rewrite zlen_app.
  cbn [mbind res_bind mret res_ret]. by rewrite shiftr32_join.
Qed.


(** ** Attributes as parsed *)

(** An attribute with its value and its padding. *)
Definition tlv (attrType : Z) (v pad : list Z) : list Z :=
  Byte.be2 attrType ++ Byte.be2 (zlen v) ++ v ++ pad.

Definition tlv_ok (attrType : Z) (v pad : list Z) : Prop :=
  fits 16 attrType /\ zlen v + zlen pad = padded (zlen v).

Lemma zlen_tlv attrType v pad : zlen (tlv attrType v pad) = 4 + zlen v + zlen pad.
Proof. unfold tlv. zlens. lia. Qed.

Lemma parse_attributes_step fuel A attrType v pad B st st' :
  let d := A ++ tlv attrType v pad ++ B in
  tlv_ok attrType v pad -> zlen d <= 65535 -> zlen A mod 4 = 0 -> zlen d mod 4 = 0 ->
  fp st = None -> (hasMI st = true -> attrType = FINGERPRINT) ->
  handle_attribute d st attrType (zlen v) (zlen A) = Ok (Some st') ->
  parse_attributes (S fuel) d st (zlen A) =
  parse_attributes fuel d st' (zlen A + zlen (tlv attrType v pad)).
Proof.
  intros d [Ht Hp] Hd HA Hd4 Hfp Hmi Hh. cbn [parse_attributes].
  pose proof (zlen_nonneg A). pose proof (zlen_nonneg B). pose proof (zlen_nonneg v). pose proof (zlen_nonneg pad).
  assert (Hz : zlen d = zlen A + (4 + zlen v + zlen pad) + zlen B) by (subst d; rewrite !zlen_app, zlen_tlv; lia).
  destruct (Z.leb_spec (zlen A + 4) (zlen d)); [|lia].
  assert (Byte.Get2Bytes d (zlen A) = Ok attrType) as ->.
  { subst d. unfold tlv. rewrite <- app_assoc, Get2Bytes_at by done. by rewrite uwrap_id. }
  assert (Byte.Get2Bytes d (zlen A + 2) = Ok (zlen v)) as ->.
  { subst d. unfold tlv. rewrite <- !app_assoc, (app_assoc A), (Get2Bytes_at (A ++ _)) by by rewrite zlen_app.
    rewrite uwrap_id; [done|ulia]. }
  cbn [mbind res_bind]. destruct (Z.ltb_spec (zlen d) (zlen A + 4 + zlen v)); [lia|]. rewrite Hfp.
  replace (hasMI st && negb (attrType =? FINGERPRINT)) with false.
  2:{ destruct (hasMI st); [|done]. by rewrite Hmi. }
  rewrite Hh. cbn [mbind res_bind]. f_equal. unfold padded in Hp.
  rewrite PadTo4Bytes16_padded by ulia. unfold padded. rewrite zlen_tlv. Z.div_mod_to_equations. lia.
Qed.

(** The bytes [W] of attributes other than MESSAGE-INTEGRITY and FINGERPRINT, and what
    parsing them does to the attributes seen so far. *)
Definition parses (W : list Z) (g : attributes -> attributes) : Prop :=
  zlen W mod 4 = 0 /\
  exists k, 4 * Z.of_nat k <= zlen W /\
  forall fuel A B st, zlen (A ++ W ++ B) <= 65535 -> zlen A mod 4 = 0 -> zlen (A ++ W ++ B) mod 4 = 0 ->
    fp st = None -> hasMI st = false ->
    parse_attributes (k + fuel) (A ++ W ++ B) st (zlen A) =
    parse_attributes fuel (A ++ W ++ B) (set_found st (g (found st))) (zlen A + zlen W).

Lemma parses_nil : parses [] id.
Proof.
  split; [done|]. exists 0%nat. split; [done|]. intros. cbn [Nat.add]. change (zlen (@nil Z)) with 0.
  rewrite Z.add_0_r. f_equal. by destruct st.
Qed.

Lemma parses_app W1 W2 g1 g2 : parses W1 g1 -> parses W2 g2 -> parses (W1 ++ W2) (fun a => g2 (g1 a)).
Proof.
  intros [H1 (k1 & Hk1 & P1)] [H2 (k2 & Hk2 & P2)]. split; [rewrite zlen_app; Z.div_mod_to_equations; lia|].
  exists (k1 + k2)%nat. split; [rewrite zlen_app; lia|]. intros fuel A B st Hl HA Hd Hf Hm.
  rewrite <- app_assoc in *. rewrite <- Nat.add_assoc, P1 by done.
  rewrite (app_assoc A W1), <- (zlen_app A W1) in *. rewrite P2; [|done|rewrite zlen_app; Z.div_mod_to_equations; lia|done..].
  cbn [found set_found]. f_equal. rewrite !zlen_app. lia.
Qed.

Lemma parses_tlv attrType v pad g :
  tlv_ok attrType v pad ->
  (forall A B st, handle_attribute (A ++ tlv attrType v pad ++ B) st attrType (zlen v) (zlen A) =
                  Ok (Some (set_found st (g (found st))))) ->
  parses (tlv attrType v pad) g.
Proof.
  intros Hok Hh. pose proof Hok as [_ Hp]. unfold padded in Hp. split; [rewrite zlen_tlv; Z.div_mod_to_equations; lia|].
  exists 1%nat. split; [rewrite zlen_tlv; pose proof (zlen_nonneg v); pose proof (zlen_nonneg pad); lia|].
  intros fuel A B st ? ? ? ? Hm. cbn [Nat.add]. apply parse_attributes_step; try done. by rewrite Hm.
Qed.

(** ** Attributes as written *)

(** The bytes of a list of attributes, each with its padding (RFC 5389, section 15). *)
Inductive layout : list Z -> list (Z * list Z) -> Prop :=
| layout_nil : layout [] []
| layout_cons attrType v pad W l : tlv_ok attrType v pad -> layout W l -> layout (tlv attrType v pad ++ W) ((attrType, v) :: l).

Lemma layout_app W1 l1 W2 l2 : layout W1 l1 -> layout W2 l2 -> layout (W1 ++ W2) (l1 ++ l2).
Proof. intros H1 H2. induction H1; [done|]. rewrite <- app_assoc. cbn [app]. by constructor. Qed.

Lemma layout_one attrType v pad : tlv_ok attrType v pad -> layout (tlv attrType v pad) [(attrType, v)].
Proof. intros H. rewrite <- (app_nil_r (tlv _ _ _)). constructor; [done|constructor]. Qed.

(** A step of [Serialize] that puts the [n] bytes of the attributes [l], which parse as [g]. *)
Definition writes (f : list Z * Z -> res (list Z * Z)) (n : Z) (g : attributes -> attributes) (l : list (Z * list Z)) : Prop :=
  forall A R, n <= zlen R -> exists W R',
    f (A ++ R, zlen A) = Ok (A ++ W ++ R', zlen A + n) /\ zlen W = n /\ zlen R' = zlen R - n /\ parses W g /\ layout W l.

Lemma writes_skip : writes mret 0 id [].
Proof. intros A R _. exists [], R. split_and!; [by rewrite Z.add_0_r|done|lia|apply parses_nil|constructor]. Qed.

Lemma writes_bind f1 f2 n1 n2 g1 g2 l1 l2 : 0 <= n2 -> writes f1 n1 g1 l1 -> writes f2 n2 g2 l2 ->
  writes (fun x => f1 x ≫= f2) (n1 + n2) (fun a => g2 (g1 a)) (l1 ++ l2).
Proof.
  intros Hn W1 W2 A R HR. destruct (W1 A R) as (U & R1 & E1 & HU & HR1 & P1 & L1); [lia|].
  destruct (W2 (A ++ U) R1) as (V & R2 & E2 & HV & HR2 & P2 & L2); [lia|].
  exists (U ++ V), R2. split_and!; [|rewrite zlen_app; lia|lia|by apply parses_app|by apply layout_app].
  rewrite E1. cbn [mbind res_bind]. rewrite zlen_app, <- app_assoc in E2. rewrite <- HU at 1. rewrite E2.
  rewrite <- !app_assoc, HU. do 2 f_equal. lia.
Qed.

Lemma put_header_seg A R attrType n : 4 <= zlen R ->
  exists R', zlen R' = zlen R - 4 /\
  put_header (A ++ R) (zlen A) attrType n = Ok ((A ++ Byte.be2 attrType ++ Byte.be2 n) ++ R') /\
  zlen (A ++ Byte.be2 attrType ++ Byte.be2 n) = zlen A + 4 /\ R' = drop 4 R.
Proof.
  intros HR. destruct (split_at R 4) as (W & R' & -> & HW); [lia|]. exists R'.
  destruct (four_bytes W HW) as (a & b & c & d & ->). rewrite !zlen_app. cbn [zlen length app].
  split_and!; [lia| |rewrite !zlen_be2; lia|done].
  unfold put_header. rewrite (Set2Bytes_seg A [a; b] ([c; d] ++ R')) by done. cbn [mbind res_bind].
  rewrite (app_assoc A), (Set2Bytes_seg (A ++ _) [c; d]) by by rewrite ?zlen_app.
  by rewrite <- !app_assoc.
Qed.

(** The attributes with a value of fixed size and no padding. *)
Lemma writes_value (put : list Z -> Z -> res (list Z)) attrType v g :
  tlv_ok attrType v [] ->
  (forall A W B, zlen W = zlen v -> put (A ++ W ++ B) (zlen A) = Ok (A ++ v ++ B)) ->
  (forall A B st, handle_attribute (A ++ tlv attrType v [] ++ B) st attrType (zlen v) (zlen A) =
                  Ok (Some (set_found st (g (found st))))) ->
  writes (fun '(buf, pos) =>
            b ← put_header buf pos attrType (zlen v); b ← put b (pos + 4); mret (b, pos + (4 + zlen v)))
    (4 + zlen v) g [(attrType, v)].
Proof.
  intros Hok Hput Hh A R HR. pose proof (zlen_nonneg v).
  destruct (put_header_seg A R attrType (zlen v)) as (R1 & HR1 & -> & Hz & _); [lia|].
  destruct (split_at R1 (zlen v)) as (W & R' & -> & HW); [lia|]. rewrite zlen_app in HR1.
  exists (tlv attrType v []), R'. cbn [mbind res_bind]. rewrite <- Hz, Hput by done. cbn [mbind res_bind].
  split_and!; [|by rewrite zlen_tlv; change (zlen (@nil Z)) with 0; lia|lia|by apply parses_tlv|by apply layout_one].
  unfold tlv. rewrite app_nil_r, <- !app_assoc. reflexivity.
Qed.

(** Decides the comparisons of constants. *)
Ltac eqb_consts :=
  repeat match goal with
  | |- context [?a =? ?b] =>
      let r := eval vm_compute in (a =? b) in
      match r with
      | true => change (a =? b) with true
      | false => change (a =? b) with false
      end; cbv iota beta
  end; cbn [negb mbind res_bind mret res_ret].

(** The value of an attribute in the middle of a packet. *)
Lemma value_at (get : list Z -> Z -> res Z) attrType v pad x A B :
  (forall A B, get (A ++ v ++ B) (zlen A) = Ok x) ->
  get (A ++ tlv attrType v pad ++ B) (zlen A + 4) = Ok x.
Proof.
  intros H. unfold tlv. rewrite <- !app_assoc. rewrite (app_assoc (Byte.be2 attrType)), (app_assoc A).
  replace (zlen A + 4) with (zlen (A ++ Byte.be2 attrType ++ Byte.be2 (zlen v))) by (rewrite zlen_app; done).
  apply H.
Qed.

Definition when (b : bool) (g : attributes -> attributes) : attributes -> attributes := if b then g else id.

Lemma writes_priority a : fits 32 (priority a) ->
  writes (add_priority a) (if negb (priority a =? 0) then 8 else 0)
    (when (negb (priority a =? 0)) (fun s => SetPriority s (priority a)))
    (if negb (priority a =? 0) then [(PRIORITY, Byte.be4 (priority a))] else []).
Proof.
  intros Hf. intros A R. unfold add_priority. destruct (negb (priority a =? 0)); [|apply writes_skip].
  apply (writes_value (fun b o => Byte.Set4Bytes b o (priority a)) PRIORITY (Byte.be4 (priority a))); [done| |].
  - intros. by apply Set4Bytes_seg.
  - intros A' B st. unfold handle_attribute. change (zlen (Byte.be4 (priority a))) with 4. eqb_consts.
    rewrite (value_at Byte.Get4Bytes _ _ _ (priority a)); [done|].
    intros. rewrite Get4Bytes_at by done. by rewrite uwrap_id.
Qed.

Lemma writes_iceControlling a : fits 64 (iceControlling a) ->
  writes (add_iceControlling a) (if negb (iceControlling a =? 0) then 12 else 0)
    (when (negb (iceControlling a =? 0)) (fun s => SetIceControlling s (iceControlling a)))
    (if negb (iceControlling a =? 0) then [(ICE_CONTROLLING, Byte.be8 (iceControlling a))] else []).
Proof.
  intros Hf. intros A R. unfold add_iceControlling. destruct (negb (iceControlling a =? 0)); [|apply writes_skip].
  apply (writes_value (fun b o => Byte.Set8Bytes b o (iceControlling a)) ICE_CONTROLLING (Byte.be8 (iceControlling a))); [done| |].
  - intros. by apply Set8Bytes_seg.
  - intros A' B st. unfold handle_attribute. change (zlen (Byte.be8 (iceControlling a))) with 8. eqb_consts.
    rewrite (value_at Byte.Get8Bytes _ _ _ (iceControlling a)); [done|].
    intros. by apply Get8Bytes_at.
Qed.

Lemma writes_iceControlled a : fits 64 (iceControlled a) ->
  writes (add_iceControlled a) (if negb (iceControlled a =? 0) then 12 else 0)
    (when (negb (iceControlled a =? 0)) (fun s => SetIceControlled s (iceControlled a)))
    (if negb (iceControlled a =? 0) then [(ICE_CONTROLLED, Byte.be8 (iceControlled a))] else []).
Proof.
  intros Hf. intros A R. unfold add_iceControlled. destruct (negb (iceControlled a =? 0)); [|apply writes_skip].
  apply (writes_value (fun b o => Byte.Set8Bytes b o (iceControlled a)) ICE_CONTROLLED (Byte.be8 (iceControlled a))); [done| |].
  - intros. by apply Set8Bytes_seg.
  - intros A' B st. unfold handle_attribute. change (zlen (Byte.be8 (iceControlled a))) with 8. eqb_consts.
    rewrite (value_at Byte.Get8Bytes _ _ _ (iceControlled a)); [done|].
    intros. by apply Get8Bytes_at.
Qed.

Lemma writes_useCandidate a :
  writes (add_useCandidate a) (if hasUseCandidate a then 4 else 0) (when (hasUseCandidate a) SetUseCandidate)
    (if hasUseCandidate a then [(USE_CANDIDATE, [])] else []).
Proof.
  intros A R. unfold add_useCandidate. destruct (hasUseCandidate a); [|apply writes_skip].
  intros HR. destruct (writes_value (fun b o => mret b) USE_CANDIDATE [] SetUseCandidate) with A R
    as (W & R' & E & H); [done| | |done|].
  - intros A' W B HW. by rewrite (zlen_0_nil W HW).
  - intros A' B st. unfold handle_attribute. change (zlen (@nil Z)) with 0. by eqb_consts.
  - exists W, R'. split; [|done]. etransitivity; [|exact E].
    cbn [zlen length Z.of_nat]. by destruct (put_header _ _ _ _).
Qed.

(** The padding of USERNAME is whatever the buffer held. *)
Lemma writes_username a : zlen (username a) <= 65000 ->
  writes (add_username a)
    (if bool_decide (username a = []) then 0 else 4 + Byte.PadTo4Bytes16 (u16 (zlen (username a))))
    (when (negb (bool_decide (username a = []))) (fun s => SetUsername s (username a)))
    (if bool_decide (username a = []) then [] else [(USERNAME, username a)]).
Proof.
  intros Hl A R. unfold add_username. case_bool_decide as He; [apply writes_skip|].
  assert (Hz : 0 < zlen (username a)).
  { pose proof (zlen_nonneg (username a)). destruct (Z.eq_dec (zlen (username a)) 0) as [E|]; [|lia].
    by apply zlen_0_nil in E. }
  rewrite PadTo4Bytes16_padded, uwrap_id by ulia. set (u := username a) in *.
  assert (Hp : 0 <= (- zlen u) mod 4 < 4) by (apply Z.mod_pos_bound; lia).
  destruct (Z.eqb_spec (padded (zlen u)) 0); [unfold padded in *; lia|]. intros HR. cbn [negb when].
  destruct (put_header_seg A R USERNAME (zlen u)) as (R1 & HR1 & -> & Hh & _); [unfold padded in *; lia|].
  destruct (split_at R1 (zlen u)) as (W & R2 & -> & HW); [unfold padded in *; lia|]. rewrite zlen_app in HR1.
  destruct (split_at R2 ((- zlen u) mod 4)) as (pad & R' & -> & Hpad); [unfold padded in *; lia|].
  rewrite zlen_app in HR1. cbn [mbind res_bind]. rewrite <- Hh, (write_over _ W) by done. cbn [mbind res_bind].
  assert (Hok : tlv_ok USERNAME u pad) by (split; [done|unfold padded; lia]).
  exists (tlv USERNAME u pad), R'. rewrite zlen_tlv. unfold padded in *.
  split_and!; [|lia|lia|apply parses_tlv; [done|]|by apply layout_one].
  - unfold tlv. rewrite <- !app_assoc. do 2 f_equal. 
  - intros A' B st. unfold handle_attribute. eqb_consts. unfold tlv.
    rewrite <- !app_assoc, (app_assoc (Byte.be2 _)), (app_assoc A').
    by rewrite bytes_at_app by (rewrite ?zlen_app; done).
Qed.

(** XOR-MAPPED-ADDRESS is not one of the attributes [Parse] looks at. *)
Lemma writes_address p : (forall v, address_value p = Some v -> zlen v = 8 \/ zlen v = 20) ->
  writes (add_address p) (match address_value p with Some v => 4 + zlen v | None => 0 end) id
    (match address_value p with Some v => [(XOR_MAPPED_ADDRESS, v)] | None => [] end).
Proof.
  intros Hv A R. unfold add_address. destruct (address_value p) as [v|]; [|apply writes_skip].
  apply (writes_value (fun b o => write b o v) XOR_MAPPED_ADDRESS v).
  - split; [done|]. by destruct (Hv v) as [->| ->].
  - intros. by apply write_over.
  - intros A' B st. unfold handle_attribute. eqb_consts. by destruct st.
Qed.

(** ERROR-CODE: the class and the number of the code, without a reason. *)
Definition error_sent (p : t) : list (Z * list Z) :=
  if adds_error p
  then [(ERROR_CODE, [0; 0; errorCode (attrs p) / 100; errorCode (attrs p) mod 100])] else [].

Lemma writes_error p : 0 <= errorCode (attrs p) < 25600 ->
  writes (add_error p) (if adds_error p then 8 else 0)
    (when (adds_error p) (fun s => SetErrorCode s (errorCode (attrs p)))) (error_sent p).
Proof.
  intros Hc A R. unfold add_error, error_sent. destruct (adds_error p); [|apply writes_skip]. intros HR. cbn [when].
  set (c := errorCode (attrs p)) in *.
  destruct (put_header_seg A R ERROR_CODE 4) as (R1 & HR1 & -> & Hh & _); [lia|].
  destruct (split_at R1 4) as (W & R' & -> & HW); [lia|]. rewrite zlen_app in HR1.
  destruct (four_bytes W HW) as (w0 & w1 & w2 & w3 & ->). cbn [mbind res_bind]. rewrite <- Hh.
  set (H := A ++ Byte.be2 ERROR_CODE ++ Byte.be2 4) in *.
  rewrite (Set2Bytes_seg H [w0; w1] ([w2; w3] ++ R')) by done. cbn [mbind res_bind].
  rewrite (app_assoc H), (Set1Byte_seg (H ++ Byte.be2 0) [w2] ([w3] ++ R')) by (rewrite ?zlen_app, ?zlen_be2; lia || done).
  cbn [mbind res_bind]. rewrite (app_assoc (H ++ _) [_]).
  rewrite (Set1Byte_seg ((H ++ _) ++ _) [w3]) by (rewrite ?zlen_app, ?zlen_be2; change (zlen [?x]) with 1; lia || done).
  cbn [mbind res_bind]. set (cls := u8 (u8 (c / 100))). set (num := u8 (u8 _)).
  exists (tlv ERROR_CODE [0; 0; cls; num] []), R'.
  split_and!; [|done|lia|apply parses_tlv; [done|]|].
  3: { assert (cls = c / 100 /\ num = c mod 100) as [<- <-] by (subst cls num c; ulia). by apply layout_one. }
  - unfold tlv, H, mret, res_ret. by rewrite <- !app_assoc.
  - intros A' B st. unfold handle_attribute. eqb_consts. change (4 <? 4) with false. cbv iota.
    rewrite <- !Z.add_assoc.
    assert (Hr : forall i x, read [0; 0; cls; num] i = Ok x -> 0 <= i < 4 ->
              Byte.Get1Byte (A' ++ tlv ERROR_CODE [0; 0; cls; num] [] ++ B) (zlen A' + (4 + i)) = Ok x).
    { intros i x Hi Hi4. rewrite Z.add_assoc.
      apply (value_at (fun d j => Byte.Get1Byte d (j + i)) ERROR_CODE).
      intros. unfold Byte.Get1Byte. rewrite read_app_r, read_app_l by (change (zlen [0; 0; cls; num]) with 4; lia).
      done. }
    rewrite (Hr 2 cls), (Hr 3 num) by (done || lia). cbn [mbind res_bind mret res_ret].
    do 4 f_equal. subst cls num c. ulia.
Qed.

(** ** Whole messages *)

Definition sockaddr_ok (a : sockaddr) : Prop :=
  match a with
  | AF_INET port addr => zlen port = 2 /\ zlen addr = 4
  | AF_INET6 port addr => zlen port = 2 /\ zlen addr = 16
  | AF_OTHER => True
  end.

(** The members of a packet have their C++ widths and the username is of reasonable length. *)
Record message_ok (p : t) : Prop := {
  ok_tid : zlen (transactionId p) = 12;
  ok_username : zlen (username (attrs p)) <= 65000;
  ok_priority : fits 32 (priority (attrs p));
  ok_controlling : fits 64 (iceControlling (attrs p));
  ok_controlled : fits 64 (iceControlled (attrs p));
  ok_error : 0 <= errorCode (attrs p) < 25600;
  ok_address : match xorMappedAddress p with Some a => sockaddr_ok a | None => True end;
}.

Lemma zlen_xor_bytes l : forall k, zlen (xor_bytes l k) = zlen l.
Proof. induction l as [|x l IH]; intros [|y k]; try done. cbn [xor_bytes]. by rewrite !zlen_cons, IH. Qed.

Lemma address_value_len p v : message_ok p -> address_value p = Some v -> zlen v = 8 \/ zlen v = 20.
Proof.
  intros Hp. pose proof (ok_address _ Hp). unfold address_value.
  destruct (xorMappedAddress p) as [[port addr|port addr|]|]; [| |by destruct (_ && _)|done];
    (destruct (_ && _); [|done]; intros [= <-]; zlens; rewrite !zlen_xor_bytes;
     cbn [sockaddr_ok] in *; lia).
Qed.

(** What the attributes of a written message parse as. *)
Definition body_attrs (p : t) (s : attributes) : attributes :=
  let a := attrs p in
  when (adds_error p) (fun s => SetErrorCode s (errorCode a))
    (when (hasUseCandidate a) SetUseCandidate
      (when (negb (iceControlled a =? 0)) (fun s => SetIceControlled s (iceControlled a))
        (when (negb (iceControlling a =? 0)) (fun s => SetIceControlling s (iceControlling a))
          (when (negb (priority a =? 0)) (fun s => SetPriority s (priority a))
            (when (negb (bool_decide (username a = []))) (fun s => SetUsername s (username a)) s))))).

(** The attributes that are written, in order, MESSAGE-INTEGRITY and FINGERPRINT apart. *)
Definition sent (p : t) : list (Z * list Z) :=
  let a := attrs p in
  (if bool_decide (username a = []) then [] else [(USERNAME, username a)]) ++
  (if negb (priority a =? 0) then [(PRIORITY, Byte.be4 (priority a))] else []) ++
  (if negb (iceControlling a =? 0) then [(ICE_CONTROLLING, Byte.be8 (iceControlling a))] else []) ++
  (if negb (iceControlled a =? 0) then [(ICE_CONTROLLED, Byte.be8 (iceControlled a))] else []) ++
  (if hasUseCandidate a then [(USE_CANDIDATE, [])] else []) ++
  (match address_value p with Some v => [(XOR_MAPPED_ADDRESS, v)] | None => [] end) ++
  error_sent p.

Definition body_size (p : t) : Z :=
  let a := attrs p in
  (if bool_decide (username a = []) then 0 else 4 + Byte.PadTo4Bytes16 (u16 (zlen (username a)))) +
  ((if negb (priority a =? 0) then 8 else 0) +
  ((if negb (iceControlling a =? 0) then 12 else 0) +
  ((if negb (iceControlled a =? 0) then 12 else 0) +
  ((if hasUseCandidate a then 4 else 0) +
  ((match address_value p with Some v => 4 + zlen v | None => 0 end) +
  (if adds_error p then 8 else 0)))))).

Lemma body_size_bounds p : message_ok p -> 0 <= body_size p <= 65100.
Proof.
  intros Hp. pose proof (ok_username _ Hp) as Hu. pose proof (zlen_nonneg (username (attrs p))).
  unfold body_size. rewrite PadTo4Bytes16_padded by lia. unfold padded.
  assert (0 <= (- zlen (username (attrs p))) mod 4 < 4) by (apply Z.mod_pos_bound; lia).
  destruct (address_value p) as [v|] eqn:E; [destruct (address_value_len p v Hp E) as [-> | ->]|];
    repeat match goal with |- context [if ?b then _ else _] => destruct b end; lia.
Qed.

Lemma writes_body p : message_ok p ->
  writes (fun x => x ← add_username (attrs p) x; x ← add_priority (attrs p) x;
                   x ← add_iceControlling (attrs p) x; x ← add_iceControlled (attrs p) x;
                   x ← add_useCandidate (attrs p) x; x ← add_address p x; add_error p x)
    (body_size p) (body_attrs p) (sent p).
Proof.
  intros Hp. pose proof (writes_error p (ok_error _ Hp)) as W.
  assert (H0 : forall b : bool, 0 <= if b then 8 else 0) by (by intros []).
  assert (Hn : forall (b : bool) m n, 0 <= m -> 0 <= n -> 0 <= (if b then m else 0) + n) by (intros []; lia).
  apply (writes_bind _ _ _ _ _ _ _ _ (H0 _) (writes_address p (fun v => address_value_len p v Hp))) in W.
  assert (Ha : 0 <= match address_value p with Some v => 4 + zlen v | None => 0 end + (if adds_error p then 8 else 0))
    by (destruct (address_value p) as [v|]; [pose proof (zlen_nonneg v)|]; specialize (H0 (adds_error p)); lia).
  apply (writes_bind _ _ _ _ _ _ _ _ Ha (writes_useCandidate (attrs p))) in W.
  apply (writes_bind _ _ _ _ _ _ _ _ (Hn _ _ _ (ltac:(lia) : 0 <= 4) Ha) (writes_iceControlled _ (ok_controlled _ Hp))) in W.
  pose proof (Hn (hasUseCandidate (attrs p)) 4 _ ltac:(lia) Ha) as Hb.
  pose proof (Hn (negb (iceControlled (attrs p) =? 0)) 12 _ ltac:(lia) Hb) as Hc.
  apply (writes_bind _ _ _ _ _ _ _ _ Hc (writes_iceControlling _ (ok_controlling _ Hp))) in W.
  pose proof (Hn (negb (iceControlling (attrs p) =? 0)) 12 _ ltac:(lia) Hc) as Hd.
  apply (writes_bind _ _ _ _ _ _ _ _ Hd (writes_priority _ (ok_priority _ Hp))) in W.
  pose proof (Hn (negb (priority (attrs p) =? 0)) 8 _ ltac:(lia) Hd) as He.
  exact (writes_bind _ _ _ _ _ _ _ _ He (writes_username _ (ok_username _ Hp)) W).
Qed.

(** The header of a message, with a length field. *)
Definition head (p : t) (n : Z) : list Z :=
  Byte.be2 (type_field (method p) (klass p)) ++ Byte.be2 n ++ magicCookie ++ transactionId p.

Lemma zlen_stun_head p n : zlen (transactionId p) = 12 -> zlen (head p n) = 20.
Proof. intros H. unfold head. rewrite !zlen_app, H. done. Qed.

(** The length field rewritten in place. *)
Lemma set_length p n m rest : Byte.Set2Bytes (head p n ++ rest) 2 m = Ok (head p m ++ rest).
Proof.
  unfold head. rewrite <- !app_assoc. by apply (Set2Bytes_seg (Byte.be2 _) (Byte.be2 n)).
Qed.

Lemma be2_sub_20 n : 20 <= n <= 65535 -> Byte.be2 (u16 n - 20) = Byte.be2 (n - 20).
Proof. intros. by rewrite uwrap_id by ulia. Qed.

Lemma be2_u16 n : Byte.be2 (u16 n) = Byte.be2 n.
Proof. unfold Byte.be2. rewrite !shiftr_u8 by lia. f_equal; [|f_equal]; ulia. Qed.

Lemma serialize_head p buffer : zlen (transactionId p) = 12 -> 20 <= zlen buffer ->
  exists R, zlen R = zlen buffer - 20 /\ forall A (k : list Z -> res A) n,
  (b ← Byte.Set2Bytes buffer 0 (type_field (method p) (klass p));
   b ← Byte.Set2Bytes b 2 n; b ← write b 4 magicCookie; b ← write b 8 (transactionId p); k b) =
  k (head p n ++ R).
Proof.
  intros Ht Hb. destruct (split_at buffer 2) as (B1 & R1 & -> & H1); [lia|]. rewrite zlen_app in Hb.
  destruct (split_at R1 2) as (B2 & R2 & -> & H2); [lia|]. rewrite zlen_app in Hb.
  destruct (split_at R2 4) as (B3 & R3 & -> & H3); [lia|]. rewrite zlen_app in Hb.
  destruct (split_at R3 12) as (B4 & R & -> & H4); [lia|].
  exists R. split; [rewrite !zlen_app; lia|]. intros A k n.
  change (B1 ++ ?l) with ([] ++ B1 ++ l). rewrite (Set2Bytes_seg [] B1) by done. cbn [mbind res_bind].
  change ([] ++ ?l) with l.
  set (ty := type_field _ _). rewrite (Set2Bytes_seg (Byte.be2 ty) B2) by done. cbn [mbind res_bind].
  rewrite (app_assoc (Byte.be2 ty)), (write_over _ B3) by done. cbn [mbind res_bind].
  rewrite (app_assoc (_ ++ _)), (write_over _ B4) by (done || by rewrite H4). cbn [mbind res_bind].
  unfold head. by rewrite <- !app_assoc.
Qed.

(** The fingerprint fits its four bytes. *)
Lemma lxor_fits32 a b : fits 32 a -> fits 32 b -> fits 32 (Z.lxor a b).
Proof.
  intros Ha Hb. split; [apply Z.lxor_nonneg; unfold fits in *; lia|].
  destruct (Z.eq_dec (Z.lxor a b) 0) as [->|Hne]; [done|].
  assert (0 <= Z.lxor a b) by (apply Z.lxor_nonneg; unfold fits in *; lia).
  apply Z.log2_lt_pow2; [lia|]. eapply Z.le_lt_trans; [apply Z.log2_lxor; unfold fits in *; lia|].
  assert (forall x, fits 32 x -> Z.log2 x < 32); [|by apply Z.max_lub_lt; auto].
  intros x [H0 Hx]. destruct (Z.eq_dec x 0) as [->|]; [done|]. apply Z.log2_lt_pow2; lia.
Qed.

Lemma crc32Table_fits i : fits 32 (nth i Crypto.crc32Table 0).
Proof.
  assert (H : Forall (fits 32) Crypto.crc32Table) by (apply (bool_decide_unpack _); vm_compute; exact I).
  rewrite Forall_forall in H. destruct (nth_in_or_default i Crypto.crc32Table 0) as [Hi| ->]; [|done].
  by apply H, list_elem_of_In.
Qed.

Lemma GetCRC32_fits d : fits 32 (Crypto.GetCRC32 d).
Proof.
  unfold Crypto.GetCRC32. apply lxor_fits32; [|done].
  assert (forall c, fits 32 c -> fits 32 (fold_left Crypto.crc_step d c)) as H; [|by apply H].
  induction d as [|b d IH]; intros c Hc; [done|]. cbn [fold_left]. apply IH. unfold Crypto.crc_step.
  apply lxor_fits32; [apply crc32Table_fits|]. rewrite Z.shiftr_div_pow2 by lia. ulia.
Qed.

(** The fields of the message type, for every method and class. *)
Definition type_field_ok (c : Class) (m : Z) : bool :=
  let b0 := u8 (Z.shiftr (type_field m c) 8) in
  let b1 := u8 (type_field m c) in
  (b0 <? 3) && (method_of (u16 (type_field m c)) =? m) &&
  bool_decide (class_of (Z.lor (Z.shiftl (Z.land b0 1) 1) (Z.shiftr (Z.land b1 0x10) 4)) = c).

Lemma type_field_all c m : fits 7 m -> type_field_ok c m = true.
Proof.
  intros Hm. assert (H : forallb (type_field_ok c) (seqZ 0 128) = true) by (destruct c; vm_compute; reflexivity).
  rewrite forallb_forall in H. apply H, list_elem_of_In, elem_of_seqZ. ulia.
Qed.

Lemma type_field_parsed p : fits 7 (method p) ->
  u8 (Z.shiftr (type_field (method p) (klass p)) 8) < 3 /\
  method_of (u16 (type_field (method p) (klass p))) = method p /\
  class_of (Z.lor (Z.shiftl (Z.land (u8 (Z.shiftr (type_field (method p) (klass p)) 8)) 1) 1)
                  (Z.shiftr (Z.land (u8 (type_field (method p) (klass p))) 0x10) 4)) = klass p.
Proof.
  intros Hm. pose proof (type_field_all (klass p) _ Hm) as H. unfold type_field_ok in H.
  rewrite !andb_true_iff, Z.ltb_lt, Z.eqb_eq, bool_decide_eq_true in H. tauto.
Qed.

Lemma IsStun_head p n rest : fits 7 (method p) -> zlen (transactionId p) = 12 -> IsStun (head p n ++ rest) = Ok true.
Proof.
  intros Hm Ht. unfold IsStun. rewrite zlen_app, zlen_stun_head by done. pose proof (zlen_nonneg rest).
  destruct (Z.leb_spec 20 (20 + zlen rest)); [|lia]. cbn [negb]. unfold head. rewrite <- !app_assoc.
  unfold Byte.be2. cbn [app]. rewrite read_cons_0. cbn [mbind res_bind].
  destruct (type_field_parsed p Hm) as (H3 & _). apply Z.ltb_lt in H3. rewrite H3. cbn [negb].
  unfold magicCookie. cbn [app].
  rewrite !read_cons_S by lia. cbn [Z.sub Z.opp Z.add Z.pos_sub Z.pred_double Pos.pred_double Z.succ_double].
  rewrite !read_cons_0. done.
Qed.

Section Messages.

Context (GetHmacSha1 : list Z -> list Z -> list Z).
(** HMAC-SHA1 gives 20 bytes (RFC 2104). *)
Context (hmac_length : forall k d, zlen (GetHmacSha1 k d) = 20).

Definition integrity_bytes (p : t) (W : list Z) : list Z :=
  if adds_integrity p
  then tlv MESSAGE_INTEGRITY (GetHmacSha1 (password p) (head p (serialized_size p - 28) ++ W)) []
  else [].

Definition integrity_pos (p : t) : option Z :=
  if adds_integrity p then Some (24 + body_size p) else None.

Lemma serialized_size_sum p :
  serialized_size p = 20 + body_size p + (if adds_integrity p then 24 else 0) + 8.
Proof. unfold serialized_size, body_size. lia. Qed.

Lemma zlen_integrity p W : zlen (integrity_bytes p W) = if adds_integrity p then 24 else 0.
Proof.
  unfold integrity_bytes. destruct (adds_integrity p); [|done].
  rewrite zlen_tlv, hmac_length. done.
Qed.

Lemma add_integrity_bytes p W R : zlen (transactionId p) = 12 -> zlen W = body_size p ->
  (if adds_integrity p then 24 else 0) <= zlen R ->
  exists R', zlen R' = zlen R - (if adds_integrity p then 24 else 0) /\
  add_integrity GetHmacSha1 p (serialized_size p) (head p (serialized_size p - 20) ++ W ++ R, 20 + body_size p) =
  Ok (head p (serialized_size p - 20) ++ W ++ integrity_bytes p W ++ R',
      20 + body_size p + (if adds_integrity p then 24 else 0), integrity_pos p).
Proof.
  intros Ht HW HR. unfold add_integrity, integrity_bytes, integrity_pos.
  destruct (adds_integrity p); [|exists R; split; [lia|]; unfold mret, res_ret; cbn [app]; by rewrite Z.add_0_r].
  rewrite set_length. cbn [mbind res_bind].
  assert (He : head p (u16 (serialized_size p - 20 - 8)) = head p (serialized_size p - 28)).
  { unfold head. rewrite be2_u16. do 3 f_equal. lia. }
  rewrite He, (app_assoc (head p _) W R).
  set (hd := head p (serialized_size p - 28)). pose proof (zlen_stun_head p (serialized_size p - 28) Ht) as Hz. fold hd in Hz.
  rewrite (bytes_at_app [] (hd ++ W) R) by (rewrite ?zlen_app; done || lia). cbn [mbind res_bind].
  replace (20 + body_size p) with (zlen (hd ++ W)) by (rewrite zlen_app; lia).
  destruct (put_header_seg (hd ++ W) R MESSAGE_INTEGRITY 20) as (R1 & HR1 & -> & Hh & _); [lia|].
  destruct (split_at R1 20) as (V & R' & -> & HV); [lia|]. rewrite zlen_app in HR1. cbn [mbind res_bind].
  set (h := GetHmacSha1 (password p) (hd ++ W)).
  rewrite <- Hh, (write_over _ V) by (done || by rewrite HV; unfold h; rewrite hmac_length). cbn [mbind res_bind].
  rewrite <- !app_assoc. unfold hd. rewrite set_length. fold hd. cbn [mbind res_bind mret res_ret].
  exists R'. split; [lia|]. unfold mret, res_ret. rewrite !zlen_app, !zlen_be2.
  replace (head p (u16 (serialized_size p - 20))) with (head p (serialized_size p - 20))
    by (unfold head; by rewrite be2_u16).
  unfold tlv. rewrite app_nil_r. unfold h. rewrite hmac_length, <- !app_assoc. do 3 f_equal. lia.
Qed.

Lemma add_fingerprint_bytes P R : 8 <= zlen R ->
  exists R', zlen R' = zlen R - 8 /\
  add_fingerprint (P ++ R, zlen P) =
  Ok (P ++ tlv FINGERPRINT (Byte.be4 (Z.lxor (Crypto.GetCRC32 P) 0x5354554E)) [] ++ R', zlen P + 8).
Proof.
  intros HR. unfold add_fingerprint. rewrite (bytes_at_app [] P R) by done. cbn [mbind res_bind].
  destruct (put_header_seg P R FINGERPRINT 4) as (R1 & HR1 & -> & Hh & _); [lia|].
  destruct (split_at R1 4) as (V & R' & -> & HV); [lia|]. rewrite zlen_app in HR1. cbn [mbind res_bind].
  rewrite <- Hh, Set4Bytes_seg by done. exists R'. split; [lia|].
  cbn [mbind res_bind]. unfold tlv, mret, res_ret. by rewrite app_nil_r, <- !app_assoc.
Qed.

(** The bytes [Serialize] writes. *)
Definition prefix_bytes (p : t) (W : list Z) : list Z :=
  head p (serialized_size p - 20) ++ W ++ integrity_bytes p W.

Definition message_bytes (p : t) (W : list Z) : list Z :=
  prefix_bytes p W ++
  tlv FINGERPRINT (Byte.be4 (Z.lxor (Crypto.GetCRC32 (prefix_bytes p W)) 0x5354554E)) [].

Definition serialized (p : t) (d : list Z) : t :=
  {| klass := klass p; method := method p; transactionId := transactionId p; data := d;
     size := serialized_size p; attrs := SetFingerprint (SetMessageIntegrity (attrs p) (integrity_pos p));
     xorMappedAddress := xorMappedAddress p; password := password p |}.

Lemma Serialize_bytes p buffer : message_ok p -> serialized_size p <= zlen buffer ->
  exists W R, parses W (body_attrs p) /\ layout W (sent p) /\ zlen W = body_size p /\
  zlen (message_bytes p W) = serialized_size p /\
  Serialize GetHmacSha1 p buffer = Ok (serialized p (message_bytes p W ++ R)).
Proof.
  intros Hp Hb. pose proof (ok_tid _ Hp) as Ht. pose proof (body_size_bounds p Hp) as Hs.
  pose proof (serialized_size_sum p) as Hsz. set (mi := if adds_integrity p then 24 else 0) in *.
  assert (Hmi : 0 <= mi <= 24) by (unfold mi; destruct (adds_integrity p); lia).
  unfold Serialize. destruct (serialize_head p buffer Ht) as (R0 & HR0 & ->); [lia|].
  replace (head p (u16 (serialized_size p) - 20)) with (head p (serialized_size p - 20))
    by (unfold head; by rewrite be2_sub_20 by lia).
  set (hd := head p (serialized_size p - 20)). assert (Hhd : zlen hd = 20) by by apply zlen_stun_head.
  destruct (writes_body p Hp hd R0) as (W & R1 & E & HW & HR1 & HP & HL); [lia|]. rewrite Hhd in E.
  exists W. destruct (add_integrity_bytes p W R1 Ht HW) as (R2 & HR2 & Ei); [fold mi; lia|]. fold mi hd in HR2, Ei.
  destruct (add_fingerprint_bytes (prefix_bytes p W) R2) as (R3 & HR3 & Ef); [lia|].
  assert (Hpre : zlen (prefix_bytes p W) = 20 + body_size p + mi).
  { unfold prefix_bytes. fold hd. rewrite !zlen_app, zlen_integrity. fold mi. lia. }
  exists R3. split_and!; [done|done|done|unfold message_bytes; rewrite zlen_app, Hpre, Hsz; done|].
  repeat match type of E with (?m ≫= _) = _ =>
    destruct m as [?|?]; [|discriminate E]; cbn [mbind res_bind] in E |- * end.
  rewrite E. cbn [mbind res_bind]. rewrite Ei. cbn [mbind res_bind].
  unfold prefix_bytes in Ef. fold hd in Ef. rewrite <- !app_assoc in Ef. rewrite <- Hpre.
  unfold prefix_bytes. fold hd. rewrite Ef. cbn [mbind res_bind].
  replace (_ =? serialized_size p) with true by (symmetry; apply Z.eqb_eq; fold hd; unfold prefix_bytes in Hpre; fold hd in Hpre; lia).
  cbn [mbind res_bind ms_assert]. unfold serialized, message_bytes, prefix_bytes. fold hd. by rewrite <- !app_assoc.
Qed.

(** The attributes that [Parse] finds in the message: those that [Serialize] writes, which the
    nomination is not, and the error code is only in an error response. *)
Definition received (p : t) : attributes :=
  {| username := username (attrs p); priority := priority (attrs p);
     iceControlling := iceControlling (attrs p); iceControlled := iceControlled (attrs p);
     hasNomination := false; nomination := 0; hasUseCandidate := hasUseCandidate (attrs p);
     messageIntegrity := integrity_pos p; hasFingerprint := true;
     errorCode := if adds_error p then errorCode (attrs p) else 0 |}.

Lemma body_attrs_received p :
  SetFingerprint (SetMessageIntegrity (body_attrs p no_attributes) (integrity_pos p)) = received p.
Proof.
  unfold body_attrs, received, when, SetFingerprint, SetMessageIntegrity.
  case_bool_decide as Hu; destruct (Z.eqb_spec (priority (attrs p)) 0) as [->|],
    (Z.eqb_spec (iceControlling (attrs p)) 0) as [->|], (Z.eqb_spec (iceControlled (attrs p)) 0) as [->|],
    (hasUseCandidate (attrs p)), (adds_error p); cbn; by rewrite ?Hu.
Qed.

Lemma body_attrs_no_integrity p : messageIntegrity (body_attrs p no_attributes) = None.
Proof. unfold body_attrs, when. by repeat match goal with |- context [if ?b then _ else _] => destruct b end. Qed.

Definition start : scan := {| found := no_attributes; hasMI := false; fp := None |}.

Lemma parse_fingerprint fuel P x st : fp st = None -> fits 32 x -> zlen P + 8 <= 65535 -> zlen P mod 4 = 0 ->
  (1 <= fuel)%nat ->
  parse_attributes fuel (P ++ tlv FINGERPRINT (Byte.be4 x) []) st (zlen P) =
  Ok (Some {| found := SetFingerprint (found st); hasMI := hasMI st; fp := Some (zlen P, x) |}).
Proof.
  intros Hfp Hx Hl HP Hf. destruct fuel as [|fuel]; [lia|].
  pose proof (parse_attributes_step fuel P FINGERPRINT (Byte.be4 x) [] [] st
    {| found := SetFingerprint (found st); hasMI := hasMI st; fp := Some (zlen P, x) |}) as H.
  cbn zeta in H. rewrite app_nil_r in H. assert (zlen (tlv FINGERPRINT (Byte.be4 x) []) = 8) as H8 by done.
  rewrite H; clear H; try done.
  - rewrite H8. destruct fuel; cbn [parse_attributes]; rewrite zlen_app, H8;
      (destruct (Z.leb_spec (zlen P + 8 + 4) (zlen P + 8)); [lia|]); by rewrite Z.eqb_refl.
  - rewrite zlen_app, H8. lia.
  - rewrite zlen_app, H8. Z.div_mod_to_equations. lia.
  - unfold handle_attribute. change (zlen (Byte.be4 x)) with 4. eqb_consts.
    rewrite <- (app_nil_r (tlv _ _ _)), (value_at Byte.Get4Bytes _ _ _ x); [done|].
    intros. rewrite Get4Bytes_at by done. by rewrite uwrap_id.
Qed.

Lemma parse_integrity fuel A B v st : zlen v = 20 -> hasMI st = false -> fp st = None ->
  let d := A ++ tlv MESSAGE_INTEGRITY v [] ++ B in
  zlen d <= 65535 -> zlen A mod 4 = 0 -> zlen d mod 4 = 0 ->
  parse_attributes (S fuel) d st (zlen A) =
  parse_attributes fuel d {| found := SetMessageIntegrity (found st) (Some (zlen A + 4)); hasMI := true; fp := None |}
    (zlen A + 24).
Proof.
  intros Hv Hm Hf d Hd HA H4. replace (zlen A + 24) with (zlen A + zlen (tlv MESSAGE_INTEGRITY v []))
    by (rewrite zlen_tlv, Hv; done).
  apply parse_attributes_step; try done.
  - split; [done|]. by rewrite Hv.
  - by rewrite Hm.
  - unfold handle_attribute. rewrite Hv. eqb_consts. by rewrite Hf.
Qed.

Lemma parse_message_attributes p W : message_ok p -> parses W (body_attrs p) -> zlen W = body_size p ->
  parse_attributes (length (message_bytes p W)) (message_bytes p W) start 20 =
  Ok (Some {| found := received p; hasMI := adds_integrity p;
              fp := Some (zlen (prefix_bytes p W), Z.lxor (Crypto.GetCRC32 (prefix_bytes p W)) 0x5354554E) |}).
Proof.
  intros Hp [HW4 (k & Hk & HP)] HW. pose proof (body_size_bounds p Hp).
  set (x := Z.lxor _ _). assert (Hx : fits 32 x) by (apply lxor_fits32; [apply GetCRC32_fits|done]).
  set (hd := head p (serialized_size p - 20)). assert (Hhd : zlen hd = 20) by by apply zlen_stun_head, ok_tid.
  set (F := tlv FINGERPRINT (Byte.be4 x) []). assert (HF : zlen F = 8) by done.
  pose proof (zlen_integrity p W) as HM. set (M := integrity_bytes p W) in *.
  assert (Hpre : prefix_bytes p W = hd ++ W ++ M) by done.
  assert (Hmsg : message_bytes p W = hd ++ W ++ M ++ F)
    by (unfold message_bytes; rewrite Hpre, <- !app_assoc; done).
  assert (Hlen : zlen (message_bytes p W) = 20 + body_size p + zlen M + 8)
    by (rewrite Hmsg, !zlen_app; lia).
  assert (HM' : zlen M = 24 \/ zlen M = 0) by (rewrite HM; destruct (adds_integrity p); lia).
  assert (length (message_bytes p W) = k + (length (message_bytes p W) - k))%nat as -> by (unfold zlen in *; lia).
  set (fuel := (length (message_bytes p W) - k)%nat). assert (Hfuel : (2 <= fuel)%nat) by (unfold zlen in *; lia).
  clearbody fuel. rewrite Hmsg in *. rewrite <- Hhd at 1.
  rewrite HP; [|lia|by rewrite Hhd|rewrite Hlen; Z.div_mod_to_equations; lia|done..].
  cbn [found start set_found]. rewrite <- zlen_app.
  replace (hd ++ W ++ M ++ F) with (((hd ++ W) ++ M) ++ F) in * by (by rewrite <- !app_assoc).
  rewrite Hpre, (app_assoc hd). subst M. unfold integrity_bytes in *.
  rewrite <- body_attrs_received. unfold integrity_pos. destruct (adds_integrity p).
  - destruct fuel as [|fuel]; [lia|]. rewrite <- (app_assoc (hd ++ W)) in *.
    rewrite parse_integrity; [|apply hmac_length|done|done|lia|rewrite zlen_app; Z.div_mod_to_equations; lia
                              |rewrite Hlen; Z.div_mod_to_equations; lia].
    rewrite (app_assoc (hd ++ W)). replace (zlen (hd ++ W) + 24) with
      (zlen ((hd ++ W) ++ tlv MESSAGE_INTEGRITY (GetHmacSha1 (password p) (head p (serialized_size p - 28) ++ W)) []))
      by (rewrite (zlen_app (hd ++ W)); lia).
    unfold F. rewrite parse_fingerprint; [|done|done|rewrite !zlen_app; lia|rewrite !zlen_app; Z.div_mod_to_equations; lia|lia].
    cbn [found hasMI]. do 6 f_equal. rewrite zlen_app. lia.
  - rewrite !app_nil_r in *. unfold F.
    rewrite parse_fingerprint; [|done|done|rewrite !zlen_app; lia|rewrite !zlen_app; Z.div_mod_to_equations; lia|lia].
    cbn [found hasMI set_found]. do 4 f_equal.
    pose proof (body_attrs_no_integrity p). by destruct (body_attrs p no_attributes); simplify_eq/=.
Qed.

(** The message as its receiver sees it. *)
Definition as_received (p : t) (d : list Z) : t :=
  set_attrs (make (klass p) (method p) (transactionId p) d (zlen d)) (received p).

Lemma Get2Bytes_head p n rest : Byte.Get2Bytes (head p n ++ rest) 2 = Ok (u16 n).
Proof.
  unfold head. rewrite <- !app_assoc. by apply (Get2Bytes_at (Byte.be2 _)).
Qed.

Lemma head_fields p n rest : message_ok p -> fits 7 (method p) -> fits 16 n ->
  let d := head p n ++ rest in
  IsStun d = Ok true /\ Byte.Get2Bytes d 0 = Ok (u16 (type_field (method p) (klass p))) /\
  Byte.Get2Bytes d 2 = Ok n /\ read d 0 = Ok (u8 (Z.shiftr (type_field (method p) (klass p)) 8)) /\
  read d 1 = Ok (u8 (type_field (method p) (klass p))) /\ bytes_at d 8 12 = Ok (transactionId p).
Proof.
  intros Hp Hm Hn d. pose proof (ok_tid _ Hp) as Ht. split_and!.
  - by apply IsStun_head.
  - unfold d, head. rewrite <- !app_assoc. apply Get2Bytes_front.
  - unfold d. by rewrite Get2Bytes_head, uwrap_id.
  - unfold d, head. rewrite <- !app_assoc. apply read_cons_0.
  - unfold d, head. rewrite <- !app_assoc. unfold Byte.be2 at 1. cbn [app]. by rewrite read_cons_S, read_cons_0 by lia.
  - unfold d, head. rewrite !app_assoc. rewrite <- (app_assoc _ (transactionId p)).
    apply bytes_at_app; [done|by rewrite Ht].
Qed.

Lemma Parse_message p W : message_ok p -> fits 7 (method p) -> parses W (body_attrs p) -> zlen W = body_size p ->
  zlen (message_bytes p W) = serialized_size p ->
  Parse (message_bytes p W) = Ok (Some (as_received p (message_bytes p W))).
Proof.
  intros Hp Hm HP HW Hlen. pose proof (body_size_bounds p Hp). pose proof (serialized_size_sum p) as Hs.
  pose proof (parse_message_attributes p W Hp HP HW) as Ha.
  destruct (type_field_parsed p Hm) as (_ & Hmeth & Hcls).
  assert (HW4 : zlen W mod 4 = 0) by apply HP.
  assert (Hle : 20 <= serialized_size p <= 65535) by (destruct (adds_integrity p); lia).
  assert (Hmod : (serialized_size p - 20) mod 4 = 0)
    by (rewrite Hs; destruct (adds_integrity p); Z.div_mod_to_equations; lia).
  assert (Hf : bytes_at (message_bytes p W) 0 (zlen (prefix_bytes p W)) = Ok (prefix_bytes p W)).
  { unfold message_bytes. by apply (bytes_at_app []). }
  assert (exists rest, message_bytes p W = head p (serialized_size p - 20) ++ rest) as [rest Hd].
  { unfold message_bytes, prefix_bytes. rewrite <- !app_assoc. by eexists. }
  destruct (head_fields p (serialized_size p - 20) rest Hp Hm) as (H1 & H2 & H3 & H4 & H5 & H6); [ulia|].
  rewrite <- Hd in *. set (d := message_bytes p W) in *. unfold Parse.
  rewrite H1. cbn [mbind res_bind negb]. rewrite H2, H3, Hlen. cbn [mbind res_bind].
  rewrite Z.eqb_refl. change 3 with (2 ^ 2 - 1) at 1. rewrite land_ones_mod by lia. change (2 ^ 2) with 4.
  rewrite Hmod, H4, H5, H6. cbn [negb orb Z.eqb mbind res_bind]. rewrite Hcls, Hmeth. fold start. rewrite Ha.
  cbn [mbind res_bind fp found]. rewrite Hf. cbn [mbind res_bind]. rewrite Z.eqb_refl. cbn [negb].
  unfold as_received. by rewrite Hlen.
Qed.

Lemma head_u16 p n : head p (u16 n) = head p n.
Proof. unfold head. by rewrite be2_u16. Qed.

Lemma CheckAuthentication_message p W user :
  zlen (transactionId p) = 12 -> zlen W = body_size p -> zlen (message_bytes p W) = serialized_size p ->
  (klass p = REQUEST \/ klass p = INDICATION) -> adds_integrity p = true -> username (attrs p) <> [] ->
  username_matches (username (attrs p)) user = true ->
  CheckAuthentication GetHmacSha1 (as_received p (message_bytes p W)) user (password p) =
  Ok (OK, as_received p (message_bytes p W)).
Proof.
  intros Ht HW Hlen Hk Hi Hne Hu.
  set (F := tlv FINGERPRINT (Byte.be4 (Z.lxor (Crypto.GetCRC32 (prefix_bytes p W)) 0x5354554E)) []).
  set (h := GetHmacSha1 (password p) (head p (serialized_size p - 28) ++ W)).
  assert (Hz : forall n, zlen (head p n) = 20) by (intros; by apply zlen_stun_head).
  assert (Hd : message_bytes p W = head p (serialized_size p - 20) ++ W ++ tlv MESSAGE_INTEGRITY h [] ++ F).
  { unfold message_bytes. fold F. unfold prefix_bytes, integrity_bytes. fold h. by rewrite Hi, <- !app_assoc. }
  unfold CheckAuthentication, as_received. cbn [klass attrs make set_attrs received messageIntegrity username hasFingerprint size data].
  unfold integrity_pos. rewrite Hi, (bool_decide_eq_false_2 _ Hne), Hu. cbn [negb]. rewrite Hlen, Hd.
  rewrite set_length. cbn [mbind res_bind]. rewrite head_u16. replace (serialized_size p - 20 - 8) with (serialized_size p - 28) by lia.
  assert (Hh : bytes_at (head p (serialized_size p - 28) ++ W ++ tlv MESSAGE_INTEGRITY h [] ++ F) 0 (24 + body_size p - 4)
               = Ok (head p (serialized_size p - 28) ++ W)).
  { rewrite (app_assoc (head _ _) W). apply (bytes_at_app []); [done|]. rewrite zlen_app, Hz. lia. }
  assert (Hr : bytes_at (head p (serialized_size p - 28) ++ W ++ tlv MESSAGE_INTEGRITY h [] ++ F) (24 + body_size p) 20 = Ok h).
  { unfold tlv. rewrite <- (app_assoc (Byte.be2 _)), <- (app_assoc (Byte.be2 _)), <- (app_assoc h).
    rewrite (app_assoc (Byte.be2 _)), (app_assoc W), (app_assoc (head _ _)).
    apply bytes_at_app; [|unfold h; by rewrite hmac_length].
    rewrite !zlen_app, Hz, !zlen_be2. lia. }
  rewrite Hh, Hr. cbn [mbind res_bind]. rewrite bool_decide_eq_true_2 by done.
  rewrite set_length. cbn [mbind res_bind mret res_ret]. rewrite head_u16.
  destruct Hk as [-> | ->]; reflexivity.
Qed.

(** The address in a XOR-MAPPED-ADDRESS, as the client that gets it reads it (RFC 5389,
    section 15.2). *)
Definition read_address (tid v : list Z) : option sockaddr :=
  match v with
  | _ :: family :: rest =>
      let port := xor_bytes (take 2 rest) (take 2 magicCookie) in
      if family =? 1 then Some (AF_INET port (xor_bytes (drop 2 rest) magicCookie))
      else if family =? 2 then Some (AF_INET6 port (xor_bytes (drop 2 rest) (magicCookie ++ tid)))
      else None
  | _ => None
  end.

Lemma xor_bytes_twice l : forall k, xor_bytes (xor_bytes l k) k = l.
Proof.
  induction l as [|x l IH]; intros [|y k]; try done. cbn [xor_bytes]. by rewrite IH, Z.lxor_assoc, Z.lxor_nilpotent, Z.lxor_0_r.
Qed.

Lemma read_address_xor tid a v : sockaddr_ok a -> xor_address tid a = Some v -> read_address tid v = Some a.
Proof.
  intros Ha. destruct a as [port addr|port addr|]; [| |done]; intros [= <-]; destruct Ha as [Hp _];
    (assert (length (xor_bytes port (take 2 magicCookie)) = 2%nat) as Hl
       by (pose proof (zlen_xor_bytes port (take 2 magicCookie)); unfold zlen in *; lia));
    cbn [read_address app]; eqb_consts; rewrite take_app_length', drop_app_length' by done; by rewrite !xor_bytes_twice.
Qed.

Lemma sent_address p a :
  xorMappedAddress p = Some a -> sockaddr_ok a -> a <> AF_OTHER -> method p = BINDING -> klass p = SUCCESS_RESPONSE ->
  exists v, (XOR_MAPPED_ADDRESS, v) ∈ sent p /\ read_address (transactionId p) v = Some a.
Proof.
  intros Ha Hok Hfam Hm Hk. assert (exists v, xor_address (transactionId p) a = Some v) as [v Hv] by (destruct a; [by eexists..|done]).
  exists v. split; [|by apply read_address_xor]. unfold sent, address_value.
  rewrite Ha, Hm, Hk, (bool_decide_eq_true_2 (SUCCESS_RESPONSE = SUCCESS_RESPONSE)) by done. change (BINDING =? BINDING) with true.
  cbn [andb].
  rewrite Hv, !elem_of_app, list_elem_of_singleton.
  tauto.
Qed.

(** The attributes of a message that was written. *)
Lemma message_layout p W : layout W (sent p) -> zlen (transactionId p) = 12 ->
  exists h f, zlen h = 20 /\
    layout (drop 20 (message_bytes p W))
      (sent p ++ (if adds_integrity p then [(MESSAGE_INTEGRITY, h)] else []) ++ [(FINGERPRINT, Byte.be4 f)]).
Proof.
  intros HL Ht. exists (GetHmacSha1 (password p) (head p (serialized_size p - 28) ++ W)).
  exists (Z.lxor (Crypto.GetCRC32 (prefix_bytes p W)) 0x5354554E). split; [apply hmac_length|].
  unfold message_bytes at 1. unfold prefix_bytes at 1. pose proof (zlen_stun_head p (serialized_size p - 20) Ht) as Hz.
  rewrite <- !app_assoc, drop_app_length' by (unfold zlen in Hz; lia).
  apply layout_app; [done|]. apply layout_app; [|by apply layout_one]. unfold integrity_bytes.
  destruct (adds_integrity p); [|constructor]. apply layout_one. split; [done|]. by rewrite hmac_length.
Qed.

(** C28: A message written by [Serialize] into any buffer that holds it is read back.  The
    datagram is a STUN header followed by exactly the attributes that the message has, in the
    order of [Serialize] and each padded to four bytes: USERNAME, PRIORITY, ICE-CONTROLLING and
    ICE-CONTROLLED if they are not empty or 0, USE-CANDIDATE, in a success response to a
    binding request XOR-MAPPED-ADDRESS, from which the client reads the address that was set,
    in an error response ERROR-CODE, then MESSAGE-INTEGRITY if there is a password and
    FINGERPRINT; a NOMINATION is never written.  [Parse] accepts the datagram and finds the
    same class, method, transaction id and the same username, priority, ice-controlling,
    ice-controlled, use-candidate and, in an error response, error code, no nomination, the
    message integrity where it was written and a valid fingerprint ([Parse] does not look at
    XOR-MAPPED-ADDRESS).  A request or indication that carries a message integrity passes the
    authentication against the username it starts with and the password it was written with.
    The method is below 128, since [IsStun] wants a first byte below 3; the username has at
    most 65000 bytes, so that the size fits the length field; the error code is below 25600, so
    that its hundreds fit a byte; HMAC-SHA1 gives 20 bytes. *)
Theorem stun_roundtrip p buffer :
  message_ok p -> fits 7 (method p) -> serialized_size p <= zlen buffer ->
  exists p' q h f,
    Serialize GetHmacSha1 p buffer = Ok p' /\ size p' = serialized_size p /\
    let d := take (Z.to_nat (size p')) (data p') in
    layout (drop 20 d)
      (sent p ++ (if adds_integrity p then [(MESSAGE_INTEGRITY, h)] else []) ++ [(FINGERPRINT, Byte.be4 f)]) /\
    (forall a, xorMappedAddress p = Some a -> a <> AF_OTHER -> method p = BINDING -> klass p = SUCCESS_RESPONSE ->
       exists v, (XOR_MAPPED_ADDRESS, v) ∈ sent p /\ read_address (transactionId p) v = Some a) /\
    Parse d = Ok (Some q) /\
    klass q = klass p /\ method q = method p /\ transactionId q = transactionId p /\ attrs q = received p /\
    (forall user, klass p = REQUEST \/ klass p = INDICATION -> adds_integrity p = true ->
       username (attrs p) <> [] -> username_matches (username (attrs p)) user = true ->
       CheckAuthentication GetHmacSha1 q user (password p) = Ok (OK, q)).
Proof.
  intros Hp Hm Hb. destruct (Serialize_bytes p buffer Hp Hb) as (W & R & HP & HL & HW & Hlen & E).
  destruct (message_layout p W HL (ok_tid _ Hp)) as (h & f & _ & Hlay).
  exists (serialized p (message_bytes p W ++ R)), (as_received p (message_bytes p W)), h, f.
  cbn [size data serialized]. cbn zeta.
  replace (take (Z.to_nat (serialized_size p)) (message_bytes p W ++ R)) with (message_bytes p W).
  2:{ rewrite <- Hlen. unfold zlen. by rewrite Nat2Z.id, take_app_length. }
  split_and!; try done; [|by apply Parse_message|].
  - intros a Ha Hfam Hmeth Hk. apply sent_address; try done. pose proof (ok_address _ Hp) as Hok. by rewrite Ha in Hok.
  - intros. apply CheckAuthentication_message; try done. apply ok_tid, Hp.
Qed.

End Messages.

(** A binding request with the username ["srv:cli"], and a stand-in for HMAC-SHA1. *)
Definition sample_hmac (k d : list Z) : list Z := take 20 (k ++ d ++ replicate 20 0).

Definition sample_request : t :=
  {| klass := REQUEST; method := BINDING; transactionId := seqZ 1 12; data := []; size := 0;
     attrs := {| username := [115; 114; 118; 58; 99; 108; 105]; priority := 1853817087; iceControlling := 5;
                 iceControlled := 0; hasNomination := false; nomination := 0; hasUseCandidate := true;
                 messageIntegrity := None; hasFingerprint := false; errorCode := 0 |};
     xorMappedAddress := None; password := [112; 119] |}.

Lemma sample_hmac_length k d : zlen (sample_hmac k d) = 20.
Proof.
  unfold sample_hmac. rewrite zlen_take, !zlen_app. pose proof (zlen_nonneg k). pose proof (zlen_nonneg d).
  change (zlen (replicate 20 0)) with 20. lia.
Qed.

Lemma sample_request_ok : message_ok sample_request.
Proof. split; vm_compute; try done; by split. Qed.

Lemma stun_roundtrip_witness :
  exists p' q,
    Serialize sample_hmac sample_request (replicate 128 0) = Ok p' /\ size p' = 88 /\
    Parse (take (Z.to_nat (size p')) (data p')) = Ok (Some q) /\
    CheckAuthentication sample_hmac q [115; 114; 118] [112; 119] = Ok (OK, q).
Proof.
  destruct (stun_roundtrip sample_hmac sample_hmac_length sample_request (replicate 128 0) sample_request_ok)
    as (p' & q & h & f & E & Hs & _ & _ & HP & _ & _ & _ & _ & HA); [done|vm_compute; discriminate|].
  exists p', q. split; [exact E|]. split; [exact Hs|]. split; [exact HP|].
  apply (HA [115; 114; 118]); [by left|done|done|done].
Defined.

(** A response with the address of the client. *)
Definition sample_response : t :=
  {| klass := SUCCESS_RESPONSE; method := BINDING; transactionId := seqZ 1 12; data := []; size := 0; attrs := no_attributes;
     xorMappedAddress := Some (AF_INET [19; 136] [192; 0; 2; 7]); password := [] |}.

Example sample_response_address : exists v,
  sent sample_response = [(XOR_MAPPED_ADDRESS, v)] /\
  read_address (seqZ 1 12) v = Some (AF_INET [19; 136] [192; 0; 2; 7]) /\ v <> [0; 1; 19; 136; 192; 0; 2; 7].
Proof. eexists. by vm_compute. Qed.

(** ** Parsing any datagram *)

Definition scan_ok (d : list Z) (st : scan) : Prop :=
  (forall mi, messageIntegrity (found st) = Some mi -> 24 <= mi /\ mi + 20 <= zlen d) /\
  match fp st with
  | Some (pos, _) => 20 <= pos /\ pos + 8 <= zlen d
  | None => hasFingerprint (found st) = false
  end.

Lemma handle_attribute_safe d st attrType attrLength pos :
  20 <= pos -> 0 <= attrLength -> pos + 4 + attrLength <= zlen d -> scan_ok d st -> fp st = None ->
  exists r, handle_attribute d st attrType attrLength pos = Ok r /\
            match r with Some st' => scan_ok d st' | None => True end.
Proof.
  intros Hp Hl Hd [Hmi Hfp] Hn. rewrite Hn in Hfp. unfold handle_attribute.
  repeat match goal with
  | |- context [if ?a =? ?b then _ else _] => destruct (Z.eqb_spec a b)
  | |- context [if negb (?a =? ?b) then _ else _] => destruct (Z.eqb_spec a b); cbn [negb]
  | |- context [if ?a <? ?b then _ else _] => destruct (Z.ltb_spec a b)
  end; try (eexists; split; [done|exact I]); subst;
    repeat match goal with
    | |- context [Byte.Get4Bytes d ?i] => destruct (Get4Bytes_safe d i) as [? ->]; [lia..|]
    | |- context [Byte.Get8Bytes d ?i] => destruct (Get8Bytes_safe d i) as [? ->]; [lia..|]
    | |- context [Byte.Get1Byte d ?i] => destruct (Get1Byte_safe d i) as [? ->]; [lia..|]
    | |- context [bytes_at d ?i ?n] => rewrite (bytes_at_ok d i n) by lia
    end; cbn [mbind res_bind]; eexists; (split; [done|]);
    (split; cbn [found set_found fp]; [|rewrite ?Hn; try done; lia]);
    try exact Hmi.
  intros mi [= <-]. lia.
Qed.

Lemma parse_attributes_safe fuel : forall d st pos,
  20 <= pos <= zlen d -> zlen d <= 65535 -> pos mod 4 = 0 -> zlen d mod 4 = 0 ->
  zlen d - pos <= 4 * Z.of_nat fuel -> bytes_ok d -> scan_ok d st ->
  exists r, parse_attributes fuel d st pos = Ok r /\ match r with Some st' => scan_ok d st' | None => True end.
Proof.
  induction fuel as [|fuel IH]; intros d st pos Hpos Hd Hp4 Hd4 Hf Hb Hok; cbn [parse_attributes].
  { destruct (Z.leb_spec (pos + 4) (zlen d)); [lia|]. destruct (Z.eqb_spec pos (zlen d)); cbn [negb]; by eexists. }
  destruct (Z.leb_spec (pos + 4) (zlen d)).
  2:{ destruct (Z.eqb_spec pos (zlen d)); cbn [negb]; by eexists. }
  destruct (Get2Bytes_safe d pos) as [attrType ->]; [lia..|].
  destruct (Get2Bytes_safe d (pos + 2)) as [n Hn]; [lia..|]. rewrite Hn. cbn [mbind res_bind].
  pose proof (Get2Bytes_fits d (pos + 2) n Hb Hn) as Hn16.
  destruct (Z.ltb_spec (zlen d) (pos + 4 + n)); [by eexists|].
  destruct (fp st) eqn:Efp; [by eexists|]. destruct (_ && _); [by eexists|].
  destruct (handle_attribute_safe d st attrType n pos) as (r & -> & Hr); [lia|ulia|lia|done|done|].
  cbn [mbind res_bind]. destruct r as [st'|]; [|by eexists].
  rewrite PadTo4Bytes16_padded by ulia. unfold padded.
  apply IH; try done; unfold fits in Hn16; Z.div_mod_to_equations; lia.
Qed.

Lemma IsStun_safe d : exists b, IsStun d = Ok b /\ (b = true -> 20 <= zlen d).
Proof.
  unfold IsStun. destruct (Z.leb_spec 20 (zlen d)); cbn [negb]; [|by eexists].
  destruct (read_in_range d 0) as (b0 & -> & _); [lia|]. cbn [mbind res_bind].
  destruct (b0 <? 3); cbn [negb]; [|by eexists].
  destruct (read_in_range d 4) as (? & -> & _); [lia|]. destruct (read_in_range d 5) as (? & -> & _); [lia|].
  destruct (read_in_range d 6) as (? & -> & _); [lia|]. destruct (read_in_range d 7) as (? & -> & _); [lia|].
  cbn [mbind res_bind]. by eexists.
Qed.

Lemma scan_ok_start d : scan_ok d start.
Proof. by split. Qed.

(** What a parsed packet keeps of its datagram. *)
Record parsed (d : list Z) (p : t) : Prop := {
  parsed_data : data p = d;
  parsed_size : size p = zlen d;
  parsed_tid : transactionId p = take 12 (drop 8 d);
  parsed_length : Byte.Get2Bytes d 2 = Ok (zlen d - 20);
  parsed_mod : zlen d mod 4 = 0;
  parsed_min : 20 <= zlen d;
  parsed_integrity : forall mi, messageIntegrity (attrs p) = Some mi -> 24 <= mi /\ mi + 20 <= zlen d;
  parsed_fingerprint : hasFingerprint (attrs p) = true -> 28 <= zlen d;
}.

Lemma Parse_parsed d : bytes_ok d -> zlen d <= 65535 ->
  exists r, Parse d = Ok r /\ forall p, r = Some p -> parsed d p.
Proof.
  intros Hb Hd. unfold Parse. destruct (IsStun_safe d) as ([] & -> & H20); cbn [mbind res_bind negb]; [|by eexists].
  specialize (H20 eq_refl). destruct (Get2Bytes_safe d 0) as [ty ->]; [lia..|].
  destruct (Get2Bytes_safe d 2) as [len Hl]; [lia..|]. rewrite Hl. cbn [mbind res_bind].
  destruct (Z.eqb_spec len (zlen d - 20)) as [->|]; cbn [negb orb]; [|by eexists].
  change 3 with (2 ^ 2 - 1). rewrite land_ones_mod by lia. change (2 ^ 2) with 4.
  destruct (Z.eqb_spec ((zlen d - 20) mod 4) 0) as [H4|]; cbn [negb]; [|by eexists].
  destruct (read_in_range d 0) as (b0 & -> & _); [lia|]. destruct (read_in_range d 1) as (b1 & -> & _); [lia|].
  rewrite (bytes_at_ok d 8 12) by lia. cbn [mbind res_bind]. fold start.
  destruct (parse_attributes_safe (length d) d start 20)
    as (r & -> & Hr); [lia|done|done|Z.div_mod_to_equations; lia|unfold zlen; lia|done|apply scan_ok_start|].
  cbn [mbind res_bind]. destruct r as [st|]; [|by eexists]. destruct Hr as [Hmi Hfp].
  assert (H : parsed d (set_attrs (make (class_of (Z.lor (Z.shiftl (Z.land b0 1) 1) (Z.shiftr (Z.land b1 16) 4)))
                                        (method_of ty) (take 12 (drop 8 d)) d (zlen d)) (found st))).
  { split; cbn; try done; [Z.div_mod_to_equations; lia|].
    destruct (fp st) as [[pos x]|]; [intros _; lia|]. by rewrite Hfp. }
  destruct (fp st) as [[pos x]|]; [|eexists; split; [done|]; by intros ? [= <-]].
  rewrite bytes_at_ok by lia. cbn [mbind res_bind]. destruct (negb _); eexists; (split; [done|]); [done|].
  by intros ? [= <-].
Qed.

(** Every datagram, of at most 65535 bytes, is parsed or discarded: the loop over the
    attributes ends (its 16-bit position cannot wrap around) and reads nothing outside of the
    datagram.  A packet that is accepted has its datagram's length, a multiple of 4, and
    transaction id, and its message integrity lies inside. *)
Theorem stun_parse_safe d :
  bytes_ok d -> zlen d <= 65535 ->
  exists r, Parse d = Ok r /\
    forall p, r = Some p ->
      data p = d /\ size p = zlen d /\ 20 <= zlen d /\ zlen d mod 4 = 0 /\
      transactionId p = take 12 (drop 8 d) /\
      forall mi, messageIntegrity (attrs p) = Some mi -> 24 <= mi /\ mi + 20 <= zlen d.
Proof.
  intros Hb Hd. destruct (Parse_parsed d Hb Hd) as (r & E & H). exists r. split; [done|].
  intros p Hp. destruct (H p Hp). by split_and!.
Qed.

Definition sample_datagram : list Z :=
  [0; 1; 0; 8; 0x21; 0x12; 0xA4; 0x42] ++ seqZ 1 12 ++ [0; 0x24; 0; 4; 1; 2; 3; 4].

Lemma stun_parse_safe_witness : exists p, Parse sample_datagram = Ok (Some p) /\ size p = 28.
Proof.
  destruct (stun_parse_safe sample_datagram) as (r & E & H); [by apply (bool_decide_unpack _)|vm_compute; discriminate|].
  destruct r as [p|]; [|discriminate E]. exists p. split; [exact E|]. apply (H p eq_refl).
Defined.

(** ** Authentication *)

Lemma username_matches_iff u user :
  username_matches u user = true <-> exists rest, u = user ++ 58 :: rest.
Proof.
  unfold username_matches. rewrite !andb_true_iff, !bool_decide_eq_true, negb_true_iff, Z.leb_gt. split.
  - intros [[Hl Hc] Ht]. exists (drop (S (length user)) u). rewrite <- Ht at 1.
    rewrite <- (take_drop (length user) u) at 1. f_equal. by rewrite (drop_S _ _ _ Hc).
  - intros [rest ->]. split_and!.
    + rewrite zlen_app, zlen_cons. pose proof (zlen_nonneg rest). lia.
    + by rewrite lookup_app_r, Nat.sub_diag by lia.
    + by rewrite take_app_length.
Qed.

(** The bytes MESSAGE-INTEGRITY covers: the packet up to the attribute, with the length it
    has without FINGERPRINT. *)
Definition integrity_input (d : list Z) (fingerprint : bool) (mi : Z) : list Z :=
  take 2 d ++ Byte.be2 (zlen d - 20 - (if fingerprint then 8 else 0)) ++ take (Z.to_nat (mi - 8)) (drop 4 d).

(** The packet with another length field. *)
Lemma parsed_bytes d p : bytes_ok d -> zlen d <= 65535 -> parsed d p ->
  exists b0 b1 rest, d = b0 :: b1 :: Byte.be2 (zlen d - 20) ++ rest.
Proof.
  intros Hb Hd Hp. pose proof (parsed_min _ _ Hp). pose proof (parsed_length _ _ Hp) as Hl.
  destruct (split_at d 4) as (W & rest & Hdr & HW); [lia|]. destruct (four_bytes W HW) as (a & b & c & e & ->).
  exists a, b, rest. subst d. set (n := zlen _ - 20) in *. cbn [app] in Hb, Hl |- *.
  apply list.Forall_cons in Hb as [Ha Hb]. bytes_inv. do 2 f_equal.
  rewrite (Get2Bytes_val _ _ c e) in Hl; [|done..]. injection Hl as <-. by rewrite be2_of_bytes.
Qed.

Lemma integrity_input_bytes b0 b1 x n rest (fingerprint : bool) mi :
  let d := b0 :: b1 :: Byte.be2 x ++ rest in
  24 <= mi -> mi <= zlen d -> n = zlen d - 20 - (if fingerprint then 8 else 0) ->
  bytes_at (b0 :: b1 :: Byte.be2 n ++ rest) 0 (mi - 4) = Ok (integrity_input d fingerprint mi).
Proof.
  intros d H1 H2 ->. rewrite bytes_at_ok; [|lia|lia|].
  - unfold integrity_input. rewrite drop_0. f_equal. unfold d. set (n := zlen _ - _ - _).
    replace (Z.to_nat (mi - 4)) with (S (S (S (S (Z.to_nat (mi - 8)))))) by lia. done.
  - unfold d in *. zlens. lia.
Qed.

Lemma take_drop_header b0 b1 x y rest mi : 24 <= mi ->
  drop (Z.to_nat mi) (b0 :: b1 :: Byte.be2 x ++ rest) = drop (Z.to_nat mi) (b0 :: b1 :: Byte.be2 y ++ rest).
Proof. intros H. replace (Z.to_nat mi) with (S (S (S (S (Z.to_nat (mi - 4)))))) by lia. done. Qed.

Section Authentication.

Context (GetHmacSha1 : list Z -> list Z -> list Z).

(** The comparison of the two HMACs, on the packet as it was received. *)
Lemma check_integrity d p mi pwd : bytes_ok d -> zlen d <= 65535 -> parsed d p ->
  messageIntegrity (attrs p) = Some mi ->
  (d1 ← (if hasFingerprint (attrs p) then Byte.Set2Bytes (data p) 2 (u16 (size p - 20 - 8)) else mret (data p));
   hashed ← bytes_at d1 0 (mi - 4);
   received ← bytes_at d1 mi 20;
   let result := if bool_decide (received = GetHmacSha1 pwd hashed) then OK else UNAUTHORIZED in
   d2 ← (if hasFingerprint (attrs p) then Byte.Set2Bytes d1 2 (u16 (size p - 20)) else mret d1);
   mret (result, set_data p d2)) =
  Ok (if bool_decide (take 20 (drop (Z.to_nat mi) d) = GetHmacSha1 pwd (integrity_input d (hasFingerprint (attrs p)) mi))
      then OK else UNAUTHORIZED, p).
Proof.
  intros Hb Hd Hp Hmi. destruct (parsed_integrity _ _ Hp _ Hmi) as [H1 H2].
  destruct (parsed_bytes d p Hb Hd Hp) as (b0 & b1 & rest & Hdr).
  assert (Hset : forall x n, Byte.Set2Bytes (b0 :: b1 :: Byte.be2 x ++ rest) 2 (u16 n) =
                   Ok (b0 :: b1 :: Byte.be2 n ++ rest)).
  { intros x m. rewrite <- (be2_u16 m). apply (Set2Bytes_seg [b0; b1] (Byte.be2 x)); done. }
  assert (Hself : set_data p d = p) by (rewrite <- (parsed_data _ _ Hp); by destruct p).
  rewrite (parsed_data _ _ Hp), (parsed_size _ _ Hp). set (n := zlen d) in *.
  destruct (hasFingerprint (attrs p)) eqn:Ef.
  - rewrite Hdr at 1. rewrite Hset. cbn [mbind res_bind].
    rewrite (integrity_input_bytes _ _ (n - 20) _ _ true), <- Hdr; [|lia|rewrite <- Hdr; lia|rewrite <- Hdr; lia].
    cbn [mbind res_bind]. rewrite bytes_at_ok; [|lia|lia|subst n; rewrite Hdr in H2; zlens; lia].
    cbn [mbind res_bind]. rewrite Hset, <- Hdr, (take_drop_header _ _ _ (n - 20)), <- Hdr by lia.
    cbn [mbind res_bind mret res_ret]. by rewrite Hself.
  - cbn [mbind res_bind mret res_ret].
    rewrite Hdr at 1. rewrite (integrity_input_bytes _ _ (n - 20) _ _ false), <- Hdr; [|lia|rewrite <- Hdr; lia|rewrite <- Hdr; lia].
    cbn [mbind res_bind]. rewrite bytes_at_ok by lia. cbn [mbind res_bind]. by rewrite Hself.
Qed.

Lemma CheckAuthentication_returns d p user pwd : bytes_ok d -> zlen d <= 65535 -> parsed d p ->
  exists r, CheckAuthentication GetHmacSha1 p user pwd = Ok (r, p).
Proof.
  intros Hb Hd H. unfold CheckAuthentication.
  destruct (klass p); try by eexists.
  all: destruct (messageIntegrity (attrs p)) as [mi|] eqn:Em; [|by eexists].
  all: case_bool_decide; [by eexists|]; destruct (negb _); [by eexists|].
  all: eexists; exact (check_integrity d p mi pwd Hb Hd H Em).
Qed.

(** C29: [CheckAuthentication] on a received packet never reads or writes outside of it, leaves
    its bytes as they were, and answers [OK] exactly when the packet is a request or an
    indication whose username is the local username, a colon and the rest, and whose message
    integrity is the HMAC, under the local password, of the packet before it (with the length
    field it had before the fingerprint was appended). *)
Theorem stun_authentication d p user pwd :
  bytes_ok d -> zlen d <= 65535 -> Parse d = Ok (Some p) ->
  exists r, CheckAuthentication GetHmacSha1 p user pwd = Ok (r, p) /\
    (r = OK <->
     (klass p = REQUEST \/ klass p = INDICATION) /\
     (exists rest, username (attrs p) = user ++ 58 :: rest) /\
     exists mi, messageIntegrity (attrs p) = Some mi /\
       take 20 (drop (Z.to_nat mi) d) =
       GetHmacSha1 pwd (integrity_input d (hasFingerprint (attrs p)) mi)).
Proof.
  intros Hb Hd HP. destruct (Parse_parsed d Hb Hd) as (r & E & H). rewrite HP in E. injection E as <-.
  specialize (H p eq_refl). setoid_rewrite <- username_matches_iff. unfold CheckAuthentication.
  assert (Hbad : forall a, a <> OK -> forall P : Prop, ~ P -> (a = OK <-> P)) by tauto.
  destruct (klass p) eqn:Ek; try (eexists; split; [done|apply Hbad; [done|intros [[?|?] _]; done]]).
  all: destruct (messageIntegrity (attrs p)) as [mi|] eqn:Em;
    [|eexists; split; [done|]; apply Hbad; [done|intros (_ & _ & mi & ? & _); done]].
  all: case_bool_decide as Hu;
    [eexists; split; [done|]; apply Hbad; [done|]; intros (_ & Hm & _); rewrite Hu in Hm; by destruct user|].
  all: destruct (username_matches (username (attrs p)) user); cbn [negb];
    [|eexists; split; [done|]; apply Hbad; [done|intros (_ & ? & _); done]].
  all: eexists; (split; [exact (check_integrity d p mi pwd Hb Hd H Em)|]).
  all: case_bool_decide as Hh; (split; [intros Hr; split_and!; eauto; discriminate|]); [done|];
    intros (_ & _ & mi' & [= <-] & Hx); done.
Qed.

End Authentication.

Lemma stun_authentication_witness :
  exists p r, Parse sample_datagram = Ok (Some p) /\
    CheckAuthentication sample_hmac p [115] [112; 119] = Ok (r, p) /\ r <> OK.
Proof.
  destruct (Parse sample_datagram) as [[p|]|] eqn:E; [|discriminate E|discriminate E].
  destruct (stun_authentication sample_hmac sample_datagram p [115] [112; 119]) as (r & Hr & Hiff);
    [by apply (bool_decide_unpack _)|vm_compute; discriminate|exact E|].
  exists p, r. split; [reflexivity|]. split; [exact Hr|]. intros Hok. apply Hiff in Hok as (_ & [rest Hu] & _).
  vm_compute in E. injection E as <-. discriminate Hu.
Defined.
