(* ===== verification/IceServer.v ===== *)
(** * The ICE server

    Models [worker/include/RTC/TransportTuple.hpp] and [worker/src/RTC/IceServer.cpp]: the
    remote addresses of a transport, the answers to STUN binding requests, and the state
    machine that selects the address to send to.  The stored tuples have addresses, as the
    elements of a [std::list] have, and the selected tuple is such an address; the calls to
    the listener are the list of events an operation returns. *)

From S2P Require Import Prelude Utils RtcpPacket RtpPacket RtpPacketSpec StunPacket StunPacketSpec.

(** ** Tuples *)

Module TransportTuple.

Inductive Protocol := UDP | TCP.

#[global] Instance Protocol_eq_dec : EqDecision Protocol.
Proof. solve_decision. Defined.

(** [ntohs] and [ntohl] of bytes in network order. *)
Fixpoint ntoh (l : list Z) (acc : Z) : Z :=
  match l with [] => acc | b :: l' => ntoh l' (acc * 256 + b) end.

(** A [uint32_t] read from memory by a little-endian host. *)
Definition host32 (l : list Z) : Z := ntoh (rev l) 0.

(** [SetHash()], on the protocol and the remote address. *)
Definition SetHash (protocol : Protocol) (remote : StunPacket.sockaddr) : Z :=
  let p := match protocol with UDP => 0 | TCP => 1 end in
  match remote with
  | StunPacket.AF_INET port addr =>
      Z.lor (Z.lor (Z.shiftl (ntoh port 0) 48) (Z.shiftl (ntoh addr 0) 16)) p
  | StunPacket.AF_INET6 port addr =>
      let a i := host32 (take 4 (drop (4 * i) addr)) in
      let address1 := Z.lxor (Z.lxor (Z.lxor (a 0%nat) (a 1%nat)) (a 2%nat)) (a 3%nat) in
      let address2 := a 0%nat in
      Z.lor (Z.lor (Z.lor (Z.lor (Z.shiftl (ntoh port 0) 48) (Z.shiftl address1 16))
                      (Z.land (Z.shiftr address2 16) 0xFFFC)) 2) p
  | StunPacket.AF_OTHER => p
  end.

Record t := { protocol : Protocol; remoteAddress : StunPacket.sockaddr; hash : Z }.

Definition make (p : Protocol) (a : StunPacket.sockaddr) : t :=
  {| protocol := p; remoteAddress := a; hash := SetHash p a |}.

Definition Compare (x y : t) : bool := hash x =? hash y.

End TransportTuple.

(** ** The server *)

Module IceServer.

Import StunPacket (BINDING, OK, UNAUTHORIZED, BAD_REQUEST, REQUEST, INDICATION, SUCCESS_RESPONSE, ERROR_RESPONSE).

Definition StunSerializeBufferSize : Z := 65536.
Definition MaxTuples : nat := 8.

Inductive IceState := NEW | CONNECTED | COMPLETED | DISCONNECTED.

#[global] Instance IceState_eq_dec : EqDecision IceState.
Proof. solve_decision. Defined.

(** The calls to the listener. *)
Inductive event :=
| SendStunPacket (response : StunPacket.t) (tuple : TransportTuple.t)
| LocalUsernameFragmentAdded (usernameFragment : list Z)
| LocalUsernameFragmentRemoved (usernameFragment : list Z)
| TupleAdded (a : positive) (tuple : TransportTuple.t)
| TupleRemoved (a : positive) (tuple : TransportTuple.t)
| SelectedTuple (a : positive)
| Connected
| Completed
| Disconnected.

(** The members, and the next free address of the heap. *)
Record State := {
  usernameFragment : list Z;
  password : list Z;
  oldUsernameFragment : list Z;
  oldPassword : list Z;
  remoteNomination : Z;
  state : IceState;
  tuples : list (positive * TransportTuple.t);
  selectedTuple : option positive;
  next : positive;
}.

Definition set_credentials (s : State) (u p ou op : list Z) : State :=
  {| usernameFragment := u; password := p; oldUsernameFragment := ou; oldPassword := op;
     remoteNomination := remoteNomination s; state := state s; tuples := tuples s;
     selectedTuple := selectedTuple s; next := next s |}.
Definition set_remoteNomination (s : State) (n : Z) : State :=
  {| usernameFragment := usernameFragment s; password := password s; oldUsernameFragment := oldUsernameFragment s;
     oldPassword := oldPassword s; remoteNomination := n; state := state s; tuples := tuples s;
     selectedTuple := selectedTuple s; next := next s |}.
Definition set_state (s : State) (x : IceState) : State :=
  {| usernameFragment := usernameFragment s; password := password s; oldUsernameFragment := oldUsernameFragment s;
     oldPassword := oldPassword s; remoteNomination := remoteNomination s; state := x; tuples := tuples s;
     selectedTuple := selectedTuple s; next := next s |}.
Definition set_tuples (s : State) (l : list (positive * TransportTuple.t)) (n : positive) : State :=
  {| usernameFragment := usernameFragment s; password := password s; oldUsernameFragment := oldUsernameFragment s;
     oldPassword := oldPassword s; remoteNomination := remoteNomination s; state := state s; tuples := l;
     selectedTuple := selectedTuple s; next := n |}.
Definition set_selectedTuple (s : State) (a : option positive) : State :=
  {| usernameFragment := usernameFragment s; password := password s; oldUsernameFragment := oldUsernameFragment s;
     oldPassword := oldPassword s; remoteNomination := remoteNomination s; state := state s; tuples := tuples s;
     selectedTuple := a; next := next s |}.

(** The constructor. *)
Definition make (u p : list Z) : State * list event :=
  ({| usernameFragment := u; password := p; oldUsernameFragment := []; oldPassword := []; remoteNomination := 0;
      state := NEW; tuples := []; selectedTuple := None; next := 1%positive |},
   [LocalUsernameFragmentAdded u]).

(** The destructor. *)
Definition destroy (s : State) : list event :=
  [LocalUsernameFragmentRemoved (usernameFragment s)] ++
  (if bool_decide (oldUsernameFragment s = []) then [] else [LocalUsernameFragmentRemoved (oldUsernameFragment s)]) ++
  map (fun '(a, x) => TupleRemoved a x) (tuples s).

Definition RestartIce (s : State) (u p : list Z) : State * list event :=
  let removed :=
    if bool_decide (oldUsernameFragment s = []) then [] else [LocalUsernameFragmentRemoved (oldUsernameFragment s)] in
  let s := set_credentials s u p (usernameFragment s) (password s) in
  (set_remoteNomination s 0, removed ++ [LocalUsernameFragmentAdded u]).

(** The tuple stored at an address. *)
Definition stored (s : State) (a : positive) : option TransportTuple.t :=
  snd <$> List.find (fun p => bool_decide (fst p = a)) (tuples s).

(** [HasTuple(tuple)]: the address of the stored tuple that is equal. *)
Definition HasTuple (s : State) (tuple : TransportTuple.t) : res (option positive) :=
  match selectedTuple s with
  | None => mret None
  | Some a =>
      selected ← deref (stored s a);
      if TransportTuple.Compare selected tuple then mret (Some a)
      else mret (fst <$> List.find (fun p => TransportTuple.Compare (snd p) tuple) (tuples s))
  end.

Definition IsValidTuple (s : State) (tuple : TransportTuple.t) : res bool :=
  a ← HasTuple s tuple; mret (match a with Some _ => true | None => false end).

Definition SetSelectedTuple (s : State) (a : positive) : State * list event :=
  if bool_decide (selectedTuple s = Some a) then (s, [])
  else (set_selectedTuple s (Some a), [SelectedTuple a]).

(** [erase] of the element at an address. *)
Definition erase (l : list (positive * TransportTuple.t)) (a : positive) : list (positive * TransportTuple.t) :=
  List.filter (fun p => negb (bool_decide (fst p = a))) l.

(** The oldest tuple that is neither the one at [a] nor the selected one. *)
Definition oldest_other (s : State) (a : positive) : option (positive * TransportTuple.t) :=
  List.find (fun p => negb (bool_decide (fst p = a)) && negb (bool_decide (Some (fst p) = selectedTuple s)))
    (rev (tuples s)).

(** [AddTuple(tuple)]: also the address of the stored tuple. *)
Definition AddTuple (s : State) (tuple : TransportTuple.t) : res (State * list event * positive) :=
  let a := next s in
  let s := set_tuples s ((a, tuple) :: tuples s) (Pos.succ a) in
  if (MaxTuples <? length (tuples s))%nat then
    match oldest_other s a with
    | None => Fault AssertFailed
    | Some (r, removed) =>
        mret (set_tuples s (erase (tuples s) r) (next s), [TupleAdded a tuple; TupleRemoved r removed], a)
    end
  else mret (s, [TupleAdded a tuple], a).

(** The nomination is none or is higher than the ones before. *)
Definition accepts (s : State) (hasNomination : bool) (nomination : Z) : bool :=
  (hasNomination && (remoteNomination s <? nomination)) || negb hasNomination.

Definition update_nomination (s : State) (hasNomination : bool) (nomination : Z) : State :=
  if hasNomination && (remoteNomination s <? nomination) then set_remoteNomination s nomination else s.

(** The cases 'new' and 'disconnected' of [HandleTuple]. *)
Definition handle_first (s : State) (tuple : TransportTuple.t) (hasUseCandidate hasNomination : bool)
    (nomination : Z) : res (State * list event) :=
  _ ← ms_assert (bool_decide (tuples s = []));
  _ ← ms_assert (bool_decide (selectedTuple s = None));
  '(s, added, a) ← AddTuple s tuple;
  if negb hasUseCandidate && negb hasNomination then
    let '(s, selected) := SetSelectedTuple s a in
    mret (set_state s CONNECTED, added ++ selected ++ [Connected])
  else if accepts s hasNomination nomination then
    let '(s, selected) := SetSelectedTuple s a in
    mret (update_nomination (set_state s COMPLETED) hasNomination nomination, added ++ selected ++ [Completed])
  else mret (s, added).

(** If the tuple is not stored, store it. *)
Definition find_or_add (s : State) (tuple : TransportTuple.t) : res (State * list event * positive) :=
  a ← HasTuple s tuple;
  match a with
  | Some a => mret (s, [], a)
  | None => AddTuple s tuple
  end.

(** The cases 'connected' and 'completed' of [HandleTuple]. *)
Definition handle_next (s : State) (tuple : TransportTuple.t) (hasUseCandidate hasNomination : bool)
    (nomination : Z) : res (State * list event) :=
  _ ← ms_assert (negb (bool_decide (tuples s = [])));
  _ ← ms_assert (negb (bool_decide (selectedTuple s = None)));
  '(s', added, a) ← find_or_add s tuple;
  if negb hasUseCandidate && negb hasNomination then mret (s', added)
  else if accepts s' hasNomination nomination then
    let '(s', selected) := SetSelectedTuple s' a in
    mret (update_nomination (set_state s' COMPLETED) hasNomination nomination,
          added ++ selected ++ (if bool_decide (state s = CONNECTED) then [Completed] else []))
  else mret (s', added).

Definition HandleTuple (s : State) (tuple : TransportTuple.t) (hasUseCandidate hasNomination : bool)
    (nomination : Z) : res (State * list event) :=
  match state s with
  | NEW | DISCONNECTED => handle_first s tuple hasUseCandidate hasNomination nomination
  | CONNECTED | COMPLETED => handle_next s tuple hasUseCandidate hasNomination nomination
  end.

Definition RemoveTuple (s : State) (tuple : TransportTuple.t) : State * list event :=
  match List.find (fun p => TransportTuple.Compare (snd p) tuple) (tuples s) with
  | None => (s, [])
  | Some (r, removed) =>
      let s := set_tuples s (erase (tuples s) r) (next s) in
      if bool_decide (selectedTuple s = Some r) then
        let s := set_selectedTuple s None in
        match tuples s with
        | (a, _) :: _ => let '(s, selected) := SetSelectedTuple s a in (s, TupleRemoved r removed :: selected)
        | [] => (set_state s DISCONNECTED, [TupleRemoved r removed; Disconnected])
        end
      else (s, [TupleRemoved r removed])
  end.

Definition ForceSelectedTuple (s : State) (tuple : TransportTuple.t) : res (State * list event) :=
  _ ← ms_assert (negb (bool_decide (selectedTuple s = None)));
  a ← HasTuple s tuple;
  match a with
  | None => Fault AssertFailed
  | Some a => mret (SetSelectedTuple s a)
  end.

(** ** STUN packets *)

Section Packets.

Context (GetHmacSha1 : list Z -> list Z -> list Z).

(** An error response is written to the buffer and sent. *)
Definition reply_error (s : State) (p : StunPacket.t) (code : Z) (tuple : TransportTuple.t) (buffer : list Z)
    : res (State * list event) :=
  response ← StunPacket.CreateErrorResponse p code;
  response ← StunPacket.Serialize GetHmacSha1 response buffer;
  mret (s, [SendStunPacket response tuple]).

(** The part of the request case after the authentication. *)
Definition process_request (s : State) (p : StunPacket.t) (tuple : TransportTuple.t) (buffer : list Z)
    : res (State * list event) :=
  if negb (StunPacket.iceControlled (StunPacket.attrs p) =? 0) then reply_error s p 487 tuple buffer
  else
    response ← StunPacket.CreateSuccessResponse p;
    let response := StunPacket.SetXorMappedAddress response (TransportTuple.remoteAddress tuple) in
    let response :=
      StunPacket.Authenticate response (if bool_decide (oldPassword s = []) then password s else oldPassword s) in
    response ← StunPacket.Serialize GetHmacSha1 response buffer;
    let a := StunPacket.attrs p in
    let nomination := if StunPacket.hasNomination a then StunPacket.nomination a else 0 in
    '(s, events) ← HandleTuple s tuple (StunPacket.hasUseCandidate a) (StunPacket.hasNomination a) nomination;
    mret (s, SendStunPacket response tuple :: events).

(** There are old credentials. *)
Definition has_old (s : State) : bool :=
  negb (bool_decide (oldUsernameFragment s = [])) && negb (bool_decide (oldPassword s = [])).

(** The request case: the authentication against the credentials, then against the old ones. *)
Definition authenticate_request (s : State) (p : StunPacket.t) (tuple : TransportTuple.t) (buffer : list Z)
    : res (State * list event) :=
  '(r, p) ← StunPacket.CheckAuthentication GetHmacSha1 p (usernameFragment s) (password s);
  match r with
  | OK =>
      if has_old s then
        let removed := LocalUsernameFragmentRemoved (oldUsernameFragment s) in
        '(s, events) ← process_request (set_credentials s (usernameFragment s) (password s) [] []) p tuple buffer;
        mret (s, removed :: events)
      else process_request s p tuple buffer
  | UNAUTHORIZED =>
      if has_old s then
        '(r, p) ← StunPacket.CheckAuthentication GetHmacSha1 p (oldUsernameFragment s) (oldPassword s);
        match r with
        | OK => process_request s p tuple buffer
        | _ => reply_error s p 401 tuple buffer
        end
      else reply_error s p 401 tuple buffer
  | BAD_REQUEST => reply_error s p 400 tuple buffer
  end.

Definition ProcessStunPacket (s : State) (p : StunPacket.t) (tuple : TransportTuple.t) (buffer : list Z)
    : res (State * list event) :=
  let klass := StunPacket.klass p in
  let a := StunPacket.attrs p in
  let bad_request := if bool_decide (klass = REQUEST) then reply_error s p 400 tuple buffer else mret (s, []) in
  if negb (StunPacket.method p =? BINDING) then bad_request
  else if negb (StunPacket.hasFingerprint a) && negb (bool_decide (klass = INDICATION)) then bad_request
  else
    match klass with
    | REQUEST =>
        if bool_decide (StunPacket.messageIntegrity a = None) || (StunPacket.priority a =? 0) ||
           bool_decide (StunPacket.username a = [])
        then reply_error s p 400 tuple buffer
        else authenticate_request s p tuple buffer
    | INDICATION | SUCCESS_RESPONSE | ERROR_RESPONSE => mret (s, [])
    end.

End Packets.

End IceServer.
