(* ===== verification/IceServerSpec.v ===== *)
(** * The ICE server: what holds of its states and of its answers

    The invariant of the state machine and its preservation by every operation, the view the
    listener has of the server, the answers to binding requests, and the state in which a
    stale nomination leaves the server. *)

From stdpp Require Import gmap gmultiset.
From S2P Require Import Prelude Utils RtcpPacket RtpPacket RtpPacketSpec StunPacket StunPacketSpec IceServer.

Import IceServer.

Abbreviation tuple_list := (list (positive * TransportTuple.t)).

Definition hash_of (p : positive * TransportTuple.t) : Z := TransportTuple.hash (snd p).

(** ** The stored tuples *)

(** The addresses are distinct and allocated, no two tuples are equal, and there are at
    most [MaxTuples]. *)
Record list_ok (l : tuple_list) (n : positive) : Prop := {
  ok_ids : NoDup l.*1;
  ok_fresh : Forall (fun a => (a < n)%positive) l.*1;
  ok_hashes : NoDup (map hash_of l);
  ok_max : (length l <= MaxTuples)%nat;
}.

Lemma stored_some s a : a ∈ (tuples s).*1 -> exists x, stored s a = Some x /\ (a, x) ∈ tuples s.
Proof.
  unfold stored. induction (tuples s) as [|[b y] l IH]; intros Ha; [by apply not_elem_of_nil in Ha|].
  cbn [List.find fst]. case_bool_decide as E.
  - subst b. exists y. split; [done|left].
  - apply elem_of_cons in Ha as [->|Ha]; [done|]. destruct (IH Ha) as (x & Hx & Hin). exists x.
    split; [done|by right].
Qed.

Lemma find_hash (l : tuple_list) tuple :
  match List.find (fun p => TransportTuple.Compare (snd p) tuple) l with
  | Some p => p ∈ l /\ hash_of p = TransportTuple.hash tuple
  | None => TransportTuple.hash tuple ∉ map hash_of l
  end.
Proof.
  induction l as [|[a x] l IH]; cbn [List.find map]; [apply not_elem_of_nil|].
  unfold TransportTuple.Compare at 1. cbn [snd]. destruct (Z.eqb_spec (TransportTuple.hash x) (TransportTuple.hash tuple)).
  - split; [left|done].
  - destruct (List.find _ l) as [p|]; [destruct IH as [IH ?]; split; [by right|done]|].
    rewrite not_elem_of_cons. split; [|done]. unfold hash_of. cbn [snd]. congruence.
Qed.

Lemma HasTuple_spec s tuple a :
  selectedTuple s = Some a -> a ∈ (tuples s).*1 ->
  exists r, HasTuple s tuple = Ok r /\
    match r with
    | Some b => exists x, (b, x) ∈ tuples s /\ TransportTuple.hash x = TransportTuple.hash tuple
    | None => TransportTuple.hash tuple ∉ map hash_of (tuples s)
    end.
Proof.
  intros Hs Ha. destruct (stored_some s a Ha) as (x & Hx & Hin). unfold HasTuple. rewrite Hs, Hx.
  cbn [deref mbind res_bind]. unfold TransportTuple.Compare at 1.
  destruct (Z.eqb_spec (TransportTuple.hash x) (TransportTuple.hash tuple)) as [E|E].
  - eexists. split; [done|]. by exists x.
  - eexists. split; [done|]. pose proof (find_hash (tuples s) tuple) as H.
    destruct (List.find _ _) as [[b y]|]; cbn; [|done]. exists y. exact H.
Qed.

Lemma erase_elem l a p : p ∈ erase l a <-> p ∈ l /\ p.1 <> a.
Proof.
  unfold erase. rewrite !list_elem_of_In, filter_In, negb_true_iff, bool_decide_eq_false. done.
Qed.

Lemma erase_sublist l a : erase l a `sublist_of` l.
Proof.
  unfold erase. induction l as [|[b y] l IH]; cbn; [constructor|]. case_bool_decide; cbn; by constructor.
Qed.

Lemma erase_length l a x : NoDup l.*1 -> (a, x) ∈ l -> length l = S (length (erase l a)).
Proof.
  induction l as [|[b y] l IH]; intros Hn Hin; [by apply not_elem_of_nil in Hin|].
  cbn [fmap list_fmap fst] in Hn. apply NoDup_cons in Hn as [Hb Hn]. unfold erase. cbn.
  case_bool_decide as E; cbn [negb length].
  - subst b. f_equal. fold (erase l a). clear IH Hin. induction l as [|[c z] l IH]; [done|].
    cbn in *. apply not_elem_of_cons in Hb as [Hc Hb]. apply NoDup_cons in Hn as [_ Hn].
    rewrite bool_decide_eq_false_2 by done. cbn. f_equal. by apply IH.
  - f_equal. apply IH; [done|]. apply elem_of_cons in Hin as [[= -> ->]|Hin]; [done|done].
Qed.

(** The tuples without one of them. *)
Lemma erase_list_ok l n a :
  NoDup l.*1 -> Forall (fun b => (b < n)%positive) l.*1 -> NoDup (map hash_of l) ->
  (length (erase l a) <= MaxTuples)%nat -> list_ok (erase l a) n.
Proof.
  intros Hi Hf Hh Hm. pose proof (erase_sublist l a) as Hs. split; [| | |done].
  - by apply (sublist_NoDup _ l.*1); [|apply fmap_sublist].
  - rewrite Forall_forall in *. intros b Hb. apply Hf. apply list_elem_of_fmap in Hb as (p & -> & Hp).
    apply erase_elem in Hp as [Hp _]. by apply list_elem_of_fmap_2.
  - by apply (sublist_NoDup _ (map hash_of l)); [|apply (fmap_sublist hash_of)].
Qed.

(** Of nine tuples, one is neither the new one nor the selected one. *)
Lemma oldest_other_some s a :
  NoDup (tuples s).*1 -> (2 < length (tuples s))%nat ->
  exists r x, oldest_other s a = Some (r, x) /\ (r, x) ∈ tuples s /\ r <> a /\ selectedTuple s <> Some r.
Proof.
  intros Hn Hl. unfold oldest_other.
  set (P := fun p : positive * TransportTuple.t => _).
  destruct (List.find P (rev (tuples s))) as [[r x]|] eqn:E.
  - apply find_some in E as [Hin HP]. exists r, x. split; [done|]. unfold P in HP. cbn in HP.
    rewrite andb_true_iff, !negb_true_iff, !bool_decide_eq_false in HP.
    apply in_rev, list_elem_of_In in Hin. destruct HP as [H1 H2]. split_and!; [done|done|].
    intros E. by rewrite E in H2.
  - exfalso. assert (H : (tuples s).*1 ⊆ a :: match selectedTuple s with Some b => [b] | None => [] end).
    { intros b Hb. apply list_elem_of_fmap in Hb as (p & -> & Hp).
      pose proof (find_none _ _ E p) as Hnone. rewrite <- in_rev in Hnone.
      apply list_elem_of_In in Hp. specialize (Hnone Hp). unfold P in Hnone.
      rewrite andb_false_iff, !negb_false_iff, !bool_decide_eq_true in Hnone.
      destruct Hnone as [->|<-]; [left|right; cbn; left]. }
    pose proof (NoDup_submseteq _ _ Hn H) as Hsub. apply submseteq_length in Hsub.
    rewrite length_fmap in Hsub. cbn in Hsub. destruct (selectedTuple s); cbn in Hsub; lia.
Qed.

(** The other members of the server are as they were. *)
Definition same_but_tuples (s s' : State) : Prop :=
  s' = set_tuples s (tuples s') (next s').

(** The tuple is stored, at a new address; when there were [MaxTuples] already, another one
    is removed, but not the selected one. *)
Lemma AddTuple_spec s tuple :
  list_ok (tuples s) (next s) -> TransportTuple.hash tuple ∉ map hash_of (tuples s) ->
  exists s' ev, AddTuple s tuple = Ok (s', ev, next s) /\ same_but_tuples s s' /\
    list_ok (tuples s') (next s') /\ (next s, tuple) ∈ tuples s' /\
    (forall a, selectedTuple s = Some a -> a ∈ (tuples s).*1 -> a ∈ (tuples s').*1) /\
    (ev = [TupleAdded (next s) tuple] /\ tuples s' = (next s, tuple) :: tuples s \/
     exists r x, ev = [TupleAdded (next s) tuple; TupleRemoved r x] /\ r <> next s /\
                 tuples s' = erase ((next s, tuple) :: tuples s) r).
Proof.
  intros [Hi Hf Hh Hm] Hn. unfold AddTuple. set (a := next s). set (l := (a, tuple) :: tuples s).
  assert (Ha : a ∉ (tuples s).*1) by (rewrite Forall_forall in Hf; intros H; specialize (Hf a H); lia).
  assert (Hi' : NoDup l.*1) by (cbn; by apply NoDup_cons).
  assert (Hf' : Forall (fun b => (b < Pos.succ a)%positive) l.*1).
  { cbn. apply list.Forall_cons. split; [lia|]. eapply List.Forall_impl; [|exact Hf]. cbn. intros; lia. }
  assert (Hh' : NoDup (map hash_of l)) by (cbn; by apply NoDup_cons).
  cbn [tuples set_tuples]. fold l. destruct (Nat.ltb_spec MaxTuples (length l)) as [Hlt|Hge].
  - destruct (oldest_other_some (set_tuples s l (Pos.succ a)) a) as (r & x & -> & Hr & Hra & Hsel);
      [done|unfold MaxTuples in Hlt; cbn [tuples set_tuples]; lia|]. cbn [tuples set_tuples selectedTuple] in Hr, Hsel.
    eexists _, _. split; [done|]. cbn [tuples set_tuples next]. pose proof (erase_length _ _ _ Hi' Hr) as Hlen.
    split_and!; [done| | | |by right; exists r, x].
    + apply erase_list_ok; try done. unfold l in *. cbn in *. lia.
    + apply erase_elem. split; [left|]. cbn. congruence.
    + intros b Hb Hin. apply list_elem_of_fmap in Hin as (p & -> & Hp). apply list_elem_of_fmap_2, erase_elem.
      split; [by right|]. congruence.
  - eexists _, _. split; [done|]. cbn [tuples set_tuples next]. split_and!; [done|by split|left| |by left].
    intros b _ Hb. by right.
Qed.

(** ** The invariant, and the listener's view *)

Record inv (s : State) : Prop := {
  inv_list : list_ok (tuples s) (next s);
  inv_state :
    match state s with
    | NEW | DISCONNECTED => tuples s = [] /\ selectedTuple s = None
    | CONNECTED | COMPLETED => exists a, selectedTuple s = Some a /\ a ∈ (tuples s).*1
    end;
}.

(** What a listener that follows the notifications knows: the tuples, the selected one,
    whether the server is connected, and the username fragments it answers to. *)
Record view := {
  v_tuples : gmap positive TransportTuple.t;
  v_selected : option positive;
  v_up : bool;
  v_fragments : gmultiset (list Z);
}.

Definition notify (v : view) (e : event) : view :=
  match e with
  | SendStunPacket _ _ => v
  | LocalUsernameFragmentAdded u =>
      {| v_tuples := v_tuples v; v_selected := v_selected v; v_up := v_up v;
         v_fragments := v_fragments v ⊎ {[+ u +]} |}
  | LocalUsernameFragmentRemoved u =>
      {| v_tuples := v_tuples v; v_selected := v_selected v; v_up := v_up v;
         v_fragments := v_fragments v ∖ {[+ u +]} |}
  | TupleAdded a x =>
      {| v_tuples := <[a := x]> (v_tuples v); v_selected := v_selected v; v_up := v_up v;
         v_fragments := v_fragments v |}
  | TupleRemoved a _ =>
      {| v_tuples := delete a (v_tuples v); v_selected := v_selected v; v_up := v_up v;
         v_fragments := v_fragments v |}
  | SelectedTuple a =>
      {| v_tuples := v_tuples v; v_selected := Some a; v_up := v_up v; v_fragments := v_fragments v |}
  | Connected | Completed =>
      {| v_tuples := v_tuples v; v_selected := v_selected v; v_up := true; v_fragments := v_fragments v |}
  | Disconnected =>
      {| v_tuples := v_tuples v; v_selected := None; v_up := false; v_fragments := v_fragments v |}
  end.

Definition follow (v : view) (l : list event) : view := fold_left notify l v.

Definition empty_view : view := {| v_tuples := ∅; v_selected := None; v_up := false; v_fragments := ∅ |}.

Definition is_up (x : IceState) : bool :=
  match x with CONNECTED | COMPLETED => true | NEW | DISCONNECTED => false end.

Definition fragments (u old : list Z) : gmultiset (list Z) :=
  {[+ u +]} ⊎ (if bool_decide (old = []) then ∅ else {[+ old +]}).

Definition view_of (s : State) : view :=
  {| v_tuples := list_to_map (tuples s); v_selected := selectedTuple s; v_up := is_up (state s);
     v_fragments := fragments (usernameFragment s) (oldUsernameFragment s) |}.

(** An operation that returns, keeps the invariant, and tells the listener what it did. *)
Definition performs (s : State) (r : res (State * list event)) : Prop :=
  exists s' ev, r = Ok (s', ev) /\ inv s' /\ follow (view_of s) ev = view_of s'.

Lemma follow_app v l k : follow v (l ++ k) = follow (follow v l) k.
Proof. apply fold_left_app. Qed.

Lemma list_to_map_erase l a : (list_to_map (erase l a) : gmap positive TransportTuple.t) = delete a (list_to_map l).
Proof.
  induction l as [|[b y] l IH]; cbn; [by rewrite delete_empty|]. case_bool_decide as E; cbn.
  - subst b. unfold erase in IH. by rewrite IH, delete_insert_eq.
  - unfold erase in IH. by rewrite IH, delete_insert_ne.
Qed.

Lemma follow_selected s a :
  follow (view_of s) (snd (SetSelectedTuple s a)) = view_of (set_selectedTuple s (Some a)) /\
  fst (SetSelectedTuple s a) = set_selectedTuple s (Some a).
Proof.
  unfold SetSelectedTuple. case_bool_decide as E; [|done]. cbn [fst snd]. split.
  - unfold follow, view_of. cbn. by rewrite E.
  - destruct s. cbn in *. by subst.
Qed.

Lemma same_fields s s' : same_but_tuples s s' ->
  selectedTuple s' = selectedTuple s /\ state s' = state s /\ usernameFragment s' = usernameFragment s /\
  oldUsernameFragment s' = oldUsernameFragment s /\ remoteNomination s' = remoteNomination s.
Proof. intros ->. done. Qed.

Lemma follow_added s tuple s' ev :
  same_but_tuples s s' ->
  (ev = [TupleAdded (next s) tuple] /\ tuples s' = (next s, tuple) :: tuples s \/
   exists r x, ev = [TupleAdded (next s) tuple; TupleRemoved r x] /\ r <> next s /\
               tuples s' = erase ((next s, tuple) :: tuples s) r) ->
  follow (view_of s) ev = view_of s'.
Proof.
  intros Hs H. destruct (same_fields _ _ Hs) as (H1 & H2 & H3 & H4 & _). unfold follow, view_of.
  rewrite H1, H2, H3, H4. destruct H as [[-> Hl]|(r & x & -> & Hr & Hl)]; rewrite Hl; [done|].
  rewrite list_to_map_erase. done.
Qed.

Lemma update_nomination_inv s h n : inv s -> inv (update_nomination s h n).
Proof. intros [Hl Hs]. unfold update_nomination. by destruct (_ && _). Qed.

Lemma update_nomination_view s h n : view_of (update_nomination s h n) = view_of s.
Proof. unfold update_nomination. by destruct (_ && _). Qed.

Lemma handle_first_performs s tuple useCandidate hasNomination nomination :
  inv s -> is_up (state s) = false ->
  (hasNomination = true -> remoteNomination s < nomination) ->
  performs s (handle_first s tuple useCandidate hasNomination nomination).
Proof.
  intros [Hl Hs] Hup Hn. assert (Ht : tuples s = [] /\ selectedTuple s = None) by (destruct (state s); done).
  destruct Ht as [Ht Hsel]. unfold handle_first. rewrite Ht, Hsel.
  rewrite !bool_decide_eq_true_2 by done. cbn [ms_assert mbind res_bind].
  destruct (AddTuple_spec s tuple Hl) as (s1 & ev & -> & Hsame & Hok & Hin & _ & Hev).
  { rewrite Ht. apply not_elem_of_nil. }
  cbn [mbind res_bind]. pose proof (follow_added s tuple s1 ev Hsame Hev) as Hf.
  destruct (follow_selected s1 (next s)) as [Hv Hset]. destruct (SetSelectedTuple s1 (next s)) as [s2 sel].
  cbn [fst snd] in Hv, Hset. subst s2. apply list_elem_of_fmap_2 with (f := fst) in Hin.
  assert (Ha : accepts s1 hasNomination nomination = true).
  { unfold accepts. destruct (same_fields _ _ Hsame) as (_ & _ & _ & _ & ->). destruct hasNomination; [|done].
    specialize (Hn eq_refl). destruct (Z.ltb_spec (remoteNomination s) nomination); [done|lia]. }
  assert (Hinv : forall x, is_up x = true -> inv (set_state (set_selectedTuple s1 (Some (next s))) x)).
  { intros x Hx. split; [done|]. cbn [state set_state]. destruct x; try done; by exists (next s). }
  destruct (negb useCandidate && negb hasNomination); [|rewrite Ha];
    eexists _, _; (split; [done|]); rewrite !follow_app, Hf, Hv.
  - split; [by apply Hinv|done].
  - rewrite update_nomination_view. split; [by apply update_nomination_inv, Hinv|done].
Qed.

Lemma inv_up s : inv s -> is_up (state s) = true -> exists a, selectedTuple s = Some a /\ a ∈ (tuples s).*1.
Proof. intros [_ H] Hu. by destruct (state s). Qed.

Lemma handle_next_performs s tuple useCandidate hasNomination nomination :
  inv s -> is_up (state s) = true ->
  performs s (handle_next s tuple useCandidate hasNomination nomination).
Proof.
  intros Hi Hup. destruct (inv_up s Hi Hup) as (a & Hsel & Ha). unfold handle_next.
  assert (Hne : tuples s <> []) by (intros E; rewrite E in Ha; by apply not_elem_of_nil in Ha).
  rewrite (bool_decide_eq_false_2 _ Hne), (bool_decide_eq_false_2 (selectedTuple s = None)) by by rewrite Hsel.
  cbn [negb ms_assert mbind res_bind].
  assert (exists s1 ev b, find_or_add s tuple = Ok (s1, ev, b) /\ same_but_tuples s s1 /\
            list_ok (tuples s1) (next s1) /\ b ∈ (tuples s1).*1 /\ a ∈ (tuples s1).*1 /\
            follow (view_of s) ev = view_of s1) as (s1 & ev & b & -> & Hsame & Hok & Hb & Ha1 & Hf).
  { unfold find_or_add. destruct (HasTuple_spec s tuple a Hsel Ha) as (r & -> & Hr). cbn [mbind res_bind].
    destruct r as [b|].
    - destruct Hr as (x & Hx & _). exists s, [], b. split_and!; [done|by destruct s|apply Hi| |done|done].
      by apply list_elem_of_fmap_2 with (f := fst) in Hx.
    - destruct (AddTuple_spec s tuple (inv_list _ Hi) Hr) as (s1 & ev & -> & Hsame & Hok & Hin & Hkeep & Hev).
      exists s1, ev, (next s). split_and!; auto; [|by apply (follow_added s tuple)].
      by apply list_elem_of_fmap_2 with (f := fst) in Hin. }
  cbn [mbind res_bind]. destruct (same_fields _ _ Hsame) as (Es & Est & _).
  destruct (negb useCandidate && negb hasNomination).
  { eexists _, _. split; [done|]. split; [|done]. split; [done|]. rewrite Est. destruct (state s); try done; exists a; by rewrite Es. }
  destruct (accepts s1 hasNomination nomination).
  2:{ eexists _, _. split; [done|]. split; [|done]. split; [done|]. rewrite Est. destruct (state s); try done; exists a; by rewrite Es. }
  destruct (follow_selected s1 b) as [Hv Hset]. destruct (SetSelectedTuple s1 b) as [s2 sel].
  cbn [fst snd] in Hv, Hset. subst s2. eexists _, _. split; [done|]. split.
  - apply update_nomination_inv. split; [done|]. by exists b.
  - rewrite !follow_app, Hf, Hv, update_nomination_view. unfold view_of.
    case_bool_decide; cbn; rewrite ?Est, ?Hup; done.
Qed.

Lemma HandleTuple_performs s tuple useCandidate hasNomination nomination :
  inv s -> (is_up (state s) = false -> hasNomination = true -> remoteNomination s < nomination) ->
  performs s (HandleTuple s tuple useCandidate hasNomination nomination).
Proof.
  intros Hi Hn. unfold HandleTuple. destruct (state s) eqn:E;
    (apply handle_first_performs || apply handle_next_performs); rewrite ?E; auto.
Qed.

Lemma RemoveTuple_performs s tuple : inv s -> performs s (Ok (RemoveTuple s tuple)).
Proof.
  intros Hi. pose proof (inv_list _ Hi) as [Hids Hf Hh Hm]. unfold RemoveTuple.
  pose proof (find_hash (tuples s) tuple) as H. destruct (List.find _ _) as [[r x]|]; [|by exists s, []].
  destruct H as [Hin _]. pose proof (erase_length _ _ _ Hids Hin) as Hlen.
  assert (Hok : list_ok (erase (tuples s) r) (next s)) by (apply erase_list_ok; try done; lia).
  assert (Hup : is_up (state s) = true).
  { destruct Hi as [_ Hs]. destruct (state s); try done; destruct Hs as [Hs _]; rewrite Hs in Hin; by apply not_elem_of_nil in Hin. }
  destruct (inv_up s Hi Hup) as (a & Hsel & Ha). cbn [set_tuples selectedTuple tuples].
  case_bool_decide as E; [cbn [set_selectedTuple tuples set_tuples]|].
  - destruct (erase (tuples s) r) as [|[b y] l] eqn:El; eexists _, _; (split; [done|]).
    + split; [by split|]. unfold follow, view_of. cbn. by rewrite <- list_to_map_erase, El.
    + split; [split; [done|]|].
      * unfold SetSelectedTuple. cbn. destruct (state s); try done; exists b; split; try done; left.
      * unfold follow, view_of, SetSelectedTuple. cbn. by rewrite <- list_to_map_erase, El.
  - eexists _, _. split; [done|]. split; [split; [done|]|].
    + cbn. assert (a ∈ (erase (tuples s) r).*1).
      { apply list_elem_of_fmap in Ha as (p & -> & Hp). apply list_elem_of_fmap_2, erase_elem. split; [done|congruence]. }
      destruct (state s); try done; by exists a.
    + unfold follow, view_of. cbn. by rewrite <- list_to_map_erase.
Qed.

(** A packet other than STUN is accepted from a valid tuple only, which becomes the selected
    one ([OnRtpDataReceived] and the like in [WebRtcTransport]). *)
Definition media_received (s : State) (tuple : TransportTuple.t) : res (State * list event) :=
  valid ← IsValidTuple s tuple;
  if negb valid then mret (s, []) else ForceSelectedTuple s tuple.

Lemma media_received_performs s tuple : inv s -> performs s (media_received s tuple).
Proof.
  intros Hi. unfold media_received, IsValidTuple, ForceSelectedTuple. destruct (selectedTuple s) as [a|] eqn:Hsel.
  2:{ unfold HasTuple. rewrite Hsel. cbn. by exists s, []. }
  assert (Hup : is_up (state s) = true).
  { destruct Hi as [_ Hs]. destruct (state s); try done; destruct Hs; congruence. }
  destruct (inv_up s Hi Hup) as (a' & Hsel' & Ha). rewrite Hsel in Hsel'. injection Hsel' as <-.
  destruct (HasTuple_spec s tuple a Hsel Ha) as (r & -> & Hr). cbn [mbind res_bind].
  destruct r as [b|]; cbn [negb]; [|by exists s, []]. destruct Hr as (x & Hx & _).
  apply list_elem_of_fmap_2 with (f := fst) in Hx.
  rewrite (bool_decide_eq_false_2 (Some a = None)) by done. cbn [negb ms_assert mbind res_bind].
  destruct (follow_selected s b) as [Hv Hset]. destruct (SetSelectedTuple s b) as [s2 sel]. cbn [fst snd] in *. subst s2.
  eexists _, _. split; [done|]. split; [|done]. split; [apply Hi|]. cbn. destruct (state s); try done; by exists b.
Qed.

Lemma RestartIce_performs s u p : inv s -> u <> [] -> usernameFragment s <> [] -> performs s (Ok (RestartIce s u p)).
Proof.
  intros Hi Hu Hs. unfold RestartIce. eexists _, _. split; [done|]. split; [by split; apply Hi|].
  unfold follow, view_of. rewrite fold_left_app. cbn -[gmultiset_disj_union]. unfold fragments.
  rewrite (bool_decide_eq_false_2 (usernameFragment s = [])) by done.
  case_bool_decide; cbn -[gmultiset_disj_union]; f_equal; multiset_solver.
Qed.

(** The credentials: a username fragment, and either none of the old ones or both. *)
Definition creds (s : State) : list Z * list Z * list Z * list Z :=
  (usernameFragment s, password s, oldUsernameFragment s, oldPassword s).

Definition creds_ok (s : State) : Prop :=
  usernameFragment s <> [] /\ (oldUsernameFragment s = [] -> oldPassword s = []).

Lemma creds_ok_eq s s' : creds s' = creds s -> creds_ok s -> creds_ok s'.
Proof. intros [= H1 _ H2 H3] [Hu Ho]. split; [congruence|]. rewrite H2, H3. done. Qed.

Lemma SetSelectedTuple_creds s a s' ev : SetSelectedTuple s a = (s', ev) -> creds s' = creds s.
Proof. unfold SetSelectedTuple. case_bool_decide; by intros [= <- _]. Qed.

Lemma AddTuple_creds s tuple s' ev a : AddTuple s tuple = Ok (s', ev, a) -> creds s' = creds s.
Proof.
  unfold AddTuple. destruct (_ <? _)%nat; [destruct (oldest_other _ _) as [[r x]|]; [|discriminate]|]; by intros [= <- _ _].
Qed.

Lemma find_or_add_creds s tuple s' ev a : find_or_add s tuple = Ok (s', ev, a) -> creds s' = creds s.
Proof.
  unfold find_or_add. intros H. apply res_bind_ok in H as ([b|] & _ & H); [by injection H as <- _ _|].
  by apply AddTuple_creds in H.
Qed.

Lemma update_nomination_creds s h n : creds (update_nomination s h n) = creds s.
Proof. unfold update_nomination. by destruct (_ && _). Qed.

Lemma HandleTuple_creds s tuple useCandidate hasNomination nomination s' ev :
  HandleTuple s tuple useCandidate hasNomination nomination = Ok (s', ev) -> creds s' = creds s.
Proof.
  unfold HandleTuple, handle_first, handle_next. intros H.
  destruct (state s);
    (apply res_bind_ok in H as (? & _ & H); apply res_bind_ok in H as (? & _ & H);
     apply res_bind_ok in H as ([[s1 added] a] & Hadd & H);
     (apply AddTuple_creds in Hadd || apply find_or_add_creds in Hadd); rewrite <- Hadd; clear Hadd;
     destruct (SetSelectedTuple s1 a) as [s2 sel] eqn:Es; apply SetSelectedTuple_creds in Es;
     destruct (negb useCandidate && negb hasNomination); [|destruct (accepts s1 hasNomination nomination)];
     injection H as <- _; try done; rewrite update_nomination_creds; done).
Qed.

Lemma RemoveTuple_creds s tuple : creds (fst (RemoveTuple s tuple)) = creds s.
Proof.
  unfold RemoveTuple. destruct (List.find _ _) as [[r x]|]; [|done]. case_bool_decide; [|done].
  cbn [set_selectedTuple tuples set_tuples]. destruct (erase (tuples s) r) as [|[b y] l]; [done|].
  destruct (SetSelectedTuple _ b) as [s2 sel] eqn:Es. by apply SetSelectedTuple_creds in Es.
Qed.

Lemma media_received_creds s tuple s' ev : media_received s tuple = Ok (s', ev) -> creds s' = creds s.
Proof.
  unfold media_received, ForceSelectedTuple. intros H. apply res_bind_ok in H as ([] & _ & H); cbn [negb] in H.
  - apply res_bind_ok in H as (? & _ & H). apply res_bind_ok in H as ([b|] & _ & H); [|discriminate H].
    injection H as H. by apply SetSelectedTuple_creds in H.
  - by injection H as <- _.
Qed.

(** ** Answers to STUN packets *)

Section Stun.

Context (GetHmacSha1 : list Z -> list Z -> list Z).
(** HMAC-SHA1 gives 20 bytes (RFC 2104). *)
Context (hmac_length : forall k d, zlen (GetHmacSha1 k d) = 20).

(** The response [r] to [p], with its class, error code and password. *)
Definition responds (r p : StunPacket.t) (c : StunPacket.Class) (code : Z) (pwd : list Z) : Prop :=
  StunPacket.klass r = c /\ StunPacket.method r = StunPacket.method p /\
  StunPacket.transactionId r = StunPacket.transactionId p /\
  StunPacket.errorCode (StunPacket.attrs r) = code /\ StunPacket.password r = pwd.

Lemma Serialize_response r buffer : message_ok r -> zlen buffer = StunSerializeBufferSize ->
  exists W R, StunPacket.Serialize GetHmacSha1 r buffer = Ok (serialized r (message_bytes GetHmacSha1 r W ++ R)).
Proof.
  intros Hr Hb. destruct (Serialize_bytes GetHmacSha1 hmac_length r buffer Hr) as (W & R & _ & _ & _ & _ & E); [|by exists W, R].
  rewrite serialized_size_sum, Hb. pose proof (body_size_bounds r Hr). unfold StunSerializeBufferSize.
  destruct (StunPacket.adds_integrity r); lia.
Qed.

Context (s : State) (p : StunPacket.t) (tuple : TransportTuple.t) (buffer : list Z).
Context (Htid : zlen (StunPacket.transactionId p) = 12).
Context (Haddr : sockaddr_ok (TransportTuple.remoteAddress tuple)).
Context (Hbuffer : zlen buffer = StunSerializeBufferSize).

Lemma reply_error_spec s1 code : StunPacket.klass p = StunPacket.REQUEST -> 0 <= code < 25600 ->
  exists r, reply_error GetHmacSha1 s1 p code tuple buffer = Ok (s1, [SendStunPacket r tuple]) /\
            responds r p StunPacket.ERROR_RESPONSE code [].
Proof.
  intros Hk Hc. unfold reply_error, StunPacket.CreateErrorResponse. rewrite Hk.
  rewrite bool_decide_eq_true_2 by done. cbn [ms_assert mbind res_bind mret res_ret].
  set (r := StunPacket.set_attrs _ _). destruct (Serialize_response r buffer) as (W & R & E); [|done|].
  { by split. }
  rewrite E. eexists. split; [done|]. by split.
Qed.

(** A request that passed the authentication. *)
Lemma process_request_spec s1 : StunPacket.klass p = StunPacket.REQUEST ->
  let a := StunPacket.attrs p in
  let handled := HandleTuple s1 tuple (StunPacket.hasUseCandidate a) (StunPacket.hasNomination a)
                   (if StunPacket.hasNomination a then StunPacket.nomination a else 0) in
  (StunPacket.iceControlled a <> 0 /\
   exists r, process_request GetHmacSha1 s1 p tuple buffer = Ok (s1, [SendStunPacket r tuple]) /\
             responds r p StunPacket.ERROR_RESPONSE 487 []) \/
  (StunPacket.iceControlled a = 0 /\
   exists r, process_request GetHmacSha1 s1 p tuple buffer =
               ('(s2, ev) ← handled; mret (s2, SendStunPacket r tuple :: ev)) /\
             responds r p StunPacket.SUCCESS_RESPONSE 0
               (if bool_decide (oldPassword s1 = []) then password s1 else oldPassword s1) /\
             StunPacket.xorMappedAddress r = Some (TransportTuple.remoteAddress tuple)).
Proof.
  intros Hk a handled. unfold process_request. fold a.
  destruct (Z.eqb_spec (StunPacket.iceControlled a) 0) as [E|E]; cbn [negb].
  - right. split; [done|]. unfold StunPacket.CreateSuccessResponse. rewrite Hk.
    rewrite (bool_decide_eq_true_2 (StunPacket.REQUEST = StunPacket.REQUEST)) by done.
    cbn [ms_assert mbind res_bind mret res_ret].
    set (r := StunPacket.Authenticate _ _). destruct (Serialize_response r buffer) as (W & R & Er); [|done|].
    { by split. }
    rewrite Er. cbn [mbind res_bind]. eexists. split; [done|]. by split.
  - left. split; [done|]. by apply reply_error_spec.
Qed.

Definition authentic (u pwd : list Z) : Prop := StunPacket.CheckAuthentication GetHmacSha1 p u pwd = Ok (StunPacket.OK, p).

(** The credentials the request was authenticated with, the server after that, and what the
    listener is told: the first request with the new credentials ends the old ones. *)
Inductive admitted : list Z -> State -> list event -> Prop :=
| admitted_current :
    authentic (usernameFragment s) (password s) -> has_old s = false -> admitted (password s) s []
| admitted_renewed :
    authentic (usernameFragment s) (password s) -> has_old s = true ->
    admitted (password s) (set_credentials s (usernameFragment s) (password s) [] [])
      [LocalUsernameFragmentRemoved (oldUsernameFragment s)]
| admitted_old :
    authentic (oldUsernameFragment s) (oldPassword s) -> has_old s = true -> admitted (oldPassword s) s [].

(** What [ProcessStunPacket] does with the packet. *)
Inductive outcome : State -> list event -> Prop :=
| outcome_ignored : StunPacket.klass p <> StunPacket.REQUEST -> outcome s []
| outcome_rejected r code :
    StunPacket.klass p = StunPacket.REQUEST -> responds r p StunPacket.ERROR_RESPONSE code [] ->
    outcome s [SendStunPacket r tuple]
| outcome_conflict pwd s1 pre r :
    StunPacket.klass p = StunPacket.REQUEST -> admitted pwd s1 pre ->
    responds r p StunPacket.ERROR_RESPONSE 487 [] -> outcome s1 (pre ++ [SendStunPacket r tuple])
| outcome_handled pwd s1 pre r s2 ev :
    StunPacket.klass p = StunPacket.REQUEST -> admitted pwd s1 pre ->
    responds r p StunPacket.SUCCESS_RESPONSE 0 pwd ->
    StunPacket.xorMappedAddress r = Some (TransportTuple.remoteAddress tuple) ->
    HandleTuple s1 tuple (StunPacket.hasUseCandidate (StunPacket.attrs p)) (StunPacket.hasNomination (StunPacket.attrs p))
      (if StunPacket.hasNomination (StunPacket.attrs p) then StunPacket.nomination (StunPacket.attrs p) else 0)
    = Ok (s2, ev) ->
    outcome s2 (pre ++ SendStunPacket r tuple :: ev).

Context (Hinv : inv s) (Hcreds : creds_ok s).
Context (Hauth : forall u pwd, exists r, StunPacket.CheckAuthentication GetHmacSha1 p u pwd = Ok (r, p)).
Context (Hfresh : is_up (state s) = false -> StunPacket.hasNomination (StunPacket.attrs p) = true ->
                  remoteNomination s < StunPacket.nomination (StunPacket.attrs p)).

Lemma admitted_inv pwd s1 pre : admitted pwd s1 pre -> inv s1 /\ state s1 = state s /\ remoteNomination s1 = remoteNomination s.
Proof. destruct Hinv. by destruct 1. Qed.

Lemma admitted_password pwd s1 pre : admitted pwd s1 pre ->
  (if bool_decide (oldPassword s1 = []) then password s1 else oldPassword s1) = pwd.
Proof.
  destruct Hcreds as [_ Ho]. unfold has_old. destruct 1 as [_ Hold|_ Hold|_ Hold]; cbn.
  - apply andb_false_iff in Hold. rewrite !negb_false_iff, !bool_decide_eq_true in Hold.
    rewrite bool_decide_eq_true_2; [done|tauto].
  - done.
  - apply andb_true_iff in Hold as [_ Hold]. rewrite negb_true_iff in Hold. by rewrite Hold.
Qed.

Lemma process_request_outcome pwd s1 pre : StunPacket.klass p = StunPacket.REQUEST -> admitted pwd s1 pre ->
  exists s' ev, process_request GetHmacSha1 s1 p tuple buffer = Ok (s', ev) /\ outcome s' (pre ++ ev).
Proof.
  intros Hk Ha. destruct (admitted_inv _ _ _ Ha) as (Hi1 & Hst & Hn).
  destruct (process_request_spec s1 Hk) as [(_ & r & -> & Hr)|(_ & r & -> & Hr & Hx)].
  { eexists _, _. split; [done|]. by eapply outcome_conflict. }
  destruct (HandleTuple_performs s1 tuple (StunPacket.hasUseCandidate (StunPacket.attrs p))
    (StunPacket.hasNomination (StunPacket.attrs p))
    (if StunPacket.hasNomination (StunPacket.attrs p) then StunPacket.nomination (StunPacket.attrs p) else 0) Hi1)
    as (s2 & ev & E & _ & _).
  { rewrite Hst, Hn. intros Hup Hh. rewrite Hh. by apply Hfresh. }
  rewrite E. eexists _, _. split; [done|]. eapply outcome_handled; try done.
  by rewrite (admitted_password _ _ _ Ha) in Hr.
Qed.

Lemma authenticate_request_outcome : StunPacket.klass p = StunPacket.REQUEST ->
  exists s' ev, authenticate_request GetHmacSha1 s p tuple buffer = Ok (s', ev) /\ outcome s' ev.
Proof.
  intros Hk. unfold authenticate_request. destruct (Hauth (usernameFragment s) (password s)) as [a Ha]. rewrite Ha.
  cbn [mbind res_bind]. destruct a.
  - destruct (has_old s) eqn:Ho.
    + destruct (process_request_outcome _ _ _ Hk (admitted_renewed Ha Ho)) as (s' & ev & -> & H).
      eexists _, _. split; [done|exact H].
    + destruct (process_request_outcome _ _ _ Hk (admitted_current Ha Ho)) as (s' & ev & -> & H).
      eexists _, _. split; [done|exact H].
  - destruct (has_old s) eqn:Ho.
    + destruct (Hauth (oldUsernameFragment s) (oldPassword s)) as [b Hb]. rewrite Hb. cbn [mbind res_bind]. destruct b.
      * destruct (process_request_outcome _ _ _ Hk (admitted_old Hb Ho)) as (s' & ev & -> & H).
        eexists _, _. split; [done|exact H].
      * destruct (reply_error_spec s 401 Hk) as (r & -> & Hr); [lia|]. eexists _, _. split; [done|by eapply outcome_rejected].
      * destruct (reply_error_spec s 401 Hk) as (r & -> & Hr); [lia|]. eexists _, _. split; [done|by eapply outcome_rejected].
    + destruct (reply_error_spec s 401 Hk) as (r & -> & Hr); [lia|]. eexists _, _. split; [done|by eapply outcome_rejected].
  - destruct (reply_error_spec s 400 Hk) as (r & -> & Hr); [lia|]. eexists _, _. split; [done|by eapply outcome_rejected].
Qed.

Lemma ProcessStunPacket_outcome :
  exists s' ev, ProcessStunPacket GetHmacSha1 s p tuple buffer = Ok (s', ev) /\ outcome s' ev.
Proof.
  unfold ProcessStunPacket. set (bad := if bool_decide _ then _ else _).
  assert (Hbad : exists s' ev, bad = Ok (s', ev) /\ outcome s' ev).
  { unfold bad. case_bool_decide as Hk.
    - destruct (reply_error_spec s 400 Hk) as (r & -> & Hr); [lia|]. eexists _, _. split; [done|by eapply outcome_rejected].
    - eexists _, _. split; [done|by apply outcome_ignored]. }
  destruct (negb (_ =? _)); [done|]. destruct (negb _ && negb _); [done|].
  destruct (StunPacket.klass p) eqn:Hk;
    [|eexists _, _; split; [done|]; apply outcome_ignored; by rewrite Hk..].
  destruct (_ || _ || _); [|by apply authenticate_request_outcome].
  destruct (reply_error_spec s 400 Hk) as (r & -> & Hr); [lia|]. eexists _, _. split; [done|by eapply outcome_rejected].
Qed.

Lemma outcome_performs s' ev : outcome s' ev -> inv s' /\ creds_ok s' /\ follow (view_of s) ev = view_of s'.
Proof.
  assert (Hadm : forall pwd s1 pre, admitted pwd s1 pre -> creds_ok s1 /\ follow (view_of s) pre = view_of s1).
  { destruct 1 as [_ Ho|_ Ho|_ Ho]; [done| |done]. split; [by split; [apply Hcreds|]|].
    unfold follow, view_of, fragments. cbn -[gmultiset_disj_union]. f_equal.
    apply andb_true_iff in Ho as [Ho _]. rewrite negb_true_iff in Ho. rewrite Ho. multiset_solver. }
  destruct 1 as [Hk|r code Hk Hr|pwd s1 pre r Hk Ha Hr|pwd s1 pre r s2 ev Hk Ha Hr Hx Hh]; [done|done| |].
  - destruct (Hadm _ _ _ Ha) as [Hc Hf]. destruct (admitted_inv _ _ _ Ha) as [Hi _].
    split_and!; [done|done|]. by rewrite follow_app, Hf.
  - destruct (Hadm _ _ _ Ha) as [Hc Hf]. destruct (admitted_inv _ _ _ Ha) as (Hi & Hst & Hn).
    pose proof (HandleTuple_creds _ _ _ _ _ _ _ Hh) as Hcr.
    destruct (HandleTuple_performs s1 tuple (StunPacket.hasUseCandidate (StunPacket.attrs p))
      (StunPacket.hasNomination (StunPacket.attrs p))
      (if StunPacket.hasNomination (StunPacket.attrs p) then StunPacket.nomination (StunPacket.attrs p) else 0) Hi)
      as (s2' & ev' & E & Hi2 & Hf2).
    { rewrite Hst, Hn. intros Hup Hh'. rewrite Hh'. by apply Hfresh. }
    rewrite Hh in E. injection E as <- <-.
    split_and!; [done|by eapply creds_ok_eq|]. rewrite follow_app, Hf. exact Hf2.
Qed.

End Stun.

(** The responses sent, with the tuples they are sent to. *)
Definition responses (ev : list event) : list (StunPacket.t * TransportTuple.t) :=
  omap (fun e => match e with SendStunPacket r x => Some (r, x) | _ => None end) ev.

Lemma responses_app l k : responses (l ++ k) = responses l ++ responses k.
Proof. apply omap_app. Qed.

Lemma SetSelectedTuple_silent s a s' ev : SetSelectedTuple s a = (s', ev) -> responses ev = [].
Proof. unfold SetSelectedTuple. case_bool_decide; by intros [= _ <-]. Qed.

Lemma AddTuple_silent s tuple s' ev a : AddTuple s tuple = Ok (s', ev, a) -> responses ev = [].
Proof.
  unfold AddTuple. destruct (_ <? _)%nat; [destruct (oldest_other _ _) as [[r x]|]; [|discriminate]|]; by intros [= _ <- _].
Qed.

Lemma find_or_add_silent s tuple s' ev a : find_or_add s tuple = Ok (s', ev, a) -> responses ev = [].
Proof.
  unfold find_or_add. intros H. apply res_bind_ok in H as ([b|] & _ & H); [by injection H as _ <- _|].
  by apply AddTuple_silent in H.
Qed.

Lemma HandleTuple_silent s tuple useCandidate hasNomination nomination s' ev :
  HandleTuple s tuple useCandidate hasNomination nomination = Ok (s', ev) -> responses ev = [].
Proof.
  unfold HandleTuple, handle_first, handle_next. intros H.
  destruct (state s);
    (apply res_bind_ok in H as (? & _ & H); apply res_bind_ok in H as (? & _ & H);
     apply res_bind_ok in H as ([[s1 added] a] & Hadd & H);
     (apply AddTuple_silent in Hadd || apply find_or_add_silent in Hadd);
     destruct (SetSelectedTuple s1 a) as [s2 sel] eqn:Es; apply SetSelectedTuple_silent in Es;
     destruct (negb useCandidate && negb hasNomination); [|destruct (accepts s1 hasNomination nomination)];
     injection H as _ <-; rewrite ?responses_app, ?Hadd, ?Es; try done; by case_bool_decide).
Qed.

(** The STUN datagram of a step, and the nomination it brings. *)
Definition fresh (s : State) (d : list Z) : Prop :=
  forall p, StunPacket.Parse d = Ok (Some p) -> is_up (state s) = false ->
    StunPacket.hasNomination (StunPacket.attrs p) = true ->
    remoteNomination s < StunPacket.nomination (StunPacket.attrs p).

Section Answers.

Context (GetHmacSha1 : list Z -> list Z -> list Z).
(** HMAC-SHA1 gives 20 bytes (RFC 2104). *)
Context (hmac_length : forall k d, zlen (GetHmacSha1 k d) = 20).

Lemma parsed_tid_len d p : parsed d p -> zlen (StunPacket.transactionId p) = 12.
Proof.
  intros Hp. rewrite (parsed_tid _ _ Hp). pose proof (parsed_min _ _ Hp). rewrite zlen_take, zlen_drop. lia.
Qed.

Lemma process_datagram s d p tuple buffer :
  inv s -> creds_ok s -> bytes_ok d -> zlen d <= 65535 -> StunPacket.Parse d = Ok (Some p) ->
  sockaddr_ok (TransportTuple.remoteAddress tuple) -> zlen buffer = StunSerializeBufferSize -> fresh s d ->
  exists s' ev, ProcessStunPacket GetHmacSha1 s p tuple buffer = Ok (s', ev) /\
                outcome GetHmacSha1 s p tuple s' ev.
Proof.
  intros Hi Hc Hb Hd HP Ha Hbuf Hf. destruct (Parse_parsed d Hb Hd) as (r & E & Hp). rewrite HP in E. injection E as <-.
  specialize (Hp p eq_refl). apply ProcessStunPacket_outcome; try done.
  - by eapply parsed_tid_len.
  - intros. by eapply CheckAuthentication_returns.
  - by apply Hf.
Qed.

(** C34: Every STUN binding request is answered once, to the tuple it came from and with its
    transaction id; other STUN messages change nothing.  A success response carries the
    remote address and is signed with the password, the current or the old one, that
    authenticated the request; unless a success is answered, the tuples, the selected tuple and
    the state of the server stay as they are. *)
Theorem ice_request_answered s d p tuple buffer :
  inv s -> creds_ok s -> bytes_ok d -> zlen d <= 65535 -> StunPacket.Parse d = Ok (Some p) ->
  sockaddr_ok (TransportTuple.remoteAddress tuple) -> zlen buffer = StunSerializeBufferSize -> fresh s d ->
  exists s' ev, ProcessStunPacket GetHmacSha1 s p tuple buffer = Ok (s', ev) /\
    (StunPacket.klass p <> StunPacket.REQUEST -> s' = s /\ ev = []) /\
    (StunPacket.klass p = StunPacket.REQUEST -> exists r,
       responses ev = [(r, tuple)] /\ StunPacket.transactionId r = StunPacket.transactionId p /\
       (StunPacket.klass r = StunPacket.ERROR_RESPONSE /\
        tuples s' = tuples s /\ selectedTuple s' = selectedTuple s /\ state s' = state s \/
        StunPacket.klass r = StunPacket.SUCCESS_RESPONSE /\
        StunPacket.xorMappedAddress r = Some (TransportTuple.remoteAddress tuple) /\
        exists u, StunPacket.CheckAuthentication GetHmacSha1 p u (StunPacket.password r) = Ok (StunPacket.OK, p) /\
          (u = usernameFragment s /\ StunPacket.password r = password s \/
           u = oldUsernameFragment s /\ StunPacket.password r = oldPassword s))).
Proof.
  intros Hi Hc Hb Hd HP Ha Hbuf Hf.
  destruct (process_datagram s d p tuple buffer Hi Hc Hb Hd HP Ha Hbuf Hf) as (s' & ev & E & Ho).
  exists s', ev. split; [done|]. destruct Ho as [Hk|r code Hk Hr|pwd s1 pre r Hk Hadm Hr|pwd s1 pre r s2 ev Hk Hadm Hr Hx Hh].
  - done.
  - split; [done|]. intros _. exists r. destruct Hr as (H1 & _ & H3 & _). split_and!; [done|done|by left].
  - split; [done|]. intros _. exists r. destruct Hr as (H1 & _ & H3 & _).
    split_and!; [rewrite responses_app; by destruct Hadm|done|left]. by destruct Hadm.
  - split; [done|]. intros _. exists r. destruct Hr as (H1 & _ & H3 & _ & H5).
    split_and!; [|done|right; split_and!; [done|done|]].
    + rewrite responses_app. cbn. apply HandleTuple_silent in Hh. unfold responses in Hh |- *. rewrite Hh. by destruct Hadm.
    + rewrite H5. destruct Hadm as [Hau _|Hau _|Hau _]; eexists; (split; [exact Hau|]); auto.
Qed.

End Answers.

(** ** Histories *)

(** What happens to a server: a STUN datagram, another packet, a closed connection, an ICE
    restart. *)
Inductive input :=
| Stun (d : list Z) (tuple : TransportTuple.t) (buffer : list Z)
| Media (tuple : TransportTuple.t)
| Closed (tuple : TransportTuple.t)
| Restart (u p : list Z).

Definition input_ok (i : input) : Prop :=
  match i with
  | Stun d tuple buffer =>
      bytes_ok d /\ zlen d <= 65535 /\ sockaddr_ok (TransportTuple.remoteAddress tuple) /\
      zlen buffer = StunSerializeBufferSize
  | Media _ | Closed _ => True
  | Restart u _ => u <> []
  end.

Section Histories.

Context (GetHmacSha1 : list Z -> list Z -> list Z).
(** HMAC-SHA1 gives 20 bytes (RFC 2104). *)
Context (hmac_length : forall k d, zlen (GetHmacSha1 k d) = 20).

Definition step (s : State) (i : input) : res (State * list event) :=
  match i with
  | Stun d tuple buffer =>
      p ← StunPacket.Parse d;
      match p with
      | None => mret (s, [])
      | Some p => ProcessStunPacket GetHmacSha1 s p tuple buffer
      end
  | Media tuple => media_received s tuple
  | Closed tuple => mret (RemoveTuple s tuple)
  | Restart u p => mret (RestartIce s u p)
  end.

Fixpoint run (s : State) (l : list input) : res (State * list event) :=
  match l with
  | [] => mret (s, [])
  | i :: l' =>
      '(s1, ev1) ← step s i;
      '(s2, ev2) ← run s1 l';
      mret (s2, ev1 ++ ev2)
  end.

(** The first nomination after the start, or after a disconnection, is higher than the
    last one accepted. *)
Fixpoint nominations_fresh (s : State) (l : list input) : Prop :=
  match l with
  | [] => True
  | i :: l' =>
      match i with Stun d _ _ => fresh s d | _ => True end /\
      forall s1 ev, step s i = Ok (s1, ev) -> nominations_fresh s1 l'
  end.

Lemma step_performs s i : inv s -> creds_ok s -> input_ok i ->
  match i with Stun d _ _ => fresh s d | _ => True end ->
  exists s1 ev, step s i = Ok (s1, ev) /\ inv s1 /\ creds_ok s1 /\ follow (view_of s) ev = view_of s1.
Proof.
  intros Hi Hc Hok Hf. destruct i as [d tuple buffer|tuple|tuple|u p]; cbn [step].
  - destruct Hok as (Hb & Hd & Ha & Hbuf). destruct (Parse_parsed d Hb Hd) as ([p|] & E & Hp).
    + rewrite E. cbn [mbind res_bind].
      destruct (process_datagram GetHmacSha1 hmac_length s d p tuple buffer Hi Hc Hb Hd E Ha Hbuf Hf) as (s1 & ev & Es & Ho).
      exists s1, ev. split; [done|].
      eapply outcome_performs; try done; eauto using parsed_tid_len.
      intros. by eapply CheckAuthentication_returns; [| |apply Hp].
    + rewrite E. by exists s, [].
  - destruct (media_received_performs s tuple Hi) as (s1 & ev & E & Hi1 & Hv). exists s1, ev.
    split_and!; [done|done| |done]. eapply creds_ok_eq; [by eapply media_received_creds|done].
  - destruct (RemoveTuple_performs s tuple Hi) as (s1 & ev & E & Hi1 & Hv). exists s1, ev.
    split_and!; [done|done| |done]. eapply creds_ok_eq; [|done]. injection E as E. rewrite <- (RemoveTuple_creds s tuple), E. done.
  - destruct (RestartIce_performs s u p Hi Hok) as (s1 & ev & E & Hi1 & Hv); [apply Hc|]. exists s1, ev.
    split_and!; [done|done| |done]. injection E as <- _. split; [done|]. cbn. intros H. by destruct Hc as [Hu _].
Qed.

Lemma run_performs l : forall s, inv s -> creds_ok s -> Forall input_ok l -> nominations_fresh s l ->
  exists s1 ev, run s l = Ok (s1, ev) /\ inv s1 /\ creds_ok s1 /\ follow (view_of s) ev = view_of s1.
Proof.
  induction l as [|i l IH]; intros s Hi Hc Hl Hf; cbn [run]; [by exists s, []|].
  apply list.Forall_cons in Hl as [Hok Hl]. destruct Hf as [Hf Hfs].
  destruct (step_performs s i Hi Hc Hok Hf) as (s1 & ev1 & E1 & Hi1 & Hc1 & Hv1). rewrite E1. cbn [mbind res_bind].
  destruct (IH s1 Hi1 Hc1 Hl (Hfs _ _ E1)) as (s2 & ev2 & E2 & Hi2 & Hc2 & Hv2). rewrite E2. cbn [mbind res_bind].
  eexists _, _. split_and!; [done|done|done|]. by rewrite follow_app, Hv1.
Qed.

Lemma make_inv u p : u <> [] -> inv (fst (make u p)) /\ creds_ok (fst (make u p)) /\
  follow empty_view (snd (make u p)) = view_of (fst (make u p)).
Proof.
  intros Hu. split_and!; [|by split|].
  - split; [|done]. split; [apply NoDup_nil_2|constructor|apply NoDup_nil_2|cbn; unfold MaxTuples; lia].
  - unfold follow, view_of, fragments, empty_view. cbn -[gmultiset_disj_union]. f_equal.
Qed.

(** C32: No history of STUN datagrams, media packets, closed connections and ICE restarts makes
    the server abort or use a removed tuple, as long as a first nomination is higher than the
    last one: afterwards there are at most 8 tuples, no two of them equal, the selected tuple
    is one of them exactly in the states 'connected' and 'completed', and there is none in the
    other states. *)
Theorem ice_history_safe u pwd l :
  u <> [] -> Forall input_ok l -> nominations_fresh (fst (make u pwd)) l ->
  exists s ev, run (fst (make u pwd)) l = Ok (s, ev) /\
    (length (tuples s) <= 8)%nat /\ NoDup (tuples s).*1 /\ NoDup (map hash_of (tuples s)) /\
    match state s with
    | CONNECTED | COMPLETED => exists a, selectedTuple s = Some a /\ a ∈ (tuples s).*1
    | NEW | DISCONNECTED => tuples s = [] /\ selectedTuple s = None
    end.
Proof.
  intros Hu Hl Hf. destruct (make_inv u pwd Hu) as (Hi & Hc & _).
  destruct (run_performs l _ Hi Hc Hl Hf) as (s & ev & E & [[H1 _ H3 H4] H5] & _ & _).
  exists s, ev. split_and!; done.
Qed.

Lemma follow_removed l : forall v, v_tuples (follow v (map (fun '(a, x) => TupleRemoved a x) l)) =
                              foldr (fun p m => delete p.1 m) (v_tuples v) (rev l) /\
                              v_fragments (follow v (map (fun '(a, x) => TupleRemoved a x) l)) = v_fragments v.
Proof.
  induction l as [|[a x] l IH]; intros v; [done|]. cbn [map follow fold_left]. cbn [rev].
  destruct (IH (notify v (TupleRemoved a x))) as [H1 H2]. unfold follow in H1, H2. rewrite H1, H2.
  split; [|done]. by rewrite foldr_app.
Qed.

Lemma delete_all (l : tuple_list) (m : gmap positive TransportTuple.t) :
  (forall a, a ∉ l.*1 -> m !! a = None) -> foldr (fun p m => delete p.1 m) m l = ∅.
Proof.
  revert m. induction l as [|[a x] l IH] using rev_ind; intros m Hm.
  - apply map_eq. intros a. rewrite lookup_empty. apply Hm, not_elem_of_nil.
  - rewrite foldr_app. apply IH. intros b Hb. cbn. destruct (decide (b = a)) as [->|Hne]; [apply lookup_delete_eq|].
    rewrite lookup_delete_ne by done. apply Hm. rewrite fmap_app, elem_of_app. intros [H|H]; [done|].
    cbn in H. by apply list_elem_of_singleton in H.
Qed.

(** C33: A listener that follows the notifications, from the constructor on, knows the stored
    tuples, the selected one, whether the server is connected and the username fragments it
    answers to; after those of the destructor it has no tuple and no username fragment left. *)
Theorem ice_listener_view u pwd l :
  u <> [] -> Forall input_ok l -> nominations_fresh (fst (make u pwd)) l ->
  exists s ev, run (fst (make u pwd)) l = Ok (s, ev) /\
    follow empty_view (snd (make u pwd) ++ ev) = view_of s /\
    v_tuples (follow (view_of s) (destroy s)) = ∅ /\ v_fragments (follow (view_of s) (destroy s)) = ∅.
Proof.
  intros Hu Hl Hf. destruct (make_inv u pwd Hu) as (Hi & Hc & Hv0).
  destruct (run_performs l _ Hi Hc Hl Hf) as (s & ev & E & _ & _ & Hv).
  exists s, ev. split_and!; [done|by rewrite follow_app, Hv0|..]; unfold destroy; rewrite !follow_app.
  - destruct (follow_removed (tuples s) (follow (follow (view_of s) [LocalUsernameFragmentRemoved (usernameFragment s)])
      (if bool_decide (oldUsernameFragment s = []) then [] else [LocalUsernameFragmentRemoved (oldUsernameFragment s)])))
      as [-> _].
    apply delete_all. intros a Ha.
    assert (Ha' : a ∉ (tuples s).*1).
    { intros H. apply Ha. apply list_elem_of_fmap in H as (q & -> & Hq). apply list_elem_of_fmap_2, list_elem_of_In, in_rev.
      rewrite rev_involutive. by apply list_elem_of_In. }
    case_bool_decide; cbn; by apply not_elem_of_list_to_map.
  - match goal with |- v_fragments (follow ?v _) = _ => destruct (follow_removed (tuples s) v) as [_ ->] end.
    unfold follow, view_of, fragments. case_bool_decide; cbn -[gmultiset_disj_union]; multiset_solver.
Qed.

End Histories.

(** Datagrams without a nomination are always fresh. *)
Definition no_nomination (i : input) : bool :=
  match i with
  | Stun d _ _ =>
      match StunPacket.Parse d with
      | Ok (Some p) => negb (StunPacket.hasNomination (StunPacket.attrs p))
      | _ => true
      end
  | _ => true
  end.

Lemma no_nomination_fresh s i : no_nomination i = true -> match i with Stun d _ _ => fresh s d | _ => True end.
Proof.
  destruct i as [d tuple buffer| | |]; cbn; [|done..]. intros H p E _ Hn. rewrite E, Hn in H. discriminate H.
Qed.

Lemma no_nominations_fresh h l : forall s, forallb no_nomination l = true -> nominations_fresh h s l.
Proof.
  induction l as [|i l IH]; intros s H; [done|]. cbn in H. apply andb_true_iff in H as [Hi Hl].
  split; [by apply no_nomination_fresh|]. intros. by apply IH.
Qed.

(** The sample request as a datagram, two remote addresses, and a history. *)
Definition sample_binding : list Z :=
  match StunPacket.Serialize sample_hmac sample_request (replicate 128 0) with
  | Ok p => take (Z.to_nat (StunPacket.size p)) (StunPacket.data p)
  | Fault _ => []
  end.

Definition sample_tuple (port : Z) : TransportTuple.t :=
  TransportTuple.make TransportTuple.UDP (StunPacket.AF_INET [0; port] [192; 0; 2; 1]).

Definition sample_buffer : list Z := replicate (Z.to_nat 65536) 0.

Definition sample_history : list input :=
  [Stun sample_binding (sample_tuple 1) sample_buffer; Media (sample_tuple 2);
   Stun sample_binding (sample_tuple 2) sample_buffer; Restart [120] [121]; Closed (sample_tuple 2);
   Closed (sample_tuple 1)].

Lemma sample_history_ok : Forall input_ok sample_history.
Proof.
  assert (Hb : zlen sample_buffer = StunSerializeBufferSize) by (apply (zlen_replicate 65536); lia).
  assert (Hd : bytes_ok sample_binding) by (apply (bool_decide_unpack _); vm_compute; exact I).
  assert (Hz : zlen sample_binding <= 65535) by (vm_compute; discriminate).
  assert (Hs : forall port, input_ok (Stun sample_binding (sample_tuple port) sample_buffer))
    by (intros port; exact (conj Hd (conj Hz (conj (conj eq_refl eq_refl) Hb)))).
  unfold sample_history.
  repeat (apply list.Forall_cons; split; [solve [apply Hs | exact I | discriminate]|]). constructor.
Qed.

Lemma sample_history_fresh s : nominations_fresh sample_hmac s sample_history.
Proof. apply no_nominations_fresh. vm_compute. reflexivity. Qed.

Lemma ice_request_answered_witness :
  exists p s' ev r, StunPacket.Parse sample_binding = Ok (Some p) /\
    ProcessStunPacket sample_hmac (fst (make [115; 114; 118] [112; 119])) p (sample_tuple 1) sample_buffer = Ok (s', ev) /\
    responses ev = [(r, sample_tuple 1)].
Proof.
  destruct (StunPacket.Parse sample_binding) as [[p|]|] eqn:E; [|vm_compute in E; discriminate E..].
  pose proof sample_history_ok as H. apply list.Forall_cons in H as [(Hb & Hd & Ha & Hbuf) _].
  destruct (make_inv [115; 114; 118] [112; 119]) as (Hi & Hc & _); [discriminate|].
  destruct (ice_request_answered sample_hmac sample_hmac_length (fst (make [115; 114; 118] [112; 119])) sample_binding p
    (sample_tuple 1) sample_buffer Hi Hc Hb Hd E Ha Hbuf) as (s' & ev & Es & _ & Hr).
  - apply (no_nomination_fresh _ (Stun sample_binding (sample_tuple 1) sample_buffer)). vm_compute. reflexivity.
  - destruct Hr as (r & Hr & _); [vm_compute in E; injection E as <-; reflexivity|]. 
    exists p, s', ev, r. split; [reflexivity|]. split; [exact Es|exact Hr].
Defined.

Lemma ice_history_safe_witness :
  exists s ev, run sample_hmac (fst (make [115; 114; 118] [112; 119])) sample_history = Ok (s, ev) /\
               (length (tuples s) <= 8)%nat.
Proof.
  destruct (ice_history_safe sample_hmac sample_hmac_length [115; 114; 118] [112; 119] sample_history)
    as (s & ev & E & H & _); [discriminate|apply sample_history_ok|apply sample_history_fresh|].
  exists s, ev. split; [exact E|exact H].
Defined.

Lemma ice_listener_view_witness :
  exists s ev, run sample_hmac (fst (make [115; 114; 118] [112; 119])) sample_history = Ok (s, ev) /\
    follow empty_view (snd (make [115; 114; 118] [112; 119]) ++ ev) = view_of s.
Proof.
  destruct (ice_listener_view sample_hmac sample_hmac_length [115; 114; 118] [112; 119] sample_history)
    as (s & ev & E & H & _); [discriminate|apply sample_history_ok|apply sample_history_fresh|].
  exists s, ev. split; [exact E|exact H].
Defined.

(** The states the history goes through. *)
Example sample_history_states :
  match run sample_hmac (fst (make [115; 114; 118] [112; 119])) sample_history with
  | Ok (s, ev) => (state s, tuples s, omap (fun e => match e with
                     | SendStunPacket r _ => Some (StunPacket.class_code (StunPacket.klass r)) | SelectedTuple a => Some (Z.pos a)
                     | Completed => Some 100 | Disconnected => Some 200 | _ => None end) ev)
                  = (DISCONNECTED, [], [2; 1; 100; 2; 2; 1; 200])
  | Fault _ => False
  end.
Proof. vm_compute. reflexivity. Qed.

(** ** Stale nominations *)

(** A first tuple whose request carries a nomination that is not higher than the last one is
    stored but not selected, and the state stays 'new' or 'disconnected': the next
    authenticated request, from any tuple, fails the assertion that there are no tuples and
    aborts the worker. *)
Theorem stale_nomination_aborts s x useCandidate nomination :
  inv s -> is_up (state s) = false -> nomination <= remoteNomination s ->
  exists s' ev, HandleTuple s x useCandidate true nomination = Ok (s', ev) /\
    state s' = state s /\ selectedTuple s' = None /\ (tuples s').*2 = [x] /\
    forall y useCandidate' hasNomination' nomination',
      HandleTuple s' y useCandidate' hasNomination' nomination' = Fault AssertFailed.
Proof.
  intros [Hl Hs] Hup Hn. assert (Ht : tuples s = [] /\ selectedTuple s = None) by (destruct (state s); done).
  destruct Ht as [Ht Hsel].
  assert (E : HandleTuple s x useCandidate true nomination =
              Ok (set_tuples s [(next s, x)] (Pos.succ (next s)), [TupleAdded (next s) x])).
  { assert (Hf : handle_first s x useCandidate true nomination =
                 Ok (set_tuples s [(next s, x)] (Pos.succ (next s)), [TupleAdded (next s) x])).
    { unfold handle_first, AddTuple. rewrite Hsel, Ht. cbn. rewrite andb_false_r. unfold accepts. cbn.
      destruct (Z.ltb_spec (remoteNomination s) nomination); [lia|done]. }
    unfold HandleTuple. by destruct (state s). }
  rewrite E. eexists _, _. split; [done|]. cbn [state set_tuples selectedTuple tuples]. split_and!; [done|done|done|].
  intros. unfold HandleTuple, handle_first. cbn [state set_tuples tuples]. by destruct (state s).
Qed.

Lemma stale_nomination_aborts_witness :
  exists s' ev, HandleTuple (fst (make [115; 114; 118] [112; 119])) (sample_tuple 1) false true 0 = Ok (s', ev) /\
    HandleTuple s' (sample_tuple 1) false true 1 = Fault AssertFailed.
Proof.
  destruct (stale_nomination_aborts (fst (make [115; 114; 118] [112; 119])) (sample_tuple 1) false 0)
    as (s' & ev & E & _ & _ & _ & H); [apply make_inv; discriminate|reflexivity|vm_compute; discriminate|].
  exists s', ev. split; [exact E|apply H].
Defined.

(** The same on datagrams: two copies of a request with NOMINATION 0, the first one accepted
    with a success response. *)
Definition nomination_datagram : list Z :=
  let hd n := [0; 1] ++ Byte.be2 n ++ StunPacket.magicCookie ++ seqZ 1 12 in
  let W := tlv StunPacket.USERNAME [115; 114; 118; 58] [] ++ tlv StunPacket.PRIORITY [0; 0; 0; 1] [] ++
           tlv StunPacket.NOMINATION [0; 0; 0; 0] [] in
  let pre := hd 56 ++ W ++ tlv StunPacket.MESSAGE_INTEGRITY (sample_hmac [112; 119] (hd 48 ++ W)) [] in
  pre ++ tlv StunPacket.FINGERPRINT (Byte.be4 (Z.lxor (Crypto.GetCRC32 pre) 0x5354554E)) [].

Example stale_nomination_run :
  let stun := Stun nomination_datagram (sample_tuple 1) (replicate 128 0) in
  let s := fst (make [115; 114; 118] [112; 119]) in
  match run sample_hmac s [stun] with
  | Ok (s', ev) => state s' = NEW /\ map (fun p => StunPacket.klass (fst p)) (responses ev) = [StunPacket.SUCCESS_RESPONSE]
  | Fault _ => False
  end /\ run sample_hmac s [stun; stun] = Fault AssertFailed.
Proof. vm_compute. repeat split. Qed.

(** ** The hash of a tuple *)

(** Over IPv4 two tuples are equal for [Compare] exactly when they have the same protocol,
    address and port. *)
Lemma compare_ipv4 x y px py ax ay :
  bytes_ok px -> bytes_ok py -> bytes_ok ax -> bytes_ok ay ->
  zlen px = 2 -> zlen py = 2 -> zlen ax = 4 -> zlen ay = 4 ->
  TransportTuple.Compare (TransportTuple.make x (StunPacket.AF_INET px ax)) (TransportTuple.make y (StunPacket.AF_INET py ay)) = true
  <-> x = y /\ px = py /\ ax = ay.
Proof.
  intros Bpx Bpy Bax Bay Hpx Hpy Hax Hay.
  destruct (two_bytes px Hpx) as (p0 & p1 & ->), (two_bytes py Hpy) as (q0 & q1 & ->).
  destruct (four_bytes ax Hax) as (a0 & a1 & a2 & a3 & ->), (four_bytes ay Hay) as (b0 & b1 & b2 & b3 & ->).
  bytes_inv. unfold TransportTuple.Compare, TransportTuple.make, TransportTuple.SetHash. cbn [TransportTuple.hash TransportTuple.ntoh].
  rewrite Z.eqb_eq.
  assert (Hlor : forall p a t, 0 <= a < 4294967296 -> 0 <= t < 2 ->
    Z.lor (Z.lor (Z.shiftl p 48) (Z.shiftl a 16)) t = p * 2 ^ 48 + a * 65536 + t).
  { intros p a t Ha Ht. rewrite Z.lor_comm.
    replace (Z.lor (Z.shiftl p 48) (Z.shiftl a 16)) with (Z.shiftl (Z.lor a (Z.shiftl p 32)) 16)
      by (rewrite Z.shiftl_lor, Z.shiftl_shiftl by lia; apply Z.lor_comm).
    rewrite lor_shiftl_add by (pow2_consts; lia). rewrite lor_shiftl_add by (pow2_consts; lia). pow2_consts. lia. }
  rewrite !Hlor; [|unfold fits in *; pow2_consts; destruct x, y; lia..]. change (2 ^ 48) with 281474976710656.
  unfold fits in *. change (2 ^ 8) with 256 in *. split; [|by intros (-> & [= -> ->] & [= -> -> -> ->])].
  assert (Hsep : forall p q a b t u, 0 <= a < 4294967296 -> 0 <= b < 4294967296 -> 0 <= t < 2 -> 0 <= u < 2 ->
    p * 281474976710656 + a * 65536 + t = q * 281474976710656 + b * 65536 + u -> p = q /\ a = b /\ t = u) by (intros; lia).
  intros E. apply Hsep in E as (E1 & E2 & E3); [|destruct x, y; lia..].
  assert (x = y) by (destruct x, y; done || lia). assert (p0 = q0 /\ p1 = q1) as [-> ->] by lia.
  assert (a0 = b0 /\ a1 = b1 /\ a2 = b2 /\ a3 = b3) as (-> & -> & -> & ->) by lia. done.
Qed.
