(* ===== verification/Codecs.v ===== *)
(** * Codec payload descriptors

    Models [worker/src/RTC/Codecs] and [worker/include/RTC/Codecs]: the payload descriptors
    of VP8, VP9, H264, H264-SVC and Opus, how they are parsed, and how a consumer processes
    them against the layers it wants ([EncodingContext]).  A payload is the list of its
    bytes, so a read past its end is a fault. *)

From S2P Require Import Prelude Utils OrdSet SeqManager RtcpPacket RtpPacket.

Import RtpPacket (write).

(** ** Reading a descriptor *)

(** A step that may discard the payload. *)
Definition obind {A B} (m : res (option A)) (f : A -> res (option B)) : res (option B) :=
  x ← m; match x with Some x => f x | None => mret None end.

Declare Scope codec_scope.
Notation "' p ⇐ m ; k" := (obind m (fun p => k))
  (at level 20, p pattern, m at level 100, k at level 200, right associativity) : codec_scope.
#[local] Open Scope codec_scope.

(** [if (len < ++offset + 1) return nullptr; byte = data[offset];] *)
Definition next_byte (data : list Z) (offset : Z) : res (option (Z * Z)) :=
  if zlen data <? offset + 1 + 1 then mret None
  else byte ← read data (offset + 1); mret (Some (byte, offset + 1)).

Definition bit (byte k : Z) : Z := Z.land (Z.shiftr byte k) 1.

(** ** The layers a consumer wants *)

Module EncodingContext.

Record t := {
  spatialLayers : Z;
  temporalLayers : Z;
  ksvc : bool;
  targetSpatialLayer : Z;
  targetTemporalLayer : Z;
  currentSpatialLayer : Z;
  currentTemporalLayer : Z;
  ignoreDtx : bool;
}.

Definition make (spatial temporal : Z) (k : bool) : t :=
  {| spatialLayers := spatial; temporalLayers := temporal; ksvc := k; targetSpatialLayer := -1;
     targetTemporalLayer := -1; currentSpatialLayer := -1; currentTemporalLayer := -1; ignoreDtx := false |}.

Definition SetCurrentSpatialLayer (c : t) (v : Z) : t :=
  {| spatialLayers := spatialLayers c; temporalLayers := temporalLayers c; ksvc := ksvc c;
     targetSpatialLayer := targetSpatialLayer c; targetTemporalLayer := targetTemporalLayer c;
     currentSpatialLayer := v; currentTemporalLayer := currentTemporalLayer c; ignoreDtx := ignoreDtx c |}.
Definition SetCurrentTemporalLayer (c : t) (v : Z) : t :=
  {| spatialLayers := spatialLayers c; temporalLayers := temporalLayers c; ksvc := ksvc c;
     targetSpatialLayer := targetSpatialLayer c; targetTemporalLayer := targetTemporalLayer c;
     currentSpatialLayer := currentSpatialLayer c; currentTemporalLayer := v; ignoreDtx := ignoreDtx c |}.
Definition SetTargetSpatialLayer (c : t) (v : Z) : t :=
  {| spatialLayers := spatialLayers c; temporalLayers := temporalLayers c; ksvc := ksvc c;
     targetSpatialLayer := v; targetTemporalLayer := targetTemporalLayer c;
     currentSpatialLayer := currentSpatialLayer c; currentTemporalLayer := currentTemporalLayer c; ignoreDtx := ignoreDtx c |}.
Definition SetTargetTemporalLayer (c : t) (v : Z) : t :=
  {| spatialLayers := spatialLayers c; temporalLayers := temporalLayers c; ksvc := ksvc c;
     targetSpatialLayer := targetSpatialLayer c; targetTemporalLayer := v;
     currentSpatialLayer := currentSpatialLayer c; currentTemporalLayer := currentTemporalLayer c; ignoreDtx := ignoreDtx c |}.
Definition SetIgnoreDtx (c : t) (v : bool) : t :=
  {| spatialLayers := spatialLayers c; temporalLayers := temporalLayers c; ksvc := ksvc c;
     targetSpatialLayer := targetSpatialLayer c; targetTemporalLayer := targetTemporalLayer c;
     currentSpatialLayer := currentSpatialLayer c; currentTemporalLayer := currentTemporalLayer c; ignoreDtx := v |}.

End EncodingContext.

Import EncodingContext (targetSpatialLayer, targetTemporalLayer, currentSpatialLayer, currentTemporalLayer,
  SetCurrentSpatialLayer, SetCurrentTemporalLayer).

(** ** VP8 *)

Module VP8.

Record PayloadDescriptor := {
  extended : Z; nonReference : Z; start : Z; partitionIndex : Z;
  i : Z; l : Z; t : Z; k : Z;
  pictureId : Z; tl0PictureIndex : Z; tlIndex : Z; y : Z; keyIndex : Z;
  isKeyFrame : bool; hasPictureId : bool; hasOneBytePictureId : bool; hasTwoBytesPictureId : bool;
  hasTl0PictureIndex : bool; hasTlIndex : bool;
}.

(** The PictureID, its width in bytes, and the offset of its last byte. *)
Definition parse_pictureId (data : list Z) (i offset : Z) : res (option (option (Z * Z) * Z)) :=
  if i =? 0 then mret (Some (None, offset))
  else
    '(byte, offset) ⇐ next_byte data offset;
    if negb (bit byte 7 =? 0) then
      '(byte2, offset) ⇐ next_byte data offset;
      mret (Some (Some (u16 (Z.shiftl (Z.land byte 0x7F) 8 + byte2), 2), offset))
    else mret (Some (Some (Z.land byte 0x7F, 1), offset)).

Definition parse_tl0 (data : list Z) (l offset : Z) : res (option (option Z * Z)) :=
  if l =? 0 then mret (Some (None, offset))
  else '(byte, offset) ⇐ next_byte data offset; mret (Some (Some byte, offset)).

(** TID, Y and KEYIDX. *)
Definition parse_tl (data : list Z) (t k offset : Z) : res (option (option (Z * Z * Z) * Z)) :=
  if (t =? 0) && (k =? 0) then mret (Some (None, offset))
  else
    '(byte, offset) ⇐ next_byte data offset;
    mret (Some (Some (Z.land (Z.shiftr byte 6) 3, bit byte 5, Z.land byte 0x1F), offset)).

Definition Parse (data : list Z) : res (option PayloadDescriptor) :=
  if zlen data <? 1 then mret None
  else
    byte ← read data 0;
    if bit byte 7 =? 0 then mret None
    else
      '(flags, offset) ⇐ next_byte data 0;
      '(pid, offset) ⇐ parse_pictureId data (bit flags 7) offset;
      '(tl0, offset) ⇐ parse_tl0 data (bit flags 6) offset;
      '(tl, offset) ⇐ parse_tl data (bit flags 5) (bit flags 4) offset;
      let offset := offset + 1 in
      keyFrame ← (if (offset + 1 <=? zlen data) && negb (bit byte 4 =? 0) && (Z.land byte 7 =? 0)
                  then b ← read data offset; mret (Z.land b 1 =? 0)
                  else mret false);
      mret (Some
        {| extended := bit byte 7; nonReference := bit byte 5; start := bit byte 4; partitionIndex := Z.land byte 7;
           i := bit flags 7; l := bit flags 6; t := bit flags 5; k := bit flags 4;
           pictureId := match pid with Some (v, _) => v | None => 0 end;
           tl0PictureIndex := match tl0 with Some v => v | None => 0 end;
           tlIndex := match tl with Some (x, _, _) => x | None => 0 end;
           y := match tl with Some (_, x, _) => x | None => 0 end;
           keyIndex := match tl with Some (_, _, x) => x | None => 0 end;
           isKeyFrame := keyFrame;
           hasPictureId := match pid with Some _ => true | None => false end;
           hasOneBytePictureId := match pid with Some (_, w) => w =? 1 | None => false end;
           hasTwoBytesPictureId := match pid with Some (_, w) => w =? 2 | None => false end;
           hasTl0PictureIndex := match tl0 with Some _ => true | None => false end;
           hasTlIndex := match tl with Some _ => true | None => false end |}).

(** [PayloadDescriptor::Encode]: rewrites the PictureID and TL0PICIDX of a payload. *)
Definition Encode (d : PayloadDescriptor) (data : list Z) (pictureId tl0PictureIndex : Z) : res (list Z) :=
  if extended d =? 0 then mret data
  else
    '(data, pos) ← (if negb (i d =? 0) then
                      if hasTwoBytesPictureId d then
                        data ← write data 2 (Byte.be2 pictureId);
                        b ← read data 2;
                        data ← store data 2 (Z.lor b 0x80);
                        mret (data, 4)
                      else if hasOneBytePictureId d then
                        data ← store data 2 (u8 pictureId); mret (data, 3)
                      else mret (data, 2)
                    else mret (data, 2));
    if negb (l d =? 0) then store data pos tl0PictureIndex else mret data.

(** [PayloadDescriptorHandler::Restore]. *)
Definition Restore (d : PayloadDescriptor) (data : list Z) : res (list Z) :=
  if hasPictureId d && hasTl0PictureIndex d then Encode d data (pictureId d) (tl0PictureIndex d) else mret data.

Record Context_ := {
  base : EncodingContext.t;
  pictureIdManager : Manager.SeqManager;
  tl0PictureIndexManager : Manager.SeqManager;
  syncRequired : bool;
}.

Definition SyncRequired (c : Context_) : Context_ :=
  {| base := base c; pictureIdManager := pictureIdManager c; tl0PictureIndexManager := tl0PictureIndexManager c;
     syncRequired := true |}.

Definition set_managers (c : Context_) (pid tl0 : Manager.SeqManager) (sync : bool) : Context_ :=
  {| base := base c; pictureIdManager := pid; tl0PictureIndexManager := tl0; syncRequired := sync |}.
Definition set_base (c : Context_) (b : EncodingContext.t) : Context_ :=
  {| base := b; pictureIdManager := pictureIdManager c; tl0PictureIndexManager := tl0PictureIndexManager c;
     syncRequired := syncRequired c |}.

(** Synchronisation of the managers, when it is required. *)
Definition sync (d : PayloadDescriptor) (c : Context_) : Context_ :=
  if syncRequired c && hasPictureId d && hasTl0PictureIndex d then
    set_managers c (Manager.Sync 15 (pictureIdManager c) (u16 (pictureId d - 1)))
      (Manager.Sync 8 (tl0PictureIndexManager c) (u8 (tl0PictureIndex d - 1))) false
  else c.

(** The packet is of a temporal layer to drop. *)
Definition to_drop (d : PayloadDescriptor) (c : Context_) : bool :=
  hasPictureId d && hasTlIndex d && hasTl0PictureIndex d &&
  negb (IsSeqLowerThan 15 (pictureId d) (Manager.GetMaxInput (pictureIdManager c))) &&
  ((targetTemporalLayer (base c) <? tlIndex d) ||
   ((currentTemporalLayer (base c) <? tlIndex d) && (y d =? 0))).

Definition drop_packet (d : PayloadDescriptor) (c : Context_) : Context_ :=
  set_managers c (Manager.Drop 15 (pictureIdManager c) (pictureId d))
    (if tlIndex d =? 0 then Manager.Drop 8 (tl0PictureIndexManager c) (tl0PictureIndex d) else tl0PictureIndexManager c)
    (syncRequired c).

(** Update of the current temporal layer. *)
Definition update_layer (d : PayloadDescriptor) (b : EncodingContext.t) : EncodingContext.t :=
  let b :=
    if hasTlIndex d && (currentTemporalLayer b <? tlIndex d) then SetCurrentTemporalLayer b (tlIndex d)
    else if negb (hasTlIndex d) then SetCurrentTemporalLayer b 0
    else b in
  if targetTemporalLayer b <? currentTemporalLayer b then SetCurrentTemporalLayer b (targetTemporalLayer b) else b.

(** A value through a manager, when the descriptor has it; [None] when it was dropped. *)
Definition input (n : Z) (m : Manager.SeqManager) (has : bool) (v : Z) : option Z * Manager.SeqManager :=
  if has then Manager.Input n m v else (Some 0, m).

(** [PayloadDescriptorHandler::Process]: whether to forward the packet, the context, and the
    payload. *)
Definition Process (d : PayloadDescriptor) (c : Context_) (data : list Z) : res (bool * Context_ * list Z) :=
  _ ← ms_assert (0 <=? targetTemporalLayer (base c));
  let c := sync d c in
  if to_drop d c then mret (false, drop_packet d c, data)
  else
    let '(pid, m) := input 15 (pictureIdManager c) (hasPictureId d) (pictureId d) in
    let c := set_managers c m (tl0PictureIndexManager c) (syncRequired c) in
    match pid with
    | None => mret (false, c, data)
    | Some pid =>
        let '(tl0, m) := input 8 (tl0PictureIndexManager c) (hasTl0PictureIndex d) (tl0PictureIndex d) in
        let c := set_managers c (pictureIdManager c) m (syncRequired c) in
        match tl0 with
        | None => mret (false, c, data)
        | Some tl0 =>
            let c := set_base c (update_layer d (base c)) in
            data ← (if hasPictureId d && hasTl0PictureIndex d then Encode d data pid tl0 else mret data);
            mret (true, c, data)
        end
    end.

Definition GetSpatialLayer (d : PayloadDescriptor) : Z := 0.
Definition GetTemporalLayer (d : PayloadDescriptor) : Z := if hasTlIndex d then tlIndex d else 0.

(** [ProcessRtpPacket]: the descriptor for the packet's handler, and the packet, whose
    PictureID has two bytes. *)
Definition expanded (d : PayloadDescriptor) : PayloadDescriptor :=
  {| extended := extended d; nonReference := nonReference d; start := start d; partitionIndex := partitionIndex d;
     i := i d; l := l d; t := t d; k := k d; pictureId := pictureId d; tl0PictureIndex := tl0PictureIndex d;
     tlIndex := tlIndex d; y := y d; keyIndex := keyIndex d; isKeyFrame := isKeyFrame d; hasPictureId := hasPictureId d;
     hasOneBytePictureId := false; hasTwoBytesPictureId := true; hasTl0PictureIndex := hasTl0PictureIndex d;
     hasTlIndex := hasTlIndex d |}.

Definition ProcessRtpPacket (p : RtpPacket.t) : res (option PayloadDescriptor * RtpPacket.t) :=
  payload ← bytes_at (RtpPacket.mem p) (RtpPacket.payload p) (RtpPacket.payloadLength p);
  d ← Parse payload;
  match d with
  | None => mret (None, p)
  | Some d =>
      if hasOneBytePictureId d then
        p ← RtpPacket.ShiftPayload p 2 1 true;
        m ← store (RtpPacket.mem p) (RtpPacket.payload p + 2) 0x80;
        mret (Some (expanded d), RtpPacket.set_mem p m)
      else mret (Some d, p)
  end.

End VP8.

(** ** The layer switching shared by VP9 and H264-SVC *)

Module Svc.

(** The packet's layers and the flags the switching looks at. *)
Record packet := {
  spatial : Z;
  temporal : Z;
  keyFrame : bool;
  endOfFrame : bool;
}.

(** The spatial and temporal layers after the spatial switch; the temporal layer restarts
    at 0 with a new spatial layer. *)
Definition switch_spatial (c : EncodingContext.t) (p : packet) : Z * Z :=
  let current := currentSpatialLayer c in
  let target := targetSpatialLayer c in
  if current <? target then
    if keyFrame p then (target, 0) else (current, currentTemporalLayer c)
  else if target <? current then
    if EncodingContext.ksvc c then
      if keyFrame p then (target, 0) else (current, currentTemporalLayer c)
    else if (spatial p =? target) && endOfFrame p then (target, 0)
    else (current, currentTemporalLayer c)
  else (current, currentTemporalLayer c).

(** The temporal layer after the temporal switch, when it was [tmp]; [up] tells whether the
    packet allows to switch up. *)
Definition switch_temporal (c : EncodingContext.t) (p : packet) (up : bool) (tmp : Z) : Z :=
  let current := currentTemporalLayer c in
  let target := targetTemporalLayer c in
  if current <? target then
    if (current + 1 <=? temporal p) && up then temporal p else tmp
  else if target <? current then
    if (temporal p =? target) && endOfFrame p then target else tmp
  else tmp.

(** The context with its current layers updated. *)
Definition update_layers (c : EncodingContext.t) (tmpSpatial tmpTemporal : Z) : EncodingContext.t :=
  let c := if negb (tmpSpatial =? currentSpatialLayer c) then SetCurrentSpatialLayer c tmpSpatial else c in
  if negb (tmpTemporal =? currentTemporalLayer c) then SetCurrentTemporalLayer c tmpTemporal else c.

End Svc.

(** ** VP9 *)

Module VP9.

Record PayloadDescriptor := {
  i : Z; p : Z; l : Z; f : Z; b : Z; e : Z; v : Z;
  pictureId : Z; slIndex : Z; tlIndex : Z; tl0PictureIndex : Z; switchingUpPoint : Z; interLayerDependency : Z;
  isKeyFrame : bool; hasPictureId : bool; hasOneBytePictureId : bool; hasTwoBytesPictureId : bool;
  hasSlIndex : bool; hasTl0PictureIndex : bool; hasTlIndex : bool;
}.

(** The layer indices byte and, unless in flexible mode, TL0PICIDX. *)
Definition parse_layers (data : list Z) (l f offset : Z) : res (option (option (Z * option Z) * Z)) :=
  if l =? 0 then mret (Some (None, offset))
  else
    '(byte, offset) ⇐ next_byte data offset;
    '(byte2, offset) ⇐ next_byte data offset;
    mret (Some (Some (byte, if f =? 0 then Some byte2 else None), offset)).

Definition Parse (data : list Z) : res (option PayloadDescriptor) :=
  if zlen data <? 1 then mret None
  else
    byte ← read data 0;
    '(pid, offset) ⇐ VP8.parse_pictureId data (bit byte 7) 0;
    '(layers, offset) ⇐ parse_layers data (bit byte 5) (bit byte 4) offset;
    let slIndex := match layers with Some (x, _) => Z.land (Z.shiftr x 1) 7 | None => 0 end in
    mret (Some
      {| i := bit byte 7; p := bit byte 6; l := bit byte 5; f := bit byte 4; b := bit byte 3; e := bit byte 2;
         v := bit byte 1;
         pictureId := match pid with Some (x, _) => x | None => 0 end;
         slIndex := slIndex;
         tlIndex := match layers with Some (x, _) => Z.land (Z.shiftr x 5) 7 | None => 0 end;
         tl0PictureIndex := match layers with Some (_, Some x) => x | _ => 0 end;
         switchingUpPoint := match layers with Some (x, _) => bit x 4 | None => 0 end;
         interLayerDependency := match layers with Some (x, _) => Z.land x 1 | None => 0 end;
         isKeyFrame := (bit byte 6 =? 0) && negb (bit byte 3 =? 0) && (slIndex =? 0);
         hasPictureId := match pid with Some _ => true | None => false end;
         hasOneBytePictureId := match pid with Some (_, w) => w =? 1 | None => false end;
         hasTwoBytesPictureId := match pid with Some (_, w) => w =? 2 | None => false end;
         hasSlIndex := match layers with Some _ => true | None => false end;
         hasTl0PictureIndex := match layers with Some (_, Some _) => true | _ => false end;
         hasTlIndex := match layers with Some _ => true | None => false end |}).

Definition ProcessRtpPacket (q : RtpPacket.t) : res (option PayloadDescriptor) :=
  payload ← bytes_at (RtpPacket.mem q) (RtpPacket.payload q) (RtpPacket.payloadLength q);
  Parse payload.

Definition GetSpatialLayer (d : PayloadDescriptor) : Z := if hasSlIndex d then slIndex d else 0.
Definition GetTemporalLayer (d : PayloadDescriptor) : Z := if hasTlIndex d then tlIndex d else 0.

Record Context_ := {
  base : EncodingContext.t;
  pictureIdManager : Manager.SeqManager;
  syncRequired : bool;
}.

Definition SyncRequired (c : Context_) : Context_ :=
  {| base := base c; pictureIdManager := pictureIdManager c; syncRequired := true |}.

Definition svc_packet (d : PayloadDescriptor) : Svc.packet :=
  {| Svc.spatial := GetSpatialLayer d; Svc.temporal := GetTemporalLayer d; Svc.keyFrame := isKeyFrame d;
     Svc.endOfFrame := negb (e d =? 0) |}.

(** The packet allows to switch up the temporal layer. *)
Definition switches_up (d : PayloadDescriptor) (c : EncodingContext.t) : bool :=
  ((currentTemporalLayer c =? -1) || negb (switchingUpPoint d =? 0)) && negb (b d =? 0).

(** [Process]: whether to forward the packet, the context, and the marker. *)
Definition Process (d : PayloadDescriptor) (c : Context_) (marker : bool) : res (bool * Context_ * bool) :=
  _ ← ms_assert (0 <=? targetSpatialLayer (base c));
  _ ← ms_assert (0 <=? targetTemporalLayer (base c));
  let pkt := svc_packet d in
  if (EncodingContext.spatialLayers (base c) <=? Svc.spatial pkt) ||
     (EncodingContext.temporalLayers (base c) <=? Svc.temporal pkt)
  then mret (false, c, marker)
  else
    let c :=
      if syncRequired c && hasPictureId d then
        {| base := base c; pictureIdManager := Manager.Sync 15 (pictureIdManager c) (u16 (pictureId d - 1));
           syncRequired := false |}
      else c in
    let isOldPacket :=
      hasPictureId d && IsSeqLowerThan 15 (pictureId d) (Manager.GetMaxInput (pictureIdManager c)) in
    let '(tmpSpatial, tmpTemporal) := Svc.switch_spatial (base c) pkt in
    if negb isOldPacket &&
       ((tmpSpatial <? Svc.spatial pkt) ||
        (EncodingContext.ksvc (base c) && negb (p d =? 0) && negb (Svc.spatial pkt =? tmpSpatial)))
    then mret (false, c, marker)
    else
      let tmpTemporal :=
        if isOldPacket then tmpTemporal
        else Svc.switch_temporal (base c) pkt (switches_up d (base c)) tmpTemporal in
      if negb isOldPacket && (tmpTemporal <? Svc.temporal pkt) then mret (false, c, marker)
      else
        let marker := if (Svc.spatial pkt =? tmpSpatial) && Svc.endOfFrame pkt then true else marker in
        let m := if hasPictureId d then snd (Manager.Input 15 (pictureIdManager c) (pictureId d)) else pictureIdManager c in
        mret (true,
              {| base := Svc.update_layers (base c) tmpSpatial tmpTemporal; pictureIdManager := m;
                 syncRequired := syncRequired c |}, marker).

Definition Restore (data : list Z) : list Z := data.

End VP9.

(** ** H264 *)

(** The frame-marking extension: its first byte, and the bytes that follow, if any. *)
Module FrameMarking.

Definition tid (m : list Z) : res Z := x ← read m 0; mret (Z.land x 7).
Definition base (m : list Z) : res Z := x ← read m 0; mret (bit x 3).
Definition discardable (m : list Z) : res Z := x ← read m 0; mret (bit x 4).
Definition independent (m : list Z) : res Z := x ← read m 0; mret (bit x 5).
Definition end_ (m : list Z) : res Z := x ← read m 0; mret (bit x 6).
Definition start (m : list Z) : res Z := x ← read m 0; mret (bit x 7).
Definition lid (m : list Z) : res Z := read m 1.
Definition tl0picidx (m : list Z) : res Z := read m 2.

End FrameMarking.

Module H264.

Record PayloadDescriptor := {
  s : Z; e : Z; i : Z; d : Z; b : Z; tid : Z; lid : Z; tl0picidx : Z;
  hasLid : bool; hasTid : bool; hasTl0picidx : bool; isKeyFrame : bool;
}.

Definition empty : PayloadDescriptor :=
  {| s := 0; e := 0; i := 0; d := 0; b := 0; tid := 0; lid := 0; tl0picidx := 0; hasLid := false; hasTid := false;
     hasTl0picidx := false; isKeyFrame := false |}.

Definition set_keyFrame (x : PayloadDescriptor) (v : bool) : PayloadDescriptor :=
  {| s := s x; e := e x; i := i x; d := d x; b := b x; tid := tid x; lid := lid x; tl0picidx := tl0picidx x;
     hasLid := hasLid x; hasTid := hasTid x; hasTl0picidx := hasTl0picidx x; isKeyFrame := v |}.

(** The fields of the frame-marking extension. *)
Definition read_marking (m : list Z) : res PayloadDescriptor :=
  s ← FrameMarking.start m; e ← FrameMarking.end_ m; i ← FrameMarking.independent m;
  d ← FrameMarking.discardable m; b ← FrameMarking.base m; tid ← FrameMarking.tid m;
  lid ← (if 2 <=? zlen m then FrameMarking.lid m else mret 0);
  tl0 ← (if zlen m =? 3 then FrameMarking.tl0picidx m else mret 0);
  mret {| s := s; e := e; i := i; d := d; b := b; tid := tid; lid := lid; tl0picidx := tl0;
          hasLid := 2 <=? zlen m; hasTid := true; hasTl0picidx := zlen m =? 3;
          isKeyFrame := negb (s =? 0) && negb (i =? 0) |}.

(** The NAL units of a STAP-A packet: whether one of them is a sequence parameter set. *)
Fixpoint parse_stap (fuel : nat) (data : list Z) (offset len : Z) : res bool :=
  if len <? 3 then mret false
  else
    match fuel with
    | O => Fault OutOfFuel
    | S fuel' =>
        naluSize ← Byte.Get2Bytes data offset;
        nal ← read data (offset + 2);
        if Z.land nal 0x1F =? 7 then mret true
        else if len <? naluSize + 2 then mret false
        else parse_stap fuel' data (offset + (naluSize + 2)) (len - (naluSize + 2))
    end.

(** The payload starts a key frame. *)
Definition parse_nal (data : list Z) : res bool :=
  byte ← read data 0;
  let nal := Z.land byte 0x1F in
  if nal =? 7 then mret true
  else if nal =? 24 then parse_stap (length data) data 1 (zlen data - 1)
  else if (nal =? 28) || (nal =? 29) then
    x ← read data 1;
    mret ((Z.land x 0x1F =? 7) && (Z.land x 0x80 =? 128))
  else mret false.

Definition Parse (data : list Z) (frameMarking : option (list Z)) : res (option PayloadDescriptor) :=
  if zlen data <? 2 then mret None
  else
    x ← (match frameMarking with Some m => read_marking m | None => mret empty end);
    if (match frameMarking with Some _ => isKeyFrame x | None => false end) then mret (Some x)
    else
      key ← parse_nal data;
      mret (Some (if (key : bool) then set_keyFrame x true else x)).

Definition read_frame_marking (q : RtpPacket.t) : res (option (list Z)) :=
  m ← RtpPacket.ReadFrameMarking q;
  match m with
  | None => mret None
  | Some (e, len) => bs ← bytes_at (RtpPacket.mem q) e len; mret (Some bs)
  end.

Definition ProcessRtpPacket (q : RtpPacket.t) : res (option PayloadDescriptor) :=
  payload ← bytes_at (RtpPacket.mem q) (RtpPacket.payload q) (RtpPacket.payloadLength q);
  m ← read_frame_marking q;
  Parse payload m.

Definition GetSpatialLayer (x : PayloadDescriptor) : Z := 0.
Definition GetTemporalLayer (x : PayloadDescriptor) : Z := tid x.

Definition Process (x : PayloadDescriptor) (c : EncodingContext.t) : res (bool * EncodingContext.t) :=
  _ ← ms_assert (0 <=? targetTemporalLayer c);
  if hasTid x && (targetTemporalLayer c <? tid x) then mret (false, c)
  else if hasTid x && (currentTemporalLayer c <? tid x) && (b x =? 0) then mret (false, c)
  else
    let c :=
      if hasTid x && (currentTemporalLayer c <? tid x) then SetCurrentTemporalLayer c (tid x)
      else if negb (hasTid x) then SetCurrentTemporalLayer c 0
      else c in
    let c :=
      if targetTemporalLayer c <? currentTemporalLayer c then SetCurrentTemporalLayer c (targetTemporalLayer c) else c in
    mret (true, c).

End H264.

(** ** H264-SVC *)

Module H264_SVC.

Record PayloadDescriptor := {
  s : Z; e : Z; i : Z; d : Z; b : Z; slIndex : Z; tlIndex : Z; tl0picidx : Z;
  hasSlIndex : bool; hasTlIndex : bool; hasTl0picidx : bool; isKeyFrame : bool;
  idr : Z; priorityId : Z; noIntLayerPredFlag : Z;
}.

Definition empty : PayloadDescriptor :=
  {| s := 0; e := 0; i := 0; d := 0; b := 0; slIndex := 0; tlIndex := 0; tl0picidx := 0; hasSlIndex := false;
     hasTlIndex := false; hasTl0picidx := false; isKeyFrame := false; idr := 0; priorityId := 0;
     noIntLayerPredFlag := 1 |}.

Definition read_marking (m : list Z) : res PayloadDescriptor :=
  s ← FrameMarking.start m; e ← FrameMarking.end_ m; i ← FrameMarking.independent m;
  d ← FrameMarking.discardable m; b ← FrameMarking.base m; tid ← FrameMarking.tid m;
  lid ← (if 2 <=? zlen m then FrameMarking.lid m else mret 0);
  tl0 ← (if zlen m =? 3 then FrameMarking.tl0picidx m else mret 0);
  mret {| s := s; e := e; i := i; d := d; b := b; slIndex := Z.land (Z.shiftr lid 4) 7; tlIndex := tid; tl0picidx := tl0;
          hasSlIndex := 2 <=? zlen m; hasTlIndex := true; hasTl0picidx := zlen m =? 3;
          isKeyFrame := negb (s =? 0) && negb (i =? 0); idr := 0; priorityId := 0; noIntLayerPredFlag := 1 |}.

Definition set_keyFrame (x : PayloadDescriptor) (v : bool) : PayloadDescriptor :=
  {| s := s x; e := e x; i := i x; d := d x; b := b x; slIndex := slIndex x; tlIndex := tlIndex x;
     tl0picidx := tl0picidx x; hasSlIndex := hasSlIndex x; hasTlIndex := hasTlIndex x; hasTl0picidx := hasTl0picidx x;
     isKeyFrame := v; idr := idr x; priorityId := priorityId x; noIntLayerPredFlag := noIntLayerPredFlag x |}.

(** A base layer NAL unit: no layer indices. *)
Definition set_no_layers (x : PayloadDescriptor) (keyFrame : bool) : PayloadDescriptor :=
  {| s := s x; e := e x; i := i x; d := d x; b := b x; slIndex := 0; tlIndex := 0; tl0picidx := tl0picidx x;
     hasSlIndex := false; hasTlIndex := false; hasTl0picidx := hasTl0picidx x; isKeyFrame := keyFrame; idr := idr x;
     priorityId := priorityId x; noIntLayerPredFlag := noIntLayerPredFlag x |}.

(** [ParseSingleNalu(data, len, ...)], where [data] is the payload from the NAL unit on and
    [len] the length it may use. *)
Definition ParseSingleNalu (data : list Z) (len : Z) (x : PayloadDescriptor) (isStartBit : bool)
    : res (option PayloadDescriptor) :=
  byte ← read data 0;
  let nal := Z.land byte 0x1F in
  if nal =? 5 then mret (Some (set_no_layers x true))
  else if nal =? 1 then mret (Some (set_no_layers x (isKeyFrame x)))
  else if (nal =? 14) || (nal =? 20) then
    b1 ← read data 1;
    if len <? 3 then mret None
    else
      b2 ← read data 2;
      if len <? 4 then mret None
      else
        b3 ← read data 3;
        let sl := Z.land (Z.shiftr b2 4) 3 in
        let tl := Z.land (Z.shiftr b3 5) 3 in
        mret (Some
          {| s := s x; e := e x; i := i x; d := d x; b := b x; slIndex := sl; tlIndex := tl; tl0picidx := tl0picidx x;
             hasSlIndex := negb (sl =? 0); hasTlIndex := negb (tl =? 0); hasTl0picidx := hasTl0picidx x;
             isKeyFrame := isStartBit && negb (bit b1 6 =? 0); idr := bit b1 6; priorityId := Z.land b1 6;
             noIntLayerPredFlag := bit b2 7 |})
  else if nal =? 7 then mret (Some (set_keyFrame x isStartBit))
  else mret (Some x).

Fixpoint parse_stap (fuel : nat) (data : list Z) (offset len : Z) (x : PayloadDescriptor)
    : res (option PayloadDescriptor) :=
  if len <? 3 then mret (Some x)
  else
    match fuel with
    | O => Fault OutOfFuel
    | S fuel' =>
        naluSize ← Byte.Get2Bytes data offset;
        nalu ← sub data (offset + 2);
        r ← ParseSingleNalu nalu (len - 2) x true;
        match r with
        | None => mret None
        | Some x =>
            if isKeyFrame x then mret (Some x)
            else if len <? naluSize + 2 then mret (Some x)
            else parse_stap fuel' data (offset + (naluSize + 2)) (len - (naluSize + 2)) x
        end
    end.

Definition parse_nal (data : list Z) (x : PayloadDescriptor) : res (option PayloadDescriptor) :=
  byte ← read data 0;
  let nal := Z.land byte 0x1F in
  if (nal =? 1) || (nal =? 5) || (nal =? 7) || (nal =? 14) || (nal =? 20) then
    ParseSingleNalu data (zlen data) x true
  else if nal =? 24 then parse_stap (length data) data 1 (zlen data - 1) x
  else if (nal =? 28) || (nal =? 29) then
    b1 ← read data 1;
    if Z.land b1 0x80 =? 128 then
      nalu ← sub data 1; ParseSingleNalu nalu (zlen data - 1) x true
    else mret (Some x)
  else mret (Some x).

Definition Parse (data : list Z) (frameMarking : option (list Z)) : res (option PayloadDescriptor) :=
  if zlen data <? 2 then mret None
  else
    x ← (match frameMarking with Some m => read_marking m | None => mret empty end);
    if (match frameMarking with Some _ => isKeyFrame x | None => false end) then mret (Some x)
    else parse_nal data x.

Definition ProcessRtpPacket (q : RtpPacket.t) : res (option PayloadDescriptor) :=
  payload ← bytes_at (RtpPacket.mem q) (RtpPacket.payload q) (RtpPacket.payloadLength q);
  m ← H264.read_frame_marking q;
  Parse payload m.

Definition GetSpatialLayer (x : PayloadDescriptor) : Z := if hasSlIndex x then slIndex x else 0.
Definition GetTemporalLayer (x : PayloadDescriptor) : Z := if hasTlIndex x then tlIndex x else 0.

Definition svc_packet (x : PayloadDescriptor) : Svc.packet :=
  {| Svc.spatial := GetSpatialLayer x; Svc.temporal := GetTemporalLayer x; Svc.keyFrame := isKeyFrame x;
     Svc.endOfFrame := negb (e x =? 0) |}.

Definition Process (x : PayloadDescriptor) (c : EncodingContext.t) (marker : bool)
    : res (bool * EncodingContext.t * bool) :=
  _ ← ms_assert (0 <=? targetSpatialLayer c);
  _ ← ms_assert (0 <=? targetTemporalLayer c);
  let pkt := svc_packet x in
  if (EncodingContext.spatialLayers c <=? Svc.spatial pkt) || (EncodingContext.temporalLayers c <=? Svc.temporal pkt)
  then mret (false, c, marker)
  else
    let '(tmpSpatial, tmpTemporal) := Svc.switch_spatial c pkt in
    if tmpSpatial <? Svc.spatial pkt then mret (false, c, marker)
    else
      let tmpTemporal := Svc.switch_temporal c pkt (negb (s x =? 0)) tmpTemporal in
      if tmpTemporal <? Svc.temporal pkt then mret (false, c, marker)
      else
        let marker := if (Svc.spatial pkt =? tmpSpatial) && Svc.endOfFrame pkt then true else marker in
        mret (true, Svc.update_layers c tmpSpatial tmpTemporal, marker).

End H264_SVC.

(** ** Opus *)

Module Opus.

Definition Parse (data : list Z) : bool := zlen data =? 1.

Definition ProcessRtpPacket (q : RtpPacket.t) : res bool :=
  payload ← bytes_at (RtpPacket.mem q) (RtpPacket.payload q) (RtpPacket.payloadLength q);
  mret (Parse payload).

Definition Process (isDtx : bool) (c : EncodingContext.t) : bool := negb (isDtx && EncodingContext.ignoreDtx c).

End Opus.

(** ** The dispatch by codec *)

Module Tools.

(** The subtypes with a descriptor; [OTHER] is any other. *)
Inductive Subtype := VP8 | VP9 | H264 | H264_SVC | OPUS | MULTIOPUS | OTHER.
Inductive MimeType := VIDEO | AUDIO | UNSET.
Inductive ParametersType := NONE | SIMPLE | SIMULCAST | SVC | PIPE.

Definition CanBeKeyFrame (type : MimeType) (subtype : Subtype) : bool :=
  match type, subtype with
  | VIDEO, (VP8 | VP9 | H264 | H264_SVC) => true
  | _, _ => false
  end.

Definition IsValidTypeForCodec (t : ParametersType) (type : MimeType) (subtype : Subtype) : bool :=
  match t with
  | NONE => false
  | SIMPLE | PIPE => true
  | SIMULCAST => match type, subtype with VIDEO, (VP8 | H264) => true | _, _ => false end
  | SVC => match type, subtype with VIDEO, (VP9 | H264_SVC) => true | _, _ => false end
  end.

(** The payload descriptor a packet is given. *)
Inductive Descriptor :=
| DVP8 (d : VP8.PayloadDescriptor)
| DVP9 (d : VP9.PayloadDescriptor)
| DH264 (d : H264.PayloadDescriptor)
| DH264_SVC (d : H264_SVC.PayloadDescriptor)
| DOpus (isDtx : bool).

(** [ProcessRtpPacket(packet, mimeType)]; the video case falls through to the audio one,
    whose subtypes are others. *)
Definition ProcessRtpPacket (q : RtpPacket.t) (type : MimeType) (subtype : Subtype)
    : res (option Descriptor * RtpPacket.t) :=
  match type, subtype with
  | VIDEO, VP8 => '(d, q) ← VP8.ProcessRtpPacket q; mret (option_map DVP8 d, q)
  | VIDEO, VP9 => d ← VP9.ProcessRtpPacket q; mret (option_map DVP9 d, q)
  | VIDEO, H264 => d ← H264.ProcessRtpPacket q; mret (option_map DH264 d, q)
  | VIDEO, H264_SVC => d ← H264_SVC.ProcessRtpPacket q; mret (option_map DH264_SVC d, q)
  | (VIDEO | AUDIO), (OPUS | MULTIOPUS) => x ← Opus.ProcessRtpPacket q; mret (Some (DOpus x), q)
  | _, _ => mret (None, q)
  end.

(** [RtpPacket::GetSpatialLayer()], [GetTemporalLayer()] and [IsKeyFrame()], on the payload
    descriptor of the packet, if it has one. *)
Definition GetSpatialLayer (d : option Descriptor) : Z :=
  match d with
  | Some (DVP8 d) => VP8.GetSpatialLayer d
  | Some (DVP9 d) => VP9.GetSpatialLayer d
  | Some (DH264 d) => H264.GetSpatialLayer d
  | Some (DH264_SVC d) => H264_SVC.GetSpatialLayer d
  | Some (DOpus _) | None => 0
  end.
Definition GetTemporalLayer (d : option Descriptor) : Z :=
  match d with
  | Some (DVP8 d) => VP8.GetTemporalLayer d
  | Some (DVP9 d) => VP9.GetTemporalLayer d
  | Some (DH264 d) => H264.GetTemporalLayer d
  | Some (DH264_SVC d) => H264_SVC.GetTemporalLayer d
  | Some (DOpus _) | None => 0
  end.
Definition IsKeyFrame (d : option Descriptor) : bool :=
  match d with
  | Some (DVP8 d) => VP8.isKeyFrame d
  | Some (DVP9 d) => VP9.isKeyFrame d
  | Some (DH264 d) => H264.isKeyFrame d
  | Some (DH264_SVC d) => H264_SVC.isKeyFrame d
  | Some (DOpus _) | None => false
  end.

End Tools.
