(* ===== verification/CodecsSpec.v ===== *)
(** * Codec payload descriptors: what parsing and processing do

    Parsing never reads past a VP8, VP9 or H264 payload; the VP8 descriptor is rewritten for a consumer and
    restored for the next one; which packets a consumer of VP9 or H264-SVC forwards, and
    at which it switches layers. *)

From stdpp Require Import gmap.
From S2P Require Import Prelude Utils OrdSet SeqManager RtcpPacket RtpPacket RtpPacketSpec Codecs.

Import RtpPacket (write).
Import EncodingContext (targetSpatialLayer, targetTemporalLayer, currentSpatialLayer, currentTemporalLayer, ksvc).

(** ** Parsing is safe *)

Lemma next_byte_spec data offset : 0 <= offset + 1 ->
  exists r, next_byte data offset = Ok r /\
    forall b o, r = Some (b, o) -> o = offset + 1 /\ o < zlen data /\ read data o = Ok b.
Proof.
  intros H. unfold next_byte. destruct (Z.ltb_spec (zlen data) (offset + 1 + 1)); [by exists None|].
  destruct (read_in_range data (offset + 1)) as (b & E & _); [lia|]. rewrite E. cbn. eexists. split; [done|].
  intros b' o [= <- <-]. split_and!; [done|lia|done].
Qed.

(** A step of a parser that never faults, and what it gives when it does not discard. *)
Definition yields {A} (m : res (option A)) (P : A -> Prop) : Prop :=
  exists r, m = Ok r /\ forall x, r = Some x -> P x.

Lemma yields_some {A} (x : A) (P : A -> Prop) : P x -> yields (mret (Some x)) P.
Proof. intros H. eexists. split; [done|]. by intros y [= <-]. Qed.

Lemma yields_none {A} (P : A -> Prop) : yields (mret None) P.
Proof. by exists None. Qed.

Lemma yields_bind {A B} (m : res (option A)) (f : A -> res (option B)) P Q :
  yields m P -> (forall x, P x -> yields (f x) Q) -> yields (obind m f) Q.
Proof.
  intros (r & -> & H) Hf. unfold obind. cbn. destruct r as [x|]; [|by exists None]. by apply Hf, H.
Qed.

Lemma yields_next data offset : 0 <= offset + 1 ->
  yields (next_byte data offset) (fun '(b, o) => o = offset + 1 /\ o < zlen data /\ read data o = Ok b).
Proof.
  intros H. destruct (next_byte_spec data offset H) as (r & E & Hr). exists r. split; [done|].
  intros [b o] ->. by apply Hr.
Qed.

Lemma yields_weaken {A} (m : res (option A)) (P Q : A -> Prop) : yields m P -> (forall x, P x -> Q x) -> yields m Q.
Proof. intros (r & E & H) HQ. exists r. split; [done|]. eauto. Qed.

Lemma yields_safe {A} (m : res (option A)) P : yields m P -> safe m.
Proof. intros (r & -> & _). apply safe_ok. Qed.

Lemma vp8_pictureId_yields data i offset : 0 <= offset ->
  yields (VP8.parse_pictureId data i offset) (fun '(pid, o) => offset <= o).
Proof.
  intros H. unfold VP8.parse_pictureId. destruct (i =? 0); [apply yields_some; lia|].
  eapply yields_bind; [apply yields_next; lia|]. intros [b o] (-> & _). destruct (negb _); [|apply yields_some; lia].
  eapply yields_bind; [apply yields_next; lia|]. intros [b2 o] (-> & _). apply yields_some. lia.
Qed.

Lemma vp8_parse_yields data : yields (VP8.Parse data) (fun _ => True).
Proof.
  unfold VP8.Parse. destruct (Z.ltb_spec (zlen data) 1); [apply yields_none|].
  destruct (read_in_range data 0) as (b0 & -> & _); [lia|]. cbn [mbind res_bind].
  destruct (bit b0 7 =? 0); [apply yields_none|].
  eapply yields_bind; [apply yields_next; lia|]. intros [fl o] (-> & _).
  eapply yields_bind; [apply vp8_pictureId_yields; lia|]. intros [pid o] Ho.
  eapply (yields_bind _ _ (fun '(_, o') => o <= o')).
  { unfold VP8.parse_tl0. destruct (_ =? 0); [apply yields_some; lia|].
    eapply yields_bind; [apply yields_next; lia|]. intros [b o'] (-> & _). apply yields_some. lia. }
  intros [tl0 o1] Ho1. eapply (yields_bind _ _ (fun '(_, o') => o1 <= o')).
  { unfold VP8.parse_tl. destruct (_ && _); [apply yields_some; lia|].
    eapply yields_bind; [apply yields_next; lia|]. intros [b o'] (-> & _). apply yields_some. lia. }
  intros [tl o2] Ho2. destruct (Z.leb_spec (o2 + 1 + 1) (zlen data)); cbn [andb].
  2:{ by apply yields_some. }
  destruct (negb _ && _); [|by apply yields_some].
  destruct (read_in_range data (o2 + 1)) as (b & -> & _); [lia|]. by apply yields_some.
Qed.

Lemma vp9_parse_yields data : yields (VP9.Parse data) (fun _ => True).
Proof.
  unfold VP9.Parse. destruct (Z.ltb_spec (zlen data) 1); [apply yields_none|].
  destruct (read_in_range data 0) as (b0 & -> & _); [lia|]. cbn [mbind res_bind].
  eapply yields_bind; [apply vp8_pictureId_yields; lia|]. intros [pid o] Ho.
  eapply (yields_bind _ _ (fun _ => True)); [|intros [layers o1] _; by apply yields_some].
  unfold VP9.parse_layers. destruct (_ =? 0); [by apply yields_some|].
  eapply yields_bind; [apply yields_next; lia|]. intros [b o'] (-> & _).
  eapply yields_bind; [apply yields_next; lia|]. intros [b2 o'] (-> & _). by apply yields_some.
Qed.

Lemma h264_stap_safe fuel : forall data offset len,
  bytes_ok data -> 0 <= offset -> offset + len <= zlen data -> len <= 2 * Z.of_nat fuel ->
  safe (H264.parse_stap fuel data offset len).
Proof.
  induction fuel as [|fuel IH]; intros data offset len Hb Ho Hl Hf; cbn [H264.parse_stap].
  { destruct (Z.ltb_spec len 3); [apply safe_ok|lia]. }
  destruct (Z.ltb_spec len 3); [apply safe_ok|].
  destruct (Get2Bytes_safe data offset) as [n Hn]; [lia..|]. pose proof (Get2Bytes_fits _ _ _ Hb Hn) as Hfit.
  rewrite Hn. cbn [mbind res_bind]. destruct (read_in_range data (offset + 2)) as (b & -> & _); [lia|]. cbn [mbind res_bind].
  destruct (_ =? 7); [apply safe_ok|]. destruct (Z.ltb_spec len (n + 2)); [apply safe_ok|].
  apply IH; try done; unfold fits in Hfit; lia.
Qed.

Lemma h264_marking_safe m : 1 <= zlen m -> safe (H264.read_marking m).
Proof.
  intros H. unfold H264.read_marking, FrameMarking.start, FrameMarking.end_, FrameMarking.independent,
    FrameMarking.discardable, FrameMarking.base, FrameMarking.tid, FrameMarking.lid, FrameMarking.tl0picidx.
  destruct (read_in_range m 0) as (b0 & -> & _); [lia|]. cbn [mbind res_bind mret res_ret].
  destruct (Z.leb_spec 2 (zlen m)); [destruct (read_in_range m 1) as (b1 & -> & _); [lia|]|]; cbn [mbind res_bind mret res_ret];
    (destruct (Z.eqb_spec (zlen m) 3); [destruct (read_in_range m 2) as (b2 & -> & _); [lia|]|]); cbn; apply safe_ok.
Qed.

Lemma h264_parse_safe data marking : bytes_ok data ->
  match marking with Some m => 1 <= zlen m | None => True end -> safe (H264.Parse data marking).
Proof.
  intros Hb Hm. unfold H264.Parse. destruct (Z.ltb_spec (zlen data) 2); [apply safe_ok|].
  assert (exists x, (match marking with Some m => H264.read_marking m | None => mret H264.empty end) = Ok x) as [x ->].
  { destruct marking as [m|]; [|by eexists]. destruct (h264_marking_safe m Hm) as [x Hx]. by exists x. }
  cbn [mbind res_bind]. destruct (match marking with Some _ => _ | None => false end); [apply safe_ok|].
  assert (safe (H264.parse_nal data)) as [key ->]; [|cbn; apply safe_ok].
  unfold H264.parse_nal. destruct (read_in_range data 0) as (b0 & -> & _); [lia|]. cbn [mbind res_bind].
  destruct (_ =? 7); [apply safe_ok|]. destruct (_ =? 24).
  { apply h264_stap_safe; [done|lia|lia|unfold zlen; lia]. }
  destruct (_ || _); [|apply safe_ok]. destruct (read_in_range data 1) as (b1 & -> & _); [lia|]. apply safe_ok.
Qed.

(** C37: Whatever the bytes of an RTP payload and of a frame marking of at least one byte, the
    parsers of the VP8, VP9 and H264 descriptors read inside of them only, and end. *)
Theorem descriptors_parse_safe data marking :
  bytes_ok data -> match marking with Some m => 1 <= zlen m | None => True end ->
  safe (VP8.Parse data) /\ safe (VP9.Parse data) /\ safe (H264.Parse data marking).
Proof.
  intros Hb Hm. split_and!.
  - eapply yields_safe, vp8_parse_yields.
  - eapply yields_safe, vp9_parse_yields.
  - by apply h264_parse_safe.
Qed.

Lemma descriptors_parse_safe_witness :
  safe (VP8.Parse [0x90; 0xC0; 0x85; 1; 7; 0]) /\ safe (H264.Parse [24; 0; 2; 7; 0] (Some [0x20])).
Proof.
  destruct (descriptors_parse_safe [0x90; 0xC0; 0x85; 1; 7; 0] None) as (H & _ & _);
    [by apply (bool_decide_unpack _)|exact I|].
  destruct (descriptors_parse_safe [24; 0; 2; 7; 0] (Some [0x20])) as (_ & _ & H');
    [by apply (bool_decide_unpack _)|vm_compute; discriminate|].
  split; [exact H|exact H'].
Defined.

(** The H264-SVC parser reads the byte after the NAL unit header before it checks that there
    is one: a fragment of two bytes, or an aggregation packet that ends with such a header, is
    read past its end. *)
Theorem h264_svc_overread :
  H264_SVC.Parse [28; 0x8E] None = Fault OutOfBounds /\
  H264_SVC.Parse [24; 0; 0; 14] None = Fault OutOfBounds.
Proof. vm_compute. done. Qed.

(** ** VP8: a descriptor with a two-byte PictureID and a TL0PICIDX *)

(** What follows TL0PICIDX: the layer byte, and whether the payload is of a key frame. *)
Definition vp8_rest (b0 fl : Z) (data : list Z) : res (option (option (Z * Z * Z) * bool)) :=
  obind (VP8.parse_tl data (bit fl 5) (bit fl 4) 4) (fun '(tl, offset) =>
    let offset := offset + 1 in
    kf ← (if (offset + 1 <=? zlen data) && negb (bit b0 4 =? 0) && (Z.land b0 7 =? 0)
          then b ← read data offset; mret (Z.land b 1 =? 0) else mret false);
    mret (Some (tl, kf))).

Definition vp8_descriptor (b0 fl pid tl0 : Z) (tl : option (Z * Z * Z)) (kf : bool) : VP8.PayloadDescriptor :=
  {| VP8.extended := bit b0 7; VP8.nonReference := bit b0 5; VP8.start := bit b0 4; VP8.partitionIndex := Z.land b0 7;
     VP8.i := bit fl 7; VP8.l := bit fl 6; VP8.t := bit fl 5; VP8.k := bit fl 4;
     VP8.pictureId := pid; VP8.tl0PictureIndex := tl0;
     VP8.tlIndex := match tl with Some (x, _, _) => x | None => 0 end;
     VP8.y := match tl with Some (_, x, _) => x | None => 0 end;
     VP8.keyIndex := match tl with Some (_, _, x) => x | None => 0 end;
     VP8.isKeyFrame := kf; VP8.hasPictureId := true; VP8.hasOneBytePictureId := false;
     VP8.hasTwoBytesPictureId := true; VP8.hasTl0PictureIndex := true;
     VP8.hasTlIndex := match tl with Some _ => true | None => false end |}.

Lemma next_byte_at data offset b : 0 <= offset + 1 -> read data (offset + 1) = Ok b -> next_byte data offset = Ok (Some (b, offset + 1)).
Proof.
  intros H0 H. unfold next_byte. assert (safe (read data (offset + 1))) as Hs by (by exists b).
  apply read_ok_iff in Hs. destruct (Z.ltb_spec (zlen data) (offset + 1 + 1)); [lia|]. by rewrite H.
Qed.

Lemma obind_some {A B} (x : A) (f : A -> res (option B)) : obind (Ok (Some x)) f = f x.
Proof. reflexivity. Qed.

Lemma obind_assoc {A B C} (m : res (option A)) (f : A -> res (option B)) (g : B -> res (option C)) :
  obind (obind m f) g = obind m (fun x => obind (f x) g).
Proof. by destruct m as [[x|]|]. Qed.

Lemma vp8_parse_two_bytes b0 fl p0 p1 t tail :
  bit b0 7 <> 0 -> bit fl 7 <> 0 -> bit fl 6 <> 0 -> bit p0 7 <> 0 ->
  let data := b0 :: fl :: p0 :: p1 :: t :: tail in
  VP8.Parse data =
  obind (vp8_rest b0 fl data) (fun '(tl, kf) =>
    mret (Some (vp8_descriptor b0 fl (u16 (Z.shiftl (Z.land p0 0x7F) 8 + p1)) t tl kf))).
Proof.
  intros H0 H1 H2 H3 data. unfold VP8.Parse.
  assert (5 <= zlen data) by (unfold data; rewrite !zlen_cons; pose proof (zlen_nonneg tail); lia).
  destruct (Z.ltb_spec (zlen data) 1); [lia|].
  change (read data 0) with (Ok b0). cbn [mbind res_bind].
  apply Z.eqb_neq in H0, H1, H2, H3. rewrite H0.
  rewrite (next_byte_at data 0 fl), obind_some by (done || lia). change (0 + 1) with 1. cbv iota beta.
  unfold VP8.parse_pictureId, VP8.parse_tl0. rewrite H1, H2.
  rewrite (next_byte_at data 1 p0), !obind_some by (done || lia). cbv iota beta. rewrite H3. cbn [negb].
  change (1 + 1) with 2. rewrite (next_byte_at data 2 p1), !obind_some by (done || lia). cbv iota beta.
  change (2 + 1) with 3. rewrite (next_byte_at data 3 t), !obind_some by (done || lia). cbv iota beta. change (3 + 1) with 4.
  unfold vp8_rest. rewrite obind_assoc.
  destruct (VP8.parse_tl data (bit fl 5) (bit fl 4) 4) as [[[tl o]|]|]; [|done..]. rewrite !obind_some.
  destruct (if _ && _ && _ then _ else _) as [kf|]; [|done]. done.
Qed.

(** What follows does not depend on the PictureID and TL0PICIDX. *)
Lemma read_rest b0 fl p0 p1 t q0 q1 u tail o : 5 <= o ->
  read (b0 :: fl :: p0 :: p1 :: t :: tail) o = read (b0 :: fl :: q0 :: q1 :: u :: tail) o.
Proof. intros H. by rewrite !read_cons_S by lia. Qed.

Lemma vp8_rest_same b0 fl p0 p1 t q0 q1 u tail :
  vp8_rest b0 fl (b0 :: fl :: p0 :: p1 :: t :: tail) = vp8_rest b0 fl (b0 :: fl :: q0 :: q1 :: u :: tail).
Proof.
  unfold vp8_rest. set (d1 := b0 :: fl :: p0 :: p1 :: t :: tail). set (d2 := b0 :: fl :: q0 :: q1 :: u :: tail).
  assert (Hz : zlen d1 = zlen d2) by done.
  assert (Hr : forall o, 5 <= o -> read d1 o = read d2 o) by (intros; by apply read_rest).
  assert (Ht : VP8.parse_tl d1 (bit fl 5) (bit fl 4) 4 = VP8.parse_tl d2 (bit fl 5) (bit fl 4) 4).
  { unfold VP8.parse_tl, next_byte. by rewrite Hz, Hr by lia. }
  assert (Ho : forall tl o, VP8.parse_tl d2 (bit fl 5) (bit fl 4) 4 = Ok (Some (tl, o)) -> 4 <= o).
  { unfold VP8.parse_tl, next_byte. intros tl o. destruct (_ && _); [intros [= _ <-]; lia|].
    destruct (_ <? _); [done|]. destruct (read d2 (4 + 1)); [|done]. cbn. intros [= _ <-]. lia. }
  rewrite Ht. destruct (VP8.parse_tl d2 (bit fl 5) (bit fl 4) 4) as [[[tl o]|]|] eqn:E; [|done..].
  specialize (Ho tl o eq_refl). rewrite !obind_some, Hz, Hr by lia. done.
Qed.

Lemma obind_ok {A B} (m : res (option A)) (f : A -> res (option B)) y :
  obind m f = Ok (Some y) -> exists x, m = Ok (Some x) /\ f x = Ok (Some y).
Proof. destruct m as [[x|]|]; [|done..]. cbn. eauto. Qed.

Lemma next_byte_ok data o b o' : next_byte data o = Ok (Some (b, o')) -> o' = o + 1 /\ read data o' = Ok b.
Proof.
  unfold next_byte. destruct (_ <? _); [done|]. intros H. apply res_bind_ok in H as (x & Hx & H).
  injection H as <- <-. done.
Qed.

Lemma five_bytes data b0 b1 b2 b3 b4 :
  read data 0 = Ok b0 -> read data 1 = Ok b1 -> read data 2 = Ok b2 -> read data 3 = Ok b3 -> read data 4 = Ok b4 ->
  exists tail, data = b0 :: b1 :: b2 :: b3 :: b4 :: tail.
Proof.
  intros H0 H1 H2 H3 H4. assert (Hs : safe (read data 4)) by (by exists b4). apply read_ok_iff in Hs.
  destruct data as [|a [|b [|c [|d [|e tail]]]]]; try (unfold zlen in Hs; cbn in Hs; lia).
  change (Ok a = Ok b0) in H0. change (Ok b = Ok b1) in H1. change (Ok c = Ok b2) in H2.
  change (Ok d = Ok b3) in H3. change (Ok e = Ok b4) in H4. exists tail. congruence.
Qed.

(** The shape of the payloads with both fields. *)
Lemma vp8_shape data d : VP8.Parse data = Ok (Some d) ->
  VP8.hasTwoBytesPictureId d = true -> VP8.hasTl0PictureIndex d = true ->
  exists b0 fl p0 p1 t tail, data = b0 :: fl :: p0 :: p1 :: t :: tail /\
    bit b0 7 <> 0 /\ bit fl 7 <> 0 /\ bit fl 6 <> 0 /\ bit p0 7 <> 0.
Proof.
  unfold VP8.Parse. intros H Hp Ht. destruct (zlen data <? 1); [done|].
  apply res_bind_ok in H as (b0 & H0 & H). destruct (Z.eqb_spec (bit b0 7) 0) as [|N0]; [done|].
  apply obind_ok in H as ([fl o] & H1 & H). apply next_byte_ok in H1 as [-> H1].
  apply obind_ok in H as ([pid o] & H2 & H). apply obind_ok in H as ([tl0 o1] & H3 & H).
  apply obind_ok in H as ([tl o2] & _ & H). apply res_bind_ok in H as (kf & _ & H). injection H as <-.
  cbn in Hp, Ht. unfold VP8.parse_pictureId in H2. destruct (Z.eqb_spec (bit fl 7) 0) as [|N1]; [by injection H2 as <- _|].
  apply obind_ok in H2 as ([p0 o'] & Hp0 & H2). apply next_byte_ok in Hp0 as [-> Hp0].
  destruct (Z.eqb_spec (bit p0 7) 0) as [|N2]; cbn [negb] in H2; [by injection H2 as <- _|].
  apply obind_ok in H2 as ([p1 o'] & Hp1 & H2). apply next_byte_ok in Hp1 as [-> Hp1]. injection H2 as <- <-.
  unfold VP8.parse_tl0 in H3. destruct (Z.eqb_spec (bit fl 6) 0) as [|N3]; [by injection H3 as <- _|].
  apply obind_ok in H3 as ([t o'] & Ht4 & _). apply next_byte_ok in Ht4 as [-> Ht4].
  destruct (five_bytes data b0 fl p0 p1 t H0 H1 Hp0 Hp1 Ht4) as (tail & ->). exists b0, fl, p0, p1, t, tail. done.
Qed.

Lemma vp8_encode_two_bytes d b0 fl p0 p1 t tail pid tl0 :
  VP8.extended d <> 0 -> VP8.i d <> 0 -> VP8.l d <> 0 -> VP8.hasTwoBytesPictureId d = true ->
  VP8.Encode d (b0 :: fl :: p0 :: p1 :: t :: tail) pid tl0 =
  Ok (b0 :: fl :: Z.lor (u8 (Z.shiftr pid 8)) 0x80 :: u8 pid :: tl0 :: tail).
Proof.
  intros H0 H1 H2 H3. apply Z.eqb_neq in H0, H1, H2. unfold VP8.Encode. rewrite H0, H1, H2, H3. cbn [negb].
  rewrite (write_over [b0; fl] [p0; p1] (t :: tail)) by done. cbn [app mbind res_bind].
  unfold Byte.be2. cbn [app]. change (read (b0 :: fl :: u8 (Z.shiftr pid 8) :: ?l) 2) with (Ok (u8 (Z.shiftr pid 8))).
  cbn [mbind res_bind].
  change (b0 :: fl :: u8 (Z.shiftr pid 8) :: ?l) with ([b0; fl] ++ u8 (Z.shiftr pid 8) :: l).
  rewrite (store_app [b0; fl] _ 2 0), store_front by done. cbn [mbind res_bind fmap res_fmap app mret res_ret].
  change (b0 :: fl :: ?x :: ?y :: t :: tail) with ([b0; fl; x; y] ++ t :: tail).
  by rewrite (store_app [_; _; _; _] _ 4 0), store_front by done.
Qed.

(** The PictureID in two bytes, with the marker bit. *)
Lemma picture_marker m : fits 8 m -> bit (Z.lor m 0x80) 7 <> 0 /\ Z.land (Z.lor m 0x80) 0x7F = m mod 128.
Proof.
  intros Hm. assert (H : forallb (fun m => negb (bit (Z.lor m 0x80) 7 =? 0) && (Z.land (Z.lor m 0x80) 0x7F =? m mod 128)) (seqZ 0 256) = true)
    by (vm_compute; reflexivity).
  rewrite forallb_forall in H. specialize (H m). rewrite andb_true_iff, negb_true_iff, Z.eqb_neq, Z.eqb_eq in H.
  apply H, list_elem_of_In, elem_of_seqZ. ulia.
Qed.

Lemma picture_unmark p : fits 8 p -> bit p 7 <> 0 -> Z.lor (Z.land p 0x7F) 0x80 = p.
Proof.
  intros Hp Hb. assert (H : forallb (fun p => (bit p 7 =? 0) || (Z.lor (Z.land p 0x7F) 0x80 =? p)) (seqZ 0 256) = true)
    by (vm_compute; reflexivity).
  rewrite forallb_forall in H. specialize (H p). rewrite orb_true_iff, !Z.eqb_eq in H.
  destruct H as [H|H]; [apply list_elem_of_In, elem_of_seqZ; ulia|done|done].
Qed.

Lemma land_7F p : 0 <= Z.land p 0x7F < 128.
Proof. change 0x7F with (2 ^ 7 - 1). rewrite land_ones_mod by lia. ulia. Qed.

Lemma picture_value m p1 : fits 8 m -> fits 8 p1 ->
  u16 (Z.shiftl (Z.land (Z.lor m 0x80) 0x7F) 8 + p1) = (m * 256 + p1) mod 2 ^ 15.
Proof.
  intros Hm Hp. destruct (picture_marker m Hm) as [_ ->]. rewrite Z.shiftl_mul_pow2 by lia.
  change (2 ^ 15) with 32768. unfold fits in *. rewrite uwrap_id by ulia. change (2 ^ 8) with 256 in *. Z.div_mod_to_equations. lia.
Qed.

Lemma picture_bytes p0 p1 : fits 8 p0 -> fits 8 p1 -> bit p0 7 <> 0 ->
  let pid := u16 (Z.shiftl (Z.land p0 0x7F) 8 + p1) in
  fits 16 pid /\ Z.lor (u8 (Z.shiftr pid 8)) 0x80 = p0 /\ u8 pid = p1.
Proof.
  intros H0 H1 Hb pid. pose proof (land_7F p0).
  assert (Hpid : pid = Z.land p0 0x7F * 256 + p1).
  { unfold pid. rewrite Z.shiftl_mul_pow2 by lia. change (2 ^ 8) with 256. apply uwrap_id. unfold fits in *. pow2_consts. lia. }
  rewrite shiftr_u8 by lia. change (2 ^ 8) with 256. unfold fits in H1. change (2 ^ 8) with 256 in H1.
  assert ((pid / 256) mod 256 = Z.land p0 0x7F) as -> by (rewrite Hpid; Z.div_mod_to_equations; lia).
  split_and!; [apply uwrap_fits; lia|by apply picture_unmark|rewrite Hpid; ulia].
Qed.

(** The descriptor with other values of the two fields. *)
Definition with_ids (d : VP8.PayloadDescriptor) (pid tl0 : Z) : VP8.PayloadDescriptor :=
  {| VP8.extended := VP8.extended d; VP8.nonReference := VP8.nonReference d; VP8.start := VP8.start d;
     VP8.partitionIndex := VP8.partitionIndex d; VP8.i := VP8.i d; VP8.l := VP8.l d; VP8.t := VP8.t d; VP8.k := VP8.k d;
     VP8.pictureId := pid; VP8.tl0PictureIndex := tl0; VP8.tlIndex := VP8.tlIndex d; VP8.y := VP8.y d;
     VP8.keyIndex := VP8.keyIndex d; VP8.isKeyFrame := VP8.isKeyFrame d; VP8.hasPictureId := VP8.hasPictureId d;
     VP8.hasOneBytePictureId := VP8.hasOneBytePictureId d; VP8.hasTwoBytesPictureId := VP8.hasTwoBytesPictureId d;
     VP8.hasTl0PictureIndex := VP8.hasTl0PictureIndex d; VP8.hasTlIndex := VP8.hasTlIndex d |}.

Lemma vp8_rewrite data d pid tl0 :
  bytes_ok data -> VP8.Parse data = Ok (Some d) ->
  VP8.hasTwoBytesPictureId d = true -> VP8.hasTl0PictureIndex d = true ->
  exists data', VP8.Encode d data pid tl0 = Ok data' /\ zlen data' = zlen data /\
    VP8.Parse data' = Ok (Some (with_ids d (pid mod 2 ^ 15) tl0)) /\
    VP8.Encode d data' (VP8.pictureId d) (VP8.tl0PictureIndex d) = Ok data.
Proof.
  intros Hb HP Hp Ht. destruct (vp8_shape data d HP Hp Ht) as (b0 & fl & p0 & p1 & t & tail & -> & N0 & N1 & N2 & N3).
  rewrite vp8_parse_two_bytes in HP by done. apply obind_ok in HP as ([tl kf] & Hr & HP). injection HP as <-.
  bytes_inv. destruct (picture_bytes p0 p1) as (Hf & Ep0 & Ep1); [done..|].
  rewrite vp8_encode_two_bytes by done. eexists. split_and!; [done|done| |].
  - destruct (picture_marker (u8 (Z.shiftr pid 8)) (u8_fits _)) as [Nm _].
    rewrite vp8_parse_two_bytes by done.
    rewrite (vp8_rest_same b0 fl _ _ _ p0 p1 t), Hr. cbn [obind mbind res_bind].
    rewrite picture_value by apply u8_fits. unfold with_ids, vp8_descriptor. cbn.
    do 3 f_equal. rewrite shiftr_u8 by lia.
    change (2 ^ 15) with 32768. change (2 ^ 8) with 256. unfold uwrap. pow2_consts. Z.div_mod_to_equations. lia.
  - rewrite vp8_encode_two_bytes by done. unfold vp8_descriptor. cbn [VP8.pictureId VP8.tl0PictureIndex]. by rewrite Ep0, Ep1.
Qed.

Lemma Input_output_fits n m x o m' : 0 <= n -> Manager.Input n m x = (Some o, m') -> fits n o.
Proof.
  intros Hn. unfold Manager.Input. destruct (_ && _); [done|]. intros [= <- _]. rewrite land_MaxValue by done.
  unfold fits. apply Z.mod_pos_bound. apply Z.pow_pos_nonneg; lia.
Qed.

Lemma update_layer_target d b : 0 <= targetTemporalLayer b ->
  currentTemporalLayer (VP8.update_layer d b) <= targetTemporalLayer b.
Proof.
  intros H. unfold VP8.update_layer.
  set (b1 := if _ && _ then _ else _).
  assert (Hb : targetTemporalLayer b1 = targetTemporalLayer b)
    by (unfold b1; destruct (_ && _); [done|]; by destruct (negb _)).
  destruct (Z.ltb_spec (targetTemporalLayer b1) (currentTemporalLayer b1)); cbn; rewrite Hb in *; lia.
Qed.

(** C35: A VP8 packet with a two-byte PictureID and a TL0PICIDX goes through [Process]: the
    operation returns; a packet that is forwarded is parsed by its receiver with the same
    descriptor, but for the PictureID and the TL0PICIDX, which are those of the managers, and
    the current temporal layer is not above the target; and [Restore] gives the payload back,
    for the next consumer. *)
Theorem vp8_process_restore data d c :
  bytes_ok data -> VP8.Parse data = Ok (Some d) ->
  VP8.hasTwoBytesPictureId d = true -> VP8.hasTl0PictureIndex d = true ->
  0 <= targetTemporalLayer (VP8.base c) ->
  exists forwarded c' data', VP8.Process d c data = Ok (forwarded, c', data') /\
    zlen data' = zlen data /\ VP8.Restore d data' = Ok data /\
    if forwarded then
      currentTemporalLayer (VP8.base c') <= targetTemporalLayer (VP8.base c) /\
      exists pid tl0 m m', VP8.Parse data' = Ok (Some (with_ids d pid tl0)) /\
        Manager.Input 15 (VP8.pictureIdManager (VP8.sync d c)) (VP8.pictureId d) = (Some pid, m) /\
        Manager.Input 8 (VP8.tl0PictureIndexManager (VP8.sync d c)) (VP8.tl0PictureIndex d) = (Some tl0, m')
    else data' = data.
Proof.
  intros Hb HP Hp Ht Htarget.
  assert (Hpid : VP8.hasPictureId d = true).
  { destruct (vp8_shape data d HP Hp Ht) as (b0 & fl & p0 & p1 & t & tail & -> & N0 & N1 & N2 & N3).
    rewrite vp8_parse_two_bytes in HP by done. apply obind_ok in HP as ([tl kf] & _ & HP). by injection HP as <-. }
  assert (Hself : VP8.Restore d data = Ok data).
  { unfold VP8.Restore. rewrite Hpid, Ht. cbn [andb].
    destruct (vp8_rewrite data d (VP8.pictureId d) (VP8.tl0PictureIndex d) Hb HP Hp Ht) as (data' & E & _ & HP' & E').
    destruct (vp8_shape data d HP Hp Ht) as (b0 & fl & p0 & p1 & t & tail & -> & N0 & N1 & N2 & N3).
    rewrite vp8_parse_two_bytes in HP by done. apply obind_ok in HP as ([tl kf] & _ & HP). injection HP as <-.
    bytes_inv. destruct (picture_bytes p0 p1) as (_ & Ep0 & Ep1); [done..|].
    rewrite vp8_encode_two_bytes by done. cbn [vp8_descriptor VP8.pictureId VP8.tl0PictureIndex]. by rewrite Ep0, Ep1. }
  unfold VP8.Process. destruct (Z.leb_spec 0 (targetTemporalLayer (VP8.base c))); [|lia]. cbn [ms_assert mbind res_bind].
  assert (Hbase : VP8.base (VP8.sync d c) = VP8.base c) by (unfold VP8.sync; by destruct (_ && _)).
  destruct (VP8.to_drop d (VP8.sync d c)); [by eexists _, _, _|].
  unfold VP8.input. rewrite Hpid, Ht.
  destruct (Manager.Input 15 _ _) as [[pid|] m] eqn:E15; [|by eexists _, _, _].
  cbn [VP8.set_managers VP8.tl0PictureIndexManager].
  destruct (Manager.Input 8 _ _) as [[tl0|] m'] eqn:E8; [|by eexists _, _, _].
  cbn [andb]. destruct (vp8_rewrite data d pid tl0 Hb HP Hp Ht) as (data' & -> & Hz & HP' & E').
  cbn [mbind res_bind]. eexists true, _, data'. split_and!; [done|done| | |].
  - unfold VP8.Restore. by rewrite Hpid, Ht.
  - cbn [VP8.base VP8.set_base VP8.set_managers]. rewrite Hbase. by apply update_layer_target.
  - exists pid, tl0, m, m'. rewrite HP'. rewrite Z.mod_small by (apply (Input_output_fits 15) in E15; [done|lia]). done.
Qed.

Definition sample_vp8 : list Z := [0x90; 0xE0; 0x85; 1; 7; 0x20; 0].
Definition sample_vp8_context (target : Z) : VP8.Context_ :=
  {| VP8.base := EncodingContext.SetTargetTemporalLayer (EncodingContext.make 1 2 false) target;
     VP8.pictureIdManager := Manager.init; VP8.tl0PictureIndexManager := Manager.init; VP8.syncRequired := true |}.

Ltac descriptor_of r :=
  let r' := eval vm_compute in r in match r' with Ok (Some ?d) => exact d end.

Definition sample_vp8_descriptor : VP8.PayloadDescriptor := ltac:(descriptor_of (VP8.Parse sample_vp8)).

Lemma vp8_process_restore_witness :
  exists forwarded c' data', VP8.Process sample_vp8_descriptor (sample_vp8_context 1) sample_vp8 = Ok (forwarded, c', data') /\
    VP8.Restore sample_vp8_descriptor data' = Ok sample_vp8.
Proof.
  destruct (vp8_process_restore sample_vp8 sample_vp8_descriptor (sample_vp8_context 1)) as (x & c' & data' & E & _ & R & _);
    [by apply (bool_decide_unpack _)|vm_compute; reflexivity|reflexivity|reflexivity|vm_compute; discriminate|].
  exists x, c', data'. split; [exact E|exact R].
Defined.

(** ** VP9 and H264-SVC: the layers that are forwarded *)

(** A packet at which the consumer goes to its target spatial layer: a key frame or, if it
    goes down and the encoding is not K-SVC, the end of a frame of the target layer. *)
Definition switches_spatial (c : EncodingContext.t) (p : Svc.packet) : Prop :=
  currentSpatialLayer c <> targetSpatialLayer c /\
  (Svc.keyFrame p = true /\ (currentSpatialLayer c < targetSpatialLayer c \/ ksvc c = true) \/
   targetSpatialLayer c < currentSpatialLayer c /\ ksvc c = false /\
   Svc.spatial p = targetSpatialLayer c /\ Svc.endOfFrame p = true).

(** A packet at which it goes up to the temporal layer of the packet, [up] being whether the
    packet allows it, and one at which it goes down to its target. *)
Definition raises_temporal (c : EncodingContext.t) (p : Svc.packet) (up : bool) : Prop :=
  currentTemporalLayer c < targetTemporalLayer c /\ currentTemporalLayer c < Svc.temporal p /\ up = true.
Definition lowers_temporal (c : EncodingContext.t) (p : Svc.packet) : Prop :=
  targetTemporalLayer c < currentTemporalLayer c /\ Svc.temporal p = targetTemporalLayer c /\ Svc.endOfFrame p = true.

(** The layers [s] and [t] the consumer is at after the packet, if it forwards it; an old
    packet changes no temporal layer, other than with a new spatial one, which starts at 0. *)
Record layers_after (c : EncodingContext.t) (p : Svc.packet) (up old : bool) (s t : Z) : Prop := {
  after_spatial : switches_spatial c p /\ s = targetSpatialLayer c \/ ~ switches_spatial c p /\ s = currentSpatialLayer c;
  after_temporal :
    old = false /\ raises_temporal c p up /\ t = Svc.temporal p \/
    old = false /\ lowers_temporal c p /\ t = targetTemporalLayer c \/
    (old = true \/ ~ raises_temporal c p up /\ ~ lowers_temporal c p) /\
      (switches_spatial c p /\ t = 0 \/ ~ switches_spatial c p /\ t = currentTemporalLayer c);
}.

(** The packets that are forwarded: of announced layers and, unless it is an old packet, of
    no higher layers than those the consumer is then at; in K-SVC a packet that is predicted
    from another picture ([inter]) only of the spatial layer the consumer is at. *)
Definition forwards (c : EncodingContext.t) (p : Svc.packet) (old inter : bool) (s t : Z) : Prop :=
  Svc.spatial p < EncodingContext.spatialLayers c /\ Svc.temporal p < EncodingContext.temporalLayers c /\
  (old = true \/
   Svc.spatial p <= s /\ Svc.temporal p <= t /\ (ksvc c = true -> inter = true -> Svc.spatial p = s)).

(** The context after a packet that is forwarded, and the marker: the end of a frame of the
    spatial layer the consumer is at is marked. *)
Record moved (c c' : EncodingContext.t) (p : Svc.packet) (s t : Z) (marker marker' : bool) : Prop := {
  moved_spatial : currentSpatialLayer c' = s;
  moved_temporal : currentTemporalLayer c' = t;
  moved_targets : targetSpatialLayer c' = targetSpatialLayer c /\ targetTemporalLayer c' = targetTemporalLayer c /\
    ksvc c' = ksvc c /\ EncodingContext.spatialLayers c' = EncodingContext.spatialLayers c /\
    EncodingContext.temporalLayers c' = EncodingContext.temporalLayers c;
  moved_marker : marker' = marker || ((Svc.spatial p =? s) && Svc.endOfFrame p);
}.

Lemma update_layers_current c s t :
  currentSpatialLayer (Svc.update_layers c s t) = s /\ currentTemporalLayer (Svc.update_layers c s t) = t /\
  targetSpatialLayer (Svc.update_layers c s t) = targetSpatialLayer c /\
  targetTemporalLayer (Svc.update_layers c s t) = targetTemporalLayer c /\
  ksvc (Svc.update_layers c s t) = ksvc c /\
  EncodingContext.spatialLayers (Svc.update_layers c s t) = EncodingContext.spatialLayers c /\
  EncodingContext.temporalLayers (Svc.update_layers c s t) = EncodingContext.temporalLayers c.
Proof.
  unfold Svc.update_layers. destruct (Z.eqb_spec s (currentSpatialLayer c)) as [->|]; cbn;
    (destruct (Z.eqb_spec t (currentTemporalLayer c)) as [->|]; cbn; done).
Qed.

Lemma switch_spatial_spec c p :
  switches_spatial c p /\ Svc.switch_spatial c p = (targetSpatialLayer c, 0) \/
  ~ switches_spatial c p /\ Svc.switch_spatial c p = (currentSpatialLayer c, currentTemporalLayer c).
Proof.
  unfold Svc.switch_spatial, switches_spatial.
  destruct (Z.ltb_spec (currentSpatialLayer c) (targetSpatialLayer c));
    [|destruct (Z.ltb_spec (targetSpatialLayer c) (currentSpatialLayer c)); [destruct (ksvc c)|]];
    destruct (Svc.keyFrame p); destruct (Z.eqb_spec (Svc.spatial p) (targetSpatialLayer c)); destruct (Svc.endOfFrame p);
    cbn [andb]; first [left; split; [split; [lia|intuition lia]|done] | right; split; [intuition (lia || discriminate)|done]].
Qed.

Lemma switch_temporal_spec c p up tmp :
  raises_temporal c p up /\ Svc.switch_temporal c p up tmp = Svc.temporal p \/
  lowers_temporal c p /\ Svc.switch_temporal c p up tmp = targetTemporalLayer c \/
  (~ raises_temporal c p up /\ ~ lowers_temporal c p) /\ Svc.switch_temporal c p up tmp = tmp.
Proof.
  unfold Svc.switch_temporal, raises_temporal, lowers_temporal.
  destruct (Z.ltb_spec (currentTemporalLayer c) (targetTemporalLayer c)).
  - destruct (Z.leb_spec (currentTemporalLayer c + 1) (Svc.temporal p)); cbn [andb]; [destruct up|];
      [left; split; [split_and!; lia || done|done] | right; right; split; [intuition (lia || discriminate)|done]..].
  - destruct (Z.ltb_spec (targetTemporalLayer c) (currentTemporalLayer c));
      [|right; right; split; [intuition lia|done]].
    destruct (Z.eqb_spec (Svc.temporal p) (targetTemporalLayer c)); cbn [andb]; [destruct (Svc.endOfFrame p)|];
      [right; left; done | right; right; split; [intuition (lia || discriminate)|done]..].
Qed.

Lemma layers_after_switch c p up (old : bool) s t :
  Svc.switch_spatial c p = (s, t) -> layers_after c p up old s (if old then t else Svc.switch_temporal c p up t).
Proof.
  intros Hs. destruct (switch_spatial_spec c p) as [[Hsw E]|[Hsw E]]; rewrite E in Hs; injection Hs as <- <-;
    (split; [tauto|]); (destruct old; [tauto|]);
    destruct (switch_temporal_spec c p up 0) as [[? E1]|[[? E1]|[? E1]]];
    destruct (switch_temporal_spec c p up (currentTemporalLayer c)) as [[? E2]|[[? E2]|[? E2]]]; rewrite ?E1, ?E2; tauto.
Qed.

Lemma moved_update c p s t (marker : bool) :
  moved c (Svc.update_layers c s t) p s t marker (if (Svc.spatial p =? s) && Svc.endOfFrame p then true else marker).
Proof.
  destruct (update_layers_current c s t) as (E1 & E2 & E3 & E4 & E5 & E6 & E7). split; try done.
  by destruct ((_ =? _) && _), marker.
Qed.

(** The context at the packet: with the picture ids synchronized if that is required. *)
Definition vp9_synced (d : VP9.PayloadDescriptor) (c : VP9.Context_) : VP9.Context_ :=
  if VP9.syncRequired c && VP9.hasPictureId d then
    {| VP9.base := VP9.base c; VP9.pictureIdManager := Manager.Sync 15 (VP9.pictureIdManager c) (u16 (VP9.pictureId d - 1));
       VP9.syncRequired := false |}
  else c.

Lemma vp9_synced_base d c : VP9.base (vp9_synced d c) = VP9.base c.
Proof. unfold vp9_synced. by destruct (VP9.syncRequired c && VP9.hasPictureId d). Qed.

(** An old VP9 packet, of a picture before the last one. *)
Definition vp9_old (d : VP9.PayloadDescriptor) (c : VP9.Context_) : bool :=
  VP9.hasPictureId d &&
  IsSeqLowerThan 15 (VP9.pictureId d) (Manager.GetMaxInput (VP9.pictureIdManager (vp9_synced d c))).

(** The picture ids seen after a packet that is forwarded. *)
Definition vp9_seen (d : VP9.PayloadDescriptor) (c : VP9.Context_) : Manager.SeqManager :=
  if VP9.hasPictureId d then snd (Manager.Input 15 (VP9.pictureIdManager (vp9_synced d c)) (VP9.pictureId d))
  else VP9.pictureIdManager (vp9_synced d c).

Lemma vp9_forwarding d c marker :
  0 <= targetSpatialLayer (VP9.base c) -> 0 <= targetTemporalLayer (VP9.base c) ->
  exists (forwarded : bool) c' marker' s t, VP9.Process d c marker = Ok (forwarded, c', marker') /\
    layers_after (VP9.base c) (VP9.svc_packet d) (VP9.switches_up d (VP9.base c)) (vp9_old d c) s t /\
    (forwarded = true <-> forwards (VP9.base c) (VP9.svc_packet d) (vp9_old d c) (negb (VP9.p d =? 0)) s t) /\
    if forwarded
    then moved (VP9.base c) (VP9.base c') (VP9.svc_packet d) s t marker marker' /\ VP9.pictureIdManager c' = vp9_seen d c
    else VP9.base c' = VP9.base c /\ marker' = marker.
Proof.
  intros H1 H2. unfold VP9.Process, vp9_old, vp9_seen. fold (vp9_synced d c).
  destruct (Z.leb_spec 0 (targetSpatialLayer (VP9.base c))); [|lia].
  destruct (Z.leb_spec 0 (targetTemporalLayer (VP9.base c))); [|lia]. cbn [ms_assert mbind res_bind].
  set (old := _ && _). set (pkt := VP9.svc_packet d). rewrite vp9_synced_base.
  destruct (Svc.switch_spatial (VP9.base c) pkt) as [s t] eqn:Es.
  pose proof (layers_after_switch _ _ (VP9.switches_up d (VP9.base c)) old s t Es) as Hl. cbv zeta.
  set (t' := if old then t else _) in *. unfold forwards.
  destruct (Z.leb_spec (EncodingContext.spatialLayers (VP9.base c)) (Svc.spatial pkt)); cbn [orb].
  { eexists false, c, marker, s, t'. split_and!; try done. split; [done|lia]. }
  destruct (Z.leb_spec (EncodingContext.temporalLayers (VP9.base c)) (Svc.temporal pkt)).
  { eexists false, c, marker, s, t'. split_and!; try done. split; [done|lia]. }
  destruct old; cbn [negb andb].
  { eexists true, _, _, s, t'. split_and!; try done; [tauto|apply moved_update]. }
  destruct (Z.ltb_spec s (Svc.spatial pkt)); cbn [orb].
  { eexists false, _, marker, s, t'. split_and!; try done; [|apply vp9_synced_base]. split; [done|]. intros (_ & _ & [?|(? & _)]); [done|lia]. }
  destruct (ksvc (VP9.base c) && _ && _) eqn:Ek.
  { eexists false, _, marker, s, t'. split_and!; try done; [|apply vp9_synced_base]. rewrite !andb_true_iff, (negb_true_iff (_ =? s)), Z.eqb_neq in Ek.
    split; [done|]. intros (_ & _ & [?|(_ & _ & ?)]); [done|tauto]. }
  destruct (Z.ltb_spec t' (Svc.temporal pkt)).
  { eexists false, _, marker, s, t'. split_and!; try done; [|apply vp9_synced_base]. split; [done|]. intros (_ & _ & [?|(_ & ? & _)]); [done|lia]. }
  eexists true, _, _, s, t'. split_and!; try done; [|apply moved_update].
  split; [|done]. intros _. split_and!; [done..|]. right. split_and!; [done..|]. intros Hk Hp. rewrite Hk, Hp in Ek. cbn [andb] in Ek.
  by apply negb_false_iff, Z.eqb_eq in Ek.
Qed.

Lemma h264_svc_forwarding x c marker :
  0 <= targetSpatialLayer c -> 0 <= targetTemporalLayer c ->
  exists (forwarded : bool) c' marker' s t, H264_SVC.Process x c marker = Ok (forwarded, c', marker') /\
    layers_after c (H264_SVC.svc_packet x) (negb (H264_SVC.s x =? 0)) false s t /\
    (forwarded = true <-> forwards c (H264_SVC.svc_packet x) false false s t) /\
    if forwarded then moved c c' (H264_SVC.svc_packet x) s t marker marker' else c' = c /\ marker' = marker.
Proof.
  intros H1 H2. unfold H264_SVC.Process, forwards. set (pkt := H264_SVC.svc_packet x). set (up := negb (H264_SVC.s x =? 0)).
  destruct (Z.leb_spec 0 (targetSpatialLayer c)); [|lia].
  destruct (Z.leb_spec 0 (targetTemporalLayer c)); [|lia]. cbn [ms_assert mbind res_bind].
  destruct (Svc.switch_spatial c pkt) as [s t] eqn:Es. pose proof (layers_after_switch _ _ up false s t Es) as Hl. cbv iota in Hl.
  set (t' := Svc.switch_temporal c pkt up t) in *.
  destruct (Z.leb_spec (EncodingContext.spatialLayers c) (Svc.spatial pkt)); cbn [orb].
  { eexists false, c, marker, s, t'. split_and!; try done. split; [done|lia]. }
  destruct (Z.leb_spec (EncodingContext.temporalLayers c) (Svc.temporal pkt)).
  { eexists false, c, marker, s, t'. split_and!; try done. split; [done|lia]. }
  destruct (Z.ltb_spec s (Svc.spatial pkt)).
  { eexists false, c, marker, s, t'. split_and!; try done. split; [done|]. intros (_ & _ & [?|(? & _)]); [done|lia]. }
  destruct (Z.ltb_spec t' (Svc.temporal pkt)).
  { eexists false, c, marker, s, t'. split_and!; try done. split; [done|]. intros (_ & _ & [?|(_ & ? & _)]); [done|lia]. }
  eexists true, _, _, s, t'. split_and!; try done; [|apply moved_update]. split; [|done]. intros _. split_and!; [done..|].
  right. split_and!; [done..|]. done.
Qed.

(** C36: Which packets a consumer of VP9 or H264-SVC with target layers set forwards, exactly, and
    the layers it is at then.  [Process] always decides.  The spatial layer changes to the
    target one at a key frame or, downwards and not in K-SVC, at the end of a frame of the
    target layer; the temporal layer rises to that of a packet above the current one that
    allows it, while the current one is below the target, or falls to the target at the end
    of a frame of that layer, and restarts at 0 with a new spatial layer.  A packet is
    forwarded if and only if its layers are announced ones and it is of no higher layers than
    those the consumer is at after it, in VP9 with K-SVC of just that spatial layer unless it
    is not predicted from another picture; an old VP9 packet, of a picture before the last
    one forwarded, is forwarded whatever its layers are, and moves no temporal layer.  If it
    is not forwarded the layers and the marker stay; if it is, the consumer is at the layers
    said, its targets are kept, the packet that ends a frame of its spatial layer is marked,
    and a VP9 picture id is entered among those seen. *)
Theorem svc_forwarding d x c marker :
  0 <= targetSpatialLayer (VP9.base c) -> 0 <= targetTemporalLayer (VP9.base c) ->
  (exists (forwarded : bool) c' marker' s t, VP9.Process d c marker = Ok (forwarded, c', marker') /\
    layers_after (VP9.base c) (VP9.svc_packet d) (VP9.switches_up d (VP9.base c)) (vp9_old d c) s t /\
    (forwarded = true <-> forwards (VP9.base c) (VP9.svc_packet d) (vp9_old d c) (negb (VP9.p d =? 0)) s t) /\
    if forwarded
    then moved (VP9.base c) (VP9.base c') (VP9.svc_packet d) s t marker marker' /\ VP9.pictureIdManager c' = vp9_seen d c
    else VP9.base c' = VP9.base c /\ marker' = marker) /\
  (exists (forwarded : bool) c' marker' s t, H264_SVC.Process x (VP9.base c) marker = Ok (forwarded, c', marker') /\
    layers_after (VP9.base c) (H264_SVC.svc_packet x) (negb (H264_SVC.s x =? 0)) false s t /\
    (forwarded = true <-> forwards (VP9.base c) (H264_SVC.svc_packet x) false false s t) /\
    if forwarded then moved (VP9.base c) c' (H264_SVC.svc_packet x) s t marker marker' else c' = VP9.base c /\ marker' = marker).
Proof. intros H1 H2. split; [by apply vp9_forwarding|by apply h264_svc_forwarding]. Qed.

Definition sample_vp9_context : VP9.Context_ :=
  {| VP9.base := EncodingContext.SetTargetTemporalLayer
       (EncodingContext.SetTargetSpatialLayer (EncodingContext.make 3 3 false) 2) 1;
     VP9.pictureIdManager := Manager.init; VP9.syncRequired := true |}.

(** The first packet of a key frame: picture 5, layers [sl] and [tl]. *)
Definition sample_vp9 (first tl sl : Z) : list Z := [first; 5; Z.lor (Z.shiftl tl 5) (Z.lor 0x10 (Z.shiftl sl 1)); 0; 0].

Definition sample_vp9_descriptor (tl : Z) : VP9.PayloadDescriptor :=
  match VP9.Parse (sample_vp9 0xA8 tl 0) with
  | Ok (Some d) => d
  | _ => ltac:(descriptor_of (VP9.Parse (sample_vp9 0xA8 0 0)))
  end.

Lemma svc_forwarding_witness :
  exists forwarded c' marker', VP9.Process (sample_vp9_descriptor 0) sample_vp9_context false = Ok (forwarded, c', marker').
Proof.
  destruct (svc_forwarding (sample_vp9_descriptor 0) H264_SVC.empty sample_vp9_context false)
    as [(x & c' & m & s & t & E & _) _]; [by vm_compute..|].
  exists x, c', m. exact E.
Defined.

(** The temporal layer that is switched up to is that of the packet, also when it is above
    the target: a consumer that wants temporal layer 1 is sent layer 2. *)
Example svc_above_target :
  exists c', VP9.Process (sample_vp9_descriptor 2) sample_vp9_context false = Ok (true, c', false) /\
    targetTemporalLayer (VP9.base c') = 1 /\ currentTemporalLayer (VP9.base c') = 2.
Proof. vm_compute. by eexists. Qed.

Lemma vp9_key_frame data d : VP9.Parse data = Ok (Some d) -> VP9.isKeyFrame d = true ->
  VP9.GetSpatialLayer d = 0 /\ VP9.b d <> 0 /\ VP9.p d = 0.
Proof.
  unfold VP9.Parse. intros H. destruct (zlen data <? 1); [done|].
  apply res_bind_ok in H as (b0 & _ & H). apply obind_ok in H as ([pid o] & _ & H). apply obind_ok in H as ([layers o'] & _ & H).
  injection H as <-. cbn [VP9.isKeyFrame VP9.b VP9.p]. rewrite !andb_true_iff, negb_true_iff, Z.eqb_neq, !Z.eqb_eq.
  intros [[Hp Hb] Hsl]. split_and!; [|done..]. unfold VP9.GetSpatialLayer. cbn [VP9.hasSlIndex VP9.slIndex].
  destruct layers as [[x y]|]; [exact Hsl|done].
Qed.

(** C23: A key frame brings a VP9 consumer that waits for it to its target.  When the target layers are
    announced ones, and the consumer is not above its target spatial layer, or the encoding is
    K-SVC, then every packet that [Parse] finds to start a key frame, of temporal layer 0 and
    not of a picture before the last one, is forwarded, and the current spatial layer is the
    target one after it.  (Without K-SVC a consumer goes down at the end of a frame of the
    target layer instead.) *)
Theorem vp9_key_frame_reaches_target data d c marker :
  VP9.Parse data = Ok (Some d) -> VP9.isKeyFrame d = true -> VP9.GetTemporalLayer d = 0 -> vp9_old d c = false ->
  0 <= targetSpatialLayer (VP9.base c) < EncodingContext.spatialLayers (VP9.base c) ->
  0 <= targetTemporalLayer (VP9.base c) < EncodingContext.temporalLayers (VP9.base c) ->
  -1 <= currentTemporalLayer (VP9.base c) ->
  ksvc (VP9.base c) = true \/ currentSpatialLayer (VP9.base c) <= targetSpatialLayer (VP9.base c) ->
  exists c' marker', VP9.Process d c marker = Ok (true, c', marker') /\
    currentSpatialLayer (VP9.base c') = targetSpatialLayer (VP9.base c).
Proof.
  intros HP Hk Htl Hold Hs Ht Hcur Hdir. destruct (vp9_key_frame data d HP Hk) as (Hsl & Hb & Hp). unfold VP9.Process.
  assert (Esp : Svc.spatial (VP9.svc_packet d) = 0) by done. assert (Et : Svc.temporal (VP9.svc_packet d) = 0) by done.
  rewrite Esp, Et.
  destruct (Z.leb_spec 0 (targetSpatialLayer (VP9.base c))); [|lia].
  destruct (Z.leb_spec 0 (targetTemporalLayer (VP9.base c))); [|lia]. cbn [ms_assert mbind res_bind].
  destruct (Z.leb_spec (EncodingContext.spatialLayers (VP9.base c)) 0); [lia|]. cbn [orb].
  destruct (Z.leb_spec (EncodingContext.temporalLayers (VP9.base c)) 0); [lia|].
  unfold vp9_old in Hold. fold (vp9_synced d c).
  rewrite Hold, vp9_synced_base. cbn [negb andb].
  assert (exists t, Svc.switch_spatial (VP9.base c) (VP9.svc_packet d) = (targetSpatialLayer (VP9.base c), t) /\
    (t = 0 \/ t = currentTemporalLayer (VP9.base c))) as (t & -> & Ht').
  { unfold Svc.switch_spatial. cbn [VP9.svc_packet Svc.keyFrame]. rewrite Hk.
    destruct (Z.ltb_spec (currentSpatialLayer (VP9.base c)) (targetSpatialLayer (VP9.base c))); [by eauto|].
    destruct (Z.ltb_spec (targetSpatialLayer (VP9.base c)) (currentSpatialLayer (VP9.base c))).
    - destruct Hdir as [->|]; [by eauto|lia].
    - exists (currentTemporalLayer (VP9.base c)). split; [f_equal; lia|auto]. }
  destruct (Z.ltb_spec (targetSpatialLayer (VP9.base c)) 0); [lia|]. rewrite Hp. cbn [Z.eqb negb andb orb].
  rewrite andb_false_r. cbn [andb].
  set (t' := Svc.switch_temporal _ _ _ _). assert (0 <= t').
  { unfold t', Svc.switch_temporal, VP9.switches_up. rewrite Et.
    apply Z.eqb_neq in Hb. rewrite Hb. cbn [negb andb]. rewrite andb_true_r.
    destruct (Z.ltb_spec (currentTemporalLayer (VP9.base c)) (targetTemporalLayer (VP9.base c))).
    - destruct (Z.leb_spec (currentTemporalLayer (VP9.base c) + 1) 0); cbn [andb]; [|lia].
      destruct (Z.eqb_spec (currentTemporalLayer (VP9.base c)) (-1)); cbn [orb]; [lia|]. destruct (negb _); lia.
    - destruct (_ <? _); [|lia]. destruct ((0 =? _) && _); lia. }
  destruct (Z.ltb_spec t' 0); [lia|]. eexists _, _. split; [done|]. cbn [VP9.base]. apply update_layers_current.
Qed.

Lemma vp9_key_frame_reaches_target_witness :
  exists c' marker', VP9.Process (sample_vp9_descriptor 0) sample_vp9_context false = Ok (true, c', marker') /\
    currentSpatialLayer (VP9.base c') = 2.
Proof.
  apply (vp9_key_frame_reaches_target (sample_vp9 0xA8 0 0) (sample_vp9_descriptor 0) sample_vp9_context false);
    [vm_compute; reflexivity|reflexivity|reflexivity|vm_compute; reflexivity|vm_compute; split; (discriminate || reflexivity)..
    |vm_compute; discriminate|right; vm_compute; discriminate].
Defined.
