(* ===== verification/Payload.v ===== *)
(** * Payloads: the codec contexts of the consumers

    Models [GetEncodingContext] of [worker/include/RTC/Codecs/Tools.hpp], and
    [RtpPacket::ProcessPayload] and [RestorePayload] of [worker/src/RTC/RtpPacket.cpp]: the
    class of a context is a case of a sum, and the [static_cast] of a descriptor's [Process]
    to the context of its codec faults on the others. *)

From S2P Require Import Prelude Utils SeqManager RtcpPacket RtpPacket Codecs.

Module Payload.

Import Tools.

Inductive Context :=
| CVP8 (c : VP8.Context_)
| CVP9 (c : VP9.Context_)
| CH264 (c : EncodingContext.t)
| CH264_SVC (c : EncodingContext.t)
| COpus (c : EncodingContext.t).

(** The members of the base class. *)
Definition context (c : Context) : EncodingContext.t :=
  match c with
  | CVP8 c => VP8.base c
  | CVP9 c => VP9.base c
  | CH264 c | CH264_SVC c | COpus c => c
  end.

Definition on_context (f : EncodingContext.t -> EncodingContext.t) (c : Context) : Context :=
  match c with
  | CVP8 c => CVP8 (VP8.set_base c (f (VP8.base c)))
  | CVP9 c =>
      CVP9 {| VP9.base := f (VP9.base c); VP9.pictureIdManager := VP9.pictureIdManager c;
              VP9.syncRequired := VP9.syncRequired c |}
  | CH264 c => CH264 (f c)
  | CH264_SVC c => CH264_SVC (f c)
  | COpus c => COpus (f c)
  end.

(** [SyncRequired()]; nothing reads what Opus keeps of it. *)
Definition SyncRequired (c : Context) : Context :=
  match c with
  | CVP8 c => CVP8 (VP8.SyncRequired c)
  | CVP9 c => CVP9 (VP9.SyncRequired c)
  | CH264 _ | CH264_SVC _ | COpus _ => c
  end.

Definition GetEncodingContext (type : MimeType) (subtype : Subtype) (spatialLayers temporalLayers : Z) (ksvc : bool)
    : option Context :=
  let b := EncodingContext.make spatialLayers temporalLayers ksvc in
  match type, subtype with
  | VIDEO, Tools.VP8 =>
      Some (CVP8 {| VP8.base := b; VP8.pictureIdManager := Manager.init; VP8.tl0PictureIndexManager := Manager.init;
                    VP8.syncRequired := false |})
  | VIDEO, Tools.VP9 =>
      Some (CVP9 {| VP9.base := b; VP9.pictureIdManager := Manager.init; VP9.syncRequired := false |})
  | VIDEO, Tools.H264 => Some (CH264 b)
  | VIDEO, Tools.H264_SVC => Some (CH264_SVC b)
  | AUDIO, (OPUS | MULTIOPUS) => Some (COpus b)
  | _, _ => None
  end.

(** The payload and what follows it in the buffer. *)
Definition split_payload (p : RtpPacket.t) : list Z * list Z :=
  (take (Z.to_nat (RtpPacket.payload p)) (RtpPacket.mem p), drop (Z.to_nat (RtpPacket.payload p)) (RtpPacket.mem p)).

Definition set_payload_data (p : RtpPacket.t) (data : list Z) : RtpPacket.t :=
  RtpPacket.set_mem p ((split_payload p).1 ++ data).

(** [ProcessPayload(context, marker)]: whether to forward the packet, the context, the packet
    and the marker. *)
Definition ProcessPayload (p : RtpPacket.t) (d : option Descriptor) (c : Context) (marker : bool)
    : res (bool * Context * RtpPacket.t * bool) :=
  match d with
  | None => mret (true, c, p, marker)
  | Some (DVP8 d) =>
      match c with
      | CVP8 c =>
          '(ok, c, data) ← VP8.Process d c (split_payload p).2;
          mret (ok, CVP8 c, set_payload_data p data, marker)
      | _ => Fault BadCast
      end
  | Some (DVP9 d) =>
      match c with
      | CVP9 c => '(ok, c, marker) ← VP9.Process d c marker; mret (ok, CVP9 c, p, marker)
      | _ => Fault BadCast
      end
  | Some (DH264 d) =>
      match c with
      | CH264 c => '(ok, c) ← H264.Process d c; mret (ok, CH264 c, p, marker)
      | _ => Fault BadCast
      end
  | Some (DH264_SVC d) =>
      match c with
      | CH264_SVC c => '(ok, c, marker) ← H264_SVC.Process d c marker; mret (ok, CH264_SVC c, p, marker)
      | _ => Fault BadCast
      end
  | Some (DOpus isDtx) =>
      match c with
      | COpus c => mret (Opus.Process isDtx c, COpus c, p, marker)
      | _ => Fault BadCast
      end
  end.

Definition RestorePayload (p : RtpPacket.t) (d : option Descriptor) : res RtpPacket.t :=
  match d with
  | Some (DVP8 d) => data ← VP8.Restore d (split_payload p).2; mret (set_payload_data p data)
  | _ => mret p
  end.

End Payload.
