(* ===== verification/RtpParameters.v ===== *)
(** * RTP parameters: codecs and encodings

    Models the data of [worker/include/RTC/RtpDictionaries.hpp] and the validation and the
    queries of [worker/src/RTC/RtpDictionaries/RtpParameters.cpp].  The parameters are those
    that the JSON of a request was parsed into; an error is a thrown [TypeError]. *)

From stdpp Require Import gmap.
From S2P Require Import Prelude Utils RtcpPacket RtpPacket Codecs.

(** A [TypeError], which the request that gave the parameters is rejected with. *)
Abbreviation throws A := (option A).

Module RtpParameters.

(** [RtpCodecMimeType::Subtype] *)
Inductive Subtype :=
| UNSET
| OPUS | MULTIOPUS | PCMA | PCMU | ISAC | G722 | ILBC | SILK
| VP8 | VP9 | H264 | H264_SVC | X_H264UC | H265
| CN | TELEPHONE_EVENT
| RTX | ULPFEC | X_ULPFECUC | FLEXFEC | RED.

#[global] Instance Subtype_eq_dec : EqDecision Subtype.
Proof. solve_decision. Defined.

Definition subtype_code (s : Subtype) : Z :=
  match s with
  | UNSET => 0
  | OPUS => 100 | MULTIOPUS => 101 | PCMA => 102 | PCMU => 103 | ISAC => 104 | G722 => 105 | ILBC => 106 | SILK => 107
  | VP8 => 200 | VP9 => 201 | H264 => 202 | H264_SVC => 203 | X_H264UC => 204 | H265 => 205
  | CN => 300 | TELEPHONE_EVENT => 301
  | RTX => 400 | ULPFEC => 401 | X_ULPFECUC => 402 | FLEXFEC => 403 | RED => 404
  end.

Definition IsMediaCodec (s : Subtype) : bool := (100 <=? subtype_code s) && (subtype_code s <? 300).
Definition IsComplementaryCodec (s : Subtype) : bool := (300 <=? subtype_code s) && (subtype_code s <? 400).
Definition IsFeatureCodec (s : Subtype) : bool := 400 <=? subtype_code s.

(** The cases the codec tools tell apart. *)
Definition tools_subtype (s : Subtype) : Tools.Subtype :=
  match s with
  | VP8 => Tools.VP8 | VP9 => Tools.VP9 | H264 => Tools.H264 | H264_SVC => Tools.H264_SVC
  | OPUS => Tools.OPUS | MULTIOPUS => Tools.MULTIOPUS
  | _ => Tools.OTHER
  end.

(** [RtcpFeedback]: the types and parameters the worker looks for. *)
Inductive Feedback := Nack | NackPli | CcmFir | OtherFeedback.

(** [RtpHeaderExtensionUri::Type] *)
Inductive ExtensionType :=
| UNKNOWN | MID | RTP_STREAM_ID | REPAIRED_RTP_STREAM_ID | ABS_SEND_TIME | TRANSPORT_WIDE_CC_01
| FRAME_MARKING_07 | FRAME_MARKING | SSRC_AUDIO_LEVEL | VIDEO_ORIENTATION | TOFFSET | ABS_CAPTURE_TIME.

#[global] Instance ExtensionType_eq_dec : EqDecision ExtensionType.
Proof. solve_decision. Defined.

(** A value of [Parameters]: an integer, or something else. *)
Inductive Value := IntegerValue (v : Z) | OtherValue.

(** [GetInteger], which aborts the worker when the key does not exist; the [integerValue] of
    another value is 0. *)
Definition GetInteger (v : option Value) : res Z :=
  match v with
  | Some (IntegerValue z) => Ok z
  | Some OtherValue => Ok 0
  | None => Fault AssertFailed
  end.
Definition HasPositiveInteger (v : option Value) : bool :=
  match v with Some (IntegerValue z) => 0 <=? z | _ => false end.

(** [RtpCodecParameters]; of its [parameters], those the worker reads. *)
Record Codec := {
  mimeType : Tools.MimeType;
  subtype : Subtype;
  payloadType : Z;
  clockRate : Z;
  apt : option Value;
  useinbandfec : bool;
  usedtx : bool;
  rtcpFeedback : list Feedback;
}.

(** [RtpEncodingParameters] *)
Record Encoding := {
  ssrc : Z;
  rid : list Z;
  codecPayloadType : option Z;
  rtx : option Z;
  maxBitrate : Z;
  dtx : bool;
  spatialLayers : Z;
  temporalLayers : Z;
  ksvc : bool;
}.

Record t := {
  mid : list Z;
  codecs : list Codec;
  encodings : list Encoding;
  headerExtensions : list (ExtensionType * Z);
  cname : list Z;
}.

(** ** Queries *)

(** [GetCodecForEncoding], which aborts the worker when there is none. *)
Definition GetCodecForEncoding (p : t) (e : Encoding) : res Codec :=
  match List.find (fun c => payloadType c =? default 0 (codecPayloadType e)) (codecs p) with
  | Some c => Ok c
  | None => Fault AssertFailed
  end.

(** The loop of [GetRtxCodecForEncoding]. *)
Fixpoint find_rtx (pt : Z) (l : list Codec) : res (option Codec) :=
  match l with
  | [] => mret None
  | c :: l' =>
      if IsFeatureCodec (subtype c) then
        a ← GetInteger (apt c);
        if a =? pt then mret (Some c) else find_rtx pt l'
      else find_rtx pt l'
  end.

Definition GetRtxCodecForEncoding (p : t) (e : Encoding) : res (option Codec) :=
  find_rtx (default 0 (codecPayloadType e)) (codecs p).

Definition GetType (p : t) : res Tools.ParametersType :=
  match encodings p with
  | [] => mret Tools.NONE
  | [e] =>
      c ← GetCodecForEncoding p e;
      if (1 <? spatialLayers e) || (1 <? temporalLayers e) then
        if Tools.IsValidTypeForCodec Tools.SVC (mimeType c) (tools_subtype (subtype c)) then mret Tools.SVC
        else if Tools.IsValidTypeForCodec Tools.SIMULCAST (mimeType c) (tools_subtype (subtype c)) then mret Tools.SIMULCAST
        else mret Tools.NONE
      else mret Tools.SIMPLE
  | _ => mret Tools.SIMULCAST
  end.

(** ** Validation *)

(** The loop that looks for the codec an RTX codec points to: the first one with the payload
    type that is not RTX, ULPFEC or FLEXFEC ends it. *)
Fixpoint find_apt (apt : Z) (l : list Codec) : bool :=
  match l with
  | [] => false
  | c :: l' =>
      if payloadType c =? apt then match subtype c with RTX | ULPFEC | FLEXFEC => false | _ => true end
      else find_apt apt l'
  end.

(** [CheckCodec], at the end of the constructor of a codec. *)
Definition CheckCodec (c : Codec) : bool :=
  match subtype c with RTX => HasPositiveInteger (apt c) | _ => true end.

Fixpoint validate_codecs (all l : list Codec) (seen : list Z) : bool :=
  match l with
  | [] => true
  | c :: l' =>
      negb (bool_decide (payloadType c ∈ seen)) &&
      (match subtype c with RTX => match GetInteger (apt c) with Ok a => find_apt a all | Fault _ => false end | _ => true end) &&
      validate_codecs all l' (payloadType c :: seen)
  end.

Definition ValidateCodecs (p : t) : bool := validate_codecs (codecs p) (codecs p) [].

Definition with_codec (e : Encoding) (pt : Z) : Encoding :=
  {| ssrc := ssrc e; rid := rid e; codecPayloadType := Some pt; rtx := rtx e; maxBitrate := maxBitrate e; dtx := dtx e;
     spatialLayers := spatialLayers e; temporalLayers := temporalLayers e; ksvc := ksvc e |}.

(** The first codec with the payload type must be a media codec. *)
Fixpoint media_codec (pt : Z) (l : list Codec) : bool :=
  match l with
  | [] => false
  | c :: l' => if payloadType c =? pt then IsMediaCodec (subtype c) else media_codec pt l'
  end.

Definition validate_encoding (p : t) (first : Z) (e : Encoding) : throws Encoding :=
  if (1 <? spatialLayers e) && (1 <? zlen (encodings p)) then None
  else
    match codecPayloadType e with
    | None => Some (with_codec e first)
    | Some pt => if media_codec pt (codecs p) then Some e else None
    end.

Definition ValidateEncodings (p : t) : throws t :=
  match List.find (fun c => IsMediaCodec (subtype c)) (codecs p) with
  | None => None
  | Some c =>
      l ← mapM (validate_encoding p (payloadType c)) (encodings p);
      Some {| mid := mid p; codecs := codecs p; encodings := l; headerExtensions := headerExtensions p; cname := cname p |}
  end.

(** What the constructors check. *)
Definition validate (p : t) : throws t :=
  if negb (forallb CheckCodec (codecs p)) then None
  else
    match codecs p, encodings p with
    | [], _ | _, [] => None
    | _, _ => if ValidateCodecs p then ValidateEncodings p else None
    end.

(** ** What validation gives *)

Lemma find_payloadType_nodup (l : list Codec) c : NoDup (payloadType <$> l) -> c ∈ l ->
  List.find (fun x => payloadType x =? payloadType c) l = Some c.
Proof.
  induction l as [|x l IH]; intros Hn Hc; [by apply not_elem_of_nil in Hc|]. cbn [List.find].
  rewrite fmap_cons in Hn. apply NoDup_cons in Hn as [Hx Hn].
  apply elem_of_cons in Hc as [->|Hc]; [by rewrite Z.eqb_refl|].
  destruct (Z.eqb_spec (payloadType x) (payloadType c)) as [E|_]; [|by apply IH].
  exfalso. apply Hx. rewrite E. by apply list_elem_of_fmap_2.
Qed.

Lemma validate_codecs_nodup all l : forall seen, validate_codecs all l seen = true ->
  NoDup (payloadType <$> l) /\ (forall pt, pt ∈ seen -> pt ∉ (payloadType <$> l)).
Proof.
  induction l as [|c l IH]; intros seen H; [split; [constructor|intros pt _ Hin; by apply not_elem_of_nil in Hin]|].
  cbn [validate_codecs] in H. apply andb_true_iff in H as [H1 H3]. apply andb_true_iff in H1 as [H1 H2].
  apply negb_true_iff, bool_decide_eq_false in H1. destruct (IH _ H3) as [Hn Hs]. rewrite fmap_cons. split.
  - apply NoDup_cons. split; [apply Hs; by constructor|done].
  - intros pt Hpt. apply not_elem_of_cons. split; [by intros ->|]. apply Hs. by constructor.
Qed.

Lemma media_codec_found pt l : media_codec pt l = true ->
  exists c, List.find (fun x => payloadType x =? pt) l = Some c /\ IsMediaCodec (subtype c) = true.
Proof.
  induction l as [|x l IH]; [done|]. cbn [media_codec List.find]. destruct (payloadType x =? pt); [by exists x|done].
Qed.

(** The encoding with the codec [m] if the request gave none. *)
Definition completed (m : Codec) (e : Encoding) : Encoding :=
  match codecPayloadType e with Some _ => e | None => with_codec e (payloadType m) end.

Definition with_encodings (p : t) (l : list Encoding) : t :=
  {| mid := mid p; codecs := codecs p; encodings := l; headerExtensions := headerExtensions p; cname := cname p |}.

Lemma find_first {A} (f : A -> bool) l x : List.find f l = Some x ->
  f x = true /\ exists before after, l = before ++ x :: after /\ Forall (fun y => f y = false) before.
Proof.
  induction l as [|y l IH]; [done|]. cbn [List.find]. destruct (f y) eqn:E.
  - intros [= <-]. split; [done|]. by exists [], l.
  - intros H. destruct (IH H) as (Hx & before & after & -> & Hb). split; [done|]. exists (y :: before), after. by split; [|constructor].
Qed.

Lemma validate_encoding_completed p m e e' : validate_encoding p (payloadType m) e = Some e' ->
  e' = completed m e /\ (1 < spatialLayers e -> zlen (encodings p) <= 1) /\
  (forall pt, codecPayloadType e = Some pt -> media_codec pt (codecs p) = true).
Proof.
  unfold validate_encoding, completed. destruct (Z.ltb_spec 1 (spatialLayers e)), (Z.ltb_spec 1 (zlen (encodings p))); cbn [andb]; try done;
    destruct (codecPayloadType e) as [pt|]; try (destruct (media_codec pt (codecs p)) eqn:E; [|done]); intros [= <-];
    (split; [done|split; [lia|congruence]]).
Qed.

Lemma validate_completed p q : validate p = Some q ->
  exists m, List.find (fun c => IsMediaCodec (subtype c)) (codecs p) = Some m /\ NoDup (payloadType <$> codecs p) /\
    encodings p <> [] /\ q = with_encodings p (completed m <$> encodings p) /\
    Forall (fun e => (1 < spatialLayers e -> zlen (encodings p) <= 1) /\
      forall pt, codecPayloadType e = Some pt -> media_codec pt (codecs p) = true) (encodings p).
Proof.
  unfold validate. destruct (negb _); [done|]. destruct (codecs p) as [|c0 cs] eqn:Ec; [done|].
  destruct (encodings p) as [|e0 es] eqn:Ee; [done|].
  destruct (ValidateCodecs p) eqn:Hc; [|done]. unfold ValidateEncodings. rewrite <- Ec in *. rewrite <- Ee in *.
  destruct (List.find _ (codecs p)) as [m|]; [|done]. cbn [mbind option_bind].
  destruct (mapM _ (encodings p)) as [l|] eqn:El; [|done]. intros [= <-]. exists m.
  apply validate_codecs_nodup in Hc as [Hn _]. apply mapM_Some_1 in El. split_and!; [done|done|by rewrite Ee| |].
  - unfold with_encodings. f_equal. apply list_eq_Forall2, Forall2_fmap_r, Forall2_flip. eapply Forall2_impl; [exact El|].
    intros x y Hy. by apply validate_encoding_completed in Hy as (-> & _).
  - eapply Forall2_Forall_l; [exact El|]. apply list.Forall_forall. intros y _ x Hy. by apply validate_encoding_completed in Hy as (_ & H).
Qed.

Lemma completed_codec p l m e : NoDup (payloadType <$> codecs p) -> m ∈ codecs p -> IsMediaCodec (subtype m) = true ->
  (forall pt, codecPayloadType e = Some pt -> media_codec pt (codecs p) = true) ->
  exists c, GetCodecForEncoding (with_encodings p l) (completed m e) = Ok c /\ c ∈ codecs p /\ IsMediaCodec (subtype c) = true /\
    codecPayloadType (completed m e) = Some (payloadType c).
Proof.
  intros Hn Hm Hmedia Hpt. unfold completed, GetCodecForEncoding. cbn [codecs with_encodings].
  destruct (codecPayloadType e) as [pt|] eqn:Ex.
  - destruct (media_codec_found pt (codecs p)) as (c & Hf & Hmc); [auto|]. exists c. rewrite Ex.
    change (default 0 (Some pt)) with pt. rewrite Hf. apply List.find_some in Hf as [Hin Hp]. apply list_elem_of_In in Hin.
    apply Z.eqb_eq in Hp. by rewrite Hp.
  - exists m. cbn [with_codec codecPayloadType]. change (default 0 (Some (payloadType m))) with (payloadType m).
    by rewrite find_payloadType_nodup.
Qed.

Lemma GetType_defined q : Forall (fun e => exists c, GetCodecForEncoding q e = Ok c) (encodings q) -> exists ty, GetType q = Ok ty.
Proof.
  intros Hall. unfold GetType. destruct (encodings q) as [|e [|e2 l]]; [by eexists| |by eexists].
  apply list.Forall_cons in Hall as [(c & ->) _]. cbn [mbind res_bind].
  destruct (_ || _); [|by eexists]. destruct (Tools.IsValidTypeForCodec _ _ _); [by eexists|].
  destruct (Tools.IsValidTypeForCodec _ _ _); by eexists.
Qed.

(** C38: validated parameters name their codecs.  When the codecs and encodings of a request
    pass validation, the parameters are those of the request with one change: an encoding
    without a codec payload type is given that of the first media codec of the list; the
    SSRC, the RID, the layers and all else of every encoding are kept, and so are the codecs,
    their payload types distinct.  There is at least one encoding, one of several has no
    spatial layers of its own, and every encoding has the codec it refers to:
    [GetCodecForEncoding], which aborts the worker otherwise, returns a media codec of the
    list, the one with the payload type of the encoding, and [GetType] is defined. *)
Theorem validated_codecs p q :
  validate p = Some q ->
  exists m before after, codecs p = before ++ m :: after /\ IsMediaCodec (subtype m) = true /\
    Forall (fun c => IsMediaCodec (subtype c) = false) before /\
    q = with_encodings p (completed m <$> encodings p) /\
    NoDup (payloadType <$> codecs q) /\ encodings q <> [] /\
    (exists ty, GetType q = Ok ty) /\
    Forall (fun e => (1 < spatialLayers e -> zlen (encodings q) = 1) /\
      exists c, GetCodecForEncoding q e = Ok c /\ c ∈ codecs q /\ IsMediaCodec (subtype c) = true /\
        codecPayloadType e = Some (payloadType c)) (encodings q).
Proof.
  intros Hv. destruct (validate_completed p q Hv) as (m & Em & Hn & Hne & -> & Hf).
  destruct (find_first _ _ _ Em) as (Hmedia & before & after & Ec & Hb). apply List.find_some in Em as [Hm _]. apply list_elem_of_In in Hm.
  assert (Hzl : zlen (completed m <$> encodings p) = zlen (encodings p)) by (unfold zlen; by rewrite length_fmap).
  assert (1 <= zlen (encodings p)).
  { destruct (encodings p) as [|e l]; [done|]. rewrite zlen_cons. pose proof (zlen_nonneg l). lia. }
  set (q := with_encodings p (completed m <$> encodings p)).
  assert (Hall : Forall (fun e => (1 < spatialLayers e -> zlen (encodings q) = 1) /\
      exists c, GetCodecForEncoding q e = Ok c /\ c ∈ codecs q /\ IsMediaCodec (subtype c) = true /\
        codecPayloadType e = Some (payloadType c)) (encodings q)).
  { cbn [encodings q with_encodings codecs]. rewrite Hzl. apply Forall_fmap. eapply Forall_impl; [exact Hf|]. intros e [Hl Hpt].
    split; [|by apply completed_codec].
    unfold completed. destruct (codecPayloadType e); cbn [compose with_codec spatialLayers]; lia. }
  exists m, before, after. split_and!; try done.
  - cbn [encodings q with_encodings]. by destruct (encodings p).
  - apply GetType_defined. eapply Forall_impl; [exact Hall|]. intros e (_ & c & E & _). by exists c.
Qed.

Definition sample_codec (pt : Z) (s : Subtype) (a : option Value) : Codec :=
  {| mimeType := Tools.VIDEO; subtype := s; payloadType := pt; clockRate := 90000; apt := a; useinbandfec := false;
     usedtx := false; rtcpFeedback := [Nack; NackPli] |}.
Definition sample_encoding (n : Z) (pt : option Z) : Encoding :=
  {| ssrc := n; rid := []; codecPayloadType := pt; rtx := Some (n + 1); maxBitrate := 0; dtx := false; spatialLayers := 1;
     temporalLayers := 3; ksvc := false |}.
Definition sample_parameters : t :=
  {| mid := []; codecs := [sample_codec 97 RTX (Some (IntegerValue 96)); sample_codec 96 VP8 None]; encodings := [sample_encoding 10 None; sample_encoding 20 (Some 96)];
     headerExtensions := [(MID, 1)]; cname := [97] |}.

Lemma validated_codecs_witness :
  exists q, validate sample_parameters = Some q /\ NoDup (payloadType <$> codecs q) /\ exists ty, GetType q = Ok ty.
Proof.
  destruct (validate sample_parameters) as [q|] eqn:E; [|discriminate].
  destruct (validated_codecs sample_parameters q E) as (m & before & after & _ & _ & _ & _ & Hn & _ & Ht & _). exists q. exact (conj eq_refl (conj Hn Ht)).
Defined.

(** A FEC codec needs no [apt] to be accepted, and without one the look-up of the RTX codec,
    which every consumer and every new stream of a producer makes, aborts the worker. *)
Definition fec_parameters : t :=
  {| mid := []; codecs := [sample_codec 96 VP8 None; sample_codec 98 FLEXFEC None]; encodings := [sample_encoding 10 (Some 96)];
     headerExtensions := []; cname := [97] |}.

Example fec_without_apt :
  validate fec_parameters = Some fec_parameters /\
  GetRtxCodecForEncoding fec_parameters (sample_encoding 10 (Some 96)) = Fault AssertFailed.
Proof. done. Qed.

(** With [apt] in all feature codecs it does not, and it finds a codec of the list for the
    payload type. *)
Lemma GetRtxCodec_spec p e :
  Forall (fun c => IsFeatureCodec (subtype c) = true -> apt c <> None) (codecs p) ->
  exists r, GetRtxCodecForEncoding p e = Ok r /\
    match r with
    | Some c => c ∈ codecs p /\ IsFeatureCodec (subtype c) = true /\ GetInteger (apt c) = Ok (default 0 (codecPayloadType e))
    | None => Forall (fun c => IsFeatureCodec (subtype c) = true -> GetInteger (apt c) <> Ok (default 0 (codecPayloadType e))) (codecs p)
    end.
Proof.
  unfold GetRtxCodecForEncoding. generalize (default 0 (codecPayloadType e)). intros pt.
  induction (codecs p) as [|c l IH]; intros H; [by exists None|]. apply list.Forall_cons in H as [Hc H].
  destruct (IH H) as (r & Hr & Hspec). cbn [find_rtx].
  assert (Hskip : (IsFeatureCodec (subtype c) = true -> GetInteger (apt c) <> Ok pt) ->
    match r with Some c' => c' ∈ c :: l /\ IsFeatureCodec (subtype c') = true /\ GetInteger (apt c') = Ok pt
      | None => Forall (fun c => IsFeatureCodec (subtype c) = true -> GetInteger (apt c) <> Ok pt) (c :: l) end).
  { intros Hn. destruct r as [c'|]; [destruct Hspec as [Hin Hspec]; split; [by apply elem_of_cons; right|done]|by constructor]. }
  destruct (IsFeatureCodec (subtype c)) eqn:Ef; [|exists r; split; [done|by apply Hskip]]. specialize (Hc eq_refl).
  destruct (GetInteger (apt c)) as [a|] eqn:Ea; [|exfalso; apply Hc; by destruct (apt c) as [[]|]].
  cbn [mbind res_bind]. destruct (Z.eqb_spec a pt) as [->|Hne].
  - exists (Some c). split; [done|]. split; [by constructor|done].
  - exists r. split; [done|]. apply Hskip. intros _. congruence.
Qed.

End RtpParameters.
