(* ===== verification/RtpStream.v ===== *)
(** * RTP streams: sequence numbers, scores, and the RTX stream

    Models [worker/src/RTC/RtpStream.cpp], [worker/src/RTC/RtxStream.cpp] and their headers:
    what the streams a worker receives and the ones it sends have in common.  The clock is an
    argument, and the calls to the listener are events. *)

From Stdlib Require Import SpecFloat.
From S2P Require Import Prelude Utils Float OrdSet SeqManager RateCalculator RtcpPacket RtcpReports.
From S2P Require Import RtcpFeedback RtpPacket Codecs.

(** ** Sequence numbers (RFC 3550, appendix A.1)

    The same code in [RtpStream] and in [RtxStream]. *)

Module SeqTracker.

Definition MaxDropout : Z := 3000.
Definition MaxMisorder : Z := 1500.
Definition RtpSeqMod : Z := 65536.

Record t := {
  started : bool;
  maxSeq : Z;
  cycles : Z;
  baseSeq : Z;
  badSeq : Z;
  maxPacketTs : Z;
  maxPacketMs : Z;
  packetsDiscarded : Z;
}.

Definition init : t :=
  {| started := false; maxSeq := 0; cycles := 0; baseSeq := 0; badSeq := 0; maxPacketTs := 0; maxPacketMs := 0;
     packetsDiscarded := 0 |}.

Definition InitSeq (s : t) (seq : Z) : t :=
  {| started := started s; maxSeq := seq; cycles := cycles s; baseSeq := seq; badSeq := RtpSeqMod + 1;
     maxPacketTs := maxPacketTs s; maxPacketMs := maxPacketMs s; packetsDiscarded := packetsDiscarded s |}.

Definition set_started (s : t) (maxSeq : Z) : t :=
  {| started := true; maxSeq := maxSeq; cycles := cycles s; baseSeq := baseSeq s; badSeq := badSeq s;
     maxPacketTs := maxPacketTs s; maxPacketMs := maxPacketMs s; packetsDiscarded := packetsDiscarded s |}.
Definition set_packet (s : t) (ts ms : Z) : t :=
  {| started := started s; maxSeq := maxSeq s; cycles := cycles s; baseSeq := baseSeq s; badSeq := badSeq s;
     maxPacketTs := ts; maxPacketMs := ms; packetsDiscarded := packetsDiscarded s |}.
Definition set_maxSeq (s : t) (seq cycles : Z) : t :=
  {| started := started s; maxSeq := seq; cycles := cycles; baseSeq := baseSeq s; badSeq := badSeq s;
     maxPacketTs := maxPacketTs s; maxPacketMs := maxPacketMs s; packetsDiscarded := packetsDiscarded s |}.
Definition discard (s : t) (bad : Z) : t :=
  {| started := started s; maxSeq := maxSeq s; cycles := cycles s; baseSeq := baseSeq s; badSeq := bad;
     maxPacketTs := maxPacketTs s; maxPacketMs := maxPacketMs s; packetsDiscarded := u64 (packetsDiscarded s + 1) |}.

(** What [UpdateSeq] makes of a packet; [Restarted] is an accepted packet at which the
    sequence was restarted ([UserOnSequenceNumberReset]). *)
Inductive outcome := Accepted | Restarted | Discarded.

Definition UpdateSeq (s : t) (seq ts nowMs : Z) : outcome * t :=
  let udelta := u16 (seq - maxSeq s) in
  if udelta <? MaxDropout then
    (Accepted, set_maxSeq s seq (if seq <? maxSeq s then u32 (cycles s + RtpSeqMod) else cycles s))
  else if udelta <=? RtpSeqMod - MaxMisorder then
    if seq =? badSeq s then (Restarted, set_packet (InitSeq s seq) ts nowMs)
    else (Discarded, discard s (Z.land (seq + 1) (RtpSeqMod - 1)))
  else (Accepted, s).

(** [ReceiveStreamPacket]; also the common part of [RtxStream::ReceivePacket]. *)
Definition ReceiveStreamPacket (s : t) (seq ts nowMs : Z) : outcome * t :=
  let s :=
    if started s then s
    else set_packet (set_started (InitSeq s seq) (u16 (seq - 1))) ts nowMs in
  let '(o, s) := UpdateSeq s seq ts nowMs in
  match o with
  | Discarded => (Discarded, s)
  | _ => (o, if IsSeqHigherThan 32 ts (maxPacketTs s) then set_packet s ts nowMs else s)
  end.

Definition GetExpectedPackets (s : t) : Z := u32 (u32 (cycles s + maxSeq s) - baseSeq s + 1).

End SeqTracker.

(** ** Reception reports *)

(** [new ReceiverReport()], [new SenderReport()]: the bytes of an empty report. *)
Definition new_report (size : Z) : list Z := replicate (Z.to_nat size) 0.

(** The fraction lost of an interval: [std::round((double)(lostInterval << 8) / expectedInterval)]
    stored in 8 bits. *)
Definition fraction_lost (expectedInterval receivedInterval : Z) : res Z :=
  let lostInterval := i32 (expectedInterval - receivedInterval) in
  if (expectedInterval =? 0) || (lostInterval <=? 0) then mret 0
  else
    uint_of_round 8 (SFdiv 53 1024 (Time.b64_of_Z (i32 (Z.shiftl lostInterval 8))) (Time.b64_of_Z expectedInterval)).

(** A delay in milliseconds, in units of 1/65536 seconds. *)
Definition delay_units (delayMs : Z) : Z :=
  Z.lor (u32 (Z.shiftl (delayMs / 1000) 16)) (u32 (delayMs mod 1000 * 65536) / 1000).

(** The last fields of a receiver report: the delay since the last sender report, if any. *)
Definition fill_last_sr (report : list Z) (nowMs lastSrReceived lastSrTimestamp : Z) : res (list Z) :=
  if negb (lastSrReceived =? 0) then
    report ← ReceiverReport.SetDelaySinceLastSenderReport report (delay_units (u32 (nowMs - lastSrReceived)));
    ReceiverReport.SetLastSenderReport report lastSrTimestamp
  else
    report ← ReceiverReport.SetDelaySinceLastSenderReport report 0;
    ReceiverReport.SetLastSenderReport report 0.

(** The middle 32 bits of an NTP time. *)
Definition middle_ntp (sec frac : Z) : Z := u32 (u32 (Z.shiftl sec 16) + Z.shiftr frac 16).

(** ** RTX streams *)

Module RtxStream.

Record State := {
  ssrc : Z;
  payloadType : Z;
  tracker : SeqTracker.t;
  packetsLost : Z;
  fractionLost : Z;
  packetsCount : Z;
  expectedPrior : Z;
  receivedPrior : Z;
  lastSrTimestamp : Z;
  lastSrReceived : Z;
  reportedPacketLost : Z;
}.

Definition make (ssrc payloadType : Z) : State :=
  {| ssrc := ssrc; payloadType := payloadType; tracker := SeqTracker.init; packetsLost := 0; fractionLost := 0;
     packetsCount := 0; expectedPrior := 0; receivedPrior := 0; lastSrTimestamp := 0; lastSrReceived := 0;
     reportedPacketLost := 0 |}.

Definition ReceivePacket (s : State) (seq ts nowMs : Z) : bool * State :=
  let '(o, tr) := SeqTracker.ReceiveStreamPacket (tracker s) seq ts nowMs in
  let counted := match o with SeqTracker.Discarded => false | _ => true end in
  (counted,
   {| ssrc := ssrc s; payloadType := payloadType s; tracker := tr; packetsLost := packetsLost s;
      fractionLost := fractionLost s;
      packetsCount := if counted then u64 (packetsCount s + 1) else packetsCount s;
      expectedPrior := expectedPrior s; receivedPrior := receivedPrior s; lastSrTimestamp := lastSrTimestamp s;
      lastSrReceived := lastSrReceived s; reportedPacketLost := reportedPacketLost s |}).

Definition GetRtcpReceiverReport (s : State) (nowMs : Z) : res (list Z * State) :=
  report ← ReceiverReport.SetSsrc (new_report ReceiverReport.HeaderSize) (ssrc s);
  let expected := SeqTracker.GetExpectedPackets (tracker s) in
  let lost := if packetsCount s <? expected then u32 (expected - packetsCount s) else 0 in
  fraction ← fraction_lost (u32 (expected - expectedPrior s)) (u32 (packetsCount s - receivedPrior s));
  let reported := u32 (reportedPacketLost s + u32 (lost - packetsLost s)) in
  report ← ReceiverReport.SetTotalLost report (i32 reported);
  report ← ReceiverReport.SetFractionLost report fraction;
  report ← ReceiverReport.SetLastSeq report (u32 (SeqTracker.maxSeq (tracker s) + SeqTracker.cycles (tracker s)));
  report ← ReceiverReport.SetJitter report 0;
  report ← fill_last_sr report nowMs (lastSrReceived s) (lastSrTimestamp s);
  mret (report,
        {| ssrc := ssrc s; payloadType := payloadType s; tracker := tracker s; packetsLost := lost;
           fractionLost := fraction; packetsCount := packetsCount s; expectedPrior := expected;
           receivedPrior := u32 (packetsCount s); lastSrTimestamp := lastSrTimestamp s;
           lastSrReceived := lastSrReceived s; reportedPacketLost := reported |}).

Definition ReceiveRtcpSenderReport (s : State) (report : list Z) (nowMs : Z) : res State :=
  sec ← SenderReport.GetNtpSec report;
  frac ← SenderReport.GetNtpFrac report;
  mret {| ssrc := ssrc s; payloadType := payloadType s; tracker := tracker s; packetsLost := packetsLost s;
          fractionLost := fractionLost s; packetsCount := packetsCount s; expectedPrior := expectedPrior s;
          receivedPrior := receivedPrior s; lastSrTimestamp := middle_ntp sec frac; lastSrReceived := nowMs;
          reportedPacketLost := reportedPacketLost s |}.

End RtxStream.

(** ** What all streams keep *)

Module RtpStream.

Record Params := {
  encodingIdx : Z;
  rid : list Z;
  ssrc : Z;
  payloadType : Z;
  mimeType : Tools.MimeType;
  mimeSubtype : Tools.Subtype;
  clockRate : Z;
  cname : list Z;
  rtxSsrc : Z;
  rtxPayloadType : Z;
  useNack : bool;
  usePli : bool;
  useFir : bool;
  useInBandFec : bool;
  useDtx : bool;
  spatialLayers : Z;
  temporalLayers : Z;
}.

Definition set_rtx (p : Params) (payloadType' ssrc' : Z) : Params :=
  {| encodingIdx := encodingIdx p; rid := rid p; ssrc := ssrc p; payloadType := payloadType p; mimeType := mimeType p;
     mimeSubtype := mimeSubtype p;
     clockRate := clockRate p; cname := cname p; rtxSsrc := ssrc'; rtxPayloadType := payloadType'; useNack := useNack p;
     usePli := usePli p; useFir := useFir p; useInBandFec := useInBandFec p; useDtx := useDtx p;
     spatialLayers := spatialLayers p; temporalLayers := temporalLayers p |}.

(** The members that count packets and requests. *)
Record Counters := {
  packetsRetransmitted : Z;
  packetsRepaired : Z;
  nackCount : Z;
  nackPacketCount : Z;
  pliCount : Z;
  firCount : Z;
  repairedPriorScore : Z;
  retransmittedPriorScore : Z;
}.

Definition no_counters : Counters :=
  {| packetsRetransmitted := 0; packetsRepaired := 0; nackCount := 0; nackPacketCount := 0; pliCount := 0; firCount := 0;
     repairedPriorScore := 0; retransmittedPriorScore := 0 |}.

Definition PacketRetransmitted (c : Counters) : Counters :=
  {| packetsRetransmitted := u64 (packetsRetransmitted c + 1); packetsRepaired := packetsRepaired c; nackCount := nackCount c;
     nackPacketCount := nackPacketCount c; pliCount := pliCount c; firCount := firCount c;
     repairedPriorScore := repairedPriorScore c; retransmittedPriorScore := retransmittedPriorScore c |}.
Definition PacketRepaired (c : Counters) : Counters :=
  {| packetsRetransmitted := packetsRetransmitted c; packetsRepaired := u64 (packetsRepaired c + 1); nackCount := nackCount c;
     nackPacketCount := nackPacketCount c; pliCount := pliCount c; firCount := firCount c;
     repairedPriorScore := repairedPriorScore c; retransmittedPriorScore := retransmittedPriorScore c |}.
(** [n] NACK packets that requested [k] packets. *)
Definition count_nack (c : Counters) (n k : Z) : Counters :=
  {| packetsRetransmitted := packetsRetransmitted c; packetsRepaired := packetsRepaired c; nackCount := u64 (nackCount c + n);
     nackPacketCount := u64 (nackPacketCount c + k); pliCount := pliCount c; firCount := firCount c;
     repairedPriorScore := repairedPriorScore c; retransmittedPriorScore := retransmittedPriorScore c |}.
Definition count_pli (c : Counters) : Counters :=
  {| packetsRetransmitted := packetsRetransmitted c; packetsRepaired := packetsRepaired c; nackCount := nackCount c;
     nackPacketCount := nackPacketCount c; pliCount := u64 (pliCount c + 1); firCount := firCount c;
     repairedPriorScore := repairedPriorScore c; retransmittedPriorScore := retransmittedPriorScore c |}.
Definition count_fir (c : Counters) : Counters :=
  {| packetsRetransmitted := packetsRetransmitted c; packetsRepaired := packetsRepaired c; nackCount := nackCount c;
     nackPacketCount := nackPacketCount c; pliCount := pliCount c; firCount := u64 (firCount c + 1);
     repairedPriorScore := repairedPriorScore c; retransmittedPriorScore := retransmittedPriorScore c |}.
(** The end of an interval of the score. *)
Definition close_interval (c : Counters) : Counters :=
  {| packetsRetransmitted := packetsRetransmitted c; packetsRepaired := packetsRepaired c; nackCount := nackCount c;
     nackPacketCount := nackPacketCount c; pliCount := pliCount c; firCount := firCount c;
     repairedPriorScore := packetsRepaired c; retransmittedPriorScore := packetsRetransmitted c |}.

(** The calls to the listeners of the streams. *)
Inductive event :=
| Score (score previousScore : Z)
| SendNack (packet : FeedbackPacket.t FeedbackRtpNackItem)
| SendPli (packet : FeedbackHeaderPacket.t)
| SendFir (packet : FeedbackPacket.t FeedbackPsFirItem)
| Retransmit (packet : RtpPacket.t).

(** *** The score *)

Definition ScoreHistogramLength : nat := 24.

Record Scores := { score : Z; scores : list Z; activeSinceMs : Z }.

Definition init_scores (initialScore nowMs : Z) : Scores :=
  {| score := initialScore; scores := []; activeSinceMs := nowMs |}.

Definition ResetScore (s : Scores) (score' : Z) (notify : bool) (nowMs : Z) : Scores * list event :=
  if negb (score s =? score') then
    ({| score := score'; scores := []; activeSinceMs := if score s =? 0 then nowMs else activeSinceMs s |},
     if notify then [Score score' (score s)] else [])
  else ({| score := score s; scores := []; activeSinceMs := activeSinceMs s |}, []).

(** The loop over the histogram: the sum of the weights and the weighted sum. *)
Fixpoint weighted (weight samples totalScore : Z) (l : list Z) : Z * Z :=
  match l with
  | [] => (samples, totalScore)
  | x :: l' => weighted (weight + 1) (samples + (weight + 1)) (totalScore + (weight + 1) * x) l'
  end.

Definition push_score (l : list Z) (x : Z) : list Z :=
  (if Nat.eqb (length l) ScoreHistogramLength then drop 1 l else l) ++ [x].

Definition UpdateScore (s : Scores) (score' nowMs : Z) : res (Scores * list event) :=
  let l := push_score (scores s) score' in
  let '(samples, total) := weighted 0 0 0 l in
  v ← uint_of_round 8 (SFdiv 53 1024 (Time.b64_of_Z total) (Time.b64_of_Z samples));
  mret ({| score := v; scores := l;
           activeSinceMs := if negb (v =? score s) && (score s =? 0) then nowMs else activeSinceMs s |},
        if negb (v =? score s) then [Score v (score s)] else []).

(** The score of an interval in which [total] packets were counted, [lost] of them lost,
    [repaired] repaired and [retransmitted] retransmitted.  [std::pow(x, 4)] is [pow4]; the
    difference of packets is computed on [w] bits. *)
Definition loss_score (pow4 : spec_float -> spec_float) (w total lost repaired retransmitted : Z) : res Z :=
  let repairedRatio := SFdiv 24 128 (f32_of_Z repaired) (f32_of_Z total) in
  let repairedWeight :=
    pow4 (TrendCalculator.f64_of_f32 (SFdiv 24 128 (f32_of_Z 1) (SFadd 24 128 repairedRatio (f32_of_Z 1)))) in
  _ ← ms_assert (repaired <=? retransmitted);
  let repairedWeight :=
    if 0 <? retransmitted then
      SFmul 53 1024 repairedWeight
        (TrendCalculator.f64_of_f32 (SFdiv 24 128 (f32_of_Z repaired) (f32_of_Z retransmitted)))
    else repairedWeight in
  lost ← uint_of_float 32 (SFsub 53 1024 (Time.b64_of_Z lost) (SFmul 53 1024 (Time.b64_of_Z repaired) repairedWeight));
  let deliveredRatio := SFdiv 24 128 (f32_of_Z (uwrap w (total - lost))) (f32_of_Z total) in
  uint_of_round 8 (SFmul 53 1024 (pow4 (TrendCalculator.f64_of_f32 deliveredRatio)) (Time.b64_of_Z 10)).

(** *** The round trip time *)

(** [compactNtp], the middle 32 bits of the NTP time of [nowMs]. *)
Definition compact_ntp (nowMs : Z) : Z :=
  let ntp := Time.TimeMs2Ntp nowMs in
  Z.lor (u32 (Z.shiftl (Z.land (Time.seconds ntp) 0x0000FFFF) 16))
    (Z.shiftr (Z.land (Time.fractions ntp) 0xFFFF0000) 16).

(** In units of 1/65536 seconds, from the time of the last report and the delay since it. *)
Definition rtt_units (nowMs last delay : Z) : Z :=
  if negb (last =? 0) && negb (delay =? 0) && (u32 (delay + last) <? compact_ntp nowMs)
  then u32 (u32 (compact_ntp nowMs - delay) - last) else 0.

(** In milliseconds, as a [float]. *)
Definition rtt_float (units : Z) : spec_float :=
  SFadd 24 128 (SFmul 24 128 (f32_of_Z (Z.shiftr units 16)) (f32_of_Z 1000))
    (SFmul 24 128 (SFdiv 24 128 (f32_of_Z (Z.land units 0x0000FFFF)) (f32_of_Z 65536)) (f32_of_Z 1000)).

(** *** The members *)

Record State := {
  params : Params;
  tracker : SeqTracker.t;
  packetsLost : Z;
  fractionLost : Z;
  counters : Counters;
  lastSenderReportNtpMs : Z;
  lastSenderReportTs : Z;
  rtt : spec_float;
  hasRtt : bool;
  rtxStream : option RtxStream.State;
  scoring : Scores;
}.

Definition make (p : Params) (initialScore nowMs : Z) : State :=
  {| params := p; tracker := SeqTracker.init; packetsLost := 0; fractionLost := 0; counters := no_counters;
     lastSenderReportNtpMs := 0; lastSenderReportTs := 0; rtt := S754_zero false; hasRtt := false; rtxStream := None;
     scoring := init_scores initialScore nowMs |}.

Definition HasRtx (s : State) : bool := match rtxStream s with Some _ => true | None => false end.

Definition set_tracker (s : State) (v : SeqTracker.t) : State :=
  {| params := params s; tracker := v; packetsLost := packetsLost s; fractionLost := fractionLost s; counters := counters s;
     lastSenderReportNtpMs := lastSenderReportNtpMs s; lastSenderReportTs := lastSenderReportTs s; rtt := rtt s;
     hasRtt := hasRtt s; rtxStream := rtxStream s; scoring := scoring s |}.
Definition set_lost (s : State) (lost fraction : Z) : State :=
  {| params := params s; tracker := tracker s; packetsLost := lost; fractionLost := fraction; counters := counters s;
     lastSenderReportNtpMs := lastSenderReportNtpMs s; lastSenderReportTs := lastSenderReportTs s; rtt := rtt s;
     hasRtt := hasRtt s; rtxStream := rtxStream s; scoring := scoring s |}.
Definition set_counters (s : State) (v : Counters) : State :=
  {| params := params s; tracker := tracker s; packetsLost := packetsLost s; fractionLost := fractionLost s; counters := v;
     lastSenderReportNtpMs := lastSenderReportNtpMs s; lastSenderReportTs := lastSenderReportTs s; rtt := rtt s;
     hasRtt := hasRtt s; rtxStream := rtxStream s; scoring := scoring s |}.
Definition set_senderReport (s : State) (ntpMs ts : Z) : State :=
  {| params := params s; tracker := tracker s; packetsLost := packetsLost s; fractionLost := fractionLost s;
     counters := counters s; lastSenderReportNtpMs := ntpMs; lastSenderReportTs := ts; rtt := rtt s; hasRtt := hasRtt s;
     rtxStream := rtxStream s; scoring := scoring s |}.
(** [this->rtt = ...; if (this->rtt > 0.0f) this->hasRtt = true;] *)
Definition set_rtt (s : State) (v : spec_float) : State :=
  {| params := params s; tracker := tracker s; packetsLost := packetsLost s; fractionLost := fractionLost s;
     counters := counters s; lastSenderReportNtpMs := lastSenderReportNtpMs s; lastSenderReportTs := lastSenderReportTs s;
     rtt := v; hasRtt := hasRtt s || SFltb (S754_zero false) v; rtxStream := rtxStream s; scoring := scoring s |}.
Definition set_rtxStream (s : State) (p : Params) (v : option RtxStream.State) : State :=
  {| params := p; tracker := tracker s; packetsLost := packetsLost s; fractionLost := fractionLost s;
     counters := counters s; lastSenderReportNtpMs := lastSenderReportNtpMs s; lastSenderReportTs := lastSenderReportTs s;
     rtt := rtt s; hasRtt := hasRtt s; rtxStream := v; scoring := scoring s |}.
Definition set_scoring (s : State) (v : Scores) : State :=
  {| params := params s; tracker := tracker s; packetsLost := packetsLost s; fractionLost := fractionLost s;
     counters := counters s; lastSenderReportNtpMs := lastSenderReportNtpMs s; lastSenderReportTs := lastSenderReportTs s;
     rtt := rtt s; hasRtt := hasRtt s; rtxStream := rtxStream s; scoring := v |}.

Definition SetRtx (s : State) (payloadType ssrc : Z) : State :=
  set_rtxStream s (set_rtx (params s) payloadType ssrc) (Some (RtxStream.make ssrc payloadType)).

End RtpStream.
