(* ===== verification/RtpStreamRecv.v ===== *)
(** * The RTP streams a worker receives

    Models [worker/src/RTC/RtpStreamRecv.cpp] and its header: the counters by layer, the
    reception of media and RTX packets, the requests of lost packets and of key frames, the
    reports about the stream, its jitter and its score.  The inactivity timer is its deadline,
    and what the listener answers ([worstRemoteFractionLost]) an argument. *)

From Stdlib Require Import SpecFloat.
From S2P Require Import Prelude Utils Float OrdSet SeqManager NackGenerator RateCalculator RtcpPacket.
From S2P Require Import RtcpReports RtcpFeedback RtcpXr RtpPacket Codecs RtpStream.

(** ** The counters by layer *)

Module TransmissionCounter.

(** By spatial layer, then by temporal layer. *)
Abbreviation t := (list (list RtpDataCounter.State)).

Definition make (spatialLayers temporalLayers windowSize : Z) : t :=
  replicate (Z.to_nat spatialLayers) (replicate (Z.to_nat temporalLayers) (RtpDataCounter.create windowSize)).

(** A layer index, not above the last one. *)
Definition bound_layer (layer size : Z) : Z := if u64 (size - 1) <? layer then u8 (u64 (size - 1)) else layer.

Definition layer_at {A} (l : list A) (i : Z) : res A :=
  match l !! Z.to_nat i with Some x => if 0 <=? i then Ok x else Fault OutOfBounds | None => Fault OutOfBounds end.

Definition Update (c : t) (spatialLayer temporalLayer packetSize nowMs : Z) : res t :=
  let s := bound_layer spatialLayer (zlen c) in
  first ← layer_at c 0;
  let t := bound_layer temporalLayer (zlen first) in
  row ← layer_at c s;
  counter ← layer_at row t;
  counter ← RtpDataCounter.Update counter packetSize nowMs;
  mret (<[Z.to_nat s := <[Z.to_nat t := counter]> row]> c).

(** The rates of a row are added to [rate]. *)
Fixpoint add_rates (row : list RtpDataCounter.State) (nowMs rate : Z) : res (Z * list RtpDataCounter.State) :=
  match row with
  | [] => mret (rate, [])
  | x :: row' =>
      '(v, x) ← RtpDataCounter.GetBitrate x nowMs;
      '(rate, row') ← add_rates row' nowMs (u32 (rate + v));
      mret (rate, x :: row')
  end.

Fixpoint add_rows (c : t) (nowMs rate : Z) : res (Z * t) :=
  match c with
  | [] => mret (rate, [])
  | row :: c' =>
      '(rate, row) ← add_rates row nowMs rate;
      '(rate, c') ← add_rows c' nowMs rate;
      mret (rate, row :: c')
  end.

(** [GetBitrate(nowMs)]: of all layers. *)
Definition GetBitrate (c : t) (nowMs : Z) : res (Z * t) := add_rows c nowMs 0.

(** The assertions on the layers, and the row and the counter at them. *)
Definition counter_at (c : t) (spatialLayer temporalLayer : Z) : res (list RtpDataCounter.State * RtpDataCounter.State) :=
  _ ← ms_assert (spatialLayer <? zlen c);
  row ← layer_at c spatialLayer;
  _ ← ms_assert (temporalLayer <? zlen row);
  counter ← layer_at row temporalLayer;
  mret (row, counter).

(** [GetLayerBitrate]: of a layer. *)
Definition GetLayerBitrate (c : t) (nowMs spatialLayer temporalLayer : Z) : res (Z * t) :=
  '(row, counter) ← counter_at c spatialLayer temporalLayer;
  '(v, counter) ← RtpDataCounter.GetBitrate counter nowMs;
  mret (v, <[Z.to_nat spatialLayer := <[Z.to_nat temporalLayer := counter]> row]> c).

(** [GetBitrate(nowMs, spatialLayer, temporalLayer)]: of a layer and those below it. *)
Definition GetBitrateUpTo (c : t) (nowMs spatialLayer temporalLayer : Z) : res (Z * t) :=
  '(v, c) ← GetLayerBitrate c nowMs spatialLayer temporalLayer;
  if v =? 0 then mret (0, c)
  else
    '(rate, below) ← add_rows (take (Z.to_nat spatialLayer) c) nowMs 0;
    row ← layer_at c spatialLayer;
    '(rate, low) ← add_rates (take (Z.to_nat (temporalLayer + 1)) row) nowMs rate;
    mret (rate, below ++ (low ++ drop (Z.to_nat (temporalLayer + 1)) row) :: drop (Z.to_nat (spatialLayer + 1)) c).

Definition GetSpatialLayerBitrate (c : t) (nowMs spatialLayer : Z) : res (Z * t) :=
  _ ← ms_assert (spatialLayer <? zlen c);
  row ← layer_at c spatialLayer;
  '(rate, row) ← add_rates row nowMs 0;
  mret (rate, <[Z.to_nat spatialLayer := row]> c).

Definition GetPacketCount (c : t) : Z :=
  foldl (fun n row => foldl (fun n x => u64 (n + RtpDataCounter.GetPacketCount x)) n row) 0 c.
Definition GetBytes (c : t) : Z :=
  foldl (fun n row => foldl (fun n x => u64 (n + RtpDataCounter.GetBytes x)) n row) 0 c.

End TransmissionCounter.

(** ** The stream *)

Module RtpStreamRecv.

Import RtpStream (params, tracker, counters, scoring, HasRtx, set_tracker, set_counters, set_scoring, set_lost, set_rtt,
  set_senderReport, PacketRetransmitted, PacketRepaired, event, SendNack, SendPli, SendFir).

Definition InactivityCheckInterval : Z := 1500.
Definition InactivityCheckIntervalWithDtx : Z := 5000.
Definition BufferSize : Z := 65536.

(** The members for the receiver reports. *)
Record Reporting := {
  expectedPrior : Z;
  receivedPrior : Z;
  reportedPacketLost : Z;
  lastSrTimestamp : Z;
  lastSrReceived : Z;
}.

(** The inactivity timer and flag. *)
Record Activity := { timer : option Z; inactive : bool }.

Record State := {
  base : RtpStream.State;
  reporting : Reporting;
  expectedPriorScore : Z;
  receivedPriorScore : Z;
  transit : Z;
  jitter : Z;
  firSeqNumber : Z;
  nackGenerator : option NackGenerator.State;
  activity : Activity;
  transmissionCounter : TransmissionCounter.t;
  mediaTransmissionCounter : RtpDataCounter.State;
}.

Definition set_base (s : State) (v : RtpStream.State) : State :=
  {| base := v; reporting := reporting s; expectedPriorScore := expectedPriorScore s;
     receivedPriorScore := receivedPriorScore s; transit := transit s; jitter := jitter s; firSeqNumber := firSeqNumber s;
     nackGenerator := nackGenerator s; activity := activity s; transmissionCounter := transmissionCounter s;
     mediaTransmissionCounter := mediaTransmissionCounter s |}.
Definition set_reporting (s : State) (v : Reporting) : State :=
  {| base := base s; reporting := v; expectedPriorScore := expectedPriorScore s;
     receivedPriorScore := receivedPriorScore s; transit := transit s; jitter := jitter s; firSeqNumber := firSeqNumber s;
     nackGenerator := nackGenerator s; activity := activity s; transmissionCounter := transmissionCounter s;
     mediaTransmissionCounter := mediaTransmissionCounter s |}.
Definition set_priorScore (s : State) (expected received : Z) : State :=
  {| base := base s; reporting := reporting s; expectedPriorScore := expected;
     receivedPriorScore := received; transit := transit s; jitter := jitter s; firSeqNumber := firSeqNumber s;
     nackGenerator := nackGenerator s; activity := activity s; transmissionCounter := transmissionCounter s;
     mediaTransmissionCounter := mediaTransmissionCounter s |}.
Definition set_jitter (s : State) (t j : Z) : State :=
  {| base := base s; reporting := reporting s; expectedPriorScore := expectedPriorScore s;
     receivedPriorScore := receivedPriorScore s; transit := t; jitter := j; firSeqNumber := firSeqNumber s;
     nackGenerator := nackGenerator s; activity := activity s; transmissionCounter := transmissionCounter s;
     mediaTransmissionCounter := mediaTransmissionCounter s |}.
Definition set_fir (s : State) (n : Z) : State :=
  {| base := base s; reporting := reporting s; expectedPriorScore := expectedPriorScore s;
     receivedPriorScore := receivedPriorScore s; transit := transit s; jitter := jitter s; firSeqNumber := n;
     nackGenerator := nackGenerator s; activity := activity s; transmissionCounter := transmissionCounter s;
     mediaTransmissionCounter := mediaTransmissionCounter s |}.
Definition set_nack (s : State) (v : option NackGenerator.State) : State :=
  {| base := base s; reporting := reporting s; expectedPriorScore := expectedPriorScore s;
     receivedPriorScore := receivedPriorScore s; transit := transit s; jitter := jitter s; firSeqNumber := firSeqNumber s;
     nackGenerator := v; activity := activity s; transmissionCounter := transmissionCounter s;
     mediaTransmissionCounter := mediaTransmissionCounter s |}.
Definition set_activity (s : State) (v : Activity) : State :=
  {| base := base s; reporting := reporting s; expectedPriorScore := expectedPriorScore s;
     receivedPriorScore := receivedPriorScore s; transit := transit s; jitter := jitter s; firSeqNumber := firSeqNumber s;
     nackGenerator := nackGenerator s; activity := v; transmissionCounter := transmissionCounter s;
     mediaTransmissionCounter := mediaTransmissionCounter s |}.
Definition set_transmission (s : State) (v : TransmissionCounter.t) (m : RtpDataCounter.State) : State :=
  {| base := base s; reporting := reporting s; expectedPriorScore := expectedPriorScore s;
     receivedPriorScore := receivedPriorScore s; transit := transit s; jitter := jitter s; firSeqNumber := firSeqNumber s;
     nackGenerator := nackGenerator s; activity := activity s; transmissionCounter := v;
     mediaTransmissionCounter := m |}.

Definition interval (s : State) : Z :=
  if RtpStream.useDtx (params (base s)) then InactivityCheckIntervalWithDtx else InactivityCheckInterval.

(** [inactivityCheckPeriodicTimer->Restart()] *)
Definition restart_timer (s : State) (nowMs : Z) : State :=
  set_activity s {| timer := Some (nowMs + interval s); inactive := inactive (activity s) |}.

(** The constructor. *)
Definition make (p : RtpStream.Params) (sendNackDelayMs nowMs : Z) : State :=
  restart_timer
    {| base := RtpStream.make p 10 nowMs;
       reporting := {| expectedPrior := 0; receivedPrior := 0; reportedPacketLost := 0; lastSrTimestamp := 0;
                       lastSrReceived := 0 |};
       expectedPriorScore := 0; receivedPriorScore := 0; transit := 0; jitter := 0; firSeqNumber := 0;
       nackGenerator := if RtpStream.useNack p then Some (NackGenerator.init sendNackDelayMs) else None;
       activity := {| timer := None; inactive := false |};
       transmissionCounter :=
         TransmissionCounter.make (RtpStream.spatialLayers p) (RtpStream.temporalLayers p)
           (if RtpStream.useDtx p then 6000 else 2500);
       mediaTransmissionCounter := RtpDataCounter.create 2500 |} nowMs.

(** *** Requests *)

(** The loops that group the sequence numbers: the item being built starts at [seq] and has
    [bitmask]. *)
Fixpoint nack_items (seq bitmask : Z) (l : list Z) : list FeedbackRtpNackItem :=
  match l with
  | [] => [FeedbackRtpNack.create seq bitmask]
  | x :: l' =>
      let shift := u16 (x - seq - 1) in
      if 15 <? shift then FeedbackRtpNack.create seq bitmask :: nack_items x 0 l'
      else nack_items seq (Z.lor bitmask (Z.shiftl 1 shift)) l'
  end.

Definition group_nacks (seqNumbers : list Z) : list FeedbackRtpNackItem :=
  match seqNumbers with [] => [] | seq :: l => nack_items seq 0 l end.

Fixpoint count_requested (items : list FeedbackRtpNackItem) : res Z :=
  match items with
  | [] => mret 0
  | i :: items' => n ← FeedbackRtpNack.CountRequestedPackets i; m ← count_requested items'; mret (n + m)
  end.

Definition nack_packet (s : State) (seqNumbers : list Z) : FeedbackPacket.t FeedbackRtpNackItem :=
  {| FeedbackPacket.messageType := 1; FeedbackPacket.senderSsrc := 0;
     FeedbackPacket.mediaSsrc := RtpStream.ssrc (params (base s)); FeedbackPacket.items := group_nacks seqNumbers |}.

Definition OnNackGeneratorNackRequired (s : State) (seqNumbers : list Z) : res (State * list event) :=
  _ ← ms_assert (RtpStream.useNack (params (base s)));
  let packet := nack_packet s seqNumbers in
  numPacketsRequested ← count_requested (FeedbackPacket.items packet);
  size ← FeedbackPacket.GetSize packet;
  if BufferSize <? size then mret (s, [])
  else
    mret (set_base s (set_counters (base s) (RtpStream.count_nack (counters (base s)) 1 numPacketsRequested)),
          [SendNack packet]).

Definition RequestKeyFrame (s : State) : State * list event :=
  let b := base s in
  let ssrc := RtpStream.ssrc (params b) in
  if RtpStream.usePli (params b) then
    (set_base s (set_counters b (RtpStream.count_pli (counters b))),
     [SendPli {| FeedbackHeaderPacket.messageType := 1; FeedbackHeaderPacket.senderSsrc := ssrc;
                 FeedbackHeaderPacket.mediaSsrc := ssrc |}])
  else if RtpStream.useFir (params b) then
    let n := u8 (firSeqNumber s + 1) in
    (set_fir (set_base s (set_counters b (RtpStream.count_fir (counters b)))) n,
     [SendFir {| FeedbackPacket.messageType := 4; FeedbackPacket.senderSsrc := ssrc; FeedbackPacket.mediaSsrc := ssrc;
                 FeedbackPacket.items := [FeedbackPsFir.create ssrc n] |}])
  else (s, []).

(** The calls of the [NackGenerator] to its listener. *)
Fixpoint notified (s : State) (ns : list NackGenerator.notification) : res (State * list event) :=
  match ns with
  | [] => mret (s, [])
  | n :: ns' =>
      '(s, e) ← (match n with
                 | NackGenerator.NackRequired seqNumbers => OnNackGeneratorNackRequired s seqNumbers
                 | NackGenerator.KeyFrameRequired => mret (RequestKeyFrame s)
                 end);
      '(s, e') ← notified s ns';
      mret (s, e ++ e')
  end.

(** [nackGenerator->ReceivePacket(packet, isRecovered)]. *)
Definition pass_to_nack (s : State) (seq nowMs : Z) (isKeyFrame isRecovered : bool) : res (bool * State * list event) :=
  g ← deref (nackGenerator s);
  '(found, g, ns) ← NackGenerator.ReceivePacket g nowMs seq isKeyFrame isRecovered;
  '(s, e) ← notified (set_nack s (Some g)) ns;
  mret (found, s, e).

(** [nackGenerator->OnTimer()], called by its own timer. *)
Definition OnNackTimer (s : State) (nowMs : Z) : res (State * list event) :=
  g ← deref (nackGenerator s);
  let '(g, ns) := NackGenerator.OnTimer g nowMs in
  notified (set_nack s (Some g)) ns.

(** *** Jitter *)

(** The computations on [int] wrap around; those on [double] are exact, since they are of
    multiples of 1/16 below [2 ^ 33]. *)
Definition CalculateJitter (s : State) (rtpTimestamp nowMs : Z) : res State :=
  let clockRate := RtpStream.clockRate (params (base s)) in
  if clockRate =? 0 then mret s
  else
    let transit' := i32 (nowMs - rtpTimestamp * 1000 / clockRate) in
    let d := i32 (transit' - transit s) in
    if transit s =? 0 then mret (set_jitter s transit' (jitter s))
    else
      let d := if d <? 0 then i32 (- d) else d in
      let v := Z.quot (15 * jitter s + d) 16 in
      if v <? 0 then Fault BadConversion else mret (set_jitter s transit' v).

(** *** Packets *)

Definition set_counted (s : State) (c : RtpStream.Counters) : State := set_base s (set_counters (base s) c).

(** Not inactive anymore, and the timer is restarted. *)
Definition active_again (s : State) (nowMs : Z) : State * list event :=
  let '(s, e) :=
    if inactive (activity s) then
      let '(sc, e) := RtpStream.ResetScore (scoring (base s)) 10 true nowMs in
      (set_base (set_activity s {| timer := timer (activity s); inactive := false |}) (set_scoring (base s) sc), e)
    else (s, []) in
  (restart_timer s nowMs, e).

(** The packet is processed at codec level if its payload type is that of the stream. *)
Definition process_codec (s : State) (packet : RtpPacket.t) : res (option Tools.Descriptor * RtpPacket.t) :=
  pt ← RtpPacket.GetPayloadType packet;
  if pt =? RtpStream.payloadType (params (base s)) then
    Tools.ProcessRtpPacket packet (RtpStream.mimeType (params (base s))) (RtpStream.mimeSubtype (params (base s)))
  else mret (None, packet).

Definition count_transmission (s : State) (d : option Tools.Descriptor) (packet : RtpPacket.t) (nowMs : Z) : res State :=
  c ← TransmissionCounter.Update (transmissionCounter s) (Tools.GetSpatialLayer d) (Tools.GetTemporalLayer d)
        (RtpPacket.GetSize packet) nowMs;
  mret (set_transmission s c (mediaTransmissionCounter s)).

(** What a reception gives: whether the packet is valid, the stream, the packet, which codec
    processing may have changed, and its payload descriptor. *)
Record received := {
  valid : bool;
  stream : State;
  rtp : RtpPacket.t;
  descriptor : option Tools.Descriptor;
  events : list event;
}.

Definition ignored (s : State) (packet : RtpPacket.t) : received :=
  {| valid := false; stream := s; rtp := packet; descriptor := None; events := [] |}.

Definition ReceivePacket (s : State) (packet : RtpPacket.t) (nowMs : Z) : res received :=
  seq ← RtpPacket.GetSequenceNumber packet;
  ts ← RtpPacket.GetTimestamp packet;
  let '(o, tr) := SeqTracker.ReceiveStreamPacket (tracker (base s)) seq ts nowMs in
  let s := set_base s (set_tracker (base s) tr) in
  match o with
  | SeqTracker.Discarded => mret (ignored s packet)
  | _ =>
      '(d, packet) ← process_codec s packet;
      '(s, e1) ← (if RtpStream.useNack (params (base s)) then
                    '(found, s, e) ← pass_to_nack s seq nowMs (Tools.IsKeyFrame d) false;
                    if negb (HasRtx (base s)) && (found : bool) then
                      mret (set_counted s (PacketRepaired (PacketRetransmitted (counters (base s)))), e)
                    else mret (s, e)
                  else mret (s, []));
      s ← CalculateJitter s ts nowMs;
      s ← count_transmission s d packet nowMs;
      m ← RtpDataCounter.Update (mediaTransmissionCounter s) (RtpPacket.GetSize packet) nowMs;
      let s := set_transmission s (transmissionCounter s) m in
      let '(s, e2) := active_again s nowMs in
      mret {| valid := true; stream := s; rtp := packet; descriptor := d; events := e1 ++ e2 |}
  end.

(** The RTX stream, if any, takes the packet first. *)
Definition receive_rtx (s : State) (seq ts nowMs : Z) : bool * State :=
  match RtpStream.rtxStream (base s) with
  | None => (true, s)
  | Some r =>
      let '(ok, r) := RtxStream.ReceivePacket r seq ts nowMs in
      (ok, set_base s (RtpStream.set_rtxStream (base s) (params (base s)) (Some r)))
  end.

Definition ReceiveRtxPacket (s : State) (packet : RtpPacket.t) (nowMs : Z) : res received :=
  let p := params (base s) in
  if negb (RtpStream.useNack p) then mret (ignored s packet)
  else
    ssrc ← RtpPacket.GetSsrc packet;
    _ ← ms_assert (ssrc =? RtpStream.rtxSsrc p);
    pt ← RtpPacket.GetPayloadType packet;
    if negb (pt =? RtpStream.rtxPayloadType p) then mret (ignored s packet)
    else
      rtxSeq ← RtpPacket.GetSequenceNumber packet;
      ts ← RtpPacket.GetTimestamp packet;
      let '(ok, s) := receive_rtx s rtxSeq ts nowMs in
      if negb ok then mret (ignored s packet)
      else
        '(decoded, packet) ← RtpPacket.RtxDecode packet (RtpStream.payloadType p) (RtpStream.ssrc p);
        if negb decoded then mret (ignored s packet)
        else
          seq ← RtpPacket.GetSequenceNumber packet;
          ts ← RtpPacket.GetTimestamp packet;
          let '(o, tr) := SeqTracker.UpdateSeq (tracker (base s)) seq ts nowMs in
          let s := set_base s (set_tracker (base s) tr) in
          match o with
          | SeqTracker.Discarded => mret (ignored s packet)
          | _ =>
              '(d, packet) ← process_codec s packet;
              let s := set_counted s (PacketRetransmitted (counters (base s))) in
              '(found, s, e1) ← pass_to_nack s seq nowMs (Tools.IsKeyFrame d) true;
              if negb found then
                mret {| valid := false; stream := s; rtp := packet; descriptor := d; events := e1 |}
              else
                let s := set_counted s (PacketRepaired (counters (base s))) in
                s ← count_transmission s d packet nowMs;
                let '(s, e2) := active_again s nowMs in
                mret {| valid := true; stream := s; rtp := packet; descriptor := d; events := e1 ++ e2 |}
          end.

(** *** Reports *)

(** The members after an interval: packets lost, and what the report says of them. *)
Definition GetRtcpReceiverReport (s : State) (worstRemoteFractionLost nowMs : Z) : res (list Z * State) :=
  let b := base s in
  let r := reporting s in
  let worst := if RtpStream.useInBandFec (params b) then worstRemoteFractionLost else 0 in
  report ← ReceiverReport.SetSsrc (new_report ReceiverReport.HeaderSize) (RtpStream.ssrc (params b));
  let expected := SeqTracker.GetExpectedPackets (tracker b) in
  let count := RtpDataCounter.GetPacketCount (mediaTransmissionCounter s) in
  let lost := if count <? expected then u32 (expected - count) else 0 in
  let expectedInterval := u32 (expected - expectedPrior r) in
  fraction ← fraction_lost expectedInterval (u32 (count - receivedPrior r));
  let '(reported, reportedFraction) :=
    if worst <=? fraction then (u32 (reportedPacketLost r + u32 (lost - RtpStream.packetsLost b)), fraction)
    else (u32 (reportedPacketLost r + Z.shiftr (u32 (worst * expectedInterval)) 8), worst) in
  report ← ReceiverReport.SetTotalLost report (i32 reported);
  report ← ReceiverReport.SetFractionLost report reportedFraction;
  report ← ReceiverReport.SetLastSeq report (u32 (SeqTracker.maxSeq (tracker b) + SeqTracker.cycles (tracker b)));
  report ← ReceiverReport.SetJitter report (jitter s);
  report ← fill_last_sr report nowMs (lastSrReceived r) (lastSrTimestamp r);
  mret (report,
        set_reporting (set_base s (set_lost b lost fraction))
          {| expectedPrior := expected; receivedPrior := u32 count; reportedPacketLost := reported;
             lastSrTimestamp := lastSrTimestamp r; lastSrReceived := lastSrReceived r |}).

Definition GetRtxRtcpReceiverReport (s : State) (nowMs : Z) : res (option (list Z) * State) :=
  match RtpStream.rtxStream (base s) with
  | None => mret (None, s)
  | Some r =>
      '(report, r) ← RtxStream.GetRtcpReceiverReport r nowMs;
      mret (Some report, set_base s (RtpStream.set_rtxStream (base s) (params (base s)) (Some r)))
  end.

Section Score.

Context (pow4 : spec_float -> spec_float).

(** The packets of an interval that count as lost and as repaired, and the retransmitted
    ones. *)
Definition adjust (hasRtx : bool) (lost received repaired retransmitted : Z) : Z * Z * Z :=
  let lost := if received <? lost then received else lost in
  if lost <? repaired then
    if hasRtx then (lost, lost, u32 (retransmitted - (lost - lost))) else (repaired, repaired, retransmitted)
  else (lost, repaired, retransmitted).

Definition UpdateScore (s : State) (nowMs : Z) : res (State * list event) :=
  let b := base s in
  let totalExpected := SeqTracker.GetExpectedPackets (tracker b) in
  let expected := u32 (totalExpected - expectedPriorScore s) in
  let totalReceived := RtpDataCounter.GetPacketCount (mediaTransmissionCounter s) in
  let received := u32 (totalReceived - receivedPriorScore s) in
  let lost := if expected <? received then 0 else u32 (expected - received) in
  let c := counters b in
  let repaired := u32 (RtpStream.packetsRepaired c - RtpStream.repairedPriorScore c) in
  let retransmitted := u32 (RtpStream.packetsRetransmitted c - RtpStream.retransmittedPriorScore c) in
  let s := set_counted (set_priorScore s totalExpected (u32 totalReceived)) (RtpStream.close_interval c) in
  if inactive (activity s) then mret (s, [])
  else
    score ← (if expected =? 0 then mret 10
             else
               let '(lost, repaired, retransmitted) := adjust (HasRtx b) lost received repaired retransmitted in
               RtpStream.loss_score pow4 32 received lost repaired retransmitted);
    '(sc, e) ← RtpStream.UpdateScore (scoring (base s)) score nowMs;
    mret (set_base s (set_scoring (base s) sc), e).

Definition ReceiveRtcpSenderReport (s : State) (report : list Z) (nowMs : Z) : res (State * list event) :=
  sec ← SenderReport.GetNtpSec report;
  frac ← SenderReport.GetNtpFrac report;
  ts ← SenderReport.GetRtpTs report;
  let r := reporting s in
  let s :=
    set_reporting s
      {| expectedPrior := expectedPrior r; receivedPrior := receivedPrior r; reportedPacketLost := reportedPacketLost r;
         lastSrTimestamp := middle_ntp sec frac; lastSrReceived := nowMs |} in
  let ntpMs := Time.Ntp2TimeMs {| Time.seconds := sec; Time.fractions := frac |} in
  UpdateScore (set_base s (set_senderReport (base s) ntpMs ts)) nowMs.

End Score.

Definition ReceiveRtxRtcpSenderReport (s : State) (report : list Z) (nowMs : Z) : res State :=
  match RtpStream.rtxStream (base s) with
  | None => mret s
  | Some r =>
      r ← RtxStream.ReceiveRtcpSenderReport r report nowMs;
      mret (set_base s (RtpStream.set_rtxStream (base s) (params (base s)) (Some r)))
  end.

Definition ReceiveRtcpXrDelaySinceLastRr (s : State) (ssrcInfo : list Z) (nowMs : Z) : res State :=
  lastRr ← DelaySinceLastRr.GetLastReceiverReport ssrcInfo;
  dlrr ← DelaySinceLastRr.GetDelaySinceLastReceiverReport ssrcInfo;
  let rtt := RtpStream.rtt_float (RtpStream.rtt_units nowMs lastRr dlrr) in
  let s := set_base s (set_rtt (base s) rtt) in
  if RtpStream.useNack (params (base s)) then
    g ← deref (nackGenerator s);
    ms ← uint_of_float 32 rtt;
    mret (set_nack s (Some (NackGenerator.UpdateRtt g ms)))
  else mret s.

(** *** Pausing, and the inactivity timer *)

Definition Pause (s : State) : res State :=
  let s := set_activity s {| timer := None; inactive := inactive (activity s) |} in
  s ← (if RtpStream.useNack (params (base s)) then
         g ← deref (nackGenerator s); mret (set_nack s (Some (NackGenerator.Reset g)))
       else mret s);
  mret (set_jitter s 0 0).

Definition Resume (s : State) (nowMs : Z) : State :=
  if negb (inactive (activity s)) then restart_timer s nowMs else s.

(** The timer has fired; it does not repeat. *)
Definition OnTimer (s : State) (nowMs : Z) : State * list event :=
  let s := set_activity s {| timer := None; inactive := true |} in
  let '(sc, e) := RtpStream.ResetScore (scoring (base s)) 0 true nowMs in
  (set_base s (set_scoring (base s) sc), e).

End RtpStreamRecv.
