(* ===== verification/RtpStreamSend.v ===== *)
(** * The RTP streams a worker sends

    Models [worker/src/RTC/RtpStreamSend.cpp] and its header: the packets that are kept for
    retransmission, the answers to NACKs, and the reports about the stream.  The packets that
    are kept are shared with the other consumers of the same producer
    ([std::shared_ptr<RtpPacket>]): they live in a heap, at the address that is the [pkt_id]
    of the items of the retransmission buffer. *)

From Stdlib Require Import SpecFloat.
From stdpp Require Import gmap.
From S2P Require Import Prelude Utils Float OrdSet SeqManager RtpRetransmissionBuffer RateCalculator.
From S2P Require Import RtcpPacket RtcpReports RtcpSdes RtcpFeedback RtcpXr RtpPacket Codecs RtpStream.

(** ** The shared packets *)

Record Heap := { packets : gmap Z RtpPacket.t; next : Z }.

Definition load (h : Heap) (a : Z) : res RtpPacket.t := deref (packets h !! a).
Definition save (h : Heap) (a : Z) (p : RtpPacket.t) : Heap := {| packets := <[a := p]> (packets h); next := next h |}.
Definition alloc (h : Heap) (p : RtpPacket.t) : Heap := {| packets := <[next h := p]> (packets h); next := next h + 1 |}.

Module RtpStreamSend.

Import RetransmissionBuffer (Packet, pkt_id, pkt_ssrc, pkt_seq, pkt_ts, Item, item_packet, item_ssrc, sequenceNumber,
  timestamp, resentAtMs, sentTimes, Buffer, buffer, with_buffer).
Import RtpStream (params, tracker, counters, scoring, HasRtx, set_tracker, set_counters, set_scoring, set_lost, set_rtt,
  set_senderReport, PacketRetransmitted, PacketRepaired, event, Retransmit).

Definition RetransmissionBufferMaxItems : Z := 2500.
Definition MaxRequestedPackets : Z := 17.
Definition DefaultRtt : Z := 100.
Definition MaxRetransmissionDelayForVideoMs : Z := 2000.
Definition MaxRetransmissionDelayForAudioMs : Z := 1000.

Record State := {
  base : RtpStream.State;
  lostPriorScore : Z;
  sentPriorScore : Z;
  mid : list Z;
  rtxSeq : Z;
  transmissionCounter : RtpDataCounter.State;
  retransmissionBuffer : option Buffer;
  lastRrTimestamp : Z;
  lastRrReceivedMs : Z;
}.

Definition set_base (s : State) (v : RtpStream.State) : State :=
  {| base := v; lostPriorScore := lostPriorScore s; sentPriorScore := sentPriorScore s; mid := mid s; rtxSeq := rtxSeq s;
     transmissionCounter := transmissionCounter s; retransmissionBuffer := retransmissionBuffer s;
     lastRrTimestamp := lastRrTimestamp s; lastRrReceivedMs := lastRrReceivedMs s |}.
Definition set_priorScore (s : State) (lost sent : Z) : State :=
  {| base := base s; lostPriorScore := lost; sentPriorScore := sent; mid := mid s; rtxSeq := rtxSeq s;
     transmissionCounter := transmissionCounter s; retransmissionBuffer := retransmissionBuffer s;
     lastRrTimestamp := lastRrTimestamp s; lastRrReceivedMs := lastRrReceivedMs s |}.
Definition set_rtxSeq (s : State) (v : Z) : State :=
  {| base := base s; lostPriorScore := lostPriorScore s; sentPriorScore := sentPriorScore s; mid := mid s; rtxSeq := v;
     transmissionCounter := transmissionCounter s; retransmissionBuffer := retransmissionBuffer s;
     lastRrTimestamp := lastRrTimestamp s; lastRrReceivedMs := lastRrReceivedMs s |}.
Definition set_transmission (s : State) (v : RtpDataCounter.State) : State :=
  {| base := base s; lostPriorScore := lostPriorScore s; sentPriorScore := sentPriorScore s; mid := mid s;
     rtxSeq := rtxSeq s; transmissionCounter := v; retransmissionBuffer := retransmissionBuffer s;
     lastRrTimestamp := lastRrTimestamp s; lastRrReceivedMs := lastRrReceivedMs s |}.
Definition set_buffer (s : State) (v : option Buffer) : State :=
  {| base := base s; lostPriorScore := lostPriorScore s; sentPriorScore := sentPriorScore s; mid := mid s;
     rtxSeq := rtxSeq s; transmissionCounter := transmissionCounter s; retransmissionBuffer := v;
     lastRrTimestamp := lastRrTimestamp s; lastRrReceivedMs := lastRrReceivedMs s |}.
Definition set_lastRr (s : State) (ts ms : Z) : State :=
  {| base := base s; lostPriorScore := lostPriorScore s; sentPriorScore := sentPriorScore s; mid := mid s;
     rtxSeq := rtxSeq s; transmissionCounter := transmissionCounter s; retransmissionBuffer := retransmissionBuffer s;
     lastRrTimestamp := ts; lastRrReceivedMs := ms |}.

(** The constructor; a codec that is neither audio nor video aborts it. *)
Definition make (p : RtpStream.Params) (mid : list Z) (nowMs : Z) : res State :=
  b ← (if RtpStream.useNack p then
         delay ← (match RtpStream.mimeType p with
                  | Tools.VIDEO => mret MaxRetransmissionDelayForVideoMs
                  | Tools.AUDIO => mret MaxRetransmissionDelayForAudioMs
                  | Tools.UNSET => Fault AssertFailed
                  end);
         b ← RetransmissionBuffer.create RetransmissionBufferMaxItems delay (RtpStream.clockRate p);
         mret (Some b)
       else mret None);
  mret {| base := RtpStream.make p 10 nowMs; lostPriorScore := 0; sentPriorScore := 0; mid := mid; rtxSeq := 0;
          transmissionCounter := RtpDataCounter.create 2500; retransmissionBuffer := b; lastRrTimestamp := 0;
          lastRrReceivedMs := 0 |}.

(** [random] is [GetRandomUInt(0, 0xFFFF)]. *)
Definition SetRtx (s : State) (payloadType ssrc random : Z) : State :=
  set_rtxSeq (set_base s (RtpStream.SetRtx (base s) payloadType ssrc)) random.

Definition clear_buffer (s : State) : State :=
  set_buffer s (option_map RetransmissionBuffer.Clear (retransmissionBuffer s)).

Definition UserOnSequenceNumberReset (s : State) : State := clear_buffer s.
Definition Pause (s : State) : State := clear_buffer s.
Definition Resume (s : State) : State := s.

(** *** Packets *)

(** [StorePacket]: the shared packet of the caller, if any, is at [shared]; a copy of the
    packet is made the first time it is stored, in a buffer with the bytes [junk]. *)
Definition StorePacket (s : State) (b : Buffer) (h : Heap) (packet : RtpPacket.t) (ssrc seq ts : Z) (shared : option Z)
    (junk : list Z) : res (State * Heap * option Z) :=
  if RtpPacket.MtuSize <? RtpPacket.GetSize packet then mret (s, h, shared)
  else
    let view a := {| pkt_id := a; pkt_ssrc := ssrc; pkt_seq := seq; pkt_ts := ts |} in
    '(b, stored) ← RetransmissionBuffer.Insert b (view (next h)) (option_map view shared);
    let s := set_buffer s (Some b) in
    match shared, stored with
    | None, Some p => copy ← RtpPacket.Clone packet junk; mret (s, alloc h copy, Some (pkt_id p))
    | _, _ => mret (s, h, shared)
    end.

Definition ReceivePacket (s : State) (h : Heap) (packet : RtpPacket.t) (shared : option Z) (junk : list Z) (nowMs : Z)
    : res (bool * State * Heap * option Z) :=
  ssrc ← RtpPacket.GetSsrc packet;
  _ ← ms_assert (ssrc =? RtpStream.ssrc (params (base s)));
  seq ← RtpPacket.GetSequenceNumber packet;
  ts ← RtpPacket.GetTimestamp packet;
  let '(o, tr) := SeqTracker.ReceiveStreamPacket (tracker (base s)) seq ts nowMs in
  let s := set_base s (set_tracker (base s) tr) in
  match o with
  | SeqTracker.Discarded => mret (false, s, h, shared)
  | _ =>
      let s := match o with SeqTracker.Restarted => UserOnSequenceNumberReset s | _ => s end in
      '(s, h, shared) ← (match retransmissionBuffer s with
                         | Some b => StorePacket s b h packet ssrc seq ts shared junk
                         | None => mret (s, h, shared)
                         end);
      c ← RtpDataCounter.Update (transmissionCounter s) (RtpPacket.GetSize packet) nowMs;
      mret (true, set_transmission s c, h, shared)
  end.

(** *** Retransmissions *)

(** The item that [Get(seq)] returned is replaced. *)
Definition put_item (b : Buffer) (seq : Z) (it : Item) : Buffer :=
  match RetransmissionBuffer.GetOldest (buffer b) with
  | None => b
  | Some oldest => with_buffer b (<[Z.to_nat (u16 (seq - sequenceNumber oldest)) := Some it]> (buffer b))
  end.

Definition resent (it : Item) (nowMs : Z) : Item :=
  {| item_packet := item_packet it; item_ssrc := item_ssrc it; sequenceNumber := sequenceNumber it; timestamp := timestamp it;
     resentAtMs := nowMs; sentTimes := u8 (sentTimes it + 1) |}.

(** The item was resent in the last RTT milliseconds. *)
Definition recently (it : Item) (nowMs rtt : Z) : bool :=
  negb (resentAtMs it =? 0) && (u64 (nowMs - resentAtMs it) <=? rtt).

(** The packet of an item, with the correct info put into it. *)
Definition correct_info (s : State) (h : Heap) (it : Item) : res (Z * RtpPacket.t) :=
  p ← deref (item_packet it);
  packet ← load h (pkt_id p);
  packet ← RtpPacket.SetSsrc packet (item_ssrc it);
  packet ← RtpPacket.SetSequenceNumber packet (sequenceNumber it);
  packet ← RtpPacket.SetTimestamp packet (timestamp it);
  packet ← (if bool_decide (mid s = []) then mret packet else RtpPacket.UpdateMid packet (mid s));
  mret (pkt_id p, packet).

(** A requested sequence number: the container's elements so far are [items]. *)
Definition resend (s : State) (b : Buffer) (h : Heap) (seq nowMs rtt : Z) (items : list Item)
    : res (State * Buffer * Heap * list Item) :=
  item ← RetransmissionBuffer.Get b seq;
  match item with
  | None => mret (s, b, h, items)
  | Some it =>
      '(a, packet) ← correct_info s h it;
      let h := save h a packet in
      if recently it nowMs rtt then mret (s, b, h, items)
      else
        '(s, h) ← (if HasRtx (base s) then
                     let s := set_rtxSeq s (u16 (rtxSeq s + 1)) in
                     packet ← RtpPacket.RtxEncode packet (RtpStream.rtxPayloadType (params (base s)))
                                (RtpStream.rtxSsrc (params (base s))) (rtxSeq s);
                     mret (s, save h a packet)
                   else mret (s, h));
        let it := resent it nowMs in
        if MaxRequestedPackets + 1 <=? zlen items then Fault OutOfBounds
        else mret (s, put_item b seq it, h, items ++ [it])
  end.

(** [while (requested || bitmask != 0)] *)
Fixpoint fill_loop (fuel : nat) (s : State) (b : Buffer) (h : Heap) (requested : bool) (seq bitmask nowMs rtt : Z)
    (items : list Item) : res (State * Buffer * Heap * list Item) :=
  if negb (requested || negb (bitmask =? 0)) then mret (s, b, h, items)
  else
    match fuel with
    | O => Fault OutOfFuel
    | S fuel' =>
        '(s, b, h, items) ← (if requested then resend s b h seq nowMs rtt items else mret (s, b, h, items));
        fill_loop fuel' s b h (negb (Z.land bitmask 1 =? 0)) (u16 (seq + 1)) (Z.shiftr bitmask 1) nowMs rtt items
    end.

Definition FillRetransmissionContainer (s : State) (h : Heap) (seq bitmask nowMs : Z) : res (State * Heap * list Item) :=
  match retransmissionBuffer s with
  | None => mret (s, h, [])
  | Some b =>
      let r := RtpStream.rtt (base s) in
      rtt ← uint_of_float 16 (if SFeqb r (S754_zero false) then f32_of_Z DefaultRtt else r);
      '(s, b, h, items) ← fill_loop 17 s b h true seq bitmask nowMs rtt [];
      mret (set_buffer s (Some b), h, items)
  end.

(** The packets of the container are sent, and restored. *)
Fixpoint send_items (s : State) (h : Heap) (items : list Item) : res (State * Heap * list event) :=
  match items with
  | [] => mret (s, h, [])
  | it :: items' =>
      p ← deref (item_packet it);
      packet ← load h (pkt_id p);
      let c := PacketRetransmitted (counters (base s)) in
      let c := if sentTimes it =? 1 then PacketRepaired c else c in
      let s := set_base s (set_counters (base s) c) in
      h ← (if HasRtx (base s) then
             '(_, packet') ← RtpPacket.RtxDecode packet (RtpStream.payloadType (params (base s))) (item_ssrc it);
             mret (save h (pkt_id p) packet')
           else mret h);
      '(s, h, e) ← send_items s h items';
      mret (s, h, Retransmit packet :: e)
  end.

Fixpoint receive_items (s : State) (h : Heap) (items : list FeedbackRtpNackItem) (nowMs : Z)
    : res (State * Heap * list event) :=
  match items with
  | [] => mret (s, h, [])
  | i :: items' =>
      n ← FeedbackRtpNack.CountRequestedPackets i;
      let s := set_base s (set_counters (base s) (RtpStream.count_nack (counters (base s)) 0 n)) in
      seq ← FeedbackRtpNack.GetPacketId i;
      bitmask ← FeedbackRtpNack.GetLostPacketBitmask i;
      '(s, h, container) ← FillRetransmissionContainer s h seq bitmask nowMs;
      '(s, h, e) ← send_items s h container;
      '(s, h, e') ← receive_items s h items' nowMs;
      mret (s, h, e ++ e')
  end.

Definition ReceiveNack (s : State) (h : Heap) (nackPacket : FeedbackPacket.t FeedbackRtpNackItem) (nowMs : Z)
    : res (State * Heap * list event) :=
  let s := set_base s (set_counters (base s) (RtpStream.count_nack (counters (base s)) 1 0)) in
  receive_items s h (FeedbackPacket.items nackPacket) nowMs.

(** The message types PLI and FIR are counted. *)
Definition ReceiveKeyFrameRequest (s : State) (messageType : Z) : State :=
  let c := counters (base s) in
  if messageType =? 1 then set_base s (set_counters (base s) (RtpStream.count_pli c))
  else if messageType =? 4 then set_base s (set_counters (base s) (RtpStream.count_fir c))
  else s.

(** *** Reports *)

Section Score.

Context (pow4 : spec_float -> spec_float).

Definition UpdateScore (s : State) (report : list Z) (nowMs : Z) : res (State * list event) :=
  let b := base s in
  let totalSent := RtpDataCounter.GetPacketCount (transmissionCounter s) in
  let sent := u64 (totalSent - sentPriorScore s) in
  reportLost ← ReceiverReport.GetTotalLost report;
  let totalLost := if 0 <? reportLost then reportLost else 0 in
  let lost := if totalLost <? lostPriorScore s then 0 else u32 (totalLost - lostPriorScore s) in
  let c := counters b in
  let repaired := u32 (RtpStream.packetsRepaired c - RtpStream.repairedPriorScore c) in
  let retransmitted := u32 (RtpStream.packetsRetransmitted c - RtpStream.retransmittedPriorScore c) in
  let s := set_base (set_priorScore s totalLost (u32 totalSent)) (set_counters b (RtpStream.close_interval c)) in
  score ← (if sent =? 0 then mret 10
           else
             let lost := if sent <? lost then u32 sent else lost in
             let repaired := if lost <? repaired then lost else repaired in
             RtpStream.loss_score pow4 64 sent lost repaired retransmitted);
  '(sc, e) ← RtpStream.UpdateScore (scoring (base s)) score nowMs;
  mret (set_base s (set_scoring (base s) sc), e).

Definition ReceiveRtcpReceiverReport (s : State) (report : list Z) (nowMs : Z) : res (State * list event) :=
  lastSr ← ReceiverReport.GetLastSenderReport report;
  dlsr ← ReceiverReport.GetDelaySinceLastSenderReport report;
  let b := set_rtt (base s) (RtpStream.rtt_float (RtpStream.rtt_units nowMs lastSr dlsr)) in
  lost ← ReceiverReport.GetTotalLost report;
  fraction ← ReceiverReport.GetFractionLost report;
  UpdateScore (set_base s (set_lost b (u32 lost) fraction)) report nowMs.

End Score.

Definition ReceiveRtcpXrReceiverReferenceTime (s : State) (report : ReceiverReferenceTime.t) (nowMs : Z) : res State :=
  sec ← ReceiverReferenceTime.GetNtpSec report;
  frac ← ReceiverReferenceTime.GetNtpFrac report;
  mret (set_lastRr s (middle_ntp sec frac) nowMs).

Definition GetRtcpSenderReport (s : State) (nowMs : Z) : res (option (list Z) * State) :=
  if RtpDataCounter.GetPacketCount (transmissionCounter s) =? 0 then mret (None, s)
  else
    let b := base s in
    let ntp := Time.TimeMs2Ntp nowMs in
    let diffMs := u64 (nowMs - SeqTracker.maxPacketMs (tracker b)) in
    let diffTs := u64 (diffMs * RtpStream.clockRate (params b)) / 1000 in
    let ts := u32 (SeqTracker.maxPacketTs (tracker b) + diffTs) in
    report ← SenderReport.SetSsrc (new_report SenderReport.HeaderSize) (RtpStream.ssrc (params b));
    report ← SenderReport.SetPacketCount report (u32 (RtpDataCounter.GetPacketCount (transmissionCounter s)));
    report ← SenderReport.SetOctetCount report (u32 (RtpDataCounter.GetBytes (transmissionCounter s)));
    report ← SenderReport.SetNtpSec report (Time.seconds ntp);
    report ← SenderReport.SetNtpFrac report (Time.fractions ntp);
    report ← SenderReport.SetRtpTs report ts;
    mret (Some report, set_base s (set_senderReport b nowMs ts)).

Definition GetRtcpXrDelaySinceLastRr (s : State) (nowMs : Z) : res (option (list Z)) :=
  if lastRrReceivedMs s =? 0 then mret None
  else
    let dlrr := delay_units (u32 (nowMs - lastRrReceivedMs s)) in
    info ← DelaySinceLastRr.SetSsrc (new_report DelaySinceLastRr.BodySize) (RtpStream.ssrc (params (base s)));
    info ← DelaySinceLastRr.SetDelaySinceLastReceiverReport info dlrr;
    info ← DelaySinceLastRr.SetLastReceiverReport info (lastRrTimestamp s);
    mret (Some info).

(** The CNAME of the stream. *)
Definition GetRtcpSdesChunk (s : State) : SdesChunk.t :=
  {| SdesChunk.ssrc := RtpStream.ssrc (params (base s)); SdesChunk.items := [SdesItem.create 1 (RtpStream.cname (params (base s)))] |}.

Definition GetBitrate (s : State) (nowMs : Z) : res (Z * State) :=
  '(v, c) ← RtpDataCounter.GetBitrate (transmissionCounter s) nowMs; mret (v, set_transmission s c).

End RtpStreamSend.
