(* ===== verification/RtpStreamSpec.v ===== *)
(** * RTP streams: what they promise

    The sequence numbers a receiver asks for are those the sender looks for; the receiver
    counts the packets it expects as if sequence numbers were unbounded; the loss it reports
    and the score it computes. *)

From Stdlib Require Import SpecFloat.
From stdpp Require Import gmap.
From S2P Require Import Prelude Utils Float OrdSet SeqManager RtpRetransmissionBuffer NackGenerator.
From S2P Require Import RateCalculator RtcpPacket RtcpReports RtcpFeedback RtcpXr RtpPacket Codecs RtpStream.
From S2P Require Import RtpStreamRecv RtpStreamSend.

(** ** The packets a NACK item asks for *)

(** The sequence numbers [FillRetransmissionContainer] looks for, in order. *)
Fixpoint requests (n : nat) (requested : bool) (seq bitmask : Z) : list Z :=
  match n with
  | O => []
  | S n' => (if requested then [seq] else []) ++ requests n' (negb (Z.land bitmask 1 =? 0)) (u16 (seq + 1)) (Z.shiftr bitmask 1)
  end.

Definition item_requests (i : FeedbackRtpNackItem) : res (list Z) :=
  seq ← FeedbackRtpNack.GetPacketId i; bitmask ← FeedbackRtpNack.GetLostPacketBitmask i; mret (requests 17 true seq bitmask).

Fixpoint all_requests (l : list FeedbackRtpNackItem) : res (list Z) :=
  match l with [] => mret [] | i :: l' => r ← item_requests i; r' ← all_requests l'; mret (r ++ r') end.

(** The members of the mask, as offsets of the first sequence number. *)
Definition mask_offsets (n : nat) (bitmask : Z) : list Z := List.filter (fun k => Z.testbit bitmask k) (seqZ 0 (Z.of_nat n)).

Lemma land_1_testbit b : negb (Z.land b 1 =? 0) = Z.testbit b 0.
Proof.
  change 1 with (Z.ones 1) at 1. rewrite Z.land_ones, Z.bit0_odd by lia. change (2 ^ 1) with 2. rewrite Zmod_odd.
  by destruct (Z.odd b).
Qed.

Lemma mask_offsets_S n b : 0 <= b ->
  mask_offsets (S n) b = (if Z.testbit b 0 then [0] else []) ++ ((fun k => k + 1) <$> mask_offsets n (Z.shiftr b 1)).
Proof.
  intros Hb. unfold mask_offsets. rewrite Nat2Z.inj_succ, seqZ_cons by lia. cbn [List.filter].
  replace (Z.pred (Z.succ (Z.of_nat n))) with (Z.of_nat n) by lia.
  assert (H : forall s, 0 <= s -> List.filter (fun k => Z.testbit b k) (seqZ (Z.succ s) (Z.of_nat n)) =
    (fun k => k + 1) <$> List.filter (fun k => Z.testbit (Z.shiftr b 1) k) (seqZ s (Z.of_nat n))).
  { induction n as [|n IH]; intros s Hs; [done|]. rewrite Nat2Z.inj_succ, (seqZ_cons s), (seqZ_cons (Z.succ s)) by lia.
    cbn [List.filter]; cbv beta.
    replace (Z.pred (Z.succ (Z.of_nat n))) with (Z.of_nat n) by lia. rewrite Z.shiftr_spec by lia.
    change (Z.succ s) with (s + 1). destruct (Z.testbit b (s + 1)); [cbn; f_equal|]; rewrite <- IH by lia; done. }
  rewrite (H 0) by lia. by destruct (Z.testbit b 0).
Qed.

Lemma requests_offsets n : forall r seq b, 0 <= b -> fits 16 seq ->
  requests (S n) r seq b = (if r then [seq] else []) ++ ((fun k => u16 (seq + 1 + k)) <$> mask_offsets n b).
Proof.
  induction n as [|n IH]; intros r seq b Hb Hs; [done|].
  change (requests (S (S n)) r seq b) with
    ((if r then [seq] else []) ++ requests (S n) (negb (Z.land b 1 =? 0)) (u16 (seq + 1)) (Z.shiftr b 1)).
  f_equal. rewrite IH, land_1_testbit, mask_offsets_S by first [done|by apply Z.shiftr_nonneg|apply uwrap_fits; lia].
  rewrite fmap_app, <- list_fmap_compose. f_equal.
  - destruct (Z.testbit b 0); [cbn; by rewrite Z.add_0_r|done].
  - apply list_fmap_ext. intros i k _. cbn. unfold uwrap. rewrite <- Z.add_assoc, Zplus_mod_idemp_l. f_equal. lia.
Qed.

Lemma mask_offsets_add n b k : 0 <= b < 2 ^ k -> 0 <= k < Z.of_nat n ->
  mask_offsets n (Z.lor b (Z.shiftl 1 k)) = mask_offsets n b ++ [k].
Proof.
  intros Hb Hk. unfold mask_offsets.
  assert (Hsplit : seqZ 0 (Z.of_nat n) = seqZ 0 k ++ k :: seqZ (k + 1) (Z.of_nat n - k - 1)).
  { replace (Z.of_nat n) with (k + (Z.of_nat n - k)) at 1 by lia. rewrite seqZ_app, (seqZ_cons (0 + k)) by lia.
    by replace (Z.pred (Z.of_nat n - k)) with (Z.of_nat n - k - 1) by lia. }
  assert (Hbit : forall j, 0 <= j -> Z.testbit (Z.lor b (Z.shiftl 1 k)) j = Z.testbit b j || (j =? k)).
  { intros j Hj. rewrite Z.lor_spec, Z.shiftl_1_l, Z.pow2_bits_eqb by lia. by rewrite Z.eqb_sym. }
  assert (Hext : forall f g (l : list Z), (forall j, j ∈ l -> f j = g j) -> List.filter f l = List.filter g l).
  { intros f g l H. apply List.filter_ext_in. intros j Hj. apply H, list_elem_of_In, Hj. }
  rewrite Hsplit, !List.filter_app. cbn [List.filter]. cbv beta.
  rewrite (testbit_above b k k), Hbit, Z.eqb_refl, orb_true_r by lia.
  rewrite (Hext (fun j => Z.testbit (Z.lor b (Z.shiftl 1 k)) j) (fun j => Z.testbit b j) (seqZ 0 k)).
  2:{ intros j Hj. apply elem_of_seqZ in Hj. rewrite Hbit by lia. destruct (Z.eqb_spec j k); [lia|]. apply orb_false_r. }
  assert (Hnil : forall f (l : list Z), (forall j, j ∈ l -> f j = false) -> List.filter f l = []).
  { intros f l H. rewrite (Hext f (fun _ => false)) by done. clear H. by induction l. }
  rewrite !(Hnil _ (seqZ (k + 1) _)); [by rewrite app_nil_r|intros j Hj; apply elem_of_seqZ in Hj..].
  - apply (testbit_above b k); lia.
  - rewrite Hbit by lia. rewrite (testbit_above b k) by lia. destruct (Z.eqb_spec j k); [lia|done].
Qed.

Lemma create_count seq bitmask : fits 16 bitmask ->
  FeedbackRtpNack.CountRequestedPackets (FeedbackRtpNack.create seq bitmask) = Ok (1 + zlen (mask_offsets 16 bitmask)).
Proof.
  intros Hb. change (FeedbackRtpNack.CountRequestedPackets (FeedbackRtpNack.create seq bitmask)) with
    (Ok (Bits.CountSetBits (u8 (Z.shiftr bitmask 8) + 256 * u8 bitmask) + 1)).
  assert (H : forallb (fun a => forallb (fun b => Bits.CountSetBits (a + 256 * b) + 1 =? 1 + zlen (mask_offsets 16 (256 * a + b)))
    (seqZ 0 256)) (seqZ 0 256) = true) by (vm_compute; reflexivity).
  rewrite forallb_forall in H. assert (Ha : In (u8 (Z.shiftr bitmask 8)) (seqZ 0 256)).
  { apply list_elem_of_In, elem_of_seqZ. pose proof (u8_fits (Z.shiftr bitmask 8)). ulia. }
  specialize (H _ Ha). rewrite forallb_forall in H. f_equal.
  rewrite shiftr_u8 in * by lia. replace bitmask with (256 * ((bitmask / 2 ^ 8) mod 2 ^ 8) + u8 bitmask) at 3 by (unfold fits in Hb; ulia).
  apply Z.eqb_eq, H, list_elem_of_In, elem_of_seqZ. pose proof (u8_fits bitmask). ulia.
Qed.

Lemma create_requests seq bitmask : fits 16 seq -> fits 16 bitmask ->
  item_requests (FeedbackRtpNack.create seq bitmask) =
  Ok (seq :: ((fun k => u16 (seq + 1 + k)) <$> mask_offsets 16 bitmask)).
Proof.
  intros Hs Hb. unfold item_requests, FeedbackRtpNack.create, FeedbackRtpNack.GetPacketId, FeedbackRtpNack.GetLostPacketBitmask.
  cbn [raw]. rewrite Get2Bytes_front, (Get2Bytes_be2 _ 2 bitmask) by done. cbn [mbind res_bind].
  rewrite !uwrap_id by done. rewrite (requests_offsets 16) by (done || apply Hb). done.
Qed.

(** ** A NACK asks for what it was built from *)

(** Each sequence number is ahead of the one before it. *)
Definition ahead (a b : Z) : Prop := 0 < u16 (b - a) < 2 ^ 15.

Lemma nack_items_spec l : forall seq bitmask last,
  fits 16 seq -> fits 16 last -> 0 <= bitmask < 2 ^ u16 (last - seq) -> u16 (last - seq) <= 16 ->
  Forall (fits 16) l -> Sorted ahead (last :: l) ->
  all_requests (RtpStreamRecv.nack_items seq bitmask l) =
    Ok ((seq :: ((fun k => u16 (seq + 1 + k)) <$> mask_offsets 16 bitmask)) ++ l) /\
  RtpStreamRecv.count_requested (RtpStreamRecv.nack_items seq bitmask l) = Ok (1 + zlen (mask_offsets 16 bitmask) + zlen l).
Proof.
  induction l as [|x l IH]; intros seq bitmask last Hs Hlast Hb Ho Hl Hsort.
  all: assert (Hb16 : fits 16 bitmask) by
    (split; [lia|]; eapply Z.lt_le_trans; [apply Hb|]; apply Z.pow_le_mono_r; lia).
  - cbn [RtpStreamRecv.nack_items all_requests RtpStreamRecv.count_requested].
    rewrite create_requests, create_count by done. cbn [mbind res_bind mret res_ret]. change (zlen (@nil Z)) with 0.
    rewrite !app_nil_r. split; [done|f_equal; lia].
  - apply list.Forall_cons in Hl as [Hx Hl]. apply Sorted_inv in Hsort as [Hsort Hhd]. inversion Hhd as [|? ? Hah]; subst.
    cbn [RtpStreamRecv.nack_items]. destruct (Z.ltb_spec 15 (u16 (x - seq - 1))) as [Hgt|Hle].
    + cbn [all_requests RtpStreamRecv.count_requested]. rewrite create_requests, create_count by done.
      destruct (IH x 0 x) as [-> ->]; try done; [rewrite Z.sub_diag; by vm_compute|rewrite Z.sub_diag; by vm_compute|].
      cbn [mbind res_bind mret res_ret]. rewrite zlen_cons. split; [done|f_equal; change (zlen (mask_offsets 16 0)) with 0; lia].
    + set (k := u16 (x - seq - 1)) in *. assert (0 <= k) by (unfold k; ulia).
      assert (Hxk : u16 (x - seq) = k + 1) by (unfold k in *; unfold fits in *; ulia).
      assert (Hok : u16 (last - seq) <= k) by (unfold ahead in Hah; unfold k, fits in *; ulia).
      assert (Hbk : 0 <= bitmask < 2 ^ k).
      { split; [lia|]. eapply Z.lt_le_trans; [apply Hb|]. apply Z.pow_le_mono_r; lia. }
      destruct (IH seq (Z.lor bitmask (Z.shiftl 1 k)) x) as [-> ->]; [done|done| |lia|done|done|].
      { rewrite Hxk, lor_shiftl_add by lia. replace (k + 1) with (Z.succ k) by lia. rewrite Z.pow_succ_r by lia. lia. }
      rewrite mask_offsets_add, fmap_app by lia. cbn [fmap list_fmap].
      assert (u16 (seq + 1 + k) = x) as -> by (unfold k, fits in *; ulia).
      rewrite zlen_app, zlen_cons, zlen_cons, zlen_nil. split; [cbn; by rewrite <- app_assoc|f_equal; lia].
Qed.

(** The items of a NACK built from sequence numbers in order name these numbers, in order, and
    count them once. *)
Lemma group_requests seqNumbers :
  Forall (fits 16) seqNumbers -> Sorted ahead seqNumbers ->
  all_requests (RtpStreamRecv.group_nacks seqNumbers) = Ok seqNumbers /\
  RtpStreamRecv.count_requested (RtpStreamRecv.group_nacks seqNumbers) = Ok (zlen seqNumbers).
Proof.
  intros Hf Hs. destruct seqNumbers as [|x l]; [done|]. apply list.Forall_cons in Hf as [Hx Hl].
  destruct (nack_items_spec l x 0 x) as [H1 H2]; try done; [rewrite Z.sub_diag; by vm_compute|rewrite Z.sub_diag; by vm_compute|].
  cbn [RtpStreamRecv.group_nacks]. rewrite H1, H2. split; [done|]. rewrite zlen_cons. f_equal.
  change (zlen (mask_offsets 16 0)) with 0. lia.
Qed.

Lemma nack_items_length l : forall seq bitmask, (length (RtpStreamRecv.nack_items seq bitmask l) <= S (length l))%nat.
Proof.
  induction l as [|x l IH]; intros seq bitmask; cbn [RtpStreamRecv.nack_items length]; [lia|].
  destruct (15 <? _); cbn [length]; [specialize (IH x 0)|specialize (IH seq (Z.lor bitmask (Z.shiftl 1 (u16 (x - seq - 1)))))]; lia.
Qed.

Lemma group_length l : zlen (RtpStreamRecv.group_nacks l) <= zlen l.
Proof.
  destruct l as [|x l]; [done|]. unfold zlen. cbn [RtpStreamRecv.group_nacks length]. pose proof (nack_items_length l x 0). lia.
Qed.

Lemma raw_items_size n (l : list (raw_item n)) : FeedbackPacket.items_size l = Ok (n * zlen l).
Proof.
  induction l as [|i l IH]; [cbn; f_equal; change (zlen (@nil (raw_item n))) with 0; lia|]. cbn [FeedbackPacket.items_size]. rewrite IH.
  cbn. f_equal. rewrite zlen_cons. lia.
Qed.

(** ** What the NACK generator wants is asked for *)

Import RtpStream (event, SendNack, params, counters, useNack).
Import RtpStreamRecv (base, nackGenerator, OnNackTimer, pass_to_nack).

(** The sequence numbers that the NACKs among the events ask for. *)
Fixpoint sent_requests (ev : list event) : res (list Z) :=
  match ev with
  | [] => mret []
  | SendNack p :: ev' => l ← all_requests (FeedbackPacket.items p); l' ← sent_requests ev'; mret (l ++ l')
  | _ :: ev' => sent_requests ev'
  end.

Lemma sent_requests_app ev ev' l l' : sent_requests ev = Ok l -> sent_requests ev' = Ok l' -> sent_requests (ev ++ ev') = Ok (l ++ l').
Proof.
  revert l. induction ev as [|e ev IH]; intros l H H'; [by injection H as <-|].
  destruct e; cbn [sent_requests app] in *; try by apply IH.
  apply res_bind_ok in H as (a & -> & H). apply res_bind_ok in H as (b & Hb & H). injection H as <-.
  cbn [mbind res_bind]. rewrite (IH b Hb H'). cbn. by rewrite app_assoc.
Qed.

Lemma orderly_ahead o l :
  Forall (fun q => fits 16 q /\ offset 16 o q < NackGenerator.MaxPacketAge) l ->
  StronglySorted (fun a b => offset 16 o a < offset 16 o b) l -> Forall (fits 16) l /\ Sorted ahead l.
Proof.
  intros Hf Hs. split; [eapply List.Forall_impl; [|exact Hf]; simpl; tauto|].
  induction Hs as [|x l Hs IH Hx]; [constructor|]. apply list.Forall_cons in Hf as [[Hfx Hox] Hf]. constructor; [by apply IH|].
  destruct l as [|y l]; constructor. apply list.Forall_cons in Hf as [[Hfy Hoy] _]. apply list.Forall_cons in Hx as [Hxy _].
  unfold ahead, offset, NackGenerator.MaxPacketAge in *. pow2_consts. unfold fits in *. ulia.
Qed.

(** What the handling of requests keeps of a stream. *)
Record same_stream (s s' : RtpStreamRecv.State) : Prop := {
  same_nack : nackGenerator s' = nackGenerator s;
  same_params : params (base s') = params (base s);
}.

Lemma NackRequired_ok s l : useNack (params (base s)) = true -> NackGenerator.orderly (NackGenerator.NackRequired l) ->
  exists s', RtpStreamRecv.OnNackGeneratorNackRequired s l = Ok (s', [SendNack (RtpStreamRecv.nack_packet s l)]) /\
    same_stream s s' /\ sent_requests [SendNack (RtpStreamRecv.nack_packet s l)] = Ok l.
Proof.
  intros Hu (Hz & o & Hf & Hs). destruct (orderly_ahead o l Hf Hs) as [Hfits Hsort].
  destruct (group_requests l Hfits Hsort) as [Hr Hc]. unfold RtpStreamRecv.OnNackGeneratorNackRequired. rewrite Hu.
  cbn [ms_assert mbind res_bind RtpStreamRecv.nack_packet FeedbackPacket.items]. rewrite Hc. cbn [mbind res_bind].
  assert (FeedbackPacket.GetSize (RtpStreamRecv.nack_packet s l) =
    Ok (Packet.CommonHeaderSize + FeedbackPacket.HeaderSize + 4 * zlen (RtpStreamRecv.group_nacks l))) as ->.
  { unfold FeedbackPacket.GetSize. exact (f_equal (mbind _) (raw_items_size 4 (RtpStreamRecv.group_nacks l))). }
  cbn [mbind res_bind mret res_ret].
  pose proof (group_length l). unfold NackGenerator.MaxNackPackets in Hz.
  destruct (Z.ltb_spec RtpStreamRecv.BufferSize (Packet.CommonHeaderSize + FeedbackPacket.HeaderSize + 4 * zlen (RtpStreamRecv.group_nacks l))) as [Hgt|_].
  { unfold RtpStreamRecv.BufferSize, Packet.CommonHeaderSize, FeedbackPacket.HeaderSize in Hgt. lia. }
  eexists. split; [done|]. split; [done|]. 
  cbn [sent_requests FeedbackPacket.items]. change (FeedbackPacket.items _) with (RtpStreamRecv.group_nacks l).
  rewrite Hr. cbn. by rewrite app_nil_r.
Qed.

Lemma RequestKeyFrame_ok s : exists s' ev, RtpStreamRecv.RequestKeyFrame s = (s', ev) /\ same_stream s s' /\ sent_requests ev = Ok [].
Proof.
  unfold RtpStreamRecv.RequestKeyFrame. destruct (RtpStream.usePli _); [by eexists _, _|].
  destruct (RtpStream.useFir _); by eexists _, _.
Qed.

Lemma notified_ok ns : forall s, useNack (params (base s)) = true -> Forall NackGenerator.orderly ns ->
  exists s' ev, RtpStreamRecv.notified s ns = Ok (s', ev) /\ same_stream s s' /\
    sent_requests ev = Ok (NackGenerator.requested ns).
Proof.
  induction ns as [|n ns IH]; intros s Hu Hns; [by eexists _, _|]. apply list.Forall_cons in Hns as [Hn Hns].
  cbn [RtpStreamRecv.notified].
  assert (exists s1 e l, (match n with
    | NackGenerator.NackRequired seqNumbers => RtpStreamRecv.OnNackGeneratorNackRequired s seqNumbers
    | NackGenerator.KeyFrameRequired => mret (RtpStreamRecv.RequestKeyFrame s) end) = Ok (s1, e) /\ same_stream s s1 /\
    sent_requests e = Ok l /\ NackGenerator.requested (n :: ns) = l ++ NackGenerator.requested ns) as (s1 & e & l & -> & [H1 H2] & He & ->).
  { destruct n as [l|].
    - destruct (NackRequired_ok s l Hu Hn) as (s1 & -> & Hs & He). by eexists _, _, l.
    - destruct (RequestKeyFrame_ok s) as (s1 & e & -> & Hs & He). by eexists _, _, []. }
  cbn [mbind res_bind]. destruct (IH s1) as (s2 & e2 & -> & [H3 H4] & He2); [congruence|done|].
  eexists _, _. split; [done|]. split; [split; congruence|]. by apply sent_requests_app.
Qed.

(** C25: Whenever a stream that uses NACK passes a packet to its NACK generator, or the timer of the
    generator fires, and the generator is in a state it reaches, the stream sends NACKs, and a
    sender that goes through their items ([FillRetransmissionContainer]) looks for the
    sequence numbers the generator asked for, in order and once each. *)
Theorem lost_packets_requested s g nowMs seq isKeyFrame isRecovered :
  nackGenerator s = Some g -> NackGenerator.inv g -> useNack (params (base s)) = true -> fits 16 seq ->
  (exists found g' ns s' ev,
    NackGenerator.ReceivePacket g nowMs seq isKeyFrame isRecovered = Ok (found, g', ns) /\ NackGenerator.inv g' /\
    pass_to_nack s seq nowMs isKeyFrame isRecovered = Ok (found, s', ev) /\ nackGenerator s' = Some g' /\
    sent_requests ev = Ok (NackGenerator.requested ns)) /\
  (exists s' ev,
    OnNackTimer s nowMs = Ok (s', ev) /\ nackGenerator s' = Some (NackGenerator.OnTimer g nowMs).1 /\
    NackGenerator.inv (NackGenerator.OnTimer g nowMs).1 /\
    sent_requests ev = Ok (NackGenerator.requested (NackGenerator.OnTimer g nowMs).2)).
Proof.
  intros Hg Hi Hu Hq. unfold pass_to_nack, OnNackTimer. rewrite Hg. cbn [deref mbind res_bind]. split.
  - destruct (NackGenerator.ReceivePacket_ok g nowMs seq isKeyFrame isRecovered Hi Hq) as (found & g' & ns & E & Hi' & _).
    pose proof (NackGenerator.ReceivePacket_orderly g nowMs seq isKeyFrame isRecovered found g' ns Hi Hq E) as Ho.
    rewrite E. cbn [mbind res_bind].
    destruct (notified_ok ns (RtpStreamRecv.set_nack s (Some g')) Hu Ho) as (s' & ev & -> & [Hs _] & Hr).
    exists found, g', ns, s', ev. split_and!; [done..|exact Hs|exact Hr].
  - pose proof (NackGenerator.OnTimer_orderly g nowMs Hi) as Ho. destruct (NackGenerator.OnTimer_ok g nowMs Hi) as [Hi' _].
    destruct (NackGenerator.OnTimer g nowMs) as [g' ns]. cbn [fst snd] in *.
    destruct (notified_ok ns (RtpStreamRecv.set_nack s (Some g')) Hu Ho) as (s' & ev & -> & [Hs _] & Hr).
    exists s', ev. split_and!; [done|exact Hs|done|exact Hr].
Qed.

Definition sample_params : RtpStream.Params :=
  {| RtpStream.encodingIdx := 0; RtpStream.rid := []; RtpStream.ssrc := 1000; RtpStream.payloadType := 96; RtpStream.mimeType := Tools.VIDEO; RtpStream.mimeSubtype := Tools.VP8;
     RtpStream.clockRate := 90000; RtpStream.cname := [97]; RtpStream.rtxSsrc := 0; RtpStream.rtxPayloadType := 0;
     RtpStream.useNack := true; RtpStream.usePli := true; RtpStream.useFir := false; RtpStream.useInBandFec := false;
     RtpStream.useDtx := false; RtpStream.spatialLayers := 1; RtpStream.temporalLayers := 1 |}.

Definition sample_recv : RtpStreamRecv.State := RtpStreamRecv.make sample_params 0 5000.

Lemma lost_packets_requested_witness :
  exists g, nackGenerator sample_recv = Some g /\
  exists s' ev, pass_to_nack sample_recv 17 5000 true false = Ok (false, s', ev).
Proof.
  eexists. split; [reflexivity|].
  destruct (lost_packets_requested sample_recv (NackGenerator.init 0) 5000 17 true false) as [(f & g' & ns & s' & ev & E & _ & Ep & _) _];
    [reflexivity|apply NackGenerator.inv_init|reflexivity|vm_compute; split; discriminate || reflexivity|].
  assert (f = false) as -> by (vm_compute in E; congruence). exists s', ev. exact Ep.
Defined.

(** ** The packets a stream expects *)

(** What the tracker of sequence numbers stands for: the first and the highest number received,
    where numbers do not wrap around.  A number is plausible if it is less than [MaxDropout]
    ahead of the highest one or less than [MaxMisorder] behind it. *)
Record Span := { first : Z; last : Z }.

Definition plausible (sp : Span) (n : Z) : Prop := last sp - SeqTracker.MaxMisorder < n < last sp + SeqTracker.MaxDropout.
Definition extend (sp : Span) (n : Z) : Span := {| first := first sp; last := Z.max (last sp) n |}.

(** A stream whose first sequence number is 0 counts a cycle at its first packet. *)
Definition first_cycle (sp : Span) : Z := if u16 (first sp) =? 0 then SeqTracker.RtpSeqMod else 0.

Record tracks (s : SeqTracker.t) (sp : Span) : Prop := {
  tracks_started : SeqTracker.started s = true;
  tracks_max : SeqTracker.maxSeq s = u16 (last sp);
  tracks_base : SeqTracker.baseSeq s = u16 (first sp);
  tracks_count : u32 (SeqTracker.cycles s + SeqTracker.maxSeq s - SeqTracker.baseSeq s) = u32 (last sp - first sp + first_cycle sp);
}.

(** A packet as it is sent: its number, its timestamp and the time of its arrival. *)
Record arrival := { number : Z; rtpTs : Z; atMs : Z }.

Definition receive (s : SeqTracker.t) (a : arrival) : SeqTracker.outcome * SeqTracker.t :=
  SeqTracker.ReceiveStreamPacket s (u16 (number a)) (rtpTs a) (atMs a).

(** The clock of the newest packet does not matter to the numbers. *)
Lemma tracks_set_packet s sp ts ms : tracks s sp -> tracks (SeqTracker.set_packet s ts ms) sp.
Proof. by intros []. Qed.

Lemma UpdateSeq_plausible s sp n ts ms : tracks s sp -> plausible sp n ->
  exists s', SeqTracker.UpdateSeq s (u16 n) ts ms = (SeqTracker.Accepted, s') /\ tracks s' (extend sp n).
Proof.
  intros [Hst Hm Hb Hc] Hp. unfold plausible, SeqTracker.MaxMisorder, SeqTracker.MaxDropout in Hp.
  unfold SeqTracker.UpdateSeq, SeqTracker.MaxDropout, SeqTracker.MaxMisorder. rewrite Hm.
  assert (u16 (u16 n - u16 (last sp)) = u16 (n - last sp)) as -> by (unfold uwrap; by rewrite <- Zminus_mod).
  destruct (Z.ltb_spec (u16 (n - last sp)) 3000) as [Hd|Hd].
  - eexists. split; [done|]. assert (Z.max (last sp) n = n) as Hmax by (clear Hc; ulia).
    constructor; cbn [SeqTracker.set_maxSeq SeqTracker.started SeqTracker.maxSeq SeqTracker.baseSeq SeqTracker.cycles extend first last];
      rewrite ?Hmax; try done.
    unfold first_cycle in *. cbn [first extend]. unfold SeqTracker.RtpSeqMod in *. rewrite Hm in Hc.
    assert (Hn : u16 n = u16 (last sp) + (n - last sp) - if u16 n <? u16 (last sp) then 65536 else 0)
      by (destruct (Z.ltb_spec (u16 n) (u16 (last sp))); ulia).
    destruct (u16 n <? u16 (last sp)); rewrite Hn, Hb in *; clear -Hc;
      revert Hc; generalize (if u16 (first sp) =? 0 then 65536 else 0); clear;
      intros; ulia.
  - assert (Z.max (last sp) n = last sp) as Hmax by (clear Hc; ulia).
    assert ((u16 (n - last sp) <=? SeqTracker.RtpSeqMod - 1500) = false) as ->
      by (unfold SeqTracker.RtpSeqMod; ulia).
    eexists. split; [done|]. constructor; unfold first_cycle in *; cbn [extend first last]; rewrite ?Hmax; try done.
Qed.

(** A packet with a plausible number is accepted and extends the span. *)
Lemma receive_plausible s sp a : tracks s sp -> plausible sp (number a) ->
  exists s', receive s a = (SeqTracker.Accepted, s') /\ tracks s' (extend sp (number a)).
Proof.
  intros Ht Hp. unfold receive, SeqTracker.ReceiveStreamPacket. rewrite (tracks_started _ _ Ht).
  destruct (UpdateSeq_plausible s sp (number a) (rtpTs a) (atMs a) Ht Hp) as (s' & -> & Ht').
  eexists. split; [done|]. destruct (IsSeqHigherThan _ _ _); [by apply tracks_set_packet|done].
Qed.

(** The first packet starts the span. *)
Lemma receive_first s a : SeqTracker.started s = false -> SeqTracker.cycles s = 0 ->
  exists s', receive s a = (SeqTracker.Accepted, s') /\ tracks s' {| first := number a; last := number a |}.
Proof.
  intros Hs Hc. unfold receive, SeqTracker.ReceiveStreamPacket. rewrite Hs. unfold SeqTracker.UpdateSeq.
  cbn [SeqTracker.set_packet SeqTracker.set_started SeqTracker.InitSeq SeqTracker.maxSeq SeqTracker.cycles].
  assert (u16 (u16 (number a) - u16 (u16 (number a) - 1)) = 1) as -> by (ulia).
  change (1 <? SeqTracker.MaxDropout) with true. cbn match. eexists. split; [done|].
  match goal with |- tracks (if ?c then SeqTracker.set_packet ?x _ _ else _) ?sp =>
    assert (tracks x sp); [|destruct c; [by apply tracks_set_packet|done]] end.
  constructor; cbn; try done. unfold first_cycle. cbn [first last]. rewrite Hc. unfold SeqTracker.RtpSeqMod.
  destruct (Z.ltb_spec (u16 (number a)) (u16 (u16 (number a) - 1))); destruct (Z.eqb_spec (u16 (number a)) 0);
    ulia.
Qed.

Lemma tracks_expected s sp : tracks s sp -> SeqTracker.GetExpectedPackets s = u32 (last sp - first sp + 1 + first_cycle sp).
Proof. intros [_ _ _ Hc]. unfold SeqTracker.GetExpectedPackets. ulia. Qed.

(** All packets of a list in which each one is plausible after those before it. *)
Fixpoint receive_all (s : SeqTracker.t) (l : list arrival) : list SeqTracker.outcome * SeqTracker.t :=
  match l with
  | [] => ([], s)
  | a :: l' => let '(o, s) := receive s a in let '(os, s) := receive_all s l' in (o :: os, s)
  end.

Fixpoint plausible_all (sp : Span) (l : list arrival) : Prop :=
  match l with [] => True | a :: l' => plausible sp (number a) /\ plausible_all (extend sp (number a)) l' end.

Definition highest (n : Z) (l : list arrival) : Z := foldl Z.max n (number <$> l).

Lemma receive_all_plausible l : forall s sp, tracks s sp -> plausible_all sp l ->
  exists s', receive_all s l = (replicate (length l) SeqTracker.Accepted, s') /\
    tracks s' {| first := first sp; last := highest (last sp) l |}.
Proof.
  induction l as [|a l IH]; intros s sp Ht Hp; [exists s; split; [done|by destruct sp]|]. destruct Hp as [Ha Hl].
  destruct (receive_plausible s sp a Ht Ha) as (s1 & E1 & Ht1). destruct (IH s1 _ Ht1 Hl) as (s2 & E2 & Ht2).
  exists s2. cbn [receive_all]. rewrite E1, E2. done.
Qed.

(** C26: A stream sees sequence numbers of 16 bits, but it counts packets as if the numbers were
    unbounded: when every packet is less than [MaxDropout] ahead of the highest number so far
    or less than [MaxMisorder] behind it, in whatever order they arrive and however often the
    numbers wrap around, every packet is accepted and the stream expects the packets from the
    first number to the highest one, modulo [2 ^ 32].  A stream whose first number is 0
    expects 65536 more. *)
Theorem expected_packets a l :
  plausible_all {| first := number a; last := number a |} l ->
  exists s, receive_all SeqTracker.init (a :: l) = (replicate (S (length l)) SeqTracker.Accepted, s) /\
    SeqTracker.maxSeq s = u16 (highest (number a) l) /\
    SeqTracker.GetExpectedPackets s =
      u32 (highest (number a) l - number a + 1 + (if u16 (number a) =? 0 then SeqTracker.RtpSeqMod else 0)).
Proof.
  intros Hp. destruct (receive_first SeqTracker.init a eq_refl eq_refl) as (s1 & E1 & Ht1).
  destruct (receive_all_plausible l s1 _ Ht1 Hp) as (s2 & E2 & Ht2). exists s2. cbn [receive_all]. rewrite E1, E2.
  split; [done|]. split; [by destruct Ht2|]. by rewrite (tracks_expected _ _ Ht2).
Qed.

Definition wrap_arrivals : list arrival := (fun n => {| number := n; rtpTs := n * 90; atMs := n |}) <$> [65536; 65534; 65538; 68000; 66600].

Lemma expected_packets_witness :
  exists s, (receive_all SeqTracker.init ({| number := 65535; rtpTs := 5; atMs := 5 |} :: wrap_arrivals)).2 = s /\
    SeqTracker.GetExpectedPackets s = 2466.
Proof.
  destruct (expected_packets {| number := 65535; rtpTs := 5; atMs := 5 |} wrap_arrivals) as (s & E & _ & H);
    [vm_compute; repeat split; discriminate || reflexivity|].
  exists s. rewrite E. split; [reflexivity|]. rewrite H. reflexivity.
Defined.

(** One packet with sequence number 0, and 65537 packets are expected. *)
Example first_number_zero :
  SeqTracker.GetExpectedPackets (receive SeqTracker.init {| number := 0; rtpTs := 5; atMs := 5 |}).2 = 65537.
Proof. reflexivity. Qed.

(** ** The loss a stream reports *)

Lemma uint_of_round_div w a b : 0 < a -> 0 < b < 2 ^ 32 -> a <= 2 ^ 16 * b ->
  uint_of_round w (SFdiv 53 1024 (Time.b64_of_Z a) (Time.b64_of_Z b)) =
    if (2 * a + b) / (2 * b) <? 2 ^ w then Ok ((2 * a + b) / (2 * b)) else Fault BadConversion.
Proof.
  intros Ha Hb Hab. destruct (round_div a b Ha Hb Hab) as (x & -> & (m & e & ->) & Hr).
  unfold uint_of_round, float_to_uint. rewrite Hr.
  assert (0 <= (2 * a + b) / (2 * b)) by (apply Z.div_pos; lia). by destruct (Z.leb_spec 0 ((2 * a + b) / (2 * b))); [|lia].
Qed.

(** C27: The fraction lost of an interval in which [received] of the [expected] packets arrived
    (fewer than [2 ^ 23]) is 0 if none is missing, and otherwise the number of 256ths nearest
    to the exact fraction, half up, except when this number does not fit in the 8 bits of the
    report: the conversion is undefined exactly when at most one packet in 512 arrived, and so
    whenever none did. *)
Theorem fraction_lost_spec expected received :
  0 <= expected < 2 ^ 23 -> 0 <= received < 2 ^ 23 ->
  fraction_lost expected received =
    if expected <=? received then Ok 0
    else if 512 * received <=? expected then Fault BadConversion
    else Ok ((2 * (256 * (expected - received)) + expected) / (2 * expected)).
Proof.
  intros He Hr. unfold fraction_lost.
  change (2 ^ 23) with 8388608 in *.
  assert (i32 (expected - received) = expected - received) as -> by (unfold i32; case_cmp; ulia).
  destruct (Z.leb_spec expected received) as [Hle|Hlt].
  { assert (((expected =? 0) || (expected - received <=? 0)) = true) as -> by lia. done. }
  assert (((expected =? 0) || (expected - received <=? 0)) = false) as -> by lia.
  rewrite Z.shiftl_mul_pow2 by lia. set (lost := expected - received).
  assert (i32 (lost * 2 ^ 8) = 256 * lost) as -> by (unfold i32, lost; case_cmp; ulia).
  rewrite uint_of_round_div by (unfold lost; pow2_consts; lia).
  change (2 ^ 8) with 256.
  destruct (Z.leb_spec (512 * received) expected); destruct (Z.ltb_spec ((2 * (256 * lost) + expected) / (2 * expected)) 256) as [Hq|Hq];
    try done; unfold lost in *; exfalso.
  - revert Hq. apply Z.le_ngt, Z.div_le_lower_bound; lia.
  - revert Hq. apply Z.lt_nge, Z.div_lt_upper_bound; lia.
Qed.

Lemma fraction_lost_spec_witness : fraction_lost 1000 900 = Ok 26 /\ fraction_lost 1000 1 = Fault BadConversion.
Proof.
  split; [rewrite (fraction_lost_spec 1000 900)|rewrite (fraction_lost_spec 1000 1)]; try (split; [discriminate|reflexivity]); reflexivity.
Defined.

(** ** The score *)

(** The scores of the histogram are between 0 and 10, and there are at most 24 of them. *)
Definition scores_ok (s : RtpStream.Scores) : Prop :=
  (length (RtpStream.scores s) <= RtpStream.ScoreHistogramLength)%nat /\ Forall (fun x => 0 <= x <= 10) (RtpStream.scores s).

Lemma weighted_bounds lo hi l : Forall (fun x => lo <= x <= hi) l -> forall w s t, 0 <= w ->
  s <= (RtpStream.weighted w s t l).1 /\
  lo * ((RtpStream.weighted w s t l).1 - s) <= (RtpStream.weighted w s t l).2 - t <= hi * ((RtpStream.weighted w s t l).1 - s).
Proof.
  induction 1 as [|x l Hx _ IH]; intros w s t Hw; cbn [RtpStream.weighted fst snd]; [lia|].
  destruct (IH (w + 1) (s + (w + 1)) (t + (w + 1) * x)) as (H1 & H2 & H3); [lia|]. nia.
Qed.

(** The weights are those of a sum of consecutive integers. *)
Lemma weighted_samples l : forall w s t, 2 * (RtpStream.weighted w s t l).1 = 2 * s + zlen l * (2 * w + zlen l + 1).
Proof.
  induction l as [|x l IH]; intros w s t; cbn [RtpStream.weighted fst]; [change (zlen (@nil Z)) with 0; lia|].
  rewrite IH, zlen_cons. nia.
Qed.

Lemma push_score_length l x : (length l <= RtpStream.ScoreHistogramLength)%nat ->
  (0 < length (RtpStream.push_score l x) <= RtpStream.ScoreHistogramLength)%nat.
Proof.
  unfold RtpStream.push_score, RtpStream.ScoreHistogramLength. intros H. rewrite length_app. cbn [length].
  destruct (Nat.eqb_spec (length l) 24); rewrite ?length_drop; lia.
Qed.

Lemma push_score_Forall (P : Z -> Prop) l x : Forall P l -> P x -> Forall P (RtpStream.push_score l x).
Proof.
  intros Hl Hx. unfold RtpStream.push_score. apply Forall_app. split; [|by constructor].
  destruct (Nat.eqb _ _); [by apply Forall_drop|done].
Qed.

(** A stream's score is the average of its last 24 scores (the newest ones weigh more),
    rounded to the nearest integer: the update never fails, keeps the histogram in order, and
    gives a score that is between the lowest and the highest ones of the histogram.  The
    listener is told exactly when the score changes, with both values. *)
Theorem score_average s x nowMs lo hi :
  scores_ok s -> 0 <= lo -> hi <= 10 -> lo <= x <= hi -> Forall (fun y => lo <= y <= hi) (RtpStream.scores s) ->
  let l := RtpStream.push_score (RtpStream.scores s) x in
  let '(samples, total) := RtpStream.weighted 0 0 0 l in
  exists s' ev, RtpStream.UpdateScore s x nowMs = Ok (s', ev) /\ scores_ok s' /\ RtpStream.scores s' = l /\
    RtpStream.score s' = (2 * total + samples) / (2 * samples) /\ lo <= RtpStream.score s' <= hi /\
    ev = (if RtpStream.score s' =? RtpStream.score s then []
          else [RtpStream.Score (RtpStream.score s') (RtpStream.score s)]).
Proof.
  intros [Hlen H10] Hlo Hhi Hx Hs. cbv zeta. unfold RtpStream.UpdateScore.
  pose proof (push_score_length _ x Hlen) as Hpl. pose proof (push_score_Forall _ _ x Hs Hx) as Hpf.
  assert (Hok : Forall (fun y => 0 <= y <= 10) (RtpStream.push_score (RtpStream.scores s) x)) by (apply push_score_Forall; [done|lia]).
  set (l := RtpStream.push_score (RtpStream.scores s) x) in *.
  destruct (weighted_bounds lo hi l Hpf 0 0 0 ltac:(lia)) as (H1 & H2 & H3). pose proof (weighted_samples l 0 0 0) as H4.
  destruct (RtpStream.weighted 0 0 0 l) as [samples total]. cbn [fst snd] in *.
  assert (Hsm : 0 < samples < 2 ^ 32).
  { unfold RtpStream.ScoreHistogramLength in Hpl. assert (1 <= zlen l <= 24) by (unfold zlen; lia). pow2_consts. nia. }
  set (v := (2 * total + samples) / (2 * samples)).
  assert (Hv : lo <= v <= hi).
  { unfold v. split; [apply Z.div_le_lower_bound; nia|]. apply Z.lt_succ_r, Z.div_lt_upper_bound; nia. }
  assert (uint_of_round 8 (SFdiv 53 1024 (Time.b64_of_Z total) (Time.b64_of_Z samples)) = Ok v) as ->.
  { assert (total = 0 \/ 0 < total) as [Ht|Ht] by nia.
    - destruct samples as [|n|n]; [lia| |lia]. unfold v. rewrite Ht, Z.mul_0_r, Z.add_0_l, Z.div_small by lia.
      destruct (b64_of_pos n) as (m & e & -> & _); [pow2_consts; change (2 ^ 53) with (2 ^ 21 * 2 ^ 32); pow2_consts; lia|]. done.
    - rewrite uint_of_round_div by (pow2_consts; nia). fold v. change (2 ^ 8) with 256.
      by destruct (Z.ltb_spec v 256); [|lia]. }
  cbn [mbind res_bind mret res_ret]. eexists _, _. split; [done|]. cbn [RtpStream.score RtpStream.scores].
  split_and!; try done; try lia; [by split; [apply Hpl|]|]. by destruct (v =? RtpStream.score s).
Qed.

Definition sample_scores : RtpStream.Scores := {| RtpStream.score := 10; RtpStream.scores := [10; 8; 9]; RtpStream.activeSinceMs := 0 |}.

Lemma score_average_witness :
  exists s' ev, RtpStream.UpdateScore sample_scores 7 5000 = Ok (s', ev) /\ 7 <= RtpStream.score s' <= 10 /\ scores_ok s'.
Proof.
  pose proof (score_average sample_scores 7 5000 7 10) as H. cbn -[RtpStream.UpdateScore] in H.
  destruct H as (s' & ev & E & Hok & _ & _ & Hb & _);
    [split; [cbn; unfold RtpStream.ScoreHistogramLength; lia|repeat constructor; discriminate]|lia..|repeat constructor; discriminate|].
  exists s', ev. exact (conj E (conj Hb Hok)).
Defined.

(** An interval in which packets were expected and none was received (the highest sequence
    number was raised by RTX packets) divides by zero: whatever [std::pow] is, if it maps NaN
    to NaN, the score is converted from NaN. *)
Example score_of_nothing_received pow4 : pow4 S754_nan = S754_nan ->
  (let '(lost, repaired, retransmitted) := RtpStreamRecv.adjust true 1 0 0 1 in
   RtpStream.loss_score pow4 32 0 lost repaired retransmitted) = Fault BadConversion.
Proof.
  intros H. change (RtpStreamRecv.adjust true 1 0 0 1) with (0, 0, 1). cbv beta iota zeta. unfold RtpStream.loss_score.
  change (TrendCalculator.f64_of_f32 (SFdiv 24 128 (f32_of_Z 1) _)) with S754_nan. by rewrite H.
Qed.

(** More repaired packets than lost ones: [repaired] is reduced before it is subtracted, and so
    [retransmitted] keeps its value. *)
Example retransmitted_not_adjusted lost received repaired retransmitted :
  fits 32 retransmitted -> lost <= received -> lost < repaired ->
  RtpStreamRecv.adjust true lost received repaired retransmitted = (lost, lost, retransmitted).
Proof.
  intros Hr Hl Hlt. unfold RtpStreamRecv.adjust. destruct (Z.ltb_spec received lost); [lia|].
  destruct (Z.ltb_spec lost repaired); [|lia]. rewrite Z.sub_diag, Z.sub_0_r, uwrap_id by done. done.
Qed.

(** A round trip time of 65536 ms or more does not fit in the 16 bits that
    [FillRetransmissionContainer] gives it. *)
Example rtt_does_not_fit :
  uint_of_float 16 (RtpStream.rtt_float (66 * 65536)) = Fault BadConversion /\
  uint_of_float 16 (RtpStream.rtt_float (65 * 65536)) = Ok 65000.
Proof. by vm_compute. Qed.
