(* ===== verification/RetransmissionSpec.v ===== *)
(** * Retransmissions: a NACK is answered with the packets it asks for

    What [RtpStreamSend::ReceiveNack] does, in [worker/src/RTC/RtpStreamSend.cpp], down to the
    bytes of the packets that are sent: [FillRetransmissionContainer] finds the stored packets,
    gives them the header of the stream and, if there is an RTX stream, encodes them as RTX;
    once sent, they are restored. *)

From Stdlib Require Import SpecFloat.
From stdpp Require Import gmap.
From S2P Require Import Prelude Utils Float OrdSet SeqManager RtpRetransmissionBuffer RateCalculator.
From S2P Require Import RtcpPacket RtcpFeedback RtpPacket RtpPacketSpec RtpStream RtpStreamSend RtpStreamSpec.

Import RetransmissionBuffer (Item, item_packet, item_ssrc, sequenceNumber, timestamp, resentAtMs, sentTimes, Buffer, buffer,
  with_buffer, pkt_id, Get, GetOldest, wf, slots, items).
Import RtpStreamSend (base, rtxSeq, mid, resend, resent, recently, put_item, set_rtxSeq, retransmissionBuffer, correct_info).
Import RtpStream (HasRtx, params).

(** ** The buffer *)

(** An item with the same sequence number and timestamp. *)
Lemma Sorted_replace A it it' B : timestamp it' = timestamp it ->
  Sorted RetransmissionBuffer.ts_le (A ++ it :: B) -> Sorted RetransmissionBuffer.ts_le (A ++ it' :: B).
Proof.
  intros Ht H. apply Sorted_app_iff in H as (HA & HB & Hj). apply Sorted_app_iff. split_and!; [done| |].
  - inversion HB as [|? ? Hs Hh]; subst. constructor; [done|]. inversion Hh as [|? ? Hr]; subst; constructor.
    unfold RetransmissionBuffer.ts_le in *. by rewrite Ht.
  - intros a c Ha Hc. cbn in Hc. injection Hc as <-. specialize (Hj a it Ha eq_refl). unfold RetransmissionBuffer.ts_le in *.
    by rewrite Ht.
Qed.

Lemma slots_replace s0 l idx it it' :
  slots s0 l -> l !! idx = Some (Some it) -> sequenceNumber it' = sequenceNumber it -> timestamp it' = timestamp it ->
  slots s0 (<[idx := Some it']> l).
Proof.
  intros Hs Hi Hq Ht. pose proof (lookup_lt_Some _ _ _ Hi) as Hlt.
  assert (El : items l = items (take idx l) ++ it :: items (drop (S idx) l)).
  { rewrite <- (take_drop_middle l idx (Some it)) at 1 by done. by rewrite RetransmissionBuffer.items_app. }
  assert (El' : items (<[idx := Some it']> l) = items (take idx l) ++ it' :: items (drop (S idx) l)).
  { rewrite insert_take_drop by done. by rewrite RetransmissionBuffer.items_app. }
  pose proof (RetransmissionBuffer.slots_items _ _ Hs) as Hok. pose proof (RetransmissionBuffer.slots_ts _ _ Hs) as Hts.
  assert (Hfix : forall n, (<[idx := Some it']> l) !! n = if decide (n = idx) then Some (Some it') else l !! n).
  { intros n. case_decide as Hn; [subst n; by apply list_lookup_insert_eq|by apply list_lookup_insert_ne]. }
  assert (Hne : l <> []) by (by intros ->). split.
  - intros i x Hx. rewrite Hfix in Hx. case_decide as Hn; [|by apply (RetransmissionBuffer.slots_idx _ _ Hs)].
    injection Hx as <-. rewrite Hq, Hn. by apply (RetransmissionBuffer.slots_idx _ _ Hs).
  - rewrite El'. rewrite El, Forall_app, list.Forall_cons in Hok. rewrite Forall_app, list.Forall_cons.
    unfold RetransmissionBuffer.item_ok in *. rewrite Hq, Ht. tauto.
  - rewrite El'. rewrite El in Hts. by apply (Sorted_replace _ it).
  - intros _. destruct (RetransmissionBuffer.slots_front _ _ Hs Hne) as [o Ho]. apply RetransmissionBuffer.GetOldest_Some in Ho.
    destruct (decide (0%nat = idx)) as [E|E]; [exists it'|exists o]; apply RetransmissionBuffer.GetOldest_Some; rewrite Hfix;
      destruct (decide (0%nat = idx)); done.
  - intros _. destruct (RetransmissionBuffer.slots_back _ _ Hs Hne) as [y Hy]. apply RetransmissionBuffer.GetNewest_Some in Hy.
    rewrite last_lookup in Hy. destruct (decide (pred (length l) = idx)) as [E|E]; [exists it'|exists y];
      apply RetransmissionBuffer.GetNewest_Some; rewrite last_lookup, length_insert, Hfix;
      destruct (decide (pred (length l) = idx)); done.
Qed.

(** The item that [Get] returned is replaced, and the others are kept. *)
Lemma put_item_ok b q it it' :
  wf b -> fits 16 q -> Get b q = Ok (Some it) -> sequenceNumber it' = sequenceNumber it -> timestamp it' = timestamp it ->
  wf (put_item b q it') /\
  forall q', fits 16 q' -> Get (put_item b q it') q' = if decide (q' = q) then Ok (Some it') else Get b q'.
Proof.
  intros Hw Hq Hg Hseq Hts. destruct (RetransmissionBuffer.wf_slots _ Hw) as [s0 Hs].
  pose proof (RetransmissionBuffer.wf_max _ Hw) as Hmax. pose proof (RetransmissionBuffer.wf_size _ Hw) as Hsz.
  unfold put_item. destruct (GetOldest (buffer b)) as [o|] eqn:Eo; [|unfold Get in Hg; by rewrite Eo in Hg].
  rewrite (RetransmissionBuffer.slot_of_seq s0 o q) by (by apply (RetransmissionBuffer.slots_oldest s0 (buffer b))).
  pose proof Hg as Hl. rewrite (RetransmissionBuffer.Get_lookup b s0 o q Hs) in Hl by (done || lia).
  set (idx := Z.to_nat ((q - s0) mod 2 ^ 16)) in *.
  destruct (buffer b !! idx) as [x|] eqn:Ex; [|done]. injection Hl as ->.
  pose proof (slots_replace s0 (buffer b) idx it it' Hs Ex Hseq Hts) as Hs'. split.
  { split; [done| |by exists s0]. cbn [RetransmissionBuffer.buffer with_buffer RetransmissionBuffer.maxItems].
    unfold zlen in *. by rewrite length_insert. }
  intros q' Hq'. rewrite (RetransmissionBuffer.Get_lookup b s0 o q' Hs) by (done || lia).
  destruct (RetransmissionBuffer.slots_front _ _ Hs') as [o' Ho'].
  { intros E. apply (f_equal length) in E. rewrite length_insert in E. apply lookup_lt_Some in Ex. cbn in E. lia. }
  rewrite (RetransmissionBuffer.Get_lookup _ s0 o' q'); cbn [RetransmissionBuffer.buffer with_buffer]; [|done| |done|done].
  2: { unfold zlen in *. rewrite length_insert. lia. }
  assert (Hm : forall z, 0 <= z mod 2 ^ 16 < 2 ^ 16) by (intros; apply Z.mod_pos_bound; lia).
  case_decide as Hd.
  - subst q'. fold idx. rewrite list_lookup_insert_eq; [done|by apply lookup_lt_Some in Ex].
  - rewrite list_lookup_insert_ne; [done|]. unfold idx. intros E. apply Z2Nat.inj in E; [|apply Hm..].
    apply Hd. unfold fits in *. pow2_consts. Z.div_mod_to_equations. lia.
Qed.

(** ** The packets *)

Definition address (it : Item) : option Z := option_map pkt_id (item_packet it).

(** The packet of an item in the heap, with room for the RTX sequence number. *)
Inductive held (h : Heap) (it : Item) (v : view) : Prop :=
| Held a rest one two i : address it = Some a -> packets h !! a = Some (obj v rest one two i) -> view_ok v ->
    2 <= zlen (v_pad v ++ rest) -> held h it v.

(** The packet with the header that the item tells. *)
Definition corrected (it : Item) (v : view) : view :=
  with_ts (with_header v (v_pt v) (sequenceNumber it) (item_ssrc it)) (timestamp it).

Lemma corrected_ok it v : view_ok v -> RetransmissionBuffer.item_ok it -> fits 32 (item_ssrc it) -> view_ok (corrected it v).
Proof. intros [] [] ?. by split. Qed.

(** The items with the sequence numbers of [l] have their packets, and no two items have the
    same packet. *)
Record ready (b : Buffer) (h : Heap) (l : list Z) : Prop := {
  ready_wf : wf b;
  ready_held : forall q it, q ∈ l -> Get b q = Ok (Some it) -> fits 32 (item_ssrc it) /\ exists v, held h it v;
  ready_apart : forall q q' it it', fits 16 q -> fits 16 q' -> Get b q = Ok (Some it) -> Get b q' = Ok (Some it') ->
    address it = address it' -> q = q';
}.

Lemma held_frame h it v a p : held h it v -> address it <> Some a -> held (save h a p) it v.
Proof.
  intros [a' rest one two i Ha Hp Hv Hr] Hn. apply (Held _ _ _ a' rest one two i); try done. cbn [packets save].
  rewrite lookup_insert_ne; [done|congruence].
Qed.

Lemma Get_item_ok b q it : wf b -> fits 16 q -> Get b q = Ok (Some it) ->
  RetransmissionBuffer.item_ok it /\ sequenceNumber it = q.
Proof.
  intros Hw Hq Hg. destruct (RetransmissionBuffer.Get_spec b q Hw Hq) as (r & Er & Hr). rewrite Hg in Er. injection Er as <-.
  destruct (proj1 (Hr it) eq_refl) as [Hin Hs]. split; [|done]. destruct (RetransmissionBuffer.wf_slots _ Hw) as [s0 Hsl].
  by apply (RetransmissionBuffer.slots_item_ok s0 (buffer b)).
Qed.

(** After a packet of the heap and its item have been changed, the other packets are ready. *)
Lemma ready_step b h q l it it' a p :
  ready b h (q :: l) -> Forall (fits 16) (q :: l) -> q ∉ l -> Get b q = Ok (Some it) -> address it = Some a ->
  sequenceNumber it' = sequenceNumber it -> timestamp it' = timestamp it -> address it' = address it ->
  ready (put_item b q it') (save h a p) l.
Proof.
  intros [Hw Hh Hap] Hf Hn Hg Ha Hs Ht Haddr. apply list.Forall_cons in Hf as [Hq Hl].
  destruct (put_item_ok b q it it' Hw Hq Hg Hs Ht) as [Hw' Hg']. split; [done| |].
  - intros q' x Hin Hx. assert (fits 16 q') as Hq' by (rewrite list.Forall_forall in Hl; auto). rewrite Hg' in Hx by done.
    case_decide as Hd; [congruence|]. destruct (Hh q' x) as [? [v Hv]]; [by constructor|done|]. split; [done|]. exists v.
    apply held_frame; [done|]. intros E. apply Hd. apply (Hap q' q x it); congruence.
  - intros q1 q2 x1 x2 H1 H2. rewrite !Hg' by done. intros G1 G2 E.
    destruct (decide (q1 = q)) as [E1|E1], (decide (q2 = q)) as [E2|E2]; [congruence| | |by apply (Hap q1 q2 x1 x2)].
    + injection G1 as G1. rewrite E1. apply (Hap q q2 it x2); congruence.
    + injection G2 as G2. rewrite E2. apply (Hap q1 q x1 it); congruence.
Qed.

(** The same when the item is as it was. *)
Lemma ready_save b h q l it a p :
  ready b h (q :: l) -> Forall (fits 16) (q :: l) -> q ∉ l -> Get b q = Ok (Some it) -> address it = Some a ->
  ready b (save h a p) l.
Proof.
  intros [Hw Hh Hap] Hf Hn Hg Ha. apply list.Forall_cons in Hf as [Hq Hl]. split; [done| |done].
  intros q' x Hin Hx. assert (fits 16 q') as Hq' by (rewrite list.Forall_forall in Hl; auto).
  destruct (Hh q' x) as [? [v Hv]]; [by constructor|done|]. split; [done|]. exists v. apply held_frame; [done|].
  intros E. apply Hn. assert (q' = q) as <- by (apply (Hap q' q x it); congruence). done.
Qed.

(** ** The container *)

(** The packet that is sent for a stored one, [n] being the RTX sequence number. *)
Definition to_send (s : RtpStream.State) (n : Z) (it : Item) (v : view) : view :=
  if HasRtx s then rtx_view (corrected it v) (RtpStream.rtxPayloadType (params s)) (RtpStream.rtxSsrc (params s)) n
  else corrected it v.

(** The parameters of the stream that go into the packets. *)
Record params_ok (s : RtpStreamSend.State) : Prop := {
  ok_mid : mid s = [];
  ok_rtxSsrc : fits 32 (RtpStream.rtxSsrc (params (base s)));
}.

(** What resending keeps of a stream. *)
Definition advanced (s s' : RtpStreamSend.State) : Prop := s' = set_rtxSeq s (rtxSeq s').

Lemma correct_info_ok s h it v : mid s = [] -> held h it v ->
  exists a rest one two i, correct_info s h it = Ok (a, obj (corrected it v) rest one two i) /\ address it = Some a /\
    2 <= zlen (v_pad v ++ rest).
Proof.
  intros Hm [a rest one two i Ha Hp Hv Hr]. exists a, rest, one, two, i. split; [|done]. unfold correct_info.
  unfold address in Ha. destruct (item_packet it) as [p|]; [|done]. injection Ha as Ha. cbn [deref mbind res_bind].
  unfold load. rewrite Ha, Hp. cbn [deref mbind res_bind]. rewrite SetSsrc_obj. cbn [mbind res_bind].
  rewrite SetSequenceNumber_obj. cbn [mbind res_bind]. rewrite SetTimestamp_obj. cbn [mbind res_bind].
  by rewrite bool_decide_eq_true_2 by done.
Qed.

Lemma save_save h a p q : save (save h a p) a q = save h a q.
Proof. unfold save. cbn [packets next]. by rewrite insert_insert_eq. Qed.

(** A stored packet that was not resent recently. *)
Lemma resend_hit s b h q now rtt acc it v :
  params_ok s -> wf b -> fits 16 q -> Get b q = Ok (Some it) -> fits 32 (item_ssrc it) -> recently it now rtt = false -> held h it v ->
  zlen acc <= RtpStreamSend.MaxRequestedPackets ->
  exists s' a rest one two i,
    resend s b h q now rtt acc =
      Ok (s', put_item b q (resent it now), save h a (obj (to_send (base s) (u16 (rtxSeq s + 1)) it v) rest one two i),
          acc ++ [resent it now]) /\
    advanced s s' /\ rtxSeq s' = (if HasRtx (base s) then u16 (rtxSeq s + 1) else rtxSeq s) /\ address it = Some a /\
    (HasRtx (base s) = false -> 2 <= zlen (v_pad v ++ rest)).
Proof.
  intros [Hm Hx] Hw Hq Hg Hss Hrec Hv Hz. destruct (Get_item_ok b q it Hw Hq Hg) as [Hok _].
  destruct (correct_info_ok s h it v Hm Hv) as (a & rest & one & two & i & Ec & Ha & Hroom).
  assert (Hvc : view_ok (corrected it v)) by (destruct Hv; by apply corrected_ok).
  unfold resend. rewrite Hg. cbn [mbind res_bind]. rewrite Ec. cbn [mbind res_bind]. rewrite Hrec.
  unfold to_send. destruct (HasRtx (base s)).
  - change (rtxSeq (set_rtxSeq s (u16 (rtxSeq s + 1)))) with (u16 (rtxSeq s + 1)).
    change (base (set_rtxSeq s (u16 (rtxSeq s + 1)))) with (base s).
    rewrite RtxEncode_obj; [|done..|apply uwrap_fits; lia|done]. cbn [mbind res_bind mret res_ret]. rewrite save_save.
    destruct (Z.leb_spec (RtpStreamSend.MaxRequestedPackets + 1) (zlen acc)); [lia|].
    eexists _, a, _, one, two, i. split_and!; try done.
  - cbn [mbind res_bind mret res_ret]. destruct (Z.leb_spec (RtpStreamSend.MaxRequestedPackets + 1) (zlen acc)); [lia|].
    eexists s, a, rest, one, two, i. split_and!; try done. by destruct s.
Qed.

(** One that was. *)
Lemma resend_recent s b h q now rtt acc it v :
  mid s = [] -> Get b q = Ok (Some it) -> recently it now rtt = true -> held h it v ->
  exists a rest one two i,
    resend s b h q now rtt acc = Ok (s, b, save h a (obj (corrected it v) rest one two i), acc) /\ address it = Some a /\
    2 <= zlen (v_pad v ++ rest).
Proof.
  intros Hm Hg Hrec Hv. destruct (correct_info_ok s h it v Hm Hv) as (a & rest & one & two & i & Ec & Ha & Hroom).
  exists a, rest, one, two, i. split; [|done]. unfold resend. rewrite Hg. cbn [mbind res_bind]. rewrite Ec.
  cbn [mbind res_bind]. by rewrite Hrec.
Qed.

(** The loop over the requested sequence numbers. *)
Fixpoint resend_all (s : RtpStreamSend.State) (b : Buffer) (h : Heap) (l : list Z) (now rtt : Z) (acc : list Item)
    : res (RtpStreamSend.State * Buffer * Heap * list Item) :=
  match l with
  | [] => mret (s, b, h, acc)
  | q :: l' => '(s, b, h, acc) ← resend s b h q now rtt acc; resend_all s b h l' now rtt acc
  end.

Lemma requests_none n : forall q, requests n false q 0 = [].
Proof. induction n as [|n IH]; intros q; [done|]. cbn. apply IH. Qed.

(** [FillRetransmissionContainer]'s loop ends within the 17 steps, and is the loop over the
    requested sequence numbers. *)
Lemma fill_loop_requests n : forall s b h r q bm now rtt acc, 0 <= bm < 2 ^ Z.of_nat n ->
  RtpStreamSend.fill_loop (S n) s b h r q bm now rtt acc = resend_all s b h (requests (S n) r q bm) now rtt acc.
Proof.
  induction n as [|n IH]; intros s b h r q bm now rtt acc Hb.
  - assert (bm = 0) as -> by (change (2 ^ Z.of_nat 0) with 1 in Hb; lia). destruct r; [|done].
    cbn [RtpStreamSend.fill_loop orb negb requests app resend_all].
    destruct (resend s b h q now rtt acc) as [[[[s' b'] h'] acc']|]; done.
  - cbn [RtpStreamSend.fill_loop]. destruct (r || negb (bm =? 0)) eqn:E; cbn [negb].
    2: { apply orb_false_iff in E as [-> E]. assert (bm = 0) as -> by lia. by rewrite requests_none. }
    change (requests (S (S n)) r q bm) with
      ((if r then [q] else []) ++ requests (S n) (negb (Z.land bm 1 =? 0)) (u16 (q + 1)) (Z.shiftr bm 1)).
    assert (Hb' : 0 <= Z.shiftr bm 1 < 2 ^ Z.of_nat n).
    { rewrite Z.shiftr_div_pow2 by lia. change (2 ^ 1) with 2. rewrite Nat2Z.inj_succ, Z.pow_succ_r in Hb by lia.
      split; [apply Z.div_pos; lia|apply Z.div_lt_upper_bound; lia]. }
    destruct r; cbn [app resend_all].
    + destruct (resend s b h q now rtt acc) as [[[[s' b'] h'] acc']|]; [|done]. cbn [mbind res_bind]. by apply IH.
    + cbn [mbind res_bind mret res_ret]. by apply IH.
Qed.

(** The stored items that are resent. *)
Definition hit (b : Buffer) (now rtt q : Z) : option Item :=
  match Get b q with Ok (Some it) => if recently it now rtt then None else Some it | _ => None end.

Definition hits (b : Buffer) (now rtt : Z) (l : list Z) : list Item := omap (hit b now rtt) l.

(** The packets of the resent items are encoded in the heap [h'], with consecutive RTX
    sequence numbers after [n]. *)
Fixpoint encoded (s : RtpStream.State) (h h' : Heap) (n : Z) (l : list Item) : Prop :=
  match l with
  | [] => True
  | it :: l' =>
      (exists v a rest one two i, held h it v /\ fits 32 (item_ssrc it) /\ RetransmissionBuffer.item_ok it /\ address it = Some a /\
        packets h' !! a = Some (obj (to_send s (u16 (n + 1)) it v) rest one two i) /\
        (HasRtx s = false -> 2 <= zlen (v_pad v ++ rest))) /\
      encoded s h h' (if HasRtx s then u16 (n + 1) else n) l'
  end.

Lemma encoded_from s h h1 h' n l :
  (forall it v, it ∈ l -> held h1 it v -> held h it v) -> encoded s h1 h' n l -> encoded s h h' n l.
Proof.
  revert n. induction l as [|it l IH]; intros n Hh; [done|]. intros [(v & a & rest & one & two & i & Hv & Hr) He]. split.
  - exists v, a, rest, one, two, i. split; [apply Hh; [by constructor|done]|done].
  - apply IH; [|done]. intros x w Hx. apply Hh. by constructor.
Qed.

Lemma held_unframe h it v a p : held (save h a p) it v -> address it <> Some a -> held h it v.
Proof.
  intros [a' rest one two i Ha Hp Hv Hr] Hn. apply (Held _ _ _ a' rest one two i); try done. cbn [packets save] in Hp.
  by rewrite lookup_insert_ne in Hp by congruence.
Qed.

(** The result of the loop. *)
Record refilled (s : RtpStreamSend.State) (b : Buffer) (h : Heap) (l : list Z) (now rtt : Z)
    (s' : RtpStreamSend.State) (b' : Buffer) (h' : Heap) : Prop := {
  refilled_state : advanced s s';
  refilled_wf : wf b';
  refilled_items : forall q it', fits 16 q -> Get b' q = Ok (Some it') ->
    exists it, Get b q = Ok (Some it) /\ (it' = it \/ it' = resent it now /\ q ∈ l /\ hit b now rtt q = Some it);
  refilled_encoded : encoded (base s) h h' (rtxSeq s) (hits b now rtt l);
  refilled_frame : forall a, (forall q it, q ∈ l -> Get b q = Ok (Some it) -> address it <> Some a) ->
    packets h' !! a = packets h !! a;
  refilled_recent : forall q it, q ∈ l -> Get b q = Ok (Some it) -> recently it now rtt = true ->
    exists v, held h it v /\ held h' it (corrected it v);
  refilled_kept : forall q it, fits 16 q -> Get b q = Ok (Some it) ->
    exists it', Get b' q = Ok (Some it') /\ (it' = it \/ q ∈ l /\ it' = resent it now);
}.

Lemma refilled_nil s b h now rtt : wf b -> refilled s b h [] now rtt s b h.
Proof.
  intros Hw. split; try done.
  - by destruct s.
  - intros q it Hq Hg. exists it. auto.
  - intros q it Hin. by apply not_elem_of_nil in Hin.
  - intros q it Hq Hg. exists it. auto.
Qed.

Lemma hits_put b now rtt q it' l : wf b -> Forall (fits 16) l -> q ∉ l -> 
  (forall q', fits 16 q' -> Get (put_item b q it') q' = if decide (q' = q) then Ok (Some it') else Get b q') ->
  hits (put_item b q it') now rtt l = hits b now rtt l.
Proof.
  intros Hw Hl Hn Hg. induction l as [|x l IH]; [done|]. apply list.Forall_cons in Hl as [Hx Hl].
  apply not_elem_of_cons in Hn as [Hne Hn]. unfold hits in *. cbn [omap list_omap]. rewrite IH by done.
  unfold hit at 1 3. rewrite Hg by done. by rewrite decide_False by done.
Qed.

(** A sequence number that is not stored. *)
Lemma refilled_miss s b h q l now rtt s' b' h' : Get b q = Ok None ->
  refilled s b h l now rtt s' b' h' -> refilled s b h (q :: l) now rtt s' b' h'.
Proof.
  intros Hg [H1 H2 H3 H4 H5 H6 H7]. split; try done.
  - intros x it' Hx G. destruct (H3 x it' Hx G) as (it & E & [->|(-> & Hin & Hh)]); [eauto|]. exists it. split; [done|]. right.
    split; [done|]. split; [by constructor|done].
  - unfold hits. cbn [omap list_omap]. unfold hit at 1. by rewrite Hg.
  - intros a Ha. apply H5. intros x it Hin. apply Ha. by constructor.
  - intros x it Hin G. apply elem_of_cons in Hin as [->|Hin]; [congruence|eauto].
  - intros x it Hx G. destruct (H7 x it Hx G) as (z & Hz & Hc). exists z. rewrite elem_of_cons. tauto.
Qed.

Lemma hits_cons b now rtt q l :
  hits b now rtt (q :: l) = match hit b now rtt q with Some it => it :: hits b now rtt l | None => hits b now rtt l end.
Proof. done. Qed.

Lemma elem_of_hits b now rtt l it : it ∈ hits b now rtt l -> exists q, q ∈ l /\ Get b q = Ok (Some it) /\ recently it now rtt = false.
Proof.
  unfold hits. intros Hin. apply list_elem_of_omap in Hin as (q & Hq & Hh). exists q. unfold hit in Hh.
  destruct (Get b q) as [[x|]|]; try done. destruct (recently x now rtt) eqn:E; [done|]. by injection Hh as ->.
Qed.

Lemma ready_others b h q l it a : ready b h (q :: l) -> Forall (fits 16) (q :: l) -> q ∉ l -> Get b q = Ok (Some it) ->
  address it = Some a -> forall x it', x ∈ l -> Get b x = Ok (Some it') -> address it' <> Some a.
Proof.
  intros [_ _ Hap] Hf Hn Hg Ha x it' Hx Hx' E. apply list.Forall_cons in Hf as [Hq Hl]. apply Hn.
  assert (x = q) as <-; [|done]. apply (Hap x q it' it); try congruence. rewrite list.Forall_forall in Hl. auto.
Qed.

Lemma refilled_skip s b h q l now rtt s' b' h' it v a rest one two i :
  ready b h (q :: l) -> Forall (fits 16) (q :: l) -> q ∉ l ->
  Get b q = Ok (Some it) -> recently it now rtt = true -> held h it v -> fits 32 (item_ssrc it) -> address it = Some a ->
  2 <= zlen (v_pad v ++ rest) ->
  refilled s b (save h a (obj (corrected it v) rest one two i)) l now rtt s' b' h' -> refilled s b h (q :: l) now rtt s' b' h'.
Proof.
  intros Hr Hf Hn Hg Hrec Hv Hss Ha Hroom [H1 H2 H3 H4 H5 H6 H7]. pose proof (ready_others b h q l it a Hr Hf Hn Hg Ha) as Ho.
  split; try done.
  - intros x it' Hx G. destruct (H3 x it' Hx G) as (y & E & [->|(-> & Hin & Hh)]); [eauto|]. exists y. split; [done|]. right.
    split; [done|]. split; [by constructor|done].
  - unfold hits. cbn [omap list_omap]. unfold hit at 1. rewrite Hg, Hrec. eapply encoded_from; [|exact H4].
    intros y w Hy Hw. apply elem_of_hits in Hy as (x & Hx & Gx & _). eapply held_unframe; [exact Hw|eauto].
  - intros c Hc. rewrite H5 by (intros x y Hin; apply Hc; by constructor). cbn [packets save].
    rewrite lookup_insert_ne; [done|]. intros ->. apply (Hc q it); [by constructor|done|done].
  - intros x y Hin G Hy. apply elem_of_cons in Hin as [->|Hin].
    2: { destruct (H6 x y Hin G Hy) as (w & Hw1 & Hw2). exists w. split; [|done]. eapply held_unframe; [exact Hw1|eauto]. }
    assert (y = it) as -> by congruence. exists v. split; [done|]. apply (Held _ _ _ a rest one two i); [done| |destruct Hv; apply corrected_ok; try done|done].
    + rewrite H5 by done. cbn [packets save]. by rewrite lookup_insert_eq.
    + apply list.Forall_cons in Hf as [Hq _]. by destruct (Get_item_ok b q it (ready_wf _ _ _ Hr) Hq Hg).
  - intros x y Hx G. destruct (H7 x y Hx G) as (z & Hz & Hc). exists z. rewrite elem_of_cons. tauto.
Qed.

Lemma refilled_hit s s1 b h q l now rtt s' b' h' it v a rest one two i :
  ready b h (q :: l) -> Forall (fits 16) (q :: l) -> q ∉ l ->
  Get b q = Ok (Some it) -> recently it now rtt = false -> held h it v -> fits 32 (item_ssrc it) -> address it = Some a ->
  advanced s s1 -> rtxSeq s1 = (if HasRtx (base s) then u16 (rtxSeq s + 1) else rtxSeq s) ->
  (HasRtx (base s) = false -> 2 <= zlen (v_pad v ++ rest)) ->
  refilled s1 (put_item b q (resent it now)) (save h a (obj (to_send (base s) (u16 (rtxSeq s + 1)) it v) rest one two i)) l now rtt s' b' h' ->
  refilled s b h (q :: l) now rtt s' b' h'.
Proof.
  intros Hr Hf Hn Hg Hrec Hv Hss Ha Hadv Hnum Hroom [H1 H2 H3 H4 H5 H6 H7].
  pose proof (ready_others b h q l it a Hr Hf Hn Hg Ha) as Ho. pose proof Hf as Hfl. apply list.Forall_cons in Hfl as [Hq Hl].
  pose proof (ready_wf _ _ _ Hr) as Hw. destruct (Get_item_ok b q it Hw Hq Hg) as [Hok _].
  destruct (put_item_ok b q it (resent it now) Hw Hq Hg eq_refl eq_refl) as [Hw' Hput].
  assert (Hbase : base s1 = base s) by (rewrite Hadv; done).
  assert (Hother : forall x, x ∈ l -> Get (put_item b q (resent it now)) x = Get b x).
  { intros x Hx. rewrite Hput by (rewrite list.Forall_forall in Hl; auto). rewrite decide_False; [done|]. by intros ->. }
  assert (Hhq : hit b now rtt q = Some it) by (unfold hit; by rewrite Hg, Hrec). split; try done.
  - unfold advanced in *. rewrite H1. rewrite Hadv at 1. done.
  - intros x it' Hx G. destruct (H3 x it' Hx G) as (y & E & Hy). rewrite Hput in E by done. case_decide as Hd.
    + subst x. injection E as <-. exists it. split; [done|]. right. destruct Hy as [->|(_ & Hin & _)]; [|done].
      split; [done|]. split; [by constructor|done].
    + exists y. split; [done|]. destruct Hy as [->|(-> & Hin & Hh)]; [by left|]. right. split; [done|]. split; [by constructor|].
      unfold hit in *. by rewrite Hother in Hh.
  - unfold hits. cbn [omap list_omap]. rewrite Hhq. cbn [encoded]. split.
    + exists v, a, rest, one, two, i. split_and!; try done.
      rewrite H5 by (intros x y Hin; rewrite Hother by done; by apply Ho). cbn [packets save]. by rewrite lookup_insert_eq.
    + rewrite hits_put, Hbase, Hnum in H4 by done. eapply encoded_from; [|exact H4]. intros y w Hy Hwy.
      apply elem_of_hits in Hy as (x & Hx & Gx & _). eapply held_unframe; [exact Hwy|eauto].
  - intros c Hc. rewrite H5.
    + cbn [packets save]. rewrite lookup_insert_ne; [done|]. intros ->. apply (Hc q it); [by constructor|done|done].
    + intros x y Hin. rewrite Hother by done. apply Hc. by constructor.
  - intros x y Hin G Hy. apply elem_of_cons in Hin as [->|Hin]; [congruence|].
    destruct (H6 x y Hin) as (w & Hw1 & Hw2); [by rewrite Hother|done|]. exists w. split; [|done].
    eapply held_unframe; [exact Hw1|eauto].
  - intros x y Hx G. destruct (decide (x = q)) as [->|Hd].
    + assert (y = it) as -> by congruence. destruct (H7 q (resent it now)) as (z & Hz & [->|[Hc _]]); [done| | |done].
      * rewrite Hput by done. by rewrite decide_True.
      * exists (resent it now). split; [done|]. right. split; [by constructor|done].
    + destruct (H7 x y) as (z & Hz & Hc); [done| |exists z; rewrite elem_of_cons; tauto].
      rewrite Hput by done. by rewrite decide_False.
Qed.

Lemma resend_all_ok l : forall s b h now rtt acc,
  NoDup l -> Forall (fits 16) l -> ready b h l -> params_ok s -> zlen acc + zlen l <= RtpStreamSend.MaxRequestedPackets + 1 ->
  exists s' b' h', resend_all s b h l now rtt acc = Ok (s', b', h', acc ++ ((fun it => resent it now) <$> hits b now rtt l)) /\
    refilled s b h l now rtt s' b' h'.
Proof.
  induction l as [|q l IH]; intros s b h now rtt acc Hnd Hf Hr Hp Hz.
  { exists s, b, h. split; [cbn; by rewrite app_nil_r|]. apply refilled_nil. apply Hr. }
  apply NoDup_cons in Hnd as [Hn Hnd]. pose proof Hf as Hfl. apply list.Forall_cons in Hfl as [Hq Hl]. cbn [resend_all].
  rewrite zlen_cons in Hz. pose proof (zlen_nonneg l) as Hzl. pose proof (ready_wf _ _ _ Hr) as Hw.
  destruct (RetransmissionBuffer.Get_spec b q Hw Hq) as ([it|] & Hg & _).
  2: { unfold resend at 1. rewrite Hg. cbn [mbind res_bind mret res_ret].
       destruct (IH s b h now rtt acc) as (s' & b' & h' & E & Hre); [done|done| |done|lia|].
       - destruct Hr as [H1 H2 H3]. split; try done. intros x y Hx. apply H2. by constructor.
       - exists s', b', h'. split; [|by apply refilled_miss]. rewrite E, hits_cons. unfold hit. by rewrite Hg. }
  destruct (ready_held _ _ _ Hr q it) as (Hss & v & Hv); [by constructor|done|].
  destruct (recently it now rtt) eqn:Hrec.
  - destruct (resend_recent s b h q now rtt acc it v (ok_mid _ Hp) Hg Hrec Hv) as (a & rest & one & two & i & -> & Ha & Hroom).
    cbn [mbind res_bind]. 
    destruct (IH s b (save h a (obj (corrected it v) rest one two i)) now rtt acc) as (s' & b' & h' & E & Hre);
      [done|done|by apply (ready_save b h q l it)|done|lia|].
    exists s', b', h'. split; [|by apply (refilled_skip s b h q l now rtt s' b' h' it v a rest one two i)].
    rewrite E, hits_cons. unfold hit. by rewrite Hg, Hrec.
  - destruct (resend_hit s b h q now rtt acc it v) as (s1 & a & rest & one & two & i & -> & Hadv & Hnum & Ha & Hroom); try done; [lia|].
    cbn [mbind res_bind].
    destruct (IH s1 (put_item b q (resent it now)) (save h a (obj (to_send (base s) (u16 (rtxSeq s + 1)) it v) rest one two i))
      now rtt (acc ++ [resent it now])) as (s' & b' & h' & E & Hre);
      [done|done|by apply (ready_step b h q l it)| | |].
    { destruct Hp. by rewrite Hadv. }
    { rewrite zlen_app. change (zlen [resent it now]) with 1. lia. }
    exists s', b', h'. split; [|by apply (refilled_hit s s1 b h q l now rtt s' b' h' it v a rest one two i)].
    rewrite E. destruct (put_item_ok b q it (resent it now) Hw Hq Hg eq_refl eq_refl) as [_ Hput].
    rewrite hits_put, hits_cons by done. unfold hit. rewrite Hg, Hrec. cbn [fmap list_fmap]. by rewrite <- app_assoc.
Qed.

(** ** Sending *)

Lemma encoded_save s h h' n l a p :
  encoded s h h' n l -> Some a ∉ (address <$> l) -> encoded s h (save h' a p) n l.
Proof.
  revert n. induction l as [|it l IH]; intros n; [done|]. rewrite fmap_cons, not_elem_of_cons.
  intros [(v & c & rest & one & two & i & Hv & Hss & Hok & Hc & Hp & Hr) He] [Hne Hn]. split; [|by apply IH].
  exists v, c, rest, one, two, i. split_and!; try done. cbn [packets save]. rewrite lookup_insert_ne; [done|congruence].
Qed.

(** The events are the packets of the items, encoded with consecutive RTX sequence numbers
    after [n]. *)
Fixpoint answered (s : RtpStream.State) (h : Heap) (n : Z) (l : list Item) (ev : list RtpStream.event) : Prop :=
  match l, ev with
  | [], [] => True
  | it :: l', RtpStream.Retransmit p :: ev' =>
      (exists v, held h it v /\ RtpPacket.GetData p = encode (to_send s (u16 (n + 1)) it v)) /\
      answered s h (if HasRtx s then u16 (n + 1) else n) l' ev'
  | _, _ => False
  end.

Lemma answered_same s s' h n l ev : params s' = params s -> HasRtx s' = HasRtx s -> answered s' h n l ev -> answered s h n l ev.
Proof.
  intros Hp Hx. revert n ev. induction l as [|it l IH]; intros n [|[] ev]; try done. cbn [answered]. unfold to_send.
  rewrite Hp, Hx. intros [? H]. split; [done|by apply IH].
Qed.

Lemma encoded_same s s' h h' n l : params s' = params s -> HasRtx s' = HasRtx s -> encoded s h h' n l -> encoded s' h h' n l.
Proof.
  intros Hp Hx. revert n. induction l as [|it l IH]; intros n; [done|]. cbn [encoded]. unfold to_send.
  rewrite Hp, Hx. intros [? H]. split; [done|by apply IH].
Qed.

(** The packet that [RtxDecode] leaves of one that was encoded as RTX: with the payload type
    of the stream and no padding. *)
Definition decoded (s : RtpStream.State) (it : Item) (v : view) : view :=
  with_body (with_header (corrected it v) (RtpStream.payloadType (params s) mod 128) (sequenceNumber it) (item_ssrc it)) (v_body v) [].

(** A packet that was encoded as RTX is restored. *)
Lemma restored s it v n rest one two i :
  HasRtx s = true -> view_ok v -> fits 32 (item_ssrc it) -> RetransmissionBuffer.item_ok it ->
  fits 32 (RtpStream.rtxSsrc (params s)) -> fits 16 n ->
  exists rest', RtpPacket.RtxDecode (obj (to_send s n it v) rest one two i) (RtpStream.payloadType (params s)) (item_ssrc it) =
      Ok (true, obj (decoded s it v) rest' one two i) /\ view_ok (decoded s it v) /\ 2 <= zlen (v_pad (decoded s it v) ++ rest').
Proof.
  intros Hx Hv Hss Hok Hrs Hn. unfold to_send. rewrite Hx. pose proof (corrected_ok it v Hv Hok Hss) as Hc.
  assert (Hrv : view_ok (rtx_view (corrected it v) (RtpStream.rtxPayloadType (params s)) (RtpStream.rtxSsrc (params s)) n)).
  { destruct (with_header_ok _ (RtpStream.rtxPayloadType (params s)) n (RtpStream.rtxSsrc (params s)) Hc Hn Hrs). by split. }
  destruct (RtxDecode_obj _ rest one two i (RtpStream.payloadType (params s)) (item_ssrc it) (sequenceNumber it) (v_body v) Hrv Hss)
    as (rest' & E & Hr); [by destruct Hok|done|].
  exists rest'. split; [exact E|]. split; [|done].
  destruct (with_header_ok _ (RtpStream.payloadType (params s)) (sequenceNumber it) (item_ssrc it) Hrv (proj1 Hok) Hss). by split.
Qed.

Definition recounted (s s' : RtpStreamSend.State) : Prop :=
  s' = RtpStreamSend.set_base s (RtpStream.set_counters (base s) (RtpStream.counters (base s'))).

Lemma recounted_trans s c s' :
  recounted (RtpStreamSend.set_base s (RtpStream.set_counters (base s) c)) s' -> recounted s s'.
Proof. unfold recounted. intros H. rewrite H at 1. done. Qed.

Lemma send_items_ok now its : forall s h0 h n, encoded (base s) h0 h n its -> NoDup (address <$> its) ->
  fits 32 (RtpStream.rtxSsrc (params (base s))) ->
  exists s' h' ev, RtpStreamSend.send_items s h ((fun it => resent it now) <$> its) = Ok (s', h', ev) /\
    recounted s s' /\ answered (base s) h0 n its ev /\
    (forall a, Some a ∉ (address <$> its) -> packets h' !! a = packets h !! a) /\
    (forall it, it ∈ its -> exists v w, held h0 it v /\ held h' it w /\
      w = if HasRtx (base s) then decoded (base s) it v else corrected it v).
Proof.
  induction its as [|it its IH]; intros s h0 h n He Hnd Hrs.
  { exists s, h, []. split_and!; try done; [by destruct s as [[]]|]. intros it Hin. by apply not_elem_of_nil in Hin. }
  destruct He as [(v & a & rest & one & two & i & Hv & Hss & Hok & Ha & Hp & Hroom) He].
  rewrite fmap_cons in Hnd. apply NoDup_cons in Hnd as [Hna Hnd]. rewrite Ha in Hna.
  assert (exists p, item_packet it = Some p /\ pkt_id p = a) as (p & Hip & Hpa).
  { unfold address in Ha. destruct (item_packet it) as [p|]; [|done]. injection Ha as <-. by exists p. }
  rewrite fmap_cons. cbn [RtpStreamSend.send_items]. change (item_packet (resent it now)) with (item_packet it).
  rewrite Hip. cbn [deref mbind res_bind]. unfold load at 1. rewrite Hpa, Hp. cbn [deref mbind res_bind].
  set (s1 := RtpStreamSend.set_base s _).
  assert (H1 : params (base s1) = params (base s)) by done. assert (H2 : HasRtx (base s1) = HasRtx (base s)) by done.
  assert (exists w rest', (if HasRtx (base s1)
      then '(_, packet') ← RtpPacket.RtxDecode (obj (to_send (base s) (u16 (n + 1)) it v) rest one two i)
              (RtpStream.payloadType (params (base s1))) (item_ssrc (resent it now));
           mret (save h a packet')
      else mret h) = Ok (if HasRtx (base s1) then save h a (obj w rest' one two i) else h) /\ view_ok w /\
      2 <= zlen (v_pad w ++ rest') /\ (HasRtx (base s1) = false -> rest' = rest) /\
      w = if HasRtx (base s) then decoded (base s) it v else corrected it v) as (w & rest' & -> & Hw & Hwr & Hno & Ew).
  { rewrite H2. destruct (HasRtx (base s)) eqn:Hx.
    - destruct (restored (base s) it v (u16 (n + 1)) rest one two i Hx) as (rest' & E & Hw & Hr); try done;
        [by destruct Hv|apply uwrap_fits; lia|]. exists (decoded (base s) it v), rest'. rewrite H1. change (item_ssrc (resent it now)) with (item_ssrc it).
      by rewrite E.
    - exists (corrected it v), rest. split_and!; try done; [|by apply Hroom]. destruct Hv. by apply corrected_ok. }
  cbn [mbind res_bind]. set (h1 := if HasRtx (base s1) then _ else _).
  assert (Hlook : packets h1 !! a = Some (obj w rest' one two i) /\ forall c, c <> a -> packets h1 !! c = packets h !! c).
  { unfold h1. destruct (HasRtx (base s1)) eqn:Hx; cbn [packets save].
    - split; [by rewrite lookup_insert_eq|]. intros c Hc. by rewrite lookup_insert_ne.
    - split; [|done]. rewrite (Hno eq_refl), Hp, Ew. unfold to_send. change (HasRtx (base s)) with (HasRtx (base s1)).
      by rewrite Hx. }
  destruct Hlook as [Hl1 Hl2].
  assert (He1 : encoded (base s1) h0 h1 (if HasRtx (base s) then u16 (n + 1) else n) its).
  { apply (encoded_same (base s) (base s1)); [done|done|]. unfold h1. destruct (HasRtx (base s1)); [by apply encoded_save|done]. }
  destruct (IH s1 h0 h1 _ He1 Hnd Hrs) as (s' & h' & ev & -> & Hrc & Han & Hfr & Hhe). cbn [mbind res_bind mret res_ret].
  eexists s', h', _. split; [done|]. split; [by apply (recounted_trans s _ s' Hrc)|]. split_and!.
  - split; [|by apply (answered_same (base s) (base s1))]. exists v. split; [done|]. apply take_encode.
  - intros c Hc. rewrite fmap_cons, not_elem_of_cons in Hc. destruct Hc as [Hc1 Hc2]. rewrite Hfr by done. apply Hl2. congruence.
  - intros x Hx. apply elem_of_cons in Hx as [->|Hx]; [|by apply Hhe].
    exists v, w. split_and!; [done| |done]. apply (Held _ _ _ a rest' one two i); try done. by rewrite Hfr.
Qed.

(** ** A NACK item is answered *)

(** Every stored item has its packet, and no two have the same one. *)
Record stored_ok (b : Buffer) (h : Heap) : Prop := {
  stored_wf : wf b;
  stored_held : forall q it, fits 16 q -> Get b q = Ok (Some it) -> fits 32 (item_ssrc it) /\ exists v, held h it v;
  stored_apart : forall q q' it it', fits 16 q -> fits 16 q' -> Get b q = Ok (Some it) -> Get b q' = Ok (Some it') ->
    address it = address it' -> q = q';
}.

Lemma stored_ready b h l : stored_ok b h -> Forall (fits 16) l -> ready b h l.
Proof.
  intros [Hw Hh Ha] Hl. split; try done. intros q it Hq. apply Hh. rewrite list.Forall_forall in Hl. auto.
Qed.

Lemma requests_ok seq bitmask : fits 16 seq -> fits 16 bitmask ->
  NoDup (requests 17 true seq bitmask) /\ Forall (fits 16) (requests 17 true seq bitmask) /\ zlen (requests 17 true seq bitmask) <= 17.
Proof.
  intros Hs Hb. rewrite requests_offsets by (unfold fits in *; done || lia). cbn [app].
  assert (Hin : forall k, k ∈ mask_offsets 16 bitmask -> 0 <= k < 16).
  { intros k Hk. unfold mask_offsets in Hk. rewrite list_elem_of_In, filter_In, <- list_elem_of_In, elem_of_seqZ in Hk.
    change (Z.of_nat 16) with 16 in Hk. lia. }
  split_and!.
  - apply NoDup_cons. split.
    + intros H. apply list_elem_of_fmap in H as (k & E & Hk). apply Hin in Hk. unfold fits in *. ulia.
    + apply NoDup_fmap_2_strong.
      * intros x y Hx Hy E. apply Hin in Hx, Hy. unfold fits in *. ulia.
      * apply NoDup_ListNoDup, List.NoDup_filter, NoDup_ListNoDup, NoDup_seqZ.
  - constructor; [done|]. apply Forall_fmap, list.Forall_forall. intros k _. apply uwrap_fits. lia.
  - rewrite zlen_cons. unfold zlen. rewrite length_fmap. unfold mask_offsets.
    pose proof (List.filter_length_le (fun k => Z.testbit bitmask k) (seqZ 0 (Z.of_nat 16))) as H. rewrite length_seqZ in H. lia.
Qed.

Lemma hits_addresses b h now rtt l : stored_ok b h -> NoDup l -> Forall (fits 16) l -> NoDup (address <$> hits b now rtt l).
Proof.
  intros Hs. induction l as [|q l IH]; intros Hnd Hf; [constructor|]. apply NoDup_cons in Hnd as [Hn Hnd].
  apply list.Forall_cons in Hf as [Hq Hl]. rewrite hits_cons. destruct (hit b now rtt q) as [it|] eqn:E; [|by apply IH].
  rewrite fmap_cons. apply NoDup_cons. split; [|by apply IH]. intros Hin. apply list_elem_of_fmap in Hin as (it' & Ea & Hin).
  apply elem_of_hits in Hin as (q' & Hq' & G & _). apply Hn.
  assert (Get b q = Ok (Some it)) as Gq.
  { unfold hit in E. destruct (Get b q) as [[x|]|]; try done. destruct (recently x now rtt); [done|]. by injection E as ->. }
  rewrite (stored_apart b h Hs q q' it it'); try done. rewrite list.Forall_forall in Hl. auto.
Qed.

(** What becomes of a stored packet [v]: nothing, if no item asks for it; it is given the header
    of its item; or it is encoded as RTX and decoded again. *)
Definition restored_to (s : RtpStream.State) (it : Item) (v w : view) : Prop :=
  w = v \/ w = corrected it v \/ HasRtx s = true /\ w = decoded s it v.

(** The items of [b] are those of [b'], with the same packets. *)
Definition preserved (s : RtpStream.State) (b : Buffer) (h : Heap) (now : Z) (b' : Buffer) (h' : Heap) : Prop :=
  forall q it, fits 16 q -> Get b q = Ok (Some it) ->
    exists it' v w, Get b' q = Ok (Some it') /\ (it' = it \/ it' = resent it now) /\ held h it v /\ held h' it' w /\
      restored_to s it v w.

(** Sending leaves the same payload in every stored packet. *)
Lemma restored_to_body s it v w : restored_to s it v w ->
  v_body w = v_body v /\ v_marker w = v_marker v /\ v_csrcs w = v_csrcs v /\ v_ext w = v_ext v.
Proof. by intros [->|[->|[_ ->]]]. Qed.

Lemma held_resent h it v now : held h it v -> held h (resent it now) v.
Proof. intros [a rest one two i ? ? ? ?]. by apply (Held _ _ _ a rest one two i). Qed.

(** After the packets have been sent, all are ready again. *)
Lemma packet_kept s b h l now rtt s' b' h' h2 q it :
  stored_ok b h -> Forall (fits 16) l -> refilled s b h l now rtt s' b' h' ->
  (forall a, Some a ∉ (address <$> hits b now rtt l) -> packets h2 !! a = packets h' !! a) ->
  (forall it, it ∈ hits b now rtt l -> exists v w, held h it v /\ held h2 it w /\
     w = if HasRtx (base s) then decoded (base s) it v else corrected it v) ->
  fits 16 q -> Get b q = Ok (Some it) -> exists v w, held h it v /\ held h2 it w /\ restored_to (base s) it v w.
Proof.
  intros Hs Hf Hre Hfr Hhe Hq Gq. destruct (stored_held b h Hs q it Hq Gq) as [_ [v Hv]].
  destruct (decide (q ∈ l)) as [Hin|Hin]; [destruct (recently it now rtt) eqn:Hrec|].
  - destruct (refilled_recent _ _ _ _ _ _ _ _ _ Hre q it Hin Gq Hrec) as (v' & Hv' & [a rest one two i Ha Hp Hw Hr]).
    exists v', (corrected it v'). split_and!; [done| |right; by left]. apply (Held _ _ _ a rest one two i); try done.
    rewrite Hfr; [done|]. intros Hc. apply list_elem_of_fmap in Hc as (y & Ey & Hy). apply elem_of_hits in Hy as (x & Hx & Gx & Hy).
    assert (q = x) as -> by (apply (stored_apart b h Hs q x it y); try congruence; rewrite list.Forall_forall in Hf; auto).
    congruence.
  - destruct (Hhe it) as (v' & w & Hv' & Hw & Ew).
    { unfold hits. apply list_elem_of_omap. exists q. split; [done|]. unfold hit. by rewrite Gq, Hrec. }
    exists v', w. split_and!; [done|done|]. rewrite Ew. unfold restored_to. destruct (HasRtx (base s)); tauto.
  - exists v, v. split_and!; [done| |by left]. destruct Hv as [a rest one two i Ha Hp Hv Hr].
    assert (Hno : forall x y, x ∈ l -> Get b x = Ok (Some y) -> address y <> Some a).
    { intros x y Hx Gx Ey. apply Hin. rewrite (stored_apart b h Hs q x it y); try congruence. rewrite list.Forall_forall in Hf. auto. }
    apply (Held _ _ _ a rest one two i); try done. rewrite Hfr, (refilled_frame _ _ _ _ _ _ _ _ _ Hre); [done|done|].
    intros Hc. apply list_elem_of_fmap in Hc as (y & Ey & Hy). apply elem_of_hits in Hy as (x & Hx & Gx & _). by apply (Hno x y).
Qed.

Lemma stored_again s b h l now rtt s' b' h' h2 :
  stored_ok b h -> Forall (fits 16) l -> refilled s b h l now rtt s' b' h' ->
  (forall a, Some a ∉ (address <$> hits b now rtt l) -> packets h2 !! a = packets h' !! a) ->
  (forall it, it ∈ hits b now rtt l -> exists v w, held h it v /\ held h2 it w /\
     w = if HasRtx (base s) then decoded (base s) it v else corrected it v) ->
  stored_ok b' h2 /\ preserved (base s) b h now b' h2.
Proof.
  intros Hs Hf Hre Hfr Hhe.
  assert (Hk := fun q it => packet_kept s b h l now rtt s' b' h' h2 q it Hs Hf Hre Hfr Hhe).
  pose proof (refilled_items _ _ _ _ _ _ _ _ _ Hre) as H3. split; [split; [by apply Hre| |]|].
  - intros q it' Hq G. destruct (H3 q it' Hq G) as (it & Gq & Hcase). destruct (stored_held b h Hs q it Hq Gq) as [Hss _].
    destruct (Hk q it Hq Gq) as (v & w & _ & Hw & _).
    destruct Hcase as [->|(-> & _)]; (split; [done|]); exists w; [done|by apply held_resent].
  - intros q q' it it' Hq Hq' G G' E. destruct (H3 q it Hq G) as (x & Gx & Hx). destruct (H3 q' it' Hq' G') as (y & Gy & Hy).
    apply (stored_apart b h Hs q q' x y); try done. destruct Hx as [->|(-> & _)], Hy as [->|(-> & _)]; done.
  - intros q it Hq Gq. destruct (refilled_kept _ _ _ _ _ _ _ _ _ Hre q it Hq Gq) as (it' & G & Hc).
    destruct (Hk q it Hq Gq) as (v & w & Hv & Hw & Hr). exists it', v, w. split_and!; try done; [tauto|].
    destruct Hc as [->|[_ ->]]; [done|by apply held_resent].
Qed.

(** The RTT that [FillRetransmissionContainer] compares the time of the last resending with. *)
Definition rtt_used (s : RtpStreamSend.State) : res Z :=
  uint_of_float 16 (if SFeqb (RtpStream.rtt (base s)) (S754_zero false) then f32_of_Z RtpStreamSend.DefaultRtt
                    else RtpStream.rtt (base s)).

Lemma rtt_used_fault s f : rtt_used s = Fault f -> f = BadConversion.
Proof.
  unfold rtt_used. generalize (if SFeqb (RtpStream.rtt (base s)) (S754_zero false) then f32_of_Z RtpStreamSend.DefaultRtt
                               else RtpStream.rtt (base s)).
  intros x. unfold uint_of_float, float_to_uint. repeat case_match; congruence.
Qed.

(** C24: A NACK item is answered with the packets it asks for.  From a stream whose stored items
    all have their packets, each in a buffer with two bytes to spare, with or without an RTX
    stream but without a MID to write into the packets, [ReceiveNack]'s treatment of an item
    ends without a fault and retransmits, in order, exactly the requested packets that are
    stored and that were not resent in the last RTT: each with the payload that was stored
    under the sequence number, the SSRC and the timestamp of its item, and encoded as RTX, with
    the original sequence number in front of the payload and consecutive RTX sequence numbers,
    if there is an RTX stream.  After it every stored item is still stored, with the same
    packet: as it was, with the header of its item, or, if it was sent as RTX, decoded again,
    with the same payload, extensions and marker, the payload type of the stream and no
    padding; and the next item finds the stream in the same condition.  The only other outcome
    is that of an RTT that does not fit in 16 bits, 65536 ms or more, which the receiver
    reports of the remote peer can lead to: the conversion of such a floating point number to
    [uint16_t] is undefined, and the theorem says that it is reached. *)
Theorem nack_item_answered s h b i seq bitmask n now :
  retransmissionBuffer s = Some b -> stored_ok b h -> params_ok s ->
  FeedbackRtpNack.GetPacketId i = Ok seq -> FeedbackRtpNack.GetLostPacketBitmask i = Ok bitmask ->
  FeedbackRtpNack.CountRequestedPackets i = Ok n -> fits 16 seq -> fits 16 bitmask ->
  match rtt_used s with
  | Ok rtt =>
      exists s' h' b' ev,
        RtpStreamSend.receive_items s h [i] now = Ok (s', h', ev) /\
        answered (base s) h (rtxSeq s) (hits b now rtt (requests 17 true seq bitmask)) ev /\
        retransmissionBuffer s' = Some b' /\ stored_ok b' h' /\ params_ok s' /\ preserved (base s) b h now b' h'
  | Fault f => f = BadConversion /\ RtpStreamSend.receive_items s h [i] now = Fault BadConversion
  end.
Proof.
  intros Hb Hs Hp Hi1 Hi2 Hi3 Hq Hbm. destruct (requests_ok seq bitmask Hq Hbm) as (Hnd & Hf & Hz).
  cbn [RtpStreamSend.receive_items]. rewrite Hi3. cbn [mbind res_bind]. rewrite Hi1, Hi2. cbn [mbind res_bind].
  set (s0 := RtpStreamSend.set_base s _). unfold RtpStreamSend.FillRetransmissionContainer.
  change (retransmissionBuffer s0) with (retransmissionBuffer s). change (RtpStream.rtt (base s0)) with (RtpStream.rtt (base s)).
  rewrite Hb. fold (rtt_used s). destruct (rtt_used s) as [rtt|f] eqn:Hrtt.
  2: { apply rtt_used_fault in Hrtt as ->. done. }
  cbn [mbind res_bind]. rewrite (fill_loop_requests 16) by exact Hbm.
  destruct (resend_all_ok (requests 17 true seq bitmask) s0 b h now rtt []) as (s1 & b1 & h1 & -> & Hre);
    [done|done|by apply stored_ready|by destruct Hp
    |change (zlen (@nil Item)) with 0; unfold RtpStreamSend.MaxRequestedPackets; lia|].
  cbn [mbind res_bind mret res_ret app]. pose proof (refilled_state _ _ _ _ _ _ _ _ _ Hre) as Hadv.
  set (s1b := RtpStreamSend.set_buffer s1 (Some b1)).
  assert (Hpar : params (base s1b) = params (base s0)) by (unfold s1b; by rewrite Hadv).
  assert (Hrtx : HasRtx (base s1b) = HasRtx (base s0)) by (unfold s1b; by rewrite Hadv).
  destruct (send_items_ok now (hits b now rtt (requests 17 true seq bitmask)) s1b h h1 (rtxSeq s))
    as (s2 & h2 & ev & -> & Hrc & Han & Hfr & Hhe).
  { apply (encoded_same (base s0)); [done|done|apply (refilled_encoded _ _ _ _ _ _ _ _ _ Hre)]. }
  { by apply (hits_addresses b h). }
  { rewrite Hpar. by destruct Hp. }
  unfold decoded in Hhe. rewrite Hpar, Hrtx in Hhe.
  destruct (stored_again s0 b h (requests 17 true seq bitmask) now rtt s1 b1 h1 h2 Hs Hf Hre Hfr Hhe) as [Hs2 Hpre].
  cbn [mbind res_bind mret res_ret]. eexists s2, h2, b1, _. split; [done|]. rewrite app_nil_r. split_and!; try done.
  - by apply (answered_same (base s) (base s1b)).
  - by rewrite Hrc.
  - destruct Hp as [Hm Hr]. split; rewrite Hrc; unfold s1b; cbn [RtpStreamSend.mid RtpStreamSend.set_base RtpStreamSend.set_buffer]; by rewrite Hadv.
Qed.

(** A stream with an RTX stream and one stored packet. *)
Definition kept_view : view :=
  {| v_marker := false; v_pt := 96; v_seq := 17; v_ts := 100; v_ssrc := 7; v_csrcs := []; v_ext := None; v_body := [1; 2; 3];
     v_pad := [] |}.
Definition kept_heap : Heap :=
  {| packets := {[ 1 := obj kept_view [0; 0; 0] (replicate 14 None) ∅ RtpPacket.no_ids ]}; next := 2 |}.
Definition kept_item : Item :=
  {| item_packet := Some {| RetransmissionBuffer.pkt_id := 1; RetransmissionBuffer.pkt_ssrc := 7; RetransmissionBuffer.pkt_seq := 17;
                            RetransmissionBuffer.pkt_ts := 100 |};
     item_ssrc := 1000; sequenceNumber := 18; timestamp := 100; resentAtMs := 0; sentTimes := 0 |}.
Definition kept_buffer : Buffer :=
  {| RetransmissionBuffer.maxItems := 2500; RetransmissionBuffer.maxRetransmissionDelayMs := 2000;
     RetransmissionBuffer.clockRate := 90000; RetransmissionBuffer.buffer := [Some kept_item] |}.
Definition kept_stream : RtpStreamSend.State :=
  {| base := RtpStream.SetRtx (RtpStream.make sample_params 10 0) 97 2000; RtpStreamSend.lostPriorScore := 0;
     RtpStreamSend.sentPriorScore := 0; mid := []; rtxSeq := 65535; RtpStreamSend.transmissionCounter := RtpDataCounter.create 2500;
     retransmissionBuffer := Some kept_buffer; RtpStreamSend.lastRrTimestamp := 0; RtpStreamSend.lastRrReceivedMs := 0 |}.

Lemma kept_ok : stored_ok kept_buffer kept_heap.
Proof.
  assert (Hw : wf kept_buffer).
  { split; [by vm_compute|by vm_compute|]. exists 18. by apply (RetransmissionBuffer.slots_single kept_item). }
  assert (Hone : forall q it, fits 16 q -> Get kept_buffer q = Ok (Some it) -> it = kept_item /\ q = 18).
  { intros q it Hq G. destruct (RetransmissionBuffer.Get_spec kept_buffer q Hw Hq) as (r & E & Hr). rewrite G in E. injection E as <-.
    destruct (proj1 (Hr it) eq_refl) as [Hin Hs]. cbn in Hin. apply list_elem_of_singleton in Hin as ->. by rewrite <- Hs. }
  split; [done| |].
  - intros q it Hq G. destruct (Hone q it Hq G) as [-> _]. split; [by vm_compute|]. exists kept_view.
    apply (Held _ _ _ 1 [0; 0; 0] (replicate 14 None) ∅ RtpPacket.no_ids); [done|by apply lookup_singleton_eq| |by vm_compute].
    split; [by vm_compute|by vm_compute|by vm_compute|by vm_compute|by vm_compute|done|by split].
  - intros q q' it it' Hq Hq' G G' _. destruct (Hone q it Hq G) as [_ ->]. by destruct (Hone q' it' Hq' G') as [_ ->].
Qed.

Lemma nack_item_answered_witness :
  exists s' h' ev,
    RtpStreamSend.receive_items kept_stream kept_heap [FeedbackRtpNack.create 17 1] 5000 = Ok (s', h', ev) /\
    answered (base kept_stream) kept_heap 65535 [kept_item] ev.
Proof.
  assert (Hrtt : rtt_used kept_stream = Ok 100) by reflexivity.
  pose proof (nack_item_answered kept_stream kept_heap kept_buffer (FeedbackRtpNack.create 17 1) 17 1 2 5000) as H.
  rewrite Hrtt in H. destruct H as (s' & h' & b' & ev & E & Ha & _);
    [reflexivity|exact kept_ok|split; [reflexivity|vm_compute; split; [discriminate|reflexivity]]
    |reflexivity|reflexivity|reflexivity|vm_compute; split; [discriminate|reflexivity]|vm_compute; split; [discriminate|reflexivity]|].
  exists s', h', ev. exact (conj E Ha).
Defined.
