(* ===== verification/Consumer.v ===== *)
(** * Consumers: what the four kinds have in common

    Models [worker/src/RTC/Consumer.cpp] and [worker/include/RTC/Consumer.hpp], and the code
    that [SimpleConsumer], [SimulcastConsumer] and [SvcConsumer] repeat around their single
    [RtpStreamSend].

    A method of a consumer reads the streams of its producer, which it does not own, stores
    packets in the heap that all consumers share, and calls its listener (the transport) and
    the notifier.  It is a computation in the monad [M]: state passing over a [World] that
    holds the consumer, those streams, that heap and the trace of the calls, with the faults
    of [res].  The transport reacts to [OnConsumerNeedBitrateChange] and
    [OnConsumerNeedZeroBitrate] by calling the consumer back ([IncreaseLayer],
    [ApplyLayers]); nothing but a notification follows these calls, so the reaction is a
    later step.  The virtual methods are the fields of a class. *)

From Stdlib Require Import SpecFloat.
From stdpp Require Import gmap.
From S2P Require Import Prelude Utils Float SeqManager RateCalculator RtcpPacket RtcpReports RtcpSdes.
From S2P Require Import RtcpFeedback RtcpXr Rtcp RtpPacket Codecs RtpParameters RtpStream RtpStreamRecv RtpStreamSend.

(** ** The world of a consumer *)

Inductive trace := TraceRtp | TraceKeyFrame | TraceNack | TracePli (ssrc : Z) | TraceFir (ssrc : Z).

(** The calls to the listener and to the channel. *)
Inductive event :=
| OnConsumerSendRtpPacket (packet : RtpPacket.t)
| OnConsumerRetransmitRtpPacket (packet : RtpPacket.t)
| OnConsumerKeyFrameRequested (mappedSsrc : Z)
| OnConsumerNeedBitrateChange
| OnConsumerNeedZeroBitrate
| OnConsumerProducerClosed
| EmittedScore (score producerScore : Z) (producerScores : list Z)
| EmittedLayersChange (layers : option (Z * Z))
| EmittedProducerPause
| EmittedProducerResume
| EmittedProducerClose
| EmittedTrace (type : trace) (isRtx : bool).

(** The streams of the producer are shared by address, like its vector of scores. *)
Record World (S : Type) := mkWorld {
  self : S;
  streams : gmap Z RtpStreamRecv.State;
  producerScores : list Z;
  heap : Heap;
  events : list event;
}.
Arguments mkWorld {S}.
Arguments self {S}.
Arguments streams {S}.
Arguments producerScores {S}.
Arguments heap {S}.
Arguments events {S}.

Definition M (S A : Type) : Type := World S -> res (A * World S).

#[global] Instance M_ret S : MRet (M S) := fun A a w => Ok (a, w).
#[global] Instance M_bind S : MBind (M S) := fun A B f m w =>
  match m w with Ok (a, w') => f a w' | Fault e => Fault e end.

Definition gets {S A} (f : S -> A) : M S A := fun w => Ok (f (self w), w).
Definition set_self {S} (w : World S) (s : S) : World S := mkWorld s (streams w) (producerScores w) (heap w) (events w).
Definition modify {S} (f : S -> S) : M S unit := fun w => Ok (tt, set_self w (f (self w))).
Definition lift {S A} (r : res A) : M S A := fun w => a ← r; Ok (a, w).
Definition emit {S} (e : event) : M S unit := fun w =>
  Ok (tt, mkWorld (self w) (streams w) (producerScores w) (heap w) (events w ++ [e])).
Definition emits {S} (l : list event) : M S unit := fun w =>
  Ok (tt, mkWorld (self w) (streams w) (producerScores w) (heap w) (events w ++ l)).
Definition when {S} (b : bool) (m : M S unit) : M S unit := if b then m else mret tt.

(** A call on a stream of the producer. *)
Definition on_stream {S A} (a : Z) (f : RtpStreamRecv.State -> res (A * RtpStreamRecv.State)) : M S A := fun w =>
  s ← deref (streams w !! a);
  '(x, s) ← f s;
  Ok (x, mkWorld (self w) (<[a := s]> (streams w)) (producerScores w) (heap w) (events w)).

(** A call that only reads. *)
Definition reader {S A} (f : S -> gmap Z RtpStreamRecv.State -> res A) : M S A := fun w =>
  a ← f (self w) (streams w); Ok (a, w).

(** A call that changes the shared packets. *)
Definition on_heap {S A} (f : Heap -> res (A * Heap)) : M S A := fun w =>
  '(x, h) ← f (heap w);
  Ok (x, mkWorld (self w) (streams w) (producerScores w) h (events w)).
Definition scores_of_producer {S} : M S (list Z) := fun w => Ok (producerScores w, w).

(** *** Postconditions

    [wp m Q E w]: [m] in the world [w] returns with [Q], or faults with [E]. *)

Definition wp {S A} (m : M S A) (Q : A -> World S -> Prop) (E : fault -> Prop) (w : World S) : Prop :=
  match m w with Ok (a, w') => Q a w' | Fault e => E e end.

Section WP.

Context {S : Type}.
Implicit Types (w : World S) (E : fault -> Prop).

Lemma wp_ret {A} (a : A) Q E w : Q a w -> wp (mret a) Q E w.
Proof. done. Qed.

Lemma wp_bind {A B} (m : M S A) (f : A -> M S B) Q E w :
  wp m (fun a => wp (f a) Q E) E w -> wp (m ≫= f) Q E w.
Proof. unfold wp, mbind, M_bind. by destruct (m w) as [[a w']|e]. Qed.

Lemma wp_mono {A} (m : M S A) (Q Q' : A -> World S -> Prop) E w :
  wp m Q E w -> (forall a w', Q a w' -> Q' a w') -> wp m Q' E w.
Proof. unfold wp. destruct (m w) as [[a w']|e]; auto. Qed.

Lemma wp_both {A} (m : M S A) (Q Q' : A -> World S -> Prop) E E' w :
  wp m Q E w -> wp m Q' E' w -> wp m (fun a w' => Q a w' /\ Q' a w') E w.
Proof. unfold wp. destruct (m w) as [[a w']|e]; auto. Qed.

Lemma wp_gets {A} (f : S -> A) Q E w : Q (f (self w)) w -> wp (gets f) Q E w.
Proof. done. Qed.

Lemma wp_modify (f : S -> S) (Q : unit -> World S -> Prop) E w : Q tt (set_self w (f (self w))) -> wp (modify f) Q E w.
Proof. done. Qed.

Lemma wp_emit e (Q : unit -> World S -> Prop) E w :
  Q tt (mkWorld (self w) (streams w) (producerScores w) (heap w) (events w ++ [e])) -> wp (emit e) Q E w.
Proof. done. Qed.

Lemma wp_emits l (Q : unit -> World S -> Prop) E w :
  Q tt (mkWorld (self w) (streams w) (producerScores w) (heap w) (events w ++ l)) -> wp (emits l) Q E w.
Proof. done. Qed.

Lemma wp_lift {A} (r : res A) Q E w :
  match r with Ok a => Q a w | Fault e => E e end -> wp (lift r) Q E w.
Proof. unfold wp, lift. by destruct r. Qed.

Lemma wp_when b (m : M S unit) Q E w :
  (b = true -> wp m Q E w) -> (b = false -> Q tt w) -> wp (when b m) Q E w.
Proof. destruct b; unfold when; eauto using wp_ret. Qed.

Lemma wp_reader {A} (f : S -> gmap Z RtpStreamRecv.State -> res A) Q E w :
  match f (self w) (streams w) with Ok a => Q a w | Fault e => E e end -> wp (reader f) Q E w.
Proof. unfold wp, reader. by destruct (f _ _). Qed.

Lemma wp_on_heap {A} (f : Heap -> res (A * Heap)) Q E w :
  match f (heap w) with
  | Ok (a, h) => Q a (mkWorld (self w) (streams w) (producerScores w) h (events w))
  | Fault e => E e
  end -> wp (on_heap f) Q E w.
Proof. unfold wp, on_heap, mbind, res_bind. by destruct (f (heap w)) as [[a h]|]. Qed.

Lemma wp_on_stream {A} a (f : RtpStreamRecv.State -> res (A * RtpStreamRecv.State)) Q E w :
  match streams w !! a with
  | None => E NullDeref
  | Some r =>
      match f r with
      | Ok (x, r') => Q x (mkWorld (self w) (<[a := r']> (streams w)) (producerScores w) (heap w) (events w))
      | Fault e => E e
      end
  end -> wp (on_stream a f) Q E w.
Proof.
  unfold wp, on_stream, mbind, res_bind, deref. destruct (streams w !! a) as [r|]; [|done]. by destruct (f r) as [[x r']|].
Qed.

Lemma wp_scores Q E w : Q (producerScores w) w -> wp scores_of_producer Q E w.
Proof. done. Qed.

End WP.

(** One step of a computation. *)
Ltac wp_step :=
  first
    [ apply wp_bind
    | apply wp_ret
    | apply wp_gets
    | apply wp_modify
    | apply wp_emit
    | apply wp_emits
    | apply wp_scores ].
Ltac wp_steps := repeat (wp_step; cbv beta iota).

(** ** The consumer *)

Module Consumer.

(** [RTC::Media::Kind] *)
Inductive Kind := ALL | AUDIO | VIDEO.

#[global] Instance Kind_eq_dec : EqDecision Kind.
Proof. solve_decision. Defined.

(** [RtpHeaderExtensionIds], the ones a consumer fills; 0 is unset. *)
Record ExtensionIds := {
  ext_mid : Z;
  ext_rid : Z;
  ext_rrid : Z;
  ext_absSendTime : Z;
  ext_transportWideCc01 : Z;
  ext_ssrcAudioLevel : Z;
  ext_videoOrientation : Z;
}.

Record TraceEventTypes := { rtp : bool; keyframe : bool; nack : bool; pli : bool; fir : bool }.
Definition no_trace : TraceEventTypes := {| rtp := false; keyframe := false; nack := false; pli := false; fir := false |}.

Record Flags := { transportConnected : bool; paused : bool; producerPaused : bool; producerClosed : bool }.

(** The members of the base class. *)
Record Base := {
  kind : Kind;
  type : Tools.ParametersType;
  rtpParameters : RtpParameters.t;
  consumableRtpEncodings : list RtpParameters.Encoding;
  rtpHeaderExtensionIds : ExtensionIds;
  producerRtpStreamScores : bool;
  supportedCodecPayloadTypes : list bool;
  lastRtcpSentTime : Z;
  maxRtcpInterval : Z;
  externallyManagedBitrate : bool;
  priority : Z;
  traceEventTypes : TraceEventTypes;
  mediaSsrcs : list Z;
  rtxSsrcs : list Z;
  flags : Flags;
}.

Definition set_flags (b : Base) (v : Flags) : Base :=
  {| kind := kind b; type := type b; rtpParameters := rtpParameters b; consumableRtpEncodings := consumableRtpEncodings b;
     rtpHeaderExtensionIds := rtpHeaderExtensionIds b; producerRtpStreamScores := producerRtpStreamScores b;
     supportedCodecPayloadTypes := supportedCodecPayloadTypes b; lastRtcpSentTime := lastRtcpSentTime b;
     maxRtcpInterval := maxRtcpInterval b; externallyManagedBitrate := externallyManagedBitrate b; priority := priority b;
     traceEventTypes := traceEventTypes b; mediaSsrcs := mediaSsrcs b; rtxSsrcs := rtxSsrcs b; flags := v |}.
Definition set_rtcp (b : Base) (v : Z) : Base :=
  {| kind := kind b; type := type b; rtpParameters := rtpParameters b; consumableRtpEncodings := consumableRtpEncodings b;
     rtpHeaderExtensionIds := rtpHeaderExtensionIds b; producerRtpStreamScores := producerRtpStreamScores b;
     supportedCodecPayloadTypes := supportedCodecPayloadTypes b; lastRtcpSentTime := v;
     maxRtcpInterval := maxRtcpInterval b; externallyManagedBitrate := externallyManagedBitrate b; priority := priority b;
     traceEventTypes := traceEventTypes b; mediaSsrcs := mediaSsrcs b; rtxSsrcs := rtxSsrcs b; flags := flags b |}.
(** The settings: whether the scores are known, who manages the bitrate, the priority, the traces. *)
Definition set_settings (b : Base) (scores external : bool) (prio : Z) (t : TraceEventTypes) : Base :=
  {| kind := kind b; type := type b; rtpParameters := rtpParameters b; consumableRtpEncodings := consumableRtpEncodings b;
     rtpHeaderExtensionIds := rtpHeaderExtensionIds b; producerRtpStreamScores := scores;
     supportedCodecPayloadTypes := supportedCodecPayloadTypes b; lastRtcpSentTime := lastRtcpSentTime b;
     maxRtcpInterval := maxRtcpInterval b; externallyManagedBitrate := external; priority := prio;
     traceEventTypes := t; mediaSsrcs := mediaSsrcs b; rtxSsrcs := rtxSsrcs b; flags := flags b |}.

Definition MaxAudioIntervalMs : Z := 5000.
Definition MaxVideoIntervalMs : Z := 1000.

(** *** The constructor *)

(** The request that creates a consumer, as far as it is parsed: the preferred layers and
    [ignoreDtx] are for the derived classes. *)
Record Data := {
  data_kind : Kind;
  data_rtpParameters : RtpParameters.t;
  data_consumableRtpEncodings : list RtpParameters.Encoding;
  data_paused : bool;
  data_preferredLayers : option (option Z * option Z);
  data_ignoreDtx : bool;
}.

(** The first extension of a type, 0 if there is none. *)
Definition extension_id (ty : RtpParameters.ExtensionType) (l : list (RtpParameters.ExtensionType * Z)) : Z :=
  match List.find (fun x => bool_decide (x.1 = ty)) l with Some x => x.2 | None => 0 end.

Definition extension_ids (l : list (RtpParameters.ExtensionType * Z)) : ExtensionIds :=
  {| ext_mid := extension_id RtpParameters.MID l;
     ext_rid := extension_id RtpParameters.RTP_STREAM_ID l;
     ext_rrid := extension_id RtpParameters.REPAIRED_RTP_STREAM_ID l;
     ext_absSendTime := extension_id RtpParameters.ABS_SEND_TIME l;
     ext_transportWideCc01 := extension_id RtpParameters.TRANSPORT_WIDE_CC_01 l;
     ext_ssrcAudioLevel := extension_id RtpParameters.SSRC_AUDIO_LEVEL l;
     ext_videoOrientation := extension_id RtpParameters.VIDEO_ORIENTATION l |}.

(** The bitset of the payload types of the media codecs; a payload type that is not less than
    128 is written outside of it. *)
Fixpoint supported_types (l : list RtpParameters.Codec) (bits : list bool) : res (list bool) :=
  match l with
  | [] => mret bits
  | c :: l' =>
      if RtpParameters.IsMediaCodec (RtpParameters.subtype c) then
        let pt := RtpParameters.payloadType c in
        if (0 <=? pt) && (pt <? 128) then supported_types l' (<[Z.to_nat pt := true]> bits) else Fault OutOfBounds
      else supported_types l' bits
  end.

(** An encoding of the consumer must have its SSRCs. *)
Definition has_ssrcs (e : RtpParameters.Encoding) : bool :=
  negb (RtpParameters.ssrc e =? 0) && match RtpParameters.rtx e with Some r => negb (r =? 0) | None => true end.

Definition make (type : Tools.ParametersType) (d : Data) : res (throws Base) :=
  let p := data_rtpParameters d in
  if bool_decide (data_kind d = ALL) then mret None
  else if bool_decide (RtpParameters.encodings p = []) then mret None
  else if negb (forallb has_ssrcs (RtpParameters.encodings p)) then mret None
  else if bool_decide (data_consumableRtpEncodings d = []) then mret None
  else if negb (forallb (fun e => negb (RtpParameters.ssrc e =? 0)) (data_consumableRtpEncodings d)) then mret None
  else if existsb (fun x => x.2 =? 0) (RtpParameters.headerExtensions p) then mret None
  else
    bits ← supported_types (RtpParameters.codecs p) (replicate 128 false);
    mret (Some
      {| kind := data_kind d; type := type; rtpParameters := p; consumableRtpEncodings := data_consumableRtpEncodings d;
         rtpHeaderExtensionIds := extension_ids (RtpParameters.headerExtensions p); producerRtpStreamScores := false;
         supportedCodecPayloadTypes := bits; lastRtcpSentTime := 0;
         maxRtcpInterval := if bool_decide (data_kind d = AUDIO) then MaxAudioIntervalMs else MaxVideoIntervalMs;
         externallyManagedBitrate := false; priority := 1; traceEventTypes := no_trace;
         mediaSsrcs := RtpParameters.ssrc <$> RtpParameters.encodings p;
         rtxSsrcs := omap RtpParameters.rtx (RtpParameters.encodings p);
         flags := {| transportConnected := false; paused := data_paused d; producerPaused := false; producerClosed := false |} |}).

(** [supportedCodecPayloadTypes[payloadType]] *)
Definition supports (b : Base) (payloadType : Z) : res bool :=
  TransmissionCounter.layer_at (supportedCodecPayloadTypes b) payloadType.

(** [encodings[0]] *)
Definition encoding (b : Base) : res RtpParameters.Encoding :=
  TransmissionCounter.layer_at (RtpParameters.encodings (rtpParameters b)) 0.

(** [Consumer::IsActive] *)
Definition base_active (b : Base) : bool :=
  transportConnected (flags b) && negb (paused (flags b)) && negb (producerPaused (flags b)) && negb (producerClosed (flags b)).

(** *** The virtual methods

    [nowMs] is the clock. *)
Class Virtual (S : Type) := {
  base : S -> Base;
  set_base : S -> Base -> S;
  IsActive : M S bool;
  UserOnTransportConnected : Z -> M S unit;
  UserOnTransportDisconnected : Z -> M S unit;
  UserOnPaused : Z -> M S unit;
  UserOnResumed : Z -> M S unit;
}.

(** The virtual methods with which the transport shares the bitrate out. *)
Class Allocator (S : Type) := {
  bitrate_priority : M S Z;
  increase_layer : Z -> bool -> Z -> M S Z;
  apply_layers : Z -> M S unit;
  desired_bitrate : Z -> M S Z;
}.

Section Methods.

Context {S : Type} `{!Virtual S}.

Definition modify_flags (f : Flags -> Flags) : M S unit :=
  modify (fun s => set_base s (set_flags (base s) (f (flags (base s))))).

Definition TransportConnected (nowMs : Z) : M S unit :=
  f ← gets (fun s => flags (base s));
  when (negb (transportConnected f))
    (_ ← modify_flags (fun f => {| transportConnected := true; paused := paused f; producerPaused := producerPaused f;
                                   producerClosed := producerClosed f |});
     UserOnTransportConnected nowMs).

Definition TransportDisconnected (nowMs : Z) : M S unit :=
  f ← gets (fun s => flags (base s));
  when (transportConnected f)
    (_ ← modify_flags (fun f => {| transportConnected := false; paused := paused f; producerPaused := producerPaused f;
                                   producerClosed := producerClosed f |});
     UserOnTransportDisconnected nowMs).

Definition set_paused (v : bool) : M S unit :=
  modify_flags (fun f => {| transportConnected := transportConnected f; paused := v; producerPaused := producerPaused f;
                            producerClosed := producerClosed f |}).

Definition set_producerPaused (v : bool) : M S unit :=
  modify_flags (fun f => {| transportConnected := transportConnected f; paused := paused f; producerPaused := v;
                            producerClosed := producerClosed f |}).

Definition ProducerPaused (nowMs : Z) : M S unit :=
  f ← gets (fun s => flags (base s));
  when (negb (producerPaused f))
    (wasActive ← IsActive;
     _ ← set_producerPaused true;
     _ ← when wasActive (UserOnPaused nowMs);
     emit EmittedProducerPause).

Definition ProducerResumed (nowMs : Z) : M S unit :=
  f ← gets (fun s => flags (base s));
  when (producerPaused f)
    (_ ← set_producerPaused false;
     active ← IsActive;
     _ ← when active (UserOnResumed nowMs);
     emit EmittedProducerResume).

(** The pointer to the scores of the producer is set. *)
Definition ProducerRtpStreamScores : M S unit :=
  modify (fun s => let b := base s in
    set_base s (set_settings b true (externallyManagedBitrate b) (priority b) (traceEventTypes b))).

Definition ProducerClosed : M S unit :=
  _ ← modify_flags (fun f => {| transportConnected := transportConnected f; paused := paused f;
                                producerPaused := producerPaused f; producerClosed := true |});
  emits [EmittedProducerClose; OnConsumerProducerClosed].

Definition SetExternallyManagedBitrate : M S unit :=
  modify (fun s => let b := base s in
    set_base s (set_settings b (producerRtpStreamScores b) true (priority b) (traceEventTypes b))).

(** *** Requests *)

Inductive TraceName := NRtp | NKeyframe | NNack | NPli | NFir | NOther.

(** A request, as far as it is parsed: a number is [None] when it is missing or not a number,
    and so are a list that is not an array and an entry that is not a string. *)
Inductive Request :=
| PauseRequest
| ResumeRequest
| SetPriority (priority : option Z)
| EnableTraceEvent (types : option (list (option TraceName)))
| RequestKeyFrame
| SetPreferredLayers (spatialLayer temporalLayer : option Z)
| UnknownRequest.

Inductive Answer :=
| Accepted
| AcceptedPriority (priority : Z)
| AcceptedLayers (spatialLayer temporalLayer : Z)
| RejectedType
| RejectedUnknown.

Fixpoint trace_types (l : list (option TraceName)) (t : TraceEventTypes) : throws TraceEventTypes :=
  match l with
  | [] => Some t
  | None :: _ => None
  | Some n :: l' =>
      trace_types l'
        {| rtp := rtp t || match n with NRtp => true | _ => false end;
           keyframe := keyframe t || match n with NKeyframe => true | _ => false end;
           nack := nack t || match n with NNack => true | _ => false end;
           pli := pli t || match n with NPli => true | _ => false end;
           fir := fir t || match n with NFir => true | _ => false end |}
  end.

Definition HandleRequest (r : Request) (nowMs : Z) : M S Answer :=
  f ← gets (fun s => flags (base s));
  match r with
  | PauseRequest =>
      if paused f then mret Accepted
      else
        wasActive ← IsActive;
        _ ← set_paused true;
        _ ← when wasActive (UserOnPaused nowMs);
        mret Accepted
  | ResumeRequest =>
      if negb (paused f) then mret Accepted
      else
        _ ← set_paused false;
        active ← IsActive;
        _ ← when active (UserOnResumed nowMs);
        mret Accepted
  | SetPriority None => mret RejectedType
  | SetPriority (Some v) =>
      let v := u8 v in
      if v <? 1 then mret RejectedType
      else
        _ ← modify (fun s => let b := base s in
              set_base s (set_settings b (producerRtpStreamScores b) (externallyManagedBitrate b) v (traceEventTypes b)));
        mret (AcceptedPriority v)
  | EnableTraceEvent types =>
      match types ≫= (fun l => trace_types l no_trace) with
      | None => mret RejectedType
      | Some t =>
          _ ← modify (fun s => let b := base s in
                set_base s (set_settings b (producerRtpStreamScores b) (externallyManagedBitrate b) (priority b) t));
          mret Accepted
      end
  | _ => mret RejectedUnknown
  end.

(** *** Traces *)

Definition EmitTraceEventRtpAndKeyFrameTypes (isKeyFrame isRtx : bool) : M S unit :=
  t ← gets (fun s => traceEventTypes (base s));
  if keyframe t && isKeyFrame then emit (EmittedTrace TraceKeyFrame isRtx)
  else when (rtp t) (emit (EmittedTrace TraceRtp isRtx)).

Definition EmitTraceEventPliType (ssrc : Z) : M S unit :=
  t ← gets (fun s => traceEventTypes (base s)); when (pli t) (emit (EmittedTrace (TracePli ssrc) false)).
Definition EmitTraceEventFirType (ssrc : Z) : M S unit :=
  t ← gets (fun s => traceEventTypes (base s)); when (fir t) (emit (EmittedTrace (TraceFir ssrc) false)).
Definition EmitTraceEventNackType : M S unit :=
  t ← gets (fun s => traceEventTypes (base s)); when (nack t) (emit (EmittedTrace TraceNack false)).

End Methods.

End Consumer.

(** ** Consumers with a single sending stream

    [SimpleConsumer], [SimulcastConsumer] and [SvcConsumer] have the same code here. *)

Module Sender.

Import Consumer.

Class SingleStream (S : Type) := {
  sender_virtual :: Virtual S;
  rtpStream : S -> RtpStreamSend.State;
  set_rtpStream : S -> RtpStreamSend.State -> S;
  (** The score of the producer stream that is being forwarded, 0 if there is none. *)
  producerScore : M S Z;
}.

(** [double] to [float]. *)
Definition f32_of_f64 (x : spec_float) : spec_float :=
  match x with
  | S754_finite sg m e => binary_normalize 24 128 (if sg then Zneg m else Zpos m) e sg
  | _ => x
  end.

(** The literals 1.15 and 1.08. *)
Definition f64_1_15 : spec_float := S754_finite false 5179139571476070 (-52).
Definition f64_1_08 : spec_float := S754_finite false 4863887597560136 (-52).
Definition f64_0_5 : spec_float := S754_finite false 4503599627370496 (-53).

(** *** The stream *)

Definition has_feedback (c : RtpParameters.Codec) (f : RtpParameters.Feedback) : bool :=
  existsb (fun x => match x, f with
                    | RtpParameters.Nack, RtpParameters.Nack | RtpParameters.NackPli, RtpParameters.NackPli
                    | RtpParameters.CcmFir, RtpParameters.CcmFir => true
                    | _, _ => false
                    end) (RtpParameters.rtcpFeedback c).

(** The parameters of the stream for an encoding; the simple consumer leaves the
    numbers of layers at 1, and the pipe consumer alone sets the index [idx] of the encoding. *)
Definition stream_params (p : RtpParameters.t) (e : RtpParameters.Encoding) (c : RtpParameters.Codec) (idx : Z) (layered : bool)
    : RtpStream.Params :=
  {| RtpStream.encodingIdx := idx; RtpStream.rid := []; RtpStream.ssrc := RtpParameters.ssrc e; RtpStream.payloadType := RtpParameters.payloadType c;
     RtpStream.mimeType := RtpParameters.mimeType c;
     RtpStream.mimeSubtype := RtpParameters.tools_subtype (RtpParameters.subtype c);
     RtpStream.clockRate := RtpParameters.clockRate c; RtpStream.cname := RtpParameters.cname p; RtpStream.rtxSsrc := 0;
     RtpStream.rtxPayloadType := 0; RtpStream.useNack := has_feedback c RtpParameters.Nack;
     RtpStream.usePli := has_feedback c RtpParameters.NackPli; RtpStream.useFir := has_feedback c RtpParameters.CcmFir;
     RtpStream.useInBandFec := RtpParameters.useinbandfec c;
     RtpStream.useDtx := RtpParameters.usedtx c || RtpParameters.dtx e;
     RtpStream.spatialLayers := if layered then RtpParameters.spatialLayers e else 1;
     RtpStream.temporalLayers := if layered then RtpParameters.temporalLayers e else 1 |}.

(** [random] is the first RTX sequence number. *)
Definition create_stream (b : Base) (e : RtpParameters.Encoding) (idx : Z) (layered : bool) (nowMs random : Z)
    : res RtpStreamSend.State :=
  let p := rtpParameters b in
  c ← RtpParameters.GetCodecForEncoding p e;
  s ← RtpStreamSend.make (stream_params p e c idx layered) (RtpParameters.mid p) nowMs;
  let s := if paused (flags b) || producerPaused (flags b) then RtpStreamSend.Pause s else s in
  rtxCodec ← RtpParameters.GetRtxCodecForEncoding p e;
  mret (match rtxCodec, RtpParameters.rtx e with
        | Some c, Some ssrc => RtpStreamSend.SetRtx s (RtpParameters.payloadType c) ssrc random
        | _, _ => s
        end).

Definition CreateRtpStream (b : Base) (layered : bool) (nowMs random : Z) : res RtpStreamSend.State :=
  e ← encoding b;
  create_stream b e 0 layered nowMs random.

(** *** RTCP *)

(** Whether a report is due: [(float)((nowMs - lastRtcpSentTime) * 1.15) < maxRtcpInterval]. *)
Definition report_due (b : Base) (nowMs : Z) : bool :=
  negb (SFltb (f32_of_f64 (SFmul 53 1024 (Time.b64_of_Z (u64 (nowMs - lastRtcpSentTime b))) f64_1_15))
          (f32_of_Z (maxRtcpInterval b))).

Definition GetFractionLost (s : RtpStreamSend.State) : Z := RtpStream.fractionLost (RtpStreamSend.base s).
Definition GetScore (s : RtpStreamSend.State) : Z := RtpStream.score (RtpStream.scoring (RtpStreamSend.base s)).
Definition GetRtt_stream (s : RtpStreamSend.State) : spec_float := RtpStream.rtt (RtpStreamSend.base s).
Definition GetTemporalLayers (s : RtpStreamSend.State) : Z := RtpStream.temporalLayers (RtpStream.params (RtpStreamSend.base s)).
Definition GetSpatialLayers (s : RtpStreamSend.State) : Z := RtpStream.spatialLayers (RtpStream.params (RtpStreamSend.base s)).

(** [GetLossPercentage()] *)
Definition loss_percentage (s : RtpStreamSend.State) : spec_float :=
  SFdiv 24 128 (SFmul 24 128 (f32_of_Z (GetFractionLost s)) (f32_of_Z 100)) (f32_of_Z 256).

(** The bitrate that [IncreaseLayer] counts with when [bitrate] is given. *)
Definition virtual_bitrate (s : RtpStreamSend.State) (bitrate : Z) (considerLoss : bool) : res Z :=
  if considerLoss then
    let loss := loss_percentage s in
    if SFltb loss (f32_of_Z 2) then uint_of_float 32 (SFmul 53 1024 f64_1_08 (Time.b64_of_Z bitrate))
    else if SFltb (f32_of_Z 10) loss then
      uint_of_float 32
        (SFmul 53 1024
           (SFsub 53 1024 (Time.b64_of_Z 1)
              (SFmul 53 1024 f64_0_5 (TrendCalculator.f64_of_f32 (SFdiv 24 128 loss (f32_of_Z 100)))))
           (Time.b64_of_Z bitrate))
    else mret bitrate
  else mret bitrate.

(** What [IncreaseLayer] takes of the bitrate for a layer that requires [required]. *)
Definition taken (required virtual bitrate : Z) : Z :=
  if required <=? bitrate then required else if required <=? virtual then bitrate else required.

(** *** Layers

    [get<int16_t>()] of a number that was checked to be an integer and not negative. *)
Definition bounded_layer (v layers : Z) : Z := if layers - 1 <? i16 v then layers - 1 else i16 v.

Definition is_layer (o : option Z) : option Z := o ≫= fun v => if 0 <=? v then Some v else None.

(** The preferred layers of a request. *)
Definition preferred_layers (spatialLayers temporalLayers : Z) (spatial temporal : option Z) : throws (Z * Z) :=
  match is_layer spatial with
  | None => None
  | Some s =>
      Some (bounded_layer s spatialLayers,
            match is_layer temporal with Some t => bounded_layer t temporalLayers | None => temporalLayers - 1 end)
  end.

(** Those of a new consumer. *)
Definition initial_layers (d : Data) (e : RtpParameters.Encoding) : throws (Z * Z) :=
  match data_preferredLayers d with
  | Some (s, t) => preferred_layers (RtpParameters.spatialLayers e) (RtpParameters.temporalLayers e) s t
  | None => Some (RtpParameters.spatialLayers e - 1, RtpParameters.temporalLayers e - 1)
  end.

(** The target temporal layer for a target spatial layer. *)
Definition target_temporal (spatial preferredSpatial preferredTemporal temporalLayers : Z) : Z :=
  if spatial =? -1 then -1
  else if spatial =? preferredSpatial then preferredTemporal
  else if spatial <? preferredSpatial then temporalLayers - 1
  else 0.

(** *** What a consumer reads of a stream of its producer *)

Definition score (s : RtpStreamRecv.State) : Z := RtpStream.score (RtpStream.scoring (RtpStreamRecv.base s)).
Definition has_dtx (s : RtpStreamRecv.State) : bool := RtpStream.useDtx (RtpStream.params (RtpStreamRecv.base s)).
Definition GetActiveMs (sc : RtpStream.Scores) (nowMs : Z) : Z := u64 (nowMs - RtpStream.activeSinceMs sc).
Definition active_ms (s : RtpStreamRecv.State) (nowMs : Z) : Z := GetActiveMs (RtpStream.scoring (RtpStreamRecv.base s)) nowMs.
Definition GetSenderReportNtpMs (s : RtpStreamRecv.State) : Z := RtpStream.lastSenderReportNtpMs (RtpStreamRecv.base s).
Definition GetSenderReportTs (s : RtpStreamRecv.State) : Z := RtpStream.lastSenderReportTs (RtpStreamRecv.base s).
Definition alive (s : RtpStreamRecv.State) : bool := (0 <? score s) || has_dtx s.
Definition temporal_layers (s : RtpStreamRecv.State) : Z := RtpStream.temporalLayers (RtpStream.params (RtpStreamRecv.base s)).
Definition spatial_layers (s : RtpStreamRecv.State) : Z := RtpStream.spatialLayers (RtpStream.params (RtpStreamRecv.base s)).

(** [GetBitrate] of all layers, of those up to one, of one; of a spatial layer. *)
Definition counting (f : TransmissionCounter.t -> res (Z * TransmissionCounter.t)) (s : RtpStreamRecv.State)
    : res (Z * RtpStreamRecv.State) :=
  '(v, c) ← f (RtpStreamRecv.transmissionCounter s);
  mret (v, RtpStreamRecv.set_transmission s c (RtpStreamRecv.mediaTransmissionCounter s)).
Definition GetBitrate (nowMs : Z) := counting (fun c => TransmissionCounter.GetBitrate c nowMs).
Definition GetBitrateUpTo (nowMs sp tp : Z) := counting (fun c => TransmissionCounter.GetBitrateUpTo c nowMs sp tp).
Definition GetLayerBitrate (nowMs sp tp : Z) := counting (fun c => TransmissionCounter.GetLayerBitrate c nowMs sp tp).
Definition GetSpatialLayerBitrate (nowMs sp : Z) := counting (fun c => TransmissionCounter.GetSpatialLayerBitrate c nowMs sp).

Definition StreamMinActiveMs : Z := 2000.
Definition BweDowngradeConservativeMs : Z := 10000.
Definition BweDowngradeMinActiveMs : Z := 8000.

Section Methods.

Context {S : Type} `{!SingleStream S}.

Definition on_rtpStream {A} (f : RtpStreamSend.State -> res (A * RtpStreamSend.State)) : M S A :=
  s ← gets rtpStream;
  '(a, s) ← lift (f s);
  _ ← modify (fun x => set_rtpStream x s);
  mret a.

Definition modify_rtpStream (f : RtpStreamSend.State -> RtpStreamSend.State) : M S unit :=
  modify (fun s => set_rtpStream s (f (rtpStream s))).

(** The compound packet takes the report, the chunk and the block; they are new objects, at
    the address [addr].  Its result is false when they do not fit. *)
Definition GetRtcp (packet : CompoundPacket.t) (addr nowMs : Z) : M S (bool * CompoundPacket.t) :=
  b ← gets base;
  if negb (report_due b nowMs) then mret (true, packet)
  else
    report ← on_rtpStream (fun s => RtpStreamSend.GetRtcpSenderReport s nowMs);
    match report with
    | None => mret (true, packet)
    | Some senderReport =>
        s ← gets rtpStream;
        let chunk := RtpStreamSend.GetRtcpSdesChunk s in
        dlrr ← lift (RtpStreamSend.GetRtcpXrDelaySinceLastRr s nowMs);
        let block := option_map (fun info => {| DelaySinceLastRr.ssrcInfos := [info] |}) dlrr in
        '(ok, packet) ← lift (CompoundPacket.Add_consumer packet (Some (addr, senderReport)) (Some (addr, chunk))
                                (option_map (pair addr) block));
        if negb ok then mret (false, packet)
        else
          _ ← modify (fun s => set_base s (set_rtcp (base s) nowMs));
          mret (true, packet)
    end.

Definition NeedWorstRemoteFractionLost (worst : Z) : M S Z :=
  active ← IsActive;
  if negb active then mret worst
  else
    s ← gets rtpStream;
    mret (if worst <? GetFractionLost s then GetFractionLost s else worst).

(** [OnRtpStreamRetransmitRtpPacket]; whether the stored packets are key frames, by their
    payload descriptors, is an argument. *)
Fixpoint retransmitted (isKeyFrame : RtpPacket.t -> bool) (l : list RtpStream.event) : M S unit :=
  match l with
  | [] => mret tt
  | RtpStream.Retransmit packet :: l' =>
      _ ← emit (OnConsumerRetransmitRtpPacket packet);
      s ← gets rtpStream;
      _ ← EmitTraceEventRtpAndKeyFrameTypes (isKeyFrame packet) (RtpStream.HasRtx (RtpStreamSend.base s));
      retransmitted isKeyFrame l'
  | _ :: l' => retransmitted isKeyFrame l'
  end.

Definition ReceiveNack (isKeyFrame : RtpPacket.t -> bool) (nackPacket : FeedbackPacket.t FeedbackRtpNackItem) (nowMs : Z)
    : M S unit :=
  active ← IsActive;
  when active
    (_ ← EmitTraceEventNackType;
     s ← gets rtpStream;
     '(s, e) ← on_heap (fun h => '(s, h, e) ← RtpStreamSend.ReceiveNack s h nackPacket nowMs; mret ((s, e), h));
     _ ← modify (fun x => set_rtpStream x s);
     retransmitted isKeyFrame e).

(** [request] asks the producer for the key frame. *)
Definition ReceiveKeyFrameRequest (request : M S unit) (messageType ssrc : Z) : M S unit :=
  _ ← (if messageType =? 1 then EmitTraceEventPliType ssrc
       else when (messageType =? 4) (EmitTraceEventFirType ssrc));
  _ ← modify_rtpStream (fun s => RtpStreamSend.ReceiveKeyFrameRequest s messageType);
  active ← IsActive;
  when active request.

(** [onScore] is [OnRtpStreamScore], which a change of the score calls. *)
Definition ReceiveRtcpReceiverReport (onScore : M S unit) (pow4 : spec_float -> spec_float) (report : list Z) (nowMs : Z)
    : M S unit :=
  e ← on_rtpStream (fun s => '(s, e) ← RtpStreamSend.ReceiveRtcpReceiverReport pow4 s report nowMs; mret (e, s));
  when (existsb (fun x => match x with RtpStream.Score _ _ => true | _ => false end) e) onScore.

Definition ReceiveRtcpXrReceiverReferenceTime (report : ReceiverReferenceTime.t) (nowMs : Z) : M S unit :=
  on_rtpStream (fun s => s ← RtpStreamSend.ReceiveRtcpXrReceiverReferenceTime s report nowMs; mret (tt, s)).

Definition GetTransmissionRate (nowMs : Z) : M S Z :=
  active ← IsActive;
  if negb active then mret 0 else on_rtpStream (fun s => RtpStreamSend.GetBitrate s nowMs).

Definition GetRtt : M S spec_float := gets (fun s => GetRtt_stream (rtpStream s)).

(** [FillJsonScore] and the notification. *)
Definition EmitScore : M S unit :=
  b ← gets base;
  _ ← lift (ms_assert (producerRtpStreamScores b));
  s ← gets rtpStream;
  v ← producerScore;
  l ← scores_of_producer;
  emit (EmittedScore (GetScore s) v l).

(** *** Sending

    The packet is renumbered, handed to the stream and to the transport, and restored.
    [sent] is what to do when it was sent. *)

Definition set_header (p : RtpPacket.t) (ssrc seq : Z) : res RtpPacket.t :=
  p ← RtpPacket.SetSsrc p ssrc;
  RtpPacket.SetSequenceNumber p seq.

(** The packet that comes back, and the address of the shared packet; [junk] is the memory
    a copy of it is made in.  [rewrite] and [restore] are what else changes in the packet. *)
Definition deliver (p : RtpPacket.t) (seq : Z) (rewrite restore : RtpPacket.t -> res RtpPacket.t) (isKeyFrame : bool)
    (shared : option Z) (junk : list Z) (nowMs : Z) (sent : RtpPacket.t -> M S unit) : M S (RtpPacket.t * option Z) :=
  b ← gets base;
  e ← lift (encoding b);
  origSsrc ← lift (RtpPacket.GetSsrc p);
  origSeq ← lift (RtpPacket.GetSequenceNumber p);
  q ← lift (set_header p (RtpParameters.ssrc e) seq);
  q ← lift (rewrite q);
  s ← gets rtpStream;
  '(ok, s, shared) ← on_heap (fun h =>
     '(ok, s, h, shared) ← RtpStreamSend.ReceivePacket s h q shared junk nowMs; mret ((ok, s, shared), h));
  _ ← modify (fun x => set_rtpStream x s);
  _ ← when ok
        (_ ← sent q;
         _ ← emit (OnConsumerSendRtpPacket q);
         EmitTraceEventRtpAndKeyFrameTypes isKeyFrame false);
  q ← lift (set_header q origSsrc origSeq);
  q ← lift (restore q);
  mret (q, shared).

(** [seq] is set by [Input], which leaves it as it is when the packet was dropped before. *)
Definition initialized (o : option Z) : res Z := match o with Some v => Ok v | None => Fault Uninitialized end.

End Methods.

End Sender.
