(* ===== verification/ConsumerSpec.v ===== *)
(** * What consumers keep

    Lemmas shared by the specifications of the consumers: the parameters of a sending stream
    never change, and the computations of [Sender] change nothing of a consumer but its
    stream, its base class and the trace. *)

From Stdlib Require Import SpecFloat.
From stdpp Require Import gmap.
From S2P Require Import Prelude Utils Float SeqManager RtpRetransmissionBuffer RateCalculator RtcpPacket RtcpReports.
From S2P Require Import RtcpSdes RtcpFeedback RtcpXr Rtcp RtpPacket Codecs RtpParameters RtpStream RtpStreamRecv RtpStreamSend Consumer.

(** Decomposes a hypothesis that a [res] computation returned. *)
Ltac res_inv H :=
  repeat match type of H with
  | context [match ?x with _ => _ end] => let E := fresh "E" in destruct x eqn:E; try discriminate H
  end.

Lemma bind_Ok {A B} (m : res A) (f : A -> res B) b : m ≫= f = Ok b -> exists a, m = Ok a /\ f a = Ok b.
Proof. destruct m as [a|e]; [|discriminate]. by exists a. Qed.

(** One step into a computation that returned. *)
Ltac ok_step H :=
  let a := fresh "v" in let E := fresh "E" in
  apply bind_Ok in H as (a & E & H); cbv beta in H.
Ltac ok_steps H := repeat (ok_step H; repeat match type of H with context [let '(_, _) := ?x in _] => destruct x end).

(** ** The parameters of a sending stream *)

Module SendStream.

Import RtpStreamSend.

Abbreviation stream_params s := (RtpStream.params (base s)).

Lemma StorePacket_params s b h p ssrc seq ts sh junk r :
  StorePacket s b h p ssrc seq ts sh junk = Ok r -> stream_params r.1.1 = stream_params s.
Proof.
  unfold StorePacket. intros H. case_match; [by injection H as <-|]. ok_steps H.
  repeat case_match; try ok_steps H; by injection H as <-.
Qed.

Lemma ReceivePacket_params s h p sh junk nowMs r :
  ReceivePacket s h p sh junk nowMs = Ok r -> stream_params r.1.1.2 = stream_params s.
Proof.
  unfold ReceivePacket. intros H. do 4 ok_step H.
  destruct (SeqTracker.ReceiveStreamPacket _ _ _ _) as [o tr].
  assert (Hstore : forall s1 v, RtpStream.params (base s1) = stream_params s ->
    match retransmissionBuffer s1 with Some b => StorePacket s1 b h p v v1 v2 sh junk | None => mret (s1, h, sh) end ≫= (fun '(s, h, shared) =>
      c ← RtpDataCounter.Update (transmissionCounter s) (RtpPacket.GetSize p) nowMs; mret (true, set_transmission s c, h, shared)) = Ok r ->
    stream_params r.1.1.2 = stream_params s).
  { intros s1 v3 Hs Hr. ok_step Hr. destruct v4 as [[s2 h2] sh2]. ok_step Hr. injection Hr as <-. cbn.
    rewrite <- Hs. destruct (retransmissionBuffer s1); [exact (StorePacket_params _ _ _ _ _ _ _ _ _ _ E3)|by injection E3 as <- <- <-]. }
  destruct o; [by eapply Hstore; [|exact H]..|by injection H as <-].
Qed.

Lemma resend_params s b h seq nowMs rtt items r :
  resend s b h seq nowMs rtt items = Ok r -> stream_params r.1.1.1 = stream_params s.
Proof.
  unfold resend. intros H. ok_step H. destruct v as [it|]; [|by injection H as <-].
  ok_step H. destruct v as [a packet]. case_match; [by injection H as <-|]. ok_step H. destruct v as [s1 h1].
  assert (stream_params s1 = stream_params s).
  { destruct (RtpStream.HasRtx (base s)); [ok_step E1; by injection E1 as <- _|by injection E1 as <- _]. }
  case_match; [done|]. by injection H as <-.
Qed.

Lemma fill_loop_params fuel : forall s b h req seq mask nowMs rtt items r,
  fill_loop fuel s b h req seq mask nowMs rtt items = Ok r -> stream_params r.1.1.1 = stream_params s.
Proof.
  induction fuel as [|fuel IH]; intros s b h req seq mask nowMs rtt items r H; cbn [fill_loop] in H;
    (case_match; [by injection H as <-|]); [done|].
  ok_step H. destruct v as [[[s1 b1] h1] it1]. rewrite (IH _ _ _ _ _ _ _ _ _ _ H).
  destruct req; [exact (resend_params _ _ _ _ _ _ _ _ E)|by injection E as <-].
Qed.

Lemma FillRetransmissionContainer_params s h seq mask nowMs r :
  FillRetransmissionContainer s h seq mask nowMs = Ok r -> stream_params r.1.1 = stream_params s.
Proof.
  unfold FillRetransmissionContainer. intros H. case_match; [|by injection H as <-].
  do 2 ok_step H. destruct v0 as [[[s1 b1] h1] it1]. injection H as <-. exact (fill_loop_params _ _ _ _ _ _ _ _ _ _ _ E0).
Qed.

Lemma send_items_params items : forall s h r, send_items s h items = Ok r -> stream_params r.1.1 = stream_params s.
Proof.
  induction items as [|it items IH]; intros s h r H; cbn [send_items] in H; [by injection H as <-|].
  do 4 ok_step H. destruct v2 as [[s1 h1] e]. injection H as <-. exact (IH _ _ _ E2).
Qed.

Lemma receive_items_params items nowMs : forall s h r,
  receive_items s h items nowMs = Ok r -> stream_params r.1.1 = stream_params s.
Proof.
  induction items as [|it items IH]; intros s h r H; cbn [receive_items] in H; [by injection H as <-|].
  do 4 ok_step H. destruct v2 as [[s1 h1] l]. ok_step H. destruct v2 as [[s2 h2] e]. ok_step H. destruct v2 as [[s3 h3] e3].
  injection H as <-. cbn. etransitivity; [exact (IH _ _ _ E4)|]. etransitivity; [exact (send_items_params _ _ _ _ E3)|].
  exact (FillRetransmissionContainer_params _ _ _ _ _ _ E2).
Qed.

Lemma ReceiveNack_params s h nack nowMs r : ReceiveNack s h nack nowMs = Ok r -> stream_params r.1.1 = stream_params s.
Proof. intros H. exact (receive_items_params _ _ _ _ _ H). Qed.

Lemma ReceiveKeyFrameRequest_params s ty : stream_params (ReceiveKeyFrameRequest s ty) = stream_params s.
Proof. unfold ReceiveKeyFrameRequest. by repeat case_match. Qed.

Lemma ReceiveRtcpReceiverReport_params pow4 s report nowMs r :
  ReceiveRtcpReceiverReport pow4 s report nowMs = Ok r -> stream_params r.1 = stream_params s.
Proof.
  unfold ReceiveRtcpReceiverReport, UpdateScore. intros H. do 7 ok_step H. destruct v5 as [sc e]. by injection H as <-.
Qed.

Lemma ReceiveRtcpXr_params s report nowMs r :
  ReceiveRtcpXrReceiverReferenceTime s report nowMs = Ok r -> stream_params r = stream_params s.
Proof. unfold ReceiveRtcpXrReceiverReferenceTime. intros H. do 2 ok_step H. by injection H as <-. Qed.

Lemma GetRtcpSenderReport_params s nowMs r : GetRtcpSenderReport s nowMs = Ok r -> stream_params r.2 = stream_params s.
Proof.
  unfold GetRtcpSenderReport. intros H. case_match; [by injection H as <-|]. do 6 ok_step H. by injection H as <-.
Qed.

Lemma GetBitrate_params s nowMs r : GetBitrate s nowMs = Ok r -> stream_params r.2 = stream_params s.
Proof. unfold GetBitrate. intros H. ok_step H. destruct v as [v c]. by injection H as <-. Qed.

End SendStream.

(** ** Invariants of a consumer and the streams of its producer *)

Section Keeps.

Context {S : Type} (J : S -> gmap Z RtpStreamRecv.State -> Prop) (E : fault -> Prop).

(** [m] keeps [J] when it returns, and faults with [E] only. *)
Definition holds {A} (m : M S A) : Prop :=
  forall w, J (self w) (streams w) -> wp m (fun _ w' => J (self w') (streams w')) E w.

Lemma keeps_ret {A} (a : A) : holds (mret a).
Proof. intros w Hw. exact Hw. Qed.

Lemma keeps_bind {A B} (m : M S A) (f : A -> M S B) : holds m -> (forall a, holds (f a)) -> holds (m ≫= f).
Proof. intros Hm Hf w Hw. apply wp_bind. eapply wp_mono; [exact (Hm w Hw)|]. intros a w' H. exact (Hf a w' H). Qed.

Lemma keeps_gets {A} (f : S -> A) : holds (gets f).
Proof. intros w Hw. exact Hw. Qed.

Lemma keeps_modify (f : S -> S) : (forall s str, J s str -> J (f s) str) -> holds (modify f).
Proof. intros H w Hw. apply H, Hw. Qed.

Lemma keeps_emit e : holds (emit e).
Proof. intros w Hw. exact Hw. Qed.

Lemma keeps_emits l : holds (emits l).
Proof. intros w Hw. exact Hw. Qed.

Lemma keeps_scores : holds scores_of_producer.
Proof. intros w Hw. exact Hw. Qed.

Lemma keeps_when b (m : M S unit) : (b = true -> holds m) -> holds (when b m).
Proof. destruct b; [auto|]. intros _. apply keeps_ret. Qed.

Lemma keeps_wp {A} (m : M S A) w : holds m -> J (self w) (streams w) -> wp m (fun _ w' => J (self w') (streams w')) E w.
Proof. intros H. exact (H w). Qed.

(** A computation that reads: its result is known in a state with the invariant. *)
Lemma safe_reader {A B} (f : S -> gmap Z RtpStreamRecv.State -> res A) (k : A -> M S B) :
  (forall w, J (self w) (streams w) ->
    match f (self w) (streams w) with Ok a => wp (k a) (fun _ w' => J (self w') (streams w')) E w | Fault e => E e end) ->
  holds (reader f ≫= k).
Proof. intros H w Hw. apply wp_bind, wp_reader. exact (H w Hw). Qed.

End Keeps.

(** With any fault, and with none. *)
Abbreviation keeps J := (holds J (fun _ => True)).
Abbreviation safe J := (holds J (fun _ => False)).

Section AnyFault.

Context {S : Type} (J : S -> gmap Z RtpStreamRecv.State -> Prop).

Lemma safe_keeps {A} (m : M S A) E : safe J m -> holds J E m.
Proof. intros H w Hw. specialize (H w Hw). unfold wp in *. by destruct (m w) as [[]|]. Qed.

Lemma keeps_lift {A} (r : res A) : keeps J (lift r).
Proof. intros w Hw. apply wp_lift. by destruct r. Qed.

Lemma keeps_reader {A} (f : S -> gmap Z RtpStreamRecv.State -> res A) : keeps J (reader f).
Proof. intros w Hw. apply wp_reader. by destruct (f _ _). Qed.

Lemma keeps_on_heap {A} (f : Heap -> res (A * Heap)) : keeps J (on_heap f).
Proof. intros w Hw. apply wp_on_heap. by destruct (f (heap w)) as [[x h]|e]. Qed.

Lemma keeps_on_stream {A} a (f : RtpStreamRecv.State -> res (A * RtpStreamRecv.State)) :
  (forall s str r x r', J s str -> str !! a = Some r -> f r = Ok (x, r') -> J s (<[a := r']> str)) -> keeps J (on_stream a f).
Proof.
  intros H w Hw. apply wp_on_stream. destruct (streams w !! a) as [r|] eqn:Er; [|done].
  destruct (f r) as [[x r']|e] eqn:Ef; [|done]. cbn. eauto.
Qed.

End AnyFault.

Create HintDb keeps.
#[export] Hint Resolve keeps_ret keeps_gets keeps_lift keeps_emit keeps_emits keeps_reader keeps_scores keeps_when
  keeps_on_heap : keeps.

Ltac keep :=
  repeat first
    [ progress intros
    | solve [eauto with keeps]
    | apply keeps_bind
    | match goal with
      | |- holds _ _ (let '(_, _) := ?x in _) => destruct x
      | |- holds _ _ (if ?b then _ else _) => destruct b
      | |- holds _ _ (match ?x with _ => _ end) => destruct x
      end
    | apply keeps_when ].

(** *** The sender *)

Section Sender.

Import Consumer Sender SendStream.

Context {S : Type} `{!SingleStream S} (J : S -> gmap Z RtpStreamRecv.State -> Prop).
Context (J_stream : forall s str v, J s str -> RtpStream.params (RtpStreamSend.base v) = RtpStream.params (RtpStreamSend.base (rtpStream s)) ->
  J (set_rtpStream s v) str).
Context (J_rtcp : forall s str t, J s str -> J (set_base s (set_rtcp (base s) t)) str).
Context (J_active : keeps J IsActive) (J_score : keeps J producerScore).

Lemma keeps_on_rtpStream {A} (f : RtpStreamSend.State -> res (A * RtpStreamSend.State)) :
  (forall s a s', f s = Ok (a, s') -> RtpStream.params (RtpStreamSend.base s') = RtpStream.params (RtpStreamSend.base s)) ->
  keeps J (on_rtpStream f).
Proof.
  intros Hf w Hw. unfold on_rtpStream. apply wp_bind, wp_gets, wp_bind, wp_lift.
  destruct (f (rtpStream (self w))) as [[a s']|e] eqn:Ef; [|done]. apply wp_bind, wp_modify. cbn. apply J_stream; eauto.
Qed.

Lemma keeps_modify_rtpStream f :
  (forall s, RtpStream.params (RtpStreamSend.base (f s)) = RtpStream.params (RtpStreamSend.base s)) -> keeps J (modify_rtpStream f).
Proof. intros Hf. apply keeps_modify. intros s str Hs. by apply J_stream. Qed.

Lemma keeps_trace isKeyFrame isRtx : keeps J (EmitTraceEventRtpAndKeyFrameTypes isKeyFrame isRtx).
Proof. unfold EmitTraceEventRtpAndKeyFrameTypes. keep. Qed.

Lemma keeps_GetRtcp packet addr nowMs : keeps J (GetRtcp packet addr nowMs).
Proof.
  unfold GetRtcp. apply keeps_bind; [apply keeps_gets|]. intros b. destruct (negb _); [apply keeps_ret|].
  apply keeps_bind; [apply keeps_on_rtpStream; intros s a s' H; exact (GetRtcpSenderReport_params _ _ _ H)|].
  intros [r|]; [|apply keeps_ret]. keep. by apply keeps_modify; intros; apply J_rtcp.
Qed.

Lemma keeps_NeedWorstRemoteFractionLost worst : keeps J (NeedWorstRemoteFractionLost worst).
Proof. unfold NeedWorstRemoteFractionLost. keep. Qed.

Lemma keeps_retransmitted isKeyFrame l : keeps J (retransmitted isKeyFrame l).
Proof. induction l as [|[] l IH]; cbn [retransmitted]; eauto with keeps. apply keeps_bind; [apply keeps_emit|]. intros _.
  apply keeps_bind; [apply keeps_gets|]. intros s. by apply keeps_bind; [apply keeps_trace|]. Qed.

Lemma keeps_ReceiveNack isKeyFrame nackPacket nowMs : keeps J (ReceiveNack isKeyFrame nackPacket nowMs).
Proof.
  unfold ReceiveNack. apply keeps_bind; [done|]. intros active. apply keeps_when. intros _.
  apply keeps_bind; [unfold EmitTraceEventNackType; keep|]. intros _.
  intros w Hw. apply wp_bind, wp_gets, wp_bind, wp_on_heap.
  destruct (RtpStreamSend.ReceiveNack _ _ _ _) as [[[s h] e]|] eqn:E; [|done]. cbn [mbind res_bind mret res_ret].
  apply wp_bind, wp_modify. apply keeps_wp; [apply keeps_retransmitted|]. cbn. apply J_stream; [done|]. exact (ReceiveNack_params _ _ _ _ _ E).
Qed.

Lemma keeps_ReceiveKeyFrameRequest request ty ssrc : keeps J request -> keeps J (ReceiveKeyFrameRequest request ty ssrc).
Proof.
  intros Hr. unfold ReceiveKeyFrameRequest. apply keeps_bind.
  - unfold EmitTraceEventPliType, EmitTraceEventFirType. keep.
  - intros _. apply keeps_bind; [apply keeps_modify_rtpStream; intros s; apply ReceiveKeyFrameRequest_params|]. keep.
Qed.

Lemma keeps_ReceiveRtcpReceiverReport onScore pow4 report nowMs :
  keeps J onScore -> keeps J (ReceiveRtcpReceiverReport onScore pow4 report nowMs).
Proof.
  intros Hs. unfold ReceiveRtcpReceiverReport. apply keeps_bind; [|keep].
  apply keeps_on_rtpStream. intros s a s' H. ok_step H. destruct v as [s1 e]. injection H as <- <-.
  exact (ReceiveRtcpReceiverReport_params _ _ _ _ _ E).
Qed.

Lemma keeps_ReceiveRtcpXr report nowMs : keeps J (ReceiveRtcpXrReceiverReferenceTime report nowMs).
Proof.
  apply keeps_on_rtpStream. intros s a s' H. ok_step H. injection H as <- <-. exact (ReceiveRtcpXr_params _ _ _ _ E).
Qed.

Lemma keeps_GetTransmissionRate nowMs : keeps J (GetTransmissionRate nowMs).
Proof.
  unfold GetTransmissionRate. apply keeps_bind; [done|]. intros []; cbn [negb]; [|apply keeps_ret].
  apply keeps_on_rtpStream. intros s a s' H. exact (GetBitrate_params _ _ _ H).
Qed.

Lemma keeps_EmitScore : keeps J EmitScore.
Proof. unfold EmitScore. keep. Qed.

Lemma keeps_deliver p seq rewrite restore isKeyFrame shared junk nowMs sent :
  (forall q, keeps J (sent q)) -> keeps J (deliver p seq rewrite restore isKeyFrame shared junk nowMs sent).
Proof.
  intros Hs. unfold deliver. do 6 (apply keeps_bind; [auto with keeps|intros ?]). intros w Hw. apply wp_bind, wp_gets, wp_bind, wp_on_heap.
  destruct (RtpStreamSend.ReceivePacket _ _ _ _ _ _) as [[[[ok s] h] sh]|] eqn:E; [|done]. cbn [mbind res_bind mret res_ret].
  apply wp_bind, wp_modify, keeps_wp; [|apply J_stream; [done|exact (ReceivePacket_params _ _ _ _ _ _ _ E)]].
  apply keeps_bind; [apply keeps_when; intros _|keep]. apply keeps_bind; [apply Hs|]. intros _. apply keeps_bind; [apply keeps_emit|]. intros _.
  apply keeps_trace.
Qed.

End Sender.

(** *** The base class *)

Section Base.

Import Consumer.

Context {S : Type} `{!Virtual S} (J : S -> gmap Z RtpStreamRecv.State -> Prop) (E : fault -> Prop).
Context (J_flags : forall s str f, J s str -> J (set_base s (set_flags (base s) f)) str).
Context (J_settings : forall s str scores external p t, J s str ->
  (scores = producerRtpStreamScores (base s) \/ scores = true) ->
  (external = externallyManagedBitrate (base s) \/ external = true) ->
  J (set_base s (set_settings (base s) scores external p t)) str).
Context (J_active : holds J E IsActive).
Context (J_connected : forall t, holds J E (UserOnTransportConnected t)) (J_disconnected : forall t, holds J E (UserOnTransportDisconnected t)).
Context (J_paused : forall t, holds J E (UserOnPaused t)) (J_resumed : forall t, holds J E (UserOnResumed t)).

Lemma keeps_modify_flags f : holds J E (modify_flags f).
Proof. apply keeps_modify. eauto. Qed.

#[local] Hint Resolve keeps_modify_flags : keeps.

Lemma keeps_TransportConnected t : holds J E (TransportConnected t).
Proof. unfold TransportConnected. keep. Qed.
Lemma keeps_TransportDisconnected t : holds J E (TransportDisconnected t).
Proof. unfold TransportDisconnected. keep. Qed.
Lemma keeps_ProducerPaused t : holds J E (ProducerPaused t).
Proof. unfold ProducerPaused, set_producerPaused. keep. Qed.
Lemma keeps_ProducerResumed t : holds J E (ProducerResumed t).
Proof. unfold ProducerResumed, set_producerPaused. keep. Qed.
Lemma keeps_ProducerRtpStreamScores : holds J E ProducerRtpStreamScores.
Proof. apply keeps_modify. eauto. Qed.
Lemma keeps_ProducerClosed : holds J E ProducerClosed.
Proof. unfold ProducerClosed. keep. Qed.
Lemma keeps_SetExternallyManagedBitrate : holds J E SetExternallyManagedBitrate.
Proof. apply keeps_modify. eauto. Qed.

Lemma keeps_HandleRequest r t : holds J E (HandleRequest r t).
Proof.
  unfold HandleRequest, set_paused. apply keeps_bind; [apply keeps_gets|]. intros f. destruct r as [| |[v|]|types| | |]; keep.
  all: apply keeps_modify; eauto.
Qed.

End Base.

(** A consumer that was made has the parameters of its request. *)
Lemma make_parameters ty d b : Consumer.make ty d = Ok (Some b) ->
  Consumer.rtpParameters b = Consumer.data_rtpParameters d /\
  Consumer.consumableRtpEncodings b = Consumer.data_consumableRtpEncodings d /\
  Consumer.externallyManagedBitrate b = false /\ Consumer.kind b = Consumer.data_kind d.
Proof.
  unfold Consumer.make. intros H.
  repeat match type of H with (if ?c then _ else _) = _ => destruct c; [discriminate H|] end.
  ok_step H. by injection H as <-.
Qed.

(** ** Requested layers *)

Section Layers.

Import Consumer Sender.

(** The requests to prefer layers that are served as they are meant: the temporal layer is read
    as a signed 16-bit number. *)
Definition small_layers (r : Request) : Prop :=
  match r with SetPreferredLayers _ (Some t) => t < 2 ^ 15 | _ => True end.

Lemma preferred_layers_temporal n m sp tp r : 1 <= m -> preferred_layers n m sp tp = Some r ->
  match tp with Some t => t < 2 ^ 15 | None => True end -> 0 <= r.2.
Proof.
  intros Hm H Ht. unfold preferred_layers in H. destruct (is_layer sp); [|done]. injection H as <-. cbn.
  destruct tp as [t|]; cbn; [|lia]. destruct (Z.leb_spec 0 t); cbn; [|lia]. unfold bounded_layer. rewrite i16_small by (pow2_consts; lia).
  destruct (Z.ltb_spec (m - 1) t); lia.
Qed.

End Layers.
