(* ===== verification/Producer.v ===== *)
(** * Producers

    Models [worker/src/RTC/Producer.cpp] and [worker/include/RTC/Producer.hpp]: a producer
    finds or creates the receive stream of a packet (by SSRC, by RID, or as the only one),
    lets the stream count it, and hands it on with the payload type, the SSRC and the header
    extensions that the router uses.

    The streams live in a store, by address; consumers read them there.  The calls of the
    producer to its listener (the transport) and to the notifier are logged.  The listener
    answers [OnProducerNewRtpStream] by calls of [RequestKeyFrame] while it is notified: the
    mapped SSRCs for which it does so are an argument, as are the fraction lost that it
    reports back and the clock.  A hash map is walked in the order of [map_to_list]; its order
    is not specified. *)

From Stdlib Require Import SpecFloat.
From stdpp Require Import gmap.
From S2P Require Import Prelude StateMonad Utils Float RateCalculator RtcpPacket RtcpReports RtcpFeedback RtcpXr Rtcp RtpPacket.
From S2P Require Import KeyFrameRequestManager Codecs RtpParameters RtpStream RtpStreamRecv Consumer.

Module Producer.

Import Consumer (Kind, ALL, AUDIO, VIDEO, TraceEventTypes, no_trace, TraceName, trace_types, rtp, keyframe, nack, pli, fir).

Definition SendNackDelay : Z := 10.

(** ** The state *)

(** [RtpHeaderExtensionIds]; 0 is unset. *)
Record ExtensionIds := {
  id_mid : Z;
  id_rid : Z;
  id_rrid : Z;
  id_absSendTime : Z;
  id_transportWideCc01 : Z;
  id_frameMarking07 : Z;
  id_frameMarking : Z;
  id_ssrcAudioLevel : Z;
  id_videoOrientation : Z;
  id_toffset : Z;
  id_absCaptureTime : Z;
}.

(** [RtpEncodingMapping]; an SSRC of 0 and an empty RID are unset. *)
Record RtpEncodingMapping := { map_rid : list Z; map_ssrc : Z; mappedSsrc : Z }.
Record RtpMapping := { map_codecs : gmap Z Z; map_encodings : list RtpEncodingMapping }.

(** What does not change. *)
Record Config := {
  kind : Kind;
  rtpParameters : RtpParameters.t;
  type : Tools.ParametersType;
  rtpMapping : RtpMapping;
  rtpHeaderExtensionIds : ExtensionIds;
  maxRtcpInterval : Z;
}.

(** The streams, by their addresses. *)
Record Maps := {
  mapSsrcRtpStream : gmap Z Z;
  rtpStreamByEncodingIdx : list (option Z);
  rtpStreamScores : list Z;
  mapRtxSsrcRtpStream : gmap Z Z;
  mapRtpStreamMappedSsrc : gmap Z Z;
  mapMappedSsrcSsrc : gmap Z Z;
}.

Record State := {
  config : Config;
  maps : Maps;
  keyFrameRequestManager : option KeyFrameRequestManager.State;
  paused : bool;
  currentRtpPacket : option (RtpPacket.t * option Tools.Descriptor);
  lastRtcpSentTime : Z;
  videoOrientation : option (bool * bool * Z);
  traceEventTypes : TraceEventTypes;
}.

Definition set_maps (s : State) (v : Maps) : State :=
  {| config := config s; maps := v; keyFrameRequestManager := keyFrameRequestManager s; paused := paused s;
     currentRtpPacket := currentRtpPacket s; lastRtcpSentTime := lastRtcpSentTime s; videoOrientation := videoOrientation s;
     traceEventTypes := traceEventTypes s |}.
Definition set_manager (s : State) (v : option KeyFrameRequestManager.State) : State :=
  {| config := config s; maps := maps s; keyFrameRequestManager := v; paused := paused s;
     currentRtpPacket := currentRtpPacket s; lastRtcpSentTime := lastRtcpSentTime s; videoOrientation := videoOrientation s;
     traceEventTypes := traceEventTypes s |}.
Definition set_paused (s : State) (v : bool) : State :=
  {| config := config s; maps := maps s; keyFrameRequestManager := keyFrameRequestManager s; paused := v;
     currentRtpPacket := currentRtpPacket s; lastRtcpSentTime := lastRtcpSentTime s; videoOrientation := videoOrientation s;
     traceEventTypes := traceEventTypes s |}.
Definition set_current (s : State) (v : option (RtpPacket.t * option Tools.Descriptor)) : State :=
  {| config := config s; maps := maps s; keyFrameRequestManager := keyFrameRequestManager s; paused := paused s;
     currentRtpPacket := v; lastRtcpSentTime := lastRtcpSentTime s; videoOrientation := videoOrientation s;
     traceEventTypes := traceEventTypes s |}.
Definition set_rtcp (s : State) (v : Z) : State :=
  {| config := config s; maps := maps s; keyFrameRequestManager := keyFrameRequestManager s; paused := paused s;
     currentRtpPacket := currentRtpPacket s; lastRtcpSentTime := v; videoOrientation := videoOrientation s;
     traceEventTypes := traceEventTypes s |}.
Definition set_orientation (s : State) (v : option (bool * bool * Z)) : State :=
  {| config := config s; maps := maps s; keyFrameRequestManager := keyFrameRequestManager s; paused := paused s;
     currentRtpPacket := currentRtpPacket s; lastRtcpSentTime := lastRtcpSentTime s; videoOrientation := v;
     traceEventTypes := traceEventTypes s |}.
Definition set_traces (s : State) (v : TraceEventTypes) : State :=
  {| config := config s; maps := maps s; keyFrameRequestManager := keyFrameRequestManager s; paused := paused s;
     currentRtpPacket := currentRtpPacket s; lastRtcpSentTime := lastRtcpSentTime s; videoOrientation := videoOrientation s;
     traceEventTypes := v |}.

Definition set_scores (m : Maps) (v : list Z) : Maps :=
  {| mapSsrcRtpStream := mapSsrcRtpStream m; rtpStreamByEncodingIdx := rtpStreamByEncodingIdx m; rtpStreamScores := v;
     mapRtxSsrcRtpStream := mapRtxSsrcRtpStream m; mapRtpStreamMappedSsrc := mapRtpStreamMappedSsrc m;
     mapMappedSsrcSsrc := mapMappedSsrcSsrc m |}.
Definition set_rtx_map (m : Maps) (v : gmap Z Z) : Maps :=
  {| mapSsrcRtpStream := mapSsrcRtpStream m; rtpStreamByEncodingIdx := rtpStreamByEncodingIdx m;
     rtpStreamScores := rtpStreamScores m; mapRtxSsrcRtpStream := v; mapRtpStreamMappedSsrc := mapRtpStreamMappedSsrc m;
     mapMappedSsrcSsrc := mapMappedSsrcSsrc m |}.

(** *** The world *)

(** One entry of the notified score. *)
Record Scored := { scored_idx : Z; scored_ssrc : Z; scored_rid : list Z; scored_score : Z }.

Inductive trace := TraceRtp | TraceKeyFrame | TraceNack | TracePli (ssrc : Z) | TraceFir (ssrc : Z).

(** The calls to the listener and to the channel. *)
Inductive event :=
| OnProducerReceiveData (len : Z)
| OnProducerReceiveRtpPacket (packet : RtpPacket.t)
| OnProducerPaused
| OnProducerResumed
| OnProducerNewRtpStream (rtpStream mappedSsrc : Z)
| OnProducerRtpStreamScore (rtpStream score previousScore : Z)
| OnProducerRtcpSenderReport (rtpStream : Z) (first : bool)
| OnProducerRtpPacketReceived (packet : RtpPacket.t) (descriptor : option Tools.Descriptor)
| OnProducerSendRtcpPacket (packet : RtpStream.event)
| EmittedScore (scores : list Scored)
| EmittedVideoOrientation (camera flip : bool) (rotation : Z)
| EmittedTrace (type : trace) (isRtx : bool).

Record World := mkWorld {
  self : State;
  streams : gmap Z RtpStreamRecv.State;
  next : Z;
  events : list event;
}.

Abbreviation P := (St World).

Definition modify (f : State -> State) : P unit := change (fun w => mkWorld (f (self w)) (streams w) (next w) (events w)).
Definition modify_maps (f : Maps -> Maps) : P unit := modify (fun s => set_maps s (f (maps s))).
Definition emit (e : event) : P unit := change (fun w => mkWorld (self w) (streams w) (next w) (events w ++ [e])).

(** A call on the stream at the address [a]. *)
Definition on_stream {A} (a : Z) (f : RtpStreamRecv.State -> res (A * RtpStreamRecv.State)) : P A := fun w =>
  s ← deref (streams w !! a);
  '(x, s) ← f s;
  Ok (x, mkWorld (self w) (<[a := s]> (streams w)) (next w) (events w)).

Definition read_stream (a : Z) : P RtpStreamRecv.State := fun w => s ← deref (streams w !! a); Ok (s, w).

Definition new_stream (s : RtpStreamRecv.State) : P Z := fun w =>
  Ok (next w, mkWorld (self w) (<[next w := s]> (streams w)) (next w + 1) (events w)).

(** Members of a stream. *)
Definition params_of (s : RtpStreamRecv.State) : RtpStream.Params := RtpStream.params (RtpStreamRecv.base s).
Definition GetSsrc (s : RtpStreamRecv.State) : Z := RtpStream.ssrc (params_of s).
Definition GetRtxSsrc (s : RtpStreamRecv.State) : Z := RtpStream.rtxSsrc (params_of s).
Definition GetRid (s : RtpStreamRecv.State) : list Z := RtpStream.rid (params_of s).
Definition GetEncodingIdx (s : RtpStreamRecv.State) : Z := RtpStream.encodingIdx (params_of s).
Definition GetScore (s : RtpStreamRecv.State) : Z := RtpStream.score (RtpStream.scoring (RtpStreamRecv.base s)).
Definition HasRtx (s : RtpStreamRecv.State) : bool := RtpStream.HasRtx (RtpStreamRecv.base s).

(** [map.at(key)] *)
Definition at_key (m : gmap Z Z) (k : Z) : P Z :=
  from_res (match m !! k with Some v => Ok v | None => Fault OutOfBounds end).

(** [vector[i] = v] *)
Definition store {A} (l : list A) (i : Z) (v : A) : res (list A) :=
  if (0 <=? i) && (i <? zlen l) then Ok (<[Z.to_nat i := v]> l) else Fault OutOfBounds.

(** ** The constructor *)

(** A member of the request: missing, of another type, or a value. *)
Inductive field (A : Type) := Missing | Wrong | Given (a : A).
Arguments Missing {A}.
Arguments Wrong {A}.
Arguments Given {A} a.

Definition is_missing {A} (f : field A) : bool := match f with Missing => true | _ => false end.

Record EncodingData := { d_ssrc : field Z; d_rid : field (list Z); d_mappedSsrc : field Z }.

(** The request that creates a producer, as far as it is parsed. *)
Record Data := {
  data_kind : Kind;
  data_rtpParameters : RtpParameters.t;
  data_codecs : list (field Z * field Z);
  data_encodings : list EncodingData;
  data_paused : bool;
  data_keyFrameRequestDelay : Z;
}.

Fixpoint codec_mapping (l : list (field Z * field Z)) (m : gmap Z Z) : throws (gmap Z Z) :=
  match l with
  | [] => Some m
  | (Given payloadType, Given mappedPayloadType) :: l' => codec_mapping l' (<[u8 payloadType := u8 mappedPayloadType]> m)
  | _ :: _ => None
  end.

(** [n] is the number of entries, and [mid] tells whether the parameters have a MID. *)
Fixpoint encoding_mapping (n : Z) (mid : bool) (l : list EncodingData) : throws (list RtpEncodingMapping) :=
  match l with
  | [] => Some []
  | e :: l' =>
      let anonymous := is_missing (d_ssrc e) && is_missing (d_rid e) in
      if (1 <? n) && anonymous then None
      else if negb mid && (n =? 1) && anonymous then None
      else
        match d_mappedSsrc e with
        | Given mapped =>
            l' ← encoding_mapping n mid l';
            Some ({| map_rid := match d_rid e with Given r => r | _ => [] end;
                     map_ssrc := match d_ssrc e with Given v => u32 v | _ => 0 end; mappedSsrc := u32 mapped |} :: l')
        | _ => None
        end
  end.

Definition extension_ids (l : list (RtpParameters.ExtensionType * Z)) : ExtensionIds :=
  let id ty := Consumer.extension_id ty l in
  {| id_mid := id RtpParameters.MID; id_rid := id RtpParameters.RTP_STREAM_ID; id_rrid := id RtpParameters.REPAIRED_RTP_STREAM_ID;
     id_absSendTime := id RtpParameters.ABS_SEND_TIME; id_transportWideCc01 := id RtpParameters.TRANSPORT_WIDE_CC_01;
     id_frameMarking07 := id RtpParameters.FRAME_MARKING_07; id_frameMarking := id RtpParameters.FRAME_MARKING;
     id_ssrcAudioLevel := id RtpParameters.SSRC_AUDIO_LEVEL; id_videoOrientation := id RtpParameters.VIDEO_ORIENTATION;
     id_toffset := id RtpParameters.TOFFSET; id_absCaptureTime := id RtpParameters.ABS_CAPTURE_TIME |}.

(** No stream yet: a slot for each encoding. *)
Definition no_streams (n : nat) : Maps :=
  {| mapSsrcRtpStream := ∅; rtpStreamByEncodingIdx := replicate n None; rtpStreamScores := replicate n 0;
     mapRtxSsrcRtpStream := ∅; mapRtpStreamMappedSsrc := ∅; mapMappedSsrcSsrc := ∅ |}.

Definition make (d : Data) : res (throws State) :=
  let p := data_rtpParameters d in
  if bool_decide (data_kind d = ALL) then mret None
  else
    ty ← RtpParameters.GetType p;
    e ← TransmissionCounter.layer_at (RtpParameters.encodings p) 0;
    c ← RtpParameters.GetCodecForEncoding p e;
    if negb (Tools.IsValidTypeForCodec ty (RtpParameters.mimeType c) (RtpParameters.tools_subtype (RtpParameters.subtype c)))
    then mret None
    else
      match codec_mapping (data_codecs d) ∅,
            encoding_mapping (zlen (data_encodings d)) (negb (bool_decide (RtpParameters.mid p = []))) (data_encodings d) with
      | Some codecs, Some encodings =>
          if negb (zlen (RtpParameters.encodings p) =? zlen encodings) then mret None
          else if existsb (fun x => x.2 =? 0) (RtpParameters.headerExtensions p) then mret None
          else
            mret (Some
              {| config :=
                   {| kind := data_kind d; rtpParameters := p; type := ty;
                      rtpMapping := {| map_codecs := codecs; map_encodings := encodings |};
                      rtpHeaderExtensionIds := extension_ids (RtpParameters.headerExtensions p);
                      maxRtcpInterval := if bool_decide (data_kind d = AUDIO) then Consumer.MaxAudioIntervalMs
                                         else Consumer.MaxVideoIntervalMs |};
                 maps := no_streams (length (RtpParameters.encodings p));
                 keyFrameRequestManager :=
                   if bool_decide (data_kind d = VIDEO) then Some (KeyFrameRequestManager.init (u32 (data_keyFrameRequestDelay d)))
                   else None;
                 paused := data_paused d; currentRtpPacket := None; lastRtcpSentTime := 0; videoOrientation := None;
                 traceEventTypes := no_trace |})
      | _, _ => mret None
      end.

(** ** Notifications *)

Fixpoint scored (l : list (option Z)) (str : gmap Z RtpStreamRecv.State) : res (list Scored) :=
  match l with
  | [] => mret []
  | None :: l' => scored l' str
  | Some a :: l' =>
      s ← deref (str !! a);
      l' ← scored l' str;
      mret ({| scored_idx := GetEncodingIdx s; scored_ssrc := GetSsrc s; scored_rid := GetRid s; scored_score := GetScore s |} :: l')
  end.

Definition EmitScore : P unit :=
  w ← asks id;
  l ← from_res (scored (rtpStreamByEncodingIdx (maps (self w))) (streams w));
  emit (EmittedScore l).

Definition EmitTraceEventRtpAndKeyFrameTypes (isKeyFrame isRtx : bool) : P unit :=
  t ← asks (fun w => traceEventTypes (self w));
  if keyframe t && isKeyFrame then emit (EmittedTrace TraceKeyFrame isRtx)
  else only (rtp t) (emit (EmittedTrace TraceRtp isRtx)).
Definition EmitTraceEventPliType (ssrc : Z) : P unit :=
  t ← asks (fun w => traceEventTypes (self w)); only (pli t) (emit (EmittedTrace (TracePli ssrc) false)).
Definition EmitTraceEventFirType (ssrc : Z) : P unit :=
  t ← asks (fun w => traceEventTypes (self w)); only (fir t) (emit (EmittedTrace (TraceFir ssrc) false)).
Definition EmitTraceEventNackType : P unit :=
  t ← asks (fun w => traceEventTypes (self w)); only (nack t) (emit (EmittedTrace TraceNack false)).

(** ** The calls of a stream to its listener, the producer *)

Definition OnRtpStreamScore (a score previousScore : Z) : P unit :=
  s ← read_stream a;
  m ← asks (fun w => maps (self w));
  scores ← from_res (store (rtpStreamScores m) (GetEncodingIdx s) score);
  _ ← modify_maps (fun m => set_scores m scores);
  _ ← emit (OnProducerRtpStreamScore a score previousScore);
  EmitScore.

(** The types of RTCP packets with a feedback message. *)
Inductive feedback := PSFB | RTPFB.

(** The traces of an RTCP packet.  The case of PSFB has no [break] and goes on in that of
    RTPFB, where the message type is compared with that of a NACK. *)
Definition trace_feedback (type : feedback) (messageType mediaSsrc : Z) : P unit :=
  _ ← match type with
      | PSFB => if messageType =? 1 then EmitTraceEventPliType mediaSsrc
                else only (messageType =? 4) (EmitTraceEventFirType mediaSsrc)
      | RTPFB => mret tt
      end;
  only (messageType =? 1) EmitTraceEventNackType.

Definition OnRtpStreamSendRtcpPacket (e : RtpStream.event) : P unit :=
  _ ← match e with
      | RtpStream.SendNack p => trace_feedback RTPFB (FeedbackPacket.messageType p) (FeedbackPacket.mediaSsrc p)
      | RtpStream.SendPli p => trace_feedback PSFB (FeedbackHeaderPacket.messageType p) (FeedbackHeaderPacket.mediaSsrc p)
      | RtpStream.SendFir p => trace_feedback PSFB (FeedbackPacket.messageType p) (FeedbackPacket.mediaSsrc p)
      | _ => mret tt
      end;
  emit (OnProducerSendRtcpPacket e).

(** What the stream at [a] called its listener for. *)
Definition stream_event (a : Z) (e : RtpStream.event) : P unit :=
  match e with
  | RtpStream.Score score previousScore => OnRtpStreamScore a score previousScore
  | RtpStream.SendNack _ | RtpStream.SendPli _ | RtpStream.SendFir _ => OnRtpStreamSendRtcpPacket e
  | RtpStream.Retransmit _ => mret tt
  end.

(** A call on a stream, followed by its calls to the listener. *)
Definition call_stream (a : Z) (f : RtpStreamRecv.State -> res (RtpStreamRecv.State * list RtpStream.event)) : P unit :=
  e ← on_stream a (fun s => '(s, e) ← f s; mret (e, s));
  for_each (stream_event a) e.

(** *** Key frames *)

Definition OnKeyFrameNeeded (ssrc : Z) : P unit :=
  m ← asks (fun w => maps (self w));
  match mapSsrcRtpStream m !! ssrc with
  | None => mret tt
  | Some a => call_stream a (fun s => mret (RtpStreamRecv.RequestKeyFrame s))
  end.

(** A call on the manager, if there is one, followed by its calls to the listener. *)
Definition on_manager (f : KeyFrameRequestManager.State -> res (KeyFrameRequestManager.State * list Z)) : P unit :=
  o ← asks (fun w => keyFrameRequestManager (self w));
  match o with
  | None => mret tt
  | Some k =>
      '(k, l) ← from_res (f k);
      _ ← modify (fun s => set_manager s (Some k));
      for_each OnKeyFrameNeeded l
  end.

Definition RequestKeyFrame (mappedSsrc nowMs : Z) : P unit :=
  s ← asks self;
  match keyFrameRequestManager s with
  | None => mret tt
  | Some _ =>
      if paused s then mret tt
      else
        match mapMappedSsrcSsrc (maps s) !! mappedSsrc with
        | None => mret tt
        | Some ssrc =>
            current ← from_res (match currentRtpPacket s with
                                | None => mret false
                                | Some (packet, d) => v ← RtpPacket.GetSsrc packet; mret ((v =? ssrc) && Tools.IsKeyFrame d)
                                end);
            only (negb current) (on_manager (fun k => KeyFrameRequestManager.KeyFrameNeeded k nowMs ssrc))
        end
  end.

(** A timer of the manager: of a pending request or of a delayer, at the address [t]. *)
Definition OnManagerTimer (t : positive) (nowMs : Z) : P unit := on_manager (fun k => KeyFrameRequestManager.OnTimer k nowMs t).

(** Timers of a stream: of inactivity, and of its NACK generator. *)
Definition OnStreamTimer (a nowMs : Z) : P unit := call_stream a (fun s => mret (RtpStreamRecv.OnTimer s nowMs)).
Definition OnStreamNackTimer (a nowMs : Z) : P unit := call_stream a (fun s => RtpStreamRecv.OnNackTimer s nowMs).

(** ** The stream of a packet *)

(** The parameters of the stream of an encoding. *)
Definition stream_params (p : RtpParameters.t) (e : RtpParameters.Encoding) (c : RtpParameters.Codec) (idx ssrc : Z) : RtpStream.Params :=
  {| RtpStream.encodingIdx := idx; RtpStream.rid := RtpParameters.rid e; RtpStream.ssrc := ssrc;
     RtpStream.payloadType := RtpParameters.payloadType c; RtpStream.mimeType := RtpParameters.mimeType c;
     RtpStream.mimeSubtype := RtpParameters.tools_subtype (RtpParameters.subtype c);
     RtpStream.clockRate := RtpParameters.clockRate c; RtpStream.cname := RtpParameters.cname p; RtpStream.rtxSsrc := 0;
     RtpStream.rtxPayloadType := 0; RtpStream.useNack := Sender.has_feedback c RtpParameters.Nack;
     RtpStream.usePli := Sender.has_feedback c RtpParameters.NackPli; RtpStream.useFir := Sender.has_feedback c RtpParameters.CcmFir;
     RtpStream.useInBandFec := RtpParameters.useinbandfec c; RtpStream.useDtx := RtpParameters.usedtx c || RtpParameters.dtx e;
     RtpStream.spatialLayers := RtpParameters.spatialLayers e; RtpStream.temporalLayers := RtpParameters.temporalLayers e |}.

(** The maps with the stream at [a]. *)
Definition insert_stream (m : Maps) (ssrc idx a score mapped : Z) : res Maps :=
  byIdx ← store (rtpStreamByEncodingIdx m) idx (Some a);
  scores ← store (rtpStreamScores m) idx score;
  mret {| mapSsrcRtpStream := <[ssrc := a]> (mapSsrcRtpStream m); rtpStreamByEncodingIdx := byIdx; rtpStreamScores := scores;
          mapRtxSsrcRtpStream := mapRtxSsrcRtpStream m;
          mapRtpStreamMappedSsrc := <[a := mapped]> (mapRtpStreamMappedSsrc m);
          mapMappedSsrcSsrc := <[mapped := ssrc]> (mapMappedSsrcSsrc m) |}.

Definition CreateRtpStream (ssrc : Z) (c : RtpParameters.Codec) (idx nowMs : Z) : P Z :=
  s ← asks self;
  let p := rtpParameters (config s) in
  _ ← from_res (ms_assert (match mapSsrcRtpStream (maps s) !! ssrc with None => true | Some _ => false end));
  slot ← from_res (TransmissionCounter.layer_at (rtpStreamByEncodingIdx (maps s)) idx);
  _ ← from_res (ms_assert (match slot with None => true | Some _ => false end));
  e ← from_res (TransmissionCounter.layer_at (RtpParameters.encodings p) idx);
  em ← from_res (TransmissionCounter.layer_at (map_encodings (rtpMapping (config s))) idx);
  let stream := RtpStreamRecv.make (stream_params p e c idx ssrc) SendNackDelay nowMs in
  a ← new_stream stream;
  m ← from_res (insert_stream (maps s) ssrc idx a (GetScore stream) (mappedSsrc em));
  _ ← modify (fun s => set_maps s m);
  _ ← only (paused s) (on_stream a (fun s => s ← RtpStreamRecv.Pause s; mret (tt, s)));
  _ ← EmitScore;
  mret a.

(** A packet of the RTX stream of the stream at [a]: [None] if it has another one. *)
Definition adopt_rtx (a payloadType ssrc : Z) : P (option Z) :=
  s ← read_stream a;
  if HasRtx s then mret None
  else
    _ ← on_stream a (fun s => mret (tt, RtpStreamRecv.set_base s (RtpStream.SetRtx (RtpStreamRecv.base s) payloadType ssrc)));
    _ ← modify_maps (fun m => set_rtx_map m (<[ssrc := a]> (mapRtxSsrcRtpStream m)));
    mret (Some a).

(** Whether the packet has the payload type of the media or of the RTX codec of an encoding. *)
Definition packet_kind (p : RtpParameters.t) (e : RtpParameters.Encoding) (payloadType : Z) : res (RtpParameters.Codec * bool * bool) :=
  c ← RtpParameters.GetCodecForEncoding p e;
  rtx ← RtpParameters.GetRtxCodecForEncoding p e;
  mret (c, RtpParameters.payloadType c =? payloadType,
        match rtx with Some x => RtpParameters.payloadType x =? payloadType | None => false end).

(** The loop over the encodings by SSRC, from index [i]; [None] if no encoding matches, else
    the stream, if any. *)
Fixpoint by_ssrc (l : list RtpParameters.Encoding) (i ssrc payloadType nowMs : Z) : P (option (option Z)) :=
  match l with
  | [] => mret None
  | e :: l' =>
      s ← asks self;
      '(c, isMediaPacket, isRtxPacket) ← from_res (packet_kind (rtpParameters (config s)) e payloadType);
      if isMediaPacket && (RtpParameters.ssrc e =? ssrc) then
        a ← CreateRtpStream ssrc c i nowMs;
        mret (Some (Some a))
      else if isRtxPacket && match RtpParameters.rtx e with Some r => r =? ssrc | None => false end then
        match mapSsrcRtpStream (maps s) !! RtpParameters.ssrc e with
        | None => mret (Some None)
        | Some a => o ← adopt_rtx a payloadType ssrc; mret (Some o)
        end
      else by_ssrc l' (i + 1) ssrc payloadType nowMs
  end.

(** A stream with the RID among those of the map. *)
Fixpoint find_rid (l : list (Z * Z)) (rid : list Z) (str : gmap Z RtpStreamRecv.State) : res (option Z) :=
  match l with
  | [] => mret None
  | (_, a) :: l' =>
      s ← deref (str !! a);
      if bool_decide (GetRid s = rid) then mret (Some a) else find_rid l' rid str
  end.

(** The loop over the encodings by RID: the stream, if any. *)
Fixpoint by_rid (l : list RtpParameters.Encoding) (i : Z) (rid : list Z) (ssrc payloadType nowMs : Z) : P (option Z) :=
  match l with
  | [] => mret None
  | e :: l' =>
      if negb (bool_decide (RtpParameters.rid e = rid)) then by_rid l' (i + 1) rid ssrc payloadType nowMs
      else
        w ← asks id;
        '(c, isMediaPacket, isRtxPacket) ← from_res (packet_kind (rtpParameters (config (self w))) e payloadType);
        if (isMediaPacket : bool) then
          o ← from_res (find_rid (map_to_list (mapSsrcRtpStream (maps (self w)))) rid (streams w));
          match o with
          | Some _ => mret None
          | None => a ← CreateRtpStream ssrc c i nowMs; mret (Some a)
          end
        else if (isRtxPacket : bool) then
          o ← from_res (find_rid (map_to_list (mapSsrcRtpStream (maps (self w)))) rid (streams w));
          match o with
          | Some a => adopt_rtx a payloadType ssrc
          | None => mret None
          end
        else by_rid l' (i + 1) rid ssrc payloadType nowMs
  end.

(** A single encoding without SSRC and RID. *)
Definition by_single (ssrc payloadType nowMs : Z) : P (option Z) :=
  s ← asks self;
  match RtpParameters.encodings (rtpParameters (config s)) with
  | [e] =>
      if (RtpParameters.ssrc e =? 0) && bool_decide (RtpParameters.rid e = []) then
        '(c, isMediaPacket, isRtxPacket) ← from_res (packet_kind (rtpParameters (config s)) e payloadType);
        if (isMediaPacket : bool) then
          if negb (bool_decide (mapSsrcRtpStream (maps s) = ∅)) then mret None
          else a ← CreateRtpStream ssrc c 0 nowMs; mret (Some a)
        else if (isRtxPacket : bool) then
          match map_to_list (mapSsrcRtpStream (maps s)) with
          | [] => mret None
          | (_, a) :: _ => adopt_rtx a payloadType ssrc
          end
        else mret None
      else mret None
  | _ => mret None
  end.

Definition GetRtpStream (packet : RtpPacket.t) (nowMs : Z) : P (option Z) :=
  ssrc ← from_res (RtpPacket.GetSsrc packet);
  payloadType ← from_res (RtpPacket.GetPayloadType packet);
  s ← asks self;
  match mapSsrcRtpStream (maps s) !! ssrc with
  | Some a => mret (Some a)
  | None =>
      match mapRtxSsrcRtpStream (maps s) !! ssrc with
      | Some a => mret (Some a)
      | None =>
          let encodings := RtpParameters.encodings (rtpParameters (config s)) in
          o ← by_ssrc encodings 0 ssrc payloadType nowMs;
          match o with
          | Some o => mret o
          | None =>
              rid ← from_res (RtpPacket.ReadRid packet);
              match rid with
              | Some rid => by_rid encodings 0 rid ssrc payloadType nowMs
              | None => by_single ssrc payloadType nowMs
              end
          end
      end
  end.

Definition NotifyNewRtpStream (a : Z) (asked : list Z) (nowMs : Z) : P unit :=
  m ← asks (fun w => maps (self w));
  mapped ← at_key (mapRtpStreamMappedSsrc m) a;
  _ ← emit (OnProducerNewRtpStream a mapped);
  for_each (fun v => RequestKeyFrame v nowMs) asked.

(** ** The packet for the router *)

(** [RtpHeaderExtensionUri::Type] *)
Definition type_code (ty : RtpParameters.ExtensionType) : Z :=
  match ty with
  | RtpParameters.UNKNOWN => 0 | RtpParameters.MID => 1 | RtpParameters.RTP_STREAM_ID => 2
  | RtpParameters.REPAIRED_RTP_STREAM_ID => 3 | RtpParameters.ABS_SEND_TIME => 4
  | RtpParameters.TRANSPORT_WIDE_CC_01 => 5 | RtpParameters.FRAME_MARKING_07 => 6 | RtpParameters.FRAME_MARKING => 7
  | RtpParameters.SSRC_AUDIO_LEVEL => 10 | RtpParameters.VIDEO_ORIENTATION => 11 | RtpParameters.TOFFSET => 12
  | RtpParameters.ABS_CAPTURE_TIME => 13
  end.

Definition PreProcessRtpPacket (c : Config) (p : RtpPacket.t) : RtpPacket.t :=
  let i := RtpPacket.ids p in
  match kind c with
  | VIDEO =>
      RtpPacket.set_ids p
        {| RtpPacket.midExtensionId := RtpPacket.midExtensionId i; RtpPacket.ridExtensionId := RtpPacket.ridExtensionId i;
           RtpPacket.rridExtensionId := RtpPacket.rridExtensionId i;
           RtpPacket.absSendTimeExtensionId := RtpPacket.absSendTimeExtensionId i;
           RtpPacket.transportWideCc01ExtensionId := RtpPacket.transportWideCc01ExtensionId i;
           RtpPacket.frameMarking07ExtensionId := id_frameMarking07 (rtpHeaderExtensionIds c);
           RtpPacket.frameMarkingExtensionId := id_frameMarking (rtpHeaderExtensionIds c);
           RtpPacket.ssrcAudioLevelExtensionId := RtpPacket.ssrcAudioLevelExtensionId i;
           RtpPacket.videoOrientationExtensionId := RtpPacket.videoOrientationExtensionId i |}
  | _ => p
  end.

(** An extension of the packet that is kept, with the code of its type as id. *)
Definition proxy (p : RtpPacket.t) (id : Z) (ty : RtpParameters.ExtensionType) : res (list RtpPacket.GenericExtension) :=
  v ← RtpPacket.extension_value p id (fun _ => true);
  mret (match v with Some v => [{| RtpPacket.ext_id := type_code ty; RtpPacket.ext_value := v |}] | None => [] end).

(** An extension with the value 0, which the transport fills; the buffer of the MID is
    never written. *)
Definition blank (ty : RtpParameters.ExtensionType) (len : Z) : RtpPacket.GenericExtension :=
  {| RtpPacket.ext_id := type_code ty; RtpPacket.ext_value := replicate (Z.to_nat len) 0 |}.

Definition mangled_extensions (c : Config) (p : RtpPacket.t) : res (list RtpPacket.GenericExtension) :=
  let i := rtpHeaderExtensionIds c in
  capture ← proxy p (id_absCaptureTime i) RtpParameters.ABS_CAPTURE_TIME;
  rest ← match kind c with
         | AUDIO => proxy p (id_ssrcAudioLevel i) RtpParameters.SSRC_AUDIO_LEVEL
         | VIDEO =>
             marking07 ← proxy p (id_frameMarking07 i) RtpParameters.FRAME_MARKING_07;
             marking ← proxy p (id_frameMarking i) RtpParameters.FRAME_MARKING;
             orientation ← proxy p (id_videoOrientation i) RtpParameters.VIDEO_ORIENTATION;
             offset ← proxy p (id_toffset i) RtpParameters.TOFFSET;
             mret ([blank RtpParameters.ABS_SEND_TIME 3; blank RtpParameters.TRANSPORT_WIDE_CC_01 2] ++
                   marking07 ++ marking ++ orientation ++ offset)
         | ALL => mret []
         end;
  mret (blank RtpParameters.MID RtpPacket.MidMaxLength :: capture ++ rest).

(** The ids of the extensions, after the router. *)
Definition router_ids : RtpPacket.Ids :=
  {| RtpPacket.midExtensionId := type_code RtpParameters.MID; RtpPacket.ridExtensionId := 0; RtpPacket.rridExtensionId := 0;
     RtpPacket.absSendTimeExtensionId := type_code RtpParameters.ABS_SEND_TIME;
     RtpPacket.transportWideCc01ExtensionId := type_code RtpParameters.TRANSPORT_WIDE_CC_01;
     RtpPacket.frameMarking07ExtensionId := type_code RtpParameters.FRAME_MARKING_07;
     RtpPacket.frameMarkingExtensionId := type_code RtpParameters.FRAME_MARKING;
     RtpPacket.ssrcAudioLevelExtensionId := type_code RtpParameters.SSRC_AUDIO_LEVEL;
     RtpPacket.videoOrientationExtensionId := type_code RtpParameters.VIDEO_ORIENTATION |}.

(** [None]: the payload type is unknown. *)
Definition MangleRtpPacket (p : RtpPacket.t) (a : Z) : P (option RtpPacket.t) :=
  s ← asks self;
  payloadType ← from_res (RtpPacket.GetPayloadType p);
  match map_codecs (rtpMapping (config s)) !! payloadType with
  | None => mret None
  | Some mappedPayloadType =>
      p ← from_res (RtpPacket.SetPayloadType p mappedPayloadType);
      mapped ← at_key (mapRtpStreamMappedSsrc (maps s)) a;
      p ← from_res (RtpPacket.SetSsrc p mapped);
      extensions ← from_res (mangled_extensions (config s) p);
      p ← from_res (RtpPacket.SetExtensions p 1 extensions);
      mret (Some (RtpPacket.set_ids p router_ids))
  end.

Definition PostProcessRtpPacket (p : RtpPacket.t) : P unit :=
  s ← asks self;
  match kind (config s) with
  | VIDEO =>
      o ← from_res (RtpPacket.ReadVideoOrientation p);
      match o with
      | None => mret tt
      | Some (camera, flip, rotation) =>
          only (negb (bool_decide (videoOrientation s = Some (camera, flip, rotation))))
            (_ ← modify (fun s => set_orientation s (Some (camera, flip, rotation)));
             emit (EmittedVideoOrientation camera flip rotation))
      end
  | _ => mret tt
  end.

(** ** Receiving *)

Inductive ReceiveRtpPacketResult := DISCARDED | MEDIA | RETRANSMISSION.

(** The stream at [a] receives the packet: [None] if the packet is dropped there. *)
Definition receive (a : Z) (f : RtpStreamRecv.State -> res RtpStreamRecv.received)
    : P (option (RtpPacket.t * option Tools.Descriptor) * RtpPacket.t) :=
  r ← on_stream a (fun s => r ← f s; mret (r, RtpStreamRecv.stream r));
  _ ← for_each (stream_event a) (RtpStreamRecv.events r);
  mret (if RtpStreamRecv.valid r then Some (RtpStreamRecv.rtp r, RtpStreamRecv.descriptor r) else None, RtpStreamRecv.rtp r).

(** What follows the reception by the stream: [fresh] tells whether the stream is new. *)
Definition pass_on (a : Z) (fresh isRtx : bool) (p : RtpPacket.t) (d : option Tools.Descriptor) (asked : list Z) (nowMs : Z)
    : P (bool * RtpPacket.t) :=
  ssrc ← from_res (RtpPacket.GetSsrc p);
  let key := Tools.IsKeyFrame d in
  _ ← only key (on_manager (fun k => k ← KeyFrameRequestManager.KeyFrameReceived k ssrc; mret (k, [])));
  s ← asks self;
  _ ← only fresh
        (_ ← only (negb (paused s) && negb key) (on_manager (fun k => KeyFrameRequestManager.ForceKeyFrameNeeded k nowMs ssrc));
         _ ← modify (fun s => set_current s (Some (p, d)));
         _ ← NotifyNewRtpStream a asked nowMs;
         modify (fun s => set_current s None));
  if paused s then mret (true, p)
  else
    _ ← EmitTraceEventRtpAndKeyFrameTypes key isRtx;
    o ← MangleRtpPacket p a;
    match o with
    | None => mret (false, p)
    | Some p =>
        _ ← PostProcessRtpPacket p;
        _ ← emit (OnProducerRtpPacketReceived p d);
        mret (true, p)
    end.

(** The result, and the packet as it was changed. *)
Definition ReceiveRtpPacket (packet : RtpPacket.t) (asked : list Z) (nowMs : Z) : P (ReceiveRtpPacketResult * RtpPacket.t) :=
  _ ← modify (fun s => set_current s None);
  before ← asks (fun w => size (mapSsrcRtpStream (maps (self w))));
  o ← GetRtpStream packet nowMs;
  match o with
  | None => mret (DISCARDED, packet)
  | Some a =>
      c ← asks (fun w => config (self w));
      let packet := PreProcessRtpPacket c packet in
      ssrc ← from_res (RtpPacket.GetSsrc packet);
      s ← read_stream a;
      after ← asks (fun w => size (mapSsrcRtpStream (maps (self w))));
      let fresh := (before <? after)%nat in
      if ssrc =? GetSsrc s then
        '(o, packet) ← receive a (fun s => RtpStreamRecv.ReceivePacket s packet nowMs);
        match o with
        | None => _ ← only fresh (NotifyNewRtpStream a asked nowMs); mret (MEDIA, packet)
        | Some (packet, d) => '(ok, packet) ← pass_on a fresh false packet d asked nowMs; mret (if ok : bool then MEDIA else DISCARDED, packet)
        end
      else if ssrc =? GetRtxSsrc s then
        '(o, packet) ← receive a (fun s => RtpStreamRecv.ReceiveRtxPacket s packet nowMs);
        match o with
        | None => mret (RETRANSMISSION, packet)
        | Some (packet, d) => '(ok, packet) ← pass_on a fresh true packet d asked nowMs; mret (if ok : bool then RETRANSMISSION else DISCARDED, packet)
        end
      else from_res (Fault AssertFailed)
  end.

(** [PRODUCER_SEND]: the data are copied into the static buffer, which keeps [old] behind them. *)
Definition HandleNotification (data old : list Z) : P unit :=
  let len := zlen data in
  _ ← emit (OnProducerReceiveData len);
  if RtpPacket.MtuSize + 100 <? len then mret tt
  else
    let buffer := data ++ drop (length data) (take (Z.to_nat (RtpPacket.MtuSize + 100)) old) in
    o ← from_res (RtpPacket.Parse buffer len);
    match o with
    | None => mret tt
    | Some packet => emit (OnProducerReceiveRtpPacket packet)
    end.

(** ** RTCP *)

Definition ReceiveRtcpSenderReport (pow4 : spec_float -> spec_float) (report : list Z) (nowMs : Z) : P unit :=
  ssrc ← from_res (SenderReport.GetSsrc report);
  m ← asks (fun w => maps (self w));
  match mapSsrcRtpStream m !! ssrc with
  | Some a =>
      s ← read_stream a;
      let first := Sender.GetSenderReportNtpMs s =? 0 in
      _ ← call_stream a (fun s => RtpStreamRecv.ReceiveRtcpSenderReport pow4 s report nowMs);
      emit (OnProducerRtcpSenderReport a first)
  | None =>
      match mapRtxSsrcRtpStream m !! ssrc with
      | Some a => on_stream a (fun s => s ← RtpStreamRecv.ReceiveRtxRtcpSenderReport s report nowMs; mret (tt, s))
      | None => mret tt
      end
  end.

Definition ReceiveRtcpXrDelaySinceLastRr (ssrcInfo : list Z) (nowMs : Z) : P unit :=
  ssrc ← from_res (DelaySinceLastRr.GetSsrc ssrcInfo);
  m ← asks (fun w => maps (self w));
  match mapSsrcRtpStream m !! ssrc with
  | None => mret tt
  | Some a => on_stream a (fun s => s ← RtpStreamRecv.ReceiveRtcpXrDelaySinceLastRr s ssrcInfo nowMs; mret (tt, s))
  end.

(** The reports of the streams and of their RTX streams.  [worst] is the answer of the
    listener to [OnProducerNeedWorstRemoteFractionLost]. *)
Fixpoint receiver_reports (l : list Z) (worst : Z -> Z) (nowMs : Z) : P (list (list Z)) :=
  match l with
  | [] => mret []
  | a :: l' =>
      s ← read_stream a;
      m ← asks (fun w => maps (self w));
      w ← (if RtpStream.useInBandFec (params_of s) then v ← at_key (mapRtpStreamMappedSsrc m) a; mret (worst v) else mret 0);
      report ← on_stream a (fun s => RtpStreamRecv.GetRtcpReceiverReport s w nowMs);
      rtxReport ← on_stream a (fun s => RtpStreamRecv.GetRtxRtcpReceiverReport s nowMs);
      rest ← receiver_reports l' worst nowMs;
      mret (report :: option_list rtxReport ++ rest)
  end.

Definition HasReceiverReferenceTime (packet : CompoundPacket.t) : bool :=
  existsb (fun x => match x.2 with ExtendedReportBlock.RRT _ => true | _ => false end) (CompoundPacket.xrPacket packet).

(** The report with the time of the clock. *)
Definition reference_time (nowMs : Z) : res ReceiverReferenceTime.t :=
  let ntp := Time.TimeMs2Ntp nowMs in
  r ← ReceiverReferenceTime.SetNtpSec {| ReceiverReferenceTime.body := replicate 8 0 |} (Time.seconds ntp);
  ReceiverReferenceTime.SetNtpFrac r (Time.fractions ntp).

(** [(float)((nowMs - lastRtcpSentTime) * 1.15) < maxRtcpInterval] *)
Definition too_early (s : State) (nowMs : Z) : bool :=
  SFltb (Sender.f32_of_f64 (SFmul 53 1024 (Time.b64_of_Z (u64 (nowMs - lastRtcpSentTime s))) Sender.f64_1_15))
    (f32_of_Z (maxRtcpInterval (config s))).

(** The reports are new objects, at the addresses from [addr]. *)
Definition GetRtcp (packet : CompoundPacket.t) (worst : Z -> Z) (addr nowMs : Z) : P (bool * CompoundPacket.t) :=
  s ← asks self;
  if too_early s nowMs then mret (true, packet)
  else
    l ← receiver_reports (map_to_list (mapSsrcRtpStream (maps s))).*2 worst nowMs;
    rrt ← from_res (if HasReceiverReferenceTime packet then mret None else r ← reference_time nowMs; mret (Some (addr, r)));
    '(ok, packet) ← from_res (CompoundPacket.Add_producer packet (imap (fun i r => (addr + Z.of_nat i, r)) l) rrt);
    if negb ok then mret (false, packet)
    else
      _ ← modify (fun s => set_rtcp s nowMs);
      mret (true, packet).

(** ** Requests *)

Inductive Request :=
| PauseRequest
| ResumeRequest
| EnableTraceEvent (types : option (list (option TraceName)))
| UnknownRequest.

Inductive Answer := Accepted | RejectedType | RejectedUnknown.

Definition HandleRequest (r : Request) (nowMs : Z) : P Answer :=
  s ← asks self;
  let streams := map_to_list (mapSsrcRtpStream (maps s)) in
  match r with
  | PauseRequest =>
      if paused s then mret Accepted
      else
        _ ← for_each (fun a => on_stream a (fun s => s ← RtpStreamRecv.Pause s; mret (tt, s))) streams.*2;
        _ ← modify (fun s => set_paused s true);
        _ ← emit OnProducerPaused;
        mret Accepted
  | ResumeRequest =>
      if negb (paused s) then mret Accepted
      else
        _ ← for_each (fun a => on_stream a (fun s => mret (tt, RtpStreamRecv.Resume s nowMs))) streams.*2;
        _ ← modify (fun s => set_paused s false);
        _ ← emit OnProducerResumed;
        _ ← for_each (fun ssrc => on_manager (fun k => KeyFrameRequestManager.ForceKeyFrameNeeded k nowMs ssrc)) streams.*1;
        mret Accepted
  | EnableTraceEvent None => mret RejectedType
  | EnableTraceEvent (Some l) =>
      match trace_types l no_trace with
      | None => mret RejectedType
      | Some t => _ ← modify (fun s => set_traces s t); mret Accepted
      end
  | UnknownRequest => mret RejectedUnknown
  end.

End Producer.
