(* ===== verification/ProducerSpec.v ===== *)
(** * Producers over all histories

    A producer keeps at most one stream for each encoding, finds the stream of a packet by the
    SSRC of the stream or of its RTX stream, and never reaches the [MS_ABORT] for a stream that
    does not match, as long as no packet has the SSRC 0. *)

From Stdlib Require Import SpecFloat.
From stdpp Require Import gmap.
From S2P Require Import Prelude StateMonad Utils Float RateCalculator NackGenerator RtcpPacket RtcpReports RtcpFeedback RtcpXr Rtcp RtpPacket.
From S2P Require Import KeyFrameRequestManager Codecs RtpParameters RtpStream RtpStreamRecv RtpListener Consumer ConsumerSpec Producer.

(** ** The parameters of a receiving stream *)

Module RecvStream.

Import RtpStreamRecv.

(** The parameters, and whether there is an RTX stream. *)
Abbreviation recv_params s := (RtpStream.params (base s), RtpStream.HasRtx (base s)).

Lemma RequestKeyFrame_params s : recv_params (RequestKeyFrame s).1 = recv_params s.
Proof. unfold RequestKeyFrame. by repeat case_match. Qed.

Lemma NackRequired_params s l r : OnNackGeneratorNackRequired s l = Ok r -> recv_params r.1 = recv_params s.
Proof. unfold OnNackGeneratorNackRequired. intros H. do 3 ok_step H. case_match; by injection H as <-. Qed.

Lemma notified_params ns : forall s r, notified s ns = Ok r -> recv_params r.1 = recv_params s.
Proof.
  induction ns as [|n ns IH]; intros s r H; cbn [notified] in H; [by injection H as <-|]. ok_step H. destruct v as [s1 e].
  ok_step H. destruct v as [s2 e']. injection H as <-. apply IH in E0. cbn in *. rewrite E0. destruct n; [exact (NackRequired_params _ _ _ E)|].
  pose proof (RequestKeyFrame_params s) as Hs. destruct (RequestKeyFrame s). by injection E as <- <-.
Qed.

Lemma pass_to_nack_params s seq nowMs key recovered r : pass_to_nack s seq nowMs key recovered = Ok r -> recv_params r.1.2 = recv_params s.
Proof.
  unfold pass_to_nack. intros H. ok_step H. ok_step H. destruct v0 as [[found g] ns]. ok_step H. destruct v0 as [s1 e].
  injection H as <-. exact (notified_params _ _ _ E1).
Qed.

Lemma CalculateJitter_params s ts nowMs r : CalculateJitter s ts nowMs = Ok r -> recv_params r = recv_params s.
Proof. unfold CalculateJitter. intros H. repeat case_match; try discriminate H; by injection H as <-. Qed.

Lemma count_transmission_params s d p nowMs r : count_transmission s d p nowMs = Ok r -> recv_params r = recv_params s.
Proof. unfold count_transmission. intros H. ok_step H. by injection H as <-. Qed.

Lemma active_again_params s nowMs : recv_params (active_again s nowMs).1 = recv_params s.
Proof. unfold active_again. destruct (inactive _); [|done]. by destruct (RtpStream.ResetScore _ _ _ _). Qed.

Lemma ReceivePacket_recv s p nowMs r : ReceivePacket s p nowMs = Ok r -> recv_params (stream r) = recv_params s.
Proof.
  unfold ReceivePacket. intros H. do 2 ok_step H. destruct (SeqTracker.ReceiveStreamPacket _ _ _ _) as [o tr].
  destruct o; [| |by injection H as <-]; set (s0 := set_base s _) in H; change (recv_params s) with (recv_params s0); clearbody s0;
    (ok_step H; destruct v1 as [d packet]; ok_step H; destruct v1 as [s1 e1]; do 3 ok_step H;
     pose proof (active_again_params (set_transmission v2 (transmissionCounter v2) v3) nowMs) as Ha; destruct (active_again _ _) as [s5 e2];
     injection H as <-; cbn in *; rewrite Ha, (count_transmission_params _ _ _ _ _ E4), (CalculateJitter_params _ _ _ _ E3);
     destruct (RtpStream.useNack _); [|by injection E2 as <- <-]; ok_step E2; destruct v4 as [[found s2] e];
     pose proof (pass_to_nack_params _ _ _ _ _ _ E6) as Hn; cbn in Hn; rewrite <- Hn; case_match; by injection E2 as <- <-).
Qed.

Lemma receive_rtx_params s seq ts nowMs : recv_params (receive_rtx s seq ts nowMs).2 = recv_params s.
Proof.
  unfold receive_rtx, RtpStream.HasRtx. destruct (RtpStream.rtxStream (base s)) eqn:E; [|cbn; by rewrite E].
  by destruct (RtxStream.ReceivePacket _ _ _ _).
Qed.

Lemma ReceiveRtxPacket_recv s p nowMs r : ReceiveRtxPacket s p nowMs = Ok r -> recv_params (stream r) = recv_params s.
Proof.
  unfold ReceiveRtxPacket. intros H. case_match; [by injection H as <-|]. do 3 ok_step H. case_match; [by injection H as <-|].
  do 2 ok_step H. pose proof (receive_rtx_params s v2 v3 nowMs) as Hx. destruct (receive_rtx _ _ _ _) as [ok s1]. cbn in Hx. rewrite <- Hx.
  clear Hx. case_match; [by injection H as <-|]. ok_step H. destruct v4 as [decoded packet]. case_match; [by injection H as <-|].
  do 2 ok_step H. destruct (SeqTracker.UpdateSeq _ _ _ _) as [o tr].
  destruct o; [| |by injection H as <-]; set (s2 := set_base s1 _) in H; change (recv_params s1) with (recv_params s2); clearbody s2;
    (ok_step H; destruct v6 as [d q]; ok_step H; destruct v6 as [[found s3] e1];
     etransitivity; [|exact (pass_to_nack_params _ _ _ _ _ _ E8)]; cbn [fst snd]; case_match; [by injection H as <-|];
     ok_step H; pose proof (active_again_params v6 nowMs) as Ha; destruct (active_again _ _) as [s5 e2]; injection H as <-; cbn [stream] in *;
     etransitivity; [exact Ha|exact (count_transmission_params _ _ _ _ _ E9)]).
Qed.

Lemma GetRtcpReceiverReport_params s worst nowMs r : GetRtcpReceiverReport s worst nowMs = Ok r -> recv_params r.2 = recv_params s.
Proof. unfold GetRtcpReceiverReport. intros H. ok_step H. ok_step H. destruct (_ <=? _); do 5 ok_step H; by injection H as <-. Qed.

Lemma GetRtxRtcpReceiverReport_params s nowMs r : GetRtxRtcpReceiverReport s nowMs = Ok r -> recv_params r.2 = recv_params s.
Proof.
  unfold GetRtxRtcpReceiverReport, RtpStream.HasRtx. intros H. destruct (RtpStream.rtxStream (base s)) eqn:E; [|injection H as <-; cbn; by rewrite E].
  ok_step H. destruct v as [report x]. by injection H as <-.
Qed.

Lemma UpdateScore_params pow4 s nowMs r : UpdateScore pow4 s nowMs = Ok r -> recv_params r.1 = recv_params s.
Proof.
  unfold UpdateScore. intros H. destruct (inactive _); [by injection H as <-|]. ok_step H. ok_step H. destruct v0 as [sc e]. by injection H as <-.
Qed.

Lemma ReceiveRtcpSenderReport_params pow4 s report nowMs r :
  ReceiveRtcpSenderReport pow4 s report nowMs = Ok r -> recv_params r.1 = recv_params s.
Proof. unfold ReceiveRtcpSenderReport. intros H. do 3 ok_step H. exact (UpdateScore_params _ _ _ _ H). Qed.

Lemma ReceiveRtxRtcpSenderReport_params s report nowMs r :
  ReceiveRtxRtcpSenderReport s report nowMs = Ok r -> recv_params r = recv_params s.
Proof.
  unfold ReceiveRtxRtcpSenderReport, RtpStream.HasRtx. intros H. destruct (RtpStream.rtxStream (base s)) eqn:E; [|injection H as <-; cbn; by rewrite E].
  ok_step H. by injection H as <-.
Qed.

Lemma ReceiveRtcpXrDelay_params s info nowMs r : ReceiveRtcpXrDelaySinceLastRr s info nowMs = Ok r -> recv_params r = recv_params s.
Proof.
  unfold ReceiveRtcpXrDelaySinceLastRr. intros H. do 2 ok_step H. case_match; [|by injection H as <-]. do 2 ok_step H. by injection H as <-.
Qed.

Lemma Pause_params s r : Pause s = Ok r -> recv_params r = recv_params s.
Proof. unfold Pause. intros H. ok_step H. injection H as <-. case_match; [ok_step E|]; by injection E as <-. Qed.

Lemma Resume_params s nowMs : recv_params (Resume s nowMs) = recv_params s.
Proof. unfold Resume. by case_match. Qed.

Lemma OnTimer_params s nowMs : recv_params (OnTimer s nowMs).1 = recv_params s.
Proof. unfold OnTimer. by destruct (RtpStream.ResetScore _ _ _ _). Qed.

Lemma OnNackTimer_params s nowMs r : OnNackTimer s nowMs = Ok r -> recv_params r.1 = recv_params s.
Proof. unfold OnNackTimer. intros H. ok_step H. destruct (NackGenerator.OnTimer _ _) as [g ns]. exact (notified_params _ _ _ H). Qed.

End RecvStream.

Module ProducerSpec.

Import Producer RecvStream.

(** ** The invariant *)

Definition encodings (s : State) : list RtpParameters.Encoding := RtpParameters.encodings (rtpParameters (config s)).

(** The stream at [a] is that of the SSRC, and of one encoding. *)
Record owns (w : World) (ssrc a : Z) (r : RtpStreamRecv.State) (e : RtpParameters.Encoding) : Prop := {
  own_stream : streams w !! a = Some r;
  own_ssrc : GetSsrc r = ssrc;
  own_idx : 0 <= GetEncodingIdx r;
  own_encoding : encodings (self w) !! Z.to_nat (GetEncodingIdx r) = Some e;
  own_rid : GetRid r = RtpParameters.rid e;
  own_slot : rtpStreamByEncodingIdx (maps (self w)) !! Z.to_nat (GetEncodingIdx r) = Some (Some a);
  own_mapped : is_Some (mapRtpStreamMappedSsrc (maps (self w)) !! a);
  own_declared : RtpParameters.ssrc e <> 0 -> ssrc = RtpParameters.ssrc e;
}.

(** The parameters that a producer is safe with: their codecs are known, and an encoding with
    an SSRC has no RID. *)
Definition usable (p : RtpParameters.t) (e : RtpParameters.Encoding) : Prop :=
  (exists c o, RtpParameters.GetCodecForEncoding p e = Ok c /\ RtpParameters.GetRtxCodecForEncoding p e = Ok o) /\
  (RtpParameters.ssrc e <> 0 -> RtpParameters.rid e = []).

Record Inv (w : World) : Prop := {
  inv_streams : forall ssrc a, mapSsrcRtpStream (maps (self w)) !! ssrc = Some a -> exists r e, owns w ssrc a r e;
  inv_rtx : forall ssrc a, mapRtxSsrcRtpStream (maps (self w)) !! ssrc = Some a ->
    exists r, streams w !! a = Some r /\ GetRtxSsrc r = ssrc /\ HasRtx r = true /\ mapSsrcRtpStream (maps (self w)) !! GetSsrc r = Some a;
  inv_slots : forall i a, rtpStreamByEncodingIdx (maps (self w)) !! i = Some (Some a) ->
    exists r, streams w !! a = Some r /\ GetEncodingIdx r = Z.of_nat i /\ mapSsrcRtpStream (maps (self w)) !! GetSsrc r = Some a;
  inv_sizes : length (rtpStreamByEncodingIdx (maps (self w))) = length (encodings (self w)) /\
    length (rtpStreamScores (maps (self w))) = length (encodings (self w)) /\
    length (map_encodings (rtpMapping (config (self w)))) = length (encodings (self w));
  inv_next : forall a r, streams w !! a = Some r -> a < next w;
  inv_usable : Forall (usable (rtpParameters (config (self w)))) (encodings (self w));
}.

(** The invariant looks at the parameters of the streams only, and not at the scores. *)
Definition same_maps (m m' : Maps) : Prop :=
  mapSsrcRtpStream m' = mapSsrcRtpStream m /\ rtpStreamByEncodingIdx m' = rtpStreamByEncodingIdx m /\
  length (rtpStreamScores m') = length (rtpStreamScores m) /\ mapRtxSsrcRtpStream m' = mapRtxSsrcRtpStream m /\
  mapRtpStreamMappedSsrc m' = mapRtpStreamMappedSsrc m.

Definition same_streams (w w' : World) : Prop :=
  config (self w') = config (self w) /\ same_maps (maps (self w)) (maps (self w')) /\ next w <= next w' /\
  (forall a r, streams w !! a = Some r -> exists r', streams w' !! a = Some r' /\ recv_params r' = recv_params r) /\
  (forall a r, streams w' !! a = Some r -> a < next w').

Lemma key_reads r r' : recv_params r' = recv_params r ->
  GetSsrc r' = GetSsrc r /\ GetRtxSsrc r' = GetRtxSsrc r /\ GetEncodingIdx r' = GetEncodingIdx r /\ GetRid r' = GetRid r /\ HasRtx r' = HasRtx r.
Proof. intros [= E1 E2]. unfold GetSsrc, GetRtxSsrc, GetEncodingIdx, GetRid, HasRtx, params_of. by rewrite E1, E2. Qed.

Lemma owns_same w w' ssrc a r e : same_streams w w' -> owns w ssrc a r e -> exists r', owns w' ssrc a r' e.
Proof.
  intros (Ec & (M1 & M2 & M3 & M4 & M5) & _ & Hs & _) []. destruct (Hs a r own_stream0) as (r' & Hr' & Ek). destruct (key_reads r r' Ek) as (E1 & E2 & E3 & E4 & E5).
  exists r'. split; unfold encodings in *; rewrite ?E1, ?E3, ?E4, ?Ec, ?M2, ?M5; done.
Qed.

Lemma Inv_same w w' : same_streams w w' -> Inv w -> Inv w'.
Proof.
  intros Hw Hi. pose proof Hw as (Ec & (M1 & M2 & M3 & M4 & M5) & _ & Hs & Hn). pose proof Hi as [].
  split; unfold encodings in *; rewrite ?Ec, ?M1, ?M2, ?M3, ?M4; try done.
  - intros ssrc a Ha. destruct (inv_streams0 ssrc a Ha) as (r & e & Ho). destruct (owns_same _ _ _ _ _ _ Hw Ho) as [r' Ho']. by exists r', e.
  - intros ssrc a Ha. destruct (inv_rtx0 ssrc a Ha) as (r & Hr & E1 & E2 & E3). destruct (Hs a r Hr) as (r' & Hr' & Ek).
    destruct (key_reads r r' Ek) as (K1 & K2 & _ & _ & K5). exists r'. by rewrite K1, K2, K5.
  - intros i a Ha. destruct (inv_slots0 i a Ha) as (r & Hr & E1 & E2). destruct (Hs a r Hr) as (r' & Hr' & Ek).
    destruct (key_reads r r' Ek) as (K1 & _ & K3 & _). exists r'. by rewrite K1, K3.
Qed.

Lemma same_streams_self w s : config s = config (self w) -> same_maps (maps (self w)) (maps s) -> (forall a r, streams w !! a = Some r -> a < next w) ->
  same_streams w (mkWorld s (streams w) (next w) (events w)).
Proof. intros Ec Em Hn. split_and!; try done; cbn. intros a r Hr. by exists r. Qed.

Abbreviation kept := (always Inv).

Lemma kept_modify f : (forall s, config (f s) = config s /\ maps (f s) = maps s) -> steady Inv (fun _ => False) (modify f).
Proof.
  intros Hf. apply steady_change. intros w Hw. destruct (Hf (self w)) as [Ec Em]. eapply Inv_same; [|exact Hw]. by apply same_streams_self; [|rewrite Em|apply inv_next].
Qed.

Lemma steady_emit E e : steady Inv E (emit e).
Proof. apply steady_change. intros w Hw. eapply Inv_same; [|exact Hw]. by apply (same_streams_self w (self w)); [..|apply inv_next]. Qed.

Lemma steady_weaken {A} E (m : P A) : steady Inv (fun _ => False) m -> steady Inv E m.
Proof. intros H w Hw. apply post_never, H, Hw. Qed.

Lemma kept_on_stream {A} a (f : RtpStreamRecv.State -> res (A * RtpStreamRecv.State)) :
  (forall r x r', f r = Ok (x, r') -> recv_params r' = recv_params r) -> kept (on_stream a f).
Proof.
  intros Hf w Hw. unfold post, on_stream. destruct (streams w !! a) as [r|] eqn:Er; [|done]. cbn [deref mbind res_bind].
  destruct (f r) as [[x r']|] eqn:Ef; [|done]. cbn [mret res_ret]. eapply Inv_same; [|exact Hw]. split_and!; try done; cbn.
  - intros b q Hq. destruct (decide (a = b)) as [<-|Hne]; [rewrite lookup_insert_eq; rewrite Er in Hq; injection Hq as <-; eauto|].
    rewrite lookup_insert_ne by done. by exists q.
  - intros b q. destruct (decide (a = b)) as [<-|Hne]; [intros _; exact (inv_next _ Hw _ _ Er)|]. rewrite lookup_insert_ne by done. apply inv_next, Hw.
Qed.

Lemma kept_read_stream a : kept (read_stream a).
Proof. intros w Hw. unfold post, read_stream. by destruct (streams w !! a). Qed.

Lemma kept_at_key m k : kept (at_key m k).
Proof. apply always_from_res. Qed.

Lemma kept_EmitScore : kept EmitScore.
Proof. unfold EmitScore. steady. apply steady_emit. Qed.

#[local] Hint Resolve steady_emit kept_read_stream kept_at_key kept_EmitScore : steady.

Lemma store_length {A} (l : list A) i v l' : store l i v = Ok l' -> length l' = length l.
Proof. unfold store. case_match; [|done]. intros [= <-]. apply length_insert. Qed.

Lemma kept_OnRtpStreamScore a score prev : kept (OnRtpStreamScore a score prev).
Proof.
  unfold OnRtpStreamScore. apply steady_bind; [apply kept_read_stream|]. intros r w Hw. apply post_bind, post_asks, post_bind, post_from_res.
  destruct (store _ _ _) as [scores|] eqn:E; [|done]. apply post_bind, post_change.
  apply (steady_bind Inv _ (emit (OnProducerRtpStreamScore a score prev)) (fun _ => EmitScore)); [apply steady_emit|steady|].
  apply store_length in E. eapply Inv_same; [|exact Hw]. apply same_streams_self; [done|by repeat split|by apply inv_next].
Qed.

Lemma kept_stream_event a e : kept (stream_event a e).
Proof.
  destruct e; cbn [stream_event]; [apply kept_OnRtpStreamScore|..|apply steady_ret];
    unfold OnRtpStreamSendRtcpPacket, trace_feedback, EmitTraceEventPliType, EmitTraceEventFirType, EmitTraceEventNackType; steady.
Qed.

Lemma kept_call_stream a f : (forall r x, f r = Ok x -> recv_params x.1 = recv_params r) -> kept (call_stream a f).
Proof.
  intros Hf. unfold call_stream. apply steady_bind; [|intros; apply steady_for_each, kept_stream_event].
  apply kept_on_stream. intros r x r' H. ok_step H. destruct v as [r1 e]. injection H as <- <-. exact (Hf _ _ E).
Qed.

Lemma kept_OnKeyFrameNeeded ssrc : kept (OnKeyFrameNeeded ssrc).
Proof.
  unfold OnKeyFrameNeeded. apply steady_bind; [apply steady_asks|]. intros m. destruct (_ !! _); [|apply steady_ret].
  apply kept_call_stream. intros r x [= <-]. apply RequestKeyFrame_params.
Qed.

Lemma kept_on_manager f : kept (on_manager f).
Proof.
  unfold on_manager. apply steady_bind; [apply steady_asks|]. intros [k|]; [|apply steady_ret]. apply steady_bind; [apply always_from_res|].
  intros [k' l]. apply steady_bind; [by apply steady_weaken, kept_modify|]. intros _. apply steady_for_each, kept_OnKeyFrameNeeded.
Qed.

#[local] Hint Resolve kept_on_manager : steady.

Lemma kept_RequestKeyFrame mapped nowMs : kept (RequestKeyFrame mapped nowMs).
Proof. unfold RequestKeyFrame. steady. Qed.

Lemma kept_Notify a asked nowMs : kept (NotifyNewRtpStream a asked nowMs).
Proof. unfold NotifyNewRtpStream. steady. Qed.

(** ** New streams *)

Lemma scored_Ok l str : (forall a, Some a ∈ l -> is_Some (str !! a)) -> exists k, scored l str = Ok k.
Proof.
  induction l as [|[a|] l IH]; intros H; cbn [scored]; [by eexists| |by apply IH; intros a Ha; apply H; right].
  destruct (H a ltac:(left)) as [r ->]. cbn [deref mbind res_bind]. destruct IH as [k ->]; [intros b Hb; apply H; by right|]. by eexists.
Qed.

Lemma producer_safe_EmitScore w : Inv w -> post EmitScore (fun _ w' => Inv w' /\ maps (self w') = maps (self w)) (fun _ => False) w.
Proof.
  intros Hw. unfold EmitScore. apply post_bind, post_asks, post_bind, post_from_res. cbn [id].
  destruct (scored_Ok (rtpStreamByEncodingIdx (maps (self w))) (streams w)) as [k ->].
  - intros a [i Hi]%list_elem_of_lookup. destruct (inv_slots w Hw i a Hi) as (r & Hr & _). by eexists.
  - split; [|done]. by apply (steady_emit (fun _ => False)).
Qed.

Lemma producer_layer_at {A} (l : list A) i x : l !! i = Some x -> TransmissionCounter.layer_at l (Z.of_nat i) = Ok x.
Proof. intros H. unfold TransmissionCounter.layer_at. rewrite Nat2Z.id, H. by destruct (Z.leb_spec 0 (Z.of_nat i)); [|lia]. Qed.

Lemma store_Ok {A} (l : list A) i (v : A) : (i < length l)%nat -> store l (Z.of_nat i) v = Ok (<[i := v]> l).
Proof.
  intros H. unfold store, zlen. rewrite Nat2Z.id. destruct (Z.leb_spec 0 (Z.of_nat i)); [|lia].
  by destruct (Z.ltb_spec (Z.of_nat i) (Z.of_nat (length l))); [|lia].
Qed.

Lemma Pause_made p delay t : exists s, RtpStreamRecv.Pause (RtpStreamRecv.make p delay t) = Ok s.
Proof. unfold RtpStreamRecv.Pause, RtpStreamRecv.make. cbn. destruct (RtpStream.useNack p); by eexists. Qed.

(** The world with a new stream for the encoding at [idx]. *)
Definition added (w : World) (ssrc : Z) (idx : nat) (r : RtpStreamRecv.State) (mapped : Z) : World :=
  let m := maps (self w) in
  mkWorld
    (set_maps (self w)
       {| mapSsrcRtpStream := <[ssrc := next w]> (mapSsrcRtpStream m);
          rtpStreamByEncodingIdx := <[idx := Some (next w)]> (rtpStreamByEncodingIdx m);
          rtpStreamScores := <[idx := GetScore r]> (rtpStreamScores m); mapRtxSsrcRtpStream := mapRtxSsrcRtpStream m;
          mapRtpStreamMappedSsrc := <[next w := mapped]> (mapRtpStreamMappedSsrc m);
          mapMappedSsrcSsrc := <[mapped := ssrc]> (mapMappedSsrcSsrc m) |})
    (<[next w := r]> (streams w)) (next w + 1) (events w).

Lemma Inv_added w ssrc idx r mapped e : Inv w -> mapSsrcRtpStream (maps (self w)) !! ssrc = None ->
  rtpStreamByEncodingIdx (maps (self w)) !! idx = Some None -> encodings (self w) !! idx = Some e ->
  GetSsrc r = ssrc -> GetEncodingIdx r = Z.of_nat idx -> GetRid r = RtpParameters.rid e ->
  (RtpParameters.ssrc e <> 0 -> ssrc = RtpParameters.ssrc e) -> Inv (added w ssrc idx r mapped).
Proof.
  intros Hw Hnone Hslot He Es Ei Er Hd. pose proof Hw as [].
  assert (Hold : forall b q, streams w !! b = Some q -> streams (added w ssrc idx r mapped) !! b = Some q).
  { intros b q Hq. cbn. rewrite lookup_insert_ne; [done|]. pose proof (inv_next0 b q Hq). lia. }
  assert (Hidx : (idx < length (rtpStreamByEncodingIdx (maps (self w))))%nat) by (apply lookup_lt_Some in Hslot; done).
  split; cbn.
  - intros k a. destruct (decide (k = ssrc)) as [->|Hne].
    + rewrite lookup_insert_eq. intros [= <-]. exists r, e. split; cbn; try done; rewrite ?Ei, ?Nat2Z.id; try done; try lia.
      * by rewrite lookup_insert_eq.
      * by rewrite list_lookup_insert_eq.
      * rewrite lookup_insert_eq. by eexists.
    + rewrite lookup_insert_ne by done. intros Ha. destruct (inv_streams0 k a Ha) as (q & f & []). exists q, f. split; try done; cbn.
      * by apply Hold.
      * rewrite list_lookup_insert_ne; [done|]. intros E. rewrite <- E in own_slot0. by rewrite Hslot in own_slot0.
      * rewrite lookup_insert_ne; [done|]. intros <-. pose proof (inv_next0 _ _ own_stream0). lia.
  - intros k a Ha. destruct (inv_rtx0 k a Ha) as (q & Hq & E1 & E2 & E3). exists q. split_and!; [by apply Hold|done..|].
    rewrite lookup_insert_ne; [done|]. intros E. by rewrite <- E, Hnone in E3.
  - intros i a. destruct (decide (i = idx)) as [->|Hne].
    + rewrite list_lookup_insert_eq by done. intros [= <-]. exists r. rewrite Es. by rewrite !lookup_insert_eq.
    + rewrite list_lookup_insert_ne by done. intros Ha. destruct (inv_slots0 i a Ha) as (q & Hq & E1 & E2). exists q. split_and!; [by apply Hold|done|].
      rewrite lookup_insert_ne; [done|]. intros E. by rewrite <- E, Hnone in E2.
  - by rewrite !length_insert.
  - intros a q. destruct (decide (a = next w)) as [->|Hne]; [intros _; lia|]. rewrite lookup_insert_ne by done.
    intros Hq. pose proof (inv_next0 a q Hq). lia.
  - done.
Qed.

Lemma safe_Create w ssrc c idx e nowMs : Inv w -> mapSsrcRtpStream (maps (self w)) !! ssrc = None ->
  rtpStreamByEncodingIdx (maps (self w)) !! idx = Some None -> encodings (self w) !! idx = Some e ->
  (RtpParameters.ssrc e <> 0 -> ssrc = RtpParameters.ssrc e) ->
  post (CreateRtpStream ssrc c (Z.of_nat idx) nowMs)
    (fun a w' => Inv w' /\ mapSsrcRtpStream (maps (self w')) !! ssrc = Some a) (fun _ => False) w.
Proof.
  intros Hw Hnone Hslot He Hd. unfold CreateRtpStream. apply post_bind, post_asks, post_bind, post_from_res. rewrite Hnone. cbn [ms_assert].
  apply post_bind, post_from_res. rewrite (producer_layer_at _ _ _ Hslot). apply post_bind, post_from_res. cbn [ms_assert].
  apply post_bind, post_from_res. rewrite (producer_layer_at (RtpParameters.encodings _) _ _ He). destruct (inv_sizes w Hw) as (S1 & S2 & S3).
  pose proof (lookup_lt_Some _ _ _ He) as Hlt. destruct (lookup_lt_is_Some_2 (map_encodings (rtpMapping (config (self w)))) idx) as [em Hem]; [lia|].
  apply post_bind, post_from_res. rewrite (producer_layer_at _ _ _ Hem). cbv zeta. set (r := RtpStreamRecv.make _ _ _).
  apply post_bind. unfold post at 1, new_stream. apply post_bind, post_from_res. unfold insert_stream. rewrite !store_Ok by lia. cbn [mbind res_bind mret res_ret].
  apply post_bind, post_change. fold (added w ssrc idx r (mappedSsrc em)).
  pose proof (Inv_added w ssrc idx r (mappedSsrc em) e Hw Hnone Hslot He eq_refl eq_refl eq_refl Hd) as H1.
  set (w1 := mkWorld _ _ _ _). change w1 with (added w ssrc idx r (mappedSsrc em)). clear w1. set (w1 := added _ _ _ _ _) in *.
  assert (Hrest : forall w2, Inv w2 -> maps (self w2) = maps (self w1) ->
    post (EmitScore ≫= (fun _ => mret (next w))) (fun a w' => Inv w' /\ mapSsrcRtpStream (maps (self w')) !! ssrc = Some a) (fun _ => False) w2).
  { intros w2 H2 Em. apply post_bind. eapply post_mono; [by apply producer_safe_EmitScore|]. intros _ w3 [H3 Em3]. apply post_ret. split; [done|].
    rewrite Em3, Em. cbn. apply lookup_insert_eq. }
  apply post_bind, post_only; intros _; [|by apply Hrest]. pose proof (Pause_made (stream_params (rtpParameters (config (self w))) e c (Z.of_nat idx) ssrc) SendNackDelay nowMs) as [r' Hr']. fold r in Hr'.
  set (f := fun s => RtpStreamRecv.Pause s ≫= (fun s => mret (tt, s))).
  assert (Hon : on_stream (next w) f w1 = Ok (tt, mkWorld (self w1) (<[next w := r']> (streams w1)) (next w1) (events w1))).
  { unfold on_stream. replace (streams w1 !! next w) with (Some r) by (symmetry; apply lookup_insert_eq). cbn [deref mbind res_bind]. unfold f. by rewrite Hr'. }
  assert (Hk : kept (on_stream (next w) f)).
  { apply kept_on_stream. intros q x q' H. unfold f in H. ok_step H. injection H as <- <-. exact (Pause_params _ _ E). }
  specialize (Hk w1 H1). unfold post in Hk |- * at 1. rewrite Hon in Hk. rewrite Hon. by apply Hrest.
Qed.

(** ** The RTX stream of a stream *)

Lemma SetRtx_reads r pt ssrc (r' := RtpStreamRecv.set_base r (RtpStream.SetRtx (RtpStreamRecv.base r) pt ssrc)) :
  GetSsrc r' = GetSsrc r /\ GetRtxSsrc r' = ssrc /\ GetEncodingIdx r' = GetEncodingIdx r /\ GetRid r' = GetRid r /\ HasRtx r' = true.
Proof. done. Qed.

Lemma safe_adopt w k a pt ssrc : Inv w -> mapSsrcRtpStream (maps (self w)) !! k = Some a ->
  post (adopt_rtx a pt ssrc)
    (fun o w' => Inv w' /\ match o with Some b => mapRtxSsrcRtpStream (maps (self w')) !! ssrc = Some b | None => True end) (fun _ => False) w.
Proof.
  intros Hw Hk. destruct (inv_streams w Hw k a Hk) as (r & e & Ho). pose proof (own_stream _ _ _ _ _ Ho) as Hr. unfold adopt_rtx.
  apply post_bind. unfold post at 1, read_stream. rewrite Hr. cbn [deref mbind res_bind]. destruct (HasRtx r) eqn:Hx; [by apply post_ret|].
  apply post_bind. unfold post at 1, on_stream. rewrite Hr. cbn [deref mbind res_bind mret res_ret]. apply post_bind, post_change, post_ret.
  set (r' := RtpStreamRecv.set_base _ _). destruct (SetRtx_reads r pt ssrc) as (K1 & K2 & K3 & K4 & K5). fold r' in K1, K2, K3, K4, K5.
  split; [|cbn; apply lookup_insert_eq]. pose proof Hw as []. split; cbn.
  - intros k' b Hb. destruct (inv_streams0 k' b Hb) as (q & f & []). destruct (decide (a = b)) as [<-|Hne].
    + rewrite Hr in own_stream0. injection own_stream0 as <-. exists r', f. split; cbn; rewrite ?K1, ?K3, ?K4; try done. apply lookup_insert_eq.
    + exists q, f. split; cbn; try done. by rewrite lookup_insert_ne.
  - intros k' b. destruct (decide (k' = ssrc)) as [->|Hne].
    + rewrite lookup_insert_eq. intros [= <-]. exists r'. rewrite lookup_insert_eq, K1, K2, K5. split_and!; try done.
      by rewrite (own_ssrc _ _ _ _ _ Ho).
    + rewrite lookup_insert_ne by done. intros Hb. destruct (inv_rtx0 k' b Hb) as (q & Hq & E1 & E2 & E3). exists q.
      rewrite lookup_insert_ne; [done|]. intros <-. congruence.
  - intros i b Hb. destruct (inv_slots0 i b Hb) as (q & Hq & E1 & E2). destruct (decide (a = b)) as [<-|Hne].
    + rewrite Hr in Hq. injection Hq as <-. exists r'. by rewrite lookup_insert_eq, K1, K3.
    + exists q. by rewrite lookup_insert_ne.
  - done.
  - intros b q. destruct (decide (a = b)) as [<-|Hne]; [intros _; by eapply inv_next0|]. rewrite lookup_insert_ne by done. apply inv_next0.
  - done.
Qed.

(** ** Finding the stream of a packet *)

(** The stream at [a] is that of the packets with this SSRC. *)
Definition matches (w : World) (ssrc a : Z) : Prop :=
  mapSsrcRtpStream (maps (self w)) !! ssrc = Some a \/ mapRtxSsrcRtpStream (maps (self w)) !! ssrc = Some a.

Definition found (ssrc : Z) (o : option Z) (w : World) : Prop := Inv w /\ match o with Some a => matches w ssrc a | None => True end.

(** No stream is known for the SSRC. *)
Definition unknown (w : World) (ssrc : Z) : Prop := mapSsrcRtpStream (maps (self w)) !! ssrc = None.

Lemma packet_kind_Ok w e pt : Inv w -> e ∈ encodings (self w) -> exists x, packet_kind (rtpParameters (config (self w))) e pt = Ok x.
Proof.
  intros Hw He. destruct (proj1 (Forall_forall _ _) (inv_usable w Hw) e He) as [(c & o & Hc & Hx) _]. unfold packet_kind. rewrite Hc, Hx. by eexists.
Qed.

(** The slot of an encoding is free if no stream of the map is that of the encoding. *)
Lemma free_slot w idx e : Inv w -> encodings (self w) !! idx = Some e ->
  (forall ssrc a r, owns w ssrc a r e -> False) -> rtpStreamByEncodingIdx (maps (self w)) !! idx = Some None.
Proof.
  intros Hw He Hno. destruct (inv_sizes w Hw) as (S1 & _). pose proof (lookup_lt_Some _ _ _ He) as Hlt.
  destruct (lookup_lt_is_Some_2 (rtpStreamByEncodingIdx (maps (self w))) idx) as [[a|] Ha]; [lia| |done].
  destruct (inv_slots w Hw idx a Ha) as (r & Hr & Ei & Hs). destruct (inv_streams w Hw _ _ Hs) as (q & f & Ho).
  pose proof (own_stream _ _ _ _ _ Ho) as Hq. rewrite Hr in Hq. injection Hq as <-. pose proof (own_encoding _ _ _ _ _ Ho) as Hf.
  rewrite Ei, Nat2Z.id, He in Hf. injection Hf as <-. by destruct (Hno _ _ _ Ho).
Qed.

Lemma safe_by_ssrc ssrc pt nowMs w : Inv w -> unknown w ssrc -> ssrc <> 0 ->
  forall l pre, encodings (self w) = pre ++ l ->
  post (by_ssrc l (Z.of_nat (length pre)) ssrc pt nowMs)
    (fun o w' => match o with Some o => found ssrc o w' | None => w' = w end) (fun _ => False) w.
Proof.
  intros Hw Hu Hz. induction l as [|e l IH]; intros pre Hpre; cbn [by_ssrc]; [by apply post_ret|].
  assert (He : encodings (self w) !! length pre = Some e) by (rewrite Hpre; by rewrite list_lookup_middle).
  apply post_bind, post_asks, post_bind, post_from_res. destruct (packet_kind_Ok w e pt Hw ltac:(by eapply list_elem_of_lookup_2)) as [[[c media] rtx] ->].
  destruct (media && _) eqn:E1; [|destruct (rtx && _) eqn:E2].
  - apply andb_true_iff in E1 as [_ E1%Z.eqb_eq]. apply post_bind. eapply post_mono; [apply (safe_Create w ssrc c (length pre) e); try done|].
    + apply (free_slot w _ e); [done..|]. intros s a r Ho. pose proof (own_declared _ _ _ _ _ Ho ltac:(by rewrite E1)) as Es.
      rewrite E1 in Es. subst s. destruct Ho. destruct (inv_slots w Hw _ _ own_slot0) as (q & Hq & _ & Hs).
      rewrite own_stream0 in Hq. injection Hq as <-. unfold unknown in Hu. congruence.
    + intros a w' [Hw' Ha]. apply post_ret. split; [done|by left].
  - destruct (mapSsrcRtpStream (maps (self w)) !! RtpParameters.ssrc e) as [a|] eqn:Ea; [|by apply post_ret].
    apply post_bind. eapply post_mono; [by eapply safe_adopt|]. intros [b|] w' [Hw' Hb]; apply post_ret; split; try done. by right.
  - specialize (IH (pre ++ [e])). rewrite length_app in IH. cbn [length] in IH.
    replace (Z.of_nat (length pre) + 1) with (Z.of_nat (length pre + 1)) by lia. apply IH. by rewrite <- app_assoc.
Qed.

Lemma find_rid_Ok w rid l : Inv w -> (forall k a, (k, a) ∈ l -> mapSsrcRtpStream (maps (self w)) !! k = Some a) ->
  exists o, find_rid l rid (streams w) = Ok o /\
    match o with
    | Some a => exists k, mapSsrcRtpStream (maps (self w)) !! k = Some a
    | None => forall k a r, (k, a) ∈ l -> streams w !! a = Some r -> GetRid r <> rid
    end.
Proof.
  intros Hw. induction l as [|[k a] l IH]; intros Hl; cbn [find_rid].
  { exists None. split; [done|]. intros k a r []%not_elem_of_nil. }
  pose proof (Hl k a ltac:(left)) as Hk. destruct (inv_streams w Hw k a Hk) as (r & e & Ho). rewrite (own_stream _ _ _ _ _ Ho). cbn [deref mbind res_bind].
  case_bool_decide as Hr; [by exists (Some a); split; [|exists k]|]. destruct IH as (o & -> & Ho'); [intros k' a' H; apply Hl; by right|].
  exists o. split; [done|]. destruct o as [b|]; [done|]. intros k' a' q [[= -> ->]|Hin]%elem_of_cons Hq; [|by eapply Ho'].
  rewrite (own_stream _ _ _ _ _ Ho) in Hq. by injection Hq as <-.
Qed.

Lemma map_streams w k a : (k, a) ∈ map_to_list (mapSsrcRtpStream (maps (self w))) <-> mapSsrcRtpStream (maps (self w)) !! k = Some a.
Proof. apply elem_of_map_to_list. Qed.

Lemma safe_by_rid rid ssrc pt nowMs w : Inv w -> unknown w ssrc -> rid <> [] ->
  forall l pre, encodings (self w) = pre ++ l ->
  post (by_rid l (Z.of_nat (length pre)) rid ssrc pt nowMs) (found ssrc) (fun _ => False) w.
Proof.
  intros Hw Hu Hz. induction l as [|e l IH]; intros pre Hpre; cbn [by_rid]; [by apply post_ret|].
  assert (He : encodings (self w) !! length pre = Some e) by (rewrite Hpre; by rewrite list_lookup_middle).
  assert (Hin : e ∈ encodings (self w)) by (by eapply list_elem_of_lookup_2).
  assert (Hnext : post (by_rid l (Z.of_nat (length pre) + 1) rid ssrc pt nowMs) (found ssrc) (fun _ => False) w).
  { specialize (IH (pre ++ [e])). rewrite length_app in IH. cbn [length] in IH.
    replace (Z.of_nat (length pre) + 1) with (Z.of_nat (length pre + 1)) by lia. apply IH. by rewrite <- app_assoc. }
  case_bool_decide as Hr; cbn [negb]; [|done]. apply post_bind, post_asks, post_bind, post_from_res. cbn [id].
  destruct (packet_kind_Ok w e pt Hw Hin) as [[[c media] rtx] ->].
  destruct (find_rid_Ok w rid (map_to_list (mapSsrcRtpStream (maps (self w)))) Hw) as (o & Ho & Hfind); [intros k a; apply map_streams|].
  destruct media; [|destruct rtx; [|done]]; apply post_bind, post_from_res; rewrite Ho.
  - destruct o as [a|]; [by apply post_ret|]. apply post_bind. eapply post_mono; [apply (safe_Create w ssrc c (length pre) e); try done|].
    + apply (free_slot w _ e); [done..|]. intros s a r Hown. destruct Hown. destruct (inv_slots w Hw _ _ own_slot0) as (q & Hq & _ & Hs).
      eapply (Hfind (GetSsrc q) a r); [by apply map_streams|done|]. by rewrite own_rid0.
    + intros Hs. destruct (proj1 (Forall_forall _ _) (inv_usable w Hw) e Hin) as [_ Hsep]. rewrite (Hsep Hs) in Hr. by subst rid.
    + intros a w' [Hw' Ha]. apply post_ret. split; [done|by left].
  - destruct o as [a|]; [|by apply post_ret]. destruct Hfind as [k Hk]. eapply post_mono; [by eapply safe_adopt|].
    intros [b|] w' [Hw' Hb]; split; try done. by right.
Qed.

Lemma safe_by_single ssrc pt nowMs w : Inv w -> unknown w ssrc -> post (by_single ssrc pt nowMs) (found ssrc) (fun _ => False) w.
Proof.
  intros Hw Hu. unfold by_single. apply post_bind, post_asks. fold (encodings (self w)).
  destruct (encodings (self w)) as [|e [|]] eqn:He; [by apply post_ret| |by apply post_ret].
  destruct (_ && _) eqn:E; [|by apply post_ret]. apply andb_true_iff in E as [Es%Z.eqb_eq _]. apply post_bind, post_from_res.
  destruct (packet_kind_Ok w e pt Hw) as [[[c media] rtx] ->]; [rewrite He; by left|]. destruct media; [|destruct rtx; [|by apply post_ret]].
  - case_bool_decide as Hm; cbn [negb]; [|by apply post_ret]. apply post_bind.
    eapply post_mono; [apply (safe_Create w ssrc c 0%nat e); try done; try (by rewrite He)|].
    + apply (free_slot w _ e); [done|by rewrite He|]. intros s a r Ho. destruct Ho. destruct (inv_slots w Hw _ _ own_slot0) as (q & Hq & _ & Hs).
      by rewrite Hm, lookup_empty in Hs.
    + intros a w' [Hw' Ha]. apply post_ret. split; [done|by left].
  - destruct (map_to_list _) as [|[k a] l] eqn:El; [by apply post_ret|]. eapply post_mono; [eapply (safe_adopt w k); [done|]|].
    + apply map_streams. rewrite El. by left.
    + intros [b|] w' [Hw' Hb]; split; try done. by right.
Qed.

Lemma extension_value_positive p id v : RtpPacket.extension_value p id (fun len => 0 <? len) = Ok (Some v) -> v <> [].
Proof.
  unfold RtpPacket.extension_value. intros H. ok_step H. destruct v0 as [[o|] len]; [|done]. destruct (Z.ltb_spec 0 len); [|done].
  ok_step H. injection H as ->. unfold bytes_at in E0. destruct (_ && _ && _) eqn:Eb; [|done]. injection E0 as <-. apply andb_true_iff in Eb as [Eb Hl%Z.leb_le].
  intros Hn. apply (f_equal length) in Hn. rewrite length_take, length_drop in Hn. unfold zlen in Hl. cbn in Hn. lia.
Qed.

Lemma ReadRid_positive p v : RtpPacket.ReadRid p = Ok (Some v) -> v <> [].
Proof.
  unfold RtpPacket.ReadRid. intros H. ok_step H. destruct v0 as [x|]; [injection H as ->; by eapply extension_value_positive|].
  by eapply extension_value_positive.
Qed.

Lemma safe_GetRtpStream packet ssrc pt nowMs w : Inv w ->
  RtpPacket.GetSsrc packet = Ok ssrc -> RtpPacket.GetPayloadType packet = Ok pt -> ssrc <> 0 ->
  post (GetRtpStream packet nowMs) (found ssrc) (fun e => RtpPacket.ReadRid packet = Fault e) w.
Proof.
  intros Hw H1 H2 Hz. unfold GetRtpStream. apply post_bind, post_from_res. rewrite H1. apply post_bind, post_from_res. rewrite H2.
  apply post_bind, post_asks. destruct (mapSsrcRtpStream (maps (self w)) !! ssrc) as [a|] eqn:Ea; [apply post_ret; split; [done|by left]|].
  destruct (mapRtxSsrcRtpStream (maps (self w)) !! ssrc) as [a|] eqn:Ex; [apply post_ret; split; [done|by right]|].
  apply post_bind, post_never. eapply post_mono; [exact (safe_by_ssrc ssrc pt nowMs w Hw Ea Hz (encodings (self w)) [] eq_refl)|].
  intros [r|] w'; [by apply post_ret|]. intros ->. apply post_bind, post_from_res. destruct (RtpPacket.ReadRid packet) as [[rid|]|] eqn:H3; [| |done].
  - exact (post_never _ _ _ _ (safe_by_rid rid ssrc pt nowMs w Hw Ea (ReadRid_positive _ _ H3) (encodings (self w)) [] eq_refl)).
  - by apply post_never, safe_by_single.
Qed.

Lemma kept_GetRtpStream packet nowMs : RtpPacket.GetSsrc packet <> Ok 0 -> kept (GetRtpStream packet nowMs).
Proof.
  intros Hz w Hw. destruct (RtpPacket.GetSsrc packet) as [ssrc|] eqn:H1, (RtpPacket.GetPayloadType packet) as [pt|] eqn:H2;
    try (unfold post, GetRtpStream, from_res, mbind, St_bind; by rewrite ?H1, ?H2).
  pose proof (safe_GetRtpStream packet ssrc pt nowMs w Hw H1 H2 ltac:(congruence)) as H. unfold post in *.
  destruct (GetRtpStream packet nowMs w) as [[o w']|]; [|done]. by destruct H.
Qed.

(** ** The other operations *)

Lemma kept_modify_self f : (forall s, config (f s) = config s /\ maps (f s) = maps s) -> kept (modify f).
Proof. intros H. by apply steady_weaken, kept_modify. Qed.

Lemma kept_receive a f : (forall r x, f r = Ok x -> recv_params (RtpStreamRecv.stream x) = recv_params r) -> kept (receive a f).
Proof.
  intros Hf. unfold receive. apply steady_bind; [|steady; apply kept_stream_event]. apply kept_on_stream. intros r x r' H. ok_step H.
  injection H as <- <-. exact (Hf _ _ E).
Qed.

Lemma kept_Mangle p a : kept (MangleRtpPacket p a).
Proof. unfold MangleRtpPacket. steady. Qed.

Lemma kept_PostProcess p : kept (PostProcessRtpPacket p).
Proof. unfold PostProcessRtpPacket. steady. by apply kept_modify_self. Qed.

Lemma kept_Trace key isRtx : kept (EmitTraceEventRtpAndKeyFrameTypes key isRtx).
Proof. unfold EmitTraceEventRtpAndKeyFrameTypes. steady. Qed.

#[local] Hint Resolve kept_Mangle kept_PostProcess kept_Trace kept_Notify : steady.

Lemma kept_pass_on a fresh isRtx p d asked nowMs : kept (pass_on a fresh isRtx p d asked nowMs).
Proof. unfold pass_on. steady; by apply kept_modify_self. Qed.

Lemma kept_ReceiveRtpPacket packet asked nowMs : RtpPacket.GetSsrc packet <> Ok 0 -> kept (ReceiveRtpPacket packet asked nowMs).
Proof.
  intros Hz. unfold ReceiveRtpPacket. apply steady_bind; [by apply kept_modify_self|]. intros _. apply steady_bind; [apply steady_asks|]. intros before.
  apply steady_bind; [by apply kept_GetRtpStream|]. intros [a|]; [|apply steady_ret]. do 4 (apply steady_bind; [steady|intros ?]).
  destruct (_ =? _); [|destruct (_ =? _); [|steady]].
  - apply steady_bind; [apply kept_receive; intros r x; apply ReceivePacket_recv|]. intros [[[q d]|] q']; [|steady]. apply steady_bind; [apply kept_pass_on|]. steady.
  - apply steady_bind; [apply kept_receive; intros r x; apply ReceiveRtxPacket_recv|]. intros [[[q d]|] q']; [|steady]. apply steady_bind; [apply kept_pass_on|]. steady.
Qed.

Lemma kept_receiver_reports l worst nowMs : kept (receiver_reports l worst nowMs).
Proof.
  induction l as [|a l IH]; cbn [receiver_reports]; [apply steady_ret|]. apply steady_bind; [apply kept_read_stream|]. intros s.
  apply steady_bind; [apply steady_asks|]. intros m. apply steady_bind; [steady|]. intros v.
  apply steady_bind; [apply kept_on_stream; intros r x r' H; exact (GetRtcpReceiverReport_params _ _ _ _ H)|]. intros report.
  apply steady_bind; [apply kept_on_stream; intros r x r' H; exact (GetRtxRtcpReceiverReport_params _ _ _ H)|]. steady.
Qed.

Lemma kept_GetRtcp packet worst addr nowMs : kept (GetRtcp packet worst addr nowMs).
Proof. pose proof kept_receiver_reports. unfold GetRtcp. steady. by apply kept_modify_self. Qed.

Lemma kept_on_stream_unit a f : (forall r r', f r = Ok r' -> recv_params r' = recv_params r) -> kept (on_stream a (fun s => s ← f s; mret (tt, s))).
Proof. intros Hf. apply kept_on_stream. intros r x r' H. ok_step H. injection H as <- <-. exact (Hf _ _ E). Qed.

Lemma kept_ReceiveRtcpSenderReport pow4 report nowMs : kept (ReceiveRtcpSenderReport pow4 report nowMs).
Proof.
  unfold ReceiveRtcpSenderReport. do 2 (apply steady_bind; [steady|intros ?]). destruct (_ !! _); [|destruct (_ !! _); [|apply steady_ret]].
  - apply steady_bind; [apply kept_read_stream|]. intros s. apply steady_bind; [|steady].
    apply kept_call_stream. intros r x. apply ReceiveRtcpSenderReport_params.
  - apply kept_on_stream_unit. intros r r'. apply ReceiveRtxRtcpSenderReport_params.
Qed.

Lemma kept_ReceiveRtcpXr info nowMs : kept (ReceiveRtcpXrDelaySinceLastRr info nowMs).
Proof.
  unfold ReceiveRtcpXrDelaySinceLastRr. do 2 (apply steady_bind; [steady|intros ?]). destruct (_ !! _); [|apply steady_ret].
  apply kept_on_stream_unit. intros r r'. apply ReceiveRtcpXrDelay_params.
Qed.

Lemma kept_HandleRequest r nowMs : kept (HandleRequest r nowMs).
Proof.
  unfold HandleRequest. apply steady_bind; [apply steady_asks|]. intros s. destruct r as [| |[l|]|]; [| | |apply steady_ret..].
  - destruct (paused s); [apply steady_ret|]. apply steady_bind; [|steady; by apply kept_modify_self].
    apply steady_for_each. intros a. apply kept_on_stream_unit. intros r r'. apply Pause_params.
  - destruct (negb _); [apply steady_ret|]. apply steady_bind; [|steady; by apply kept_modify_self].
    apply steady_for_each. intros a. apply kept_on_stream. intros r x r' [= <- <-]. apply Resume_params.
  - steady. by apply kept_modify_self.
Qed.

(** ** Histories *)

Inductive Op :=
| OPacket (packet : RtpPacket.t) (asked : list Z) (nowMs : Z)
| ONotification (data old : list Z)
| OSenderReport (pow4 : spec_float -> spec_float) (report : list Z) (nowMs : Z)
| OXrDelay (ssrcInfo : list Z) (nowMs : Z)
| OGetRtcp (packet : CompoundPacket.t) (worst : Z -> Z) (addr nowMs : Z)
| ORequest (r : Request) (nowMs : Z)
| OKeyFrame (mappedSsrc nowMs : Z)
| OManagerTimer (t : positive) (nowMs : Z)
| OStreamTimer (a nowMs : Z)
| OStreamNackTimer (a nowMs : Z).

Definition run (op : Op) : P unit :=
  match op with
  | OPacket packet asked nowMs => _ ← ReceiveRtpPacket packet asked nowMs; mret tt
  | ONotification data old => HandleNotification data old
  | OSenderReport pow4 report nowMs => ReceiveRtcpSenderReport pow4 report nowMs
  | OXrDelay ssrcInfo nowMs => ReceiveRtcpXrDelaySinceLastRr ssrcInfo nowMs
  | OGetRtcp packet worst addr nowMs => _ ← GetRtcp packet worst addr nowMs; mret tt
  | ORequest r nowMs => _ ← HandleRequest r nowMs; mret tt
  | OKeyFrame mappedSsrc nowMs => RequestKeyFrame mappedSsrc nowMs
  | OManagerTimer t nowMs => OnManagerTimer t nowMs
  | OStreamTimer a nowMs => OnStreamTimer a nowMs
  | OStreamNackTimer a nowMs => OnStreamNackTimer a nowMs
  end.

(** Packets have an SSRC other than 0. *)
Definition allowed (op : Op) : Prop := match op with OPacket packet _ _ => RtpPacket.GetSsrc packet <> Ok 0 | _ => True end.

(** A call, or a change of the streams by others: consumers that read their counters, and
    streams of other producers. *)
Inductive step (w : World) : World -> Prop :=
| step_call op w' : allowed op -> run op w = Ok (tt, w') -> step w w'
| step_others w' : self w' = self w -> same_streams w w' -> step w w'.

Lemma kept_run op : allowed op -> kept (run op).
Proof.
  pose proof kept_GetRtcp. pose proof kept_HandleRequest. destruct op; cbn [run allowed]; intros Ha.
  - apply steady_bind; [by apply kept_ReceiveRtpPacket|steady].
  - unfold HandleNotification. steady.
  - apply kept_ReceiveRtcpSenderReport.
  - apply kept_ReceiveRtcpXr.
  - steady.
  - steady.
  - apply kept_RequestKeyFrame.
  - apply kept_on_manager.
  - apply kept_call_stream. intros r x [= <-]. apply OnTimer_params.
  - apply kept_call_stream. intros r x. apply OnNackTimer_params.
Qed.

Lemma steps_kept w w' : rtc step w w' -> Inv w -> Inv w'.
Proof.
  induction 1 as [|w w1 w2 Hs _ IH]; intros Hw; [done|]. apply IH. destruct Hs as [op w1 Ha Hr|w1 _ Hs]; [|by eapply Inv_same].
  pose proof (kept_run op Ha w Hw) as H. unfold post in H. by rewrite Hr in H.
Qed.

(** A producer that was made: the world in which it is, with the streams of others. *)
Lemma producer_make_Inv d s str nx : make d = Ok (Some s) -> Forall (usable (data_rtpParameters d)) (RtpParameters.encodings (data_rtpParameters d)) ->
  (forall a r, str !! a = Some r -> a < nx) -> Inv (mkWorld s str nx []).
Proof.
  unfold make. intros H Hu Hn. case_match; [done|]. do 3 ok_step H. case_match; [done|]. destruct (codec_mapping _ _) as [codecs|]; [|done].
  destruct (encoding_mapping _ _ _) as [l|] eqn:El; [|done]. destruct (Z.eqb_spec (zlen (RtpParameters.encodings (data_rtpParameters d))) (zlen l)) as [En|]; [|done].
  cbn [negb] in H. destruct (existsb _ _); [done|]. injection H as <-. split; cbn; try done.
  - intros i a [? _]%lookup_replicate. done.
  - unfold encodings. cbn. rewrite !length_replicate. unfold zlen in En. split_and!; [done..|lia].
Qed.

(** *** A sample producer of VP8 *)

Definition sample_encoding (ssrc : Z) (rid : list Z) : RtpParameters.Encoding :=
  {| RtpParameters.ssrc := ssrc; RtpParameters.rid := rid; RtpParameters.codecPayloadType := Some 96; RtpParameters.rtx := None;
     RtpParameters.maxBitrate := 0; RtpParameters.dtx := false; RtpParameters.spatialLayers := 1; RtpParameters.temporalLayers := 1;
     RtpParameters.ksvc := false |}.

(** One encoding for each SSRC and RID; the encodings are mapped to the SSRCs 1000, 1001... *)
Definition sample_data (l : list (Z * list Z)) : Data :=
  {| data_kind := Consumer.VIDEO;
     data_rtpParameters :=
       {| RtpParameters.mid := [109];
          RtpParameters.codecs := [{| RtpParameters.mimeType := Tools.VIDEO; RtpParameters.subtype := RtpParameters.VP8;
                                      RtpParameters.payloadType := 96; RtpParameters.clockRate := 90000; RtpParameters.apt := None;
                                      RtpParameters.useinbandfec := false; RtpParameters.usedtx := false;
                                      RtpParameters.rtcpFeedback := [RtpParameters.Nack; RtpParameters.NackPli] |}];
          RtpParameters.encodings := (fun x => sample_encoding x.1 x.2) <$> l;
          RtpParameters.headerExtensions := [(RtpParameters.MID, 1); (RtpParameters.RTP_STREAM_ID, 2)]; RtpParameters.cname := [97] |};
     data_codecs := [(Given 96, Given 101)];
     data_encodings := imap (fun i _ => {| d_ssrc := Missing; d_rid := Given [97]; d_mappedSsrc := Given (1000 + Z.of_nat i) |}) l;
     data_paused := false; data_keyFrameRequestDelay := 0 |}.

Definition started (l : list (Z * list Z)) : res World :=
  o ← make (sample_data l); s ← deref o; Ok (mkWorld s ∅ 1 []).

(** An RTP packet with the MID m and, if it is given, a RID of one byte. *)
Definition sample_packet (seq ssrc : Z) (rid : option Z) (payload : list Z) : list Z :=
  [144; 96; 0; seq; 0; 0; 0; 1; 0; 0; 0; ssrc; 190; 222; 0; 1; 16; 109] ++
  match rid with Some r => [32; r] | None => [0; 0] end ++ payload.
Definition key_frame : list Z := [144; 128; 128; 5; 0; 157; 1; 42].
Definition delta_frame : list Z := [144; 128; 128; 5; 1; 157; 1; 42].

(** A datagram in a buffer with room behind it, parsed with the extension ids of the transport. *)
Definition parsed (data : list Z) : res RtpPacket.t :=
  o ← RtpPacket.Parse (data ++ replicate 200 0) (zlen data);
  p ← deref o;
  Ok (RtpPacket.set_ids p {| RtpPacket.midExtensionId := 1; RtpPacket.ridExtensionId := 2; RtpPacket.rridExtensionId := 0;
                             RtpPacket.absSendTimeExtensionId := 0; RtpPacket.transportWideCc01ExtensionId := 0;
                             RtpPacket.frameMarking07ExtensionId := 0; RtpPacket.frameMarkingExtensionId := 0;
                             RtpPacket.ssrcAudioLevelExtensionId := 0; RtpPacket.videoOrientationExtensionId := 0 |}).
Definition arrives (data : list Z) (nowMs : Z) (w : World) : res (ReceiveRtpPacketResult * World) :=
  p ← parsed data;
  '(r, _, w) ← ReceiveRtpPacket p [] nowMs w;
  Ok (r, w).

(** *** The producer with one stream *)

Lemma sample_w0_ok : is_ok (started [(0, [97]); (0, [98])]) = true.
Proof. vm_compute. reflexivity. Qed.
Definition sample_w0 : World := from_ok _ sample_w0_ok.

Lemma sample_p1_ok : is_ok (parsed (sample_packet 1 10 (Some 97) key_frame)) = true.
Proof. vm_compute. reflexivity. Qed.
Definition sample_p1 : RtpPacket.t := from_ok _ sample_p1_ok.

Lemma sample_one_ok : is_ok (run (OPacket sample_p1 [] 10000) sample_w0) = true.
Proof. vm_compute. reflexivity. Qed.
Definition sample_w1 : World := (from_ok _ sample_one_ok).2.

Lemma sample_one_steps : rtc step sample_w0 sample_w1.
Proof.
  apply rtc_once. apply (step_call _ (OPacket sample_p1 [] 10000)); [by vm_compute|]. rewrite (from_ok_eq _ sample_one_ok). unfold sample_w1.
  by destruct (from_ok _ sample_one_ok) as [[] w].
Qed.

Lemma sample_usable (l : list (Z * list Z)) : (forall x, x ∈ l -> x.1 <> 0 -> x.2 = []) ->
  Forall (usable (data_rtpParameters (sample_data l))) (RtpParameters.encodings (data_rtpParameters (sample_data l))).
Proof.
  intros H. apply Forall_fmap, Forall_forall. intros [ssrc rid] Hx. split; [by do 2 eexists|]. exact (H _ Hx).
Qed.

(** C13: a producer finds the stream of every packet.  From its creation, over all histories of
    packets with an SSRC other than 0, requests, reports, key frame requests, timers and RTCP,
    when the codecs of the encodings are known and no encoding has both an SSRC and a RID:
    [GetRtpStream] returns, so the assertions that the SSRC and the encoding have no stream yet
    hold; the stream it finds or creates has the SSRC of the packet or has it as the SSRC of its
    RTX stream, so [ReceiveRtpPacket] does not reach its [MS_ABORT], and has a mapped SSRC; and
    each stream is that of one SSRC and of one encoding. *)
Theorem producer_history_safe d s str nx w :
  make d = Ok (Some s) -> Forall (usable (data_rtpParameters d)) (RtpParameters.encodings (data_rtpParameters d)) ->
  (forall a r, str !! a = Some r -> a < nx) -> rtc step (mkWorld s str nx []) w ->
  (forall packet ssrc pt rid nowMs,
     RtpPacket.GetSsrc packet = Ok ssrc -> RtpPacket.GetPayloadType packet = Ok pt -> RtpPacket.ReadRid packet = Ok rid -> ssrc <> 0 ->
     exists o w', GetRtpStream packet nowMs w = Ok (o, w') /\
       match o with
       | None => True
       | Some a => exists r, streams w' !! a = Some r /\ (GetSsrc r = ssrc \/ GetRtxSsrc r = ssrc) /\
                     is_Some (mapRtpStreamMappedSsrc (maps (self w')) !! a)
       end) /\
  (forall ssrc a, mapSsrcRtpStream (maps (self w)) !! ssrc = Some a ->
     exists r e, streams w !! a = Some r /\ GetSsrc r = ssrc /\ encodings (self w) !! Z.to_nat (GetEncodingIdx r) = Some e /\
       GetRid r = RtpParameters.rid e /\ rtpStreamByEncodingIdx (maps (self w)) !! Z.to_nat (GetEncodingIdx r) = Some (Some a)).
Proof.
  intros Hmake Hu Hn Hsteps. pose proof (steps_kept _ _ Hsteps (producer_make_Inv _ _ _ _ Hmake Hu Hn)) as Hw. split.
  - intros packet ssrc pt rid nowMs H1 H2 H3 Hz. pose proof (safe_GetRtpStream packet ssrc pt nowMs w Hw H1 H2 Hz) as H. unfold post in H.
    destruct (GetRtpStream packet nowMs w) as [[o w']|]; [|congruence]. exists o, w'. split; [done|]. destruct H as [Hw' Ho].
    destruct o as [a|]; [|done].
    assert (Hown : forall k, mapSsrcRtpStream (maps (self w')) !! k = Some a -> is_Some (mapRtpStreamMappedSsrc (maps (self w')) !! a)).
    { intros k Hk. destruct (inv_streams _ Hw' k a Hk) as (r & e & []). done. }
    destruct Ho as [Ha|Ha].
    + destruct (inv_streams _ Hw' ssrc a Ha) as (r & e & []). exists r. split_and!; [done|by left|by eapply Hown].
    + destruct (inv_rtx _ Hw' ssrc a Ha) as (r & Hr & E1 & _ & Hs). exists r. split_and!; [done|by right|by eapply Hown].
  - intros ssrc a Ha. destruct (inv_streams _ Hw ssrc a Ha) as (r & e & []). by exists r, e.
Qed.

Lemma producer_history_safe_witness : exists o w', GetRtpStream sample_p1 10010 sample_w1 = Ok (o, w') /\ o <> None.
Proof.
  assert (Hm : make (sample_data [(0, [97]); (0, [98])]) = Ok (Some (self sample_w0))) by (vm_compute; reflexivity).
  assert (Hu := sample_usable [(0, [97]); (0, [98])] ltac:(intros x [->|[->|[]%not_elem_of_nil]%elem_of_cons]%elem_of_cons; done)).
  assert (E : mkWorld (self sample_w0) ∅ 1 [] = sample_w0) by (vm_compute; reflexivity).
  assert (Hs : rtc step (mkWorld (self sample_w0) ∅ 1 []) sample_w1) by (rewrite E; exact sample_one_steps).
  destruct (proj1 (producer_history_safe _ _ ∅ 1 _ Hm Hu ltac:(intros a r H; by rewrite lookup_empty in H) Hs)
    sample_p1 10 96 (Some [97]) 10010 ltac:(vm_compute; reflexivity) ltac:(vm_compute; reflexivity) ltac:(vm_compute; reflexivity) ltac:(lia)) as (o & w' & H & _).
  exists o, w'. split; [exact H|]. intros ->. vm_compute in H. discriminate H.
Defined.

(** *** What goes wrong *)

Definition is_trace (e : event) : bool := match e with EmittedTrace _ _ => true | _ => false end.
Definition traces_of (r : res (ReceiveRtpPacketResult * World)) : list event := match r with Ok (_, w) => List.filter is_trace (events w) | Fault _ => [] end.

(** The packet that [PRODUCER_SEND] made of the data is received. *)
Definition sent (data : list Z) (w : World) : res (ReceiveRtpPacketResult * World) :=
  '(_, w) ← HandleNotification data (replicate 1600 0) w;
  match list.last (events w) with
  | Some (OnProducerReceiveRtpPacket p) => '(r, _, w) ← ReceiveRtpPacket p [] 10000 w; Ok (r, w)
  | _ => Ok (DISCARDED, w)
  end.

(** C22: three defects.  (1) An encoding without SSRC has the SSRC 0: once a producer has a stream
    for it, a packet with the SSRC 0, which the listener gives to the producer by its MID, fails
    the assertion that the encoding has no stream, and the worker aborts; a packet with another
    unknown SSRC is discarded.  (2) For want of a [break], a PLI that the producer sends is traced
    as a NACK.  (3) The buffer for the packets of [PRODUCER_SEND] has the size of the largest
    packet, but the packet is extended in it: header extensions are written behind its end for
    a packet of 1600 bytes, and are not for one of 1500 bytes. *)
Example producer_defects :
  let streamed := (w ← started [(0, [97]); (0, [98])]; '(_, w) ← arrives (sample_packet 1 10 (Some 97) key_frame) 10000 w; Ok w) in
  let listener := RtpListener.AddProducer RtpListener.empty 1
    {| RtpListener.encodings := []; RtpListener.mid := [109] |} in
  let traced types := (w ← started [(10, [])]; '(_, w) ← run (ORequest (EnableTraceEvent (Some [Some types])) 9999) w;
                       arrives (sample_packet 1 10 None delta_frame) 10000 w) in
  let large n := (w ← started [(10, [])]; sent (sample_packet 1 10 None (key_frame ++ replicate n 0)) w) in
  (w ← streamed; arrives (sample_packet 2 0 None key_frame) 10010 w) = Fault AssertFailed /\
  (match listener with
   | Return l => p ← parsed (sample_packet 2 0 None key_frame); '(o, _) ← RtpListener.GetProducer l p; Ok o
   | Throw _ => Ok None
   end) = Ok (Some 1%positive) /\
  (r ← (w ← streamed; arrives (sample_packet 2 11 None key_frame) 10010 w); Ok r.1) = Ok DISCARDED /\
  traces_of (traced Consumer.NNack) = [EmittedTrace TraceNack false] /\
  traces_of (traced Consumer.NPli) = [EmittedTrace (TracePli 10) false] /\
  large 1572%nat = Fault OutOfBounds /\ (r ← large 1472%nat; Ok r.1) = Ok MEDIA.
Proof. cbn zeta. split_and!; vm_compute; reflexivity. Qed.

End ProducerSpec.
