(* ===== verification/StreamReads.v ===== *)
(** * Reading the bitrates of the streams of a producer

    A consumer reads the bitrates of the layers of its producer's streams, which moves the
    windows of their counters.  Reads within the layers of a stream fail no assertion, change
    nothing else of the streams, and keep the shape of the counters. *)

From Stdlib Require Import SpecFloat.
From stdpp Require Import gmap.
From S2P Require Import Prelude Utils Float RateCalculator RtpStream RtpStreamRecv Consumer.

(** ** Computations that fail no assertion *)

(** Neither a failed assertion nor a null pointer. *)
Definition calm (e : fault) : Prop := e <> AssertFailed /\ e <> NullDeref.

Definition returns {A} (r : res A) (P : A -> Prop) : Prop := match r with Ok a => P a | Fault e => calm e end.

Lemma returns_ret {A} (a : A) P : P a -> returns (mret a) P.
Proof. done. Qed.

Lemma returns_bind {A B} (r : res A) (f : A -> res B) P : returns r (fun a => returns (f a) P) -> returns (r ≫= f) P.
Proof. by destruct r. Qed.

Lemma returns_mono {A} (r : res A) (P Q : A -> Prop) : returns r P -> (forall a, P a -> Q a) -> returns r Q.
Proof. destruct r; cbn; auto. Qed.

Ltac calm := split; discriminate.

Lemma returns_layer_at {A} (l : list A) i : returns (TransmissionCounter.layer_at l i) (fun x => l !! Z.to_nat i = Some x).
Proof. unfold TransmissionCounter.layer_at. destruct (l !! Z.to_nat i) as [x|]; [destruct (_ <=? _); [done|]|]; calm. Qed.

(** ** Rates *)

Module RateReads.

Import RateCalculator.

Lemma item_at_calm buf i : returns (item_at buf i) (fun _ => True).
Proof. unfold item_at. repeat case_match; first [done|calm]. Qed.

Lemma remove_oldest_calm s : returns (remove_oldest s) (fun _ => True).
Proof.
  unfold remove_oldest, set_item. apply returns_bind. eapply returns_mono; [apply item_at_calm|]. intros o _.
  apply returns_bind, returns_bind. eapply returns_mono; [apply item_at_calm|]. intros o' _. apply returns_ret.
  apply returns_bind. eapply returns_mono; [apply item_at_calm|]. done.
Qed.

Lemma remove_loop_calm fuel : forall t s, returns (remove_loop fuel t s) (fun _ => True).
Proof.
  induction fuel as [|fuel IH]; intros t s; cbn [remove_loop]; (case_match; [|done]); [calm|].
  apply returns_bind. eapply returns_mono; [apply remove_oldest_calm|]. intros s' _. apply IH.
Qed.

Lemma GetRate_calm s t : fits 32 (lastRate s) -> returns (GetRate s t) (fun r => fits 32 r.1 /\ fits 32 (lastRate r.2)).
Proof.
  intros Hs. unfold GetRate. destruct (_ =? _); [done|]. apply returns_bind. eapply (returns_mono _ (fun _ => True)).
  - unfold RemoveOldData. repeat case_match; try done. apply remove_loop_calm.
  - intros s' _. apply returns_bind. eapply (returns_mono _ (fun r => fits 32 r)); [|done].
    unfold rate_of, u32_of_float. repeat case_match; cbn [returns]; unfold fits; try calm; lia.
Qed.

Lemma Update_rate s size t s' : fits 32 (lastRate s) -> Update s size t = Ok s' -> fits 32 (lastRate s').
Proof.
  unfold Update. intros Hs H. destruct (_ <? _); [by injection H as <-|]. destruct (RemoveOldData _ _) as [s1|]; [|done]. cbn [mbind res_bind] in H.
  destruct (store _ _ _) as [s2|]; [|done]. by injection H as <-.
Qed.

End RateReads.

(** ** Counters by layer *)

(** A row of [m] counters, whose last rates are 32-bit numbers. *)
Definition rated (x : RtpDataCounter.State) : Prop := fits 32 (RateCalculator.lastRate (RtpDataCounter.rate x)).
Definition row_of (m : Z) (row : list RtpDataCounter.State) : Prop := zlen row = m /\ Forall rated row.

(** [n] spatial layers of [m] temporal layers. *)
Definition shape (c : TransmissionCounter.t) (n m : Z) : Prop := zlen c = n /\ Forall (row_of m) c.

Definition shaped (r : RtpStreamRecv.State) : Prop :=
  shape (RtpStreamRecv.transmissionCounter r) (Sender.spatial_layers r) (Sender.temporal_layers r) /\
  1 <= Sender.spatial_layers r /\ fits 8 (Sender.temporal_layers r).

Definition legible (str : gmap Z RtpStreamRecv.State) : Prop := map_Forall (fun _ r => shaped r) str.

(** The result of a read: a 32-bit rate and counters of the same shape. *)
Definition read_ok (n m : Z) (r : Z * TransmissionCounter.t) : Prop := fits 32 r.1 /\ shape r.2 n m.

Section Reads.

Import TransmissionCounter.

Lemma GetBitrate_calm x t : rated x -> returns (RtpDataCounter.GetBitrate x t) (fun r => fits 32 r.1 /\ rated r.2).
Proof.
  intros Hx. unfold RtpDataCounter.GetBitrate. apply returns_bind. eapply returns_mono; [by apply RateReads.GetRate_calm|].
  by intros [v r] [].
Qed.

Lemma add_rates_calm row t : Forall rated row ->
  forall v, fits 32 v -> returns (add_rates row t v) (fun r => fits 32 r.1 /\ length r.2 = length row /\ Forall rated r.2).
Proof.
  induction 1 as [|x row Hx Hrow IH]; intros v Hv; cbn [add_rates]; [done|]. apply returns_bind. eapply returns_mono; [by apply GetBitrate_calm|].
  intros [v' x'] [_ Hx']. apply returns_bind. eapply returns_mono; [apply IH, uwrap_fits; done|]. intros [v2 row2] (Hv2 & E & F).
  apply returns_ret. split; [done|]. cbn in *. split; [by rewrite E|by constructor].
Qed.

Lemma add_rows_calm c t m : Forall (row_of m) c ->
  forall v, fits 32 v -> returns (add_rows c t v) (fun r => fits 32 r.1 /\ length r.2 = length c /\ Forall (row_of m) r.2).
Proof.
  induction 1 as [|row c [Hm Hrow] Hc IH]; intros v Hv; cbn [add_rows]; [done|]. apply returns_bind. eapply returns_mono; [by apply add_rates_calm|].
  intros [v' row'] (Hv' & E & F). apply returns_bind. eapply returns_mono; [by apply IH|]. intros [v2 c2] (Hv2 & E2 & F2).
  apply returns_ret. split; [done|]. cbn [snd] in *. split; [cbn; by rewrite E2|]. constructor; [|done]. split; [|done]. unfold zlen in *. by rewrite E.
Qed.

Lemma shape_update c n m i row : shape c n m -> row_of m row -> shape (<[i := row]> c) n m.
Proof. intros [Hn Hf] Hr. split; [unfold zlen in *; by rewrite length_insert|]. by apply Forall_insert. Qed.

Lemma shape_row c n m i row : shape c n m -> c !! i = Some row -> row_of m row.
Proof. intros [_ Hf] H. exact (Forall_lookup_1 _ _ _ _ Hf H). Qed.

Lemma row_update m row i x : row_of m row -> rated x -> row_of m (<[i := x]> row).
Proof. intros [Hm Hf] Hx. split; [unfold zlen in *; by rewrite length_insert|]. by apply Forall_insert. Qed.

Lemma zero_fits : fits 32 0.
Proof. unfold fits. lia. Qed.

Lemma GetBitrate_shape c n m t : shape c n m -> returns (GetBitrate c t) (read_ok n m).
Proof.
  intros [Hn Hf]. eapply returns_mono; [by apply add_rows_calm, zero_fits|]. intros [v c'] (Hv & E & F). split; [done|]. split; [|done].
  unfold zlen in *. cbn [snd] in *. by rewrite E.
Qed.

Lemma counter_at_shape c n m sp tp : shape c n m -> sp < n -> tp < m ->
  returns (counter_at c sp tp) (fun r => row_of m r.1 /\ rated r.2).
Proof.
  intros Hc Hsp Htp. unfold counter_at. rewrite (proj1 Hc). destruct (Z.ltb_spec sp n); [|lia].
  apply returns_bind. cbn [ms_assert]. apply returns_bind. eapply returns_mono; [apply returns_layer_at|]. intros row Hrow.
  pose proof (shape_row c n m _ _ Hc Hrow) as [Hm Hr]. rewrite Hm. destruct (Z.ltb_spec tp m); [|lia]. cbn [ms_assert].
  apply returns_bind, returns_ret, returns_bind. eapply returns_mono; [apply returns_layer_at|]. intros x Hx. split; [done|].
  exact (Forall_lookup_1 _ _ _ _ Hr Hx).
Qed.

Lemma GetLayerBitrate_shape c n m t sp tp : shape c n m -> sp < n -> tp < m ->
  returns (GetLayerBitrate c t sp tp) (read_ok n m).
Proof.
  intros Hc Hsp Htp. unfold GetLayerBitrate. apply returns_bind. eapply returns_mono; [by apply (counter_at_shape c n m)|].
  intros [row x] [Hm Hx]. apply returns_bind. eapply returns_mono; [by apply GetBitrate_calm|]. intros [v x'] [Hv Hx']. apply returns_ret.
  split; [done|]. by apply shape_update; [|apply row_update].
Qed.

Lemma GetBitrateUpTo_shape c n m t sp tp : shape c n m -> 0 <= sp < n -> 0 <= tp < m ->
  returns (GetBitrateUpTo c t sp tp) (read_ok n m).
Proof.
  intros Hc Hsp Htp. unfold GetBitrateUpTo. apply returns_bind. eapply returns_mono; [apply (GetLayerBitrate_shape c n m); [done|lia..]|].
  intros [v c1] [Hv [Hn Hf]]. cbn [fst snd] in Hv, Hn, Hf. destruct (v =? 0); [split; [apply zero_fits|done]|].
  apply returns_bind. eapply returns_mono; [apply add_rows_calm; [by apply Forall_take, Hf|apply zero_fits]|].
  intros [rate below] (Hrate & Eb & Fb). apply returns_bind. eapply returns_mono; [apply returns_layer_at|]. intros row Hrow.
  pose proof (Forall_lookup_1 _ _ _ _ Hf Hrow) as [Hm Hr].
  apply returns_bind. eapply returns_mono; [by apply add_rates_calm; [apply Forall_take|]|]. intros [rate' low] (Hrate' & El & Fl).
  cbn [fst snd] in *. apply returns_ret. split; [done|]. rewrite length_take in Eb. rewrite length_take in El. unfold zlen in *. split; cbn [snd].
  - unfold zlen. rewrite length_app. cbn [length]. rewrite length_drop. lia.
  - apply Forall_app. split; [done|]. constructor; [|by apply Forall_drop]. split; [unfold zlen; rewrite length_app, length_drop; lia|].
    apply Forall_app. split; [done|by apply Forall_drop].
Qed.

Lemma GetSpatialLayerBitrate_shape c n m t sp : shape c n m -> sp < n ->
  returns (GetSpatialLayerBitrate c t sp) (read_ok n m).
Proof.
  intros Hc Hsp. unfold GetSpatialLayerBitrate. pose proof (proj1 Hc) as Hn. rewrite Hn. destruct (Z.ltb_spec sp n); [|lia].
  apply returns_bind, returns_ret, returns_bind. eapply returns_mono; [apply returns_layer_at|]. intros row Hrow.
  pose proof (shape_row _ _ _ _ _ Hc Hrow) as [Hm Hr]. apply returns_bind. eapply returns_mono; [apply add_rates_calm, zero_fits; done|].
  intros [v row'] (Hv & E & F). apply returns_ret. split; [done|]. apply shape_update; [done|]. split; [|done]. unfold zlen in *. cbn [snd] in *. by rewrite E.
Qed.

End Reads.

(** A stream that was made has the shape, and counting packets keeps it. *)
Lemma made_shaped p delay t : 1 <= RtpStream.spatialLayers p -> fits 8 (RtpStream.temporalLayers p) -> shaped (RtpStreamRecv.make p delay t).
Proof.
  intros Hs Ht. split; [|done]. pose proof (proj1 Ht). unfold RtpStreamRecv.make, TransmissionCounter.make, Sender.spatial_layers, Sender.temporal_layers. cbn -[replicate].
  split; [|apply Forall_replicate; split; [|by apply Forall_replicate, zero_fits]]; unfold zlen; rewrite length_replicate; lia.
Qed.

Lemma Update_shape c n m sp tp size t c' : shape c n m -> TransmissionCounter.Update c sp tp size t = Ok c' -> shape c' n m.
Proof.
  intros Hc H. unfold TransmissionCounter.Update in H. destruct (TransmissionCounter.layer_at c 0) as [first|]; [|done]. cbn [mbind res_bind] in H.
  pose proof (returns_layer_at c (TransmissionCounter.bound_layer sp (zlen c))) as Hr.
  destruct (TransmissionCounter.layer_at c _) as [row|]; [|done]. cbn [mbind res_bind] in H.
  pose proof (returns_layer_at row (TransmissionCounter.bound_layer tp (zlen first))) as Hx.
  destruct (TransmissionCounter.layer_at row _) as [x|]; [|done]. cbn [mbind res_bind] in H. unfold RtpDataCounter.Update in H.
  destruct (RateCalculator.Update _ size t) as [x'|] eqn:E; [|done]. injection H as <-.
  pose proof (shape_row _ _ _ _ _ Hc Hr) as Hrow. apply shape_update, row_update; [done..|].
  exact (RateReads.Update_rate _ _ _ _ (Forall_lookup_1 _ _ _ _ (proj2 Hrow) Hx) E).
Qed.

(** ** The bitrate with losses *)

Lemma virtual_bitrate_calm s b loss : returns (Sender.virtual_bitrate s b loss) (fun _ => True).
Proof.
  unfold Sender.virtual_bitrate. destruct loss; [|done]. cbn zeta.
  assert (Hf : forall x, returns (uint_of_float 32 x) (fun _ => True)) by (intros x; unfold uint_of_float, float_to_uint; repeat case_match; first [done|calm]).
  destruct (SFltb _ _); [apply Hf|]. destruct (SFltb _ _); [apply Hf|done].
Qed.

(** ** Worlds *)

(** Reading changes the counters of the streams only, and keeps their shape. *)
Definition same_bases (str str' : gmap Z RtpStreamRecv.State) : Prop :=
  forall a, RtpStreamRecv.base <$> str' !! a = RtpStreamRecv.base <$> str !! a.

Lemma same_bases_refl str : same_bases str str.
Proof. done. Qed.

Lemma same_bases_trans s1 s2 s3 : same_bases s1 s2 -> same_bases s2 s3 -> same_bases s1 s3.
Proof. intros H1 H2 a. by rewrite H2, H1. Qed.

Lemma same_bases_lookup str str' a r : same_bases str str' -> str !! a = Some r ->
  exists r', str' !! a = Some r' /\ RtpStreamRecv.base r' = RtpStreamRecv.base r.
Proof.
  intros H Ha. specialize (H a). rewrite Ha in H. destruct (str' !! a) as [r'|]; [|done]. injection H as E. by exists r'.
Qed.

Section Framed.

Context {S : Type}.
Implicit Types w : World S.

Definition framed w w' : Prop := self w' = self w /\ same_bases (streams w) (streams w') /\ legible (streams w').

Lemma framed_refl w : legible (streams w) -> framed w w.
Proof. done. Qed.

Lemma framed_trans w1 w2 w3 : framed w1 w2 -> framed w2 w3 -> framed w1 w3.
Proof. intros (E1 & F1 & L1) (E2 & F2 & L2). split_and!; [congruence|by eapply same_bases_trans|done]. Qed.

(** Reading a bitrate within the layers of a stream. *)
Lemma wp_counting a r f w : legible (streams w) -> streams w !! a = Some r ->
  (forall c, shape c (Sender.spatial_layers r) (Sender.temporal_layers r) ->
    returns (f c) (read_ok (Sender.spatial_layers r) (Sender.temporal_layers r))) ->
  wp (on_stream a (Sender.counting f)) (fun v w' => fits 32 v /\ framed w w') calm w.
Proof.
  intros Hl Ha Hf. apply wp_on_stream. rewrite Ha. destruct (Hl a r Ha) as [Hs H1]. specialize (Hf _ Hs). unfold Sender.counting.
  destruct (f _) as [[v c]|]; [|done]. destruct Hf as [Hv Hc]. cbn in Hv, Hc |- *. split; [done|]. split_and!; [done| |].
  - intros b. cbn. destruct (decide (a = b)) as [<-|Hne]; [by rewrite lookup_insert_eq, Ha|by rewrite lookup_insert_ne].
  - cbn. by apply map_Forall_insert_2.
Qed.

End Framed.
