(* ===== verification/SimulcastConsumer.v ===== *)
(** * Simulcast consumers

    Models [worker/src/RTC/SimulcastConsumer.cpp] and its header: the producer sends the same
    video in several streams, one for each spatial layer, and the consumer forwards one of
    them at a time as a single stream, switching at key frames.  The bitrate is managed by the
    transport ([IncreaseLayer], [ApplyLayers]) or by the consumer itself
    ([RecalculateTargetLayers]). *)

From Stdlib Require Import SpecFloat.
From stdpp Require Import gmap.
From S2P Require Import Prelude Utils Float SeqManager RateCalculator RtpPacket Codecs Payload RtpParameters.
From S2P Require Import RtpStream RtpStreamRecv RtpStreamSend Consumer.

Module SimulcastConsumer.

Import Consumer Sender.
Import TransmissionCounter (layer_at).

Definition MaxSequenceNumberGap : Z := 100.
Definition MaxExtraOffsetMs : Z := 75.
Definition MsOffset : Z := 33.

(** The layers: -1 is none. *)
Record Layers := {
  preferredSpatialLayer : Z;
  preferredTemporalLayer : Z;
  provisionalTargetSpatialLayer : Z;
  provisionalTargetTemporalLayer : Z;
  targetSpatialLayer : Z;
  targetTemporalLayer : Z;
  currentSpatialLayer : Z;
  tsReferenceSpatialLayer : Z;
}.

(** What is kept for the synchronization of sequence numbers and timestamps. *)
Record Sync := {
  syncRequired : bool;
  spatialLayerToSync : Z;
  lastSentPacketHasMarker : bool;
  tsOffset : Z;
  keyFrameForTsOffsetRequested : bool;
  snReferenceSpatialLayer : Z;
  checkingForOldPacketsInSpatialLayer : bool;
}.

Record State := {
  consumer : Base;
  sender : RtpStreamSend.State;
  mapMappedSsrcSpatialLayer : gmap Z Z;
  producerRtpStreams : list (option Z);
  layers : Layers;
  sync : Sync;
  rtpSeqManager : Manager.SeqManager;
  encodingContext : Payload.Context;
  lastBweDowngradeAtMs : Z;
}.

Definition set_consumer (s : State) (v : Base) : State :=
  {| consumer := v; sender := sender s; mapMappedSsrcSpatialLayer := mapMappedSsrcSpatialLayer s;
     producerRtpStreams := producerRtpStreams s; layers := layers s; sync := sync s; rtpSeqManager := rtpSeqManager s;
     encodingContext := encodingContext s; lastBweDowngradeAtMs := lastBweDowngradeAtMs s |}.
Definition set_sender (s : State) (v : RtpStreamSend.State) : State :=
  {| consumer := consumer s; sender := v; mapMappedSsrcSpatialLayer := mapMappedSsrcSpatialLayer s;
     producerRtpStreams := producerRtpStreams s; layers := layers s; sync := sync s; rtpSeqManager := rtpSeqManager s;
     encodingContext := encodingContext s; lastBweDowngradeAtMs := lastBweDowngradeAtMs s |}.
Definition set_streams (s : State) (v : list (option Z)) : State :=
  {| consumer := consumer s; sender := sender s; mapMappedSsrcSpatialLayer := mapMappedSsrcSpatialLayer s;
     producerRtpStreams := v; layers := layers s; sync := sync s; rtpSeqManager := rtpSeqManager s;
     encodingContext := encodingContext s; lastBweDowngradeAtMs := lastBweDowngradeAtMs s |}.
Definition set_layers (s : State) (v : Layers) : State :=
  {| consumer := consumer s; sender := sender s; mapMappedSsrcSpatialLayer := mapMappedSsrcSpatialLayer s;
     producerRtpStreams := producerRtpStreams s; layers := v; sync := sync s; rtpSeqManager := rtpSeqManager s;
     encodingContext := encodingContext s; lastBweDowngradeAtMs := lastBweDowngradeAtMs s |}.
Definition set_sync (s : State) (v : Sync) : State :=
  {| consumer := consumer s; sender := sender s; mapMappedSsrcSpatialLayer := mapMappedSsrcSpatialLayer s;
     producerRtpStreams := producerRtpStreams s; layers := layers s; sync := v; rtpSeqManager := rtpSeqManager s;
     encodingContext := encodingContext s; lastBweDowngradeAtMs := lastBweDowngradeAtMs s |}.
Definition set_seq (s : State) (v : Manager.SeqManager) : State :=
  {| consumer := consumer s; sender := sender s; mapMappedSsrcSpatialLayer := mapMappedSsrcSpatialLayer s;
     producerRtpStreams := producerRtpStreams s; layers := layers s; sync := sync s; rtpSeqManager := v;
     encodingContext := encodingContext s; lastBweDowngradeAtMs := lastBweDowngradeAtMs s |}.
Definition set_context (s : State) (v : Payload.Context) : State :=
  {| consumer := consumer s; sender := sender s; mapMappedSsrcSpatialLayer := mapMappedSsrcSpatialLayer s;
     producerRtpStreams := producerRtpStreams s; layers := layers s; sync := sync s; rtpSeqManager := rtpSeqManager s;
     encodingContext := v; lastBweDowngradeAtMs := lastBweDowngradeAtMs s |}.
Definition set_bwe (s : State) (v : Z) : State :=
  {| consumer := consumer s; sender := sender s; mapMappedSsrcSpatialLayer := mapMappedSsrcSpatialLayer s;
     producerRtpStreams := producerRtpStreams s; layers := layers s; sync := sync s; rtpSeqManager := rtpSeqManager s;
     encodingContext := encodingContext s; lastBweDowngradeAtMs := v |}.

Definition with_preferred (l : Layers) (sp tp : Z) : Layers :=
  {| preferredSpatialLayer := sp; preferredTemporalLayer := tp;
     provisionalTargetSpatialLayer := provisionalTargetSpatialLayer l;
     provisionalTargetTemporalLayer := provisionalTargetTemporalLayer l; targetSpatialLayer := targetSpatialLayer l;
     targetTemporalLayer := targetTemporalLayer l; currentSpatialLayer := currentSpatialLayer l;
     tsReferenceSpatialLayer := tsReferenceSpatialLayer l |}.
Definition with_provisional (l : Layers) (sp tp : Z) : Layers :=
  {| preferredSpatialLayer := preferredSpatialLayer l; preferredTemporalLayer := preferredTemporalLayer l;
     provisionalTargetSpatialLayer := sp; provisionalTargetTemporalLayer := tp; targetSpatialLayer := targetSpatialLayer l;
     targetTemporalLayer := targetTemporalLayer l; currentSpatialLayer := currentSpatialLayer l;
     tsReferenceSpatialLayer := tsReferenceSpatialLayer l |}.
Definition with_target (l : Layers) (sp tp : Z) : Layers :=
  {| preferredSpatialLayer := preferredSpatialLayer l; preferredTemporalLayer := preferredTemporalLayer l;
     provisionalTargetSpatialLayer := provisionalTargetSpatialLayer l;
     provisionalTargetTemporalLayer := provisionalTargetTemporalLayer l; targetSpatialLayer := sp; targetTemporalLayer := tp;
     currentSpatialLayer := currentSpatialLayer l; tsReferenceSpatialLayer := tsReferenceSpatialLayer l |}.
Definition with_current (l : Layers) (sp : Z) : Layers :=
  {| preferredSpatialLayer := preferredSpatialLayer l; preferredTemporalLayer := preferredTemporalLayer l;
     provisionalTargetSpatialLayer := provisionalTargetSpatialLayer l;
     provisionalTargetTemporalLayer := provisionalTargetTemporalLayer l; targetSpatialLayer := targetSpatialLayer l;
     targetTemporalLayer := targetTemporalLayer l; currentSpatialLayer := sp;
     tsReferenceSpatialLayer := tsReferenceSpatialLayer l |}.
Definition with_reference (l : Layers) (sp : Z) : Layers :=
  {| preferredSpatialLayer := preferredSpatialLayer l; preferredTemporalLayer := preferredTemporalLayer l;
     provisionalTargetSpatialLayer := provisionalTargetSpatialLayer l;
     provisionalTargetTemporalLayer := provisionalTargetTemporalLayer l; targetSpatialLayer := targetSpatialLayer l;
     targetTemporalLayer := targetTemporalLayer l; currentSpatialLayer := currentSpatialLayer l;
     tsReferenceSpatialLayer := sp |}.

(** [syncRequired] and [spatialLayerToSync]. *)
Definition with_required (y : Sync) (b : bool) (sp : Z) : Sync :=
  {| syncRequired := b; spatialLayerToSync := sp; lastSentPacketHasMarker := lastSentPacketHasMarker y; tsOffset := tsOffset y;
     keyFrameForTsOffsetRequested := keyFrameForTsOffsetRequested y; snReferenceSpatialLayer := snReferenceSpatialLayer y;
     checkingForOldPacketsInSpatialLayer := checkingForOldPacketsInSpatialLayer y |}.
Definition with_marker (y : Sync) (b : bool) : Sync :=
  {| syncRequired := syncRequired y; spatialLayerToSync := spatialLayerToSync y; lastSentPacketHasMarker := b;
     tsOffset := tsOffset y; keyFrameForTsOffsetRequested := keyFrameForTsOffsetRequested y;
     snReferenceSpatialLayer := snReferenceSpatialLayer y;
     checkingForOldPacketsInSpatialLayer := checkingForOldPacketsInSpatialLayer y |}.
Definition with_tsOffset (y : Sync) (v : Z) : Sync :=
  {| syncRequired := syncRequired y; spatialLayerToSync := spatialLayerToSync y;
     lastSentPacketHasMarker := lastSentPacketHasMarker y; tsOffset := v;
     keyFrameForTsOffsetRequested := keyFrameForTsOffsetRequested y; snReferenceSpatialLayer := snReferenceSpatialLayer y;
     checkingForOldPacketsInSpatialLayer := checkingForOldPacketsInSpatialLayer y |}.
Definition with_keyFrame (y : Sync) (b : bool) : Sync :=
  {| syncRequired := syncRequired y; spatialLayerToSync := spatialLayerToSync y;
     lastSentPacketHasMarker := lastSentPacketHasMarker y; tsOffset := tsOffset y; keyFrameForTsOffsetRequested := b;
     snReferenceSpatialLayer := snReferenceSpatialLayer y;
     checkingForOldPacketsInSpatialLayer := checkingForOldPacketsInSpatialLayer y |}.
Definition with_old (y : Sync) (sn : Z) (b : bool) : Sync :=
  {| syncRequired := syncRequired y; spatialLayerToSync := spatialLayerToSync y;
     lastSentPacketHasMarker := lastSentPacketHasMarker y; tsOffset := tsOffset y;
     keyFrameForTsOffsetRequested := keyFrameForTsOffsetRequested y; snReferenceSpatialLayer := sn;
     checkingForOldPacketsInSpatialLayer := b |}.

(** ** Streams of the producer *)

Abbreviation Streams := (gmap Z RtpStreamRecv.State).

(** The stream of a spatial layer, if any; [-1] has none. *)
Definition stream_of (s : State) (str : Streams) (layer : Z) : res (option RtpStreamRecv.State) :=
  if layer =? -1 then mret None
  else
    a ← layer_at (producerRtpStreams s) layer;
    match a with None => mret None | Some a => r ← deref (str !! a); mret (Some r) end.

Definition GetProducerCurrentRtpStream (s : State) (str : Streams) := stream_of s str (currentSpatialLayer (layers s)).
Definition GetProducerTargetRtpStream (s : State) (str : Streams) := stream_of s str (targetSpatialLayer (layers s)).
Definition GetProducerTsReferenceRtpStream (s : State) (str : Streams) := stream_of s str (tsReferenceSpatialLayer (layers s)).

Fixpoint any_alive (l : list (option Z)) (str : Streams) : res bool :=
  match l with
  | [] => mret false
  | None :: l' => any_alive l' str
  | Some a :: l' => r ← deref (str !! a); if alive r then mret true else any_alive l' str
  end.

Definition is_active (s : State) (str : Streams) : res bool :=
  if base_active (consumer s) then any_alive (producerRtpStreams s) str else mret false.

Definition has_sr (r : RtpStreamRecv.State) : bool := negb (GetSenderReportNtpMs r =? 0).

Definition CanSwitchToSpatialLayer (s : State) (str : Streams) (spatialLayer : Z) : res bool :=
  a ← layer_at (producerRtpStreams s) spatialLayer;
  a ← (match a with Some a => Ok a | None => Fault AssertFailed end);
  let ref := tsReferenceSpatialLayer (layers s) in
  if (ref =? -1) || (spatialLayer =? ref) then mret true
  else
    o ← GetProducerTsReferenceRtpStream s str;
    r ← deref o;
    if negb (has_sr r) then mret false
    else
      q ← deref (str !! a);
      mret (has_sr q).

(** ** Target layers *)

Definition recent_downgrade (s : State) (nowMs : Z) : bool :=
  u64 (nowMs - lastBweDowngradeAtMs s) <? BweDowngradeConservativeMs.

(** Whether the loop of [RecalculateTargetLayers] takes a layer, when the ones before gave
    [best]. *)
Definition eligible (s : State) (str : Streams) (nowMs : Z) (a : option Z) (spatialLayer best : Z) : res bool :=
  if recent_downgrade s nowMs && (-1 <? best) && (currentSpatialLayer (layers s) <? spatialLayer) then mret false
  else
    match a with
    | None => mret false
    | Some a =>
        r ← deref (str !! a);
        if score r =? 0 then mret false
        else if externallyManagedBitrate (consumer s) && negb (best =? -1) && (active_ms r nowMs <? StreamMinActiveMs)
        then mret false
        else CanSwitchToSpatialLayer s str spatialLayer
    end.

Fixpoint recalculate_loop (s : State) (str : Streams) (nowMs : Z) (l : list (option Z)) (spatialLayer best : Z) : res Z :=
  match l with
  | [] => mret best
  | a :: l' =>
      ok ← eligible s str nowMs a spatialLayer best;
      if (ok : bool) then
        if preferredSpatialLayer (layers s) <=? spatialLayer then mret spatialLayer
        else recalculate_loop s str nowMs l' (spatialLayer + 1) spatialLayer
      else recalculate_loop s str nowMs l' (spatialLayer + 1) best
  end.

(** Whether the target layers change, and the new ones. *)
Definition RecalculateTargetLayers (s : State) (str : Streams) (nowMs : Z) : res (bool * Z * Z) :=
  let l := layers s in
  sp ← recalculate_loop s str nowMs (producerRtpStreams s) 0 (-1);
  let tp := target_temporal sp (preferredSpatialLayer l) (preferredTemporalLayer l) (GetTemporalLayers (sender s)) in
  mret (negb (sp =? targetSpatialLayer l) || negb (tp =? targetTemporalLayer l), sp, tp).

Definition IsActive_ : M State bool := reader is_active.

(** The mapped SSRC of a layer is asked for a key frame, if there is a stream. *)
Definition request_key_frame (layer : Z) (o : option RtpStreamRecv.State) : M State unit :=
  match o with
  | None => mret tt
  | Some _ =>
      b ← gets consumer;
      e ← lift (layer_at (consumableRtpEncodings b) layer);
      emit (OnConsumerKeyFrameRequested (RtpParameters.ssrc e))
  end.

Definition is_video : M State bool := gets (fun s => bool_decide (kind (consumer s) = VIDEO)).

(** The streams are compared by address: those of different layers are different. *)
Definition RequestKeyFrames : M State unit :=
  v ← is_video;
  when v
    (l ← gets layers;
     t ← reader GetProducerTargetRtpStream;
     c ← reader GetProducerCurrentRtpStream;
     a ← gets (fun s => producerRtpStreams s !! Z.to_nat (targetSpatialLayer l));
     b ← gets (fun s => producerRtpStreams s !! Z.to_nat (currentSpatialLayer l));
     _ ← request_key_frame (targetSpatialLayer l) t;
     when (match t with Some _ => negb (bool_decide (a = b)) | None => true end) (request_key_frame (currentSpatialLayer l) c)).

Definition RequestKeyFrameForTargetSpatialLayer : M State unit :=
  v ← is_video;
  when v
    (l ← gets layers;
     t ← reader GetProducerTargetRtpStream;
     request_key_frame (targetSpatialLayer l) t).

Definition RequestKeyFrameForCurrentSpatialLayer : M State unit :=
  v ← is_video;
  when v
    (l ← gets layers;
     c ← reader GetProducerCurrentRtpStream;
     request_key_frame (currentSpatialLayer l) c).

Definition EmitLayersChange : M State unit :=
  s ← gets id;
  let c := currentSpatialLayer (layers s) in
  emit (EmittedLayersChange
    (if 0 <=? c then Some (c, EncodingContext.currentTemporalLayer (Payload.context (encodingContext s))) else None)).

Definition modify_context (f : EncodingContext.t -> EncodingContext.t) : M State unit :=
  modify (fun s => set_context s (Payload.on_context f (encodingContext s))).

Definition UpdateTargetLayers (newTargetSpatialLayer newTargetTemporalLayer : Z) : M State unit :=
  _ ← modify (fun s => let l := layers s in
        if negb (newTargetSpatialLayer =? -1) && (tsReferenceSpatialLayer l =? -1)
        then set_layers s (with_reference l newTargetSpatialLayer) else s);
  if newTargetSpatialLayer =? -1 then
    _ ← modify (fun s => set_layers s (with_current (with_target (layers s) (-1) (-1)) (-1)));
    _ ← modify_context (fun c => EncodingContext.SetCurrentTemporalLayer (EncodingContext.SetTargetTemporalLayer c (-1)) (-1));
    EmitLayersChange
  else
    _ ← modify (fun s => set_layers s (with_target (layers s) newTargetSpatialLayer newTargetTemporalLayer));
    c ← gets (fun s => currentSpatialLayer (layers s));
    _ ← when (newTargetSpatialLayer =? c) (modify_context (fun x => EncodingContext.SetTargetTemporalLayer x newTargetTemporalLayer));
    when (negb (newTargetSpatialLayer =? c)) RequestKeyFrameForTargetSpatialLayer.

Definition MayChangeLayers (force : bool) (nowMs : Z) : M State unit :=
  '(changed, sp, tp) ← reader (fun s str => RecalculateTargetLayers s str nowMs);
  s ← gets id;
  when changed
    (if externallyManagedBitrate (consumer s)
     then when (negb (sp =? targetSpatialLayer (layers s)) || force) (emit OnConsumerNeedBitrateChange)
     else UpdateTargetLayers sp tp).

(** ** The virtual methods *)

Definition modify_sync (f : Sync -> Sync) : M State unit := modify (fun s => set_sync s (f (sync s))).

Definition UserOnTransportConnected_ (nowMs : Z) : M State unit :=
  _ ← modify_sync (fun y => with_keyFrame (with_required y true (-1)) false);
  active ← IsActive_;
  when active (MayChangeLayers false nowMs).

Definition stop : M State unit :=
  _ ← modify (fun s => set_sender (set_bwe s 0) (RtpStreamSend.Pause (sender s)));
  UpdateTargetLayers (-1) (-1).

Definition UserOnTransportDisconnected_ (_ : Z) : M State unit := stop.

Definition UserOnPaused_ (_ : Z) : M State unit :=
  _ ← stop;
  e ← gets (fun s => externallyManagedBitrate (consumer s));
  when e (emit OnConsumerNeedZeroBitrate).

Definition UserOnResumed_ (nowMs : Z) : M State unit :=
  _ ← modify_sync (fun y => with_old (with_keyFrame (with_required y true (-1)) false) (snReferenceSpatialLayer y) false);
  active ← IsActive_;
  when active (MayChangeLayers false nowMs).

#[global] Instance simulcast_virtual : Virtual State := {
  base := consumer;
  set_base := set_consumer;
  IsActive := IsActive_;
  UserOnTransportConnected := UserOnTransportConnected_;
  UserOnTransportDisconnected := UserOnTransportDisconnected_;
  UserOnPaused := UserOnPaused_;
  UserOnResumed := UserOnResumed_;
}.

(** The score of the producer stream that is forwarded. *)
Definition producer_score : M State Z :=
  reader (fun s str => o ← GetProducerCurrentRtpStream s str; mret (match o with Some r => score r | None => 0 end)).

#[global] Instance simulcast_sender : SingleStream State := {
  sender_virtual := simulcast_virtual;
  rtpStream := sender;
  set_rtpStream := set_sender;
  producerScore := producer_score;
}.

Definition OnRtpStreamScore (nowMs : Z) : M State unit :=
  _ ← EmitScore;
  active ← IsActive_;
  e ← gets (fun s => externallyManagedBitrate (consumer s));
  when (active && negb e) (MayChangeLayers false nowMs).

(** ** The constructor *)

Fixpoint map_ssrcs (l : list RtpParameters.Encoding) (idx : Z) (m : gmap Z Z) : gmap Z Z :=
  match l with [] => m | e :: l' => map_ssrcs l' (idx + 1) (<[RtpParameters.ssrc e := idx]> m) end.

Definition make (d : Data) (nowMs random : Z) : res (throws State) :=
  o ← Consumer.make Tools.SIMULCAST d;
  match o with
  | None => mret None
  | Some b =>
      e ← encoding b;
      if negb (RtpParameters.spatialLayers e =? zlen (consumableRtpEncodings b)) then mret None
      else
        match initial_layers d e with
        | None => mret None
        | Some (sp, tp) =>
            c ← RtpParameters.GetCodecForEncoding (rtpParameters b) e;
            let sub := RtpParameters.tools_subtype (RtpParameters.subtype c) in
            if negb (Tools.IsValidTypeForCodec Tools.SIMULCAST (RtpParameters.mimeType c) sub) then mret None
            else
              match Payload.GetEncodingContext (RtpParameters.mimeType c) sub (RtpParameters.spatialLayers e)
                      (RtpParameters.temporalLayers e) false with
              | None => Fault AssertFailed
              | Some ctx =>
                  s ← CreateRtpStream b true nowMs random;
                  mret (Some
                    {| consumer := b; sender := s;
                       mapMappedSsrcSpatialLayer := map_ssrcs (consumableRtpEncodings b) 0 ∅;
                       producerRtpStreams := replicate (length (consumableRtpEncodings b)) None;
                       layers := {| preferredSpatialLayer := sp; preferredTemporalLayer := tp;
                                    provisionalTargetSpatialLayer := -1; provisionalTargetTemporalLayer := -1;
                                    targetSpatialLayer := -1; targetTemporalLayer := -1; currentSpatialLayer := -1;
                                    tsReferenceSpatialLayer := -1 |};
                       sync := {| syncRequired := false; spatialLayerToSync := -1; lastSentPacketHasMarker := false;
                                  tsOffset := 0; keyFrameForTsOffsetRequested := false; snReferenceSpatialLayer := 0;
                                  checkingForOldPacketsInSpatialLayer := false |};
                       rtpSeqManager := Manager.init; encodingContext := ctx; lastBweDowngradeAtMs := 0 |})
              end
        end
  end.

(** ** Requests and events of the producer *)

Definition HandleRequest (r : Request) (nowMs : Z) : M State Answer :=
  match r with
  | RequestKeyFrame =>
      active ← IsActive_;
      _ ← when active RequestKeyFrames;
      mret Accepted
  | SetPreferredLayers spatial temporal =>
      s ← gets id;
      let l := layers s in
      match preferred_layers (GetSpatialLayers (sender s)) (GetTemporalLayers (sender s)) spatial temporal with
      | None => mret RejectedType
      | Some (sp, tp) =>
          _ ← modify (fun s => set_layers s (with_preferred (layers s) sp tp));
          active ← IsActive_;
          _ ← when (active && (negb (sp =? preferredSpatialLayer l) || negb (tp =? preferredTemporalLayer l)))
                (MayChangeLayers true nowMs);
          mret (AcceptedLayers sp tp)
      end
  | _ => Consumer.HandleRequest r nowMs
  end.

Definition ProducerRtpStream (a mappedSsrc : Z) : M State unit :=
  m ← gets mapMappedSsrcSpatialLayer;
  layer ← lift (match m !! mappedSsrc with Some v => Ok v | None => Fault AssertFailed end);
  l ← gets producerRtpStreams;
  _ ← lift (layer_at l layer);
  modify (fun s => set_streams s (<[Z.to_nat layer := Some a]> l)).

Definition ProducerNewRtpStream (a mappedSsrc nowMs : Z) : M State unit :=
  _ ← ProducerRtpStream a mappedSsrc;
  _ ← EmitScore;
  active ← IsActive_;
  when active (MayChangeLayers false nowMs).

Definition ProducerRtpStreamScore (score previousScore nowMs : Z) : M State unit :=
  _ ← EmitScore;
  b ← gets consumer;
  when (base_active b && (negb (externallyManagedBitrate b) || ((score =? 0) || (previousScore =? 0))))
    (MayChangeLayers false nowMs).

Definition ProducerRtcpSenderReport (first : bool) (nowMs : Z) : M State unit :=
  when first
    (c ← reader GetProducerCurrentRtpStream;
     when (match c with Some r => has_sr r | None => false end)
       (active ← IsActive_;
        when active (MayChangeLayers false nowMs))).

(** ** The bitrate *)

Definition GetBitratePriority : M State Z :=
  b ← gets consumer;
  _ ← lift (ms_assert (externallyManagedBitrate b));
  active ← IsActive_;
  mret (if (active : bool) then priority b else 0).

(** The stream of the provisional target layer. *)
Definition provisional_stream : M State Z :=
  s ← gets id;
  a ← lift (layer_at (producerRtpStreams s) (provisionalTargetSpatialLayer (layers s)));
  lift (deref a).

(** The bitrate that a layer requires, beyond what the provisional layers use. *)
Definition required_bitrate (a spatialLayer temporalLayer nowMs : Z) : M State Z :=
  required ← on_stream a (GetLayerBitrate nowMs 0 temporalLayer);
  l ← gets layers;
  if negb (required =? 0) && (temporalLayer =? 0) && (-1 <? provisionalTargetSpatialLayer l)
     && (provisionalTargetSpatialLayer l <? spatialLayer) then
    p ← provisional_stream;
    provisional ← on_stream p (GetBitrateUpTo nowMs 0 (provisionalTargetTemporalLayer l));
    mret (if provisional <? required then required - provisional else 1)
  else mret required.

(** The loop over the temporal layers of a spatial layer, [n] of them from [temporalLayer]:
    the first one above the provisional layers ends it. *)
Fixpoint temporal_loop (n : nat) (a spatialLayer temporalLayer nowMs : Z) : M State (option (Z * Z)) :=
  match n with
  | O => mret None
  | S n' =>
      l ← gets layers;
      if (spatialLayer =? provisionalTargetSpatialLayer l) && (temporalLayer <=? provisionalTargetTemporalLayer l)
      then temporal_loop n' a spatialLayer (temporalLayer + 1) nowMs
      else
        required ← required_bitrate a spatialLayer temporalLayer nowMs;
        mret (if negb (required =? 0) then Some (temporalLayer, required) else None)
  end.

(** Whether the stream of a layer is too young to be taken instead of the provisional one. *)
Definition too_young (r : RtpStreamRecv.State) (spatialLayer nowMs : Z) : M State bool :=
  l ← gets layers;
  if negb (spatialLayer =? provisionalTargetSpatialLayer l) && negb (provisionalTargetSpatialLayer l =? -1)
     && (active_ms r nowMs <? StreamMinActiveMs) then
    p ← provisional_stream;
    reader (fun _ str => q ← deref (str !! p); mret (StreamMinActiveMs <=? active_ms q nowMs))
  else mret false.

(** The loop over the spatial layers: the layers found and the bitrate they require. *)
Fixpoint spatial_loop (streams : list (option Z)) (spatialLayer nowMs : Z) : M State (option (Z * Z * Z)) :=
  match streams with
  | [] => mret None
  | o :: streams' =>
      s ← gets id;
      let l := layers s in
      if recent_downgrade s nowMs && (-1 <? provisionalTargetSpatialLayer l) && (currentSpatialLayer l <? spatialLayer)
      then mret None
      else if spatialLayer <? provisionalTargetSpatialLayer l then spatial_loop streams' (spatialLayer + 1) nowMs
      else
        match o with
        | None => spatial_loop streams' (spatialLayer + 1) nowMs
        | Some a =>
            r ← reader (fun _ str => deref (str !! a));
            young ← too_young r spatialLayer nowMs;
            if (young : bool) then spatial_loop streams' (spatialLayer + 1) nowMs
            else
              can ← reader (fun s str => CanSwitchToSpatialLayer s str spatialLayer);
              if negb can then spatial_loop streams' (spatialLayer + 1) nowMs
              else
                found ← temporal_loop (Z.to_nat (temporal_layers r)) a spatialLayer 0 nowMs;
                match found with
                | Some (temporalLayer, required) => mret (Some (spatialLayer, temporalLayer, required))
                | None =>
                    if preferredSpatialLayer l <=? spatialLayer then mret None
                    else spatial_loop streams' (spatialLayer + 1) nowMs
                end
        end
  end.

Definition IncreaseLayer (bitrate : Z) (considerLoss : bool) (nowMs : Z) : M State Z :=
  s ← gets id;
  let l := layers s in
  _ ← lift (ms_assert (externallyManagedBitrate (consumer s)));
  active ← IsActive_;
  _ ← lift (ms_assert active);
  if (provisionalTargetSpatialLayer l =? preferredSpatialLayer l)
     && (provisionalTargetTemporalLayer l =? preferredTemporalLayer l) then mret 0
  else
    virtual ← lift (virtual_bitrate (sender s) bitrate considerLoss);
    found ← spatial_loop (producerRtpStreams s) 0 nowMs;
    match found with
    | None => mret 0
    | Some (sp, tp, required) =>
        if virtual <? required then mret 0
        else
          _ ← modify (fun s => set_layers s (with_provisional (layers s) sp tp));
          mret (taken required virtual bitrate)
    end.

Definition ApplyLayers (nowMs : Z) : M State unit :=
  s ← gets id;
  _ ← lift (ms_assert (externallyManagedBitrate (consumer s)));
  active ← IsActive_;
  _ ← lift (ms_assert active);
  let sp := provisionalTargetSpatialLayer (layers s) in
  let tp := provisionalTargetTemporalLayer (layers s) in
  _ ← modify (fun s => set_layers s (with_provisional (layers s) (-1) (-1)));
  when (negb (sp =? targetSpatialLayer (layers s)) || negb (tp =? targetTemporalLayer (layers s)))
    (_ ← UpdateTargetLayers sp tp;
     s ← gets id;
     let l := layers s in
     when ((BweDowngradeMinActiveMs <? GetActiveMs (RtpStream.scoring (RtpStreamSend.base (sender s))) nowMs)
           && (targetSpatialLayer l <? currentSpatialLayer l) && (currentSpatialLayer l <=? preferredSpatialLayer l))
       (modify (fun s => set_bwe s nowMs))).

(** The highest bitrate of the streams, from the last one. *)
Fixpoint highest_bitrate (l : list (option Z)) (nowMs desired : Z) : M State Z :=
  match l with
  | [] => mret desired
  | None :: l' => highest_bitrate l' nowMs desired
  | Some a :: l' =>
      v ← on_stream a (GetBitrate nowMs);
      highest_bitrate l' nowMs (if desired <? v then v else desired)
  end.

Definition GetDesiredBitrate (nowMs : Z) : M State Z :=
  s ← gets id;
  _ ← lift (ms_assert (externallyManagedBitrate (consumer s)));
  active ← IsActive_;
  if negb active then mret 0
  else
    v ← highest_bitrate (reverse (producerRtpStreams s)) nowMs 0;
    e ← lift (encoding (consumer s));
    mret (if v <? RtpParameters.maxBitrate e then RtpParameters.maxBitrate e else v).

(** ** Sending *)

(** The difference between the timestamps of a stream and of the reference stream at the same
    time, from their last sender reports. *)
Definition ntp_offset (ntpMs1 ts1 ntpMs2 ts2 clockRate : Z) : Z :=
  let diffTs := Z.quot (i64 (i64 (ntpMs2 - ntpMs1) * clockRate)) 1000 in
  u32 (u32 (ts2 - diffTs) - ts1).

Definition clock_rate (s : State) : Z := RtpStream.clockRate (RtpStream.params (RtpStreamSend.base (sender s))).

Definition sync_offset (spatialLayer : Z) (s : State) (str : Streams) : res Z :=
  if spatialLayer =? tsReferenceSpatialLayer (layers s) then mret 0
  else
    o1 ← GetProducerTsReferenceRtpStream s str;
    o2 ← GetProducerTargetRtpStream s str;
    r1 ← deref o1;
    _ ← ms_assert (has_sr r1);
    r2 ← deref o2;
    _ ← ms_assert (has_sr r2);
    mret (ntp_offset (GetSenderReportNtpMs r1) (GetSenderReportTs r1) (GetSenderReportNtpMs r2) (GetSenderReportTs r2)
            (clock_rate s)).

(** Whether a packet of a layer is forwarded, and whether it is the one to switch at. *)
Definition select_layer (spatialLayer : Z) (isKeyFrame : bool) : M State (option bool) :=
  l ← gets layers;
  if negb (currentSpatialLayer l =? targetSpatialLayer l) && (spatialLayer =? targetSpatialLayer l) then
    if negb isKeyFrame then mret None
    else
      _ ← modify_sync (fun y => with_required y true spatialLayer);
      mret (Some true)
  else if negb (spatialLayer =? currentSpatialLayer l) then mret None
  else mret (Some false).

Definition max_packet_ts (s : State) : Z := SeqTracker.maxPacketTs (RtpStream.tracker (RtpStreamSend.base (sender s))).

(** The extra offset that takes a timestamp 33 ms after the highest one sent. *)
Definition extra_offset (s : State) (ts off : Z) : Z :=
  u32 (max_packet_ts s - ts + off + u32 (MsOffset * clock_rate s) / 1000).
Definition max_extra_offset (s : State) : Z := u32 (MaxExtraOffsetMs * clock_rate s) / 1000.

(** The offset to apply; none when the key frame is discarded and another one requested. *)
Definition switch_offset (switching : bool) (ts off : Z) : M State (option Z) :=
  s ← gets id;
  let extra := extra_offset s ts off in
  if negb switching || negb (u32 (ts - off) <=? max_packet_ts s) then mret (Some off)
  else if keyFrameForTsOffsetRequested (sync s) then
    mret (Some (u32 (off - (if max_extra_offset s <? extra then 1 else extra))))
  else if max_extra_offset s <? extra then
    _ ← RequestKeyFrameForTargetSpatialLayer;
    _ ← modify_sync (fun y => with_keyFrame (with_required y false (-1)) true);
    mret None
  else mret (Some (u32 (off - extra))).

(** Sequence number and timestamp are synchronized; false if the packet is discarded. *)
Definition synchronize (spatialLayer seq ts : Z) (switching : bool) : M State bool :=
  off ← reader (sync_offset spatialLayer);
  o ← switch_offset switching ts off;
  match o with
  | None => mret false
  | Some off =>
      _ ← modify (fun s =>
            let y := sync s in
            set_sync
              (set_context
                 (set_seq s (Manager.Sync 16 (rtpSeqManager s) (u16 (seq - (if lastSentPacketHasMarker y then 1 else 2)))))
                 (Payload.SyncRequired (encodingContext s)))
              (with_keyFrame (with_required (with_tsOffset y off) false (-1)) false));
      mret true
  end.

(** Whether a packet is from before the switch of layers. *)
Definition old_packet (seq : Z) (switching : bool) : M State bool :=
  y ← gets sync;
  if negb switching && checkingForOldPacketsInSpatialLayer y then
    if IsSeqLowerThan 16 seq (snReferenceSpatialLayer y) then mret true
    else
      _ ← when (IsSeqHigherThan 16 seq (u16 (snReferenceSpatialLayer y + MaxSequenceNumberGap)))
            (modify_sync (fun y => with_old y (snReferenceSpatialLayer y) false));
      mret false
  else mret false.

(** The first half of [SendRtpPacket]: none if the packet is dropped, otherwise whether the
    current spatial layer switches at it. *)
Definition prepare (spatialLayer seq ts : Z) (isKeyFrame : bool) : M State (option bool) :=
  selected ← select_layer spatialLayer isKeyFrame;
  match selected with
  | None => mret None
  | Some switching =>
      y ← gets sync;
      if syncRequired y && negb isKeyFrame then mret None
      else
        ok ← (if syncRequired y && ((spatialLayerToSync y =? -1) || (spatialLayerToSync y =? spatialLayer))
              then synchronize spatialLayer seq ts switching else mret true);
        if negb ok then mret None
        else
          old ← old_packet seq switching;
          mret (if (old : bool) then None else Some switching)
  end.

(** The current spatial layer becomes the target one. *)
Definition switch_layer (seq temporalLayer nowMs : Z) : M State unit :=
  _ ← modify (fun s =>
        let l := layers s in
        let b := RtpStreamSend.base (sender s) in
        let f c := EncodingContext.SetCurrentTemporalLayer (EncodingContext.SetTargetTemporalLayer c (targetTemporalLayer l)) temporalLayer in
        set_sender
          (set_context
             (set_sync (set_layers s (with_current l (targetSpatialLayer l))) (with_old (sync s) seq true))
             (Payload.on_context f (encodingContext s)))
          (RtpStreamSend.set_base (sender s)
             (RtpStream.set_scoring b (RtpStream.ResetScore (RtpStream.scoring b) 10 false nowMs).1)));
  _ ← EmitLayersChange;
  EmitScore.

(** The payload is processed for this consumer: whether to send it, and the packet. *)
Definition process (p : RtpPacket.t) (d : option Tools.Descriptor) (seq nowMs : Z) (switching : bool)
    : M State (bool * RtpPacket.t) :=
  if switching then
    _ ← switch_layer seq (Tools.GetTemporalLayer d) nowMs;
    c ← gets encodingContext;
    '(_, c, p, _) ← lift (Payload.ProcessPayload p d c false);
    _ ← modify (fun s => set_context s c);
    mret (true, p)
  else
    c ← gets encodingContext;
    let previous := EncodingContext.currentTemporalLayer (Payload.context c) in
    '(ok, c, p, _) ← lift (Payload.ProcessPayload p d c false);
    _ ← modify (fun s => set_context s c);
    if negb ok then
      _ ← modify (fun s => set_seq s (Manager.Drop 16 (rtpSeqManager s) seq));
      mret (false, p)
    else
      _ ← when (negb (previous =? EncodingContext.currentTemporalLayer (Payload.context c))) EmitLayersChange;
      mret (true, p).

(** The second half of [SendRtpPacket]. *)
Definition send (p : RtpPacket.t) (d : option Tools.Descriptor) (seq ts : Z) (shared : option Z) (junk : list Z) (nowMs : Z)
    : M State (RtpPacket.t * option Z) :=
  s ← gets id;
  let '(o, m) := Manager.Input 16 (rtpSeqManager s) seq in
  _ ← modify (fun s => set_seq s m);
  out ← lift (initialized o);
  let timestamp := u32 (ts - tsOffset (sync s)) in
  '(p, shared) ← deliver p out (fun q => RtpPacket.SetTimestamp q timestamp) (fun q => RtpPacket.SetTimestamp q ts)
                   (Tools.IsKeyFrame d) shared junk nowMs
                   (fun q => marker ← lift (RtpPacket.HasMarker q);
                             when (Manager.maxOutput m =? out) (modify_sync (fun y => with_marker y marker)));
  p ← lift (Payload.RestorePayload p d);
  mret (p, shared).

(** [SendRtpPacket]: the packet, with its payload descriptor, comes back to be given to the
    next consumer; [shared] is the copy that the consumers share. *)
Definition SendRtpPacket (p : RtpPacket.t) (d : option Tools.Descriptor) (shared : option Z) (junk : list Z) (nowMs : Z)
    : M State (RtpPacket.t * option Z) :=
  active ← IsActive_;
  s ← gets id;
  if negb active then mret (p, shared)
  else if targetTemporalLayer (layers s) =? -1 then mret (p, shared)
  else
    pt ← lift (RtpPacket.GetPayloadType p);
    supported ← lift (supports (consumer s) pt);
    if negb supported then mret (p, shared)
    else
      ssrc ← lift (RtpPacket.GetSsrc p);
      spatialLayer ← lift (match mapMappedSsrcSpatialLayer s !! ssrc with Some v => Ok v | None => Fault OutOfBounds end);
      seq ← lift (RtpPacket.GetSequenceNumber p);
      ts ← lift (RtpPacket.GetTimestamp p);
      prepared ← prepare spatialLayer seq ts (Tools.IsKeyFrame d);
      match prepared with
      | None => mret (p, shared)
      | Some switching =>
          '(ok, p) ← process p d seq nowMs switching;
          if negb ok then mret (p, shared) else send p d seq ts shared junk nowMs
      end.

End SimulcastConsumer.
