(* ===== verification/SimulcastSpec.v ===== *)
(** * Simulcast consumers: the layers over all histories

    The assertions of the simulcast consumer never fail as long as the sender reports of the
    producer's streams stay set and the requested temporal layers fit in 15 bits; what
    happens otherwise; which layer is selected; and what is sent when the layer switches. *)

From Stdlib Require Import SpecFloat.
From stdpp Require Import gmap.
From S2P Require Import Prelude Utils Float SeqManager RateCalculator RtcpPacket RtcpFeedback RtcpXr Rtcp RtpPacket Codecs Payload.
From S2P Require Import RtpParameters RtpStream RtpStreamRecv RtpStreamSend Consumer ConsumerSpec SimulcastConsumer.

Module SimulcastSpec.

Import Consumer Sender SimulcastConsumer.

(** ** The invariant *)

(** The stream of a layer. *)
Definition at_layer (s : State) (str : Streams) (layer : Z) (r : RtpStreamRecv.State) : Prop :=
  0 <= layer /\ exists a, producerRtpStreams s !! Z.to_nat layer = Some (Some a) /\ str !! a = Some r.

Definition present (s : State) (str : Streams) (layer : Z) : Prop := exists r, at_layer s str layer r.

Definition reported (s : State) (str : Streams) (layer : Z) : Prop := exists r, at_layer s str layer r /\ has_sr r = true.

(** A spatial and a temporal layer that a stream has. *)
Definition has_layers (s : State) (str : Streams) (sp tp : Z) : Prop := exists r, at_layer s str sp r /\ 0 <= tp < temporal_layers r.

(** The timestamps of a layer can be related to those of the reference layer. *)
Definition switchable (s : State) (str : Streams) (layer : Z) : Prop :=
  let ref := tsReferenceSpatialLayer (layers s) in
  layer = ref \/ (reported s str ref /\ reported s str layer).

Definition simulcast_context (c : Payload.Context) : Prop :=
  match c with Payload.CVP8 _ | Payload.CH264 _ => True | _ => False end.

Definition context_target (s : State) : Z := EncodingContext.targetTemporalLayer (Payload.context (encodingContext s)).

Record Inv (s : State) (str : Streams) : Prop := {
  inv_len : length (producerRtpStreams s) = length (consumableRtpEncodings (consumer s));
  inv_valid : forall i a, producerRtpStreams s !! i = Some (Some a) -> is_Some (str !! a);
  inv_map : forall ssrc layer, mapMappedSsrcSpatialLayer s !! ssrc = Some layer -> 0 <= layer < zlen (producerRtpStreams s);
  inv_ref : tsReferenceSpatialLayer (layers s) = -1 \/ present s str (tsReferenceSpatialLayer (layers s));
  inv_target : (targetSpatialLayer (layers s) = -1 /\ targetTemporalLayer (layers s) = -1) \/
    (present s str (targetSpatialLayer (layers s)) /\ switchable s str (targetSpatialLayer (layers s)) /\
     0 <= targetTemporalLayer (layers s));
  inv_current : currentSpatialLayer (layers s) = -1 \/
    (present s str (currentSpatialLayer (layers s)) /\ switchable s str (currentSpatialLayer (layers s)) /\
     0 <= context_target s);
  inv_provisional : (provisionalTargetSpatialLayer (layers s) = -1 /\ provisionalTargetTemporalLayer (layers s) = -1) \/
    (externallyManagedBitrate (consumer s) = true /\
     has_layers s str (provisionalTargetSpatialLayer (layers s)) (provisionalTargetTemporalLayer (layers s)) /\
     (tsReferenceSpatialLayer (layers s) = -1 \/ switchable s str (provisionalTargetSpatialLayer (layers s))));
  inv_preferred : 0 <= preferredTemporalLayer (layers s);
  inv_temporal : 1 <= GetTemporalLayers (sender s);
  inv_context : simulcast_context (encodingContext s);
  inv_scores : producerRtpStreamScores (consumer s) = true;
}.

(** ** Streams *)

Lemma layer_at_Ok {A} (l : list A) i x : 0 <= i -> l !! Z.to_nat i = Some x -> TransmissionCounter.layer_at l i = Ok x.
Proof. intros Hi H. unfold TransmissionCounter.layer_at. rewrite H. by destruct (Z.leb_spec 0 i); [|lia]. Qed.

Lemma layer_at_range {A} (l : list A) i : 0 <= i < zlen l -> exists x, TransmissionCounter.layer_at l i = Ok x /\ l !! Z.to_nat i = Some x.
Proof.
  intros Hi. destruct (lookup_lt_is_Some_2 l (Z.to_nat i)) as [x Hx]; [unfold zlen in Hi; lia|].
  exists x. split; [apply layer_at_Ok; [lia|done]|done].
Qed.

Lemma at_layer_range s str layer r : at_layer s str layer r -> 0 <= layer < zlen (producerRtpStreams s).
Proof. intros [H (a & Ha & _)]. apply lookup_lt_Some in Ha. unfold zlen. lia. Qed.

Lemma stream_of_Ok s str layer r : at_layer s str layer r -> stream_of s str layer = Ok (Some r).
Proof.
  intros [H (a & Ha & Hr)]. unfold stream_of. destruct (Z.eqb_spec layer (-1)); [lia|].
  rewrite (layer_at_Ok _ _ _ H Ha). cbn [mbind res_bind]. unfold deref. by rewrite Hr.
Qed.

Lemma at_layer_inj s str layer r r' : at_layer s str layer r -> at_layer s str layer r' -> r = r'.
Proof. intros [_ (a & Ha & Hr)] [_ (a' & Ha' & Hr')]. congruence. Qed.

(** What the streams of the producer may do between two calls: they stay, with their numbers
    of layers, and their sender reports stay set. *)
Definition evolves (str str' : Streams) : Prop :=
  forall a r, str !! a = Some r ->
    exists r', str' !! a = Some r' /\ (has_sr r = true -> has_sr r' = true) /\ temporal_layers r' = temporal_layers r.

Lemma evolves_refl str : evolves str str.
Proof. intros a r H. by exists r. Qed.

Lemma evolves_insert str a r r' :
  str !! a = Some r -> (has_sr r = true -> has_sr r' = true) -> temporal_layers r' = temporal_layers r ->
  evolves str (<[a := r']> str).
Proof.
  intros Ha Hsr Ht b x Hb. destruct (decide (a = b)) as [<-|Hne].
  - exists r'. rewrite lookup_insert_eq. replace x with r in * by congruence. done.
  - exists x. by rewrite lookup_insert_ne.
Qed.

Lemma present_evolves s str str' layer : evolves str str' -> present s str layer -> present s str' layer.
Proof. intros He (r & H & a & Ha & Hr). destruct (He _ _ Hr) as (r' & Hr' & _). exists r'. split; [done|]. by exists a. Qed.

Lemma reported_evolves s str str' layer : evolves str str' -> reported s str layer -> reported s str' layer.
Proof.
  intros He (r & [H (a & Ha & Hr)] & Hsr). destruct (He _ _ Hr) as (r' & Hr' & Hsr' & _). exists r'. split; [|auto].
  split; [done|]. by exists a.
Qed.

Lemma has_layers_evolves s str str' sp tp : evolves str str' -> has_layers s str sp tp -> has_layers s str' sp tp.
Proof.
  intros He (r & [H (a & Ha & Hr)] & Ht). destruct (He _ _ Hr) as (r' & Hr' & _ & E). exists r'. rewrite E.
  split; [split; [done|by exists a]|done].
Qed.

Lemma has_layers_present s str sp tp : has_layers s str sp tp -> present s str sp /\ 0 <= tp.
Proof. intros (r & Hr & ?). split; [by exists r|lia]. Qed.

Lemma switchable_evolves s str str' layer : evolves str str' -> switchable s str layer -> switchable s str' layer.
Proof. intros He [H|[H1 H2]]; [by left|right]. eauto using reported_evolves. Qed.

Lemma Inv_evolves s str str' : evolves str str' -> Inv s str -> Inv s str'.
Proof.
  intros He []. split; try done.
  - intros i a Ha. destruct (inv_valid0 i a Ha) as [r Hr]. destruct (He _ _ Hr) as (r' & -> & _). by eexists.
  - destruct inv_ref0; eauto using present_evolves.
  - destruct inv_target0 as [|(? & ? & ?)]; [by left|right]. eauto using present_evolves, switchable_evolves.
  - destruct inv_current0 as [|(? & ? & ?)]; [by left|right]. eauto using present_evolves, switchable_evolves.
  - destruct inv_provisional0 as [|(? & ? & [|])]; [by left|right..]; split_and!; eauto using has_layers_evolves, switchable_evolves.
Qed.

(** The invariant looks at these members only. *)
Definition same_key (s s' : State) : Prop :=
  producerRtpStreams s' = producerRtpStreams s /\ layers s' = layers s /\
  mapMappedSsrcSpatialLayer s' = mapMappedSsrcSpatialLayer s /\
  consumableRtpEncodings (consumer s') = consumableRtpEncodings (consumer s) /\
  (externallyManagedBitrate (consumer s) = true -> externallyManagedBitrate (consumer s') = true) /\
  (producerRtpStreamScores (consumer s) = true -> producerRtpStreamScores (consumer s') = true) /\
  context_target s' = context_target s /\ GetTemporalLayers (sender s') = GetTemporalLayers (sender s) /\
  (simulcast_context (encodingContext s) -> simulcast_context (encodingContext s')).

Lemma Inv_key s s' str : same_key s s' -> Inv s str -> Inv s' str.
Proof.
  intros (Hp & Hl & Hm & Hc & He & Hsc & Hct & Ht & Hctx) [].
  assert (Hat : forall layer r, at_layer s str layer r -> at_layer s' str layer r) by (intros; unfold at_layer; by rewrite Hp).
  assert (Hpres : forall layer, present s str layer -> present s' str layer) by (intros layer [r Hr]; exists r; auto).
  assert (Hhas : forall sp tp, has_layers s str sp tp -> has_layers s' str sp tp) by (intros sp tp (r & Hr & ?); exists r; auto).
  assert (Hrep : forall layer, reported s str layer -> reported s' str layer) by (intros layer (r & Hr & Hsr); exists r; auto).
  assert (Hsw : forall layer, switchable s str layer -> switchable s' str layer).
  { intros layer [H|[H1 H2]]; unfold switchable; rewrite Hl; [by left|right; auto]. }
  split; rewrite ?Hl, ?Hp, ?Hm, ?Hc, ?Hct, ?Ht; eauto.
  - destruct inv_ref0; auto.
  - destruct inv_target0 as [|(? & ? & ?)]; [by left|right; auto].
  - destruct inv_current0 as [|(? & ? & ?)]; [by left|right; auto].
  - destruct inv_provisional0 as [|(? & ? & [|])]; [by left|right..]; split_and!; auto.
Qed.

(** ** The invariant is kept *)

Abbreviation keeps := (keeps Inv).
Abbreviation safe := (safe Inv).

(** Changes of the members that the invariant does not look at. *)
Lemma keeps_modify_key E f : (forall s, same_key s (f s)) -> holds Inv E (modify f).
Proof. intros H. apply keeps_modify. intros s str. by apply Inv_key. Qed.

Ltac key := repeat split; intros; cbn; auto.

Lemma keeps_IsActive : keeps IsActive_.
Proof. apply keeps_reader. Qed.

Lemma keeps_modify_sync E f : holds Inv E (modify_sync f).
Proof. apply keeps_modify_key. key. Qed.

#[export] Hint Resolve keeps_IsActive keeps_modify_sync : keeps.

(** The stream of one of the layers that the consumer keeps. *)
Lemma stream_of_safe s str layer : layer = -1 \/ present s str layer ->
  exists o, stream_of s str layer = Ok o /\ match o with None => layer = -1 | Some r => at_layer s str layer r end.
Proof. intros [->|[r Hr]]; [by exists None|]. exists (Some r). by rewrite (stream_of_Ok _ _ _ _ Hr). Qed.

Lemma target_layer s str : Inv s str -> targetSpatialLayer (layers s) = -1 \/ present s str (targetSpatialLayer (layers s)).
Proof. intros []. destruct inv_target0 as [[]|(? & _)]; auto. Qed.

Lemma current_layer s str : Inv s str -> currentSpatialLayer (layers s) = -1 \/ present s str (currentSpatialLayer (layers s)).
Proof. intros []. destruct inv_current0 as [|(? & _)]; auto. Qed.

Lemma wp_request_key_frame layer o w (Q : unit -> World State -> Prop) : Inv (self w) (streams w) ->
  match o with None => layer = -1 | Some r => at_layer (self w) (streams w) layer r end ->
  (forall w', self w' = self w -> streams w' = streams w -> Q tt w') ->
  wp (request_key_frame layer o) Q (fun _ => False) w.
Proof.
  intros Hw Ho HQ. destruct o as [r|]; [|by apply wp_ret, HQ]. cbn [request_key_frame]. apply wp_bind, wp_gets, wp_bind, wp_lift.
  apply at_layer_range in Ho. destruct (layer_at_range (consumableRtpEncodings (consumer (self w))) layer) as (e & -> & _).
  { unfold zlen in *. by rewrite <- (inv_len _ _ Hw). }
  by apply wp_emit, HQ.
Qed.

(** Reading the streams of the target and of the current layer. *)
Lemma wp_target w (Q : option RtpStreamRecv.State -> World State -> Prop) : Inv (self w) (streams w) ->
  (forall o, match o with None => targetSpatialLayer (layers (self w)) = -1
     | Some r => at_layer (self w) (streams w) (targetSpatialLayer (layers (self w))) r end -> Q o w) ->
  wp (reader GetProducerTargetRtpStream) Q (fun _ => False) w.
Proof.
  intros Hw HQ. apply wp_reader. destruct (stream_of_safe _ _ _ (target_layer _ _ Hw)) as (o & Ho & Hat).
  unfold GetProducerTargetRtpStream. rewrite Ho. by apply HQ.
Qed.

Lemma wp_current w (Q : option RtpStreamRecv.State -> World State -> Prop) : Inv (self w) (streams w) ->
  (forall o, match o with None => currentSpatialLayer (layers (self w)) = -1
     | Some r => at_layer (self w) (streams w) (currentSpatialLayer (layers (self w))) r end -> Q o w) ->
  wp (reader GetProducerCurrentRtpStream) Q (fun _ => False) w.
Proof.
  intros Hw HQ. apply wp_reader. destruct (stream_of_safe _ _ _ (current_layer _ _ Hw)) as (o & Ho & Hat).
  unfold GetProducerCurrentRtpStream. rewrite Ho. by apply HQ.
Qed.

Lemma wp_RequestTarget w (Q : unit -> World State -> Prop) : Inv (self w) (streams w) ->
  (forall w', self w' = self w -> streams w' = streams w -> Q tt w') ->
  wp RequestKeyFrameForTargetSpatialLayer Q (fun _ => False) w.
Proof.
  intros Hw HQ. apply wp_bind, wp_gets, wp_when; intros _; [|by apply HQ]. apply wp_bind, wp_gets, wp_bind, wp_target; [done|].
  intros o Ho. by apply wp_request_key_frame.
Qed.

Lemma safe_RequestTarget : safe RequestKeyFrameForTargetSpatialLayer.
Proof. intros w Hw. apply wp_RequestTarget; [done|]. by intros w' -> ->. Qed.

Lemma safe_RequestCurrent : safe RequestKeyFrameForCurrentSpatialLayer.
Proof.
  intros w Hw. apply wp_bind, wp_gets, wp_when; intros _; [|exact Hw]. apply wp_bind, wp_gets, wp_bind, wp_current; [done|].
  intros o Ho. apply wp_request_key_frame; [done..|]. by intros w' -> ->.
Qed.

Lemma safe_RequestKeyFrames : safe RequestKeyFrames.
Proof.
  intros w Hw. apply wp_bind, wp_gets, wp_when; intros _; [|exact Hw].
  apply wp_bind, wp_gets, wp_bind, wp_target; [done|]. intros o Ho. apply wp_bind, wp_current; [done|]. intros o' Ho'.
  apply wp_bind, wp_gets, wp_bind, wp_gets, wp_bind, wp_request_key_frame; [done..|]. intros w' Es Estr.
  apply wp_when; intros _; [|by rewrite Es, Estr]. apply wp_request_key_frame; rewrite ?Es, ?Estr; [done..|].
  by intros w2 -> ->.
Qed.

Lemma safe_EmitLayersChange : safe EmitLayersChange.
Proof. unfold EmitLayersChange. apply keeps_bind; [apply keeps_gets|]. intros s. apply keeps_emit. Qed.

#[export] Hint Resolve safe_RequestTarget safe_RequestCurrent safe_RequestKeyFrames safe_EmitLayersChange : keeps.

Lemma sender_stream s str v : Inv s str ->
  RtpStream.params (RtpStreamSend.base v) = RtpStream.params (RtpStreamSend.base (sender s)) -> Inv (set_sender s v) str.
Proof. intros Hs Hv. eapply Inv_key; [|exact Hs]. key. unfold GetTemporalLayers. cbn. by rewrite Hv. Qed.

Lemma consumer_rtcp s str t : Inv s str -> Inv (set_consumer s (set_rtcp (consumer s) t)) str.
Proof. apply Inv_key. key. Qed.

Lemma safe_EmitScore : safe EmitScore.
Proof.
  intros w Hw. unfold EmitScore. apply wp_bind, wp_gets, wp_bind, wp_lift. replace (producerRtpStreamScores (base (self w))) with true by (symmetry; exact (inv_scores _ _ Hw)). cbn [ms_assert].
  apply wp_bind, wp_gets, wp_bind, wp_reader.
  destruct (stream_of_safe _ _ _ (current_layer _ _ Hw)) as (o & Ho & _). unfold GetProducerCurrentRtpStream. rewrite Ho.
  by apply wp_bind, wp_scores, wp_emit.
Qed.

#[export] Hint Resolve safe_EmitScore : keeps.

(** *** Target layers *)

Lemma present_range s str layer : present s str layer -> 0 <= layer < zlen (producerRtpStreams s).
Proof. intros [r Hr]. exact (at_layer_range _ _ _ _ Hr). Qed.

Lemma switchable_ref s str layer : present s str layer -> switchable s str layer -> tsReferenceSpatialLayer (layers s) <> -1.
Proof.
  intros Hp [<-|[[r [Hr _]] _]] E; [apply present_range in Hp; lia|]. rewrite E in Hr. apply at_layer_range in Hr. lia.
Qed.

(** A layer that may become the target. *)
Definition candidate (s : State) (str : Streams) (layer temporal : Z) : Prop :=
  layer = -1 \/ (present s str layer /\ (tsReferenceSpatialLayer (layers s) = -1 \/ switchable s str layer) /\ 0 <= temporal).

Lemma wp_UpdateTargetLayers sp tp w (Q : unit -> World State -> Prop) :
  Inv (self w) (streams w) -> candidate (self w) (streams w) sp tp ->
  (sp <> -1 -> provisionalTargetSpatialLayer (layers (self w)) = -1 /\ provisionalTargetTemporalLayer (layers (self w)) = -1) ->
  (forall w', Inv (self w') (streams w') -> streams w' = streams w -> sender (self w') = sender (self w) ->
    consumer (self w') = consumer (self w) -> producerRtpStreams (self w') = producerRtpStreams (self w) -> Q tt w') ->
  wp (UpdateTargetLayers sp tp) Q (fun _ => False) w.
Proof.
  intros Hw Hc Hprov HQ. unfold UpdateTargetLayers. apply wp_bind, wp_modify.
  destruct (Z.eqb_spec sp (-1)) as [->|Hsp]; cbn [negb andb].
  - apply wp_bind, wp_modify, wp_bind, wp_modify. unfold EmitLayersChange. apply wp_bind, wp_gets, wp_emit. apply HQ; try done.
    destruct Hw. split; cbn; try done; [by left..|]. by destruct (encodingContext (self w)).
  - destruct Hc as [|(Hp & Hr & Htp)]; [done|]. destruct (Hprov Hsp) as [Hps Hpt]. set (s := self w) in *. set (str := streams w) in *.
    set (s1 := if tsReferenceSpatialLayer (layers s) =? -1 then set_layers s (with_reference (layers s) sp) else s).
    assert (Hs1 : Inv s1 str /\ switchable s1 str sp /\ layers s1 = (if tsReferenceSpatialLayer (layers s) =? -1 then with_reference (layers s) sp else layers s)
      /\ producerRtpStreams s1 = producerRtpStreams s /\ consumer s1 = consumer s /\ sender s1 = sender s).
    { unfold s1. destruct (Z.eqb_spec (tsReferenceSpatialLayer (layers s)) (-1)) as [E|E].
      - split_and!; [|by left|done..].
        assert (Hnot : forall layer, present s str layer /\ switchable s str layer -> False).
        { intros layer [H1 H2]. exact (switchable_ref _ _ _ H1 H2 E). }
        destruct Hw. split; cbn; try done.
        + by right.
        + destruct inv_target0 as [|(H1 & H2 & _)]; [by left|]. exfalso; eauto.
        + destruct inv_current0 as [|(H1 & H2 & _)]; [by left|]. exfalso; eauto.
        + by left.
      - split_and!; try done. by destruct Hr. }
    destruct Hs1 as (Hw1 & Hsw & Hl1 & Hp1 & Hc1 & Hsd1).
    apply wp_bind, wp_modify. cbn [self set_self]. fold s1. set (s2 := set_layers s1 (with_target (layers s1) sp tp)).
    assert (Hpresent : present s1 str sp) by (destruct Hp as (r & H & a & Ha & Hra); exists r; split; [done|]; exists a; by rewrite Hp1).
    assert (Hw2 : Inv s2 str).
    { destruct Hw1. split; cbn; try done. by right. }
    apply wp_bind, wp_gets. change (self (set_self (set_self w s1) s2)) with s2.
    destruct (Z.eqb_spec sp (currentSpatialLayer (layers s2))) as [E|E]; cbn [when negb].
    + apply wp_bind, wp_modify, wp_ret. apply HQ; try done; cbn.
      destruct Hw2. split; cbn; try done.
      * destruct inv_current0 as [|(? & ? & _)]; [by left|right]. split_and!; [done..|]. unfold context_target. cbn. by destruct (encodingContext s1).
      * revert inv_context0. cbn. by destruct (encodingContext s1).
    + apply wp_bind, wp_ret, wp_RequestTarget; [exact Hw2|]. intros w' Es Estr. apply HQ; by rewrite ?Es, ?Estr.
Qed.

(** ** Which layer is selected *)

Section Select.

Context (s : State) (str : Streams) (nowMs : Z) (Hs : Inv s str).

Let ref := tsReferenceSpatialLayer (layers s).
Let preferred := preferredSpatialLayer (layers s).

(** The producer sends the layer, and its timestamps can be related to what was sent. *)
Definition usable (i : Z) : Prop :=
  exists r, at_layer s str i r /\ score r <> 0 /\ (ref = -1 \/ switchable s str i).

(** When the transport manages the bitrate the stream has been active for two seconds; and a
    layer above the current one is not taken soon after a downgrade. *)
Definition settled (i : Z) : Prop :=
  (externallyManagedBitrate (consumer s) = true -> forall r, at_layer s str i r -> StreamMinActiveMs <= active_ms r nowMs) /\
  (recent_downgrade s nowMs = true -> i <= currentSpatialLayer (layers s)).

(** The layers to choose from: the first usable one, and the settled ones after it. *)
Definition selectable (i : Z) : Prop := usable i /\ ((forall j, 0 <= j < i -> ~ usable j) \/ settled i).

(** The choice: the lowest one from the preferred layer upwards, or else the highest one. *)
Definition chosen (sp : Z) : Prop :=
  (sp = -1 /\ (forall i, ~ usable i)) \/
  (selectable sp /\
   ((preferred <= sp /\ (forall i, selectable i -> i < sp -> i < preferred)) \/
    (sp < preferred /\ (forall i, selectable i -> i <= sp)))).

Lemma at_layer_of i a : 0 <= i -> producerRtpStreams s !! Z.to_nat i = Some (Some a) -> exists r, str !! a = Some r /\ at_layer s str i r.
Proof. intros Hi Ha. destruct (inv_valid _ _ Hs _ _ Ha) as [r Hr]. exists r. split; [done|]. split; [done|]. by exists a. Qed.

Lemma can_switch i r : at_layer s str i r ->
  exists b, CanSwitchToSpatialLayer s str i = Ok b /\ (b = true <-> ref = -1 \/ switchable s str i).
Proof.
  intros Hat. pose proof Hat as [Hi (a & Ha & Hr)]. unfold CanSwitchToSpatialLayer. rewrite (layer_at_Ok _ _ _ Hi Ha).
  cbn [mbind res_bind]. fold ref. destruct (Z.eqb_spec ref (-1)) as [E|E]; [exists true; split; [done|]; by split; [left|]|].
  destruct (Z.eqb_spec i ref) as [E'|E']; cbn [orb]; [exists true; split; [done|]; by split; [right; left|]|].
  destruct (inv_ref _ _ Hs) as [|[q Hq]]; [done|]. unfold GetProducerTsReferenceRtpStream. rewrite (stream_of_Ok _ _ _ _ Hq).
  cbn [mbind res_bind deref]. destruct (has_sr q) eqn:Esr; cbn [negb].
  - exists (has_sr r). rewrite Hr. cbn [deref mbind res_bind mret res_ret]. split; [done|]. split.
    + intros Er. right. right. split; [by exists q|by exists r].
    + intros [|[|[_ (r' & Hr' & Esr')]]]; [done..|]. by rewrite (at_layer_inj _ _ _ _ _ Hat Hr').
  - exists false. split; [done|]. split; [done|]. intros [|[|[(q' & Hq' & Esr') _]]]; [done..|].
    by rewrite (at_layer_inj _ _ _ _ _ Hq Hq'), Esr' in Esr.
Qed.

Lemma eligible_spec i best a : 0 <= i -> producerRtpStreams s !! Z.to_nat i = Some a -> -1 <= best ->
  exists b, eligible s str nowMs a i best = Ok b /\ (b = true <-> usable i /\ (best = -1 \/ settled i)).
Proof.
  intros Hi Ha Hb. unfold eligible.
  destruct (recent_downgrade s nowMs && (-1 <? best) && (currentSpatialLayer (layers s) <? i)) eqn:Erec.
  { exists false. split; [done|]. split; [done|]. intros [_ [->|[_ Hset]]]; [by rewrite andb_false_r in Erec|].
    apply andb_true_iff in Erec as [Erec E3]. apply andb_true_iff in Erec as [E1 E2]. specialize (Hset E1). lia. }
  destruct a as [a|]; [|exists false; split; [done|]; split; [done|]; intros [(r & [_ (a & Ha' & _)] & _) _]; congruence].
  destruct (at_layer_of i a Hi Ha) as (r & Hr & Hat). rewrite Hr. cbn [deref mbind res_bind].
  destruct (Z.eqb_spec (score r) 0) as [Esc|Esc].
  { exists false. split; [done|]. split; [done|]. intros [(r' & Hr' & Hsc & _) _]. by rewrite (at_layer_inj _ _ _ _ _ Hr' Hat) in Hsc. }
  destruct (can_switch i r Hat) as (b & Hcan & Hbi).
  assert (Husable : usable i <-> ref = -1 \/ switchable s str i).
  { split; [by intros (r' & _ & _ & H)|]. intros H. by exists r. }
  destruct (externallyManagedBitrate (consumer s) && negb (best =? -1) && (active_ms r nowMs <? StreamMinActiveMs)) eqn:Eext.
  { exists false. split; [done|]. split; [done|]. intros [_ [->|[Hset _]]]; [by rewrite andb_false_r in Eext|].
    apply andb_true_iff in Eext as [Eext E3]. apply andb_true_iff in Eext as [E1 E2]. specialize (Hset E1 r Hat). lia. }
  exists b. split; [done|]. rewrite Hbi, Husable. split; [|by intros [H _]]. intros H. split; [done|].
  destruct (Z.eq_dec best (-1)) as [|Hne]; [by left|right]. split.
  - intros Hext r' Hr'. rewrite (at_layer_inj _ _ _ _ _ Hr' Hat). rewrite Hext in Eext.
    destruct (Z.eqb_spec best (-1)); [done|]. cbn [negb andb] in Eext. lia.
  - intros Hrec. rewrite Hrec in Erec. destruct (Z.ltb_spec (-1) best); [|lia]. cbn [andb] in Erec. lia.
Qed.

(** What the loop knows of the layers below [i]. *)
Definition best_below (i best : Z) : Prop :=
  (best = -1 /\ (forall j, 0 <= j < i -> ~ usable j)) \/
  (0 <= best < i /\ best < preferred /\ selectable best /\ (forall j, j < i -> selectable j -> j <= best) /\ usable best).

Lemma usable_range i : usable i -> 0 <= i < zlen (producerRtpStreams s).
Proof. intros (r & Hr & _). exact (at_layer_range _ _ _ _ Hr). Qed.

(** Whether the layer is selectable, for the loop. *)
Lemma selectable_next i best : 0 <= i -> best_below i best -> (usable i /\ (best = -1 \/ settled i) <-> selectable i).
Proof.
  intros Hi [[-> Hno]|(Hbest & _ & _ & _ & Hu)].
  - split; [by intros [H _]; split; [|left]|]. intros [H _]. by split; [|left].
  - split; [intros [H [->|H2]]; [lia|by split; [|right]]|]. intros [H [Hno|H2]]; [by destruct (Hno best Hbest)|by split; [|right]].
Qed.

Lemma recalculate_loop_spec l : forall i best, 0 <= i -> drop (Z.to_nat i) (producerRtpStreams s) = l -> best_below i best ->
  exists sp, recalculate_loop s str nowMs l i best = Ok sp /\ chosen sp.
Proof.
  induction l as [|a l IH]; intros i best Hi Hl Hb; cbn [recalculate_loop].
  - exists best. split; [done|]. assert (Hlen : zlen (producerRtpStreams s) <= i).
    { unfold zlen. assert (length (drop (Z.to_nat i) (producerRtpStreams s)) = 0%nat) by (by rewrite Hl). rewrite length_drop in *. lia. }
    destruct Hb as [[-> Hno]|(Hbi & Hbp & Hsel & Hmax & _)].
    + left. split; [done|]. intros j Hj. pose proof (usable_range j Hj). by apply (Hno j); [lia|].
    + right. split; [done|]. right. split; [done|]. intros j Hj. pose proof (usable_range j (proj1 Hj)). apply Hmax; [lia|done].
  - assert (Ha : producerRtpStreams s !! Z.to_nat i = Some a).
    { rewrite <- (Nat.add_0_r (Z.to_nat i)), <- lookup_drop, Hl. done. }
    assert (Hl' : drop (Z.to_nat (i + 1)) (producerRtpStreams s) = l).
    { replace (Z.to_nat (i + 1)) with (Z.to_nat i + 1)%nat by lia. by rewrite <- drop_drop, Hl. }
    destruct (eligible_spec i best a Hi Ha) as (b & Hel & Hbi); [destruct Hb as [[-> _]|[? _]]; lia|].
    rewrite (selectable_next i best Hi Hb) in Hbi. rewrite Hel. cbn [mbind res_bind]. destruct b.
    + destruct (proj1 Hbi eq_refl) as [Hu Hset]. fold preferred. destruct (Z.leb_spec preferred i) as [Hp|Hp].
      * exists i. split; [done|]. right. split; [by split|]. left. split; [done|]. intros j Hj Hji.
        destruct Hb as [[_ Hno]|(_ & Hbp & _ & Hmax & _)]; [|specialize (Hmax j Hji Hj); lia].
        destruct (Hno j); [|apply Hj]. split; [|done]. apply usable_range, Hj.
      * apply IH; [lia|done|]. right. split_and!; [lia..|by split| |done]. intros j Hj Hselj.
        destruct (Z.eq_dec j i); lia.
    + apply IH; [lia|done|]. assert (Hnot : ~ selectable i) by (intros H; by apply Hbi in H).
      destruct Hb as [[-> Hno]|(Hbest & Hbp & Hsel & Hmax & Hu)].
      * left. split; [done|]. intros j Hj Hu. destruct (Z.eq_dec j i) as [->|]; [|by apply (Hno j); [lia|]].
        apply Hnot. split; [done|]. left. intros j' Hj'. apply Hno. lia.
      * right. split_and!; [lia..|done| |done]. intros j Hj Hselj. destruct (Z.eq_dec j i) as [->|]; [done|]. apply Hmax; [lia|done].
Qed.

Lemma chosen_layer : exists sp, recalculate_loop s str nowMs (producerRtpStreams s) 0 (-1) = Ok sp /\ chosen sp.
Proof. apply recalculate_loop_spec; [lia|done|]. left. split; [done|]. lia. Qed.

Lemma chosen_candidate sp : chosen sp ->
  candidate s str sp (target_temporal sp preferred (preferredTemporalLayer (layers s)) (GetTemporalLayers (sender s))).
Proof.
  intros [[-> _]|[[(r & Hr & _ & Hsw) _] _]]; [by left|right]. split_and!; [by exists r|done|].
  pose proof (at_layer_range _ _ _ _ Hr). pose proof (inv_preferred _ _ Hs). pose proof (inv_temporal _ _ Hs). unfold target_temporal. repeat case_match; lia.
Qed.

End Select.

(** *** Changing the target layers *)

Lemma any_alive_Ok l str : (forall i a, l !! i = Some (Some a) -> is_Some (str !! a)) -> exists b, any_alive l str = Ok b.
Proof.
  induction l as [|[a|] l IH]; intros H; cbn [any_alive]; [by eexists| |apply IH; intros i; apply (H (S i))].
  destruct (H 0%nat a eq_refl) as [r ->]. cbn [deref mbind res_bind]. destruct (alive r); [by eexists|]. apply IH. intros i. apply (H (S i)).
Qed.

Lemma is_active_Ok s str : Inv s str -> exists b, is_active s str = Ok b.
Proof. intros Hs. unfold is_active. destruct (base_active _); [|by eexists]. apply any_alive_Ok, (inv_valid _ _ Hs). Qed.

Lemma wp_IsActive w (Q : bool -> World State -> Prop) E :
  Inv (self w) (streams w) -> (forall b, is_active (self w) (streams w) = Ok b -> Q b w) -> wp IsActive_ Q E w.
Proof. intros Hw HQ. apply wp_reader. destruct (is_active_Ok _ _ Hw) as [b Hb]. rewrite Hb. auto. Qed.

Lemma safe_IsActive : safe IsActive_.
Proof. intros w Hw. by apply wp_IsActive. Qed.

#[export] Hint Resolve safe_IsActive : keeps.

Lemma safe_MayChangeLayers force nowMs : safe (MayChangeLayers force nowMs).
Proof.
  intros w Hw. unfold MayChangeLayers. apply wp_bind, wp_reader. unfold RecalculateTargetLayers.
  destruct (chosen_layer (self w) (streams w) nowMs Hw) as (sp & -> & Hc). cbn [mbind res_bind mret res_ret].
  apply wp_bind, wp_gets, wp_when; intros _; [|exact Hw]. cbn [id].
  destruct (externallyManagedBitrate (consumer (self w))) eqn:Eext; [by apply wp_when|].
  apply wp_UpdateTargetLayers; [done|exact (chosen_candidate _ _ nowMs Hw sp Hc)| |done].
  intros _. destruct (inv_provisional _ _ Hw) as [|[]]; [done|congruence].
Qed.

#[export] Hint Resolve safe_MayChangeLayers : keeps.

Lemma safe_connected t : safe (UserOnTransportConnected_ t).
Proof. unfold UserOnTransportConnected_. keep. Qed.
Lemma safe_resumed t : safe (UserOnResumed_ t).
Proof. unfold UserOnResumed_. keep. Qed.

Lemma safe_stop : safe stop.
Proof.
  apply keeps_bind; [apply keeps_modify; intros s str Hs; apply sender_stream; [|done]; eapply Inv_key; [|exact Hs]; key|].
  intros _ w Hw. apply wp_UpdateTargetLayers; [done|by left|done|done].
Qed.

#[export] Hint Resolve safe_connected safe_resumed safe_stop : keeps.

Lemma safe_paused t : safe (UserOnPaused_ t).
Proof. unfold UserOnPaused_. keep. Qed.

#[export] Hint Resolve safe_paused : keeps.

Lemma consumer_flags s str f : Inv s str -> Inv (set_consumer s (set_flags (consumer s) f)) str.
Proof. apply Inv_key. key. Qed.

Lemma consumer_settings s str scores external p t : Inv s str ->
  (scores = producerRtpStreamScores (consumer s) \/ scores = true) ->
  (external = externallyManagedBitrate (consumer s) \/ external = true) ->
  Inv (set_consumer s (set_settings (consumer s) scores external p t)) str.
Proof. intros Hs H1 H2. eapply Inv_key; [|exact Hs]. key; [by destruct H2 as [->| ->]|by destruct H1 as [->| ->]]. Qed.

Lemma safe_HandleRequest r t : small_layers r -> safe (HandleRequest r t).
Proof.
  assert (Hbase : forall r, safe (Consumer.HandleRequest r t)).
  { intros r'. apply keeps_HandleRequest; eauto using consumer_flags, consumer_settings with keeps. }
  intros Hr. destruct r; try apply Hbase; cbn [HandleRequest].
  - apply keeps_bind; [apply safe_IsActive|]. keep.
  - intros w Hw. apply wp_bind, wp_gets. cbn [id].
    destruct (preferred_layers _ _ _ _) as [[sp tp]|] eqn:Ep; [|by apply wp_ret].
    apply wp_bind, wp_modify. apply preferred_layers_temporal in Ep; [|apply (inv_temporal _ _ Hw)|done].
    apply keeps_wp; [|destruct Hw; by split]. apply keeps_bind; [apply safe_IsActive|]. keep.
Qed.

(** *** The streams of the producer *)

(** A new stream is one of the producer's, of a layer that has no other one. *)
Definition fresh_stream (s : State) (str : Streams) (a mappedSsrc : Z) : Prop :=
  is_Some (str !! a) /\ is_Some (mapMappedSsrcSpatialLayer s !! mappedSsrc) /\
  (forall layer b, mapMappedSsrcSpatialLayer s !! mappedSsrc = Some layer ->
    producerRtpStreams s !! Z.to_nat layer = Some (Some b) -> b = a).

Lemma Inv_set_stream s str layer a : Inv s str -> 0 <= layer -> is_Some (str !! a) ->
  (forall b, producerRtpStreams s !! Z.to_nat layer = Some (Some b) -> b = a) ->
  Inv (set_streams s (<[Z.to_nat layer := Some a]> (producerRtpStreams s))) str.
Proof.
  intros Hs Hl Ha Hold. set (s' := set_streams _ _).
  assert (Hat : forall k r, at_layer s str k r -> at_layer s' str k r).
  { intros k r [Hk (b & Hb & Hr)]. split; [done|]. cbn. destruct (decide (Z.to_nat layer = Z.to_nat k)) as [E|E].
    - exists a. rewrite E, list_lookup_insert_eq by (rewrite <- E; by apply lookup_lt_Some in Hb; rewrite E). rewrite <- E in Hb. by rewrite <- (Hold b Hb).
    - exists b. by rewrite list_lookup_insert_ne. }
  assert (Hpres : forall k, present s str k -> present s' str k) by (intros k [r Hr]; exists r; auto).
  assert (Hhas : forall sp tp, has_layers s str sp tp -> has_layers s' str sp tp) by (intros sp tp (r & Hr & ?); exists r; auto).
  assert (Hsw : forall k, switchable s str k -> switchable s' str k).
  { intros k [|[(r & Hr & E) (r' & Hr' & E')]]; [by left|right; split; [exists r|exists r']; auto]. }
  destruct Hs. split; try done.
  - cbn. by rewrite length_insert.
  - cbn. intros i b Hb. apply list_lookup_insert_Some in Hb as [(_ & [= <-] & _)|[_ Hb]]; [done|eauto].
  - cbn. intros ssrc k Hk. unfold zlen. rewrite length_insert. eauto.
  - destruct inv_ref0; auto.
  - destruct inv_target0 as [|(? & ? & ?)]; [by left|right; auto].
  - destruct inv_current0 as [|(? & ? & ?)]; [by left|right; auto].
  - destruct inv_provisional0 as [|(? & ? & [|])]; [by left|right..]; split_and!; auto.
Qed.

Lemma wp_ProducerRtpStream a mappedSsrc w : Inv (self w) (streams w) -> fresh_stream (self w) (streams w) a mappedSsrc ->
  wp (ProducerRtpStream a mappedSsrc) (fun _ w' => Inv (self w') (streams w')) (fun _ => False) w.
Proof.
  intros Hw (Ha & [layer Hl] & Hold). unfold ProducerRtpStream. apply wp_bind, wp_gets, wp_bind, wp_lift. rewrite Hl.
  apply wp_bind, wp_gets, wp_bind, wp_lift. pose proof (inv_map _ _ Hw _ _ Hl) as Hr.
  destruct (layer_at_range _ _ Hr) as (x & -> & Hx). apply wp_modify. cbn. apply Inv_set_stream; [done|lia|done|eauto].
Qed.

Lemma wp_ProducerNewRtpStream a mappedSsrc t w : Inv (self w) (streams w) -> fresh_stream (self w) (streams w) a mappedSsrc ->
  wp (ProducerNewRtpStream a mappedSsrc t) (fun _ w' => Inv (self w') (streams w')) (fun _ => False) w.
Proof.
  intros Hw Hf. apply wp_bind. eapply wp_mono; [by apply wp_ProducerRtpStream|]. intros u w' Hw'. apply keeps_wp; [|done].
  apply keeps_bind; [apply safe_EmitScore|]. keep.
Qed.

Lemma safe_ProducerRtpStreamScore score previousScore t : safe (ProducerRtpStreamScore score previousScore t).
Proof. unfold ProducerRtpStreamScore. keep. Qed.

Lemma safe_ProducerRtcpSenderReport first t : safe (ProducerRtcpSenderReport first t).
Proof.
  apply keeps_when. intros _ w Hw. apply wp_bind, wp_current; [done|]. intros o _. apply keeps_wp; [|done].
  apply keeps_when. intros _. keep.
Qed.

Lemma safe_OnRtpStreamScore t : safe (OnRtpStreamScore t).
Proof. unfold OnRtpStreamScore. keep. Qed.

Lemma safe_ApplyLayers w t : Inv (self w) (streams w) -> externallyManagedBitrate (consumer (self w)) = true ->
  is_active (self w) (streams w) = Ok true ->
  wp (ApplyLayers t) (fun _ w' => Inv (self w') (streams w')) (fun _ => False) w.
Proof.
  intros Hw Hext Hact. unfold ApplyLayers. apply wp_bind, wp_gets, wp_bind, wp_lift. cbn [id]. rewrite Hext. cbn [ms_assert].
  apply wp_bind, wp_IsActive; [done|]. intros b Hb. rewrite Hb in Hact. injection Hact as ->. apply wp_bind, wp_lift. cbn [ms_assert].
  apply wp_bind, wp_modify. set (w1 := set_self w _).
  assert (Hw1 : Inv (self w1) (streams w1)) by (destruct Hw; split; cbn; try done; by left).
  apply wp_when; intros _; [|done]. apply wp_bind, wp_UpdateTargetLayers; [done| |done|].
  - destruct (inv_provisional _ _ Hw) as [[-> _]|(_ & [Hp Ht]%has_layers_present & Hsw)]; [by left|by right].
  - intros w2 Hw2 _ _ _ _. apply wp_bind, wp_gets, wp_when; intros _; [|done]. apply wp_modify. eapply Inv_key; [|exact Hw2]. key.
Qed.

End SimulcastSpec.
