(* ===== verification/SimulcastHistory.v ===== *)
(** * Simulcast consumers: sending, and the history of a consumer

    The first half of [SendRtpPacket] never faults, the operations keep the invariant, and so
    over every history of calls the assertions on layers and sender reports hold. *)

From Stdlib Require Import SpecFloat.
From stdpp Require Import gmap.
From S2P Require Import Prelude Utils Float SeqManager RateCalculator RtcpPacket RtcpFeedback RtcpXr Rtcp RtpPacket Codecs Payload StreamReads.
From S2P Require Import RtpParameters RtpStream RtpStreamRecv RtpStreamSend Consumer ConsumerSpec SimulcastConsumer SimulcastSpec.

Module SimulcastHistory.

Import Consumer Sender SimulcastConsumer SimulcastSpec.

(** ** Preparing a packet *)

(** The synchronization with the sender reports of the reference and of the target layer. *)
Lemma sync_offset_Ok s str layer : Inv s str -> targetTemporalLayer (layers s) <> -1 -> 0 <= layer ->
  layer = targetSpatialLayer (layers s) \/ layer = currentSpatialLayer (layers s) ->
  exists off, sync_offset layer s str = Ok off.
Proof.
  intros Hs Ht Hl Hcase. unfold sync_offset. destruct (Z.eqb_spec layer (tsReferenceSpatialLayer (layers s))) as [|Hne]; [by eexists|].
  destruct (inv_target _ _ Hs) as [[_ ?]|(Hpt & Hst & _)]; [done|].
  assert (Href : reported s str (tsReferenceSpatialLayer (layers s))).
  { destruct Hcase as [->| ->]; [by destruct Hst as [|[? _]]|].
    destruct (inv_current _ _ Hs) as [|(_ & [|[? _]] & _)]; [lia|done..]. }
  assert (Htar : reported s str (targetSpatialLayer (layers s))) by (destruct Hst as [->|[_ ?]]; done).
  destruct Href as (r1 & Hr1 & E1). destruct Htar as (r2 & Hr2 & E2).
  unfold GetProducerTsReferenceRtpStream, GetProducerTargetRtpStream.
  rewrite (stream_of_Ok _ _ _ _ Hr1), (stream_of_Ok _ _ _ _ Hr2). cbn [mbind res_bind deref]. rewrite E1. cbn [ms_assert mbind res_bind].
  rewrite E2. by eexists.
Qed.

Lemma SyncRequired_target c :
  EncodingContext.targetTemporalLayer (Payload.context (Payload.SyncRequired c)) = EncodingContext.targetTemporalLayer (Payload.context c).
Proof. by destruct c. Qed.

Lemma SyncRequired_class c : simulcast_context c -> simulcast_context (Payload.SyncRequired c).
Proof. by destruct c. Qed.

(** What stays the same while a packet is prepared. *)
Definition prepared (w w' : World State) : Prop :=
  Inv (self w') (streams w') /\ streams w' = streams w /\ layers (self w') = layers (self w) /\ sender (self w') = sender (self w) /\
  consumer (self w') = consumer (self w) /\ producerRtpStreams (self w') = producerRtpStreams (self w).

Lemma prepared_refl w : Inv (self w) (streams w) -> prepared w w.
Proof. done. Qed.

Lemma prepared_trans w1 w2 w3 : prepared w1 w2 -> prepared w2 w3 -> prepared w1 w3.
Proof. intros (_ & E1 & E2 & E3 & E4 & E5) (Hi & F1 & F2 & F3 & F4 & F5). split_and!; [done|congruence..]. Qed.

Lemma wp_modify_sync f w (Q : unit -> World State -> Prop) E : Inv (self w) (streams w) ->
  (forall w', prepared w w' -> sync (self w') = f (sync (self w)) -> Q tt w') -> wp (modify_sync f) Q E w.
Proof. intros Hw HQ. apply wp_modify, HQ; [|done]. split_and!; try done. eapply Inv_key; [|exact Hw]. by repeat split. Qed.

Lemma wp_synchronize layer seq ts switching w : Inv (self w) (streams w) -> targetTemporalLayer (layers (self w)) <> -1 -> 0 <= layer ->
  layer = targetSpatialLayer (layers (self w)) \/ layer = currentSpatialLayer (layers (self w)) ->
  wp (synchronize layer seq ts switching) (fun _ w' => prepared w w') (fun _ => False) w.
Proof.
  intros Hw Ht Hl Hcase. unfold synchronize. apply wp_bind, wp_reader.
  destruct (sync_offset_Ok _ _ _ Hw Ht Hl Hcase) as [off ->]. apply wp_bind.
  assert (Hend : forall o w', prepared w w' -> wp (match o with
      | None => mret false
      | Some off => _ ← modify (fun s => let y := sync s in set_sync (set_context
          (set_seq s (Manager.Sync 16 (rtpSeqManager s) (u16 (seq - (if lastSentPacketHasMarker y then 1 else 2)))))
          (Payload.SyncRequired (encodingContext s))) (with_keyFrame (with_required (with_tsOffset y off) false (-1)) false)); mret true end)
      (fun _ w' => prepared w w') (fun _ => False) w').
  { intros [o|] w' Hp; [|by apply wp_ret]. apply wp_bind, wp_modify, wp_ret. destruct Hp as (Hi & ? & ? & ? & ? & ?). split_and!; try done.
    eapply Inv_key; [|exact Hi]. repeat split; intros; cbn; auto using SyncRequired_class. apply SyncRequired_target. }
  unfold switch_offset. apply wp_bind, wp_gets. cbn [id].
  destruct (negb switching || _); [apply wp_ret; exact (Hend (Some _) w (prepared_refl _ Hw))|].
  destruct (keyFrameForTsOffsetRequested _); [apply wp_ret; exact (Hend (Some _) w (prepared_refl _ Hw))|].
  destruct (_ <? _); [|apply wp_ret; exact (Hend (Some _) w (prepared_refl _ Hw))].
  apply wp_bind, wp_RequestTarget; [done|]. intros w1 Es Estr.
  apply wp_bind, wp_modify_sync; [by rewrite Es, Estr|]. intros w2 Hp _. apply wp_ret. apply (Hend None).
  destruct Hp as (Hi & ? & ? & ? & ? & ?). rewrite Es, Estr in *. by split_and!.
Qed.

Lemma wp_old_packet seq switching w : Inv (self w) (streams w) ->
  wp (old_packet seq switching) (fun _ w' => prepared w w') (fun _ => False) w.
Proof.
  intros Hw. unfold old_packet. apply wp_bind, wp_gets. destruct (_ && _); [|by apply wp_ret].
  destruct (IsSeqLowerThan _ _ _); [by apply wp_ret|]. apply wp_bind, wp_when; intros _; [|by apply wp_ret].
  by apply wp_modify_sync.
Qed.

(** The first half of [SendRtpPacket] returns, and tells whether to switch to the layer. *)
Lemma wp_prepare layer seq ts key w : Inv (self w) (streams w) -> targetTemporalLayer (layers (self w)) <> -1 -> 0 <= layer ->
  wp (prepare layer seq ts key)
    (fun r w' => prepared w w' /\
      match r with
      | None => True
      | Some true => layer = targetSpatialLayer (layers (self w)) /\ layer <> currentSpatialLayer (layers (self w)) /\ key = true
      | Some false => layer = currentSpatialLayer (layers (self w))
      end) (fun _ => False) w.
Proof.
  intros Hw Ht Hl. unfold prepare, select_layer.
  assert (Hrest : forall sw w1, prepared w w1 ->
    (if (sw : bool) then layer = targetSpatialLayer (layers (self w)) /\ layer <> currentSpatialLayer (layers (self w)) /\ key = true
     else layer = currentSpatialLayer (layers (self w))) ->
    wp (y ← gets sync;
      if syncRequired y && negb key then mret None
      else
        ok ← (if syncRequired y && ((spatialLayerToSync y =? -1) || (spatialLayerToSync y =? layer))
              then synchronize layer seq ts sw else mret true);
        if negb ok then mret None
        else
          old ← old_packet seq sw;
          mret (if (old : bool) then None else Some sw))
      (fun r w' => prepared w w' /\
      match r with
      | None => True
      | Some true => layer = targetSpatialLayer (layers (self w)) /\ layer <> currentSpatialLayer (layers (self w)) /\ key = true
      | Some false => layer = currentSpatialLayer (layers (self w))
      end) (fun _ => False) w1).
  { intros sw w1 Hp Hsw. pose proof Hp as (Hi & Estr & El & _). apply wp_bind, wp_gets.
    destruct (syncRequired _ && negb key); [by apply wp_ret|]. apply wp_bind.
    assert (Hok : wp (if syncRequired (sync (self w1)) && ((spatialLayerToSync (sync (self w1)) =? -1) || (spatialLayerToSync (sync (self w1)) =? layer))
              then synchronize layer seq ts sw else mret true) (fun _ w' => prepared w w') (fun _ => False) w1).
    { destruct (_ && _); [|by apply wp_ret]. eapply wp_mono; [apply wp_synchronize; rewrite ?El; try done|].
      - destruct sw; [left; by destruct Hsw as (? & _)|by right].
      - intros u w2 Hp2. by eapply prepared_trans. }
    eapply wp_mono; [exact Hok|]. intros [] w2 Hp2; cbn [negb]; [|by apply wp_ret].
    apply wp_bind. eapply wp_mono; [apply wp_old_packet; by destruct Hp2|]. intros old w3 Hp3. apply wp_ret.
    split; [by eapply prepared_trans|]. destruct old; [done|]. by destruct sw. }
  apply wp_bind, wp_bind, wp_gets.
  destruct (negb (currentSpatialLayer (layers (self w)) =? targetSpatialLayer (layers (self w)))
            && (layer =? targetSpatialLayer (layers (self w)))) eqn:Esw.
  - apply andb_true_iff in Esw as [E1 E2]. apply negb_true_iff, Z.eqb_neq in E1. apply Z.eqb_eq in E2.
    destruct key; cbn [negb]; [|by apply wp_ret]. apply wp_bind, wp_modify_sync; [done|]. intros w1 Hp _. apply wp_ret, Hrest; [done|].
    split_and!; [done|congruence|done].
  - destruct (Z.eqb_spec layer (currentSpatialLayer (layers (self w)))) as [E|E]; cbn [negb]; [|by apply wp_ret].
    apply wp_ret, Hrest; [by apply prepared_refl|done].
Qed.

(** ** Sending *)

Lemma vp8_update_target d b : EncodingContext.targetTemporalLayer (VP8.update_layer d b) = EncodingContext.targetTemporalLayer b.
Proof.
  unfold VP8.update_layer. destruct (VP8.hasTlIndex d); cbn [andb negb].
  - destruct (_ <? VP8.tlIndex d); by destruct (_ <? _).
  - by destruct (_ <? _).
Qed.

Lemma vp8_process_target d c data r : VP8.Process d c data = Ok r ->
  EncodingContext.targetTemporalLayer (VP8.base r.1.2) = EncodingContext.targetTemporalLayer (VP8.base c).
Proof.
  unfold VP8.Process. intros H. ok_step H.
  assert (Hsync : VP8.base (VP8.sync d c) = VP8.base c) by (unfold VP8.sync; by destruct (_ && _ && _)).
  destruct (VP8.to_drop _ _); [injection H as <-; cbn; by rewrite Hsync|].
  destruct (VP8.input 15 _ _ _) as [[pid|] m]; [|injection H as <-; cbn; by rewrite Hsync].
  destruct (VP8.input 8 _ _ _) as [[tl0|] m']; [|injection H as <-; cbn; by rewrite Hsync].
  ok_step H. injection H as <-. cbn. by rewrite vp8_update_target, Hsync.
Qed.

Lemma h264_process_target d c r : H264.Process d c = Ok r ->
  EncodingContext.targetTemporalLayer r.2 = EncodingContext.targetTemporalLayer c.
Proof.
  unfold H264.Process. intros H. ok_step H. destruct (_ && _); [by injection H as <-|]. destruct (_ && _); [by injection H as <-|].
  injection H as <-. cbn. destruct (H264.hasTid d); cbn [andb negb].
  - destruct (_ <? H264.tid d); by destruct (_ <? _).
  - by destruct (_ <? _).
Qed.

(** Processing a payload keeps the target layer and the class of the context. *)
Lemma process_payload_target p d c m r : simulcast_context c -> Payload.ProcessPayload p d c m = Ok r ->
  simulcast_context r.1.1.2 /\
  EncodingContext.targetTemporalLayer (Payload.context r.1.1.2) = EncodingContext.targetTemporalLayer (Payload.context c).
Proof.
  intros Hc H. unfold Payload.ProcessPayload in H. destruct d as [[d|d|d|d|d]|]; [..|by injection H as <-]; destruct c; try done.
  - ok_step H. destruct v as [[ok c'] data]. injection H as <-. split; [done|]. exact (vp8_process_target _ _ _ _ E).
  - ok_step H. destruct v as [ok c']. injection H as <-. split; [done|]. exact (h264_process_target _ _ _ E).
Qed.

Lemma Inv_set_context s str c : Inv s str -> simulcast_context c ->
  EncodingContext.targetTemporalLayer (Payload.context c) = EncodingContext.targetTemporalLayer (Payload.context (encodingContext s)) ->
  Inv (set_context s c) str.
Proof. intros Hs Hc Ht. eapply Inv_key; [|exact Hs]. by repeat split. Qed.

Lemma keeps_set_seq m : keeps (modify (fun s => set_seq s m)).
Proof. apply keeps_modify_key. by repeat split. Qed.

Lemma wp_switch_layer seq temporal t w : Inv (self w) (streams w) -> targetSpatialLayer (layers (self w)) <> -1 ->
  wp (switch_layer seq temporal t) (fun _ w' => Inv (self w') (streams w')) (fun _ => False) w.
Proof.
  intros Hw Ht. unfold switch_layer. apply wp_bind, wp_modify, keeps_wp; [keep|].
  assert (Hclass : forall f, simulcast_context (Payload.on_context f (encodingContext (self w)))).
  { intros f. pose proof (inv_context _ _ Hw). by destruct (encodingContext (self w)). }
  destruct Hw. split; cbn; try done. right. destruct inv_target0 as [[]|(? & ? & ?)]; [done|]. split_and!; [done..|].
  unfold context_target. cbn. by destruct (encodingContext (self w)).
Qed.

(** After the payload was processed, the rest keeps the invariant. *)
Lemma wp_process_payload p d w k : Inv (self w) (streams w) -> (forall ok c q, keeps (k ok c q)) ->
  wp ('(ok, c, q, _) ← lift (Payload.ProcessPayload p d (encodingContext (self w)) false);
      _ ← modify (fun s => set_context s c); k ok c q)
    (fun (_ : bool * RtpPacket.t) w' => Inv (self w') (streams w')) (fun _ => True) w.
Proof.
  intros Hw Hk. apply wp_bind, wp_lift. destruct (Payload.ProcessPayload _ _ _ _) as [[[[ok c] q] m]|] eqn:Ex; [|done].
  apply process_payload_target in Ex as [? ?]; [|apply (inv_context _ _ Hw)].
  apply wp_bind, wp_modify, keeps_wp; [apply Hk|]. by apply Inv_set_context.
Qed.

Lemma keeps_process p d seq t switching w : Inv (self w) (streams w) ->
  (switching = true -> targetSpatialLayer (layers (self w)) <> -1) ->
  wp (process p d seq t switching) (fun _ w' => Inv (self w') (streams w')) (fun _ => True) w.
Proof.
  intros Hw Hsw. unfold process. destruct switching.
  - apply wp_bind. pose proof (wp_switch_layer seq (Tools.GetTemporalLayer d) t w Hw (Hsw eq_refl)) as Hswitch.
    unfold wp in Hswitch |- * at 1. destruct (switch_layer _ _ _ w) as [[[] w1]|]; [|done].
    apply wp_bind, wp_gets, (wp_process_payload _ _ _ (fun _ _ q => mret (true, q))); [done|]. intros. apply keeps_ret.
  - apply wp_bind, wp_gets. apply (wp_process_payload _ _ _ (fun ok c q => if negb ok then
      _ ← modify (fun s => set_seq s (Manager.Drop 16 (rtpSeqManager s) seq)); mret (false, q) else _ ← when _ EmitLayersChange; mret (true, q))); [done|].
    intros ok c q. destruct ok; cbn [negb]; [apply keeps_bind; [apply keeps_when; intros _; apply safe_keeps, safe_EmitLayersChange|keep]|].
    apply keeps_bind; [apply keeps_modify_key; by repeat split|keep].
Qed.

Lemma keeps_send p d seq ts shared junk t : keeps (send p d seq ts shared junk t).
Proof.
  unfold send. apply keeps_bind; [apply keeps_gets|]. intros s. destruct (Manager.Input _ _ _) as [o m].
  apply keeps_bind; [apply keeps_set_seq|]. intros _. apply keeps_bind; [apply keeps_lift|]. intros out.
  apply keeps_bind; [|keep]. apply keeps_deliver; [apply sender_stream|]. intros q. keep.
Qed.

Lemma keeps_SendRtpPacket p d shared junk t : keeps (SendRtpPacket p d shared junk t).
Proof.
  intros w Hw. unfold SendRtpPacket. apply wp_bind, wp_IsActive; [done|]. intros active _. apply wp_bind, wp_gets. cbn [id].
  destruct (negb active); [by apply wp_ret|]. destruct (Z.eqb_spec (targetTemporalLayer (layers (self w))) (-1)) as [|Ht]; [by apply wp_ret|].
  do 2 (apply wp_bind, wp_lift; match goal with |- match ?x with _ => _ end => destruct x; [|done] end).
  destruct (negb _); [by apply wp_ret|].
  apply wp_bind, wp_lift. destruct (RtpPacket.GetSsrc p) as [ssrc|]; [|done]. apply wp_bind, wp_lift.
  destruct (mapMappedSsrcSpatialLayer (self w) !! ssrc) as [layer|] eqn:El; [|done]. apply (inv_map _ _ Hw) in El.
  do 2 (apply wp_bind, wp_lift; match goal with |- match ?x with _ => _ end => destruct x; [|done] end).
  apply wp_bind. pose proof (wp_prepare layer a1 a2 (Tools.IsKeyFrame d) w Hw Ht ltac:(lia)) as Hp.
  unfold wp in Hp |- * at 1. destruct (prepare _ _ _ _ w) as [[[sw|] w1]|]; [|by destruct Hp as ((? & _) & _)|done].
  destruct Hp as ((Hi & _ & Hl & _) & Hsw). apply wp_bind. eapply wp_mono; [apply keeps_process; [done|]|].
  - intros ->. rewrite Hl. destruct Hsw as (<- & _). lia.
  - intros [ok q] w2 Hw2. destruct (negb ok); [by apply wp_ret|]. apply keeps_wp; [apply keeps_send|done].
Qed.

(** ** Increasing the layers *)

Lemma has_sr_base r r' : RtpStreamRecv.base r' = RtpStreamRecv.base r -> has_sr r' = has_sr r.
Proof. intros E. unfold has_sr, GetSenderReportNtpMs. by rewrite E. Qed.

Lemma same_bases_evolves str str' : same_bases str str' -> evolves str str'.
Proof.
  intros H a r Ha. destruct (same_bases_lookup _ _ _ _ H Ha) as (r' & Ha' & E). exists r'. rewrite (has_sr_base _ _ E).
  unfold temporal_layers. by rewrite E.
Qed.

Lemma framed_Inv (w w' : World State) : framed w w' -> Inv (self w) (streams w) -> Inv (self w') (streams w').
Proof. intros (-> & H & _). by apply Inv_evolves, same_bases_evolves. Qed.

(** The stream of the provisional layers. *)
Lemma wp_provisional_stream w (Q : Z -> World State -> Prop) : Inv (self w) (streams w) ->
  provisionalTargetSpatialLayer (layers (self w)) <> -1 ->
  (forall a r, streams w !! a = Some r -> 0 <= provisionalTargetTemporalLayer (layers (self w)) < temporal_layers r -> Q a w) ->
  wp provisional_stream Q calm w.
Proof.
  intros Hw Hp HQ. destruct (inv_provisional _ _ Hw) as [[]|(_ & (r & [Hi (a & Ha & Hr)] & Ht) & _)]; [done|].
  unfold provisional_stream. apply wp_bind, wp_gets, wp_bind, wp_lift. cbn [id]. rewrite (layer_at_Ok _ _ _ Hi Ha). apply wp_lift. cbn. by apply (HQ a r).
Qed.

Lemma wp_required_bitrate a r sp tp t w : Inv (self w) (streams w) -> legible (streams w) -> streams w !! a = Some r -> tp < temporal_layers r ->
  wp (required_bitrate a sp tp t) (fun v w' => 0 <= v /\ framed w w') calm w.
Proof.
  intros Hw Hl Ha Htp. unfold required_bitrate. apply wp_bind. destruct (Hl a r Ha) as (_ & H1 & _). eapply wp_mono.
  { apply (wp_counting a r); [done..|]. intros c Hc. apply GetLayerBitrate_shape; [done|lia|lia]. }
  intros v w1 [[Hv _] Hf]. apply wp_bind, wp_gets. destruct (_ && _ && _ && _) eqn:E; [|by apply wp_ret].
  pose proof (framed_Inv _ _ Hf Hw) as Hw1. apply wp_bind, wp_provisional_stream; [done|lia|]. intros q r' Hq Ht.
  pose proof (proj2 (proj2 Hf)) as Hl1. destruct (Hl1 q r' Hq) as (_ & H1' & _). apply wp_bind. eapply wp_mono.
  { apply (wp_counting q r'); [done..|]. intros c Hc. apply GetBitrateUpTo_shape; [done|lia|lia]. }
  intros v' w2 [_ Hf']. apply wp_ret. split; [destruct (Z.ltb_spec v' v); lia|]. exact (framed_trans _ _ _ Hf Hf').
Qed.

(** The layers found are above the provisional ones. *)
Definition above (l : Layers) (sp tp : Z) : Prop :=
  provisionalTargetSpatialLayer l < sp \/ (provisionalTargetSpatialLayer l = sp /\ provisionalTargetTemporalLayer l < tp).

Lemma wp_temporal_loop n a r sp t : forall tp w, Inv (self w) (streams w) -> legible (streams w) -> streams w !! a = Some r ->
  tp + Z.of_nat n <= temporal_layers r -> provisionalTargetSpatialLayer (layers (self w)) <= sp ->
  wp (temporal_loop n a sp tp t)
    (fun o w' => framed w w' /\
      match o with Some (tp', v) => tp <= tp' < tp + Z.of_nat n /\ 0 < v /\ above (layers (self w)) sp tp' | None => True end) calm w.
Proof.
  induction n as [|n IH]; intros tp w Hw Hl Ha Hn Hsp; cbn [temporal_loop]; [by apply wp_ret|]. apply wp_bind, wp_gets.
  destruct ((sp =? _) && (tp <=? _)) eqn:E.
  - eapply wp_mono; [apply IH; [done..|lia|done]|]. intros [[tp' v]|] w' [Hf Hr]; [|done]. split; [done|]. destruct Hr as (? & ? & ?). split_and!; [lia..|done|done].
  - apply wp_bind. eapply wp_mono; [apply (wp_required_bitrate a r); [done..|lia]|]. intros v w' [Hv Hf]. apply wp_ret. split; [done|].
    destruct (Z.eqb_spec v 0); [done|]. cbn [negb]. split_and!; [lia..|]. unfold above.
    apply andb_false_iff in E as [E%Z.eqb_neq|E%Z.leb_gt]; [left; lia|].
    destruct (Z.eq_dec (provisionalTargetSpatialLayer (layers (self w))) sp); [right; lia|left; lia].
Qed.

Lemma wp_too_young r sp t w : Inv (self w) (streams w) -> wp (too_young r sp t) (fun _ w' => w' = w) calm w.
Proof.
  intros Hw. unfold too_young. apply wp_bind, wp_gets. destruct (_ && _ && _) eqn:E; [|by apply wp_ret].
  apply wp_bind, wp_provisional_stream; [done|lia|]. intros a q Ha _. apply wp_reader. by rewrite Ha.
Qed.

(** The layers that the loop finds. *)
Definition found_layers (w : World State) (o : option (Z * Z * Z)) : Prop :=
  match o with
  | None => True
  | Some (sp, tp, v) =>
      0 < v /\ above (layers (self w)) sp tp /\ has_layers (self w) (streams w) sp tp /\
      (tsReferenceSpatialLayer (layers (self w)) = -1 \/ switchable (self w) (streams w) sp)
  end.

Lemma found_framed w w' sp tp v : framed w w' -> has_layers (self w) (streams w) sp tp ->
  tsReferenceSpatialLayer (layers (self w)) = -1 \/ switchable (self w) (streams w) sp ->
  0 < v -> above (layers (self w)) sp tp -> found_layers w' (Some (sp, tp, v)).
Proof.
  intros (Es & Hb%same_bases_evolves & _) Hh Hsw Hv Hab. unfold found_layers. rewrite Es. split_and!; [done..| |].
  - by eapply has_layers_evolves.
  - destruct Hsw; [by left|right]. by eapply switchable_evolves.
Qed.

Lemma wp_spatial_loop t l : forall i w, Inv (self w) (streams w) -> legible (streams w) -> 0 <= i ->
  drop (Z.to_nat i) (producerRtpStreams (self w)) = l ->
  wp (spatial_loop l i t) (fun o w' => framed w w' /\ found_layers w' o) calm w.
Proof.
  induction l as [|o l IH]; intros i w Hw Hleg Hi Hl; cbn [spatial_loop]; [by apply wp_ret|].
  assert (Hl' : drop (Z.to_nat (i + 1)) (producerRtpStreams (self w)) = l).
  { replace (Z.to_nat (i + 1)) with (Z.to_nat i + 1)%nat by lia. by rewrite <- drop_drop, Hl. }
  assert (Ho : producerRtpStreams (self w) !! Z.to_nat i = Some o).
  { rewrite <- (Nat.add_0_r (Z.to_nat i)), <- lookup_drop, Hl. done. }
  assert (Hnext : forall w1, framed w w1 -> wp (spatial_loop l (i + 1) t) (fun o w' => framed w w' /\ found_layers w' o) calm w1).
  { intros w1 Hf. eapply wp_mono; [apply IH; [by apply (framed_Inv w)|by destruct Hf as (_ & _ & ?)|lia|]|].
    - by destruct Hf as [-> _].
    - intros x w2 [Hf2 Hr]. split; [by eapply framed_trans|done]. }
  apply wp_bind, wp_gets. cbn [id]. destruct (_ && _ && _); [by apply wp_ret|].
  destruct (Z.ltb_spec i (provisionalTargetSpatialLayer (layers (self w)))) as [|Hprov]; [by apply Hnext|].
  destruct o as [a|]; [|by apply Hnext]. destruct (at_layer_of _ _ Hw i a Hi Ho) as (r & Hr & Hat).
  apply wp_bind, wp_reader. rewrite Hr. cbn [deref]. apply wp_bind. eapply wp_mono; [by apply wp_too_young|]. intros young w1 ->.
  destruct young; [by apply Hnext|]. apply wp_bind, wp_reader.
  destruct (can_switch _ _ Hw i r Hat) as (can & -> & Hcan). destruct can; cbn [negb]; [|by apply Hnext].
  destruct (Hleg a r Hr) as (_ & _ & Hfit & _). apply wp_bind. eapply wp_mono; [by apply (wp_temporal_loop _ a r); [done..|lia|]|].
  intros [[tp v]|] w1 [Hf Hfound].
  - apply wp_ret. split; [done|]. destruct Hfound as (Htp & Hv & Hab). eapply found_framed; [done| |by apply Hcan|done|done]. exists r. split; [done|lia].
  - destruct (_ <=? _); [by apply wp_ret|]. by apply Hnext.
Qed.

(** What an increase of the layers does. *)
Definition increased (w : World State) (bitrate v : Z) (w' : World State) : Prop :=
  let l := layers (self w) in let l' := layers (self w') in
  Inv (self w') (streams w') /\ 0 <= v <= bitrate /\
  consumer (self w') = consumer (self w) /\ producerRtpStreams (self w') = producerRtpStreams (self w) /\
  same_bases (streams w) (streams w') /\ legible (streams w') /\
  (l' = l \/
   above l (provisionalTargetSpatialLayer l') (provisionalTargetTemporalLayer l') /\
   has_layers (self w') (streams w') (provisionalTargetSpatialLayer l') (provisionalTargetTemporalLayer l')) /\
  (v <> 0 -> l' <> l) /\
  l' = with_provisional l (provisionalTargetSpatialLayer l') (provisionalTargetTemporalLayer l').

Lemma increased_none w w' bitrate : framed w w' -> Inv (self w) (streams w) -> 0 <= bitrate -> increased w bitrate 0 w'.
Proof.
  intros Hf Hw Hb. pose proof (framed_Inv _ _ Hf Hw) as Hw'. destruct Hf as (Es & Hs & Hl). unfold increased. rewrite Es in *.
  split_and!; try done; [by left|by destruct (layers (self w))].
Qed.

Lemma wp_IncreaseLayer bitrate loss t w : Inv (self w) (streams w) -> legible (streams w) -> 0 <= bitrate ->
  externallyManagedBitrate (consumer (self w)) = true -> is_active (self w) (streams w) = Ok true ->
  wp (IncreaseLayer bitrate loss t) (increased w bitrate) calm w.
Proof.
  intros Hw Hl Hb Hext Hact. unfold IncreaseLayer. apply wp_bind, wp_gets, wp_bind, wp_lift. cbn [id]. rewrite Hext. cbn [ms_assert].
  apply wp_bind. unfold IsActive_. apply wp_reader. rewrite Hact. apply wp_bind, wp_lift. cbn [ms_assert].
  destruct (_ && _); [by apply wp_ret, increased_none|]. apply wp_bind, wp_lift.
  pose proof (virtual_bitrate_calm (sender (self w)) bitrate loss) as Hv. destruct (virtual_bitrate _ _ _) as [virtual|]; [|done].
  apply wp_bind. eapply wp_mono; [by apply wp_spatial_loop|]. intros [[[sp tp] v]|] w1 [Hf Hfound]; [|by apply wp_ret, increased_none].
  destruct (Z.ltb_spec virtual v); [by apply wp_ret, increased_none|].
  pose proof (framed_Inv _ _ Hf Hw) as Hw1. destruct Hf as (Es & Hs & Hl1).
  apply wp_bind, wp_modify, wp_ret. destruct Hfound as (Hne & Hab & Hh & Hsw). unfold increased. cbn.
  assert (Hl' : with_provisional (layers (self w1)) sp tp <> layers (self w)).
  { intros E. unfold above in Hab. rewrite Es in E, Hab. rewrite <- E in Hab. cbn in Hab. lia. }
  split_and!; try done; try (by rewrite Es).
  - destruct Hw1. split; cbn; try done. right. split_and!; [by rewrite Es|done|done].
  - unfold taken. repeat case_match; lia.
  - unfold taken. repeat case_match; lia.
  - right. by rewrite <- Es.
Qed.

Lemma keeps_IncreaseLayer bitrate loss t w : Inv (self w) (streams w) -> legible (streams w) -> 0 <= bitrate ->
  wp (IncreaseLayer bitrate loss t) (fun _ w' => Inv (self w') (streams w')) (fun _ => True) w.
Proof.
  intros Hw Hl Hb. destruct (externallyManagedBitrate (consumer (self w))) eqn:Hext.
  - destruct (is_active_Ok _ _ Hw) as [[] Hact].
    + pose proof (wp_IncreaseLayer bitrate loss t w Hw Hl Hb Hext Hact) as H. unfold wp in *. destruct (IncreaseLayer _ _ _ _) as [[]|]; [apply H|done].
    + unfold IncreaseLayer. apply wp_bind, wp_gets, wp_bind, wp_lift. cbn [id]. rewrite Hext. apply wp_bind, wp_reader. rewrite Hact.
      by apply wp_bind, wp_lift.
  - unfold IncreaseLayer. apply wp_bind, wp_gets, wp_bind, wp_lift. cbn [id]. by rewrite Hext.
Qed.

Lemma keeps_counting a f : keeps (on_stream a (counting f)).
Proof.
  apply keeps_on_stream. intros s str r x r' Hs Hr Hf. unfold counting in Hf. destruct (f _) as [[v c]|]; [|done]. injection Hf as <- <-.
  eapply Inv_evolves; [|exact Hs]. by eapply evolves_insert.
Qed.

Lemma keeps_highest_bitrate l t : forall v, keeps (highest_bitrate l t v).
Proof.
  induction l as [|[a|] l IH]; intros v; cbn [highest_bitrate]; [apply keeps_ret| |apply IH].
  apply keeps_bind; [apply keeps_counting|intros; apply IH].
Qed.

Lemma keeps_GetDesiredBitrate t : keeps (GetDesiredBitrate t).
Proof.
  unfold GetDesiredBitrate. apply keeps_bind; [apply keeps_gets|]. intros s. apply keeps_bind; [apply keeps_lift|]. intros _.
  apply keeps_bind; [apply safe_keeps, safe_IsActive|]. intros active. destruct (negb active); [apply keeps_ret|].
  apply keeps_bind; [apply keeps_highest_bitrate|]. keep.
Qed.

(** ** Histories *)

(** The calls of the transport and of the router. *)
Inductive Op :=
| OConnected (t : Z)
| ODisconnected (t : Z)
| OPaused (t : Z)
| OResumed (t : Z)
| OClosed
| OExternal
| ORequest (r : Request) (t : Z)
| OStream (a mappedSsrc : Z)
| ONewStream (a mappedSsrc t : Z)
| OScore (score previousScore t : Z)
| OSenderReport (first : bool) (t : Z)
| OIncrease (bitrate : Z) (considerLoss : bool) (t : Z)
| OApply (t : Z)
| ODesired (t : Z)
| OSend (p : RtpPacket.t) (d : option Tools.Descriptor) (shared : option Z) (junk : list Z) (t : Z)
| ORtcp (packet : CompoundPacket.t) (addr t : Z)
| OFractionLost (worst : Z)
| ONack (isKeyFrame : RtpPacket.t -> bool) (nackPacket : FeedbackPacket.t FeedbackRtpNackItem) (t : Z)
| OKeyFrameRequest (messageType ssrc : Z)
| OReport (pow4 : spec_float -> spec_float) (report : list Z) (t : Z)
| OXr (report : ReceiverReferenceTime.t) (t : Z)
| ORate (t : Z).

Definition ignore {A} (m : M State A) : M State unit := _ ← m; mret tt.

Definition run (op : Op) : M State unit :=
  match op with
  | OConnected t => TransportConnected t
  | ODisconnected t => TransportDisconnected t
  | OPaused t => ProducerPaused t
  | OResumed t => ProducerResumed t
  | OClosed => ProducerClosed
  | OExternal => SetExternallyManagedBitrate
  | ORequest r t => ignore (HandleRequest r t)
  | OStream a ssrc => ProducerRtpStream a ssrc
  | ONewStream a ssrc t => ProducerNewRtpStream a ssrc t
  | OScore v p t => ProducerRtpStreamScore v p t
  | OSenderReport first t => ProducerRtcpSenderReport first t
  | OIncrease b loss t => ignore (IncreaseLayer b loss t)
  | OApply t => ApplyLayers t
  | ODesired t => ignore (GetDesiredBitrate t)
  | OSend p d shared junk t => ignore (SendRtpPacket p d shared junk t)
  | ORtcp packet addr t => ignore (GetRtcp packet addr t)
  | OFractionLost worst => ignore (NeedWorstRemoteFractionLost worst)
  | ONack k n t => ReceiveNack k n t
  | OKeyFrameRequest ty ssrc => ReceiveKeyFrameRequest RequestKeyFrameForCurrentSpatialLayer ty ssrc
  | OReport pow4 report t => ReceiveRtcpReceiverReport (OnRtpStreamScore t) pow4 report t
  | OXr report t => ReceiveRtcpXrReceiverReferenceTime report t
  | ORate t => ignore (GetTransmissionRate t)
  end.

(** What is asked of the calls: new streams are of layers without one, the requested temporal
    layers fit in 15 bits, a bitrate is not negative and the streams have a counter for each
    layer. *)
Definition allowed (w : World State) (op : Op) : Prop :=
  match op with
  | ORequest r _ => small_layers r
  | OStream a ssrc | ONewStream a ssrc _ => fresh_stream (self w) (streams w) a ssrc
  | OIncrease b _ _ => 0 <= b /\ legible (streams w)
  | _ => True
  end.

(** A call that returned, or a change of the rest of the world, in which the streams of the
    producer stay and their sender reports stay set. *)
Inductive step (w : World State) : World State -> Prop :=
| step_call op w' : allowed w op -> run op w = Ok (tt, w') -> step w w'
| step_world str scores h e : evolves (streams w) str -> step w (mkWorld (self w) str scores h e).

Lemma keeps_ignore {A} (m : M State A) E : holds Inv E m -> holds Inv E (ignore m).
Proof. intros H. apply keeps_bind; [done|]. intros. apply keeps_ret. Qed.

(** The calls that control what is forwarded. *)
Definition control (w : World State) (op : Op) : Prop :=
  match op with
  | OConnected _ | ODisconnected _ | OPaused _ | OResumed _ | OClosed | OExternal | ORequest _ _ | OStream _ _
  | ONewStream _ _ _ | OScore _ _ _ | OSenderReport _ _ => True
  | OApply _ => externallyManagedBitrate (consumer (self w)) = true /\ is_active (self w) (streams w) = Ok true
  | _ => False
  end.

Lemma control_safe w op : Inv (self w) (streams w) -> allowed w op -> control w op ->
  wp (run op) (fun _ w' => Inv (self w') (streams w')) (fun _ => False) w.
Proof.
  intros Hw Ha Hc. destruct op; try done; cbn [run].
  - apply keeps_wp; [|done]. apply keeps_TransportConnected; eauto using consumer_flags with keeps.
  - apply keeps_wp; [|done]. apply keeps_TransportDisconnected; eauto using consumer_flags with keeps.
  - apply keeps_wp; [|done]. apply keeps_ProducerPaused; eauto using consumer_flags with keeps.
  - apply keeps_wp; [|done]. apply keeps_ProducerResumed; eauto using consumer_flags with keeps.
  - apply keeps_wp; [|done]. apply keeps_ProducerClosed; eauto using consumer_flags with keeps.
  - apply keeps_wp; [|done]. apply keeps_SetExternallyManagedBitrate; eauto using consumer_settings with keeps.
  - apply keeps_wp; [|done]. apply keeps_ignore, safe_HandleRequest, Ha.
  - by apply wp_ProducerRtpStream.
  - by apply wp_ProducerNewRtpStream.
  - apply keeps_wp; [|done]. apply safe_ProducerRtpStreamScore.
  - apply keeps_wp; [|done]. apply safe_ProducerRtcpSenderReport.
  - by apply safe_ApplyLayers; destruct Hc.
Qed.

Lemma run_keeps w op : Inv (self w) (streams w) -> allowed w op ->
  wp (run op) (fun _ w' => Inv (self w') (streams w')) (fun _ => True) w.
Proof.
  intros Hw Ha.
  assert (Hcontrol : control w op -> wp (run op) (fun _ w' => Inv (self w') (streams w')) (fun _ => True) w).
  { intros Hc. pose proof (control_safe w op Hw Ha Hc) as H. unfold wp in *. by destruct (run op w) as [[]|]. }
  destruct op; try (by apply Hcontrol); cbn [run].
  - apply wp_bind. eapply wp_mono; [by apply keeps_IncreaseLayer; [|destruct Ha..]|]. intros v w' Hw'. by apply wp_ret.
  - destruct (is_active_Ok _ _ Hw) as [active Hact]. destruct (externallyManagedBitrate (consumer (self w))) eqn:Hext; [destruct active|].
    + by apply Hcontrol.
    + unfold ApplyLayers. apply wp_bind, wp_gets, wp_bind, wp_lift. cbn [id]. rewrite Hext. apply wp_bind, wp_reader. rewrite Hact.
      by apply wp_bind, wp_lift.
    + unfold ApplyLayers. apply wp_bind, wp_gets, wp_bind, wp_lift. cbn [id]. by rewrite Hext.
  - apply keeps_wp; [|done]. apply keeps_ignore, keeps_GetDesiredBitrate.
  - apply keeps_wp; [|done]. apply keeps_ignore, keeps_SendRtpPacket.
  - apply keeps_wp; [|done]. apply keeps_ignore, keeps_GetRtcp; eauto using sender_stream, consumer_rtcp.
  - apply keeps_wp; [|done]. apply keeps_ignore, keeps_NeedWorstRemoteFractionLost. apply keeps_reader.
  - apply keeps_wp; [|done]. apply keeps_ReceiveNack; eauto using sender_stream. apply keeps_reader.
  - apply keeps_wp; [|done]. apply keeps_ReceiveKeyFrameRequest; eauto using sender_stream; [apply keeps_reader|apply safe_keeps, safe_RequestCurrent].
  - apply keeps_wp; [|done]. apply keeps_ReceiveRtcpReceiverReport; eauto using sender_stream. apply safe_keeps, safe_OnRtpStreamScore.
  - apply keeps_wp; [|done]. apply keeps_ReceiveRtcpXr; eauto using sender_stream.
  - apply keeps_wp; [|done]. apply keeps_ignore, keeps_GetTransmissionRate; eauto using sender_stream. apply keeps_reader.
Qed.

Lemma step_Inv w w' : step w w' -> Inv (self w) (streams w) -> Inv (self w') (streams w').
Proof.
  intros [op w2 Ha Hrun|str scores h e He] Hw; [|by eapply Inv_evolves].
  pose proof (run_keeps w op Hw Ha) as H. unfold wp in H. by rewrite Hrun in H.
Qed.

Lemma steps_Inv w w' : rtc step w w' -> Inv (self w) (streams w) -> Inv (self w') (streams w').
Proof. induction 1; eauto using step_Inv. Qed.

(** *** The first state *)

Lemma map_ssrcs_range l : forall i m n, 0 <= i -> i + zlen l <= n -> (forall k v, m !! k = Some v -> 0 <= v < n) ->
  forall k v, map_ssrcs l i m !! k = Some v -> 0 <= v < n.
Proof.
  induction l as [|e l IH]; intros i m n Hi Hn Hm k v H; cbn [map_ssrcs] in H; [eauto|]. rewrite zlen_cons in Hn. pose proof (zlen_nonneg l).
  eapply (IH (i + 1)); [lia|lia| |exact H]. intros k' v' H'. apply lookup_insert_Some in H' as [[_ <-]|[_ H']]; [lia|eauto].
Qed.

Lemma create_stream_params b e idx layered t random s : create_stream b e idx layered t random = Ok s ->
  exists c, RtpStream.temporalLayers (RtpStream.params (RtpStreamSend.base s)) =
    RtpStream.temporalLayers (stream_params (rtpParameters b) e c idx layered).
Proof.
  unfold create_stream. intros H. ok_step H. ok_step H. ok_step H. exists v.
  assert (Hmake : RtpStream.params (RtpStreamSend.base v0) = stream_params (rtpParameters b) e v idx layered).
  { unfold RtpStreamSend.make in E0. ok_step E0. by injection E0 as <-. }
  injection H as <-.
  assert (Hp : forall x : RtpStreamSend.State, x = (if paused (flags b) || producerPaused (flags b) then RtpStreamSend.Pause v0 else v0) ->
    RtpStream.params (RtpStreamSend.base x) = stream_params (rtpParameters b) e v idx layered) by (intros x ->; by destruct (_ || _)).
  destruct v1, (RtpParameters.rtx e); cbn; by rewrite (Hp _ eq_refl).
Qed.

(** The requests for a consumer that are served as they are meant. *)
Definition small_data (d : Data) : Prop :=
  match data_preferredLayers d with Some (_, Some t) => t < 2 ^ 15 | _ => True end /\
  Forall (fun e => 1 <= RtpParameters.temporalLayers e) (RtpParameters.encodings (data_rtpParameters d)).

Definition start (s : State) (str : Streams) (scores : list Z) (h : Heap) : World State :=
  mkWorld (set_consumer s (set_settings (consumer s) true (externallyManagedBitrate (consumer s)) (priority (consumer s))
                             (traceEventTypes (consumer s)))) str scores h [].

Lemma make_Inv d t random s str scores h : make d t random = Ok (Some s) -> small_data d ->
  Inv (self (start s str scores h)) (streams (start s str scores h)).
Proof.
  unfold make. intros H [Hsmall Hlayers]. ok_step H. destruct v as [b|]; [|done]. ok_step H.
  destruct (Z.eqb_spec (RtpParameters.spatialLayers v) (zlen (consumableRtpEncodings b))) as [En|]; [|done]. cbn [negb] in H.
  destruct (initial_layers d v) as [[sp tp]|] eqn:El; [|done]. ok_step H.
  destruct (Tools.IsValidTypeForCodec _ _ _) eqn:Ev; [|done]. cbn [negb] in H.
  destruct (Payload.GetEncodingContext _ _ _ _ _) as [ctx|] eqn:Ec; [|done]. ok_step H. injection H as <-.
  assert (Htl : 1 <= RtpParameters.temporalLayers v).
  { apply make_parameters in E as [Ep _]. unfold encoding in E0. rewrite Ep in E0.
    unfold TransmissionCounter.layer_at in E0. destruct (RtpParameters.encodings _) as [|e0 es]; [done|]. injection E0 as <-.
    by apply list.Forall_cons in Hlayers as [? _]. }
  assert (Hst : GetTemporalLayers v1 = RtpParameters.temporalLayers v).
  { unfold CreateRtpStream in E2. ok_step E2. rewrite E0 in E3. injection E3 as <-. apply create_stream_params in E2 as [c Hc]. exact Hc. }
  split; cbn; try done; try by left.
  - by rewrite length_replicate.
  - intros i a Ha. by apply lookup_replicate in Ha as [? _].
  - intros ssrc layer. unfold zlen. rewrite length_replicate. fold (zlen (consumableRtpEncodings b)).
    apply map_ssrcs_range; [lia|lia|]. intros k x Hk. by rewrite lookup_empty in Hk.
  - unfold initial_layers in El. destruct (data_preferredLayers d) as [[so to]|]; [|injection El as <- <-; lia].
    exact (preferred_layers_temporal _ _ _ _ (sp, tp) Htl El Hsmall).
  - by rewrite Hst.
  - revert Ev Ec. cbn. destruct (RtpParameters.mimeType v0); try done. destruct (RtpParameters.tools_subtype _); try done; by intros _ [= <-].
Qed.

(** *** A sample consumer: VP8 in two spatial and three temporal layers *)

Definition sample_encoding (n layers : Z) : RtpParameters.Encoding :=
  {| RtpParameters.ssrc := n; RtpParameters.rid := []; RtpParameters.codecPayloadType := Some 96; RtpParameters.rtx := None;
     RtpParameters.maxBitrate := 0; RtpParameters.dtx := false; RtpParameters.spatialLayers := layers;
     RtpParameters.temporalLayers := 3; RtpParameters.ksvc := false |}.
Definition sample_data (preferred : option (option Z * option Z)) : Data :=
  {| data_kind := VIDEO;
     data_rtpParameters :=
       {| RtpParameters.mid := []; RtpParameters.codecs := [RtpParameters.sample_codec 96 RtpParameters.VP8 None];
          RtpParameters.encodings := [sample_encoding 1000 2]; RtpParameters.headerExtensions := []; RtpParameters.cname := [97] |};
     data_consumableRtpEncodings := [sample_encoding 10 1; sample_encoding 20 1]; data_paused := false;
     data_preferredLayers := preferred; data_ignoreDtx := false |}.
Definition sample_params (n : Z) : RtpStream.Params :=
  {| RtpStream.encodingIdx := 0; RtpStream.rid := []; RtpStream.ssrc := n; RtpStream.payloadType := 96; RtpStream.mimeType := Tools.VIDEO; RtpStream.mimeSubtype := Tools.VP8;
     RtpStream.clockRate := 90000; RtpStream.cname := []; RtpStream.rtxSsrc := 0; RtpStream.rtxPayloadType := 0;
     RtpStream.useNack := false; RtpStream.usePli := true; RtpStream.useFir := false; RtpStream.useInBandFec := false;
     RtpStream.useDtx := false; RtpStream.spatialLayers := 1; RtpStream.temporalLayers := 3 |}.
Definition sample_stream (n : Z) : RtpStreamRecv.State := RtpStreamRecv.make (sample_params n) 0 100.

(** A stream that received 1000 bytes of its lowest layer. *)
Definition sample_sending (n : Z) : RtpStreamRecv.State :=
  let s := sample_stream n in
  match TransmissionCounter.Update (RtpStreamRecv.transmissionCounter s) 0 0 1000 3000 with
  | Ok c => RtpStreamRecv.set_transmission s c (RtpStreamRecv.mediaTransmissionCounter s)
  | Fault _ => s
  end.

Definition sample_streams : Streams := {[ 1 := sample_sending 10; 2 := sample_stream 20 ]}.
Definition no_heap : Heap := {| packets := ∅; next := 0 |}.

(** The calls one after the other. *)
Fixpoint exec (ops : list Op) (w : World State) : res (World State) :=
  match ops with
  | [] => Ok w
  | op :: ops' => match run op w with Ok (_, w') => exec ops' w' | Fault e => Fault e end
  end.

Lemma sample_state_ok : is_ok (o ← make (sample_data None) 100 0; deref o) = true.
Proof. vm_compute. reflexivity. Qed.
Definition sample_state : State := from_ok _ sample_state_ok.
Definition sample_w0 : World State := start sample_state sample_streams [10; 10] no_heap.

(** It was connected and got the stream of the lower layer. *)
Lemma sample_w1_ok : is_ok (exec [OConnected 150] sample_w0) = true.
Proof. vm_compute. reflexivity. Qed.
Definition sample_w1 : World State := from_ok _ sample_w1_ok.
Lemma sample_w_ok : is_ok (exec [ONewStream 1 10 200] sample_w1) = true.
Proof. vm_compute. reflexivity. Qed.
Definition sample_w : World State := from_ok _ sample_w_ok.

Lemma sample_made : make (sample_data None) 100 0 = Ok (Some sample_state).
Proof. vm_compute. reflexivity. Qed.

Lemma sample_small : small_data (sample_data None).
Proof. by repeat constructor. Qed.

Lemma sample_fresh : fresh_stream (self sample_w1) (streams sample_w1) 1 10.
Proof. vm_compute. split_and!; [by eexists..|]. intros layer b. intros [= <-]. vm_compute. discriminate. Qed.

Lemma exec_single op w w' : allowed w op -> exec [op] w = Ok w' -> step w w'.
Proof. intros Ha H. cbn [exec] in H. destruct (run op w) as [[[] w1]|] eqn:E; [|done]. injection H as ->. by apply (step_call _ op). Qed.

Lemma sample_steps : rtc step sample_w0 sample_w.
Proof.
  eapply rtc_l; [exact (exec_single (OConnected 150) _ _ I (from_ok_eq _ sample_w1_ok))|].
  apply rtc_once. exact (exec_single (ONewStream 1 10 200) _ _ sample_fresh (from_ok_eq _ sample_w_ok)).
Qed.

(** C14: no history makes a simulcast consumer abort the worker.  From its creation, over every
    sequence of calls of the transport and the router (requests, pauses, scores, sender
    reports, layer increases, packets, RTCP), as long as the sender reports of the producer's
    streams stay set and requested temporal layers fit in 15 bits: every call that controls
    what is forwarded returns, so its assertions hold and no missing stream is read; and for
    every packet of the producer the first half of [SendRtpPacket] returns, so the assertions
    that the reference and the target stream have a sender report hold, and the target
    temporal layer that the codec asserts not to be negative is not. *)
Theorem simulcast_history_safe d t random s str scores h w :
  make d t random = Ok (Some s) -> small_data d -> rtc step (start s str scores h) w ->
  (forall op, allowed w op -> control w op -> exists w', run op w = Ok (tt, w')) /\
  (forall ssrc layer seq ts key,
     mapMappedSsrcSpatialLayer (self w) !! ssrc = Some layer -> targetTemporalLayer (layers (self w)) <> -1 ->
     exists r w', prepare layer seq ts key w = Ok (r, w') /\
       match r with
       | None => True
       | Some true => 0 <= targetTemporalLayer (layers (self w'))
       | Some false => 0 <= context_target (self w')
       end).
Proof.
  intros Hmake Hsmall Hsteps. pose proof (steps_Inv _ _ Hsteps (make_Inv _ _ _ _ _ _ _ Hmake Hsmall)) as Hw. split.
  - intros op Ha Hc. pose proof (control_safe w op Hw Ha Hc) as H. unfold wp in H. destruct (run op w) as [[[] w']|]; [by eexists|done].
  - intros ssrc layer seq ts key Hl Ht. apply (inv_map _ _ Hw) in Hl.
    pose proof (wp_prepare layer seq ts key w Hw Ht ltac:(lia)) as H. unfold wp in H.
    destruct (prepare layer seq ts key w) as [[r w']|]; [|done]. exists r, w'. split; [done|].
    destruct H as ((Hw' & _ & El & _) & Hr). destruct r as [[]|]; [..|done].
    + rewrite El. destruct (inv_target _ _ Hw) as [[]|(_ & _ & ?)]; done.
    + destruct (inv_current _ _ Hw') as [E|(_ & _ & ?)]; [rewrite El in E; lia|done].
Qed.

Lemma simulcast_history_safe_witness :
  make (sample_data None) 100 0 = Ok (Some sample_state) /\ targetSpatialLayer (layers (self sample_w)) = 0 /\
  exists w', run (OPaused 300) sample_w = Ok (tt, w').
Proof.
  split_and!; [vm_compute; reflexivity|vm_compute; reflexivity|].
  eapply (proj1 (simulcast_history_safe (sample_data None) 100 0 sample_state sample_streams [10; 10] no_heap sample_w
    sample_made sample_small sample_steps)); exact I.
Defined.

Lemma sample_Inv : Inv (self sample_w) (streams sample_w).
Proof. exact (steps_Inv _ _ sample_steps (make_Inv _ _ _ _ _ _ _ sample_made sample_small)). Qed.

(** The transport manages the bitrate of the sample consumer. *)
Lemma sample_managed_ok : is_ok (exec [OExternal] sample_w) = true.
Proof. vm_compute. reflexivity. Qed.
Definition sample_managed : World State := from_ok _ sample_managed_ok.

Lemma sample_managed_Inv : Inv (self sample_managed) (streams sample_managed).
Proof.
  refine (step_Inv _ _ _ sample_Inv). exact (exec_single OExternal _ _ I (from_ok_eq _ sample_managed_ok)).
Qed.

(** C15: which layer a consumer aims at.  [RecalculateTargetLayers] returns, in a consistent
    state, the choice among the layers that the producer sends and whose timestamps can be
    related to what was sent: the lowest one from the preferred layer upwards, or else the
    highest one below it, where all but the first usable layer must have been active for two
    seconds (if the transport manages the bitrate) and not be above the current one soon after
    a downgrade; with the preferred temporal layer in the preferred spatial layer, all of them
    below it, the lowest one above it.  There is none exactly when no layer is usable. *)
Theorem target_layers_chosen s str nowMs :
  Inv s str ->
  exists sp tp changed, RecalculateTargetLayers s str nowMs = Ok (changed, sp, tp) /\ chosen s str nowMs sp /\
    (sp = -1 <-> forall i, ~ usable s str i) /\
    tp = target_temporal sp (preferredSpatialLayer (layers s)) (preferredTemporalLayer (layers s)) (GetTemporalLayers (sender s)) /\
    (changed = true <-> sp <> targetSpatialLayer (layers s) \/ tp <> targetTemporalLayer (layers s)).
Proof.
  intros Hs. unfold RecalculateTargetLayers. destruct (chosen_layer s str nowMs Hs) as (sp & -> & Hc). cbn [mbind res_bind mret res_ret].
  eexists sp, _, _. split; [done|]. split_and!; [done| |done|].
  - split; [intros ->; by destruct Hc as [[_ ?]|[[(r & [? _] & _) _] _]]|]. intros Hno.
    destruct Hc as [[? _]|[[Hu _] _]]; [done|by destruct (Hno sp)].
  - rewrite orb_true_iff, !negb_true_iff, !Z.eqb_neq. done.
Qed.

Lemma target_layers_chosen_witness : exists sp tp changed,
  RecalculateTargetLayers (self sample_w) (streams sample_w) 3000 = Ok (changed, sp, tp) /\ sp = 0 /\ tp = 2.
Proof.
  destruct (target_layers_chosen (self sample_w) (streams sample_w) 3000 sample_Inv) as (sp & tp & changed & H & _).
  exists sp, tp, changed. split; [exact H|]. vm_compute in H. injection H as <- <- <-. by split.
Defined.

(** *** What the hypotheses of the histories exclude *)

(** A VP8 key frame of a stream of the producer, which is parsed and sent. *)
Definition sample_frame (ssrc : Z) : list Z := [128; 96; 0; 1; 0; 0; 0; 1; 0; 0; 0; ssrc; 144; 128; 128; 5; 0; 157; 1; 42].
Definition send_bytes (data : list Z) (t : Z) (w : World State) : res (World State) :=
  o ← RtpPacket.Parse data (zlen data);
  p ← deref o;
  '(d, p) ← Tools.ProcessRtpPacket p Tools.VIDEO Tools.VP8;
  '(_, w) ← SendRtpPacket p d None (replicate 1500 0) t w;
  Ok w.

(** The stream at [a] gets a sender report; what the consumer reads of it. *)
Definition report_at (sec a : Z) (w : World State) : res (World State) :=
  '(_, w) ← on_stream a (fun r =>
     let ntpMs := Time.Ntp2TimeMs {| Time.seconds := sec; Time.fractions := 0 |} in
     Ok (tt, RtpStreamRecv.set_base r (RtpStream.set_senderReport (RtpStreamRecv.base r) ntpMs 7))) w;
  Ok w.

(** C23: two inputs abort the worker.  (1) A request for the temporal layer 65534 is accepted,
    read as a 16-bit number, -2, and not raised to 0: the next key frame fails the assertion of
    the codec that the target layer is not negative.  (2) A sender report with the NTP time 0
    takes back the one that the switch of layers relied on: the key frame of the new layer
    fails the assertion that the reference stream has a sender report.  With the layer 2 and
    with another NTP time the same calls return. *)
Example simulcast_inputs_abort :
  let preferred n := w ← exec [ORequest (SetPreferredLayers (Some 0) (Some n)) 250] sample_w; send_bytes (sample_frame 10) 300 w in
  let reported sec :=
    w ← report_at 9 1 sample_w; w ← report_at 9 2 w;
    w ← exec [OStream 2 20; OSenderReport true 20210] w; w ← send_bytes (sample_frame 10) 20220 w;
    w ← exec [ORequest (SetPreferredLayers (Some 1) (Some 0)) 20250] w; w ← report_at sec 1 w;
    send_bytes (sample_frame 20) 20300 w in
  is_ok (preferred 2) = true /\ preferred 65534 = Fault AssertFailed /\
  is_ok (reported 10) = true /\ reported 0 = Fault AssertFailed.
Proof. cbn zeta. split_and!; vm_compute; reflexivity. Qed.

End SimulcastHistory.
