(* ===== verification/SvcConsumer.v ===== *)
(** * SVC consumers

    Models [worker/src/RTC/SvcConsumer.cpp] and its header: the producer sends one stream with
    several spatial and temporal layers in it, and the consumer forwards the packets of the
    layers up to the target ones.  The target and the current layers are those of the encoding
    context, which the codec reads and changes.  What a reader of the bitrate of a layer finds
    depends on the clock, so [RecalculateTargetLayers] changes the counters of the producer's
    stream. *)

From Stdlib Require Import SpecFloat.
From stdpp Require Import gmap.
From S2P Require Import Prelude Utils Float SeqManager RateCalculator RtcpPacket RtcpReports RtcpFeedback RtcpXr Rtcp RtpPacket.
From S2P Require Import Codecs Payload RtpParameters RtpStream RtpStreamRecv RtpStreamSend Consumer.

Module SvcConsumer.

Import Consumer Sender.

Record Layers := {
  preferredSpatialLayer : Z;
  preferredTemporalLayer : Z;
  provisionalTargetSpatialLayer : Z;
  provisionalTargetTemporalLayer : Z;
}.

Record State := {
  consumer : Base;
  sender : RtpStreamSend.State;
  producerRtpStream : option Z;
  syncRequired : bool;
  rtpSeqManager : Manager.SeqManager;
  layers : Layers;
  encodingContext : Payload.Context;
  lastBweDowngradeAtMs : Z;
}.

Definition set_consumer (s : State) (v : Base) : State :=
  {| consumer := v; sender := sender s; producerRtpStream := producerRtpStream s; syncRequired := syncRequired s;
     rtpSeqManager := rtpSeqManager s; layers := layers s; encodingContext := encodingContext s;
     lastBweDowngradeAtMs := lastBweDowngradeAtMs s |}.
Definition set_sender (s : State) (v : RtpStreamSend.State) : State :=
  {| consumer := consumer s; sender := v; producerRtpStream := producerRtpStream s; syncRequired := syncRequired s;
     rtpSeqManager := rtpSeqManager s; layers := layers s; encodingContext := encodingContext s;
     lastBweDowngradeAtMs := lastBweDowngradeAtMs s |}.
Definition set_stream (s : State) (v : option Z) : State :=
  {| consumer := consumer s; sender := sender s; producerRtpStream := v; syncRequired := syncRequired s;
     rtpSeqManager := rtpSeqManager s; layers := layers s; encodingContext := encodingContext s;
     lastBweDowngradeAtMs := lastBweDowngradeAtMs s |}.
Definition set_sync (s : State) (b : bool) (m : Manager.SeqManager) : State :=
  {| consumer := consumer s; sender := sender s; producerRtpStream := producerRtpStream s; syncRequired := b;
     rtpSeqManager := m; layers := layers s; encodingContext := encodingContext s;
     lastBweDowngradeAtMs := lastBweDowngradeAtMs s |}.
Definition set_layers (s : State) (v : Layers) : State :=
  {| consumer := consumer s; sender := sender s; producerRtpStream := producerRtpStream s; syncRequired := syncRequired s;
     rtpSeqManager := rtpSeqManager s; layers := v; encodingContext := encodingContext s;
     lastBweDowngradeAtMs := lastBweDowngradeAtMs s |}.
Definition set_context (s : State) (v : Payload.Context) : State :=
  {| consumer := consumer s; sender := sender s; producerRtpStream := producerRtpStream s; syncRequired := syncRequired s;
     rtpSeqManager := rtpSeqManager s; layers := layers s; encodingContext := v;
     lastBweDowngradeAtMs := lastBweDowngradeAtMs s |}.
Definition set_bwe (s : State) (v : Z) : State :=
  {| consumer := consumer s; sender := sender s; producerRtpStream := producerRtpStream s; syncRequired := syncRequired s;
     rtpSeqManager := rtpSeqManager s; layers := layers s; encodingContext := encodingContext s;
     lastBweDowngradeAtMs := v |}.
Definition with_preferred (l : Layers) (sp tp : Z) : Layers :=
  {| preferredSpatialLayer := sp; preferredTemporalLayer := tp;
     provisionalTargetSpatialLayer := provisionalTargetSpatialLayer l;
     provisionalTargetTemporalLayer := provisionalTargetTemporalLayer l |}.
Definition with_provisional (l : Layers) (sp tp : Z) : Layers :=
  {| preferredSpatialLayer := preferredSpatialLayer l; preferredTemporalLayer := preferredTemporalLayer l;
     provisionalTargetSpatialLayer := sp; provisionalTargetTemporalLayer := tp |}.

(** The layers of the encoding context. *)
Definition context (s : State) : EncodingContext.t := Payload.context (encodingContext s).
Definition target_spatial (s : State) : Z := EncodingContext.targetSpatialLayer (context s).
Definition target_temporal_ (s : State) : Z := EncodingContext.targetTemporalLayer (context s).
Definition current_spatial (s : State) : Z := EncodingContext.currentSpatialLayer (context s).
Definition current_temporal (s : State) : Z := EncodingContext.currentTemporalLayer (context s).
Definition IsKSvc (s : State) : bool := EncodingContext.ksvc (context s).

Abbreviation Streams := (gmap Z RtpStreamRecv.State).

(** The stream of the producer, if any. *)
Definition stream_of (s : State) (str : Streams) : res (option RtpStreamRecv.State) :=
  match producerRtpStream s with None => mret None | Some a => r ← deref (str !! a); mret (Some r) end.

Definition is_active (s : State) (str : Streams) : res bool :=
  if base_active (consumer s) then
    o ← stream_of s str;
    mret (match o with Some r => alive r | None => false end)
  else mret false.
Definition IsActive_ : M State bool := reader is_active.

(** ** Target layers *)

Definition recent_downgrade (s : State) (nowMs : Z) : bool :=
  u64 (nowMs - lastBweDowngradeAtMs s) <? BweDowngradeConservativeMs.

(** The loop of [RecalculateTargetLayers], over [n] spatial layers from [spatialLayer] on. *)
Fixpoint recalculate_loop (n : nat) (a nowMs spatialLayer best : Z) : M State Z :=
  match n with
  | O => mret best
  | S n' =>
      s ← gets id;
      if recent_downgrade s nowMs && (-1 <? best) && (current_spatial s <? spatialLayer)
      then recalculate_loop n' a nowMs (spatialLayer + 1) best
      else
        bitrate ← on_stream a (GetSpatialLayerBitrate nowMs spatialLayer);
        if bitrate =? 0 then recalculate_loop n' a nowMs (spatialLayer + 1) best
        else if preferredSpatialLayer (layers s) <=? spatialLayer then mret spatialLayer
        else recalculate_loop n' a nowMs (spatialLayer + 1) spatialLayer
  end.

(** Whether the target layers change, and the new ones. *)
Definition RecalculateTargetLayers (nowMs : Z) : M State (bool * Z * Z) :=
  s ← gets id;
  let l := layers s in
  o ← reader stream_of;
  sp ← (match producerRtpStream s, o with
        | Some a, Some r =>
            if score r =? 0 then mret (-1) else recalculate_loop (Z.to_nat (spatial_layers r)) a nowMs 0 (-1)
        | _, _ => mret (-1)
        end);
  let tp := target_temporal sp (preferredSpatialLayer l) (preferredTemporalLayer l) (GetTemporalLayers (sender s)) in
  mret (negb (sp =? target_spatial s) || negb (tp =? target_temporal_ s), sp, tp).

Definition RequestKeyFrame_ : M State unit :=
  b ← gets consumer;
  when (bool_decide (kind b = VIDEO))
    (e ← lift (TransmissionCounter.layer_at (consumableRtpEncodings b) 0);
     emit (OnConsumerKeyFrameRequested (RtpParameters.ssrc e))).

Definition EmitLayersChange : M State unit :=
  s ← gets id;
  emit (EmittedLayersChange (if 0 <=? current_spatial s then Some (current_spatial s, current_temporal s) else None)).

Definition modify_context (f : EncodingContext.t -> EncodingContext.t) : M State unit :=
  modify (fun s => set_context s (Payload.on_context f (encodingContext s))).

Definition no_layers (c : EncodingContext.t) : EncodingContext.t :=
  EncodingContext.SetCurrentTemporalLayer
    (EncodingContext.SetTargetTemporalLayer
       (EncodingContext.SetCurrentSpatialLayer (EncodingContext.SetTargetSpatialLayer c (-1)) (-1)) (-1)) (-1).

Definition UpdateTargetLayers (newTargetSpatialLayer newTargetTemporalLayer : Z) : M State unit :=
  if newTargetSpatialLayer =? -1 then
    _ ← modify_context no_layers;
    EmitLayersChange
  else
    _ ← modify_context (fun c =>
          EncodingContext.SetTargetTemporalLayer (EncodingContext.SetTargetSpatialLayer c newTargetSpatialLayer)
            newTargetTemporalLayer);
    s ← gets id;
    when (negb (newTargetSpatialLayer =? current_spatial s) && (IsKSvc s || (current_spatial s <? newTargetSpatialLayer)))
      RequestKeyFrame_.

Definition MayChangeLayers (force : bool) (nowMs : Z) : M State unit :=
  '(changed, sp, tp) ← RecalculateTargetLayers nowMs;
  s ← gets id;
  when changed
    (if externallyManagedBitrate (consumer s)
     then when (negb (sp =? target_spatial s) || force) (emit OnConsumerNeedBitrateChange)
     else UpdateTargetLayers sp tp).

(** ** The virtual methods *)

Definition require_sync : M State unit := modify (fun s => set_sync s true (rtpSeqManager s)).

Definition UserOnTransportConnected_ (nowMs : Z) : M State unit :=
  _ ← require_sync;
  active ← IsActive_;
  when active (MayChangeLayers false nowMs).

Definition stop : M State unit :=
  _ ← modify (fun s => set_sender (set_bwe s 0) (RtpStreamSend.Pause (sender s)));
  UpdateTargetLayers (-1) (-1).

Definition UserOnTransportDisconnected_ (_ : Z) : M State unit := stop.

Definition UserOnPaused_ (_ : Z) : M State unit :=
  _ ← stop;
  e ← gets (fun s => externallyManagedBitrate (consumer s));
  when e (emit OnConsumerNeedZeroBitrate).

Definition UserOnResumed_ (nowMs : Z) : M State unit :=
  _ ← require_sync;
  active ← IsActive_;
  when active (MayChangeLayers false nowMs).

#[global] Instance svc_virtual : Virtual State := {
  base := consumer;
  set_base := set_consumer;
  IsActive := IsActive_;
  UserOnTransportConnected := UserOnTransportConnected_;
  UserOnTransportDisconnected := UserOnTransportDisconnected_;
  UserOnPaused := UserOnPaused_;
  UserOnResumed := UserOnResumed_;
}.

Definition producer_score : M State Z :=
  reader (fun s str => o ← stream_of s str; mret (match o with Some r => score r | None => 0 end)).

#[global] Instance svc_sender : SingleStream State := {
  sender_virtual := svc_virtual;
  rtpStream := sender;
  set_rtpStream := set_sender;
  producerScore := producer_score;
}.

Definition OnRtpStreamScore (nowMs : Z) : M State unit :=
  _ ← EmitScore;
  active ← IsActive_;
  e ← gets (fun s => externallyManagedBitrate (consumer s));
  when (active && negb e) (MayChangeLayers false nowMs).

(** ** The constructor *)

Definition make (d : Data) (nowMs random : Z) : res (throws State) :=
  o ← Consumer.make Tools.SVC d;
  match o with
  | None => mret None
  | Some b =>
      if negb (zlen (consumableRtpEncodings b) =? 1) then mret None
      else
        e ← encoding b;
        if (RtpParameters.spatialLayers e <? 2) && (RtpParameters.temporalLayers e <? 2) then mret None
        else
          match initial_layers d e with
          | None => mret None
          | Some (sp, tp) =>
              c ← RtpParameters.GetCodecForEncoding (rtpParameters b) e;
              let sub := RtpParameters.tools_subtype (RtpParameters.subtype c) in
              if negb (Tools.IsValidTypeForCodec Tools.SVC (RtpParameters.mimeType c) sub) then mret None
              else
                match Payload.GetEncodingContext (RtpParameters.mimeType c) sub (RtpParameters.spatialLayers e)
                        (RtpParameters.temporalLayers e) (RtpParameters.ksvc e) with
                | None => Fault AssertFailed
                | Some ctx =>
                    s ← CreateRtpStream b true nowMs random;
                    mret (Some
                      {| consumer := b; sender := s; producerRtpStream := None; syncRequired := false;
                         rtpSeqManager := Manager.init;
                         layers := {| preferredSpatialLayer := sp; preferredTemporalLayer := tp;
                                      provisionalTargetSpatialLayer := -1; provisionalTargetTemporalLayer := -1 |};
                         encodingContext := ctx; lastBweDowngradeAtMs := 0 |})
                end
          end
  end.

(** ** Requests and events of the producer *)

Definition HandleRequest (r : Request) (nowMs : Z) : M State Answer :=
  match r with
  | RequestKeyFrame =>
      active ← IsActive_;
      _ ← when active RequestKeyFrame_;
      mret Accepted
  | SetPreferredLayers spatial temporal =>
      s ← gets id;
      let l := layers s in
      match preferred_layers (GetSpatialLayers (sender s)) (GetTemporalLayers (sender s)) spatial temporal with
      | None => mret RejectedType
      | Some (sp, tp) =>
          _ ← modify (fun s => set_layers s (with_preferred (layers s) sp tp));
          active ← IsActive_;
          _ ← when (active && (negb (sp =? preferredSpatialLayer l) || negb (tp =? preferredTemporalLayer l)))
                (MayChangeLayers true nowMs);
          mret (AcceptedLayers sp tp)
      end
  | _ => Consumer.HandleRequest r nowMs
  end.

Definition ProducerRtpStream (a : Z) : M State unit := modify (fun s => set_stream s (Some a)).

Definition ProducerNewRtpStream (a nowMs : Z) : M State unit :=
  _ ← ProducerRtpStream a;
  _ ← EmitScore;
  active ← IsActive_;
  when active (MayChangeLayers false nowMs).

Definition ProducerRtpStreamScore (score previousScore nowMs : Z) : M State unit :=
  _ ← EmitScore;
  b ← gets consumer;
  when (base_active b && (negb (externallyManagedBitrate b) || ((score =? 0) || (previousScore =? 0))))
    (MayChangeLayers false nowMs).

Definition ProducerRtcpSenderReport (first : bool) : M State unit := mret tt.

(** ** The bitrate *)

Definition GetBitratePriority : M State Z :=
  b ← gets consumer;
  _ ← lift (ms_assert (externallyManagedBitrate b));
  active ← IsActive_;
  mret (if (active : bool) then priority b else 0).

(** The bitrate that a layer requires; in K-SVC, beyond what the provisional layers use. *)
Definition required_bitrate (a spatialLayer temporalLayer nowMs : Z) : M State Z :=
  required ← on_stream a (GetLayerBitrate nowMs spatialLayer temporalLayer);
  s ← gets id;
  let l := layers s in
  if IsKSvc s && negb (required =? 0) && (temporalLayer =? 0) && (-1 <? provisionalTargetSpatialLayer l)
     && (provisionalTargetSpatialLayer l <? spatialLayer) then
    provisional ← on_stream a (GetBitrateUpTo nowMs (provisionalTargetSpatialLayer l) (provisionalTargetTemporalLayer l));
    mret (if provisional <? required then required - provisional else 1)
  else mret required.

(** The loop over [n] temporal layers of a spatial layer, from [temporalLayer] on. *)
Fixpoint temporal_loop (n : nat) (a spatialLayer temporalLayer nowMs : Z) : M State (option (Z * Z)) :=
  match n with
  | O => mret None
  | S n' =>
      l ← gets layers;
      if (spatialLayer =? provisionalTargetSpatialLayer l) && (temporalLayer <=? provisionalTargetTemporalLayer l)
      then temporal_loop n' a spatialLayer (temporalLayer + 1) nowMs
      else
        required ← required_bitrate a spatialLayer temporalLayer nowMs;
        mret (if negb (required =? 0) then Some (temporalLayer, required) else None)
  end.

(** The loop over [n] spatial layers: the layers found and the bitrate they require. *)
Fixpoint spatial_loop (n : nat) (a temporalLayers spatialLayer nowMs : Z) : M State (option (Z * Z * Z)) :=
  match n with
  | O => mret None
  | S n' =>
      s ← gets id;
      let l := layers s in
      if recent_downgrade s nowMs && (-1 <? provisionalTargetSpatialLayer l) && (current_spatial s <? spatialLayer)
      then mret None
      else if spatialLayer <? provisionalTargetSpatialLayer l then spatial_loop n' a temporalLayers (spatialLayer + 1) nowMs
      else
        found ← temporal_loop (Z.to_nat temporalLayers) a spatialLayer 0 nowMs;
        match found with
        | Some (temporalLayer, required) => mret (Some (spatialLayer, temporalLayer, required))
        | None =>
            if preferredSpatialLayer l <=? spatialLayer then mret None
            else spatial_loop n' a temporalLayers (spatialLayer + 1) nowMs
        end
  end.

Definition IncreaseLayer (bitrate : Z) (considerLoss : bool) (nowMs : Z) : M State Z :=
  s ← gets id;
  let l := layers s in
  _ ← lift (ms_assert (externallyManagedBitrate (consumer s)));
  active ← IsActive_;
  _ ← lift (ms_assert active);
  a ← lift (deref (producerRtpStream s));
  r ← reader (fun _ str => deref (str !! a));
  if score r =? 0 then mret 0
  else if (provisionalTargetSpatialLayer l =? preferredSpatialLayer l)
     && (provisionalTargetTemporalLayer l =? preferredTemporalLayer l) then mret 0
  else
    virtual ← lift (virtual_bitrate (sender s) bitrate considerLoss);
    found ← spatial_loop (Z.to_nat (spatial_layers r)) a (temporal_layers r) 0 nowMs;
    match found with
    | None => mret 0
    | Some (sp, tp, required) =>
        if virtual <? required then mret 0
        else
          _ ← modify (fun s => set_layers s (with_provisional (layers s) sp tp));
          mret (taken required virtual bitrate)
    end.

(** The second test of [IsActive] in the source follows an assertion of it. *)
Definition ApplyLayers (nowMs : Z) : M State unit :=
  s ← gets id;
  _ ← lift (ms_assert (externallyManagedBitrate (consumer s)));
  active ← IsActive_;
  _ ← lift (ms_assert active);
  let sp := provisionalTargetSpatialLayer (layers s) in
  let tp := provisionalTargetTemporalLayer (layers s) in
  _ ← modify (fun s => set_layers s (with_provisional (layers s) (-1) (-1)));
  when (negb (sp =? target_spatial s) || negb (tp =? target_temporal_ s))
    (_ ← UpdateTargetLayers sp tp;
     s ← gets id;
     when ((BweDowngradeMinActiveMs <? GetActiveMs (RtpStream.scoring (RtpStreamSend.base (sender s))) nowMs)
           && (target_spatial s <? current_spatial s) && (current_spatial s <=? preferredSpatialLayer (layers s)))
       (modify (fun s => set_bwe s nowMs))).

(** The highest bitrate of the spatial layers below [n], from the last one. *)
Fixpoint highest_bitrate (n : nat) (a nowMs desired : Z) : M State Z :=
  match n with
  | O => mret desired
  | S n' =>
      v ← on_stream a (GetSpatialLayerBitrate nowMs (Z.of_nat n'));
      highest_bitrate n' a nowMs (if desired <? v then v else desired)
  end.

Definition GetDesiredBitrate (nowMs : Z) : M State Z :=
  s ← gets id;
  _ ← lift (ms_assert (externallyManagedBitrate (consumer s)));
  active ← IsActive_;
  if negb active then mret 0
  else
    a ← lift (deref (producerRtpStream s));
    r ← reader (fun _ str => deref (str !! a));
    v ← (if IsKSvc s then highest_bitrate (Z.to_nat (spatial_layers r)) a nowMs 0 else on_stream a (GetBitrate nowMs));
    e ← lift (encoding (consumer s));
    mret (if v <? RtpParameters.maxBitrate e then RtpParameters.maxBitrate e else v).

(** ** Sending *)

Definition synchronize (seq : Z) : M State unit :=
  modify (fun s =>
    set_context (set_sync s false (Manager.Sync 16 (rtpSeqManager s) (u16 (seq - 1)))) (Payload.SyncRequired (encodingContext s))).

(** The payload is processed: whether to send the packet, the packet, and whether to set its
    marker bit. *)
Definition process (p : RtpPacket.t) (d : option Tools.Descriptor) (seq : Z) : M State (bool * RtpPacket.t * bool) :=
  s ← gets id;
  '(ok, c, p, marker) ← lift (Payload.ProcessPayload p d (encodingContext s) false);
  _ ← modify (fun s => set_context s c);
  if negb ok then
    _ ← modify (fun s => set_sync s (syncRequired s) (Manager.Drop 16 (rtpSeqManager s) seq));
    mret (false, p, marker)
  else
    s' ← gets id;
    _ ← when (negb (current_spatial s =? current_spatial s') || negb (current_temporal s =? current_temporal s')) EmitLayersChange;
    mret (true, p, marker).

Definition send (p : RtpPacket.t) (d : option Tools.Descriptor) (seq : Z) (origMarker marker : bool) (shared : option Z)
    (junk : list Z) (nowMs : Z) : M State (RtpPacket.t * option Z) :=
  s ← gets id;
  let '(o, m) := Manager.Input 16 (rtpSeqManager s) seq in
  _ ← modify (fun s => set_sync s (syncRequired s) m);
  out ← lift (initialized o);
  '(p, shared) ← deliver p out (fun q => if marker then RtpPacket.SetMarker q true else mret q)
                   (fun q => RtpPacket.SetMarker q origMarker) (Tools.IsKeyFrame d) shared junk nowMs (fun _ => mret tt);
  p ← lift (Payload.RestorePayload p d);
  mret (p, shared).

Definition SendRtpPacket (p : RtpPacket.t) (d : option Tools.Descriptor) (shared : option Z) (junk : list Z) (nowMs : Z)
    : M State (RtpPacket.t * option Z) :=
  active ← IsActive_;
  s ← gets id;
  if negb active then mret (p, shared)
  else if (target_spatial s =? -1) || (target_temporal_ s =? -1) then mret (p, shared)
  else
    pt ← lift (RtpPacket.GetPayloadType p);
    supported ← lift (supports (consumer s) pt);
    if negb supported then mret (p, shared)
    else if syncRequired s && negb (Tools.IsKeyFrame d) then mret (p, shared)
    else
      seq ← lift (RtpPacket.GetSequenceNumber p);
      _ ← when (syncRequired s) (synchronize seq);
      origMarker ← lift (RtpPacket.HasMarker p);
      '(ok, p, marker) ← process p d seq;
      if negb ok then mret (p, shared) else send p d seq origMarker marker shared junk nowMs.

(** ** RTCP: the code is that of the other consumers with a single stream *)

Definition CreateRtpStream_ (b : Base) (nowMs random : Z) : res RtpStreamSend.State := CreateRtpStream b true nowMs random.
Definition GetRtcp_ (packet : CompoundPacket.t) (addr nowMs : Z) : M State (bool * CompoundPacket.t) := GetRtcp packet addr nowMs.
Definition NeedWorstRemoteFractionLost_ (worst : Z) : M State Z := NeedWorstRemoteFractionLost worst.
Definition ReceiveNack_ (isKeyFrame : RtpPacket.t -> bool) (nackPacket : FeedbackPacket.t FeedbackRtpNackItem) (nowMs : Z)
    : M State unit := ReceiveNack isKeyFrame nackPacket nowMs.
Definition ReceiveKeyFrameRequest_ (messageType ssrc : Z) : M State unit :=
  ReceiveKeyFrameRequest RequestKeyFrame_ messageType ssrc.
Definition ReceiveRtcpReceiverReport_ (pow4 : spec_float -> spec_float) (report : list Z) (nowMs : Z) : M State unit :=
  ReceiveRtcpReceiverReport (OnRtpStreamScore nowMs) pow4 report nowMs.
Definition ReceiveRtcpXrReceiverReferenceTime_ (report : ReceiverReferenceTime.t) (nowMs : Z) : M State unit :=
  ReceiveRtcpXrReceiverReferenceTime report nowMs.
Definition GetTransmissionRate_ (nowMs : Z) : M State Z := GetTransmissionRate nowMs.
Definition GetRtt_ : M State spec_float := GetRtt.
Definition EmitScore_ : M State unit := EmitScore.

End SvcConsumer.
