(* ===== verification/SvcSpec.v ===== *)
(** * SVC consumers: the layers over all histories

    The target layers that the codecs assert not to be negative never are, as long as the
    requested temporal layers fit in 15 bits and the counters of the producer's stream have the
    shape of its layers; and an increase of the layers takes a layer above the provisional ones
    and no more than the bitrate it was given. *)

From Stdlib Require Import SpecFloat.
From stdpp Require Import gmap.
From S2P Require Import Prelude Utils Float SeqManager RateCalculator RtcpPacket RtcpFeedback RtcpXr Rtcp RtpPacket Codecs CodecsSpec.
From S2P Require Import Payload RtpParameters RtpStream RtpStreamRecv RtpStreamSend Consumer ConsumerSpec StreamReads SvcConsumer.

Module SvcSpec.

Import Consumer Sender SvcConsumer.

(** ** The invariant *)

Definition svc_context (c : Payload.Context) : Prop :=
  match c with Payload.CVP9 _ | Payload.CH264_SVC _ => True | _ => False end.

(** The layers are some of the producer's stream. *)
Definition has_layers (s : State) (str : Streams) (sp tp : Z) : Prop :=
  exists a r, producerRtpStream s = Some a /\ str !! a = Some r /\ 0 <= sp < spatial_layers r /\ 0 <= tp < temporal_layers r.

Record Inv (s : State) (str : Streams) : Prop := {
  inv_stream : forall a, producerRtpStream s = Some a -> is_Some (str !! a);
  inv_encodings : consumableRtpEncodings (consumer s) <> [];
  inv_target : (target_spatial s = -1 /\ target_temporal_ s = -1) \/ (0 <= target_spatial s /\ 0 <= target_temporal_ s);
  inv_provisional :
    (provisionalTargetSpatialLayer (layers s) = -1 /\ provisionalTargetTemporalLayer (layers s) = -1) \/
    has_layers s str (provisionalTargetSpatialLayer (layers s)) (provisionalTargetTemporalLayer (layers s));
  inv_preferred : 0 <= preferredTemporalLayer (layers s);
  inv_temporal : 1 <= GetTemporalLayers (sender s);
  inv_context : svc_context (encodingContext s);
  inv_scores : producerRtpStreamScores (consumer s) = true;
  inv_legible : legible str;
}.

(** The producer's streams may change, but for their numbers of layers. *)
Definition stays (str str' : Streams) : Prop :=
  legible str' /\
  forall a r, str !! a = Some r ->
    exists r', str' !! a = Some r' /\ spatial_layers r' = spatial_layers r /\ temporal_layers r' = temporal_layers r.

Lemma same_bases_stays str str' : same_bases str str' -> legible str' -> stays str str'.
Proof.
  intros H Hl. split; [done|]. intros a r Ha. destruct (same_bases_lookup _ _ _ _ H Ha) as (r' & Ha' & E). exists r'.
  unfold spatial_layers, temporal_layers. by rewrite E.
Qed.

Lemma has_layers_stays s str str' sp tp : stays str str' -> has_layers s str sp tp -> has_layers s str' sp tp.
Proof.
  intros [_ He] (a & r & Ha & Hr & Hs & Ht). destruct (He a r Hr) as (r' & Hr' & E1 & E2). exists a, r'. by rewrite E1, E2.
Qed.

Lemma Inv_stays s str str' : stays str str' -> Inv s str -> Inv s str'.
Proof.
  intros He []. split; try done.
  - intros a Ha. destruct (inv_stream0 a Ha) as [r Hr]. destruct He as [_ He]. destruct (He a r Hr) as (r' & -> & _). by eexists.
  - destruct inv_provisional0; [by left|right]. by eapply has_layers_stays.
  - by destruct He.
Qed.

(** The invariant looks at these members only. *)
Definition same_key (s s' : State) : Prop :=
  producerRtpStream s' = producerRtpStream s /\ layers s' = layers s /\
  consumableRtpEncodings (consumer s') = consumableRtpEncodings (consumer s) /\
  (producerRtpStreamScores (consumer s) = true -> producerRtpStreamScores (consumer s') = true) /\
  target_spatial s' = target_spatial s /\ target_temporal_ s' = target_temporal_ s /\
  GetTemporalLayers (sender s') = GetTemporalLayers (sender s) /\ (svc_context (encodingContext s) -> svc_context (encodingContext s')).

Lemma svc_Inv_key s s' str : same_key s s' -> Inv s str -> Inv s' str.
Proof.
  intros (Hp & Hl & Hc & Hsc & Ht1 & Ht2 & Ht & Hctx) [].
  split; rewrite ?Hl, ?Hp, ?Hc, ?Ht1, ?Ht2, ?Ht; auto. unfold has_layers. by rewrite Hp.
Qed.

Ltac key := repeat split; intros; cbn; auto.

Abbreviation keeps := (keeps Inv).
Abbreviation held := (holds Inv calm).

Lemma svc_keeps_modify_key E f : (forall s, same_key s (f s)) -> holds Inv E (modify f).
Proof. intros H. apply keeps_modify. intros s str. by apply svc_Inv_key. Qed.

(** ** Reading the stream *)

Lemma svc_stream_of_Ok s str : Inv s str ->
  exists o, stream_of s str = Ok o /\
    match producerRtpStream s, o with Some a, Some r => str !! a = Some r | None, None => True | _, _ => False end.
Proof.
  intros []. unfold stream_of. destruct (producerRtpStream s) as [a|]; [|by exists None]. destruct (inv_stream0 a eq_refl) as [r Hr].
  rewrite Hr. by exists (Some r).
Qed.

Lemma svc_is_active_Ok s str : Inv s str -> exists b, is_active s str = Ok b /\
  (b = true -> exists a r, producerRtpStream s = Some a /\ str !! a = Some r).
Proof.
  intros Hs. unfold is_active. destruct (base_active _); [|by exists false]. destruct (svc_stream_of_Ok _ _ Hs) as (o & -> & Ho).
  cbn [mbind res_bind mret res_ret]. destruct (producerRtpStream s) as [a|], o as [r|]; try done; [|by exists false].
  exists (alive r). split; [done|]. intros _. by exists a, r.
Qed.

Lemma held_IsActive E : holds Inv E IsActive_.
Proof. intros w Hw. unfold IsActive_. apply wp_reader. by destruct (svc_is_active_Ok _ _ Hw) as (b & -> & _). Qed.

Lemma held_RequestKeyFrame E : holds Inv E RequestKeyFrame_.
Proof.
  intros w Hw. unfold RequestKeyFrame_. apply wp_bind, wp_gets, wp_when; intros _; [|done]. apply wp_bind, wp_lift.
  pose proof (inv_encodings _ _ Hw). destruct (consumableRtpEncodings _) as [|e l]; [done|]. by apply wp_emit.
Qed.

Lemma held_EmitLayersChange E : holds Inv E EmitLayersChange.
Proof. unfold EmitLayersChange. apply keeps_bind; [apply keeps_gets|]. intros s. apply keeps_emit. Qed.

Lemma held_EmitScore E : holds Inv E EmitScore.
Proof.
  intros w Hw. unfold EmitScore. apply wp_bind, wp_gets, wp_bind, wp_lift.
  replace (producerRtpStreamScores (base (self w))) with true by (symmetry; exact (inv_scores _ _ Hw)). cbn [ms_assert].
  apply wp_bind, wp_gets, wp_bind, wp_reader. destruct (svc_stream_of_Ok _ _ Hw) as (o & -> & _). by apply wp_bind, wp_scores, wp_emit.
Qed.

#[export] Hint Resolve held_IsActive held_RequestKeyFrame held_EmitLayersChange held_EmitScore : keeps.

(** ** The target layers *)

Lemma on_context_context f c : Payload.context (Payload.on_context f c) = f (Payload.context c).
Proof. by destruct c. Qed.

Lemma held_modify_context E f :
  (forall c, EncodingContext.targetSpatialLayer (f c) = -1 /\ EncodingContext.targetTemporalLayer (f c) = -1 \/
     0 <= EncodingContext.targetSpatialLayer (f c) /\ 0 <= EncodingContext.targetTemporalLayer (f c)) ->
  holds Inv E (modify_context f).
Proof.
  intros Hf. apply keeps_modify. intros s str []. split; try done.
  - unfold target_spatial, target_temporal_, context. cbn. rewrite on_context_context. apply Hf.
  - cbn. by destruct (encodingContext s).
Qed.

Lemma held_UpdateTargetLayers E sp tp : sp = -1 \/ (0 <= sp /\ 0 <= tp) -> holds Inv E (UpdateTargetLayers sp tp).
Proof.
  intros Ht. unfold UpdateTargetLayers. destruct (Z.eqb_spec sp (-1)).
  - apply keeps_bind; [|intros; apply held_EmitLayersChange]. apply held_modify_context. intros c. by left.
  - apply keeps_bind; [apply held_modify_context; intros c; right; cbn; lia|]. intros _. apply keeps_bind; [apply keeps_gets|]. intros s.
    apply keeps_when. intros _. apply held_RequestKeyFrame.
Qed.

(** Reading a bitrate of the producer's stream. *)
Lemma svc_framed_Inv (w w' : World State) : framed w w' -> Inv (self w) (streams w) -> Inv (self w') (streams w').
Proof. intros (-> & H & Hl). by apply Inv_stays, same_bases_stays. Qed.

Lemma framed_lookup (w w' : World State) a r : framed w w' -> streams w !! a = Some r ->
  exists r', streams w' !! a = Some r' /\ spatial_layers r' = spatial_layers r /\ temporal_layers r' = temporal_layers r.
Proof. intros (_ & H & Hl) Ha. destruct (same_bases_stays _ _ H Hl) as [_ Hs]. by apply Hs. Qed.

Lemma wp_recalculate_loop n a r t : forall i best w, Inv (self w) (streams w) -> streams w !! a = Some r ->
  0 <= i -> i + Z.of_nat n <= spatial_layers r -> best = -1 \/ 0 <= best < spatial_layers r ->
  wp (recalculate_loop n a t i best) (fun sp w' => framed w w' /\ (sp = -1 \/ 0 <= sp < spatial_layers r)) calm w.
Proof.
  revert r. induction n as [|n IH]; intros r i best w Hw Ha Hi Hn Hb; cbn [recalculate_loop].
  { apply wp_ret. split; [apply framed_refl, Hw|done]. }
  apply wp_bind, wp_gets. cbn [id]. destruct (_ && _ && _); [apply IH; [done..|lia|lia|done]|].
  apply wp_bind. eapply wp_mono; [apply (wp_counting a r); [apply Hw|done|]; intros c Hc; apply GetSpatialLayerBitrate_shape; [done|lia]|].
  intros v w1 [_ Hf]. pose proof (svc_framed_Inv _ _ Hf Hw) as Hw1. destruct (framed_lookup _ _ _ _ Hf Ha) as (r1 & Ha1 & E1 & _).
  assert (Hnext : forall b, b = -1 \/ 0 <= b < spatial_layers r ->
    wp (recalculate_loop n a t (i + 1) b) (fun sp w' => framed w w' /\ (sp = -1 \/ 0 <= sp < spatial_layers r)) calm w1).
  { intros b Hb'. rewrite <- E1 in *. eapply wp_mono; [apply (IH r1); [done..|lia|lia|done]|]. intros sp w2 [Hf2 Hsp]. split; [by eapply framed_trans|done]. }
  destruct (v =? 0); [by apply Hnext|]. destruct (_ <=? _); [apply wp_ret; split; [done|right; lia]|]. apply Hnext. right. lia.
Qed.

Lemma target_temporal_nonneg s str sp : Inv s str ->
  0 <= sp -> 0 <= target_temporal sp (preferredSpatialLayer (layers s)) (preferredTemporalLayer (layers s)) (GetTemporalLayers (sender s)).
Proof.
  intros [] Hsp. unfold target_temporal. destruct (Z.eqb_spec sp (-1)); [lia|]. repeat case_match; lia.
Qed.

(** The layers that [RecalculateTargetLayers] proposes. *)
Lemma wp_RecalculateTargetLayers t w : Inv (self w) (streams w) ->
  wp (RecalculateTargetLayers t) (fun r w' => framed w w' /\ (r.1.2 = -1 \/ (0 <= r.1.2 /\ 0 <= r.2))) calm w.
Proof.
  intros Hw. unfold RecalculateTargetLayers. apply wp_bind, wp_gets, wp_bind, wp_reader. cbn [id].
  destruct (svc_stream_of_Ok _ _ Hw) as (o & -> & Ho). set (P sp (w' : World State) := framed w w' /\ (sp = -1 \/ 0 <= sp)).
  apply wp_bind. eapply (wp_mono _ P).
  - assert (Hnone : P (-1) w) by (split; [apply framed_refl, Hw|by left]).
    destruct (producerRtpStream (self w)) as [a|], o as [r|]; try (by apply wp_ret). destruct (score r =? 0); [by apply wp_ret|].
    destruct (inv_legible _ _ Hw a r Ho) as (_ & H1 & _). eapply wp_mono; [apply (wp_recalculate_loop _ a r); [done..|lia|by left]|].
    intros sp w' [Hf Hsp]. split; [done|]. destruct Hsp; [by left|right; lia].
  - intros sp w' [Hf Hsp]. apply wp_ret. split; [done|]. cbn. destruct Hsp as [|Hsp]; [by left|right]. split; [done|].
    by eapply target_temporal_nonneg.
Qed.

Lemma held_MayChangeLayers force t : held (MayChangeLayers force t).
Proof.
  intros w Hw. unfold MayChangeLayers. apply wp_bind. eapply wp_mono; [by apply wp_RecalculateTargetLayers|]. intros [[changed sp] tp] w1 [Hf Hsp].
  pose proof (svc_framed_Inv _ _ Hf Hw) as Hw1. apply wp_bind, wp_gets, wp_when; intros _; [|done].
  destruct (externallyManagedBitrate _); [apply keeps_wp; [|done]; apply keeps_when; intros _; apply keeps_emit|].
  apply keeps_wp; [|done]. by apply held_UpdateTargetLayers.
Qed.

#[export] Hint Resolve held_MayChangeLayers : keeps.

(** ** The virtual methods, the requests and the events *)

Lemma held_require_sync E : holds Inv E require_sync.
Proof. apply svc_keeps_modify_key. key. Qed.

#[export] Hint Resolve held_require_sync : keeps.

Lemma held_stop E : holds Inv E stop.
Proof. unfold stop. apply keeps_bind; [apply svc_keeps_modify_key; key|]. intros _. apply held_UpdateTargetLayers. by left. Qed.

Lemma held_connected t : held (UserOnTransportConnected_ t).
Proof. unfold UserOnTransportConnected_. keep. Qed.
Lemma held_paused t : held (UserOnPaused_ t).
Proof. unfold UserOnPaused_. apply keeps_bind; [apply held_stop|]. keep. Qed.
Lemma held_resumed t : held (UserOnResumed_ t).
Proof. unfold UserOnResumed_. keep. Qed.

Lemma svc_consumer_flags s str f : Inv s str -> Inv (set_consumer s (set_flags (consumer s) f)) str.
Proof. apply svc_Inv_key. key. Qed.

Lemma svc_consumer_settings s str scores external p t : Inv s str ->
  (scores = producerRtpStreamScores (consumer s) \/ scores = true) ->
  (external = externallyManagedBitrate (consumer s) \/ external = true) ->
  Inv (set_consumer s (set_settings (consumer s) scores external p t)) str.
Proof. intros Hs Hsc _. eapply svc_Inv_key; [|exact Hs]. key. destruct Hsc; congruence. Qed.

Lemma svc_sender_stream s str v : Inv s str ->
  RtpStream.params (RtpStreamSend.base v) = RtpStream.params (RtpStreamSend.base (sender s)) -> Inv (set_sender s v) str.
Proof. intros Hs Hv. eapply svc_Inv_key; [|exact Hs]. key. unfold GetTemporalLayers. cbn. by rewrite Hv. Qed.

Lemma svc_consumer_rtcp s str t : Inv s str -> Inv (set_consumer s (set_rtcp (consumer s) t)) str.
Proof. apply svc_Inv_key. key. Qed.

Lemma held_HandleRequest r t : small_layers r -> held (HandleRequest r t).
Proof.
  intros Hr. destruct r as [| |p|types| |spatial temporal|]; cbn [HandleRequest].
  1-4, 7: apply keeps_HandleRequest; eauto using svc_consumer_flags, svc_consumer_settings, held_connected, held_paused, held_resumed, held_stop with keeps.
  - keep.
  - intros w Hw. apply wp_bind, wp_gets. cbn [id]. destruct (preferred_layers _ _ _ _) as [[sp tp]|] eqn:Ep; [|by apply wp_ret].
    pose proof (preferred_layers_temporal _ _ _ _ _ (inv_temporal _ _ Hw) Ep Hr) as Htp.
    apply wp_bind, wp_modify, keeps_wp; [keep|]. destruct Hw. by split.
Qed.

Lemma held_ProducerRtpStream E a w : Inv (self w) (streams w) -> is_Some (streams w !! a) ->
  (forall b, producerRtpStream (self w) = Some b -> b = a) ->
  wp (ProducerRtpStream a) (fun _ w' => Inv (self w') (streams w')) E w.
Proof.
  intros Hw Ha Hb. apply wp_modify. destruct Hw. split; try done; cbn.
  - by intros b [= <-].
  - destruct inv_provisional0 as [|(b & r & Eb & Hr)]; [by left|right]. rewrite (Hb b Eb) in Hr. by exists a, r.
Qed.

(** ** The bitrate *)

Definition above (l : Layers) (sp tp : Z) : Prop :=
  provisionalTargetSpatialLayer l < sp \/ (provisionalTargetSpatialLayer l = sp /\ provisionalTargetTemporalLayer l < tp).

Lemma wp_svc_required_bitrate a r sp tp t w : Inv (self w) (streams w) -> producerRtpStream (self w) = Some a -> streams w !! a = Some r ->
  sp < spatial_layers r -> tp < temporal_layers r ->
  wp (required_bitrate a sp tp t) (fun v w' => 0 <= v /\ framed w w') calm w.
Proof.
  intros Hw Hp Ha Hsp Htp. unfold required_bitrate. apply wp_bind.
  eapply wp_mono; [apply (wp_counting a r); [apply Hw|done|]; intros c Hc; by apply GetLayerBitrate_shape|].
  intros v w1 [[Hv _] Hf]. apply wp_bind, wp_gets. cbn [id]. destruct (_ && _ && _ && _ && _) eqn:E; [|by apply wp_ret].
  pose proof (svc_framed_Inv _ _ Hf Hw) as Hw1. assert (Hp1 : producerRtpStream (self w1) = Some a) by (destruct Hf as [-> _]; done).
  destruct (inv_provisional _ _ Hw1) as [[E1 _]|(b & q & Hb & Hq & Hsp' & Htp')]; [lia|]. replace b with a in * by congruence.
  apply wp_bind. eapply wp_mono; [apply (wp_counting a q); [apply Hw1|done|]; intros c Hc; by apply GetBitrateUpTo_shape|].
  intros v' w2 [_ Hf']. apply wp_ret. split; [destruct (Z.ltb_spec v' v); lia|]. exact (framed_trans _ _ _ Hf Hf').
Qed.

Lemma wp_svc_temporal_loop n a r sp t : forall tp w, Inv (self w) (streams w) -> producerRtpStream (self w) = Some a -> streams w !! a = Some r ->
  sp < spatial_layers r -> tp + Z.of_nat n <= temporal_layers r -> provisionalTargetSpatialLayer (layers (self w)) <= sp ->
  wp (temporal_loop n a sp tp t)
    (fun o w' => framed w w' /\
      match o with Some (tp', v) => tp <= tp' < tp + Z.of_nat n /\ 0 < v /\ above (layers (self w)) sp tp' | None => True end) calm w.
Proof.
  induction n as [|n IH]; intros tp w Hw Hp Ha Hs Hn Hsp; cbn [temporal_loop].
  { apply wp_ret. split; [apply framed_refl, Hw|done]. }
  apply wp_bind, wp_gets. destruct ((sp =? _) && (tp <=? _)) eqn:E.
  - eapply wp_mono; [apply IH; [done..|lia|done]|]. intros [[tp' v]|] w' [Hf Hr]; [|done]. split; [done|]. destruct Hr as (? & ? & ?). split_and!; [lia..|done].
  - apply wp_bind. eapply wp_mono; [apply (wp_svc_required_bitrate a r); [done..|lia]|]. intros v w' [Hv Hf]. apply wp_ret. split; [done|].
    destruct (Z.eqb_spec v 0); [done|]. cbn [negb]. split_and!; [lia..|]. unfold above.
    apply andb_false_iff in E as [E%Z.eqb_neq|E%Z.leb_gt]; [left; lia|].
    destruct (Z.eq_dec (provisionalTargetSpatialLayer (layers (self w))) sp); [right; lia|left; lia].
Qed.

Definition found_layers (w : World State) (o : option (Z * Z * Z)) : Prop :=
  match o with
  | None => True
  | Some (sp, tp, v) => 0 < v /\ above (layers (self w)) sp tp /\ has_layers (self w) (streams w) sp tp
  end.

Lemma wp_svc_spatial_loop n a r t : forall i w, Inv (self w) (streams w) -> producerRtpStream (self w) = Some a -> streams w !! a = Some r ->
  0 <= i -> i + Z.of_nat n <= spatial_layers r ->
  wp (spatial_loop n a (temporal_layers r) i t) (fun o w' => framed w w' /\ found_layers w' o) calm w.
Proof.
  revert r. induction n as [|n IH]; intros r i w Hw Hp Ha Hi Hn; cbn [spatial_loop].
  { apply wp_ret. split; [apply framed_refl, Hw|done]. }
  apply wp_bind, wp_gets. cbn [id]. destruct (_ && _ && _); [apply wp_ret; split; [apply framed_refl, Hw|done]|].
  destruct (Z.ltb_spec i (provisionalTargetSpatialLayer (layers (self w)))) as [|Hprov]; [by apply IH; [..|lia|lia]|].
  destruct (inv_legible _ _ Hw a r Ha) as (_ & _ & Hfit & _).
  apply wp_bind. eapply wp_mono; [apply (wp_svc_temporal_loop _ a r); [done..|lia|lia|done]|]. intros [[tp v]|] w1 [Hf Hfound].
  - apply wp_ret. split; [done|]. destruct Hfound as (Htp & Hv & Hab). destruct (framed_lookup _ _ _ _ Hf Ha) as (r1 & Ha1 & E1 & E2).
    destruct Hf as [Es _]. unfold found_layers. rewrite Es. split_and!; [done..|]. exists a, r1. rewrite E1, E2. split_and!; try done; lia.
  - destruct (_ <=? _); [by apply wp_ret|]. destruct (framed_lookup _ _ _ _ Hf Ha) as (r1 & Ha1 & E1 & E2). rewrite <- E1, <- E2 in *.
    eapply wp_mono; [apply (IH r1); [by eapply svc_framed_Inv|by destruct Hf as [-> _]|done|lia|lia]|].
    intros o w2 [Hf2 Ho]. split; [by eapply framed_trans|done].
Qed.

(** What an increase of the layers does. *)
Definition increased (w : World State) (bitrate v : Z) (w' : World State) : Prop :=
  let l := layers (self w) in let l' := layers (self w') in
  Inv (self w') (streams w') /\ 0 <= v <= bitrate /\ consumer (self w') = consumer (self w) /\
  producerRtpStream (self w') = producerRtpStream (self w) /\ same_bases (streams w) (streams w') /\
  (l' = l \/ above l (provisionalTargetSpatialLayer l') (provisionalTargetTemporalLayer l') /\
     has_layers (self w') (streams w') (provisionalTargetSpatialLayer l') (provisionalTargetTemporalLayer l')) /\
  (v <> 0 -> l' <> l).

Lemma svc_increased_none w w' bitrate : framed w w' -> Inv (self w) (streams w) -> 0 <= bitrate -> increased w bitrate 0 w'.
Proof.
  intros Hf Hw Hb. pose proof (svc_framed_Inv _ _ Hf Hw) as Hw'. destruct Hf as (Es & Hs & Hl). unfold increased. rewrite Es in *.
  split_and!; try done; by left.
Qed.

Lemma wp_svc_IncreaseLayer bitrate loss t w : Inv (self w) (streams w) -> 0 <= bitrate ->
  externallyManagedBitrate (consumer (self w)) = true -> is_active (self w) (streams w) = Ok true ->
  wp (IncreaseLayer bitrate loss t) (increased w bitrate) calm w.
Proof.
  intros Hw Hb Hext Hact. unfold IncreaseLayer. apply wp_bind, wp_gets, wp_bind, wp_lift. cbn [id]. rewrite Hext. cbn [ms_assert].
  apply wp_bind. unfold IsActive_. apply wp_reader. rewrite Hact. apply wp_bind, wp_lift. cbn [ms_assert].
  destruct (svc_is_active_Ok _ _ Hw) as (b & Hb' & Hstream). rewrite Hact in Hb'. injection Hb' as <-. destruct (Hstream eq_refl) as (a & r & Hp & Ha).
  apply wp_bind, wp_lift. rewrite Hp. cbn [deref]. apply wp_bind, wp_reader. rewrite Ha. cbn [deref].
  assert (Hnone : increased w bitrate 0 w) by (apply svc_increased_none; [apply framed_refl, Hw|done..]).
  destruct (score r =? 0); [by apply wp_ret|]. destruct (_ && _); [by apply wp_ret|]. apply wp_bind, wp_lift.
  pose proof (virtual_bitrate_calm (sender (self w)) bitrate loss) as Hv. destruct (virtual_bitrate _ _ _) as [virtual|]; [|done].
  destruct (inv_legible _ _ Hw a r Ha) as (_ & H1 & _).
  apply wp_bind. eapply wp_mono; [apply (wp_svc_spatial_loop _ a r); [done..|lia]|]. intros [[[sp tp] v]|] w1 [Hf Hfound]; [|by apply wp_ret, svc_increased_none].
  destruct (Z.ltb_spec virtual v); [by apply wp_ret, svc_increased_none|].
  pose proof (svc_framed_Inv _ _ Hf Hw) as Hw1. destruct Hf as (Es & Hs & Hl1). apply wp_bind, wp_modify, wp_ret. destruct Hfound as (Hne & Hab & Hh).
  assert (Hl' : with_provisional (layers (self w1)) sp tp <> layers (self w)).
  { intros E. unfold above in Hab. rewrite Es in E, Hab. rewrite <- E in Hab. cbn in Hab. lia. }
  unfold increased. cbn. split_and!; try done; try (by rewrite Es).
  - destruct Hw1. split; cbn; try done. by right.
  - unfold taken. repeat case_match; lia.
  - unfold taken. repeat case_match; lia.
  - right. by rewrite <- Es.
Qed.

(** A change of the target layers keeps the rest. *)
Lemma svc_frame_UpdateTargetLayers sp tp w :
  wp (UpdateTargetLayers sp tp) (fun _ w' => streams w' = streams w /\ consumer (self w') = consumer (self w) /\ layers (self w') = layers (self w))
    (fun _ => True) w.
Proof.
  unfold UpdateTargetLayers. destruct (sp =? -1); apply wp_bind, wp_modify, wp_bind, wp_gets; [by apply wp_emit|].
  apply wp_when; intros _; [|done]. unfold RequestKeyFrame_. apply wp_bind, wp_gets, wp_when; intros _; [|done]. apply wp_bind, wp_lift.
  destruct (TransmissionCounter.layer_at _ _); [|done]. by apply wp_emit.
Qed.

Lemma wp_svc_ApplyLayers w t : Inv (self w) (streams w) -> externallyManagedBitrate (consumer (self w)) = true ->
  is_active (self w) (streams w) = Ok true ->
  wp (ApplyLayers t) (fun _ w' => Inv (self w') (streams w') /\ streams w' = streams w /\ consumer (self w') = consumer (self w) /\
    provisionalTargetSpatialLayer (layers (self w')) = -1 /\ provisionalTargetTemporalLayer (layers (self w')) = -1) (fun _ => False) w.
Proof.
  intros Hw Hext Hact. unfold ApplyLayers. apply wp_bind, wp_gets, wp_bind, wp_lift. cbn [id]. rewrite Hext. cbn [ms_assert].
  apply wp_bind. unfold IsActive_. apply wp_reader. rewrite Hact. apply wp_bind, wp_lift. cbn [ms_assert].
  apply wp_bind, wp_modify. set (w1 := set_self w _).
  assert (Hw1 : Inv (self w1) (streams w1)) by (destruct Hw; split; cbn; try done; by left).
  apply wp_when; intros _; [|by split].
  assert (Ht : holds Inv (fun _ => False) (UpdateTargetLayers (provisionalTargetSpatialLayer (layers (self w))) (provisionalTargetTemporalLayer (layers (self w))))).
  { apply held_UpdateTargetLayers. destruct (inv_provisional _ _ Hw) as [[-> _]|(a & r & _ & _ & ? & ?)]; [by left|right; lia]. }
  apply wp_bind. eapply wp_mono; [exact (wp_both _ _ _ _ _ _ (Ht w1 Hw1) (svc_frame_UpdateTargetLayers _ _ _))|]. intros _ w2 (Hw2 & E1 & E2 & E3).
  apply wp_bind, wp_gets, wp_when; intros _; [apply wp_modify; split; [eapply svc_Inv_key; [|exact Hw2]; key|]|]; cbn; by rewrite E2, E3.
Qed.

End SvcSpec.
