(* ===== verification/SimpleConsumer.v ===== *)
(** * Simple consumers

    Models [worker/src/RTC/SimpleConsumer.cpp] and its header: the producer has a single
    stream, audio or video, and the consumer forwards it as it is, from a key frame on if the
    codec has them; comfort noise of Opus may be left out. *)

From Stdlib Require Import SpecFloat.
From stdpp Require Import gmap.
From S2P Require Import Prelude Utils Float SeqManager RateCalculator RtcpPacket RtcpReports RtcpFeedback RtcpXr Rtcp RtpPacket.
From S2P Require Import Codecs Payload RtpParameters RtpStream RtpStreamRecv RtpStreamSend Consumer.

Module SimpleConsumer.

Import Consumer Sender.

Record State := {
  consumer : Base;
  sender : RtpStreamSend.State;
  producerRtpStream : option Z;
  keyFrameSupported : bool;
  syncRequired : bool;
  rtpSeqManager : Manager.SeqManager;
  managingBitrate : bool;
  encodingContext : option Payload.Context;
}.

Definition set_consumer (s : State) (v : Base) : State :=
  {| consumer := v; sender := sender s; producerRtpStream := producerRtpStream s; keyFrameSupported := keyFrameSupported s;
     syncRequired := syncRequired s; rtpSeqManager := rtpSeqManager s; managingBitrate := managingBitrate s;
     encodingContext := encodingContext s |}.
Definition set_sender (s : State) (v : RtpStreamSend.State) : State :=
  {| consumer := consumer s; sender := v; producerRtpStream := producerRtpStream s; keyFrameSupported := keyFrameSupported s;
     syncRequired := syncRequired s; rtpSeqManager := rtpSeqManager s; managingBitrate := managingBitrate s;
     encodingContext := encodingContext s |}.
Definition set_stream (s : State) (v : option Z) : State :=
  {| consumer := consumer s; sender := sender s; producerRtpStream := v; keyFrameSupported := keyFrameSupported s;
     syncRequired := syncRequired s; rtpSeqManager := rtpSeqManager s; managingBitrate := managingBitrate s;
     encodingContext := encodingContext s |}.
Definition set_sync (s : State) (b : bool) (m : Manager.SeqManager) : State :=
  {| consumer := consumer s; sender := sender s; producerRtpStream := producerRtpStream s; keyFrameSupported := keyFrameSupported s;
     syncRequired := b; rtpSeqManager := m; managingBitrate := managingBitrate s; encodingContext := encodingContext s |}.
Definition set_managing (s : State) (b : bool) : State :=
  {| consumer := consumer s; sender := sender s; producerRtpStream := producerRtpStream s; keyFrameSupported := keyFrameSupported s;
     syncRequired := syncRequired s; rtpSeqManager := rtpSeqManager s; managingBitrate := b; encodingContext := encodingContext s |}.
Definition set_context (s : State) (v : option Payload.Context) : State :=
  {| consumer := consumer s; sender := sender s; producerRtpStream := producerRtpStream s; keyFrameSupported := keyFrameSupported s;
     syncRequired := syncRequired s; rtpSeqManager := rtpSeqManager s; managingBitrate := managingBitrate s; encodingContext := v |}.

Abbreviation Streams := (gmap Z RtpStreamRecv.State).

(** The stream of the producer, if any. *)
Definition stream_of (s : State) (str : Streams) : res (option RtpStreamRecv.State) :=
  match producerRtpStream s with None => mret None | Some a => r ← deref (str !! a); mret (Some r) end.

Definition is_active (s : State) (str : Streams) : res bool :=
  if base_active (consumer s) then
    o ← stream_of s str;
    mret (match o with Some r => alive r | None => false end)
  else mret false.
Definition IsActive_ : M State bool := reader is_active.

Definition is_video (s : State) : bool := bool_decide (kind (consumer s) = VIDEO).

Definition RequestKeyFrame_ : M State unit :=
  s ← gets id;
  when (is_video s)
    (e ← lift (TransmissionCounter.layer_at (consumableRtpEncodings (consumer s)) 0);
     emit (OnConsumerKeyFrameRequested (RtpParameters.ssrc e))).

(** ** The virtual methods *)

Definition require_sync : M State unit := modify (fun s => set_sync s true (rtpSeqManager s)).

Definition UserOnTransportConnected_ (_ : Z) : M State unit :=
  _ ← require_sync;
  active ← IsActive_;
  when active RequestKeyFrame_.

Definition UserOnTransportDisconnected_ (_ : Z) : M State unit :=
  modify (fun s => set_sender s (RtpStreamSend.Pause (sender s))).

Definition UserOnPaused_ (_ : Z) : M State unit :=
  _ ← modify (fun s => set_sender s (RtpStreamSend.Pause (sender s)));
  s ← gets id;
  when (externallyManagedBitrate (consumer s) && is_video s) (emit OnConsumerNeedZeroBitrate).

Definition UserOnResumed_ (_ : Z) : M State unit :=
  _ ← require_sync;
  active ← IsActive_;
  when active RequestKeyFrame_.

#[global] Instance simple_virtual : Virtual State := {
  base := consumer;
  set_base := set_consumer;
  IsActive := IsActive_;
  UserOnTransportConnected := UserOnTransportConnected_;
  UserOnTransportDisconnected := UserOnTransportDisconnected_;
  UserOnPaused := UserOnPaused_;
  UserOnResumed := UserOnResumed_;
}.

Definition producer_score : M State Z :=
  reader (fun s str => o ← stream_of s str; mret (match o with Some r => score r | None => 0 end)).

#[global] Instance simple_sender : SingleStream State := {
  sender_virtual := simple_virtual;
  rtpStream := sender;
  set_rtpStream := set_sender;
  producerScore := producer_score;
}.

(** ** The constructor *)

(** The context for Opus. *)
Definition opus_context (d : Data) (c : RtpParameters.Codec) : option Payload.Context :=
  match RtpParameters.mimeType c, RtpParameters.tools_subtype (RtpParameters.subtype c) with
  | Tools.AUDIO, (Tools.OPUS | Tools.MULTIOPUS) as sub =>
      option_map (Payload.on_context (fun x => EncodingContext.SetIgnoreDtx x (data_ignoreDtx d)))
        (Payload.GetEncodingContext Tools.AUDIO sub 1 1 false)
  | _, _ => None
  end.

Definition make (d : Data) (nowMs random : Z) : res (throws State) :=
  o ← Consumer.make Tools.SIMPLE d;
  match o with
  | None => mret None
  | Some b =>
      if negb (zlen (consumableRtpEncodings b) =? 1) then mret None
      else
        e ← encoding b;
        c ← RtpParameters.GetCodecForEncoding (rtpParameters b) e;
        s ← CreateRtpStream b false nowMs random;
        mret (Some
          {| consumer := b; sender := s; producerRtpStream := None;
             keyFrameSupported := Tools.CanBeKeyFrame (RtpParameters.mimeType c) (RtpParameters.tools_subtype (RtpParameters.subtype c));
             syncRequired := false; rtpSeqManager := Manager.init; managingBitrate := false;
             encodingContext := opus_context d c |})
  end.

(** ** Requests and events of the producer *)

Definition HandleRequest (r : Request) (nowMs : Z) : M State Answer :=
  match r with
  | RequestKeyFrame =>
      active ← IsActive_;
      _ ← when active RequestKeyFrame_;
      mret Accepted
  | SetPreferredLayers _ _ => mret Accepted
  | _ => Consumer.HandleRequest r nowMs
  end.

Definition ProducerRtpStream (a : Z) : M State unit := modify (fun s => set_stream s (Some a)).

Definition ProducerNewRtpStream (a : Z) : M State unit :=
  _ ← ProducerRtpStream a;
  EmitScore.

Definition ProducerRtpStreamScore : M State unit := EmitScore.
Definition ProducerRtcpSenderReport (first : bool) : M State unit := mret tt.
Definition OnRtpStreamScore : M State unit := EmitScore.

(** ** The bitrate *)

Definition GetBitratePriority : M State Z :=
  s ← gets id;
  _ ← lift (ms_assert (externallyManagedBitrate (consumer s)));
  if negb (is_video s) then mret 0
  else
    active ← IsActive_;
    mret (if (active : bool) then priority (consumer s) else 0).

Definition IncreaseLayer (bitrate : Z) (considerLoss : bool) (nowMs : Z) : M State Z :=
  s ← gets id;
  _ ← lift (ms_assert (externallyManagedBitrate (consumer s)));
  _ ← lift (ms_assert (is_video s));
  active ← IsActive_;
  _ ← lift (ms_assert active);
  if managingBitrate s then mret 0
  else
    _ ← modify (fun s => set_managing s true);
    a ← lift (deref (producerRtpStream s));
    desired ← on_stream a (GetBitrate nowMs);
    mret (if desired <? bitrate then desired else bitrate).

Definition ApplyLayers (nowMs : Z) : M State unit :=
  s ← gets id;
  _ ← lift (ms_assert (externallyManagedBitrate (consumer s)));
  _ ← lift (ms_assert (is_video s));
  active ← IsActive_;
  _ ← lift (ms_assert active);
  modify (fun s => set_managing s false).

Definition GetDesiredBitrate (nowMs : Z) : M State Z :=
  s ← gets id;
  _ ← lift (ms_assert (externallyManagedBitrate (consumer s)));
  if negb (is_video s) then mret 0
  else
    active ← IsActive_;
    if negb active then mret 0
    else
      a ← lift (deref (producerRtpStream s));
      v ← on_stream a (GetBitrate nowMs);
      e ← lift (encoding (consumer s));
      mret (if v <? RtpParameters.maxBitrate e then RtpParameters.maxBitrate e else v).

(** ** Sending *)

(** The payload is processed for Opus: whether to send the packet, and the packet. *)
Definition process (p : RtpPacket.t) (d : option Tools.Descriptor) (seq : Z) : M State (bool * RtpPacket.t) :=
  c ← gets encodingContext;
  match c with
  | None => mret (true, p)
  | Some c =>
      '(ok, c, p, _) ← lift (Payload.ProcessPayload p d c false);
      _ ← modify (fun s => set_context s (Some c));
      _ ← when (negb ok) (modify (fun s => set_sync s (syncRequired s) (Manager.Drop 16 (rtpSeqManager s) seq)));
      mret (ok, p)
  end.

Definition send (p : RtpPacket.t) (d : option Tools.Descriptor) (seq : Z) (shared : option Z) (junk : list Z) (nowMs : Z)
    : M State (RtpPacket.t * option Z) :=
  _ ← modify (fun s => if syncRequired s then set_sync s false (Manager.Sync 16 (rtpSeqManager s) (u16 (seq - 1))) else s);
  s ← gets id;
  let '(o, m) := Manager.Input 16 (rtpSeqManager s) seq in
  _ ← modify (fun s => set_sync s (syncRequired s) m);
  out ← lift (initialized o);
  deliver p out mret mret (Tools.IsKeyFrame d) shared junk nowMs (fun _ => mret tt).

Definition SendRtpPacket (p : RtpPacket.t) (d : option Tools.Descriptor) (shared : option Z) (junk : list Z) (nowMs : Z)
    : M State (RtpPacket.t * option Z) :=
  active ← IsActive_;
  s ← gets id;
  if negb active then mret (p, shared)
  else
    pt ← lift (RtpPacket.GetPayloadType p);
    supported ← lift (supports (consumer s) pt);
    if negb supported then mret (p, shared)
    else
      seq ← lift (RtpPacket.GetSequenceNumber p);
      '(ok, p) ← process p d seq;
      if negb ok then mret (p, shared)
      else if syncRequired s && keyFrameSupported s && negb (Tools.IsKeyFrame d) then mret (p, shared)
      else send p d seq shared junk nowMs.

(** ** RTCP: the code is that of the other consumers with a single stream *)

Definition CreateRtpStream_ (b : Base) (nowMs random : Z) : res RtpStreamSend.State := CreateRtpStream b false nowMs random.
Definition GetRtcp_ (packet : CompoundPacket.t) (addr nowMs : Z) : M State (bool * CompoundPacket.t) := GetRtcp packet addr nowMs.
Definition NeedWorstRemoteFractionLost_ (worst : Z) : M State Z := NeedWorstRemoteFractionLost worst.
Definition ReceiveNack_ (isKeyFrame : RtpPacket.t -> bool) (nackPacket : FeedbackPacket.t FeedbackRtpNackItem) (nowMs : Z)
    : M State unit := ReceiveNack isKeyFrame nackPacket nowMs.
Definition ReceiveKeyFrameRequest_ (messageType ssrc : Z) : M State unit :=
  ReceiveKeyFrameRequest RequestKeyFrame_ messageType ssrc.
Definition ReceiveRtcpReceiverReport_ (pow4 : spec_float -> spec_float) (report : list Z) (nowMs : Z) : M State unit :=
  ReceiveRtcpReceiverReport OnRtpStreamScore pow4 report nowMs.
Definition ReceiveRtcpXrReceiverReferenceTime_ (report : ReceiverReferenceTime.t) (nowMs : Z) : M State unit :=
  ReceiveRtcpXrReceiverReferenceTime report nowMs.
Definition GetTransmissionRate_ (nowMs : Z) : M State Z := GetTransmissionRate nowMs.
Definition GetRtt_ : M State spec_float := GetRtt.
Definition EmitScore_ : M State unit := EmitScore.

End SimpleConsumer.
