(* ===== verification/PipeConsumer.v ===== *)
(** * Pipe consumers

    Models [worker/src/RTC/PipeConsumer.cpp] and its header: the consumer of a pipe transport
    forwards every stream of the producer.  The maps keyed by the pointer of a stream are keyed
    by the position of the stream in [rtpStreams]. *)

From Stdlib Require Import SpecFloat.
From stdpp Require Import gmap.
From S2P Require Import Prelude Utils Float SeqManager RateCalculator RtcpPacket RtcpReports RtcpSdes RtcpFeedback RtcpXr Rtcp.
From S2P Require Import RtpPacket Codecs RtpParameters RtpStream RtpStreamRecv RtpStreamSend Consumer.

Module PipeConsumer.

Import Consumer.

Record State := {
  consumer : Base;
  rtpStreams : list RtpStreamSend.State;
  mapMappedSsrcSsrc : gmap Z Z;
  mapSsrcRtpStream : gmap Z nat;
  keyFrameSupported : bool;
  mapRtpStreamSyncRequired : gmap nat bool;
  mapRtpStreamRtpSeqManager : gmap nat Manager.SeqManager;
}.

Definition set_consumer (s : State) (v : Base) : State :=
  {| consumer := v; rtpStreams := rtpStreams s; mapMappedSsrcSsrc := mapMappedSsrcSsrc s; mapSsrcRtpStream := mapSsrcRtpStream s;
     keyFrameSupported := keyFrameSupported s; mapRtpStreamSyncRequired := mapRtpStreamSyncRequired s;
     mapRtpStreamRtpSeqManager := mapRtpStreamRtpSeqManager s |}.
Definition set_streams (s : State) (v : list RtpStreamSend.State) : State :=
  {| consumer := consumer s; rtpStreams := v; mapMappedSsrcSsrc := mapMappedSsrcSsrc s; mapSsrcRtpStream := mapSsrcRtpStream s;
     keyFrameSupported := keyFrameSupported s; mapRtpStreamSyncRequired := mapRtpStreamSyncRequired s;
     mapRtpStreamRtpSeqManager := mapRtpStreamRtpSeqManager s |}.
Definition set_sync (s : State) (b : gmap nat bool) (m : gmap nat Manager.SeqManager) : State :=
  {| consumer := consumer s; rtpStreams := rtpStreams s; mapMappedSsrcSsrc := mapMappedSsrcSsrc s;
     mapSsrcRtpStream := mapSsrcRtpStream s; keyFrameSupported := keyFrameSupported s; mapRtpStreamSyncRequired := b;
     mapRtpStreamRtpSeqManager := m |}.

(** [map.at(key)], which throws [std::out_of_range]. *)
Definition at_key {K V} `{Countable K} (m : gmap K V) (k : K) : res V :=
  match m !! k with Some v => Ok v | None => Fault OutOfBounds end.

Definition IsActive_ : M State bool := gets (fun s => base_active (consumer s)).

Fixpoint request_all (l : list RtpParameters.Encoding) : M State unit :=
  match l with
  | [] => mret tt
  | e :: l' => _ ← emit (OnConsumerKeyFrameRequested (RtpParameters.ssrc e)); request_all l'
  end.

Definition RequestKeyFrame_ : M State unit :=
  b ← gets consumer;
  when (bool_decide (kind b = VIDEO)) (request_all (consumableRtpEncodings b)).

(** ** The virtual methods *)

Definition on_all (f : RtpStreamSend.State -> RtpStreamSend.State) : M State unit :=
  modify (fun s => set_streams s (f <$> rtpStreams s)).

(** [UserOnTransportConnected] and [UserOnResumed] *)
Definition resume (_ : Z) : M State unit :=
  _ ← modify (fun s => set_sync s ((fun _ => true) <$> mapRtpStreamSyncRequired s) (mapRtpStreamRtpSeqManager s));
  active ← IsActive_;
  when active
    (_ ← on_all RtpStreamSend.Resume;
     RequestKeyFrame_).

(** [UserOnTransportDisconnected] and [UserOnPaused] *)
Definition pause (_ : Z) : M State unit := on_all RtpStreamSend.Pause.

#[global] Instance pipe_virtual : Virtual State := {
  base := consumer;
  set_base := set_consumer;
  IsActive := IsActive_;
  UserOnTransportConnected := resume;
  UserOnTransportDisconnected := pause;
  UserOnPaused := pause;
  UserOnResumed := resume;
}.

(** ** The constructor *)

Definition add_stream (s : State) (consumableEncoding e : RtpParameters.Encoding) (stream : RtpStreamSend.State) : State :=
  let n := length (rtpStreams s) in
  {| consumer := consumer s; rtpStreams := rtpStreams s ++ [stream];
     mapMappedSsrcSsrc := <[RtpParameters.ssrc consumableEncoding := RtpParameters.ssrc e]> (mapMappedSsrcSsrc s);
     mapSsrcRtpStream := <[RtpParameters.ssrc e := n]> (mapSsrcRtpStream s); keyFrameSupported := keyFrameSupported s;
     mapRtpStreamSyncRequired := <[n := false]> (mapRtpStreamSyncRequired s);
     mapRtpStreamRtpSeqManager := <[n := Manager.init]> (mapRtpStreamRtpSeqManager s) |}.

(** The loop of [CreateRtpStreams]; [randoms] are the first RTX sequence numbers. *)
Fixpoint CreateRtpStreams (l consumables : list RtpParameters.Encoding) (nowMs : Z) (randoms : list Z) (s : State) : res State :=
  match l with
  | [] => mret s
  | e :: l' =>
      match consumables with
      | [] => Fault OutOfBounds
      | c :: consumables' =>
          stream ← Sender.create_stream (consumer s) e (zlen (rtpStreams s)) true nowMs (hd 0 randoms);
          CreateRtpStreams l' consumables' nowMs (tl randoms) (add_stream s c e stream)
      end
  end.

Definition make (d : Data) (nowMs : Z) (randoms : list Z) : res (throws State) :=
  o ← Consumer.make Tools.PIPE d;
  match o with
  | None => mret None
  | Some b =>
      let l := RtpParameters.encodings (rtpParameters b) in
      if negb (zlen l =? zlen (consumableRtpEncodings b)) then mret None
      else
        e ← encoding b;
        c ← RtpParameters.GetCodecForEncoding (rtpParameters b) e;
        s ← CreateRtpStreams l (consumableRtpEncodings b) nowMs randoms
              {| consumer := b; rtpStreams := []; mapMappedSsrcSsrc := ∅; mapSsrcRtpStream := ∅;
                 keyFrameSupported := Tools.CanBeKeyFrame (RtpParameters.mimeType c) (RtpParameters.tools_subtype (RtpParameters.subtype c));
                 mapRtpStreamSyncRequired := ∅; mapRtpStreamRtpSeqManager := ∅ |};
        mret (Some s)
  end.

(** ** Requests, events of the producer and bitrate *)

Definition HandleRequest (r : Request) (nowMs : Z) : M State Answer :=
  match r with
  | RequestKeyFrame =>
      active ← IsActive_;
      _ ← when active RequestKeyFrame_;
      mret Accepted
  | SetPreferredLayers _ _ => mret Accepted
  | _ => Consumer.HandleRequest r nowMs
  end.

Definition ProducerRtpStream (a mappedSsrc : Z) : M State unit := mret tt.
Definition ProducerNewRtpStream (a mappedSsrc : Z) : M State unit := mret tt.
Definition ProducerRtpStreamScore (score previousScore : Z) : M State unit := mret tt.
Definition ProducerRtcpSenderReport (first : bool) : M State unit := mret tt.
Definition GetBitratePriority : M State Z := mret 0.
Definition IncreaseLayer (bitrate : Z) (considerLoss : bool) (nowMs : Z) : M State Z := mret 0.
Definition ApplyLayers (nowMs : Z) : M State unit := mret tt.
Definition GetDesiredBitrate (nowMs : Z) : M State Z := mret 0.

(** ** Sending *)

(** A call on a stream. *)
Definition on_stream_at {A} (n : nat) (f : RtpStreamSend.State -> res (A * RtpStreamSend.State)) : M State A :=
  l ← gets rtpStreams;
  s ← lift (deref (l !! n));
  '(a, s) ← lift (f s);
  _ ← modify (fun x => set_streams x (<[n := s]> (rtpStreams x)));
  mret a.

(** The sequence number that a packet of a stream gets. *)
Definition renumber (n : nat) (seq : Z) (sync : bool) (m : Manager.SeqManager) : M State Z :=
  let m := if sync then Manager.Sync 16 m (u16 (seq - 1)) else m in
  let '(o, m) := Manager.Input 16 m seq in
  _ ← modify (fun s => set_sync s (<[n := false]> (mapRtpStreamSyncRequired s)) (<[n := m]> (mapRtpStreamRtpSeqManager s)));
  lift (Sender.initialized o).

Definition deliver (p : RtpPacket.t) (n : nat) (ssrc seq : Z) (isKeyFrame : bool) (shared : option Z) (junk : list Z) (nowMs : Z)
    : M State (RtpPacket.t * option Z) :=
  origSsrc ← lift (RtpPacket.GetSsrc p);
  origSeq ← lift (RtpPacket.GetSequenceNumber p);
  q ← lift (Sender.set_header p ssrc seq);
  l ← gets rtpStreams;
  s ← lift (deref (l !! n));
  '(ok, s, shared) ← on_heap (fun h =>
     '(ok, s, h, shared) ← RtpStreamSend.ReceivePacket s h q shared junk nowMs; mret ((ok, s, shared), h));
  _ ← modify (fun x => set_streams x (<[n := s]> (rtpStreams x)));
  _ ← when ok
        (_ ← emit (OnConsumerSendRtpPacket q);
         EmitTraceEventRtpAndKeyFrameTypes isKeyFrame false);
  q ← lift (Sender.set_header q origSsrc origSeq);
  mret (q, shared).

Definition SendRtpPacket (p : RtpPacket.t) (d : option Tools.Descriptor) (shared : option Z) (junk : list Z) (nowMs : Z)
    : M State (RtpPacket.t * option Z) :=
  active ← IsActive_;
  s ← gets id;
  if negb active then mret (p, shared)
  else
    pt ← lift (RtpPacket.GetPayloadType p);
    supported ← lift (supports (consumer s) pt);
    if negb supported then mret (p, shared)
    else
      mapped ← lift (RtpPacket.GetSsrc p);
      ssrc ← lift (at_key (mapMappedSsrcSsrc s) mapped);
      n ← lift (at_key (mapSsrcRtpStream s) ssrc);
      sync ← lift (at_key (mapRtpStreamSyncRequired s) n);
      m ← lift (at_key (mapRtpStreamRtpSeqManager s) n);
      if sync && keyFrameSupported s && negb (Tools.IsKeyFrame d) then mret (p, shared)
      else
        seq ← lift (RtpPacket.GetSequenceNumber p);
        out ← renumber n seq sync m;
        deliver p n ssrc out (Tools.IsKeyFrame d) shared junk nowMs.

(** ** RTCP *)

(** The report, the chunk and the delay of every stream that has a report, from the stream at
    [n] on; they are new objects. *)
Fixpoint reports (l : list RtpStreamSend.State) (addr : Z) (n : nat) (nowMs : Z)
    : res (list (CompoundPacket.ptr (list Z)) * list (CompoundPacket.ptr SdesChunk.t) * list (CompoundPacket.ptr DelaySinceLastRr.t) * list RtpStreamSend.State) :=
  match l with
  | [] => mret ([], [], [], [])
  | s :: l' =>
      '(report, s) ← RtpStreamSend.GetRtcpSenderReport s nowMs;
      match report with
      | None =>
          '(srs, chunks, xrs, l') ← reports l' addr (S n) nowMs;
          mret (srs, chunks, xrs, s :: l')
      | Some report =>
          let a := addr + Z.of_nat n in
          let chunk := RtpStreamSend.GetRtcpSdesChunk s in
          dlrr ← RtpStreamSend.GetRtcpXrDelaySinceLastRr s nowMs;
          '(srs, chunks, xrs, l') ← reports l' addr (S n) nowMs;
          let xr := match dlrr with Some info => [(a, {| DelaySinceLastRr.ssrcInfos := [info] |})] | None => [] end in
          mret ((a, report) :: srs, (a, chunk) :: chunks, xr ++ xrs, s :: l')
      end
  end.

Definition GetRtcp (packet : CompoundPacket.t) (addr nowMs : Z) : M State (bool * CompoundPacket.t) :=
  b ← gets consumer;
  if negb (nowMs =? lastRtcpSentTime b) && negb (Sender.report_due b nowMs) then mret (true, packet)
  else
    l ← gets rtpStreams;
    '(srs, chunks, xrs, l) ← lift (reports l addr 0 nowMs);
    _ ← modify (fun s => set_streams s l);
    '(ok, packet) ← lift (CompoundPacket.Add_pipe packet srs chunks xrs);
    if negb ok then mret (false, packet)
    else
      _ ← modify (fun s => set_consumer s (set_rtcp (consumer s) nowMs));
      mret (true, packet).

Definition worst_of (worst : Z) (s : RtpStreamSend.State) : Z :=
  if worst <? Sender.GetFractionLost s then Sender.GetFractionLost s else worst.

Definition NeedWorstRemoteFractionLost (worst : Z) : M State Z :=
  active ← IsActive_;
  l ← gets rtpStreams;
  mret (if negb active then worst else fold_left worst_of l worst).

(** [OnRtpStreamRetransmitRtpPacket] *)
Fixpoint retransmitted (isKeyFrame : RtpPacket.t -> bool) (hasRtx : bool) (l : list RtpStream.event) : M State unit :=
  match l with
  | [] => mret tt
  | RtpStream.Retransmit packet :: l' =>
      _ ← emit (OnConsumerRetransmitRtpPacket packet);
      _ ← EmitTraceEventRtpAndKeyFrameTypes (isKeyFrame packet) hasRtx;
      retransmitted isKeyFrame hasRtx l'
  | _ :: l' => retransmitted isKeyFrame hasRtx l'
  end.

Definition ReceiveNack (isKeyFrame : RtpPacket.t -> bool) (nackPacket : FeedbackPacket.t FeedbackRtpNackItem) (nowMs : Z)
    : M State unit :=
  active ← IsActive_;
  when active
    (_ ← EmitTraceEventNackType;
     x ← gets id;
     n ← lift (at_key (mapSsrcRtpStream x) (FeedbackPacket.mediaSsrc nackPacket));
     s ← lift (deref (rtpStreams x !! n));
     '(s, e) ← on_heap (fun h => '(s, h, e) ← RtpStreamSend.ReceiveNack s h nackPacket nowMs; mret ((s, e), h));
     _ ← modify (fun x => set_streams x (<[n := s]> (rtpStreams x)));
     retransmitted isKeyFrame (RtpStream.HasRtx (RtpStreamSend.base s)) e).

Definition ReceiveKeyFrameRequest (messageType ssrc : Z) : M State unit :=
  _ ← (if messageType =? 1 then EmitTraceEventPliType ssrc
       else when (messageType =? 4) (EmitTraceEventFirType ssrc));
  m ← gets mapSsrcRtpStream;
  n ← lift (at_key m ssrc);
  _ ← on_stream_at n (fun s => mret (tt, RtpStreamSend.ReceiveKeyFrameRequest s messageType));
  active ← IsActive_;
  when active RequestKeyFrame_.

(** [OnRtpStreamScore] does nothing. *)
Definition ReceiveRtcpReceiverReport (pow4 : spec_float -> spec_float) (report : list Z) (nowMs : Z) : M State unit :=
  ssrc ← lift (ReceiverReport.GetSsrc report);
  m ← gets mapSsrcRtpStream;
  n ← lift (at_key m ssrc);
  on_stream_at n (fun s => '(s, _) ← RtpStreamSend.ReceiveRtcpReceiverReport pow4 s report nowMs; mret (tt, s)).

Fixpoint map_res {A B} (f : A -> res B) (l : list A) : res (list B) :=
  match l with [] => mret [] | a :: l' => b ← f a; bs ← map_res f l'; mret (b :: bs) end.

Definition ReceiveRtcpXrReceiverReferenceTime (report : ReceiverReferenceTime.t) (nowMs : Z) : M State unit :=
  l ← gets rtpStreams;
  l ← lift (map_res (fun s => RtpStreamSend.ReceiveRtcpXrReceiverReferenceTime s report nowMs) l);
  modify (fun s => set_streams s l).

Fixpoint add_bitrates (l : list RtpStreamSend.State) (nowMs rate : Z) : res (Z * list RtpStreamSend.State) :=
  match l with
  | [] => mret (rate, [])
  | s :: l' =>
      '(v, s) ← RtpStreamSend.GetBitrate s nowMs;
      '(rate, l') ← add_bitrates l' nowMs (u32 (rate + v));
      mret (rate, s :: l')
  end.

Definition GetTransmissionRate (nowMs : Z) : M State Z :=
  active ← IsActive_;
  if negb active then mret 0
  else
    l ← gets rtpStreams;
    '(rate, l) ← lift (add_bitrates l nowMs 0);
    _ ← modify (fun s => set_streams s l);
    mret rate.

Definition higher_rtt (rtt : spec_float) (s : RtpStreamSend.State) : spec_float :=
  if SFltb rtt (Sender.GetRtt_stream s) then Sender.GetRtt_stream s else rtt.

Definition GetRtt : M State spec_float := gets (fun s => fold_left higher_rtt (rtpStreams s) (S754_zero false)).

End PipeConsumer.
