(* ===== verification/AnyConsumer.v ===== *)
(** * Consumers of any kind

    A transport, a router and a producer hold consumers by the base class and call their
    virtual methods.  A consumer of any kind is a sum; a call runs the method of its kind
    in its own state and in the rest of the world ([embed]). *)

From Stdlib Require Import SpecFloat.
From stdpp Require Import gmap.
From S2P Require Import Prelude Utils Float SeqManager RateCalculator RtcpPacket RtcpReports RtcpFeedback RtcpXr Rtcp RtpPacket.
From S2P Require Import Codecs Payload RtpParameters RtpStream RtpStreamRecv RtpStreamSend Consumer.
From S2P Require Import SimpleConsumer SimulcastConsumer SvcConsumer PipeConsumer.

(** A computation of a consumer of one kind, run in a world of another state. *)
Definition embed {S T A} (put : S -> T) (s : S) (m : M S A) : M T A := fun w =>
  '(a, w') ← m (mkWorld s (streams w) (producerScores w) (heap w) (events w));
  Ok (a, mkWorld (put (self w')) (streams w') (producerScores w') (heap w') (events w')).

Lemma wp_embed {S T A} (put : S -> T) (s : S) (m : M S A) (Q : A -> World T -> Prop) E w :
  wp m (fun a w' => Q a (mkWorld (put (self w')) (streams w') (producerScores w') (heap w') (events w'))) E
    (mkWorld s (streams w) (producerScores w) (heap w) (events w)) ->
  wp (embed put s m) Q E w.
Proof. unfold wp, embed, mbind, res_bind. by destruct (m _) as [[a w']|]. Qed.

Module AnyConsumer.

Import Consumer.

Inductive t :=
| Simple (s : SimpleConsumer.State)
| Simulcast (s : SimulcastConsumer.State)
| Svc (s : SvcConsumer.State)
| Pipe (s : PipeConsumer.State).

(** The method of the kind of the consumer. *)
Definition dispatch {A} (simple : M SimpleConsumer.State A) (simulcast : M SimulcastConsumer.State A)
    (svc : M SvcConsumer.State A) (pipe : M PipeConsumer.State A) : M t A := fun w =>
  match self w with
  | Simple s => embed Simple s simple w
  | Simulcast s => embed Simulcast s simulcast w
  | Svc s => embed Svc s svc w
  | Pipe s => embed Pipe s pipe w
  end.

Definition get_base (c : t) : Base :=
  match c with
  | Simple s => SimpleConsumer.consumer s
  | Simulcast s => SimulcastConsumer.consumer s
  | Svc s => SvcConsumer.consumer s
  | Pipe s => PipeConsumer.consumer s
  end.

Definition put_base (c : t) (b : Base) : t :=
  match c with
  | Simple s => Simple (SimpleConsumer.set_consumer s b)
  | Simulcast s => Simulcast (SimulcastConsumer.set_consumer s b)
  | Svc s => Svc (SvcConsumer.set_consumer s b)
  | Pipe s => Pipe (PipeConsumer.set_consumer s b)
  end.

#[global] Instance any_virtual : Virtual t := {
  base := get_base;
  set_base := put_base;
  IsActive := dispatch IsActive IsActive IsActive IsActive;
  UserOnTransportConnected n := dispatch (UserOnTransportConnected n) (UserOnTransportConnected n) (UserOnTransportConnected n) (UserOnTransportConnected n);
  UserOnTransportDisconnected n :=
    dispatch (UserOnTransportDisconnected n) (UserOnTransportDisconnected n) (UserOnTransportDisconnected n) (UserOnTransportDisconnected n);
  UserOnPaused n := dispatch (UserOnPaused n) (UserOnPaused n) (UserOnPaused n) (UserOnPaused n);
  UserOnResumed n := dispatch (UserOnResumed n) (UserOnResumed n) (UserOnResumed n) (UserOnResumed n);
}.

(** [GetRtpStreams()] *)
Definition GetRtpStreams (c : t) : list RtpStreamSend.State :=
  match c with
  | Simple s => [SimpleConsumer.sender s]
  | Simulcast s => [SimulcastConsumer.sender s]
  | Svc s => [SvcConsumer.sender s]
  | Pipe s => PipeConsumer.rtpStreams s
  end.

Definition HandleRequest (r : Request) (n : Z) : M t Answer :=
  dispatch (SimpleConsumer.HandleRequest r n) (SimulcastConsumer.HandleRequest r n) (SvcConsumer.HandleRequest r n)
    (PipeConsumer.HandleRequest r n).

(** *** What the router passes on from the producer *)

Definition ProducerRtpStream (a mappedSsrc : Z) : M t unit :=
  dispatch (SimpleConsumer.ProducerRtpStream a) (SimulcastConsumer.ProducerRtpStream a mappedSsrc) (SvcConsumer.ProducerRtpStream a)
    (PipeConsumer.ProducerRtpStream a mappedSsrc).
Definition ProducerNewRtpStream (a mappedSsrc n : Z) : M t unit :=
  dispatch (SimpleConsumer.ProducerNewRtpStream a) (SimulcastConsumer.ProducerNewRtpStream a mappedSsrc n)
    (SvcConsumer.ProducerNewRtpStream a n) (PipeConsumer.ProducerNewRtpStream a mappedSsrc).
Definition ProducerRtpStreamScore (score previousScore n : Z) : M t unit :=
  dispatch SimpleConsumer.ProducerRtpStreamScore (SimulcastConsumer.ProducerRtpStreamScore score previousScore n)
    (SvcConsumer.ProducerRtpStreamScore score previousScore n) (PipeConsumer.ProducerRtpStreamScore score previousScore).
Definition ProducerRtcpSenderReport (first : bool) (n : Z) : M t unit :=
  dispatch (SimpleConsumer.ProducerRtcpSenderReport first) (SimulcastConsumer.ProducerRtcpSenderReport first n)
    (SvcConsumer.ProducerRtcpSenderReport first) (PipeConsumer.ProducerRtcpSenderReport first).
Definition SendRtpPacket (p : RtpPacket.t) (d : option Tools.Descriptor) (shared : option Z) (junk : list Z) (n : Z)
    : M t (RtpPacket.t * option Z) :=
  dispatch (SimpleConsumer.SendRtpPacket p d shared junk n) (SimulcastConsumer.SendRtpPacket p d shared junk n)
    (SvcConsumer.SendRtpPacket p d shared junk n) (PipeConsumer.SendRtpPacket p d shared junk n).
Definition NeedWorstRemoteFractionLost (worst : Z) : M t Z :=
  dispatch (SimpleConsumer.NeedWorstRemoteFractionLost_ worst) (Sender.NeedWorstRemoteFractionLost worst)
    (SvcConsumer.NeedWorstRemoteFractionLost_ worst) (PipeConsumer.NeedWorstRemoteFractionLost worst).

(** *** What the transport calls *)

Definition GetBitratePriority : M t Z :=
  dispatch SimpleConsumer.GetBitratePriority SimulcastConsumer.GetBitratePriority SvcConsumer.GetBitratePriority
    PipeConsumer.GetBitratePriority.
Definition IncreaseLayer (bitrate : Z) (considerLoss : bool) (n : Z) : M t Z :=
  dispatch (SimpleConsumer.IncreaseLayer bitrate considerLoss n) (SimulcastConsumer.IncreaseLayer bitrate considerLoss n)
    (SvcConsumer.IncreaseLayer bitrate considerLoss n) (PipeConsumer.IncreaseLayer bitrate considerLoss n).
Definition ApplyLayers (n : Z) : M t unit :=
  dispatch (SimpleConsumer.ApplyLayers n) (SimulcastConsumer.ApplyLayers n) (SvcConsumer.ApplyLayers n) (PipeConsumer.ApplyLayers n).
Definition GetDesiredBitrate (n : Z) : M t Z :=
  dispatch (SimpleConsumer.GetDesiredBitrate n) (SimulcastConsumer.GetDesiredBitrate n) (SvcConsumer.GetDesiredBitrate n)
    (PipeConsumer.GetDesiredBitrate n).
#[global] Instance any_allocator : Allocator t := {
  bitrate_priority := GetBitratePriority;
  increase_layer := IncreaseLayer;
  apply_layers := ApplyLayers;
  desired_bitrate := GetDesiredBitrate;
}.

Definition GetRtcp (packet : CompoundPacket.t) (addr n : Z) : M t (bool * CompoundPacket.t) :=
  dispatch (SimpleConsumer.GetRtcp_ packet addr n) (Sender.GetRtcp packet addr n) (SvcConsumer.GetRtcp_ packet addr n)
    (PipeConsumer.GetRtcp packet addr n).
Definition ReceiveNack (isKeyFrame : RtpPacket.t -> bool) (nackPacket : FeedbackPacket.t FeedbackRtpNackItem) (n : Z) : M t unit :=
  dispatch (SimpleConsumer.ReceiveNack_ isKeyFrame nackPacket n) (Sender.ReceiveNack isKeyFrame nackPacket n)
    (SvcConsumer.ReceiveNack_ isKeyFrame nackPacket n) (PipeConsumer.ReceiveNack isKeyFrame nackPacket n).
Definition ReceiveKeyFrameRequest (messageType ssrc : Z) : M t unit :=
  dispatch (SimpleConsumer.ReceiveKeyFrameRequest_ messageType ssrc)
    (Sender.ReceiveKeyFrameRequest SimulcastConsumer.RequestKeyFrameForCurrentSpatialLayer messageType ssrc)
    (SvcConsumer.ReceiveKeyFrameRequest_ messageType ssrc) (PipeConsumer.ReceiveKeyFrameRequest messageType ssrc).
Definition ReceiveRtcpReceiverReport (pow4 : spec_float -> spec_float) (report : list Z) (n : Z) : M t unit :=
  dispatch (SimpleConsumer.ReceiveRtcpReceiverReport_ pow4 report n)
    (Sender.ReceiveRtcpReceiverReport (SimulcastConsumer.OnRtpStreamScore n) pow4 report n)
    (SvcConsumer.ReceiveRtcpReceiverReport_ pow4 report n) (PipeConsumer.ReceiveRtcpReceiverReport pow4 report n).
Definition ReceiveRtcpXrReceiverReferenceTime (report : ReceiverReferenceTime.t) (n : Z) : M t unit :=
  dispatch (SimpleConsumer.ReceiveRtcpXrReceiverReferenceTime_ report n) (Sender.ReceiveRtcpXrReceiverReferenceTime report n)
    (SvcConsumer.ReceiveRtcpXrReceiverReferenceTime_ report n) (PipeConsumer.ReceiveRtcpXrReceiverReferenceTime report n).
Definition GetTransmissionRate (n : Z) : M t Z :=
  dispatch (SimpleConsumer.GetTransmissionRate_ n) (Sender.GetTransmissionRate n) (SvcConsumer.GetTransmissionRate_ n)
    (PipeConsumer.GetTransmissionRate n).
Definition GetRtt : M t spec_float := dispatch SimpleConsumer.GetRtt_ Sender.GetRtt SvcConsumer.GetRtt_ PipeConsumer.GetRtt.

End AnyConsumer.
