(* ===== verification/Allocation.v ===== *)
(** * What consumers promise to the distribution of the bitrate

    [Transport::DistributeAvailableOutgoingBitrate] lets its consumers take bitrate layer by
    layer, as long as one of them takes any.  The interface [Allocating] states what it relies
    on, and every kind of consumer implements it. *)

From Stdlib Require Import SpecFloat.
From stdpp Require Import gmap.
From S2P Require Import Prelude Utils Float RateCalculator Codecs Payload RtpParameters RtpStream RtpStreamRecv RtpStreamSend.
From S2P Require Import Consumer ConsumerSpec StreamReads SimpleConsumer SimulcastConsumer SvcConsumer PipeConsumer AnyConsumer.
From S2P Require Import SimulcastSpec SimulcastHistory SvcSpec.

(** ** The interface *)

Abbreviation Streams := (gmap Z RtpStreamRecv.State).

Class Allocating (S : Type) `{!Consumer.Allocator S} := {
  (** The consumer is in a consistent state and the transport manages its bitrate. *)
  ready : S -> Streams -> Prop;
  (** It takes part in the distribution. *)
  wants : S -> Streams -> Prop;
  (** No distribution is under way. *)
  idle : S -> Prop;
  (** How many more times it can take bitrate. *)
  left : S -> Streams -> Z;

  left_nonneg s str : ready s str -> 0 <= left s str;
  ready_frame s str str' : same_bases str str' -> legible str' -> ready s str -> ready s str';
  wants_frame s str str' : same_bases str str' -> wants s str -> wants s str';
  left_frame s str str' : same_bases str str' -> ready s str -> left s str' = left s str;

  (** A priority above zero is that of a consumer that takes part. *)
  priority_law w : ready (self w) (streams w) ->
    wp Consumer.bitrate_priority (fun v w' => w' = w /\ (v <> 0 -> wants (self w) (streams w))) (fun _ => False) w;
  (** It takes no more than it is given, and can do so less often after it took some. *)
  increase_law b loss n w : legible (streams w) -> ready (self w) (streams w) -> wants (self w) (streams w) -> 0 <= b ->
    wp (Consumer.increase_layer b loss n)
      (fun v w' => same_bases (streams w) (streams w') /\ legible (streams w') /\ ready (self w') (streams w') /\
         wants (self w') (streams w') /\ 0 <= v <= b /\ left (self w') (streams w') + (if v =? 0 then 0 else 1) <= left (self w) (streams w))
      calm w;
  apply_law n w : legible (streams w) -> ready (self w) (streams w) -> wants (self w) (streams w) ->
    wp (Consumer.apply_layers n) (fun _ w' => streams w' = streams w /\ ready (self w') (streams w') /\ idle (self w')) (fun _ => False) w;
}.

(** ** Layers that are left

    Of [n] spatial layers with at most 255 temporal layers each, above the layers [sp], [tp]. *)
Definition layers_left (n sp tp : Z) : Z := (n - sp) * 257 - tp.

Lemma layers_left_above n sp tp sp' tp' : -1 <= tp < 256 -> 0 <= tp' < 256 -> sp < sp' \/ (sp = sp' /\ tp < tp') ->
  layers_left n sp' tp' + 1 <= layers_left n sp tp.
Proof. unfold layers_left. intros. nia. Qed.

(** ** Simple consumers *)

Module SimpleAllocation.

Import Consumer Sender SimpleConsumer.

Definition ready_ (s : State) (str : Streams) : Prop :=
  externallyManagedBitrate (consumer s) = true /\ (forall a, producerRtpStream s = Some a -> is_Some (str !! a)).
Definition wants_ (s : State) (str : Streams) : Prop := is_video s = true /\ is_active s str = Ok true.
Definition left_ (s : State) (str : Streams) : Z := if managingBitrate s then 0 else 1.

Lemma active_stream s str : is_active s str = Ok true -> exists a r, producerRtpStream s = Some a /\ str !! a = Some r.
Proof.
  unfold is_active, stream_of. destruct (base_active _); [|done]. destruct (producerRtpStream s) as [a|]; [|done].
  destruct (str !! a) as [r|] eqn:E; [|done]. by exists a, r.
Qed.

Lemma simple_active_frame s str str' : same_bases str str' -> is_active s str = Ok true -> is_active s str' = Ok true.
Proof.
  intros Hs. unfold is_active, stream_of. destruct (base_active _); [|done]. destruct (producerRtpStream s) as [a|]; [|done].
  destruct (str !! a) as [r|] eqn:E; [|done]. destruct (same_bases_lookup _ _ _ _ Hs E) as (r' & -> & Eb). cbn. unfold alive, score, has_dtx. by rewrite Eb.
Qed.

#[global] Instance simple_allocator : Consumer.Allocator State := {
  Consumer.bitrate_priority := GetBitratePriority;
  Consumer.increase_layer := IncreaseLayer;
  Consumer.apply_layers := ApplyLayers;
  Consumer.desired_bitrate := GetDesiredBitrate;
}.

#[global] Program Instance simple_allocating : Allocating State := {
  ready := ready_;
  wants := wants_;
  idle s := managingBitrate s = false;
  left := left_;
}.
Next Obligation. intros s str _. unfold left_. destruct (managingBitrate s); lia. Qed.
Next Obligation.
  intros s str str' Hs _ [He Hp]. split; [done|]. intros a Ha. destruct (Hp a Ha) as [r Hr].
  destruct (same_bases_lookup _ _ _ _ Hs Hr) as (r' & -> & _). by eexists.
Qed.
Next Obligation. intros s str str' Hs [Hv Ha]. split; [done|]. by eapply simple_active_frame. Qed.
Next Obligation. done. Qed.
Next Obligation.
  intros w [He Hp]. unfold GetBitratePriority. apply wp_bind, wp_gets, wp_bind, wp_lift. cbn [id]. rewrite He. cbn [ms_assert].
  destruct (is_video (self w)) eqn:Ev; cbn [negb]; [|by apply wp_ret]. apply wp_bind. unfold IsActive_. apply wp_reader.
  destruct (is_active (self w) (streams w)) as [b|e] eqn:Ea; [apply wp_ret; split; [done|]; by destruct b|].
  revert Ea. unfold is_active, stream_of. destruct (base_active _); [|done]. destruct (producerRtpStream (self w)) as [a|]; [|done].
  destruct (Hp a eq_refl) as [r ->]. done.
Qed.
Next Obligation.
  intros b loss n w Hl [He Hp] [Hv Ha] Hb. unfold IncreaseLayer. apply wp_bind, wp_gets, wp_bind, wp_lift. cbn [id]. rewrite He. cbn [ms_assert].
  apply wp_bind, wp_lift. rewrite Hv. cbn [ms_assert]. apply wp_bind. unfold IsActive_. apply wp_reader. rewrite Ha. apply wp_bind, wp_lift. cbn [ms_assert].
  destruct (managingBitrate (self w)) eqn:Em; [apply wp_ret; cbn; split_and!; try done; lia|].
  apply wp_bind, wp_modify, wp_bind, wp_lift. destruct (active_stream _ _ Ha) as (a & r & Hs & Hr). cbn. rewrite Hs. cbn [deref].
  apply wp_bind. eapply wp_mono; [apply (wp_counting a r); [done..|]; intros c Hc; by apply GetBitrate_shape|].
  intros v w1 ([Hv0 _] & Es & Hb1 & Hl1). cbn in Es, Hb1. apply wp_ret. rewrite Es. split; [done|]. split; [done|]. split; [split; [done|]|]; [|split; [split; [done|]|]; [|split]].
  - intros a' Ha'. cbn in Ha'. destruct (Hp a' Ha') as [r' Hr']. destruct (same_bases_lookup _ _ _ _ Hb1 Hr') as (r'' & -> & _). by eexists.
  - exact (simple_active_frame (set_managing (self w) true) _ _ Hb1 Ha).
  - destruct (Z.ltb_spec v b); lia.
  - unfold left, left_. cbn. rewrite Em. by destruct (_ =? 0).
Qed.
Next Obligation.
  intros n w _ [He Hp] [Hv Ha]. unfold ApplyLayers. apply wp_bind, wp_gets, wp_bind, wp_lift. cbn [id]. rewrite He. cbn [ms_assert].
  apply wp_bind, wp_lift. rewrite Hv. cbn [ms_assert]. apply wp_bind. unfold IsActive_. apply wp_reader. rewrite Ha. apply wp_bind, wp_lift. cbn [ms_assert].
  by apply wp_modify.
Qed.

End SimpleAllocation.

(** ** Simulcast consumers *)

Module SimulcastAllocation.

Import Consumer Sender SimulcastConsumer SimulcastSpec SimulcastHistory.

Definition ready_ (s : State) (str : Streams) : Prop :=
  Inv s str /\ externallyManagedBitrate (consumer s) = true /\ legible str.
Definition wants_ (s : State) (str : Streams) : Prop := is_active s str = Ok true.
Definition left_ (s : State) (str : Streams) : Z :=
  layers_left (zlen (producerRtpStreams s)) (provisionalTargetSpatialLayer (layers s)) (provisionalTargetTemporalLayer (layers s)).

(** The provisional temporal layer is an 8-bit number. *)
Lemma simulcast_provisional s str : ready_ s str ->
  -1 <= provisionalTargetTemporalLayer (layers s) < 256 /\ -1 <= provisionalTargetSpatialLayer (layers s) < zlen (producerRtpStreams s) + 1.
Proof.
  intros (Hi & _ & Hl). destruct (inv_provisional _ _ Hi) as [[-> ->]|(_ & (r & Hr & Ht) & _)]; [unfold zlen; lia|].
  apply at_layer_range in Hr as Hrange. destruct Hr as [_ (a & _ & Ha)]. destruct (Hl a r Ha) as (_ & _ & _ & H8). lia.
Qed.

Lemma any_alive_frame l str str' : same_bases str str' -> any_alive l str = Ok true -> any_alive l str' = Ok true.
Proof.
  intros Hs. induction l as [|[a|] l IH]; cbn [any_alive]; [done| |done]. destruct (str !! a) as [r|] eqn:E; [|done].
  destruct (same_bases_lookup _ _ _ _ Hs E) as (r' & -> & Eb). cbn [deref mbind res_bind].
  replace (alive r') with (alive r) by (unfold alive, score, has_dtx; by rewrite Eb). by destruct (alive r).
Qed.

Lemma simulcast_active_frame s str str' : same_bases str str' -> is_active s str = Ok true -> is_active s str' = Ok true.
Proof. intros Hs. unfold is_active. destruct (base_active _); [|done]. by apply any_alive_frame. Qed.

Lemma same_active s s' str : consumer s' = consumer s -> producerRtpStreams s' = producerRtpStreams s -> is_active s' str = is_active s str.
Proof. intros E1 E2. unfold is_active. by rewrite E1, E2. Qed.

(** What a change of the target layers keeps. *)
Definition kept (w w' : World State) : Prop :=
  streams w' = streams w /\ consumer (self w') = consumer (self w) /\
  provisionalTargetSpatialLayer (layers (self w')) = provisionalTargetSpatialLayer (layers (self w)) /\
  provisionalTargetTemporalLayer (layers (self w')) = provisionalTargetTemporalLayer (layers (self w)).

Lemma frame_request layer o w : wp (request_key_frame layer o) (fun _ w' => kept w w') (fun _ => True) w.
Proof.
  unfold request_key_frame. destruct o; [|by apply wp_ret]. apply wp_bind, wp_gets, wp_bind, wp_lift.
  destruct (TransmissionCounter.layer_at _ _); [by apply wp_emit|done].
Qed.

Lemma frame_UpdateTargetLayers sp tp w : wp (UpdateTargetLayers sp tp) (fun _ w' => kept w w') (fun _ => True) w.
Proof.
  unfold UpdateTargetLayers. apply wp_bind, wp_modify. destruct (sp =? -1) eqn:E; cbn [negb andb].
  - apply wp_bind, wp_modify, wp_bind, wp_modify. unfold EmitLayersChange. by apply wp_bind, wp_gets, wp_emit.
  - set (w1 := set_self w _). assert (H1 : kept w w1) by (unfold w1, kept; cbn; by destruct (tsReferenceSpatialLayer (layers (self w)) =? -1)).
    apply wp_bind, wp_modify. set (w2 := set_self w1 _). assert (H2 : kept w w2) by exact H1.
    apply wp_bind, wp_gets, wp_bind, wp_when; intros _.
    + apply wp_modify, wp_when; intros _; [|exact H2]. unfold RequestKeyFrameForTargetSpatialLayer, is_video.
      apply wp_bind, wp_gets, wp_when; intros _; [|exact H2]. apply wp_bind, wp_gets, wp_bind, wp_reader.
      destruct (GetProducerTargetRtpStream _ _); [|done]. eapply wp_mono; [apply frame_request|]. intros _ w3 (F1 & F2 & F3 & F4).
      destruct H2 as (G1 & G2 & G3 & G4). unfold kept. by rewrite F1, F2, F3, F4.
    + apply wp_when; intros _; [|exact H2]. unfold RequestKeyFrameForTargetSpatialLayer, is_video.
      apply wp_bind, wp_gets, wp_when; intros _; [|exact H2]. apply wp_bind, wp_gets, wp_bind, wp_reader.
      destruct (GetProducerTargetRtpStream _ _); [|done]. eapply wp_mono; [apply frame_request|]. intros _ w3 (F1 & F2 & F3 & F4).
      destruct H2 as (G1 & G2 & G3 & G4). unfold kept. by rewrite F1, F2, F3, F4.
Qed.

Lemma frame_ApplyLayers n w : wp (ApplyLayers n) (fun _ w' => streams w' = streams w /\ consumer (self w') = consumer (self w) /\
    provisionalTargetSpatialLayer (layers (self w')) = -1 /\ provisionalTargetTemporalLayer (layers (self w')) = -1) (fun _ => True) w.
Proof.
  unfold ApplyLayers. apply wp_bind, wp_gets, wp_bind, wp_lift. destruct (externallyManagedBitrate _); [|done]. cbn [ms_assert].
  apply wp_bind. unfold IsActive_. apply wp_reader. destruct (is_active _ _) as [b|]; [|done]. apply wp_bind, wp_lift. destruct b; [|done]. cbn [ms_assert].
  apply wp_bind, wp_modify, wp_when; intros _; [|done]. apply wp_bind. eapply wp_mono; [apply frame_UpdateTargetLayers|].
  intros _ w2 (F1 & F2 & F3 & F4). cbn in F1, F2, F3, F4. apply wp_bind, wp_gets, wp_when; intros _; [apply wp_modify|]; cbn; by rewrite F1, F2, F3, F4.
Qed.

#[global] Instance simulcast_allocator : Consumer.Allocator State := {
  Consumer.bitrate_priority := GetBitratePriority;
  Consumer.increase_layer := IncreaseLayer;
  Consumer.apply_layers := ApplyLayers;
  Consumer.desired_bitrate := GetDesiredBitrate;
}.

#[global] Program Instance simulcast_allocating : Allocating State := {
  ready := ready_;
  wants := wants_;
  idle s := provisionalTargetSpatialLayer (layers s) = -1 /\ provisionalTargetTemporalLayer (layers s) = -1;
  left := left_;
}.
Next Obligation. intros s str Hs. pose proof (simulcast_provisional _ _ Hs). unfold left_, layers_left. destruct Hs as (Hi & _). 
  destruct (inv_provisional _ _ Hi) as [[-> ->]|(_ & (r & Hr & Ht) & _)]; [unfold zlen; lia|]. apply at_layer_range in Hr. lia. Qed.
Next Obligation.
  intros s str str' Hs Hl (Hi & He & _). split_and!; [|done..]. by eapply Inv_evolves; [apply same_bases_evolves|].
Qed.
Next Obligation. intros s str str'. apply simulcast_active_frame. Qed.
Next Obligation. done. Qed.
Next Obligation.
  intros w (Hi & He & _). unfold GetBitratePriority. apply wp_bind, wp_gets, wp_bind, wp_lift. rewrite He. cbn [ms_assert].
  apply wp_bind. unfold IsActive_. apply wp_reader. destruct (is_active_Ok _ _ Hi) as [b Hb]. rewrite Hb. apply wp_ret. split; [done|].
  by destruct b.
Qed.
Next Obligation.
  intros b loss n w Hl Hr Ha Hb. pose proof Hr as (Hi & He & _). eapply wp_mono; [by apply wp_IncreaseLayer|].
  intros v w' (Hi' & Hv & Ec & Ep & Hbases & Hl' & Hlayers & Hne & _).
  assert (Hr' : ready_ (self w') (streams w')) by (split_and!; [done|by rewrite Ec|done]).
  split_and!; try done.
  - unfold wants_. rewrite (same_active _ _ _ Ec Ep). by eapply simulcast_active_frame.
  - lia.
  - lia.
  - unfold left_. rewrite Ep. destruct Hlayers as [El|[Hab Hh]].
    + rewrite El. destruct (Z.eqb_spec v 0); [lia|]. by destruct (Hne n0).
    + pose proof (simulcast_provisional _ _ Hr) as [Ht _]. pose proof (simulcast_provisional _ _ Hr') as [Ht' _].
      apply has_layers_present in Hh as [_ Hh]. pose proof (layers_left_above (zlen (producerRtpStreams (self w))) _ _ _ _ Ht (conj Hh (proj2 Ht')) Hab).
      destruct (v =? 0); lia.
Qed.
Next Obligation.
  intros n w Hl (Hi & He & _) Ha. eapply wp_mono; [exact (wp_both _ _ _ _ _ _ (safe_ApplyLayers w n Hi He Ha) (frame_ApplyLayers n w))|].
  intros _ w' (Hi' & Es & Ec & E). split; [done|]. split; [|done]. split_and!; [done|by rewrite Ec|by rewrite Es].
Qed.

End SimulcastAllocation.

(** ** SVC consumers *)

Module SvcAllocation.

Import Consumer Sender SvcConsumer SvcSpec.

Definition ready_ (s : State) (str : Streams) : Prop := Inv s str /\ externallyManagedBitrate (consumer s) = true.
Definition wants_ (s : State) (str : Streams) : Prop := is_active s str = Ok true.

(** The number of spatial layers of the producer's stream. *)
Definition spatial_count (s : State) (str : Streams) : Z :=
  match producerRtpStream s with Some a => match str !! a with Some r => spatial_layers r | None => 0 end | None => 0 end.
Definition left_ (s : State) (str : Streams) : Z :=
  layers_left (spatial_count s str) (provisionalTargetSpatialLayer (layers s)) (provisionalTargetTemporalLayer (layers s)).

Lemma spatial_count_frame s s' str str' : same_bases str str' -> producerRtpStream s' = producerRtpStream s ->
  spatial_count s' str' = spatial_count s str.
Proof.
  intros Hs E. unfold spatial_count. rewrite E. destruct (producerRtpStream s) as [a|]; [|done]. specialize (Hs a). unfold spatial_layers.
  destruct (str !! a) as [r|], (str' !! a) as [r'|]; try done. by injection Hs as ->.
Qed.

Lemma svc_active_frame s s' str str' : same_bases str str' -> consumer s' = consumer s -> producerRtpStream s' = producerRtpStream s ->
  is_active s str = Ok true -> is_active s' str' = Ok true.
Proof.
  intros Hs E1 E2. unfold is_active, stream_of. rewrite E1, E2. destruct (base_active _); [|done]. destruct (producerRtpStream s) as [a|]; [|done].
  destruct (str !! a) as [r|] eqn:E; [|done]. destruct (same_bases_lookup _ _ _ _ Hs E) as (r' & -> & Eb). cbn. unfold alive, score, has_dtx. by rewrite Eb.
Qed.

Lemma svc_provisional s str : ready_ s str -> -1 <= provisionalTargetTemporalLayer (layers s) < 256.
Proof.
  intros [Hi _]. destruct (inv_provisional _ _ Hi) as [[_ ->]|(a & r & _ & Hr & _ & Ht)]; [lia|].
  destruct (inv_legible _ _ Hi a r Hr) as (_ & _ & _ & H8). lia.
Qed.

#[global] Instance svc_allocator : Consumer.Allocator State := {
  Consumer.bitrate_priority := GetBitratePriority;
  Consumer.increase_layer := IncreaseLayer;
  Consumer.apply_layers := ApplyLayers;
  Consumer.desired_bitrate := GetDesiredBitrate;
}.

#[global] Program Instance svc_allocating : Allocating State := {
  ready := ready_;
  wants := wants_;
  idle s := provisionalTargetSpatialLayer (layers s) = -1 /\ provisionalTargetTemporalLayer (layers s) = -1;
  left := left_;
}.
Next Obligation.
  intros s str Hs. pose proof (svc_provisional _ _ Hs). destruct Hs as [Hi _]. unfold left_, layers_left, spatial_count.
  destruct (inv_provisional _ _ Hi) as [[-> ->]|(a & r & -> & Hr & Hsp & Htp)]; [|rewrite Hr; lia].
  repeat case_match; try lia. destruct (inv_legible _ _ Hi _ _ H1) as (_ & ? & _). lia.
Qed.
Next Obligation. intros s str str' Hs Hl [Hi He]. split; [|done]. by eapply Inv_stays; [apply same_bases_stays|]. Qed.
Next Obligation. intros s str str' Hs. by apply svc_active_frame. Qed.
Next Obligation. intros s str str' Hs _. unfold left_. by rewrite (spatial_count_frame s s str str'). Qed.
Next Obligation.
  intros w [Hi He]. unfold GetBitratePriority. apply wp_bind, wp_gets, wp_bind, wp_lift. rewrite He. cbn [ms_assert].
  apply wp_bind. unfold IsActive_. apply wp_reader. destruct (svc_is_active_Ok _ _ Hi) as (b & Hb & _). rewrite Hb. apply wp_ret. split; [done|].
  by destruct b.
Qed.
Next Obligation.
  intros b loss n w _ Hr Ha Hb. pose proof Hr as [Hi He]. eapply wp_mono; [by apply wp_svc_IncreaseLayer|].
  intros v w' (Hi' & Hv & Ec & Ep & Hbases & Hlayers & Hne).
  assert (Hr' : ready_ (self w') (streams w')) by (split; [done|by rewrite Ec]).
  split; [done|]. split; [apply Hi'|]. split; [done|]. split; [by eapply svc_active_frame|]. split; [done|].
  unfold left_. rewrite (spatial_count_frame (self w) (self w') (streams w) (streams w') Hbases Ep). destruct Hlayers as [El|[Hab Hh]].
  - rewrite El. destruct (Z.eqb_spec v 0); [lia|]. by destruct (Hne n0).
  - pose proof (svc_provisional _ _ Hr) as Ht. pose proof (svc_provisional _ _ Hr') as Ht'. destruct Hh as (a & r & _ & _ & _ & Hh).
    pose proof (layers_left_above (spatial_count (self w) (streams w)) _ _ _ _ Ht (conj (proj1 Hh) (proj2 Ht')) Hab). destruct (v =? 0); lia.
Qed.
Next Obligation.
  intros n w _ [Hi He] Ha. eapply wp_mono; [by apply wp_svc_ApplyLayers|]. intros _ w' (Hi' & Es & Ec & E). split; [done|]. split; [|done].
  split; [done|by rewrite Ec].
Qed.

End SvcAllocation.

(** ** Pipe consumers do not take part *)

Module PipeAllocation.

Import PipeConsumer.

#[global] Instance pipe_allocator : Consumer.Allocator State := {
  Consumer.bitrate_priority := GetBitratePriority;
  Consumer.increase_layer := IncreaseLayer;
  Consumer.apply_layers := ApplyLayers;
  Consumer.desired_bitrate := GetDesiredBitrate;
}.

#[global] Program Instance pipe_allocating : Allocating State := {
  ready _ _ := True;
  wants _ _ := False;
  idle _ := True;
  left _ _ := 0;
}.
Solve All Obligations with done.

End PipeAllocation.

(** ** Consumers of any kind *)

Module AnyAllocation.

Import AnyConsumer.

Definition ready_ (c : t) (str : Streams) : Prop :=
  match c with Simple s => ready s str | Simulcast s => ready s str | Svc s => ready s str | Pipe s => ready s str end.
Definition wants_ (c : t) (str : Streams) : Prop :=
  match c with Simple s => wants s str | Simulcast s => wants s str | Svc s => wants s str | Pipe s => wants s str end.
Definition idle_ (c : t) : Prop :=
  match c with Simple s => idle s | Simulcast s => idle s | Svc s => idle s | Pipe s => idle s end.
Definition left_ (c : t) (str : Streams) : Z :=
  match c with Simple s => left s str | Simulcast s => left s str | Svc s => left s str | Pipe s => left s str end.

#[global] Program Instance any_allocating : Allocating t := {
  ready := ready_;
  wants := wants_;
  idle := idle_;
  left := left_;
}.
Next Obligation. intros [] str H; exact (left_nonneg _ _ H). Qed.
Next Obligation. intros [] str str' Hs Hl H; exact (ready_frame _ _ _ Hs Hl H). Qed.
Next Obligation. intros [] str str' Hs H; exact (wants_frame _ _ _ Hs H). Qed.
Next Obligation. intros [] str str' Hs H; exact (left_frame _ _ _ Hs H). Qed.
Next Obligation.
  intros [[] str sc h e] H; apply wp_embed; (eapply wp_mono; [exact (priority_law (mkWorld s str sc h e) H)|]); by intros v w' [-> Hv].
Qed.
Next Obligation.
  intros b loss n [[] str sc h e] Hl H Hw Hb; apply wp_embed;
    (eapply wp_mono; [exact (increase_law b loss n (mkWorld s str sc h e) Hl H Hw Hb)|]); intros v w' Hv; exact Hv.
Qed.
Next Obligation.
  intros n [[] str sc h e] Hl H Hw; apply wp_embed; (eapply wp_mono; [exact (apply_law n (mkWorld s str sc h e) Hl H Hw)|]); intros v w' Hv; exact Hv.
Qed.

End AnyAllocation.
