(* ===== verification/Transport.v ===== *)
(** * Transports: sharing the outgoing bitrate out

    Models [Transport::DistributeAvailableOutgoingBitrate] and
    [Transport::ComputeOutgoingDesiredBitrate] of [worker/src/RTC/Transport.cpp].

    The transport holds its consumers in a hash map.  The order in which the map is walked is
    not specified, so it is an argument, [order]: a list of the keys.  A call on a consumer
    runs in the consumer's world: its own state, the streams of its producer and the packets
    that all consumers share; what it emits is logged with its key.  The congestion controller
    is not part of the sources: the bitrate that it offers and its kind are arguments. *)

From stdpp Require Import gmap.
From S2P Require Import Prelude StateMonad Multimap Utils RtpStreamRecv RtpStreamSend Consumer.

(** ** The consumers of a transport *)

Module Transport.

Import Consumer.

(** A consumer and the scores of its producer, which it points to. *)
Record Member (S : Type) := mkMember { consumer : S; scores : list Z }.
Arguments mkMember {S}.
Arguments consumer {S}.
Arguments scores {S}.

Record Pool (S : Type) := mkPool {
  mapConsumers : gmap Z (Member S);
  pool_streams : gmap Z RtpStreamRecv.State;
  pool_heap : Heap;
  pool_events : list (Z * event);
}.
Arguments mkPool {S}.
Arguments mapConsumers {S}.
Arguments pool_streams {S}.
Arguments pool_heap {S}.
Arguments pool_events {S}.

(** State passing over the pool. *)
Abbreviation P S := (St (Pool S)).

(** A call on the consumer with the key [id]. *)
Definition call {S A} (id : Z) (m : M S A) : P S A := fun p =>
  c ← deref (mapConsumers p !! id);
  '(a, w) ← m (mkWorld (consumer c) (pool_streams p) (scores c) (pool_heap p) []);
  Ok (a, mkPool (<[id := mkMember (self w) (scores c)]> (mapConsumers p)) (streams w) (heap w)
           (pool_events p ++ (pair id <$> events w))).

(** Consumers by priority. *)
Abbreviation Multimap := (multimap Z).

Section Distribution.

Context {S : Type} `{!Allocator S}.

(** The consumers that want bitrate. *)
Fixpoint by_priority (order : list Z) (m : Multimap) : P S Multimap :=
  match order with
  | [] => mret m
  | id :: order' =>
      priority ← call id bitrate_priority;
      by_priority order' (if 0 <? priority then emplace priority id m else m)
  end.

(** The inner loop, from the 8-bit index [i] to [limit]: the bitrate that is left.  [None] is
    that the loop goes on after [fuel] iterations. *)
Fixpoint increase (fuel : nat) (limit i id available : Z) (considerLoss : bool) (nowMs : Z) : P S (option Z) :=
  if i <=? limit then
    match fuel with
    | O => mret None
    | Datatypes.S fuel' =>
        used ← call id (increase_layer available considerLoss nowMs);
        _ ← from_res (ms_assert (used <=? available));
        if used =? 0 then mret (Some available)
        else increase fuel' limit (u8 (i + 1)) id (u32 (available - used)) considerLoss nowMs
    end
  else mret (Some available).

(** One round over the consumers, those of the highest priority first. *)
Fixpoint each (fuel : nat) (base : bool) (l : Multimap) (available : Z) (considerLoss : bool) (nowMs : Z) : P S (option Z) :=
  match l with
  | [] => mret (Some available)
  | (priority, id) :: l' =>
      o ← increase fuel (if base then 1 else priority) 1 id available considerLoss nowMs;
      match o with
      | None => mret None
      | Some available => each fuel base l' available considerLoss nowMs
      end
  end.

(** The rounds: the first one gives each consumer one layer at most. *)
Fixpoint rounds (n fuel : nat) (base : bool) (l : Multimap) (available : Z) (considerLoss : bool) (nowMs : Z) : P S (option Z) :=
  if 0 <? available then
    match n with
    | O => mret None
    | Datatypes.S n' =>
        o ← each fuel base l available considerLoss nowMs;
        match o with
        | None => mret None
        | Some available' =>
            if available' =? available then mret (Some available')
            else rounds n' fuel false l available' considerLoss nowMs
        end
    end
  else mret (Some available).

Fixpoint apply_all (l : Multimap) (nowMs : Z) : P S unit :=
  match l with
  | [] => mret tt
  | (_, id) :: l' => _ ← call id (apply_layers nowMs); apply_all l' nowMs
  end.

(** The bitrate that is not shared out; [None] if a loop did not end within [fuel] iterations. *)
Definition DistributeAvailableOutgoingBitrate (fuel : nat) (order : list Z) (availableBitrate : Z) (remb : bool) (nowMs : Z)
    : P S (option Z) :=
  multimapPriorityConsumer ← by_priority order [];
  match multimapPriorityConsumer with
  | [] => mret (Some availableBitrate)
  | _ =>
      let l := reverse multimapPriorityConsumer in
      o ← rounds fuel fuel true l availableBitrate remb nowMs;
      match o with
      | None => mret None
      | Some available => _ ← apply_all l nowMs; mret (Some available)
      end
  end.

(** The bitrate that the controller is asked for: a 32-bit sum. *)
Fixpoint ComputeOutgoingDesiredBitrate (order : list Z) (totalDesiredBitrate nowMs : Z) : P S Z :=
  match order with
  | [] => mret totalDesiredBitrate
  | id :: order' =>
      desiredBitrate ← call id (desired_bitrate nowMs);
      ComputeOutgoingDesiredBitrate order' (u32 (totalDesiredBitrate + desiredBitrate)) nowMs
  end.

End Distribution.

End Transport.
