(* ===== verification/TransportSpec.v ===== *)
(** * Sharing the outgoing bitrate out

    Against the interface [Allocating]: the rounds of
    [Transport::DistributeAvailableOutgoingBitrate] come to an end, no assertion fails, no
    more bitrate is taken than there is, and every consumer is left without provisional
    layers. *)

From stdpp Require Import gmap.
From S2P Require Import Prelude StateMonad Multimap Utils RtpStream RtpStreamRecv RtpStreamSend Consumer StreamReads AnyConsumer Allocation Transport.
From S2P Require Import SimulcastConsumer SimulcastHistory SvcConsumer SvcSpec.

Module TransportSpec.

Import Transport.

(** ** Postconditions over the pool *)

Section Distribution.

Context {S : Type} `{HA : !Consumer.Allocator S, HL : !Allocating S}.
Implicit Types (p : Pool S) (E : fault -> Prop).

(** The world of a consumer, and the pool after a call in it. *)
Definition world p (c : Member S) : World S := mkWorld (consumer c) (pool_streams p) (scores c) (pool_heap p) [].
Definition after p (id : Z) (c : Member S) (w : World S) : Pool S :=
  mkPool (<[id := mkMember (self w) (scores c)]> (mapConsumers p)) (streams w) (heap w) (pool_events p ++ (pair id <$> events w)).

Lemma post_call {A} id (m : M S A) (Q : A -> Pool S -> Prop) E p c : mapConsumers p !! id = Some c ->
  wp m (fun a w => Q a (after p id c w)) E (world p c) -> post (call id m) Q E p.
Proof.
  intros Hc. unfold post, wp, call. rewrite Hc. cbn [deref mbind res_bind]. unfold world. by destruct (m _) as [[a w]|].
Qed.

(** ** What holds between the calls *)

Definition all_ready p : Prop := forall id c, mapConsumers p !! id = Some c -> ready (consumer c) (pool_streams p).
Definition all_idle p : Prop := forall id c, mapConsumers p !! id = Some c -> idle (consumer c).
Definition sound p : Prop := legible (pool_streams p) /\ all_ready p.
Definition wanting p (id : Z) : Prop := exists c, mapConsumers p !! id = Some c /\ wants (consumer c) (pool_streams p).

(** How many more times a consumer, and some consumers, can take bitrate. *)
Definition left_at p (id : Z) : Z := match mapConsumers p !! id with Some c => left (consumer c) (pool_streams p) | None => 0 end.
Fixpoint total p (ids : list Z) : Z := match ids with [] => 0 | id :: ids' => left_at p id + total p ids' end.

Lemma left_at_nonneg p id : sound p -> 0 <= left_at p id.
Proof. intros [_ Hr]. unfold left_at. destruct (mapConsumers p !! id) as [c|] eqn:E; [|done]. exact (left_nonneg _ _ (Hr id c E)). Qed.

Lemma total_nonneg p ids : sound p -> 0 <= total p ids.
Proof. intros Hp. induction ids as [|id ids IH]; cbn; [done|]. pose proof (left_at_nonneg p id Hp). lia. Qed.

Lemma total_member p ids id : sound p -> id ∈ ids -> left_at p id <= total p ids.
Proof.
  intros Hp. induction ids as [|x ids IH]; cbn; [by intros []%not_elem_of_nil|]. pose proof (total_nonneg p ids Hp). pose proof (left_at_nonneg p x Hp).
  intros [->|Hid]%elem_of_cons; [lia|]. specialize (IH Hid). lia.
Qed.

Lemma total_submseteq p ids ids' : sound p -> ids ⊆+ ids' -> total p ids <= total p ids'.
Proof.
  intros Hp. induction 1 as [|x l k _ IH|x y l|x l k _ IH|l k m _ IH1 _ IH2]; cbn; try lia. pose proof (left_at_nonneg p x Hp). lia.
Qed.

(** Calls that only advance the distribution. *)
Definition advances p p' : Prop :=
  sound p' /\ (forall id, wanting p id -> wanting p' id) /\ (forall id, left_at p' id <= left_at p id).

Lemma advances_refl p : sound p -> advances p p.
Proof. done. Qed.

Lemma advances_trans p1 p2 p3 : advances p1 p2 -> advances p2 p3 -> advances p1 p3.
Proof.
  intros (_ & W1 & L1) (S2 & W2 & L2). split_and!; [done|auto|]. intros id. specialize (L1 id). specialize (L2 id). lia.
Qed.

Lemma total_mono p p' ids : (forall id, left_at p' id <= left_at p id) -> total p' ids <= total p ids.
Proof. intros Hm. induction ids as [|id ids IH]; cbn; [done|]. specialize (Hm id). lia. Qed.

(** The other consumers do not notice a call that changes the counters of the streams only. *)
Lemma after_call p id c (w : World S) : sound p -> mapConsumers p !! id = Some c ->
  same_bases (pool_streams p) (streams w) -> legible (streams w) -> ready (self w) (streams w) ->
  sound (after p id c w) /\ left_at (after p id c w) id = left (self w) (streams w) /\
  (forall x, x <> id -> left_at (after p id c w) x = left_at p x /\ (wanting p x -> wanting (after p id c w) x)).
Proof.
  intros [_ Hr] Hc Hs Hl Hw. split; [split; [done|]|split].
  - intros x d. cbn. destruct (decide (id = x)) as [<-|Hne]; [rewrite lookup_insert_eq; by intros [= <-]|].
    rewrite lookup_insert_ne by done. intros Hd. exact (ready_frame _ _ _ Hs Hl (Hr x d Hd)).
  - unfold left_at, after. cbn. by rewrite lookup_insert_eq.
  - intros x Hne. unfold left_at, wanting, after. cbn. rewrite lookup_insert_ne by done. split.
    + destruct (mapConsumers p !! x) as [d|] eqn:E; [|done]. exact (left_frame _ _ _ Hs (Hr x d E)).
    + intros (d & Hd & Hx). exists d. split; [done|]. exact (wants_frame _ _ _ Hs Hx).
Qed.

(** ** The loops *)

Lemma post_increase_layer id b loss n p : sound p -> wanting p id -> 0 <= b ->
  post (call id (Consumer.increase_layer b loss n))
    (fun v p' => advances p p' /\ 0 <= v <= b /\ left_at p' id + (if v =? 0 then 0 else 1) <= left_at p id) calm p.
Proof.
  intros Hp (c & Hc & Hw) Hb. pose proof Hp as [Hl Hr]. eapply post_call; [done|].
  eapply wp_mono; [exact (increase_law b loss n (world p c) Hl (Hr id c Hc) Hw Hb)|].
  intros v w (Hs & Hl' & Hr' & Hw' & Hv & Hleft). destruct (after_call p id c w Hp Hc Hs Hl' Hr') as (Hp' & E & Hother).
  assert (Hid : left_at p id = left (consumer c) (pool_streams p)) by (unfold left_at; by rewrite Hc). cbn in Hleft. rewrite E, Hid.
  split; [|done]. split_and!; [done| |]; intros x; (destruct (decide (x = id)) as [->|Hne]; [|destruct (Hother x Hne) as [Ex Hx]]).
  - intros _. exists (mkMember (self w) (scores c)). cbn. by rewrite lookup_insert_eq.
  - exact Hx.
  - rewrite E, Hid. destruct (v =? 0); lia.
  - lia.
Qed.

Lemma post_increase fuel id loss n limit : forall i b p, sound p -> wanting p id -> fits 32 b -> left_at p id < Z.of_nat fuel ->
  post (increase fuel limit i id b loss n)
    (fun o p' => advances p p' /\ exists b', o = Some b' /\ 0 <= b' <= b /\ (b' <> b -> left_at p' id < left_at p id)) calm p.
Proof.
  assert (Hstop : forall b p, sound p -> fits 32 b ->
    advances p p /\ exists b', Some b = Some b' /\ 0 <= b' <= b /\ (b' <> b -> left_at p id < left_at p id)).
  { intros b p Hp [? ?]. split; [done|]. exists b. split_and!; done. }
  induction fuel as [|fuel IH]; intros i b p Hp Hw Hb Hf; cbn [increase]; (destruct (i <=? limit); [|apply post_ret; auto]).
  { pose proof (left_at_nonneg p id Hp). lia. }
  apply post_bind. eapply post_mono; [apply post_increase_layer; [done..|apply Hb]|]. intros v p1 (Ha & Hv & Hleft).
  apply post_bind, post_from_res. destruct (Z.leb_spec v b); [|lia]. cbn [ms_assert].
  destruct (Z.eqb_spec v 0); [destruct (Hstop b p1) as [_ (b' & ? & ?)]; [apply Ha|done|]; split; [done|]; exists b; split_and!; try done; lia|].
  destruct Ha as (Hp1 & Hw1 & Hl1). rewrite (uwrap_id 32 (b - v)) by (unfold fits in *; lia).
  eapply post_mono; [apply IH; [done|by apply Hw1|unfold fits in *; lia|lia]|]. intros o p2 ((Hp2 & Hw2 & Hl2) & b' & -> & Hb' & Hlt).
  split; [split_and!; [done|auto|intros x; specialize (Hl1 x); specialize (Hl2 x); lia]|]. exists b'. split_and!; [done|lia|lia|].
  intros _. specialize (Hl2 id). lia.
Qed.

Lemma post_each fuel base loss n l : forall b p, sound p -> Forall (wanting p) l.*2 -> fits 32 b ->
  Forall (fun id => left_at p id < Z.of_nat fuel) l.*2 ->
  post (each fuel base l b loss n)
    (fun o p' => advances p p' /\ exists b', o = Some b' /\ 0 <= b' <= b /\ (b' <> b -> total p' l.*2 < total p l.*2)) calm p.
Proof.
  induction l as [|[prio id] l IH]; intros b p Hp Hw Hb Hf; cbn [each].
  { apply post_ret. split; [done|]. exists b. unfold fits in Hb. split_and!; [done|lia..]. }
  apply list.Forall_cons in Hw as [Hw Hws]. apply list.Forall_cons in Hf as [Hf Hfs].
  apply post_bind. eapply post_mono; [by apply post_increase|]. intros o p1 (Ha & b1 & -> & Hb1 & Hlt1). destruct Ha as (Hp1 & Hw1 & Hl1).
  eapply post_mono; [apply IH; [done|eapply Forall_impl; [exact Hws|auto]|unfold fits in *; lia|]|].
  { eapply Forall_impl; [exact Hfs|]. intros x Hx. cbn in Hx. specialize (Hl1 x). lia. }
  intros o p2 (Ha2 & b2 & -> & Hb2 & Hlt2). split; [by eapply advances_trans|]. exists b2. split_and!; [done|lia|lia|].
  intros Hne. cbn. pose proof (total_mono p p1 l.*2 Hl1). destruct Ha2 as (_ & _ & Hl2). pose proof (total_mono p1 p2 l.*2 Hl2).
  pose proof (Hl1 id). pose proof (Hl2 id). destruct (Z.eq_dec b1 b) as [->|Hne1]; [specialize (Hlt2 Hne); lia|specialize (Hlt1 Hne1); lia].
Qed.

Lemma post_rounds k fuel loss n l : forall base b p, sound p -> Forall (wanting p) l.*2 -> fits 32 b ->
  total p l.*2 < Z.of_nat k -> total p l.*2 < Z.of_nat fuel ->
  post (rounds k fuel base l b loss n) (fun o p' => advances p p' /\ exists b', o = Some b' /\ 0 <= b' <= b) calm p.
Proof.
  induction k as [|k IH]; intros base b p Hp Hw Hb Hk Hf; cbn [rounds];
    (destruct (0 <? b); [|apply post_ret; split; [done|]; exists b; unfold fits in Hb; split_and!; [done|lia..]]).
  { pose proof (total_nonneg p l.*2 Hp). lia. }
  apply post_bind. eapply post_mono; [apply post_each; [done..|]|].
  { apply Forall_forall. intros id Hid. pose proof (total_member p l.*2 id Hp Hid). lia. }
  intros o p1 (Ha & b1 & -> & Hb1 & Hlt). destruct (Z.eqb_spec b1 b); [apply post_ret; split; [done|]; exists b1; split_and!; [done|lia..]|].
  specialize (Hlt ltac:(done)). pose proof Ha as (Hp1 & Hw1 & _).
  eapply post_mono; [apply IH; [done|eapply Forall_impl; [exact Hw|auto]|unfold fits in *; lia|lia|lia]|].
  intros o p2 (Ha2 & b2 & -> & Hb2). split; [by eapply advances_trans|]. exists b2. split_and!; [done|lia..].
Qed.

(** Consumers that are not in the list are not called. *)
Definition untouched (ids : list Z) p p' : Prop := forall x, x ∉ ids -> mapConsumers p' !! x = mapConsumers p !! x.

Lemma untouched_call {A} id (m : M S A) p : post (call id m) (fun _ => untouched [id] p) (fun _ => True) p.
Proof.
  unfold post, call. destruct (mapConsumers p !! id) as [c|]; [|done]. cbn [deref mbind res_bind]. destruct (m _) as [[a w]|]; [|done].
  intros x Hx. cbn. rewrite lookup_insert_ne; [done|]. intros ->. apply Hx. by left.
Qed.

Lemma untouched_trans ids p1 p2 p3 : untouched ids p1 p2 -> untouched ids p2 p3 -> untouched ids p1 p3.
Proof. intros H1 H2 x Hx. rewrite H2, H1; done. Qed.

Lemma untouched_more ids ids' p p' : ids ⊆ ids' -> untouched ids p p' -> untouched ids' p p'.
Proof. intros Hs H x Hx. apply H. intros Hx'. by apply Hx, Hs. Qed.

Lemma untouched_increase fuel id loss n limit : forall i b p,
  post (increase fuel limit i id b loss n) (fun _ => untouched [id] p) (fun _ => True) p.
Proof.
  induction fuel as [|fuel IH]; intros i b p; cbn [increase]; (destruct (i <=? limit); [|by apply post_ret]); [by apply post_ret|].
  apply post_bind. eapply post_mono; [apply untouched_call|]. intros v p1 H1. apply post_bind, post_from_res.
  destruct (v <=? b); [|done]. cbn [ms_assert]. destruct (v =? 0); [done|].
  eapply post_mono; [apply IH|]. intros o p2 H2. exact (untouched_trans _ _ _ _ H1 H2).
Qed.

Lemma untouched_each fuel base loss n l : forall b p,
  post (each fuel base l b loss n) (fun _ => untouched l.*2 p) (fun _ => True) p.
Proof.
  induction l as [|[prio id] l IH]; intros b p; cbn [each]; [by apply post_ret|].
  apply post_bind. eapply post_mono; [apply untouched_increase|]. intros [b1|] p1 H1.
  - eapply post_mono; [apply IH|]. intros o p2 H2. eapply untouched_trans; eapply untouched_more; [|exact H1| |exact H2]; [by intros x ->%list_elem_of_singleton; left|by intros x Hx; right].
  - apply post_ret. eapply untouched_more; [|exact H1]. by intros x ->%list_elem_of_singleton; left.
Qed.

Lemma untouched_rounds k fuel loss n l : forall base b p,
  post (rounds k fuel base l b loss n) (fun _ => untouched l.*2 p) (fun _ => True) p.
Proof.
  induction k as [|k IH]; intros base b p; cbn [rounds]; (destruct (0 <? b); [|by apply post_ret]); [by apply post_ret|].
  apply post_bind. eapply post_mono; [apply untouched_each|]. intros [b1|] p1 H1; [|done]. destruct (b1 =? b); [done|].
  eapply post_mono; [apply IH|]. intros o p2 H2. exact (untouched_trans _ _ _ _ H1 H2).
Qed.

(** ** The order of the consumers *)

Lemma post_by_priority order : forall m p, sound p -> Forall (fun id => is_Some (mapConsumers p !! id)) order ->
  NoDup (m.*2 ++ order) -> Forall (wanting p) m.*2 ->
  post (by_priority order m) (fun l p' => p' = p /\ NoDup l.*2 /\ Forall (wanting p) l.*2 /\ l.*2 ⊆+ m.*2 ++ order) (fun _ => False) p.
Proof.
  induction order as [|id order IH]; intros m p Hp Hin Hd Hw; cbn [by_priority].
  { apply post_ret. rewrite app_nil_r in *. done. }
  apply list.Forall_cons in Hin as [[c Hc] Hin]. apply post_bind. eapply post_call; [done|]. pose proof Hp as [Hl Hr].
  eapply wp_mono; [exact (priority_law (world p c) (Hr id c Hc))|]. intros v w [-> Hv].
  assert (E : after p id c (world p c) = p).
  { unfold after, world. cbn. rewrite app_nil_r. destruct p, c. cbn in *. by rewrite insert_id. }
  rewrite E. eapply (post_mono _ (fun l p' => p' = p /\ NoDup l.*2 /\ Forall (wanting p) l.*2 /\
    l.*2 ⊆+ (if 0 <? v then emplace v id m else m).*2 ++ order)).
  2: { intros l p' (-> & ? & ? & Hsub). split_and!; [done..|]. rewrite Hsub. destruct (0 <? v).
       - rewrite emplace_perm. cbn. by rewrite Permutation_middle.
       - apply submseteq_app; [done|]. by apply submseteq_cons. }
  apply IH; [done..| |]; destruct (Z.ltb_spec 0 v).
  - rewrite emplace_perm. cbn. by rewrite Permutation_middle.
  - apply NoDup_app in Hd as (H1 & H2 & H3). apply NoDup_app. apply NoDup_cons in H3 as [_ H3]. split_and!; [done| |done].
    intros x Hx Hx'. apply (H2 x Hx). by right.
  - rewrite emplace_perm. cbn. constructor; [|done]. exists c. split; [done|]. apply Hv. lia.
  - done.
Qed.

Lemma post_apply_all l n : forall p, sound p -> Forall (wanting p) l.*2 -> NoDup l.*2 ->
  post (apply_all l n) (fun _ p' => sound p' /\ pool_streams p' = pool_streams p /\
    forall id c, mapConsumers p' !! id = Some c -> if bool_decide (id ∈ l.*2) then idle (consumer c) else mapConsumers p !! id = Some c)
    (fun _ => False) p.
Proof.
  induction l as [|[prio id] l IH]; intros p Hp Hw Hd; cbn [apply_all].
  { by apply post_ret. }
  apply list.Forall_cons in Hw as [(c & Hc & Hwants) Hws]. apply NoDup_cons in Hd as [Hid Hd]. pose proof Hp as [Hl Hr].
  apply post_bind. eapply post_call; [done|]. eapply wp_mono; [exact (apply_law n (world p c) Hl (Hr id c Hc) Hwants)|].
  intros _ w (Es & Hready & Hidle). cbn in Es.
  destruct (after_call p id c w Hp Hc) as (Hp' & _ & Hother); [by rewrite Es|by rewrite Es|done|].
  assert (Hws' : Forall (wanting (after p id c w)) l.*2).
  { apply Forall_forall. intros x Hx. apply Hother; [by intros ->|]. by apply (proj1 (Forall_forall _ _) Hws). }
  eapply post_mono; [by apply IH|]. intros _ p' (Hp2 & Es2 & Hi). split_and!; [done|by rewrite Es2|].
  intros x d Hx. specialize (Hi x d Hx). cbn. destruct (decide (x = id)) as [->|Hne].
  - rewrite bool_decide_true by left. rewrite bool_decide_false in Hi by done. cbn in Hi. rewrite lookup_insert_eq in Hi. by injection Hi as <-.
  - rewrite (bool_decide_ext _ (x ∈ l.*2)) by (rewrite elem_of_cons; split; [by intros [?|?]|by right]). case_bool_decide; [done|].
    cbn in Hi. by rewrite lookup_insert_ne in Hi.
Qed.

(** *** The whole distribution

    Consumers that do not want bitrate are not called. *)
Lemma post_distribute fuel order b remb n p :
  sound p -> all_idle p -> NoDup order -> (forall id, id ∈ order <-> is_Some (mapConsumers p !! id)) -> fits 32 b ->
  total p order < Z.of_nat fuel ->
  post (DistributeAvailableOutgoingBitrate fuel order b remb n)
    (fun o p' => (exists b', o = Some b' /\ 0 <= b' <= b) /\ sound p' /\ all_idle p') calm p.
Proof.
  intros Hp Hi Hd Horder Hb Hf. unfold DistributeAvailableOutgoingBitrate. apply post_bind, post_never.
  eapply post_mono; [apply post_by_priority; [done| |done|constructor]|].
  { apply Forall_forall. intros id. by rewrite Horder. }
  intros l p' (-> & Hnd & Hw & Hsub). assert (Hb0 : 0 <= b <= b) by (unfold fits in Hb; lia).
  destruct l as [|x l]; [apply post_ret; split; [by exists b|done]|]. set (k := reverse (x :: l)).
  assert (Ek : k.*2 ≡ₚ (x :: l).*2) by (unfold k; by rewrite reverse_Permutation). rewrite <- Ek in Hnd, Hw, Hsub.
  pose proof (total_submseteq p k.*2 order Hp Hsub) as Ht.
  apply post_bind. eapply post_mono; [exact (post_both _ _ _ _ _ _ (post_rounds fuel fuel remb n k true b p Hp Hw Hb ltac:(lia) ltac:(lia)) (untouched_rounds _ _ _ _ _ _ _ _))|].
  intros o p1 [((Hp1 & Hw1 & _) & b' & -> & Hb') Hun]. apply post_bind, post_never.
  eapply post_mono; [apply post_apply_all; [done|eapply Forall_impl; [exact Hw|auto]|done]|].
  intros _ p2 (Hp2 & _ & Hi2). apply post_ret. split; [by exists b'|]. split; [done|]. intros id c Hc. specialize (Hi2 id c Hc).
  case_bool_decide as Hk; [done|]. rewrite (Hun id Hk) in Hi2. exact (Hi id c Hi2).
Qed.

End Distribution.

(** ** Consumers of every kind *)

(** [order] is a walk over the map. *)
Definition walks {S} (order : list Z) (p : Pool S) : Prop :=
  NoDup order /\ forall id, id ∈ order <-> is_Some (mapConsumers p !! id).

(** C16: the available bitrate is shared out in the end.  For consumers of every kind whose
    bitrate the transport manages, in consistent states, whose streams' counters have the shape
    of their layers, and for every order in which the map of consumers is walked: the rounds of
    [DistributeAvailableOutgoingBitrate] and the loops over the 8-bit index within them (which
    for the priority 255 only end when a consumer takes nothing) end within the number of times
    that the consumers can still take bitrate; no assertion fails (so no consumer takes more
    than it was given) and no missing stream is read; and afterwards the consumers are in
    consistent states and none of them keeps provisional layers. *)
Theorem bitrate_shared_out fuel order available remb nowMs (p : Pool AnyConsumer.t) :
  legible (pool_streams p) -> all_ready p -> all_idle p -> walks order p -> fits 32 available -> total p order < Z.of_nat fuel ->
  match DistributeAvailableOutgoingBitrate fuel order available remb nowMs p with
  | Ok (o, p') => (exists rest, o = Some rest /\ 0 <= rest <= available) /\ legible (pool_streams p') /\ all_ready p' /\ all_idle p'
  | Fault e => e <> AssertFailed /\ e <> NullDeref
  end.
Proof.
  intros Hl Hr Hi [Hd Ho] Hb Hf. pose proof (post_distribute fuel order available remb nowMs p (conj Hl Hr) Hi Hd Ho Hb Hf) as H.
  unfold post in H. destruct (DistributeAvailableOutgoingBitrate _ _ _ _ _ p) as [[o p']|e]; [|done]. destruct H as (? & [? ?] & ?). done.
Qed.

(** Two simulcast consumers of one producer. *)
Definition sample_member : Member AnyConsumer.t := mkMember (AnyConsumer.Simulcast (self SimulcastHistory.sample_managed)) [10; 10].
Definition sample_pool : Pool AnyConsumer.t :=
  mkPool {[ 7 := sample_member; 8 := sample_member ]} SimulcastHistory.sample_streams SimulcastHistory.no_heap [].

Lemma sample_streams_legible : legible SimulcastHistory.sample_streams.
Proof.
  assert (H : forall n, shaped (SimulcastHistory.sample_stream n)) by (intros n; apply made_shaped; [done|unfold fits; cbn; lia]).
  apply map_Forall_insert_2; [|apply map_Forall_singleton, H]. destruct (H 10) as [Hs Hn]. split; [|exact Hn].
  unfold SimulcastHistory.sample_sending. destruct (TransmissionCounter.Update _ _ _ _ _) as [c|] eqn:E; [|exact Hs]. exact (Update_shape _ _ _ _ _ _ _ _ Hs E).
Qed.

Lemma sample_member_ready : ready (consumer sample_member) (pool_streams sample_pool) /\ idle (consumer sample_member).
Proof.
  split; [|by vm_compute]. split; [|split; [by vm_compute|exact sample_streams_legible]].
  replace (pool_streams sample_pool) with (streams SimulcastHistory.sample_managed) by (vm_compute; reflexivity).
  exact SimulcastHistory.sample_managed_Inv.
Qed.

Lemma bitrate_shared_out_witness :
  match DistributeAvailableOutgoingBitrate 2000 [7; 8] 100000 false 3000 sample_pool with
  | Ok (o, _) => exists rest, o = Some rest /\ 0 <= rest <= 100000
  | Fault _ => False
  end.
Proof.
  assert (Hm : forall id c, mapConsumers sample_pool !! id = Some c -> c = sample_member /\ (id = 7 \/ id = 8)).
  { intros id c. cbn. rewrite lookup_insert_Some, lookup_singleton_Some. intros [[<- <-]|[_ [<- <-]]]; auto. }
  assert (Hleft : total sample_pool [7; 8] < Z.of_nat 2000) by (vm_compute; reflexivity).
  pose proof (bitrate_shared_out 2000 [7; 8] 100000 false 3000 sample_pool sample_streams_legible) as H.
  destruct (DistributeAvailableOutgoingBitrate _ _ _ _ _ sample_pool) as [[o p']|e] eqn:E; [|vm_compute in E; discriminate E].
  apply H; [| | | |exact Hleft].
  - intros id c Hc. destruct (Hm id c Hc) as [-> _]. apply sample_member_ready.
  - intros id c Hc. destruct (Hm id c Hc) as [-> _]. apply sample_member_ready.
  - split; [by apply (bool_decide_unpack _); vm_compute|]. intros id. rewrite !elem_of_cons. split.
    + intros [->|[->|[]%not_elem_of_nil]]; by eexists.
    + intros [c Hc]. destruct (Hm id c Hc) as [_ [->| ->]]; auto.
  - unfold fits. lia.
Defined.

End TransportSpec.
