(* ===== verification/Probation.v ===== *)
(** * Probation

    Models [worker/src/RTC/RtpProbationGenerator.cpp]: the packets without content that a transport
    sends to find out whether there is more bandwidth.  There is a single packet, in a buffer of
    its own; each call changes its sequence number, its timestamp and its size. *)

From stdpp Require Import gmap.
From S2P Require Import Prelude Utils RtcpPacket RtpPacket RtpPacketSpec RtpExtensions RtpParameters Producer.

Module RtpProbationGenerator.

Import RtpPacket.

Definition RtpProbationSsrc : Z := 1234.
Definition RtpProbationCodecPayloadType : Z := 127.
Definition ProbationPacketHeaderSize : Z := 32.
Definition MaxProbationPacketSize : Z := 1400.

Definition ProbationPacketHeader : list Z :=
  [144; 127; 0; 0; 0; 0; 0; 0; 0; 0; 0; 0; 190; 222; 0; 4] ++ replicate 16 0.

(** "probator" *)
Definition MidValue : list Z := [112; 114; 111; 98; 97; 116; 111; 114].

(** The extensions: only the MID is written into the buffer of the values, which has static storage. *)
Definition extensions : list GenericExtension :=
  [{| ext_id := Producer.type_code RtpParameters.MID; ext_value := MidValue |};
   {| ext_id := Producer.type_code RtpParameters.ABS_SEND_TIME; ext_value := [0; 0; 0] |};
   {| ext_id := Producer.type_code RtpParameters.TRANSPORT_WIDE_CC_01; ext_value := [0; 0] |}].

Definition probation_ids : Ids :=
  {| midExtensionId := Producer.type_code RtpParameters.MID; ridExtensionId := 0; rridExtensionId := 0;
     absSendTimeExtensionId := Producer.type_code RtpParameters.ABS_SEND_TIME;
     transportWideCc01ExtensionId := Producer.type_code RtpParameters.TRANSPORT_WIDE_CC_01;
     frameMarking07ExtensionId := 0; frameMarkingExtensionId := 0; ssrcAudioLevelExtensionId := 0;
     videoOrientationExtensionId := 0 |}.

(** The constructor; [junk] is what the new buffer holds before it is written, [seq] and [ts] are
    the random numbers. *)
Definition make (junk : list Z) (seq ts : Z) : res t :=
  probationPacketBuffer ← write junk 0 ProbationPacketHeader;
  o ← Parse probationPacketBuffer MaxProbationPacketSize;
  p ← deref o;
  p ← SetPayloadType p RtpProbationCodecPayloadType;
  p ← SetSsrc p RtpProbationSsrc;
  p ← SetSequenceNumber p (u16 seq);
  p ← SetTimestamp p ts;
  p ← SetExtensions p 1 extensions;
  mret (set_ids p probation_ids).

Definition GetNextPacket (p : t) (size : Z) : res t :=
  let size := if MaxProbationPacketSize <? size then MaxProbationPacketSize
              else if size <? ProbationPacketHeaderSize then ProbationPacketHeaderSize else size in
  seq ← GetSequenceNumber p;
  timestamp ← GetTimestamp p;
  let seq := u16 (seq + 1) in
  let timestamp := u32 (timestamp + 20) in
  p ← SetSequenceNumber p seq;
  p ← SetTimestamp p timestamp;
  SetPayloadLength p (size - ProbationPacketHeaderSize).

(** ** The packet, by its parts *)

Definition probation_value (a b c d e : Z) : list Z := (23 :: MidValue) ++ [66; a; b; c] ++ [81; d; e].

Definition probation_view (seq ts a b c d e : Z) (body : list Z) : view :=
  {| v_marker := false; v_pt := 127; v_seq := seq; v_ts := ts; v_ssrc := RtpProbationSsrc; v_csrcs := [];
     v_ext := Some (0xBEDE, probation_value a b c d e); v_body := body; v_pad := [] |}.

Definition slots : list (option Z) := slots_one 1 extensions 16 (replicate 14 None).

(** The memory in front of the values of the extensions. *)
Definition front (seq ts : Z) : list Z :=
  [144; 127] ++ Byte.be2 seq ++ Byte.be4 ts ++ Byte.be4 RtpProbationSsrc ++ [190; 222; 0; 4] ++ 23 :: MidValue.

Lemma zlen_probation_front seq ts : zlen (front seq ts) = 25.
Proof. reflexivity. Qed.

Lemma memory seq ts a b c d e body rest :
  encode (probation_view seq ts a b c d e body) ++ rest = front seq ts ++ [66; a; b; c] ++ [81; d; e] ++ body ++ rest.
Proof. unfold encode, header_bytes, ext_bytes. cbn [v_pad v_csrcs v_ext v_body probation_view]. by rewrite app_nil_r. Qed.

(** The object: the payload has [n] bytes, and can grow up to the end of the buffer. *)
Record probing (p : t) (seq ts : Z) (n : Z) : Prop := {
  pr_obj : exists a b c d e body rest,
    p = obj (probation_view seq ts a b c d e body) rest slots ∅ probation_ids /\ bytes_ok [a; b; c; d; e] /\
    zlen body = n /\ 1368 <= zlen (body ++ rest);
  pr_seq : fits 16 seq;
  pr_ts : fits 32 ts;
}.

Lemma probation_view_ok seq ts a b c d e body :
  fits 16 seq -> fits 32 ts -> bytes_ok [a; b; c; d; e] -> view_ok (probation_view seq ts a b c d e body).
Proof.
  intros Hs Ht Hv. split; try done. intros id value [= <- <-]. split_and!; [done| |done|done].
  unfold bytes_ok in Hv. rewrite !list.Forall_cons in Hv. destruct Hv as (? & ? & ? & ? & ? & _). unfold bytes_ok, probation_value, MidValue. cbn [app].
  rewrite !list.Forall_cons, list.Forall_nil. split_and!; (done || (unfold fits; lia)).
Qed.

(** Where the extensions are found. *)
Lemma extension_probing seq ts a b c d e body rest id :
  fits 16 seq -> fits 32 ts -> bytes_ok [a; b; c; d; e] -> id = 4 \/ id = 5 ->
  GetExtension (obj (probation_view seq ts a b c d e body) rest slots ∅ probation_ids) id =
    Ok (if id =? 4 then (Some 26, 3) else (Some 30, 2)).
Proof.
  intros Hs Ht Hv Hid. unfold GetExtension. rewrite obj_one_byte by by apply probation_view_ok.
  cbn [mem obj]. rewrite memory. pose proof (read_app_r (front seq ts) ([66; a; b; c] ++ [81; d; e] ++ body ++ rest)) as Hr.
  rewrite zlen_probation_front in Hr. pose proof (Hr 0 ltac:(lia)) as H0. pose proof (Hr 4 ltac:(lia)) as H4.
  change (25 + 0) with 25 in H0. change (25 + 4) with 29 in H4. destruct Hid as [-> | ->]; cbn [Z.eqb Pos.eqb mbind res_bind Z.ltb Z.compare Pos.compare Pos.compare_cont].
  - change (one_byte_slot _ 4) with (Ok (Some 25) : res (option Z)). cbn [mbind res_bind]. by rewrite H0.
  - change (one_byte_slot _ 5) with (Ok (Some 29) : res (option Z)). cbn [mbind res_bind]. by rewrite H4.
Qed.

Lemma Set3Bytes_over A x y z B v : Byte.Set3Bytes (A ++ x :: y :: z :: B) (zlen A) v = Ok (A ++ Byte.be3 v ++ B).
Proof.
  unfold Byte.Set3Bytes. rewrite (store_app A _ _ 2) by lia.
  change (x :: y :: z :: B) with ([x; y] ++ z :: B). rewrite (store_app [x; y] _ _ 0), store_front by done.
  cbn [fmap res_fmap mbind res_bind app]. rewrite (store_app A _ _ 1) by lia.
  change (x :: y :: ?l) with ([x] ++ y :: l). rewrite (store_app [x] _ _ 0), store_front by done.
  cbn [fmap res_fmap mbind res_bind app]. rewrite (store_app A _ _ 0), store_front by lia. done.
Qed.

(** Other values of the extensions in the memory. *)
Lemma set_mem_probing seq ts a b c d e a' b' c' d' e' body rest m :
  m = front seq ts ++ [66; a'; b'; c'] ++ [81; d'; e'] ++ body ++ rest ->
  set_mem (obj (probation_view seq ts a b c d e body) rest slots ∅ probation_ids) m =
  obj (probation_view seq ts a' b' c' d' e' body) rest slots ∅ probation_ids.
Proof.
  intros ->. unfold set_mem, obj. f_equal; try reflexivity. by rewrite memory.
Qed.

Lemma UpdateAbsSendTime_probing p seq ts n ms :
  probing p seq ts n -> exists p', UpdateAbsSendTime p ms = Ok (true, p') /\ probing p' seq ts n.
Proof.
  intros [(a & b & c & d & e & body & rest & -> & Hv & Hn & Hm) Hs Ht]. unfold UpdateAbsSendTime.
  change (absSendTimeExtensionId (ids (obj _ _ _ _ _))) with 4.
  rewrite extension_probing by (done || by left). cbn [mbind res_bind Z.eqb Pos.eqb mem obj].
  rewrite memory. change 26 with (zlen (front seq ts ++ [66])).
  change ([66; a; b; c] ++ ?l) with ([66] ++ a :: b :: c :: l). rewrite (app_assoc (front seq ts)), Set3Bytes_over.
  eexists. split; [reflexivity|]. split; [|done..].
  set (x := Time.TimeMsToAbsSendTime ms).
  exists (u8 (Z.shiftr x 16)), (u8 (Z.shiftr x 8)), (u8 x), d, e, body, rest. split_and!; [|..|done|done].
  - apply set_mem_probing. by rewrite <- app_assoc.
  - unfold bytes_ok in Hv. rewrite !list.Forall_cons in Hv. destruct Hv as (? & ? & ? & ? & ? & _). unfold bytes_ok. rewrite !list.Forall_cons, list.Forall_nil.
    split_and!; try done; by apply uwrap_fits.
Qed.

Lemma UpdateTransportWideCc01_probing p seq ts n wide :
  probing p seq ts n -> exists p', UpdateTransportWideCc01 p wide = Ok (true, p') /\ probing p' seq ts n /\
    ReadTransportWideCc01 p' = Ok (Some (u16 wide)).
Proof.
  intros [(a & b & c & d & e & body & rest & -> & Hv & Hn & Hm) Hs Ht]. unfold UpdateTransportWideCc01, ReadTransportWideCc01.
  change (transportWideCc01ExtensionId (ids (obj _ _ _ _ _))) with 5.
  rewrite extension_probing by (done || by right). cbn [mbind res_bind Z.eqb Pos.eqb mem obj].
  rewrite memory. change 30 with (zlen (front seq ts ++ [66; a; b; c; 81])).
  change ([66; a; b; c] ++ [81; d; e] ++ ?l) with ([66; a; b; c; 81] ++ d :: e :: l).
  rewrite (app_assoc (front seq ts)), Set2Bytes_over. cbn [mbind res_bind mret res_ret].
  assert (Hp : set_mem (obj (probation_view seq ts a b c d e body) rest slots ∅ probation_ids)
      ((front seq ts ++ [66; a; b; c; 81]) ++ Byte.be2 wide ++ body ++ rest) =
    obj (probation_view seq ts a b c (u8 (Z.shiftr wide 8)) (u8 wide) body) rest slots ∅ probation_ids).
  { apply set_mem_probing. by rewrite <- app_assoc. }
  rewrite Hp. eexists. split; [reflexivity|].
  assert (Hv' : bytes_ok [a; b; c; u8 (Z.shiftr wide 8); u8 wide]).
  { unfold bytes_ok in *. rewrite !list.Forall_cons in *. destruct Hv as (? & ? & ? & _). split_and!; try done; by apply uwrap_fits. }
  split; [split; [|done..]; by exists a, b, c, (u8 (Z.shiftr wide 8)), (u8 wide), body, rest|].
  change (transportWideCc01ExtensionId (ids (obj _ _ _ _ _))) with 5. rewrite extension_probing by (done || by right).
  cbn [mbind res_bind Z.eqb Pos.eqb]. rewrite <- Hp. cbn [mem set_mem].
  rewrite (Get2Bytes_app _ _ 0) by done. by rewrite Get2Bytes_front.
Qed.

(** The payload, made shorter or longer. *)
Lemma SetPayloadLength_obj v rest one two i n :
  view_ok v -> v_pad v = [] -> 0 <= n < 2 ^ 15 -> padded n <= zlen (v_body v ++ rest) ->
  SetPayloadLength (obj v rest one two i) n =
    Ok (obj (with_body v (take (Z.to_nat (padded n)) (v_body v ++ rest)) []) (drop (Z.to_nat (padded n)) (v_body v ++ rest)) one two i).
Proof.
  intros Hv Hpad Hn Hroom. set (m := take (Z.to_nat (padded n)) (v_body v ++ rest)). set (k := drop (Z.to_nat (padded n)) (v_body v ++ rest)).
  assert (Hp : 0 <= padded n) by (unfold padded; Z.div_mod_to_equations; lia).
  assert (Hm : zlen m = padded n) by (unfold m, zlen in *; rewrite length_take; lia).
  assert (Hmk : m ++ k = v_body v ++ rest) by apply take_drop.
  destruct (byte0_no_padding v m Hv) as [H1 _]. unfold SetPayloadLength, SetPayloadPaddingFlag.
  rewrite PadTo4Bytes16_padded by (pow2_consts; lia).
  cbn [mem set_payload obj]. rewrite encode_hdr, Hpad. change (read (hdr ?b _ _ _ _ _) 0) with (Ok b : res Z).
  cbn [mbind res_bind]. rewrite hdr_set_b0, H1. cbn [mbind res_bind mret res_ret]. f_equal.
  unfold set_mem, set_payload, obj. cbn [csrcList headerExtension oneByteExtensions mapTwoBytesExtensions ids payload payloadLength payloadPadding size].
  rewrite (encode_hdr (with_body v m [])), !zlen_encode. cbn [v_csrcs v_ext v_body v_pad v_seq v_ts v_ssrc with_body app].
  rewrite Hmk, Hm, Hpad. change (zlen (@nil Z)) with 0. f_equal. lia.
Qed.

(** The size of the packet for a requested size. *)
Definition fitted (size : Z) : Z := 32 + padded (Z.max 32 (Z.min 1400 size) - 32).

Lemma fitted_bounds size : 32 <= fitted size <= 1400.
Proof. unfold fitted, padded. Z.div_mod_to_equations. lia. Qed.

Lemma probing_header p seq ts n :
  probing p seq ts n ->
  GetSequenceNumber p = Ok seq /\ GetTimestamp p = Ok ts /\ GetSsrc p = Ok RtpProbationSsrc /\
  GetPayloadType p = Ok RtpProbationCodecPayloadType /\ GetSize p = 32 + n.
Proof.
  intros [(a & b & c & d & e & body & rest & -> & _ & Hn & _) Hs Ht].
  unfold GetSequenceNumber, GetTimestamp, GetSsrc, GetPayloadType, GetSize. cbn [mem size obj]. rewrite zlen_encode, encode_hdr.
  split_and!.
  - by rewrite hdr_get_seq, uwrap_id.
  - unfold hdr. change (?x :: ?y :: Byte.be2 ?z ++ ?l) with ((x :: y :: Byte.be2 z) ++ l).
    rewrite (Get4Bytes_app _ _ 0) by done. by rewrite Get4Bytes_front, uwrap_id.
  - unfold hdr. change (?x :: ?y :: Byte.be2 ?z ++ Byte.be4 ?t ++ ?l) with ((x :: y :: Byte.be2 z ++ Byte.be4 t) ++ l).
    rewrite (Get4Bytes_app _ _ 0) by done. by rewrite Get4Bytes_front.
  - done.
  - cbn [v_csrcs v_ext v_body v_pad probation_view]. change (zlen (@nil Z)) with 0. change (zlen (ext_bytes _)) with 20. lia.
Qed.

Lemma GetNextPacket_probing p seq ts n size :
  probing p seq ts n ->
  exists p', GetNextPacket p size = Ok p' /\ probing p' (u16 (seq + 1)) (u32 (ts + 20)) (fitted size - 32).
Proof.
  intros Hp. destruct (probing_header _ _ _ _ Hp) as (H1 & H2 & _). unfold GetNextPacket. rewrite H1, H2.
  cbn [mbind res_bind]. destruct Hp as [(a & b & c & d & e & body & rest & -> & Hv & Hn & Hm) Hs Ht].
  rewrite SetSequenceNumber_obj. cbn [mbind res_bind]. rewrite SetTimestamp_obj. cbn [mbind res_bind].
  set (v := with_ts _ _).
  change v with (probation_view (u16 (seq + 1)) (u32 (ts + 20)) a b c d e body).
  unfold MaxProbationPacketSize, ProbationPacketHeaderSize.
  replace ((if 1400 <? size then 1400 else if size <? 32 then 32 else size) - 32) with (Z.max 32 (Z.min 1400 size) - 32)
    by (case_cmp; lia).
  pose proof (fitted_bounds size) as Hf. unfold fitted in *.
  rewrite SetPayloadLength_obj; [|apply probation_view_ok; (done || by apply uwrap_fits)|done|lia|cbn [v_body probation_view]; lia].
  eexists. split; [reflexivity|]. split; [|by apply uwrap_fits..].
  exists a, b, c, d, e. do 2 eexists. split_and!; [reflexivity|done| |].
  - cbn [v_body probation_view]. unfold zlen in *. rewrite length_take. lia.
  - cbn [v_body probation_view]. by rewrite take_drop.
Qed.


(** ** Construction *)

Definition blank_view (body : list Z) : view :=
  {| v_marker := false; v_pt := 127; v_seq := 0; v_ts := 0; v_ssrc := 0; v_csrcs := [];
     v_ext := Some (0xBEDE, replicate 16 0); v_body := body; v_pad := [] |}.

Lemma blank_view_ok body : view_ok (blank_view body).
Proof.
  split; try done. intros id value [= <- <-]. split_and!; [done| |done|done]. by apply (bool_decide_unpack _).
Qed.

(** What the extensions make of the header extension. *)
Lemma extensions_value : new_value 1 extensions = probation_value 0 0 0 0 0.
Proof. by vm_compute. Qed.

Lemma extensions_slots_two : slots_two 1 extensions 16 ∅ = ∅.
Proof. by vm_compute. Qed.

Lemma extensions_ok : Forall generic_ok extensions.
Proof. apply (bool_decide_unpack _). by vm_compute. Qed.

Lemma extensions_small : 4 + padded (zlen (elements 1 extensions)) < 2 ^ 15.
Proof. by vm_compute. Qed.

Lemma zero_bytes : bytes_ok [0; 0; 0; 0; 0].
Proof. apply (bool_decide_unpack _). by vm_compute. Qed.

Lemma zlen_blank_ext body : zlen (ext_bytes (v_ext (blank_view body))) = 20.
Proof. by vm_compute. Qed.

Lemma zlen_probation_ext a b c d e : zlen (ext_bytes (Some (0xBEDE, probation_value a b c d e))) = 20.
Proof. reflexivity. Qed.

(** The packet of the buffer with its header filled in. *)
Lemma header_view_ok seq ts body :
  fits 16 seq -> fits 32 ts ->
  view_ok (with_ts (with_header (with_header (with_header (blank_view body) 127 0 0) 127 0 1234) 127 seq 1234) ts).
Proof.
  intros Hs Ht. destruct (blank_view_ok body). by split.
Qed.

Definition header_view (seq ts : Z) (body : list Z) : view :=
  with_ts (with_header (with_header (with_header (blank_view body) 127 0 0) 127 0 1234) 127 seq 1234) ts.

Lemma buffer_written old body :
  zlen old = 32 -> write (old ++ body) 0 ProbationPacketHeader = Ok (encode (blank_view body) ++ []).
Proof.
  intros Hold. pose proof (write_over [] old body ProbationPacketHeader 0 eq_refl) as Hw. cbn [app] in Hw. rewrite Hw by done.
  unfold encode, header_bytes, ext_bytes. cbn [v_pad v_csrcs v_ext v_body blank_view]. by rewrite !app_nil_r.
Qed.

Lemma header_written body seq ts :
  zlen body = 1368 ->
  exists one two,
    (o ← Parse (encode (blank_view body) ++ []) MaxProbationPacketSize; p ← deref o;
     p ← SetPayloadType p RtpProbationCodecPayloadType; p ← SetSsrc p RtpProbationSsrc; p ← SetSequenceNumber p (u16 seq);
     SetTimestamp p ts) = Ok (obj (header_view (u16 seq) ts body) [] one two no_ids).
Proof.
  intros Hb. destruct (Parse_encode (blank_view body) [] (blank_view_ok body)) as (one & two & Hparse & _).
  assert (Hlen : zlen (encode (blank_view body)) = MaxProbationPacketSize).
  { rewrite zlen_encode, zlen_blank_ext. cbn [v_pad v_csrcs v_body blank_view]. change (zlen (@nil Z)) with 0.
    unfold MaxProbationPacketSize. lia. }
  rewrite Hlen in Hparse. exists one, two. rewrite Hparse. cbn [mbind res_bind deref].
  rewrite SetPayloadType_obj by apply blank_view_ok. cbn [mbind res_bind]. rewrite SetSsrc_obj. cbn [mbind res_bind].
  rewrite SetSequenceNumber_obj. cbn [mbind res_bind]. by rewrite SetTimestamp_obj.
Qed.

Lemma extensions_written body seq ts one two :
  zlen body = 1368 -> fits 16 seq -> fits 32 ts ->
  exists rest, SetExtensions (obj (header_view seq ts body) [] one two no_ids) 1 extensions =
    Ok (obj (probation_view seq ts 0 0 0 0 0 body) rest slots ∅ no_ids).
Proof.
  intros Hb Hs Ht.
  assert (Hset : set_view (header_view seq ts body) 1 extensions = probation_view seq ts 0 0 0 0 0 body)
    by (unfold set_view; by rewrite extensions_value).
  destruct (SetExtensions_obj (header_view seq ts body) [] one two no_ids 1 extensions) as (rest & ->);
    [by apply header_view_ok|by left|exact extensions_ok| |].
  { split; [exact extensions_small|intros id value [= <- <-]; by vm_compute|]. rewrite Hset, zlen_app, !zlen_encode.
    change (zlen (@nil Z)) with 0. cbn [v_csrcs v_ext v_body v_pad probation_view header_view with_ts with_header blank_view].
    rewrite zlen_probation_ext. pose proof (zlen_blank_ext body) as H20. cbn [v_ext blank_view] in H20. rewrite H20. lia. }
  exists rest. change (value_start (header_view seq ts body)) with 16. by rewrite Hset, extensions_slots_two.
Qed.

Lemma bind_eq {A B} (r : res A) (f : A -> res B) a : r = Ok a -> r ≫= f = f a.
Proof. by intros ->. Qed.

Lemma make_probing junk seq ts :
  zlen junk = 1400 -> fits 32 ts -> exists p, make junk seq ts = Ok p /\ probing p (u16 seq) ts 1368.
Proof.
  intros Hj Hts. destruct (split_at junk 32 ltac:(lia)) as (old & body & -> & Hold). rewrite zlen_app in Hj.
  assert (Hb : zlen body = 1368) by lia. pose proof (uwrap_fits 16 seq ltac:(lia)) as Hs.
  destruct (header_written body seq ts Hb) as (one & two & H).
  destruct (extensions_written body (u16 seq) ts one two Hb Hs Hts) as (rest & Hext).
  exists (set_ids (obj (probation_view (u16 seq) ts 0 0 0 0 0 body) rest slots ∅ no_ids) probation_ids). split.
  - unfold make. rewrite (bind_eq _ _ _ (buffer_written old body Hold)).
    do 5 (apply res_bind_ok in H as (? & E & H); rewrite (bind_eq _ _ _ E); clear E).
    by rewrite (bind_eq _ _ _ H), (bind_eq _ _ _ Hext).
  - split; [|done..]. exists 0, 0, 0, 0, 0, body, rest. split_and!; [done|exact zero_bytes|done|].
    rewrite zlen_app. pose proof (zlen_nonneg rest). lia.
Qed.

(** ** Probes *)

(** What a transport does for each probe of a size, at a time and with a transport-wide number. *)
Fixpoint probes (p : t) (l : list (Z * Z * Z)) : res (list t) :=
  match l with
  | [] => mret []
  | (size, ms, wide) :: l' =>
      p ← GetNextPacket p size;
      '(_, p) ← UpdateAbsSendTime p ms;
      '(_, p) ← UpdateTransportWideCc01 p wide;
      rest ← probes p l';
      mret (p :: rest)
  end.

(** What is seen of a packet: sequence number, timestamp, SSRC, payload type, size and transport-wide number. *)
Definition seen (p : t) : res (Z * Z * Z * Z * Z * option Z) :=
  seq ← GetSequenceNumber p; ts ← GetTimestamp p; ssrc ← GetSsrc p; pt ← GetPayloadType p; wide ← ReadTransportWideCc01 p;
  mret (seq, ts, ssrc, pt, GetSize p, wide).

Lemma probes_probing l : forall p seq ts n,
  probing p seq ts n ->
  exists ps, probes p l = Ok ps /\
    seen <$> ps = imap (fun k '(size, _, wide) =>
      Ok (u16 (seq + 1 + Z.of_nat k), u32 (ts + 20 * (1 + Z.of_nat k)), RtpProbationSsrc, RtpProbationCodecPayloadType,
          fitted size, Some (u16 wide))) l.
Proof.
  induction l as [|[[size ms] wide] l IH]; intros p seq ts n Hp; [by exists []|].
  destruct (GetNextPacket_probing p seq ts n size Hp) as (p1 & E1 & H1).
  destruct (UpdateAbsSendTime_probing _ _ _ _ ms H1) as (p2 & E2 & H2).
  destruct (UpdateTransportWideCc01_probing _ _ _ _ wide H2) as (p3 & E3 & H3 & Hw).
  destruct (IH _ _ _ _ H3) as (ps & Eps & Hps). exists (p3 :: ps). cbn [probes]. rewrite E1. cbn [mbind res_bind].
  rewrite E2. cbn [mbind res_bind]. rewrite E3. cbn [mbind res_bind]. rewrite Eps. split; [done|].
  cbn [fmap list_fmap imap]. rewrite Hps. f_equal.
  - destruct (probing_header _ _ _ _ H3) as (Hs & Ht & Hssrc & Hpt & Hsize). unfold seen.
    rewrite Hs, Ht, Hssrc, Hpt, Hw, Hsize. cbn [mbind res_bind mret res_ret].
    replace (32 + (fitted size - 32)) with (fitted size) by lia.
    replace (seq + 1 + Z.of_nat 0) with (seq + 1) by lia. by replace (ts + 20 * (1 + Z.of_nat 0)) with (ts + 20) by lia.
  - apply imap_ext. intros k [[size' ms'] wide'] _. cbn [compose].
    replace (u16 (u16 (seq + 1) + 1 + Z.of_nat k)) with (u16 (seq + 1 + Z.of_nat (S k))) by ulia.
    by replace (u32 (u32 (ts + 20) + 20 * (1 + Z.of_nat k))) with (u32 (ts + 20 * (1 + Z.of_nat (S k)))) by ulia.
Qed.

(** C21: The packets of a probation: whatever the new buffer holds and whatever sizes are asked for,
    the generator makes packets within its buffer, with consecutive sequence numbers and timestamps
    20 apart, the SSRC and the payload type of probation and the size that was asked for, between 32 and
    1400 and rounded up to a multiple of four; and the transport can set the transport-wide number of each. *)
Theorem probation_packets junk seq ts l :
  zlen junk = 1400 -> fits 32 ts ->
  exists p ps, make junk seq ts = Ok p /\ probes p l = Ok ps /\
    seen <$> ps = imap (fun k '(size, _, wide) =>
      Ok (u16 (seq + 1 + Z.of_nat k), u32 (ts + 20 * (1 + Z.of_nat k)), RtpProbationSsrc, RtpProbationCodecPayloadType,
          fitted size, Some (u16 wide))) l.
Proof.
  intros Hj Ht. destruct (make_probing junk seq ts Hj Ht) as (p & Hm & Hp).
  destruct (probes_probing l p _ _ _ Hp) as (ps & Hps & Hs). exists p, ps. split_and!; [done|done|]. rewrite Hs.
  apply imap_ext. intros k [[size ms] wide] _. by replace (u16 (u16 seq + 1 + Z.of_nat k)) with (u16 (seq + 1 + Z.of_nat k)) by ulia.
Qed.

Lemma probation_packets_witness :
  exists p ps, make (replicate 1400 170) 65534 4294967290 = Ok p /\
    probes p [(500, 7, 100); (10, 8, 101); (3000, 9, 102)] = Ok ps /\
    seen <$> ps = [Ok (65535, 14, 1234, 127, 500, Some 100); Ok (0, 34, 1234, 127, 32, Some 101); Ok (1, 54, 1234, 127, 1400, Some 102)].
Proof.
  destruct (probation_packets (replicate 1400 170) 65534 4294967290 [(500, 7, 100); (10, 8, 101); (3000, 9, 102)])
    as (p & ps & H1 & H2 & H3); [by vm_compute|by unfold fits|]. exists p, ps. split_and!; [exact H1|exact H2|]. rewrite H3. by vm_compute.
Defined.

End RtpProbationGenerator.
