(* ===== verification/CongestionControl.v ===== *)
(** * Congestion control

    Models [worker/include/RTC/BweType.hpp] and
    [worker/src/RTC/TransportCongestionControlServer.cpp], the part of a transport that tells the
    sender of the packets it receives what arrived and how much it may send.  The estimator of
    libwebrtc is not part of the model: what it is told and the RTCP packets handed to the listener
    are the calls of a trace, and what it answers ([OnRembServerAvailableBitrate]) is an
    operation.  The periodic timer is whether it runs; the clock is an argument. *)

From Stdlib Require Import SpecFloat.
From S2P Require Import Prelude StateMonad Utils SeqManager RtcpPacket RtcpFeedback RtcpTransport RtpPacket.

(** How the bandwidth is estimated. *)
Inductive BweType := TRANSPORT_CC | REMB.

#[global] Instance BweType_eq_dec : EqDecision BweType.
Proof. solve_decision. Defined.

(** ** The history of packet losses

    Both sides of the congestion control keep the last losses and their average, in which the
    newer ones have more weight. *)

Module PacketLoss.

Definition PacketLossHistogramLength : Z := 24.

Record t := { packetLossHistory : list spec_float; packetLoss : spec_float }.

Definition none : t := {| packetLossHistory := []; packetLoss := S754_zero false |}.

(** The loop over the history: the weight of the next entry, the sum of the weights, the sum of
    the weighted losses. *)
Fixpoint weighted (l : list spec_float) (weight samples : Z) (total : spec_float) : Z * spec_float :=
  match l with
  | [] => (samples, total)
  | x :: l' =>
      let weight := weight + 1 in
      weighted l' weight (samples + weight) (SFadd 53 1024 total (SFmul 53 1024 (Time.b64_of_Z weight) x))
  end.

Definition UpdatePacketLoss (s : t) (loss : spec_float) : t :=
  let history := packetLossHistory s in
  let history := (if zlen history =? PacketLossHistogramLength then drop 1 history else history) ++ [loss] in
  let '(samples, total) := weighted history 0 0 (S754_zero false) in
  {| packetLossHistory := history; packetLoss := SFdiv 53 1024 total (Time.b64_of_Z samples) |}.

(** What is added for a feedback packet: the share of its packets that were lost. *)
Definition lost (rs : list FeedbackRtpTransport.PacketResult) : Z :=
  zlen (filter (fun r => FeedbackRtpTransport.is_received r = false) rs).

Definition update_for (s : t) (expectedPackets : Z) (rs : list FeedbackRtpTransport.PacketResult) : t :=
  if 0 <? expectedPackets
  then UpdatePacketLoss s (SFdiv 53 1024 (Time.b64_of_Z (lost rs)) (Time.b64_of_Z expectedPackets))
  else s.

Lemma history_bounded s loss :
  zlen (packetLossHistory s) <= 24 -> zlen (packetLossHistory (UpdatePacketLoss s loss)) <= 24.
Proof.
  intros H. unfold UpdatePacketLoss, PacketLossHistogramLength. destruct (weighted _ _ _ _) as [n x].
  cbn [packetLossHistory]. rewrite zlen_app. change (zlen [loss]) with 1.
  destruct (Z.eqb_spec (zlen (packetLossHistory s)) 24); [rewrite zlen_drop|]; lia.
Qed.

End PacketLoss.

(** ** The receiving side *)

Module TransportCongestionControlServer.

Import FeedbackRtpTransport.

Definition TransportCcFeedbackSendInterval : Z := 100.
Definition LimitationRembInterval : Z := 1500.
Definition UnlimitedRembNumPackets : Z := 4.

Record State := {
  bweType : BweType;
  maxRtcpPacketLen : Z;
  feedbackSendPeriodicTimer : option bool;
  transportCcFeedbackPacket : option FeedbackRtpTransport.t;
  rembServer : bool;
  transportCcFeedbackPacketCount : Z;
  transportCcFeedbackSenderSsrc : Z;
  transportCcFeedbackMediaSsrc : Z;
  maxIncomingBitrate : Z;
  limitationRembSentAtMs : Z;
  unlimitedRembCounter : Z;
  losses : PacketLoss.t;
}.

(** What the server hands to its listener, and what it tells the estimator of libwebrtc. *)
Inductive Call :=
| SendTransportCc (p : FeedbackRtpTransport.t)
| SendRemb (p : FeedbackPsRemb.t)
| RembServerIncomingPacket (arrivalTimeMs payloadSize absSendTime : Z) (packet : RtpPacket.t).

Record World := { server : State; calls : list Call }.

Abbreviation M := (St World).

Definition on_server (f : State -> State) : M unit := change (fun w => {| server := f (server w); calls := calls w |}).
Definition log (c : Call) : M unit := change (fun w => {| server := server w; calls := calls w ++ [c] |}).

Definition set_packet (p : option FeedbackRtpTransport.t) (s : State) : State :=
  {| bweType := bweType s; maxRtcpPacketLen := maxRtcpPacketLen s; feedbackSendPeriodicTimer := feedbackSendPeriodicTimer s;
     transportCcFeedbackPacket := p; rembServer := rembServer s; transportCcFeedbackPacketCount := transportCcFeedbackPacketCount s;
     transportCcFeedbackSenderSsrc := transportCcFeedbackSenderSsrc s; transportCcFeedbackMediaSsrc := transportCcFeedbackMediaSsrc s;
     maxIncomingBitrate := maxIncomingBitrate s; limitationRembSentAtMs := limitationRembSentAtMs s;
     unlimitedRembCounter := unlimitedRembCounter s; losses := losses s |}.
Definition set_timer (b : option bool) (s : State) : State :=
  {| bweType := bweType s; maxRtcpPacketLen := maxRtcpPacketLen s; feedbackSendPeriodicTimer := b;
     transportCcFeedbackPacket := transportCcFeedbackPacket s; rembServer := rembServer s;
     transportCcFeedbackPacketCount := transportCcFeedbackPacketCount s;
     transportCcFeedbackSenderSsrc := transportCcFeedbackSenderSsrc s; transportCcFeedbackMediaSsrc := transportCcFeedbackMediaSsrc s;
     maxIncomingBitrate := maxIncomingBitrate s; limitationRembSentAtMs := limitationRembSentAtMs s;
     unlimitedRembCounter := unlimitedRembCounter s; losses := losses s |}.
Definition set_count (n : Z) (s : State) : State :=
  {| bweType := bweType s; maxRtcpPacketLen := maxRtcpPacketLen s; feedbackSendPeriodicTimer := feedbackSendPeriodicTimer s;
     transportCcFeedbackPacket := transportCcFeedbackPacket s; rembServer := rembServer s; transportCcFeedbackPacketCount := n;
     transportCcFeedbackSenderSsrc := transportCcFeedbackSenderSsrc s; transportCcFeedbackMediaSsrc := transportCcFeedbackMediaSsrc s;
     maxIncomingBitrate := maxIncomingBitrate s; limitationRembSentAtMs := limitationRembSentAtMs s;
     unlimitedRembCounter := unlimitedRembCounter s; losses := losses s |}.
Definition set_ssrcs (sender media : Z) (s : State) : State :=
  {| bweType := bweType s; maxRtcpPacketLen := maxRtcpPacketLen s; feedbackSendPeriodicTimer := feedbackSendPeriodicTimer s;
     transportCcFeedbackPacket := transportCcFeedbackPacket s; rembServer := rembServer s;
     transportCcFeedbackPacketCount := transportCcFeedbackPacketCount s;
     transportCcFeedbackSenderSsrc := sender; transportCcFeedbackMediaSsrc := media;
     maxIncomingBitrate := maxIncomingBitrate s; limitationRembSentAtMs := limitationRembSentAtMs s;
     unlimitedRembCounter := unlimitedRembCounter s; losses := losses s |}.
Definition set_remb (maximum sentAt counter : Z) (s : State) : State :=
  {| bweType := bweType s; maxRtcpPacketLen := maxRtcpPacketLen s; feedbackSendPeriodicTimer := feedbackSendPeriodicTimer s;
     transportCcFeedbackPacket := transportCcFeedbackPacket s; rembServer := rembServer s;
     transportCcFeedbackPacketCount := transportCcFeedbackPacketCount s;
     transportCcFeedbackSenderSsrc := transportCcFeedbackSenderSsrc s; transportCcFeedbackMediaSsrc := transportCcFeedbackMediaSsrc s;
     maxIncomingBitrate := maximum; limitationRembSentAtMs := sentAt; unlimitedRembCounter := counter; losses := losses s |}.
Definition set_losses (l : PacketLoss.t) (s : State) : State :=
  {| bweType := bweType s; maxRtcpPacketLen := maxRtcpPacketLen s; feedbackSendPeriodicTimer := feedbackSendPeriodicTimer s;
     transportCcFeedbackPacket := transportCcFeedbackPacket s; rembServer := rembServer s;
     transportCcFeedbackPacketCount := transportCcFeedbackPacketCount s;
     transportCcFeedbackSenderSsrc := transportCcFeedbackSenderSsrc s; transportCcFeedbackMediaSsrc := transportCcFeedbackMediaSsrc s;
     maxIncomingBitrate := maxIncomingBitrate s; limitationRembSentAtMs := limitationRembSentAtMs s;
     unlimitedRembCounter := unlimitedRembCounter s; losses := l |}.

(** [SetFeedbackPacketCount], [SetSenderSsrc] and [SetMediaSsrc] of a feedback packet. *)
Definition SetFeedbackPacketCount (n : Z) (p : FeedbackRtpTransport.t) : FeedbackRtpTransport.t :=
  {| senderSsrc := senderSsrc p; mediaSsrc := mediaSsrc p; baseSequenceNumber := baseSequenceNumber p;
     referenceTime := referenceTime p; latestSequenceNumber := latestSequenceNumber p; latestTimestamp := latestTimestamp p;
     packetStatusCount := packetStatusCount p; feedbackPacketCount := n; chunks := chunks p; deltas := deltas p;
     context := context p; deltasAndChunksSize := deltasAndChunksSize p; size := size p |}.
Definition SetSsrcs (sender media : Z) (p : FeedbackRtpTransport.t) : FeedbackRtpTransport.t :=
  {| senderSsrc := sender; mediaSsrc := media; baseSequenceNumber := baseSequenceNumber p;
     referenceTime := referenceTime p; latestSequenceNumber := latestSequenceNumber p; latestTimestamp := latestTimestamp p;
     packetStatusCount := packetStatusCount p; feedbackPacketCount := feedbackPacketCount p; chunks := chunks p; deltas := deltas p;
     context := context p; deltasAndChunksSize := deltasAndChunksSize p; size := size p |}.

(** ** Construction, connection *)

Definition make (ty : BweType) (maxLen : Z) : State :=
  let packet := match ty with
                | TRANSPORT_CC => Some (SetFeedbackPacketCount 0 (create 0 0))
                | REMB => None
                end in
  {| bweType := ty; maxRtcpPacketLen := maxLen;
     feedbackSendPeriodicTimer := match ty with TRANSPORT_CC => Some false | REMB => None end;
     transportCcFeedbackPacket := packet;
     rembServer := match ty with TRANSPORT_CC => false | REMB => true end;
     transportCcFeedbackPacketCount := 0; transportCcFeedbackSenderSsrc := 0; transportCcFeedbackMediaSsrc := 0;
     maxIncomingBitrate := 0; limitationRembSentAtMs := 0; unlimitedRembCounter := 0; losses := PacketLoss.none |}.

Definition TransportConnected : M unit :=
  s ← asks server;
  match bweType s with
  | TRANSPORT_CC => _ ← from_res (deref (feedbackSendPeriodicTimer s)); on_server (set_timer (Some true))
  | REMB => mret tt
  end.

Definition TransportDisconnected : M unit :=
  s ← asks server;
  match bweType s with
  | TRANSPORT_CC =>
      _ ← from_res (deref (feedbackSendPeriodicTimer s));
      _ ← on_server (set_timer (Some false));
      on_server (set_packet (Some (create 0 0)))
  | REMB => mret tt
  end.

(** ** Feedback *)

(** The feedback packet, which the operations of the transport-wide feedback dereference. *)
Definition packet : M FeedbackRtpTransport.t := s ← asks server; from_res (deref (transportCcFeedbackPacket s)).

Definition AddToFeedback (wideSeqNumber timestamp : Z) : M AddPacketResult :=
  s ← asks server;
  p ← packet;
  '(r, p') ← from_res (AddPacket p wideSeqNumber timestamp (maxRtcpPacketLen s));
  _ ← on_server (set_packet (Some p'));
  mret r.

Definition SendTransportCcFeedback : M unit :=
  p ← packet;
  p ← from_res (Finish p);
  _ ← on_server (set_packet (Some p));
  if negb (IsSerializable p) then mret tt
  else
    let latestWideSeqNumber := latestSequenceNumber p in
    let latestTimestamp_ := latestTimestamp p in
    _ ← log (SendTransportCc p);
    rs ← from_res (GetPacketResults p);
    _ ← on_server (fun s => set_losses (PacketLoss.update_for (losses s) (packetStatusCount p) rs) s);
    _ ← on_server (fun s => set_packet (Some (create (transportCcFeedbackSenderSsrc s) (transportCcFeedbackMediaSsrc s))) s);
    _ ← on_server (fun s => set_count (u8 (transportCcFeedbackPacketCount s + 1)) s);
    p ← packet;
    _ ← on_server (fun s => set_packet (Some (SetFeedbackPacketCount (transportCcFeedbackPacketCount s) p)) s);
    if 0 <? latestTimestamp_ then _ ← AddToFeedback latestWideSeqNumber latestTimestamp_; mret tt else mret tt.

(** The REMB packets that a server makes. *)
Definition remb_packet (bitrate : Z) (ssrcs : list Z) : FeedbackPsRemb.t :=
  {| FeedbackPsRemb.senderSsrc := 0; FeedbackPsRemb.mediaSsrc := 0; FeedbackPsRemb.bitrate := bitrate; FeedbackPsRemb.ssrcs := ssrcs |}.

(** A REMB packet is written into the RTCP buffer before the listener gets it. *)
Definition send_remb (p : FeedbackPsRemb.t) : M unit :=
  _ ← from_res (FeedbackPsRemb.Serialize p);
  log (SendRemb p).

Definition MaySendLimitationRembFeedback (nowMs : Z) : M unit :=
  s ← asks server;
  _ ← only ((0 <? unlimitedRembCounter s) && negb (maxIncomingBitrate s =? 0))
        (on_server (fun s => set_remb (maxIncomingBitrate s) (limitationRembSentAtMs s) 0 s));
  s ← asks server;
  if ((negb (bool_decide (bweType s = REMB)) && negb (maxIncomingBitrate s =? 0)) || (0 <? unlimitedRembCounter s)) &&
     ((LimitationRembInterval <? u64 (nowMs - limitationRembSentAtMs s)) || (unlimitedRembCounter s =? UnlimitedRembNumPackets))
  then
    _ ← send_remb (remb_packet (maxIncomingBitrate s) []);
    on_server (fun s => set_remb (maxIncomingBitrate s) nowMs
                          (if 0 <? unlimitedRembCounter s then unlimitedRembCounter s - 1 else unlimitedRembCounter s) s)
  else mret tt.

(** [SetMaxIncomingBitrate(bitrate)], at the time [nowMs]. *)
Definition SetMaxIncomingBitrate (bitrate nowMs : Z) : M unit :=
  s ← asks server;
  let previousMaxIncomingBitrate := maxIncomingBitrate s in
  _ ← on_server (fun s => set_remb bitrate (limitationRembSentAtMs s) (unlimitedRembCounter s) s);
  if negb (previousMaxIncomingBitrate =? 0) && (bitrate =? 0)
  then
    _ ← on_server (fun s => set_remb (maxIncomingBitrate s) (limitationRembSentAtMs s) UnlimitedRembNumPackets s);
    MaySendLimitationRembFeedback nowMs
  else mret tt.

(** What [IncomingPacket] does once the packet has been given to the feedback packet. *)
Definition feed_result (nowMs wideSeqNumber : Z) (result : AddPacketResult) : M unit :=
  match result with
  | SUCCESS => p ← packet; if IsFull p then SendTransportCcFeedback else mret tt
  | MAX_SIZE_EXCEEDED =>
      _ ← SendTransportCcFeedback;
      _ ← AddToFeedback wideSeqNumber nowMs;
      mret tt
  | FATAL =>
      on_server (fun s => set_packet (Some (SetFeedbackPacketCount (transportCcFeedbackPacketCount s)
        (create (transportCcFeedbackSenderSsrc s) (transportCcFeedbackMediaSsrc s)))) s)
  end.

(** What [IncomingPacket] does with the number of a packet, and its SSRC. *)
Definition feed (nowMs wideSeqNumber ssrc : Z) : M unit :=
  _ ← on_server (set_ssrcs 0 ssrc);
  p ← packet;
  _ ← on_server (set_packet (Some (SetSsrcs 0 ssrc p)));
  result ← AddToFeedback wideSeqNumber nowMs;
  feed_result nowMs wideSeqNumber result.

(** [IncomingPacket(nowMs, packet)]; the limitation reads the clock again, at [clock]. *)
Definition IncomingPacket (nowMs clock : Z) (packet : RtpPacket.t) : M unit :=
  s ← asks server;
  match bweType s with
  | TRANSPORT_CC =>
      wide ← from_res (RtpPacket.ReadTransportWideCc01 packet);
      match wide with
      | None => mret tt
      | Some wideSeqNumber =>
          ssrc ← from_res (RtpPacket.GetSsrc packet);
          _ ← feed nowMs wideSeqNumber ssrc;
          MaySendLimitationRembFeedback clock
      end
  | REMB =>
      absSendTime ← from_res (RtpPacket.ReadAbsSendTime packet);
      match absSendTime with
      | None => mret tt
      | Some absSendTime =>
          _ ← from_res (deref (if rembServer s then Some tt else None));
          log (RembServerIncomingPacket (i64 nowMs) (RtpPacket.payloadLength packet) absSendTime packet)
      end
  end.

Definition OnRembServerAvailableBitrate (ssrcs : list Z) (availableBitrate : Z) : M unit :=
  s ← asks server;
  let availableBitrate :=
    if negb (maxIncomingBitrate s =? 0) then Z.min availableBitrate (maxIncomingBitrate s) else availableBitrate in
  send_remb (remb_packet availableBitrate ssrcs).

(** [OnTimer] for the periodic timer. *)
Definition OnTimer : M unit := SendTransportCcFeedback.

End TransportCongestionControlServer.
