(* ===== verification/CongestionSpec.v ===== *)
(** * Congestion control: the feedback a sender gets

    Over every history of packets, timers and connections the receiving side of the congestion
    control ([CongestionControl]) fails no assertion; and the feedback packets it sends, taken
    together, report every number after the first packet once, as arrived or as missing: the limits
    of the size of a packet and the moments at which the timer fires do not show. *)

From Stdlib Require Import SpecFloat.
From S2P Require Import Prelude StateMonad Utils SeqManager RtcpPacket RtcpFeedback RtcpTransport RtpPacket CongestionControl.

Module CongestionSpec.

Import FeedbackRtpTransport TransportCongestionControlServer.

(** ** Specification *)

(** The newest of the packets: a packet that is not newer than it is ignored. *)
Definition newer (x y : Z * Z) : Z * Z := if IsSeqHigherThan 16 y.1 x.1 then y else x.
Definition newest (x : Z * Z) (l : list (Z * Z)) : Z * Z := foldl newer x l.

(** What a sender is told about the packets [l] that came after the number [prev]: for each
    number, the time of arrival (which is known modulo 2^29 ms) or that the packet is missing. *)
Fixpoint told (prev : Z) (l : list (Z * Z)) : list (Z * option Z) :=
  match l with
  | [] => []
  | (seq, ts) :: l' =>
      if IsSeqHigherThan 16 seq prev
      then ((fun i => (u16 (prev + i), None)) <$> seqZ 1 (gap prev seq)) ++ (seq, Some (ts mod 2 ^ 29)) :: told seq l'
      else told prev l'
  end.

(** What a feedback packet says. *)
Definition says (r : PacketResult) : Z * option Z :=
  (sequenceNumber r, if is_received r then Some (receivedAtMs r mod 2 ^ 29) else None).
Definition reported (p : FeedbackRtpTransport.t) : list (Z * option Z) :=
  match GetPacketResults p with Ok rs => says <$> rs | Fault _ => [] end.

(** What a sender reads in the bytes of a feedback packet. *)
Definition read_off (p : FeedbackRtpTransport.t) : option (list (Z * option Z)) :=
  match Serialize p with
  | Ok (_, out) => match Parse out with Ok (Some q) => Some (reported q) | _ => None end
  | Fault _ => None
  end.

(** Packets that come without a long pause or a large gap. *)
Fixpoint paced (x : Z * Z) (l : list (Z * Z)) : bool :=
  match l with
  | [] => true
  | y :: l' =>
      (negb (IsSeqHigherThan 16 y.1 x.1) ||
       ((gap x.1 y.1 <=? maxMissingPackets) && (y.2 - x.2 <=? 8128) && (x.2 - y.2 <=? 8191))) &&
      paced (newer x y) l'
  end.

(** ** Sequences of packets *)

Lemma newest_app x l m : newest x (l ++ m) = newest (newest x l) m.
Proof. apply foldl_app. Qed.

Lemma told_app l m : forall prev t, told prev (l ++ m) = told prev l ++ told (newest (prev, t) l).1 m.
Proof.
  induction l as [|[seq ts] l IH]; intros prev t; [done|]. cbn [app told].
  change (newest (prev, t) ((seq, ts) :: l)) with (newest (newer (prev, t) (seq, ts)) l).
  unfold newer. cbn [fst]. destruct (IsSeqHigherThan 16 seq prev); [|apply IH].
  by rewrite (IH seq ts), <- app_assoc.
Qed.

Lemma statuses_of_app l m : forall prev last,
  statuses_of prev last (l ++ m) =
  statuses_of prev last l ++ statuses_of (newest (prev, last) l).1 (newest (prev, last) l).2 m.
Proof.
  induction l as [|[seq ts] l IH]; intros prev last; [done|]. cbn [app statuses_of].
  change (newest (prev, last) ((seq, ts) :: l)) with (newest (newer (prev, last) (seq, ts)) l).
  unfold newer. cbn [fst]. destruct (IsSeqHigherThan 16 seq prev); [|apply IH].
  by rewrite IH, <- app_assoc.
Qed.

Lemma deltas_of_app l m : forall prev last,
  deltas_of prev last (l ++ m) =
  deltas_of prev last l ++ deltas_of (newest (prev, last) l).1 (newest (prev, last) l).2 m.
Proof.
  induction l as [|[seq ts] l IH]; intros prev last; [done|]. cbn [app deltas_of].
  change (newest (prev, last) ((seq, ts) :: l)) with (newest (newer (prev, last) (seq, ts)) l).
  unfold newer. cbn [fst]. destruct (IsSeqHigherThan 16 seq prev); [|apply IH].
  by rewrite IH.
Qed.

Lemma expected_told epoch l : (2 ^ 29 | epoch) -> forall prev last, says <$> expected epoch prev last l = told prev l.
Proof.
  intros [k Hk]. induction l as [|[seq ts] l IH]; intros prev last; [done|]. cbn [expected told].
  destruct (IsSeqHigherThan 16 seq prev); [|apply IH].
  rewrite fmap_app, <- list_fmap_compose. f_equal. cbn [fmap list_fmap]. f_equal; [|apply IH].
  unfold says. cbn [sequenceNumber is_received receivedAtMs]. do 2 f_equal. rewrite Hk.
  replace (ts - k * 2 ^ 29) with (ts + (- k) * 2 ^ 29) by lia. apply Z_mod_plus_full.
Qed.

(** Without a delta there is no status, and the newest packet is the first. *)
Lemma no_deltas l : forall prev last t,
  deltas_of prev last l = [] -> statuses_of prev last l = [] /\ newest (prev, t) l = (prev, t) /\ told prev l = [].
Proof.
  induction l as [|[seq ts] l IH]; intros prev last t; [done|]. cbn [deltas_of statuses_of told newest foldl].
  unfold newer. cbn [fst]. destruct (IsSeqHigherThan 16 seq prev); [done|]. apply IH.
Qed.

(** With one, the newest packet does not depend on the time of the first. *)
Lemma newest_later l : forall prev last t,
  deltas_of prev last l <> [] -> newest (prev, last) l = newest (prev, t) l.
Proof.
  induction l as [|[seq ts] l IH]; intros prev last t; [done|]. cbn [deltas_of newest foldl].
  unfold newer. cbn [fst]. destruct (IsSeqHigherThan 16 seq prev); [done|]. apply IH.
Qed.

Lemma newest_seq l : forall prev t t', (newest (prev, t) l).1 = (newest (prev, t') l).1.
Proof.
  induction l as [|[seq ts] l IH]; intros prev t t'; [done|]. cbn [newest foldl].
  unfold newer. cbn [fst]. destruct (IsSeqHigherThan 16 seq prev); [done|]. apply IH.
Qed.

Lemma newest_ok (P : Z * Z -> Prop) l : forall x, P x -> Forall P l -> P (newest x l).
Proof.
  induction l as [|y l IH]; intros x Hx Hl; [done|]. apply list.Forall_cons in Hl as [Hy Hl].
  apply IH; [|done]. unfold newer. by destruct (IsSeqHigherThan 16 y.1 x.1).
Qed.

Lemma paced_app x l m : paced x (l ++ m) = paced x l && paced (newest x l) m.
Proof.
  revert x. induction l as [|y l IH]; intros x; [done|]. cbn [app paced]. rewrite IH.
  apply andb_assoc.
Qed.

(** ** One feedback packet

    [tracks p x l]: the packet [p] has [x] as its base and reports the packets [l]. *)

(** Times of arrival that a feedback packet can be based on. *)
Definition arrival_ok (x : Z * Z) : Prop := packet_ok x /\ 64 <= x.2.

#[global] Instance arrival_ok_dec x : Decision (arrival_ok x).
Proof. unfold arrival_ok. apply _. Defined.

Definition floor64 (x : Z * Z) : Z * Z := (x.1, x.2 / 64 * 64).

(** The fields that are not about packets. *)
Definition head_ok (p : FeedbackRtpTransport.t) : Prop := fits 32 (senderSsrc p) /\ fits 32 (mediaSsrc p) /\ fits 8 (feedbackPacketCount p).

(** What the feedback packet under construction has: nothing yet, or a base and packets. *)
Abbreviation content := (option ((Z * Z) * list (Z * Z))).

Create HintDb settled.

Section Bounded.

(** A bound on the gaps between packets and the sizes of feedback packets. *)
Context (B : Z) (HB : 8191 <= B < 2 ^ 16).

(** A gap within the bound, if [y] is newer than [x]. *)
Definition within (x y : Z * Z) : Prop := IsSeqHigherThan 16 y.1 x.1 = true -> gap x.1 y.1 <= B.

Record tracks (p : FeedbackRtpTransport.t) (x : Z * Z) (l : list (Z * Z)) : Prop := {
  tr_building : building B p (statuses_of x.1 (x.2 / 64 * 64) l) (deltas_of x.1 (x.2 / 64 * 64) l);
  tr_base : baseSequenceNumber p = u16 (x.1 + 1) /\ referenceTime p = x.2 mod 2 ^ 29 / 64;
  tr_latest : (latestSequenceNumber p, latestTimestamp p) = newest (floor64 x) l;
  tr_ok : arrival_ok x /\ Forall arrival_ok l;
  tr_deltas : Forall (fun d => - maxPacketDelta <= d <= maxPacketDelta) (deltas_of x.1 (x.2 / 64 * 64) l);
  tr_head : head_ok p;
}.

Record fresh (p : FeedbackRtpTransport.t) : Prop := {
  fr_building : building B p [] [];
  fr_latest : latestTimestamp p = 0;
  fr_count : packetStatusCount p = 0;
  fr_head : head_ok p;
}.

Lemma arrivals_packets l : Forall arrival_ok l -> Forall packet_ok l.
Proof. intros H. eapply Forall_impl; [exact H|]. by intros x []. Qed.

Lemma floor64_time x : arrival_ok x -> time_ok (floor64 x).2 /\ (floor64 x).2 <> 0.
Proof.
  intros [(_ & Ht & _) H]. unfold time_ok in *. cbn. change (2 ^ 61) with 2305843009213693952 in *.
  Z.div_mod_to_equations. lia.
Qed.

Lemma tracks_time p x l : tracks p x l -> time_ok (latestTimestamp p) /\ latestTimestamp p <> 0.
Proof.
  intros [_ _ Hl [Hx Hls] _ _]. change (latestTimestamp p) with (latestSequenceNumber p, latestTimestamp p).2.
  rewrite Hl. apply (newest_ok (fun y => time_ok y.2 /\ y.2 <> 0)); [by apply floor64_time|].
  eapply Forall_impl; [exact Hls|]. intros y [(_ & ? & ?) _]. done.
Qed.

(** Setting the base of a fresh packet. *)
Lemma AddPacket_fresh p x maxLen :
  fresh p -> arrival_ok x -> AddPacket p x.1 x.2 maxLen = Ok (SUCCESS, set_base p x.1 x.2) /\ tracks (set_base p x.1 x.2) x [].
Proof.
  intros [Hb Hl Hc Hh] Hx. pose proof (floor64_time x Hx) as [Ht _]. split.
  - unfold AddPacket, IsFull. by rewrite Hc, Hl.
  - destruct Hb. split; [by split| | |by split|constructor|exact Hh].
    + split; [done|]. cbn [referenceTime set_base]. by rewrite land_reftime, Z.div_mul.
    + cbn. unfold floor64. f_equal. rewrite Z.shiftr_div_pow2 by lia. change (2 ^ 6) with 64. apply uwrap_id.
      unfold fits, time_ok in *. cbn in Ht. change (2 ^ 61) with 2305843009213693952 in *. pow2_consts. lia.
Qed.

(** A packet that is not full can be added to, and is left alone if there is no room. *)
Lemma AddPacket_total (p : FeedbackRtpTransport.t) (seq ts maxLen : Z) :
  IsFull p = false ->
  exists r p', AddPacket p seq ts maxLen = Ok (r, p') /\
    match r with
    | SUCCESS => True
    | MAX_SIZE_EXCEEDED => p' = p /\ maxLen < padded_size p (2 + 2)
    | FATAL => p' = p
    end.
Proof.
  intros Hfull. unfold AddPacket. rewrite Hfull. cbn [negb ms_assert mbind res_bind].
  destruct (latestTimestamp p =? 0); [by eexists _, _|].
  destruct (negb (IsSeqHigherThan 16 seq (latestSequenceNumber p))); [by eexists _, _|].
  destruct (maxMissingPackets <? _); [by eexists _, _|]. cbv zeta.
  destruct (_ || _); [by eexists _, _|].
  destruct (Z.ltb_spec maxLen (padded_size p (2 + 2))); by eexists _, _.
Qed.

Lemma tracks_seq p x l : tracks p x l -> latestSequenceNumber p = (newest x l).1.
Proof.
  intros [_ _ Hl _ _ _]. destruct x as [seq0 t0]. unfold floor64 in Hl. cbn [fst snd] in *.
  change (latestSequenceNumber p) with (latestSequenceNumber p, latestTimestamp p).1. rewrite Hl. apply newest_seq.
Qed.

(** Adding to a packet that has a base. *)
Lemma AddPacket_tracks p x l y maxLen :
  tracks p x l -> IsFull p = false -> arrival_ok y -> maxLen <= B -> within (newest x l) y ->
  exists r p', AddPacket p y.1 y.2 maxLen = Ok (r, p') /\
    match r with
    | SUCCESS => tracks p' x (l ++ [y]) /\ feedbackPacketCount p' = feedbackPacketCount p
    | MAX_SIZE_EXCEEDED => p' = p /\ maxLen < padded_size p (2 + 2)
    | FATAL => p' = p
    end.
Proof.
  intros Hp Hfull Hy Hmax Hgap. pose proof (tracks_time _ _ _ Hp) as [Ht Ht0].
  rewrite (surjective_pairing (newest x l)), <- (tracks_seq _ _ _ Hp) in Hgap. destruct Hp as [Hb Hbase Hl [Hx Hls] Hdb Hh].
  pose proof (proj1 (proj2 (proj1 Hy))) as Hty.
  pose proof (fun p' => AddPacket_ok B ltac:(lia) p y.1 y.2 maxLen p' _ _ Hb Ht0 Ht Hty Hmax) as Hadd.
  assert (Hsnoc : newest (floor64 x) (l ++ [y]) = newer (latestSequenceNumber p, latestTimestamp p) y).
  { by rewrite newest_app, <- Hl. }
  assert (Hst : statuses_of x.1 (x.2 / 64 * 64) (l ++ [y]) =
    statuses_of x.1 (x.2 / 64 * 64) l ++ statuses_of (latestSequenceNumber p) (latestTimestamp p) [y]).
  { rewrite statuses_of_app. change (x.1, x.2 / 64 * 64) with (floor64 x). by rewrite <- Hl. }
  assert (Hds : deltas_of x.1 (x.2 / 64 * 64) (l ++ [y]) =
    deltas_of x.1 (x.2 / 64 * 64) l ++ deltas_of (latestSequenceNumber p) (latestTimestamp p) [y]).
  { rewrite deltas_of_app. change (x.1, x.2 / 64 * 64) with (floor64 x). by rewrite <- Hl. }
  assert (Hok : arrival_ok x /\ Forall arrival_ok (l ++ [y])) by (split; [done|by apply Forall_app; split; [|constructor]]).
  destruct y as [seq ts]. cbn [fst snd] in *. cbn [statuses_of deltas_of] in Hst, Hds.
  unfold newer in Hsnoc. cbn [fst] in Hsnoc.
  destruct (AddPacket_total p seq ts maxLen Hfull) as (r & p' & E & Hr). exists r, p'. split; [done|].
  destruct r; [clear Hr|exact Hr|exact Hr].
  unfold within in Hgap. cbn [fst] in Hgap. destruct (IsSeqHigherThan 16 seq (latestSequenceNumber p)) eqn:Ehigh.
  - destruct (Hadd p' (Hgap eq_refl) E) as [A1 A2 A3 A4 A5 (A6 & A7 & A8)]. split; [|exact A8]. split; [| | |done| |].
    + rewrite Hst, Hds. exact A1.
    + destruct A5 as [-> ->]. exact Hbase.
    + by rewrite A3, A4, Hsnoc.
    + rewrite Hds. apply Forall_app. split; [done|by constructor].
    + unfold head_ok. by rewrite A6, A7, A8.
  - assert (p' = p) as ->.
    { revert E. unfold AddPacket. rewrite Hfull, (proj2 (Z.eqb_neq _ _) Ht0), Ehigh.
      cbn [negb ms_assert mbind res_bind mret res_ret]. by intros [= ->]. }
    split; [|done]. split; [|done|by rewrite Hl, Hsnoc|done|by rewrite Hds, app_nil_r|done]. rewrite Hst, Hds, !app_nil_r. exact Hb.
Qed.

(** The latest time of a packet is that of the newest arrival, at most 63 ms earlier. *)
Lemma tracks_newest p x l :
  tracks p x l ->
  latestSequenceNumber p = (newest x l).1 /\ (newest x l).2 - 63 <= latestTimestamp p <= (newest x l).2 /\
  (deltas_of x.1 (x.2 / 64 * 64) l <> [] -> latestTimestamp p = (newest x l).2).
Proof.
  intros Ht. split; [by apply tracks_seq|]. destruct Ht as [_ _ Hl _ _ _]. destruct x as [seq0 t0]. unfold floor64 in Hl. cbn [fst snd] in *.
  destruct (deltas_of seq0 (t0 / 64 * 64) l) eqn:Ed.
  - split; [|done]. destruct (no_deltas _ _ _ (t0 / 64 * 64) Ed) as (_ & Hn & _).
    destruct (no_deltas _ _ _ t0 Ed) as (_ & -> & _). rewrite Hn in Hl. injection Hl as _ ->.
    cbn. Z.div_mod_to_equations. lia.
  - rewrite <- Ed in *. assert (Hne : deltas_of seq0 (t0 / 64 * 64) l <> []) by congruence.
    rewrite (newest_later _ _ _ t0 Hne) in Hl. rewrite <- Hl. cbn. split; [lia|done].
Qed.

(** No packet of a paced sequence is fatal. *)
Lemma AddPacket_paced p x l y maxLen p' :
  tracks p x l -> IsFull p = false -> arrival_ok y -> paced (newest x l) [y] = true ->
  AddPacket p y.1 y.2 maxLen <> Ok (FATAL, p').
Proof.
  intros Hp Hfull Hy Hpace. destruct (tracks_newest _ _ _ Hp) as (Hs & Ht & _).
  pose proof (tracks_time _ _ _ Hp) as [Htok Ht0]. pose proof (proj1 (proj2 (proj1 Hy))) as Hty. destruct Hp as [_ _ _ [[Hx _] Hls] _ _].
  unfold AddPacket. rewrite Hfull, (proj2 (Z.eqb_neq _ _) Ht0). cbn [negb ms_assert mbind res_bind].
  cbn [paced] in Hpace. rewrite andb_true_r, <- Hs in Hpace.
  destruct (IsSeqHigherThan 16 y.1 (latestSequenceNumber p)); [cbn [negb orb] in *|done].
  rewrite !andb_true_iff, !Z.leb_le in Hpace. destruct Hpace as [[H1 H2] H3].
  destruct (Z.ltb_spec maxMissingPackets (y.1 - (latestSequenceNumber p + 1))).
  { assert (fits 16 y.1) as Hy16 by apply Hy. assert (fits 16 (newest x l).1) as Hl16 by (apply (newest_ok (fun z => fits 16 z.1)); [apply Hx|];
      eapply Forall_impl; [exact Hls|]; by intros z [[? _] _]). rewrite <- Hs in Hl16. unfold gap, maxMissingPackets in *. ulia. }
  cbv zeta.
  rewrite i64_small by (unfold time_ok in *; change (2 ^ 61) with 2305843009213693952 in *;
    change (2 ^ 63) with 9223372036854775808; lia).
  destruct (Z.ltb_spec maxPacketDelta ((y.2 - latestTimestamp p) * 4)); [unfold maxPacketDelta in *; lia|].
  destruct (Z.ltb_spec ((y.2 - latestTimestamp p) * 4) (-1 * maxPacketDelta)); [unfold maxPacketDelta in *; lia|].
  cbn [orb]. by destruct (maxLen <? _).
Qed.

Lemma zlen_told l : forall prev last, zlen (told prev l) = zlen (statuses_of prev last l).
Proof.
  induction l as [|[seq ts] l IH]; intros prev last; [done|]. cbn [told statuses_of]. destruct (IsSeqHigherThan 16 seq prev); [|apply IH].
  rewrite !zlen_app, !zlen_cons, (IH seq ts). unfold zlen. rewrite length_fmap, length_seqZ, length_replicate. done.
Qed.

(** A sender reads what the packet says, unless it has too many statuses for their 16-bit count. *)
Definition readable (p : FeedbackRtpTransport.t) : Prop := zlen (reported p) < 2 ^ 16 -> read_off p = Some (reported p).

(** What a feedback packet that is sent reports. *)
Lemma Finish_tracks p x l :
  tracks p x l ->
  exists p', Finish p = Ok p' /\ reported p' = told x.1 l /\ (B = 8191 -> readable p') /\ safe (GetPacketResults p') /\ same_head p p' /\
    IsSerializable p' = negb (bool_decide (deltas_of x.1 (x.2 / 64 * 64) l = [])) /\
    (deltas_of x.1 (x.2 / 64 * 64) l = [] -> p' = p).
Proof.
  intros [Hb [Hbase Href] Hl [[[Hx _] _] Hls] Hdb Hhead]. destruct (Finish_ok B ltac:(lia) _ _ _ Hb) as (p' & Hf & Hfin & Hh).
  assert (Hr : GetPacketResults p' = Ok (expected (x.2 / 2 ^ 29 * 2 ^ 29) x.1 (x.2 / 64 * 64) l)).
  { unfold GetPacketResults. destruct Hh. rewrite fill_chunks_eq, (f_deltas _ _ _ _ Hfin).
    change (chunks p' ≫= chunk_statuses) with (chunked p'). rewrite (f_statuses _ _ _ _ Hfin).
    rewrite head_base0, head_reftime0, Hbase, Href. apply results_from_base; [done|by apply arrivals_packets]. }
  assert (Hrep : reported p' = told x.1 l) by (unfold reported; rewrite Hr; apply expected_told; by exists (x.2 / 2 ^ 29)).
  exists p'. split_and!; [done|done| |by eexists|done| |].
  - intros -> Hlen. rewrite Hrep, (zlen_told l x.1 (x.2 / 64 * 64)) in Hlen.
    destruct (finished_roundtrip p' _ _ Hfin) as (out & q & H1 & _ & H2 & H3); [by apply deltas_match_of|done| | |].
    + pose proof (f_many _ _ _ _ Hfin). lia.
    + destruct Hh as [Eb Er _ _ [Es Em] Ef], Hhead as (Hs32 & Hm32 & Hf8).
      split; [by rewrite Es, Em|rewrite Eb, Hbase; by apply uwrap_fits|rewrite Er, Href|by rewrite Ef].
      unfold fits. change (2 ^ 29) with 536870912. pow2_consts. Z.div_mod_to_equations. lia.
    + unfold read_off. rewrite H1, H2. unfold reported. by rewrite (same_feedback_results p' q H3).
  - unfold IsSerializable. rewrite (f_deltas _ _ _ _ Hfin).
    destruct (deltas_of x.1 (x.2 / 64 * 64) l); [done|]. rewrite zlen_cons, bool_decide_false by done.
    apply Z.ltb_lt. pose proof (zlen_nonneg l0). lia.
  - intros Hd. destruct (no_deltas _ _ _ 0 Hd) as [Hst _]. rewrite Hst in Hb.
    pose proof (b_statuses _ _ _ _ Hb) as Hall. apply app_nil in Hall as [_ Hctx].
    unfold Finish, AddPendingChunks in Hf. rewrite Hctx in Hf. by injection Hf.
Qed.

(** A packet with nothing to report is neither full nor too large. *)
Lemma tracks_nothing p x l :
  tracks p x l -> deltas_of x.1 (x.2 / 64 * 64) l = [] -> packetStatusCount p = 0 /\ padded_size p (2 + 2) = 24.
Proof.
  intros [Hb _ _ _ _ _] Hd. destruct (no_deltas _ _ _ 0 Hd) as [Hst _]. rewrite Hst, Hd in Hb. destruct Hb as [Hall _ _ Hch _ Hc Hs _ _ _].
  apply app_nil in Hall as [Hchd _]. rewrite Hchd in Hc. split; [done|].
  assert (Hnil : chunks p = []).
  { destruct (chunks p) as [|c cs] eqn:Ec; [done|]. apply list.Forall_cons in Hch as [Hc0 _]. unfold chunked in Hchd.
    rewrite Ec in Hchd. apply app_nil in Hchd as [Hc1 _].
    destruct c as [st n|l0|l0]; cbn in Hc0, Hc1; [|done|by destruct Hc0; subst].
    destruct Hc0 as [_ Hn]. destruct (Z.to_nat n) eqn:En; [lia|done]. }
  unfold padded_size. by rewrite Hs, Hnil.
Qed.

(** One packet alone does not fill a feedback packet. *)
Lemma tracks_one p x y : tracks p x [y] -> IsFull p = false.
Proof.
  intros [Hb _ _ [[[Hx _] _] Hy] _ _]. apply list.Forall_singleton in Hy as [[Hy _] _].
  destruct Hb as [Hall _ _ _ _ Hc _ _ _ _]. unfold IsFull, maxPacketStatusCount.
  assert (Hlen : zlen (chunked p) <= 32768).
  { pose proof (f_equal zlen Hall) as Hz. unfold all_statuses in Hz. rewrite zlen_app in Hz.
    pose proof (zlen_nonneg (statuses (context p))) as Hn. destruct y as [seq ts]. cbn [statuses_of] in Hz.
    destruct (IsSeqHigherThan 16 seq x.1) eqn:E; [|change (zlen []) with 0 in Hz; lia].
    rewrite zlen_app, zlen_cons, zlen_replicate in Hz by (unfold gap; ulia). change (zlen []) with 0 in Hz.
    enough (gap x.1 seq <= 32767) by lia. revert E Hx Hy. clear. cbn [fst]. unfold IsSeqHigherThan, gap.
    change (MaxValue 16 / 2) with 32767. rewrite orb_true_iff, !andb_true_iff, !Z.ltb_lt, Z.leb_le. ulia. }
  pose proof (zlen_nonneg (chunked p)). rewrite Hc, uwrap_id by (unfold fits; lia). apply Z.leb_gt. lia.
Qed.

(** ** The server *)

Definition has_content (p : FeedbackRtpTransport.t) (g : content) : Prop :=
  match g with None => fresh p | Some (x, l) => tracks p x l end.

(** The packets that are still to be reported. *)
Definition pending (g : content) : list (Z * option Z) :=
  match g with None => [] | Some (x, l) => told x.1 l end.

(** Runs the operations of a server as far as they go. *)
Ltac run_server :=
  cbv beta iota zeta delta [mbind mret St_bind St_ret res_bind res_ret asks from_res deref on_server change log only packet AddToFeedback];
  cbn [server calls transportCcFeedbackPacket set_packet set_losses set_count set_timer set_ssrcs set_remb].

Section Serving.

Context (maxLen : Z) (Hmax : 24 <= maxLen <= B).

(** What holds of the rest of a server of transport-wide feedback. *)
Record settled (s : State) : Prop := {
  st_type : bweType s = TRANSPORT_CC;
  st_len : maxRtcpPacketLen s = maxLen;
  st_timer : is_Some (feedbackSendPeriodicTimer s);
  st_bitrate : fits 32 (maxIncomingBitrate s);
  st_losses : zlen (PacketLoss.packetLossHistory (losses s)) <= 24;
  st_ssrcs : fits 32 (transportCcFeedbackSenderSsrc s) /\ fits 32 (transportCcFeedbackMediaSsrc s);
  st_count : fits 8 (transportCcFeedbackPacketCount s);
}.

Record serving (w : World) (c : Z) (g : content) : Prop := {
  sv_settled : settled (server w);
  sv_packet : exists p, transportCcFeedbackPacket (server w) = Some p /\ IsFull p = false /\
    feedbackPacketCount p = c /\ has_content p g;
}.

(** The feedback packets among the calls. *)
Definition feedbacks (l : list Call) : list FeedbackRtpTransport.t :=
  omap (fun c => match c with SendTransportCc p => Some p | _ => None end) l.

Lemma feedbacks_app l m : feedbacks (l ++ m) = feedbacks l ++ feedbacks m.
Proof. apply omap_app. Qed.

Lemma settled_packet s q : settled s -> settled (set_packet q s).
Proof. intros []. by split. Qed.

Lemma settled_count s n : settled s -> settled (set_count (u8 n) s).
Proof. intros []. split; try done. by apply uwrap_fits. Qed.

Lemma settled_ssrcs s media : settled s -> fits 32 media -> settled (set_ssrcs 0 media s).
Proof. intros [] ?. by split. Qed.

Lemma settled_update s n rs : settled s -> settled (set_losses (PacketLoss.update_for (losses s) n rs) s).
Proof.
  intros []. split; try done. cbn [losses set_losses]. unfold PacketLoss.update_for.
  destruct (0 <? n); [by apply PacketLoss.history_bounded|done].
Qed.

#[local] Hint Resolve settled_packet settled_count settled_ssrcs settled_update : settled.

Lemma created_fresh sender media n :
  fits 32 sender -> fits 32 media -> fits 8 n -> fresh (SetFeedbackPacketCount n (create sender media)).
Proof. intros. split; [|done|done|done]. split; try done. change (zlen []) with 0. lia. Qed.

(** Sending what there is to report: the next packet starts from the newest one. *)
Lemma SendTransportCcFeedback_ok w p x l :
  settled (server w) -> transportCcFeedbackPacket (server w) = Some p -> tracks p x l ->
  if bool_decide (deltas_of x.1 (x.2 / 64 * 64) l = [])
  then SendTransportCcFeedback w = Ok (tt, {| server := set_packet (Some p) (server w); calls := calls w |})
  else exists p' w', SendTransportCcFeedback w = Ok (tt, w') /\ calls w' = calls w ++ [SendTransportCc p'] /\
    reported p' = told x.1 l /\ (B = 8191 -> readable p') /\ feedbackPacketCount p' = feedbackPacketCount p /\
    transportCcFeedbackPacketCount (server w') = u8 (transportCcFeedbackPacketCount (server w) + 1) /\
    serving w' (transportCcFeedbackPacketCount (server w')) (Some (newest x l, [])).
Proof.
  intros Hs Hp Ht. destruct (Finish_tracks p x l Ht) as (p' & Hf & Hrep & Hread & [rs Hrs] & Hh & Hser & Hsame).
  unfold SendTransportCcFeedback. run_server. rewrite Hp. run_server. rewrite Hf. run_server. rewrite Hser. case_bool_decide as Hd; cbn [negb].
  { by rewrite (Hsame Hd). }
  destruct (tracks_newest _ _ _ Ht) as (_ & _ & Hlast). specialize (Hlast Hd). destruct Hh as [_ _ Hlseq Hltime _ Hfb].
  rewrite Hrs. run_server. rewrite Hltime, Hlast, Hlseq, (proj1 (tracks_newest _ _ _ Ht)).
  assert (Hx : arrival_ok (newest x l)) by (apply newest_ok; apply (tr_ok _ _ _ Ht)).
  rewrite (proj2 (Z.ltb_lt 0 (newest x l).2)) by (destruct Hx; lia). run_server.
  match goal with |- context [AddPacket ?q _ _ ?n] => change n with (maxRtcpPacketLen (server w)); set (q1 := q) end.
  rewrite (st_len _ Hs).
  destruct (AddPacket_fresh q1 (newest x l) maxLen) as [-> Htr]; [by apply created_fresh; [apply (st_ssrcs _ Hs)..|apply uwrap_fits]|done|]. run_server.
  exists p'. eexists. split; [reflexivity|]. cbn [server calls]. split_and!; [done|done|done|by rewrite Hfb|done|].
  split; [eauto 8 with settled|]. eexists. split; [reflexivity|]. by split_and!.
Qed.

(** The newest packet that is known. *)
Definition latest (g : content) : option (Z * Z) := (fun '(x, l) => newest x l) <$> g.

(** The counts of feedback packets, from [c] on. *)
Definition numbered (c : Z) (sent : list FeedbackRtpTransport.t) : Prop :=
  feedbackPacketCount <$> sent = (fun i => u8 (c + i)) <$> seqZ 0 (zlen sent).

Lemma numbered_app c l m : numbered c l -> numbered (c + zlen l) m -> numbered c (l ++ m).
Proof.
  unfold numbered. intros Hl Hm. rewrite fmap_app, Hl, Hm, zlen_app, seqZ_app by apply zlen_nonneg.
  rewrite fmap_app. f_equal. rewrite (Z.add_comm 0), <- (fmap_add_seqZ (zlen l) 0), <- list_fmap_compose. apply list_fmap_ext. intros _ i _. cbn. f_equal. lia.
Qed.

Lemma numbered_mod c l : numbered (u8 c) l -> numbered c l.
Proof. unfold numbered. intros ->. apply list_fmap_ext. intros _ i _. ulia. Qed.

(** From [w] to [w'] the feedback packets [sent] were sent; their counts are consecutive, if the
    packet under construction had the next count. *)
Record moved (w w' : World) (c c' : Z) (sent : list FeedbackRtpTransport.t) : Prop := {
  mv_calls : feedbacks (calls w') = feedbacks (calls w) ++ sent;
  mv_counts : c = transportCcFeedbackPacketCount (server w) -> fits 8 c ->
    c' = transportCcFeedbackPacketCount (server w') /\ c' = u8 (c + zlen sent) /\ numbered c sent;
  mv_readable : B = 8191 -> Forall readable sent;
}.

Lemma moved_none w w' c :
  feedbacks (calls w') = feedbacks (calls w) ->
  transportCcFeedbackPacketCount (server w') = transportCcFeedbackPacketCount (server w) -> moved w w' c c [].
Proof.
  intros H1 H2. split; [by rewrite app_nil_r| |done]. intros H3 Hc. split_and!; [congruence| |done].
  change (zlen []) with 0. by rewrite Z.add_0_r, uwrap_id.
Qed.

Lemma moved_one w w' p :
  (B = 8191 -> readable p) ->
  calls w' = calls w ++ [SendTransportCc p] ->
  transportCcFeedbackPacketCount (server w') = u8 (transportCcFeedbackPacketCount (server w) + 1) ->
  moved w w' (feedbackPacketCount p) (transportCcFeedbackPacketCount (server w')) [p].
Proof.
  intros H0 H1 H2. split; [by rewrite H1, feedbacks_app| |intros HB'; constructor; [by apply H0|constructor]]. intros H3 Hc. split_and!; [done|change (zlen [p]) with 1; congruence|].
  unfold numbered. change (zlen [p]) with 1. change (seqZ 0 1) with [0]. cbn [fmap list_fmap]. by rewrite Z.add_0_r, uwrap_id.
Qed.

(** Whatever the feedback packet has, sending it is safe; what was pending is sent or still pending. *)
Lemma Send_serving w c g :
  serving w c g ->
  exists w' c' g' sent, SendTransportCcFeedback w = Ok (tt, w') /\ serving w' c' g' /\ moved w w' c c' sent /\
    concat (reported <$> sent) ++ pending g' = pending g /\ latest g' = latest g /\ (g = None -> sent = []).
Proof.
  intros [Hs (p & Hp & Hfull & Hc & Hg)]. destruct g as [[x l]|]; cbn [has_content] in Hg.
  - pose proof (SendTransportCcFeedback_ok w p x l Hs Hp Hg) as Hsend. case_bool_decide as Hd.
    + eexists _, c, (Some (x, l)), []. split; [exact Hsend|]. split_and!; [|by apply moved_none|done|done|done].
      split; [eauto with settled|]. eexists. by split_and!.
    + destruct Hsend as (p' & w' & Hw' & Hcalls & Hrep & Hread & Hfb & Hcnt & Hsv).
      exists w', (transportCcFeedbackPacketCount (server w')), (Some (newest x l, [])), [p'].
      split_and!; [done|done| | |done|done].
      * rewrite <- Hc, <- Hfb. by apply moved_one.
      * cbn. by rewrite Hrep, !app_nil_r.
  - exists {| server := set_packet (Some p) (server w); calls := calls w |}, c, None, []. destruct Hg as [Hb Hl0 Hc0 Hh0].
    assert (Hf : Finish p = Ok p).
    { pose proof (b_statuses _ _ _ _ Hb) as Hall. apply app_nil in Hall as [_ Hctx].
      unfold Finish, AddPendingChunks. by rewrite Hctx. }
    split_and!; [|split; [eauto with settled|eexists; by split_and!]|by apply moved_none|done|done|done].
    unfold SendTransportCcFeedback. run_server. rewrite Hp. run_server. rewrite Hf. run_server.
    unfold IsSerializable. by rewrite (b_deltas _ _ _ _ Hb).
Qed.

Lemma moved_reset w w' c :
  calls w' = calls w -> transportCcFeedbackPacketCount (server w') = transportCcFeedbackPacketCount (server w) ->
  moved w w' c (transportCcFeedbackPacketCount (server w')) [].
Proof.
  intros H1 H2. split; [by rewrite app_nil_r, H1| |done]. intros H3 Hc. split_and!; [done| |done].
  change (zlen []) with 0. rewrite Z.add_0_r, uwrap_id by done. congruence.
Qed.

Lemma has_content_ssrcs p g media : fits 32 media -> has_content p g -> has_content (SetSsrcs 0 media p) g.
Proof.
  intros Hm. destruct g as [[x l]|]; [intros [Hb Hbase Hl Hok Hd (_ & _ & Hf)]|intros [Hb Hl Hc (_ & _ & Hf)]]; (split; [by destruct Hb|done..]).
Qed.

Lemma AddToFeedback_eq w q seq ts r q' :
  settled (server w) -> transportCcFeedbackPacket (server w) = Some q -> AddPacket q seq ts maxLen = Ok (r, q') ->
  AddToFeedback seq ts w = Ok (r, {| server := set_packet (Some q') (server w); calls := calls w |}).
Proof. intros Hs Hp Ha. run_server. rewrite Hp. run_server. by rewrite (st_len _ Hs), Ha. Qed.

(** What becomes of a packet that arrives: if it comes in time, it is reported or pending. *)
Definition arrived (g : content) (y : Z * Z) (sent : list FeedbackRtpTransport.t) (g' : content) : Prop :=
  match g with
  | None => sent = [] /\ g' = Some (y, [])
  | Some (x, l) => paced (newest x l) [y] = true ->
      concat (reported <$> sent) ++ pending g' = told x.1 (l ++ [y]) /\ latest g' = Some (newest x (l ++ [y]))
  end.

(** The packet [y] has been added, and the feedback packet is sent if it is full. *)
Lemma added_serving w q x l c :
  settled (server w) -> transportCcFeedbackPacket (server w) = Some q -> tracks q x l -> feedbackPacketCount q = c ->
  exists w' c' g' sent, (p ← packet; if IsFull p then SendTransportCcFeedback else mret tt) w = Ok (tt, w') /\
    serving w' c' g' /\ moved w w' c c' sent /\
    concat (reported <$> sent) ++ pending g' = told x.1 l /\ latest g' = Some (newest x l).
Proof.
  intros Hs Hp Ht Hc. destruct (IsFull q) eqn:Efull.
  - pose proof (SendTransportCcFeedback_ok w q x l Hs Hp Ht) as Hsend. case_bool_decide as Hd.
    { destruct (tracks_nothing _ _ _ Ht Hd) as [H0 _]. unfold IsFull in Efull. by rewrite H0 in Efull. }
    destruct Hsend as (p' & w' & Hw' & Hcalls & Hrep & Hread & Hfb & Hcnt & Hsv).
    exists w', (transportCcFeedbackPacketCount (server w')), (Some (newest x l, [])), [p'].
    split_and!; [|done| | |done].
    + run_server. rewrite Hp. run_server. by rewrite Efull.
    + rewrite <- Hc, <- Hfb. by apply moved_one.
    + cbn. by rewrite Hrep, !app_nil_r.
  - exists w, c, (Some (x, l)), []. split_and!; [|split; [done|by exists q]|by apply moved_none|done|done].
    run_server. rewrite Hp. run_server. by rewrite Efull.
Qed.

(** The feedback packet was too large for [y]: it is sent, and [y] added to the next one. *)
Lemma too_large_serving w q x l y c :
  settled (server w) -> transportCcFeedbackPacket (server w) = Some q -> tracks q x l -> feedbackPacketCount q = c ->
  maxLen < padded_size q (2 + 2) -> arrival_ok y -> within (newest x l) y ->
  exists w' c' g' sent,
    (_ ← SendTransportCcFeedback; _ ← AddToFeedback y.1 y.2; mret tt) w = Ok (tt, w') /\
    serving w' c' g' /\ moved w w' c c' sent /\ arrived (Some (x, l)) y sent g'.
Proof.
  intros Hs Hp Ht Hc Hbig Hy Hgap. pose proof (SendTransportCcFeedback_ok w q x l Hs Hp Ht) as Hsend. case_bool_decide as Hd.
  { destruct (tracks_nothing _ _ _ Ht Hd) as [_ H24]. lia. }
  destruct Hsend as (p' & w1 & Hw1 & Hcalls & Hrep & Hread & Hfb & Hcnt & [Hs1 (p1 & Hp1 & Hfull1 & Hc1 & Ht1)]).
  cbn [has_content] in Ht1. destruct (AddPacket_tracks p1 _ [] y maxLen Ht1 Hfull1 Hy ltac:(lia) Hgap) as (r & p2 & Ha & Hr).
  pose proof (AddToFeedback_eq w1 p1 y.1 y.2 r p2 Hs1 Hp1 Ha) as Hadd.
  exists {| server := set_packet (Some p2) (server w1); calls := calls w1 |}, (transportCcFeedbackPacketCount (server w1)),
    (match r with SUCCESS => Some (newest x l, [y]) | _ => Some (newest x l, []) end), [p'].
  split; [|split; [split; [eauto with settled|exists p2]|split]].
  - unfold mbind, St_bind. by rewrite Hw1, Hadd.
  - split; [done|]. destruct r.
    + destruct Hr as [Hr Hr']. split_and!; [by eapply tracks_one|congruence|done].
    + destruct Hr as [-> Hr]. by destruct (tracks_nothing _ _ _ Ht1 eq_refl) as [_ H24]; lia.
    + by subst p2.
  - rewrite <- Hc, <- Hfb. exact (moved_one w {| server := set_packet (Some p2) (server w1); calls := calls w1 |} p' Hread Hcalls Hcnt).
  - intros Hpace. destruct r.
    + cbn [pending latest fmap option_fmap option_map]. rewrite (told_app l [y] x.1 x.2). cbn [concat fmap list_fmap].
      rewrite Hrep, app_nil_r. split; [|by rewrite newest_app]. by destruct x.
    + destruct Hr as [_ Hr]. by destruct (tracks_nothing _ _ _ Ht1 eq_refl) as [_ H24]; lia.
    + by destruct (AddPacket_paced p1 _ [] y maxLen p2 Ht1 Hfull1 Hy Hpace).
Qed.

Lemma feed_serving w c g y ssrc :
  serving w c g -> arrival_ok y -> fits 32 ssrc -> (forall x, latest g = Some x -> within x y) ->
  exists w' c' g' sent, feed y.2 y.1 ssrc w = Ok (tt, w') /\ serving w' c' g' /\ moved w w' c c' sent /\ arrived g y sent g'.
Proof.
  intros [Hs (p & Hp & Hfull & Hc & Hg)] Hy Hssrc Hgap.
  apply (has_content_ssrcs _ _ ssrc Hssrc) in Hg. set (q := SetSsrcs 0 ssrc p) in *.
  set (w1 := {| server := set_packet (Some q) (set_ssrcs 0 ssrc (server w)); calls := calls w |}).
  assert (Hs1 : settled (server w1)) by (unfold w1; cbn [server]; eauto with settled).
  assert (Hfeed : forall r q', AddPacket q y.1 y.2 maxLen = Ok (r, q') ->
    feed y.2 y.1 ssrc w = feed_result y.2 y.1 r {| server := set_packet (Some q') (server w1); calls := calls w |}).
  { intros r q' Ha. pose proof (AddToFeedback_eq w1 q y.1 y.2 r q' Hs1 eq_refl Ha) as Hadd. unfold feed.
    rewrite (run_bind _ _ _ tt {| server := set_ssrcs 0 ssrc (server w); calls := calls w |}) by done.
    rewrite (run_bind packet _ _ p {| server := set_ssrcs 0 ssrc (server w); calls := calls w |}) by (run_server; by rewrite Hp).
    rewrite (run_bind _ _ _ tt w1) by done. by rewrite (run_bind _ _ _ _ _ Hadd). }
  assert (Hc1 : feedbackPacketCount q = c) by done.
  destruct g as [[x l]|]; cbn [has_content] in Hg.
  - destruct (AddPacket_tracks q x l y maxLen Hg Hfull Hy ltac:(lia) (Hgap _ eq_refl)) as (r & q' & Ha & Hr). rewrite (Hfeed _ _ Ha).
    set (w2 := {| server := set_packet (Some q') (server w1); calls := calls w |}) in *.
    assert (Hs2 : settled (server w2)) by (unfold w2; cbn [server]; eauto with settled).
    destruct r; cbn [feed_result].
    + destruct Hr as [Ht Hcnt]. destruct (added_serving w2 q' x (l ++ [y]) c Hs2 eq_refl Ht ltac:(congruence))
        as (w' & c' & g' & sent & Hrun & Hsv & Hmv & Hrep & Hl). exists w', c', g', sent. split_and!; [done|done| |done].
      destruct Hmv. by split.
    + destruct Hr as [-> Hbig]. destruct (too_large_serving w2 q x l y c Hs2 eq_refl Hg Hc1 Hbig Hy (Hgap _ eq_refl))
        as (w' & c' & g' & sent & Hrun & Hsv & Hmv & Harr). exists w', c', g', sent. split_and!; [done|done| |done].
      destruct Hmv. by split.
    + subst q'. eexists _, _, None, []. split; [reflexivity|]. split_and!; [|by apply moved_reset|].
      * split; [cbn [server]; eauto 8 with settled|]. eexists. split; [reflexivity|]. split_and!; [done|done|by apply created_fresh; [..|apply (st_count _ Hs1)]].
      * intros Hpace. by destruct (AddPacket_paced q x l y maxLen q Hg Hfull Hy Hpace).
  - destruct (AddPacket_fresh q y maxLen Hg Hy) as [Ha Ht]. rewrite (Hfeed _ _ Ha).
    exists {| server := set_packet (Some (set_base q y.1 y.2)) (server w1); calls := calls w |}, c, (Some (y, [])), [].
    split_and!; [|split; [cbn [server]; eauto with settled|eexists; by split_and!]|by apply moved_none|done].
    cbn [feed_result]. run_server. change (IsFull (set_base q y.1 y.2)) with (IsFull p). by rewrite Hfull.
Qed.

(** A limitation sends a REMB packet at most, and leaves the feedback alone. *)
Lemma MaySendLimitationRembFeedback_ok w c g now :
  serving w c g -> exists w', MaySendLimitationRembFeedback now w = Ok (tt, w') /\ serving w' c g /\ moved w w' c c [].
Proof.
  intros [Hs Hp].
  assert (Hser : exists b, FeedbackPsRemb.Serialize (remb_packet (maxIncomingBitrate (server w)) []) = Ok b).
  { destruct (normalize_64 18 (maxIncomingBitrate (server w)) ltac:(lia)) as (k & Hn & _).
    { pose proof (st_bitrate _ Hs). unfold fits in *. pow2_consts. lia. }
    unfold FeedbackPsRemb.Serialize. cbn [remb_packet FeedbackPsRemb.bitrate].
    change 0x3FFFF with (2 ^ 18 - 1). rewrite Hn. cbn. by eexists. }
  destruct Hser as [b Hb]. unfold MaySendLimitationRembFeedback, send_remb. destruct w as [s cs]. cbn [server] in *.
  assert (Hset : forall a n, settled (set_remb (maxIncomingBitrate s) a n s)) by (intros; by destruct Hs; split).
  destruct ((0 <? unlimitedRembCounter s) && negb (maxIncomingBitrate s =? 0)) eqn:E1; run_server; rewrite E1; run_server;
    cbn [bweType maxIncomingBitrate limitationRembSentAtMs unlimitedRembCounter set_remb];
    match goal with |- context [if ?a && ?b then _ else _] => destruct (a && b) end; run_server;
    cbn [maxIncomingBitrate set_remb]; rewrite ?Hb; run_server; eexists; (split; [reflexivity|]);
    (split; [split; [apply Hset || exact Hs|exact Hp]|apply moved_none; [|done]]); cbn [calls];
    rewrite ?feedbacks_app, ?app_nil_r; done.
Qed.

End Serving.

(** ** Histories *)

Inductive Event :=
| Arrival (nowMs clock : Z) (packet : RtpPacket.t)
| Timer
| SetMaximum (bitrate nowMs : Z)
| Connected
| Disconnected.

Definition step (e : Event) : M unit :=
  match e with
  | Arrival nowMs clock packet => IncomingPacket nowMs clock packet
  | Timer => OnTimer
  | SetMaximum bitrate nowMs => SetMaxIncomingBitrate bitrate nowMs
  | Connected => TransportConnected
  | Disconnected => TransportDisconnected
  end.

Definition start (maxLen : Z) : World := {| server := make TRANSPORT_CC maxLen; calls := [] |}.

(** The number and the time of a packet. *)
Definition arrival (e : Event) : option (Z * Z) :=
  match e with
  | Arrival nowMs _ packet =>
      match RtpPacket.ReadTransportWideCc01 packet with Ok (Some n) => Some (n, nowMs) | _ => None end
  | _ => None
  end.

(** Packets can be read, the clock is past its first 64 ms, and bitrates have 32 bits. *)
Definition event_ok (e : Event) : bool :=
  match e with
  | Arrival nowMs _ packet =>
      match RtpPacket.ReadTransportWideCc01 packet, RtpPacket.GetSsrc packet with
      | Ok None, _ => true
      | Ok (Some n), Ok ssrc => bool_decide (arrival_ok (n, nowMs)) && bool_decide (fits 32 ssrc)
      | _, _ => false
      end
  | SetMaximum bitrate _ => bool_decide (fits 32 bitrate)
  | _ => true
  end.

Lemma moved_after w w1 w2 c c1 c2 sent :
  moved w w1 c c1 sent -> moved w1 w2 c1 c2 [] -> moved w w2 c c2 sent.
Proof.
  intros [H1 H2 Hr] [H3 H4 _]. split; [by rewrite H3, H1, app_nil_r| |exact Hr]. intros Hc Hfit.
  destruct (H2 Hc Hfit) as (H5 & H6 & H7). destruct (H4 H5) as (H8 & H9 & _); [rewrite H6; by apply uwrap_fits|].
  split_and!; [done| |done]. rewrite H9, H6. change (zlen []) with 0. ulia.
Qed.

(** What an event does to the feedback under construction and to what is pending. *)
Definition follows (e : Event) (g : content) (sent : list FeedbackRtpTransport.t) (g' : content) : Prop :=
  match arrival e with
  | Some y => arrived g y sent g'
  | None => concat (reported <$> sent) ++ pending g' = pending g /\ latest g' = latest g /\ (g = None -> sent = [])
  end.

Lemma arrival_serving maxLen w c g nowMs clock packet :
  24 <= maxLen <= B -> serving maxLen w c g -> event_ok (Arrival nowMs clock packet) = true ->
  (forall x y, latest g = Some x -> arrival (Arrival nowMs clock packet) = Some y -> within x y) ->
  exists w' c' g' sent, IncomingPacket nowMs clock packet w = Ok (tt, w') /\ serving maxLen w' c' g' /\
    moved w w' c c' sent /\ follows (Arrival nowMs clock packet) g sent g'.
Proof.
  intros Hmax Hsv He Hgap. unfold follows. cbn [event_ok arrival] in *. unfold IncomingPacket.
  rewrite (run_bind _ _ _ (server w) w) by done. rewrite (st_type _ _ (sv_settled _ _ _ _ Hsv)).
  destruct (RtpPacket.ReadTransportWideCc01 packet) as [[n|]|]; [| |done].
  - destruct (RtpPacket.GetSsrc packet) as [ssrc|]; [|done]. apply andb_true_iff in He as [He Hssrc]. apply bool_decide_eq_true in He, Hssrc.
    rewrite (run_bind _ _ _ (Some n) w) by done. rewrite (run_bind _ _ _ ssrc w) by done.
    destruct (feed_serving maxLen Hmax w c g (n, nowMs) ssrc Hsv He Hssrc (fun x Hx => Hgap x _ Hx eq_refl)) as (w1 & c1 & g1 & sent & Hf & Hsv1 & Hmv & Harr).
    destruct (MaySendLimitationRembFeedback_ok maxLen w1 c1 g1 clock Hsv1) as (w2 & Hm & Hsv2 & Hmv2).
    exists w2, c1, g1, sent. split_and!; [|done|by eapply moved_after|done]. by rewrite (run_bind _ _ _ tt w1).
  - exists w, c, g, []. split_and!; [done|done|by apply moved_none|done|done|done].
Qed.

Lemma maximum_serving maxLen w c g bitrate nowMs :
  serving maxLen w c g -> fits 32 bitrate ->
  exists w', SetMaxIncomingBitrate bitrate nowMs w = Ok (tt, w') /\ serving maxLen w' c g /\ moved w w' c c [].
Proof.
  intros [Hs Hp] Hb. unfold SetMaxIncomingBitrate. rewrite (run_bind _ _ _ (server w) w) by done.
  assert (Hset : forall w1 a n, server w1 = set_remb bitrate a n (server w) -> serving maxLen w1 c g).
  { intros w1 a n H1. split; [rewrite H1; by destruct Hs; split|by rewrite H1]. }
  rewrite (run_bind _ _ _ tt {| server := set_remb bitrate (limitationRembSentAtMs (server w)) (unlimitedRembCounter (server w)) (server w); calls := calls w |}) by done.
  destruct (_ && _); [|eexists; split_and!; [done|by eapply Hset|by apply moved_none]].
  erewrite run_bind by reflexivity.
  match goal with |- context [MaySendLimitationRembFeedback nowMs ?x] => set (w1 := x) end.
  destruct (MaySendLimitationRembFeedback_ok maxLen w1 c g nowMs) as (w2 & Hm & Hsv2 & Hmv2); [by eapply Hset|].
  exists w2. split_and!; [done|done|]. apply (moved_after _ w1 _ _ c); [by apply moved_none|done].
Qed.

Lemma step_serving maxLen w c g e :
  24 <= maxLen <= B -> serving maxLen w c g -> event_ok e = true ->
  (forall x y, latest g = Some x -> arrival e = Some y -> within x y) ->
  exists w' c' g' sent, step e w = Ok (tt, w') /\ serving maxLen w' c' g' /\
    (e <> Disconnected -> moved w w' c c' sent /\ follows e g sent g').
Proof.
  intros Hmax Hsv He Hgap. destruct e as [nowMs clock packet| |bitrate nowMs| |]; cbn [step].
  - destruct (arrival_serving maxLen w c g nowMs clock packet Hmax Hsv He Hgap) as (w' & c' & g' & sent & H1 & H2 & H3 & H4).
    by exists w', c', g', sent.
  - destruct (Send_serving maxLen w c g Hsv) as (w' & c' & g' & sent & H1 & H2 & H3 & H4). by exists w', c', g', sent.
  - apply bool_decide_eq_true in He. destruct (maximum_serving maxLen w c g bitrate nowMs Hsv He) as (w' & H1 & H2 & H3).
    by exists w', c, g, [].
  - destruct Hsv as [Hs Hp]. destruct (st_timer _ _ Hs) as [b Hb].
    exists {| server := set_timer (Some true) (server w); calls := calls w |}, c, g, [].
    split_and!; [|split; [by destruct Hs; split|exact Hp]|intros _; split; [by apply moved_none|done]].
    unfold TransportConnected. run_server. by rewrite (st_type _ _ Hs), Hb.
  - destruct Hsv as [Hs Hp]. destruct (st_timer _ _ Hs) as [b Hb].
    exists {| server := set_packet (Some (create 0 0)) (set_timer (Some false) (server w)); calls := calls w |}, 0, None, [].
    split_and!; [|split; [by destruct Hs; split|]|done].
    + unfold TransportDisconnected. run_server. by rewrite (st_type _ _ Hs), Hb.
    + exists (create 0 0). split_and!; [done|done|done|]. by apply (created_fresh 0 0 0).
Qed.

Lemma start_serving maxLen : serving maxLen (start maxLen) 0 None.
Proof. split; [by split|]. eexists. split; [reflexivity|]. split_and!; [done|done|]. by apply (created_fresh 0 0 0). Qed.

End Bounded.

(** Whatever the gaps. *)
Lemma history_serving maxLen evs :
  24 <= maxLen <= 65535 -> forallb event_ok evs = true ->
  forall w c g, serving 65535 maxLen w c g -> exists w' c' g', for_each step evs w = Ok (tt, w') /\ serving 65535 maxLen w' c' g'.
Proof.
  intros Hmax. induction evs as [|e evs IH]; intros Hok w c g Hsv; [by exists w, c, g|].
  cbn [forallb] in Hok. apply andb_true_iff in Hok as [He Hok].
  destruct (step_serving 65535 ltac:(lia) maxLen w c g e Hmax Hsv He) as (w1 & c1 & g1 & sent & H1 & H2 & _);
    [intros x y _ _ _; unfold gap; ulia|].
  destruct (IH Hok w1 c1 g1 H2) as (w2 & c2 & g2 & H3 & H4). exists w2, c2, g2. split; [|done].
  cbn [for_each]. by rewrite (run_bind _ _ _ tt w1).
Qed.

(** No history of packets, timers, bitrate limits, connections and disconnections makes the
    receiving side of the congestion control fail an assertion, dereference a null pointer or read
    outside of the deltas of a feedback packet, whatever the sequence numbers and the times of the
    packets; and the history of losses is bounded. *)
Theorem feedback_history_safe maxLen evs :
  24 <= maxLen <= 65535 -> forallb event_ok evs = true ->
  exists w, for_each step evs (start maxLen) = Ok (tt, w) /\ zlen (PacketLoss.packetLossHistory (losses (server w))) <= 24.
Proof.
  intros Hmax Hok. destruct (history_serving maxLen evs Hmax Hok _ _ _ (start_serving 65535 ltac:(lia) maxLen)) as (w & c & g & Hw & Hsv).
  exists w. split; [done|]. apply (st_losses _ _ (sv_settled _ _ _ _ _ Hsv)).
Qed.

(** What has been reported and what is pending make up what a sender is to be told about the
    packets [seen], and the counts of the feedback packets are consecutive. *)
Record complete (w : World) (c : Z) (g : content) (seen : list (Z * Z)) : Prop := {
  cp_told : match seen with
            | [] => g = None /\ feedbacks (calls w) = []
            | x :: l => concat (reported <$> feedbacks (calls w)) ++ pending g = told x.1 l /\ latest g = Some (newest x l)
            end;
  cp_count : c = transportCcFeedbackPacketCount (server w) /\ c = u8 (zlen (feedbacks (calls w)));
  cp_numbered : numbered 0 (feedbacks (calls w));
  cp_readable : Forall readable (feedbacks (calls w));
}.

Definition paced_all (l : list (Z * Z)) : bool := match l with [] => true | x :: l => paced x l end.

Lemma follows_complete w w' c c' g g' e sent seen :
  complete w c g seen -> moved 8191 w w' c c' sent -> follows e g sent g' ->
  paced_all (seen ++ option_list (arrival e)) = true -> complete w' c' g' (seen ++ option_list (arrival e)).
Proof.
  intros [Ht [Hc1 Hc2] Hn Hrd] [Hcalls Hcnt Hrd'] Hf Hp.
  destruct (Hcnt Hc1 ltac:(rewrite Hc2; by apply uwrap_fits)) as (Hc3 & Hc4 & Hn'). split.
  - rewrite Hcalls. unfold follows in Hf. destruct (arrival e) as [y|]; cbn [option_list option_rect] in *.
    + destruct seen as [|x l]; cbn [app] in *.
      * destruct Ht as [-> ->]. cbn [arrived] in Hf. by destruct Hf as [-> ->].
      * destruct Ht as [Ht Hl]. destruct g as [[x0 l0]|]; [|done]. injection Hl as Hl. cbn [arrived paced_all] in *.
        rewrite paced_app, andb_true_iff in Hp. rewrite Hl in Hf. destruct (Hf (proj2 Hp)) as [H1 H2].
        rewrite fmap_app, concat_app, <- app_assoc, H1. destruct x0 as [s0 t0], x as [s t]. cbn [fst pending] in *.
        rewrite (told_app l0 [y] s0 t0), (told_app l [y] s t), Hl, app_assoc, Ht. split; [done|].
        by rewrite H2, !newest_app, Hl.
    + rewrite app_nil_r. destruct Hf as (Hf1 & Hf2 & Hf3). destruct seen as [|x l].
      * destruct Ht as [-> ->]. destruct g' as [[]|]; [done|]. by rewrite Hf3.
      * destruct Ht as [Ht Hl]. rewrite fmap_app, concat_app, <- app_assoc, Hf1. split; [done|congruence].
  - split; [done|]. rewrite Hcalls, zlen_app, Hc4, Hc2. ulia.
  - rewrite Hcalls. apply numbered_app; [done|]. rewrite Hc2 in Hn'. by apply numbered_mod in Hn'.
  - rewrite Hcalls. apply Forall_app. by split; [|apply Hrd'].
Qed.

(** The gap in front of the next packet of a paced sequence. *)
Lemma complete_within w c g seen z y :
  complete w c g seen -> latest g = Some z -> paced_all (seen ++ [y]) = true -> within 8191 z y.
Proof.
  intros [Ht _ _ _] Hz Hp Hhigh. destruct seen as [|x l]; [destruct Ht as [-> _]; discriminate Hz|]. destruct Ht as [_ Hl].
  assert (z = newest x l) as -> by congruence. cbn [app paced_all] in Hp. rewrite paced_app in Hp. cbn [paced] in Hp.
  rewrite Hhigh in Hp. cbn [negb orb] in Hp. rewrite !andb_true_iff, !Z.leb_le in Hp. destruct Hp as (_ & ((Hg & _) & _) & _). exact Hg.
Qed.

Lemma history_complete maxLen evs :
  24 <= maxLen <= 8191 -> forallb event_ok evs = true -> Disconnected ∉ evs ->
  forall w c g seen, serving 8191 maxLen w c g -> complete w c g seen -> paced_all (seen ++ omap arrival evs) = true ->
  exists w' c' g', for_each step evs w = Ok (tt, w') /\ serving 8191 maxLen w' c' g' /\ complete w' c' g' (seen ++ omap arrival evs).
Proof.
  intros Hmax. induction evs as [|e evs IH]; intros Hok Hconn w c g seen Hsv Hcp Hp.
  { exists w, c, g. cbn. by rewrite app_nil_r. }
  cbn [forallb] in Hok. apply andb_true_iff in Hok as [He Hok]. apply not_elem_of_cons in Hconn as [Hne Hconn].
  assert (Homap : omap arrival (e :: evs) = option_list (arrival e) ++ omap arrival evs) by (cbn; by destruct (arrival e)).
  rewrite Homap, app_assoc in *.
  assert (Hp1 : paced_all (seen ++ option_list (arrival e)) = true).
  { revert Hp. destruct (seen ++ option_list (arrival e)) as [|x l]; [done|]. cbn [app paced_all]. rewrite paced_app.
    by intros [? _]%andb_true_iff. }
  destruct (step_serving 8191 ltac:(lia) maxLen w c g e Hmax Hsv He) as (w1 & c1 & g1 & sent & H1 & H2 & H3).
  { intros z y Hz Hy. rewrite Hy in Hp1. by eapply complete_within. }
  destruct (H3 (not_eq_sym Hne)) as [Hmv Hf].
  destruct (IH Hok Hconn w1 c1 g1 _ H2 (follows_complete _ _ _ _ _ _ _ _ _ Hcp Hmv Hf Hp1) Hp) as (w2 & c2 & g2 & H4 & H5).
  exists w2, c2, g2. split; [|done]. cbn [for_each]. by rewrite (run_bind _ _ _ tt w1).
Qed.

(** C5: What the feedback packets of a transport tell the sender.  Take a history of packets,
    timers, limits and connections, without a disconnection, in which between a packet that is
    newer than all before it and the newest one of these at most 8191 numbers are missing, and it
    arrives at most 8128 ms after and 8191 ms before that one; the clock is at least 64 ms, and
    feedback packets are limited to 24 up to 8191 bytes.  Then the reports of all the feedback
    packets that were sent, one after the other, and of the one under construction, are: from the number after the first packet to the
    newest one, each number once and in order, with the time at which its packet arrived, modulo
    2^29 ms, or that it is missing.  Missing means that the packet did not come before a newer one:
    the first packet of the history is the base and not reported itself, and a packet that
    arrives after a newer one is reported missing.  This is also what [Parse] reads in the bytes of
    each feedback packet that was sent, if it has fewer than 65536 statuses.  The counts of the
    feedback packets are consecutive modulo 256. *)
Theorem feedback_complete maxLen evs x l :
  24 <= maxLen <= 8191 -> forallb event_ok evs = true -> Disconnected ∉ evs ->
  omap arrival evs = x :: l -> paced x l = true ->
  exists w p p', for_each step evs (start maxLen) = Ok (tt, w) /\
    transportCcFeedbackPacket (server w) = Some p /\ Finish p = Ok p' /\
    concat (reported <$> feedbacks (calls w)) ++ reported p' = told x.1 l /\
    (forall q, q ∈ feedbacks (calls w) -> zlen (reported q) < 2 ^ 16 -> read_off q = Some (reported q)) /\
    feedbackPacketCount <$> feedbacks (calls w) = (fun i => u8 i) <$> seqZ 0 (zlen (feedbacks (calls w))).
Proof.
  intros Hmax Hok Hconn Harr Hp.
  destruct (history_complete maxLen evs Hmax Hok Hconn _ _ _ [] (start_serving 8191 ltac:(lia) maxLen)) as (w & c & g & Hw & Hsv & Hcp);
    [by split|by rewrite Harr|]. cbn [app] in Hcp. rewrite Harr in Hcp. destruct Hcp as [[Ht Hl] _ Hn Hrd].
  destruct g as [[x0 l0]|]; [|done]. destruct Hsv as [_ (p & Hpk & _ & _ & Htr)].
  destruct (Finish_tracks 8191 ltac:(lia) p x0 l0 Htr) as (p' & Hf & Hrep & _). exists w, p, p'. split_and!; [done|done|done| | |exact Hn].
  - by rewrite Hrep.
  - intros q Hq. exact (proj1 (Forall_forall _ _) Hrd q Hq).
Qed.

(** A packet with the transport-wide number [n]. *)
Definition sample_packet (n : Z) : RtpPacket.t :=
  match RtpPacket.Parse [144; 111; 0; 1; 0; 0; 0; 0; 0; 0; 0; 7; 190; 222; 0; 1; 17; n / 256; n mod 256; 0] 20 with
  | Ok (Some p) =>
      RtpPacket.set_ids p
        {| RtpPacket.midExtensionId := 0; RtpPacket.ridExtensionId := 0; RtpPacket.rridExtensionId := 0;
           RtpPacket.absSendTimeExtensionId := 0; RtpPacket.transportWideCc01ExtensionId := 1;
           RtpPacket.frameMarking07ExtensionId := 0; RtpPacket.frameMarkingExtensionId := 0;
           RtpPacket.ssrcAudioLevelExtensionId := 0; RtpPacket.videoOrientationExtensionId := 0 |}
  | _ =>
      {| RtpPacket.mem := []; RtpPacket.csrcList := None; RtpPacket.headerExtension := None; RtpPacket.oneByteExtensions := [];
         RtpPacket.mapTwoBytesExtensions := ∅; RtpPacket.ids := RtpPacket.no_ids; RtpPacket.payload := 0;
         RtpPacket.payloadLength := 0; RtpPacket.payloadPadding := 0; RtpPacket.size := 0 |}
  end.

(** Six packets with a gap, one of them late, and a timer in between. *)
Definition sample_history : list Event :=
  [Connected; Arrival 1000 1000 (sample_packet 65534); Arrival 1005 1005 (sample_packet 65535); Arrival 1010 1010 (sample_packet 2);
   Arrival 1011 1011 (sample_packet 1); Timer; SetMaximum 500000 1200; Arrival 3000 3000 (sample_packet 3); Timer;
   Arrival 3100 3100 (sample_packet 5)].

Lemma feedback_complete_witness :
  told 65534 [(65535, 1005); (2, 1010); (1, 1011); (3, 3000); (5, 3100)] =
    [(65535, Some 1005); (0, None); (1, None); (2, Some 1010); (3, Some 3000); (4, None); (5, Some 3100)] /\
  exists w p p', for_each step sample_history (start 1200) = Ok (tt, w) /\
    transportCcFeedbackPacket (server w) = Some p /\ Finish p = Ok p' /\
    concat (reported <$> feedbacks (calls w)) ++ reported p' =
      told 65534 [(65535, 1005); (2, 1010); (1, 1011); (3, 3000); (5, 3100)] /\
    (forall q, q ∈ feedbacks (calls w) -> zlen (reported q) < 2 ^ 16 -> read_off q = Some (reported q)) /\
    feedbackPacketCount <$> feedbacks (calls w) = (fun i => u8 i) <$> seqZ 0 (zlen (feedbacks (calls w))).
Proof.
  split; [by vm_compute|].
  refine (feedback_complete 1200 sample_history (65534, 1000) [(65535, 1005); (2, 1010); (1, 1011); (3, 3000); (5, 3100)] _ _ _ _ _).
  - lia.
  - by vm_compute.
  - intros H. unfold sample_history in H. repeat (apply elem_of_cons in H as [H|H]; [discriminate H|]). by apply elem_of_nil in H.
  - by vm_compute.
  - by vm_compute.
Defined.

(** A disconnection, and numbers and times that jump. *)
Definition wild_history : list Event :=
  sample_history ++ [Disconnected; Arrival 4000 4000 (sample_packet 9); Arrival 90000 90000 (sample_packet 8300);
   Arrival 90001 90001 (sample_packet 8301); Timer; Arrival 90002 90002 (sample_packet 60000); SetMaximum 0 90003; Timer].

Lemma feedback_history_safe_witness :
  exists w, for_each step wild_history (start 1200) = Ok (tt, w) /\ zlen (PacketLoss.packetLossHistory (losses (server w))) <= 24.
Proof. apply (feedback_history_safe 1200 wild_history); [lia|by vm_compute]. Defined.

(** After a disconnection the counts are not consecutive: the first feedback packet has the count
    0 again, and the next one goes on with the counts of before, as [TransportDisconnected] does not set
    the count of the packet it makes. *)
Theorem counts_after_disconnection :
  exists w, for_each step [Arrival 1000 1000 (sample_packet 1); Arrival 1010 1010 (sample_packet 2); Timer;
      Arrival 1020 1020 (sample_packet 3); Timer; Disconnected;
      Arrival 2000 2000 (sample_packet 4); Arrival 2010 2010 (sample_packet 5); Timer;
      Arrival 2020 2020 (sample_packet 6); Timer] (start 1200) = Ok (tt, w) /\
    feedbackPacketCount <$> feedbacks (calls w) = [0; 1; 0; 3].
Proof. eexists. split; by vm_compute. Qed.

(** A sender whose numbers jump can make the reported loss larger than 1: the number of statuses
    of a feedback packet wraps around 16 bits, and the losses are counted in full. *)
Theorem packet_loss_above_one :
  exists w, for_each step [Arrival 1000 1000 (sample_packet 65535); Arrival 1010 1010 (sample_packet 32766);
      Arrival 1010 1010 (sample_packet 40957); Arrival 1010 1010 (sample_packet 49148); Arrival 1010 1010 (sample_packet 57339);
      Arrival 1010 1010 (sample_packet 24570); Timer] (start 1200) = Ok (tt, w) /\
    SFltb (Time.b64_of_Z 3) (PacketLoss.packetLoss (losses (server w))) = true.
Proof. eexists. split; by vm_compute. Qed.

End CongestionSpec.
