(* ===== verification/CongestionClient.v ===== *)
(** * Congestion control of what is sent

    Models [worker/src/RTC/TransportCongestionControlClient.cpp] and, of
    [worker/src/RTC/Transport.cpp], the sending of the packets of consumers, of retransmissions and of
    probation.  The estimator and the pacer of libwebrtc are not part of the model: what they are
    told are the calls of a trace, and what they answer are arguments ([TimeUntilNextProcess], the
    interval of the controller) and operations ([OnTargetTransferRate], [SendPacket],
    [GeneratePadding]). *)

From Stdlib Require Import SpecFloat.
From stdpp Require Import gmap.
From S2P Require Import Prelude StateMonad Utils Float RateCalculator RtcpPacket RtcpReports RtcpTransport RtpPacket Probation CongestionControl.

Module TransportCongestionControlClient.

Definition TransportCongestionControlMinOutgoingBitrate : Z := 30000.
Definition AvailableBitrateEventInterval : Z := 1000.

(** 0.1f, 1.35f and 0.85f, and the default factor 0.05f of the trend. *)
Definition MaxBitrateMarginFactor : spec_float := S754_finite false 13421773 (-27).
Definition MaxBitrateIncrementFactor : spec_float := S754_finite false 11324621 (-23).
Definition MaxPaddingBitrateFactor : spec_float := S754_finite false 14260634 (-24).
Definition DecreaseFactor : spec_float := S754_finite false 13421773 (-28).

(** 0.75 and 1.50 *)
Definition f64_3_4 : spec_float := S754_finite false 6755399441055744 (-53).
Definition f64_3_2 : spec_float := S754_finite false 6755399441055744 (-52).

Record Bitrates := {
  desiredBitrate : Z;
  effectiveDesiredBitrate : Z;
  minBitrate : Z;
  maxBitrate : Z;
  startBitrate : Z;
  maxPaddingBitrate : Z;
  availableBitrate : Z;
}.

Definition no_bitrates : Bitrates := Build_Bitrates 0 0 0 0 0 0 0.

(** What the controller, the generator of probation and the timer of a client are: all three are made and
    deleted together.  The timer is the time it was started for. *)
Record Controller := { probationGenerator : RtpPacket.t; processTimer : Z }.

Record State := {
  bweType : BweType;
  initialAvailableBitrate : Z;
  maxOutgoingBitrate : Z;
  minOutgoingBitrate : Z;
  bitrates : Bitrates;
  availableBitrateEventCalled : bool;
  lastAvailableBitrateEventAtMs : Z;
  desiredBitrateTrend : TrendCalculator.State;
  losses : PacketLoss.t;
  rtpTransportControllerSend : option Controller;
}.

(** [webrtc::RtpPacketSendInfo]; the pacing information comes from the pacer or is empty. *)
Inductive PacedPacketInfo := NoPacing | PacerInfo (cluster : Z).

Record RtpPacketSendInfo := {
  info_ssrc : Z;
  transport_sequence_number : Z;
  rtp_sequence_number : Z;
  info_length : Z;
  pacing_info : PacedPacketInfo;
}.

(** A report block as libwebrtc gets it: SSRCs, fraction and total lost, sequence number, jitter, LSR, DLSR. *)
Record ReportBlock := {
  block_sender : Z; block_source : Z; block_fraction : Z; block_lost : Z; block_seq : Z; block_jitter : Z; block_lsr : Z; block_dlsr : Z;
}.

Inductive Call :=
| ControllerCreated (start_bitrate_bps : Z)
| OnNetworkAvailability (available : bool)
| PacerInsertPacket (length : Z)
| OnAddPacket (info : RtpPacketSendInfo)
| OnSentPacket (sequence nowMs length : Z)
| OnReceivedEstimatedBitrate (bitrate : Z)
| OnReceivedRtcpReceiverReport (blocks : list ReportBlock) (rtt nowMs : Z)
| OnTransportFeedback (feedback : FeedbackRtpTransport.t)
| SetAllocatedSendBitrateLimits (minimum padding maximum : Z)
| SetClientBitratePreferences (at_time minimum maximum starting : Z)
| Process
| ListenerBitrates (b : Bitrates)
| ListenerSendRtpPacket (packet : RtpPacket.t) (pacing : PacedPacketInfo).

Record World := { client : State; calls : list Call }.

Abbreviation M := (St World).

Definition on_client (f : State -> State) : M unit := change (fun w => {| client := f (client w); calls := calls w |}).
Definition log (c : Call) : M unit := change (fun w => {| client := client w; calls := calls w ++ [c] |}).

Definition set_bitrates (f : Bitrates -> Bitrates) (s : State) : State :=
  {| bweType := bweType s; initialAvailableBitrate := initialAvailableBitrate s; maxOutgoingBitrate := maxOutgoingBitrate s;
     minOutgoingBitrate := minOutgoingBitrate s; bitrates := f (bitrates s); availableBitrateEventCalled := availableBitrateEventCalled s;
     lastAvailableBitrateEventAtMs := lastAvailableBitrateEventAtMs s; desiredBitrateTrend := desiredBitrateTrend s; losses := losses s;
     rtpTransportControllerSend := rtpTransportControllerSend s |}.
Definition set_limits (maximum minimum : Z) (s : State) : State :=
  {| bweType := bweType s; initialAvailableBitrate := initialAvailableBitrate s; maxOutgoingBitrate := maximum;
     minOutgoingBitrate := minimum; bitrates := bitrates s; availableBitrateEventCalled := availableBitrateEventCalled s;
     lastAvailableBitrateEventAtMs := lastAvailableBitrateEventAtMs s; desiredBitrateTrend := desiredBitrateTrend s; losses := losses s;
     rtpTransportControllerSend := rtpTransportControllerSend s |}.
Definition set_event (called : bool) (at_ : Z) (s : State) : State :=
  {| bweType := bweType s; initialAvailableBitrate := initialAvailableBitrate s; maxOutgoingBitrate := maxOutgoingBitrate s;
     minOutgoingBitrate := minOutgoingBitrate s; bitrates := bitrates s; availableBitrateEventCalled := called;
     lastAvailableBitrateEventAtMs := at_; desiredBitrateTrend := desiredBitrateTrend s; losses := losses s;
     rtpTransportControllerSend := rtpTransportControllerSend s |}.
Definition set_trend (t : TrendCalculator.State) (s : State) : State :=
  {| bweType := bweType s; initialAvailableBitrate := initialAvailableBitrate s; maxOutgoingBitrate := maxOutgoingBitrate s;
     minOutgoingBitrate := minOutgoingBitrate s; bitrates := bitrates s; availableBitrateEventCalled := availableBitrateEventCalled s;
     lastAvailableBitrateEventAtMs := lastAvailableBitrateEventAtMs s; desiredBitrateTrend := t; losses := losses s;
     rtpTransportControllerSend := rtpTransportControllerSend s |}.
Definition set_losses (l : PacketLoss.t) (s : State) : State :=
  {| bweType := bweType s; initialAvailableBitrate := initialAvailableBitrate s; maxOutgoingBitrate := maxOutgoingBitrate s;
     minOutgoingBitrate := minOutgoingBitrate s; bitrates := bitrates s; availableBitrateEventCalled := availableBitrateEventCalled s;
     lastAvailableBitrateEventAtMs := lastAvailableBitrateEventAtMs s; desiredBitrateTrend := desiredBitrateTrend s; losses := l;
     rtpTransportControllerSend := rtpTransportControllerSend s |}.
Definition set_controller (c : option Controller) (s : State) : State :=
  {| bweType := bweType s; initialAvailableBitrate := initialAvailableBitrate s; maxOutgoingBitrate := maxOutgoingBitrate s;
     minOutgoingBitrate := minOutgoingBitrate s; bitrates := bitrates s; availableBitrateEventCalled := availableBitrateEventCalled s;
     lastAvailableBitrateEventAtMs := lastAvailableBitrateEventAtMs s; desiredBitrateTrend := desiredBitrateTrend s; losses := losses s;
     rtpTransportControllerSend := c |}.

Definition set_desired (desired effective : Z) (b : Bitrates) : Bitrates :=
  {| desiredBitrate := desired; effectiveDesiredBitrate := effective; minBitrate := minBitrate b; maxBitrate := maxBitrate b;
     startBitrate := startBitrate b; maxPaddingBitrate := maxPaddingBitrate b; availableBitrate := availableBitrate b |}.
Definition set_minimum (minimum : Z) (b : Bitrates) : Bitrates :=
  {| desiredBitrate := desiredBitrate b; effectiveDesiredBitrate := effectiveDesiredBitrate b; minBitrate := minimum;
     maxBitrate := maxBitrate b; startBitrate := startBitrate b; maxPaddingBitrate := maxPaddingBitrate b;
     availableBitrate := availableBitrate b |}.
Definition set_maximum (maximum padding : Z) (b : Bitrates) : Bitrates :=
  {| desiredBitrate := desiredBitrate b; effectiveDesiredBitrate := effectiveDesiredBitrate b; minBitrate := minBitrate b;
     maxBitrate := maximum; startBitrate := startBitrate b; maxPaddingBitrate := padding; availableBitrate := availableBitrate b |}.
Definition set_start (start : Z) (b : Bitrates) : Bitrates :=
  {| desiredBitrate := desiredBitrate b; effectiveDesiredBitrate := effectiveDesiredBitrate b; minBitrate := minBitrate b;
     maxBitrate := maxBitrate b; startBitrate := start; maxPaddingBitrate := maxPaddingBitrate b; availableBitrate := availableBitrate b |}.
Definition set_available (available : Z) (b : Bitrates) : Bitrates :=
  {| desiredBitrate := desiredBitrate b; effectiveDesiredBitrate := effectiveDesiredBitrate b; minBitrate := minBitrate b;
     maxBitrate := maxBitrate b; startBitrate := startBitrate b; maxPaddingBitrate := maxPaddingBitrate b; availableBitrate := available |}.

(** ** Construction, connection *)

Definition make (ty : BweType) (initial maximum minimum : Z) : State :=
  {| bweType := ty; initialAvailableBitrate := Z.max initial TransportCongestionControlMinOutgoingBitrate;
     maxOutgoingBitrate := maximum; minOutgoingBitrate := minimum; bitrates := no_bitrates; availableBitrateEventCalled := false;
     lastAvailableBitrateEventAtMs := 0; desiredBitrateTrend := TrendCalculator.create DecreaseFactor; losses := PacketLoss.none;
     rtpTransportControllerSend := None |}.

(** What the environment gives to a new controller: the memory and the random numbers of the
    generator of probation, and the times of the pacer and of the controller. *)
Record Env := { junk : list Z; random_seq : Z; random_ts : Z; untilNextProcess : Z; processInterval : Z }.

(** Conversion to [int]. *)
Definition i32 (z : Z) : Z := if u32 z <? 2 ^ 31 then u32 z else u32 z - 2 ^ 32.

Definition InitializeController (env : Env) : M unit :=
  s ← asks client;
  _ ← from_res (ms_assert (match rtpTransportControllerSend s with None => true | Some _ => false end));
  _ ← log (ControllerCreated (i32 (initialAvailableBitrate s)));
  p ← from_res (RtpProbationGenerator.make (junk env) (random_seq env) (random_ts env));
  on_client (set_controller (Some {| probationGenerator := p; processTimer := Z.min (untilNextProcess env) (processInterval env) |})).

Definition TransportConnected (env : Env) : M unit :=
  s ← asks client;
  _ ← match rtpTransportControllerSend s with None => InitializeController env | Some _ => mret tt end;
  s ← asks client;
  _ ← from_res (deref (rtpTransportControllerSend s));
  log (OnNetworkAvailability true).

Definition TransportDisconnected (nowMs : Z) : M unit :=
  _ ← on_client (set_bitrates (set_desired 0 0));
  _ ← on_client (fun s => set_trend (TrendCalculator.ForceUpdate (desiredBitrateTrend s) 0 nowMs) s);
  s ← asks client;
  _ ← from_res (deref (rtpTransportControllerSend s));
  log (OnNetworkAvailability false).

(** [DestroyController], which the destructor calls. *)
Definition DestroyController : M unit := on_client (set_controller None).

(** ** Packets and reports *)

(** The calls that are made only when there is a controller. *)
Definition if_controlled (m : M unit) : M unit :=
  s ← asks client;
  match rtpTransportControllerSend s with None => mret tt | Some _ => m end.

Definition InsertPacket (info : RtpPacketSendInfo) : M unit :=
  if_controlled (_ ← log (PacerInsertPacket (info_length info)); log (OnAddPacket info)).

(** [GetPacingInfo]; [cluster] is what the pacer answers. *)
Definition GetPacingInfo (cluster : Z) : M PacedPacketInfo :=
  s ← asks client;
  mret (match rtpTransportControllerSend s with None => NoPacing | Some _ => PacerInfo cluster end).

Definition PacketSent (info : RtpPacketSendInfo) (nowMs : Z) : M unit :=
  if_controlled (log (OnSentPacket (transport_sequence_number info) nowMs (info_length info))).

Definition ReceiveEstimatedBitrate (bitrate : Z) : M unit := if_controlled (log (OnReceivedEstimatedBitrate bitrate)).

(** The loop over the reports. *)
Fixpoint report_blocks (sender : Z) (l : list (list Z)) : res (list ReportBlock) :=
  match l with
  | [] => mret []
  | r :: l' =>
      source ← ReceiverReport.GetSsrc r; fraction ← ReceiverReport.GetFractionLost r; total ← ReceiverReport.GetTotalLost r;
      seq ← ReceiverReport.GetLastSeq r; jitter ← ReceiverReport.GetJitter r; lsr ← ReceiverReport.GetLastSenderReport r;
      dlsr ← ReceiverReport.GetDelaySinceLastSenderReport r;
      rest ← report_blocks sender l';
      mret ({| block_sender := sender; block_source := source; block_fraction := fraction; block_lost := total; block_seq := seq;
               block_jitter := jitter; block_lsr := lsr; block_dlsr := dlsr |} :: rest)
  end.

(** Conversion of a [float] to [int64_t]. *)
Definition i64_of_float (x : spec_float) : res Z :=
  match x with
  | S754_zero _ => Ok 0
  | S754_finite _ _ _ => let v := Time.sf_trunc x in if (- 2 ^ 63 <=? v) && (v <? 2 ^ 63) then Ok v else Fault BadConversion
  | _ => Fault BadConversion
  end.

Definition ReceiveRtcpReceiverReport (packet : ReceiverReportPacket.t) (rtt : spec_float) (nowMs : Z) : M unit :=
  blocks ← from_res (report_blocks (ReceiverReportPacket.ssrc packet) (ReceiverReportPacket.reports packet));
  if_controlled (rtt ← from_res (i64_of_float rtt); log (OnReceivedRtcpReceiverReport blocks rtt nowMs)).

Definition ReceiveRtcpTransportFeedback (feedback : FeedbackRtpTransport.t) : M unit :=
  rs ← from_res (FeedbackRtpTransport.GetPacketResults feedback);
  _ ← on_client (fun s => set_losses (PacketLoss.update_for (losses s) (FeedbackRtpTransport.packetStatusCount feedback) rs) s);
  if_controlled (log (OnTransportFeedback feedback)).

(** ** Bitrates *)

Definition minimum (s : State) : Z := Z.max (minOutgoingBitrate s) TransportCongestionControlMinOutgoingBitrate.

(** Whether the maximum is kept: it differs by less than a tenth of the new one. *)
Definition keeps_maximum (current new : Z) : bool :=
  let margin := SFmul 24 128 (f32_of_Z new) MaxBitrateMarginFactor in
  SFltb (SFsub 24 128 (f32_of_Z new) margin) (f32_of_Z current) && SFltb (f32_of_Z current) (SFadd 24 128 (f32_of_Z new) margin).

Definition new_maximum (s : State) : res Z :=
  let current := maxBitrate (bitrates s) in
  let trend := TrendCalculator.GetValue (desiredBitrateTrend s) in
  new ← (if 0 <? trend then
           increased ← u32_of_float (SFmul 24 128 (f32_of_Z trend) MaxBitrateIncrementFactor);
           let new := Z.max (initialAvailableBitrate s) increased in
           mret (if keeps_maximum current new then current else new)
         else mret (initialAvailableBitrate s));
  mret (if 0 <? maxOutgoingBitrate s then Z.min (maxOutgoingBitrate s) new else new).

Definition ApplyBitrateUpdates (nowMs : Z) : M unit :=
  s ← asks client;
  newMaxBitrate ← from_res (new_maximum s);
  _ ← (if negb (newMaxBitrate =? maxBitrate (bitrates s)) then
         padding ← from_res (u32_of_float (SFmul 24 128 (f32_of_Z newMaxBitrate) MaxPaddingBitrateFactor));
         on_client (set_bitrates (set_maximum newMaxBitrate padding))
       else mret tt);
  _ ← on_client (fun s => set_bitrates (set_minimum (minimum s)) s);
  s ← asks client;
  let b := bitrates s in
  if_controlled
    (_ ← log (SetAllocatedSendBitrateLimits (minBitrate b) (maxPaddingBitrate b) (maxBitrate b));
     log (SetClientBitratePreferences nowMs (minBitrate b) (maxBitrate b) (startBitrate b))).

Definition SetMaxOutgoingBitrate (bitrate nowMs : Z) : M unit :=
  _ ← on_client (fun s => set_limits bitrate (minOutgoingBitrate s) s);
  _ ← ApplyBitrateUpdates nowMs;
  s ← asks client;
  only (0 <? maxOutgoingBitrate s)
    (on_client (set_bitrates (fun b => set_available (Z.min (maxOutgoingBitrate s) (availableBitrate b)) b))).

Definition SetMinOutgoingBitrate (bitrate nowMs : Z) : M unit :=
  _ ← on_client (fun s => set_limits (maxOutgoingBitrate s) bitrate s);
  _ ← ApplyBitrateUpdates nowMs;
  on_client (fun s => set_bitrates (set_minimum (minimum s)) s).

Definition SetDesiredBitrate (desired : Z) (force : bool) (nowMs : Z) : M unit :=
  s ← asks client;
  trend ← from_res (if negb force then TrendCalculator.Update (desiredBitrateTrend s) desired nowMs
                    else mret (TrendCalculator.ForceUpdate (desiredBitrateTrend s) desired nowMs));
  _ ← on_client (set_trend trend);
  _ ← on_client (set_bitrates (set_desired desired (TrendCalculator.GetValue trend)));
  _ ← on_client (fun s => set_bitrates (set_minimum (minimum s)) s);
  _ ← on_client (set_bitrates (fun b => set_start (Z.max TransportCongestionControlMinOutgoingBitrate (availableBitrate b)) b));
  ApplyBitrateUpdates nowMs.

(** ** Events *)

Definition RescheduleNextAvailableBitrateEvent (nowMs : Z) : M unit :=
  on_client (fun s => set_event (availableBitrateEventCalled s) nowMs s).

(** Whether the listener is told, after the first event: the first time, after an interval, or when the
    bitrate changes a lot. *)
Definition notify (s : State) (previousAvailableBitrate nowMs : Z) : bool :=
  negb (availableBitrateEventCalled s) ||
  (AvailableBitrateEventInterval <=? u64 (nowMs - lastAvailableBitrateEventAtMs s)) ||
  SFltb (Time.b64_of_Z (availableBitrate (bitrates s))) (SFmul 53 1024 (Time.b64_of_Z previousAvailableBitrate) f64_3_4) ||
  SFltb (SFmul 53 1024 (Time.b64_of_Z previousAvailableBitrate) f64_3_2) (Time.b64_of_Z (availableBitrate (bitrates s))).

Definition MayEmitAvailableBitrateEvent (previousAvailableBitrate nowMs : Z) : M unit :=
  s ← asks client;
  if lastAvailableBitrateEventAtMs s =? 0
  then on_client (fun s => set_event (availableBitrateEventCalled s) nowMs s)
  else
    only (notify s previousAvailableBitrate nowMs)
      (_ ← on_client (set_event true nowMs); log (ListenerBitrates (bitrates s))).

(** [OnTargetTransferRate(targetTransferRate)], with the rate in bits per second. *)
Definition OnTargetTransferRate (bps nowMs : Z) : M unit :=
  s ← asks client;
  if availableBitrateEventCalled s && (bps =? initialAvailableBitrate s) then mret tt
  else
    let previousAvailableBitrate := availableBitrate (bitrates s) in
    _ ← on_client (set_bitrates (set_available (if 2 ^ 32 - 1 <? bps then 2 ^ 32 - 1 else u32 bps)));
    MayEmitAvailableBitrateEvent previousAvailableBitrate nowMs.

Definition SendPacket (packet : RtpPacket.t) (pacing : PacedPacketInfo) : M unit := log (ListenerSendRtpPacket packet pacing).

Definition GeneratePadding (size : Z) : M RtpPacket.t :=
  s ← asks client;
  _ ← from_res (ms_assert (match rtpTransportControllerSend s with Some _ => true | None => false end));
  c ← from_res (deref (rtpTransportControllerSend s));
  p ← from_res (RtpProbationGenerator.GetNextPacket (probationGenerator c) size);
  _ ← on_client (set_controller (Some {| probationGenerator := p; processTimer := processTimer c |}));
  mret p.

(** [OnTimer] for the timer of the controller. *)
Definition OnTimer (untilNextProcess processInterval nowMs : Z) : M unit :=
  s ← asks client;
  c ← from_res (deref (rtpTransportControllerSend s));
  _ ← log Process;
  _ ← on_client (set_controller (Some {| probationGenerator := probationGenerator c; processTimer := Z.min untilNextProcess processInterval |}));
  s ← asks client;
  MayEmitAvailableBitrateEvent (availableBitrate (bitrates s)) nowMs.

End TransportCongestionControlClient.

(** ** Sending

    What a transport does with the packets of its consumers and with those of the pacer. *)

Module TransportSending.

Import TransportCongestionControlClient.

Record State := {
  tccClient : option World;
  transportWideCcSeq : Z;
  sendRtpTransmission : RtpDataCounter.State;
  sendRtxTransmission : RtpDataCounter.State;
  sendProbationTransmission : RtpDataCounter.State;
  traceProbation : bool;
}.

(** What goes to the class of the transport: the packet, whether it belongs to a consumer, and what its callback
    reports to the client if the packet was sent. *)
Inductive Output :=
| SendRtpPacket (of_consumer : bool) (packet : RtpPacket.t) (on_sent : option RtpPacketSendInfo)
| TraceProbation (packet : RtpPacket.t).

Record Sending := { transport : State; outputs : list Output }.

Abbreviation S := (St Sending).

Definition on_transport (f : State -> State) : S unit := change (fun w => {| transport := f (transport w); outputs := outputs w |}).
Definition output (o : Output) : S unit := change (fun w => {| transport := transport w; outputs := outputs w ++ [o] |}).

Definition set_client (c : option World) (s : State) : State :=
  {| tccClient := c; transportWideCcSeq := transportWideCcSeq s; sendRtpTransmission := sendRtpTransmission s;
     sendRtxTransmission := sendRtxTransmission s; sendProbationTransmission := sendProbationTransmission s;
     traceProbation := traceProbation s |}.
Definition set_wide (n : Z) (s : State) : State :=
  {| tccClient := tccClient s; transportWideCcSeq := n; sendRtpTransmission := sendRtpTransmission s;
     sendRtxTransmission := sendRtxTransmission s; sendProbationTransmission := sendProbationTransmission s;
     traceProbation := traceProbation s |}.
Definition set_counters (rtp rtx probation : RtpDataCounter.State) (s : State) : State :=
  {| tccClient := tccClient s; transportWideCcSeq := transportWideCcSeq s; sendRtpTransmission := rtp; sendRtxTransmission := rtx;
     sendProbationTransmission := probation; traceProbation := traceProbation s |}.

(** A call on the client of the transport. *)
Definition call {A} (m : M A) : S A :=
  s ← asks transport;
  c ← from_res (deref (tccClient s));
  '(a, c) ← from_res (m c);
  _ ← on_transport (set_client (Some c));
  mret a.

Definition is_transport_cc (s : State) : bool :=
  match tccClient s with Some c => bool_decide (bweType (client c) = TRANSPORT_CC) | None => false end.

(** [packet->UpdateTransportWideCc01(transportWideCcSeq + 1)], behind the conditions of the callers. *)
Definition number (uses : bool) (packet : RtpPacket.t) : S (bool * RtpPacket.t) :=
  s ← asks transport;
  if uses then from_res (RtpPacket.UpdateTransportWideCc01 packet (u16 (transportWideCcSeq s + 1))) else mret (false, packet).

(** What the three senders have in common: the packet is numbered, the pacer is told, and the
    callback reports the packet once it is sent.  [pacing] is the information of the pacer, [nowMs] the clock. *)
Definition send (of_consumer uses trace : bool) (pacing : S PacedPacketInfo) (packet : RtpPacket.t) (nowMs : Z) : S RtpPacket.t :=
  '(_, packet) ← from_res (RtpPacket.UpdateAbsSendTime packet nowMs);
  '(numbered, packet) ← number uses packet;
  if numbered : bool then
    _ ← on_transport (fun s => set_wide (u16 (transportWideCcSeq s + 1)) s);
    _ ← only trace (output (TraceProbation packet));
    s ← asks transport;
    ssrc ← from_res (RtpPacket.GetSsrc packet);
    seq ← from_res (RtpPacket.GetSequenceNumber packet);
    pacing ← pacing;
    let info := {| info_ssrc := ssrc; transport_sequence_number := transportWideCcSeq s; rtp_sequence_number := seq;
                   info_length := RtpPacket.GetSize packet; pacing_info := pacing |} in
    _ ← call (InsertPacket info);
    _ ← output (SendRtpPacket of_consumer packet (Some info));
    mret packet
  else
    _ ← only trace (output (TraceProbation packet));
    _ ← output (SendRtpPacket of_consumer packet None);
    mret packet.

(** [OnConsumerSendRtpPacket]; [cluster] is what the pacer answers. *)
Definition OnConsumerSendRtpPacket (packet : RtpPacket.t) (cluster nowMs : Z) : S unit :=
  s ← asks transport;
  packet ← send true (is_transport_cc s) false (call (GetPacingInfo cluster)) packet nowMs;
  s ← asks transport;
  c ← from_res (RtpDataCounter.Update (sendRtpTransmission s) (RtpPacket.GetSize packet) nowMs);
  on_transport (set_counters c (sendRtxTransmission s) (sendProbationTransmission s)).

Definition OnConsumerRetransmitRtpPacket (packet : RtpPacket.t) (cluster nowMs : Z) : S unit :=
  s ← asks transport;
  packet ← send true (is_transport_cc s) false (call (GetPacingInfo cluster)) packet nowMs;
  s ← asks transport;
  c ← from_res (RtpDataCounter.Update (sendRtxTransmission s) (RtpPacket.GetSize packet) nowMs);
  on_transport (set_counters (sendRtpTransmission s) c (sendProbationTransmission s)).

(** [OnTransportCongestionControlClientSendRtpPacket]: the client is dereferenced. *)
Definition OnTransportCongestionControlClientSendRtpPacket (packet : RtpPacket.t) (pacing : PacedPacketInfo) (nowMs : Z) : S unit :=
  s ← asks transport;
  _ ← from_res (deref (tccClient s));
  packet ← send false (is_transport_cc s) (traceProbation s) (mret pacing) packet nowMs;
  s ← asks transport;
  c ← from_res (RtpDataCounter.Update (sendProbationTransmission s) (RtpPacket.GetSize packet) nowMs);
  on_transport (set_counters (sendRtpTransmission s) (sendRtxTransmission s) c).

(** The callback of a packet that was sent, while the client exists. *)
Definition on_sent (info : RtpPacketSendInfo) (nowMs : Z) : S unit :=
  s ← asks transport;
  match tccClient s with Some _ => call (PacketSent info nowMs) | None => mret tt end.

End TransportSending.
