(* ===== verification/CongestionClientSpec.v ===== *)
(** * Congestion control of what is sent: what holds over all histories

    A client that is disconnected, processed or asked for padding only after it was connected never
    dereferences a null pointer and fails no assertion; the limits it hands to libwebrtc are those that were
    set; and the transport-wide numbers of the packets that a transport sends are consecutive. *)

From Stdlib Require Import SpecFloat.
From stdpp Require Import gmap.
From S2P Require Import Prelude StateMonad Utils Float RateCalculator RtcpPacket RtcpReports RtcpTransport RtpPacket Probation CongestionControl CongestionSpec CongestionClient.

Module CongestionClientSpec.

Import TransportCongestionControlClient.

(** ** Histories *)

Inductive Event :=
| Connected (env : Env)
| Disconnected (nowMs : Z)
| SetMaximum (bitrate nowMs : Z)
| SetMinimum (bitrate nowMs : Z)
| SetDesired (bitrate : Z) (force : bool) (nowMs : Z)
| TargetRate (bps nowMs : Z)
| Reschedule (nowMs : Z)
| Insert (info : RtpPacketSendInfo)
| Sent (info : RtpPacketSendInfo) (nowMs : Z)
| Remb (bitrate : Z)
| ReceiverReports (packet : ReceiverReportPacket.t) (rtt : spec_float) (nowMs : Z)
| Feedback (feedback : FeedbackRtpTransport.t)
| Padding (size : Z)
| Timer (until interval nowMs : Z).

Definition step (e : Event) : M unit :=
  match e with
  | Connected env => TransportConnected env
  | Disconnected nowMs => TransportDisconnected nowMs
  | SetMaximum bitrate nowMs => SetMaxOutgoingBitrate bitrate nowMs
  | SetMinimum bitrate nowMs => SetMinOutgoingBitrate bitrate nowMs
  | SetDesired bitrate force nowMs => SetDesiredBitrate bitrate force nowMs
  | TargetRate bps nowMs => OnTargetTransferRate bps nowMs
  | Reschedule nowMs => RescheduleNextAvailableBitrateEvent nowMs
  | Insert info => InsertPacket info
  | Sent info nowMs => PacketSent info nowMs
  | Remb bitrate => ReceiveEstimatedBitrate bitrate
  | ReceiverReports packet rtt nowMs => ReceiveRtcpReceiverReport packet rtt nowMs
  | Feedback feedback => ReceiveRtcpTransportFeedback feedback
  | Padding size => p ← GeneratePadding size; SendPacket p NoPacing
  | Timer until interval nowMs => OnTimer until interval nowMs
  end.

(** Disconnections, padding and timers come after a connection: the transport disconnects what was
    connected, and only the controller asks for padding and has a timer. *)
Definition needs_controller (e : Event) : bool :=
  match e with Disconnected _ | Padding _ | Timer _ _ _ => true | _ => false end.
Definition connects (e : Event) : bool := match e with Connected _ => true | _ => false end.

(** The buffer of the probation has its size, reports are 24 bytes, and the results of a feedback packet can
    be read: a packet of the remote side can be made so that they cannot
    ([FeedbackRtpTransport.counters_wrap_crash]). *)
Definition event_ok (e : Event) : Prop :=
  match e with
  | Connected env => zlen (junk env) = 1400 /\ fits 32 (random_ts env)
  | ReceiverReports packet _ _ => Forall (fun report => zlen report = 24) (ReceiverReportPacket.reports packet)
  | Feedback feedback => safe (FeedbackRtpTransport.GetPacketResults feedback)
  | _ => True
  end.

Fixpoint admissible (connected : bool) (l : list Event) : Prop :=
  match l with
  | [] => True
  | e :: l' => event_ok e /\ (needs_controller e = true -> connected = true) /\ admissible (connected || connects e) l'
  end.

(** ** The invariant *)

(** The limits that libwebrtc is given are those of the client [s]: the minimum is the one that was set, but at
    least 30 kbps, and the maximum is not over the one that was set, if any. *)
Definition limits_ok (s : State) (c : Call) : Prop :=
  match c with
  | SetAllocatedSendBitrateLimits low _ high | SetClientBitratePreferences _ low high _ =>
      low = Z.max (minOutgoingBitrate s) TransportCongestionControlMinOutgoingBitrate /\
      (0 < maxOutgoingBitrate s -> high <= maxOutgoingBitrate s)
  | _ => True
  end.

(** [before]: the calls made before the event that is handled. *)
Record inv (before : list Call) (connected : bool) (w : World) : Prop := {
  inv_controller : match rtpTransportControllerSend (client w) with
                   | Some c => exists seq ts n, RtpProbationGenerator.probing (probationGenerator c) seq ts n
                   | None => connected = false
                   end;
  inv_maximum : 0 < maxOutgoingBitrate (client w) -> maxBitrate (bitrates (client w)) <= maxOutgoingBitrate (client w);
  inv_limits : exists new, calls w = before ++ new /\ Forall (limits_ok (client w)) new;
}.

Abbreviation conversion := (fun f : fault => f = BadConversion).

Section Steps.

Context (l : list Call) (b : bool).
Implicit Types w : World.

(** Changes that keep the controller, the limits and the maximum. *)
Lemma steady_client f :
  (forall s, rtpTransportControllerSend (f s) = rtpTransportControllerSend s /\ maxOutgoingBitrate (f s) = maxOutgoingBitrate s /\
     minOutgoingBitrate (f s) = minOutgoingBitrate s /\ maxBitrate (bitrates (f s)) = maxBitrate (bitrates s)) -> steady (inv l b) conversion (on_client f).
Proof.
  intros Hf. apply steady_change. intros w [Hc Hm (new & E & Hn)]. destruct (Hf (client w)) as (H1 & H2 & H3 & H4).
  split; cbn [client calls]; [by rewrite H1|by rewrite H2, H4|]. exists new. split; [done|]. eapply Forall_impl; [exact Hn|].
  intros c. unfold limits_ok. destruct c; by rewrite ?H2, ?H3.
Qed.

Lemma logged c w : limits_ok (client w) c -> inv l b w -> post (log c) (fun _ => inv l b) conversion w.
Proof.
  intros Hc [H1 H2 (new & E & Hn)]. apply post_change. split; [done..|]. exists (new ++ [c]). cbn [calls client]. rewrite E, app_assoc. split; [done|].
  apply Forall_app. by split; [|constructor].
Qed.

Lemma steady_log c : (forall s, limits_ok s c) -> steady (inv l b) conversion (log c).
Proof. intros Hc w Hw. by apply logged. Qed.

Lemma steady_if m : steady (inv l b) conversion m -> steady (inv l b) conversion (if_controlled m).
Proof. intros Hm. unfold if_controlled. apply steady_bind; [apply steady_asks|]. intros s. destruct (rtpTransportControllerSend s); [done|apply steady_ret]. Qed.

Lemma u32_of_float_faults x f : u32_of_float x = Fault f -> f = BadConversion.
Proof. unfold u32_of_float. destruct x; try congruence. case_match; congruence. Qed.

Lemma new_maximum_spec s :
  match new_maximum s with
  | Ok n => 0 < maxOutgoingBitrate s -> n <= maxOutgoingBitrate s
  | Fault f => f = BadConversion
  end.
Proof.
  unfold new_maximum.
  assert (H : forall r : res Z, (forall f, r = Fault f -> f = BadConversion) ->
    match (new ← r; mret (if 0 <? maxOutgoingBitrate s then Z.min (maxOutgoingBitrate s) new else new)) with
    | Ok n => 0 < maxOutgoingBitrate s -> n <= maxOutgoingBitrate s
    | Fault f => f = BadConversion
    end).
  { intros [n|f] Hr; cbn [mbind res_bind mret res_ret]; [|by apply Hr]. destruct (Z.ltb_spec 0 (maxOutgoingBitrate s)); lia. }
  apply H. intros f.
  destruct (0 <? TrendCalculator.GetValue _); intros Hf; [|discriminate Hf].
  destruct (u32_of_float _) eqn:E; [discriminate Hf|].
  injection Hf as <-. by eapply u32_of_float_faults.
Qed.

(** Applying the bitrates brings the maximum under its limit. *)
Lemma ApplyBitrateUpdates_inv nowMs w :
  (match rtpTransportControllerSend (client w) with
   | Some c => exists seq ts n, RtpProbationGenerator.probing (probationGenerator c) seq ts n
   | None => b = false
   end) -> (exists new, calls w = l ++ new /\ Forall (limits_ok (client w)) new) ->
  post (ApplyBitrateUpdates nowMs) (fun _ => inv l b) conversion w.
Proof.
  intros Hc Hl. unfold ApplyBitrateUpdates. apply post_bind, post_asks, post_bind, post_from_res.
  pose proof (new_maximum_spec (client w)) as Hn. destruct (new_maximum (client w)) as [n|f]; [|done].
  apply post_bind.
  apply (post_mono _ (fun _ w1 => inv l b w1)).
  - destruct (Z.eqb_spec n (maxBitrate (bitrates (client w)))) as [He|He]; cbn [negb].
    + apply post_ret. split; [done|by rewrite <- He|done].
    + apply post_bind, post_from_res. destruct (u32_of_float _) eqn:E; [|by eapply u32_of_float_faults].
      apply post_change. by split.
  - intros [] w1 Hw1. apply post_bind. eapply (post_mono _ (fun _ w2 => inv l b w2 /\ minBitrate (bitrates (client w2)) = minimum (client w2))).
    { apply post_change. split; [|done]. destruct Hw1 as [H1 H2 H3]. by split. }
    intros [] w2 [Hw2 Hmin]. apply post_bind, post_asks.
    assert (Hlim : forall w3, client w3 = client w2 -> forall low high, low = minBitrate (bitrates (client w2)) ->
      high = maxBitrate (bitrates (client w2)) -> low = Z.max (minOutgoingBitrate (client w3)) TransportCongestionControlMinOutgoingBitrate /\
        (0 < maxOutgoingBitrate (client w3) -> high <= maxOutgoingBitrate (client w3))).
    { intros w3 -> low high -> ->. split; [exact Hmin|apply Hw2]. }
    unfold if_controlled. apply post_bind, post_asks. destruct (rtpTransportControllerSend (client w2)); [|by apply post_ret].
    apply post_bind. eapply (post_mono _ (fun _ w3 => inv l b w3 /\ client w3 = client w2)).
    { pose proof (logged (SetAllocatedSendBitrateLimits (minBitrate (bitrates (client w2))) (maxPaddingBitrate (bitrates (client w2)))
        (maxBitrate (bitrates (client w2)))) w2 ltac:(by apply (Hlim w2)) Hw2) as H. split; [exact H|done]. }
    intros [] w3 [Hw3 E3]. apply logged; [|done]. by apply (Hlim w3).
Qed.

Lemma steady_event previous nowMs : steady (inv l b) conversion (MayEmitAvailableBitrateEvent previous nowMs).
Proof.
  unfold MayEmitAvailableBitrateEvent. apply steady_bind; [apply steady_asks|]. intros s. destruct (_ =? 0); [by apply steady_client|].
  apply steady_only. intros _. apply steady_bind; [by apply steady_client|]. intros []. by apply steady_log.
Qed.

Lemma SetMaxOutgoingBitrate_inv bitrate nowMs w : calls w = l -> inv l b w -> post (SetMaxOutgoingBitrate bitrate nowMs) (fun _ => inv l b) conversion w.
Proof.
  intros Hl [H1 H2 H3]. unfold SetMaxOutgoingBitrate. apply post_bind, post_change, post_bind.
  eapply post_mono; [apply ApplyBitrateUpdates_inv; [done|exists []; by rewrite app_nil_r]|]. intros [] w1. revert w1.
  change (steady (inv l b) conversion (s ← asks client; only (0 <? maxOutgoingBitrate s)
    (on_client (set_bitrates (fun b => set_available (Z.min (maxOutgoingBitrate s) (availableBitrate b)) b))))).
  apply steady_bind; [apply steady_asks|]. intros s. apply steady_only. intros _. by apply steady_client.
Qed.

Lemma SetMinOutgoingBitrate_inv bitrate nowMs w : calls w = l -> inv l b w -> post (SetMinOutgoingBitrate bitrate nowMs) (fun _ => inv l b) conversion w.
Proof.
  intros Hl [H1 H2 H3]. unfold SetMinOutgoingBitrate. apply post_bind, post_change, post_bind.
  eapply post_mono; [apply ApplyBitrateUpdates_inv; [done|exists []; by rewrite app_nil_r]|]. intros [] w1. by apply steady_client.
Qed.

Lemma SetDesiredBitrate_inv desired force nowMs : steady (inv l b) conversion (SetDesiredBitrate desired force nowMs).
Proof.
  unfold SetDesiredBitrate. apply steady_bind; [apply steady_asks|]. intros s. apply steady_bind.
  { intros w Hw. apply post_from_res. destruct force; [exact Hw|]. unfold TrendCalculator.Update. cbn [negb].
    destruct (_ =? 0); [exact Hw|]. destruct (_ <=? _); [exact Hw|]. unfold TrendCalculator.subtraction.
    destruct (u32_of_float _) eqn:E; [exact Hw|]. by eapply u32_of_float_faults. }
  intros trend. do 4 (apply steady_bind; [by apply steady_client|intros []]). intros w [H1 H2 H3]. by apply ApplyBitrateUpdates_inv.
Qed.

Lemma OnTargetTransferRate_inv bps nowMs : steady (inv l b) conversion (OnTargetTransferRate bps nowMs).
Proof.
  unfold OnTargetTransferRate. apply steady_bind; [apply steady_asks|]. intros s. destruct (_ && _); [apply steady_ret|].
  apply steady_bind; [by apply steady_client|]. intros []. apply steady_event.
Qed.

(** *** Reports *)

Lemma report_blocks_safe sender reports : Forall (fun report => zlen report = 24) reports -> safe (report_blocks sender reports).
Proof.
  induction 1 as [|report reports Hr _ [bs IH]]; cbn [report_blocks]; [by eexists|].
  unfold ReceiverReport.GetSsrc, ReceiverReport.GetFractionLost, ReceiverReport.GetTotalLost, ReceiverReport.GetLastSeq, ReceiverReport.GetJitter,
    ReceiverReport.GetLastSenderReport, ReceiverReport.GetDelaySinceLastSenderReport, Byte.Get1Byte.
  destruct (Get4Bytes_safe report 0) as [? ->]; [lia..|]. cbn [mbind res_bind]. destruct (read_in_range report 4) as (? & -> & _); [lia|]. cbn [mbind res_bind].
  destruct (Get3Bytes_safe report 5) as [v ->]; [lia..|]. cbn [mbind res_bind].
  destruct (Get4Bytes_safe report 8) as [? ->]; [lia..|]. destruct (Get4Bytes_safe report 12) as [? ->]; [lia..|].
  destruct (Get4Bytes_safe report 16) as [? ->]; [lia..|]. destruct (Get4Bytes_safe report 20) as [? ->]; [lia..|]. rewrite IH.
  destruct (_ =? 0); by eexists.
Qed.

Lemma i64_of_float_faults x f : i64_of_float x = Fault f -> f = BadConversion.
Proof. unfold i64_of_float. destruct x; try congruence. cbv zeta. case_match; congruence. Qed.

Lemma ReceiveRtcpReceiverReport_inv packet rtt nowMs : Forall (fun report => zlen report = 24) (ReceiverReportPacket.reports packet) ->
  steady (inv l b) conversion (ReceiveRtcpReceiverReport packet rtt nowMs).
Proof.
  intros Hr w Hw. unfold ReceiveRtcpReceiverReport. apply post_bind, post_from_res.
  destruct (report_blocks_safe (ReceiverReportPacket.ssrc packet) _ Hr) as [bs ->]. apply steady_if; [|done].
  intros w1 Hw1. apply post_bind, post_from_res. destruct (i64_of_float rtt) eqn:E; [by apply logged|by eapply i64_of_float_faults].
Qed.

Lemma ReceiveRtcpTransportFeedback_inv feedback : safe (FeedbackRtpTransport.GetPacketResults feedback) ->
  steady (inv l b) conversion (ReceiveRtcpTransportFeedback feedback).
Proof.
  intros [rs Hrs] w Hw. unfold ReceiveRtcpTransportFeedback. apply post_bind, post_from_res. rewrite Hrs. apply post_bind.
  eapply post_mono; [by apply steady_client|]. intros [] w1 Hw1. apply steady_if; [|done]. by apply steady_log.
Qed.

End Steps.

(** With a controller. *)
Lemma inv_connected l w : inv l true w -> exists c seq ts n,
  rtpTransportControllerSend (client w) = Some c /\ RtpProbationGenerator.probing (probationGenerator c) seq ts n.
Proof. intros [Hc _ _]. destruct (rtpTransportControllerSend (client w)) as [c|]; [|done]. destruct Hc as (seq & ts & n & H). by exists c, seq, ts, n. Qed.

Lemma inv_weaken l w b : inv l true w -> inv l b w.
Proof. intros [H1 H2 H3]. split; [|done..]. destruct (rtpTransportControllerSend (client w)); [done|by destruct b]. Qed.

Lemma TransportConnected_inv l b env w :
  zlen (junk env) = 1400 -> fits 32 (random_ts env) -> inv l b w -> post (TransportConnected env) (fun _ => inv l true) conversion w.
Proof.
  intros Hj Ht [H1 H2 H3]. unfold TransportConnected. apply post_bind, post_asks, post_bind.
  apply (post_mono _ (fun _ w1 => inv l true w1)).
  - destruct (rtpTransportControllerSend (client w)) as [c|] eqn:Ec.
    { apply post_ret. split; [by rewrite Ec|done..]. }
    unfold InitializeController. apply post_bind, post_asks. rewrite Ec. apply post_bind, post_from_res. cbn [ms_assert].
    apply post_bind, post_change, post_bind, post_from_res.
    destruct (RtpProbationGenerator.make_probing (junk env) (random_seq env) (random_ts env) Hj Ht) as (p & -> & Hp).
    apply post_change. destruct H3 as (new & E & Hn). split; cbn [client calls]; [by eexists _, _, _|done|].
    exists (new ++ [ControllerCreated (i32 (initialAvailableBitrate (client w)))]). rewrite E, app_assoc. split; [done|]. apply Forall_app. by split; [|constructor].
  - intros [] w1 Hw1. destruct (inv_connected l w1 Hw1) as (c & _ & _ & _ & Hc & _). apply post_bind, post_asks, post_bind, post_from_res.
    rewrite Hc. cbn [deref]. by apply steady_log.
Qed.

(** Following the pointer to the controller. *)
Lemma post_controller {A} l (m : Controller -> M A) (Q : A -> World -> Prop) w :
  inv l true w ->
  (forall c seq ts n, rtpTransportControllerSend (client w) = Some c -> RtpProbationGenerator.probing (probationGenerator c) seq ts n ->
     post (m c) Q conversion w) ->
  post (s ← asks client; c ← from_res (deref (rtpTransportControllerSend s)); m c) Q conversion w.
Proof.
  intros Hw Hm. destruct (inv_connected l w Hw) as (c & seq & ts & n & Hc & Hp). apply post_bind, post_asks, post_bind, post_from_res.
  rewrite Hc. by apply (Hm c seq ts n).
Qed.

Lemma set_controller_inv l (c : Controller) seq ts n w :
  inv l true w -> RtpProbationGenerator.probing (probationGenerator c) seq ts n ->
  inv l true {| client := set_controller (Some c) (client w); calls := calls w |}.
Proof. intros [_ H2 H3] Hp. split; [by exists seq, ts, n|done..]. Qed.

Lemma TransportDisconnected_inv l nowMs : steady (inv l true) conversion (TransportDisconnected nowMs).
Proof.
  unfold TransportDisconnected. do 2 (apply steady_bind; [by apply steady_client|intros []]). intros w Hw.
  apply (post_controller l); [done|]. intros. by apply steady_log.
Qed.

Lemma Padding_inv l size : steady (inv l true) conversion (p ← GeneratePadding size; SendPacket p NoPacing).
Proof.
  intros w Hw. destruct (inv_connected l w Hw) as (c & seq & ts & n & Hc & Hp). unfold GeneratePadding.
  apply post_bind, post_bind, post_asks, post_bind, post_from_res. rewrite Hc. cbn [ms_assert].
  apply post_bind, post_from_res. cbn [deref].
  destruct (RtpProbationGenerator.GetNextPacket_probing _ _ _ _ size Hp) as (p' & E & Hp').
  apply post_bind, post_from_res. rewrite E. apply post_bind, post_change, post_ret.
  apply steady_log; [done|]. by eapply set_controller_inv.
Qed.

Lemma OnTimer_inv l until interval nowMs : steady (inv l true) conversion (OnTimer until interval nowMs).
Proof.
  intros w Hw. unfold OnTimer. apply (post_controller l); [done|]. intros c seq ts n Hc Hp.
  apply post_bind. eapply post_mono; [by apply steady_log|]. intros [] w1 Hw1.
  apply post_bind, post_change, post_bind, post_asks. apply steady_event. by eapply set_controller_inv.
Qed.

(** Every event keeps the invariant. *)
Lemma step_inv connected e w :
  event_ok e -> (needs_controller e = true -> connected = true) -> inv (calls w) connected w ->
  post (step e) (fun _ => inv (calls w) (connected || connects e)) conversion w.
Proof.
  intros Hok Hc Hw. destruct e; cbn [connects needs_controller event_ok step] in *; rewrite ?orb_false_r, ?orb_true_r.
  - destruct Hok. by eapply TransportConnected_inv.
  - rewrite Hc in * by done. by apply TransportDisconnected_inv.
  - by apply SetMaxOutgoingBitrate_inv.
  - by apply SetMinOutgoingBitrate_inv.
  - by apply SetDesiredBitrate_inv.
  - by apply OnTargetTransferRate_inv.
  - by apply steady_client.
  - apply steady_if; [|done]. apply steady_bind; [by apply steady_log|]. intros []. by apply steady_log.
  - apply steady_if; [|done]. by apply steady_log.
  - apply steady_if; [|done]. by apply steady_log.
  - by apply ReceiveRtcpReceiverReport_inv.
  - by apply ReceiveRtcpTransportFeedback_inv.
  - rewrite Hc in * by done. by apply Padding_inv.
  - rewrite Hc in * by done. by apply OnTimer_inv.
Qed.

Definition start (ty : BweType) (initial maximum minimum : Z) : World := {| client := make ty initial maximum minimum; calls := [] |}.

Lemma start_inv ty initial maximum minimum : inv [] false (start ty initial maximum minimum).
Proof. split; cbn; [done|lia|by exists []]. Qed.

(** The next event starts from the calls made so far. *)
Lemma inv_next l b w : inv l b w -> inv (calls w) b w.
Proof. intros [H1 H2 _]. split; [done..|]. exists []. by rewrite app_nil_r. Qed.

Lemma history_inv evs : forall connected w, admissible connected evs -> inv (calls w) connected w ->
  post (for_each step evs) (fun _ w' => inv (calls w') (connected || existsb connects evs) w') conversion w.
Proof.
  induction evs as [|e evs IH]; intros connected w Hev Hw; cbn [for_each existsb]; [by rewrite orb_false_r|].
  destruct Hev as (Hok & Hc & Hev). apply post_bind. eapply post_mono; [by apply step_inv|]. intros [] w1 Hw1. rewrite orb_assoc.
  apply IH; [done|]. by eapply inv_next.
Qed.

Lemma admissible_snoc evs e : forall connected, admissible connected (evs ++ [e]) ->
  admissible connected evs /\ event_ok e /\ (needs_controller e = true -> connected || existsb connects evs = true).
Proof.
  induction evs as [|e0 evs IH]; intros connected; cbn [app admissible existsb].
  - rewrite orb_false_r. intuition.
  - intros (H1 & H2 & H3). destruct (IH _ H3) as (H4 & H5 & H6). rewrite orb_assoc. intuition.
Qed.

(** C20: The congestion control of what a transport sends, over every history of connections, limits, desired
    bitrates, estimations, packets, REMB, receiver reports, transport-wide feedback, padding and timers.
    Disconnections, padding and timers come after a connection, reports have 24 bytes, and the results of
    the feedback packets can be read.  Then no event dereferences a null pointer, fails an assertion
    or reads outside of a buffer; the only fault is a bitrate or a round trip time that does not fit its
    conversion from [float] to an integer.  In every call that an event makes to give limits to
    libwebrtc, the minimum is the one that is set, but at least 30 kbps, and the maximum is not over
    the one that is set, if any; and neither is the maximum of the client. *)
Theorem client_history_safe ty initial maximum minimum evs e :
  admissible false (evs ++ [e]) ->
  match for_each step evs (start ty initial maximum minimum) with
  | Ok (_, w) =>
      match step e w with
      | Ok (_, w') =>
          (exists new, calls w' = calls w ++ new /\ Forall (limits_ok (client w')) new) /\
          (0 < maxOutgoingBitrate (client w') -> maxBitrate (bitrates (client w')) <= maxOutgoingBitrate (client w'))
      | Fault f => f = BadConversion
      end
  | Fault f => f = BadConversion
  end.
Proof.
  intros (Hev & Hok & Hc)%admissible_snoc.
  pose proof (history_inv evs false (start ty initial maximum minimum) Hev (start_inv ty initial maximum minimum)) as Hs. unfold post in Hs.
  destruct (for_each step evs (start ty initial maximum minimum)) as [[[] w]|f]; [|exact Hs].
  pose proof (step_inv _ e w Hok Hc Hs) as H. unfold post in H. destruct (step e w) as [[[] w']|f]; [|exact H]. by destruct H.
Qed.

Definition sample_env : Env :=
  {| junk := replicate 1400 0; random_seq := 5; random_ts := 6; untilNextProcess := 5; processInterval := 25 |}.

Definition sample_feedback : FeedbackRtpTransport.t := FeedbackRtpTransport.create 1 2.
Definition sample_report : list Z := replicate 24 7.

Definition sample_events : list Event :=
  [SetMaximum 900000 1; Connected sample_env; SetDesired 2000000 false 10; TargetRate 500000 20; TargetRate 700000 1500; Padding 200;
   ReceiverReports {| ReceiverReportPacket.ssrc := 1; ReceiverReportPacket.reports := [sample_report] |} (f32_of_Z 20) 1600;
   Feedback sample_feedback; SetDesired 100000 false 2000; Timer 5 25 3000; Disconnected 4000; SetDesired 500000 true 4100].

Lemma client_history_safe_witness :
  exists w w', for_each step sample_events (start TRANSPORT_CC 600000 0 0) = Ok (tt, w) /\ step (SetMaximum 300000 4200) w = Ok (tt, w') /\
    (exists new, calls w' = calls w ++ new /\ Forall (limits_ok (client w')) new) /\ maxBitrate (bitrates (client w')) = 300000 /\
    (0 < maxOutgoingBitrate (client w') -> maxBitrate (bitrates (client w')) <= maxOutgoingBitrate (client w')).
Proof.
  assert (Hadm : admissible false (sample_events ++ [SetMaximum 300000 4200])).
  { repeat split; try done; try (by vm_compute); [by repeat constructor|by eexists]. }
  pose proof (client_history_safe TRANSPORT_CC 600000 0 0 sample_events (SetMaximum 300000 4200) Hadm) as H.
  destruct (for_each step sample_events (start TRANSPORT_CC 600000 0 0)) as [[[] w]|f] eqn:E; [|vm_compute in E; discriminate E].
  exists w. vm_compute in E. injection E as E. destruct (step (SetMaximum 300000 4200) w) as [[[] w']|f] eqn:E'.
  - exists w'. destruct H as [H1 H2]. split_and!; [done|done|exact H1| |exact H2]. rewrite <- E in E'. vm_compute in E'. injection E' as <-. reflexivity.
  - rewrite <- E in E'. vm_compute in E'. discriminate E'.
Defined.

(** A bitrate over 3.18 Gbps does not fit, once it is increased. *)
Lemma desired_bitrate_overflow :
  for_each step [SetDesired 3200000000 true 10] (start TRANSPORT_CC 600000 0 0) = Fault BadConversion.
Proof. by vm_compute. Qed.

End CongestionClientSpec.

(** ** The transport-wide numbers *)

Module SendingSpec.

Import TransportCongestionControlClient TransportSending.

Inductive Event :=
| Media (packet : RtpPacket.t) (cluster nowMs : Z)
| Retransmission (packet : RtpPacket.t) (cluster nowMs : Z)
| Probation (packet : RtpPacket.t) (pacing : PacedPacketInfo) (nowMs : Z)
| Reported (info : RtpPacketSendInfo) (nowMs : Z).

Definition step (e : Event) : St Sending unit :=
  match e with
  | Media packet cluster nowMs => OnConsumerSendRtpPacket packet cluster nowMs
  | Retransmission packet cluster nowMs => OnConsumerRetransmitRtpPacket packet cluster nowMs
  | Probation packet pacing nowMs => OnTransportCongestionControlClientSendRtpPacket packet pacing nowMs
  | Reported info nowMs => on_sent info nowMs
  end.

(** The numbers of the packets that were sent with one. *)
Definition numbers (l : list Output) : list Z :=
  omap (fun o => match o with SendRtpPacket _ _ (Some info) => Some (transport_sequence_number info) | _ => None end) l.

Lemma numbers_app l m : numbers (l ++ m) = numbers l ++ numbers m.
Proof. apply omap_app. Qed.

(** [n] numbers were given out, starting after [first]. *)
Record counted (first : Z) (w : Sending) : Prop := {
  ct_numbers : numbers (outputs w) = (fun i => u16 (first + i)) <$> seqZ 1 (zlen (numbers (outputs w)));
  ct_last : transportWideCcSeq (transport w) = u16 (first + zlen (numbers (outputs w)));
}.

Abbreviation anything := (fun _ : fault => True).

Lemma counted_same first w w' :
  counted first w -> numbers (outputs w') = numbers (outputs w) -> transportWideCcSeq (transport w') = transportWideCcSeq (transport w) ->
  counted first w'.
Proof. intros [H1 H2] E1 E2. split; rewrite ?E1, ?E2; done. Qed.

Lemma counted_next first w w' :
  counted first w -> numbers (outputs w') = numbers (outputs w) ++ [transportWideCcSeq (transport w')] ->
  transportWideCcSeq (transport w') = u16 (transportWideCcSeq (transport w) + 1) -> counted first w'.
Proof.
  intros [H1 H2] E1 E2.
  assert (Hl : transportWideCcSeq (transport w') = u16 (first + (zlen (numbers (outputs w)) + 1))) by (rewrite E2, H2; ulia).
  pose proof (zlen_nonneg (numbers (outputs w))) as Hn.
  assert (Hz : zlen (numbers (outputs w')) = zlen (numbers (outputs w)) + 1) by (rewrite E1, zlen_app; done).
  split; [|by rewrite Hz]. rewrite Hz, E1, H1 at 1. rewrite seqZ_app by lia. rewrite fmap_app. f_equal.
  rewrite Hl. change (seqZ ?a 1) with [a]. cbn [fmap list_fmap]. do 2 f_equal. lia.
Qed.

(** A call on the client leaves the numbers alone. *)
Lemma call_same {A} (m : M A) (Q : A -> Sending -> Prop) w :
  (forall a w', transportWideCcSeq (transport w') = transportWideCcSeq (transport w) -> outputs w' = outputs w -> Q a w') ->
  post (call m) Q anything w.
Proof.
  intros HQ. unfold call. apply post_bind, post_asks, post_bind, post_from_res. destruct (deref _) as [c|]; [|done].
  apply post_bind, post_from_res. destruct (m c) as [[a c']|]; [|done]. apply post_bind, post_change, post_ret. by apply HQ.
Qed.

Lemma send_counted first of_consumer uses trace pacing packet nowMs w :
  (forall w (Q : PacedPacketInfo -> Sending -> Prop),
     (forall a w', transportWideCcSeq (transport w') = transportWideCcSeq (transport w) -> outputs w' = outputs w -> Q a w') ->
     post pacing Q anything w) ->
  counted first w -> post (send of_consumer uses trace pacing packet nowMs) (fun _ => counted first) anything w.
Proof.
  intros Hpacing Hw. unfold send. apply post_bind, post_from_res. destruct (RtpPacket.UpdateAbsSendTime packet nowMs) as [[? p]|]; [|done].
  apply post_bind. unfold number. apply post_bind, post_asks.
  apply (post_mono _ (fun _ w' => w' = w)).
  { destruct uses; [|done]. apply post_from_res. by destruct (RtpPacket.UpdateTransportWideCc01 _ _). }
  intros [[|] p'] w' ->.
  - apply post_bind, post_change, post_bind. set (w1 := {| transport := _; outputs := _ |}).
    apply (post_mono _ (fun _ w2 => numbers (outputs w2) = numbers (outputs w) /\ transport w2 = transport w1)).
    { apply post_only; intros _; [|done]. apply post_change. cbn [outputs transport]. by rewrite numbers_app, app_nil_r. }
    intros [] w2 [E1 E2]. apply post_bind, post_asks, post_bind, post_from_res. destruct (RtpPacket.GetSsrc p'); [|done].
    apply post_bind, post_from_res. destruct (RtpPacket.GetSequenceNumber p'); [|done]. apply post_bind, Hpacing. intros pi w3 E3 E4.
    apply post_bind, call_same. intros [] w4 E5 E6. apply post_bind, post_change, post_ret.
    apply (counted_next first w); [done| |].
    + cbn [outputs transport]. rewrite numbers_app, E6, E4, E1. cbn. by rewrite E5, E3.
    + cbn [transport]. by rewrite E5, E3, E2.
  - apply post_bind, post_only; intros _; [apply post_change|]; apply post_bind, post_change, post_ret;
      (apply (counted_same first w); [done| |done]); cbn [outputs]; by rewrite !numbers_app, !app_nil_r.
Qed.

(** The packets that a transport sends with a transport-wide number, those of its consumers, retransmissions
    and probation alike and in the order in which they are sent, have consecutive numbers, modulo 2^16, whatever
    else happens in between. *)
Theorem transport_numbers evs w w' :
  outputs w = [] -> fits 16 (transportWideCcSeq (transport w)) -> for_each step evs w = Ok (tt, w') ->
  numbers (outputs w') =
    (fun i => u16 (transportWideCcSeq (transport w) + i)) <$> seqZ 1 (zlen (numbers (outputs w'))).
Proof.
  intros Hout Hfit Hrun. set (first := transportWideCcSeq (transport w)) in *.
  assert (Hw : counted first w) by (split; rewrite Hout; [done|]; change (zlen (numbers [])) with 0; by rewrite Z.add_0_r, uwrap_id).
  assert (Hstep : forall e, steady (counted first) anything (step e)); [|].
  2: { pose proof (steady_for_each _ _ step evs Hstep w Hw) as H. unfold post in H. rewrite Hrun in H. apply H. }
  assert (Hfin : forall f, (forall s, transportWideCcSeq (f s) = transportWideCcSeq s) -> steady (counted first) anything (on_transport f)).
  { intros f Hf. apply steady_change. intros x Hx. apply (counted_same first x); [done|done|]. apply Hf. }
  intros [packet cluster nowMs|packet cluster nowMs|packet pacing nowMs|info nowMs]; cbn [step];
    [unfold OnConsumerSendRtpPacket|unfold OnConsumerRetransmitRtpPacket|unfold OnTransportCongestionControlClientSendRtpPacket|unfold on_sent].
  1-2: apply steady_bind; [apply steady_asks|intros s]; apply steady_bind;
    [intros x Hx; apply send_counted; [intros; by apply call_same|done]|intros p]; apply steady_bind; [apply steady_asks|intros s'];
    apply steady_bind; [apply always_from_res|intros c; by apply Hfin].
  - apply steady_bind; [apply steady_asks|intros s]. apply steady_bind; [apply always_from_res|intros _]. apply steady_bind.
    { intros x Hx. apply send_counted; [|done]. intros y Q HQ. by apply post_ret, HQ. }
    intros p. apply steady_bind; [apply steady_asks|intros s']. apply steady_bind; [apply always_from_res|intros c; by apply Hfin].
  - apply steady_bind; [apply steady_asks|intros s]. destruct (tccClient s); [|apply steady_ret]. intros x Hx. apply call_same.
    intros [] y E1 E2. apply (counted_same first x); [done|by rewrite E2|done].
Qed.

Definition sample_sending : Sending :=
  {| transport := {| tccClient := Some (CongestionClientSpec.start TRANSPORT_CC 600000 0 0); transportWideCcSeq := 65534;
                     sendRtpTransmission := RtpDataCounter.create 2500; sendRtxTransmission := RtpDataCounter.create 1000;
                     sendProbationTransmission := RtpDataCounter.create 100; traceProbation := true |};
     outputs := [] |}.

Definition sample_sends : list Event :=
  [Media (CongestionSpec.sample_packet 0) 1 5000; Probation (CongestionSpec.sample_packet 0) NoPacing 5010;
   Retransmission (CongestionSpec.sample_packet 0) 1 5020].

Lemma transport_numbers_witness :
  exists w', for_each step sample_sends sample_sending = Ok (tt, w') /\ numbers (outputs w') = [65535; 0; 1] /\
    numbers (outputs w') = (fun i => u16 (65534 + i)) <$> seqZ 1 (zlen (numbers (outputs w'))).
Proof.
  destruct (for_each step sample_sends sample_sending) as [[[] w']|f] eqn:E; [|vm_compute in E; discriminate E].
  exists w'. split; [done|]. split; [vm_compute in E; by injection E as <-|].
  assert (Hfit : fits 16 (transportWideCcSeq (transport sample_sending))) by (split; by vm_compute).
  pose proof (transport_numbers sample_sends sample_sending w' eq_refl Hfit E) as H.
  change (transportWideCcSeq (transport sample_sending)) with 65534 in H. exact H.
Defined.

End SendingSpec.
