(* ===== verification/AudioLevelObserver.v ===== *)
(** * Audio level observer

    Models [worker/src/RTC/AudioLevelObserver.cpp] and what it inherits from
    [worker/src/RTC/RtpObserver.cpp].  Producers are addresses; their ids are read through
    [ids] when a report is made.  The order in which the hash map of producers is walked is not
    specified: it is an argument.  The periodic timer is whether it runs. *)

From stdpp Require Import gmap sorting.
From S2P Require Import Prelude Multimap Utils RtcpPacket RtpPacket RtpParameters Consumer RtpListener.

(** Conversion to [int8_t]. *)
Definition i8 (z : Z) : Z := if u8 z <? 2 ^ 7 then u8 z else u8 z - 2 ^ 8.

Module AudioLevelObserver.

Record DBovs := { totalSum : Z; count : Z }.
Definition no_levels : DBovs := {| totalSum := 0; count := 0 |}.

Record State := {
  maxEntries : Z;
  threshold : Z;
  interval : Z;
  periodicTimer : bool;
  mapProducerDBovs : gmap address DBovs;
  silence : bool;
  paused : bool;
}.

Inductive event := EmittedVolumes (l : list (str * Z)) | EmittedSilence.

Definition set_map (s : State) (m : gmap address DBovs) : State :=
  {| maxEntries := maxEntries s; threshold := threshold s; interval := interval s; periodicTimer := periodicTimer s;
     mapProducerDBovs := m; silence := silence s; paused := paused s |}.
Definition set_silence (s : State) (v : bool) : State :=
  {| maxEntries := maxEntries s; threshold := threshold s; interval := interval s; periodicTimer := periodicTimer s;
     mapProducerDBovs := mapProducerDBovs s; silence := v; paused := paused s |}.
Definition set_paused (s : State) (running v : bool) : State :=
  {| maxEntries := maxEntries s; threshold := threshold s; interval := interval s; periodicTimer := running;
     mapProducerDBovs := mapProducerDBovs s; silence := silence s; paused := v |}.

(** The numbers of the request, which are integers, at the widths they are converted to. *)
Definition make (max thr int : Z) : throws State :=
  let max := u16 max in
  let thr := i8 thr in
  let int := u16 int in
  if max <? 1 then None
  else if (thr <? -127) || (0 <? thr) then None
  else Some {| maxEntries := max; threshold := thr;
               interval := if int <? 250 then 250 else if 5000 <? int then 5000 else int;
               periodicTimer := true; mapProducerDBovs := ∅; silence := true; paused := false |}.

(** [map[key]]: an entry is made if there is none. *)
Definition enter (m : gmap address DBovs) (p : address) : gmap address DBovs :=
  match m !! p with Some _ => m | None => <[p := no_levels]> m end.

Definition AddProducer (s : State) (p : address) (k : Consumer.Kind) : throws State :=
  match k with Consumer.AUDIO => Some (set_map s (enter (mapProducerDBovs s) p)) | _ => None end.

Definition RemoveProducer (s : State) (p : address) : State := set_map s (delete p (mapProducerDBovs s)).

(** The sum has 16 bits and the counter 64. *)
Definition add_level (d : DBovs) (volume : Z) : DBovs :=
  {| totalSum := u16 (totalSum d + volume); count := u64 (count d + 1) |}.

(** [map.at(producer)] throws [std::out_of_range], which nothing catches. *)
Definition ReceiveRtpPacket (s : State) (p : address) (packet : RtpPacket.t) : res State :=
  if paused s then mret s
  else
    o ← RtpPacket.ReadSsrcAudioLevel packet;
    match o with
    | None => mret s
    | Some (volume, _) =>
        match mapProducerDBovs s !! p with
        | None => Fault OutOfBounds
        | Some d => mret (set_map s (<[p := add_level d volume]> (mapProducerDBovs s)))
        end
    end.

Definition ProducerPaused (s : State) (p : address) : State := set_map s (delete p (mapProducerDBovs s)).
Definition ProducerResumed (s : State) (p : address) : State := set_map s (enter (mapProducerDBovs s) p).

Definition ResetMapProducerDBovs (s : State) : State := set_map s ((fun _ => no_levels) <$> mapProducerDBovs s).

Definition Paused (s : State) : State * list event :=
  let s := ResetMapProducerDBovs (set_paused s false (paused s)) in
  if silence s then (s, []) else (set_silence s true, [EmittedSilence]).

Definition Resumed (s : State) : State := set_paused s true (paused s).

Definition Pause (s : State) : State * list event :=
  if paused s then (s, []) else Paused (set_paused s (periodicTimer s) true).

Definition Resume (s : State) : State :=
  if paused s then Resumed (set_paused s (periodicTimer s) false) else s.

(** The average of the levels: the division is one of integers. *)
Definition avgDBov (d : DBovs) : Z := -1 * i8 (totalSum d / count d).

Fixpoint mapDBovsProducer (order : list address) (s : State) (m : multimap address) : res (multimap address) :=
  match order with
  | [] => mret m
  | p :: order' =>
      d ← deref (mapProducerDBovs s !! p);
      mapDBovsProducer order' s
        (if count d <? 10 then m else if threshold s <=? avgDBov d then emplace (i8 (avgDBov d)) p m else m)
  end.

(** The entries of the report. *)
Fixpoint volumes (l : multimap address) (ids : gmap address str) : res (list (str * Z)) :=
  match l with
  | [] => mret []
  | (avg, p) :: l' => id ← deref (ids !! p); r ← volumes l' ids; mret ((id, avg) :: r)
  end.

Definition Update (s : State) (order : list address) (ids : gmap address str) : res (State * list event) :=
  m ← mapDBovsProducer order s [];
  let s := ResetMapProducerDBovs s in
  match m with
  | _ :: _ =>
      data ← volumes (take (Z.to_nat (maxEntries s)) (reverse m)) ids;
      mret (set_silence s false, [EmittedVolumes data])
  | [] => mret (if silence s then (s, []) else (set_silence s true, [EmittedSilence]))
  end.

(** The timer, when it runs. *)
Definition OnTimer (s : State) (order : list address) (ids : gmap address str) : res (State * list event) :=
  if periodicTimer s then Update s order ids else mret (s, []).

End AudioLevelObserver.

(** ** What the reports say

    [observed s h]: [s] is a state that a history of calls leads to, and [h] has for each
    producer of the map the levels read from its packets since the last report. *)

Module AudioLevels.

Import AudioLevelObserver.

Abbreviation heard := (gmap address (list Z)).

Definition listen (h : heard) (p : address) : heard := match h !! p with Some _ => h | None => <[p := []]> h end.
Definition forget (h : heard) : heard := (fun _ => []) <$> h.

(** The level that the observer hears in a packet. *)
Definition hear (s : State) (h : heard) (p : address) (packet : RtpPacket.t) : heard :=
  if paused s then h
  else match RtpPacket.ReadSsrcAudioLevel packet with
       | Ok (Some (volume, _)) => alter (cons volume) p h
       | _ => h
       end.

Inductive observed (max thr int : Z) : State -> heard -> Prop :=
| observed_make s : make max thr int = Some s -> observed max thr int s ∅
| observed_add s h p k s' : observed max thr int s h -> AddProducer s p k = Some s' -> observed max thr int s' (listen h p)
| observed_remove s h p : observed max thr int s h -> observed max thr int (RemoveProducer s p) (delete p h)
| observed_packet s h p packet s' :
    observed max thr int s h -> ReceiveRtpPacket s p packet = Ok s' -> observed max thr int s' (hear s h p packet)
| observed_producer_paused s h p : observed max thr int s h -> observed max thr int (ProducerPaused s p) (delete p h)
| observed_producer_resumed s h p : observed max thr int s h -> observed max thr int (ProducerResumed s p) (listen h p)
| observed_pause s h : observed max thr int s h -> observed max thr int (Pause s).1 (if paused s then h else forget h)
| observed_resume s h : observed max thr int s h -> observed max thr int (Resume s) h
| observed_timer s h order ids s' evs :
    observed max thr int s h -> OnTimer s order ids = Ok (s', evs) ->
    observed max thr int s' (if periodicTimer s then forget h else h).

Definition total (l : list Z) : Z := foldr Z.add 0 l.

(** The sum and the number of the levels, at the widths of the source. *)
Definition summary (l : list Z) : DBovs := {| totalSum := u16 (total l); count := u64 (zlen l) |}.

Abbreviation audible := (Forall (fun v => 0 <= v <= 127)).

Record agrees (max thr : Z) (s : State) (h : heard) : Prop := {
  agrees_map : mapProducerDBovs s = summary <$> h;
  agrees_levels : map_Forall (fun _ l => audible l) h;
  agrees_max : maxEntries s = u16 max;
  agrees_min : 1 <= u16 max;
  agrees_threshold : threshold s = i8 thr;
  agrees_timer : periodicTimer s = negb (paused s);
}.

Lemma enter_summary h p : enter (summary <$> h) p = summary <$> listen h p.
Proof.
  unfold enter, listen. rewrite lookup_fmap. destruct (h !! p); [done|]. cbn. by rewrite fmap_insert.
Qed.

Lemma reset_summary h : (fun _ => no_levels) <$> (summary <$> h) = summary <$> forget h.
Proof. unfold forget. rewrite <- !map_fmap_compose. apply map_fmap_ext. done. Qed.

Lemma forget_audible h : map_Forall (fun _ l => audible l) (forget h).
Proof. intros p l Hl. unfold forget in Hl. rewrite lookup_fmap in Hl. destruct (h !! p); simplify_eq/=. constructor. Qed.

Lemma listen_audible h p : map_Forall (fun _ l => audible l) h -> map_Forall (fun _ l => audible l) (listen h p).
Proof. intros H. unfold listen. destruct (h !! p); [done|]. apply map_Forall_insert_2; [constructor|done]. Qed.

Lemma add_level_summary l v : add_level (summary l) v = summary (v :: l).
Proof.
  unfold add_level, summary. cbn [totalSum count]. rewrite zlen_cons. unfold total. cbn [foldr]. unfold uwrap.
  f_equal; rewrite Zplus_mod_idemp_l; [f_equal; lia|done].
Qed.

Lemma level_range p o v : RtpPacket.ReadSsrcAudioLevel p = Ok o -> fst <$> o = Some v -> 0 <= v <= 127.
Proof.
  unfold RtpPacket.ReadSsrcAudioLevel. intros H Hv. apply res_bind_ok in H as ([e len] & _ & H).
  destruct e as [e|]; [|by injection H as <-]. destruct (len =? 1); [|by injection H as <-]. res_inv.
  cbn in Hv. injection Hv as <-. rewrite (land_ones_mod _ 7) by lia. pose proof (Z.mod_pos_bound x (2 ^ 7)). lia.
Qed.

Lemma agrees_reset max thr s h v : agrees max thr s h -> agrees max thr (set_silence (ResetMapProducerDBovs s) v) (forget h).
Proof.
  intros [Hm Hl ????]. split; cbn; [|apply forget_audible|done..]. by rewrite Hm, reset_summary.
Qed.

Lemma set_silence_same s : set_silence s (silence s) = s.
Proof. by destruct s. Qed.

Lemma Update_state s order ids s' evs :
  Update s order ids = Ok (s', evs) -> exists v, s' = set_silence (ResetMapProducerDBovs s) v.
Proof.
  unfold Update. intros H. apply res_bind_ok in H as (m & _ & H). destruct m.
  - destruct (silence (ResetMapProducerDBovs s)) eqn:E; injection H as <- _; [|by exists true].
    exists (silence (ResetMapProducerDBovs s)). by rewrite set_silence_same.
  - apply res_bind_ok in H as (d & _ & H). injection H as <- _. by exists false.
Qed.

Lemma agrees_hear max thr s h p packet s' :
  agrees max thr s h -> ReceiveRtpPacket s p packet = Ok s' -> agrees max thr s' (hear s h p packet).
Proof.
  intros Ha. unfold ReceiveRtpPacket, hear. destruct (paused s); [intros [= <-]; exact Ha|].
  destruct (RtpPacket.ReadSsrcAudioLevel packet) as [[[v b]|]|] eqn:Er; [|intros [= <-]; exact Ha|discriminate].
  cbn. destruct Ha as [Hm Hl ????]. rewrite Hm, lookup_fmap. destruct (h !! p) as [l|] eqn:El; [|discriminate].
  intros [= <-]. assert (alter (cons v) p h = <[p := v :: l]> h) as ->.
  { apply map_eq. intros q. destruct (decide (p = q)) as [<-|Hq].
    - by rewrite lookup_alter_eq, lookup_insert_eq, El.
    - by rewrite lookup_alter_ne, lookup_insert_ne. }
  split; cbn; [|apply map_Forall_insert_2; [|done]|done..].
  - by rewrite add_level_summary, fmap_insert.
  - constructor; [exact (level_range _ _ _ Er eq_refl)|exact (Hl p l El)].
Qed.

Lemma observed_agrees max thr int s h : observed max thr int s h -> agrees max thr s h.
Proof.
  induction 1 as [s Hm|s h p k s' _ IH Ha|s h p _ IH|s h p packet s' _ IH Hr|s h p _ IH|s h p _ IH|s h _ IH|s h _ IH|s h order ids s' evs _ IH Ht].
  - unfold make in Hm. destruct (Z.ltb_spec (u16 max) 1); [done|]. destruct (_ || _); [done|]. injection Hm as <-.
    split; cbn; [by rewrite fmap_empty|apply map_Forall_empty|done|lia|done..].
  - unfold AddProducer in Ha. destruct k; [done| |done]. injection Ha as <-. destruct IH as [Hm Hl ????].
    split; cbn; [by rewrite Hm, enter_summary|by apply listen_audible|done..].
  - destruct IH as [Hm Hl ????]. split; cbn; [by rewrite Hm, fmap_delete|by apply map_Forall_delete|done..].
  - by eapply agrees_hear.
  - destruct IH as [Hm Hl ????]. split; cbn; [by rewrite Hm, fmap_delete|by apply map_Forall_delete|done..].
  - destruct IH as [Hm Hl ????]. split; cbn; [by rewrite Hm, enter_summary|by apply listen_audible|done..].
  - unfold Pause. destruct (paused s) eqn:Ep; [exact IH|]. unfold Paused. cbn. destruct IH as [Hm Hl ????].
    destruct (silence s); split; cbn; try apply forget_audible; try done; by rewrite Hm, reset_summary.
  - unfold Resume. destruct (paused s) eqn:Ep; [|exact IH]. by destruct IH; split.
  - unfold OnTimer in Ht. destruct (periodicTimer s); [|injection Ht as <- _; exact IH].
    apply Update_state in Ht as [v ->]. by apply agrees_reset.
Qed.

(** *** A report *)

Definition mean (l : list Z) : Z := - (total l / zlen l).
Definition level_of (h : heard) (p : address) : Z := mean (default [] (h !! p)).
Definition loud (thr : Z) (h : heard) (p : address) : bool :=
  match h !! p with Some l => (10 <=? zlen l) && (thr <=? mean l) | None => false end.

(** An entry of the report. *)
Definition entry (h : heard) (ids : gmap address str) (p : address) : str * Z := (default [] (ids !! p), level_of h p).

(** Up to 516 levels, the 16-bit sum is the sum. *)
Definition countable (h : heard) : Prop := map_Forall (fun _ l => zlen l <= 516) h.

Lemma total_range l : audible l -> 0 <= total l <= 127 * zlen l.
Proof.
  induction 1 as [|v l Hv _ IH]; [by vm_compute|]. rewrite zlen_cons. unfold total in *. cbn [foldr]. lia.
Qed.

Lemma mean_range l : audible l -> 1 <= zlen l -> -127 <= mean l <= 0.
Proof.
  intros Hl Hn. pose proof (total_range l Hl). unfold mean.
  assert (0 <= total l / zlen l <= 127); [|lia]. split; [apply Z.div_pos; lia|].
  apply Z.div_le_upper_bound; lia.
Qed.

Lemma i8_small z : -128 <= z < 128 -> i8 z = z.
Proof. intros. unfold i8, uwrap. pow2_consts. destruct (Z.ltb_spec (z mod 256) 128); Z.div_mod_to_equations; lia. Qed.

Lemma avg_mean l : audible l -> 10 <= zlen l <= 516 -> avgDBov (summary l) = mean l /\ i8 (avgDBov (summary l)) = mean l.
Proof.
  intros Hl Hn. pose proof (total_range l Hl). pose proof (mean_range l Hl ltac:(lia)) as Hm.
  assert (avgDBov (summary l) = mean l) as ->; [|split; [done|apply i8_small; lia]].
  unfold avgDBov, summary, mean. cbn [totalSum count]. rewrite (uwrap_id 16), (uwrap_id 64) by (unfold fits; lia).
  unfold mean in Hm. rewrite i8_small by lia. lia.
Qed.

Lemma count_summary l : zlen l <= 516 -> count (summary l) = zlen l.
Proof. intros. unfold summary. cbn. apply uwrap_id. unfold fits. pose proof (zlen_nonneg l). lia. Qed.

Lemma mapDBovsProducer_spec max thr s h order : agrees max thr s h -> countable h -> forall m,
  Forall (fun p => is_Some (h !! p)) order ->
  exists m', mapDBovsProducer order s m = Ok m' /\ (by_key m -> by_key m') /\
    m' ≡ₚ ((fun p => (level_of h p, p)) <$> filter (fun p => loud (i8 thr) h p = true) order) ++ m.
Proof.
  intros [Hm Hl _ _ Ht _] Hc. induction order as [|p order IH]; intros m Ho; cbn [mapDBovsProducer]; [by exists m|].
  apply Forall_cons in Ho as [[l El] Ho]. rewrite Hm, lookup_fmap, El. cbn [fmap option_fmap option_map deref mbind res_bind].
  specialize (Hl p l El). specialize (Hc p l El). cbn beta in Hl, Hc. rewrite count_summary by done.
  rewrite filter_cons.
  assert (loud (i8 thr) h p = (10 <=? zlen l) && (i8 thr <=? mean l)) as Eb by (unfold loud; by rewrite El).
  destruct (Z.ltb_spec (zlen l) 10).
  - rewrite decide_False; [|rewrite Eb; destruct (Z.leb_spec 10 (zlen l)); [lia|done]]. by apply IH.
  - destruct (Z.leb_spec 10 (zlen l)); [|lia]. cbn [andb] in Eb. destruct (avg_mean l Hl ltac:(lia)) as [E1 E2].
    rewrite E2, E1, Ht. destruct (i8 thr <=? mean l); [rewrite decide_True by done|rewrite decide_False by congruence; by apply IH].
    destruct (IH (emplace (mean l) p m) Ho) as (m' & E & Hk & Hp). exists m'. split; [done|]. split.
    + intros Hb. apply Hk. by apply emplace_by_key.
    + rewrite Hp, emplace_perm. cbn [fmap list_fmap]. unfold level_of at 2. rewrite El. cbn. by rewrite Permutation_middle.
Qed.

Lemma volumes_spec h ids l : Forall (fun x => x.1 = level_of h x.2 /\ is_Some (ids !! x.2)) l ->
  volumes l ids = Ok (entry h ids <$> l.*2).
Proof.
  induction 1 as [|[a p] l [E [id Hid]] _ IH]; [done|]. cbn in E, Hid. subst a. cbn [volumes]. rewrite Hid. cbn [deref mbind res_bind].
  rewrite IH. cbn. unfold entry at 2. by rewrite Hid.
Qed.

(** The producers of a report: the loud ones, the loudest first, and no louder one is left out. *)
Record report_of (max thr : Z) (h : heard) (ps : list address) : Prop := {
  report_distinct : NoDup ps;
  report_loud : Forall (fun p => loud thr h p = true) ps;
  report_size : zlen ps <= max;
  report_order : StronglySorted (fun p q => level_of h q <= level_of h p) ps;
  report_rest q : loud thr h q = true -> q ∉ ps -> zlen ps = max /\ Forall (fun p => level_of h q <= level_of h p) ps;
}.

Lemma sorted_seconds (f : address -> Z) l : Forall (fun x => x.1 = f x.2) l ->
  StronglySorted (fun x y : Z * address => y.1 <= x.1) l -> StronglySorted (fun p q => f q <= f p) l.*2.
Proof.
  intros Hf. induction 1 as [|x l Hs IH Hall]; [constructor|]. apply Forall_cons in Hf as [Hx Hf]. cbn.
  constructor; [by apply IH|]. rewrite Forall_fmap. apply Forall_forall. intros y Hy. cbn.
  rewrite Forall_forall in Hall, Hf. rewrite <- Hx, <- (Hf y Hy). exact (Hall y Hy).
Qed.

(** The first [max] entries of the multimap, walked backwards, are such a report. *)
Lemma report_taken max thr h order m : 0 <= max -> NoDup order -> (forall p, loud thr h p = true -> p ∈ order) ->
  by_key m -> m ≡ₚ (fun p => (level_of h p, p)) <$> filter (fun p => loud thr h p = true) order ->
  report_of max thr h (take (Z.to_nat max) (reverse m)).*2 /\ Forall (fun x => x.1 = level_of h x.2) m.
Proof.
  intros Hmax Hd Ho Hk Hp.
  assert (Forall (fun x => x.1 = level_of h x.2) m) as Hf.
  { rewrite Hp, Forall_fmap. by apply Forall_forall. }
  assert (m.*2 ≡ₚ filter (fun p => loud thr h p = true) order) as Hm.
  { rewrite Hp, <- list_fmap_compose. by rewrite list_fmap_id. }
  assert (Hin : forall p, p ∈ m.*2 <-> loud thr h p = true).
  { intros p. rewrite Hm, list_elem_of_filter. split; [by intros [? _]|]. intros Hp'. split; [done|by apply Ho]. }
  pose proof (reverse_by_key m Hk) as Hs. set (n := Z.to_nat max).
  assert (Forall (fun x => x.1 = level_of h x.2) (reverse m)) as Hr by by rewrite reverse_Permutation.
  split; [|exact Hf]. split.
  - rewrite fmap_take, fmap_reverse. eapply sublist_NoDup; [|apply sublist_take]. rewrite reverse_Permutation, Hm. by apply NoDup_filter.
  - rewrite fmap_take, fmap_reverse. apply Forall_take. rewrite reverse_Permutation. apply Forall_forall. intros p. apply Hin.
  - unfold zlen. rewrite length_fmap, length_take. lia.
  - apply sorted_seconds; [by apply Forall_take|]. rewrite <- (take_drop n) in Hs. by apply StronglySorted_app_1_l in Hs.
  - intros q Hq Hn. apply Hin in Hq. rewrite <- reverse_Permutation, <- fmap_reverse, <- (take_drop n (reverse m)), fmap_app in Hq.
    apply elem_of_app in Hq as [Hq|Hq]; [done|]. apply list_elem_of_fmap in Hq as (y & -> & Hy). split.
    + unfold zlen. rewrite length_fmap, length_take. apply list_elem_of_lookup_1 in Hy as [i Hi].
      rewrite lookup_drop in Hi. apply lookup_lt_Some in Hi. lia.
    + rewrite Forall_fmap. apply Forall_forall. intros x Hx. cbn. rewrite Forall_forall in Hr.
      rewrite <- (Hr y), <- (Hr x); [exact (sorted_take_drop _ _ _ x y Hs Hx Hy)| |].
      * by eapply (subseteq_take n).
      * by eapply (subseteq_drop n).
Qed.

(** The report in terms of the multimap. *)
Lemma Update_spec s order ids m data :
  mapDBovsProducer order s [] = Ok m -> volumes (take (Z.to_nat (maxEntries s)) (reverse m)) ids = Ok data ->
  Update s order ids = Ok (set_silence (ResetMapProducerDBovs s) (bool_decide (m = [])),
                           match m with
                           | [] => if silence s then [] else [EmittedSilence]
                           | _ => [EmittedVolumes data]
                           end).
Proof.
  intros Em Ev. unfold Update. rewrite Em. cbn [mbind res_bind]. destruct m as [|x m].
  - destruct s as [? ? ? ? ? q ?]. by destruct q.
  - change (maxEntries (ResetMapProducerDBovs s)) with (maxEntries s). by rewrite Ev.
Qed.

(** C17: the report of the loudest speakers.  After any history of calls on an audio level
    observer that is not paused, when no producer was heard more than 516 times since the last
    report, the timer makes a report: it lists producers that were heard at least ten times and
    whose mean level reaches the threshold, each once, the loudest first, at most [maxEntries]
    of them, and a producer that is left out is not louder than one that is listed; without
    such a producer the silence is announced, once. *)
Theorem loudest_reported max thr int s h order ids :
  observed max thr int s h -> paused s = false -> order ≡ₚ elements (dom h) ->
  Forall (fun p => is_Some (ids !! p)) order -> countable h ->
  exists ps s', report_of (u16 max) (i8 thr) h ps /\
    OnTimer s order ids = Ok (s', match ps with
                                  | [] => if silence s then [] else [EmittedSilence]
                                  | _ => [EmittedVolumes (entry h ids <$> ps)]
                                  end) /\
    silence s' = bool_decide (ps = []) /\ observed max thr int s' (forget h).
Proof.
  intros Hs Hp Ho Hi Hc. pose proof (observed_agrees _ _ _ _ _ Hs) as Ha.
  assert (forall p, p ∈ order <-> is_Some (h !! p)) as Hin.
  { intros p. rewrite Ho, elem_of_elements. apply elem_of_dom. }
  destruct (mapDBovsProducer_spec max thr s h order Ha Hc []) as (m & Em & Hk & Hm).
  { apply Forall_forall. intros p. apply Hin. }
  rewrite app_nil_r in Hm. specialize (Hk ltac:(constructor)).
  destruct (report_taken (u16 max) (i8 thr) h order m) as [Hr Hf]; [apply uwrap_fits; lia| |intros p Hl|exact Hk|exact Hm|].
  { rewrite Ho. apply NoDup_elements. }
  { apply Hin. unfold loud in Hl. by destruct (h !! p). }
  set (ps := (take (Z.to_nat (u16 max)) (reverse m)).*2) in *.
  assert (volumes (take (Z.to_nat (u16 max)) (reverse m)) ids = Ok (entry h ids <$> ps)) as Ev.
  { apply volumes_spec. apply Forall_take. rewrite reverse_Permutation. apply Forall_and. split; [exact Hf|].
    rewrite Hm, Forall_fmap. rewrite Forall_forall in Hi |- *. intros p Hp'. apply Hi. by apply list_elem_of_filter in Hp' as [_ Hp']. }
  assert (m = [] <-> ps = []) as Hnil.
  { pose proof (agrees_min _ _ _ _ Ha). unfold ps. split; [intros ->; by rewrite reverse_nil, take_nil|]. intros E. apply (f_equal length) in E.
    rewrite length_fmap, length_take, length_reverse in E. destruct m; [done|]. cbn in E. lia. }
  assert (OnTimer s order ids = Update s order ids) as Et.
  { unfold OnTimer. by rewrite (agrees_timer _ _ _ _ Ha), Hp. }
  pose proof (Update_spec s order ids m _ Em ltac:(rewrite (agrees_max _ _ _ _ Ha); exact Ev)) as Eu.
  exists ps, (set_silence (ResetMapProducerDBovs s) (bool_decide (m = []))). split; [exact Hr|].
  assert (bool_decide (m = []) = bool_decide (ps = [])) as Eb by by apply bool_decide_ext.
  rewrite Et. split_and!; [|exact Eb|].
  - rewrite Eu. do 2 f_equal. destruct m, ps; [done|discriminate (proj1 Hnil eq_refl)|discriminate (proj2 Hnil eq_refl)|done].
  - rewrite <- Et in Eu. pose proof (observed_timer _ _ _ s h order ids _ _ Hs Eu) as Hn.
    by rewrite (agrees_timer _ _ _ _ Ha), Hp in Hn.
Qed.

(** A history of packets. *)
Fixpoint hear_all (s : State) (h : heard) (l : list (address * RtpPacket.t)) : res (State * heard) :=
  match l with
  | [] => Ok (s, h)
  | (p, packet) :: l' => s' ← ReceiveRtpPacket s p packet; hear_all s' (hear s h p packet) l'
  end.

Lemma observed_packets max thr int l : forall s h s' h',
  observed max thr int s h -> hear_all s h l = Ok (s', h') -> observed max thr int s' h'.
Proof.
  induction l as [|[p packet] l IH]; intros s h s' h' Hs E; cbn [hear_all] in E; [by injection E as <- <-|].
  apply res_bind_ok in E as (s1 & E1 & E). refine (IH _ _ _ _ _ E). exact (observed_packet _ _ _ _ _ _ _ _ Hs E1).
Qed.

(** A packet with the audio level [v] in its extension 1. *)
Definition sample_packet (v : Z) : option RtpPacket.t :=
  match RtpPacket.Parse [144; 111; 0; 1; 0; 0; 0; 0; 0; 0; 0; 7; 190; 222; 0; 1; 16; v; 0; 0] 20 with
  | Ok (Some p) =>
      Some (RtpPacket.set_ids p
        {| RtpPacket.midExtensionId := 0; RtpPacket.ridExtensionId := 0; RtpPacket.rridExtensionId := 0;
           RtpPacket.absSendTimeExtensionId := 0; RtpPacket.transportWideCc01ExtensionId := 0;
           RtpPacket.frameMarking07ExtensionId := 0; RtpPacket.frameMarkingExtensionId := 0;
           RtpPacket.ssrcAudioLevelExtensionId := 1; RtpPacket.videoOrientationExtensionId := 0 |})
  | _ => None
  end.

(** Two producers, heard ten times each at the levels 50 and 20. *)
Definition sample_packets : list (address * RtpPacket.t) :=
  omap (fun '(p, v) => pair p <$> sample_packet v) (replicate 10 (1%positive, 50) ++ replicate 10 (2%positive, 20)).

Definition sample_heard : heard := <[2%positive := replicate 10 20]> {[1%positive := replicate 10 50]}.

Lemma sample_observed : exists s, paused s = false /\ observed 1 (-80) 1000 s sample_heard.
Proof.
  destruct (make 1 (-80) 1000) as [s0|] eqn:E0; [|by vm_compute in E0].
  destruct (AddProducer s0 1 Consumer.AUDIO) as [s1|] eqn:E1; [|done].
  destruct (AddProducer s1 2 Consumer.AUDIO) as [s2|] eqn:E2; [|done].
  pose proof (observed_add _ _ _ _ _ _ _ _ (observed_add _ _ _ _ _ _ _ _ (observed_make _ _ _ s0 E0) E1) E2) as Hs.
  injection E0 as <-. injection E1 as <-. injection E2 as <-.
  match type of Hs with observed _ _ _ ?s ?h => destruct (hear_all s h sample_packets) as [[s' h']|] eqn:E end.
  - pose proof (observed_packets _ _ _ _ _ _ _ _ Hs E) as Hs'. vm_compute in E. injection E as <- <-.
    eexists. split; [|exact Hs']. done.
  - by vm_compute in E.
Qed.

Lemma loudest_reported_witness : exists s s', OnTimer s [2%positive; 1%positive] {[1%positive := [65]; 2%positive := [66]]} =
  Ok (s', [EmittedVolumes [([66], -20)]]).
Proof.
  destruct sample_observed as (s & Hp & Hs). exists s.
  destruct (loudest_reported 1 (-80) 1000 s sample_heard [2%positive; 1%positive] {[1%positive := [65]; 2%positive := [66]]} Hs Hp)
    as (ps & s' & Hr & E & _); [vm_compute; reflexivity|by apply (bool_decide_unpack _); vm_compute|by apply (bool_decide_unpack _); vm_compute|].
  exists s'. rewrite E. destruct Hr as [Hd Hl Hn Ho Hrest]. destruct ps as [|p ps].
  - destruct (Hrest 2%positive eq_refl ltac:(by intros ?%elem_of_nil)) as [Hz _]. by vm_compute in Hz.
  - assert (ps = []) as ->. { destruct ps; [done|]. rewrite !zlen_cons in Hn. pose proof (zlen_nonneg ps). change (u16 1) with 1 in Hn. lia. }
    destruct (decide (p = 2%positive)) as [->|Hp2]; [by vm_compute|].
    destruct (Hrest 2%positive eq_refl ltac:(intros Hx%list_elem_of_singleton; congruence)) as [_ Hle]. apply Forall_cons in Hle as [Hle _].
    apply Forall_cons in Hl as [Hl _]. unfold loud, sample_heard in Hl. destruct (decide (p = 1%positive)) as [->|Hp1]; [by vm_compute in Hle|].
    by rewrite lookup_insert_ne, lookup_singleton_ne in Hl by congruence.
Defined.

(** 517 levels of silence make the 16-bit sum wrap around: the silent producer is reported as
    the loudest possible one. *)
Theorem level_sum_wraps :
  avgDBov (Nat.iter 516 (fun d => add_level d 127) no_levels) = -127 /\
  avgDBov (Nat.iter 517 (fun d => add_level d 127) no_levels) = 0.
Proof. by vm_compute. Qed.

End AudioLevels.
