(* ===== verification/ActiveSpeakerObserver.v ===== *)
(** * Active speaker observer

    Models [worker/src/RTC/ActiveSpeakerObserver.cpp]: dominant speaker identification over the
    audio levels of the packets.  A producer is its address, its id is read through [ids]; the
    order in which the hash map of speakers is walked is an argument, as is the clock.  The
    doubles are those of [SpecFloat], with [std::log] of the C library as a parameter [ln]. *)

From Stdlib Require Import SpecFloat.
From stdpp Require Import gmap.
From S2P Require Import Prelude StateMonad Utils Float RtcpPacket RtpPacket RtpParameters Consumer RtpListener AudioLevelObserver.

Module ActiveSpeakerObserver.

Definition C1 : Z := 3.
Definition C2 : Z := 2.
Definition C3 : Z := 0.
Definition N1 : Z := 13.
Definition N2 : Z := 5.
Definition N3 : Z := 10.
Definition LongCount : Z := 1.
Definition LevelIdleTimeout : Z := 40.
Definition SpeakerIdleTimeout : Z := 60 * 60 * 1000.
Definition LongThreashold : Z := 4.
Definition MaxLevel : Z := 127.
Definition MinLevel : Z := 0.
Definition MinLevelWindowLen : Z := 15 * 1000 / 20.
Definition MediumThreshold : Z := 7.
Definition SubunitLengthN1 : Z := (MaxLevel - MinLevel + N1 - 1) / N1.
Definition ImmediateBuffLen : Z := LongCount * N3 * N2.
Definition MediumsBuffLen : Z := LongCount * N3.
Definition LongsBuffLen : Z := LongCount.
Definition LevelsBuffLen : Z := LongCount * N3 * N2.

(** The doubles nearest to 0.0000000001, 0.5 and 0.78. *)
Definition MinActivityScore : spec_float := S754_finite false 7737125245533627 (-86).
Definition f64_0_5 : spec_float := S754_finite false 4503599627370496 (-53).
Definition f64_0_78 : spec_float := S754_finite false 7025615418697974 (-53).

Abbreviation f64 := Time.b64_of_Z.
Abbreviation fadd := (SFadd 53 1024).
Abbreviation fsub := (SFsub 53 1024).
Abbreviation fmul := (SFmul 53 1024).
Abbreviation fdiv := (SFdiv 53 1024).

(** The loop from [i] down to [r], of [k] iterations. *)
Fixpoint binomial_loop (k : nat) (i j t : Z) : Z :=
  match k with
  | O => t
  | S k' => binomial_loop k' (i - 1) (j + 1) (Z.quot (t * i) j)
  end.

Definition BinomialCoefficient (n r : Z) : Z :=
  let m := n - r in
  let r := if r <? m then m else r in
  binomial_loop (Z.to_nat (n - r)) n 1 1.

(** ** The speakers *)

Record Speaker := {
  sp_paused : bool;
  immediateActivityScore : spec_float;
  mediumActivityScore : spec_float;
  longActivityScore : spec_float;
  lastLevelChangeTime : Z;
  minLevel : Z;
  nextMinLevel : Z;
  nextMinLevelWindowLen : Z;
  immediates : list Z;
  mediums : list Z;
  longs : list Z;
  levels : list Z;
  nextLevelIndex : Z;
}.

Definition set_sp_paused (s : Speaker) (v : bool) : Speaker :=
  {| sp_paused := v; immediateActivityScore := immediateActivityScore s; mediumActivityScore := mediumActivityScore s;
     longActivityScore := longActivityScore s; lastLevelChangeTime := lastLevelChangeTime s; minLevel := minLevel s;
     nextMinLevel := nextMinLevel s; nextMinLevelWindowLen := nextMinLevelWindowLen s; immediates := immediates s;
     mediums := mediums s; longs := longs s; levels := levels s; nextLevelIndex := nextLevelIndex s |}.
Definition set_min (s : Speaker) (min next len : Z) : Speaker :=
  {| sp_paused := sp_paused s; immediateActivityScore := immediateActivityScore s; mediumActivityScore := mediumActivityScore s;
     longActivityScore := longActivityScore s; lastLevelChangeTime := lastLevelChangeTime s; minLevel := min;
     nextMinLevel := next; nextMinLevelWindowLen := len; immediates := immediates s;
     mediums := mediums s; longs := longs s; levels := levels s; nextLevelIndex := nextLevelIndex s |}.
Definition set_levels (s : Speaker) (time : Z) (l : list Z) (i : Z) : Speaker :=
  {| sp_paused := sp_paused s; immediateActivityScore := immediateActivityScore s; mediumActivityScore := mediumActivityScore s;
     longActivityScore := longActivityScore s; lastLevelChangeTime := time; minLevel := minLevel s;
     nextMinLevel := nextMinLevel s; nextMinLevelWindowLen := nextMinLevelWindowLen s; immediates := immediates s;
     mediums := mediums s; longs := longs s; levels := l; nextLevelIndex := i |}.
Definition set_immediates (s : Speaker) (l : list Z) (score : spec_float) : Speaker :=
  {| sp_paused := sp_paused s; immediateActivityScore := score; mediumActivityScore := mediumActivityScore s;
     longActivityScore := longActivityScore s; lastLevelChangeTime := lastLevelChangeTime s; minLevel := minLevel s;
     nextMinLevel := nextMinLevel s; nextMinLevelWindowLen := nextMinLevelWindowLen s; immediates := l;
     mediums := mediums s; longs := longs s; levels := levels s; nextLevelIndex := nextLevelIndex s |}.
Definition set_mediums (s : Speaker) (l : list Z) (score : spec_float) : Speaker :=
  {| sp_paused := sp_paused s; immediateActivityScore := immediateActivityScore s; mediumActivityScore := score;
     longActivityScore := longActivityScore s; lastLevelChangeTime := lastLevelChangeTime s; minLevel := minLevel s;
     nextMinLevel := nextMinLevel s; nextMinLevelWindowLen := nextMinLevelWindowLen s; immediates := immediates s;
     mediums := l; longs := longs s; levels := levels s; nextLevelIndex := nextLevelIndex s |}.
Definition set_longs (s : Speaker) (l : list Z) (score : spec_float) : Speaker :=
  {| sp_paused := sp_paused s; immediateActivityScore := immediateActivityScore s; mediumActivityScore := mediumActivityScore s;
     longActivityScore := score; lastLevelChangeTime := lastLevelChangeTime s; minLevel := minLevel s;
     nextMinLevel := nextMinLevel s; nextMinLevelWindowLen := nextMinLevelWindowLen s; immediates := immediates s;
     mediums := mediums s; longs := l; levels := levels s; nextLevelIndex := nextLevelIndex s |}.

(** [Speaker::Speaker] and the pause state of [ProducerSpeaker::ProducerSpeaker]. *)
Definition new_speaker (producerPaused : bool) (nowMs : Z) : Speaker :=
  {| sp_paused := producerPaused; immediateActivityScore := MinActivityScore; mediumActivityScore := MinActivityScore;
     longActivityScore := MinActivityScore; lastLevelChangeTime := nowMs; minLevel := MinLevel; nextMinLevel := MinLevel;
     nextMinLevelWindowLen := 0; immediates := replicate (Z.to_nat ImmediateBuffLen) 0;
     mediums := replicate (Z.to_nat MediumsBuffLen) 0; longs := replicate (Z.to_nat LongsBuffLen) 0;
     levels := replicate (Z.to_nat LevelsBuffLen) 0; nextLevelIndex := 0 |}.

Definition UpdateMinLevel (s : Speaker) (level : Z) : res Speaker :=
  if level =? MinLevel then mret s
  else if (minLevel s =? MinLevel) || (level <? minLevel s) then mret (set_min s level MinLevel 0)
  else if nextMinLevel s =? MinLevel then mret (set_min s (minLevel s) level 1)
  else
    let next := if level <? nextMinLevel s then level else nextMinLevel s in
    let len := u32 (nextMinLevelWindowLen s + 1) in
    if MinLevelWindowLen <=? len then
      let newMinLevel := SFsqrt 53 1024 (f64 (minLevel s * next)) in
      let newMinLevel := if SFltb newMinLevel (f64 MinLevel) then f64 MinLevel
                         else if SFltb (f64 MaxLevel) newMinLevel then f64 MaxLevel else newMinLevel in
      v ← uint_of_float 7 newMinLevel;
      mret (set_min s v MinLevel 0)
    else mret (set_min s (minLevel s) next len).

(** The loop that writes [b] into [k] cells of the ring. *)
Fixpoint write_levels (k : nat) (l : list Z) (i b : Z) : res (list Z * Z) :=
  match k with
  | O => mret (l, i)
  | S k' => l ← store l i b; write_levels k' l ((i + 1) mod LevelsBuffLen) b
  end.

Definition LevelChanged (s : Speaker) (level nowMs : Z) : res Speaker :=
  if lastLevelChangeTime s <=? nowMs then
    let elapsed := nowMs - lastLevelChangeTime s in
    let b := if level <? MinLevel then MinLevel else if MaxLevel <? level then MaxLevel else level in
    let intervalsUpdated := Z.min (Z.max (u32 (elapsed / 20)) 1) LevelsBuffLen in
    '(l, i) ← write_levels (Z.to_nat intervalsUpdated) (levels s) (nextLevelIndex s) b;
    UpdateMinLevel (set_levels s nowMs l i) b
  else mret s.

Definition LevelTimedOut (s : Speaker) (nowMs : Z) : res Speaker := LevelChanged s MinLevel nowMs.

(** *** Activities *)

(** The level that is [i] samples old: the ring is read backwards. *)
Definition level_index (s : Speaker) (i : Z) : Z :=
  if i + 1 <=? nextLevelIndex s then nextLevelIndex s - i - 1 else nextLevelIndex s + LevelsBuffLen - i - 1.

Fixpoint immediates_loop (k : nat) (s : Speaker) (min i : Z) (l : list Z) (changed : bool) : res (list Z * bool) :=
  match k with
  | O => mret (l, changed)
  | S k' =>
      level ← read (levels s) (level_index s i);
      let level := if level <? min then MinLevel else level in
      let immediate := u8 (level / SubunitLengthN1) in
      old ← read l i;
      if old =? immediate then immediates_loop k' s min (i + 1) l changed
      else l ← store l i immediate; immediates_loop k' s min (i + 1) l true
  end.

(** The level below which there is noise is an [int8_t]. *)
Definition ComputeImmediates (s : Speaker) : res (list Z * bool) :=
  immediates_loop (Z.to_nat ImmediateBuffLen) s (i8 (minLevel s + SubunitLengthN1)) 0 (immediates s) false.

(** How many of the [k] values from [l] on are over the threshold. *)
Fixpoint count_over (k : nat) (littles : list Z) (l threashold sum : Z) : res Z :=
  match k with
  | O => mret sum
  | S k' =>
      v ← read littles l;
      count_over k' littles (l + 1) threashold (if threashold <? v then u8 (sum + 1) else sum)
  end.

Fixpoint bigs_loop (k : nat) (littles : list Z) (per b : Z) (bigs : list Z) (threashold : Z) (changed : bool) : res (list Z * bool) :=
  match k with
  | O => mret (bigs, changed)
  | S k' =>
      sum ← count_over (Z.to_nat per) littles (b * per) threashold 0;
      old ← read bigs b;
      if old =? sum then bigs_loop k' littles per (b + 1) bigs threashold changed
      else bigs ← store bigs b sum; bigs_loop k' littles per (b + 1) bigs threashold true
  end.

Definition ComputeBigs (littles bigs : list Z) (threashold : Z) : res (list Z * bool) :=
  bigs_loop (length bigs) littles (zlen littles / zlen bigs) 0 bigs threashold false.

Section Log.

Context (ln : spec_float -> spec_float).

Definition ComputeActivityScore (vL nR : Z) (p lambda : spec_float) : spec_float :=
  let activityScore :=
    fadd (fsub (fadd (fadd (ln (f64 (BinomialCoefficient nR vL))) (fmul (f64 vL) (ln p)))
                     (fmul (f64 (u32 (nR - vL))) (ln (fsub (f64 1) p))))
               (ln lambda))
         (fmul lambda (f64 vL)) in
  if SFltb activityScore MinActivityScore then MinActivityScore else activityScore.

Definition EvalImmediateActivityScore (l : list Z) : res spec_float :=
  v ← read l 0; mret (ComputeActivityScore v N1 f64_0_5 f64_0_78).
Definition EvalMediumActivityScore (l : list Z) : res spec_float :=
  v ← read l 0; mret (ComputeActivityScore v N2 f64_0_5 (f64 24)).
Definition EvalLongActivityScore (l : list Z) : res spec_float :=
  v ← read l 0; mret (ComputeActivityScore v N3 f64_0_5 (f64 47)).

(** The three vectors are changed in place: what was written stays when nothing more follows. *)
Definition EvalActivityScores (s : Speaker) : res Speaker :=
  '(imm, changed) ← ComputeImmediates s;
  if changed : bool then
    score ← EvalImmediateActivityScore imm;
    let s := set_immediates s imm score in
    '(med, changed) ← ComputeBigs (immediates s) (mediums s) MediumThreshold;
    if changed : bool then
      score ← EvalMediumActivityScore med;
      let s := set_mediums s med score in
      '(lon, changed) ← ComputeBigs (mediums s) (longs s) LongThreashold;
      if changed : bool then score ← EvalLongActivityScore lon; mret (set_longs s lon score)
      else mret s
    else mret s
  else mret s.

Definition GetActivityScore (s : Speaker) (interval : Z) : res spec_float :=
  if interval =? 0 then mret (immediateActivityScore s)
  else if interval =? 1 then mret (mediumActivityScore s)
  else if interval =? 2 then mret (longActivityScore s)
  else Fault AssertFailed.

(** ** The observer *)

Record ProducerSpeaker := { sp_producer : address; speaker : Speaker }.

Record State := {
  dominantId : str;
  periodicTimer : bool;
  interval : Z;
  mapProducerSpeakers : gmap str ProducerSpeaker;
  lastLevelIdleTime : Z;
  paused : bool;
}.

Inductive event := EmittedDominantSpeaker (producerId : str).

Definition set_dominant (s : State) (v : str) : State :=
  {| dominantId := v; periodicTimer := periodicTimer s; interval := interval s; mapProducerSpeakers := mapProducerSpeakers s;
     lastLevelIdleTime := lastLevelIdleTime s; paused := paused s |}.
Definition set_speakers (s : State) (v : gmap str ProducerSpeaker) : State :=
  {| dominantId := dominantId s; periodicTimer := periodicTimer s; interval := interval s; mapProducerSpeakers := v;
     lastLevelIdleTime := lastLevelIdleTime s; paused := paused s |}.
Definition set_idle (s : State) (v : Z) : State :=
  {| dominantId := dominantId s; periodicTimer := periodicTimer s; interval := interval s;
     mapProducerSpeakers := mapProducerSpeakers s; lastLevelIdleTime := v; paused := paused s |}.
Definition set_paused (s : State) (running v : bool) : State :=
  {| dominantId := dominantId s; periodicTimer := running; interval := interval s;
     mapProducerSpeakers := mapProducerSpeakers s; lastLevelIdleTime := lastLevelIdleTime s; paused := v |}.

(** The interval is read as an [int16_t]. *)
Definition make (int : Z) : State :=
  let int := u16 (i16 int) in
  {| dominantId := []; periodicTimer := true; interval := if int <? 100 then 100 else if 5000 <? int then 5000 else int;
     mapProducerSpeakers := ∅; lastLevelIdleTime := 0; paused := false |}.

Definition AddProducer (s : State) (p : address) (id : str) (k : Consumer.Kind) (producerPaused : bool) (nowMs : Z) : throws State :=
  match k with
  | Consumer.AUDIO =>
      match mapProducerSpeakers s !! id with
      | Some _ => None
      | None => Some (set_speakers s (<[id := {| sp_producer := p; speaker := new_speaker producerPaused nowMs |}]> (mapProducerSpeakers s)))
      end
  | _ => None
  end.

(** A change of the speaker with the key [id], if there is one. *)
Definition on_speaker (s : State) (id : str) (f : Speaker -> res Speaker) : res State :=
  match mapProducerSpeakers s !! id with
  | None => mret s
  | Some ps => sp ← f (speaker ps);
               mret (set_speakers s (<[id := {| sp_producer := sp_producer ps; speaker := sp |}]> (mapProducerSpeakers s)))
  end.

Definition ProducerPaused (s : State) (id : str) : res State := on_speaker s id (fun sp => mret (set_sp_paused sp true)).
Definition ProducerResumed (s : State) (id : str) : res State := on_speaker s id (fun sp => mret (set_sp_paused sp false)).

Definition ReceiveRtpPacket (s : State) (id : str) (packet : RtpPacket.t) (nowMs : Z) : res State :=
  if paused s then mret s
  else
    o ← RtpPacket.ReadSsrcAudioLevel packet;
    match o with
    | None => mret s
    | Some (level, _) => on_speaker s id (fun sp => LevelChanged sp (u8 (127 - level)) nowMs)
    end.

Definition Pause (s : State) : State := if paused s then s else set_paused s false true.
Definition Resume (s : State) : State := if paused s then set_paused s true false else s.

(** The relative speech activities of a speaker with respect to the dominant one. *)
Definition relative (sp dominant : Speaker) (interval : Z) : res spec_float :=
  a ← GetActivityScore sp interval; b ← GetActivityScore dominant interval; mret (ln (fdiv a b)).

(** The walk over the speakers: [dominant] is the key of the speaker they are compared with. *)
Fixpoint challenge (order : list str) (ids : gmap address str) (dominant : str) (s : State) (newDominantId : str) (newDominantC2 : spec_float)
    : res (State * str) :=
  match order with
  | [] => mret (s, newDominantId)
  | k :: order' =>
      ps ← deref (mapProducerSpeakers s !! k);
      id ← deref (ids !! sp_producer ps);
      if bool_decide (id = dominantId s) || sp_paused (speaker ps) then challenge order' ids dominant s newDominantId newDominantC2
      else
        sp ← EvalActivityScores (speaker ps);
        let s := set_speakers s (<[k := {| sp_producer := sp_producer ps; speaker := sp |}]> (mapProducerSpeakers s)) in
        d ← deref (mapProducerSpeakers s !! dominant);
        c1 ← relative sp (speaker d) 0;
        c2 ← relative sp (speaker d) 1;
        c3 ← relative sp (speaker d) 2;
        if SFltb (f64 C1) c1 && SFltb (f64 C2) c2 && SFltb (f64 C3) c3 && SFltb newDominantC2 c2
        then challenge order' ids dominant s id c2
        else challenge order' ids dominant s newDominantId newDominantC2
  end.

(** The candidate for the dominant speaker, or the empty id. *)
Definition candidate (s : State) (order : list str) (ids : gmap address str) : res (State * str) :=
  match size (mapProducerSpeakers s) with
  | O => mret (s, [])
  | 1%nat =>
      first ← deref (head order);
      ps ← deref (mapProducerSpeakers s !! first);
      id ← deref (ids !! sp_producer ps);
      mret (s, id)
  | _ =>
      '(dominant, newDominantId) ←
        match dominantId s with
        | [] => first ← deref (head order); mret (first, first)
        | d => mret (d, [])
        end;
      match mapProducerSpeakers s !! dominant with
      | None => Fault OutOfBounds
      | Some ps =>
          sp ← EvalActivityScores (speaker ps);
          let s := set_speakers s (<[dominant := {| sp_producer := sp_producer ps; speaker := sp |}]> (mapProducerSpeakers s)) in
          challenge order ids dominant s newDominantId (f64 C2)
      end
  end.

Definition CalculateActiveSpeaker (s : State) (order : list str) (ids : gmap address str) : res (State * bool) :=
  '(s, newDominantId) ← candidate s order ids;
  if negb (bool_decide (newDominantId = [])) && negb (bool_decide (newDominantId = dominantId s))
  then mret (set_dominant s newDominantId, true)
  else mret (s, false).

Fixpoint TimeoutIdleLevels (order : list str) (ids : gmap address str) (s : State) (nowMs : Z) : res State :=
  match order with
  | [] => mret s
  | k :: order' =>
      ps ← deref (mapProducerSpeakers s !! k);
      id ← deref (ids !! sp_producer ps);
      let idle := u64 (nowMs - lastLevelChangeTime (speaker ps)) in
      s ← (if (SpeakerIdleTimeout <? idle) && (bool_decide (dominantId s = []) || negb (bool_decide (id = dominantId s)))
           then on_speaker s k (fun sp => mret (set_sp_paused sp true))
           else if LevelIdleTimeout <? idle then on_speaker s k (fun sp => LevelTimedOut sp nowMs)
           else mret s);
      TimeoutIdleLevels order' ids s nowMs
  end.

Definition Update (s : State) (order : list str) (ids : gmap address str) (nowMs : Z) : res (State * list event) :=
  s ← (if LevelIdleTimeout <=? u64 (nowMs - lastLevelIdleTime s) then
         s ← (if negb (lastLevelIdleTime s =? 0) then TimeoutIdleLevels order ids s nowMs else mret s);
         mret (set_idle s nowMs)
       else mret s);
  if bool_decide (mapProducerSpeakers s = ∅) then mret (s, [])
  else
    '(s, changed) ← CalculateActiveSpeaker s order ids;
    mret (s, if changed : bool then [EmittedDominantSpeaker (dominantId s)] else []).

Definition OnTimer (s : State) (order : list str) (ids : gmap address str) (nowMs : Z) : res (State * list event) :=
  if periodicTimer s then Update s order ids nowMs else mret (s, []).

(** [order] walks what is left after the removal. *)
Definition RemoveProducer (s : State) (id : str) (order : list str) (ids : gmap address str) (nowMs : Z) : res (State * list event) :=
  match mapProducerSpeakers s !! id with
  | None => mret (s, [])
  | Some _ =>
      let s := set_speakers s (delete id (mapProducerSpeakers s)) in
      if bool_decide (id = dominantId s) then Update (set_dominant s []) order ids nowMs else mret (s, [])
  end.

End Log.

End ActiveSpeakerObserver.
