(* ===== verification/ActiveSpeakerSpec.v ===== *)
(** * The active speaker observer is safe, and names members

    The vectors of the speakers keep their sizes and ranges, so that the activity scores are
    computed within the domain of the binomial coefficients; the dominant speaker is always one
    of the speakers; and what a new dominant speaker has to surpass. *)

From Stdlib Require Import SpecFloat.
From stdpp Require Import gmap.
From S2P Require Import Prelude StateMonad Utils Float RtcpPacket RtpPacket RtpParameters Consumer RtpListener AudioLevelObserver ActiveSpeakerObserver.

Import ActiveSpeakerObserver.

(** ** Vectors of small integers *)

(** [n] values from 0 to [b]. *)
Definition vector (n b : Z) (l : list Z) : Prop := zlen l = n /\ Forall (fun v => 0 <= v <= b) l.

Lemma vector_read n b l i : vector n b l -> 0 <= i < n -> exists v, read l i = Ok v /\ 0 <= v <= b.
Proof.
  intros [Hn Hb] Hi. unfold read. destruct (Z.leb_spec 0 i); [|lia].
  destruct (lookup_lt_is_Some_2 l (Z.to_nat i)) as [v Hv]; [unfold zlen in Hn; lia|]. rewrite Hv. exists v. split; [done|].
  rewrite Forall_forall in Hb. apply Hb. by eapply list_elem_of_lookup_2.
Qed.

Lemma vector_store n b l i v : vector n b l -> 0 <= i < n -> 0 <= v <= b -> exists l', store l i v = Ok l' /\ vector n b l'.
Proof.
  intros [Hn Hb] Hi Hv. unfold store. destruct (Z.leb_spec 0 i), (Z.ltb_spec i (zlen l)); try lia. cbn.
  eexists. split; [done|]. split; [unfold zlen in *; by rewrite length_insert|]. by apply Forall_insert.
Qed.

Lemma vector_replicate n b : 0 <= n -> 0 <= b -> vector n b (replicate (Z.to_nat n) 0).
Proof. intros. split; [by apply zlen_replicate|]. apply Forall_replicate. lia. Qed.

(** ** The speakers *)

Record speaker_ok (s : Speaker) : Prop := {
  ok_immediates : vector ImmediateBuffLen N1 (immediates s);
  ok_mediums : vector MediumsBuffLen N2 (mediums s);
  ok_longs : vector LongsBuffLen N3 (longs s);
  ok_levels : vector LevelsBuffLen MaxLevel (levels s);
  ok_index : 0 <= nextLevelIndex s < LevelsBuffLen;
  ok_min : 0 <= minLevel s <= MaxLevel;
  ok_next : 0 <= nextMinLevel s <= MaxLevel;
}.

Lemma new_speaker_ok b n : speaker_ok (new_speaker b n).
Proof. split; cbn -[Z.to_nat]; try (apply vector_replicate; by vm_compute); by vm_compute. Qed.

Lemma set_sp_paused_ok s b : speaker_ok s -> speaker_ok (set_sp_paused s b).
Proof. by destruct 1; split. Qed.

(** *** The noise level *)

(** The square root of the product of two levels is the integer square root: it is a level. *)
Lemma new_min_level p : 0 <= p <= MaxLevel * MaxLevel ->
  let x := SFsqrt 53 1024 (f64 p) in
  uint_of_float 7 (if SFltb x (f64 MinLevel) then f64 MinLevel else if SFltb (f64 MaxLevel) x then f64 MaxLevel else x) = Ok (Z.sqrt p)
  \/ SFltb (f64 MaxLevel) x = true.
Proof.
  intros Hp x. destruct (decide (p = 0)) as [->|Hne]; [left; by vm_compute|]. unfold MaxLevel in Hp.
  destruct (sqrt_trunc p ltac:(lia)) as (m & e & E & Ev). subst x. rewrite E.
  destruct (SFltb (f64 MaxLevel) (S754_finite false m e)) eqn:E2; [by right|left]. cbn [SFltb SFcompare].
  change (SFltb (S754_finite false m e) (f64 MinLevel)) with false. cbv iota.
  unfold uint_of_float, float_to_uint. rewrite Ev. assert (0 <= Z.sqrt p < 2 ^ 7) as Hr.
  { split; [apply Z.sqrt_nonneg|]. apply Z.sqrt_lt_square; [lia..|]. change (2 ^ 7 * 2 ^ 7) with 16384. lia. }
  destruct (Z.leb_spec 0 (Z.sqrt p)), (Z.ltb_spec (Z.sqrt p) (2 ^ 7)); [done|lia..].
Qed.

Lemma UpdateMinLevel_ok s level : speaker_ok s -> 0 <= level <= MaxLevel -> exists s', UpdateMinLevel s level = Ok s' /\ speaker_ok s'.
Proof.
  intros [H1 H2 H3 H4 H5 H6 H7] Hl. unfold UpdateMinLevel.
  destruct (level =? MinLevel); [by eexists|]. destruct (_ || _).
  { eexists. split; [done|]. by split. }
  destruct (nextMinLevel s =? MinLevel); [eexists; split; [done|]; by split|].
  set (next := if level <? nextMinLevel s then level else nextMinLevel s).
  assert (0 <= next <= MaxLevel) as Hn by (unfold next; destruct (_ <? _); lia).
  destruct (_ <=? _); [|eexists; split; [done|]; by split]. cbv zeta.
  assert (exists v, uint_of_float 7 (if SFltb (SFsqrt 53 1024 (f64 (minLevel s * next))) (f64 MinLevel) then f64 MinLevel
      else if SFltb (f64 MaxLevel) (SFsqrt 53 1024 (f64 (minLevel s * next))) then f64 MaxLevel
      else SFsqrt 53 1024 (f64 (minLevel s * next))) = Ok v /\ 0 <= v <= MaxLevel) as (v & -> & Hv).
  { assert (0 <= minLevel s * next <= MaxLevel * MaxLevel) as Hp by (split; [apply Z.mul_nonneg_nonneg|apply Z.mul_le_mono_nonneg]; lia).
    destruct (new_min_level (minLevel s * next) Hp) as [->|E].
    - eexists. split; [done|]. split; [apply Z.sqrt_nonneg|]. unfold MaxLevel in *. apply Z.lt_succ_r, Z.sqrt_lt_square; lia.
    - destruct (SFltb (SFsqrt _ _ _) (f64 MinLevel)) eqn:E0; [by exists 0|]. rewrite E. exists 127. by vm_compute. }
  eexists. split; [done|]. by split.
Qed.

(** *** The ring of levels *)

Lemma write_levels_ok k : forall l i b, vector LevelsBuffLen MaxLevel l -> 0 <= i < LevelsBuffLen -> 0 <= b <= MaxLevel ->
  exists l' i', write_levels k l i b = Ok (l', i') /\ vector LevelsBuffLen MaxLevel l' /\ 0 <= i' < LevelsBuffLen.
Proof.
  induction k as [|k IH]; intros l i b Hl Hi Hb; cbn [write_levels]; [by eexists _, _|].
  destruct (vector_store _ _ _ _ _ Hl Hi Hb) as (l1 & -> & Hl1). apply (IH l1 _ b); [done| |done].
  apply Z.mod_pos_bound. by vm_compute.
Qed.

Lemma LevelChanged_ok s level now : speaker_ok s -> 0 <= level -> exists s', LevelChanged s level now = Ok s' /\ speaker_ok s'.
Proof.
  intros Hs Hl. unfold LevelChanged. destruct (_ <=? _); [|by eexists]. cbv zeta.
  set (b := if level <? MinLevel then MinLevel else if MaxLevel <? level then MaxLevel else level).
  assert (0 <= b <= MaxLevel) as Hb by (unfold b, MinLevel, MaxLevel; repeat case_match; lia).
  destruct (write_levels_ok (Z.to_nat (Z.min (Z.max (u32 ((now - lastLevelChangeTime s) / 20)) 1) LevelsBuffLen))
    (levels s) (nextLevelIndex s) b (ok_levels s Hs) (ok_index s Hs) Hb) as (l & i & -> & Hv & Hi).
  apply UpdateMinLevel_ok; [|done]. by destruct Hs; split.
Qed.

(** *** Activities *)

Lemma level_index_range s i : 0 <= nextLevelIndex s < LevelsBuffLen -> 0 <= i < LevelsBuffLen -> 0 <= level_index s i < LevelsBuffLen.
Proof. unfold level_index, LevelsBuffLen, LongCount, N2, N3. destruct (Z.leb_spec (i + 1) (nextLevelIndex s)); lia. Qed.

Lemma immediates_loop_ok s min k : speaker_ok s -> forall i l c, vector ImmediateBuffLen N1 l -> 0 <= i -> i + Z.of_nat k <= ImmediateBuffLen ->
  exists l' c', immediates_loop k s min i l c = Ok (l', c') /\ vector ImmediateBuffLen N1 l'.
Proof.
  intros Hs. induction k as [|k IH]; intros i l c Hl Hi Hk; cbn [immediates_loop]; [by eexists _, _|].
  destruct (vector_read LevelsBuffLen MaxLevel (levels s) (level_index s i) (ok_levels s Hs)) as (v & -> & Hv);
    [apply level_index_range; [apply Hs|unfold ImmediateBuffLen, LevelsBuffLen in *; lia]|]. cbn [mbind res_bind].
  set (w := if v <? min then MinLevel else v). assert (0 <= w <= MaxLevel) as Hw by (unfold w, MinLevel; destruct (_ <? _); lia).
  assert (0 <= u8 (w / SubunitLengthN1) <= N1) as Hb.
  { unfold SubunitLengthN1, MaxLevel, MinLevel, N1 in *. change ((127 - 0 + 13 - 1) / 13) with 10.
    assert (0 <= w / 10 <= 12) by (Z.div_mod_to_equations; lia). rewrite (uwrap_id 8) by (unfold fits; lia). lia. }
  destruct (vector_read ImmediateBuffLen N1 l i Hl ltac:(lia)) as (o & -> & _). cbn [mbind res_bind].
  destruct (o =? _); [apply IH; [done|lia..]|].
  destruct (vector_store _ _ _ i _ Hl ltac:(lia) Hb) as (l1 & -> & Hl1). cbn [mbind res_bind]. apply IH; [done|lia..].
Qed.

Lemma count_over_ok littles n b t k : vector n b littles -> forall l sum, 0 <= l -> l + Z.of_nat k <= n -> 0 <= sum -> sum + Z.of_nat k < 256 ->
  exists v, count_over k littles l t sum = Ok v /\ sum <= v <= sum + Z.of_nat k.
Proof.
  intros Hl. induction k as [|k IH]; intros l sum H1 H2 H3 H4; cbn [count_over]; [eexists; split; [done|lia]|].
  destruct (vector_read n b littles l Hl ltac:(lia)) as (x & -> & _). cbn [mbind res_bind].
  destruct (t <? x); [rewrite (uwrap_id 8) by (unfold fits; lia)|];
    edestruct IH as (v & -> & Hv); [| | | |eexists; split; [done|lia]|..|eexists; split; [done|lia]]; lia.
Qed.

Lemma bigs_loop_ok littles n b per m t k : vector n b littles -> 0 <= per < 256 -> forall i bigs c, vector m per bigs -> 0 <= i ->
  i + Z.of_nat k <= m -> m * per <= n ->
  exists l' c', bigs_loop k littles per i bigs t c = Ok (l', c') /\ vector m per l'.
Proof.
  intros Hl Hp. induction k as [|k IH]; intros i bigs c Hb Hi Hk Hm; cbn [bigs_loop]; [by eexists _, _|].
  destruct (count_over_ok littles n b t (Z.to_nat per) Hl (i * per) 0) as (v & -> & Hv); [nia..|]. cbn [mbind res_bind].
  destruct (vector_read m per bigs i Hb ltac:(lia)) as (o & -> & _). cbn [mbind res_bind].
  destruct (o =? v); [apply IH; [done|lia..]|].
  destruct (vector_store _ _ _ i v Hb ltac:(lia) ltac:(lia)) as (l1 & -> & Hl1). cbn [mbind res_bind]. apply IH; [done|lia..].
Qed.

Lemma ComputeBigs_ok littles n b per m bigs t : vector n b littles -> vector m per bigs -> 0 < m -> 0 <= per < 256 -> n = m * per ->
  exists l' c', ComputeBigs littles bigs t = Ok (l', c') /\ vector m per l'.
Proof.
  intros Hl Hb Hm Hp Hn. unfold ComputeBigs. pose proof (proj1 Hl) as E1. pose proof (proj1 Hb) as E2. rewrite E1, E2.
  replace (n / m) with per by (subst n; symmetry; rewrite Z.mul_comm; apply Z.div_mul; lia).
  apply (bigs_loop_ok littles n b); [done..|lia| |lia]. unfold zlen in E2. lia.
Qed.

Lemma EvalActivityScores_ok ln s : speaker_ok s -> exists s', EvalActivityScores ln s = Ok s' /\ speaker_ok s' /\ sp_paused s' = sp_paused s.
Proof.
  intros Hs. unfold EvalActivityScores, ComputeImmediates.
  destruct (immediates_loop_ok s (i8 (minLevel s + SubunitLengthN1)) (Z.to_nat ImmediateBuffLen) Hs 0 (immediates s) false (ok_immediates s Hs))
    as (imm & c & -> & Hi); [by vm_compute..|]. cbn [mbind res_bind].
  destruct c; [|by exists s]. unfold EvalImmediateActivityScore. destruct (vector_read _ _ imm 0 Hi) as (v & -> & _); [by vm_compute|].
  cbn [mbind res_bind immediates mediums set_immediates].
  destruct (ComputeBigs_ok imm ImmediateBuffLen N1 N2 MediumsBuffLen (mediums s) MediumThreshold Hi (ok_mediums s Hs)) as (med & c & -> & Hm);
    [by vm_compute..|]. cbn [mbind res_bind].
  destruct c; [|eexists; split; [done|]; split; [by destruct Hs; split|done]].
  unfold EvalMediumActivityScore. destruct (vector_read _ _ med 0 Hm) as (w & -> & _); [by vm_compute|].
  cbn [mbind res_bind mediums longs set_immediates set_mediums].
  destruct (ComputeBigs_ok med MediumsBuffLen N2 N3 LongsBuffLen (longs s) LongThreashold Hm (ok_longs s Hs)) as (lon & c & -> & Hl);
    [by vm_compute..|]. cbn [mbind res_bind].
  destruct c; [|eexists; split; [done|]; split; [by destruct Hs; split|done]].
  unfold EvalLongActivityScore. destruct (vector_read _ _ lon 0 Hl) as (x & -> & _); [by vm_compute|].
  eexists. split; [done|]. split; [by destruct Hs; split|done].
Qed.

(** *** Binomial coefficients: Pascal's triangle *)
Fixpoint pascal (n r : nat) : Z :=
  match n, r with
  | _, O => 1
  | O, S _ => 0
  | S n', S r' => pascal n' r' + pascal n' r
  end.

Lemma binomial_pascal n r : (n <= 13)%nat -> (r <= n)%nat -> BinomialCoefficient (Z.of_nat n) (Z.of_nat r) = pascal n r /\ 1 <= pascal n r.
Proof.
  intros Hn Hr.
  assert (forallb (fun n => forallb (fun r => bool_decide (BinomialCoefficient (Z.of_nat n) (Z.of_nat r) = pascal n r /\ 1 <= pascal n r)) (seq 0 (S n))) (seq 0 14) = true) as H by by vm_compute.
  rewrite forallb_forall in H. specialize (H n ltac:(apply in_seq; lia)). rewrite forallb_forall in H.
  specialize (H r ltac:(apply in_seq; lia)). by apply bool_decide_eq_true in H.
Qed.

(** ** The observer *)

Module ActiveSpeakerSpec.

Section Spec.

Context (ln : spec_float -> spec_float).
Implicit Types (s : State) (ids : gmap address str) (m : gmap str ProducerSpeaker).

Definition speakers_ok m : Prop := map_Forall (fun _ ps => speaker_ok (speaker ps)) m.

(** The producers are alive, and have the ids they are stored under. *)
Definition alive ids m : Prop := map_Forall (fun k ps => ids !! sp_producer ps = Some k) m.

Definition members m (order : list str) : Prop := Forall (fun k => is_Some (m !! k)) order.

Record Inv s : Prop := {
  inv_speakers : speakers_ok (mapProducerSpeakers s);
  inv_dominant : dominantId s = [] \/ is_Some (mapProducerSpeakers s !! dominantId s);
}.

(** [m'] has the speakers of [m], for the same producers, up to their levels and scores. *)
Definition same_speakers m m' : Prop :=
  forall k, sp_producer <$> m' !! k = sp_producer <$> m !! k.

#[global] Instance same_speakers_preorder : PreOrder same_speakers.
Proof. split; [by intros m k|]. intros m1 m2 m3 H1 H2 k. by rewrite H2, H1. Qed.

Lemma same_member m m' k : same_speakers m m' -> is_Some (m' !! k) <-> is_Some (m !! k).
Proof. intros H. by rewrite <- (fmap_is_Some sp_producer (m' !! k)), H, fmap_is_Some. Qed.

Lemma same_alive ids m m' : same_speakers m m' -> alive ids m -> alive ids m'.
Proof.
  intros H Ha k ps E. specialize (H k). rewrite E in H. destruct (m !! k) as [ps0|] eqn:E0; [|done]. injection H as H.
  rewrite H. exact (Ha k ps0 E0).
Qed.

Lemma same_members m m' order : same_speakers m m' -> members m order -> members m' order.
Proof. intros H Hm. eapply Forall_impl; [exact Hm|]. intros k. by apply same_member. Qed.

Lemma same_insert m k ps sp : m !! k = Some ps -> same_speakers m (<[k := {| sp_producer := sp_producer ps; speaker := sp |}]> m).
Proof. intros E j. destruct (decide (k = j)) as [<-|Hne]; [by rewrite lookup_insert_eq, E|by rewrite lookup_insert_ne]. Qed.

Lemma insert_speakers_ok m k p sp : speakers_ok m -> speaker_ok sp -> speakers_ok (<[k := {| sp_producer := p; speaker := sp |}]> m).
Proof. intros H1 H2. by apply map_Forall_insert_2. Qed.

(** The relative activities of [sp] with respect to [d] are over the thresholds. *)
Definition surpasses (sp d : Speaker) : Prop :=
  SFltb (f64 C1) (ln (fdiv (immediateActivityScore sp) (immediateActivityScore d))) = true /\
  SFltb (f64 C2) (ln (fdiv (mediumActivityScore sp) (mediumActivityScore d))) = true /\
  SFltb (f64 C3) (ln (fdiv (longActivityScore sp) (longActivityScore d))) = true.

(** The speaker at [r] takes over from the one at [d]. *)
Definition takes_over m (r d : str) : Prop :=
  exists ps pd, m !! r = Some ps /\ m !! d = Some pd /\ sp_paused (speaker ps) = false /\ surpasses (speaker ps) (speaker pd).

Lemma challenge_ok ids dominant order : forall s nd c2, NoDup order ->
  speakers_ok (mapProducerSpeakers s) -> alive ids (mapProducerSpeakers s) -> members (mapProducerSpeakers s) order ->
  is_Some (mapProducerSpeakers s !! dominant) ->
  exists m r, challenge ln order ids dominant s nd c2 = Ok (set_speakers s m, r) /\ speakers_ok m /\
    same_speakers (mapProducerSpeakers s) m /\ (forall k, k ∉ order \/ k = dominantId s -> m !! k = mapProducerSpeakers s !! k) /\
    (r = nd \/ r ∈ order /\ (dominantId s = dominant -> takes_over m r dominant)).
Proof.
  induction order as [|k order IH]; intros s nd c2 Hd Hs Ha Hm Hdom; cbn [challenge].
  { exists (mapProducerSpeakers s), nd. split_and!; [by destruct s|done|done|done|by left]. }
  apply NoDup_cons in Hd as [Hk Hd]. apply Forall_cons in Hm as [[ps Ek] Hm]. rewrite Ek. cbn [deref mbind res_bind].
  rewrite (Ha k ps Ek). cbn [deref mbind res_bind]. destruct (_ || _) eqn:Eor.
  { destruct (IH s nd c2 Hd Hs Ha Hm Hdom) as (m & r & E & H1 & H2 & H3 & H4). exists m, r. split_and!; [done..| |].
    - intros j [Hj|Hj]; apply H3; [left|by right]. intros Hj'. apply Hj. by right.
    - destruct H4 as [|[? ?]]; [by left|right]. split; [by right|done]. }
  apply orb_false_elim in Eor as [Ekd%bool_decide_eq_false Ep].
  destruct (EvalActivityScores_ok ln (speaker ps) (Hs k ps Ek)) as (sp & -> & Hsp & Epp). cbn [mbind res_bind].
  set (m1 := <[k := {| sp_producer := sp_producer ps; speaker := sp |}]> (mapProducerSpeakers s)).
  pose proof (same_insert _ k ps sp Ek) as Hsame. fold m1 in Hsame.
  assert (is_Some (m1 !! dominant)) as Hdom1 by by apply (same_member _ _ dominant Hsame).
  assert (forall j, j ∉ k :: order \/ j = dominantId s -> m1 !! j = mapProducerSpeakers s !! j) as Hfr.
  { intros j Hj. unfold m1. rewrite lookup_insert_ne; [done|]. intros <-. destruct Hj as [Hj|Hj]; [apply Hj; by left|done]. }
  pose proof Hdom1 as [pd Epd]. cbn [mapProducerSpeakers set_speakers]. rewrite Epd. cbn [deref mbind res_bind].
  assert (forall nd c2, exists m r, challenge ln order ids dominant (set_speakers s m1) nd c2 = Ok (set_speakers s m, r) /\ speakers_ok m /\
    same_speakers (mapProducerSpeakers s) m /\ (forall j, j ∉ k :: order \/ j = dominantId s -> m !! j = mapProducerSpeakers s !! j) /\
    m !! k = m1 !! k /\ (dominantId s = dominant -> m !! dominant = m1 !! dominant) /\
    (r = nd \/ r ∈ order /\ (dominantId s = dominant -> takes_over m r dominant))) as Hrec.
  { intros nd' c2'. destruct (IH (set_speakers s m1) nd' c2' Hd) as (m & r & E & H1 & H2 & H3 & H4);
      [by apply insert_speakers_ok|by eapply same_alive|by eapply same_members|done|].
    exists m, r. split_and!; [exact E|exact H1|by etransitivity| |by apply H3; left| |exact H4].
    - intros j Hj. rewrite H3; [by apply Hfr|]. destruct Hj as [Hj|]; [left|by right]. intros Hj'. apply Hj. by right.
    - intros E'. apply H3. by right. }
  change (relative ln sp (speaker pd) 0) with (Ok (ln (fdiv (immediateActivityScore sp) (immediateActivityScore (speaker pd))))).
  change (relative ln sp (speaker pd) 1) with (Ok (ln (fdiv (mediumActivityScore sp) (mediumActivityScore (speaker pd))))).
  change (relative ln sp (speaker pd) 2) with (Ok (ln (fdiv (longActivityScore sp) (longActivityScore (speaker pd))))).
  cbn [mbind res_bind].
  match goal with |- context [if ?b then _ else _] => destruct b eqn:Eb end.
  - destruct (Hrec k (ln (fdiv (mediumActivityScore sp) (mediumActivityScore (speaker pd))))) as (m & r & E & H1 & H2 & H3 & H4 & H5 & H6).
    exists m, r. split_and!; [exact E|done..|]. destruct H6 as [->|[? ?]]; [|right; split; [by right|done]].
    right. split; [by left|]. intros Edd. exists {| sp_producer := sp_producer ps; speaker := sp |}, pd. cbn [speaker].
    rewrite H4, (H5 Edd). unfold m1 at 1. rewrite lookup_insert_eq. split_and!; [done|done|congruence|].
    apply andb_prop in Eb as [[[? ?]%andb_prop ?]%andb_prop _]. by split_and!.
  - destruct (Hrec nd c2) as (m & r & E & H1 & H2 & H3 & H4 & H5 & H6). exists m, r. split_and!; [exact E|done..|].
    destruct H6 as [->|[? ?]]; [by left|right; split; [by right|done]].
Qed.

(** [order] walks the speakers of [m]. *)
Definition walks m (order : list str) : Prop := order ≡ₚ elements (dom m).

Lemma walks_members m order : walks m order -> NoDup order /\ members m order.
Proof.
  intros H. split; [rewrite H; apply NoDup_elements|]. apply Forall_forall. intros k Hk. rewrite H, elem_of_elements in Hk. by apply elem_of_dom.
Qed.

Lemma same_dom m m' : same_speakers m m' -> dom m' = dom m.
Proof. intros H. apply leibniz_equiv. intros k. rewrite !elem_of_dom. by apply same_member. Qed.

Lemma same_walks m m' order : same_speakers m m' -> walks m order -> walks m' order.
Proof. intros H. unfold walks. by rewrite (same_dom _ _ H). Qed.

Lemma same_size m m' : same_speakers m m' -> size m' = size m.
Proof. intros H. by rewrite <- !size_dom, (same_dom _ _ H). Qed.

Lemma walks_head m order : walks m order -> size m <> O -> exists k, head order = Some k /\ k ∈ order /\ is_Some (m !! k).
Proof.
  intros H Hs. destruct order as [|k order].
  - exfalso. apply Hs. rewrite <- size_dom. unfold size, set_size. cbn. rewrite <- (Permutation_length H). done.
  - exists k. destruct (walks_members _ _ H) as [_ Hm]. apply Forall_cons in Hm as [? _]. split_and!; [done|by left|done].
Qed.

(** A new dominant speaker is a member, and takes over from the one before. *)
Definition announces s m (r : str) : Prop :=
  is_Some (mapProducerSpeakers s !! r) /\ (dominantId s <> [] -> (2 <= size m)%nat -> takes_over m r (dominantId s)).

Lemma candidate_ok s order ids : Inv s -> alive ids (mapProducerSpeakers s) -> walks (mapProducerSpeakers s) order ->
  exists m r, candidate ln s order ids = Ok (set_speakers s m, r) /\ speakers_ok m /\
    same_speakers (mapProducerSpeakers s) m /\ (r = [] \/ announces s m r).
Proof.
  intros [Hs Hd] Ha Hw. destruct (walks_members _ _ Hw) as [Hn Hm]. unfold candidate.
  destruct (size (mapProducerSpeakers s)) as [|[|n]] eqn:Esz.
  - exists (mapProducerSpeakers s), []. split_and!; [by destruct s|done|done|by left].
  - destruct (walks_head _ _ Hw ltac:(lia)) as (k & -> & _ & [ps Ek]). cbn [deref mbind res_bind]. rewrite Ek. cbn [deref mbind res_bind].
    rewrite (Ha k ps Ek). exists (mapProducerSpeakers s), k. split_and!; [by destruct s|done|done|]. right. split; [by eexists|]. lia.
  - destruct (walks_head _ _ Hw ltac:(lia)) as (k & -> & Hk & [psk Ek]).
    assert (exists d nd, match dominantId s with [] => first ← deref (Some k); mret (first, first) | d => mret (d, []) end = Ok (d, nd) /\
      is_Some (mapProducerSpeakers s !! d) /\ (nd = [] \/ is_Some (mapProducerSpeakers s !! nd) /\ dominantId s = []) /\
      (dominantId s <> [] -> dominantId s = d)) as (d & nd & -> & [ps Ed] & Hnd & Hdd).
    { destruct (dominantId s) as [|c l] eqn:Edom; [exists k, k|exists (c :: l), []]; (split; [done|]).
      - split_and!; [by eexists|right; split; [by eexists|done]|done].
      - destruct Hd as [?|?]; [done|]. split_and!; [done|by left|done]. }
    cbn [mbind res_bind]. rewrite Ed. destruct (EvalActivityScores_ok ln (speaker ps) (Hs d ps Ed)) as (sp & -> & Hsp & _). cbn [mbind res_bind].
    pose proof (same_insert _ d ps sp Ed) as Hsame. set (m1 := <[d := _]> (mapProducerSpeakers s)) in *.
    destruct (challenge_ok ids d order (set_speakers s m1) nd (f64 C2)) as (m & r & E & H1 & H2 & H3 & H4);
      [done|by apply insert_speakers_ok|by eapply same_alive|by eapply same_members|by apply (same_member _ _ d Hsame)|].
    exists m, r. split_and!; [exact E|done|by etransitivity|]. destruct H4 as [->|[Hr Ht]].
    + destruct Hnd as [->|[? E0]]; [by left|right]. split; [done|]. by rewrite E0.
    + right. unfold members in Hm. rewrite Forall_forall in Hm. split; [by apply Hm|]. intros Hne _. rewrite (Hdd Hne). apply Ht. exact (Hdd Hne).
Qed.

Lemma Calculate_ok s order ids : Inv s -> alive ids (mapProducerSpeakers s) -> walks (mapProducerSpeakers s) order ->
  exists m d c, CalculateActiveSpeaker ln s order ids = Ok (set_dominant (set_speakers s m) d, c) /\ speakers_ok m /\
    same_speakers (mapProducerSpeakers s) m /\ (c = false /\ d = dominantId s \/ c = true /\ d <> dominantId s /\ announces s m d).
Proof.
  intros Hi Ha Hw. unfold CalculateActiveSpeaker. destruct (candidate_ok s order ids Hi Ha Hw) as (m & r & -> & H1 & H2 & H3). cbn [mbind res_bind].
  cbn [dominantId set_speakers]. case_bool_decide as E1; case_bool_decide as E2; cbn [negb andb].
  1-3: exists m, (dominantId s), false; split_and!; [done..|by left].
  exists m, r, true. split_and!; [done..|]. right. split_and!; [done|done|]. by destruct H3.
Qed.

Lemma on_speaker_ok s k f : speakers_ok (mapProducerSpeakers s) ->
  (forall sp, speaker_ok sp -> exists sp', f sp = Ok sp' /\ speaker_ok sp') ->
  exists m, on_speaker s k f = Ok (set_speakers s m) /\ speakers_ok m /\ same_speakers (mapProducerSpeakers s) m.
Proof.
  intros Hs Hf. unfold on_speaker. destruct (mapProducerSpeakers s !! k) as [ps|] eqn:E.
  - destruct (Hf (speaker ps) (Hs k ps E)) as (sp & -> & Hsp). eexists. split; [done|]. split; [by apply insert_speakers_ok|by apply same_insert].
  - exists (mapProducerSpeakers s). split; [by destruct s|done].
Qed.

Lemma Timeout_ok ids now order : forall s, speakers_ok (mapProducerSpeakers s) -> alive ids (mapProducerSpeakers s) -> members (mapProducerSpeakers s) order ->
  exists m, TimeoutIdleLevels order ids s now = Ok (set_speakers s m) /\ speakers_ok m /\ same_speakers (mapProducerSpeakers s) m.
Proof.
  induction order as [|k order IH]; intros s Hs Ha Hm; cbn [TimeoutIdleLevels].
  { exists (mapProducerSpeakers s). split; [by destruct s|done]. }
  apply Forall_cons in Hm as [[ps Ek] Hm]. rewrite Ek. cbn [deref mbind res_bind]. rewrite (Ha k ps Ek). cbn [deref mbind res_bind].
  match goal with |- context [mbind _ ?b] => assert (exists m, b = Ok (set_speakers s m) /\ speakers_ok m /\ same_speakers (mapProducerSpeakers s) m) as (m & -> & Hs1 & H1) end.
  { destruct (_ && _); [|destruct (_ <? _)].
    - apply on_speaker_ok; [done|]. intros sp Hsp. eexists. split; [done|by apply set_sp_paused_ok].
    - apply on_speaker_ok; [done|]. intros sp Hsp. by apply LevelChanged_ok.
    - exists (mapProducerSpeakers s). split; [by destruct s|done]. }
  cbn [mbind res_bind]. destruct (IH (set_speakers s m)) as (m' & E & Hs2 & H2); [done|by eapply same_alive|by eapply same_members|].
  exists m'. split; [exact E|]. split; [done|]. by etransitivity.
Qed.

(** What a round of the timer does. *)
Definition updated s s' (evs : list event) : Prop :=
  Inv s' /\ same_speakers (mapProducerSpeakers s) (mapProducerSpeakers s') /\
  (evs = [] /\ dominantId s' = dominantId s \/
   evs = [EmittedDominantSpeaker (dominantId s')] /\ dominantId s' <> dominantId s /\ announces s (mapProducerSpeakers s') (dominantId s')).

Lemma Update_ok s order ids now : Inv s -> alive ids (mapProducerSpeakers s) -> walks (mapProducerSpeakers s) order ->
  exists s' evs, Update ln s order ids now = Ok (s', evs) /\ updated s s' evs.
Proof.
  intros [Hs Hd] Ha Hw. unfold Update.
  match goal with |- context [mbind _ ?b] => assert (exists m t, b = Ok (set_idle (set_speakers s m) t) /\ speakers_ok m /\ same_speakers (mapProducerSpeakers s) m) as (m & t & -> & Hs1 & H1) end.
  { destruct (_ <=? _); [|exists (mapProducerSpeakers s), (lastLevelIdleTime s); split; [by destruct s|done]].
    destruct (negb _); [|exists (mapProducerSpeakers s), now; split; [by destruct s|done]].
    destruct (Timeout_ok ids now order s Hs Ha (proj2 (walks_members _ _ Hw))) as (m & -> & ? & ?). by exists m, now. }
  cbn [mbind res_bind mapProducerSpeakers set_idle set_speakers].
  assert (Inv (set_idle (set_speakers s m) t)) as Hi1.
  { split; [done|]. destruct Hd as [?|Hd]; [by left|right]. by apply (same_member _ _ _ H1). }
  case_bool_decide as Em.
  { eexists _, _. split; [done|]. split; [done|]. split; [done|by left]. }
  destruct (Calculate_ok _ order ids Hi1 (same_alive _ _ _ H1 Ha) (same_walks _ _ _ H1 Hw)) as (m' & d & c & -> & Hs2 & H2 & H3).
  cbn [mbind res_bind]. eexists _, _. split; [done|]. cbn in H2, H3 |- *. unfold updated. cbn.
  assert (same_speakers (mapProducerSpeakers s) m') as H12 by by etransitivity.
  destruct H3 as [[-> ->]|(-> & Hne & [Hm Ht])].
  - split_and!; [|done|by left]. split; [done|]. cbn. destruct Hd as [?|Hd]; [by left|right]. by apply (same_member _ _ _ H12).
  - split_and!; [|done|right]. { split; [done|]. cbn. right. by apply (same_member _ _ _ H2). }
    split_and!; [done|done|]. split; [by apply (same_member _ _ _ H1)|exact Ht].
Qed.

(** *** Histories *)

Inductive call :=
| Add (p : address) (id : str) (k : Consumer.Kind) (producerPaused : bool) (nowMs : Z)
| Remove (id : str) (order : list str) (ids : gmap address str) (nowMs : Z)
| Paused (id : str)
| Resumed (id : str)
| Packet (id : str) (packet : RtpPacket.t) (nowMs : Z)
| ObserverPause
| ObserverResume
| Tick (order : list str) (ids : gmap address str) (nowMs : Z).

(** A call that throws leaves the observer as it was. *)
Definition exec (c : call) (s : State) : res (State * list event) :=
  match c with
  | Add p id k b now => mret (default s (AddProducer s p id k b now), [])
  | Remove id order ids now => RemoveProducer ln s id order ids now
  | Paused id => s ← ProducerPaused s id; mret (s, [])
  | Resumed id => s ← ProducerResumed s id; mret (s, [])
  | Packet id packet now => s ← ReceiveRtpPacket s id packet now; mret (s, [])
  | ObserverPause => mret (Pause s, [])
  | ObserverResume => mret (Resume s, [])
  | Tick order ids now => OnTimer ln s order ids now
  end.

(** The map is walked as it is, the producers in it are alive, and the audio level of the packet
    can be read. *)
Definition admissible (c : call) (s : State) : Prop :=
  match c with
  | Remove id order ids _ => let m := delete id (mapProducerSpeakers s) in alive ids m /\ walks m order
  | Tick order ids _ => alive ids (mapProducerSpeakers s) /\ walks (mapProducerSpeakers s) order
  | Packet _ packet _ => safe (RtpPacket.ReadSsrcAudioLevel packet)
  | _ => True
  end.

Inductive reached (int : Z) : State -> Prop :=
| reached_make : reached int (make int)
| reached_call s c s' evs : reached int s -> admissible c s -> exec c s = Ok (s', evs) -> reached int s'.

(** The events name the new dominant speaker, which is a member. *)
Definition named s s' (evs : list event) : Prop :=
  evs = [] \/ evs = [EmittedDominantSpeaker (dominantId s')] /\ dominantId s' <> dominantId s /\ is_Some (mapProducerSpeakers s' !! dominantId s').

Lemma updated_named s s' evs : updated s s' evs -> named s s' evs.
Proof.
  intros (_ & Hsame & [[-> _]|(-> & Hne & [Hm _])]); [by left|right]. split_and!; [done|done|]. by apply (same_member _ _ _ Hsame).
Qed.

(** The producers of the speakers, by key, and what a call makes of them. *)
Definition watches s : gmap str address := sp_producer <$> mapProducerSpeakers s.

Lemma same_watches s s' : same_speakers (mapProducerSpeakers s) (mapProducerSpeakers s') -> watches s' = watches s.
Proof. intros H. apply map_eq. intros k. unfold watches. by rewrite !lookup_fmap, H. Qed.

Definition watches_after (c : call) s : gmap str address :=
  match c with
  | Add p id Consumer.AUDIO _ _ => match mapProducerSpeakers s !! id with Some _ => watches s | None => <[id := p]> (watches s) end
  | Remove id _ _ _ => delete id (watches s)
  | _ => watches s
  end.

Lemma Inv_speakers s m : Inv s -> speakers_ok m -> same_speakers (mapProducerSpeakers s) m -> Inv (set_speakers s m).
Proof. intros [_ Hd] Hm Hs. split; [done|]. destruct Hd as [?|Hd]; [by left|right]. by apply (same_member _ _ _ Hs). Qed.

Lemma Remove_ok s id order ids now : Inv s -> admissible (Remove id order ids now) s ->
  exists s' evs, RemoveProducer ln s id order ids now = Ok (s', evs) /\ Inv s' /\ named s s' evs /\ watches s' = delete id (watches s).
Proof.
  intros [Hs Hd] [Ha Hw]. unfold RemoveProducer. destruct (mapProducerSpeakers s !! id) eqn:E.
  2: { eexists _, _. split; [done|]. split; [by split|]. split; [by left|]. rewrite delete_id; [done|]. unfold watches. by rewrite lookup_fmap, E. }
  assert (speakers_ok (delete id (mapProducerSpeakers s))) as Hs1 by by apply map_Forall_delete.
  assert (watches (set_speakers s (delete id (mapProducerSpeakers s))) = delete id (watches s)) as Hw1 by apply fmap_delete.
  cbn [dominantId set_speakers]. case_bool_decide as Ed.
  - destruct (Update_ok (set_dominant (set_speakers s (delete id (mapProducerSpeakers s))) []) order ids now) as (s' & evs & -> & Hu);
      [split; [done|by left]|done|done|].
    exists s', evs. split; [done|]. split; [apply Hu|]. destruct Hu as (_ & Hsame & Hu). split; [|by rewrite <- Hw1, (same_watches _ _ Hsame)].
    destruct Hu as [[-> _]|(-> & Hne & [Hm _])]; [by left|right].
    cbn in Hm. split_and!; [done| |by apply (same_member _ _ _ Hsame)]. intros E'. destruct Hm as [ps Hm].
    apply lookup_delete_Some in Hm as [Hm _]. congruence.
  - eexists _, _. split; [done|]. split; [|split; [by left|exact Hw1]]. split; [done|]. cbn. destruct Hd as [?|Hd]; [by left|right]. by rewrite lookup_delete_ne.
Qed.

(** A call that only changes speakers. *)
Lemma speakers_changed s m : Inv s -> speakers_ok m -> same_speakers (mapProducerSpeakers s) m ->
  Inv (set_speakers s m) /\ named s (set_speakers s m) [] /\ watches (set_speakers s m) = watches s.
Proof. intros Hi Hm Hs. split; [by apply Inv_speakers|]. split; [by left|]. by apply same_watches. Qed.

Lemma exec_ok c s : Inv s -> admissible c s ->
  exists s' evs, exec c s = Ok (s', evs) /\ Inv s' /\ named s s' evs /\ watches s' = watches_after c s.
Proof.
  intros Hi Ha. destruct c as [p id k b now|id order ids now|id|id|id packet now| | |order ids now]; cbn [exec watches_after].
  - eexists _, _. split; [done|]. unfold AddProducer. destruct k; try (split; [exact Hi|split; [by left|done]]).
    destruct (mapProducerSpeakers s !! id) eqn:E; [split; [exact Hi|split; [by left|done]]|]. cbn [default from_option]. destruct Hi as [Hs Hd].
    split; [|split; [by left|apply fmap_insert]].
    split; [apply insert_speakers_ok; [done|apply new_speaker_ok]|]. cbn. destruct Hd as [?|[ps Hd]]; [by left|right].
    destruct (decide (id = dominantId s)) as [->|]; [congruence|]. rewrite lookup_insert_ne by done. by eexists.
  - by apply Remove_ok.
  - destruct (on_speaker_ok s id (fun sp => mret (set_sp_paused sp true)) (inv_speakers s Hi)) as (m & E & Hm & Hsame).
    { intros sp Hsp. eexists. split; [done|by apply set_sp_paused_ok]. }
    unfold ProducerPaused. rewrite E. eexists _, _. split; [done|]. by apply speakers_changed.
  - destruct (on_speaker_ok s id (fun sp => mret (set_sp_paused sp false)) (inv_speakers s Hi)) as (m & E & Hm & Hsame).
    { intros sp Hsp. eexists. split; [done|by apply set_sp_paused_ok]. }
    unfold ProducerResumed. rewrite E. eexists _, _. split; [done|]. by apply speakers_changed.
  - assert (exists m, ReceiveRtpPacket s id packet now = Ok (set_speakers s m) /\ speakers_ok m /\ same_speakers (mapProducerSpeakers s) m) as (m & -> & Hm & Hsame).
    { destruct Ha as [o Eo]. destruct Hi as [Hs _]. unfold ReceiveRtpPacket.
      destruct (paused s); [exists (mapProducerSpeakers s); split; [by destruct s|done]|]. rewrite Eo.
      destruct o as [[level v]|]; [|exists (mapProducerSpeakers s); split; [by destruct s|done]]. cbn [mbind res_bind].
      apply on_speaker_ok; [done|]. intros sp Hsp. apply LevelChanged_ok; [done|]. apply uwrap_fits. lia. }
    eexists _, _. split; [done|]. by apply speakers_changed.
  - eexists _, _. split; [done|]. unfold Pause. destruct (paused s); (split; [|by split; [left|]]); [exact Hi|by destruct Hi; split].
  - eexists _, _. split; [done|]. unfold Resume. destruct (paused s); (split; [|by split; [left|]]); [by destruct Hi; split|exact Hi].
  - destruct Ha as [Ha Hw]. unfold OnTimer. destruct (periodicTimer s); [|by eexists _, _; split; [|split; [|split; [left|]]]].
    destruct (Update_ok s order ids now Hi Ha Hw) as (s' & evs & -> & Hu). eexists _, _. split; [done|]. split; [apply Hu|]. split; [by apply updated_named|].
    apply same_watches. apply Hu.
Qed.

Lemma reached_Inv int s : reached int s -> Inv s.
Proof.
  induction 1 as [|s c s' evs _ IH Ha E]; [split; [apply map_Forall_empty|by left]|].
  destruct (exec_ok c s IH Ha) as (s1 & evs1 & E1 & H1 & _). rewrite E in E1. by injection E1 as <- _.
Qed.

(** C18: the dominant speaker.  Over every history of calls on an active speaker observer, each
    with the producers of the map alive, no call reads outside its vectors, finds the dominant
    speaker missing or converts a level it cannot: the call returns.  The event, if there is
    one, names a new dominant speaker that is one of the speakers; and when the timer replaces
    a dominant speaker among several, the new one is not paused and its activities, over the
    three intervals, surpass those of the one it replaces. *)
Theorem dominant_speaker_named int s c : reached int s -> admissible c s ->
  exists s' evs, exec c s = Ok (s', evs) /\ named s s' evs /\
    (forall order ids now, c = Tick order ids now -> evs <> [] -> dominantId s <> [] -> (2 <= size (mapProducerSpeakers s))%nat ->
       takes_over (mapProducerSpeakers s') (dominantId s') (dominantId s)).
Proof.
  intros Hr Ha. pose proof (reached_Inv int s Hr) as Hi. destruct (exec_ok c s Hi Ha) as (s' & evs & E & _ & Hn & _).
  exists s', evs. split_and!; [done|done|]. intros order ids now -> Hne Hd Hsz. cbn [exec] in E. unfold OnTimer in E.
  destruct (periodicTimer s); [|by injection E as _ <-]. destruct Ha as [Ha Hw].
  destruct (Update_ok s order ids now Hi Ha Hw) as (s1 & evs1 & E1 & Hu). rewrite E in E1. injection E1 as <- <-.
  destruct Hu as (_ & Hsame & [[-> _]|(_ & _ & [_ Ht])]); [done|]. apply Ht; [done|]. by rewrite (same_size _ _ Hsame).
Qed.

End Spec.

(** *** A concrete run: the second producer takes over from the first

    The logarithm is replaced by the identity, which is enough to evaluate the run. *)

Fixpoint run_calls (l : list call) (s : State) : res (State * list event) :=
  match l with
  | [] => Ok (s, [])
  | c :: l' => '(s, evs) ← exec (fun x => x) c s; '(s, evs') ← run_calls l' s; Ok (s, evs ++ evs')
  end.

Lemma reached_calls int l : forall s s' evs, reached (fun x => x) int s ->
  Forall (fun c => forall s, admissible c s) l -> run_calls l s = Ok (s', evs) -> reached (fun x => x) int s'.
Proof.
  induction l as [|c l IH]; intros s s' evs Hr Ha E; cbn [run_calls] in E; [by injection E as <- _|].
  apply res_bind_ok in E as ([s1 e1] & E1 & E). apply res_bind_ok in E as ([s2 e2] & E2 & E). injection E as <- _.
  apply Forall_cons in Ha as [Hc Ha]. refine (IH s1 _ _ _ Ha E2). exact (reached_call _ _ s c s1 e1 Hr (Hc s) E1).
Qed.

Definition sample_order : list str := [[66]; [65]].
Definition sample_ids : gmap address str := {[1%positive := [65]; 2%positive := [66]]}.
Definition sample_added : State :=
  from_option fst (make 300) (match run_calls [Add 1 [65] Consumer.AUDIO false 1000; Add 2 [66] Consumer.AUDIO false 1000] (make 300) with Ok x => Some x | _ => None end).

(** The first round names the first speaker of the walk; then the other one is heard for a second. *)
Definition sample_first : res (State * list event) := exec (fun x => x) (Tick sample_order sample_ids 1020) sample_added.
Lemma sample_first_ok : is_ok sample_first = true.
Proof. vm_compute. reflexivity. Qed.
Definition sample_second : res (State * list event) :=
  s ← Ok (from_ok _ sample_first_ok).1;
  p ← deref (AudioLevels.sample_packet 0);
  exec (fun x => x) (Packet [65] p 2000) s.
Lemma sample_second_ok : is_ok sample_second = true.
Proof. vm_compute. reflexivity. Qed.

Lemma sample_reached : reached (fun x => x) 300 (from_ok _ sample_second_ok).1.
Proof.
  assert (reached (fun x => x) 300 (from_ok _ sample_first_ok).1) as H1.
  { refine (reached_call _ _ sample_added (Tick sample_order sample_ids 1020) _ (from_ok _ sample_first_ok).2 _ _ _).
    - eapply (reached_calls 300 [Add 1 [65] Consumer.AUDIO false 1000; Add 2 [66] Consumer.AUDIO false 1000] (make 300)); [constructor|by repeat constructor|].
      vm_compute. reflexivity.
    - split; [by apply (bool_decide_unpack _); vm_compute|vm_compute; reflexivity].
    - change (sample_first = Ok ((from_ok _ sample_first_ok).1, (from_ok _ sample_first_ok).2)). rewrite <- surjective_pairing. apply from_ok_eq. }
  destruct (AudioLevels.sample_packet 0) as [p|] eqn:Ep; [|by vm_compute in Ep].
  refine (reached_call _ _ _ (Packet [65] p 2000) _ (from_ok _ sample_second_ok).2 H1 _ _).
  - vm_compute in Ep. injection Ep as <-. eexists. vm_compute. reflexivity.
  - rewrite <- surjective_pairing, <- from_ok_eq. unfold sample_second. by rewrite Ep.
Qed.

Lemma dominant_speaker_named_witness :
  exists s', exec (fun x => x) (Tick sample_order sample_ids 2020) (from_ok _ sample_second_ok).1 = Ok (s', [EmittedDominantSpeaker [65]]) /\
    takes_over (fun x => x) (mapProducerSpeakers s') [65] [66].
Proof.
  destruct (dominant_speaker_named (fun x => x) 300 _ (Tick sample_order sample_ids 2020) sample_reached) as (s' & evs & E & _ & Ht).
  { split; [by apply (bool_decide_unpack _); vm_compute|vm_compute; reflexivity]. }
  specialize (Ht _ _ _ eq_refl). exists s'. assert (evs = [EmittedDominantSpeaker [65]] /\ dominantId s' = [65]) as [-> Ed].
  { vm_compute in E. injection E as <- <-. done. }
  split; [exact E|]. rewrite Ed in Ht. apply Ht; [done|by vm_compute|vm_compute; lia].
Defined.

(** The noise floor is added in an [int8_t]: from the level 118 on it is negative, and every
    sample counts as speech, also one that is as loud as the noise. *)
Theorem noise_floor_wraps :
  i8 (117 + SubunitLengthN1) = 127 /\ i8 (118 + SubunitLengthN1) = -128.
Proof. by vm_compute. Qed.

End ActiveSpeakerSpec.
