(* ===== verification/DataChannel.v ===== *)
(** * Data producers and data consumers

    Models [worker/src/RTC/SctpDictionaries/SctpStreamParameters.cpp],
    [worker/src/RTC/DataProducer.cpp] and [worker/src/RTC/DataConsumer.cpp].  The members of a
    request are [field]s; the calls to the listener and the channel are events.  The SCTP
    association (usrsctp) is not part of the model: whether there is one is an argument. *)

From stdpp Require Import gmap.
From S2P Require Import Prelude Utils RtpParameters RtpListener Producer.

Import Producer.

(** ** Parameters of an SCTP stream *)

Module SctpStreamParameters.

Record t := { streamId : Z; ordered : bool; maxPacketLifeTime : Z; maxRetransmits : Z }.

Definition given (f : field Z) : Z := match f with Given v => u16 v | _ => 0 end.

(** The integers of the request are converted to 16 bits before they are checked. *)
Definition make (id : field Z) (ord : field bool) (life retransmits : field Z) : throws t :=
  match id with
  | Given id =>
      let id := u16 id in
      if 65534 <? id then None
      else
        let life := given life in
        let retransmits := given retransmits in
        let limited := negb (life =? 0) || negb (retransmits =? 0) in
        if negb (life =? 0) && negb (retransmits =? 0) then None
        else
          match ord with
          | Given b => if b && limited then None
                       else Some {| streamId := id; ordered := b; maxPacketLifeTime := life; maxRetransmits := retransmits |}
          | _ => Some {| streamId := id; ordered := negb limited; maxPacketLifeTime := life; maxRetransmits := retransmits |}
          end
  | _ => None
  end.

End SctpStreamParameters.

(** ** Data producers *)

Inductive DataType := SCTP | DIRECT.

#[global] Instance DataType_eq_dec : EqDecision DataType.
Proof. solve_decision. Defined.

(** What the constructors of data producers and data consumers share: the type, and the
    parameters if the type is SCTP. *)
Record DataRequest := {
  req_type : option DataType;
  req_parameters : throws SctpStreamParameters.t;
  req_label : field str;
  req_protocol : field str;
}.

Definition no_parameters : SctpStreamParameters.t :=
  {| SctpStreamParameters.streamId := 0; SctpStreamParameters.ordered := true; SctpStreamParameters.maxPacketLifeTime := 0;
     SctpStreamParameters.maxRetransmits := 0 |}.

Definition parse_type (d : DataRequest) : throws (DataType * SctpStreamParameters.t) :=
  match req_type d with
  | None => None
  | Some SCTP => p ← req_parameters d; Some (SCTP, p)
  | Some DIRECT => Some (DIRECT, no_parameters)
  end.

Definition text (f : field str) : str := match f with Given s => s | _ => [] end.

Module DataProducer.

Record State := {
  type : DataType;
  sctpStreamParameters : SctpStreamParameters.t;
  label : str;
  protocol : str;
  maxMessageSize : Z;
  messagesReceived : Z;
  bytesReceived : Z;
}.

Inductive event := OnDataProducerMessageReceived (ppid : Z) (msg : list Z) | OnDataProducerReceiveData (len : Z).

Definition make (max : Z) (d : DataRequest) : throws State :=
  '(ty, p) ← parse_type d;
  Some {| type := ty; sctpStreamParameters := p; label := text (req_label d); protocol := text (req_protocol d);
          maxMessageSize := max; messagesReceived := 0; bytesReceived := 0 |}.

Definition ReceiveMessage (s : State) (ppid : Z) (msg : list Z) : State * list event :=
  ({| type := type s; sctpStreamParameters := sctpStreamParameters s; label := label s; protocol := protocol s;
      maxMessageSize := maxMessageSize s; messagesReceived := u64 (messagesReceived s + 1);
      bytesReceived := u64 (bytesReceived s + zlen msg) |},
   [OnDataProducerMessageReceived (u32 ppid) msg]).

(** [DATA_PRODUCER_SEND]: the PPID of the notification, if it is a number. *)
Definition HandleNotification (s : State) (ppid : option Z) (msg : list Z) : throws (State * list event) :=
  match ppid with
  | None => None
  | Some ppid =>
      if maxMessageSize s <? zlen msg then None
      else let '(s, evs) := ReceiveMessage s ppid msg in Some (s, evs ++ [OnDataProducerReceiveData (zlen msg)])
  end.

End DataProducer.

(** ** Data consumers *)

Module DataConsumer.

Record State := {
  type : DataType;
  sctpStreamParameters : SctpStreamParameters.t;
  label : str;
  protocol : str;
  maxMessageSize : Z;
  sctpAssociation : bool;
  transportConnected : bool;
  sctpAssociationConnected : bool;
  dataProducerClosed : bool;
  messagesSent : Z;
  bytesSent : Z;
  bufferedAmount : Z;
  bufferedAmountLowThreshold : Z;
  forceTriggerBufferedAmountLow : bool;
}.

Inductive event :=
| OnDataConsumerSendMessage (ppid : Z) (msg : list Z) (callback : bool)
| OnDataConsumerDataProducerClosed
| EmittedBufferedAmountLow (amount : Z)
| EmittedSctpSendBufferFull
| EmittedDataProducerClose.

Definition make (max : Z) (association : bool) (d : DataRequest) : throws State :=
  '(ty, p) ← parse_type d;
  Some {| type := ty; sctpStreamParameters := p; label := text (req_label d); protocol := text (req_protocol d);
          maxMessageSize := max; sctpAssociation := association; transportConnected := false; sctpAssociationConnected := false;
          dataProducerClosed := false; messagesSent := 0; bytesSent := 0; bufferedAmount := 0; bufferedAmountLowThreshold := 0;
          forceTriggerBufferedAmountLow := false |}.

Definition set_connections (s : State) (transport association closed : bool) : State :=
  {| type := type s; sctpStreamParameters := sctpStreamParameters s; label := label s; protocol := protocol s;
     maxMessageSize := maxMessageSize s; sctpAssociation := sctpAssociation s; transportConnected := transport;
     sctpAssociationConnected := association; dataProducerClosed := closed; messagesSent := messagesSent s;
     bytesSent := bytesSent s; bufferedAmount := bufferedAmount s; bufferedAmountLowThreshold := bufferedAmountLowThreshold s;
     forceTriggerBufferedAmountLow := forceTriggerBufferedAmountLow s |}.
Definition set_sent (s : State) (messages bytes : Z) : State :=
  {| type := type s; sctpStreamParameters := sctpStreamParameters s; label := label s; protocol := protocol s;
     maxMessageSize := maxMessageSize s; sctpAssociation := sctpAssociation s; transportConnected := transportConnected s;
     sctpAssociationConnected := sctpAssociationConnected s; dataProducerClosed := dataProducerClosed s;
     messagesSent := messages; bytesSent := bytes; bufferedAmount := bufferedAmount s;
     bufferedAmountLowThreshold := bufferedAmountLowThreshold s; forceTriggerBufferedAmountLow := forceTriggerBufferedAmountLow s |}.
Definition set_buffered (s : State) (amount threshold : Z) (force : bool) : State :=
  {| type := type s; sctpStreamParameters := sctpStreamParameters s; label := label s; protocol := protocol s;
     maxMessageSize := maxMessageSize s; sctpAssociation := sctpAssociation s; transportConnected := transportConnected s;
     sctpAssociationConnected := sctpAssociationConnected s; dataProducerClosed := dataProducerClosed s;
     messagesSent := messagesSent s; bytesSent := bytesSent s; bufferedAmount := amount;
     bufferedAmountLowThreshold := threshold; forceTriggerBufferedAmountLow := force |}.

Definition IsActive (s : State) : bool :=
  transportConnected s && (bool_decide (type s = DIRECT) || sctpAssociationConnected s) && negb (dataProducerClosed s).

Definition TransportConnected (s : State) : State := set_connections s true (sctpAssociationConnected s) (dataProducerClosed s).
Definition TransportDisconnected (s : State) : State := set_connections s false (sctpAssociationConnected s) (dataProducerClosed s).
Definition SctpAssociationConnected (s : State) : State := set_connections s (transportConnected s) true (dataProducerClosed s).
Definition SctpAssociationClosed (s : State) : State := set_connections s (transportConnected s) false (dataProducerClosed s).

Definition SctpAssociationBufferedAmount (s : State) (amount : Z) : State * list event :=
  let previous := bufferedAmount s in
  let threshold := bufferedAmountLowThreshold s in
  if (forceTriggerBufferedAmountLow s || (threshold <? previous)) && (amount <=? threshold)
  then (set_buffered s amount threshold false, [EmittedBufferedAmountLow amount])
  else (set_buffered s amount threshold (forceTriggerBufferedAmountLow s), []).

Definition SctpAssociationSendBufferFull (s : State) : State * list event := (s, [EmittedSctpSendBufferFull]).

Definition DataProducerClosed (s : State) : State * list event :=
  (set_connections s (transportConnected s) (sctpAssociationConnected s) true,
   [EmittedDataProducerClose; OnDataConsumerDataProducerClosed]).

(** [callback]: the listener answers a request through it. *)
Definition SendMessage (s : State) (ppid : Z) (msg : list Z) (callback : bool) : State * list event :=
  if negb (IsActive s) then (s, [])
  else if maxMessageSize s <? zlen msg then (s, [])
  else (set_sent s (u64 (messagesSent s + 1)) (u64 (bytesSent s + zlen msg)), [OnDataConsumerSendMessage (u32 ppid) msg callback]).

Inductive Request := GET_BUFFERED_AMOUNT | SET_BUFFERED_AMOUNT_LOW_THRESHOLD (threshold : field Z).
Inductive Answer := Accepted (amount : option Z) | Rejected.

(** [amount]: what the SCTP association has buffered.  The message that is built when the
    buffered amount is low already is not sent. *)
Definition HandleRequest (s : State) (r : Request) (amount : Z) : State * Answer :=
  match r with
  | GET_BUFFERED_AMOUNT =>
      match type s with
      | DIRECT => (s, Rejected)
      | SCTP => (s, if sctpAssociation s then Accepted (Some amount) else Rejected)
      end
  | SET_BUFFERED_AMOUNT_LOW_THRESHOLD threshold =>
      match type s, threshold with
      | SCTP, Given threshold =>
          let threshold := u32 threshold in
          (set_buffered s (bufferedAmount s) threshold
             (if bufferedAmount s <=? threshold then forceTriggerBufferedAmountLow s else true), Accepted None)
      | _, _ => (s, Rejected)
      end
  end.

(** [DATA_CONSUMER_SEND]: [None] if the request is rejected here; otherwise the callback of
    the message, if it is called, answers the request. *)
Definition HandleSend (s : State) (ppid : option Z) (msg : list Z) : throws (State * list event) :=
  match type s with
  | DIRECT => None
  | SCTP =>
      if negb (sctpAssociation s) then None
      else
        match ppid with
        | None => None
        | Some ppid => if maxMessageSize s <? zlen msg then None else Some (SendMessage s ppid msg true)
        end
  end.

End DataConsumer.

(** ** When the buffered amount is announced to be low *)

Module DataChannelSpec.

Import DataConsumer.

Fixpoint amounts (s : State) (l : list Z) : State * list event :=
  match l with
  | [] => (s, [])
  | a :: l' =>
      let '(s, evs) := SctpAssociationBufferedAmount s a in
      let '(s, evs') := amounts s l' in (s, evs ++ evs')
  end.

(** The amounts that do not exceed the threshold after one that did, or at first if [armed]. *)
Fixpoint crossings (armed : bool) (threshold : Z) (l : list Z) : list Z :=
  match l with
  | [] => []
  | a :: l' => if a <=? threshold then (if armed then [a] else []) ++ crossings false threshold l'
               else crossings true threshold l'
  end.

Lemma amounts_crossings l : forall s,
  (amounts s l).2 = EmittedBufferedAmountLow <$> crossings (forceTriggerBufferedAmountLow s || (bufferedAmountLowThreshold s <? bufferedAmount s)) (bufferedAmountLowThreshold s) l.
Proof.
  induction l as [|a l IH]; intros s; [done|]. cbn [amounts crossings].
  unfold SctpAssociationBufferedAmount. set (armed := _ || _). destruct (Z.leb_spec a (bufferedAmountLowThreshold s)) as [Ha|Ha].
  - rewrite andb_true_r. destruct armed eqn:E.
    + specialize (IH (set_buffered s a (bufferedAmountLowThreshold s) false)). destruct (amounts _ l) as [s' evs']. cbn in IH |- *. rewrite IH.
      destruct (Z.ltb_spec (bufferedAmountLowThreshold s) a); [lia|done].
    + apply orb_false_elim in E as [E _]. rewrite E.
      specialize (IH (set_buffered s a (bufferedAmountLowThreshold s) false)). destruct (amounts _ l) as [s' evs']. cbn in IH |- *. rewrite IH.
      destruct (Z.ltb_spec (bufferedAmountLowThreshold s) a); [lia|done].
  - rewrite andb_false_r. specialize (IH (set_buffered s a (bufferedAmountLowThreshold s) (forceTriggerBufferedAmountLow s))).
    destruct (amounts _ l) as [s' evs']. cbn in IH |- *. rewrite IH. destruct (Z.ltb_spec (bufferedAmountLowThreshold s) a); [|lia]. by rewrite orb_true_r.
Qed.

(** After a threshold is set below what is buffered, each time the buffered amount falls to the
    threshold is announced, once. *)
Theorem low_announced s threshold amount l :
  type s = SCTP -> u32 threshold < bufferedAmount s ->
  let '(s', answer) := HandleRequest s (SET_BUFFERED_AMOUNT_LOW_THRESHOLD (Given threshold)) amount in
  answer = Accepted None /\ (amounts s' l).2 = EmittedBufferedAmountLow <$> crossings true (u32 threshold) l.
Proof.
  intros Ht Hb. cbn [HandleRequest]. rewrite Ht. split; [done|]. rewrite amounts_crossings. cbn.
  destruct (Z.leb_spec (bufferedAmount s) (u32 threshold)); [lia|done].
Qed.

(** A threshold that is not exceeded when it is set is not announced, though the comment says so:
    the request leaves the trigger off, and amounts within the threshold emit nothing. *)
Theorem low_at_once_not_announced s threshold amount l :
  type s = SCTP -> forceTriggerBufferedAmountLow s = false -> bufferedAmount s <= u32 threshold -> Forall (fun a => a <= u32 threshold) l ->
  (amounts (HandleRequest s (SET_BUFFERED_AMOUNT_LOW_THRESHOLD (Given threshold)) amount).1 l).2 = [].
Proof.
  intros Ht Hf Hb Hl. cbn [HandleRequest]. rewrite Ht. cbn [fst]. rewrite amounts_crossings. cbn.
  destruct (Z.leb_spec (bufferedAmount s) (u32 threshold)); [|lia]. rewrite Hf. cbn. destruct (Z.ltb_spec (u32 threshold) (bufferedAmount s)); [lia|].
  induction Hl as [|a l Ha _ IH]; [done|]. cbn [crossings]. destruct (Z.leb_spec a (u32 threshold)); [exact IH|lia].
Qed.

(** A message for a data consumer that is not active is dropped without its callback being
    called: the request [DATA_CONSUMER_SEND] is never answered. *)
Theorem send_unanswered s ppid msg :
  type s = SCTP -> sctpAssociation s = true -> zlen msg <= maxMessageSize s -> IsActive s = false -> HandleSend s (Some ppid) msg = Some (s, []).
Proof.
  intros Ht Ha Hm Hi. unfold HandleSend. rewrite Ht, Ha. cbn [negb]. destruct (Z.ltb_spec (maxMessageSize s) (zlen msg)); [lia|].
  unfold SendMessage. by rewrite Hi.
Qed.

(** A stream id is cut to 16 bits before its range is checked. *)
Theorem stream_id_wraps :
  SctpStreamParameters.streamId <$> SctpStreamParameters.make (Given 65537) Missing Missing Missing = Some 1 /\
  SctpStreamParameters.make (Given 65535) Missing Missing Missing = None.
Proof. by vm_compute. Qed.

End DataChannelSpec.
