(* ===== verification/ChannelMessageRegistrator.v ===== *)
(** * The registry of message handlers

    Models [worker/src/ChannelMessageRegistrator.cpp]: which object handles the requests and
    notifications that are addressed to an id.  The handlers are pointers, of any type [H]. *)

From stdpp Require Import gmap.
From S2P Require Import Prelude RtpListener.

Module ChannelMessageRegistrator.

Record t (H : Type) := {
  mapChannelRequestHandlers : gmap str H;
  mapPayloadChannelRequestHandlers : gmap str H;
  mapPayloadChannelNotificationHandlers : gmap str H;
}.
Arguments mapChannelRequestHandlers {H}.
Arguments mapPayloadChannelRequestHandlers {H}.
Arguments mapPayloadChannelNotificationHandlers {H}.

Section Handlers.

Context {H : Type}.

Definition empty : t H :=
  {| mapChannelRequestHandlers := ∅; mapPayloadChannelRequestHandlers := ∅; mapPayloadChannelNotificationHandlers := ∅ |}.

(** The insertion of one handler: [None] if there is one already. *)
Definition enlist (m : gmap str H) (id : str) (h : option H) : option (gmap str H) :=
  match h with
  | None => Some m
  | Some a => match m !! id with Some _ => None | None => Some (<[id := a]> m) end
  end.

(** What is erased again before the error is thrown. *)
Definition withdraw (m : gmap str H) (id : str) (h : option H) : gmap str H :=
  match h with None => m | Some _ => delete id m end.

Definition RegisterHandler (r : t H) (id : str) (request payload notification : option H) : thrown (t H) :=
  match enlist (mapChannelRequestHandlers r) id request with
  | None => Throw r
  | Some m1 =>
      match enlist (mapPayloadChannelRequestHandlers r) id payload with
      | None => Throw {| mapChannelRequestHandlers := withdraw m1 id request;
                         mapPayloadChannelRequestHandlers := mapPayloadChannelRequestHandlers r;
                         mapPayloadChannelNotificationHandlers := mapPayloadChannelNotificationHandlers r |}
      | Some m2 =>
          match enlist (mapPayloadChannelNotificationHandlers r) id notification with
          | None => Throw {| mapChannelRequestHandlers := withdraw m1 id request;
                             mapPayloadChannelRequestHandlers := withdraw m2 id payload;
                             mapPayloadChannelNotificationHandlers := mapPayloadChannelNotificationHandlers r |}
          | Some m3 => Return {| mapChannelRequestHandlers := m1; mapPayloadChannelRequestHandlers := m2;
                                 mapPayloadChannelNotificationHandlers := m3 |}
          end
      end
  end.

Definition UnregisterHandler (r : t H) (id : str) : t H :=
  {| mapChannelRequestHandlers := delete id (mapChannelRequestHandlers r);
     mapPayloadChannelRequestHandlers := delete id (mapPayloadChannelRequestHandlers r);
     mapPayloadChannelNotificationHandlers := delete id (mapPayloadChannelNotificationHandlers r) |}.

Definition GetChannelRequestHandler (r : t H) (id : str) : option H := mapChannelRequestHandlers r !! id.
Definition GetPayloadChannelRequestHandler (r : t H) (id : str) : option H := mapPayloadChannelRequestHandlers r !! id.
Definition GetPayloadChannelNotificationHandler (r : t H) (id : str) : option H := mapPayloadChannelNotificationHandlers r !! id.

(** ** Registering is atomic *)

Lemma enlist_withdraw m id h m' : enlist m id h = Some m' -> withdraw m' id h = m.
Proof.
  unfold enlist, withdraw. destruct h as [a|]; [|congruence]. destruct (m !! id) eqn:E; [done|]. intros [= <-]. by rewrite delete_insert_id.
Qed.

Lemma register_throw r id a b c r' : RegisterHandler r id a b c = Throw r' -> r' = r.
Proof.
  unfold RegisterHandler. destruct (enlist _ id a) as [m1|] eqn:E1; [|by intros [= <-]]. apply enlist_withdraw in E1.
  destruct (enlist _ id b) as [m2|] eqn:E2; [|intros [= <-]; rewrite E1; by destruct r]. apply enlist_withdraw in E2.
  destruct (enlist _ id c) as [m3|]; [done|]. intros [= <-]. rewrite E1, E2. by destruct r.
Qed.

(** An id that is not used in any of the maps is registered. *)
Definition free (r : t H) (id : str) : Prop :=
  mapChannelRequestHandlers r !! id = None /\ mapPayloadChannelRequestHandlers r !! id = None /\
  mapPayloadChannelNotificationHandlers r !! id = None.

Definition put (h : option H) (m : gmap str H) (id : str) : gmap str H :=
  match h with None => m | Some a => <[id := a]> m end.

Lemma register_free r id a b c : free r id ->
  RegisterHandler r id a b c =
  Return {| mapChannelRequestHandlers := put a (mapChannelRequestHandlers r) id;
            mapPayloadChannelRequestHandlers := put b (mapPayloadChannelRequestHandlers r) id;
            mapPayloadChannelNotificationHandlers := put c (mapPayloadChannelNotificationHandlers r) id |}.
Proof. intros (H1 & H2 & H3). unfold RegisterHandler, enlist. destruct a, b, c; rewrite ?H1, ?H2, ?H3; done. Qed.

(** The requests of the id are the first to conflict: with every object registering for them, an
    id is taken as soon as it is used at all. *)
Lemma register_return r id a b c r' : RegisterHandler r id (Some a) b c = Return r' ->
  mapChannelRequestHandlers r !! id = None /\ mapChannelRequestHandlers r' = <[id := a]> (mapChannelRequestHandlers r).
Proof.
  unfold RegisterHandler. cbn [enlist]. destruct (mapChannelRequestHandlers r !! id) eqn:E; [done|].
  destruct (enlist _ id b); [|done]. destruct (enlist _ id c); [|done]. by intros [= <-].
Qed.

End Handlers.

End ChannelMessageRegistrator.
