(* ===== verification/MidExtension.v ===== *)
(** * Writing the MID of each consumer

    [RtpPacket::UpdateMid] overwrites the value of the MID extension in place, with another MID
    for each consumer that a packet goes to.  A packet with room for the longest MID keeps that
    room, whatever is written, and its audio level can still be read; the MID that was written is
    read back, and nothing else of the packet changes. *)

From stdpp Require Import gmap.
From S2P Require Import Prelude Utils RtcpPacket RtpPacket.

Module MidExtension.

Import RtpPacket.

(** ** Writes *)

Lemma write_Ok m o bs : 0 <= o -> o + zlen bs <= zlen m ->
  exists m', write m o bs = Ok m' /\ zlen m' = zlen m /\ bytes_at m' o (zlen bs) = Ok bs /\
    forall j, j < o \/ o + zlen bs <= j -> read m' j = read m j.
Proof.
  intros H1 H2. unfold write. destruct (Z.leb_spec 0 o), (Z.leb_spec (o + zlen bs) (zlen m)); cbn [andb]; try lia. eexists. split; [done|].
  assert (zlen (take (Z.to_nat o) m) = o) as Ht by (unfold zlen in *; rewrite length_take; lia). split_and!.
  - unfold zlen in *. rewrite !length_app, length_take, length_drop. lia.
  - by apply bytes_at_app.
  - intros j Hj. destruct Hj as [Hj|Hj].
    + rewrite read_app_l by lia. unfold read. destruct (0 <=? j) eqn:E; [|done]. by rewrite lookup_take_lt by lia.
    + replace j with (zlen (take (Z.to_nat o) m) + (zlen bs + (j - (o + zlen bs)))) at 1 by lia. assert (0 <= zlen bs) by (unfold zlen; lia).
      rewrite !read_app_r by lia. rewrite read_drop by lia. f_equal. lia.
Qed.

(** Bytes that read the same. *)
Lemma bytes_at_same m m' o n : zlen m' = zlen m -> (forall j, o <= j < o + n -> read m' j = read m j) -> bytes_at m' o n = bytes_at m o n.
Proof.
  intros Hl Hr. unfold bytes_at. rewrite Hl. destruct (Z.leb_spec 0 o), (Z.leb_spec 0 n), (Z.leb_spec (o + n) (zlen m)); cbn [andb]; try done.
  f_equal. apply list_eq. intros i. destruct (decide (i < Z.to_nat n)%nat) as [Hi|Hi]; [|by rewrite !lookup_take_ge by lia].
  rewrite !lookup_take_lt, !lookup_drop by done. specialize (Hr (o + Z.of_nat i)). unfold read in Hr.
  destruct (Z.leb_spec 0 (o + Z.of_nat i)); [|lia]. replace (Z.to_nat (o + Z.of_nat i)) with (Z.to_nat o + i)%nat in Hr by lia.
  destruct (m !! (Z.to_nat o + i)%nat), (m' !! (Z.to_nat o + i)%nat); by specialize (Hr ltac:(lia)); simplify_eq.
Qed.

(** ** Room for a MID *)

(** The elements are behind the header of the extension. *)
Definition behind (p : t) (e : Z) : Prop := forall h, headerExtension p = Some h -> 0 <= h /\ h + 4 <= e.

(** The header, and the element of the MID with at least [MidMaxLength] bytes in the memory. *)
Record mid_room (p : t) : Prop := {
  mr_header : safe (GetHeaderExtensionId p);
  mr_slots : length (oneByteExtensions p) = 14%nat;
  mr_mid : 0 <= midExtensionId (ids p);
  mr_mid_one : HasOneByteExtensions p = Ok true -> forall e, oneByteExtensions p !! Z.to_nat (midExtensionId (ids p) - 1) = Some (Some e) ->
    0 <= e /\ behind p e /\ exists b, read (mem p) e = Ok b /\ e + 1 + Z.max MidMaxLength (b mod 16 + 1) <= zlen (mem p);
  mr_mid_two : HasOneByteExtensions p = Ok false -> forall e, mapTwoBytesExtensions p !! midExtensionId (ids p) = Some e ->
    0 <= e /\ behind p e /\ exists n, read (mem p) (e + 1) = Ok n /\ e + 2 + Z.max MidMaxLength n <= zlen (mem p);
  mr_level : 0 <= ssrcAudioLevelExtensionId (ids p);
  mr_level_one : forall e, oneByteExtensions p !! Z.to_nat (ssrcAudioLevelExtensionId (ids p) - 1) = Some (Some e) ->
    0 <= e /\ e + 2 <= zlen (mem p);
  mr_level_two : forall e, mapTwoBytesExtensions p !! ssrcAudioLevelExtensionId (ids p) = Some e -> 0 <= e /\ e + 3 <= zlen (mem p);
}.

(** The memory changed behind the header of the extension. *)
Definition same_header (p : t) (m : list Z) : Prop :=
  forall h, headerExtension p = Some h -> read m h = read (mem p) h /\ read m (h + 1) = read (mem p) (h + 1).

Lemma same_header_id p m : same_header p m -> GetHeaderExtensionId (set_mem p m) = GetHeaderExtensionId p.
Proof.
  intros H. unfold GetHeaderExtensionId. cbn. destruct (headerExtension p) as [h|] eqn:E; [|done]. destruct (H h E) as [E1 E2].
  unfold Byte.Get2Bytes. by rewrite E1, E2.
Qed.

Lemma same_header_one p m : same_header p m -> HasOneByteExtensions (set_mem p m) = HasOneByteExtensions p.
Proof. intros H. unfold HasOneByteExtensions. by rewrite same_header_id. Qed.

Lemma same_header_two p m : same_header p m -> HasTwoBytesExtensions (set_mem p m) = HasTwoBytesExtensions p.
Proof. intros H. unfold HasTwoBytesExtensions. by rewrite same_header_id. Qed.

Lemma mid_room_mem p m : mid_room p -> zlen m = zlen (mem p) -> same_header p m ->
  (HasOneByteExtensions p = Ok true -> forall e, oneByteExtensions p !! Z.to_nat (midExtensionId (ids p) - 1) = Some (Some e) ->
    exists b, read m e = Ok b /\ e + 1 + Z.max MidMaxLength (b mod 16 + 1) <= zlen (mem p)) ->
  (HasOneByteExtensions p = Ok false -> forall e, mapTwoBytesExtensions p !! midExtensionId (ids p) = Some e ->
    exists n, read m (e + 1) = Ok n /\ e + 2 + Z.max MidMaxLength n <= zlen (mem p)) -> mid_room (set_mem p m).
Proof.
  intros [H1 H2 H3 H4 H5 H6 H7 H8] Hm Hh Ho Ht. split; rewrite ?same_header_one, ?same_header_id by done; cbn; rewrite ?Hm; try done.
  - intros E1 e He. destruct (H4 E1 e He) as (? & ? & _). split_and!; [done|done|]. by apply Ho.
  - intros E1 e He. destruct (H5 E1 e He) as (? & ? & _). split_and!; [done|done|]. by apply Ht.
Qed.

(** What a write at [o] leaves of the header. *)
Lemma behind_same p m e : behind p e -> (forall j, j < e -> read m j = read (mem p) j) -> same_header p m.
Proof. intros Hb Hr h Hh. destruct (Hb h Hh). rewrite !Hr by lia. done. Qed.

Lemma mod_low b n : 0 <= n < 16 -> (b / 16 * 16 + n mod 16) mod 16 = n.
Proof. intros. rewrite (Z.add_comm _ (n mod 16)), Z.mod_add, Z.mod_mod, Z.mod_small by lia. done. Qed.

(** ** What is written *)

(** The bytes of the MID element, from its length on: those of the value it has, or of the longest one. *)
Definition mid_bytes (p : t) (j : Z) : Prop :=
  exists v n, GetExtension p (midExtensionId (ids p)) = Ok (Some v, n) /\ v - 1 <= j < v + Z.max MidMaxLength n.

(** [q] is [p] with other bytes in its MID element, which is where it was. *)
Record remid (p q : t) : Prop := {
  rm_mem : exists m, q = set_mem p m /\ zlen m = zlen (mem p) /\ forall j, ~ mid_bytes p j -> read m j = read (mem p) j;
  rm_place : GetExtension q (midExtensionId (ids q)) = GetExtension p (midExtensionId (ids p)) \/
    exists v n n', GetExtension p (midExtensionId (ids p)) = Ok (Some v, n) /\
      GetExtension q (midExtensionId (ids q)) = Ok (Some v, n') /\ n' <= Z.max MidMaxLength n;
}.

(** The MID of [q] is [mid], if the packet has one and [mid] is not empty or too long. *)
Definition carries (p : t) (mid : list Z) (q : t) : Prop :=
  remid p q /\
  forall v n, GetExtension p (midExtensionId (ids p)) = Ok (Some v, n) -> mid <> [] -> zlen mid <= MidMaxLength -> ReadMid q = Ok (Some mid).

Lemma remid_refl p : remid p p.
Proof. split; [|by left]. exists (mem p). split_and!; [by destruct p|done|done]. Qed.

Lemma remid_bytes p q j : remid p q -> mid_bytes q j -> mid_bytes p j.
Proof.
  intros [_ [E|(v & n & n' & E & E' & Hn)]] (v1 & n1 & H1 & Hj); [exists v1, n1; by rewrite <- E|]. rewrite E' in H1. injection H1 as <- <-.
  exists v, n. split; [done|]. lia.
Qed.

Lemma remid_trans p q r : remid p q -> remid q r -> remid p r.
Proof.
  intros Hpq Hqr. pose proof (remid_bytes p q) as Hb. destruct Hpq as [(m & -> & L & R) E1] eqn:Ep; clear Ep. destruct Hqr as [(m' & -> & L' & R') E2]. split.
  - exists m'. cbn [mem set_mem] in *. split_and!; [done|lia|]. intros j Hj. rewrite R', R; [done|done|]. intros H. apply Hj, Hb; [by split; [exists m|]|done].
  - destruct E1 as [E1|(v & n & n' & E1 & E1' & H1)], E2 as [E2|(v2 & n2 & n2' & E2 & E2' & H2)].
    + left. by rewrite E2.
    + right. exists v2, n2, n2'. by rewrite <- E1.
    + right. exists v, n, n'. by rewrite E2.
    + right. rewrite E1' in E2. injection E2 as <- <-. exists v, n, n2'. split_and!; [done|done|lia].
Qed.

Lemma carries_after p q mid r : remid p q -> carries q mid r -> carries p mid r.
Proof.
  intros Hpq [Hqr Hm]. split; [by eapply remid_trans|]. intros v n E. destruct (rm_place _ _ Hpq) as [E'|(v' & n1 & n' & E1 & E2 & _)].
  - rewrite E in E'. by eapply Hm.
  - by eapply Hm.
Qed.

(** The value at [v]: zeros from the new length to the old one, and the new length before it. *)
Lemma shrink m v cur len w : 1 <= v -> 1 <= len -> len <= MidMaxLength -> v + Z.max MidMaxLength cur <= zlen m ->
  exists m1 m2, (if len <? cur then write m (v + len) (replicate (Z.to_nat (cur - len)) 0) else mret m) = Ok m1 /\
    store m1 (v - 1) w = Ok m2 /\ zlen m2 = zlen m /\ read m2 (v - 1) = Ok w /\
    forall j, j < v - 1 \/ v <= j < v + len \/ v + Z.max MidMaxLength cur <= j -> read m2 j = read m j.
Proof.
  intros Hv H1 H2 Hm.
  assert (exists m1, (if len <? cur then write m (v + len) (replicate (Z.to_nat (cur - len)) 0) else mret m) = Ok m1 /\ zlen m1 = zlen m /\
    forall j, j < v + len \/ v + Z.max MidMaxLength cur <= j -> read m1 j = read m j) as (m1 & E1 & L1 & R1).
  { destruct (Z.ltb_spec len cur); [|by exists m].
    assert (zlen (replicate (Z.to_nat (cur - len)) 0) = cur - len) as Hz by (unfold zlen; rewrite length_replicate; lia).
    destruct (write_Ok m (v + len) (replicate (Z.to_nat (cur - len)) 0)) as (m1 & E1 & L1 & _ & R1); [lia|lia|]. exists m1.
    split_and!; [done|done|]. intros j Hj. apply R1. lia. }
  destruct (store_ok m1 (v - 1) w) as [m2 E2]; [unfold MidMaxLength in *; lia|]. exists m1, m2. split_and!; [done|done| | |].
  - rewrite (store_len _ _ _ _ E2). done.
  - rewrite (read_store _ _ _ _ _ E2), Z.eqb_refl. done.
  - intros j Hj. rewrite (read_store _ _ _ _ _ E2). destruct (Z.eqb_spec j (v - 1)); [lia|]. apply R1. lia.
Qed.

(** What the memory is like afterwards. *)
Lemma rewritten p mid v n m : GetExtension p (midExtensionId (ids p)) = Ok (Some v, n) -> zlen m = zlen (mem p) -> 1 <= zlen mid <= MidMaxLength ->
  (forall j, j < v - 1 \/ v + Z.max MidMaxLength n <= j -> read m j = read (mem p) j) -> bytes_at m v (zlen mid) = Ok mid ->
  GetExtension (set_mem p m) (midExtensionId (ids p)) = Ok (Some v, zlen mid) -> carries p mid (set_mem p m).
Proof.
  intros E Hl Hm Hr Hb E'. split; [split|].
  - exists m. split_and!; [done|done|]. intros j Hj. apply Hr. destruct (decide (j < v - 1)); [by left|]. right.
    destruct (decide (v + Z.max MidMaxLength n <= j)); [done|]. destruct Hj. exists v, n. split; [done|lia].
  - right. exists v, n, (zlen mid). split_and!; [done|done|lia].
  - intros v' n' _ _ _. unfold ReadMid, extension_value. cbn [ids set_mem]. rewrite E'. cbn [mbind res_bind mem set_mem].
    destruct (Z.eqb_spec (zlen mid) 0); [lia|]. cbn [negb]. by rewrite Hb.
Qed.

(** A MID of a consumer is written, unless it is too long or the packet has none. *)
Lemma update_one p m e : mid_room p -> 1 <= zlen m <= MidMaxLength -> HasOneByteExtensions p = Ok true -> midExtensionId (ids p) <> 0 ->
  midExtensionId (ids p) <= 14 -> oneByteExtensions p !! Z.to_nat (midExtensionId (ids p) - 1) = Some (Some e) ->
  exists p', (m1 ← write (mem p) (e + 1) m; '(_, p) ← SetExtensionLength (set_mem p m1) (midExtensionId (ids p)) (zlen m); mret p) = Ok p' /\
    mid_room p' /\ carries p m p'.
Proof.
  intros Hr Hm E1 E0 E14 Es. destruct (mr_mid_one p Hr E1 e Es) as (He & Hb & b & Eb & Hroom).
  destruct (write_Ok (mem p) (e + 1) m) as (m1 & -> & L1 & B1 & R1); [lia|lia|]. cbn [mbind res_bind].
  assert (same_header p m1) as Hs by (apply (behind_same p m1 e Hb); intros j Hj; apply R1; lia).
  unfold SetExtensionLength. destruct (Z.eqb_spec (zlen m) 0); [lia|]. destruct (Z.eqb_spec (midExtensionId (ids p)) 0); [done|].
  rewrite same_header_one, E1 by done. cbn [mbind res_bind]. unfold one_byte_slot. cbn [oneByteExtensions set_mem mem]. rewrite Es. cbn [mbind res_bind].
  assert (read m1 e = Ok b) as -> by (rewrite R1 by lia; done). cbn [mbind res_bind].
  destruct (shrink m1 (e + 1) (b mod 16 + 1) (zlen m) (b / 16 * 16 + (zlen m - 1) mod 16)) as (m2 & m3 & -> & E3 & L3 & W3 & R3); [lia..|].
  replace (e + 1 - 1) with e in * by lia. cbn [mbind res_bind]. rewrite E3.
  assert (same_header p m3) as Hs3 by (apply (behind_same p m3 e Hb); intros j Hj; rewrite R3, R1 by lia; done).
  assert (((b / 16 * 16 + (zlen m - 1) mod 16) mod 16) = zlen m - 1) as Hlow by (apply mod_low; unfold MidMaxLength in *; lia).
  eexists. split; [done|]. split.
  - apply (mid_room_mem p m3 Hr); [lia|done| |congruence].
    intros _ e' Ee'. assert (e' = e) as -> by congruence. eexists. split; [exact W3|]. rewrite Hlow. lia.
  - assert (forall q, q = p \/ q = set_mem p m3 -> GetExtension q (midExtensionId (ids p)) = (b ← read (mem q) e; Ok (Some (e + 1), b mod 16 + 1))) as HG.
    { intros q Hq. unfold GetExtension. destruct (Z.eqb_spec (midExtensionId (ids p)) 0); [done|].
      assert (HasOneByteExtensions q = Ok true) as -> by (destruct Hq as [-> | ->]; [done|by rewrite same_header_one]).
      cbn [mbind res_bind]. destruct (Z.ltb_spec 14 (midExtensionId (ids p))); [lia|]. unfold one_byte_slot.
      assert (oneByteExtensions q = oneByteExtensions p) as -> by (by destruct Hq as [-> | ->]). by rewrite Es. }
    apply (rewritten p m (e + 1) (b mod 16 + 1)); [|lia|done| | |].
    + rewrite HG, Eb by by left. done.
    + intros j Hj. rewrite R3, R1 by lia. done.
    + rewrite <- B1. apply bytes_at_same; [lia|]. intros j Hj. apply R3. lia.
    + rewrite HG by by right. cbn [mem set_mem]. rewrite W3. cbn [mbind res_bind]. rewrite Hlow. do 2 f_equal. lia.
Qed.

Lemma update_two p m e n : mid_room p -> 1 <= zlen m <= MidMaxLength -> HasOneByteExtensions p = Ok false -> HasTwoBytesExtensions p = Ok true ->
  midExtensionId (ids p) <> 0 -> mapTwoBytesExtensions p !! midExtensionId (ids p) = Some e -> read (mem p) (e + 1) = Ok n -> n <> 0 ->
  exists p', (m1 ← write (mem p) (e + 2) m; '(_, p) ← SetExtensionLength (set_mem p m1) (midExtensionId (ids p)) (zlen m); mret p) = Ok p' /\
    mid_room p' /\ carries p m p'.
Proof.
  intros Hr Hm E1 E2 E0 Es En Hn. destruct (mr_mid_two p Hr E1 e Es) as (He & Hb & b & Eb & Hroom). assert (b = n) as -> by congruence.
  destruct (write_Ok (mem p) (e + 2) m) as (m1 & -> & L1 & B1 & R1); [lia|lia|]. cbn [mbind res_bind].
  assert (same_header p m1) as Hs by (apply (behind_same p m1 e Hb); intros j Hj; apply R1; lia).
  unfold SetExtensionLength. destruct (Z.eqb_spec (zlen m) 0); [lia|]. destruct (Z.eqb_spec (midExtensionId (ids p)) 0); [done|].
  rewrite same_header_one, same_header_two, E1, E2 by done. cbn [mbind res_bind mapTwoBytesExtensions set_mem mem]. rewrite Es.
  assert (read m1 (e + 1) = Ok n) as -> by (rewrite R1 by lia; done). cbn [mbind res_bind].
  destruct (shrink m1 (e + 2) n (zlen m) (zlen m)) as (m2 & m3 & -> & E3 & L3 & W3 & R3); [lia..|].
  replace (e + 2 - 1) with (e + 1) in * by lia. cbn [mbind res_bind]. rewrite E3.
  assert (same_header p m3) as Hs3 by (apply (behind_same p m3 e Hb); intros j Hj; rewrite R3, R1 by lia; done).
  eexists. split; [done|]. split.
  - apply (mid_room_mem p m3 Hr); [lia|done|congruence|].
    intros _ e' Ee'. assert (e' = e) as -> by congruence. eexists. split; [exact W3|]. lia.
  - assert (forall q, q = p \/ q = set_mem p m3 -> GetExtension q (midExtensionId (ids p)) =
      (len ← read (mem q) (e + 1); if len =? 0 then mret (None, len) else mret (Some (e + 2), len))) as HG.
    { intros q Hq. unfold GetExtension. destruct (Z.eqb_spec (midExtensionId (ids p)) 0); [done|].
      assert (HasOneByteExtensions q = Ok false) as -> by (destruct Hq as [-> | ->]; [done|by rewrite same_header_one]).
      assert (HasTwoBytesExtensions q = Ok true) as -> by (destruct Hq as [-> | ->]; [done|by rewrite same_header_two]).
      cbn [mbind res_bind]. assert (mapTwoBytesExtensions q = mapTwoBytesExtensions p) as -> by (by destruct Hq as [-> | ->]). by rewrite Es. }
    apply (rewritten p m (e + 2) n); [|lia|done| | |].
    + rewrite HG, Eb by by left. cbn [mbind res_bind]. by destruct (Z.eqb_spec n 0).
    + intros j Hj. rewrite R3, R1 by lia. done.
    + rewrite <- B1. apply bytes_at_same; [lia|]. intros j Hj. apply R3. lia.
    + rewrite HG by by right. cbn [mem set_mem]. rewrite W3. cbn [mbind res_bind]. by destruct (Z.eqb_spec (zlen m) 0).
Qed.

(** A slot of the table of one-byte elements. *)
Lemma slot_safe p id : length (oneByteExtensions p) = 14%nat -> 0 < id <= 14 ->
  exists e, one_byte_slot p id = Ok e /\ oneByteExtensions p !! Z.to_nat (id - 1) = Some e.
Proof.
  intros Hl Hi. unfold one_byte_slot. destruct (lookup_lt_is_Some_2 (oneByteExtensions p) (Z.to_nat (id - 1))) as [e He]; [lia|]. rewrite He. by exists e.
Qed.

(** A packet that keeps its MID, because it has none or [m] is too long. *)
Lemma kept_mid p m : mid_room p -> (forall v n, GetExtension p (midExtensionId (ids p)) = Ok (Some v, n) -> MidMaxLength < zlen m) ->
  exists p', mret p = Ok p' /\ mid_room p' /\ carries p m p'.
Proof. intros Hr H. exists p. split_and!; [done|done|]. split; [apply remid_refl|]. intros v n E _ Hl. specialize (H v n E). lia. Qed.

Lemma UpdateMid_carries p m : mid_room p -> m <> [] -> exists p', UpdateMid p m = Ok p' /\ mid_room p' /\ carries p m p'.
Proof.
  intros Hr Hm. assert (1 <= zlen m) as Hm1 by (unfold zlen; destruct m; [done|cbn; lia]). pose proof (kept_mid p m Hr) as Hk. revert Hk.
  destruct (mr_header p Hr) as [hid Eid]. unfold UpdateMid, GetExtension.
  destruct (Z.eqb_spec (midExtensionId (ids p)) 0) as [E0|E0]; [intros Hk; by apply Hk|]. pose proof (mr_mid p Hr) as Hid.
  assert (HasOneByteExtensions p = Ok (hid =? 0xBEDE)) as Eo by (unfold HasOneByteExtensions; by rewrite Eid).
  assert (HasTwoBytesExtensions p = Ok (Z.land hid 0xFFF0 =? 0x1000)) as Et by (unfold HasTwoBytesExtensions; by rewrite Eid).
  rewrite Eo. cbn [mbind res_bind]. destruct (hid =? 0xBEDE) eqn:Eone.
  - destruct (Z.ltb_spec 14 (midExtensionId (ids p))); [intros Hk; by apply Hk|].
    destruct (slot_safe p (midExtensionId (ids p)) (mr_slots p Hr)) as ([e|] & -> & Es); [lia| |intros Hk; by apply Hk]. cbn [mbind res_bind].
    destruct (mr_mid_one p Hr Eo e Es) as (_ & _ & b & -> & _). cbn [mbind res_bind]. intros Hk.
    destruct (Z.ltb_spec MidMaxLength (zlen m)); [by apply Hk|]. by apply update_one.
  - rewrite Et. cbn [mbind res_bind]. destruct (Z.land hid 0xFFF0 =? 0x1000); [|intros Hk; by apply Hk].
    destruct (mapTwoBytesExtensions p !! midExtensionId (ids p)) as [e|] eqn:Es; [|intros Hk; by apply Hk].
    destruct (mr_mid_two p Hr Eo e Es) as (_ & _ & b & Eb & _). rewrite Eb. cbn [mbind res_bind]. destruct (Z.eqb_spec b 0); [intros Hk; by apply Hk|].
    cbn [mbind res_bind]. intros Hk. destruct (Z.ltb_spec MidMaxLength (zlen m)); [by apply Hk|]. by eapply update_two.
Qed.

Lemma ReadSsrcAudioLevel_room p : mid_room p -> safe (ReadSsrcAudioLevel p).
Proof.
  intros Hr. destruct (mr_header p Hr) as [hid Eid]. unfold ReadSsrcAudioLevel, GetExtension.
  destruct (Z.eqb_spec (ssrcAudioLevelExtensionId (ids p)) 0) as [E0|E0]; [by eexists|]. pose proof (mr_level p Hr) as Hid.
  unfold HasOneByteExtensions, HasTwoBytesExtensions. rewrite Eid. cbn [mbind res_bind]. destruct (hid =? 0xBEDE).
  - destruct (Z.ltb_spec 14 (ssrcAudioLevelExtensionId (ids p))); [by eexists|].
    destruct (slot_safe p (ssrcAudioLevelExtensionId (ids p)) (mr_slots p Hr)) as ([e|] & -> & Es); [lia| |by eexists]. cbn [mbind res_bind].
    destruct (mr_level_one p Hr e Es). destruct (read_in_range (mem p) e) as (b & -> & _); [lia|]. cbn -[Z.modulo Z.eqb]. destruct (b mod 16 + 1 =? 1); [|by eexists].
    unfold Byte.Get1Byte. destruct (read_in_range (mem p) (e + 1)) as (v & -> & _); [lia|]. by eexists.
  - destruct (Z.land hid 0xFFF0 =? 0x1000); [|by eexists]. destruct (mapTwoBytesExtensions p !! ssrcAudioLevelExtensionId (ids p)) as [e|] eqn:Es; [|by eexists].
    destruct (mr_level_two p Hr e Es). destruct (read_in_range (mem p) (e + 1)) as (b & -> & _); [lia|]. cbn [mbind res_bind]. destruct (b =? 0); [by eexists|].
    cbn -[Z.eqb]. destruct (b =? 1); [|by eexists]. unfold Byte.Get1Byte. destruct (read_in_range (mem p) (e + 2)) as (v & -> & _); [lia|]. by eexists.
Qed.

End MidExtension.
