(* ===== verification/Ownership.v ===== *)
(** * Objects, their owners and their routes

    What the tables of a router and of its transports promise about the objects they point to,
    over maps only: [owned] relates the objects of a kind to the tables of their owners,
    [keyed] and [listened] the other tables of an owner to the objects it has, [routed] the
    sources (producers) and the members (consumers) of a router, and [registered] the registry
    of message handlers to the objects.  An operation of the router is a few steps on these
    maps; each step has its lemma.

    The sets are the objects in the middle of an operation: owners whose table is not up to
    date, objects that are not in a table yet or no longer. *)

From stdpp Require Import gmap.
From S2P Require Import Prelude RtpListener ChannelMessageRegistrator.

(** ** Tables by id *)

Section Owned.

Context {O : Type} (oid : O -> str) (owner : O -> address).
Implicit Types (heap : gmap address O) (tables : gmap address (gmap str address)) (E Z : gset address).

(** [E]: the owners whose table is not looked at; [Z]: the objects that are in no table. *)
Record owned E Z tables heap : Prop := {
  owned_entry : forall t T k a, tables !! t = Some T -> t ∉ E -> T !! k = Some a ->
    exists o, heap !! a = Some o /\ oid o = k /\ owner o = t;
  owned_listed : forall a o, heap !! a = Some o ->
    exists T, tables !! owner o = Some T /\ (owner o ∉ E -> (T !! oid o = Some a <-> a ∉ Z));
}.

Lemma owned_create E Z tables heap a o T : owned E Z tables heap -> heap !! a = None -> tables !! owner o = Some T ->
  owned E ({[a]} ∪ Z) tables (<[a := o]> heap).
Proof.
  intros [He Hl] Ha HT. split.
  - intros t T' k b H1 H2 H3. destruct (He t T' k b H1 H2 H3) as (o' & ? & ? & ?). exists o'. rewrite lookup_insert_ne by congruence. done.
  - intros b o' H. apply lookup_insert_Some in H as [[<- <-]|[Hne H]].
    + exists T. split; [done|]. intros Ho. split; [|set_solver]. intros H. destruct (He _ _ _ _ HT Ho H) as (? & ? & _). congruence.
    + destruct (Hl b o' H) as (T' & H1 & H2). exists T'. split; [done|]. intros Ho. rewrite (H2 Ho). set_solver.
Qed.

Lemma owned_list E Z tables heap a o T : owned E Z tables heap -> heap !! a = Some o -> tables !! owner o = Some T -> T !! oid o = None ->
  owned E (Z ∖ {[a]}) (<[owner o := <[oid o := a]> T]> tables) heap.
Proof.
  intros [He Hl] Ha HT Hn. split.
  - intros t T' k b H1 H2 H3. apply lookup_insert_Some in H1 as [[<- <-]|[Hne H1]]; [|by eapply He].
    apply lookup_insert_Some in H3 as [[<- <-]|[Hk H3]]; [by exists o|by eapply He].
  - intros b o' H. destruct (decide (owner o = owner o')) as [Ho|Ho].
    + exists (<[oid o := a]> T). rewrite <- Ho, lookup_insert_eq. split; [done|]. intros HE. destruct (Hl b o' H) as (T' & H1 & H2).
      rewrite <- Ho, HT in H1. injection H1 as <-. rewrite <- Ho in H2. specialize (H2 HE).
      destruct (decide (oid o = oid o')) as [Hk|Hk].
      * rewrite <- Hk, lookup_insert_eq. rewrite <- Hk in H2. split; [intros [= ->]; set_solver|]. intros Hz. destruct (decide (a = b)) as [->|Hab]; [done|].
        assert (b ∉ Z) as Hb by set_solver. apply H2 in Hb. congruence.
      * rewrite lookup_insert_ne by done. rewrite H2. destruct (decide (a = b)) as [->|]; [congruence|set_solver].
    + destruct (Hl b o' H) as (T' & H1 & H2). exists T'. rewrite lookup_insert_ne by done. split; [done|]. intros HE. rewrite (H2 HE).
      destruct (decide (a = b)) as [->|]; [congruence|set_solver].
Qed.

Lemma owned_unlist E Z tables heap a o T : owned E Z tables heap -> heap !! a = Some o -> tables !! owner o = Some T -> T !! oid o = Some a ->
  owned E ({[a]} ∪ Z) (<[owner o := delete (oid o) T]> tables) heap.
Proof.
  intros [He Hl] Ha HT Hn. split.
  - intros t T' k b H1 H2 H3. apply lookup_insert_Some in H1 as [[<- <-]|[Hne H1]]; [|by eapply He].
    apply lookup_delete_Some in H3 as [Hk H3]. by eapply He.
  - intros b o' H. destruct (decide (owner o = owner o')) as [Ho|Ho].
    + exists (delete (oid o) T). rewrite <- Ho, lookup_insert_eq. split; [done|]. intros HE. destruct (Hl b o' H) as (T' & H1 & H2).
      rewrite <- Ho, HT in H1. injection H1 as <-. rewrite <- Ho in H2. specialize (H2 HE).
      destruct (decide (oid o = oid o')) as [Hk|Hk].
      * rewrite <- Hk, lookup_delete_eq. rewrite <- Hk, Hn in H2. split; [done|]. intros Hz. assert (a = b) by (assert (Some a = Some b) by (apply H2; set_solver); congruence). set_solver.
      * rewrite lookup_delete_ne by done. rewrite H2. destruct (decide (a = b)) as [->|]; [congruence|set_solver].
    + destruct (Hl b o' H) as (T' & H1 & H2). exists T'. rewrite lookup_insert_ne by done. split; [done|]. intros HE. rewrite (H2 HE).
      destruct (decide (a = b)) as [->|]; [congruence|set_solver].
Qed.

Lemma owned_delete E Z tables heap a o : owned E Z tables heap -> heap !! a = Some o -> a ∈ Z \/ owner o ∈ E ->
  owned E (Z ∖ {[a]}) tables (delete a heap).
Proof.
  intros [He Hl] Ha Hz. split.
  - intros t T k b H1 H2 H3. destruct (He t T k b H1 H2 H3) as (o' & H4 & <- & <-). exists o'. split; [|done]. rewrite lookup_delete_ne; [done|].
    intros <-. assert (o' = o) as -> by congruence. destruct Hz as [Hz|Hz]; [|done]. destruct (Hl a o Ha) as (T' & H5 & H6).
    rewrite H1 in H5. injection H5 as <-. by apply (H6 H2) in H3.
  - intros b o' H. apply lookup_delete_Some in H as [Hne H]. destruct (Hl b o' H) as (T & H1 & H2). exists T. split; [done|]. intros HE. rewrite (H2 HE). set_solver.
Qed.

Lemma owned_update E Z tables heap a o o' : owned E Z tables heap -> heap !! a = Some o -> oid o' = oid o -> owner o' = owner o ->
  owned E Z tables (<[a := o']> heap).
Proof.
  intros [He Hl] Ha H1 H2. split.
  - intros t T k b H3 H4 H5. destruct (He t T k b H3 H4 H5) as (p & H6 & H7 & H8). destruct (decide (a = b)) as [<-|Hne].
    + exists o'. rewrite lookup_insert_eq. assert (p = o) as -> by congruence. by rewrite H1, H2.
    + exists p. by rewrite lookup_insert_ne.
  - intros b p H. apply lookup_insert_Some in H as [[<- <-]|[Hne H]]; [rewrite H1, H2|]; eauto.
Qed.

Lemma owned_new_table E Z tables heap t : owned E Z tables heap -> tables !! t = None -> owned E Z (<[t := ∅]> tables) heap.
Proof.
  intros [He Hl] Ht. split.
  - intros t' T k b H1 H2 H3. apply lookup_insert_Some in H1 as [[<- <-]|[Hne H1]]; [by rewrite lookup_empty in H3|by eapply He].
  - intros b o H. destruct (Hl b o H) as (T & H1 & H2). exists T. rewrite lookup_insert_ne by congruence. done.
Qed.

(** The owner has nothing left. *)
Definition bereft t heap : Prop := forall a o, heap !! a = Some o -> owner o <> t.

Lemma owned_drop_table E Z tables heap t : owned E Z tables heap -> bereft t heap -> owned E Z (delete t tables) heap.
Proof.
  intros [He Hl] Hb. split.
  - intros t' T k b H1 H2 H3. apply lookup_delete_Some in H1 as [Hne H1]. by eapply He.
  - intros b o H. destruct (Hl b o H) as (T & H1 & H2). exists T. rewrite lookup_delete_ne; [done|]. intros ->. by eapply Hb.
Qed.

Lemma owned_exempt E E' Z tables heap : owned E Z tables heap -> E ⊆ E' -> owned E' Z tables heap.
Proof.
  intros [He Hl] Hs. split; [intros; eapply He; eauto|]. intros b o H. destruct (Hl b o H) as (T & H1 & H2). exists T. split; [done|]. intros. apply H2. set_solver.
Qed.

Lemma owned_clear E Z tables heap t : owned E Z tables heap -> bereft t heap -> owned (E ∖ {[t]}) Z (<[t := ∅]> tables) heap.
Proof.
  intros [He Hl] Hb. split.
  - intros t' T k b H1 H2 H3. apply lookup_insert_Some in H1 as [[<- <-]|[Hne H1]]; [by rewrite lookup_empty in H3|]. eapply He; [done| |done]. set_solver.
  - intros b o H. destruct (Hl b o H) as (T & H1 & H2). pose proof (Hb b o H) as Hne. exists T. rewrite lookup_insert_ne by done. split; [done|]. intros. apply H2. set_solver.
Qed.

End Owned.

(** ** Tables by another key *)

Section Keyed.

Context {O : Type} (owner : O -> address) (keys : O -> list Z).
Implicit Types (heap : gmap address O) (tables : gmap address (gmap Z address)) (E : gset address).

Definition keyed E tables heap : Prop := forall t m k a, tables !! t = Some m -> t ∉ E -> m !! k = Some a ->
  exists o, heap !! a = Some o /\ owner o = t /\ k ∈ keys o.

Lemma keyed_create E tables heap a o : keyed E tables heap -> heap !! a = None -> keyed E tables (<[a := o]> heap).
Proof. intros H Ha t m k b H1 H2 H3. destruct (H t m k b H1 H2 H3) as (p & ? & ?). exists p. rewrite lookup_insert_ne by congruence. done. Qed.

Lemma keyed_delete E tables heap a o m : keyed E tables heap -> heap !! a = Some o -> tables !! owner o = Some m ->
  keyed E (<[owner o := foldr delete m (keys o)]> tables) (delete a heap).
Proof.
  intros H Ha Hm t m' k b H1 H2 H3.
  assert (forall l k b, foldr delete m l !! k = Some b -> m !! k = Some b /\ k ∉ l) as Hf.
  { intros l k0 b0. induction l as [|x l IH]; cbn [foldr]; [intros; split; [done|by intros ?%elem_of_nil]|].
    intros [Hne H4]%lookup_delete_Some. destruct (IH H4). split; [done|]. intros [->|?]%elem_of_cons; done. }
  apply lookup_insert_Some in H1 as [[<- <-]|[Hne H1]].
  - apply Hf in H3 as [H3 H4]. destruct (H _ _ _ _ Hm H2 H3) as (p & H5 & H6 & H7). exists p. split; [|done]. rewrite lookup_delete_ne; [done|]. intros ->. congruence.
  - destruct (H _ _ _ _ H1 H2 H3) as (p & H5 & H6 & H7). exists p. split; [|done]. rewrite lookup_delete_ne; [done|]. intros ->. congruence.
Qed.

Lemma keyed_delete_exempt E tables heap a o : keyed E tables heap -> heap !! a = Some o -> owner o ∈ E -> keyed E tables (delete a heap).
Proof.
  intros H Ha Ho t m k b H1 H2 H3. destruct (H t m k b H1 H2 H3) as (p & H5 & H6 & H7). exists p. split; [|done].
  rewrite lookup_delete_ne; [done|]. intros ->. congruence.
Qed.

Lemma keyed_assign E tables heap a o m : keyed E tables heap -> heap !! a = Some o -> tables !! owner o = Some m ->
  keyed E (<[owner o := foldl (fun m k => <[k := a]> m) m (keys o)]> tables) heap.
Proof.
  intros H Ha Hm t m' k b H1 H2 H3.
  assert (forall (l : list Z) (m : gmap Z address) k b, foldl (fun m k => <[k := a]> m) m l !! k = Some b -> m !! k = Some b \/ b = a /\ k ∈ l) as Hf.
  { induction l as [|x l IH]; cbn [foldl]; intros m0 k0 b0; [by left|]. intros H4. destruct (IH _ _ _ H4) as [H5|[-> H5]]; [|right; split; [done|by right]].
    apply lookup_insert_Some in H5 as [[<- <-]|[? ?]]; [right; split; [done|by left]|by left]. }
  apply lookup_insert_Some in H1 as [[<- <-]|[Hne H1]]; [|by eapply H]. apply Hf in H3 as [H3|[-> H3]]; [by eapply H|]. by exists o.
Qed.

Lemma keyed_new_table E tables heap t : keyed E tables heap -> keyed E (<[t := ∅]> tables) heap.
Proof. intros H t' m k b H1 H2 H3. apply lookup_insert_Some in H1 as [[<- <-]|[Hne H1]]; [by rewrite lookup_empty in H3|by eapply H]. Qed.

Lemma keyed_clear E tables heap t : keyed E tables heap -> keyed (E ∖ {[t]}) (<[t := ∅]> tables) heap.
Proof.
  intros H t' m k b H1 H2 H3. apply lookup_insert_Some in H1 as [[<- <-]|[Hne H1]]; [by rewrite lookup_empty in H3|]. eapply H; [done| |done]. set_solver.
Qed.

Lemma keyed_drop_table E tables heap t : keyed E tables heap -> keyed E (delete t tables) heap.
Proof. intros H t' m k b H1 H2 H3. apply lookup_delete_Some in H1 as [Hne H1]. by eapply H. Qed.

Lemma keyed_exempt E E' tables heap : keyed E tables heap -> E ⊆ E' -> keyed E' tables heap.
Proof. intros H Hs t m k b H1 H2 H3. eapply H; eauto. Qed.

End Keyed.

(** ** Tables of a listener *)

Section Listened.

Context {O L : Type} (owner : O -> address) (can : O -> Prop) (targets : L -> address -> Prop).
Implicit Types (heap : gmap address O) (tables : gmap address L) (E : gset address).

(** [can]: what an object has to be in order to be listened to. *)
Definition listened E tables heap : Prop := forall t l a, tables !! t = Some l -> t ∉ E -> targets l a ->
  exists o, heap !! a = Some o /\ owner o = t /\ can o.

Lemma listened_create E tables heap a o : listened E tables heap -> heap !! a = None -> listened E tables (<[a := o]> heap).
Proof. intros H Ha t l b H1 H2 H3. destruct (H t l b H1 H2 H3) as (p & ? & ?). exists p. rewrite lookup_insert_ne by congruence. done. Qed.

Lemma listened_update E tables heap a o o' : listened E tables heap -> heap !! a = Some o -> owner o' = owner o ->
  (can o -> can o') -> listened E tables (<[a := o']> heap).
Proof.
  intros H Ha Ho Hc t l b H1 H2 H3. destruct (H t l b H1 H2 H3) as (p & H4 & H5 & H6). destruct (decide (a = b)) as [<-|Hne].
  - exists o'. rewrite lookup_insert_eq. assert (p = o) as -> by congruence. split; [done|]. split; [congruence|auto].
  - exists p. by rewrite lookup_insert_ne.
Qed.

(** The listener of [t] forgets [a], or never knew it. *)
Lemma listened_delete E tables heap a o l l' : listened E tables heap -> heap !! a = Some o -> tables !! owner o = Some l ->
  (forall b, targets l' b -> targets l b /\ b <> a) -> listened E (<[owner o := l']> tables) (delete a heap).
Proof.
  intros H Ha Hl Ht t k b H1 H2 H3. apply lookup_insert_Some in H1 as [[<- <-]|[Hne H1]].
  - apply Ht in H3 as [H3 Hb]. destruct (H _ _ _ Hl H2 H3) as (p & ? & ? & ?). exists p. by rewrite lookup_delete_ne.
  - destruct (H _ _ _ H1 H2 H3) as (p & ? & ? & ?). exists p. rewrite lookup_delete_ne; [done|]. intros ->. congruence.
Qed.

Lemma listened_delete_exempt E tables heap a o : listened E tables heap -> heap !! a = Some o ->
  owner o ∈ E \/ (can o -> forall l, tables !! owner o = Some l -> ~ targets l a) -> listened E tables (delete a heap).
Proof.
  intros H Ha Ho t l b H1 H2 H3. destruct (H t l b H1 H2 H3) as (p & H4 & H5 & H6). exists p. split; [|done]. rewrite lookup_delete_ne; [done|].
  intros ->. assert (p = o) as -> by congruence. subst t. destruct Ho as [?|Ho]; [done|]. by eapply Ho.
Qed.

(** Its tables have nothing new but objects of [t]. *)
Lemma listened_change E tables heap t l l' : listened E tables heap -> tables !! t = Some l ->
  (forall b, targets l' b -> targets l b \/ exists o, heap !! b = Some o /\ owner o = t /\ can o) -> listened E (<[t := l']> tables) heap.
Proof.
  intros H Hl Ht t' k b H1 H2 H3. apply lookup_insert_Some in H1 as [[<- <-]|[Hne H1]]; [|by eapply H].
  destruct (Ht b H3) as [H4|H4]; [by eapply H|done].
Qed.

Lemma listened_new_table E tables heap t l : listened E tables heap -> (forall b, ~ targets l b) -> listened E (<[t := l]> tables) heap.
Proof. intros H Hl t' k b H1 H2 H3. apply lookup_insert_Some in H1 as [[<- <-]|[Hne H1]]; [by apply Hl in H3|by eapply H]. Qed.

Lemma listened_drop_table E tables heap t : listened E tables heap -> listened (E ∖ {[t]}) (delete t tables) heap.
Proof. intros H t' k b H1 H2 H3. apply lookup_delete_Some in H1 as [Hne H1]. eapply H; [done| |done]. set_solver. Qed.

Lemma listened_exempt E E' tables heap : listened E tables heap -> E ⊆ E' -> listened E' tables heap.
Proof. intros H Hs t l b H1 H2 H3. eapply H; eauto. Qed.

End Listened.

(** ** Sources and members *)

Section Routed.

Context {S M : Type} (sid : S -> str).
Implicit Types (ids : gmap str address) (members : gmap address (gset address)) (source : gmap address address)
  (srcs : gmap address S) (mems : gmap address M) (U P V : gset address).

(** [U], [V]: the sources and the members that the router does not know; [P]: the sources that
    are being closed, whose set still has the members that are gone. *)
Record routed U P V ids members source srcs mems : Prop := {
  routed_id : forall k p, ids !! k = Some p -> exists o, srcs !! p = Some o /\ sid o = k;
  routed_src : forall p o, srcs !! p = Some o -> (ids !! sid o = Some p <-> p ∉ U);
  routed_members : forall p, is_Some (members !! p) <-> is_Some (srcs !! p) /\ p ∉ U;
  routed_member : forall p cs c, members !! p = Some cs -> c ∈ cs -> p ∉ P -> source !! c = Some p;
  routed_source : forall c p, source !! c = Some p -> exists cs, members !! p = Some cs /\ c ∈ cs;
  routed_mem : forall c, is_Some (source !! c) <-> is_Some (mems !! c) /\ c ∉ V;
}.

Lemma routed_new_source U P V ids members source srcs mems p o : routed U P V ids members source srcs mems -> srcs !! p = None ->
  routed ({[p]} ∪ U) P V ids members source (<[p := o]> srcs) mems.
Proof.
  intros [H1 H2 H3 H4 H5 H6] Hp. split; [| | |done..].
  - intros k q Hk. destruct (H1 k q Hk) as (s & Hs & ?). exists s. rewrite lookup_insert_ne by congruence. done.
  - intros q s Hq. apply lookup_insert_Some in Hq as [[<- <-]|[Hne Hq]].
    + split; [|set_solver]. intros Hk. destruct (H1 _ _ Hk) as (? & ? & _). congruence.
    + rewrite (H2 q s Hq). set_solver.
  - intros q. rewrite H3. destruct (decide (p = q)) as [<-|Hne].
    + rewrite Hp. split; [intros [[? ?] _]; done|set_solver].
    + rewrite lookup_insert_ne by done. set_solver.
Qed.

Lemma routed_route_source U P V ids members source srcs mems p o : routed U P V ids members source srcs mems -> srcs !! p = Some o ->
  p ∈ U -> ids !! sid o = None -> routed (U ∖ {[p]}) P V (<[sid o := p]> ids) (<[p := ∅]> members) source srcs mems.
Proof.
  intros [H1 H2 H3 H4 H5 H6] Hp HU Hi. assert (members !! p = None) as Hm.
  { destruct (members !! p) eqn:E; [|done]. destruct (proj1 (H3 p)) as [_ ?]; [by rewrite E|done]. }
  split; [| | | | |done].
  - intros k q Hk. apply lookup_insert_Some in Hk as [[<- <-]|[Hne Hk]]; [by exists o|by apply H1].
  - intros q s Hq. destruct (decide (p = q)) as [<-|Hne].
    + assert (s = o) as -> by congruence. rewrite lookup_insert_eq. set_solver.
    + destruct (decide (sid o = sid s)) as [Hk|Hk].
      * rewrite <- Hk, lookup_insert_eq. split; [congruence|]. intros Hn. assert (q ∉ U) as Hq' by set_solver. apply (H2 q s Hq) in Hq'. congruence.
      * rewrite lookup_insert_ne by done. rewrite (H2 q s Hq). set_solver.
  - intros q. destruct (decide (p = q)) as [<-|Hne].
    + rewrite lookup_insert_eq, Hp. split; [intros _; split; [by eexists|set_solver]|by eexists].
    + rewrite lookup_insert_ne by done. rewrite H3. set_solver.
  - intros q cs c Hq Hc HP. apply lookup_insert_Some in Hq as [[<- <-]|[Hne Hq]]; [set_solver|by eapply H4].
  - intros c q Hc. destruct (H5 c q Hc) as (cs & ? & ?). exists cs. rewrite lookup_insert_ne by congruence. done.
Qed.

Lemma routed_new_member U P V ids members source srcs mems c o : routed U P V ids members source srcs mems -> mems !! c = None ->
  routed U P ({[c]} ∪ V) ids members source srcs (<[c := o]> mems).
Proof.
  intros [H1 H2 H3 H4 H5 H6] Hc. split; [done..|]. intros d. rewrite H6. destruct (decide (c = d)) as [<-|Hne].
  - rewrite Hc. split; [intros [[? ?] _]; done|set_solver].
  - rewrite lookup_insert_ne by done. set_solver.
Qed.

Lemma routed_route_member U P V ids members source srcs mems c p cs : routed U P V ids members source srcs mems -> is_Some (mems !! c) ->
  c ∈ V -> members !! p = Some cs -> routed U P (V ∖ {[c]}) ids (<[p := cs ∪ {[c]}]> members) (<[c := p]> source) srcs mems.
Proof.
  intros [H1 H2 H3 H4 H5 H6] Hc HV Hp. assert (source !! c = None) as Hs.
  { destruct (source !! c) eqn:E; [|done]. destruct (proj1 (H6 c)) as [_ ?]; [by rewrite E|done]. }
  split; [done|done| | | |].
  - intros q. destruct (decide (p = q)) as [<-|Hne]; [|by rewrite lookup_insert_ne]. rewrite lookup_insert_eq, <- H3, Hp. split; intros; by eexists.
  - intros q ds d Hq Hd HP. destruct (decide (c = d)) as [<-|Hcd].
    + rewrite lookup_insert_eq. apply lookup_insert_Some in Hq as [[<- <-]|[Hne Hq]]; [done|]. specialize (H4 q ds c Hq Hd HP). congruence.
    + rewrite lookup_insert_ne by done. apply lookup_insert_Some in Hq as [[<- <-]|[Hne Hq]]; [|by eapply H4]. eapply H4; [exact Hp|set_solver|done].
  - intros d q Hd. apply lookup_insert_Some in Hd as [[<- <-]|[Hne Hd]].
    + exists (cs ∪ {[c]}). rewrite lookup_insert_eq. set_solver.
    + destruct (H5 d q Hd) as (ds & Hq & ?). destruct (decide (p = q)) as [<-|Hpq].
      * exists (cs ∪ {[c]}). rewrite lookup_insert_eq. split; [done|]. assert (ds = cs) as -> by congruence. set_solver.
      * exists ds. by rewrite lookup_insert_ne.
  - intros d. destruct (decide (c = d)) as [<-|Hne].
    + rewrite lookup_insert_eq. split; [intros _; split; [done|set_solver]|by eexists].
    + rewrite lookup_insert_ne by done. rewrite H6. set_solver.
Qed.

(** The member leaves, and the set of its source with it, or the source is being closed. *)
Lemma routed_unroute_member U P V ids members source srcs mems c p cs ds : routed U P V ids members source srcs mems ->
  source !! c = Some p -> members !! p = Some cs -> ds = cs ∖ {[c]} \/ ds = cs /\ p ∈ P ->
  routed U P ({[c]} ∪ V) ids (<[p := ds]> members) (delete c source) srcs mems.
Proof.
  intros [H1 H2 H3 H4 H5 H6] Hc Hp Hd. split; [done|done| | | |].
  - intros q. destruct (decide (p = q)) as [<-|Hne]; [|by rewrite lookup_insert_ne]. rewrite lookup_insert_eq, <- H3, Hp. split; intros; by eexists.
  - intros q es e Hq He HP. apply lookup_insert_Some in Hq as [[<- <-]|[Hne Hq]].
    + destruct Hd as [->|[_ ?]]; [|done]. rewrite lookup_delete_ne by set_solver. eapply H4; [exact Hp|set_solver|done].
    + pose proof (H4 q es e Hq He HP) as H7. rewrite lookup_delete_ne; [done|]. intros ->. congruence.
  - intros d q [Hne Hq]%lookup_delete_Some. destruct (H5 d q Hq) as (es & H7 & H8). destruct (decide (p = q)) as [<-|Hpq].
    + exists ds. rewrite lookup_insert_eq. split; [done|]. assert (es = cs) as -> by congruence. destruct Hd as [->|[-> _]]; set_solver.
    + exists es. by rewrite lookup_insert_ne.
  - intros d. destruct (decide (c = d)) as [<-|Hne].
    + rewrite lookup_delete_eq. split; [intros [? ?]; done|set_solver].
    + rewrite lookup_delete_ne by done. rewrite H6. set_solver.
Qed.

Lemma routed_delete_member U P V ids members source srcs mems c : routed U P V ids members source srcs mems -> c ∈ V ->
  routed U P (V ∖ {[c]}) ids members source srcs (delete c mems).
Proof.
  intros [H1 H2 H3 H4 H5 H6] Hc. split; [done..|]. intros d. rewrite H6. destruct (decide (c = d)) as [<-|Hne].
  - rewrite lookup_delete_eq. split; [intros [_ ?]; done|intros [[? ?] _]; done].
  - rewrite lookup_delete_ne by done. set_solver.
Qed.

Lemma routed_closing U P V ids members source srcs mems p : routed U P V ids members source srcs mems -> routed U ({[p]} ∪ P) V ids members source srcs mems.
Proof. intros [H1 H2 H3 H4 H5 H6]. split; [done..| |done|done]. intros q cs c ? ? ?. eapply H4; eauto. set_solver. Qed.

Lemma routed_unroute_source U P V ids members source srcs mems p o : routed U P V ids members source srcs mems -> srcs !! p = Some o -> p ∉ U ->
  (forall c, source !! c <> Some p) -> routed ({[p]} ∪ U) (P ∖ {[p]}) V (delete (sid o) ids) (delete p members) source srcs mems.
Proof.
  intros [H1 H2 H3 H4 H5 H6] Hp HU Hc. assert (ids !! sid o = Some p) as Hi by (by apply (H2 p o Hp)). split; [| | | | |done].
  - intros k q [Hne Hk]%lookup_delete_Some. by apply H1.
  - intros q s Hq. destruct (decide (p = q)) as [<-|Hne].
    + assert (s = o) as -> by congruence. rewrite lookup_delete_eq. set_solver.
    + destruct (decide (sid o = sid s)) as [Hk|Hk].
      * rewrite <- Hk, lookup_delete_eq. split; [done|]. intros Hn. assert (q ∉ U) as Hq' by set_solver. apply (H2 q s Hq) in Hq'. congruence.
      * rewrite lookup_delete_ne by done. rewrite (H2 q s Hq). set_solver.
  - intros q. destruct (decide (p = q)) as [<-|Hne].
    + rewrite lookup_delete_eq. split; [intros [? ?]; done|set_solver].
    + rewrite lookup_delete_ne by done. rewrite H3. set_solver.
  - intros q cs c [Hne Hq]%lookup_delete_Some Hin HP. eapply H4; [done|done|set_solver].
  - intros c q Hq. destruct (H5 c q Hq) as (cs & ? & ?). exists cs. rewrite lookup_delete_ne; [done|]. intros ->. by apply (Hc c).
Qed.

Lemma routed_delete_source U P V ids members source srcs mems p : routed U P V ids members source srcs mems -> p ∈ U ->
  routed (U ∖ {[p]}) P V ids members source (delete p srcs) mems.
Proof.
  intros [H1 H2 H3 H4 H5 H6] HU. split; [| | |done..].
  - intros k q Hk. destruct (H1 k q Hk) as (s & Hs & <-). exists s. split; [|done]. rewrite lookup_delete_ne; [done|]. intros <-. by apply (H2 p s Hs) in Hk.
  - intros q s [Hne Hq]%lookup_delete_Some. rewrite (H2 q s Hq). set_solver.
  - intros q. rewrite H3. destruct (decide (p = q)) as [<-|Hne].
    + rewrite lookup_delete_eq. split; [intros [_ ?]; done|intros [[? ?] _]; done].
    + rewrite lookup_delete_ne by done. set_solver.
Qed.

Lemma routed_update U P V ids members source srcs mems p o o' : routed U P V ids members source srcs mems -> srcs !! p = Some o -> sid o' = sid o ->
  routed U P V ids members source (<[p := o']> srcs) mems.
Proof.
  intros [H1 H2 H3 H4 H5 H6] Hp Ho. split; [| | |done..].
  - intros k q Hk. destruct (H1 k q Hk) as (s & Hs & <-). destruct (decide (p = q)) as [<-|Hne].
    + exists o'. rewrite lookup_insert_eq. split; [done|]. congruence.
    + exists s. by rewrite lookup_insert_ne.
  - intros q s Hq. apply lookup_insert_Some in Hq as [[<- <-]|[Hne Hq]]; [rewrite Ho|]; by apply H2.
  - intros q. rewrite H3. destruct (decide (p = q)) as [<-|Hne]; [|by rewrite lookup_insert_ne]. rewrite lookup_insert_eq, Hp. split; intros [_ ?]; (split; [by eexists|done]).
Qed.

Lemma routed_update_member U P V ids members source srcs mems c o : routed U P V ids members source srcs mems -> is_Some (mems !! c) ->
  routed U P V ids members source srcs (<[c := o]> mems).
Proof.
  intros [H1 H2 H3 H4 H5 H6] Hc. split; [done..|]. intros d. rewrite H6. destruct (decide (c = d)) as [<-|Hne]; [|by rewrite lookup_insert_ne].
  rewrite lookup_insert_eq. split; intros [_ ?]; (split; [|done]); [by eexists|done].
Qed.

End Routed.

(** ** Handlers of messages *)

Section Registered.

Import ChannelMessageRegistrator.
Context {H : Type} `{EqDecision H}.
Implicit Types (r : t H) (names : H -> option str).

(** Each object is registered under its id, and nothing else is. *)
Record registered r names : Prop := {
  registered_request : forall k h, mapChannelRequestHandlers r !! k = Some h <-> names h = Some k;
  registered_payload : forall k h, mapPayloadChannelRequestHandlers r !! k = Some h -> names h = Some k;
  registered_notification : forall k h, mapPayloadChannelNotificationHandlers r !! k = Some h -> names h = Some k;
}.

Definition named names h (k : option str) : H -> option str := fun h' => if decide (h' = h) then k else names h'.

Lemma named_eq names h k : named names h k h = k.
Proof. unfold named. by rewrite decide_True. Qed.
Lemma named_ne names h k h' : h' <> h -> named names h k h' = names h'.
Proof. intros. unfold named. by rewrite decide_False. Qed.

(** Only the handler itself may be given to [RegisterHandler]. *)
Definition itself (h : H) (o : option H) : Prop := o = None \/ o = Some h.

Lemma registered_register r names k h b c r' : registered r names -> names h = None -> itself h b -> itself h c ->
  RegisterHandler r k (Some h) b c = Return r' -> registered r' (named names h (Some k)).
Proof.
  intros [H1 H2 H3] Hh Hb Hc Hr. destruct (mapChannelRequestHandlers r !! k) as [x|] eqn:E; [unfold RegisterHandler in Hr; cbn [enlist] in Hr; by rewrite E in Hr|].
  assert (forall h', names h' <> Some k) as Hk by (intros h' ?%H1; congruence).
  assert (free r k) as Hf.
  { split; [done|]. split.
    - destruct (mapPayloadChannelRequestHandlers r !! k) eqn:E'; [|done]. apply H2 in E'. by apply Hk in E'.
    - destruct (mapPayloadChannelNotificationHandlers r !! k) eqn:E'; [|done]. apply H3 in E'. by apply Hk in E'. }
  rewrite (register_free r k _ _ _ Hf) in Hr. injection Hr as <-.
  assert (forall (m : gmap str H) o, (forall k' h', m !! k' = Some h' -> names h' = Some k') -> itself h o -> forall k' h', put o m k !! k' = Some h' -> named names h (Some k) h' = Some k') as Hp.
  { intros m o Hm Ho k' h' Hl. destruct (decide (h' = h)) as [->|Hne].
    - rewrite named_eq. destruct Ho as [->| ->]; cbn [put] in Hl; [apply Hm in Hl; congruence|].
      apply lookup_insert_Some in Hl as [[<- _]|[_ Hl]]; [done|]. apply Hm in Hl. congruence.
    - rewrite named_ne by done. destruct Ho as [->| ->]; cbn [put] in Hl; [by apply Hm|]. apply lookup_insert_Some in Hl as [[_ ?]|[_ Hl]]; [congruence|by apply Hm]. }
  split; cbn [mapChannelRequestHandlers mapPayloadChannelRequestHandlers mapPayloadChannelNotificationHandlers].
  - intros k' h'. split; [apply (Hp _ (Some h)); [by intros ? ? ?%H1|by right]|]. cbn [put]. destruct (decide (h' = h)) as [->|Hne].
    + rewrite named_eq. intros [= ->]. by rewrite lookup_insert_eq.
    + rewrite named_ne by done. intros Hn. rewrite lookup_insert_ne; [by apply H1|]. intros <-. by apply Hk in Hn.
  - apply Hp; [done|done].
  - apply Hp; [done|done].
Qed.

Lemma registered_unregister r names k h : registered r names -> names h = Some k ->
  registered (UnregisterHandler r k) (named names h None).
Proof.
  intros [H1 H2 H3] Hh.
  assert (forall h', names h' = Some k -> h' = h) as Hk by (intros h' Hn%H1; apply H1 in Hh; congruence).
  split; cbn [UnregisterHandler mapChannelRequestHandlers mapPayloadChannelRequestHandlers mapPayloadChannelNotificationHandlers].
  - intros k' h'. destruct (decide (h' = h)) as [->|Hne].
    + rewrite named_eq, lookup_delete_Some, H1. split; [|done]. intros [? ?]. congruence.
    + rewrite named_ne by done. rewrite lookup_delete_Some, H1. split; [tauto|]. intros Hn. split; [|done]. intros <-. by apply Hk in Hn.
  - intros k' h' [Hne Hl%H2]%lookup_delete_Some. rewrite named_ne; [done|]. intros ->. congruence.
  - intros k' h' [Hne Hl%H3]%lookup_delete_Some. rewrite named_ne; [done|]. intros ->. congruence.
Qed.

Lemma registered_ext r names names' : registered r names -> (forall h, names' h = names h) -> registered r names'.
Proof. intros [H1 H2 H3] Hn. split; intros k h; rewrite Hn; auto. Qed.

End Registered.
