(* ===== verification/Router.v ===== *)
(** * Routers and the objects they connect

    Models [worker/src/RTC/Router.cpp], the part of [worker/src/RTC/Transport.cpp] that creates
    and closes producers, consumers, data producers and data consumers, and
    [worker/src/RTC/RtpObserver.cpp]: who points to whom.

    The objects of a router live in heaps, by address, and [delete] removes them; a pointer to
    an object that is not there is a fault.  Producers and consumers are what the router and
    the transports read of them, and the calls on them are logged (their own behaviour is that
    of [Producer] and [Consumer]); data producers, data consumers and observers are here with
    their whole state.  A method of an object calls its listener in the middle: [ProducerClosed]
    of a consumer comes back to the transport and to the router, which is written out.

    Hash maps and sets are walked in an order that is not specified: [Env] has it, with the
    clock, for the duration of one request. *)

From Stdlib Require Import SpecFloat.
From stdpp Require Import gmap.
From S2P Require Import Prelude StateMonad Utils RtcpReports RtcpFeedback RtcpTransport RtcpXr RtpPacket RtpParameters RtpListener Consumer Producer CongestionControl.
From S2P Require Import AudioLevelObserver ActiveSpeakerObserver DataChannel ChannelMessageRegistrator.

(** Whether a pointer is not null. *)
Definition has {A} (o : option A) : bool := match o with Some _ => true | None => false end.

(** [map.at(key)], which throws [std::out_of_range]. *)
Definition map_at {W A} (m : gmap address A) (k : address) : St W A :=
  match m !! k with Some v => mret v | None => from_res (Fault OutOfBounds) end.

Module Router.

(** ** The objects *)

(** A stream of a producer: its address, its SSRC, that of its RTX stream, and the mapped one. *)
Record Stream := { st_address : Z; st_ssrc : Z; st_rtxSsrc : option Z; st_mappedSsrc : Z }.

Record ProducerObject := {
  p_id : str;
  p_transport : address;
  p_kind : Consumer.Kind;
  p_parameters : RtpListener.RtpParameters;
  p_paused : bool;
  p_streams : list Stream;
  p_scores : list Z;
}.

Record ConsumerObject := {
  c_id : str;
  c_transport : address;
  c_mid : str;
  c_mediaSsrcs : list Z;
  c_rtxSsrcs : list Z;
}.

Record DataProducerObject := { dp_id : str; dp_transport : address; dp_state : DataProducer.State }.
Record DataConsumerObject := { dc_id : str; dc_transport : address; dc_state : DataConsumer.State }.

Inductive Observer :=
| AudioLevel (s : AudioLevelObserver.State)
| ActiveSpeaker (s : ActiveSpeakerObserver.State).

Record ObserverObject := { o_id : str; o_state : Observer }.

(** What a transport has besides its tables: what [IsConnected] answers, the controllers of the
    bitrate, the RTCP timer, the ids of the header extensions of the packets it receives, the
    limits of the bitrate and the events to trace. *)
Record TransportState := {
  connected : bool;
  direct : bool;
  sctpAssociation : bool;
  maxMessageSize : Z;
  tccClient : option BweType;
  tccServer : option BweType;
  rtcpTimer : bool;
  recvRtpHeaderExtensionIds : Producer.ExtensionIds;
  initialAvailableOutgoingBitrate : Z;
  maxIncomingBitrate : Z;
  maxOutgoingBitrate : Z;
  minOutgoingBitrate : Z;
  traceProbation : bool;
  traceBwe : bool;
}.

(** A transport: its tables and the rest. *)
Record TransportObject := {
  t_id : str;
  t_mapProducers : gmap str address;
  t_mapConsumers : gmap str address;
  t_mapDataProducers : gmap str address;
  t_mapDataConsumers : gmap str address;
  mapSsrcConsumer : gmap Z address;
  mapRtxSsrcConsumer : gmap Z address;
  rtpListener : RtpListener.t;
  sctpListener : SctpListener.t;
  t_state : TransportState;
}.

Record State := {
  mapTransports : gmap str address;
  mapRtpObservers : gmap str address;
  mapProducerConsumers : gmap address (gset address);
  mapConsumerProducer : gmap address address;
  mapProducerRtpObservers : gmap address (gset address);
  mapProducers : gmap str address;
  mapDataProducerDataConsumers : gmap address (gset address);
  mapDataConsumerDataProducer : gmap address address;
  mapDataProducers : gmap str address;
}.

(** The calls on the controllers of the bitrate of a transport. *)
Inductive client_call :=
| TccClientCreated (bweType : BweType) (initial maximum minimum : Z)
| TccClientTransportConnected
| TccClientTransportDisconnected
| TccClientSetMaxOutgoingBitrate (bitrate : Z)
| TccClientSetMinOutgoingBitrate (bitrate : Z)
| TccClientReceiveEstimatedBitrate (bitrate : Z)
| TccClientReceiveRtcpReceiverReport (packet : ReceiverReportPacket.t) (rtt : spec_float)
| TccClientReceiveRtcpTransportFeedback (feedback : FeedbackRtpTransport.t).

Inductive server_call :=
| TccServerCreated (bweType : BweType)
| TccServerTransportConnected
| TccServerTransportDisconnected
| TccServerSetMaxIncomingBitrate (bitrate : Z)
| TccServerIncomingPacket (nowMs : Z) (packet : RtpPacket.t).

(** The states of an SCTP association that a transport reports. *)
Inductive SctpState := SctpConnecting | SctpConnected | SctpFailed | SctpClosed.

(** The calls on objects whose behaviour is modelled elsewhere. *)
Inductive call :=
| CConsumerProducerPaused (consumer : address)
| CConsumerProducerResumed (consumer : address)
| CConsumerProducerRtpStream (consumer : address) (rtpStream mappedSsrc : Z)
| CConsumerProducerNewRtpStream (consumer : address) (rtpStream mappedSsrc : Z)
| CConsumerProducerRtpStreamScores (consumer : address) (scores : list Z)
| CConsumerProducerRtpStreamScore (consumer : address) (rtpStream score previousScore : Z)
| CConsumerProducerRtcpSenderReport (consumer : address) (rtpStream : Z) (first : bool)
| CConsumerSendRtpPacket (consumer : address) (packet : RtpPacket.t)
| CConsumerNeedWorstRemoteFractionLost (consumer : address) (mappedSsrc : Z)
| CConsumerProducerClosed (consumer : address)
| CConsumerTransportConnected (consumer : address)
| CConsumerTransportDisconnected (consumer : address)
| CConsumerSetExternallyManagedBitrate (consumer : address)
| CConsumerReceiveRtcpReceiverReport (consumer : address) (report : list Z)
| CConsumerReceiveKeyFrameRequest (consumer : address) (fir : bool) (ssrc : Z)
| CConsumerReceiveNack (consumer : address) (nack : FeedbackPacket.t (raw_item 4))
| CConsumerReceiveRtcpXrReceiverReferenceTime (consumer : address) (report : ReceiverReferenceTime.t)
| CProducerRequestKeyFrame (producer : address) (mappedSsrc : Z)
| CProducerReceiveRtpPacket (producer : address) (packet : RtpPacket.t)
| CProducerReceiveRtcpSenderReport (producer : address) (report : list Z)
| CProducerReceiveRtcpXrDelaySinceLastRr (producer : address) (info : list Z)
| CRecvStreamClosed (transport : address) (ssrc : Z)
| CSendStreamClosed (transport : address) (ssrc : Z)
| CComputeOutgoingDesiredBitrate (transport : address) (force : bool)
| CTccClient (transport : address) (c : client_call)
| CTccServer (transport : address) (c : server_call)
| CEmitted (transport : address) (sctpState : SctpState)
| CSctpTransportConnected (transport : address)
| CSctpHandleDataConsumer (transport dataConsumer : address)
| CSctpDataProducerClosed (transport dataProducer : address)
| CSctpDataConsumerClosed (transport dataConsumer : address)
| CDataConsumerEvent (dataConsumer : address) (e : DataConsumer.event)
| CAudioLevelEvent (observer : address) (e : AudioLevelObserver.event)
| CActiveSpeakerEvent (observer : address) (e : ActiveSpeakerObserver.event).

(** The objects that handle messages. *)
Inductive Handler :=
| HRouter
| HTransport (t : address)
| HProducer (p : address)
| HConsumer (c : address)
| HDataProducer (p : address)
| HDataConsumer (c : address)
| HObserver (o : address).

Record World := mkWorld {
  routerId : str;
  router : State;
  registrator : ChannelMessageRegistrator.t Handler;
  transports : gmap address TransportObject;
  producers : gmap address ProducerObject;
  consumers : gmap address ConsumerObject;
  dataProducers : gmap address DataProducerObject;
  dataConsumers : gmap address DataConsumerObject;
  observers : gmap address ObserverObject;
  timers : gset address;
  fresh : address;
  calls : list call;
}.

(** What a request finds: the clock, the order of hash maps, what [IsActive] and [GetRtt] of the
    consumers answer. *)
Record Env := {
  nowMs : Z;
  walk : gset address -> list address;
  walk_ids : gset str -> list str;
  consumer_active : address -> bool;
  consumer_rtt : address -> spec_float;
}.

Abbreviation R := (St World).

(** *** Updates *)

Definition set_router (f : State -> State) : R unit := change (fun w =>
  mkWorld (routerId w) (f (router w)) (registrator w) (transports w) (producers w) (consumers w) (dataProducers w) (dataConsumers w)
    (observers w) (timers w) (fresh w) (calls w)).
Definition set_registrator (f : ChannelMessageRegistrator.t Handler -> ChannelMessageRegistrator.t Handler) : R unit := change (fun w =>
  mkWorld (routerId w) (router w) (f (registrator w)) (transports w) (producers w) (consumers w) (dataProducers w) (dataConsumers w)
    (observers w) (timers w) (fresh w) (calls w)).
Definition set_transports (f : gmap address TransportObject -> gmap address TransportObject) : R unit := change (fun w =>
  mkWorld (routerId w) (router w) (registrator w) (f (transports w)) (producers w) (consumers w) (dataProducers w) (dataConsumers w)
    (observers w) (timers w) (fresh w) (calls w)).
Definition set_producers (f : gmap address ProducerObject -> gmap address ProducerObject) : R unit := change (fun w =>
  mkWorld (routerId w) (router w) (registrator w) (transports w) (f (producers w)) (consumers w) (dataProducers w) (dataConsumers w)
    (observers w) (timers w) (fresh w) (calls w)).
Definition set_consumers (f : gmap address ConsumerObject -> gmap address ConsumerObject) : R unit := change (fun w =>
  mkWorld (routerId w) (router w) (registrator w) (transports w) (producers w) (f (consumers w)) (dataProducers w) (dataConsumers w)
    (observers w) (timers w) (fresh w) (calls w)).
Definition set_dataProducers (f : gmap address DataProducerObject -> gmap address DataProducerObject) : R unit := change (fun w =>
  mkWorld (routerId w) (router w) (registrator w) (transports w) (producers w) (consumers w) (f (dataProducers w)) (dataConsumers w)
    (observers w) (timers w) (fresh w) (calls w)).
Definition set_dataConsumers (f : gmap address DataConsumerObject -> gmap address DataConsumerObject) : R unit := change (fun w =>
  mkWorld (routerId w) (router w) (registrator w) (transports w) (producers w) (consumers w) (dataProducers w) (f (dataConsumers w))
    (observers w) (timers w) (fresh w) (calls w)).
Definition set_observers (f : gmap address ObserverObject -> gmap address ObserverObject) : R unit := change (fun w =>
  mkWorld (routerId w) (router w) (registrator w) (transports w) (producers w) (consumers w) (dataProducers w) (dataConsumers w)
    (f (observers w)) (timers w) (fresh w) (calls w)).
Definition set_timers (f : gset address -> gset address) : R unit := change (fun w =>
  mkWorld (routerId w) (router w) (registrator w) (transports w) (producers w) (consumers w) (dataProducers w) (dataConsumers w)
    (observers w) (f (timers w)) (fresh w) (calls w)).
Definition log (c : call) : R unit := change (fun w =>
  mkWorld (routerId w) (router w) (registrator w) (transports w) (producers w) (consumers w) (dataProducers w) (dataConsumers w)
    (observers w) (timers w) (fresh w) (calls w ++ [c])).

(** [new]: an address that was never used. *)
Definition alloc : R address := fun w =>
  Ok (fresh w, mkWorld (routerId w) (router w) (registrator w) (transports w) (producers w) (consumers w) (dataProducers w) (dataConsumers w)
                 (observers w) (timers w) (Pos.succ (fresh w)) (calls w)).

(** Dereferences. *)
Definition get_transport (t : address) : R TransportObject := fun w => o ← deref (transports w !! t); Ok (o, w).
Definition get_producer (p : address) : R ProducerObject := fun w => o ← deref (producers w !! p); Ok (o, w).
Definition get_consumer (c : address) : R ConsumerObject := fun w => o ← deref (consumers w !! c); Ok (o, w).
Definition get_dataProducer (p : address) : R DataProducerObject := fun w => o ← deref (dataProducers w !! p); Ok (o, w).
Definition get_dataConsumer (c : address) : R DataConsumerObject := fun w => o ← deref (dataConsumers w !! c); Ok (o, w).
Definition get_observer (o : address) : R ObserverObject := fun w => o ← deref (observers w !! o); Ok (o, w).

(** A change of the tables of the transport [t]. *)
Definition on_transport (t : address) (f : TransportObject -> TransportObject) : R unit :=
  o ← get_transport t; set_transports (<[t := f o]>).

(** [RegisterHandler] in a constructor: [false] if it throws. *)
Definition register (id : str) (request payload notification : option Handler) : R bool :=
  r ← asks registrator;
  match ChannelMessageRegistrator.RegisterHandler r id request payload notification with
  | Return r => _ ← set_registrator (fun _ => r); mret true
  | Throw r => _ ← set_registrator (fun _ => r); mret false
  end.

Definition unregister (id : str) : R unit := set_registrator (fun r => ChannelMessageRegistrator.UnregisterHandler r id).

(** Destructors. *)
Definition delete_producer (p : address) : R unit := o ← get_producer p; _ ← unregister (p_id o); set_producers (delete p).
Definition delete_consumer (c : address) : R unit := o ← get_consumer c; _ ← unregister (c_id o); set_consumers (delete c).
Definition delete_dataProducer (p : address) : R unit := o ← get_dataProducer p; _ ← unregister (dp_id o); set_dataProducers (delete p).
Definition delete_dataConsumer (c : address) : R unit := o ← get_dataConsumer c; _ ← unregister (dc_id o); set_dataConsumers (delete c).
Definition delete_observer (o : address) : R unit :=
  b ← get_observer o; _ ← unregister (o_id b); _ ← set_timers (fun s => s ∖ {[o]}); set_observers (delete o).

(** *** Tables of a transport *)

Definition with_producers (f : gmap str address -> gmap str address) (o : TransportObject) : TransportObject :=
  {| t_id := t_id o; t_mapProducers := f (t_mapProducers o); t_mapConsumers := t_mapConsumers o;
     t_mapDataProducers := t_mapDataProducers o; t_mapDataConsumers := t_mapDataConsumers o;
     mapSsrcConsumer := mapSsrcConsumer o; mapRtxSsrcConsumer := mapRtxSsrcConsumer o; rtpListener := rtpListener o;
     sctpListener := sctpListener o; t_state := t_state o |}.
Definition with_consumers (f : gmap str address -> gmap str address) (g h : gmap Z address -> gmap Z address) (o : TransportObject) : TransportObject :=
  {| t_id := t_id o; t_mapProducers := t_mapProducers o; t_mapConsumers := f (t_mapConsumers o);
     t_mapDataProducers := t_mapDataProducers o; t_mapDataConsumers := t_mapDataConsumers o;
     mapSsrcConsumer := g (mapSsrcConsumer o); mapRtxSsrcConsumer := h (mapRtxSsrcConsumer o); rtpListener := rtpListener o;
     sctpListener := sctpListener o; t_state := t_state o |}.
Definition with_dataProducers (f : gmap str address -> gmap str address) (o : TransportObject) : TransportObject :=
  {| t_id := t_id o; t_mapProducers := t_mapProducers o; t_mapConsumers := t_mapConsumers o;
     t_mapDataProducers := f (t_mapDataProducers o); t_mapDataConsumers := t_mapDataConsumers o;
     mapSsrcConsumer := mapSsrcConsumer o; mapRtxSsrcConsumer := mapRtxSsrcConsumer o; rtpListener := rtpListener o;
     sctpListener := sctpListener o; t_state := t_state o |}.
Definition with_dataConsumers (f : gmap str address -> gmap str address) (o : TransportObject) : TransportObject :=
  {| t_id := t_id o; t_mapProducers := t_mapProducers o; t_mapConsumers := t_mapConsumers o;
     t_mapDataProducers := t_mapDataProducers o; t_mapDataConsumers := f (t_mapDataConsumers o);
     mapSsrcConsumer := mapSsrcConsumer o; mapRtxSsrcConsumer := mapRtxSsrcConsumer o; rtpListener := rtpListener o;
     sctpListener := sctpListener o; t_state := t_state o |}.
Definition with_listeners (l : RtpListener.t) (k : SctpListener.t) (o : TransportObject) : TransportObject :=
  {| t_id := t_id o; t_mapProducers := t_mapProducers o; t_mapConsumers := t_mapConsumers o;
     t_mapDataProducers := t_mapDataProducers o; t_mapDataConsumers := t_mapDataConsumers o;
     mapSsrcConsumer := mapSsrcConsumer o; mapRtxSsrcConsumer := mapRtxSsrcConsumer o; rtpListener := l;
     sctpListener := k; t_state := t_state o |}.

Definition with_state (f : TransportState -> TransportState) (o : TransportObject) : TransportObject :=
  {| t_id := t_id o; t_mapProducers := t_mapProducers o; t_mapConsumers := t_mapConsumers o;
     t_mapDataProducers := t_mapDataProducers o; t_mapDataConsumers := t_mapDataConsumers o;
     mapSsrcConsumer := mapSsrcConsumer o; mapRtxSsrcConsumer := mapRtxSsrcConsumer o; rtpListener := rtpListener o;
     sctpListener := sctpListener o; t_state := f (t_state o) |}.

(** *** The rest of a transport *)

Definition set_connected (running v : bool) (s : TransportState) : TransportState :=
  {| connected := v; direct := direct s; sctpAssociation := sctpAssociation s; maxMessageSize := maxMessageSize s;
     tccClient := tccClient s; tccServer := tccServer s; rtcpTimer := running; recvRtpHeaderExtensionIds := recvRtpHeaderExtensionIds s;
     initialAvailableOutgoingBitrate := initialAvailableOutgoingBitrate s; maxIncomingBitrate := maxIncomingBitrate s;
     maxOutgoingBitrate := maxOutgoingBitrate s; minOutgoingBitrate := minOutgoingBitrate s; traceProbation := traceProbation s;
     traceBwe := traceBwe s |}.
Definition set_controllers (client server : option BweType) (s : TransportState) : TransportState :=
  {| connected := connected s; direct := direct s; sctpAssociation := sctpAssociation s; maxMessageSize := maxMessageSize s;
     tccClient := client; tccServer := server; rtcpTimer := rtcpTimer s; recvRtpHeaderExtensionIds := recvRtpHeaderExtensionIds s;
     initialAvailableOutgoingBitrate := initialAvailableOutgoingBitrate s; maxIncomingBitrate := maxIncomingBitrate s;
     maxOutgoingBitrate := maxOutgoingBitrate s; minOutgoingBitrate := minOutgoingBitrate s; traceProbation := traceProbation s;
     traceBwe := traceBwe s |}.
Definition set_ids (f : Producer.ExtensionIds -> Producer.ExtensionIds) (s : TransportState) : TransportState :=
  {| connected := connected s; direct := direct s; sctpAssociation := sctpAssociation s; maxMessageSize := maxMessageSize s;
     tccClient := tccClient s; tccServer := tccServer s; rtcpTimer := rtcpTimer s;
     recvRtpHeaderExtensionIds := f (recvRtpHeaderExtensionIds s);
     initialAvailableOutgoingBitrate := initialAvailableOutgoingBitrate s; maxIncomingBitrate := maxIncomingBitrate s;
     maxOutgoingBitrate := maxOutgoingBitrate s; minOutgoingBitrate := minOutgoingBitrate s; traceProbation := traceProbation s;
     traceBwe := traceBwe s |}.
Definition set_bitrates (incoming maximum minimum : Z) (s : TransportState) : TransportState :=
  {| connected := connected s; direct := direct s; sctpAssociation := sctpAssociation s; maxMessageSize := maxMessageSize s;
     tccClient := tccClient s; tccServer := tccServer s; rtcpTimer := rtcpTimer s; recvRtpHeaderExtensionIds := recvRtpHeaderExtensionIds s;
     initialAvailableOutgoingBitrate := initialAvailableOutgoingBitrate s; maxIncomingBitrate := incoming;
     maxOutgoingBitrate := maximum; minOutgoingBitrate := minimum; traceProbation := traceProbation s; traceBwe := traceBwe s |}.
Definition set_traces (probation bwe : bool) (s : TransportState) : TransportState :=
  {| connected := connected s; direct := direct s; sctpAssociation := sctpAssociation s; maxMessageSize := maxMessageSize s;
     tccClient := tccClient s; tccServer := tccServer s; rtcpTimer := rtcpTimer s; recvRtpHeaderExtensionIds := recvRtpHeaderExtensionIds s;
     initialAvailableOutgoingBitrate := initialAvailableOutgoingBitrate s; maxIncomingBitrate := maxIncomingBitrate s;
     maxOutgoingBitrate := maxOutgoingBitrate s; minOutgoingBitrate := minOutgoingBitrate s; traceProbation := probation;
     traceBwe := bwe |}.

(** *** Tables of the router *)

Definition r_transports (f : gmap str address -> gmap str address) (s : State) : State :=
  {| mapTransports := f (mapTransports s); mapRtpObservers := mapRtpObservers s; mapProducerConsumers := mapProducerConsumers s;
     mapConsumerProducer := mapConsumerProducer s; mapProducerRtpObservers := mapProducerRtpObservers s;
     mapProducers := mapProducers s; mapDataProducerDataConsumers := mapDataProducerDataConsumers s;
     mapDataConsumerDataProducer := mapDataConsumerDataProducer s; mapDataProducers := mapDataProducers s |}.
Definition r_observers (f : gmap str address -> gmap str address) (g : gmap address (gset address) -> gmap address (gset address)) (s : State) : State :=
  {| mapTransports := mapTransports s; mapRtpObservers := f (mapRtpObservers s); mapProducerConsumers := mapProducerConsumers s;
     mapConsumerProducer := mapConsumerProducer s; mapProducerRtpObservers := g (mapProducerRtpObservers s);
     mapProducers := mapProducers s; mapDataProducerDataConsumers := mapDataProducerDataConsumers s;
     mapDataConsumerDataProducer := mapDataConsumerDataProducer s; mapDataProducers := mapDataProducers s |}.
Definition r_producers (f : gmap str address -> gmap str address) (g h : gmap address (gset address) -> gmap address (gset address)) (s : State) : State :=
  {| mapTransports := mapTransports s; mapRtpObservers := mapRtpObservers s; mapProducerConsumers := g (mapProducerConsumers s);
     mapConsumerProducer := mapConsumerProducer s; mapProducerRtpObservers := h (mapProducerRtpObservers s);
     mapProducers := f (mapProducers s); mapDataProducerDataConsumers := mapDataProducerDataConsumers s;
     mapDataConsumerDataProducer := mapDataConsumerDataProducer s; mapDataProducers := mapDataProducers s |}.
Definition r_consumers (f : gmap address (gset address) -> gmap address (gset address)) (g : gmap address address -> gmap address address) (s : State) : State :=
  {| mapTransports := mapTransports s; mapRtpObservers := mapRtpObservers s; mapProducerConsumers := f (mapProducerConsumers s);
     mapConsumerProducer := g (mapConsumerProducer s); mapProducerRtpObservers := mapProducerRtpObservers s;
     mapProducers := mapProducers s; mapDataProducerDataConsumers := mapDataProducerDataConsumers s;
     mapDataConsumerDataProducer := mapDataConsumerDataProducer s; mapDataProducers := mapDataProducers s |}.
Definition r_dataProducers (f : gmap str address -> gmap str address) (g : gmap address (gset address) -> gmap address (gset address)) (s : State) : State :=
  {| mapTransports := mapTransports s; mapRtpObservers := mapRtpObservers s; mapProducerConsumers := mapProducerConsumers s;
     mapConsumerProducer := mapConsumerProducer s; mapProducerRtpObservers := mapProducerRtpObservers s;
     mapProducers := mapProducers s; mapDataProducerDataConsumers := g (mapDataProducerDataConsumers s);
     mapDataConsumerDataProducer := mapDataConsumerDataProducer s; mapDataProducers := f (mapDataProducers s) |}.
Definition r_dataConsumers (f : gmap address (gset address) -> gmap address (gset address)) (g : gmap address address -> gmap address address) (s : State) : State :=
  {| mapTransports := mapTransports s; mapRtpObservers := mapRtpObservers s; mapProducerConsumers := mapProducerConsumers s;
     mapConsumerProducer := mapConsumerProducer s; mapProducerRtpObservers := mapProducerRtpObservers s;
     mapProducers := mapProducers s; mapDataProducerDataConsumers := f (mapDataProducerDataConsumers s);
     mapDataConsumerDataProducer := g (mapDataConsumerDataProducer s); mapDataProducers := mapDataProducers s |}.

Section Calls.

(** [std::log], of the C library. *)
Context (ln : spec_float -> spec_float) (env : Env).

(** The values of a map, in the order in which it is walked. *)
Definition values (m : gmap str address) : list address := omap (fun id => m !! id) (walk_ids env (dom m)).

(** [map[key]]: an entry is made if there is none. *)
Definition touch (p : address) (m : gmap address (gset address)) : gmap address (gset address) := <[p := default ∅ (m !! p)]> m.

(** ** Observers *)

Definition producer_ids (w : World) : gmap address str := p_id <$> producers w.

Definition store_observer (o : address) (b : ObserverObject) (s : Observer) : R unit :=
  set_observers (<[o := {| o_id := o_id b; o_state := s |}]>).

Definition ObserverRemoveProducer (o p : address) : R unit :=
  b ← get_observer o;
  match o_state b with
  | AudioLevel s => store_observer o b (AudioLevel (AudioLevelObserver.RemoveProducer s p))
  | ActiveSpeaker s =>
      po ← get_producer p;
      ids ← asks producer_ids;
      let left := dom (delete (p_id po) (ActiveSpeakerObserver.mapProducerSpeakers s)) in
      '(s, evs) ← from_res (ActiveSpeakerObserver.RemoveProducer ln s (p_id po) (walk_ids env left) ids (nowMs env));
      _ ← store_observer o b (ActiveSpeaker s);
      for_each (fun e => log (CActiveSpeakerEvent o e)) evs
  end.

(** [false] if it throws. *)
Definition ObserverAddProducer (o p : address) : R bool :=
  b ← get_observer o;
  po ← get_producer p;
  match o_state b with
  | AudioLevel s =>
      match AudioLevelObserver.AddProducer s p (p_kind po) with
      | None => mret false
      | Some s => _ ← store_observer o b (AudioLevel s); mret true
      end
  | ActiveSpeaker s =>
      match ActiveSpeakerObserver.AddProducer s p (p_id po) (p_kind po) (p_paused po) (nowMs env) with
      | None => mret false
      | Some s => _ ← store_observer o b (ActiveSpeaker s); mret true
      end
  end.

Definition ObserverProducerPaused (p o : address) : R unit :=
  b ← get_observer o;
  match o_state b with
  | AudioLevel s => store_observer o b (AudioLevel (AudioLevelObserver.ProducerPaused s p))
  | ActiveSpeaker s => po ← get_producer p; s ← from_res (ActiveSpeakerObserver.ProducerPaused s (p_id po)); store_observer o b (ActiveSpeaker s)
  end.

Definition ObserverProducerResumed (p o : address) : R unit :=
  b ← get_observer o;
  match o_state b with
  | AudioLevel s => store_observer o b (AudioLevel (AudioLevelObserver.ProducerResumed s p))
  | ActiveSpeaker s => po ← get_producer p; s ← from_res (ActiveSpeakerObserver.ProducerResumed s (p_id po)); store_observer o b (ActiveSpeaker s)
  end.

Definition ObserverReceiveRtpPacket (p : address) (packet : RtpPacket.t) (o : address) : R unit :=
  b ← get_observer o;
  match o_state b with
  | AudioLevel s => s ← from_res (AudioLevelObserver.ReceiveRtpPacket s p packet); store_observer o b (AudioLevel s)
  | ActiveSpeaker s =>
      po ← get_producer p;
      s ← from_res (ActiveSpeakerObserver.ReceiveRtpPacket s (p_id po) packet (nowMs env)); store_observer o b (ActiveSpeaker s)
  end.

Definition ObserverOnTimer (o : address) : R unit :=
  b ← get_observer o;
  ids ← asks producer_ids;
  match o_state b with
  | AudioLevel s =>
      '(s, evs) ← from_res (AudioLevelObserver.OnTimer s (walk env (dom (AudioLevelObserver.mapProducerDBovs s))) ids);
      _ ← store_observer o b (AudioLevel s);
      for_each (fun e => log (CAudioLevelEvent o e)) evs
  | ActiveSpeaker s =>
      '(s, evs) ← from_res (ActiveSpeakerObserver.OnTimer ln s (walk_ids env (dom (ActiveSpeakerObserver.mapProducerSpeakers s))) ids (nowMs env));
      _ ← store_observer o b (ActiveSpeaker s);
      for_each (fun e => log (CActiveSpeakerEvent o e)) evs
  end.

(** ** Calls of the transports to the router *)

Definition OnTransportNewProducer (p : address) : R bool :=
  s ← asks router;
  _ ← from_res (ms_assert (bool_decide (mapProducerConsumers s !! p = None)));
  o ← get_producer p;
  match mapProducers s !! p_id o with
  | Some _ => mret false
  | None => _ ← set_router (r_producers (<[p_id o := p]>) (touch p) (touch p)); mret true
  end.

Definition OnTransportConsumerProducerClosed (c : address) : R unit :=
  s ← asks router;
  _ ← from_res (ms_assert (bool_decide (is_Some (mapConsumerProducer s !! c))));
  set_router (r_consumers id (delete c)).

(** [mapSsrcConsumer.erase(ssrc)] for each SSRC. *)
Definition erase_all (l : list Z) (m : gmap Z address) : gmap Z address := foldr delete m l.

(** [Transport::OnConsumerProducerClosed]. *)
Definition OnConsumerProducerClosed (t c : address) : R unit :=
  o ← get_consumer c;
  _ ← on_transport t (with_consumers (delete (c_id o)) (erase_all (c_mediaSsrcs o)) (erase_all (c_rtxSsrcs o)));
  _ ← for_each (fun ssrc => log (CSendStreamClosed t ssrc)) (c_mediaSsrcs o ++ c_rtxSsrcs o);
  _ ← OnTransportConsumerProducerClosed c;
  _ ← delete_consumer c;
  T ← get_transport t;
  only (has (tccClient (t_state T))) (log (CComputeOutgoingDesiredBitrate t true)).

(** [Consumer::ProducerClosed], which calls its transport. *)
Definition ConsumerProducerClosed (c : address) : R unit :=
  o ← get_consumer c;
  _ ← log (CConsumerProducerClosed c);
  OnConsumerProducerClosed (c_transport o) c.

Definition OnTransportProducerClosed (p : address) : R unit :=
  s ← asks router;
  o ← get_producer p;
  match mapProducerConsumers s !! p, mapProducers s !! p_id o, mapProducerRtpObservers s !! p with
  | Some cs, Some _, Some os =>
      _ ← for_each ConsumerProducerClosed (walk env cs);
      _ ← for_each (fun o => ObserverRemoveProducer o p) (walk env os);
      set_router (r_producers (delete (p_id o)) (delete p) (delete p))
  | _, _, _ => from_res (Fault AssertFailed)
  end.

(** A walk over the consumers of a producer. *)
Definition each_consumer (p : address) (f : address -> R unit) : R unit :=
  s ← asks router; cs ← map_at (mapProducerConsumers s) p; for_each f (walk env cs).

(** A walk over its observers, if it has an entry. *)
Definition each_observer (p : address) (f : address -> R unit) : R unit :=
  s ← asks router;
  match mapProducerRtpObservers s !! p with None => mret tt | Some os => for_each f (walk env os) end.

Definition call_consumer (f : address -> call) (c : address) : R unit := _ ← get_consumer c; log (f c).

Definition OnTransportProducerPaused (p : address) : R unit :=
  _ ← each_consumer p (call_consumer CConsumerProducerPaused); each_observer p (ObserverProducerPaused p).
Definition OnTransportProducerResumed (p : address) : R unit :=
  _ ← each_consumer p (call_consumer CConsumerProducerResumed); each_observer p (ObserverProducerResumed p).
Definition OnTransportProducerNewRtpStream (p : address) (rtpStream mappedSsrc : Z) : R unit :=
  each_consumer p (call_consumer (fun c => CConsumerProducerNewRtpStream c rtpStream mappedSsrc)).
Definition OnTransportProducerRtpStreamScore (p : address) (rtpStream score previousScore : Z) : R unit :=
  each_consumer p (call_consumer (fun c => CConsumerProducerRtpStreamScore c rtpStream score previousScore)).
Definition OnTransportProducerRtcpSenderReport (p : address) (rtpStream : Z) (first : bool) : R unit :=
  each_consumer p (call_consumer (fun c => CConsumerProducerRtcpSenderReport c rtpStream first)).
Definition OnTransportNeedWorstRemoteFractionLost (p : address) (mappedSsrc : Z) : R unit :=
  each_consumer p (call_consumer (fun c => CConsumerNeedWorstRemoteFractionLost c mappedSsrc)).

(** The packet, with the MID of each consumer in turn; a consumer gives it back as it was. *)
Fixpoint forward (l : list address) (packet : RtpPacket.t) : R RtpPacket.t :=
  match l with
  | [] => mret packet
  | c :: l' =>
      o ← get_consumer c;
      packet ← (if bool_decide (c_mid o = []) then mret packet else from_res (RtpPacket.UpdateMid packet (c_mid o)));
      _ ← log (CConsumerSendRtpPacket c packet);
      forward l' packet
  end.

Definition OnTransportProducerRtpPacketReceived (p : address) (packet : RtpPacket.t) : R unit :=
  s ← asks router;
  cs ← map_at (mapProducerConsumers s) p;
  packet ← forward (walk env cs) packet;
  each_observer p (ObserverReceiveRtpPacket p packet).

Definition OnTransportNewConsumer (c : address) (producerId : str) : R bool :=
  s ← asks router;
  match mapProducers s !! producerId with
  | None => mret false
  | Some p =>
      cs ← from_res (match mapProducerConsumers s !! p with Some cs => Ok cs | None => Fault AssertFailed end);
      _ ← from_res (ms_assert (bool_decide (mapConsumerProducer s !! c = None)));
      o ← get_producer p;
      _ ← get_consumer c;
      _ ← only (p_paused o) (log (CConsumerProducerPaused c));
      _ ← set_router (r_consumers (<[p := cs ∪ {[c]}]>) (<[c := p]>));
      _ ← for_each (fun st => log (CConsumerProducerRtpStream c (st_address st) (st_mappedSsrc st))) (p_streams o);
      _ ← log (CConsumerProducerRtpStreamScores c (p_scores o));
      mret true
  end.

Definition OnTransportConsumerClosed (c : address) : R unit :=
  s ← asks router;
  p ← from_res (match mapConsumerProducer s !! c with Some p => Ok p | None => Fault AssertFailed end);
  cs ← from_res (match mapProducerConsumers s !! p with Some cs => Ok cs | None => Fault AssertFailed end);
  set_router (r_consumers (<[p := cs ∖ {[c]}]>) (delete c)).

Definition OnTransportConsumerKeyFrameRequested (c : address) (mappedSsrc : Z) : R unit :=
  s ← asks router;
  p ← map_at (mapConsumerProducer s) c;
  _ ← get_producer p;
  log (CProducerRequestKeyFrame p mappedSsrc).

(** *** Data *)

Definition OnTransportNewDataProducer (p : address) : R bool :=
  s ← asks router;
  _ ← from_res (ms_assert (bool_decide (mapDataProducerDataConsumers s !! p = None)));
  o ← get_dataProducer p;
  match mapDataProducers s !! dp_id o with
  | Some _ => mret false
  | None => _ ← set_router (r_dataProducers (<[dp_id o := p]>) (touch p)); mret true
  end.

Definition OnTransportDataConsumerDataProducerClosed (c : address) : R unit :=
  s ← asks router;
  _ ← from_res (ms_assert (bool_decide (is_Some (mapDataConsumerDataProducer s !! c))));
  set_router (r_dataConsumers id (delete c)).

(** A method of a data consumer, whose events are logged. *)
Definition on_dataConsumer (c : address) (f : DataConsumer.State -> DataConsumer.State * list DataConsumer.event) : R unit :=
  o ← get_dataConsumer c;
  let '(s, evs) := f (dc_state o) in
  _ ← set_dataConsumers (<[c := {| dc_id := dc_id o; dc_transport := dc_transport o; dc_state := s |}]>);
  for_each (fun e => log (CDataConsumerEvent c e)) evs.

(** [Transport::OnDataConsumerDataProducerClosed]. *)
Definition OnDataConsumerDataProducerClosed (t c : address) : R unit :=
  o ← get_dataConsumer c;
  _ ← on_transport t (with_dataConsumers (delete (dc_id o)));
  _ ← OnTransportDataConsumerDataProducerClosed c;
  _ ← only (bool_decide (DataConsumer.type (dc_state o) = SCTP)) (log (CSctpDataConsumerClosed t c));
  delete_dataConsumer c.

Definition DataConsumerDataProducerClosed (c : address) : R unit :=
  o ← get_dataConsumer c;
  _ ← on_dataConsumer c DataConsumer.DataProducerClosed;
  OnDataConsumerDataProducerClosed (dc_transport o) c.

Definition OnTransportDataProducerClosed (p : address) : R unit :=
  s ← asks router;
  o ← get_dataProducer p;
  match mapDataProducerDataConsumers s !! p, mapDataProducers s !! dp_id o with
  | Some cs, Some _ =>
      _ ← for_each DataConsumerDataProducerClosed (walk env cs);
      set_router (r_dataProducers (delete (dp_id o)) (delete p))
  | _, _ => from_res (Fault AssertFailed)
  end.

Definition OnTransportDataProducerMessageReceived (p : address) (ppid : Z) (msg : list Z) : R unit :=
  s ← asks router;
  cs ← map_at (mapDataProducerDataConsumers s) p;
  for_each (fun c => on_dataConsumer c (fun d => DataConsumer.SendMessage d ppid msg false)) (walk env cs).

Definition OnTransportNewDataConsumer (c : address) (dataProducerId : str) : R bool :=
  s ← asks router;
  match mapDataProducers s !! dataProducerId with
  | None => mret false
  | Some p =>
      cs ← from_res (match mapDataProducerDataConsumers s !! p with Some cs => Ok cs | None => Fault AssertFailed end);
      _ ← from_res (ms_assert (bool_decide (mapDataConsumerDataProducer s !! c = None)));
      _ ← set_router (r_dataConsumers (<[p := cs ∪ {[c]}]>) (<[c := p]>));
      mret true
  end.

Definition OnTransportDataConsumerClosed (c : address) : R unit :=
  s ← asks router;
  p ← from_res (match mapDataConsumerDataProducer s !! c with Some p => Ok p | None => Fault AssertFailed end);
  cs ← from_res (match mapDataProducerDataConsumers s !! p with Some cs => Ok cs | None => Fault AssertFailed end);
  set_router (r_dataConsumers (<[p := cs ∖ {[c]}]>) (delete c)).

(** ** Requests to a transport *)

Inductive Answer := Accepted | Rejected.

(** What the constructor of a producer makes of the request, unless it throws. *)
Record ProducerData := {
  pd_kind : Consumer.Kind;
  pd_parameters : RtpListener.RtpParameters;
  pd_paused : bool;
  pd_ids : Producer.ExtensionIds;
  pd_transportCc : bool;
  pd_remb : bool;
}.

(** The kind of estimation, if the header extension is used and a codec has the feedback. *)
Definition bwe_type (ids : Producer.ExtensionIds) (transportCc remb : bool) : option BweType :=
  if negb (Producer.id_transportWideCc01 ids =? 0) && transportCc then Some TRANSPORT_CC
  else if negb (Producer.id_absSendTime ids =? 0) && remb then Some REMB
  else None.

(** The ids of a producer replace those of the transport if they are set. *)
Definition take_ids (ids old : Producer.ExtensionIds) : Producer.ExtensionIds :=
  let set new old := if new =? 0 then old else new in
  {| Producer.id_mid := set (Producer.id_mid ids) (Producer.id_mid old); Producer.id_rid := set (Producer.id_rid ids) (Producer.id_rid old);
     Producer.id_rrid := set (Producer.id_rrid ids) (Producer.id_rrid old);
     Producer.id_absSendTime := set (Producer.id_absSendTime ids) (Producer.id_absSendTime old);
     Producer.id_transportWideCc01 := set (Producer.id_transportWideCc01 ids) (Producer.id_transportWideCc01 old);
     Producer.id_frameMarking07 := Producer.id_frameMarking07 old; Producer.id_frameMarking := Producer.id_frameMarking old;
     Producer.id_ssrcAudioLevel := Producer.id_ssrcAudioLevel old; Producer.id_videoOrientation := Producer.id_videoOrientation old;
     Producer.id_toffset := Producer.id_toffset old; Producer.id_absCaptureTime := Producer.id_absCaptureTime old |}.

(** The controller of the incoming bitrate, unless there is one. *)
Definition may_create_server (t : address) (d : ProducerData) (s : TransportState) : R unit :=
  match tccServer s, bwe_type (pd_ids d) (pd_transportCc d) (pd_remb d) with
  | None, Some ty =>
      _ ← on_transport t (with_state (set_controllers (tccClient s) (Some ty)));
      _ ← log (CTccServer t (TccServerCreated ty));
      _ ← only (negb (maxIncomingBitrate s =? 0)) (log (CTccServer t (TccServerSetMaxIncomingBitrate (maxIncomingBitrate s))));
      only (connected s) (log (CTccServer t TccServerTransportConnected))
  | _, _ => mret tt
  end.

Definition TRANSPORT_PRODUCE (t : address) (id : str) (data : throws ProducerData) : R Answer :=
  T ← get_transport t;
  match t_mapProducers T !! id, data with
  | None, Some d =>
      p ← alloc;
      ok ← register id (Some (HProducer p)) None (Some (HProducer p));
      if negb ok then mret Rejected
      else
        _ ← set_producers (<[p := {| p_id := id; p_transport := t; p_kind := pd_kind d; p_parameters := pd_parameters d;
                                     p_paused := pd_paused d; p_streams := [];
                                     p_scores := replicate (length (RtpListener.encodings (pd_parameters d))) 0 |}]>);
        match RtpListener.AddProducer (rtpListener T) p (pd_parameters d) with
        | Throw l => _ ← on_transport t (with_listeners l (sctpListener T)); _ ← delete_producer p; mret Rejected
        | Return l =>
            _ ← on_transport t (with_listeners l (sctpListener T));
            ok ← OnTransportNewProducer p;
            if negb ok then
              _ ← on_transport t (with_listeners (RtpListener.RemoveProducer l p) (sctpListener T));
              _ ← delete_producer p;
              mret Rejected
            else
              _ ← on_transport t (with_producers (<[id := p]>));
              _ ← on_transport t (with_state (set_ids (take_ids (pd_ids d))));
              _ ← may_create_server t d (t_state T);
              mret Accepted
        end
  | _, _ => mret Rejected
  end.

(** The constructor of a consumer: its SSRCs, its MID, its kind, the extensions and the RTCP
    feedback that decide about a controller of the bitrate. *)
Record ConsumerData := {
  cd_mid : str;
  cd_mediaSsrcs : list Z;
  cd_rtxSsrcs : list Z;
  cd_kind : Consumer.Kind;
  cd_ids : Producer.ExtensionIds;
  cd_transportCc : bool;
  cd_remb : bool;
}.

(** The controller of the outgoing bitrate, unless there is one: the consumers of the transport
    are told. *)
Definition may_create_client (t : address) (d : ConsumerData) (s : TransportState) : R unit :=
  match tccClient s, bwe_type (cd_ids d) (cd_transportCc d) (cd_remb d) with
  | None, Some ty =>
      if bool_decide (cd_kind d = Consumer.VIDEO) then
        T ← get_transport t;
        _ ← for_each (call_consumer CConsumerSetExternallyManagedBitrate) (values (t_mapConsumers T));
        _ ← on_transport t (with_state (set_controllers (Some ty) (tccServer s)));
        _ ← log (CTccClient t (TccClientCreated ty (initialAvailableOutgoingBitrate s) (maxOutgoingBitrate s) (minOutgoingBitrate s)));
        only (connected s) (log (CTccClient t TccClientTransportConnected))
      else mret tt
  | _, _ => mret tt
  end.

(** [map[ssrc] = consumer] for each SSRC. *)
Definition assign_all (l : list Z) (c : address) (m : gmap Z address) : gmap Z address := foldl (fun m ssrc => <[ssrc := c]> m) m l.

Definition TRANSPORT_CONSUME (t : address) (producerId id : str) (data : throws ConsumerData) : R Answer :=
  T ← get_transport t;
  match t_mapConsumers T !! id, data with
  | None, Some d =>
      c ← alloc;
      ok ← register id (Some (HConsumer c)) None None;
      if negb ok then mret Rejected
      else
        _ ← set_consumers (<[c := {| c_id := id; c_transport := t; c_mid := cd_mid d; c_mediaSsrcs := cd_mediaSsrcs d;
                                     c_rtxSsrcs := cd_rtxSsrcs d |}]>);
        ok ← OnTransportNewConsumer c producerId;
        if negb ok then _ ← delete_consumer c; mret Rejected
        else
          _ ← on_transport t (with_consumers (<[id := c]>) (assign_all (cd_mediaSsrcs d) c) (assign_all (cd_rtxSsrcs d) c));
          _ ← may_create_client t d (t_state T);
          T ← get_transport t;
          _ ← only (has (tccClient (t_state T))) (log (CConsumerSetExternallyManagedBitrate c));
          _ ← only (connected (t_state T)) (log (CConsumerTransportConnected c));
          mret Accepted
  | _, _ => mret Rejected
  end.

Definition TRANSPORT_PRODUCE_DATA (t : address) (id : str) (data : DataRequest) : R Answer :=
  T ← get_transport t;
  if negb (sctpAssociation (t_state T)) && negb (direct (t_state T)) then mret Rejected
  else
    match t_mapDataProducers T !! id, DataProducer.make (maxMessageSize (t_state T)) data with
    | None, Some d =>
        p ← alloc;
        ok ← register id (Some (HDataProducer p)) None (Some (HDataProducer p));
        if negb ok then mret Rejected
        else
          _ ← set_dataProducers (<[p := {| dp_id := id; dp_transport := t; dp_state := d |}]>);
          let allowed := match DataProducer.type d with SCTP => sctpAssociation (t_state T) | DIRECT => direct (t_state T) end in
          if negb allowed then _ ← delete_dataProducer p; mret Rejected
          else
            let added := match DataProducer.type d with
                         | SCTP => SctpListener.AddDataProducer (sctpListener T) p (SctpStreamParameters.streamId (DataProducer.sctpStreamParameters d))
                         | DIRECT => Return (sctpListener T)
                         end in
            match added with
            | Throw l => _ ← on_transport t (with_listeners (rtpListener T) l); _ ← delete_dataProducer p; mret Rejected
            | Return l =>
                _ ← on_transport t (with_listeners (rtpListener T) l);
                ok ← OnTransportNewDataProducer p;
                if negb ok then
                  _ ← only (bool_decide (DataProducer.type d = SCTP))
                        (on_transport t (with_listeners (rtpListener T) (SctpListener.RemoveDataProducer l p)));
                  _ ← delete_dataProducer p;
                  mret Rejected
                else _ ← on_transport t (with_dataProducers (<[id := p]>)); mret Accepted
            end
    | _, _ => mret Rejected
    end.

(** [sctpConnected]: whether the SCTP association is connected. *)
Definition TRANSPORT_CONSUME_DATA (t : address) (dataProducerId id : str) (data : DataRequest) (sctpConnected : bool) : R Answer :=
  T ← get_transport t;
  if negb (sctpAssociation (t_state T)) && negb (direct (t_state T)) then mret Rejected
  else
    match t_mapDataConsumers T !! id, DataConsumer.make (maxMessageSize (t_state T)) (sctpAssociation (t_state T)) data with
    | None, Some d =>
        c ← alloc;
        ok ← register id (Some (HDataConsumer c)) (Some (HDataConsumer c)) None;
        if negb ok then mret Rejected
        else
          _ ← set_dataConsumers (<[c := {| dc_id := id; dc_transport := t; dc_state := d |}]>);
          let allowed := match DataConsumer.type d with SCTP => sctpAssociation (t_state T) | DIRECT => direct (t_state T) end in
          if negb allowed then _ ← delete_dataConsumer c; mret Rejected
          else
            ok ← OnTransportNewDataConsumer c dataProducerId;
            if negb ok then _ ← delete_dataConsumer c; mret Rejected
            else
              _ ← on_transport t (with_dataConsumers (<[id := c]>));
              _ ← only (connected (t_state T)) (on_dataConsumer c (fun s => (DataConsumer.TransportConnected s, [])));
              _ ← only (bool_decide (DataConsumer.type d = SCTP))
                    (_ ← only sctpConnected (on_dataConsumer c (fun s => (DataConsumer.SctpAssociationConnected s, [])));
                     log (CSctpHandleDataConsumer t c));
              mret Accepted
    | _, _ => mret Rejected
    end.

(** The SSRCs of the streams of a producer. *)
Definition stream_ssrcs (l : list Stream) : list Z := l ≫= (fun st => st_ssrc st :: match st_rtxSsrc st with Some r => [r] | None => [] end).

Definition TRANSPORT_CLOSE_PRODUCER (t : address) (id : str) : R Answer :=
  T ← get_transport t;
  match t_mapProducers T !! id with
  | None => mret Rejected
  | Some p =>
      _ ← on_transport t (with_listeners (RtpListener.RemoveProducer (rtpListener T) p) (sctpListener T));
      o ← get_producer p;
      _ ← on_transport t (with_producers (delete (p_id o)));
      _ ← for_each (fun ssrc => log (CRecvStreamClosed t ssrc)) (stream_ssrcs (p_streams o));
      _ ← OnTransportProducerClosed p;
      _ ← delete_producer p;
      mret Accepted
  end.

Definition TRANSPORT_CLOSE_CONSUMER (t : address) (id : str) : R Answer :=
  T ← get_transport t;
  match t_mapConsumers T !! id with
  | None => mret Rejected
  | Some c =>
      o ← get_consumer c;
      _ ← on_transport t (with_consumers (delete (c_id o)) (erase_all (c_mediaSsrcs o)) (erase_all (c_rtxSsrcs o)));
      _ ← for_each (fun ssrc => log (CSendStreamClosed t ssrc)) (c_mediaSsrcs o ++ c_rtxSsrcs o);
      _ ← OnTransportConsumerClosed c;
      _ ← delete_consumer c;
      _ ← only (has (tccClient (t_state T))) (log (CComputeOutgoingDesiredBitrate t true));
      mret Accepted
  end.

Definition TRANSPORT_CLOSE_DATA_PRODUCER (t : address) (id : str) : R Answer :=
  T ← get_transport t;
  match t_mapDataProducers T !! id with
  | None => mret Rejected
  | Some p =>
      o ← get_dataProducer p;
      let sctp := bool_decide (DataProducer.type (dp_state o) = SCTP) in
      _ ← only sctp (on_transport t (with_listeners (rtpListener T) (SctpListener.RemoveDataProducer (sctpListener T) p)));
      _ ← on_transport t (with_dataProducers (delete (dp_id o)));
      _ ← OnTransportDataProducerClosed p;
      _ ← only sctp (log (CSctpDataProducerClosed t p));
      _ ← delete_dataProducer p;
      mret Accepted
  end.

Definition TRANSPORT_CLOSE_DATA_CONSUMER (t : address) (id : str) : R Answer :=
  T ← get_transport t;
  match t_mapDataConsumers T !! id with
  | None => mret Rejected
  | Some c =>
      o ← get_dataConsumer c;
      _ ← on_transport t (with_dataConsumers (delete (dc_id o)));
      _ ← OnTransportDataConsumerClosed c;
      _ ← only (bool_decide (DataConsumer.type (dc_state o) = SCTP)) (log (CSctpDataConsumerClosed t c));
      _ ← delete_dataConsumer c;
      mret Accepted
  end.

Definition CloseProducersAndConsumers (t : address) : R unit :=
  T ← get_transport t;
  _ ← for_each (fun p => _ ← OnTransportProducerClosed p; delete_producer p) (values (t_mapProducers T));
  _ ← on_transport t (with_producers (fun _ => ∅));
  T ← get_transport t;
  _ ← for_each (fun c => _ ← OnTransportConsumerClosed c; delete_consumer c) (values (t_mapConsumers T));
  _ ← on_transport t (with_consumers (fun _ => ∅) (fun _ => ∅) (fun _ => ∅));
  T ← get_transport t;
  _ ← for_each (fun p => _ ← OnTransportDataProducerClosed p; delete_dataProducer p) (values (t_mapDataProducers T));
  _ ← on_transport t (with_dataProducers (fun _ => ∅));
  T ← get_transport t;
  _ ← for_each (fun c => _ ← OnTransportDataConsumerClosed c; delete_dataConsumer c) (values (t_mapDataConsumers T));
  on_transport t (with_dataConsumers (fun _ => ∅)).

(** The destructor, with those of the objects it still has. *)
Definition delete_transport (t : address) : R unit :=
  T ← get_transport t;
  _ ← unregister (t_id T);
  _ ← for_each delete_producer (values (t_mapProducers T));
  _ ← for_each delete_consumer (values (t_mapConsumers T));
  _ ← for_each delete_dataProducer (values (t_mapDataProducers T));
  _ ← for_each delete_dataConsumer (values (t_mapDataConsumers T));
  set_transports (delete t).

(** ** Requests to an observer and to the router *)

Definition RTP_OBSERVER_PAUSE (o : address) : R Answer :=
  b ← get_observer o;
  _ ← match o_state b with
      | AudioLevel s => let '(s, evs) := AudioLevelObserver.Pause s in
                        _ ← store_observer o b (AudioLevel s); for_each (fun e => log (CAudioLevelEvent o e)) evs
      | ActiveSpeaker s => store_observer o b (ActiveSpeaker (ActiveSpeakerObserver.Pause s))
      end;
  mret Accepted.

Definition RTP_OBSERVER_RESUME (o : address) : R Answer :=
  b ← get_observer o;
  _ ← match o_state b with
      | AudioLevel s => store_observer o b (AudioLevel (AudioLevelObserver.Resume s))
      | ActiveSpeaker s => store_observer o b (ActiveSpeaker (ActiveSpeakerObserver.Resume s))
      end;
  mret Accepted.

Definition RTP_OBSERVER_ADD_PRODUCER (o : address) (producerId : str) : R Answer :=
  s ← asks router;
  match mapProducers s !! producerId with
  | None => mret Rejected
  | Some p =>
      ok ← ObserverAddProducer o p;
      if negb ok then mret Rejected
      else _ ← set_router (r_observers id (fun m => <[p := default ∅ (m !! p) ∪ {[o]}]> m)); mret Accepted
  end.

Definition RTP_OBSERVER_REMOVE_PRODUCER (o : address) (producerId : str) : R Answer :=
  s ← asks router;
  match mapProducers s !! producerId with
  | None => mret Rejected
  | Some p =>
      _ ← ObserverRemoveProducer o p;
      _ ← set_router (r_observers id (fun m => <[p := default ∅ (m !! p) ∖ {[o]}]> m));
      mret Accepted
  end.

(** What the constructors of a transport make of the request: the base class its limits, and
    [IsConnected] of a direct transport is always true. *)
Record TransportData := { td_direct : bool; td_sctp : bool; td_maxMessageSize : Z; td_initialBitrate : Z }.

Definition no_ids : Producer.ExtensionIds :=
  {| Producer.id_mid := 0; Producer.id_rid := 0; Producer.id_rrid := 0; Producer.id_absSendTime := 0; Producer.id_transportWideCc01 := 0;
     Producer.id_frameMarking07 := 0; Producer.id_frameMarking := 0; Producer.id_ssrcAudioLevel := 0; Producer.id_videoOrientation := 0;
     Producer.id_toffset := 0; Producer.id_absCaptureTime := 0 |}.

Definition new_transport (id : str) (d : TransportData) : TransportObject :=
  {| t_id := id; t_mapProducers := ∅; t_mapConsumers := ∅; t_mapDataProducers := ∅; t_mapDataConsumers := ∅;
     mapSsrcConsumer := ∅; mapRtxSsrcConsumer := ∅; rtpListener := RtpListener.empty; sctpListener := ∅;
     t_state := {| connected := td_direct d; direct := td_direct d; sctpAssociation := td_sctp d; maxMessageSize := td_maxMessageSize d;
                   tccClient := None; tccServer := None; rtcpTimer := false; recvRtpHeaderExtensionIds := no_ids;
                   initialAvailableOutgoingBitrate := td_initialBitrate d; maxIncomingBitrate := 0; maxOutgoingBitrate := 0;
                   minOutgoingBitrate := 0; traceProbation := false; traceBwe := false |} |}.

Definition ROUTER_CREATE_TRANSPORT (id : str) (data : throws TransportData) : R Answer :=
  s ← asks router;
  match mapTransports s !! id, data with
  | None, Some d =>
      t ← alloc;
      ok ← register id (Some (HTransport t)) (Some (HTransport t)) (Some (HTransport t));
      if negb ok then mret Rejected
      else
        _ ← set_transports (<[t := new_transport id d]>);
        _ ← set_router (r_transports (<[id := t]>));
        mret Accepted
  | _, _ => mret Rejected
  end.

(** The constructors of both observers start their timer before they register, and do not stop
    it when registering throws. *)
Definition ROUTER_CREATE_OBSERVER (id : str) (data : throws Observer) : R Answer :=
  s ← asks router;
  match mapRtpObservers s !! id, data with
  | None, Some d =>
      o ← alloc;
      _ ← set_timers (fun s => s ∪ {[o]});
      ok ← register id (Some (HObserver o)) None None;
      if negb ok then mret Rejected
      else
        _ ← set_observers (<[o := {| o_id := id; o_state := d |}]>);
        _ ← set_router (r_observers (<[id := o]>) (fun m => m));
        mret Accepted
  | _, _ => mret Rejected
  end.

Definition close_transport (t : address) : R unit :=
  _ ← CloseProducersAndConsumers t;
  T ← get_transport t;
  _ ← set_router (r_transports (delete (t_id T)));
  delete_transport t.

Definition ROUTER_CLOSE_TRANSPORT (id : str) : R Answer :=
  s ← asks router;
  match mapTransports s !! id with
  | None => mret Rejected
  | Some t => _ ← close_transport t; mret Accepted
  end.

Definition OnTransportListenServerClosed (t : address) : R unit :=
  T ← get_transport t;
  s ← asks router;
  _ ← from_res (ms_assert (bool_decide (is_Some (mapTransports s !! t_id T))));
  close_transport t.

Definition ROUTER_CLOSE_RTP_OBSERVER (id : str) : R Answer :=
  s ← asks router;
  match mapRtpObservers s !! id with
  | None => mret Rejected
  | Some o =>
      b ← get_observer o;
      _ ← set_router (r_observers (delete (o_id b)) (fmap (fun os => os ∖ {[o]})));
      _ ← delete_observer o;
      mret Accepted
  end.

(** The destructor of the router: everything is deleted, silently. *)
Definition delete_router : R unit :=
  id ← asks routerId;
  _ ← unregister id;
  s ← asks router;
  _ ← for_each delete_transport (values (mapTransports s));
  _ ← for_each delete_observer (values (mapRtpObservers s));
  set_router (fun _ =>
    {| mapTransports := ∅; mapRtpObservers := ∅; mapProducerConsumers := ∅; mapConsumerProducer := ∅; mapProducerRtpObservers := ∅;
       mapProducers := ∅; mapDataProducerDataConsumers := ∅; mapDataConsumerDataProducer := ∅; mapDataProducers := ∅ |}).

End Calls.

End Router.
