(* ===== verification/TransportEvents.v ===== *)
(** * What a transport receives

    Models the part of [worker/src/RTC/Transport.cpp] that passes on what comes from the
    network, from the SCTP association and from the control process to the objects of the
    transport: RTP and RTCP packets, SCTP messages and states, connection and disconnection,
    limits of the bitrate, key frame requests; and the pauses of a producer
    ([worker/src/RTC/Producer.cpp]) as they reach the router.  The objects are those of
    [Router]: a table that points to a deleted object is a fault. *)

From Stdlib Require Import SpecFloat.
From stdpp Require Import gmap.
From S2P Require Import Prelude StateMonad Utils RtcpReports RtcpFeedback RtcpTransport RtcpXr Rtcp RtpPacket RtpParameters RtpListener Consumer Producer CongestionControl.
From S2P Require Import DataChannel ChannelMessageRegistrator Router.

Module TransportEvents.

Import Router.

(** [RTC::RtpProbationSsrc]. *)
Definition RtpProbationSsrc : Z := 1234.

(** [RTC::TransportCongestionControlMinOutgoingBitrate]. *)
Definition MinOutgoingBitrate : Z := 30000.

Section Calls.

Context (ln : spec_float -> spec_float) (env : Env).

Definition call_producer (f : address -> call) (p : address) : R unit := _ ← get_producer p; log (f p).

(** ** Connection *)

Definition Connected (t : address) : R unit :=
  _ ← on_transport t (with_state (fun s => set_connected (rtcpTimer s) true s));
  T ← get_transport t;
  _ ← for_each (call_consumer CConsumerTransportConnected) (values env (t_mapConsumers T));
  _ ← for_each (fun c => on_dataConsumer c (fun s => (DataConsumer.TransportConnected s, []))) (values env (t_mapDataConsumers T));
  _ ← only (sctpAssociation (t_state T)) (log (CSctpTransportConnected t));
  _ ← on_transport t (with_state (set_connected true true));
  _ ← only (has (tccClient (t_state T))) (log (CTccClient t TccClientTransportConnected));
  only (has (tccServer (t_state T))) (log (CTccServer t TccServerTransportConnected)).

Definition Disconnected (t : address) : R unit :=
  _ ← on_transport t (with_state (fun s => set_connected (rtcpTimer s) false s));
  T ← get_transport t;
  _ ← for_each (call_consumer CConsumerTransportDisconnected) (values env (t_mapConsumers T));
  _ ← for_each (fun c => on_dataConsumer c (fun s => (DataConsumer.TransportDisconnected s, []))) (values env (t_mapDataConsumers T));
  _ ← on_transport t (with_state (set_connected false false));
  _ ← only (has (tccClient (t_state T))) (log (CTccClient t TccClientTransportDisconnected));
  only (has (tccServer (t_state T))) (log (CTccServer t TccServerTransportDisconnected)).

(** ** RTP *)

(** The ids of the header extensions that the listener reads. *)
Definition listener_ids (i : RtpPacket.Ids) (e : Producer.ExtensionIds) : RtpPacket.Ids :=
  {| RtpPacket.midExtensionId := Producer.id_mid e; RtpPacket.ridExtensionId := Producer.id_rid e;
     RtpPacket.rridExtensionId := Producer.id_rrid e; RtpPacket.absSendTimeExtensionId := Producer.id_absSendTime e;
     RtpPacket.transportWideCc01ExtensionId := Producer.id_transportWideCc01 e;
     RtpPacket.frameMarking07ExtensionId := RtpPacket.frameMarking07ExtensionId i;
     RtpPacket.frameMarkingExtensionId := RtpPacket.frameMarkingExtensionId i;
     RtpPacket.ssrcAudioLevelExtensionId := RtpPacket.ssrcAudioLevelExtensionId i;
     RtpPacket.videoOrientationExtensionId := RtpPacket.videoOrientationExtensionId i |}.

(** The statistics of the transmission are left out; [discarded] is what the producer answers. *)
Definition ReceiveRtpPacket (t : address) (packet : RtpPacket.t) (discarded : bool) : R unit :=
  T ← get_transport t;
  let packet := RtpPacket.set_ids packet (listener_ids (RtpPacket.ids packet) (recvRtpHeaderExtensionIds (t_state T))) in
  _ ← only (has (tccServer (t_state T))) (log (CTccServer t (TccServerIncomingPacket (nowMs env) packet)));
  '(producer, l) ← from_res (RtpListener.GetProducer (rtpListener T) packet);
  _ ← on_transport t (with_listeners l (sctpListener T));
  ssrc ← from_res (RtpPacket.GetSsrc packet);
  match producer with
  | None => log (CRecvStreamClosed t ssrc)
  | Some p =>
      _ ← call_producer (fun p => CProducerReceiveRtpPacket p packet) p;
      only discarded (log (CRecvStreamClosed t ssrc))
  end.

(** ** RTCP *)

Definition GetConsumerByMediaSsrc (T : TransportObject) (ssrc : Z) : option address := mapSsrcConsumer T !! ssrc.
Definition GetConsumerByRtxSsrc (T : TransportObject) (ssrc : Z) : option address := mapRtxSsrcConsumer T !! ssrc.

(** The round trip time of the first active consumer. *)
Fixpoint first_rtt (l : list address) : R spec_float :=
  match l with
  | [] => mret (S754_zero false)
  | c :: l' => _ ← get_consumer c; if consumer_active env c then mret (consumer_rtt env c) else first_rtt l'
  end.

(** Each handler of [HandleRtcpPacket]. *)
Definition handle_receiver_report (T : TransportObject) (report : list Z) : R unit :=
  ssrc ← from_res (ReceiverReport.GetSsrc report);
  match GetConsumerByMediaSsrc T ssrc with
  | None => mret tt
  | Some c => call_consumer (fun c => CConsumerReceiveRtcpReceiverReport c report) c
  end.

Definition handle_key_frame_request (T : TransportObject) (fir : bool) (ssrc : Z) : R unit :=
  if ssrc =? RtpProbationSsrc then mret tt
  else match GetConsumerByMediaSsrc T ssrc with
       | None => mret tt
       | Some c => call_consumer (fun c => CConsumerReceiveKeyFrameRequest c fir ssrc) c
       end.

Definition handle_fir_item (T : TransportObject) (item : raw_item 8) : R unit :=
  ssrc ← from_res (FeedbackPsFir.GetSsrc item); handle_key_frame_request T true ssrc.

Definition handle_sender_report (T : TransportObject) (report : list Z) : R unit :=
  ssrc ← from_res (SenderReport.GetSsrc report);
  match RtpListener.GetProducer_ssrc (rtpListener T) ssrc with
  | None => mret tt
  | Some p => call_producer (fun p => CProducerReceiveRtcpSenderReport p report) p
  end.

(** An SSRC of 0 in a sub-block is that of the report. *)
Definition handle_ssrc_info (T : TransportObject) (xrSsrc : Z) (info : list Z) : R unit :=
  ssrc ← from_res (DelaySinceLastRr.GetSsrc info);
  info ← (if ssrc =? 0 then from_res (DelaySinceLastRr.SetSsrc info xrSsrc) else mret info);
  ssrc ← from_res (DelaySinceLastRr.GetSsrc info);
  match RtpListener.GetProducer_ssrc (rtpListener T) ssrc with
  | None => mret tt
  | Some p => call_producer (fun p => CProducerReceiveRtcpXrDelaySinceLastRr p info) p
  end.

Definition handle_extended_report (T : TransportObject) (xrSsrc : Z) (b : ExtendedReportBlock.t) : R unit :=
  match b with
  | ExtendedReportBlock.DLRR r => for_each (handle_ssrc_info T xrSsrc) (DelaySinceLastRr.ssrcInfos r)
  | ExtendedReportBlock.RRT r =>
      for_each (call_consumer (fun c => CConsumerReceiveRtcpXrReceiverReferenceTime c r)) (values env (t_mapConsumers T))
  end.

Definition HandleRtcpPacket (t : address) (packet : packet) : R unit :=
  T ← get_transport t;
  match packet with
  | ReceiverReportPacket rr =>
      _ ← for_each (handle_receiver_report T) (ReceiverReportPacket.reports rr);
      only (has (tccClient (t_state T)) && negb (bool_decide (t_mapConsumers T = ∅)))
        (rtt ← first_rtt (values env (t_mapConsumers T)); log (CTccClient t (TccClientReceiveRtcpReceiverReport rr rtt)))
  | FeedbackPsPliPacket p => handle_key_frame_request T false (FeedbackHeaderPacket.mediaSsrc p)
  | FeedbackPsFirPacket p => for_each (handle_fir_item T) (FeedbackPacket.items p)
  | FeedbackPsRembPacket p =>
      only (bool_decide (tccClient (t_state T) = Some REMB))
        (log (CTccClient t (TccClientReceiveEstimatedBitrate (u32 (FeedbackPsRemb.bitrate p)))))
  | FeedbackRtpNackPacket p =>
      match GetConsumerByMediaSsrc T (FeedbackPacket.mediaSsrc p) with
      | None => mret tt
      | Some c => call_consumer (fun c => CConsumerReceiveNack c p) c
      end
  | FeedbackRtpTransportPacket p => only (has (tccClient (t_state T))) (log (CTccClient t (TccClientReceiveRtcpTransportFeedback p)))
  | SenderReportPacket sr => for_each (handle_sender_report T) (SenderReportPacket.reports sr)
  | ExtendedReportPacket xr => for_each (handle_extended_report T (ExtendedReportPacket.ssrc xr)) (ExtendedReportPacket.reports xr)
  | _ => mret tt
  end.

Definition ReceiveRtcpPacket (t : address) (l : list packet) : R unit := for_each (HandleRtcpPacket t) l.

(** ** Requests of consumers *)

Definition OnConsumerKeyFrameRequested (t c : address) (mappedSsrc : Z) : R unit :=
  T ← get_transport t;
  if connected (t_state T) then OnTransportConsumerKeyFrameRequested c mappedSsrc else mret tt.

(** ** SCTP *)

(** A walk over the data consumers of type SCTP. *)
Definition each_sctp_consumer (t : address) (f : DataConsumer.State -> DataConsumer.State * list DataConsumer.event) : R unit :=
  T ← get_transport t;
  for_each (fun c => o ← get_dataConsumer c;
                     only (bool_decide (DataConsumer.type (dc_state o) = SCTP)) (on_dataConsumer c f))
    (values env (t_mapDataConsumers T)).

Definition OnSctpAssociationConnecting (t : address) : R unit := _ ← get_transport t; log (CEmitted t SctpConnecting).
Definition OnSctpAssociationConnected (t : address) : R unit :=
  _ ← each_sctp_consumer t (fun s => (DataConsumer.SctpAssociationConnected s, [])); log (CEmitted t SctpConnected).
Definition OnSctpAssociationFailed (t : address) : R unit :=
  _ ← each_sctp_consumer t (fun s => (DataConsumer.SctpAssociationClosed s, [])); log (CEmitted t SctpFailed).
Definition OnSctpAssociationClosed (t : address) : R unit :=
  _ ← each_sctp_consumer t (fun s => (DataConsumer.SctpAssociationClosed s, [])); log (CEmitted t SctpClosed).
Definition OnSctpAssociationBufferedAmount (t : address) (bufferedAmount : Z) : R unit :=
  each_sctp_consumer t (fun s => DataConsumer.SctpAssociationBufferedAmount s bufferedAmount).

(** The data producer passes the message to the router. *)
Definition DataProducerReceiveMessage (p : address) (ppid : Z) (msg : list Z) : R unit :=
  o ← get_dataProducer p;
  let '(s, evs) := DataProducer.ReceiveMessage (dp_state o) ppid msg in
  _ ← set_dataProducers (<[p := {| dp_id := dp_id o; dp_transport := dp_transport o; dp_state := s |}]>);
  for_each (fun e => match e with
                     | DataProducer.OnDataProducerMessageReceived ppid msg => OnTransportDataProducerMessageReceived env p ppid msg
                     | DataProducer.OnDataProducerReceiveData _ => mret tt
                     end) evs.

Definition OnSctpAssociationMessageReceived (t : address) (streamId ppid : Z) (msg : list Z) : R unit :=
  T ← get_transport t;
  match SctpListener.GetDataProducer (sctpListener T) streamId with
  | None => mret tt
  | Some p => DataProducerReceiveMessage p ppid msg
  end.

(** ** Requests *)

(** [bitrate] is an [uint32_t]. *)
Definition TRANSPORT_SET_MAX_INCOMING_BITRATE (t : address) (bitrate : Z) : R Answer :=
  T ← get_transport t;
  let s := t_state T in
  _ ← on_transport t (with_state (set_bitrates bitrate (maxOutgoingBitrate s) (minOutgoingBitrate s)));
  _ ← only (has (tccServer s)) (log (CTccServer t (TccServerSetMaxIncomingBitrate bitrate)));
  mret Accepted.

Definition TRANSPORT_SET_MAX_OUTGOING_BITRATE (t : address) (bitrate : Z) : R Answer :=
  T ← get_transport t;
  let s := t_state T in
  if (0 <? bitrate) && (bitrate <? MinOutgoingBitrate) then mret Rejected
  else if (0 <? bitrate) && (bitrate <? minOutgoingBitrate s) then mret Rejected
  else
    _ ← only (has (tccClient s)) (log (CTccClient t (TccClientSetMaxOutgoingBitrate bitrate)));
    _ ← on_transport t (with_state (set_bitrates (maxIncomingBitrate s) bitrate (minOutgoingBitrate s)));
    _ ← only (has (tccClient s)) (log (CComputeOutgoingDesiredBitrate t false));
    mret Accepted.

Definition TRANSPORT_SET_MIN_OUTGOING_BITRATE (t : address) (bitrate : Z) : R Answer :=
  T ← get_transport t;
  let s := t_state T in
  if (0 <? bitrate) && (bitrate <? MinOutgoingBitrate) then mret Rejected
  else if (0 <? bitrate) && (0 <? maxOutgoingBitrate s) && (maxOutgoingBitrate s <? bitrate) then mret Rejected
  else
    _ ← only (has (tccClient s)) (log (CTccClient t (TccClientSetMinOutgoingBitrate bitrate)));
    _ ← on_transport t (with_state (set_bitrates (maxIncomingBitrate s) (maxOutgoingBitrate s) bitrate));
    _ ← only (has (tccClient s)) (log (CComputeOutgoingDesiredBitrate t false));
    mret Accepted.

(** Which types of event are in the request. *)
Definition TRANSPORT_ENABLE_TRACE_EVENT (t : address) (probation bwe : bool) : R Answer :=
  _ ← on_transport t (with_state (set_traces probation bwe)); mret Accepted.

(** ** Producers

    Their streams are paused, and key frames requested, in [Producer]; this is what reaches the
    router. *)

Definition set_p_paused (v : bool) (o : ProducerObject) : ProducerObject :=
  {| p_id := p_id o; p_transport := p_transport o; p_kind := p_kind o; p_parameters := p_parameters o; p_paused := v;
     p_streams := p_streams o; p_scores := p_scores o |}.

Definition PRODUCER_PAUSE (p : address) : R Answer :=
  o ← get_producer p;
  if p_paused o then mret Accepted
  else
    _ ← set_producers (<[p := set_p_paused true o]>);
    _ ← OnTransportProducerPaused env p;
    mret Accepted.

Definition PRODUCER_RESUME (p : address) : R Answer :=
  o ← get_producer p;
  if p_paused o then
    _ ← set_producers (<[p := set_p_paused false o]>);
    _ ← OnTransportProducerResumed env p;
    mret Accepted
  else mret Accepted.

(** The producer has a new stream. *)
Definition OnProducerNewRtpStream (p : address) (st : Stream) : R unit :=
  o ← get_producer p;
  _ ← set_producers (<[p := {| p_id := p_id o; p_transport := p_transport o; p_kind := p_kind o; p_parameters := p_parameters o;
                               p_paused := p_paused o; p_streams := p_streams o ++ [st]; p_scores := p_scores o |}]>);
  OnTransportProducerNewRtpStream env p (st_address st) (st_mappedSsrc st).

(** The producer passes a packet on, unless it is paused. *)
Definition OnProducerRtpPacketReceived (p : address) (packet : RtpPacket.t) : R unit :=
  o ← get_producer p;
  if p_paused o then mret tt else OnTransportProducerRtpPacketReceived env p packet.

End Calls.

End TransportEvents.
