(* ===== verification/WorkerRequests.v ===== *)
(** * Requests and notifications of the control process

    Models how [worker/src/Worker.cpp] delivers a message to the object it names (the default
    case of [HandleRequest], and those of the payload channel), with the methods that the
    objects of a router understand.  A message for an id that nothing has, or with a method that
    the object does not know, is rejected. *)

From Stdlib Require Import SpecFloat.
From stdpp Require Import gmap.
From S2P Require Import Prelude StateMonad RtpParameters RtpListener AudioLevelObserver ActiveSpeakerObserver DataChannel ChannelMessageRegistrator.
From S2P Require Import Router TransportEvents.

Module WorkerRequests.

Import Router TransportEvents.

(** The methods, with their data. *)
Inductive RouterMethod :=
| CreateTransport (id : str) (data : throws TransportData)
| CreateAudioLevelObserver (id : str) (maxEntries threshold interval : Z)
| CreateActiveSpeakerObserver (id : str) (interval : Z)
| CloseTransport (id : str)
| CloseRtpObserver (id : str).

Inductive TransportMethod :=
| Produce (id : str) (data : throws ProducerData)
| Consume (producerId id : str) (data : throws ConsumerData)
| ProduceData (id : str) (data : DataRequest)
| ConsumeData (dataProducerId id : str) (data : DataRequest) (sctpConnected : bool)
| CloseProducer (id : str)
| CloseConsumer (id : str)
| CloseDataProducer (id : str)
| CloseDataConsumer (id : str)
| SetMaxIncomingBitrate (bitrate : Z)
| SetMaxOutgoingBitrate (bitrate : Z)
| SetMinOutgoingBitrate (bitrate : Z)
| EnableTraceEvent (probation bwe : bool).

Inductive ProducerMethod := PauseProducer | ResumeProducer.

Inductive ObserverMethod :=
| PauseObserver
| ResumeObserver
| AddProducer (producerId : str)
| RemoveProducer (producerId : str).

Inductive Method :=
| MRouter (m : RouterMethod)
| MTransport (m : TransportMethod)
| MProducer (m : ProducerMethod)
| MObserver (m : ObserverMethod).

Section Calls.

Context (ln : spec_float -> spec_float) (env : Env).

(** [Router::HandleRequest]. *)
Definition router_request (m : RouterMethod) : R Answer :=
  match m with
  | CreateTransport id data => ROUTER_CREATE_TRANSPORT id data
  | CreateAudioLevelObserver id max threshold interval => ROUTER_CREATE_OBSERVER id (AudioLevel <$> AudioLevelObserver.make max threshold interval)
  | CreateActiveSpeakerObserver id interval => ROUTER_CREATE_OBSERVER id (Some (ActiveSpeaker (ActiveSpeakerObserver.make interval)))
  | CloseTransport id => ROUTER_CLOSE_TRANSPORT ln env id
  | CloseRtpObserver id => ROUTER_CLOSE_RTP_OBSERVER id
  end.

(** [Transport::HandleRequest]. *)
Definition transport_request (t : address) (m : TransportMethod) : R Answer :=
  match m with
  | Produce id data => TRANSPORT_PRODUCE t id data
  | Consume producerId id data => TRANSPORT_CONSUME env t producerId id data
  | ProduceData id data => TRANSPORT_PRODUCE_DATA t id data
  | ConsumeData dataProducerId id data sctpConnected => TRANSPORT_CONSUME_DATA t dataProducerId id data sctpConnected
  | CloseProducer id => TRANSPORT_CLOSE_PRODUCER ln env t id
  | CloseConsumer id => TRANSPORT_CLOSE_CONSUMER t id
  | CloseDataProducer id => TRANSPORT_CLOSE_DATA_PRODUCER env t id
  | CloseDataConsumer id => TRANSPORT_CLOSE_DATA_CONSUMER t id
  | SetMaxIncomingBitrate b => TRANSPORT_SET_MAX_INCOMING_BITRATE t b
  | SetMaxOutgoingBitrate b => TRANSPORT_SET_MAX_OUTGOING_BITRATE t b
  | SetMinOutgoingBitrate b => TRANSPORT_SET_MIN_OUTGOING_BITRATE t b
  | EnableTraceEvent probation bwe => TRANSPORT_ENABLE_TRACE_EVENT t probation bwe
  end.

(** [Producer::HandleRequest]. *)
Definition producer_request (p : address) (m : ProducerMethod) : R Answer :=
  match m with PauseProducer => PRODUCER_PAUSE env p | ResumeProducer => PRODUCER_RESUME env p end.

(** [RtpObserver::HandleRequest]. *)
Definition observer_request (o : address) (m : ObserverMethod) : R Answer :=
  match m with
  | PauseObserver => RTP_OBSERVER_PAUSE o
  | ResumeObserver => RTP_OBSERVER_RESUME o
  | AddProducer producerId => RTP_OBSERVER_ADD_PRODUCER env o producerId
  | RemoveProducer producerId => RTP_OBSERVER_REMOVE_PRODUCER ln env o producerId
  end.

(** [Worker::HandleRequest], for the requests that are not its own. *)
Definition HandleRequest (handlerId : str) (m : Method) : R Answer :=
  r ← asks registrator;
  match ChannelMessageRegistrator.GetChannelRequestHandler r handlerId, m with
  | Some HRouter, MRouter m => router_request m
  | Some (HTransport t), MTransport m => transport_request t m
  | Some (HProducer p), MProducer m => producer_request p m
  | Some (HObserver o), MObserver m => observer_request o m
  | _, _ => mret Rejected
  end.

(** [DATA_PRODUCER_SEND], through [Worker::HandleNotification]. *)
Definition HandleNotification (handlerId : str) (ppid : option Z) (msg : list Z) : R Answer :=
  r ← asks registrator;
  match ChannelMessageRegistrator.GetPayloadChannelNotificationHandler r handlerId with
  | Some (HDataProducer p) =>
      o ← get_dataProducer p;
      match DataProducer.HandleNotification (dp_state o) ppid msg with
      | None => mret Rejected
      | Some _ => match ppid with
                  | None => mret Rejected
                  | Some ppid => _ ← DataProducerReceiveMessage env p ppid msg; mret Accepted
                  end
      end
  | _ => mret Rejected
  end.

(** [DATA_CONSUMER_SEND], through the requests of the payload channel; what is not rejected here
    is answered by the callback of the message. *)
Definition HandlePayloadRequest (handlerId : str) (ppid : option Z) (msg : list Z) : R Answer :=
  r ← asks registrator;
  match ChannelMessageRegistrator.GetPayloadChannelRequestHandler r handlerId with
  | Some (HDataConsumer c) =>
      o ← get_dataConsumer c;
      match DataConsumer.HandleSend (dc_state o) ppid msg with
      | None => mret Rejected
      | Some _ => _ ← on_dataConsumer c (fun s => default (s, []) (DataConsumer.HandleSend s ppid msg)); mret Accepted
      end
  | _ => mret Rejected
  end.

End Calls.

End WorkerRequests.
