(* ===== verification/RouterObservers.v ===== *)
(** * Observers and the producers they follow

    The part of the invariant of a router that is about its observers ([Router.v],
    [AudioLevelObserver.v], [ActiveSpeakerObserver.v]): an observer that the router lists for a
    producer exists, and what an observer keeps of a producer is of one that is alive and that
    lists the observer. *)

From Stdlib Require Import SpecFloat.
From stdpp Require Import gmap.
From S2P Require Import Prelude StateMonad Multimap RtpPacket RtpListener Consumer AudioLevelObserver ActiveSpeakerObserver ActiveSpeakerSpec.
From S2P Require Import ChannelMessageRegistrator Router.

Import Router.

(** ** Audio levels *)

Section AudioLevel.

Import AudioLevelObserver.

Lemma audio_receive s p packet : (paused s = false -> is_Some (mapProducerDBovs s !! p)) -> safe (RtpPacket.ReadSsrcAudioLevel packet) ->
  exists s', ReceiveRtpPacket s p packet = Ok s' /\ dom (mapProducerDBovs s') = dom (mapProducerDBovs s).
Proof.
  intros Hp [o Eo]. unfold ReceiveRtpPacket. destruct (paused s) eqn:E; [by exists s|]. rewrite Eo. cbn [mbind res_bind].
  destruct o as [[v b]|]; [|by exists s]. destruct (Hp eq_refl) as [d Ed]. rewrite Ed. eexists. split; [done|]. cbn. apply dom_insert_lookup_L. by eexists.
Qed.

Lemma mapDBovsProducer_safe s order : forall m, Forall (fun p => is_Some (mapProducerDBovs s !! p)) order ->
  exists m', mapDBovsProducer order s m = Ok m' /\ forall x, x ∈ m' -> x ∈ m \/ x.2 ∈ order.
Proof.
  induction order as [|p order IH]; intros m H; cbn [mapDBovsProducer]; [exists m; split; [done|by left]|].
  apply Forall_cons in H as [[d Ed] H]. rewrite Ed. cbn [deref mbind res_bind].
  match goal with |- context [mapDBovsProducer order s ?m1] => destruct (IH m1 H) as (m' & -> & Hm); exists m'; split; [done|] end.
  intros x Hx. destruct (Hm x Hx) as [Hx'|Hx']; [|right; by right]. destruct (count d <? 10); [by left|].
  destruct (threshold s <=? avgDBov d); [|by left]. rewrite emplace_perm, elem_of_cons in Hx'. destruct Hx' as [->|?]; [right; left|by left].
Qed.

Lemma volumes_safe ids l : Forall (fun x => is_Some (ids !! x.2)) l -> safe (volumes l ids).
Proof.
  induction l as [|[avg p] l IH]; cbn [volumes]; intros H; [by eexists|]. apply Forall_cons in H as [[id Ei] H]. cbn in Ei. rewrite Ei. cbn [deref mbind res_bind].
  destruct (IH H) as [r ->]. by eexists.
Qed.

Lemma audio_timer s order ids : order ≡ₚ elements (dom (mapProducerDBovs s)) -> (forall p, is_Some (mapProducerDBovs s !! p) -> is_Some (ids !! p)) ->
  exists s' evs, OnTimer s order ids = Ok (s', evs) /\ dom (mapProducerDBovs s') = dom (mapProducerDBovs s).
Proof.
  intros Ho Hi. unfold OnTimer. destruct (periodicTimer s); [|by eexists _, _]. unfold Update.
  assert (Forall (fun p => is_Some (mapProducerDBovs s !! p)) order) as Hf.
  { apply Forall_forall. intros p Hp. rewrite Ho, elem_of_elements in Hp. by apply elem_of_dom. }
  destruct (mapDBovsProducer_safe s order [] Hf) as (m & -> & Hm). cbn [mbind res_bind].
  destruct m as [|x m].
  { destruct (silence _); (eexists _, _; split; [done|cbn; apply dom_fmap_L]). }
  destruct (volumes_safe ids (take (Z.to_nat (maxEntries (ResetMapProducerDBovs s))) (reverse (x :: m)))) as [data ->].
  { apply Forall_take, Forall_forall. intros y Hy. rewrite elem_of_reverse in Hy. destruct (Hm y Hy) as [?%elem_of_nil|Hy']; [done|]. apply Hi. rewrite Forall_forall in Hf. by apply Hf. }
  eexists _, _. split; [done|]. cbn. apply dom_fmap_L.
Qed.

Lemma enter_dom m p : dom (enter m p) = {[p]} ∪ dom m.
Proof. unfold enter. destruct (m !! p) eqn:E; [|apply dom_insert_L]. assert (p ∈ dom m) by (apply elem_of_dom; by eexists). set_solver. Qed.

Lemma pause_dom s : dom (mapProducerDBovs (Pause s).1) = dom (mapProducerDBovs s).
Proof. unfold Pause, Paused. destruct (paused s); [done|]. destruct (silence _); cbn; apply dom_fmap_L. Qed.

Lemma resume_dom s : dom (mapProducerDBovs (Resume s)) = dom (mapProducerDBovs s).
Proof. unfold Resume. by destruct (paused s). Qed.

End AudioLevel.

(** ** What an observer keeps *)

Section Watched.

Implicit Types (prods : gmap address ProducerObject) (watch members : gmap address (gset address)) (obs : gmap address ObserverObject)
  (P : gset address) (o p q : address) (b : Observer).

(** The router lists [o] for [p]. *)
Definition lists watch o p : Prop := exists os, watch !! p = Some os /\ o ∈ os.

(** The observer has something of [p]. *)
Definition tracked b p : Prop :=
  match b with
  | AudioLevel s => is_Some (AudioLevelObserver.mapProducerDBovs s !! p)
  | ActiveSpeaker s => exists k, ActiveSpeakerSpec.watches s !! k = Some p
  end.

(** [P]: producers that are being closed or resumed. *)
Definition tracks P prods watch o b : Prop :=
  match b with
  | AudioLevel s =>
      (forall p, is_Some (AudioLevelObserver.mapProducerDBovs s !! p) -> lists watch o p) /\
      (forall p po, lists watch o p -> prods !! p = Some po -> p ∉ P -> p_paused po = false ->
         is_Some (AudioLevelObserver.mapProducerDBovs s !! p))
  | ActiveSpeaker s =>
      ActiveSpeakerSpec.Inv s /\
      (forall k p, ActiveSpeakerSpec.watches s !! k = Some p -> lists watch o p /\ p_id <$> prods !! p = Some k)
  end.

Record watched P prods watch members obs : Prop := {
  watched_dom : forall p, is_Some (watch !! p) <-> is_Some (members !! p);
  watched_alive : forall p o, lists watch o p -> is_Some (obs !! o);
  watched_by : forall o x, obs !! o = Some x -> tracks P prods watch o (o_state x);
}.

Lemma tracks_mono P P' prods prods' watch watch' o b :
  tracks P prods watch o b ->
  (forall q, tracked b q -> lists watch o q -> lists watch' o q /\ p_id <$> prods' !! q = p_id <$> prods !! q) ->
  (forall q po', lists watch' o q -> prods' !! q = Some po' -> q ∉ P' -> p_paused po' = false ->
     lists watch o q /\ (q ∉ P) /\ (exists po, prods !! q = Some po /\ p_paused po = false)) ->
  tracks P' prods' watch' o b.
Proof.
  intros Ht Ha Hb. destruct b as [s|s]; cbn [tracks tracked] in *.
  - destruct Ht as [H1 H2]. split.
    + intros p Hp. apply Ha; auto.
    + intros p po H3 H4 H5 H6. destruct (Hb p po H3 H4 H5 H6) as (H7 & H8 & po' & H9 & H10). eauto.
  - destruct Ht as [H1 H2]. split; [done|]. intros k p Hk. destruct (H2 k p Hk) as [H3 H4]. destruct (Ha p) as [H5 ->]; [by exists k|done|done].
Qed.

Lemma lists_tracked P prods watch o b p : tracks P prods watch o b -> tracked b p -> lists watch o p.
Proof. destruct b as [s|s]; cbn [tracks tracked]; intros [H1 H2]; [apply H1|]. intros [k Hk]. apply (H2 k p Hk). Qed.

Lemma lists_insert watch o p q os : lists (<[p := os]> watch) o q <-> (q = p /\ o ∈ os) \/ (q <> p /\ lists watch o q).
Proof.
  unfold lists. split.
  - intros (os' & [[<- <-]|[Hne H]]%lookup_insert_Some & Ho); [by left|right]. split; [done|]. by exists os'.
  - intros [[-> Ho]|[Hne (os' & H & Ho)]]; [exists os; by rewrite lookup_insert_eq|exists os'; by rewrite lookup_insert_ne].
Qed.

Lemma lists_delete watch o p q : lists (delete p watch) o q <-> q <> p /\ lists watch o q.
Proof.
  unfold lists. split.
  - intros (os & [Hne H]%lookup_delete_Some & Ho). split; [done|]. by exists os.
  - intros [Hne (os & H & Ho)]. exists os. by rewrite lookup_delete_ne.
Qed.

(** Only the sets of the router change, for producers that keep theirs. *)
Lemma watched_members P prods watch members members' obs : watched P prods watch members obs ->
  (forall p, is_Some (members' !! p) <-> is_Some (members !! p)) -> watched P prods watch members' obs.
Proof. intros [H1 H2 H3] Hm. split; [|done|done]. intros p. by rewrite Hm. Qed.

Lemma watched_exempt P P' prods watch members obs : watched P prods watch members obs -> P ⊆ P' -> watched P' prods watch members obs.
Proof. intros [H1 H2 H3] Hs. split; [done|done|]. intros o x Ho. eapply tracks_mono; [by apply H3|done|]. intros q po ? ? ? ?. split; [done|]. split; [set_solver|by exists po]. Qed.

Lemma watched_new_producer P prods watch members obs p po : watched P prods watch members obs -> prods !! p = None -> members !! p = None ->
  watched P (<[p := po]> prods) watch members obs.
Proof.
  intros [H1 H2 H3] Hp Hm. assert (forall o, ~ lists watch o p) as Hn.
  { intros o (os & Hw & _). assert (is_Some (members !! p)) as [? ?] by (apply H1; by eexists). congruence. }
  split; [done|done|]. intros o x Ho. eapply tracks_mono; [by apply H3| |].
  - intros q _ Hl. split; [done|]. rewrite lookup_insert_ne; [done|]. intros <-. by apply Hn in Hl.
  - intros q po' Hl Hq ? ?. split; [done|]. split; [done|]. exists po'. split; [|done]. apply lookup_insert_Some in Hq as [[<- _]|[_ ?]]; [by apply Hn in Hl|done].
Qed.

Lemma watched_route P prods watch members obs p : watched P prods watch members obs -> members !! p = None ->
  watched P prods (<[p := ∅]> watch) (<[p := ∅]> members) obs.
Proof.
  intros [H1 H2 H3] Hm.
  assert (forall o q, lists (<[p := ∅]> watch) o q <-> lists watch o q) as Hl.
  { intros o q. rewrite lists_insert. split; [intros [[_ ?]|[_ ?]]; [set_solver|done]|]. intros Hl. right. split; [|done]. intros ->. destruct Hl as (os & Hw & _).
    assert (is_Some (members !! p)) as [? ?] by (apply H1; by eexists). congruence. }
  split.
  - intros q. destruct (decide (p = q)) as [<-|Hne]; [rewrite !lookup_insert_eq; split; intros _; by eexists|]. rewrite !lookup_insert_ne by done. apply H1.
  - intros q o ?%Hl. by eapply H2.
  - intros o x Ho. eapply tracks_mono; [by apply H3| |].
    + intros q _ Hq. by rewrite Hl.
    + intros q po Hq%Hl ? ? ?. split; [done|]. split; [done|by exists po].
Qed.

Lemma watched_unroute P prods watch members obs p : watched P prods watch members obs ->
  (forall o x, obs !! o = Some x -> ~ tracked (o_state x) p) -> watched (P ∖ {[p]}) prods (delete p watch) (delete p members) obs.
Proof.
  intros [H1 H2 H3] Hn. split.
  - intros q. destruct (decide (p = q)) as [<-|Hne]; [by rewrite !lookup_delete_eq|]. rewrite !lookup_delete_ne by done. apply H1.
  - intros q o [_ ?]%lists_delete. by eapply H2.
  - intros o x Ho. eapply tracks_mono; [by apply H3| |].
    + intros q Ht Hq. rewrite lists_delete. split; [|done]. split; [|done]. intros ->. by eapply Hn.
    + intros q po [Hne Hq]%lists_delete ? ? ?. split; [done|]. split; [set_solver|by exists po].
Qed.

Lemma watched_delete_producer P prods watch members obs p : watched P prods watch members obs -> members !! p = None ->
  watched P (delete p prods) watch members obs.
Proof.
  intros [H1 H2 H3] Hm. assert (forall o, ~ lists watch o p) as Hn.
  { intros o (os & Hw & _). assert (is_Some (members !! p)) as [? ?] by (apply H1; by eexists). congruence. }
  split; [done|done|]. intros o x Ho. eapply tracks_mono; [by apply H3| |].
  - intros q _ Hl. split; [done|]. rewrite lookup_delete_ne; [done|]. intros <-. by apply Hn in Hl.
  - intros q po' Hl [_ Hq]%lookup_delete_Some ? ?. split; [done|]. split; [done|by exists po'].
Qed.

(** A producer changes; if it is resumed it is one of [P]. *)
Lemma watched_update_producer P prods watch members obs p po po' : watched P prods watch members obs -> prods !! p = Some po -> p_id po' = p_id po ->
  p ∈ P \/ (p_paused po' = false -> p_paused po = false) -> watched P (<[p := po']> prods) watch members obs.
Proof.
  intros [H1 H2 H3] Hp Hi Hb. split; [done|done|]. intros o x Ho. eapply tracks_mono; [by apply H3| |].
  - intros q _ Hl. split; [done|]. destruct (decide (p = q)) as [<-|Hne]; [|by rewrite lookup_insert_ne]. rewrite lookup_insert_eq, Hp. cbn. by f_equal.
  - intros q q' Hl Hq HP Hpa. split; [done|]. split; [done|]. apply lookup_insert_Some in Hq as [[<- <-]|[Hne Hq]]; [|by exists q'].
    exists po. split; [done|]. destruct Hb as [?|Hb]; [done|auto].
Qed.

Lemma watched_update P prods watch members obs o x x' : watched P prods watch members obs -> obs !! o = Some x ->
  tracks P prods watch o (o_state x') -> watched P prods watch members (<[o := x']> obs).
Proof.
  intros [H1 H2 H3] Ho Ht. split; [done| |].
  - intros p q Hl. destruct (decide (o = q)) as [<-|Hne]; [rewrite lookup_insert_eq; by eexists|]. rewrite lookup_insert_ne by done. by eapply H2.
  - intros q y Hq. apply lookup_insert_Some in Hq as [[<- <-]|[Hne Hq]]; [done|by apply H3].
Qed.

Lemma watched_new_observer P prods watch members obs o x : watched P prods watch members obs -> obs !! o = None ->
  (forall w, (forall p, ~ lists w o p) -> tracks P prods w o (o_state x)) -> watched P prods watch members (<[o := x]> obs).
Proof.
  intros [H1 H2 H3] Ho Ht. split; [done| |].
  - intros p q Hl. destruct (decide (o = q)) as [<-|Hne]; [rewrite lookup_insert_eq; by eexists|]. rewrite lookup_insert_ne by done. by eapply H2.
  - intros q y Hq. apply lookup_insert_Some in Hq as [[<- <-]|[Hne Hq]]; [|by apply H3]. apply Ht. intros p Hl. apply H2 in Hl as [? ?]. congruence.
Qed.

Lemma lists_remove watch o o' p : lists (fmap (fun os => os ∖ {[o]}) watch) o' p <-> o' <> o /\ lists watch o' p.
Proof.
  unfold lists. split.
  - intros (os & Hw & Ho). rewrite lookup_fmap in Hw. destruct (watch !! p) as [os'|] eqn:E; [|done]. injection Hw as <-. split; [set_solver|]. exists os'. set_solver.
  - intros [Hne (os & Hw & Ho)]. exists (os ∖ {[o]}). rewrite lookup_fmap, Hw. cbn. split; [done|set_solver].
Qed.

Lemma watched_remove_observer P prods watch members obs o : watched P prods watch members obs ->
  watched P prods (fmap (fun os => os ∖ {[o]}) watch) members (delete o obs).
Proof.
  intros [H1 H2 H3]. split.
  - intros p. rewrite lookup_fmap, fmap_is_Some. apply H1.
  - intros p q [Hne Hl]%lists_remove. rewrite lookup_delete_ne by done. by eapply H2.
  - intros q x [Hne Hq]%lookup_delete_Some. eapply tracks_mono; [by apply H3| |].
    + intros p _ Hl. by rewrite lists_remove.
    + intros p po [_ Hl]%lists_remove ? ? ?. split; [done|]. split; [done|by exists po].
Qed.

(** The set of a producer changes, for one observer, with what the observer has. *)
Lemma watched_relist P prods watch members obs o x x' p os os' : watched P prods watch members obs -> obs !! o = Some x -> watch !! p = Some os ->
  (forall q, q <> o -> q ∈ os' <-> q ∈ os) -> tracks P prods (<[p := os']> watch) o (o_state x') ->
  watched P prods (<[p := os']> watch) members (<[o := x']> obs).
Proof.
  intros [H1 H2 H3] Ho Hw Hos Ht.
  assert (forall q r, q <> o -> lists (<[p := os']> watch) q r <-> lists watch q r) as Hl.
  { intros q r Hne. rewrite lists_insert. split.
    - intros [[-> Hq]|[_ Hq]]; [|done]. exists os. split; [done|]. by apply Hos.
    - intros Hq. destruct (decide (r = p)) as [->|Hr]; [left|by right]. split; [done|]. destruct Hq as (s & Hs & Hq). assert (s = os) as -> by congruence. by apply Hos. }
  split.
  - intros q. rewrite <- H1. destruct (decide (p = q)) as [<-|Hne]; [|by rewrite lookup_insert_ne]. rewrite lookup_insert_eq, Hw. split; intros _; by eexists.
  - intros r q Hq. destruct (decide (o = q)) as [<-|Hne]; [rewrite lookup_insert_eq; by eexists|]. rewrite lookup_insert_ne by done. eapply H2. apply Hl; [done|exact Hq].
  - intros q y Hq. apply lookup_insert_Some in Hq as [[<- <-]|[Hne Hq]]; [done|]. eapply tracks_mono; [by apply H3| |].
    + intros r _ Hr. by rewrite Hl.
    + intros r po Hr%Hl ? ? ?; [|done]. split; [done|]. split; [done|by exists po].
Qed.

End Watched.
