(* ===== verification/RouterInvariant.v ===== *)
(** * The invariant of a router and its objects

    What holds of the state of [Router] between two requests: every object is in the tables of
    its transport and of the router, every table points to objects that exist, the registry has
    exactly the objects.  In the middle of a request some of it does not hold, and [Gap] says
    what.  The tactics run an operation of the router step by step and prove the parts of the
    invariant that it does not touch. *)

From Stdlib Require Import SpecFloat.
From stdpp Require Import gmap.
From S2P Require Import Prelude StateMonad Utils RtpPacket RtpPacketSpec RtpParameters RtpListener Consumer Producer.
From S2P Require Import AudioLevelObserver ActiveSpeakerObserver ActiveSpeakerSpec DataChannel ChannelMessageRegistrator Ownership Router RouterObservers.

Module RouterInvariant.

Import Router.

#[global] Instance Handler_eq_dec : EqDecision Handler.
Proof. solve_decision. Defined.

(** ** The invariant *)

(** The id of the object that a handler is, if it exists. *)
Definition names (w : World) (h : Handler) : option str :=
  match h with
  | HRouter => Some (routerId w)
  | HTransport t => t_id <$> transports w !! t
  | HProducer p => p_id <$> producers w !! p
  | HConsumer c => c_id <$> consumers w !! c
  | HDataProducer p => dp_id <$> dataProducers w !! p
  | HDataConsumer c => dc_id <$> dataConsumers w !! c
  | HObserver o => o_id <$> observers w !! o
  end.

(** The producers that the tables of a listener point to. *)
Definition rtp_targets (l : RtpListener.t) (p : address) : Prop :=
  (exists k, RtpListener.ssrcTable l !! k = Some p) \/ (exists k, RtpListener.midTable l !! k = Some p) \/
  (exists k, RtpListener.ridTable l !! k = Some p).
(** Only a data producer of this type is one. *)
Definition is_sctp (o : DataProducerObject) : Prop := DataProducer.type (dp_state o) = SCTP.
Definition sctp_targets (l : SctpListener.t) (p : address) : Prop := exists k, l !! k = Some p.

(** Transports whose tables are not up to date, producers that are in no table of their
    transport, and producers that are being closed. *)
Record Gap := {
  g_producers : gset address;
  g_consumers : gset address;
  g_dataProducers : gset address;
  g_dataConsumers : gset address;
  g_listeners : gset address;
  g_unlisted : gset address;
  g_dataUnlisted : gset address;
  g_closing : gset address;
  g_dataClosing : gset address;
}.

Definition no_gap : Gap :=
  {| g_producers := ∅; g_consumers := ∅; g_dataProducers := ∅; g_dataConsumers := ∅; g_listeners := ∅; g_unlisted := ∅;
     g_dataUnlisted := ∅; g_closing := ∅; g_dataClosing := ∅ |}.

(** The objects of a map by id are those of the heap. *)
Definition indexed {O} (oid : O -> str) (m : gmap str address) (heap : gmap address O) : Prop :=
  forall k a, m !! k = Some a <-> oid <$> heap !! a = Some k.

Record Inv (g : Gap) (w : World) : Prop := {
  inv_producers : owned p_id p_transport (g_producers g) (g_unlisted g) (t_mapProducers <$> transports w) (producers w);
  inv_consumers : owned c_id c_transport (g_consumers g) ∅ (t_mapConsumers <$> transports w) (consumers w);
  inv_dataProducers : owned dp_id dp_transport (g_dataProducers g) (g_dataUnlisted g) (t_mapDataProducers <$> transports w) (dataProducers w);
  inv_dataConsumers : owned dc_id dc_transport (g_dataConsumers g) ∅ (t_mapDataConsumers <$> transports w) (dataConsumers w);
  inv_ssrcs : keyed c_transport c_mediaSsrcs (g_consumers g) (mapSsrcConsumer <$> transports w) (consumers w);
  inv_rtxSsrcs : keyed c_transport c_rtxSsrcs (g_consumers g) (mapRtxSsrcConsumer <$> transports w) (consumers w);
  inv_rtpListener : listened p_transport (fun _ => True) rtp_targets (g_listeners g) (rtpListener <$> transports w) (producers w);
  inv_sctpListener : listened dp_transport is_sctp sctp_targets (g_listeners g) (sctpListener <$> transports w) (dataProducers w);
  inv_media : routed p_id ∅ (g_closing g) ∅ (mapProducers (router w)) (mapProducerConsumers (router w)) (mapConsumerProducer (router w))
                (producers w) (consumers w);
  inv_data : routed dp_id ∅ (g_dataClosing g) ∅ (mapDataProducers (router w)) (mapDataProducerDataConsumers (router w))
               (mapDataConsumerDataProducer (router w)) (dataProducers w) (dataConsumers w);
  inv_watched : watched (g_closing g) (producers w) (mapProducerRtpObservers (router w)) (mapProducerConsumers (router w)) (observers w);
  inv_transports : indexed t_id (mapTransports (router w)) (transports w);
  inv_observers : indexed o_id (mapRtpObservers (router w)) (observers w);
  inv_registered : registered (registrator w) (names w);
  inv_fresh : forall a, (fresh w <= a)%positive -> transports w !! a = None /\ producers w !! a = None /\ consumers w !! a = None /\
                dataProducers w !! a = None /\ dataConsumers w !! a = None /\ observers w !! a = None;
}.

(** ** Running the operations *)

Abbreviation total m Q w := (post m Q (fun _ => False) w).

Definition with_calls (w : World) (l : list call) : World :=
  mkWorld (routerId w) (router w) (registrator w) (transports w) (producers w) (consumers w) (dataProducers w) (dataConsumers w)
    (observers w) (timers w) (fresh w) l.

Lemma Inv_calls g w l : Inv g w -> Inv g (with_calls w l).
Proof. intros []. by split. Qed.

Section Steps.

Implicit Types (E : fault -> Prop) (w : World).

Lemma post_get_transport t T Q E w : transports w !! t = Some T -> Q T w -> post (get_transport t) Q E w.
Proof. intros H HQ. unfold post, get_transport. by rewrite H. Qed.
Lemma post_get_producer t T Q E w : producers w !! t = Some T -> Q T w -> post (get_producer t) Q E w.
Proof. intros H HQ. unfold post, get_producer. by rewrite H. Qed.
Lemma post_get_consumer t T Q E w : consumers w !! t = Some T -> Q T w -> post (get_consumer t) Q E w.
Proof. intros H HQ. unfold post, get_consumer. by rewrite H. Qed.
Lemma post_get_dataProducer t T Q E w : dataProducers w !! t = Some T -> Q T w -> post (get_dataProducer t) Q E w.
Proof. intros H HQ. unfold post, get_dataProducer. by rewrite H. Qed.
Lemma post_get_dataConsumer t T Q E w : dataConsumers w !! t = Some T -> Q T w -> post (get_dataConsumer t) Q E w.
Proof. intros H HQ. unfold post, get_dataConsumer. by rewrite H. Qed.
Lemma post_get_observer t T Q E w : observers w !! t = Some T -> Q T w -> post (get_observer t) Q E w.
Proof. intros H HQ. unfold post, get_observer. by rewrite H. Qed.

Lemma post_on_transport t f T Q E w : transports w !! t = Some T ->
  Q tt (mkWorld (routerId w) (router w) (registrator w) (<[t := f T]> (transports w)) (producers w) (consumers w) (dataProducers w)
          (dataConsumers w) (observers w) (timers w) (fresh w) (calls w)) ->
  post (on_transport t f) Q E w.
Proof. intros H HQ. unfold on_transport. apply post_bind. eapply post_get_transport; [exact H|]. by apply post_change. Qed.

Lemma post_log c Q E w : Q tt (with_calls w (calls w ++ [c])) -> post (log c) Q E w.
Proof. done. Qed.

Lemma post_logs {A} (f : A -> call) l Q E w : (forall l', Q tt (with_calls w l')) -> post (for_each (fun x => log (f x)) l) Q E w.
Proof.
  intros HQ. eapply post_mono; [apply (post_for_each (fun x => log (f x)) (fun w' => exists l', w' = with_calls w l') E l)|].
  - intros x w' _ [l' ->]. apply post_log. by eexists.
  - exists (calls w). by destruct w.
  - intros [] w' [l' ->]. apply HQ.
Qed.

(** A loop whose invariant follows what is left. *)
Lemma post_for_each_left {A} (f : A -> R unit) (I : list A -> World -> Prop) E l :
  (forall x l w, I (x :: l) w -> post (f x) (fun _ => I l) E w) -> forall w, I l w -> post (for_each f l) (fun _ => I []) E w.
Proof.
  intros Hf. induction l as [|x l IH]; intros w Hw; cbn [for_each]; [exact Hw|]. apply post_bind. eapply post_mono; [by apply Hf|]. intros [] w'. apply IH.
Qed.

End Steps.

(** A table of a transport whose other tables change. *)
Lemma fmap_same {O A} (f : O -> A) (m : gmap address O) t o o' : m !! t = Some o -> f o' = f o -> f <$> <[t := o']> m = f <$> m.
Proof. intros H1 H2. rewrite fmap_insert, H2. apply insert_id. by rewrite lookup_fmap, H1. Qed.

Lemma fmap_at {O A} (f : O -> A) (m : gmap address O) t o : m !! t = Some o -> (f <$> m) !! t = Some (f o).
Proof. intros H. by rewrite lookup_fmap, H. Qed.


Lemma lookup_same {O A} (f : O -> A) (m : gmap address O) t o o' a : m !! t = Some o -> f o' = f o -> f <$> <[t := o']> m !! a = f <$> m !! a.
Proof. intros H1 H2. rewrite <- !lookup_fmap. by rewrite (fmap_same f m t o o'). Qed.

Lemma lookup_named_delete {O} (f : O -> str) (m : gmap address O) a b :
  f <$> delete a m !! b = if decide (b = a) then None else f <$> m !! b.
Proof. destruct (decide (b = a)) as [->|Hne]; [by rewrite lookup_delete_eq|by rewrite lookup_delete_ne]. Qed.

Lemma lookup_named_insert {O} (f : O -> str) (m : gmap address O) a o b :
  f <$> <[a := o]> m !! b = if decide (b = a) then Some (f o) else f <$> m !! b.
Proof. destruct (decide (b = a)) as [->|Hne]; [by rewrite lookup_insert_eq|by rewrite lookup_insert_ne]. Qed.

Lemma decide_handler {A} (f : address -> Handler) (a b : address) (x y : A) : (forall a b, f a = f b -> a = b) ->
  (if decide (f a = f b) then x else y) = (if decide (a = b) then x else y).
Proof. intros Hf. destruct (decide (a = b)) as [->|Hne]; [by rewrite decide_True|]. rewrite decide_False; [done|]. intros ?%Hf. done. Qed.

(** The names after the change of one object. *)
Ltac names_tac :=
  let h := fresh "h" in
  intros h; unfold named, names; cbn [with_calls routerId transports producers consumers dataProducers dataConsumers observers];
  destruct h;
  rewrite ?(decide_handler HTransport), ?(decide_handler HProducer), ?(decide_handler HConsumer), ?(decide_handler HDataProducer),
    ?(decide_handler HDataConsumer), ?(decide_handler HObserver) by congruence;
  repeat (erewrite lookup_same; [|eassumption|reflexivity || eassumption]);
  rewrite ?lookup_named_delete, ?lookup_named_insert; try (rewrite decide_False by congruence); try done.

Ltac wcbn := cbn [with_calls routerId router registrator transports producers consumers dataProducers dataConsumers observers timers fresh calls
  r_transports r_observers r_producers r_consumers r_dataProducers r_dataConsumers mapTransports mapRtpObservers mapProducerConsumers
  mapConsumerProducer mapProducerRtpObservers mapProducers mapDataProducerDataConsumers mapDataConsumerDataProducer mapDataProducers id
  with_producers with_consumers with_dataProducers with_dataConsumers with_listeners with_state t_id t_mapProducers t_mapConsumers
  t_mapDataProducers t_mapDataConsumers mapSsrcConsumer mapRtxSsrcConsumer rtpListener sctpListener t_state
  c_id c_transport c_mediaSsrcs c_rtxSsrcs p_id p_transport p_paused dp_id dp_transport dc_id dc_transport o_id o_state] in *.

(** One step of an operation, with the lookups it needs among the hypotheses. *)
Ltac step := wcbn;
  match goal with
  | |- post (mbind _ _) _ _ _ => apply post_bind
  | |- post (mret _) _ _ _ => apply post_ret
  | |- post (asks _) _ _ _ => apply post_asks
  | |- post (log _) _ _ _ => apply post_log
  | |- post (change _) _ _ _ => apply post_change
  | |- post (set_router _) _ _ _ => apply post_change
  | |- post (set_registrator _) _ _ _ => apply post_change
  | |- post (unregister _) _ _ _ => apply post_change
  | |- post (set_transports _) _ _ _ => apply post_change
  | |- post (set_producers _) _ _ _ => apply post_change
  | |- post (set_consumers _) _ _ _ => apply post_change
  | |- post (set_dataProducers _) _ _ _ => apply post_change
  | |- post (set_dataConsumers _) _ _ _ => apply post_change
  | |- post (set_observers _) _ _ _ => apply post_change
  | |- post (set_timers _) _ _ _ => apply post_change
  | |- post (for_each (fun _ => log _) _) _ _ _ => apply post_logs; intros ?
  | |- post (get_transport _) _ _ _ => eapply post_get_transport; [eassumption || apply lookup_insert_eq|]
  | |- post (get_producer _) _ _ _ => eapply post_get_producer; [eassumption || apply lookup_insert_eq|]
  | |- post (get_consumer _) _ _ _ => eapply post_get_consumer; [eassumption || apply lookup_insert_eq|]
  | |- post (get_dataProducer _) _ _ _ => eapply post_get_dataProducer; [eassumption || apply lookup_insert_eq|]
  | |- post (get_dataConsumer _) _ _ _ => eapply post_get_dataConsumer; [eassumption || apply lookup_insert_eq|]
  | |- post (get_observer _) _ _ _ => eapply post_get_observer; [eassumption || apply lookup_insert_eq|]
  | |- post (on_transport _ _) _ _ _ => eapply post_on_transport; [eassumption || apply lookup_insert_eq|]
  | |- post (delete_producer _) _ _ _ => unfold delete_producer
  | |- post (delete_consumer _) _ _ _ => unfold delete_consumer
  | |- post (delete_dataProducer _) _ _ _ => unfold delete_dataProducer
  | |- post (delete_dataConsumer _) _ _ _ => unfold delete_dataConsumer
  | |- post (delete_observer _) _ _ _ => unfold delete_observer
  | |- post (from_res (ms_assert (bool_decide ?P))) _ _ _ => apply post_from_res; rewrite (bool_decide_eq_true_2 P); [cbn|]
  | |- post (from_res (match ?x with Some _ => _ | None => _ end)) _ _ _ =>
      match goal with H : x = Some _ |- _ => rewrite H; apply post_from_res end
  | |- post (only ?b _) _ _ _ => destruct b; cbn [only]
  end; wcbn.

Lemma indexed_same {O} (oid : O -> str) m (heap : gmap address O) t o o' : indexed oid m heap -> heap !! t = Some o -> oid o' = oid o ->
  indexed oid m (<[t := o']> heap).
Proof. intros H H1 H2 k a. by rewrite (lookup_same oid heap t o o'). Qed.

Lemma indexed_delete {O} (oid : O -> str) m (heap : gmap address O) a o : indexed oid m heap -> heap !! a = Some o ->
  indexed oid (delete (oid o) m) (delete a heap).
Proof.
  intros H Ha k b. rewrite lookup_delete_Some, (H k b). destruct (decide (a = b)) as [<-|Hne].
  - rewrite lookup_delete_eq, Ha. cbn. split; [intros [? [= ?]]; done|done].
  - rewrite lookup_delete_ne by done. split; [by intros [_ ?]|]. intros Hk. split; [|done]. intros Ho. subst k.
    assert (m !! oid o = Some a) as E1 by (apply H; by rewrite Ha). apply H in Hk. congruence.
Qed.

Lemma indexed_insert {O} (oid : O -> str) m (heap : gmap address O) a o : indexed oid m heap -> heap !! a = None -> m !! oid o = None ->
  indexed oid (<[oid o := a]> m) (<[a := o]> heap).
Proof.
  intros H Ha Hm k b. destruct (decide (a = b)) as [<-|Hne].
  - rewrite lookup_insert_eq. cbn. split; [|intros [= <-]; by rewrite lookup_insert_eq].
    intros [[<- _]|[_ Hk]]%lookup_insert_Some; [done|]. apply H in Hk. by rewrite Ha in Hk.
  - rewrite (lookup_insert_ne heap) by done. rewrite <- (H k b), lookup_insert_Some. split; [by intros [[_ ?]|[_ ?]]|]. intros Hk. right. split; [congruence|done].
Qed.

Lemma insert_absent {O} (m : gmap address O) t o o' a : m !! t = Some o -> m !! a = None -> <[t := o']> m !! a = None.
Proof. intros H1 H2. rewrite lookup_insert_ne; [done|congruence]. Qed.

Lemma delete_absent {O} (m : gmap address O) t a : m !! a = None -> delete t m !! a = None.
Proof. intros H. by apply lookup_delete_None; right. Qed.

Create HintDb absent.
#[export] Hint Resolve insert_absent delete_absent : absent.

(** The parts of the invariant that a change does not touch. *)
Ltac inv_split Hi :=
  destruct Hi as [Hip Hic Hidp Hidc Hiss Hirx Hirl Hisl Hime Hida Hiwa Hitr Hiob Hire Hifr]; split; wcbn;
  try assumption; try (erewrite !fmap_same by (eassumption || reflexivity); assumption);
  try (eapply indexed_same; [eassumption|eassumption|reflexivity]);
  try (let a := fresh "a" in let Ha := fresh "Ha" in intros a Ha; destruct (Hifr a Ha) as (? & ? & ? & ? & ? & ?);
       split_and!; eauto with absent; fail);
  try (solve [eapply registered_ext; [exact Hire|names_tac]]).

(** The owner of an object exists. *)
Lemma owner_exists {O} (oid : O -> str) (owner : O -> address) (E Z : gset address) (f : TransportObject -> gmap str address) w (heap : gmap address O) a o :
  owned oid owner E Z (f <$> transports w) heap -> heap !! a = Some o ->
  exists T, transports w !! owner o = Some T /\ (owner o ∉ E -> (f T !! oid o = Some a <-> a ∉ Z)).
Proof.
  intros Hi Ha. destruct (owned_listed _ _ _ _ _ _ Hi a o Ha) as (T0 & HT & Hl). rewrite lookup_fmap in HT.
  destruct (transports w !! owner o) as [T|]; [|done]. injection HT as <-. by exists T.
Qed.

(** The entry of a table leads to an object of the transport. *)
Lemma entry {O} (oid : O -> str) (owner : O -> address) (Z : gset address) (f : TransportObject -> gmap str address) w (heap : gmap address O) t T k a :
  owned oid owner ∅ Z (f <$> transports w) heap -> transports w !! t = Some T -> f T !! k = Some a ->
  exists o, heap !! a = Some o /\ oid o = k /\ owner o = t.
Proof. intros Hi HT Hk. eapply (owned_entry _ _ _ _ _ _ Hi t (f T) k a); [by apply fmap_at|set_solver|done]. Qed.

End RouterInvariant.
