(* ===== verification/RouterClosing.v ===== *)
(** * Closing the objects of a router

    Producers, consumers, data producers and data consumers are closed without a fault, whatever
    is connected to them, and the invariant of [RouterInvariant] is kept up to the tables of the
    transport that closes them. *)

From Stdlib Require Import SpecFloat.
From stdpp Require Import gmap.
From S2P Require Import Prelude StateMonad RtpListener ActiveSpeakerObserver ActiveSpeakerSpec AudioLevelObserver DataChannel.
From S2P Require Import ChannelMessageRegistrator Ownership Router RouterObservers RouterInvariant.

Module RouterClosing.

Import Router RouterInvariant.

(** ** Closing *)

(** What the transport of a consumer does with its tables: it erases the consumer, unless it is
    closed itself. *)
Definition erased (E : gset address) (o : ConsumerObject) (f : TransportObject -> TransportObject) : Prop :=
  f = with_consumers (delete (c_id o)) (erase_all (c_mediaSsrcs o)) (erase_all (c_rtxSsrcs o)) /\ c_transport o ∉ E \/
  f = (fun T => T) /\ c_transport o ∈ E.

Lemma Inv_consumer_gone g w c o p T cs members f tm l : Inv g w -> consumers w !! c = Some o -> transports w !! c_transport o = Some T ->
  mapConsumerProducer (router w) !! c = Some p -> mapProducerConsumers (router w) !! p = Some cs ->
  members = cs ∖ {[c]} \/ members = cs /\ p ∈ g_closing g -> erased (g_consumers g) o f ->
  Inv g (mkWorld (routerId w) (r_consumers (<[p := members]>) (delete c) (router w))
           (ChannelMessageRegistrator.UnregisterHandler (registrator w) (c_id o)) (<[c_transport o := f T]> (transports w)) (producers w)
           (delete c (consumers w)) (dataProducers w) (dataConsumers w) (observers w) tm (fresh w) l).
Proof.
  intros Hi Hc HT Hp Hcs Hm Hf.
  assert (t_mapProducers (f T) = t_mapProducers T /\ t_mapDataProducers (f T) = t_mapDataProducers T /\ t_mapDataConsumers (f T) = t_mapDataConsumers T /\
    rtpListener (f T) = rtpListener T /\ sctpListener (f T) = sctpListener T /\ t_id (f T) = t_id T) as (F1 & F2 & F3 & F4 & F5 & F6)
    by (by destruct Hf as [[-> _]|[-> _]]).
  destruct (owner_exists _ _ _ _ _ _ _ _ _ (inv_consumers g w Hi) Hc) as (T' & HT' & Hl). assert (T' = T) as -> by congruence.
  inv_split Hi; try (erewrite fmap_same by eassumption; assumption).
  - destruct Hf as [[-> Ho]|[-> Ho]].
    + rewrite fmap_insert. cbn. replace ∅ with (({[c]} ∪ ∅) ∖ {[c]} : gset address) by set_solver.
      eapply owned_delete; [|exact Hc|set_solver]. eapply owned_unlist; [done|done|by apply fmap_at|by apply Hl].
    + rewrite insert_id by done. replace ∅ with (∅ ∖ {[c]} : gset address) by set_solver. eapply owned_delete; [done|exact Hc|by right].
  - destruct Hf as [[-> Ho]|[-> Ho]].
    + rewrite fmap_insert. eapply keyed_delete; [done|done|by apply fmap_at].
    + rewrite insert_id by done. by eapply keyed_delete_exempt.
  - destruct Hf as [[-> Ho]|[-> Ho]].
    + rewrite fmap_insert. eapply keyed_delete; [done|done|by apply fmap_at].
    + rewrite insert_id by done. by eapply keyed_delete_exempt.
  - replace ∅ with (({[c]} ∪ ∅) ∖ {[c]} : gset address) at 2 by set_solver. apply routed_delete_member; [|set_solver]. by eapply routed_unroute_member.
  - eapply watched_members; [done|]. intros q. destruct (decide (p = q)) as [<-|Hne]; [|by rewrite lookup_insert_ne].
    rewrite lookup_insert_eq, Hcs. split; intros _; by eexists.
  - by eapply indexed_same.
  - eapply registered_ext; [apply (registered_unregister _ _ _ (HConsumer c) Hire); cbn; by rewrite Hc|]. names_tac.
Qed.

Lemma r_consumers_same p cs f s : mapProducerConsumers s !! p = Some cs -> r_consumers id f s = r_consumers (<[p := cs]>) f s.
Proof. intros H. unfold r_consumers. cbn. by rewrite insert_id. Qed.

Lemma r_dataConsumers_same p cs f s : mapDataProducerDataConsumers s !! p = Some cs -> r_dataConsumers id f s = r_dataConsumers (<[p := cs]>) f s.
Proof. intros H. unfold r_dataConsumers. cbn. by rewrite insert_id. Qed.

Lemma Inv_dataConsumer_gone g w c o p T cs members f tm l : Inv g w -> dataConsumers w !! c = Some o -> transports w !! dc_transport o = Some T ->
  mapDataConsumerDataProducer (router w) !! c = Some p -> mapDataProducerDataConsumers (router w) !! p = Some cs ->
  members = cs ∖ {[c]} \/ members = cs /\ p ∈ g_dataClosing g ->
  f = with_dataConsumers (delete (dc_id o)) /\ dc_transport o ∉ g_dataConsumers g \/ f = (fun T => T) /\ dc_transport o ∈ g_dataConsumers g ->
  Inv g (mkWorld (routerId w) (r_dataConsumers (<[p := members]>) (delete c) (router w))
           (ChannelMessageRegistrator.UnregisterHandler (registrator w) (dc_id o)) (<[dc_transport o := f T]> (transports w)) (producers w)
           (consumers w) (dataProducers w) (delete c (dataConsumers w)) (observers w) tm (fresh w) l).
Proof.
  intros Hi Hc HT Hp Hcs Hm Hf.
  assert (t_mapProducers (f T) = t_mapProducers T /\ t_mapDataProducers (f T) = t_mapDataProducers T /\ t_mapConsumers (f T) = t_mapConsumers T /\
    rtpListener (f T) = rtpListener T /\ sctpListener (f T) = sctpListener T /\ t_id (f T) = t_id T /\ mapSsrcConsumer (f T) = mapSsrcConsumer T /\
    mapRtxSsrcConsumer (f T) = mapRtxSsrcConsumer T) as (F1 & F2 & F3 & F4 & F5 & F6 & F7 & F8) by (by destruct Hf as [[-> _]|[-> _]]).
  destruct (owner_exists _ _ _ _ _ _ _ _ _ (inv_dataConsumers g w Hi) Hc) as (T' & HT' & Hl). assert (T' = T) as -> by congruence.
  inv_split Hi; try (erewrite fmap_same by eassumption; assumption).
  - destruct Hf as [[-> Ho]|[-> Ho]].
    + rewrite fmap_insert. cbn. replace ∅ with (({[c]} ∪ ∅) ∖ {[c]} : gset address) by set_solver.
      eapply owned_delete; [|exact Hc|set_solver]. eapply owned_unlist; [done|done|by apply fmap_at|by apply Hl].
    + rewrite insert_id by done. replace ∅ with (∅ ∖ {[c]} : gset address) by set_solver. eapply owned_delete; [done|exact Hc|by right].
  - replace ∅ with (({[c]} ∪ ∅) ∖ {[c]} : gset address) at 2 by set_solver. apply routed_delete_member; [|set_solver]. by eapply routed_unroute_member.
  - by eapply indexed_same.
  - eapply registered_ext; [apply (registered_unregister _ _ _ (HDataConsumer c) Hire); cbn; by rewrite Hc|]. names_tac.
Qed.

Section Closing.

Context (ln : spec_float -> spec_float) (env : Env).

(** [std::unordered_map] and its like are walked once over each entry. *)
Definition env_ok : Prop := (forall X, walk env X ≡ₚ elements X) /\ (forall X, walk_ids env X ≡ₚ elements X).

Lemma ConsumerProducerClosed_ok g w c o p : Inv g w -> g_consumers g = ∅ -> consumers w !! c = Some o ->
  mapConsumerProducer (router w) !! c = Some p -> p ∈ g_closing g ->
  total (ConsumerProducerClosed c) (fun _ w' => Inv g w' /\ producers w' = producers w /\ dataProducers w' = dataProducers w /\
    dataConsumers w' = dataConsumers w /\ consumers w' = delete c (consumers w) /\ dom (transports w') = dom (transports w) /\
    rtpListener <$> transports w' = rtpListener <$> transports w /\ router w' = r_consumers id (delete c) (router w)) w.
Proof.
  intros Hi Hg Hc Hp Hcl. destruct (owner_exists _ _ _ _ _ _ _ _ _ (inv_consumers g w Hi) Hc) as (T & HT & Hl).
  destruct (routed_source _ _ _ _ _ _ _ _ _ (inv_media g w Hi) c p Hp) as (cs & Hcs & Hin).
  unfold ConsumerProducerClosed, OnConsumerProducerClosed, OnTransportConsumerProducerClosed. repeat step; [| |by eexists].
  all: split; [|split_and!; try done; [apply dom_insert_lookup_L; by eexists|by eapply fmap_same]].
  all: rewrite (r_consumers_same p cs) by done.
  all: eapply (Inv_consumer_gone g w c o p T cs cs); [done..|by right|left; split; [done|by rewrite Hg; set_solver]].
Qed.

(** A data consumer with another state. *)
Definition put_dataConsumer (w : World) (c : address) (o : DataConsumerObject) (s : DataConsumer.State) (l : list call) : World :=
  mkWorld (routerId w) (router w) (registrator w) (transports w) (producers w) (consumers w) (dataProducers w)
    (<[c := {| dc_id := dc_id o; dc_transport := dc_transport o; dc_state := s |}]> (dataConsumers w)) (observers w) (timers w) (fresh w) l.

Lemma Inv_put_dataConsumer g w c o s l : Inv g w -> dataConsumers w !! c = Some o -> Inv g (put_dataConsumer w c o s l).
Proof.
  intros Hi Hc. unfold put_dataConsumer. inv_split Hi.
  - by eapply owned_update.
  - eapply routed_update_member; [done|by eexists].
Qed.

Lemma on_dataConsumer_ok c f o Q E w : dataConsumers w !! c = Some o -> (forall l, Q tt (put_dataConsumer w c o (f (dc_state o)).1 l)) ->
  post (on_dataConsumer c f) Q E w.
Proof.
  intros Hc HQ. unfold on_dataConsumer. step. step. destruct (f (dc_state o)) as [s evs] eqn:Ef. do 3 step. apply HQ.
Qed.

Lemma OnDataConsumerDataProducerClosed_ok g w c o p : Inv g w -> g_dataConsumers g = ∅ -> dataConsumers w !! c = Some o ->
  mapDataConsumerDataProducer (router w) !! c = Some p -> p ∈ g_dataClosing g ->
  total (OnDataConsumerDataProducerClosed (dc_transport o) c) (fun _ w' => Inv g w' /\ producers w' = producers w /\ dataProducers w' = dataProducers w /\
    consumers w' = consumers w /\ dataConsumers w' = delete c (dataConsumers w) /\ dom (transports w') = dom (transports w) /\
    sctpListener <$> transports w' = sctpListener <$> transports w /\ router w' = r_dataConsumers id (delete c) (router w)) w.
Proof.
  intros Hi Hg Hc Hp Hcl. destruct (owner_exists _ _ _ _ _ _ _ _ _ (inv_dataConsumers g w Hi) Hc) as (T & HT & Hl).
  destruct (routed_source _ _ _ _ _ _ _ _ _ (inv_data g w Hi) c p Hp) as (cs & Hcs & Hin).
  unfold OnDataConsumerDataProducerClosed, OnTransportDataConsumerDataProducerClosed. repeat step; [| |by eexists].
  all: split; [|split_and!; try done; [apply dom_insert_lookup_L; by eexists|by eapply fmap_same]].
  all: rewrite (r_dataConsumers_same p cs) by done.
  all: eapply (Inv_dataConsumer_gone g w c o p T cs cs); [done..|by right|left; split; [done|by rewrite Hg; set_solver]].
Qed.

Lemma DataConsumerDataProducerClosed_ok g w c o p : Inv g w -> g_dataConsumers g = ∅ -> dataConsumers w !! c = Some o ->
  mapDataConsumerDataProducer (router w) !! c = Some p -> p ∈ g_dataClosing g ->
  total (DataConsumerDataProducerClosed c) (fun _ w' => Inv g w' /\ producers w' = producers w /\ dataProducers w' = dataProducers w /\
    consumers w' = consumers w /\ dataConsumers w' = delete c (dataConsumers w) /\ dom (transports w') = dom (transports w) /\
    sctpListener <$> transports w' = sctpListener <$> transports w /\ router w' = r_dataConsumers id (delete c) (router w)) w.
Proof.
  intros Hi Hg Hc Hp Hcl. unfold DataConsumerDataProducerClosed. do 3 step. eapply on_dataConsumer_ok; [exact Hc|]. intros l.
  eapply post_mono; [eapply (OnDataConsumerDataProducerClosed_ok g _ c {| dc_id := dc_id o; dc_transport := dc_transport o; dc_state := _ |} p)|].
  - by apply Inv_put_dataConsumer.
  - done.
  - apply lookup_insert_eq.
  - done.
  - done.
  - cbn. intros _ w'. by rewrite delete_insert_eq.
Qed.

(** *** Observers *)

(** An observer with another state. *)
Definition put_observer (w : World) (o : address) (x : ObserverObject) (b : Observer) (l : list call) : World :=
  mkWorld (routerId w) (router w) (registrator w) (transports w) (producers w) (consumers w) (dataProducers w) (dataConsumers w)
    (<[o := {| o_id := o_id x; o_state := b |}]> (observers w)) (timers w) (fresh w) l.

Lemma Inv_put_observer g w o x b l : Inv g w -> observers w !! o = Some x ->
  tracks (g_closing g) (producers w) (mapProducerRtpObservers (router w)) o b -> Inv g (put_observer w o x b l).
Proof.
  intros Hi Ho Ht. unfold put_observer. inv_split Hi.
  - by eapply watched_update.
Qed.

(** The producers of the speakers of an observer are alive. *)
Lemma speakers_alive P prods watch o s : tracks P prods watch o (ActiveSpeaker s) ->
  ActiveSpeakerSpec.alive (p_id <$> prods) (ActiveSpeakerObserver.mapProducerSpeakers s).
Proof.
  intros [_ H] k ps E. rewrite lookup_fmap. destruct (H k (ActiveSpeakerObserver.sp_producer ps)) as [_ ->]; [|done].
  unfold ActiveSpeakerSpec.watches. by rewrite lookup_fmap, E.
Qed.

Lemma ObserverRemoveProducer_ok g w o x p po : Inv g w -> env_ok -> observers w !! o = Some x -> producers w !! p = Some po ->
  total (ObserverRemoveProducer ln env o p) (fun _ w' => exists b l, w' = put_observer w o x b l /\ ~ tracked b p /\
    (forall q, tracked b q -> tracked (o_state x) q) /\
    tracks ({[p]} ∪ g_closing g) (producers w) (mapProducerRtpObservers (router w)) o b) w.
Proof.
  intros Hi [_ Hw] Ho Hp. pose proof (watched_by _ _ _ _ _ (inv_watched g w Hi) o x Ho) as Ht. unfold ObserverRemoveProducer. do 2 step.
  destruct (o_state x) as [s|s] eqn:Es.
  - unfold store_observer. step. eexists (AudioLevel _), (calls w). split; [done|]. cbn in Ht |- *. destruct Ht as [H1 H2]. split_and!.
    + rewrite lookup_delete_eq. by intros [? ?].
    + intros q [y [_ Hq]%lookup_delete_Some]. by eexists.
    + intros q [y [_ Hq]%lookup_delete_Some]. apply H1. by eexists.
    + intros q qo Hl Hq Hn Hpa. rewrite lookup_delete_ne by set_solver. eapply H2; eauto. set_solver.
  - do 4 step. pose proof (speakers_alive _ _ _ _ _ Ht) as Ha. destruct Ht as [Hinv Hk].
    set (order := walk_ids env (dom (delete (p_id po) (ActiveSpeakerObserver.mapProducerSpeakers s)))).
    destruct (ActiveSpeakerSpec.exec_ok ln (ActiveSpeakerSpec.Remove (p_id po) order (producer_ids w) (nowMs env)) s Hinv) as (s' & evs & E & Hinv' & _ & Hwa).
    { split; [by apply map_Forall_delete|apply Hw]. }
    cbn [ActiveSpeakerSpec.exec] in E. step. apply post_from_res. rewrite E. cbn -[put_observer]. unfold store_observer. do 2 step. step.
    eexists (ActiveSpeaker s'), _. split; [done|]. cbn [tracked tracks ActiveSpeakerSpec.watches_after] in *. rewrite Hwa. split_and!.
    + intros [k [Hne Hk']%lookup_delete_Some]. destruct (Hk k p Hk') as [_ E1]. rewrite Hp in E1. by injection E1 as E1.
    + intros q [k [_ ?]%lookup_delete_Some]. by exists k.
    + done.
    + intros k q [_ Hk']%lookup_delete_Some. by apply Hk.
Qed.

(** *** Producers *)

Definition closing_too (g : Gap) (p : address) : Gap :=
  {| g_producers := g_producers g; g_consumers := g_consumers g; g_dataProducers := g_dataProducers g; g_dataConsumers := g_dataConsumers g;
     g_listeners := g_listeners g; g_unlisted := g_unlisted g; g_dataUnlisted := g_dataUnlisted g; g_closing := {[p]} ∪ g_closing g;
     g_dataClosing := g_dataClosing g |}.

(** The producer [p] is gone. *)
Definition gone_from (g : Gap) (p : address) : Gap :=
  {| g_producers := g_producers g; g_consumers := g_consumers g; g_dataProducers := g_dataProducers g; g_dataConsumers := g_dataConsumers g;
     g_listeners := g_listeners g; g_unlisted := g_unlisted g ∖ {[p]}; g_dataUnlisted := g_dataUnlisted g; g_closing := g_closing g ∖ {[p]};
     g_dataClosing := g_dataClosing g |}.

Lemma Inv_closing g w p : Inv g w -> Inv (closing_too g p) w.
Proof. intros Hi. inv_split Hi; [by apply routed_closing|]. eapply watched_exempt; [done|]. set_solver. Qed.

(** What closing the consumers of [p] leaves. *)
Record consumers_closed (p : address) (l : list address) (w w' : World) : Prop := {
  cc_producers : producers w' = producers w;
  cc_dataProducers : dataProducers w' = dataProducers w;
  cc_dataConsumers : dataConsumers w' = dataConsumers w;
  cc_consumers : consumers w' ⊆ consumers w;
  cc_transports : dom (transports w') = dom (transports w);
  cc_rtpListener : rtpListener <$> transports w' = rtpListener <$> transports w;
  cc_router : exists f, router w' = r_consumers id f (router w);
  cc_left : forall c, mapConsumerProducer (router w') !! c = Some p <-> c ∈ l;
}.

Lemma close_consumers_ok g w p l : Inv g w -> g_consumers g = ∅ -> p ∈ g_closing g -> NoDup l ->
  (forall c, mapConsumerProducer (router w) !! c = Some p <-> c ∈ l) ->
  total (for_each ConsumerProducerClosed l) (fun _ w' => Inv g w' /\ consumers_closed p [] w w') w.
Proof.
  intros Hi Hg Hp Hn Hl.
  eapply post_mono; [apply (post_for_each_left _ (fun l w' => NoDup l /\ Inv g w' /\ consumers_closed p l w w'))|by intros ? ? (_ & ? & ?)].
  2: { split; [done|]. split; [done|]. split; try done. exists id. by destruct (router w). }
  clear Hi Hn Hl l. intros c l w1 (Hn & Hi & [H1 H2 H3 H4 H5 H6 [f H7] H8]). apply NoDup_cons in Hn as [Hc Hn].
  assert (mapConsumerProducer (router w1) !! c = Some p) as Hs by (apply H8; by left).
  destruct (proj1 (routed_mem _ _ _ _ _ _ _ _ _ (inv_media g w1 Hi) c)) as [[o Ho] _]; [by eexists|].
  eapply post_mono; [by eapply (ConsumerProducerClosed_ok g w1 c o p)|]. cbn. intros _ w2 (Hi2 & G1 & G2 & G3 & G4 & G5 & G6 & G7).
  split; [done|]. split; [done|]. split; try congruence.
  - rewrite G4. etransitivity; [apply delete_subseteq|done].
  - exists (fun m => delete c (f m)). rewrite G7, H7. done.
  - intros d. rewrite G7. cbn. rewrite lookup_delete_Some, H8, elem_of_cons. split; [intros [? [?|?]]; [congruence|done]|]. intros Hd. split; [by intros ->|by right].
Qed.

(** What removing [p] from the observers leaves. *)
Definition observers_only (w w' : World) : Prop := exists obs l,
  w' = mkWorld (routerId w) (router w) (registrator w) (transports w) (producers w) (consumers w) (dataProducers w) (dataConsumers w) obs
         (timers w) (fresh w) l.

Lemma leave_observers_ok g w p po os : Inv g w -> env_ok -> p ∈ g_closing g -> producers w !! p = Some po ->
  mapProducerRtpObservers (router w) !! p = Some os ->
  total (for_each (fun o => ObserverRemoveProducer ln env o p) (walk env os)) (fun _ w' => Inv g w' /\ observers_only w w' /\
    (forall o x, observers w' !! o = Some x -> ~ tracked (o_state x) p)) w.
Proof.
  intros Hi He Hcl Hp Hos.
  eapply post_mono; [apply (post_for_each_left _ (fun l w' => Inv g w' /\ observers_only w w' /\ (forall o, o ∈ l -> o ∈ os) /\
    forall o x, observers w' !! o = Some x -> tracked (o_state x) p -> o ∈ l))|].
  3: { intros _ w' (H1 & H2 & _ & H3). split; [done|]. split; [done|]. intros o x Ho Ht. by apply (H3 o x Ho) in Ht as ?%elem_of_nil. }
  2: { split; [done|]. split; [exists (observers w), (calls w); by destruct w|]. split; [intros o; by rewrite (proj1 He), elem_of_elements|].
       intros o x Ho Ht. rewrite (proj1 He), elem_of_elements. destruct (lists_tracked _ _ _ _ _ p (watched_by _ _ _ _ _ (inv_watched g w Hi) o x Ho) Ht) as (os' & ? & ?).
       assert (os' = os) as -> by congruence. done. }
  intros o l w1 (Hi1 & (obs & cl & ->) & Hin & Htr). wcbn.
  destruct (watched_alive _ _ _ _ _ (inv_watched g _ Hi1) p o) as [x Hx]; [exists os; split; [done|apply Hin; by left]|]. wcbn.
  eapply post_mono; [by eapply (ObserverRemoveProducer_ok g _ o x p po)|]. cbn beta. intros _ w2 (b & l2 & -> & Hn & Hsub & Ht). wcbn.
  assert ({[p]} ∪ g_closing g = g_closing g) as Hg by set_solver. rewrite Hg in Ht.
  split; [by apply Inv_put_observer|]. split; [by eexists _, _|]. split; [intros q Hq; apply Hin; by right|].
  intros q y Hq Htq. cbn in Hq. apply lookup_insert_Some in Hq as [[<- <-]|[Hne Hq]]; [done|].
  pose proof (Htr q y Hq Htq) as Hql. apply elem_of_cons in Hql as [->|?]; done.
Qed.

Lemma Inv_producer_gone g w p o tm l : Inv g w -> producers w !! p = Some o -> p ∈ g_unlisted g \/ p_transport o ∈ g_producers g ->
  p_transport o ∈ g_listeners g \/ (forall T, transports w !! p_transport o = Some T -> ~ rtp_targets (rtpListener T) p) ->
  (forall c, mapConsumerProducer (router w) !! c <> Some p) -> (forall o x, observers w !! o = Some x -> ~ tracked (o_state x) p) ->
  Inv (gone_from g p) (mkWorld (routerId w) (r_producers (delete (p_id o)) (delete p) (delete p) (router w))
           (ChannelMessageRegistrator.UnregisterHandler (registrator w) (p_id o)) (transports w) (delete p (producers w))
           (consumers w) (dataProducers w) (dataConsumers w) (observers w) tm (fresh w) l).
Proof.
  intros Hi Hp Hu Hl Hc Ho. inv_split Hi; unfold gone_from; cbn.
  - by eapply owned_delete.
  - eapply listened_delete_exempt; [done|exact Hp|]. destruct Hl as [?|Hl]; [by left|right]. intros _ k. rewrite lookup_fmap.
    destruct (transports w !! p_transport o) as [T|] eqn:ET; [|done]. intros [= <-]. by apply Hl.
  - replace ∅ with (({[p]} ∪ ∅) ∖ {[p]} : gset address) at 1 by set_solver. apply routed_delete_source; [|set_solver].
    by eapply routed_unroute_source.
  - apply watched_delete_producer; [|apply lookup_delete_eq]. by apply watched_unroute.
  - eapply registered_ext; [apply (registered_unregister _ _ _ (HProducer p) Hire); cbn; by rewrite Hp|]. names_tac.
Qed.

(** What a closed producer leaves. *)
Record producer_closed (p : address) (w w' : World) : Prop := {
  pc_producers : producers w' = delete p (producers w);
  pc_dataProducers : dataProducers w' = dataProducers w;
  pc_dataConsumers : dataConsumers w' = dataConsumers w;
  pc_consumers : consumers w' ⊆ consumers w;
  pc_transports : dom (transports w') = dom (transports w);
}.

Lemma close_producer_ok g w p o : Inv g w -> env_ok -> g_consumers g = ∅ -> g_closing g = ∅ -> producers w !! p = Some o ->
  p ∈ g_unlisted g \/ p_transport o ∈ g_producers g ->
  p_transport o ∈ g_listeners g \/ (forall T, transports w !! p_transport o = Some T -> ~ rtp_targets (rtpListener T) p) ->
  total (_ ← OnTransportProducerClosed ln env p; delete_producer p) (fun _ w' => Inv (gone_from g p) w' /\ producer_closed p w w') w.
Proof.
  intros Hi0 He Hg Hgc Hp Hu Hl. pose proof (Inv_closing _ _ p Hi0) as Hi. set (g1 := closing_too g p) in *.
  assert (gone_from g1 p = gone_from g p) as Hgg by (unfold gone_from, g1; cbn; f_equal; set_solver).
  assert (p ∈ g_closing g1) as Hpc by set_solver.
  destruct (proj2 (routed_members _ _ _ _ _ _ _ _ _ (inv_media g1 w Hi) p)) as [cs Hcs]; [split; [by eexists|set_solver]|].
  assert (mapProducers (router w) !! p_id o = Some p) as Hid by (apply (routed_src _ _ _ _ _ _ _ _ _ (inv_media g1 w Hi) p o Hp); set_solver).
  destruct (proj2 (watched_dom _ _ _ _ _ (inv_watched g1 w Hi) p)) as [os Hos]; [by eexists|].
  unfold OnTransportProducerClosed. repeat step. rewrite Hcs, Hid, Hos. repeat step.
  eapply post_mono; [apply (close_consumers_ok g1 w p (walk env cs) Hi Hg Hpc)|].
  { rewrite (proj1 He). apply NoDup_elements. }
  { intros c. rewrite (proj1 He), elem_of_elements. split.
    - intros Hc. destruct (routed_source _ _ _ _ _ _ _ _ _ (inv_media g w Hi0) c p Hc) as (cs' & ? & ?). assert (cs' = cs) as -> by congruence. done.
    - intros Hc. eapply (routed_member _ _ _ _ _ _ _ _ _ (inv_media g w Hi0)); [done|done|rewrite Hgc; set_solver]. }
  cbn beta. intros _ w1 [Hi1 [C1 C2 C3 C4 C5 C6 [f C7] C8]]. step.
  eapply post_mono; [eapply (leave_observers_ok g1 w1 p o os)|]; [done|done|done|by rewrite C1|by rewrite C7|].
  cbn beta. intros _ w2 (Hi2 & (obs & l2 & ->) & Hno). wcbn. assert (producers w1 !! p = Some o) as Hp1 by by rewrite C1. repeat step.
  split.
  - rewrite <- Hgg. eapply (Inv_producer_gone g1 _ p o _ _ Hi2); [done|exact Hu| |by intros c ?%C8%elem_of_nil|done].
    destruct Hl as [?|Hl]; [by left|right]. wcbn. intros T HT. assert (rtpListener <$> transports w !! p_transport o = Some (rtpListener T)) as HT0.
    { rewrite <- lookup_fmap, <- C6, lookup_fmap, HT. done. }
    destruct (transports w !! p_transport o) as [T0|] eqn:E0; [|done]. injection HT0 as <-. by apply Hl.
  - split; wcbn; congruence || done.
Qed.

(** *** Data producers *)

Definition data_closing_too (g : Gap) (p : address) : Gap :=
  {| g_producers := g_producers g; g_consumers := g_consumers g; g_dataProducers := g_dataProducers g; g_dataConsumers := g_dataConsumers g;
     g_listeners := g_listeners g; g_unlisted := g_unlisted g; g_dataUnlisted := g_dataUnlisted g; g_closing := g_closing g;
     g_dataClosing := {[p]} ∪ g_dataClosing g |}.

(** The data producer [p] is gone. *)
Definition data_gone_from (g : Gap) (p : address) : Gap :=
  {| g_producers := g_producers g; g_consumers := g_consumers g; g_dataProducers := g_dataProducers g; g_dataConsumers := g_dataConsumers g;
     g_listeners := g_listeners g; g_unlisted := g_unlisted g; g_dataUnlisted := g_dataUnlisted g ∖ {[p]}; g_closing := g_closing g;
     g_dataClosing := g_dataClosing g ∖ {[p]} |}.

Lemma Inv_data_closing g w p : Inv g w -> Inv (data_closing_too g p) w.
Proof. intros Hi. inv_split Hi. by apply routed_closing. Qed.

(** What closing the data consumers of [p] leaves. *)
Record dataConsumers_closed (p : address) (l : list address) (w w' : World) : Prop := {
  dcc_producers : producers w' = producers w;
  dcc_dataProducers : dataProducers w' = dataProducers w;
  dcc_consumers : consumers w' = consumers w;
  dcc_dataConsumers : dataConsumers w' ⊆ dataConsumers w;
  dcc_transports : dom (transports w') = dom (transports w);
  dcc_sctpListener : sctpListener <$> transports w' = sctpListener <$> transports w;
  dcc_router : exists f, router w' = r_dataConsumers id f (router w);
  dcc_left : forall c, mapDataConsumerDataProducer (router w') !! c = Some p <-> c ∈ l;
}.

Lemma close_dataConsumers_ok g w p l : Inv g w -> g_dataConsumers g = ∅ -> p ∈ g_dataClosing g -> NoDup l ->
  (forall c, mapDataConsumerDataProducer (router w) !! c = Some p <-> c ∈ l) ->
  total (for_each DataConsumerDataProducerClosed l) (fun _ w' => Inv g w' /\ dataConsumers_closed p [] w w') w.
Proof.
  intros Hi Hg Hp Hn Hl.
  eapply post_mono; [apply (post_for_each_left _ (fun l w' => NoDup l /\ Inv g w' /\ dataConsumers_closed p l w w'))|by intros ? ? (_ & ? & ?)].
  2: { split; [done|]. split; [done|]. split; try done. exists id. by destruct (router w). }
  clear Hi Hn Hl l. intros c l w1 (Hn & Hi & [H1 H2 H3 H4 H5 H6 [f H7] H8]). apply NoDup_cons in Hn as [Hc Hn].
  assert (mapDataConsumerDataProducer (router w1) !! c = Some p) as Hs by (apply H8; by left).
  destruct (proj1 (routed_mem _ _ _ _ _ _ _ _ _ (inv_data g w1 Hi) c)) as [[o Ho] _]; [by eexists|].
  eapply post_mono; [by eapply (DataConsumerDataProducerClosed_ok g w1 c o p)|]. cbn. intros _ w2 (Hi2 & G1 & G2 & G3 & G4 & G5 & G6 & G7).
  split; [done|]. split; [done|]. split; try congruence.
  - rewrite G4. etransitivity; [apply delete_subseteq|done].
  - exists (fun m => delete c (f m)). rewrite G7, H7. done.
  - intros d. rewrite G7. cbn. rewrite lookup_delete_Some, H8, elem_of_cons. split; [intros [? [?|?]]; [congruence|done]|]. intros Hd. split; [by intros ->|by right].
Qed.

Lemma Inv_dataProducer_gone g w p o tm l : Inv g w -> dataProducers w !! p = Some o -> p ∈ g_dataUnlisted g \/ dp_transport o ∈ g_dataProducers g ->
  dp_transport o ∈ g_listeners g \/ (is_sctp o -> forall T, transports w !! dp_transport o = Some T -> ~ sctp_targets (sctpListener T) p) ->
  (forall c, mapDataConsumerDataProducer (router w) !! c <> Some p) ->
  Inv (data_gone_from g p) (mkWorld (routerId w) (r_dataProducers (delete (dp_id o)) (delete p) (router w))
           (ChannelMessageRegistrator.UnregisterHandler (registrator w) (dp_id o)) (transports w) (producers w)
           (consumers w) (delete p (dataProducers w)) (dataConsumers w) (observers w) tm (fresh w) l).
Proof.
  intros Hi Hp Hu Hl Hc. inv_split Hi; unfold data_gone_from; cbn.
  - by eapply owned_delete.
  - eapply listened_delete_exempt; [done|exact Hp|]. destruct Hl as [?|Hl]; [by left|right]. intros Hs k. rewrite lookup_fmap.
    destruct (transports w !! dp_transport o) as [T|] eqn:ET; [|done]. intros [= <-]. by apply Hl.
  - replace ∅ with (({[p]} ∪ ∅) ∖ {[p]} : gset address) at 1 by set_solver. apply routed_delete_source; [|set_solver].
    by eapply routed_unroute_source.
  - eapply registered_ext; [apply (registered_unregister _ _ _ (HDataProducer p) Hire); cbn; by rewrite Hp|]. names_tac.
Qed.

(** What a closed data producer leaves. *)
Record dataProducer_closed (p : address) (w w' : World) : Prop := {
  dpc_producers : producers w' = producers w;
  dpc_consumers : consumers w' = consumers w;
  dpc_dataProducers : dataProducers w' = delete p (dataProducers w);
  dpc_dataConsumers : dataConsumers w' ⊆ dataConsumers w;
  dpc_transports : dom (transports w') = dom (transports w);
}.

(** [m] stands for what the transport tells its SCTP association in between. *)
Lemma close_dataProducer_ok g w p o m : Inv g w -> env_ok -> g_dataConsumers g = ∅ -> g_dataClosing g = ∅ -> dataProducers w !! p = Some o ->
  p ∈ g_dataUnlisted g \/ dp_transport o ∈ g_dataProducers g ->
  dp_transport o ∈ g_listeners g \/ (is_sctp o -> forall T, transports w !! dp_transport o = Some T -> ~ sctp_targets (sctpListener T) p) ->
  (forall Q w, (forall l, Q tt (with_calls w l)) -> total m Q w) ->
  total (_ ← OnTransportDataProducerClosed env p; _ ← m; delete_dataProducer p) (fun _ w' => Inv (data_gone_from g p) w' /\ dataProducer_closed p w w') w.
Proof.
  intros Hi0 He Hg Hgc Hp Hu Hl Hm. pose proof (Inv_data_closing _ _ p Hi0) as Hi. set (g1 := data_closing_too g p) in *.
  assert (data_gone_from g1 p = data_gone_from g p) as Hgg by (unfold data_gone_from, g1; cbn; f_equal; set_solver).
  assert (p ∈ g_dataClosing g1) as Hpc by set_solver.
  destruct (proj2 (routed_members _ _ _ _ _ _ _ _ _ (inv_data g1 w Hi) p)) as [cs Hcs]; [split; [by eexists|set_solver]|].
  assert (mapDataProducers (router w) !! dp_id o = Some p) as Hid by (apply (routed_src _ _ _ _ _ _ _ _ _ (inv_data g1 w Hi) p o Hp); set_solver).
  unfold OnTransportDataProducerClosed. repeat step. rewrite Hcs, Hid. repeat step.
  eapply post_mono; [apply (close_dataConsumers_ok g1 w p (walk env cs) Hi Hg Hpc)|].
  { rewrite (proj1 He). apply NoDup_elements. }
  { intros c. rewrite (proj1 He), elem_of_elements. split.
    - intros Hc. destruct (routed_source _ _ _ _ _ _ _ _ _ (inv_data g w Hi0) c p Hc) as (cs' & ? & ?). assert (cs' = cs) as -> by congruence. done.
    - intros Hc. eapply (routed_member _ _ _ _ _ _ _ _ _ (inv_data g w Hi0)); [done|done|rewrite Hgc; set_solver]. }
  cbn beta. intros _ w1 [Hi1 [C1 C2 C3 C4 C5 C6 [f C7] C8]]. assert (dataProducers w1 !! p = Some o) as Hp1 by by rewrite C2.
  repeat step. apply Hm. intros l. repeat step. split.
  - rewrite <- Hgg. eapply (Inv_dataProducer_gone g1 w1 p o _ _ Hi1); [done|exact Hu| |by intros c ?%C8%elem_of_nil].
    destruct Hl as [?|Hl]; [by left|right]. wcbn. intros Hs T HT. assert (sctpListener <$> transports w !! dp_transport o = Some (sctpListener T)) as HT0.
    { rewrite <- lookup_fmap, <- C6, lookup_fmap, HT. done. }
    destruct (transports w !! dp_transport o) as [T0|] eqn:E0; [|done]. injection HT0 as <-. by apply Hl.
  - split; wcbn; congruence || done.
Qed.

End Closing.
End RouterClosing.
