(* ===== verification/RouterOpening.v ===== *)
(** * Creating the objects of a router

    The requests that create transports, observers, producers, consumers, data producers and
    data consumers, accepted or refused at any point, keep the invariant of [RouterInvariant]. *)

From Stdlib Require Import SpecFloat.
From stdpp Require Import gmap.
From S2P Require Import Prelude StateMonad RtpListener ActiveSpeakerObserver ActiveSpeakerSpec AudioLevelObserver DataChannel.
From S2P Require Import ChannelMessageRegistrator Ownership Router RouterObservers RouterInvariant RouterClosing.

Module RouterOpening.

Import Router RouterInvariant RouterClosing.

(** ** Allocation and registration *)

(** The world after an allocation, with another registry. *)
Definition allocated (w : World) (r : ChannelMessageRegistrator.t Handler) : World :=
  mkWorld (routerId w) (router w) r (transports w) (producers w) (consumers w) (dataProducers w) (dataConsumers w)
    (observers w) (timers w) (Pos.succ (fresh w)) (calls w).

Lemma post_alloc Q E w : Q (fresh w) (allocated w (registrator w)) -> post alloc Q E w.
Proof. done. Qed.

Lemma Inv_allocated g w r : Inv g w -> registered r (names w) -> Inv g (allocated w r).
Proof. intros Hi Hr. unfold allocated. inv_split Hi. intros a Ha. apply Hifr. lia. Qed.

(** [register] either changes nothing or adds the handler. *)
Lemma post_register id h b c Q E w : registered (registrator w) (names w) -> names w h = None -> itself h b -> itself h c ->
  Q false w ->
  (forall r, registered r (named (names w) h (Some id)) ->
     Q true (mkWorld (routerId w) (router w) r (transports w) (producers w) (consumers w) (dataProducers w) (dataConsumers w)
               (observers w) (timers w) (fresh w) (calls w))) ->
  post (register id (Some h) b c) Q E w.
Proof.
  intros Hr Hn Hb Hc Hf Ht. unfold register. do 2 step.
  destruct (ChannelMessageRegistrator.RegisterHandler (registrator w) id (Some h) b c) as [r|r] eqn:Er; repeat step.
  - apply Ht. eapply (registered_register (registrator w) _ _ _ b c); eassumption.
  - apply ChannelMessageRegistrator.register_throw in Er as ->. by destruct w.
Qed.

(** A handler that was registered and is not any more. *)
Lemma registered_undo r (nm : Handler -> option str) h id : registered r (named nm h (Some id)) -> nm h = None ->
  registered (ChannelMessageRegistrator.UnregisterHandler r id) nm.
Proof.
  intros Hr Hn. eapply registered_ext; [apply (registered_unregister _ _ id h Hr), named_eq|]. intros h'. unfold named.
  destruct (decide (h' = h)) as [->|]; done.
Qed.

(** The next address is not used after the creation of an object. *)
Ltac fresh_tac Hf :=
  let a := fresh "a" in let Ha := fresh "Ha" in
  intros a Ha; destruct (Hf a) as (? & ? & ? & ? & ? & ?); [lia|];
  split_and!; first [assumption | eapply insert_absent; eassumption | apply lookup_insert_None; (split; [assumption|lia])].

(** The names with a new object. *)
Ltac named_tac Hr := eapply registered_ext; [exact Hr|names_tac].

Section Requests.

Context (ln : spec_float -> spec_float) (env : Env) (He : env_ok env).

(** ** Transports and observers *)

Lemma ROUTER_CREATE_TRANSPORT_ok w id data : Inv no_gap w -> total (ROUTER_CREATE_TRANSPORT id data) (fun _ => Inv no_gap) w.
Proof.
  intros Hi. destruct (inv_fresh _ _ Hi (fresh w)) as (F1 & F2 & F3 & F4 & F5 & F6); [done|].
  unfold ROUTER_CREATE_TRANSPORT. do 2 step. destruct (mapTransports (router w) !! id) eqn:Em; [by step|]. destruct data as [d|]; [|by step].
  step. apply post_alloc. unfold allocated. step. apply post_register; wcbn; [apply Hi|cbn; by rewrite F1|by right|by right|cbn [negb]; step|].
  - apply (Inv_allocated no_gap w); [done|apply Hi].
  - intros r Hr. cbn [negb]. repeat step. inv_split Hi; rewrite ?fmap_insert; cbn [new_transport t_mapProducers t_mapConsumers t_mapDataProducers
      t_mapDataConsumers mapSsrcConsumer mapRtxSsrcConsumer rtpListener sctpListener].
    + apply owned_new_table; [done|by rewrite lookup_fmap, F1].
    + apply owned_new_table; [done|by rewrite lookup_fmap, F1].
    + apply owned_new_table; [done|by rewrite lookup_fmap, F1].
    + apply owned_new_table; [done|by rewrite lookup_fmap, F1].
    + by apply keyed_new_table.
    + by apply keyed_new_table.
    + apply listened_new_table; [done|]. intros q [[? ?]|[[? ?]|[? ?]]]; done.
    + apply listened_new_table; [done|]. by intros q [? ?].
    + by apply (indexed_insert t_id _ _ _ (new_transport id d)).
    + named_tac Hr.
    + fresh_tac Hifr.
Qed.

(** An observer that has seen nothing. *)
Definition pristine (d : Observer) : Prop := forall P prods watch o, (forall p, ~ lists watch o p) -> tracks P prods watch o d.

Lemma pristine_audio max thr int d : AudioLevelObserver.make max thr int = Some d -> pristine (AudioLevel d).
Proof.
  unfold AudioLevelObserver.make. repeat (destruct (_ : bool); [done|]). intros [= <-] P prods watch o Hn. split; cbn.
  - intros p [? ?]. done.
  - intros p po Hl. by apply Hn in Hl.
Qed.

Lemma pristine_speaker int : pristine (ActiveSpeaker (ActiveSpeakerObserver.make int)).
Proof.
  intros P prods watch o Hn. split; [apply (ActiveSpeakerSpec.reached_Inv ln int), ActiveSpeakerSpec.reached_make|]. intros k p.
  unfold ActiveSpeakerSpec.watches. cbn. rewrite fmap_empty. by rewrite lookup_empty.
Qed.

Lemma ROUTER_CREATE_OBSERVER_ok w id data : Inv no_gap w -> (forall d, data = Some d -> pristine d) ->
  total (ROUTER_CREATE_OBSERVER id data) (fun _ => Inv no_gap) w.
Proof.
  intros Hi Hd. destruct (inv_fresh _ _ Hi (fresh w)) as (F1 & F2 & F3 & F4 & F5 & F6); [done|].
  unfold ROUTER_CREATE_OBSERVER. do 2 step. destruct (mapRtpObservers (router w) !! id) eqn:Em; [by step|]. destruct data as [d|]; [|by step].
  specialize (Hd d eq_refl). step. apply post_alloc. unfold allocated. do 3 step.
  apply post_register; wcbn; [apply Hi|cbn; by rewrite F6|by left|by left|cbn [negb]; step|].
  - destruct (Inv_allocated no_gap w (registrator w) Hi (inv_registered _ _ Hi)). by split.
  - intros r Hr. cbn [negb]. repeat step. inv_split Hi.
    + apply watched_new_observer; [done|done|]. intros watch Hn. by apply Hd.
    + by apply (indexed_insert o_id _ _ _ {| o_id := id; o_state := d |}).
    + named_tac Hr.
    + fresh_tac Hifr.
Qed.

(** ** Producers *)

(** A transport with another state. *)
Definition put_state (w : World) (t : address) (T : TransportObject) (f : TransportState -> TransportState) (l : list call) : World :=
  mkWorld (routerId w) (router w) (registrator w) (<[t := with_state f T]> (transports w)) (producers w) (consumers w) (dataProducers w)
    (dataConsumers w) (observers w) (timers w) (fresh w) l.

Lemma Inv_put_state g w t T f l : Inv g w -> transports w !! t = Some T -> Inv g (put_state w t T f l).
Proof. intros Hi HT. unfold put_state. inv_split Hi. Qed.

Lemma rtp_targets_same p l l' q : same_but p l l' -> rtp_targets l' q -> q = p \/ rtp_targets l q.
Proof.
  intros Hs Hq. destruct (decide (q = p)) as [->|Hne]; [by left|right]. unfold same_but, RtpListener.RemoveProducer in Hs.
  injection Hs as E1 E2 E3. unfold rtp_targets in *.
  destruct Hq as [[k Hk]|[[k Hk]|[k Hk]]]; [left|right; left|right; right]; exists k.
  - apply (lookup_erase_Some p). rewrite E1. by apply lookup_erase_Some.
  - apply (lookup_erase_Some p). rewrite E2. by apply lookup_erase_Some.
  - apply (lookup_erase_Some p). rewrite E3. by apply lookup_erase_Some.
Qed.

Lemma rtp_targets_remove l p q : rtp_targets (RtpListener.RemoveProducer l p) q -> rtp_targets l q /\ q <> p.
Proof.
  unfold rtp_targets. cbn. setoid_rewrite lookup_erase_Some. intros [[k [? ?]]|[[k [? ?]]|[k [? ?]]]]; (split; [|done]); eauto.
Qed.

Lemma sctp_targets_remove l p q : sctp_targets (SctpListener.RemoveDataProducer l p) q -> sctp_targets l q /\ q <> p.
Proof. unfold sctp_targets, SctpListener.RemoveDataProducer. setoid_rewrite lookup_erase_Some. intros [k [? ?]]. split; [by exists k|done]. Qed.

(** What is left of a producer that was refused: listeners without it. *)
Lemma Inv_refused w t T l k r : Inv no_gap w -> transports w !! t = Some T -> registered r (names w) ->
  (forall q, rtp_targets l q -> rtp_targets (rtpListener T) q) -> (forall q, sctp_targets k q -> sctp_targets (sctpListener T) q) ->
  Inv no_gap (mkWorld (routerId w) (router w) r (<[t := with_listeners l k T]> (transports w)) (producers w) (consumers w) (dataProducers w)
    (dataConsumers w) (observers w) (timers w) (Pos.succ (fresh w)) (calls w)).
Proof.
  intros Hi HT Hr Hl Hk. inv_split Hi; try rewrite fmap_insert.
  - eapply listened_change; [done|by apply fmap_at|]. intros q Hq. left. by apply Hl.
  - eapply listened_change; [done|by apply fmap_at|]. intros q Hq. left. by apply Hk.
  - named_tac Hr.
  - intros a Ha. destruct (Hifr a) as (? & ?); [lia|]. split; [by eapply insert_absent|done].
Qed.

(** The router does not know an object that does not exist. *)
Lemma unrouted_source {S M} (sid : S -> str) U P V ids members source (srcs : gmap address S) (mems : gmap address M) p :
  routed sid U P V ids members source srcs mems -> srcs !! p = None -> members !! p = None.
Proof.
  intros Hr Hp. destruct (members !! p) eqn:E; [|done]. destruct (proj1 (routed_members _ _ _ _ _ _ _ _ _ Hr p)) as [[? ?] _]; [by eexists|]. congruence.
Qed.

Lemma unrouted_member {S M} (sid : S -> str) U P V ids members source (srcs : gmap address S) (mems : gmap address M) c :
  routed sid U P V ids members source srcs mems -> mems !! c = None -> source !! c = None.
Proof.
  intros Hr Hc. destruct (source !! c) eqn:E; [|done]. destruct (proj1 (routed_mem _ _ _ _ _ _ _ _ _ Hr c)) as [[? ?] _]; [by eexists|]. congruence.
Qed.

Lemma may_create_server_ok g w t T d s : Inv g w -> transports w !! t = Some T -> total (may_create_server t d s) (fun _ => Inv g) w.
Proof.
  intros Hi HT. unfold may_create_server. destruct (tccServer s); [by step|]. destruct (bwe_type _ _ _); [|by step]. repeat step.
  all: by apply (Inv_put_state g w t T).
Qed.

(** The producer [o] is new, in the tables of its transport, of its listener and of the router. *)
Lemma Inv_new_producer w o T l r : Inv no_gap w -> transports w !! p_transport o = Some T -> t_mapProducers T !! p_id o = None ->
  mapProducers (router w) !! p_id o = None -> registered r (named (names w) (HProducer (fresh w)) (Some (p_id o))) ->
  (forall q, rtp_targets l q -> q = fresh w \/ rtp_targets (rtpListener T) q) ->
  Inv no_gap (mkWorld (routerId w) (r_producers (<[p_id o := fresh w]>) (touch (fresh w)) (touch (fresh w)) (router w)) r
    (<[p_transport o := with_producers (<[p_id o := fresh w]>) (with_listeners l (sctpListener T) T)]> (transports w))
    (<[fresh w := o]> (producers w)) (consumers w) (dataProducers w) (dataConsumers w) (observers w) (timers w) (Pos.succ (fresh w)) (calls w)).
Proof.
  intros Hi HT Hn Hm Hr Hl. destruct (inv_fresh _ _ Hi (fresh w)) as (F1 & F2 & F3 & F4 & F5 & F6); [done|].
  pose proof (unrouted_source _ _ _ _ _ _ _ _ _ _ (inv_media _ w Hi) F2) as Hmc.
  assert (mapProducerRtpObservers (router w) !! fresh w = None) as Hmo.
  { destruct (mapProducerRtpObservers (router w) !! fresh w) eqn:E; [|done].
    destruct (proj1 (watched_dom _ _ _ _ _ (inv_watched _ w Hi) (fresh w))) as [? ?]; [by eexists|]. congruence. }
  inv_split Hi; rewrite ?fmap_insert; wcbn; unfold touch; rewrite ?Hmc, ?Hmo; cbn [default from_option].
  - replace (g_unlisted no_gap) with (({[fresh w]} ∪ ∅) ∖ {[fresh w]} : gset address) by (cbn; set_solver).
    eapply owned_list; [eapply owned_create; [done|done|by apply fmap_at]|apply lookup_insert_eq|by apply fmap_at|done].
  - eapply listened_change; [by apply listened_create|by apply fmap_at|]. intros q [->|?]%Hl; [right|by left]. exists o. by rewrite lookup_insert_eq.
  - replace ∅ with (({[fresh w]} ∪ ∅) ∖ {[fresh w]} : gset address) at 1 by set_solver.
    eapply (routed_route_source p_id); [by apply routed_new_source|apply lookup_insert_eq|set_solver|done].
  - apply watched_route; [|done]. by apply watched_new_producer.
  - named_tac Hr.
  - fresh_tac Hifr.
Qed.

Lemma TRANSPORT_PRODUCE_ok w t T id data : Inv no_gap w -> transports w !! t = Some T -> total (TRANSPORT_PRODUCE t id data) (fun _ => Inv no_gap) w.
Proof.
  intros Hi HT. destruct (inv_fresh _ _ Hi (fresh w)) as (F1 & F2 & F3 & F4 & F5 & F6); [done|].
  unfold TRANSPORT_PRODUCE. do 2 step. destruct (t_mapProducers T !! id) eqn:Em; [by step|]. destruct data as [d|]; [|by step].
  step. apply post_alloc. unfold allocated. step.
  apply post_register; wcbn; [apply Hi|cbn; by rewrite F2|by left|by right|cbn [negb]; step; by apply (Inv_allocated no_gap w), Hi|].
  intros r Hr. cbn [negb]. do 2 step. pose proof (AddProducer_spec (fresh w) (pd_parameters d) (rtpListener T)) as Hs.
  destruct (RtpListener.AddProducer (rtpListener T) (fresh w) (pd_parameters d)) as [l|l]; cbn [step_spec] in Hs.
  2: { subst l. repeat step. rewrite delete_insert_id by done. eapply (Inv_refused w); [done|done|eapply registered_undo; [exact Hr|cbn; by rewrite F2]|by intros q [? _]%rtp_targets_remove|done]. }
  destruct Hs as (_ & Hs & _). unfold OnTransportNewProducer. repeat step; [|by eapply (unrouted_source _ _ _ _ _ _ _ _ _ _ (inv_media _ w Hi))].
  destruct (mapProducers (router w) !! id) eqn:Er; repeat step; cbn [negb].
  - repeat step. rewrite delete_insert_id, insert_insert_eq by done.
    eapply (Inv_refused w t T (RtpListener.RemoveProducer l (fresh w)) (sctpListener T)); [done|done|eapply registered_undo; [exact Hr|cbn; by rewrite F2]| |done].
    intros q [Hq Hne]%rtp_targets_remove. by apply (rtp_targets_same _ _ _ _ Hs) in Hq as [?|?].
  - repeat step. rewrite !insert_insert_eq. eapply post_mono; [eapply (may_create_server_ok no_gap)|]; [|apply lookup_insert_eq|by intros; step].
    match goal with |- context [<[fresh w := ?o]> (producers w)] => set (po := o) end.
    pose proof (Inv_put_state no_gap _ t _ (set_ids (take_ids (pd_ids d))) (calls w)
      (Inv_new_producer w po T l r Hi HT Em Er Hr (fun q => rtp_targets_same _ _ _ q Hs)) (lookup_insert_eq _ _ _)) as Hi'.
    unfold put_state in Hi'. wcbn. by rewrite insert_insert_eq in Hi'.
Qed.

(** ** Consumers *)

Lemma Inv_new_consumer w o p T cs r l : Inv no_gap w -> transports w !! c_transport o = Some T -> t_mapConsumers T !! c_id o = None ->
  mapProducerConsumers (router w) !! p = Some cs -> registered r (named (names w) (HConsumer (fresh w)) (Some (c_id o))) ->
  Inv no_gap (mkWorld (routerId w) (r_consumers (<[p := cs ∪ {[fresh w]}]>) (<[fresh w := p]>) (router w)) r
    (<[c_transport o := with_consumers (<[c_id o := fresh w]>) (assign_all (c_mediaSsrcs o) (fresh w)) (assign_all (c_rtxSsrcs o) (fresh w)) T]> (transports w))
    (producers w) (<[fresh w := o]> (consumers w)) (dataProducers w) (dataConsumers w) (observers w) (timers w) (Pos.succ (fresh w)) l).
Proof.
  intros Hi HT Hn Hp Hr. destruct (inv_fresh _ _ Hi (fresh w)) as (F1 & F2 & F3 & F4 & F5 & F6); [done|].
  inv_split Hi; rewrite ?fmap_insert; wcbn; unfold assign_all.
  - replace ∅ with (({[fresh w]} ∪ ∅) ∖ {[fresh w]} : gset address) by set_solver.
    eapply owned_list; [eapply owned_create; [done|done|by apply fmap_at]|apply lookup_insert_eq|by apply fmap_at|done].
  - eapply (keyed_assign c_transport c_mediaSsrcs); [by apply keyed_create|apply lookup_insert_eq|by apply fmap_at].
  - eapply (keyed_assign c_transport c_rtxSsrcs); [by apply keyed_create|apply lookup_insert_eq|by apply fmap_at].
  - replace ∅ with (({[fresh w]} ∪ ∅) ∖ {[fresh w]} : gset address) at 2 by set_solver.
    eapply routed_route_member; [by apply routed_new_member|rewrite lookup_insert_eq; by eexists|set_solver|done].
  - eapply watched_members; [done|]. intros q. destruct (decide (p = q)) as [<-|Hne]; [|by rewrite lookup_insert_ne].
    rewrite lookup_insert_eq, Hp. split; intros _; by eexists.
  - named_tac Hr.
  - fresh_tac Hifr.
Qed.

(** Where the world differs from [w] in the controllers of transports and in the calls only. *)
Lemma call_consumers_ok g w t T f : Inv g w -> t ∉ g_consumers g -> transports w !! t = Some T ->
  forall Q E, (forall l, Q tt (with_calls w l)) -> post (for_each (call_consumer f) (values env (t_mapConsumers T))) Q E w.
Proof.
  intros Hi Ht HT Q E HQ.
  eapply post_mono; [apply (post_for_each _ (fun w' => exists l, w' = with_calls w l))|]; [|exists (calls w); by destruct w|by intros [] w' [l ->]].
  intros c w' Hc [l ->]. unfold values in Hc. apply list_elem_of_omap in Hc as (k & _ & Hk).
  destruct (owned_entry _ _ _ _ _ _ (inv_consumers g w Hi) t (t_mapConsumers T) k c) as (o & Ho & _); [by apply fmap_at|done|done|].
  unfold call_consumer. repeat step. by eexists.
Qed.

Lemma may_create_client_ok w t T d s : Inv no_gap w -> transports w !! t = Some T ->
  total (may_create_client env t d s) (fun _ w' => Inv no_gap w' /\ is_Some (transports w' !! t)) w.
Proof.
  intros Hi HT. unfold may_create_client. assert (total (mret tt) (fun _ w' => Inv no_gap w' /\ is_Some (transports w' !! t)) w) as H0 by (split; [done|by eexists]).
  destruct (tccClient s); [done|]. destruct (bwe_type _ _ _) as [ty|]; [|done]. case_bool_decide; [|done].
  do 3 step. apply (call_consumers_ok no_gap w t T); [done|set_solver|done|]. intros l. repeat step.
  all: split; [by apply (Inv_put_state no_gap w t T)|rewrite lookup_insert_eq; by eexists].
Qed.

Lemma TRANSPORT_CONSUME_ok w t T producerId id data : Inv no_gap w -> transports w !! t = Some T ->
  total (TRANSPORT_CONSUME env t producerId id data) (fun _ => Inv no_gap) w.
Proof.
  intros Hi HT. destruct (inv_fresh _ _ Hi (fresh w)) as (F1 & F2 & F3 & F4 & F5 & F6); [done|].
  unfold TRANSPORT_CONSUME. do 2 step. destruct (t_mapConsumers T !! id) eqn:Em; [by step|]. destruct data as [d|]; [|by step].
  step. apply post_alloc. unfold allocated. step.
  apply post_register; wcbn; [apply Hi|cbn; by rewrite F3|by left|by left|cbn [negb]; step; by apply (Inv_allocated no_gap w), Hi|].
  intros r Hr. cbn [negb]. do 2 step. unfold OnTransportNewConsumer. repeat step.
  destruct (mapProducers (router w) !! producerId) as [p|] eqn:Ep; cbn [negb].
  2: { repeat step. cbn [negb]. repeat step. rewrite delete_insert_id by done. apply (Inv_allocated no_gap w); [done|]. eapply registered_undo; [exact Hr|cbn; by rewrite F3]. }
  destruct (routed_id _ _ _ _ _ _ _ _ _ (inv_media _ w Hi) producerId p Ep) as (po & Hp & _).
  destruct (proj2 (routed_members _ _ _ _ _ _ _ _ _ (inv_media _ w Hi) p)) as [cs Hcs]; [split; [by eexists|set_solver]|].
  repeat step. 3: by eapply (unrouted_member _ _ _ _ _ _ _ _ _ _ (inv_media _ w Hi)).
  all: cbn [negb]; do 3 step; eapply post_mono; [eapply may_create_client_ok; [|apply lookup_insert_eq]|].
  1, 3: by eapply (Inv_new_consumer w {| c_id := id; c_transport := t; c_mid := cd_mid d; c_mediaSsrcs := cd_mediaSsrcs d; c_rtxSsrcs := cd_rtxSsrcs d |}).
  all: cbn beta; intros _ w2 [Hi2 [T2 HT2]]; repeat step; by repeat apply Inv_calls.
Qed.

(** ** Data producers *)

Lemma Inv_new_dataProducer w o T l r : Inv no_gap w -> transports w !! dp_transport o = Some T -> t_mapDataProducers T !! dp_id o = None ->
  mapDataProducers (router w) !! dp_id o = None -> registered r (named (names w) (HDataProducer (fresh w)) (Some (dp_id o))) ->
  (forall q, sctp_targets l q -> q = fresh w /\ is_sctp o \/ sctp_targets (sctpListener T) q) ->
  Inv no_gap (mkWorld (routerId w) (r_dataProducers (<[dp_id o := fresh w]>) (touch (fresh w)) (router w)) r
    (<[dp_transport o := with_dataProducers (<[dp_id o := fresh w]>) (with_listeners (rtpListener T) l T)]> (transports w))
    (producers w) (consumers w) (<[fresh w := o]> (dataProducers w)) (dataConsumers w) (observers w) (timers w) (Pos.succ (fresh w)) (calls w)).
Proof.
  intros Hi HT Hn Hm Hr Hl. destruct (inv_fresh _ _ Hi (fresh w)) as (F1 & F2 & F3 & F4 & F5 & F6); [done|].
  pose proof (unrouted_source _ _ _ _ _ _ _ _ _ _ (inv_data _ w Hi) F4) as Hmc.
  inv_split Hi; rewrite ?fmap_insert; wcbn; unfold touch; rewrite ?Hmc; cbn [default from_option].
  - replace (g_dataUnlisted no_gap) with (({[fresh w]} ∪ ∅) ∖ {[fresh w]} : gset address) by (cbn; set_solver).
    eapply owned_list; [eapply owned_create; [done|done|by apply fmap_at]|apply lookup_insert_eq|by apply fmap_at|done].
  - eapply listened_change; [by apply listened_create|by apply fmap_at|]. intros q [[-> ?]|?]%Hl; [right|by left]. exists o. by rewrite lookup_insert_eq.
  - replace ∅ with (({[fresh w]} ∪ ∅) ∖ {[fresh w]} : gset address) at 1 by set_solver.
    eapply (routed_route_source dp_id); [by apply routed_new_source|apply lookup_insert_eq|set_solver|done].
  - named_tac Hr.
  - fresh_tac Hifr.
Qed.

(** What [AddDataProducer] makes of the listener. *)
Lemma added_targets (l : SctpListener.t) p b streamId (r : thrown SctpListener.t) :
  r = (match b with SCTP => SctpListener.AddDataProducer l p streamId | DIRECT => Return l end) ->
  match r with
  | Throw l' => l' = l
  | Return l' => forall q, sctp_targets l' q -> q = p /\ b = SCTP \/ sctp_targets l q
  end.
Proof.
  intros ->. destruct b; [|by right]. unfold SctpListener.AddDataProducer. destruct (l !! streamId); [done|].
  intros q [k [[<- <-]|[_ Hk]]%lookup_insert_Some]; [by left|right; by exists k].
Qed.

Lemma TRANSPORT_PRODUCE_DATA_ok w t T id data : Inv no_gap w -> transports w !! t = Some T -> total (TRANSPORT_PRODUCE_DATA t id data) (fun _ => Inv no_gap) w.
Proof.
  intros Hi HT. destruct (inv_fresh _ _ Hi (fresh w)) as (F1 & F2 & F3 & F4 & F5 & F6); [done|].
  unfold TRANSPORT_PRODUCE_DATA. do 2 step. destruct (_ && _); [by step|]. destruct (t_mapDataProducers T !! id) eqn:Em; [by step|].
  destruct (DataProducer.make _ _) as [d|]; [|by step]. step. apply post_alloc. unfold allocated. step.
  apply post_register; wcbn; [apply Hi|cbn; by rewrite F4|by left|by right|cbn [negb]; step; by apply (Inv_allocated no_gap w), Hi|].
  intros r Hr. assert (registered (ChannelMessageRegistrator.UnregisterHandler r id) (names w)) as Hu by (eapply registered_undo; [exact Hr|cbn; by rewrite F4]).
  cbn [negb]. do 2 step. cbn zeta. destruct (negb _).
  { repeat step. rewrite delete_insert_id by done. by apply (Inv_allocated no_gap w). }
  match goal with |- total (match ?x with Throw _ => _ | Return _ => _ end) _ _ => destruct x as [l|l] eqn:Ea; symmetry in Ea; apply added_targets in Ea end.
  2: { subst l. repeat step. rewrite delete_insert_id by done. by eapply (Inv_refused w). }
  unfold OnTransportNewDataProducer. repeat step; [|by eapply (unrouted_source _ _ _ _ _ _ _ _ _ _ (inv_data _ w Hi))].
  destruct (mapDataProducers (router w) !! id) eqn:Er; repeat step; cbn [negb].
  - case_bool_decide as Hs; cbn [only]; repeat step; rewrite delete_insert_id, ?insert_insert_eq by done.
    + eapply (Inv_refused w t T (rtpListener T)); [done..|]. intros q [Hq Hne]%sctp_targets_remove. by apply Ea in Hq as [[? _]|?].
    + eapply (Inv_refused w t T (rtpListener T)); [done..|]. by intros q [[_ ?]|?]%Ea.
  - repeat step. rewrite !insert_insert_eq. match goal with |- context [<[fresh w := ?o]> (dataProducers w)] => set (po := o) end.
    by apply (Inv_new_dataProducer w po T l r Hi HT Em Er Hr).
Qed.

(** ** Data consumers *)

Lemma Inv_new_dataConsumer w o p T cs r l : Inv no_gap w -> transports w !! dc_transport o = Some T -> t_mapDataConsumers T !! dc_id o = None ->
  mapDataProducerDataConsumers (router w) !! p = Some cs -> registered r (named (names w) (HDataConsumer (fresh w)) (Some (dc_id o))) ->
  Inv no_gap (mkWorld (routerId w) (r_dataConsumers (<[p := cs ∪ {[fresh w]}]>) (<[fresh w := p]>) (router w)) r
    (<[dc_transport o := with_dataConsumers (<[dc_id o := fresh w]>) T]> (transports w))
    (producers w) (consumers w) (dataProducers w) (<[fresh w := o]> (dataConsumers w)) (observers w) (timers w) (Pos.succ (fresh w)) l).
Proof.
  intros Hi HT Hn Hp Hr. destruct (inv_fresh _ _ Hi (fresh w)) as (F1 & F2 & F3 & F4 & F5 & F6); [done|].
  inv_split Hi; rewrite ?fmap_insert; wcbn.
  - replace ∅ with (({[fresh w]} ∪ ∅) ∖ {[fresh w]} : gset address) by set_solver.
    eapply owned_list; [eapply owned_create; [done|done|by apply fmap_at]|apply lookup_insert_eq|by apply fmap_at|done].
  - replace ∅ with (({[fresh w]} ∪ ∅) ∖ {[fresh w]} : gset address) at 2 by set_solver.
    eapply routed_route_member; [by apply routed_new_member|rewrite lookup_insert_eq; by eexists|set_solver|done].
  - named_tac Hr.
  - fresh_tac Hifr.
Qed.

(** The data consumer [c] exists, and so does the rest of the invariant. *)
Definition with_dataConsumer (c : address) (w : World) : Prop := Inv no_gap w /\ is_Some (dataConsumers w !! c).

Lemma on_dataConsumer_keeps c f w : with_dataConsumer c w -> total (on_dataConsumer c f) (fun _ => with_dataConsumer c) w.
Proof.
  intros [Hi [o Ho]]. eapply on_dataConsumer_ok; [exact Ho|]. intros l. split; [by apply Inv_put_dataConsumer|]. cbn. rewrite lookup_insert_eq. by eexists.
Qed.

Lemma TRANSPORT_CONSUME_DATA_ok w t T dataProducerId id data sctpConnected : Inv no_gap w -> transports w !! t = Some T ->
  total (TRANSPORT_CONSUME_DATA t dataProducerId id data sctpConnected) (fun _ => Inv no_gap) w.
Proof.
  intros Hi HT. destruct (inv_fresh _ _ Hi (fresh w)) as (F1 & F2 & F3 & F4 & F5 & F6); [done|].
  unfold TRANSPORT_CONSUME_DATA. do 2 step. destruct (_ && _); [by step|]. destruct (t_mapDataConsumers T !! id) eqn:Em; [by step|].
  destruct (DataConsumer.make _ _ _) as [d|]; [|by step]. step. apply post_alloc. unfold allocated. step.
  apply post_register; wcbn; [apply Hi|cbn; by rewrite F5|by right|by left|cbn [negb]; step; by apply (Inv_allocated no_gap w), Hi|].
  intros r Hr. assert (registered (ChannelMessageRegistrator.UnregisterHandler r id) (names w)) as Hu by (eapply registered_undo; [exact Hr|cbn; by rewrite F5]).
  cbn [negb]. do 2 step. cbn zeta. destruct (negb _).
  { repeat step. rewrite delete_insert_id by done. by apply (Inv_allocated no_gap w). }
  unfold OnTransportNewDataConsumer. repeat step. destruct (mapDataProducers (router w) !! dataProducerId) as [p|] eqn:Ep.
  2: { repeat step. cbn [negb]. repeat step. rewrite delete_insert_id by done. by apply (Inv_allocated no_gap w). }
  destruct (routed_id _ _ _ _ _ _ _ _ _ (inv_data _ w Hi) dataProducerId p Ep) as (po & Hp & _).
  destruct (proj2 (routed_members _ _ _ _ _ _ _ _ _ (inv_data _ w Hi) p)) as [cs Hcs]; [split; [by eexists|set_solver]|].
  repeat step. 2: by eapply (unrouted_member _ _ _ _ _ _ _ _ _ _ (inv_data _ w Hi)).
  cbn [negb]. do 3 step. match goal with |- post _ _ _ ?x => set (w1 := x) end.
  assert (with_dataConsumer (fresh w) w1) as H1.
  { split; [|cbn; rewrite lookup_insert_eq; by eexists]. by apply (Inv_new_dataConsumer w {| dc_id := id; dc_transport := t; dc_state := d |} p T cs). }
  clearbody w1. eapply (post_mono _ (fun _ => with_dataConsumer (fresh w))); [apply post_only; [intros _; by apply on_dataConsumer_keeps|done]|].
  intros _ w2 H2. step. eapply (post_mono _ (fun _ => with_dataConsumer (fresh w))); [|intros _ w3 [? _]; by step].
  apply post_only; [intros _|done]. step. eapply post_mono; [apply post_only; [intros _; by apply on_dataConsumer_keeps|done]|].
  cbn beta. intros _ w3 [Hi3 Hc3]. step. split; [by apply Inv_calls|done].
Qed.

End Requests.
End RouterOpening.
