(* ===== verification/RouterTeardown.v ===== *)
(** * Closing at the request of the control process

    The requests that close a producer, a consumer, a data producer or a data consumer, and the
    end of a transport with everything it has, return and keep the invariant of
    [RouterInvariant]. *)

From Stdlib Require Import SpecFloat.
From stdpp Require Import gmap.
From S2P Require Import Prelude StateMonad Utils RtpPacket RtpPacketSpec RtpParameters RtpListener Consumer Producer.
From S2P Require Import AudioLevelObserver ActiveSpeakerObserver ActiveSpeakerSpec DataChannel ChannelMessageRegistrator Ownership Router RouterObservers.
From S2P Require Import RouterInvariant RouterClosing RouterOpening.

Module RouterTeardown.

Import Router RouterInvariant RouterClosing RouterOpening.

Section Requests.

Context (ln : spec_float -> spec_float) (env : Env) (He : env_ok env).

(** *** Requests *)

(** A producer, or a data producer, is in no table of its transport. *)
Definition unlisted (p : address) : Gap :=
  {| g_producers := ∅; g_consumers := ∅; g_dataProducers := ∅; g_dataConsumers := ∅; g_listeners := ∅; g_unlisted := {[p]} ∪ ∅;
     g_dataUnlisted := ∅; g_closing := ∅; g_dataClosing := ∅ |}.
Definition data_unlisted (p : address) : Gap :=
  {| g_producers := ∅; g_consumers := ∅; g_dataProducers := ∅; g_dataConsumers := ∅; g_listeners := ∅; g_unlisted := ∅;
     g_dataUnlisted := {[p]} ∪ ∅; g_closing := ∅; g_dataClosing := ∅ |}.

Lemma no_gap_gone p : gone_from (unlisted p) p = no_gap.
Proof. unfold gone_from, no_gap. cbn. f_equal; set_solver. Qed.

Lemma no_gap_data_gone p : data_gone_from (data_unlisted p) p = no_gap.
Proof. unfold data_gone_from, no_gap. cbn. f_equal; set_solver. Qed.

Lemma TRANSPORT_CLOSE_PRODUCER_ok w t T id : Inv no_gap w -> transports w !! t = Some T ->
  total (TRANSPORT_CLOSE_PRODUCER ln env t id) (fun _ => Inv no_gap) w.
Proof.
  intros Hi HT. unfold TRANSPORT_CLOSE_PRODUCER. do 2 step. destruct (t_mapProducers T !! id) as [p|] eqn:Ep; [|by step].
  destruct (entry _ _ _ _ _ _ _ _ _ _ (inv_producers _ _ Hi) HT Ep) as (o & Ho & Hid & Ht). do 9 step.
  rewrite insert_insert_eq. subst t id.
  eapply post_mono; [eapply post_unbind, (close_producer_ok ln env (unlisted p) _ p o)|]; wcbn; try done.
  - inv_split Hi.
    + rewrite fmap_insert. wcbn. eapply owned_unlist; [done|done|by apply fmap_at|done].
    + rewrite fmap_insert. eapply listened_change; [done|by apply fmap_at|]. intros q [? _]%rtp_targets_remove. by left.
  - left. cbn. set_solver.
  - right. intros T'. rewrite lookup_insert_eq. intros [= <-]. cbn. by intros [_ ?]%rtp_targets_remove.
  - intros _ w'. intros Hw. apply post_bind. eapply post_mono; [exact Hw|]. intros _ w2 [Hi2 _]. by rewrite no_gap_gone in Hi2.
Qed.

Lemma TRANSPORT_CLOSE_CONSUMER_ok w t T id : Inv no_gap w -> transports w !! t = Some T ->
  total (TRANSPORT_CLOSE_CONSUMER t id) (fun _ => Inv no_gap) w.
Proof.
  intros Hi HT. unfold TRANSPORT_CLOSE_CONSUMER. do 2 step. destruct (t_mapConsumers T !! id) as [c|] eqn:Ec; [|by step].
  destruct (entry _ _ _ _ _ _ _ _ _ _ (inv_consumers _ _ Hi) HT Ec) as (o & Ho & Hid & Ht). subst t id.
  destruct (proj2 (routed_mem _ _ _ _ _ _ _ _ _ (inv_media _ w Hi) c)) as [p Hp]; [split; [by eexists|set_solver]|].
  destruct (routed_source _ _ _ _ _ _ _ _ _ (inv_media _ w Hi) c p Hp) as (cs & Hcs & _).
  unfold OnTransportConsumerClosed. repeat step.
  all: eapply (Inv_consumer_gone no_gap w c o p T cs); [done..|by left|by left].
Qed.

(** The data producer leaves the tables of its transport, and its listener unless it is not
    listened to. *)
Lemma close_unlisted_ok w p o T l : Inv no_gap w -> dataProducers w !! p = Some o -> transports w !! dp_transport o = Some T ->
  t_mapDataProducers T !! dp_id o = Some p -> (forall q, sctp_targets l q -> sctp_targets (sctpListener T) q) -> (is_sctp o -> ~ sctp_targets l p) ->
  forall b, total (_ ← OnTransportDataProducerClosed env p; _ ← only b (log (CSctpDataProducerClosed (dp_transport o) p)); delete_dataProducer p)
    (fun _ => Inv no_gap)
    (mkWorld (routerId w) (router w) (registrator w)
       (<[dp_transport o := with_dataProducers (delete (dp_id o)) (with_listeners (rtpListener T) l T)]> (transports w)) (producers w)
       (consumers w) (dataProducers w) (dataConsumers w) (observers w) (timers w) (fresh w) (calls w)).
Proof.
  intros Hi Ho HT Hp Hl Hn b. eapply post_mono; [eapply (close_dataProducer_ok env (data_unlisted p) _ p o)|]; wcbn; try done.
  - inv_split Hi.
    + rewrite fmap_insert. wcbn. eapply owned_unlist; [done|done|by apply fmap_at|done].
    + rewrite fmap_insert. eapply listened_change; [done|by apply fmap_at|]. intros q Hq. left. by apply Hl.
  - left. cbn. set_solver.
  - right. intros Hs T'. rewrite lookup_insert_eq. intros [= <-]. by apply Hn.
  - intros Q w1 HQ. destruct b; cbn [only]; repeat step; [apply HQ|]. specialize (HQ (calls w1)). by destruct w1.
  - intros _ w' [Hi2 _]. by rewrite no_gap_data_gone in Hi2.
Qed.

Lemma TRANSPORT_CLOSE_DATA_PRODUCER_ok w t T id : Inv no_gap w -> transports w !! t = Some T ->
  total (TRANSPORT_CLOSE_DATA_PRODUCER env t id) (fun _ => Inv no_gap) w.
Proof.
  intros Hi HT. unfold TRANSPORT_CLOSE_DATA_PRODUCER. do 2 step. destruct (t_mapDataProducers T !! id) as [p|] eqn:Ep; [|by step].
  destruct (entry _ _ _ _ _ _ _ _ _ _ (inv_dataProducers _ _ Hi) HT Ep) as (o & Ho & Hid & Ht). do 2 step. subst t id. cbn zeta.
  case_bool_decide as Hs; cbn [only]; repeat step; rewrite ?insert_insert_eq.
  all: match goal with |- total _ _ ?w1 => cut (total (_ ← OnTransportDataProducerClosed env p;
    _ ← only (bool_decide (is_sctp o)) (log (CSctpDataProducerClosed (dp_transport o) p)); delete_dataProducer p) (fun _ => Inv no_gap) w1) end.
  1, 3: intros Hc; apply post_unbind in Hc; rewrite ?(bool_decide_eq_true_2 _ Hs), ?(bool_decide_eq_false_2 _ Hs) in Hc.
  1, 2: eapply post_mono; [exact Hc|]; intros ? w2 Hw; cbn [only] in *; apply post_unbind in Hw; apply post_bind; eapply post_mono; [exact Hw|];
    intros ? w3 Hw3; by step.
  - eapply (close_unlisted_ok w p o T _ Hi Ho HT Ep); [intros q [? _]%sctp_targets_remove; done|]. by intros _ [_ ?]%sctp_targets_remove.
  - replace (with_dataProducers (delete (dp_id o)) T) with (with_dataProducers (delete (dp_id o)) (with_listeners (rtpListener T) (sctpListener T) T)) by (by destruct T).
    by eapply (close_unlisted_ok w p o T _ Hi Ho HT Ep).
Qed.

Lemma TRANSPORT_CLOSE_DATA_CONSUMER_ok w t T id : Inv no_gap w -> transports w !! t = Some T ->
  total (TRANSPORT_CLOSE_DATA_CONSUMER t id) (fun _ => Inv no_gap) w.
Proof.
  intros Hi HT. unfold TRANSPORT_CLOSE_DATA_CONSUMER. do 2 step. destruct (t_mapDataConsumers T !! id) as [c|] eqn:Ec; [|by step].
  destruct (entry _ _ _ _ _ _ _ _ _ _ (inv_dataConsumers _ _ Hi) HT Ec) as (o & Ho & Hid & Ht). subst t id.
  destruct (proj2 (routed_mem _ _ _ _ _ _ _ _ _ (inv_data _ w Hi) c)) as [p Hp]; [split; [by eexists|set_solver]|].
  destruct (routed_source _ _ _ _ _ _ _ _ _ (inv_data _ w Hi) c p Hp) as (cs & Hcs & _).
  unfold OnTransportDataConsumerClosed. repeat step.
  all: eapply (Inv_dataConsumer_gone no_gap w c o p T cs); [done..|by left|by left].
Qed.

(** *** Transports *)

(** The transports whose tables of each kind, and whose listeners, are not up to date. *)
Definition gap (P C DP DC L : gset address) : Gap :=
  {| g_producers := P; g_consumers := C; g_dataProducers := DP; g_dataConsumers := DC; g_listeners := L; g_unlisted := ∅;
     g_dataUnlisted := ∅; g_closing := ∅; g_dataClosing := ∅ |}.

Lemma gap_gone P C DP DC L p : gone_from (gap P C DP DC L) p = gap P C DP DC L.
Proof. unfold gone_from, gap. cbn. f_equal; set_solver. Qed.

Lemma gap_data_gone P C DP DC L p : data_gone_from (gap P C DP DC L) p = gap P C DP DC L.
Proof. unfold data_gone_from, gap. cbn. f_equal; set_solver. Qed.

Lemma Inv_exempt P C DP DC L P' C' DP' DC' L' w : Inv (gap P C DP DC L) w -> P ⊆ P' -> C ⊆ C' -> DP ⊆ DP' -> DC ⊆ DC' -> L ⊆ L' ->
  Inv (gap P' C' DP' DC' L') w.
Proof.
  intros Hi H1 H2 H3 H4 H5. destruct Hi; split; try done; cbn in *; (eapply owned_exempt || eapply keyed_exempt || eapply listened_exempt); done.
Qed.

(** The values of a table, each once. *)
Lemma values_of {O} (oid : O -> str) (owner : O -> address) (E : gset address) tables (heap : gmap address O) t T :
  owned oid owner E ∅ tables heap -> tables !! t = Some T -> t ∉ E ->
  NoDup (values env T) /\ forall a, a ∈ values env T <-> exists o, heap !! a = Some o /\ owner o = t.
Proof.
  intros Hi HT Ht. unfold values.
  assert (forall k, k ∈ walk_ids env (dom T) <-> is_Some (T !! k)) as Hd by (intros k; by rewrite (proj2 He), elem_of_elements, elem_of_dom).
  assert (NoDup (walk_ids env (dom T))) as Hn by (rewrite (proj2 He); apply NoDup_elements). split.
  - clear Hd. induction Hn as [|k l Hk Hn IH]; cbn; [apply NoDup_nil_2|]. destruct (T !! k) as [a|] eqn:Ea; [|done]. apply NoDup_cons. split; [|done].
    rewrite list_elem_of_omap. intros (k' & Hk' & Ea'). destruct (owned_entry _ _ _ _ _ _ Hi t T k a) as (o & Ho & <- & _); [done..|].
    destruct (owned_entry _ _ _ _ _ _ Hi t T k' a) as (o' & Ho' & <- & _); [done..|]. assert (o' = o) as -> by congruence. done.
  - intros a. rewrite list_elem_of_omap. split.
    + intros (k & _ & Ea). destruct (owned_entry _ _ _ _ _ _ Hi t T k a) as (o & Ho & _ & Hw); [done..|]. by exists o.
    + intros (o & Ho & <-). destruct (owned_listed _ _ _ _ _ _ Hi a o Ho) as (T' & HT' & Hl). assert (T' = T) as -> by congruence.
      exists (oid o). assert (T !! oid o = Some a) as Ek by (apply Hl; [done|set_solver]). split; [apply Hd; by eexists|done].
Qed.

(** A loop that deletes the objects of [t]. *)
Lemma delete_all_ok {O} (heap : World -> gmap address O) (owner : O -> address) (f : address -> R unit) (I : World -> Prop) t l w :
  (forall w p o, I w -> heap w !! p = Some o -> owner o = t -> total (f p) (fun _ w' => I w' /\ heap w' = delete p (heap w)) w) ->
  I w -> NoDup l -> (forall p, p ∈ l <-> exists o, heap w !! p = Some o /\ owner o = t) ->
  total (for_each f l) (fun _ w' => I w' /\ bereft owner t (heap w')) w.
Proof.
  intros Hf HI Hn Hl.
  eapply post_mono; [apply (post_for_each_left _ (fun l w' => I w' /\ NoDup l /\ forall p, p ∈ l <-> exists o, heap w' !! p = Some o /\ owner o = t))|].
  - clear -Hf. intros p l w (HI & Hn & Hl). apply NoDup_cons in Hn as [Hp Hn]. destruct (proj1 (Hl p)) as (o & Ho & Ht); [by left|].
    eapply post_mono; [by eapply Hf|]. cbn beta. intros _ w' [HI' Hh]. split; [done|]. split; [done|]. intros q. rewrite Hh. split.
    + intros Hq. destruct (proj1 (Hl q)) as (o' & ? & ?); [by right|]. exists o'. rewrite lookup_delete_ne; [done|]. by intros ->.
    + intros (o' & [Hne Hq]%lookup_delete_Some & ?). assert (q ∈ p :: l) as [->|?]%elem_of_cons by (apply Hl; by exists o'); done.
  - done.
  - intros _ w' (HI' & _ & Hl'). split; [done|]. intros a o Ha Ho. assert (a ∈ []) as ?%elem_of_nil by (apply Hl'; by exists o). done.
Qed.

Lemma delete_producers_ok w t T : Inv no_gap w -> transports w !! t = Some T ->
  total (for_each (fun p => _ ← OnTransportProducerClosed ln env p; delete_producer p) (values env (t_mapProducers T)))
    (fun _ w' => (Inv (gap {[t]} ∅ ∅ ∅ {[t]}) w' /\ t ∈ dom (transports w')) /\ bereft p_transport t (producers w')) w.
Proof.
  intros Hi HT. destruct (values_of _ _ _ _ _ t (t_mapProducers T) (inv_producers _ _ Hi)) as [Hn Hl]; [by apply fmap_at|set_solver|].
  apply (delete_all_ok producers p_transport); [|split; [eapply (Inv_exempt ∅ ∅ ∅ ∅ ∅); [done|set_solver..]|apply elem_of_dom; by eexists]|done|done].
  clear Hi HT Hn Hl w T. intros w p o [Hi Ht] Hp Ho. eapply post_mono; [apply (close_producer_ok ln env _ w p o Hi He); try done|].
  - right. cbn. set_solver.
  - left. cbn. set_solver.
  - cbn beta. intros _ w' [Hi' [H1 _ _ _ H5]]. rewrite gap_gone in Hi'. split; [split; [done|by rewrite H5]|done].
Qed.

Lemma Inv_clear_producers t T w : Inv (gap {[t]} ∅ ∅ ∅ {[t]}) w -> transports w !! t = Some T -> bereft p_transport t (producers w) ->
  Inv (gap ∅ ∅ ∅ ∅ {[t]}) (mkWorld (routerId w) (router w) (registrator w) (<[t := with_producers (fun _ => ∅) T]> (transports w))
    (producers w) (consumers w) (dataProducers w) (dataConsumers w) (observers w) (timers w) (fresh w) (calls w)).
Proof.
  intros Hi HT Hb. inv_split Hi. rewrite fmap_insert. wcbn. replace (g_producers _) with ({[t]} ∖ {[t]} : gset address) by (cbn; set_solver). by apply owned_clear.
Qed.

Lemma delete_consumers_ok w t T : Inv (gap ∅ ∅ ∅ ∅ {[t]}) w -> transports w !! t = Some T -> 
  total (for_each (fun c => _ ← OnTransportConsumerClosed c; delete_consumer c) (values env (t_mapConsumers T)))
    (fun _ w' => (Inv (gap ∅ {[t]} ∅ ∅ {[t]}) w' /\ t ∈ dom (transports w') /\ producers w' = producers w) /\ bereft c_transport t (consumers w')) w.
Proof.
  intros Hi HT. destruct (values_of _ _ _ _ _ t (t_mapConsumers T) (inv_consumers _ _ Hi)) as [Hn Hl]; [by apply fmap_at|set_solver|].
  apply (delete_all_ok consumers c_transport); [|split; [eapply (Inv_exempt ∅ ∅ ∅ ∅ {[t]}); [done|set_solver..]|split; [apply elem_of_dom; by eexists|done]]|done|done].
  clear Hi HT Hn Hl T. intros w1 c o (Hi & Ht & Hw) Hc Ho. apply elem_of_dom in Ht as [T HT]. subst t.
  destruct (proj2 (routed_mem _ _ _ _ _ _ _ _ _ (inv_media _ w1 Hi) c)) as [p Hp]; [split; [by eexists|set_solver]|].
  destruct (routed_source _ _ _ _ _ _ _ _ _ (inv_media _ w1 Hi) c p Hp) as (cs & Hcs & _).
  unfold OnTransportConsumerClosed. repeat step. split; [|done]. split; [|split; [apply elem_of_dom; by eexists|done]].
  rewrite <- (insert_id (transports w1) (c_transport o) T HT).
  eapply (Inv_consumer_gone _ w1 c o p T cs _ (fun T => T)); [done..|by left|]. right. split; [done|]. cbn. set_solver.
Qed.

Lemma Inv_clear_consumers t T w : Inv (gap ∅ {[t]} ∅ ∅ {[t]}) w -> transports w !! t = Some T -> bereft c_transport t (consumers w) ->
  Inv (gap ∅ ∅ ∅ ∅ {[t]}) (mkWorld (routerId w) (router w) (registrator w) (<[t := with_consumers (fun _ => ∅) (fun _ => ∅) (fun _ => ∅) T]> (transports w))
    (producers w) (consumers w) (dataProducers w) (dataConsumers w) (observers w) (timers w) (fresh w) (calls w)).
Proof.
  intros Hi HT Hb. inv_split Hi; rewrite fmap_insert; wcbn; replace (g_consumers _) with ({[t]} ∖ {[t]} : gset address) by (cbn; set_solver).
  - by apply owned_clear.
  - by apply keyed_clear.
  - by apply keyed_clear.
Qed.

Lemma post_no_op {A B} (m : R A) (n : R B) Q w : total (_ ← m; _ ← mret tt; n) Q w -> total (_ ← m; n) Q w.
Proof. unfold post, mbind, St_bind. by destruct (m w) as [[a w']|]. Qed.

Lemma delete_dataProducers_ok w t T : Inv (gap ∅ ∅ ∅ ∅ {[t]}) w -> transports w !! t = Some T ->
  total (for_each (fun p => _ ← OnTransportDataProducerClosed env p; delete_dataProducer p) (values env (t_mapDataProducers T)))
    (fun _ w' => (Inv (gap ∅ ∅ {[t]} ∅ {[t]}) w' /\ t ∈ dom (transports w') /\ producers w' = producers w /\ consumers w' = consumers w) /\
      bereft dp_transport t (dataProducers w')) w.
Proof.
  intros Hi HT. destruct (values_of _ _ _ _ _ t (t_mapDataProducers T) (inv_dataProducers _ _ Hi)) as [Hn Hl]; [by apply fmap_at|set_solver|].
  apply (delete_all_ok dataProducers dp_transport); [|split; [eapply (Inv_exempt ∅ ∅ ∅ ∅ {[t]}); [done|set_solver..]|split; [apply elem_of_dom; by eexists|done]]|done|done].
  clear Hi HT Hn Hl T. intros w1 p o (Hi & Ht & Hw) Hp Ho.
  eapply post_mono; [apply post_no_op, (close_dataProducer_ok env _ w1 p o (mret tt) Hi He); try done|].
  - right. cbn. set_solver.
  - left. cbn. set_solver.
  - intros Q w2 HQ. step. specialize (HQ (calls w2)). by destruct w2.
  - cbn beta. intros _ w' [Hi' [H1 H2 H3 _ H5]]. rewrite gap_data_gone in Hi'. split; [split; [done|]|done]. rewrite H5, H1, H2. done.
Qed.

Lemma Inv_clear_dataProducers t T w : Inv (gap ∅ ∅ {[t]} ∅ {[t]}) w -> transports w !! t = Some T -> bereft dp_transport t (dataProducers w) ->
  Inv (gap ∅ ∅ ∅ ∅ {[t]}) (mkWorld (routerId w) (router w) (registrator w) (<[t := with_dataProducers (fun _ => ∅) T]> (transports w))
    (producers w) (consumers w) (dataProducers w) (dataConsumers w) (observers w) (timers w) (fresh w) (calls w)).
Proof.
  intros Hi HT Hb. inv_split Hi. rewrite fmap_insert. wcbn. replace (g_dataProducers _) with ({[t]} ∖ {[t]} : gset address) by (cbn; set_solver). by apply owned_clear.
Qed.

Lemma delete_dataConsumers_ok w t T : Inv (gap ∅ ∅ ∅ ∅ {[t]}) w -> transports w !! t = Some T ->
  total (for_each (fun c => _ ← OnTransportDataConsumerClosed c; delete_dataConsumer c) (values env (t_mapDataConsumers T)))
    (fun _ w' => (Inv (gap ∅ ∅ ∅ {[t]} {[t]}) w' /\ t ∈ dom (transports w') /\ producers w' = producers w /\ consumers w' = consumers w /\
      dataProducers w' = dataProducers w) /\ bereft dc_transport t (dataConsumers w')) w.
Proof.
  intros Hi HT. destruct (values_of _ _ _ _ _ t (t_mapDataConsumers T) (inv_dataConsumers _ _ Hi)) as [Hn Hl]; [by apply fmap_at|set_solver|].
  apply (delete_all_ok dataConsumers dc_transport); [|split; [eapply (Inv_exempt ∅ ∅ ∅ ∅ {[t]}); [done|set_solver..]|split; [apply elem_of_dom; by eexists|done]]|done|done].
  clear Hi HT Hn Hl T. intros w1 c o (Hi & Ht & Hw) Hc Ho. apply elem_of_dom in Ht as [T HT]. subst t.
  destruct (proj2 (routed_mem _ _ _ _ _ _ _ _ _ (inv_data _ w1 Hi) c)) as [p Hp]; [split; [by eexists|set_solver]|].
  destruct (routed_source _ _ _ _ _ _ _ _ _ (inv_data _ w1 Hi) c p Hp) as (cs & Hcs & _).
  unfold OnTransportDataConsumerClosed. repeat step. split; [|done]. split; [|split; [apply elem_of_dom; by eexists|done]].
  rewrite <- (insert_id (transports w1) (dc_transport o) T HT).
  eapply (Inv_dataConsumer_gone _ w1 c o p T cs _ (fun T => T)); [done..|by left|]. right. split; [done|]. cbn. set_solver.
Qed.

Lemma Inv_clear_dataConsumers t T w : Inv (gap ∅ ∅ ∅ {[t]} {[t]}) w -> transports w !! t = Some T -> bereft dc_transport t (dataConsumers w) ->
  Inv (gap ∅ ∅ ∅ ∅ {[t]}) (mkWorld (routerId w) (router w) (registrator w) (<[t := with_dataConsumers (fun _ => ∅) T]> (transports w))
    (producers w) (consumers w) (dataProducers w) (dataConsumers w) (observers w) (timers w) (fresh w) (calls w)).
Proof.
  intros Hi HT Hb. inv_split Hi. rewrite fmap_insert. wcbn. replace (g_dataConsumers _) with ({[t]} ∖ {[t]} : gset address) by (cbn; set_solver). by apply owned_clear.
Qed.

(** Nothing is left of the transport [t]. *)
Record vacated (t : address) (w : World) : Prop := {
  v_inv : Inv (gap ∅ ∅ ∅ ∅ {[t]}) w;
  v_alive : is_Some (transports w !! t);
  v_producers : bereft p_transport t (producers w);
  v_consumers : bereft c_transport t (consumers w);
  v_dataProducers : bereft dp_transport t (dataProducers w);
  v_dataConsumers : bereft dc_transport t (dataConsumers w);
}.

Lemma CloseProducersAndConsumers_ok w t : Inv no_gap w -> is_Some (transports w !! t) ->
  total (CloseProducersAndConsumers ln env t) (fun _ => vacated t) w.
Proof.
  intros Hi [T0 H0]. unfold CloseProducersAndConsumers. do 3 step. eapply post_mono; [by apply delete_producers_ok|].
  cbn beta. intros _ w1 [[Hi1 [T1 H1]%elem_of_dom] B1]. apply (Inv_clear_producers _ T1) in Hi1; [|done..].
  do 5 step. eapply post_mono; [apply (delete_consumers_ok _ t (with_producers (fun _ => ∅) T1)); [exact Hi1|apply lookup_insert_eq]|].
  cbn beta. intros _ w2 [(Hi2 & [T2 H2]%elem_of_dom & E1) B2]. wcbn. rewrite <- E1 in B1. apply (Inv_clear_consumers _ T2) in Hi2; [|done..].
  do 5 step. eapply post_mono; [apply (delete_dataProducers_ok _ t (with_consumers (fun _ => ∅) (fun _ => ∅) (fun _ => ∅) T2)); [exact Hi2|apply lookup_insert_eq]|].
  cbn beta. intros _ w3 [(Hi3 & [T3 H3]%elem_of_dom & E2 & E3) B3]. wcbn. rewrite <- E2 in B1. rewrite <- E3 in B2. apply (Inv_clear_dataProducers _ T3) in Hi3; [|done..].
  do 5 step. eapply post_mono; [apply (delete_dataConsumers_ok _ t (with_dataProducers (fun _ => ∅) T3)); [exact Hi3|apply lookup_insert_eq]|].
  cbn beta. intros _ w4 [(Hi4 & [T4 H4]%elem_of_dom & E4 & E5 & E6) B4]. wcbn. rewrite <- E4 in B1. rewrite <- E5 in B2. rewrite <- E6 in B3.
  apply (Inv_clear_dataConsumers _ T4) in Hi4; [|done..]. step. split; try done. wcbn. rewrite lookup_insert_eq. by eexists.
Qed.

(** The tables of a transport that has nothing. *)
Lemma empty_table {O} (oid : O -> str) (owner : O -> address) (Z : gset address) (f : TransportObject -> gmap str address) w (heap : gmap address O) t T :
  owned oid owner ∅ Z (f <$> transports w) heap -> bereft owner t heap -> transports w !! t = Some T -> values env (f T) = [].
Proof.
  intros Hi Hb HT. assert (f T = ∅) as ->.
  { apply map_empty. intros k. destruct (f T !! k) as [a|] eqn:E; [|done]. destruct (entry _ _ _ _ _ _ _ _ _ _ Hi HT E) as (o & Ho & _ & Hw). by apply Hb in Ho. }
  unfold values. rewrite dom_empty_L. pose proof (proj2 He ∅) as Hp. rewrite elements_empty in Hp. by apply Permutation_nil_r in Hp as ->.
Qed.

Lemma delete_vacated_ok w t T : vacated t w -> transports w !! t = Some T ->
  total (_ ← set_router (r_transports (delete (t_id T))); delete_transport env t) (fun _ => Inv no_gap) w.
Proof.
  intros [Hi _ B1 B2 B3 B4] HT. unfold delete_transport. do 6 step.
  rewrite (empty_table _ _ _ t_mapProducers _ _ _ _ (inv_producers _ _ Hi) B1 HT), (empty_table _ _ _ t_mapConsumers _ _ _ _ (inv_consumers _ _ Hi) B2 HT),
    (empty_table _ _ _ t_mapDataProducers _ _ _ _ (inv_dataProducers _ _ Hi) B3 HT), (empty_table _ _ _ t_mapDataConsumers _ _ _ _ (inv_dataConsumers _ _ Hi) B4 HT).
  cbn [for_each]. repeat step. inv_split Hi; rewrite ?fmap_delete.
  - by apply owned_drop_table.
  - by apply owned_drop_table.
  - by apply owned_drop_table.
  - by apply owned_drop_table.
  - by apply keyed_drop_table.
  - by apply keyed_drop_table.
  - replace (g_listeners no_gap) with ({[t]} ∖ {[t]} : gset address) by (cbn; set_solver). by apply listened_drop_table.
  - replace (g_listeners no_gap) with ({[t]} ∖ {[t]} : gset address) by (cbn; set_solver). by apply listened_drop_table.
  - by eapply indexed_delete.
  - eapply registered_ext; [apply (registered_unregister _ _ _ (HTransport t) Hire); cbn; by rewrite HT|]. names_tac.
Qed.

Lemma close_transport_ok w t : Inv no_gap w -> is_Some (transports w !! t) -> total (close_transport ln env t) (fun _ => Inv no_gap) w.
Proof.
  intros Hi Ht. unfold close_transport. step. eapply post_mono; [by apply CloseProducersAndConsumers_ok|]. cbn beta. intros _ w1 Hv.
  destruct (v_alive _ _ Hv) as [T HT]. do 2 step. by apply delete_vacated_ok.
Qed.

Lemma ROUTER_CLOSE_TRANSPORT_ok w id : Inv no_gap w -> total (ROUTER_CLOSE_TRANSPORT ln env id) (fun _ => Inv no_gap) w.
Proof.
  intros Hi. unfold ROUTER_CLOSE_TRANSPORT. do 2 step. destruct (mapTransports (router w) !! id) as [t|] eqn:Et; [|by step].
  apply (inv_transports _ _ Hi) in Et. step. eapply post_mono; [apply close_transport_ok; [done|]|by intros; step].
  destruct (transports w !! t); [by eexists|done].
Qed.

Lemma OnTransportListenServerClosed_ok w t : Inv no_gap w -> is_Some (transports w !! t) -> total (OnTransportListenServerClosed ln env t) (fun _ => Inv no_gap) w.
Proof.
  intros Hi [T HT]. unfold OnTransportListenServerClosed. repeat step.
  - apply close_transport_ok; [done|by eexists].
  - exists t. apply (inv_transports _ _ Hi). by rewrite HT.
Qed.

End Requests.
End RouterTeardown.
