(* ===== verification/RouterEvents.v ===== *)
(** * What happens between the objects of a router

    Requests to an observer, its timer, pauses of a producer, packets, messages and states that
    a transport receives: each handler returns, without a fault, and keeps the invariant of
    [RouterInvariant]. *)

From Stdlib Require Import SpecFloat.
From stdpp Require Import gmap.
From S2P Require Import Prelude StateMonad Utils RtpPacket RtpPacketSpec RtpListener AudioLevelObserver ActiveSpeakerObserver ActiveSpeakerSpec DataChannel.
From S2P Require Import ChannelMessageRegistrator MidExtension Ownership Router RouterObservers RouterInvariant RouterClosing RouterOpening TransportEvents.

Module RouterEvents.

Import MidExtension Router RouterInvariant RouterClosing RouterOpening.

(** ** Observers *)

Lemma tracks_audio P prods watch o s s' : dom (AudioLevelObserver.mapProducerDBovs s') = dom (AudioLevelObserver.mapProducerDBovs s) ->
  tracks P prods watch o (AudioLevel s) -> tracks P prods watch o (AudioLevel s').
Proof.
  intros Hd [H1 H2]. cbn in *. setoid_rewrite <- elem_of_dom. setoid_rewrite <- elem_of_dom in H1. setoid_rewrite <- elem_of_dom in H2. rewrite Hd. done.
Qed.

Lemma tracks_speaker P prods watch o s s' : ActiveSpeakerSpec.Inv s' -> ActiveSpeakerSpec.watches s' = ActiveSpeakerSpec.watches s ->
  tracks P prods watch o (ActiveSpeaker s) -> tracks P prods watch o (ActiveSpeaker s').
Proof. intros Hi Hw [_ H2]. cbn in *. split; [done|]. by rewrite Hw. Qed.

Section Handlers.

Context (ln : spec_float -> spec_float) (env : Env) (He : env_ok env).

Lemma RTP_OBSERVER_PAUSE_ok w o x : Inv no_gap w -> observers w !! o = Some x -> total (RTP_OBSERVER_PAUSE o) (fun _ => Inv no_gap) w.
Proof.
  intros Hi Ho. pose proof (watched_by _ _ _ _ _ (inv_watched _ w Hi) o x Ho) as Ht. unfold RTP_OBSERVER_PAUSE. do 3 step.
  destruct (o_state x) as [s|s] eqn:Es.
  - pose proof (pause_dom s) as Hd. destruct (AudioLevelObserver.Pause s) as [s' evs]. unfold store_observer. repeat step.
    apply (Inv_put_observer no_gap w o x (AudioLevel s')); [done|done|]. by eapply tracks_audio.
  - destruct (ActiveSpeakerSpec.exec_ok ln ActiveSpeakerSpec.ObserverPause s (proj1 Ht) I) as (s' & evs & [= <- <-] & Hi' & _ & Hw).
    unfold store_observer. repeat step. apply (Inv_put_observer no_gap w o x (ActiveSpeaker _)); [done|done|]. by eapply tracks_speaker.
Qed.

Lemma RTP_OBSERVER_RESUME_ok w o x : Inv no_gap w -> observers w !! o = Some x -> total (RTP_OBSERVER_RESUME o) (fun _ => Inv no_gap) w.
Proof.
  intros Hi Ho. pose proof (watched_by _ _ _ _ _ (inv_watched _ w Hi) o x Ho) as Ht. unfold RTP_OBSERVER_RESUME. do 3 step.
  destruct (o_state x) as [s|s] eqn:Es; unfold store_observer; repeat step.
  - apply (Inv_put_observer no_gap w o x (AudioLevel _)); [done|done|]. eapply tracks_audio; [apply resume_dom|done].
  - destruct (ActiveSpeakerSpec.exec_ok ln ActiveSpeakerSpec.ObserverResume s (proj1 Ht) I) as (s' & evs & [= <- <-] & Hi' & _ & Hw).
    apply (Inv_put_observer no_gap w o x (ActiveSpeaker _)); [done|done|]. by eapply tracks_speaker.
Qed.

Lemma ObserverOnTimer_ok w o x : Inv no_gap w -> observers w !! o = Some x -> total (ObserverOnTimer ln env o) (fun _ => Inv no_gap) w.
Proof.
  intros Hi Ho. pose proof (watched_by _ _ _ _ _ (inv_watched _ w Hi) o x Ho) as Ht. unfold ObserverOnTimer. do 4 step.
  destruct (o_state x) as [s|s] eqn:Es.
  - destruct (audio_timer s (walk env (dom (AudioLevelObserver.mapProducerDBovs s))) (producer_ids w)) as (s' & evs & E & Hd).
    { apply (proj1 He). }
    { intros p Hp. destruct Ht as [H1 _]. destruct (H1 p Hp) as (os & Hos & _).
      destruct (proj1 (watched_dom _ _ _ _ _ (inv_watched _ w Hi) p)) as [cs Hcs]; [by eexists|].
      destruct (proj1 (routed_members _ _ _ _ _ _ _ _ _ (inv_media _ w Hi) p)) as [[po Hpo] _]; [by eexists|].
      unfold producer_ids. rewrite lookup_fmap, Hpo. by eexists. }
    step. apply post_from_res. rewrite E. cbn -[put_observer]. unfold store_observer. repeat step.
    apply (Inv_put_observer no_gap w o x (AudioLevel _)); [done|done|]. by eapply tracks_audio.
  - pose proof (speakers_alive _ _ _ _ _ Ht) as Ha.
    destruct (ActiveSpeakerSpec.exec_ok ln (ActiveSpeakerSpec.Tick (walk_ids env (dom (ActiveSpeakerObserver.mapProducerSpeakers s))) (producer_ids w) (nowMs env)) s (proj1 Ht))
      as (s' & evs & E & Hi' & _ & Hw); [split; [done|apply (proj2 He)]|]. cbn [ActiveSpeakerSpec.exec] in E.
    step. apply post_from_res. rewrite E. cbn -[put_observer]. unfold store_observer. repeat step.
    apply (Inv_put_observer no_gap w o x (ActiveSpeaker _)); [done|done|]. by eapply tracks_speaker.
Qed.

Lemma ROUTER_CLOSE_RTP_OBSERVER_ok w id : Inv no_gap w -> total (ROUTER_CLOSE_RTP_OBSERVER id) (fun _ => Inv no_gap) w.
Proof.
  intros Hi. unfold ROUTER_CLOSE_RTP_OBSERVER. do 2 step. destruct (mapRtpObservers (router w) !! id) as [o|] eqn:Eo; [|by step].
  apply (inv_observers _ _ Hi) in Eo. destruct (observers w !! o) as [x|] eqn:Ho; [|done]. injection Eo as <-. repeat step.
  inv_split Hi.
  - by apply watched_remove_observer.
  - by eapply indexed_delete.
  - eapply registered_ext; [apply (registered_unregister _ _ _ (HObserver o) Hire); cbn; by rewrite Ho|]. names_tac.
Qed.

(** The entry of the observers of a producer. *)
Lemma watch_entry w p po : Inv no_gap w -> producers w !! p = Some po ->
  exists cs os, mapProducerConsumers (router w) !! p = Some cs /\ mapProducerRtpObservers (router w) !! p = Some os.
Proof.
  intros Hi Hp. destruct (proj2 (routed_members _ _ _ _ _ _ _ _ _ (inv_media _ w Hi) p)) as [cs Hcs]; [split; [by eexists|set_solver]|].
  destruct (proj2 (watched_dom _ _ _ _ _ (inv_watched _ w Hi) p)) as [os Hos]; [by eexists|]. by exists cs, os.
Qed.

(** The router lists [o] for [p], and [o] has a new state. *)
Lemma Inv_relist w o x b p os os' f l : Inv no_gap w -> observers w !! o = Some x -> mapProducerRtpObservers (router w) !! p = Some os ->
  f (mapProducerRtpObservers (router w)) = <[p := os']> (mapProducerRtpObservers (router w)) ->
  (forall q, q <> o -> q ∈ os' <-> q ∈ os) -> tracks ∅ (producers w) (<[p := os']> (mapProducerRtpObservers (router w))) o b ->
  Inv no_gap (mkWorld (routerId w) (r_observers id f (router w)) (registrator w) (transports w) (producers w)
    (consumers w) (dataProducers w) (dataConsumers w) (<[o := {| o_id := o_id x; o_state := b |}]> (observers w)) (timers w) (fresh w) l).
Proof. intros Hi Ho Hos Hf Hq Ht. inv_split Hi. rewrite Hf. by eapply watched_relist. Qed.

Lemma tracks_add_audio prods watch o s p os : tracks ∅ prods watch o (AudioLevel s) -> watch !! p = Some os ->
  tracks ∅ prods (<[p := os ∪ {[o]}]> watch) o (AudioLevel (AudioLevelObserver.set_map s (AudioLevelObserver.enter (AudioLevelObserver.mapProducerDBovs s) p))).
Proof.
  intros [H1 H2] Hw. cbn [tracks]. setoid_rewrite lists_insert. setoid_rewrite <- elem_of_dom. cbn. rewrite enter_dom. split.
  - intros q Hq. destruct (decide (q = p)) as [->|Hne]; [left; set_solver|right]. split; [done|]. apply H1, elem_of_dom. set_solver.
  - intros q po [[-> _]|[Hne Hl]] Hq Hn Hp; [set_solver|]. apply elem_of_union_r, elem_of_dom. by eapply H2.
Qed.

Lemma tracks_add_speaker prods watch o s s' p po os : tracks ∅ prods watch o (ActiveSpeaker s) -> watch !! p = Some os -> prods !! p = Some po ->
  ActiveSpeakerSpec.Inv s' -> ActiveSpeakerSpec.watches s' = <[p_id po := p]> (ActiveSpeakerSpec.watches s) ->
  tracks ∅ prods (<[p := os ∪ {[o]}]> watch) o (ActiveSpeaker s').
Proof.
  intros [_ H2] Hw Hp Hi Hs. cbn [tracks]. split; [done|]. setoid_rewrite lists_insert. rewrite Hs. intros k q [[<- <-]|[Hne Hk]]%lookup_insert_Some.
  - split; [left; set_solver|by rewrite Hp].
  - destruct (H2 k q Hk) as [Hl Hq]. split; [|done]. destruct (decide (q = p)) as [->|?]; [left; set_solver|by right].
Qed.

Lemma RTP_OBSERVER_ADD_PRODUCER_ok w o x producerId : Inv no_gap w -> observers w !! o = Some x ->
  total (RTP_OBSERVER_ADD_PRODUCER env o producerId) (fun _ => Inv no_gap) w.
Proof.
  intros Hi Ho. pose proof (watched_by _ _ _ _ _ (inv_watched _ w Hi) o x Ho) as Ht. unfold RTP_OBSERVER_ADD_PRODUCER. do 2 step.
  destruct (mapProducers (router w) !! producerId) as [p|] eqn:Ep; [|by step].
  destruct (routed_id _ _ _ _ _ _ _ _ _ (inv_media _ w Hi) producerId p Ep) as (po & Hp & _).
  destruct (watch_entry w p po Hi Hp) as (cs & os & Hcs & Hos). unfold ObserverAddProducer, store_observer. do 5 step.
  assert (forall q, q <> o -> q ∈ os ∪ {[o]} <-> q ∈ os) as Hq by set_solver.
  destruct (o_state x) as [s|s] eqn:Es.
  - destruct (AudioLevelObserver.AddProducer s p (p_kind po)) as [s'|] eqn:Ea; repeat step; cbn [negb]; repeat step; [|done].
    apply (Inv_relist w o x (AudioLevel s') p os (os ∪ {[o]})); [done|done|done|by rewrite Hos|done|]. unfold AudioLevelObserver.AddProducer in Ea. destruct (p_kind po); try done.
    injection Ea as <-. by apply tracks_add_audio.
  - destruct (ActiveSpeakerObserver.AddProducer _ _ _ _ _ _) as [s'|] eqn:Ea; repeat step; cbn [negb]; repeat step; [|done].
    apply (Inv_relist w o x (ActiveSpeaker s') p os (os ∪ {[o]})); [done|done|done|by rewrite Hos|done|].
    destruct (ActiveSpeakerSpec.exec_ok ln (ActiveSpeakerSpec.Add p (p_id po) (p_kind po) (p_paused po) (nowMs env)) s (proj1 Ht) I) as (s1 & evs & E & Hi' & _ & Hw).
    cbn [ActiveSpeakerSpec.exec] in E. rewrite Ea in E. injection E as <- <-. unfold ActiveSpeakerObserver.AddProducer in Ea. cbn [ActiveSpeakerSpec.watches_after] in Hw.
    destruct (p_kind po); try done. destruct (ActiveSpeakerObserver.mapProducerSpeakers s !! p_id po); [done|]. by eapply tracks_add_speaker.
Qed.

Lemma RTP_OBSERVER_REMOVE_PRODUCER_ok w o x producerId : Inv no_gap w -> observers w !! o = Some x ->
  total (RTP_OBSERVER_REMOVE_PRODUCER ln env o producerId) (fun _ => Inv no_gap) w.
Proof.
  intros Hi Ho. unfold RTP_OBSERVER_REMOVE_PRODUCER. do 2 step.
  destruct (mapProducers (router w) !! producerId) as [p|] eqn:Ep; [|by step].
  destruct (routed_id _ _ _ _ _ _ _ _ _ (inv_media _ w Hi) producerId p Ep) as (po & Hp & _).
  destruct (watch_entry w p po Hi Hp) as (cs & os & Hcs & Hos). step. eapply post_mono; [by apply (ObserverRemoveProducer_ok ln env no_gap w o x p po)|].
  cbn beta. intros _ w' (b & l & -> & Hn & _ & Ht). repeat step. apply (Inv_relist w o x b p os (os ∖ {[o]})); [done|done|done|by rewrite Hos|set_solver|].
  eapply tracks_mono; [exact Ht| |].
  - intros q Htq Hl. split; [|done]. rewrite lists_insert. right. split; [|done]. by intros ->.
  - intros q qo. rewrite lists_insert. intros [[-> ?]|[Hne ?]] ? ? ?; [set_solver|]. split; [done|]. split; [cbn; set_solver|by eexists].
Qed.

(** ** What the observers of a producer are told *)

(** The world but for the state of the observers. *)
Definition observers_same (w w' : World) : Prop := exists obs l,
  w' = mkWorld (routerId w) (router w) (registrator w) (transports w) (producers w) (consumers w) (dataProducers w) (dataConsumers w) obs
         (timers w) (fresh w) l /\ forall o, o_id <$> obs !! o = o_id <$> observers w !! o.

Lemma observers_same_put w w1 o x b l : observers_same w w1 -> observers w1 !! o = Some x -> observers_same w (put_observer w1 o x b l).
Proof.
  intros (obs & l1 & -> & Hs) Ho. wcbn. exists (<[o := {| o_id := o_id x; o_state := b |}]> obs), l. split; [done|]. intros q. rewrite <- Hs.
  by eapply (lookup_same o_id obs).
Qed.

(** Each observer of the set goes from [P0] to [P1]. *)
Lemma tell_observers_ok P0 P1 w os f : (forall o, o ∈ os -> is_Some (observers w !! o)) ->
  let keeps P o b := tracks P (producers w) (mapProducerRtpObservers (router w)) o b in
  (forall o x, observers w !! o = Some x -> keeps P0 o (o_state x)) ->
  (forall o x, observers w !! o = Some x -> o ∉ os -> keeps P1 o (o_state x)) ->
  (forall w1 o x, o ∈ os -> observers_same w w1 -> observers w1 !! o = Some x -> keeps P0 o (o_state x) ->
     total (f o) (fun _ w2 => exists b l, w2 = put_observer w1 o x b l /\ keeps P1 o b) w1) ->
  total (for_each f (walk env os)) (fun _ w' => observers_same w w' /\ forall o x, observers w' !! o = Some x -> keeps P1 o (o_state x)) w.
Proof.
  intros Ha keeps H0 H1 Hf.
  eapply post_mono; [apply (post_for_each_left _ (fun l w' => observers_same w w' /\ NoDup l /\ (forall o, o ∈ l -> o ∈ os) /\
    forall o x, observers w' !! o = Some x -> (o ∈ l -> keeps P0 o (o_state x)) /\ (o ∉ l -> keeps P1 o (o_state x))))|].
  3: { intros _ w' (Hs & _ & _ & Hk). split; [done|]. intros o x Ho. apply (Hk o x Ho). by intros ?%elem_of_nil. }
  2: { split; [exists (observers w), (calls w); by destruct w|]. rewrite (proj1 He). split; [apply NoDup_elements|].
       split; [intros o; by rewrite (proj1 He), elem_of_elements|]. intros o x Ho. rewrite (proj1 He), elem_of_elements. eauto. }
  intros o l w1 (Hs & Hn & Hin & Hk). apply NoDup_cons in Hn as [Hol Hn]. assert (o ∈ os) as Hos by (apply Hin; by left).
  assert (is_Some (observers w1 !! o)) as [x Hx].
  { destruct Hs as (obs & l1 & -> & Hs). wcbn. destruct (Ha o Hos) as [y Hy]. specialize (Hs o). rewrite Hy in Hs. destruct (obs !! o); [by eexists|done]. }
  eapply post_mono; [apply (Hf w1 o x Hos Hs Hx); apply (Hk o x Hx); by left|]. cbn beta. intros _ w2 (b & l2 & -> & Hb).
  split; [by apply observers_same_put|]. split; [done|]. split; [intros q Hq; apply Hin; by right|]. intros q y Hq. cbn in Hq.
  apply lookup_insert_Some in Hq as [[<- <-]|[Hne Hq]]; [by split|]. destruct (Hk q y Hq) as [K0 K1]. split; intros Hql; [apply K0; by right|].
  apply K1. by intros [->|?]%elem_of_cons.
Qed.

(** The invariant, once the producer and the observers have their new state. *)
Lemma Inv_told w p po po' w' : Inv no_gap w -> producers w !! p = Some po -> p_id po' = p_id po -> p_transport po' = p_transport po ->
  (forall l, observers_same (mkWorld (routerId w) (router w) (registrator w) (transports w) (<[p := po']> (producers w)) (consumers w) (dataProducers w)
    (dataConsumers w) (observers w) (timers w) (fresh w) l) w' ->
  (forall o x, observers w' !! o = Some x -> tracks ∅ (<[p := po']> (producers w)) (mapProducerRtpObservers (router w)) o (o_state x)) -> Inv no_gap w').
Proof.
  intros Hi Hp E1 E2 l (obs & l' & -> & Hs) Ht. wcbn. assert (forall o, is_Some (observers w !! o) -> is_Some (obs !! o)) as Ha.
  { intros o [x Hx]. specialize (Hs o). rewrite Hx in Hs. destruct (obs !! o); [by eexists|done]. }
  inv_split Hi.
  - by eapply owned_update.
  - by eapply listened_update.
  - by eapply routed_update.
  - destruct Hiwa as [W1 W2 W3]. split; [done| |done]. intros q o Hl. by eapply Ha, W2.
  - intros k a. rewrite Hs. apply Hiob.
  - intros a Hf. destruct (Hifr a Hf) as (? & ? & ? & ? & ? & ?). split_and!; try done; [by eapply insert_absent|].
    specialize (Hs a). rewrite H4 in Hs. by destruct (obs !! a).
Qed.

(** The consumers of a producer exist. *)
Lemma each_consumer_ok w p cs f Q : routed p_id ∅ ∅ ∅ (mapProducers (router w)) (mapProducerConsumers (router w)) (mapConsumerProducer (router w))
    (producers w) (consumers w) -> mapProducerConsumers (router w) !! p = Some cs -> (forall l, Q tt (with_calls w l)) ->
  total (each_consumer env p (call_consumer f)) Q w.
Proof.
  intros Hr Hcs HQ. unfold each_consumer, map_at. do 3 step. rewrite Hcs. step.
  eapply post_mono; [apply (post_for_each _ (fun w' => exists l, w' = with_calls w l))|]; [|exists (calls w); by destruct w|by intros [] w' [l ->]].
  intros c w' Hc [l ->]. rewrite (proj1 He), elem_of_elements in Hc.
  destruct (proj1 (routed_mem _ _ _ _ _ _ _ _ _ Hr c)) as [[o Ho] _].
  { exists p. eapply (routed_member _ _ _ _ _ _ _ _ _ Hr); [done|done|set_solver]. }
  unfold call_consumer. repeat step. by eexists.
Qed.

(** A method of an active speaker observer that keeps its speakers. *)
Lemma speaker_step c r P prods watch w o x s : ActiveSpeakerSpec.exec ln c s = (s ← r; mret (s, [])) -> ActiveSpeakerSpec.admissible c s ->
  ActiveSpeakerSpec.watches_after c s = ActiveSpeakerSpec.watches s -> tracks P prods watch o (ActiveSpeaker s) ->
  total (s ← from_res r; store_observer o x (ActiveSpeaker s)) (fun _ w2 => exists b l, w2 = put_observer w o x b l /\ tracks P prods watch o b) w.
Proof.
  intros E Ha Hw Ht. destruct (ActiveSpeakerSpec.exec_ok ln c s (proj1 Ht) Ha) as (s' & evs & E' & Hi' & _ & Hwa). rewrite E in E'.
  destruct r as [s1|]; [|done]. injection E' as -> _. unfold store_observer. step. apply post_from_res. repeat step.
  exists (ActiveSpeaker s'), (calls w). split; [done|]. eapply tracks_speaker; [done| |done]. by rewrite Hwa.
Qed.

Lemma PRODUCER_PAUSE_ok w p po : Inv no_gap w -> producers w !! p = Some po -> total (TransportEvents.PRODUCER_PAUSE env p) (fun _ => Inv no_gap) w.
Proof.
  intros Hi Hp. destruct (watch_entry w p po Hi Hp) as (cs & os & Hcs & Hos). unfold TransportEvents.PRODUCER_PAUSE. do 2 step.
  destruct (p_paused po) eqn:Epa; [by step|]. do 3 step. unfold OnTransportProducerPaused. step.
  assert (watched ∅ (<[p := TransportEvents.set_p_paused true po]> (producers w)) (mapProducerRtpObservers (router w)) (mapProducerConsumers (router w)) (observers w)) as Hw.
  { eapply watched_update_producer; [apply Hi|done|done|by right]. }
  eapply each_consumer_ok; [eapply routed_update; [apply Hi|done|done]|done|]. intros l. unfold each_observer. do 2 step. rewrite Hos.
  eapply post_mono; [apply (tell_observers_ok ∅ ∅)|]; wcbn.
  - intros o Ho. apply (watched_alive _ _ _ _ _ Hw p). by exists os.
  - apply Hw.
  - intros o x Ho _. by apply Hw.
  - intros w1 o x Ho (obs & l1 & -> & Hs) Hx Ht. wcbn. unfold ObserverProducerPaused, store_observer. do 2 step. destruct (o_state x) as [s|s] eqn:Es.
    + repeat step. eexists (AudioLevel _), _. split; [done|]. destruct Ht as [H1 H2]. cbn in *. split.
      * intros q [y [_ Hq]%lookup_delete_Some]. apply H1. by eexists.
      * intros q qo Hl Hq Hn Hpa. rewrite lookup_delete_ne; [by eapply H2|]. intros <-. rewrite lookup_insert_eq in Hq. by injection Hq as <-.
    + do 2 step. by eapply (speaker_step (ActiveSpeakerSpec.Paused (p_id po)) (ActiveSpeakerObserver.ProducerPaused s (p_id po))).
  - cbn beta. intros _ w' [Hs Ht]. step. by eapply (Inv_told w p po (TransportEvents.set_p_paused true po)).
Qed.

Lemma PRODUCER_RESUME_ok w p po : Inv no_gap w -> producers w !! p = Some po -> total (TransportEvents.PRODUCER_RESUME env p) (fun _ => Inv no_gap) w.
Proof.
  intros Hi Hp. destruct (watch_entry w p po Hi Hp) as (cs & os & Hcs & Hos). unfold TransportEvents.PRODUCER_RESUME. do 2 step.
  destruct (p_paused po) eqn:Epa; [|by step]. do 3 step. unfold OnTransportProducerResumed. step.
  assert (watched {[p]} (<[p := TransportEvents.set_p_paused false po]> (producers w)) (mapProducerRtpObservers (router w)) (mapProducerConsumers (router w)) (observers w)) as Hw.
  { eapply watched_update_producer; [eapply watched_exempt; [apply Hi|set_solver]|done|done|left; set_solver]. }
  eapply each_consumer_ok; [eapply routed_update; [apply Hi|done|done]|done|]. intros l. unfold each_observer. do 2 step. rewrite Hos.
  eapply post_mono; [apply (tell_observers_ok {[p]} ∅)|]; wcbn.
  - intros o Ho. apply (watched_alive _ _ _ _ _ Hw p). by exists os.
  - apply Hw.
  - intros o x Ho Hn. eapply tracks_mono; [by apply Hw|done|]. intros q qo Hl Hq _ Hpa. split; [done|]. split; [|by eexists].
    intros ->%elem_of_singleton. destruct Hl as (os' & Hos' & ?). by assert (os' = os) as -> by congruence.
  - intros w1 o x Ho (obs & l1 & -> & Hs) Hx Ht. wcbn. unfold ObserverProducerResumed, store_observer. do 2 step. destruct (o_state x) as [s|s] eqn:Es.
    + repeat step. eexists (AudioLevel _), _. split; [done|]. destruct Ht as [H1 H2]. cbn [tracks] in *. setoid_rewrite <- elem_of_dom. cbn.
      rewrite enter_dom. setoid_rewrite <- elem_of_dom in H1. setoid_rewrite <- elem_of_dom in H2. split.
      * intros q [->%elem_of_singleton|?]%elem_of_union; [by exists os|by apply H1].
      * intros q qo Hl Hq Hn Hpa. destruct (decide (q = p)) as [->|Hne]; [set_solver|]. apply elem_of_union_r. eapply H2; [done|done|set_solver|done].
    + do 2 step. by eapply (speaker_step (ActiveSpeakerSpec.Resumed (p_id po)) (ActiveSpeakerObserver.ProducerResumed s (p_id po)) ∅).
  - cbn beta. intros _ w' [Hs Ht]. step. by eapply (Inv_told w p po (TransportEvents.set_p_paused false po)).
Qed.

Lemma OnProducerNewRtpStream_ok w p po st : Inv no_gap w -> producers w !! p = Some po ->
  total (TransportEvents.OnProducerNewRtpStream env p st) (fun _ => Inv no_gap) w.
Proof.
  intros Hi Hp. destruct (watch_entry w p po Hi Hp) as (cs & os & Hcs & _). unfold TransportEvents.OnProducerNewRtpStream. do 4 step.
  unfold OnTransportProducerNewRtpStream. eapply each_consumer_ok; [eapply routed_update; [apply Hi|done|done]|done|]. intros l.
  match goal with |- context [<[p := ?x]> (producers w)] => set (po' := x) end.
  apply (Inv_told w p po po' _ Hi Hp eq_refl eq_refl l); [by eexists _, _|]. wcbn. intros o x Ho.
  assert (watched ∅ (producers w) (mapProducerRtpObservers (router w)) (mapProducerConsumers (router w)) (observers w)) as Hw by apply Hi.
  eapply watched_update_producer in Hw; [by apply Hw|done|done|by right].
Qed.

(** The other callbacks of a producer reach its consumers only. *)
Lemma told_consumers_ok w p po f : Inv no_gap w -> producers w !! p = Some po -> total (each_consumer env p (call_consumer f)) (fun _ => Inv no_gap) w.
Proof.
  intros Hi Hp. destruct (watch_entry w p po Hi Hp) as (cs & os & Hcs & _). eapply each_consumer_ok; [apply Hi|done|]. intros l. by apply Inv_calls.
Qed.

(** ** Packets *)

Lemma forward_ok w l : (forall c, c ∈ l -> is_Some (consumers w !! c)) -> forall packet l0, mid_room packet ->
  total (forward l packet) (fun packet' w' => mid_room packet' /\ exists l', w' = with_calls w l') (with_calls w l0).
Proof.
  intros Hl. induction l as [|c l IH]; intros packet l0 Hr; cbn [forward]; [step; by eauto|].
  destruct (Hl c) as [o Ho]; [by left|]. do 3 step. eapply (post_mono _ (fun p' w' => mid_room p' /\ w' = with_calls w l0)).
  - case_bool_decide as Hm; [by step|]. apply post_from_res. destruct (UpdateMid_carries packet (c_mid o) Hr Hm) as (p' & -> & Hr' & _). done.
  - cbn beta. intros p' w' [Hr' ->]. do 2 step. apply (IH ltac:(intros; apply Hl; by right) p' (l0 ++ [CConsumerSendRtpPacket c p']) Hr').
Qed.

Lemma OnProducerRtpPacketReceived_ok w p po packet : Inv no_gap w -> producers w !! p = Some po -> mid_room packet ->
  total (TransportEvents.OnProducerRtpPacketReceived env p packet) (fun _ => Inv no_gap) w.
Proof.
  intros Hi Hp Hr. destruct (watch_entry w p po Hi Hp) as (cs & os & Hcs & Hos). unfold TransportEvents.OnProducerRtpPacketReceived. do 2 step.
  destruct (p_paused po) eqn:Epa; [by step|]. unfold OnTransportProducerRtpPacketReceived, map_at. do 3 step. rewrite Hcs. do 2 step.
  replace w with (with_calls w (calls w)) at 1 by by destruct w. eapply post_mono; [apply (forward_ok w (walk env cs)); [|done]|].
  { intros c Hc. rewrite (proj1 He), elem_of_elements in Hc. apply (proj1 (routed_mem _ _ _ _ _ _ _ _ _ (inv_media _ w Hi) c)).
    exists p. eapply (routed_member _ _ _ _ _ _ _ _ _ (inv_media _ w Hi)); [done|done|set_solver]. }
  cbn beta. intros packet' w' [Hr' [l ->]]. unfold each_observer. do 2 step. rewrite Hos.
  pose proof (inv_watched _ w Hi) as Hw. eapply post_mono; [apply (tell_observers_ok ∅ ∅)|]; wcbn.
  - intros o Ho. apply (watched_alive _ _ _ _ _ Hw p). by exists os.
  - apply Hw.
  - intros o x Ho _. by apply Hw.
  - intros w1 o x Ho (obs & l1 & -> & Hs) Hx Ht. wcbn. unfold ObserverReceiveRtpPacket. do 2 step. destruct (o_state x) as [s|s] eqn:Es.
    + destruct (audio_receive s p packet') as (s' & E & Hd); [|by apply ReadSsrcAudioLevel_room|].
      { intros _. destruct Ht as [_ H2]. eapply H2; [by exists os|done|set_solver|done]. }
      step. apply post_from_res. rewrite E. unfold store_observer. repeat step. exists (AudioLevel s'), l1. split; [done|]. by eapply tracks_audio.
    + do 2 step. eapply (speaker_step (ActiveSpeakerSpec.Packet (p_id po) packet' (nowMs env)) (ActiveSpeakerObserver.ReceiveRtpPacket s (p_id po) packet' (nowMs env)));
        [done|by apply ReadSsrcAudioLevel_room|done|done].
  - cbn beta. intros _ w' [Hs Ht]. apply (Inv_told w p po po w' Hi Hp eq_refl eq_refl l); rewrite (insert_id _ _ _ Hp); done.
Qed.

End Handlers.
End RouterEvents.
