(* ===== verification/TransportHandlers.v ===== *)
(** * What a transport receives, and the objects of the router

    Each handler of [TransportEvents] returns, without a fault, and keeps the invariant of
    [RouterInvariant]: what comes from the network and from SCTP reaches objects that exist. *)

From Stdlib Require Import SpecFloat.
From stdpp Require Import gmap.
From S2P Require Import Prelude StateMonad Utils RtcpReports RtcpFeedback RtcpTransport RtcpXr Rtcp RtpPacket RtpPacketSpec RtpListener DataChannel.
From S2P Require Import ChannelMessageRegistrator Ownership Router RouterObservers RouterInvariant RouterClosing RouterOpening RouterTeardown TransportEvents.

Module TransportHandlers.

Import Router RouterInvariant RouterClosing RouterOpening RouterTeardown TransportEvents.

(** ** Calls and nothing else *)

Definition calls_only (w w' : World) : Prop := exists l, w' = with_calls w l.

Abbreviation quiet w := (steady (calls_only w) (fun _ => False)).

Lemma calls_only_refl w : calls_only w w.
Proof. exists (calls w). by destruct w. Qed.

Lemma quiet_log w c : quiet w (log c).
Proof. intros w' [l ->]. by eexists. Qed.

Lemma quiet_call_consumer w c f : is_Some (consumers w !! c) -> quiet w (call_consumer f c).
Proof. intros [o Ho] w' [l ->]. unfold call_consumer. repeat step. by eexists. Qed.

Lemma quiet_call_producer w p f : is_Some (producers w !! p) -> quiet w (call_producer f p).
Proof. intros [o Ho] w' [l ->]. unfold call_producer. repeat step. by eexists. Qed.

Lemma quiet_get_consumer w c : is_Some (consumers w !! c) -> quiet w (get_consumer c).
Proof. intros [o Ho] w' [l ->]. repeat step. by eexists. Qed.

Lemma quiet_from_res {A} w (r : res A) : safe r -> quiet w (from_res r).
Proof. intros [a ->] w' Hw. exact Hw. Qed.

Lemma quiet_for_each {A} w (f : A -> R unit) l : (forall x, x ∈ l -> quiet w (f x)) -> quiet w (for_each f l).
Proof. intros H w' Hw. apply post_for_each; [|done]. intros x w2 Hx Hw2. by apply H. Qed.

#[local] Hint Resolve quiet_log quiet_call_consumer quiet_call_producer : steady.

Lemma quiet_Inv {A} g w (m : R A) : quiet w m -> Inv g w -> total m (fun _ => Inv g) w.
Proof. intros Hm Hi. eapply post_mono; [apply Hm, calls_only_refl|]. intros _ w' [l ->]. by apply Inv_calls. Qed.

Section Handlers.

Context (ln : spec_float -> spec_float) (env : Env) (He : env_ok env) (w : World) (Hi : Inv no_gap w) (t : address) (T : TransportObject).
Context (HT : transports w !! t = Some T).

(** *** The objects of the tables *)

Lemma ssrc_consumer ssrc c : GetConsumerByMediaSsrc T ssrc = Some c -> is_Some (consumers w !! c).
Proof.
  intros E. destruct (inv_ssrcs _ _ Hi t (mapSsrcConsumer T) ssrc c) as (o & Ho & _); [by apply fmap_at|set_solver|done|by eexists].
Qed.

Lemma table_consumer c : c ∈ values env (t_mapConsumers T) -> is_Some (consumers w !! c).
Proof. intros (k & _ & Hk)%list_elem_of_omap. destruct (entry _ _ _ _ _ _ _ _ _ _ (inv_consumers _ _ Hi) HT Hk) as (o & Ho & _). by eexists. Qed.

Lemma table_dataConsumer c : c ∈ values env (t_mapDataConsumers T) -> is_Some (dataConsumers w !! c).
Proof. intros (k & _ & Hk)%list_elem_of_omap. destruct (entry _ _ _ _ _ _ _ _ _ _ (inv_dataConsumers _ _ Hi) HT Hk) as (o & Ho & _). by eexists. Qed.

Lemma listened_producer p : rtp_targets (rtpListener T) p -> is_Some (producers w !! p).
Proof.
  intros E. destruct (inv_rtpListener _ _ Hi t (rtpListener T) p) as (o & Ho & _); [by apply fmap_at|set_solver|done|by eexists].
Qed.

Lemma ssrc_producer ssrc p : RtpListener.GetProducer_ssrc (rtpListener T) ssrc = Some p -> is_Some (producers w !! p).
Proof. intros E. apply listened_producer. left. by exists ssrc. Qed.

(** *** RTCP *)

(** The reports have an SSRC. *)
Definition rtcp_ok (packet : packet) : Prop :=
  match packet with
  | ReceiverReportPacket rr => Forall (fun r => 4 <= zlen r) (ReceiverReportPacket.reports rr)
  | SenderReportPacket sr => Forall (fun r => 4 <= zlen r) (SenderReportPacket.reports sr)
  | FeedbackPsFirPacket p => Forall (fun i => 4 <= zlen (raw i)) (FeedbackPacket.items p)
  | ExtendedReportPacket xr => Forall (fun b => match b with
                                                | ExtendedReportBlock.DLRR r => Forall (fun i => 4 <= zlen i) (DelaySinceLastRr.ssrcInfos r)
                                                | ExtendedReportBlock.RRT _ => True
                                                end) (ExtendedReportPacket.reports xr)
  | _ => True
  end.

Lemma ssrc_safe l : 4 <= zlen l -> safe (Byte.Get4Bytes l 0).
Proof. intros H. destruct (Get4Bytes_safe l 0) as [v ->]; [lia..|apply safe_ok]. Qed.

Lemma quiet_receiver_report r : 4 <= zlen r -> quiet w (handle_receiver_report T r).
Proof.
  intros Hr. unfold handle_receiver_report. apply steady_bind; [by apply quiet_from_res, ssrc_safe|]. intros ssrc.
  destruct (GetConsumerByMediaSsrc T ssrc) eqn:E; [|apply steady_ret]. eapply quiet_call_consumer, ssrc_consumer, E.
Qed.

Lemma quiet_key_frame_request fir ssrc : quiet w (handle_key_frame_request T fir ssrc).
Proof.
  unfold handle_key_frame_request. destruct (_ =? _); [apply steady_ret|]. destruct (GetConsumerByMediaSsrc T ssrc) eqn:E; [|apply steady_ret].
  eapply quiet_call_consumer, ssrc_consumer, E.
Qed.

Lemma quiet_sender_report r : 4 <= zlen r -> quiet w (handle_sender_report T r).
Proof.
  intros Hr. unfold handle_sender_report. apply steady_bind; [by apply quiet_from_res, ssrc_safe|]. intros ssrc.
  destruct (RtpListener.GetProducer_ssrc (rtpListener T) ssrc) eqn:E; [|apply steady_ret]. eapply quiet_call_producer, ssrc_producer, E.
Qed.

Lemma quiet_ssrc_info xrSsrc info : 4 <= zlen info -> quiet w (handle_ssrc_info T xrSsrc info).
Proof.
  intros Hr. unfold handle_ssrc_info. destruct (ssrc_safe info Hr) as [s0 E0]. unfold DelaySinceLastRr.GetSsrc. rewrite E0.
  assert (exists info' s1, (if s0 =? 0 then from_res (DelaySinceLastRr.SetSsrc info xrSsrc) else mret info : R (list Z)) = (fun w => Ok (info', w)) /\
    Byte.Get4Bytes info' 0 = Ok s1) as (info' & s1 & E1 & E2).
  { destruct (s0 =? 0); [|by exists info, s0]. unfold DelaySinceLastRr.SetSsrc. destruct (Set4Bytes_spec info 0 xrSsrc) as (d & E & G & _); [lia..|].
    exists d, (u32 xrSsrc). by rewrite E. }
  intros w' Hw. apply post_bind, post_from_res, post_bind. rewrite E1. unfold post at 1. apply post_bind. rewrite E2. apply post_from_res.
  destruct (RtpListener.GetProducer_ssrc (rtpListener T) s1) as [p|] eqn:E; [|by cbn]. apply (quiet_call_producer w p); [by eapply ssrc_producer|done].
Qed.

Lemma quiet_first_rtt l : (forall c, c ∈ l -> is_Some (consumers w !! c)) -> quiet w (first_rtt env l).
Proof.
  induction l as [|c l IH]; intros Hl; cbn [first_rtt]; [apply steady_ret|]. apply steady_bind; [apply quiet_get_consumer, Hl; by left|]. intros _.
  destruct (consumer_active env c); [apply steady_ret|]. apply IH. intros d Hd. apply Hl. by right.
Qed.

Lemma quiet_extended_report xrSsrc b : match b with
    | ExtendedReportBlock.DLRR r => Forall (fun i => 4 <= zlen i) (DelaySinceLastRr.ssrcInfos r)
    | ExtendedReportBlock.RRT _ => True
    end -> quiet w (handle_extended_report env T xrSsrc b).
Proof.
  destruct b as [r|r]; cbn [handle_extended_report]; intros Hb.
  all: try (apply quiet_for_each; intros x Hx; (apply quiet_ssrc_info; by apply (proj1 (Forall_forall _ _) Hb)) || (apply quiet_call_consumer; by apply table_consumer)).
Qed.

Lemma HandleRtcpPacket_quiet packet : rtcp_ok packet -> quiet w (HandleRtcpPacket env t packet).
Proof.
  intros Hok w' [l ->]. unfold HandleRtcpPacket. do 2 step. match goal with |- total ?m _ _ => cut (quiet w m); [intros Hq; apply Hq; by eexists|] end.
  destruct packet; cbn [rtcp_ok] in Hok; try apply steady_ret.
  - apply quiet_for_each. intros r Hr. apply quiet_sender_report. by apply (proj1 (Forall_forall _ _) Hok).
  - apply steady_bind; [apply quiet_for_each; intros r Hr; apply quiet_receiver_report; by apply (proj1 (Forall_forall _ _) Hok)|]. intros _.
    apply steady_only. intros _. apply steady_bind; [apply quiet_first_rtt, table_consumer|]. intros rtt. apply quiet_log.
  - destruct (GetConsumerByMediaSsrc T _) eqn:E; [|apply steady_ret]. eapply quiet_call_consumer, ssrc_consumer, E.
  - apply steady_only. intros _. apply quiet_log.
  - apply quiet_key_frame_request.
  - apply quiet_for_each. intros i Hx. unfold handle_fir_item. apply steady_bind; [apply quiet_from_res, ssrc_safe; by apply (proj1 (Forall_forall _ _) Hok)|].
    intros ssrc. apply quiet_key_frame_request.
  - apply steady_only. intros _. apply quiet_log.
  - apply quiet_for_each. intros b Hb. apply quiet_extended_report. by apply (proj1 (Forall_forall _ _) Hok).
Qed.

Lemma ReceiveRtcpPacket_ok packets : Forall rtcp_ok packets -> total (ReceiveRtcpPacket env t packets) (fun _ => Inv no_gap) w.
Proof.
  intros Hok. apply quiet_Inv; [|exact Hi]. apply quiet_for_each. intros p Hp. apply HandleRtcpPacket_quiet. by apply (proj1 (Forall_forall _ _) Hok).
Qed.

(** *** RTP *)

(** A packet that [Parse] accepted. *)
Definition parsed (packet : RtpPacket.t) : Prop := exists data len p0, bytes_ok data /\ 0 <= len <= zlen data /\
  RtpPacket.Parse data len = Ok (Some p0) /\ packet = RtpPacket.set_ids p0 (RtpPacket.ids packet).

Lemma parsed_ssrc packet i : parsed packet -> safe (RtpPacket.GetSsrc (RtpPacket.set_ids packet i)).
Proof.
  intros (data & len & p0 & Hb & Hl & HP & E). destruct (parse_cases data len Hb Hl) as [[Ep _]|(v & one & two & Hv & _ & Ep & Hel)]; rewrite HP in Ep; [done|].
  injection Ep as ->. rewrite E. unfold RtpPacket.GetSsrc. cbn [RtpPacket.mem RtpPacket.set_ids obj].
  destruct (Get4Bytes_safe (encode v ++ drop (Z.to_nat len) data) 8) as [s ->]; [lia| |apply safe_ok].
  rewrite zlen_app. pose proof (zlen_nonneg (drop (Z.to_nat len) data)). unfold encode. rewrite zlen_app, zlen_header.
  match goal with |- _ <= 12 + zlen ?l + _ => pose proof (zlen_nonneg l) end. lia.
Qed.

Lemma parsed_GetProducer l packet i : parsed packet -> safe (RtpListener.GetProducer l (RtpPacket.set_ids packet i)).
Proof.
  intros Hp. destruct (parsed_ssrc packet i Hp) as [s Es]. destruct Hp as (data & len & p0 & Hb & Hl & HP & E).
  destruct (extension_reads_safe data len p0 i Hb Hl HP) as ((m & Em & _) & (r & Er & _) & _). unfold RtpListener.GetProducer. rewrite Es. cbn [mbind res_bind].
  replace (RtpPacket.set_ids packet i) with (RtpPacket.set_ids p0 i) by by rewrite E. destruct (RtpListener.ssrcTable l !! s); [by eexists|]. rewrite Em. cbn [mbind res_bind].
  destruct (m ≫= _); [by eexists|]. rewrite Er. cbn [mbind res_bind]. destruct (r ≫= _); by eexists.
Qed.

(** A packet adds a route only to a producer that has one. *)
Lemma GetProducer_targets l packet r l' : RtpListener.GetProducer l packet = Ok (r, l') ->
  (forall q, rtp_targets l' q -> rtp_targets l q) /\ (forall q, r = Some q -> rtp_targets l q).
Proof.
  unfold RtpListener.GetProducer. intros H. apply res_bind_ok in H as (s & _ & H). destruct (RtpListener.ssrcTable l !! s) as [q|] eqn:E.
  { injection H as <- <-. split; [done|]. intros q' [= <-]. left. by exists s. }
  assert (forall q, rtp_targets l q -> forall q', rtp_targets (RtpListener.set_ssrcTable l (<[s := q]> (RtpListener.ssrcTable l))) q' -> rtp_targets l q') as Ht.
  { intros q Hq q' [[k Hk]|Hq']; [|by right]. cbn in Hk. apply lookup_insert_Some in Hk as [[_ <-]|[_ Hk]]; [done|left; by exists k]. }
  apply res_bind_ok in H as (m & _ & H). destruct (m ≫= _) as [q|] eqn:Em.
  { injection H as <- <-. assert (rtp_targets l q) as Hq by (right; left; destruct m as [m|]; [by exists m|done]). split; [by apply Ht|by intros q' [= <-]]. }
  apply res_bind_ok in H as (rr & _ & H). destruct (rr ≫= _) as [q|] eqn:Er; injection H as <- <-; [|by split].
  assert (rtp_targets l q) as Hq by (right; right; destruct rr as [rr|]; [by exists rr|done]). split; [by apply Ht|by intros q' [= <-]].
Qed.

Lemma Inv_rtpListener w1 T1 l cs : Inv no_gap w1 -> transports w1 !! t = Some T1 -> (forall q, rtp_targets l q -> rtp_targets (rtpListener T1) q) ->
  Inv no_gap (mkWorld (routerId w1) (router w1) (registrator w1) (<[t := with_listeners l (sctpListener T1) T1]> (transports w1)) (producers w1)
    (consumers w1) (dataProducers w1) (dataConsumers w1) (observers w1) (timers w1) (fresh w1) cs).
Proof.
  clear. intros Hi HT Hl. inv_split Hi. rewrite fmap_insert. eapply listened_change; [done|by apply fmap_at|]. intros q Hq. left. by apply Hl.
Qed.

Lemma ReceiveRtpPacket_ok packet discarded : parsed packet -> total (ReceiveRtpPacket env t packet discarded) (fun _ => Inv no_gap) w.
Proof.
  intros Hp. unfold ReceiveRtpPacket. do 3 step. cbn zeta. set (pk := RtpPacket.set_ids packet _).
  assert (calls_only w w) as [l0 E0] by apply calls_only_refl. rewrite E0 at 1.
  eapply (post_mono _ (fun _ => calls_only w)); [apply post_only; [intros _; by eexists|intros _; by eexists]|]. intros _ w1 [l1 ->]. step.
  destruct (parsed_GetProducer (rtpListener T) packet (listener_ids (RtpPacket.ids packet) (recvRtpHeaderExtensionIds (t_state T))) Hp) as [[r l] E].
  fold pk in E. destruct (GetProducer_targets _ _ _ _ E) as [Hl Hr]. apply post_from_res. rewrite E. cbn beta iota. do 3 step.
  destruct (parsed_ssrc packet (listener_ids (RtpPacket.ids packet) (recvRtpHeaderExtensionIds (t_state T))) Hp) as [s Es]. fold pk in Es.
  apply post_from_res. rewrite Es. destruct r as [p|].
  - destruct (listened_producer p (Hr p eq_refl)) as [po Hpo]. unfold call_producer. repeat step; by apply (Inv_rtpListener w T).
  - step. by apply (Inv_rtpListener w T).
Qed.

(** *** Key frames *)

Lemma OnConsumerKeyFrameRequested_ok c mappedSsrc : is_Some (consumers w !! c) -> total (OnConsumerKeyFrameRequested t c mappedSsrc) (fun _ => Inv no_gap) w.
Proof.
  intros Hc. unfold OnConsumerKeyFrameRequested. do 2 step. destruct (connected (t_state T)); [|by step].
  destruct (proj2 (routed_mem _ _ _ _ _ _ _ _ _ (inv_media _ w Hi) c)) as [p Hp]; [split; [done|set_solver]|].
  destruct (routed_source _ _ _ _ _ _ _ _ _ (inv_media _ w Hi) c p Hp) as (cs & Hcs & _).
  destruct (proj1 (routed_members _ _ _ _ _ _ _ _ _ (inv_media _ w Hi) p)) as [[po Hpo] _]; [by eexists|].
  unfold OnTransportConsumerKeyFrameRequested, map_at. do 3 step. rewrite Hp. repeat step. by apply Inv_calls.
Qed.

End Handlers.

(** *** Data consumers *)

(** The data consumers have changed their state. *)
Definition dataConsumers_only (w w' : World) : Prop :=
  Inv no_gap w' /\ transports w' = transports w /\ forall c, is_Some (dataConsumers w !! c) -> is_Some (dataConsumers w' !! c).

Lemma dataConsumers_refl w : Inv no_gap w -> dataConsumers_only w w.
Proof. by split. Qed.

Lemma dataConsumers_step w w' c f : dataConsumers_only w w' -> is_Some (dataConsumers w !! c) -> total (on_dataConsumer c f) (fun _ => dataConsumers_only w) w'.
Proof.
  intros (Hi & Ht & Hd) Hc. destruct (Hd c Hc) as [o Ho]. eapply on_dataConsumer_ok; [exact Ho|]. intros l. split_and!; [by apply Inv_put_dataConsumer|done|].
  intros d Hdd. cbn. destruct (decide (c = d)) as [<-|Hne]; [rewrite lookup_insert_eq; by eexists|]. rewrite lookup_insert_ne by done. by apply Hd.
Qed.

Section Connection.

Context (ln : spec_float -> spec_float) (env : Env) (He : env_ok env).

Lemma each_dataConsumer_ok w t T f : Inv no_gap w -> transports w !! t = Some T ->
  total (for_each (fun c => on_dataConsumer c f) (values env (t_mapDataConsumers T))) (fun _ => dataConsumers_only w) w.
Proof.
  intros Hi HT. apply post_for_each; [|by apply dataConsumers_refl]. intros c w' Hc Hw. apply dataConsumers_step; [done|]. by eapply (table_dataConsumer env).
Qed.

Lemma each_sctp_consumer_ok w t T f : Inv no_gap w -> transports w !! t = Some T -> total (each_sctp_consumer env t f) (fun _ => dataConsumers_only w) w.
Proof.
  intros Hi HT. unfold each_sctp_consumer. do 2 step. apply post_for_each; [|by apply dataConsumers_refl]. intros c w' Hc Hw.
  assert (is_Some (dataConsumers w !! c)) as Hcw by (by eapply (table_dataConsumer env)). destruct (proj2 (proj2 Hw) c Hcw) as [o Ho]. do 2 step.
  apply post_only; [intros _; by apply dataConsumers_step|done].
Qed.

Lemma Connected_ok w t T : Inv no_gap w -> transports w !! t = Some T -> total (Connected env t) (fun _ => Inv no_gap) w.
Proof.
  intros Hi HT. unfold Connected. do 5 step. match goal with |- post _ _ _ ?x => set (w1 := x) end.
  set (T1 := with_state (fun s => set_connected (rtcpTimer s) true s) T).
  assert (Inv no_gap w1) as Hi1 by (by apply (Inv_put_state no_gap w t T)). assert (transports w1 !! t = Some T1) as HT1 by apply lookup_insert_eq.
  apply (call_consumers_ok env no_gap w1 t T1); [done|set_solver|done|]. intros l1.
  assert (Inv no_gap (with_calls w1 l1)) as Hi2 by by apply Inv_calls. step.
  eapply post_mono; [by eapply (each_dataConsumer_ok _ t T1)|]. cbn beta. intros _ w2 (Hi3 & E3 & _). step.
  assert (transports w2 !! t = Some T1) as HT2 by by rewrite E3. eapply (post_mono _ (fun _ w' => Inv no_gap w' /\ transports w' !! t = Some T1)).
  - apply post_only; intros _; [step|]; (split; [|done]); [by apply Inv_calls|done].
  - intros _ w3 [Hi4 HT3]. repeat step; by apply (Inv_put_state no_gap w3 t T1).
Qed.

Lemma Disconnected_ok w t T : Inv no_gap w -> transports w !! t = Some T -> total (Disconnected env t) (fun _ => Inv no_gap) w.
Proof.
  intros Hi HT. unfold Disconnected. do 5 step. match goal with |- post _ _ _ ?x => set (w1 := x) end.
  set (T1 := with_state (fun s => set_connected (rtcpTimer s) false s) T).
  assert (Inv no_gap w1) as Hi1 by (by apply (Inv_put_state no_gap w t T)). assert (transports w1 !! t = Some T1) as HT1 by apply lookup_insert_eq.
  apply (call_consumers_ok env no_gap w1 t T1); [done|set_solver|done|]. intros l1.
  assert (Inv no_gap (with_calls w1 l1)) as Hi2 by by apply Inv_calls. step.
  eapply post_mono; [by eapply (each_dataConsumer_ok _ t T1)|]. cbn beta. intros _ w2 (Hi3 & E3 & _).
  assert (transports w2 !! t = Some T1) as HT2 by by rewrite E3. repeat step; by apply (Inv_put_state no_gap w2 t T1).
Qed.

(** *** SCTP *)

Lemma sctp_state_ok w t T f c : Inv no_gap w -> transports w !! t = Some T ->
  total (_ ← each_sctp_consumer env t f; log c) (fun _ => Inv no_gap) w.
Proof. intros Hi HT. step. eapply post_mono; [by eapply each_sctp_consumer_ok|]. cbn beta. intros _ w' (Hi' & _). step. by apply Inv_calls. Qed.

Lemma OnSctpAssociationBufferedAmount_ok w t T n : Inv no_gap w -> transports w !! t = Some T ->
  total (OnSctpAssociationBufferedAmount env t n) (fun _ => Inv no_gap) w.
Proof. intros Hi HT. eapply post_mono; [by eapply each_sctp_consumer_ok|]. by intros _ w' (Hi' & _). Qed.

Lemma Inv_put_dataProducer w p o s : Inv no_gap w -> dataProducers w !! p = Some o -> DataProducer.type s = DataProducer.type (dp_state o) ->
  Inv no_gap (mkWorld (routerId w) (router w) (registrator w) (transports w) (producers w) (consumers w)
    (<[p := {| dp_id := dp_id o; dp_transport := dp_transport o; dp_state := s |}]> (dataProducers w)) (dataConsumers w) (observers w) (timers w)
    (fresh w) (calls w)).
Proof.
  intros Hi Hp Hs. inv_split Hi.
  - by eapply owned_update.
  - eapply listened_update; [done|done|done|]. unfold is_sctp. cbn. by rewrite Hs.
  - by eapply routed_update.
Qed.

Lemma DataProducerReceiveMessage_ok w p ppid msg : Inv no_gap w -> is_Some (dataProducers w !! p) ->
  total (DataProducerReceiveMessage env p ppid msg) (fun _ => Inv no_gap) w.
Proof.
  intros Hi [o Ho]. unfold DataProducerReceiveMessage. do 2 step. cbn [DataProducer.ReceiveMessage for_each]. do 3 step.
  match goal with |- post _ _ _ ?x => set (w1 := x) end. assert (Inv no_gap w1) as Hi1 by by eapply Inv_put_dataProducer.
  destruct (proj2 (routed_members _ _ _ _ _ _ _ _ _ (inv_data _ w1 Hi1) p)) as [cs Hcs].
  { split; [|set_solver]. cbn. rewrite lookup_insert_eq. by eexists. }
  clearbody w1. unfold OnTransportDataProducerMessageReceived, map_at. do 3 step. rewrite Hcs. step.
  eapply (post_mono _ (fun _ => dataConsumers_only w1)); [|intros _ w' (? & _); by step].
  apply post_for_each; [|by apply dataConsumers_refl]. intros c w' Hc Hw. apply dataConsumers_step; [done|]. rewrite (proj1 He), elem_of_elements in Hc.
  apply (proj1 (routed_mem _ _ _ _ _ _ _ _ _ (inv_data _ w1 Hi1) c)). exists p.
  eapply (routed_member _ _ _ _ _ _ _ _ _ (inv_data _ w1 Hi1)); [done|done|set_solver].
Qed.

Lemma OnSctpAssociationMessageReceived_ok w t T streamId ppid msg : Inv no_gap w -> transports w !! t = Some T ->
  total (OnSctpAssociationMessageReceived env t streamId ppid msg) (fun _ => Inv no_gap) w.
Proof.
  intros Hi HT. unfold OnSctpAssociationMessageReceived. do 2 step. destruct (SctpListener.GetDataProducer (sctpListener T) streamId) as [p|] eqn:E; [|by step].
  apply DataProducerReceiveMessage_ok; [done|]. destruct (inv_sctpListener _ _ Hi t (sctpListener T) p) as (o & Ho & _); [by apply fmap_at|set_solver|by exists streamId|by eexists].
Qed.

(** *** Limits and traces *)

Lemma TRANSPORT_SET_MAX_INCOMING_BITRATE_ok w t T b : Inv no_gap w -> transports w !! t = Some T ->
  total (TRANSPORT_SET_MAX_INCOMING_BITRATE t b) (fun _ => Inv no_gap) w.
Proof. intros Hi HT. unfold TRANSPORT_SET_MAX_INCOMING_BITRATE. repeat step; by apply (Inv_put_state no_gap w t T). Qed.

Lemma TRANSPORT_SET_MAX_OUTGOING_BITRATE_ok w t T b : Inv no_gap w -> transports w !! t = Some T ->
  total (TRANSPORT_SET_MAX_OUTGOING_BITRATE t b) (fun _ => Inv no_gap) w.
Proof.
  intros Hi HT. unfold TRANSPORT_SET_MAX_OUTGOING_BITRATE. do 2 step. cbn zeta. destruct (_ && _); [by step|]. destruct (_ && _); [by step|].
  repeat step; by apply (Inv_put_state no_gap w t T).
Qed.

Lemma TRANSPORT_SET_MIN_OUTGOING_BITRATE_ok w t T b : Inv no_gap w -> transports w !! t = Some T ->
  total (TRANSPORT_SET_MIN_OUTGOING_BITRATE t b) (fun _ => Inv no_gap) w.
Proof.
  intros Hi HT. unfold TRANSPORT_SET_MIN_OUTGOING_BITRATE. do 2 step. cbn zeta. destruct (_ && _); [by step|]. destruct (_ && _ && _); [by step|].
  repeat step; by apply (Inv_put_state no_gap w t T).
Qed.

Lemma TRANSPORT_ENABLE_TRACE_EVENT_ok w t T a b : Inv no_gap w -> transports w !! t = Some T ->
  total (TRANSPORT_ENABLE_TRACE_EVENT t a b) (fun _ => Inv no_gap) w.
Proof. intros Hi HT. unfold TRANSPORT_ENABLE_TRACE_EVENT. repeat step. by apply (Inv_put_state no_gap w t T). Qed.

End Connection.
End TransportHandlers.
