(* ===== verification/RouterTimers.v ===== *)
(** * The events of a router, and the timers of its observers

    What can happen to a router.  The timer of an observer belongs to an observer that exists, or
    to one whose construction was refused: no operation of a router or a transport deletes an
    observer and leaves its timer. *)

From Stdlib Require Import SpecFloat.
From stdpp Require Import gmap.
From S2P Require Import Prelude StateMonad Rtcp RtpPacket AudioLevelObserver ActiveSpeakerObserver DataChannel ChannelMessageRegistrator.
From S2P Require Import Consumer RtpListener Router TransportEvents WorkerRequests.

Module RouterTimers.

Import Router TransportEvents WorkerRequests.

(** What happens: messages of the control process, timers, and what the objects are told. *)
Inductive Event :=
| Request (handlerId : str) (m : Method)
| Notification (handlerId : str) (ppid : option Z) (msg : list Z)
| PayloadRequest (handlerId : str) (ppid : option Z) (msg : list Z)
| ObserverTimer (o : address)
| TransportConnected (t : address)
| TransportDisconnected (t : address)
| TransportListenServerClosed (t : address)
| TransportRtp (t : address) (packet : RtpPacket.t) (discarded : bool)
| TransportRtcp (t : address) (packets : list packet)
| SctpState (t : address) (s : Router.SctpState)
| SctpBufferedAmount (t : address) (amount : Z)
| SctpMessage (t : address) (streamId ppid : Z) (msg : list Z)
| ConsumerKeyFrameRequested (t c : address) (mappedSsrc : Z)
| ProducerNewRtpStream (p : address) (st : Stream)
| ProducerRtpStreamScore (p : address) (rtpStream score previousScore : Z)
| ProducerRtcpSenderReport (p : address) (rtpStream : Z) (first : bool)
| ProducerNeedWorstRemoteFractionLost (p : address) (mappedSsrc : Z)
| ProducerRtpPacket (p : address) (packet : RtpPacket.t).

Definition run (ln : spec_float -> spec_float) (env : Env) (e : Event) : R unit :=
  match e with
  | Request id m => _ ← HandleRequest ln env id m; mret tt
  | Notification id ppid msg => _ ← HandleNotification env id ppid msg; mret tt
  | PayloadRequest id ppid msg => _ ← HandlePayloadRequest id ppid msg; mret tt
  | ObserverTimer o => ObserverOnTimer ln env o
  | TransportConnected t => Connected env t
  | TransportDisconnected t => Disconnected env t
  | TransportListenServerClosed t => OnTransportListenServerClosed ln env t
  | TransportRtp t packet discarded => ReceiveRtpPacket env t packet discarded
  | TransportRtcp t packets => ReceiveRtcpPacket env t packets
  | SctpState t SctpConnecting => OnSctpAssociationConnecting t
  | SctpState t SctpConnected => OnSctpAssociationConnected env t
  | SctpState t SctpFailed => OnSctpAssociationFailed env t
  | SctpState t SctpClosed => OnSctpAssociationClosed env t
  | SctpBufferedAmount t n => OnSctpAssociationBufferedAmount env t n
  | SctpMessage t streamId ppid msg => OnSctpAssociationMessageReceived env t streamId ppid msg
  | ConsumerKeyFrameRequested t c ssrc => OnConsumerKeyFrameRequested t c ssrc
  | ProducerNewRtpStream p st => OnProducerNewRtpStream env p st
  | ProducerRtpStreamScore p st score previous => OnTransportProducerRtpStreamScore env p st score previous
  | ProducerRtcpSenderReport p st first => OnTransportProducerRtcpSenderReport env p st first
  | ProducerNeedWorstRemoteFractionLost p ssrc => OnTransportNeedWorstRemoteFractionLost env p ssrc
  | ProducerRtpPacket p packet => OnProducerRtpPacketReceived env p packet
  end.

(** The timers that are not those of the observers [refused] belong to observers that exist. *)
Definition owned (refused : gset address) (w : World) : Prop := timers w ⊆ dom (observers w) ∪ refused.

Section Owned.

Context (ln : spec_float -> spec_float) (env : Env) (refused : gset address).

Abbreviation keeps := (always (owned refused)).

Lemma keeps_change f : (forall w, timers (f w) = timers w /\ observers (f w) = observers w) -> keeps (change f).
Proof. intros H. apply steady_change. intros w Hw. destruct (H w) as [H1 H2]. unfold owned. by rewrite H1, H2. Qed.

Lemma keeps_same {A} (m : R A) : (forall w, match m w with Ok (_, w') => timers w' = timers w /\ observers w' = observers w | Fault _ => True end) -> keeps m.
Proof. intros H w Hw. unfold post. specialize (H w). destruct (m w) as [[a w']|]; [|done]. destruct H as [H1 H2]. unfold owned. by rewrite H1, H2. Qed.

Lemma keeps_alloc : keeps alloc.
Proof. by apply keeps_same. Qed.
Lemma keeps_get_transport t : keeps (get_transport t).
Proof. apply keeps_same. intros w. unfold get_transport. by destruct (transports w !! t). Qed.
Lemma keeps_get_producer t : keeps (get_producer t).
Proof. apply keeps_same. intros w. unfold get_producer. by destruct (producers w !! t). Qed.
Lemma keeps_get_consumer t : keeps (get_consumer t).
Proof. apply keeps_same. intros w. unfold get_consumer. by destruct (consumers w !! t). Qed.
Lemma keeps_get_dataProducer t : keeps (get_dataProducer t).
Proof. apply keeps_same. intros w. unfold get_dataProducer. by destruct (dataProducers w !! t). Qed.
Lemma keeps_get_dataConsumer t : keeps (get_dataConsumer t).
Proof. apply keeps_same. intros w. unfold get_dataConsumer. by destruct (dataConsumers w !! t). Qed.
Lemma keeps_get_observer t : keeps (get_observer t).
Proof. apply keeps_same. intros w. unfold get_observer. by destruct (observers w !! t). Qed.
Lemma keeps_store_observer o b s : keeps (store_observer o b s).
Proof. apply steady_change. intros w Hw. unfold owned in *. cbn. rewrite dom_insert. set_solver. Qed.

#[local] Hint Resolve keeps_alloc keeps_get_transport keeps_get_producer keeps_get_consumer keeps_get_dataProducer keeps_get_dataConsumer
  keeps_get_observer keeps_store_observer : steady.

(** The destructor of an observer stops its timer. *)
Lemma keeps_delete_observer o : keeps (delete_observer o).
Proof.
  unfold delete_observer, set_timers, set_observers. apply steady_bind; [apply keeps_get_observer|]. intros b.
  apply steady_bind; [by apply keeps_change|]. intros _ w Hw. apply post_bind, post_change, post_change. unfold owned in *. cbn.
  rewrite dom_delete. set_solver.
Qed.

(** Operations step by step: an operation that is neither a primitive nor known is unfolded. *)
Ltac head m := lazymatch m with ?f _ => head f | _ => m end.
Ltac keeps :=
  repeat first
    [ progress intros
    | solve [eauto with steady]
    | by apply keeps_change
    | apply steady_bind
    | match goal with
      | |- steady _ _ (let '(_, _) := ?x in _) => destruct x
      | |- steady _ _ (if ?b then _ else _) => destruct b
      | |- steady _ _ (match ?x with _ => _ end) => destruct x
      end
    | apply steady_only
    | apply steady_for_each
    | match goal with |- steady _ _ (let x := _ in _) => cbv zeta end
    | match goal with |- steady _ _ ?m => let h := head m in unfold h end ].

Lemma keeps_forward l : forall packet, keeps (forward l packet).
Proof. induction l as [|c l IH]; intros packet; cbn [forward]; keeps. Qed.

Lemma keeps_first_rtt l : keeps (first_rtt env l).
Proof. induction l as [|c l IH]; cbn [first_rtt]; keeps. Qed.

#[local] Hint Resolve keeps_delete_observer keeps_forward keeps_first_rtt : steady.

Lemma keeps_transport_request t m : keeps (transport_request ln env t m).
Proof. destruct m; cbn [transport_request]; keeps. Qed.
Lemma keeps_producer_request p m : keeps (producer_request env p m).
Proof. destruct m; cbn [producer_request]; keeps. Qed.
Lemma keeps_observer_request o m : keeps (observer_request ln env o m).
Proof. destruct m; cbn [observer_request]; keeps. Qed.

#[local] Hint Resolve keeps_transport_request keeps_producer_request keeps_observer_request : steady.

(** The requests that create an observer. *)
Definition creates_observer (m : Method) : bool :=
  match m with MRouter (CreateAudioLevelObserver _ _ _ _) | MRouter (CreateActiveSpeakerObserver _ _) => true | _ => false end.

Lemma owned_HandleRequest id m : creates_observer m = false -> keeps (HandleRequest ln env id m).
Proof. intros H. unfold HandleRequest. keeps. Qed.

Lemma keeps_HandleNotification id ppid msg : keeps (HandleNotification env id ppid msg).
Proof. unfold HandleNotification. keeps. Qed.
Lemma keeps_HandlePayloadRequest id ppid msg : keeps (HandlePayloadRequest id ppid msg).
Proof. unfold HandlePayloadRequest. keeps. Qed.

(** The observer that a request constructs and then refuses. *)
Definition refused_observer (id : str) (m : Method) (w : World) : gset address :=
  match HandleRequest ln env id m w with
  | Ok (Rejected, w') => if creates_observer m && negb (fresh w' =? fresh w)%positive then {[fresh w]} else ∅
  | _ => ∅
  end.

(** A creation leaves one more timer only if an observer was constructed and refused. *)
Lemma create_owned id data w : owned refused w ->
  match ROUTER_CREATE_OBSERVER id data w with
  | Ok (Rejected, w') => owned (refused ∪ if negb (fresh w' =? fresh w)%positive then {[fresh w]} else ∅) w'
  | Ok (Accepted, w') => owned refused w'
  | Fault _ => True
  end.
Proof.
  intros Hw. unfold ROUTER_CREATE_OBSERVER, mbind, St_bind, asks. unfold owned in *.
  destruct (mapRtpObservers (router w) !! id), data; try (cbn; set_solver).
  unfold alloc, set_timers, change, register, mbind, St_bind, asks. destruct (ChannelMessageRegistrator.RegisterHandler _ _ _ _ _); cbn.
  - rewrite dom_insert. set_solver.
  - destruct (Pos.eqb_spec (Pos.succ (fresh w)) (fresh w)) as [E|_]; [lia|]. cbn. set_solver.
Qed.

Lemma HandleRequest_owned id m w : owned refused w ->
  post (HandleRequest ln env id m) (fun _ w' => owned (refused ∪ refused_observer id m w) w') (fun _ => True) w.
Proof.
  intros Hw. assert (owned refused w -> forall r, owned (refused ∪ r) w) as Hmono by (unfold owned; set_solver).
  destruct (creates_observer m) eqn:E.
  - unfold post, refused_observer. rewrite E. cbn [andb]. unfold HandleRequest, mbind, St_bind, asks.
    destruct m as [m| | |]; try discriminate E.
    destruct (ChannelMessageRegistrator.GetChannelRequestHandler (registrator w) id) as [[]|]; try (cbn; by apply Hmono).
    destruct m; try discriminate E; cbn [router_request].
    + pose proof (create_owned id0 (AudioLevel <$> AudioLevelObserver.make maxEntries threshold interval) w Hw) as H.
      destruct (ROUTER_CREATE_OBSERVER _ _ w) as [[[] w']|]; [|done|done]. unfold owned in *. set_solver.
    + pose proof (create_owned id0 (Some (ActiveSpeaker (ActiveSpeakerObserver.make interval))) w Hw) as H.
      destruct (ROUTER_CREATE_OBSERVER _ _ w) as [[[] w']|]; [|done|done]. unfold owned in *. set_solver.
  - eapply post_mono; [by apply owned_HandleRequest|]. cbn beta. unfold owned. set_solver.
Qed.

#[local] Hint Resolve keeps_HandleNotification keeps_HandlePayloadRequest : steady.

(** The observers that an event refuses. *)
Definition refused_by (e : Event) (w : World) : gset address :=
  match e with Request id m => refused_observer id m w | _ => ∅ end.

Lemma run_owned e w : owned refused w -> post (run ln env e) (fun _ w' => owned (refused ∪ refused_by e w) w') (fun _ => True) w.
Proof.
  intros Hw. assert (keeps (run ln env e) -> post (run ln env e) (fun _ w' => owned (refused ∪ refused_by e w) w') (fun _ => True) w) as H.
  { intros H. eapply post_mono; [by apply H|]. cbn beta. unfold owned. set_solver. }
  destruct e; [|apply H; cbn [run]; keeps..]. clear H. cbn [run refused_by]. apply post_bind.
  eapply post_mono; [by apply HandleRequest_owned|]. intros a w' H. exact H.
Qed.

End Owned.

End RouterTimers.
