(* ===== verification/RouterSpec.v ===== *)
(** * The objects of a router: no dangling pointer, no leak

    Over every history of requests, packets, messages, timers and states of connections, no
    handler follows a null or dangling pointer, fails an assertion or reads outside a container,
    except for the timer of an observer that was refused; and what is closed is gone from every
    table. *)

From Stdlib Require Import SpecFloat.
From stdpp Require Import gmap.
From S2P Require Import Prelude StateMonad Utils Rtcp RtpPacket RtpPacketSpec RtpParameters RtpListener Consumer AudioLevelObserver ActiveSpeakerObserver DataChannel ChannelMessageRegistrator.
From S2P Require Import MidExtension Ownership Router TransportEvents WorkerRequests RouterObservers RouterInvariant RouterClosing RouterOpening RouterTeardown.
From S2P Require Import RouterEvents TransportHandlers RouterTimers.

Module RouterSpec.

Import MidExtension Router TransportEvents WorkerRequests RouterInvariant RouterClosing RouterOpening RouterTeardown RouterEvents TransportHandlers RouterTimers.

(** ** Histories *)

(** A new router: nothing but itself, registered. *)
Definition initial (id : str) : World :=
  mkWorld id {| mapTransports := ∅; mapRtpObservers := ∅; mapProducerConsumers := ∅; mapConsumerProducer := ∅; mapProducerRtpObservers := ∅;
                mapProducers := ∅; mapDataProducerDataConsumers := ∅; mapDataConsumerDataProducer := ∅; mapDataProducers := ∅ |}
    {| ChannelMessageRegistrator.mapChannelRequestHandlers := {[id := HRouter]};
       ChannelMessageRegistrator.mapPayloadChannelRequestHandlers := ∅;
       ChannelMessageRegistrator.mapPayloadChannelNotificationHandlers := ∅ |}
    ∅ ∅ ∅ ∅ ∅ ∅ ∅ 1%positive [].

Section Histories.

Context (ln : spec_float -> spec_float).

(** Messages name any id, and every timer that was started may fire.  The rest comes from an
    object that exists, with packets that were parsed; the packets that a producer passes on have
    room for the MID. *)
Definition admissible (w : World) (e : Event) : Prop :=
  match e with
  | Request _ _ | Notification _ _ _ | PayloadRequest _ _ _ => True
  | ObserverTimer o => o ∈ timers w
  | TransportRtp t packet _ => is_Some (transports w !! t) /\ parsed packet
  | TransportRtcp t packets => is_Some (transports w !! t) /\ Forall rtcp_ok packets
  | TransportConnected t | TransportDisconnected t | TransportListenServerClosed t | SctpState t _ | SctpBufferedAmount t _
  | SctpMessage t _ _ _ => is_Some (transports w !! t)
  | ConsumerKeyFrameRequested t c _ => is_Some (transports w !! t) /\ is_Some (consumers w !! c)
  | ProducerNewRtpStream p _ | ProducerRtpStreamScore p _ _ _ | ProducerRtcpSenderReport p _ _ | ProducerNeedWorstRemoteFractionLost p _ =>
      is_Some (producers w !! p)
  | ProducerRtpPacket p packet => is_Some (producers w !! p) /\ mid_room packet
  end.

(** The worlds of a router, with the observers that were constructed and then refused on the way. *)
Inductive reached (id : str) : gset address -> World -> Prop :=
| reached_initial : reached id ∅ (initial id)
| reached_run refused w env e w' : reached id refused w -> env_ok env -> admissible w e -> run ln env e w = Ok (tt, w') ->
    reached id (refused ∪ refused_by ln env e w) w'.

(** *** Messages *)

Lemma handler_named w h id : Inv no_gap w -> ChannelMessageRegistrator.GetChannelRequestHandler (registrator w) id = Some h -> names w h = Some id.
Proof. intros Hi. apply (registered_request _ _ (inv_registered _ _ Hi)). Qed.

Lemma router_request_ok env w m : env_ok env -> Inv no_gap w -> total (router_request ln env m) (fun _ => Inv no_gap) w.
Proof.
  intros He Hi. destruct m; cbn [router_request].
  - by apply ROUTER_CREATE_TRANSPORT_ok.
  - apply ROUTER_CREATE_OBSERVER_ok; [done|]. intros d Hd. destruct (AudioLevelObserver.make _ _ _) as [s|] eqn:E; [|done]. injection Hd as <-. by eapply pristine_audio.
  - apply ROUTER_CREATE_OBSERVER_ok; [done|]. intros d [= <-]. by apply (pristine_speaker ln).
  - by apply ROUTER_CLOSE_TRANSPORT_ok.
  - by apply ROUTER_CLOSE_RTP_OBSERVER_ok.
Qed.

Lemma transport_request_ok env w t T m : env_ok env -> Inv no_gap w -> transports w !! t = Some T ->
  total (transport_request ln env t m) (fun _ => Inv no_gap) w.
Proof.
  intros He Hi HT. destruct m; cbn [transport_request].
  - by eapply TRANSPORT_PRODUCE_ok.
  - by eapply TRANSPORT_CONSUME_ok.
  - by eapply TRANSPORT_PRODUCE_DATA_ok.
  - by eapply TRANSPORT_CONSUME_DATA_ok.
  - by eapply TRANSPORT_CLOSE_PRODUCER_ok.
  - by eapply TRANSPORT_CLOSE_CONSUMER_ok.
  - by eapply TRANSPORT_CLOSE_DATA_PRODUCER_ok.
  - by eapply TRANSPORT_CLOSE_DATA_CONSUMER_ok.
  - by eapply TRANSPORT_SET_MAX_INCOMING_BITRATE_ok.
  - by eapply TRANSPORT_SET_MAX_OUTGOING_BITRATE_ok.
  - by eapply TRANSPORT_SET_MIN_OUTGOING_BITRATE_ok.
  - by eapply TRANSPORT_ENABLE_TRACE_EVENT_ok.
Qed.

Lemma observer_request_ok env w o x m : env_ok env -> Inv no_gap w -> observers w !! o = Some x ->
  total (observer_request ln env o m) (fun _ => Inv no_gap) w.
Proof.
  intros He Hi Ho. destruct m; cbn [observer_request].
  - by eapply (RTP_OBSERVER_PAUSE_ok ln).
  - by eapply (RTP_OBSERVER_RESUME_ok ln).
  - by eapply (RTP_OBSERVER_ADD_PRODUCER_ok ln).
  - by eapply RTP_OBSERVER_REMOVE_PRODUCER_ok.
Qed.

Lemma HandleRequest_ok env w id m : env_ok env -> Inv no_gap w -> total (HandleRequest ln env id m) (fun _ => Inv no_gap) w.
Proof.
  intros He Hi. unfold HandleRequest. do 2 step. destruct (ChannelMessageRegistrator.GetChannelRequestHandler (registrator w) id) as [h|] eqn:E; [|by step].
  apply (handler_named _ _ _ Hi) in E. destruct h, m; try (by step); cbn in E.
  - by apply router_request_ok.
  - destruct (transports w !! t) eqn:Et; [|done]. by eapply transport_request_ok.
  - destruct (producers w !! p) eqn:Ep; [|done]. destruct m; [by eapply (PRODUCER_PAUSE_ok ln)|by eapply (PRODUCER_RESUME_ok ln)].
  - destruct (observers w !! o) eqn:Eo; [|done]. by eapply observer_request_ok.
Qed.

Lemma HandleNotification_ok env w id ppid msg : env_ok env -> Inv no_gap w -> total (HandleNotification env id ppid msg) (fun _ => Inv no_gap) w.
Proof.
  intros He Hi. unfold HandleNotification. do 2 step.
  destruct (ChannelMessageRegistrator.GetPayloadChannelNotificationHandler (registrator w) id) as [h|] eqn:E; [|by step].
  apply (registered_notification _ _ (inv_registered _ _ Hi)) in E. destruct h; try (by step). cbn in E. destruct (dataProducers w !! p) as [o|] eqn:Ep; [|done].
  do 2 step. destruct (DataProducer.HandleNotification _ _ _); [|by step]. destruct ppid; [|by step]. step.
  eapply post_mono; [apply (DataProducerReceiveMessage_ok env He w p); [done|by eexists]|]. intros ? w' Hw. by step.
Qed.

Lemma HandlePayloadRequest_ok w id ppid msg : Inv no_gap w -> total (HandlePayloadRequest id ppid msg) (fun _ => Inv no_gap) w.
Proof.
  intros Hi. unfold HandlePayloadRequest. do 2 step.
  destruct (ChannelMessageRegistrator.GetPayloadChannelRequestHandler (registrator w) id) as [h|] eqn:E; [|by step].
  apply (registered_payload _ _ (inv_registered _ _ Hi)) in E. destruct h; try (by step). cbn in E. destruct (dataConsumers w !! c) as [o|] eqn:Ec; [|done].
  do 2 step. destruct (DataConsumer.HandleSend _ _ _); [|by step]. step. eapply on_dataConsumer_ok; [done|]. intros l. step. by apply Inv_put_dataConsumer.
Qed.

(** *** Events *)

(** The timer of an observer that was deleted, which only happens to a refused one. *)
Definition orphan (w : World) (e : Event) : Prop := exists o, e = ObserverTimer o /\ observers w !! o = None.

Lemma event_ok env w e : env_ok env -> Inv no_gap w -> admissible w e -> ~ orphan w e -> total (run ln env e) (fun _ => Inv no_gap) w.
Proof.
  intros He Hi Ha Ho. destruct e; cbn [run admissible] in *.
  - step. eapply post_mono; [by apply HandleRequest_ok|]. intros ? w' Hw. by step.
  - step. eapply post_mono; [by apply HandleNotification_ok|]. intros ? w' Hw. by step.
  - step. eapply post_mono; [by apply HandlePayloadRequest_ok|]. intros ? w' Hw. by step.
  - destruct (observers w !! o) as [x|] eqn:Hx; [by eapply ObserverOnTimer_ok|]. destruct Ho. by exists o.
  - destruct Ha as [T HT]. by eapply Connected_ok.
  - destruct Ha as [T HT]. by eapply Disconnected_ok.
  - by eapply OnTransportListenServerClosed_ok.
  - destruct Ha as [[T HT] Hp]. by eapply ReceiveRtpPacket_ok.
  - destruct Ha as [[T HT] Hp]. by eapply ReceiveRtcpPacket_ok.
  - destruct Ha as [T HT]. destruct s; [|by eapply sctp_state_ok..]. unfold OnSctpAssociationConnecting. repeat step. by apply Inv_calls.
  - destruct Ha as [T HT]. by eapply OnSctpAssociationBufferedAmount_ok.
  - destruct Ha as [T HT]. by eapply OnSctpAssociationMessageReceived_ok.
  - destruct Ha as [[T HT] Hc]. by eapply OnConsumerKeyFrameRequested_ok.
  - destruct Ha as [po Hp]. by eapply OnProducerNewRtpStream_ok.
  - destruct Ha as [po Hp]. by eapply told_consumers_ok.
  - destruct Ha as [po Hp]. by eapply told_consumers_ok.
  - destruct Ha as [po Hp]. by eapply told_consumers_ok.
  - destruct Ha as [[po Hp] Hr]. by eapply (OnProducerRtpPacketReceived_ok ln).
Qed.

Lemma Inv_initial id : Inv no_gap (initial id).
Proof.
  split; cbn; rewrite ?fmap_empty; try (by split); try done.
  - split; cbn; try done; intros; rewrite ?lookup_empty; split; [by intros [? ?]|by intros [[? ?] _]|by intros [? ?]|by intros [[? ?] _]].
  - split; cbn; try done; intros; rewrite ?lookup_empty; split; [by intros [? ?]|by intros [[? ?] _]|by intros [? ?]|by intros [[? ?] _]].
  - split; cbn; try done. by intros p o (os & Hos & _).
  - split; cbn; try done. intros k h. rewrite lookup_singleton_Some. split; [by intros [<- <-]|]. destruct h; cbn; rewrite ?lookup_empty; try done. by intros [= ->].
Qed.

Lemma orphan_faults env o w : observers w !! o = None -> run ln env (ObserverTimer o) w = Fault NullDeref.
Proof. intros H. cbn [run]. unfold ObserverOnTimer, mbind, St_bind, get_observer. by rewrite H. Qed.

Lemma reached_consistent id refused w : reached id refused w -> Inv no_gap w /\ owned refused w.
Proof.
  induction 1 as [|refused w env e w' _ [Hi Ho] He Ha E]; [split; [apply Inv_initial|done]|]. split.
  - assert (~ orphan w e) as Hn by (intros (o & -> & H); by rewrite (orphan_faults env o w H) in E).
    pose proof (event_ok env w e He Hi Ha Hn) as H. unfold post in H. by rewrite E in H.
  - pose proof (run_owned ln env refused e w Ho) as H. unfold post in H. by rewrite E in H.
Qed.

(** C1: no dangling pointer in a router.  Take a history of requests (to ids that exist or not,
    accepted or refused), notifications, timers, connections, SCTP messages and states, RTP and
    RTCP packets and callbacks of producers and consumers, in whatever order the hash maps are
    walked.  Packets were parsed, those that a producer passes on have room for the longest MID in
    their MID element, and callbacks come from objects that exist; any timer that was started may
    fire.  Then the next event is handled completely, no handler dereferencing a null or deleted
    object, failing an assertion or missing an entry, and the tables stay consistent: every
    object is in the tables of its transport and of the router and registered under its id, no
    table, listener or observer has an object that was closed, and no object outlives its
    transport.  There is one exception: the timer of an observer that was constructed and then
    refused earlier in the history dereferences the freed observer. *)
Theorem router_history_safe id refused w env e : reached id refused w -> env_ok env -> admissible w e ->
  (exists w', run ln env e w = Ok (tt, w') /\ Inv no_gap w') \/
  (exists o, e = ObserverTimer o /\ o ∈ refused /\ observers w !! o = None /\ run ln env e w = Fault NullDeref).
Proof.
  intros Hr He Ha. destruct (reached_consistent id refused w Hr) as [Hi Ho].
  assert (orphan w e \/ ~ orphan w e) as [(o & -> & Hd)|Hn].
  { destruct e as [| | |o| | | | | | | | | | | | | |]; try (right; by intros (? & ? & _)).
    destruct (observers w !! o) eqn:E; [right; intros (? & [= <-] & ?); congruence|left; by exists o]. }
  - right. exists o. split_and!; [done| |done|by apply orphan_faults].
    apply Ho, elem_of_union in Ha as [Ha|Ha]; [|done]. by apply elem_of_dom in Ha as [x Hx]; rewrite Hx in Hd.
  - left. pose proof (event_ok env w e He Hi Ha Hn) as H. unfold post in H. destruct (run ln env e w) as [[[] w']|]; [by exists w'|done].
Qed.

(** ** Forwarding *)

(** What the consumers [l] are sent. *)
Definition sent (l : list (address * RtpPacket.t)) : list call := (fun x => CConsumerSendRtpPacket x.1 x.2) <$> l.

(** Each consumer is sent the packet with its own MID. *)
Lemma forward_sends p l : forall packet w, remid p packet -> mid_room packet ->
  post (forward l packet) (fun _ w' => exists s, s.*1 = l /\ calls w' = calls w ++ sent s /\ consumers w' = consumers w /\
    forall c q, (c, q) ∈ s -> exists o, consumers w !! c = Some o /\ carries p (c_mid o) q) (fun _ => True) w.
Proof.
  induction l as [|c l IH]; intros packet w Hp Hr; cbn [forward].
  { step. exists []. rewrite app_nil_r. split_and!; [done..|]. intros c q Hc. set_solver. }
  step. unfold post at 1, get_consumer. destruct (consumers w !! c) as [o|] eqn:Eo; [|done]. cbn [deref mbind res_bind]. step.
  eapply (post_mono _ (fun q w' => w' = w /\ mid_room q /\ carries p (c_mid o) q)).
  { case_bool_decide as Hm.
    - step. split_and!; [done|done|]. rewrite Hm. by split.
    - apply post_from_res. destruct (UpdateMid_carries packet (c_mid o) Hr Hm) as (q & -> & Hq & Hc). split_and!; [done|done|]. by eapply carries_after. }
  intros q w' (-> & Hq & Hc). do 2 step. eapply post_mono; [apply IH; [apply Hc|done]|]. cbn beta. intros _ w' (s & <- & E & Ec & Hs). exists ((c, q) :: s).
  split_and!; [done|rewrite E; cbn; by rewrite <- app_assoc|done|]. intros c' q' [[= -> ->]|Hin]%elem_of_cons; [by exists o|by apply Hs].
Qed.

(** The observers do not send anything. *)
Lemma observers_silent env p packet l : always (fun w => calls w = l) (each_observer env p (ObserverReceiveRtpPacket env p packet)).
Proof.
  assert (forall o, always (fun w => calls w = l) (get_observer o)) as H1 by (intros o w Hw; unfold post, get_observer; by destruct (observers w !! o)).
  assert (forall o, always (fun w => calls w = l) (get_producer o)) as H2 by (intros o w Hw; unfold post, get_producer; by destruct (producers w !! o)).
  assert (forall o b s, always (fun w => calls w = l) (store_observer o b s)) as H3 by (intros o b s w Hw; done).
  unfold each_observer, ObserverReceiveRtpPacket. steady.
Qed.

(** C12: forwarding.  A packet that a producer which is not paused passes on, with room for the
    longest MID in its MID element, reaches every consumer that was made from that producer and is
    not closed, each once, and no other consumer.  What a consumer is sent is this packet: it
    differs in the bytes of the MID element only, and if the packet has that element and the
    consumer a MID of at most [MidMaxLength] bytes, the MID that is read from it is that of the
    consumer. *)
Theorem packet_forwarded id refused w env p po packet : reached id refused w -> env_ok env -> producers w !! p = Some po -> p_paused po = false -> mid_room packet ->
  exists w' s, run ln env (ProducerRtpPacket p packet) w = Ok (tt, w') /\ calls w' = calls w ++ sent s /\ NoDup s.*1 /\
    (forall c, c ∈ s.*1 <-> mapConsumerProducer (router w) !! c = Some p) /\
    forall c q, (c, q) ∈ s -> exists o, consumers w !! c = Some o /\ carries packet (c_mid o) q.
Proof.
  intros Hr He Hp Hpa Hm. destruct (reached_consistent id refused w Hr) as [Hi _]. destruct (watch_entry env He w p po Hi Hp) as (cs & os & Hcs & Hos).
  pose proof (event_ok env w (ProducerRtpPacket p packet) He Hi ltac:(by split; [eexists|]) ltac:(by intros (? & ? & _))) as H0.
  assert (post (run ln env (ProducerRtpPacket p packet)) (fun _ w' => exists s, s.*1 = walk env cs /\ calls w' = calls w ++ sent s /\
    forall c q, (c, q) ∈ s -> exists o, consumers w !! c = Some o /\ carries packet (c_mid o) q) (fun _ => True) w) as H1.
  { cbn [run]. unfold OnProducerRtpPacketReceived. do 2 step. rewrite Hpa. unfold OnTransportProducerRtpPacketReceived, map_at. do 3 step. rewrite Hcs. do 2 step.
    eapply post_mono; [apply (forward_sends packet); [apply remid_refl|done]|]. cbn beta. intros packet' w1 (s & Es & E1 & _ & Hs).
    eapply post_mono; [by apply (observers_silent env p packet' (calls w1))|]. cbn beta. intros _ w2 E2. exists s. by rewrite E2. }
  unfold post in H0, H1. destruct (run ln env (ProducerRtpPacket p packet) w) as [[[] w']|]; [|done]. destruct H1 as (s & Es & E & Hs). exists w', s.
  split_and!; [done|done|rewrite Es, (proj1 He); apply NoDup_elements| |done]. rewrite Es. intros c. rewrite (proj1 He), elem_of_elements. split.
  - intros Hc. eapply (routed_member _ _ _ _ _ _ _ _ _ (inv_media _ w Hi)); [done|done|set_solver].
  - intros Hc. destruct (routed_source _ _ _ _ _ _ _ _ _ (inv_media _ w Hi) c p Hc) as (cs' & ? & ?). by assert (cs' = cs) as -> by congruence.
Qed.

(** ** A timer that outlives its observer *)

(** C19: the timer of a refused observer.  The constructor of an observer starts its timer before
    it registers.  If its id belongs to an object of another kind the request is rejected and
    the observer freed, but the timer still runs, and dereferences the observer when it fires. *)
Theorem refused_observer_timer id refused w env id' interval h : reached id refused w -> env_ok env ->
  ChannelMessageRegistrator.GetChannelRequestHandler (registrator w) id' = Some h -> mapRtpObservers (router w) !! id' = None ->
  exists w', run ln env (Request (routerId w) (MRouter (CreateActiveSpeakerObserver id' interval))) w = Ok (tt, w') /\
    fresh w ∈ timers w' /\ exists f, run ln env (ObserverTimer (fresh w)) w' = Fault f.
Proof.
  intros Hr He Hh Ho. destruct (reached_consistent id refused w Hr) as [Hi _]. destruct (inv_fresh _ _ Hi (fresh w)) as (_ & _ & _ & _ & _ & F6); [done|].
  assert (ChannelMessageRegistrator.GetChannelRequestHandler (registrator w) (routerId w) = Some HRouter) as Hrt.
  { by apply (registered_request _ _ (inv_registered _ _ Hi)). }
  cbn [run]. unfold HandleRequest. unfold mbind, St_bind, asks. rewrite Hrt. cbn [router_request]. unfold ROUTER_CREATE_OBSERVER, mbind, St_bind, asks. rewrite Ho.
  unfold alloc, set_timers, change, register, mbind, St_bind, asks, ChannelMessageRegistrator.RegisterHandler. cbn -[initial].
  unfold ChannelMessageRegistrator.GetChannelRequestHandler in Hh. rewrite Hh. cbn. eexists. split; [done|]. cbn. split; [set_solver|].
  unfold ObserverOnTimer, mbind, St_bind, get_observer. cbn. rewrite F6. by eexists.
Qed.

End Histories.

(** ** A concrete history

    A router with a transport, an audio producer, two consumers of it and an observer. *)

Definition any_order : Env :=
  {| nowMs := 1000; walk := elements; walk_ids := elements; consumer_active := fun _ => true; consumer_rtt := fun _ => S754_zero false |}.

Definition sample_ln (x : spec_float) : spec_float := x.

Definition sample_requests : list (str * Method) :=
  [([1], MRouter (CreateTransport [2] (Some {| td_direct := false; td_sctp := true; td_maxMessageSize := 1000; td_initialBitrate := 600000 |})));
   ([2], MTransport (Produce [3] (Some {| pd_kind := Consumer.Consumer.AUDIO;
            pd_parameters := {| RtpListener.encodings := [{| RtpListener.ssrc := 4; RtpListener.rtx_ssrc := 0; RtpListener.rid := [] |}]; RtpListener.mid := [7] |};
            pd_paused := false; pd_ids := no_ids; pd_transportCc := false; pd_remb := false |})));
   ([2], MTransport (Consume [3] [4] (Some {| cd_mid := [48]; cd_mediaSsrcs := [10]; cd_rtxSsrcs := []; cd_kind := Consumer.Consumer.AUDIO; cd_ids := no_ids;
            cd_transportCc := false; cd_remb := false |})));
   ([2], MTransport (Consume [3] [5] (Some {| cd_mid := [49; 50]; cd_mediaSsrcs := [11]; cd_rtxSsrcs := []; cd_kind := Consumer.Consumer.AUDIO; cd_ids := no_ids;
            cd_transportCc := false; cd_remb := false |})));
   ([1], MRouter (CreateActiveSpeakerObserver [6] 300));
   ([6], MObserver (AddProducer [3]))].

Fixpoint after (l : list (str * Method)) (w : World) : World :=
  match l with
  | [] => w
  | (id, m) :: l' => match run sample_ln any_order (Request id m) w with Ok (_, w') => after l' w' | Fault _ => w end
  end.

Definition sample_world : World := after sample_requests (initial [1]).

Lemma any_order_ok : env_ok any_order.
Proof. by split. Qed.

Lemma reached_after l : forall w, forall refused, reached sample_ln [1] refused w -> exists refused', reached sample_ln [1] refused' (after l w).
Proof.
  induction l as [|[id m] l IH]; intros w refused Hr; cbn [after]; [by exists refused|].
  destruct (run _ _ _ w) as [[[] w']|] eqn:E; [|by exists refused]. eapply IH, reached_run; [exact Hr|apply any_order_ok| |exact E]. exact I.
Qed.

Lemma sample_world_reached : exists refused, reached sample_ln [1] refused sample_world.
Proof. eapply reached_after, reached_initial. Qed.

Definition sample_rtp : RtpPacket.t := RtpPacket.set_ids RtpPacketSpec.sample_packet RtpPacketSpec.sample_ids.

Lemma sample_rtp_room : mid_room sample_rtp.
Proof.
  split; try done.
  - by eexists.
  - intros _ e [= <-]. split; [done|]. split; [intros h [= <-]; by vm_compute|]. by exists 33.
  - intros e [= <-]. done.
Qed.

Lemma router_history_safe_witness : exists w', run sample_ln any_order (Request [1] (MRouter (CloseTransport [2]))) sample_world = Ok (tt, w') /\ Inv no_gap w'.
Proof.
  destruct sample_world_reached as [refused Hr].
  destruct (router_history_safe sample_ln [1] refused sample_world any_order (Request [1] (MRouter (CloseTransport [2])))) as [H|(o & E & _)];
    [exact Hr|apply any_order_ok|exact I|exact H|discriminate E].
Defined.

Lemma packet_forwarded_witness : exists w' s, run sample_ln any_order (ProducerRtpPacket 2 sample_rtp) sample_world = Ok (tt, w') /\
  calls w' = calls sample_world ++ sent s /\ NoDup s.*1 /\ (forall c, c ∈ s.*1 <-> mapConsumerProducer (router sample_world) !! c = Some 2%positive) /\
  forall c q, (c, q) ∈ s -> exists o, consumers sample_world !! c = Some o /\ carries sample_rtp (c_mid o) q.
Proof.
  destruct sample_world_reached as [refused Hr].
  eapply (packet_forwarded sample_ln [1] refused sample_world any_order 2); [exact Hr|apply any_order_ok|by vm_compute|done|apply sample_rtp_room].
Defined.

Lemma refused_observer_timer_witness : exists w', run sample_ln any_order (Request (routerId sample_world) (MRouter (CreateActiveSpeakerObserver [2] 300))) sample_world = Ok (tt, w') /\
  fresh sample_world ∈ timers w' /\ exists f, run sample_ln any_order (ObserverTimer (fresh sample_world)) w' = Fault f.
Proof.
  destruct sample_world_reached as [refused Hr].
  eapply (refused_observer_timer sample_ln [1] refused sample_world any_order [2] 300); [exact Hr|apply any_order_ok|by vm_compute|by vm_compute].
Defined.

(** The MIDs that the two consumers read. *)
Example sample_mids : match run sample_ln any_order (ProducerRtpPacket 2 sample_rtp) sample_world with
  | Ok (_, w') => omap (fun c => match c with CConsumerSendRtpPacket c q => Some (c, RtpPacket.ReadMid q) | _ => None end) (calls w')
  | Fault _ => []
  end = [(3%positive, Ok (Some [48])); (4%positive, Ok (Some [49; 50]))].
Proof. by vm_compute. Qed.

(** The history ends with the two consumers of the producer. *)
Example sample_consumers : mapConsumerProducer (router sample_world) !! 3%positive = Some 2%positive /\
  mapConsumerProducer (router sample_world) !! 4%positive = Some 2%positive /\ size (consumers sample_world) = 2%nat /\ size (observers sample_world) = 1%nat.
Proof. by vm_compute. Qed.

End RouterSpec.
